(* ===== verification/_CoqProject ===== *)
-Q . S2P
Prelude.v
Float32.v
TimeSource.v
Hmac.v
Ccm.v
Attestation.v
VerifiedBoot.v
TransportEncryption.v
AuditLog.v
ReplayProtection.v
RuleEngine.v
SensorValidation.v
ActuatorFailsafe.v
SafetyMonitor.v
FaultTree.v
DeviceIdentity.v
OtaCanary.v
ConfigEngine.v
PowerState.v
PowerProfile.v
TamperDetect.v
JtagDisable.v
SensorDriver.v
EdgeAuth.v
FlashPartition.v
Firmware.v
DomainProfile.v
HomeProfile.v
AgricultureProfile.v
WaterProfile.v
HvacProfile.v
OtaSession.v
NetResilience.v
Crc.v
Rs485.v
EdgeNode.v
Zigbee.v
Text.v
Diagnostics.v
Printf.v
TelemetryStore.v
Influx.v
Mqtt.v
MqttNative.v
CloudIngestion.v
StatefulCache.v
DeltaFilter.v
BatchFrame.v
Lora.v
ConfigPortal.v
Historian.v
GatewayAuth.v
EdgeTrust.v
IngestionHandler.v
HubMain.v
BatchForwarder.v
MbedCommon.v
HashStream.v
Sha256.v
Md.v
ConstantTime.v
Sha1.v
Md5.v
Ripemd160.v
Sha512.v
Aes.v
AesFips.v
AesInverse.v
AesCtr.v
AesModes.v
AesXts.v
Cipher.v
CipherModes.v
CcmAes.v
CcmSpec.v
CcmLaws.v
Cmac.v
CipherAead.v
TransportWire.v
Oid.v
