(* ===== verification/Prelude.v ===== *)
(** * A verification of the generic IoT platform firmware

    The repository is the C firmware of a three-tier IoT system: battery powered
    edge nodes, gateways that collect their readings, and a hub that validates
    them, evaluates the rules of a domain (home, agriculture, HVAC, water
    treatment) and drives actuators.  Shared modules give every tier identity,
    attestation, authenticated links, an audit log, over-the-air updates and
    fail-safe behaviour.  This library translates the modules into executable
    definitions, under their C names, and proves the properties that make them
    correct.  Where the code does not have the property one expects, the
    theorem states what it does instead.

    ** How C is modelled

    - Unsigned integers are [Z] values of their range; every operation that can
      wrap writes the wrap out with [u8], [u16], [u32] or [u64].
    - Bytes are [Z] below 256, buffers and arrays are lists.  A [float] is its
      32-bit pattern with the IEEE 754 arithmetic of [SpecFloat] (Float32).
    - A struct is a record with the C field names, an enum an inductive type, a
      pointer that may be NULL an [option], the statics of a file a record
      [state] that its functions take and return.
    - A [for] loop over a fixed table is [find_index], [find_first] or a fold
      over the slots in use; every loop of the firmware is structural, so its
      definitions need no fuel and every one of them is total.  Fuel bounds
      digits only: 20 in [Text.print_u], enough for 64 bits ([value_print_u]),
      and 84 exponents in [Printf.six_digits], enough for a float
      ([six_digits_range]); the readers of JSON and line protocol that the
      round trips use take the length of their input.
    - mbedTLS is modelled as the Makefile's [config.h] compiles it: of a
      function with conditional parts, the parts that are compiled; files of
      their own hold the digests and modes that the configuration leaves out.  Its loops
      over an input take the length of the input as fuel, which is enough since
      every turn consumes a byte or more ([while_blocks] in HashStream,
      [crypt_loop] in AesCtr, [mac_rest] and [crypt_loop] in CcmAes): the
      theorems that give the result of a call would fail if it ran out.  The
      tables that [aes.c] computes on first use are statics, [aes_statics].
      Whether a [calloc] succeeds is an argument of the call.
    - Text buffers hold C strings, lists without a zero; [snprintf] returns the
      cut text and the full length.  Where the code can run past a buffer
      (Influx), stores go through a bounds check and the result is an [option].
    - Callbacks (storage, clocks, radio, flash backends) are fields of a record,
      functions of an outside world of a type [W] that the operations thread
      through.  What a theorem needs of them is a class with an instance that
      shows it can hold: [MdHmacOk] (the digest size of mbedTLS HMAC), [CcmOk]
      (the laws of CCM), both proved of the vendored code ([mbed_hmac_ok] in Md,
      [mbed_ccm_ok] in CcmLaws), [StorageOk] (a storage that keeps what it saves),
      [BackendOk] (a flash backend).  Modules of the firmware promise things to
      each other in the same way: [CrcOk] (a byte-wise CRC in which one damaged
      byte shows) to the two link protocols, [FailsafeTableOk] (a table and the
      decision function that reads it agree) from the four domains to the hub.
    - Struct bytes that are hashed follow the little-endian ABI of the targets.

    ** Files, what they model and what they show

    - Prelude: record update, machine words, byte codecs, constant-time
      comparison, C strings, scans of tables, keyed tables as maps.
    - Float32: binary32 values.
    - TimeSource (shared/time_source.c): NTP, RTC, unreliable.
      [get_ms_reliable_iff]: reliable exactly when the reading is positive.
    - Ccm: the interface of mbedTLS CCM, its laws and a toy cipher.
    - Hmac, Attestation (shared/attestation.c): the key table refines a map
      ([register_refines_map]); a response is accepted exactly when it is the
      HMAC of the challenge under an active key ([verify_ok_iff]) and is bound
      to it ([response_bound_to_challenge]); a full table cannot revoke a key
      ([full_table_cannot_revoke]).
    - VerifiedBoot (shared/verified_boot.c), on top of Hmac: the boot decision
      ([full_check_decides], [hash_binds_descriptor]); with a failing HMAC a
      zero hash is valid ([failed_hmac_accepts_zero_hash]).
    - TransportEncryption (shared/transport_encryption.c): two sessions deliver
      each other's messages despite losses ([sessions_deliver]); accepted frames
      are authentic with increasing counters ([accepted_once_and_authentic]);
      nonces of a session are distinct ([session_nonces_distinct]); frames are
      replayable across sessions ([next_session_accepts_replay]) and a restart
      repeats nonces ([restart_repeats_nonce]).
    - AuditLog (shared/audit_log.c): up to 32 events verify
      ([chain_verifies_until_full]) and tampering shows up to HMAC collisions
      ([tamper_evident]); after a wrap the log stops verifying
      ([chain_fails_after_wrap], [count_wraps_at_256]).
    - ReplayProtection (shared/replay_protection.c): the bitmap window refines
      the set of accepted nonces ([check_node_refines]), hence [no_replay].
    - RuleEngine (shared/rule_engine_core.c): evaluation is the filter of the
      rule table ([evaluate_spec]); the commanded state depends on the direction
      of the rule only ([commanded_state_by_direction]).
    - SensorValidation (shared/sensor_validation.c): [range_gate]; NaN passes
      ([nan_reading_is_valid]); the reference of the rate check
      ([rate_reference]).
    - ActuatorFailsafe (shared/actuator_failsafe.c): [execute_after_register].
    - SafetyMonitor (shared/safety_monitor.c): a step relation of the monitor;
      [emergency_latched], [check_deadlines], [missed_count_always_zero].
    - FaultTree (shared/fault_tree.c): [report_degrades], [clear_recovers].
    - DeviceIdentity (shared/device_identity.c): [provisioned_once],
      [pending_version_lifecycle].
    - OtaCanary (shared/ota_canary.c): the group table refines a map of rollouts
      ([rollouts_refine_map]); a failing rollout stops ([failing_rollout_stops]);
      how stopping relates to the header's rule ([stopped_against_header],
      [zero_threshold_never_stops], [late_stop]); a wave only grows
      ([wave_grows]).
    - ConfigEngine (shared/config_engine.c): the parameters refine a map
      ([params_refine_map]) for keys that fit ([long_key_lost]); the active
      profile ([set_active_spec], [full_engine_cannot_update]).
    - PowerState (edge/power_state.c): the state is a function of the lowest
      reading and settles ([state_of_lowest], [power_state_settles]).
    - PowerProfile (shared/power_profile.c): [register_appends],
      [evaluate_action], [small_threshold_shuts_down].
    - TamperDetect (shared/tamper_detect.c), on top of AuditLog:
      [tamper_refines], [boot_tamper_not_logged].
    - JtagDisable (shared/jtag_disable.c): [disabled_iff_confirmed],
      [init_reenables].
    - SensorDriver (edge/sensor_driver.c): drivers, mock hardware, registry.
    - EdgeAuth (edge/edge_attestation.c), on top of Attestation: the node's
      answer satisfies the hub ([edge_response_accepted]); the node trusts
      itself with any key ([any_key_authenticates]).
    - FlashPartition (shared/flash_partition.c): the slot manager over a backend
      interface, and the proof that the in-memory backend implements it.
    - Firmware (shared/firmware_integrity.c, shared/ota_manifest.c):
      [image_accepted_iff] and the compatibility check.
    - OtaSession (shared/ota_session.c), a client of the previous five and of
      DeviceIdentity: [session_assembles_image] against the backend interface;
      [image_hmac_ignored], [abort_blocks_updates], [reboot_never_confirms],
      [self_check_wipes_tables].
    - NetResilience (shared/net_resilience.c): the offline ring refines a FIFO
      ([queue_refines_fifo]); [reconnect_backoff];
      [moderate_pressure_same_rate].
    - DomainProfile, HomeProfile, AgricultureProfile, WaterProfile, HvacProfile
      (profiles/): the rule and fail-safe tables of the four domains with their
      validation; the compressor's short-cycle protection
      ([restart_allowed_iff]).
    - Crc: the laws of a byte-wise CRC-16 that the link protocols share.
    - Rs485 (shared/rs485_protocol.c): [parse_encode] and the detection of any
      one-byte error ([one_byte_error_detected]).
    - EdgeNode (edge/edge_config.c, edge/edge_node.c), on top of SensorDriver,
      EdgeAuth and Rs485: [config_survives_reboot]; what a round sends and the
      gateway parses ([frame_reaches_gateway]); [stats_balance].
    - Zigbee (shared/zigbee_handler.c): the link is a mailbox of one message
      ([zigbee_refines_mailbox]); [last_seven_bytes_refused].
    - Text, Printf: the C library's decimal conversions, [snprintf], [strtof]
      and [%g], checked on examples; bounds on the lengths of printed numbers.
    - Diagnostics (shared/diagnostics.c): the counters and the ring of changes
      refine a table of named numbers and a log ([counters_refine_table]); the
      JSON text fits its buffer and reads back ([json_reads_back]);
      [changes_have_no_time].
    - TelemetryStore (cloud/telemetry_store.c): [tenant_isolation],
      [cardinality_exact]; [forged_token_accepted].
    - Influx (shared/influxdb_client.c): a telemetry write reaches the bucket of
      its tenant and is one point to a reader of the line protocol
      ([telemetry_reaches_bucket]), which what the encoder leaves unescaped is
      not ([unescaped_identifiers]); batches ([batch_sends_lines]), what always
      fits ([plain_telemetry_fits]) and what runs past the buffer
      ([long_telemetry_overruns]); [bucket_of_tenant], [query_ignores_tenant].
    - Mqtt, MqttNative (shared/mqtt_client.c): the two builds of the client;
      [subscribe_delivers], [wildcard_never_delivers], [builds_agree].
    - CloudIngestion (cloud/ingestion_service.c), on top of TelemetryStore and
      the topics of Mqtt: [topic_roundtrip], [ingested_point_readable];
      [long_tenants_merge], [default_warning_never_fires].
    - Lora (shared/lora_handler.c), over the radio as a callback: a message is
      sent or received after a join only ([data_only_after_join], [join_iff]);
      a radio that acknowledges one attempt in time delivers the payload
      ([send_delivers]); damage of one byte shows ([damaged_packet_rejected]);
      a lost acknowledgement delivers twice ([retry_delivers_twice]).
    - StatefulCache, DeltaFilter (gateway/stateful_cache.c,
      gateway/delta_filter.c): [write_refines_map], [active_entries_wraps],
      [filter_after_set].
    - BatchFrame (the codec of gateway/batch_forwarder.c): [decode_encode],
      [encode_overruns_buffer].
    - ConfigPortal (hub/config_portal.c), on top of AuditLog:
      [last_admin_kept], [accounts_change_by_admin], [authenticate_iff];
      [at_most_four_logins], [session_outlives_account],
      [write_accepts_any_rule].
    - GatewayAuth (gateway/gateway_auth.c), on top of AuditLog, Attestation and
      BatchFrame: [ingest_authentic], up to the low byte of the node id
      ([aliased_node_accepted]); [replayed_frame_accepted],
      [expiry_not_enforced].
    - EdgeTrust: EdgeAuth, Attestation and the tracker of GatewayAuth composed,
      from a challenge to a trusted node ([node_gains_trust]).
    - Historian (hub/historian.c), over the cipher interface of Ccm: the ring
      of encrypted records refines the list of the records written, aged and
      bounded, and answers queries from it, also after a reboot
      ([history_survives_reboot]); a clock that steps back:
      [clock_step_back_erases], [ring_wrap_repeats_nonce].
    - IngestionHandler (hub/ingestion_handler.c), a client of GatewayAuth,
      RuleEngine, SensorValidation and Historian: what a poll makes readable in
      the history, field by field, and that it is authentic, attested and
      validated ([poll_records_validated]); [entries_accounted]; rules are counted and
      never executed ([poll_never_actuates]).
    - HubMain (hub/main.c): the start-up order and the main loop over the
      previous modules and the selected domain; what each rule of each domain
      commands ([profile_commands]) and what its actuators do on a loss
      ([failsafe_decisions]), where holding the last state has no end
      ([held_for_ever]); as started, the hub accepts no frame
      ([hub_ingests_nothing]); [frost_reading_rejected].
    - BatchForwarder (gateway/batch_forwarder.c): the path from the gateway's
      cache to the hub's entries ([flush_reaches_hub]).

    The cryptography, under src/lib/mbedtls/library/:

    - MbedCommon: error codes, the byte macros of common.h, xor of blocks, and
      their algebra.
    - HashStream: the buffering that the Merkle-Damgard digests of mbedTLS share
      (a total, a partial block, the padding), against the padding of a whole
      message, for any compression function ([digest_stream]); module rounds has
      the rotations, message schedules, length fields and unrolled rounds that
      the compression functions share.
    - Sha256 (sha256.c): SHA-224 and SHA-256 over HashStream, equal to FIPS
      180-4 however the message is cut into updates ([sha256_stream_is_fips]);
      the count of bytes is lost from 4 GiB on ([sha256_update_4gib_uncounted]).
    - Md (md.c): contexts, digests and HMAC by dispatch on the digest, equal to
      RFC 2104 ([hmac_stream_is_rfc2104]); [mbed_hmac] implements [MdHmac].
    - ConstantTime (constant_time.c beyond what the build uses): the branch-free
      operations are what they compute without their masks: base64
      ([base64_roundtrip]), copies ([memcpy_offset_spec], [mem_move_to_left_spec]),
      big numbers ([mpi_lt_mpi_ct_spec], [safe_cond_swap_spec]), PKCS#1 v1.5
      unpadding ([pkcs1_unpadding_spec]) and HMAC of a message of secret length
      ([ct_hmac_is_hmac]).
    - Aes (aes.c): the tables, both key schedules, the block functions, ECB and
      CTR.  AesFips holds FIPS 197, AesInverse the lengths and bytes of the
      schedules, the equality of encryption with FIPS 197
      ([aes_encrypt_is_fips197]) and that decryption inverts it, AesCtr counter
      mode against SP 800-38A.
    - AesModes, AesXts (aes.c, the modes the configuration leaves out): CBC, CFB128,
      CFB8 and OFB are SP 800-38A ([cbc_is_sp800_38a], [cfb_is_sp800_38a],
      [ofb_is_sp800_38a]), XTS is IEEE 1619 ([xts_is_ieee1619]), in both
      directions; in place XTS loses a partial block ([xts_in_place_loses_tail]).
    - Sha1, Md5, Ripemd160, Sha512 (sha1.c, md5.c, ripemd160.c, sha512.c), which
      the Makefile leaves out: equal to FIPS 180-4, RFC 1321 and the definition of
      RIPEMD-160, constants included ([sha1_stream_is_fips], [md5_stream_is_rfc],
      [ripemd160_stream_is_rmd], [sha512_stream_is_fips]); the two compression
      functions of sha512.c agree ([smaller_is_unrolled]).
    - Cipher (cipher.c, cipher_wrap.c): cipher contexts over the class
      [CipherObject]; counter mode through them ([cipher_ctr_is_sp800_38a]).
    - CipherModes (cipher.c, cipher_wrap.c, the modes the configuration leaves out):
      the paddings, an interface [PaddingOk] with three instances, and CBC, CFB,
      OFB and XTS contexts; a message goes through both directions however it is
      cut ([cbc_stream_roundtrip], [feedback_stream_roundtrip],
      [xts_through_cipher_layer]).
    - CcmAes (ccm.c), CcmSpec (SP 800-38C), CcmLaws: CCM seals as the standard
      says ([ccm_seal_is_sp800_38c]), opens exactly what sealing produces
      ([ccm_open_iff_seal]) and refuses the lengths it must ([ccm_refuses]);
      [mbed_ccm] implements [Ccm].
    - CipherAead: the CCM contexts and the AEAD calls of the cipher layer
      ([aead_ext_roundtrip]).
    - Cmac (cmac.c, left out by the Makefile): CMAC over AES contexts is SP 800-38B
      ([cmac_stream_is_sp800_38b]), AES-CMAC-PRF-128 is RFC 4615
      ([prf_128_is_rfc4615]).
    - TransportWire: TransportEncryption over that code, from [init] to the
      frame on the wire ([frames_are_standard]).
    - Oid (oid.c): the tables of object identifiers, their look-ups
      and the dotted form.

    ** Not modelled

    Of mbedTLS the parts of cipher.c, cipher_wrap.c and md.c that dispatch to code
    outside the repository (GCM, ChaCha20, DES, Camellia, ARIA, ARC4, Blowfish,
    NIST key wrap, MD2 and MD4, PSA) or that [config.h] compiles out of the digest
    layer, the hardware code of AES, the self tests, whose vectors are examples
    here, and the headers that declare what no file of the repository defines
    (PSA, TLS, X.509); [mbedtls_mpi_grow] is a parameter. A call on an
    mbedTLS context that was not set up, where C would follow a NULL pointer,
    is given an error result. Tests, the hardware-in-the-loop scripts and the
    set-up code of the boards (pins, radio drivers, serial output) are left
    out as glue and I/O; the vendor's MQTT client and the HTTP transport are
    functions of the outside world. NULL contexts are modelled where a
    function distinguishes them; other context pointers are taken as valid. *)

From stdpp Require Export base list numbers option strings relations.
From Stdlib Require Export ZArith Lia Bool Sorted.

#[global] Open Scope Z_scope.

(** ** C-style record update *)

(** [Eta R] spells a record out field by field; the setter of a projection is
    found by abstracting the projection in that spelling. *)
Class Eta (R : Type) := eta_expand : R -> R.
Class Setter {R F : Type} (proj : R -> F) := set_field : F -> R -> R.

Ltac find_setter :=
  lazymatch goal with
  | |- @Setter ?R ?F ?proj =>
      let inst := constr:(_ : Eta R) in
      let body := eval hnf in inst in
      lazymatch eval pattern proj in body with
      | ?ctx _ =>
          let s := constr:(fun (v : F) => ctx (fun _ : R => v)) in
          let s' := eval cbv beta in s in
          exact s'
      end
  end.
#[export] Hint Extern 0 (Setter _) => find_setter : typeclass_instances.

Declare Scope c_scope.
Delimit Scope c_scope with c.
Notation "r <| f := v |>" := (set_field (proj := f) v r)
  (at level 1, left associativity, f at level 9, v at level 200,
   format "r  <| f  :=  v |>") : c_scope.
#[global] Open Scope c_scope.

(** ** Machine words *)

(** Unsigned C integers are the [Z] values of their range; every operation
    that can wrap says so with the wrap of its width. *)
Definition u8 (x : Z) : Z := x mod 2 ^ 8.
Definition u16 (x : Z) : Z := x mod 2 ^ 16.
Definition u32 (x : Z) : Z := x mod 2 ^ 32.
Definition u64 (x : Z) : Z := x mod 2 ^ 64.

Definition is_u8 (x : Z) : Prop := 0 <= x < 256.
Definition is_u16 (x : Z) : Prop := 0 <= x < 65536.
Definition is_u32 (x : Z) : Prop := 0 <= x < 4294967296.
Definition is_u64 (x : Z) : Prop := 0 <= x < 18446744073709551616.

Lemma u8_range x : is_u8 (u8 x).
Proof. unfold is_u8, u8. pose proof (Z.mod_pos_bound x (2 ^ 8)). lia. Qed.
Lemma u16_range x : is_u16 (u16 x).
Proof. unfold is_u16, u16. pose proof (Z.mod_pos_bound x (2 ^ 16)). lia. Qed.
Lemma u32_range x : is_u32 (u32 x).
Proof. unfold is_u32, u32. pose proof (Z.mod_pos_bound x (2 ^ 32)). lia. Qed.
Lemma u64_range x : is_u64 (u64 x).
Proof. unfold is_u64, u64. pose proof (Z.mod_pos_bound x (2 ^ 64)). lia. Qed.

Lemma u8_small x : is_u8 x -> u8 x = x.
Proof. intros H. apply Z.mod_small. exact H. Qed.
Lemma u16_small x : is_u16 x -> u16 x = x.
Proof. intros H. apply Z.mod_small. exact H. Qed.
Lemma u32_small x : is_u32 x -> u32 x = x.
Proof. intros H. apply Z.mod_small. exact H. Qed.
Lemma u64_small x : is_u64 x -> u64 x = x.
Proof. intros H. apply Z.mod_small. exact H. Qed.

Create HintDb words.
#[export] Hint Resolve u8_range u16_range u32_range u64_range : words.

(** Arithmetic on wrapped words: turn every wrap into a division equation. *)
Ltac words :=
  unfold is_u8, is_u16, is_u32, is_u64, u8, u16, u32, u64 in *;
  change (2 ^ 8) with 256 in *; change (2 ^ 16) with 65536 in *;
  change (2 ^ 32) with 4294967296 in *;
  change (2 ^ 64) with 18446744073709551616 in *;
  Z.div_mod_to_equations; lia.

(** ** Case analysis and reflection *)

(** Turn the boolean tests of the code into propositions. *)
Ltac reflect :=
  repeat match goal with
  | H : _ && _ = true |- _ => apply andb_true_iff in H; destruct H
  | H : _ || _ = false |- _ => apply orb_false_iff in H; destruct H
  | H : negb _ = true |- _ => apply negb_true_iff in H
  | H : negb _ = false |- _ => apply negb_false_iff in H
  | H : (_ =? _) = true |- _ => apply Z.eqb_eq in H
  | H : (_ =? _) = false |- _ => apply Z.eqb_neq in H
  | H : (_ <? _) = true |- _ => apply Z.ltb_lt in H
  | H : (_ <? _) = false |- _ => apply Z.ltb_ge in H
  | H : (_ <=? _) = true |- _ => apply Z.leb_le in H
  | H : (_ <=? _) = false |- _ => apply Z.leb_gt in H
  | H : bool_decide _ = true |- _ => apply bool_decide_eq_true in H
  | H : bool_decide _ = false |- _ => apply bool_decide_eq_false in H
  end.

(** Split every [if] and [match] of the goal, then simplify. *)
Ltac cases := repeat (case_match; simplify_eq/=); reflect.

(** ** Bytes *)

Definition byte_list (l : list Z) : Prop := Forall is_u8 l.

Definition zeros (n : nat) : list Z := replicate n 0.

Lemma zeros_length n : length (zeros n) = n.
Proof. apply length_replicate. Qed.

Lemma zeros_bytes n : byte_list (zeros n).
Proof. apply Forall_replicate. unfold is_u8. lia. Qed.
#[export] Hint Resolve zeros_bytes : words.

(** Little- and big-endian encodings of the low [8*n] bits of a word, as the
    shift-and-mask sequences of the source write them. *)
Fixpoint le_bytes (n : nat) (x : Z) : list Z :=
  match n with
  | O => []
  | S n => Z.land x 255 :: le_bytes n (Z.shiftr x 8)
  end.

Definition be_bytes (n : nat) (x : Z) : list Z := rev (le_bytes n x).

Fixpoint le_value (l : list Z) : Z :=
  match l with
  | [] => 0
  | b :: l => Z.lor b (Z.shiftl (le_value l) 8)
  end.

Definition be_value (l : list Z) : Z := le_value (rev l).

Lemma land_255 x : Z.land x 255 = x mod 256.
Proof. change 255 with (Z.ones 8). rewrite Z.land_ones by lia. reflexivity. Qed.

Lemma shiftr_8 x : Z.shiftr x 8 = x / 256.
Proof. rewrite Z.shiftr_div_pow2 by lia. reflexivity. Qed.

Lemma shiftl_8 x : Z.shiftl x 8 = x * 256.
Proof. rewrite Z.shiftl_mul_pow2 by lia. reflexivity. Qed.

Lemma lor_shift_add b x : is_u8 b -> Z.lor b (Z.shiftl x 8) = b + 256 * x.
Proof.
  intros Hb. pose proof (Z.add_lor_land b (Z.shiftl x 8)) as Hadd.
  enough (Z.land b (Z.shiftl x 8) = 0) by (rewrite shiftl_8 in *; lia).
  apply Z.bits_inj'. intros i Hi. rewrite Z.land_spec, Z.bits_0.
  destruct (Z_lt_ge_dec i 8) as [Hlt|Hge].
  - rewrite Z.shiftl_spec_low by lia. apply andb_false_r.
  - replace (Z.testbit b i) with false; [reflexivity|].
    rewrite <- (Z.mod_small b (2 ^ 8)) by exact Hb.
    symmetry. apply Z.mod_pow2_bits_high. lia.
Qed.

Lemma le_bytes_length n x : length (le_bytes n x) = n.
Proof. revert x. induction n; intros; cbn; auto. Qed.

Lemma be_bytes_length n x : length (be_bytes n x) = n.
Proof. unfold be_bytes. rewrite length_rev. apply le_bytes_length. Qed.

Lemma le_bytes_bytes n x : byte_list (le_bytes n x).
Proof.
  revert x. induction n; intros; constructor; [|apply IHn].
  rewrite land_255. unfold is_u8. pose proof (Z.mod_pos_bound x 256). lia.
Qed.

Lemma be_bytes_bytes n x : byte_list (be_bytes n x).
Proof. apply Forall_rev, le_bytes_bytes. Qed.
#[export] Hint Resolve le_bytes_bytes be_bytes_bytes : words.

Lemma le_value_le_bytes n x : le_value (le_bytes n x) = x mod 256 ^ Z.of_nat n.
Proof.
  revert x. induction n as [|n IH]; intros x.
  - cbn. rewrite Z.mod_1_r. reflexivity.
  - cbn [le_bytes le_value]. rewrite land_255, shiftr_8, lor_shift_add, IH by words.
    rewrite Nat2Z.inj_succ, Z.pow_succ_r by lia.
    rewrite Z.rem_mul_r by lia. reflexivity.
Qed.

(** Decoding the encoding of a word of [n] bytes gives the word back. *)
Lemma le_roundtrip n x : 0 <= x < 256 ^ Z.of_nat n -> le_value (le_bytes n x) = x.
Proof. intros H. rewrite le_value_le_bytes. apply Z.mod_small, H. Qed.

Lemma be_roundtrip n x : 0 <= x < 256 ^ Z.of_nat n -> be_value (be_bytes n x) = x.
Proof. intros H. unfold be_value, be_bytes. rewrite rev_involutive. apply le_roundtrip, H. Qed.

Lemma le_bytes_le_value l : byte_list l -> le_bytes (length l) (le_value l) = l.
Proof.
  induction l as [|b l IH]; intros Hl; [reflexivity|].
  inversion_clear Hl. cbn [length le_value le_bytes].
  rewrite lor_shift_add, land_255, shiftr_8 by assumption. f_equal.
  - unfold is_u8 in *. Z.div_mod_to_equations; lia.
  - replace ((b + 256 * le_value l) / 256) with (le_value l)
      by (unfold is_u8 in *; Z.div_mod_to_equations; lia). auto.
Qed.

Lemma le_value_range l : byte_list l -> 0 <= le_value l < 256 ^ Z.of_nat (length l).
Proof.
  intros Hl. rewrite <- (le_bytes_le_value l Hl) at 1 2.
  rewrite le_value_le_bytes. apply Z.mod_pos_bound. apply Z.pow_pos_nonneg; lia.
Qed.

Lemma le_bytes_inj n x y :
  0 <= x < 256 ^ Z.of_nat n -> 0 <= y < 256 ^ Z.of_nat n ->
  le_bytes n x = le_bytes n y -> x = y.
Proof.
  intros Hx Hy H. rewrite <- (le_roundtrip n x), <- (le_roundtrip n y) by assumption.
  congruence.
Qed.

Lemma be_bytes_inj n x y :
  0 <= x < 256 ^ Z.of_nat n -> 0 <= y < 256 ^ Z.of_nat n ->
  be_bytes n x = be_bytes n y -> x = y.
Proof.
  intros Hx Hy H. apply (le_bytes_inj n); try assumption.
  unfold be_bytes in H. apply (f_equal (@rev Z)) in H. rewrite !rev_involutive in H. exact H.
Qed.

#[global] Arguments le_bytes : simpl never.
#[global] Arguments be_bytes : simpl never.
#[global] Arguments zeros : simpl never.

(** ** Constant-time comparison *)

(** [diff |= a[i] ^ b[i]] over the bytes of two buffers. *)
Fixpoint ct_diff (a b : list Z) : Z :=
  match a, b with
  | x :: a, y :: b => Z.lor (Z.lxor x y) (ct_diff a b)
  | _, _ => 0
  end.

Lemma ct_diff_nonneg a b : byte_list a -> byte_list b -> 0 <= ct_diff a b.
Proof.
  revert b. induction a as [|x a IH]; intros [|y b] Ha Hb; cbn; try lia.
  inversion_clear Ha. inversion_clear Hb. apply Z.lor_nonneg. split; [|auto].
  apply Z.lxor_nonneg. unfold is_u8 in *. lia.
Qed.

(** The accumulated difference of two equally long buffers is zero exactly
    when the buffers are equal. *)
Lemma ct_diff_zero a b :
  length a = length b -> (ct_diff a b = 0 <-> a = b).
Proof.
  revert b. induction a as [|x a IH]; intros [|y b] Hlen; try discriminate Hlen.
  - split; reflexivity.
  - injection Hlen as Hlen. cbn. rewrite Z.lor_eq_0_iff, Z.lxor_eq_0_iff, (IH b Hlen).
    split; [intros [-> ->]; reflexivity | intros [= -> ->]; auto].
Qed.

Definition ct_equal (a b : list Z) : bool := ct_diff a b =? 0.

Lemma ct_equal_spec a b : length a = length b -> ct_equal a b = bool_decide (a = b).
Proof.
  intros Hlen. unfold ct_equal. pose proof (ct_diff_zero a b Hlen) as H.
  destruct (Z.eqb_spec (ct_diff a b) 0); case_bool_decide; tauto.
Qed.

Lemma ct_equal_refl a : ct_equal a a = true.
Proof. rewrite ct_equal_spec by reflexivity. apply bool_decide_eq_true. reflexivity. Qed.

(** ** C strings *)

(** The bytes of a string literal, without the terminating NUL. *)
Definition cstr (s : string) : list Z :=
  map (fun b => Z.of_N (Ascii.N_of_ascii b)) (String.list_ascii_of_string s).

(** [strncpy(dst, src, n)]: at most [n] bytes of [src], NUL-padded to [n]. *)
Definition strncpy (n : nat) (src : list Z) : list Z :=
  take n src ++ zeros (n - length src).

Lemma strncpy_length n src : length (strncpy n src) = n.
Proof. unfold strncpy, zeros. rewrite length_app, length_take, length_replicate. lia. Qed.

(** [memcpy(dst, src, length src)]; the callers establish that [src] fits. *)
Definition blit (src dst : list Z) : list Z := src ++ drop (length src) dst.

Lemma blit_length src dst :
  (length src <= length dst)%nat -> length (blit src dst) = length dst.
Proof. intros H. unfold blit. rewrite length_app, length_drop. lia. Qed.

Lemma take_blit src dst : take (length src) (blit src dst) = src.
Proof. apply take_app_length. Qed.

(** [strlen] of a NUL-terminated buffer: the bytes before the first NUL. *)
Fixpoint cstr_of (buf : list Z) : list Z :=
  match buf with
  | [] => []
  | b :: buf => if b =? 0 then [] else b :: cstr_of buf
  end.

(** A C string: the bytes before the NUL. *)
Definition c_string (s : list Z) : Prop := Forall (fun b => b <> 0) s.

Lemma cstr_of_app s l : c_string s -> cstr_of (s ++ 0 :: l) = s.
Proof.
  induction 1 as [|b s Hb _ IH]; [reflexivity|]. cbn.
  destruct (Z.eqb_spec b 0); [contradiction|]. rewrite IH. reflexivity.
Qed.

Lemma c_string_take n s : c_string s -> c_string (take n s).
Proof. intros H. apply Forall_take, H. Qed.

Lemma cstr_of_c_string buf : c_string (cstr_of buf).
Proof.
  induction buf as [|b buf IH]; [constructor|]. cbn.
  destruct (Z.eqb_spec b 0); constructor; assumption.
Qed.

(** A truncating copy that the caller terminates. *)
Lemma cstr_of_strncpy n s : c_string s -> cstr_of (strncpy n s ++ [0]) = take n s.
Proof.
  intros H. unfold strncpy, zeros. rewrite <- app_assoc.
  destruct (n - length s)%nat as [|k]; cbn; apply cstr_of_app, c_string_take, H.
Qed.

(** ** Tables: fixed arrays scanned by a [for] loop *)

(** The first index whose element satisfies the loop's test. *)
Fixpoint find_index {A} (p : A -> bool) (l : list A) : option nat :=
  match l with
  | [] => None
  | x :: l => if p x then Some O else S <$> find_index p l
  end.

Section find_index.
Context {A : Type}.
Implicit Types (p : A -> bool) (l : list A) (i : nat).

Lemma find_index_Some p l i :
  find_index p l = Some i <->
  (exists x, l !! i = Some x /\ p x = true) /\
  (forall j y, (j < i)%nat -> l !! j = Some y -> p y = false).
Proof.
  revert i. induction l as [|x l IH]; intros i; cbn.
  - split; [discriminate|]. intros [(x & Hx & _) _]. rewrite lookup_nil in Hx. discriminate.
  - destruct (p x) eqn:Hp.
    + split.
      * intros [= <-]. split; [exists x; auto|]. intros j y Hj. lia.
      * intros [_ H]. destruct i as [|i]; [reflexivity|].
        specialize (H 0%nat x ltac:(lia) eq_refl). congruence.
    + rewrite fmap_Some. split.
      * intros (k & Hk & ->). apply IH in Hk as [Hx Hmin]. split; [exact Hx|].
        intros [|j] y Hj Hy; cbn in Hy; [congruence|]. apply (Hmin j); [lia|exact Hy].
      * intros [(y & Hy & Hpy) Hmin]. destruct i as [|i]; cbn in Hy; [congruence|].
        exists i. split; [|reflexivity]. apply IH. split; [eauto|].
        intros j z Hj Hz. apply (Hmin (S j)); [lia|exact Hz].
Qed.

Lemma find_index_None p l :
  find_index p l = None <-> (forall x, x ∈ l -> p x = false).
Proof.
  induction l as [|x l IH]; cbn.
  - split; [|reflexivity]. intros _ x Hx. apply elem_of_nil in Hx. tauto.
  - destruct (p x) eqn:Hp.
    + split; [discriminate|]. intros H. specialize (H x ltac:(left)). congruence.
    + rewrite fmap_None, IH. split.
      * intros H y [->|Hy]%elem_of_cons; auto.
      * intros H y Hy. apply H. right. exact Hy.
Qed.

Lemma find_index_lookup p l i :
  find_index p l = Some i -> exists x, l !! i = Some x /\ p x = true.
Proof. intros H. apply find_index_Some in H. tauto. Qed.

Lemma find_index_lt p l i : find_index p l = Some i -> (i < length l)%nat.
Proof. intros (x & Hx & _)%find_index_lookup. eapply lookup_lt_Some, Hx. Qed.

(** Storing an element the loop cannot tell from the old one. *)
Lemma find_index_insert_same p l i x y :
  l !! i = Some y -> p x = p y -> find_index p (<[i := x]> l) = find_index p l.
Proof.
  revert i. induction l as [|z l IH]; intros [|i] Hi Hp; try discriminate Hi.
  - injection Hi as ->. cbn. rewrite Hp. reflexivity.
  - change (<[S i := x]> (z :: l)) with (z :: <[i := x]> l). cbn. rewrite (IH i Hi Hp). reflexivity.
Qed.

(** Storing the only match. *)
Lemma find_index_insert_new p l i x :
  find_index p l = None -> (i < length l)%nat -> p x = true ->
  find_index p (<[i := x]> l) = Some i.
Proof.
  revert i. induction l as [|z l IH]; intros i Hn Hi Hp; [cbn in Hi; lia|].
  cbn in Hn. destruct (p z) eqn:Hz; [discriminate|]. apply fmap_None in Hn.
  destruct i as [|i].
  - change (<[0%nat := x]> (z :: l)) with (x :: l). cbn. rewrite Hp. reflexivity.
  - change (<[S i := x]> (z :: l)) with (z :: <[i := x]> l). cbn.
    rewrite Hz, IH by (cbn in Hi; auto; lia). reflexivity.
Qed.

End find_index.

(** The number of elements a counting loop finds. *)
Definition count_if {A} (p : A -> bool) (l : list A) : nat := length (List.filter p l).

Section count_if.
Context {A : Type} (p : A -> bool).

Lemma count_if_cons x l : count_if p (x :: l) = (Nat.b2n (p x) + count_if p l)%nat.
Proof. unfold count_if. cbn. destruct (p x); reflexivity. Qed.

Lemma count_if_snoc l x : count_if p (l ++ [x]) = (count_if p l + Nat.b2n (p x))%nat.
Proof. unfold count_if. rewrite List.filter_app, length_app. cbn. destruct (p x); reflexivity. Qed.

Lemma count_if_insert l i x y :
  l !! i = Some y ->
  (count_if p (<[i := x]> l) + Nat.b2n (p y) = count_if p l + Nat.b2n (p x))%nat.
Proof.
  revert i. induction l as [|z l IH]; intros [|i] Hi; try discriminate Hi.
  - injection Hi as ->. change (<[0%nat := x]> (y :: l)) with (x :: l). rewrite !count_if_cons. lia.
  - change (<[S i := x]> (z :: l)) with (z :: <[i := x]> l). rewrite !count_if_cons.
    specialize (IH i Hi). lia.
Qed.

Lemma count_if_le l : (count_if p l <= length l)%nat.
Proof. apply List.filter_length_le. Qed.

End count_if.
#[global] Arguments count_if : simpl never.

(** The first element satisfying the loop's test. *)
Definition find_first {A} (p : A -> bool) (l : list A) : option A :=
  i ← find_index p l; l !! i.

Lemma find_first_Some {A} (p : A -> bool) (l : list A) x :
  find_first p l = Some x -> x ∈ l /\ p x = true.
Proof.
  unfold find_first. intros (i & Hi & Hx)%bind_Some.
  apply find_index_lookup in Hi as (y & Hy & Hp). simplify_eq.
  split; [|assumption]. eapply list_elem_of_lookup_2; eassumption.
Qed.

Lemma find_first_snoc {A} (p : A -> bool) (l : list A) x :
  find_first p (l ++ [x]) =
  match find_first p l with Some y => Some y | None => if p x then Some x else None end.
Proof.
  unfold find_first. induction l as [|y l IH]; cbn; [destruct (p x); reflexivity|].
  destruct (p y); [reflexivity|]. destruct (find_index p (l ++ [x])), (find_index p l); cbn in *; exact IH.
Qed.

(** Changing an entry in a way the test does not see. *)
Lemma find_index_alter {A} (p : A -> bool) (f : A -> A) i (l : list A) :
  (forall x, p (f x) = p x) -> find_index p (alter f i l) = find_index p l.
Proof.
  intros Hf. revert i. induction l as [|y l IH]; intros [|i]; cbn; [reflexivity..| |].
  - rewrite Hf. reflexivity.
  - destruct (p y); [reflexivity|]. f_equal. apply IH.
Qed.

Lemma find_first_None {A} (p : A -> bool) (l : list A) :
  find_first p l = None <-> (forall x, x ∈ l -> p x = false).
Proof.
  unfold find_first. rewrite <- find_index_None. split; [|intros ->; reflexivity].
  destruct (find_index p l) as [i|] eqn:Hi; [|reflexivity].
  apply find_index_lookup in Hi as (x & Hx & _). cbn. congruence.
Qed.

(** The entries of a table in use: the first [count] slots. *)
Definition used {A} (count : Z) (table : list A) : list A := take (Z.to_nat count) table.

(** [table[i] = x]; the callers establish [0 <= i < length table]. *)
Definition store {A} (i : Z) (x : A) (table : list A) : list A := <[Z.to_nat i := x]> table.

Lemma store_length {A} i (x : A) t : length (store i x t) = length t.
Proof. apply length_insert. Qed.

Lemma nth_store {A} (l : list A) i j x d :
  0 <= i < Z.of_nat (length l) -> 0 <= j ->
  nth (Z.to_nat j) (store i x l) d = if j =? i then x else nth (Z.to_nat j) l d.
Proof.
  intros Hi Hj. unfold store. rewrite !nth_lookup. destruct (Z.eqb_spec j i) as [->|Hne].
  - rewrite list_lookup_insert_eq by lia. reflexivity.
  - rewrite list_lookup_insert_ne by lia. reflexivity.
Qed.


Lemma used_store_append {A} (count : Z) (x : A) (t : list A) :
  0 <= count < Z.of_nat (length t) ->
  used (count + 1) (store count x t) = used count t ++ [x].
Proof.
  intros H. unfold used, store.
  replace (Z.to_nat (count + 1)) with (S (Z.to_nat count)) by lia.
  rewrite (take_S_r _ _ x) by (apply list_lookup_insert_eq; lia).
  rewrite take_insert_ge by lia. reflexivity.
Qed.

Lemma used_store_inside {A} (count : Z) (i : nat) (x : A) (t : list A) :
  (i < Z.to_nat count)%nat ->
  used count (<[i := x]> t) = <[i := x]> (used count t).
Proof. intros H. unfold used. rewrite take_insert_lt by exact H. reflexivity. Qed.

(** Updating a field of [table[i]] in place. *)
Lemma used_alter {A} (count : Z) (f : A -> A) i (l : list A) : used count (alter f i l) = alter f i (used count l).
Proof.
  unfold used. generalize (Z.to_nat count) as n. revert i.
  induction l as [|y l IH]; intros [|i] [|n]; cbn; try reflexivity. f_equal. apply IH.
Qed.

Lemma alter_lookup {A} (f : A -> A) (l : list A) i x :
  l !! i = Some x -> alter f i l = <[i := f x]> l.
Proof.
  revert i. induction l as [|y l IH]; intros [|i] Hi; try discriminate Hi.
  - injection Hi as ->. reflexivity.
  - cbn. f_equal. apply IH, Hi.
Qed.

Lemma used_length {A} (count : Z) (t : list A) :
  0 <= count <= Z.of_nat (length t) -> length (used count t) = Z.to_nat count.
Proof. intros H. unfold used. rewrite length_take. lia. Qed.

(** In a list without repeated keys an element is known by its key. *)
Lemma NoDup_fmap_elem_inj {A K} (f : A -> K) (l : list A) x y :
  NoDup (f <$> l) -> x ∈ l -> y ∈ l -> f x = f y -> x = y.
Proof.
  intros Hnd Hx Hy Hf. apply list_elem_of_lookup in Hx as (i & Hi), Hy as (j & Hj).
  assert (i = j) as ->; [|congruence].
  apply (NoDup_lookup (f <$> l) i j (f x) Hnd); rewrite list_lookup_fmap, ?Hi, ?Hj; cbn; congruence.
Qed.

(** Picking some of the elements of a list, in order. *)
Lemma filter_sublist {A} (p : A -> bool) (l : list A) : List.filter p l `sublist_of` l.
Proof.
  induction l as [|x l IH]; cbn; [constructor|]. destruct (p x); constructor; exact IH.
Qed.

Lemma sublist_fmap_inv {A B} (f : A -> B) (l : list B) (k : list A) :
  l `sublist_of` f <$> k -> exists k', k' `sublist_of` k /\ l = f <$> k'.
Proof.
  revert l. induction k as [|x k IH]; intros l Hl.
  - apply sublist_nil_r in Hl as ->. exists []. split; [constructor|reflexivity].
  - rewrite fmap_cons in Hl. apply sublist_cons_r in Hl as [Hl|(l' & -> & Hl)].
    + destruct (IH _ Hl) as (k' & Hk & ->). exists k'. split; [constructor; exact Hk|reflexivity].
    + destruct (IH _ Hl) as (k' & Hk & ->). exists (x :: k'). split; [constructor; exact Hk|reflexivity].
Qed.

Lemma sublist_StronglySorted {A} (R : A -> A -> Prop) (l k : list A) :
  l `sublist_of` k -> StronglySorted R k -> StronglySorted R l.
Proof.
  induction 1 as [|x l k Hl IH|x l k Hl IH]; intros Hk; [constructor| |].
  - apply StronglySorted_inv in Hk as [Hk Hx]. constructor; [auto|]. rewrite Forall_forall in Hx |- *.
    intros y Hy. apply Hx. eapply sublist_subseteq; eassumption.
  - apply StronglySorted_inv in Hk as [Hk _]. auto.
Qed.

Lemma seq_StronglySorted j n : StronglySorted lt (seq j n).
Proof.
  revert j. induction n as [|n IH]; intros j; cbn; constructor; [apply IH|].
  apply Forall_forall. intros i Hi. apply elem_of_seq in Hi. lia.
Qed.

(** ** Keyed tables

    Most components keep a table that is scanned for a key, updated in place
    when the key is present and extended at the end otherwise.  [test k x] is
    the comparison the loop makes; it decides whether [x] has key [k]. *)

Section keyed.
Context {A K : Type} (key : A -> K) (test : K -> A -> bool).
Context (test_spec : forall k x, test k x = true <-> key x = k).
Implicit Types (l : list A) (x y : A) (k : K) (i : nat).

Definition keyed_lookup k l : option A := find_first (test k) l.

Definition upsert k x l : list A :=
  match find_index (test k) l with
  | Some i => <[i := x]> l
  | None => l ++ [x]
  end.

Lemma test_false k x : test k x = false <-> key x <> k.
Proof. rewrite <- (test_spec k x). destruct (test k x); split; congruence. Qed.

Lemma keyed_lookup_cons k x l :
  keyed_lookup k (x :: l) = if test k x then Some x else keyed_lookup k l.
Proof.
  unfold keyed_lookup, find_first. cbn. destruct (test k x); [reflexivity|].
  destruct (find_index (test k) l); reflexivity.
Qed.

Lemma keyed_lookup_Some k l x : keyed_lookup k l = Some x -> x ∈ l /\ key x = k.
Proof. intros [Hin Ht]%find_first_Some. rewrite test_spec in Ht. auto. Qed.

Lemma keyed_lookup_None k l : keyed_lookup k l = None <-> (forall x, x ∈ l -> key x <> k).
Proof.
  unfold keyed_lookup. rewrite find_first_None. split; intros H x Hx; apply H in Hx;
  [apply test_false in Hx|apply test_false]; assumption.
Qed.

Lemma keyed_lookup_elem k l x :
  NoDup (key <$> l) -> x ∈ l -> key x = k -> keyed_lookup k l = Some x.
Proof.
  induction l as [|y l IH]; intros Hnd Hin Hk; [apply elem_of_nil in Hin; tauto|].
  rewrite fmap_cons, NoDup_cons in Hnd. destruct Hnd as [Hy Hnd].
  rewrite keyed_lookup_cons. destruct (test k y) eqn:Ht.
  - apply test_spec in Ht. apply elem_of_cons in Hin as [->|Hin]; [reflexivity|].
    exfalso. apply Hy. rewrite Ht, <- Hk. apply list_elem_of_fmap_2. exact Hin.
  - apply elem_of_cons in Hin as [->|Hin]; [|auto].
    apply test_false in Ht. congruence.
Qed.

Lemma keyed_lookup_app k l x :
  keyed_lookup k (l ++ [x]) =
  match keyed_lookup k l with
  | Some y => Some y
  | None => if test k x then Some x else None
  end.
Proof.
  induction l as [|y l IH]; [exact (keyed_lookup_cons k x [])|].
  change ((y :: l) ++ [x]) with (y :: (l ++ [x])).
  rewrite !keyed_lookup_cons. destruct (test k y); auto.
Qed.

Lemma find_index_lookup_None k l : find_index (test k) l = None -> keyed_lookup k l = None.
Proof. unfold keyed_lookup, find_first. intros ->. reflexivity. Qed.

Lemma keyed_lookup_update k i l x :
  find_index (test (key x)) l = Some i ->
  keyed_lookup k (<[i := x]> l) = if test k x then Some x else keyed_lookup k l.
Proof.
  revert i. induction l as [|y l IH]; intros i Hi; [discriminate|].
  cbn in Hi. destruct (test (key x) y) eqn:Hy.
  - injection Hi as <-. change (<[0%nat := x]> (y :: l)) with (x :: l).
    rewrite !keyed_lookup_cons. apply test_spec in Hy. destruct (test k x) eqn:Hx; [reflexivity|].
    rewrite test_false in Hx. rewrite <- Hy in Hx.
    apply test_false in Hx. rewrite Hx. reflexivity.
  - apply fmap_Some in Hi as (j & Hj & ->).
    change (<[S j := x]> (y :: l)) with (y :: <[j := x]> l).
    rewrite !keyed_lookup_cons, (IH j Hj).
    destruct (test k y) eqn:Hky; [|reflexivity].
    destruct (test k x) eqn:Hkx; [|reflexivity].
    apply test_spec in Hky, Hkx. apply test_false in Hy. congruence.
Qed.

(** Inserting a record makes it the one found under its key and changes no
    other lookup. *)
Lemma upsert_lookup k l x :
  keyed_lookup k (upsert (key x) x l) = if test k x then Some x else keyed_lookup k l.
Proof.
  unfold upsert. destruct (find_index (test (key x)) l) as [i|] eqn:Hi.
  - apply keyed_lookup_update, Hi.
  - rewrite keyed_lookup_app. apply find_index_lookup_None in Hi.
    destruct (test k x) eqn:Hx; [|destruct (keyed_lookup k l); reflexivity].
    apply test_spec in Hx. subst k. rewrite Hi. reflexivity.
Qed.

Lemma keys_update k i l x :
  find_index (test k) l = Some i -> key x = k -> key <$> <[i := x]> l = key <$> l.
Proof.
  intros Hi Hk. rewrite list_fmap_insert. apply list_insert_id.
  apply find_index_lookup in Hi as (y & Hy & Ht). apply test_spec in Ht.
  rewrite list_lookup_fmap, Hy. cbn. congruence.
Qed.

(** Storing at the place of a key changes the one element with that key. *)
Lemma keyed_store (f : A -> A) k i l x :
  NoDup (key <$> l) -> l !! i = Some x -> key x = k ->
  <[i := f x]> l = (fun y => if test k y then f y else y) <$> l.
Proof.
  intros Hnd Hi Hk. apply list_eq. intros j. rewrite list_lookup_fmap.
  destruct (decide (i = j)) as [<-|Hne].
  - rewrite list_lookup_insert_eq by (eapply lookup_lt_Some, Hi). rewrite Hi. cbn.
    apply test_spec in Hk. rewrite Hk. reflexivity.
  - rewrite list_lookup_insert_ne by exact Hne. destruct (l !! j) as [y|] eqn:Hj; [|reflexivity]. cbn.
    destruct (test k y) eqn:Ht; [|reflexivity]. apply test_spec in Ht. exfalso. apply Hne.
    apply (NoDup_lookup (key <$> l) i j (key x) Hnd); rewrite list_lookup_fmap, ?Hi, ?Hj; cbn; congruence.
Qed.

Lemma upsert_NoDup k l x :
  key x = k -> NoDup (key <$> l) -> NoDup (key <$> upsert k x l).
Proof.
  intros Hk Hnd. unfold upsert. destruct (find_index (test k) l) as [i|] eqn:Hi.
  - rewrite (keys_update k) by assumption. exact Hnd.
  - rewrite fmap_app, NoDup_app. split; [exact Hnd|]. split; [|apply NoDup_singleton].
    intros k' Hk' Hin. cbn in Hin. apply list_elem_of_singleton in Hin. subst k'.
    apply list_elem_of_fmap in Hk' as (y & Hy & Hin).
    rewrite find_index_None in Hi. specialize (Hi y Hin). apply test_false in Hi. congruence.
Qed.

Lemma upsert_length k l x :
  length (upsert k x l) =
  (length l + if find_index (test k) l is Some _ then 0 else 1)%nat.
Proof.
  unfold upsert. destruct (find_index (test k) l).
  - rewrite length_insert. lia.
  - rewrite length_app. reflexivity.
Qed.

End keyed.
