(* ===== verification/Float32.v ===== *)
(** IEEE 754 binary32 values, the C [float] of the firmware.

    A [float] is its 32-bit pattern, as it is stored, copied into frames by
    [memcpy] and read back; its arithmetic is that of the Standard Library's
    specification of floating point ([SpecFloat]), instantiated at precision 24
    and exponent bound 128, rounding to nearest even.  NaN results are the
    default quiet NaN. *)

From S2P Require Import Prelude.
From Stdlib Require Import SpecFloat.

Module float32.

Definition prec : Z := 24.
Definition emax : Z := 128.

(** The bit pattern of a C [float] object. *)
Definition float : Type := Z.

Definition decode (b : float) : spec_float :=
  let s := Z.testbit b 31 in
  let e := Z.land (Z.shiftr b 23) 255 in
  let m := Z.land b 8388607 in
  if e =? 255 then (if m =? 0 then S754_infinity s else S754_nan)
  else if e =? 0 then
    match m with Zpos p => S754_finite s p (-149) | _ => S754_zero s end
  else match m + 8388608 with Zpos p => S754_finite s p (e - 150) | _ => S754_nan end.

Definition sign_bit (s : bool) : Z := if s then 2147483648 else 0.

Definition encode (x : spec_float) : float :=
  match x with
  | S754_zero s => sign_bit s
  | S754_infinity s => sign_bit s + 2139095040
  | S754_nan => 2143289344
  | S754_finite s m e =>
      if Zpos m <? 8388608 then sign_bit s + Zpos m
      else sign_bit s + (e + 150) * 8388608 + (Zpos m - 8388608)
  end.

(** Comparisons: every one of them is false on NaN. *)
Definition flt (a b : float) : bool := SFltb (decode a) (decode b).
Definition fle (a b : float) : bool := SFleb (decode a) (decode b).
Definition fgt (a b : float) : bool := flt b a.
Definition fge (a b : float) : bool := fle b a.
Definition feq (a b : float) : bool := SFeqb (decode a) (decode b).

Definition fadd (a b : float) : float := encode (SFadd prec emax (decode a) (decode b)).
Definition fsub (a b : float) : float := encode (SFsub prec emax (decode a) (decode b)).
Definition fmul (a b : float) : float := encode (SFmul prec emax (decode a) (decode b)).
Definition fdiv (a b : float) : float := encode (SFdiv prec emax (decode a) (decode b)).
Definition fneg (a : float) : float := encode (SFopp (decode a)).
Definition fabsf (a : float) : float := encode (SFabs (decode a)).

(** [(float)n] for an unsigned integer [n]. *)
Definition of_uint (n : Z) : float := encode (binary_normalize prec emax n 0 false).

(** The literal [n.f] and the literal [n/d] written as a decimal. *)
Definition lit (n : Z) : float := of_uint n.
Definition lit_frac (n d : Z) : float := fdiv (of_uint n) (of_uint d).

Definition f_zero : float := 0.

Definition is_nan (a : float) : bool :=
  match decode a with S754_nan => true | _ => false end.

(** The quiet NaN every invalid operation returns. *)
Definition qnan : float := 2143289344.

Lemma is_nan_qnan : is_nan qnan = true.
Proof. reflexivity. Qed.

Example lit_1 : lit 1 = 0x3F800000.
Proof. reflexivity. Qed.
Example lit_tenth : lit_frac 1 10 = 0x3DCCCCCD.
Proof. vm_compute. reflexivity. Qed.
Example lit_neg40 : lit (-40) = 0xC2200000.
Proof. vm_compute. reflexivity. Qed.

(** [<] and [>=] are complementary on numbers, both false on NaN. *)
Lemma sfcompare_antisym x y :
  SFcompare x y = CompOpp <$> SFcompare y x.
Proof.
  destruct x as [[]|[]| |[] mx ex], y as [[]|[]| |[] my ey]; try reflexivity;
  cbn [SFcompare fmap option_fmap option_map];
  rewrite (Z.compare_antisym ey ex); destruct (ey ?= ex)%Z; cbn; try reflexivity;
  rewrite ?(Pos.compare_cont_antisym my mx); cbn;
  rewrite ?Pos.compare_cont_antisym; cbn; rewrite ?CompOpp_involutive; reflexivity.
Qed.

Lemma flt_fge a b :
  is_nan a = false -> is_nan b = false -> fge a b = negb (flt a b).
Proof.
  unfold is_nan, fge, fle, flt, SFleb, SFltb. intros Ha Hb.
  rewrite (sfcompare_antisym (decode b)).
  assert (exists c, SFcompare (decode a) (decode b) = Some c) as [c ->].
  { destruct (decode a) as [[]|[]| |[]], (decode b) as [[]|[]| |[]];
      try discriminate; cbn; eauto; case_match; eauto. }
  destruct c; reflexivity.
Qed.

Lemma is_nan_unordered a b :
  is_nan a = true -> flt a b = false /\ fle a b = false /\ flt b a = false /\
                     fle b a = false /\ feq a b = false.
Proof.
  unfold is_nan, flt, fle, feq. destruct (decode a); try discriminate. intros _.
  destruct (decode b) as [[]|[]| |[]]; repeat split; reflexivity.
Qed.

End float32.
