(* ===== verification/TimeSource.v ===== *)
(** The time source (firmware/shared/time_source.c): NTP first, then the RTC
    chip, then "unreliable", behind a mock that the tests can set.

    The NTP, RTC and storage callbacks are code outside the repository: they
    are the fields of [TimeSourceBackend_t] and [TimeSourceStorage_t], functions
    that read and change an outside world of type [W]. *)

From S2P Require Import Prelude.

Module time_source.

Inductive TimeSourceState_t :=
| TIME_SRC_UNINITIALISED
| TIME_SRC_NTP_ACTIVE
| TIME_SRC_RTC_ONLY
| TIME_SRC_UNRELIABLE.

#[export] Instance TimeSourceState_eq_dec : EqDecision TimeSourceState_t.
Proof. solve_decision. Defined.

(** A callback pointer: NULL or a function of the outside world. *)
Record TimeSourceBackend_t (W : Type) := {
  ntp_time_get : option (W -> Z * W);
  ntp_is_synced : option (W -> bool * W);
  rtc_time_get : option (W -> Z * W);
  rtc_is_available : option (W -> bool * W) }.
Arguments ntp_time_get {W} _. Arguments ntp_is_synced {W} _.
Arguments rtc_time_get {W} _. Arguments rtc_is_available {W} _.

(** [load] receives the current value behind its out-pointer and returns the
    value it leaves there. *)
Record TimeSourceStorage_t (W : Type) := {
  save : option (Z -> W -> bool * W);
  load : option (Z -> W -> bool * Z * W) }.
Arguments save {W} _. Arguments load {W} _.

Record state (W : Type) := mk_state {
  s_state : TimeSourceState_t;
  s_backend : option (TimeSourceBackend_t W);
  s_storage : option (TimeSourceStorage_t W);
  s_mock_time : Z;
  s_mock_reliable : bool;
  s_mock_active : bool;
  s_mock_rtc_persistent : Z;
  s_mock_rtc_persistent_loaded : bool }.
Arguments mk_state {W}. Arguments s_state {W}. Arguments s_backend {W}.
Arguments s_storage {W}. Arguments s_mock_time {W}. Arguments s_mock_reliable {W}.
Arguments s_mock_active {W}. Arguments s_mock_rtc_persistent {W}.
Arguments s_mock_rtc_persistent_loaded {W}.

#[export] Instance eta_state W : Eta (state W) := fun r =>
  mk_state (s_state r) (s_backend r) (s_storage r) (s_mock_time r) (s_mock_reliable r)
    (s_mock_active r) (s_mock_rtc_persistent r) (s_mock_rtc_persistent_loaded r).

Section time_source.
Context {W : Type}.
Implicit Types (st : state W) (w : W).

(** The static initialisers of the file. *)
Definition initial : state W :=
  mk_state TIME_SRC_UNINITIALISED None None 0 false false 0 false.

Definition mock_rtc_persist st w : W :=
  match s_storage st ≫= save with
  | Some f => snd (f (s_mock_rtc_persistent st) w)
  | None => w
  end.

Definition time_source_set_storage st (storage : option (TimeSourceStorage_t W)) : state W :=
  st <| s_storage := storage |>.

Definition time_source_init st w : bool * state W * W :=
  let st := st <| s_state := TIME_SRC_UNINITIALISED |> <| s_mock_active := false |>
               <| s_mock_time := 0 |> <| s_mock_reliable := false |>
               <| s_mock_rtc_persistent_loaded := false |> in
  match s_storage st ≫= load with
  | Some f =>
      let '(ok, loaded_rtc, w) := f 0 w in
      if ok : bool
      then (true, st <| s_mock_rtc_persistent := loaded_rtc |>
                     <| s_mock_rtc_persistent_loaded := (0 <? loaded_rtc) |>, w)
      else (true, st, w)
  | None => (true, st <| s_mock_rtc_persistent := 0 |>, w)
  end.

Definition time_source_set_backend st (backend : option (TimeSourceBackend_t W)) : state W :=
  st <| s_backend := backend |>.

(** [if (is_ok && is_ok()) { t = get ? get() : 0; if (t > 0) ... }] *)
Definition query (is_ok : option (W -> bool * W)) (get : option (W -> Z * W)) w
  : option Z * W :=
  match is_ok with
  | Some ok =>
      let '(synced, w) := ok w in
      if synced : bool then
        let '(t, w) := match get with Some g => g w | None => (0, w) end in
        (if 0 <? t then Some t else None, w)
      else (None, w)
  | None => (None, w)
  end.

Definition time_source_get_ms st w : Z * state W * W :=
  if s_mock_active st then
    (s_mock_time st,
     st <| s_state := if s_mock_reliable st then TIME_SRC_NTP_ACTIVE
                      else TIME_SRC_UNRELIABLE |>, w)
  else
    match s_backend st with
    | Some b =>
        match query (ntp_is_synced b) (ntp_time_get b) w with
        | (Some t, w) => (t, st <| s_state := TIME_SRC_NTP_ACTIVE |>, w)
        | (None, w) =>
            match query (rtc_is_available b) (rtc_time_get b) w with
            | (Some t, w) => (t, st <| s_state := TIME_SRC_RTC_ONLY |>, w)
            | (None, w) => (0, st <| s_state := TIME_SRC_UNRELIABLE |>, w)
            end
        end
    | None => (0, st <| s_state := TIME_SRC_UNRELIABLE |>, w)
    end.

Definition time_source_is_reliable st : bool :=
  bool_decide (s_state st = TIME_SRC_NTP_ACTIVE) ||
  bool_decide (s_state st = TIME_SRC_RTC_ONLY).

Definition time_source_get_state st : TimeSourceState_t := s_state st.

Definition time_source_mock_set st (ms : Z) (reliable : bool) : state W :=
  st <| s_mock_time := ms |> <| s_mock_reliable := reliable |> <| s_mock_active := true |>.

Definition time_source_mock_advance st (delta_ms : Z) : state W :=
  if s_mock_active st then st <| s_mock_time := u64 (s_mock_time st + delta_ms) |> else st.

Definition time_source_mock_set_rtc_persistent st (ms : Z) w : state W * W :=
  let st := st <| s_mock_rtc_persistent := ms |> <| s_mock_rtc_persistent_loaded := true |> in
  (st, mock_rtc_persist st w).

(** ** Properties *)

Lemma query_pos is_ok get w t w' : query is_ok get w = (Some t, w') -> 0 < t.
Proof. unfold query. intros H. cases; lia. Qed.

(** Reading the clock only changes the recorded source. *)
Lemma get_ms_frame st w t st' w' :
  time_source_get_ms st w = (t, st', w') -> st' = st <| s_state := s_state st' |>.
Proof.
  unfold time_source_get_ms. intros H. cases; destruct st; reflexivity.
Qed.

(** Without the mock, a reading is reliable exactly when it is positive: a
    zero timestamp is always reported as coming from an unreliable source, and
    the source recorded is NTP only if NTP produced the value. *)
Theorem get_ms_reliable_iff st w t st' w' :
  s_mock_active st = false ->
  time_source_get_ms st w = (t, st', w') ->
  (time_source_is_reliable st' = true <-> 0 < t) /\
  (t = 0 <-> time_source_get_state st' = TIME_SRC_UNRELIABLE).
Proof.
  unfold time_source_get_ms, time_source_is_reliable, time_source_get_state.
  intros -> H. cases;
  repeat match goal with
  | Hq : query _ _ _ = (Some _, _) |- _ => apply query_pos in Hq
  end; cbn; split; split; intros; (discriminate || lia || reflexivity).
Qed.

End time_source.

(** A backend with no NTP and an RTC that is off, then one that has a time. *)
Definition demo_backend (rtc : Z) : TimeSourceBackend_t unit := {|
  ntp_time_get := None; ntp_is_synced := None;
  rtc_time_get := Some (fun w => (rtc, w)); rtc_is_available := Some (fun w => (true, w)) |}.

Lemma get_ms_reliable_iff_witness :
  let '(t, st, _) :=
    time_source_get_ms (time_source_set_backend initial (Some (demo_backend 42))) tt in
  time_source_is_reliable st = true <-> 0 < t.
Proof.
  apply (get_ms_reliable_iff (time_source_set_backend initial (Some (demo_backend 42))) tt 42
           ((time_source_set_backend initial (Some (demo_backend 42))) <| s_state := TIME_SRC_RTC_ONLY |>) tt).
  - reflexivity.
  - reflexivity.
Defined.

End time_source.
