(* ===== verification/Hmac.v ===== *)
(** HMAC-SHA256 as the firmware sees it (firmware/shared/attestation.c,
    [iot_hmac_sha256]).

    The primitive is the vendored mbedTLS [mbedtls_md_hmac], a parameter here:
    [MdHmac] is the function, [None] its failure, and [MdHmacOk] the one fact
    about it the code relies on, the size of a digest.  File Md translates the
    vendored code and proves that fact of it. *)

From S2P Require Import Prelude.

Module hmac.

Definition ATTESTATION_HMAC_SIZE : nat := 32.

(** [mbedtls_md_hmac(SHA256, key, data, out)]: the digest, or an error code. *)
Class MdHmac := mbedtls_md_hmac : list Z -> list Z -> option (list Z).

Class MdHmacOk (H : MdHmac) : Prop :=
  md_hmac_digest : forall key data out,
    mbedtls_md_hmac key data = Some out ->
    length out = ATTESTATION_HMAC_SIZE /\ byte_list out.

(** On failure the output is zeroed. *)
Definition iot_hmac_sha256 `{MdHmac} (key data : list Z) : list Z :=
  match mbedtls_md_hmac key data with
  | Some out => out
  | None => zeros ATTESTATION_HMAC_SIZE
  end.

Section iot_hmac.
Context `{HOk : MdHmacOk}.

Lemma iot_hmac_length key data : length (iot_hmac_sha256 key data) = 32%nat.
Proof.
  unfold iot_hmac_sha256. destruct (mbedtls_md_hmac key data) eqn:Hd.
  - apply md_hmac_digest in Hd. apply Hd.
  - reflexivity.
Qed.

Lemma iot_hmac_bytes key data : byte_list (iot_hmac_sha256 key data).
Proof.
  unfold iot_hmac_sha256. destruct (mbedtls_md_hmac key data) eqn:Hd.
  - apply md_hmac_digest in Hd. apply Hd.
  - apply zeros_bytes.
Qed.

End iot_hmac.
#[export] Hint Resolve iot_hmac_length iot_hmac_bytes : words.

(** A concrete keyed digest for evaluating the model on concrete inputs: a
    polynomial in the bytes of key and data, modulo a 64-bit prime. *)
Definition mix_digest (key data : list Z) : Z :=
  fold_left (fun a b => (a * 257 + b + 1) mod 18446744073709551557) (key ++ 256 :: data) 1.

Definition mix_hmac : MdHmac := fun key data => Some (le_bytes 32 (mix_digest key data)).

#[export] Instance mix_hmac_ok : MdHmacOk mix_hmac.
Proof.
  intros key data out H. assert (out = le_bytes 32 (mix_digest key data)) as ->
    by (cbv [mbedtls_md_hmac mix_hmac] in H; congruence).
  split; [apply le_bytes_length|apply le_bytes_bytes].
Qed.

End hmac.
