(* ===== verification/Ccm.v ===== *)
(** AES-128-CCM as the firmware sees it.

    The cipher is the vendored mbedTLS CCM, a parameter of the model: [Ccm]
    holds the three calls the firmware makes, [CcmOk] the facts about them it
    relies on, and [toy_ccm] is a concrete cipher that satisfies them.  File
    CcmLaws proves the facts of the vendored code, which CcmAes translates. *)

From S2P Require Import Prelude Hmac.
Import hmac.

Module ccm.

(** [mbedtls_ccm_setkey] (does it accept the key), [mbedtls_ccm_encrypt_and_tag]
    (ciphertext and tag) and [mbedtls_ccm_auth_decrypt] (the plaintext, if the
    tag is right), without associated data. *)
Class Ccm := {
  mbedtls_ccm_setkey : list Z -> bool;
  mbedtls_ccm_encrypt_and_tag (key nonce input : list Z) (tag_len : nat)
    : option (list Z * list Z);
  mbedtls_ccm_auth_decrypt (key nonce input tag : list Z) : option (list Z) }.

(** CCM as NIST SP 800-38C defines it: lengths, decryption inverts encryption,
    and only what encryption produces passes the tag check.  The calls succeed
    on a 16-byte key, a 13-byte nonce (which leaves a two-byte length) and the
    standard's tag sizes. *)
Class CcmOk (C : Ccm) : Prop := {
  ccm_sizes key nonce p n c t :
    mbedtls_ccm_encrypt_and_tag key nonce p n = Some (c, t) ->
    length c = length p /\ length t = n;
  ccm_open_seal key nonce p n c t :
    mbedtls_ccm_encrypt_and_tag key nonce p n = Some (c, t) ->
    mbedtls_ccm_auth_decrypt key nonce c t = Some p;
  ccm_seal_open key nonce c t p :
    mbedtls_ccm_auth_decrypt key nonce c t = Some p ->
    mbedtls_ccm_encrypt_and_tag key nonce p (length t) = Some (c, t);
  ccm_setkey_16 key : length key = 16%nat -> mbedtls_ccm_setkey key = true;
  ccm_total key nonce p n :
    length key = 16%nat -> length nonce = 13%nat -> In n [4; 6; 8; 10; 12; 14; 16]%nat ->
    Z.of_nat (length p) < 65536 -> is_Some (mbedtls_ccm_encrypt_and_tag key nonce p n) }.

(** A cipher for evaluating the model on concrete inputs: the plaintext with a
    keyed digest as its tag. *)
Definition toy_ccm : Ccm := {|
  mbedtls_ccm_setkey key := true;
  mbedtls_ccm_encrypt_and_tag key nonce p n := Some (p, le_bytes n (mix_digest key (nonce ++ p)));
  mbedtls_ccm_auth_decrypt key nonce c t :=
    if decide (le_bytes (length t) (mix_digest key (nonce ++ c)) = t) then Some c else None |}.

#[export] Instance toy_ccm_ok : CcmOk toy_ccm.
Proof.
  split; cbn [toy_ccm mbedtls_ccm_setkey mbedtls_ccm_encrypt_and_tag mbedtls_ccm_auth_decrypt].
  - intros key nonce p n c t H. injection H as <- <-. rewrite le_bytes_length. auto.
  - intros key nonce p n c t H. injection H as <- <-. rewrite le_bytes_length.
    destruct (decide _); congruence.
  - intros key nonce c t p H. destruct (decide _) as [Heq|]; [|discriminate].
    injection H as <-. congruence.
  - reflexivity.
  - eauto.
Qed.

End ccm.
