(* ===== verification/Attestation.v ===== *)
(** Challenge-response attestation (firmware/shared/attestation.c): the table of
    pre-shared keys, the response a node computes and the Hub's verification. *)

From S2P Require Import Prelude Hmac.
Import hmac.

Module attestation.

Definition ATTESTATION_CHALLENGE_SIZE : nat := 16.
Definition ATTESTATION_KEY_SIZE : nat := 32.
Definition ATTESTATION_MAX_KEYS : Z := 32.

Record AttestationChallenge_t := mk_challenge {
  challenge : list Z;
  ch_timestamp_ms : Z;
  sender_id : Z }.

Record AttestationResponse_t := mk_response {
  response : list Z;
  re_timestamp_ms : Z;
  responder_id : Z }.

Inductive AttestationResult_t :=
| ATTEST_OK
| ATTEST_ERR_HMAC_MISMATCH
| ATTEST_ERR_STALE_TIMESTAMP
| ATTEST_ERR_UNKNOWN_NODE
| ATTEST_ERR_PARAM_NULL.

#[export] Instance AttestationResult_eq_dec : EqDecision AttestationResult_t.
Proof. solve_decision. Defined.

Record AttestationKeyRecord_t := mk_key {
  node_id : Z;
  key : list Z;
  active : bool }.

Record state := mk_state {
  g_key_table : list AttestationKeyRecord_t;
  g_key_count : Z;
  g_initialised : bool }.

#[export] Instance eta_state : Eta state := fun r =>
  mk_state (g_key_table r) (g_key_count r) (g_initialised r).

Definition zero_key : AttestationKeyRecord_t := mk_key 0 (zeros 32) false.

Definition initial : state := mk_state (replicate 32 zero_key) 0 false.

Definition attestation_init (st : state) : bool * state :=
  (true, st <| g_key_table := replicate 32 zero_key |> <| g_key_count := 0 |>
            <| g_initialised := true |>).

(** The test of the duplicate scan: [g_key_table[i].node_id == id]. *)
Definition has_id (id : Z) (k : AttestationKeyRecord_t) : bool := node_id k =? id.

Definition attestation_register_key (st : state) (record : option AttestationKeyRecord_t)
  : AttestationResult_t * state :=
  match record with
  | None => (ATTEST_ERR_PARAM_NULL, st)
  | Some rec =>
      if negb (g_initialised st) then (ATTEST_ERR_PARAM_NULL, st)
      else if ATTESTATION_MAX_KEYS <=? g_key_count st then (ATTEST_ERR_PARAM_NULL, st)
      else
        match find_index (has_id (node_id rec)) (used (g_key_count st) (g_key_table st)) with
        | Some i => (ATTEST_OK, st <| g_key_table := <[i := rec]> (g_key_table st) |>)
        | None =>
            (ATTEST_OK, st <| g_key_table := store (g_key_count st) rec (g_key_table st) |>
                           <| g_key_count := u8 (g_key_count st + 1) |>)
        end
  end.

(** The payload: challenge bytes, big-endian timestamp, sender. *)
Definition challenge_payload (c : AttestationChallenge_t) : list Z :=
  take ATTESTATION_CHALLENGE_SIZE (challenge c) ++ be_bytes 8 (ch_timestamp_ms c)
    ++ [sender_id c].

Definition attestation_compute_response `{MdHmac} (k : list Z) (c : AttestationChallenge_t)
  : list Z :=
  iot_hmac_sha256 (take ATTESTATION_KEY_SIZE k) (challenge_payload c).

Definition drift (c : AttestationChallenge_t) (r : AttestationResponse_t) : Z :=
  if re_timestamp_ms r <? ch_timestamp_ms c
  then ch_timestamp_ms c - re_timestamp_ms r
  else re_timestamp_ms r - ch_timestamp_ms c.

Definition attestation_verify `{MdHmac} (st : state) (challenge : option AttestationChallenge_t)
    (resp : option AttestationResponse_t) (max_drift_ms : Z) : AttestationResult_t :=
  match challenge, resp with
  | Some c, Some r =>
      if negb (g_initialised st) then ATTEST_ERR_PARAM_NULL
      else if max_drift_ms <? drift c r then ATTEST_ERR_STALE_TIMESTAMP
      else
        match find_first (fun k => has_id (responder_id r) k && active k)
                (used (g_key_count st) (g_key_table st)) with
        | None => ATTEST_ERR_UNKNOWN_NODE
        | Some k =>
            if ct_equal (response r) (attestation_compute_response (key k) c)
            then ATTEST_OK else ATTEST_ERR_HMAC_MISMATCH
        end
  | _, _ => ATTEST_ERR_PARAM_NULL
  end.

(** ** The table invariant and the key the table holds for a node *)

Record wf (st : state) : Prop := {
  wf_size : length (g_key_table st) = 32%nat;
  wf_count : 0 <= g_key_count st <= ATTESTATION_MAX_KEYS;
  wf_unique : NoDup (node_id <$> used (g_key_count st) (g_key_table st)) }.

Lemma key_id_spec id k : has_id id k = true <-> node_id k = id.
Proof. apply Z.eqb_eq. Qed.

Definition registered (st : state) (id : Z) : option AttestationKeyRecord_t :=
  keyed_lookup has_id id (used (g_key_count st) (g_key_table st)).

Lemma attestation_init_wf st : wf (snd (attestation_init st)).
Proof.
  split; cbn; [reflexivity|unfold ATTESTATION_MAX_KEYS; lia|constructor].
Qed.

(** A registration that succeeds inserts the record into the used part of the
    table, in place or at the end. *)
Lemma key_register_upsert st rec st' :
  wf st -> attestation_register_key st (Some rec) = (ATTEST_OK, st') ->
  used (g_key_count st') (g_key_table st') =
    upsert has_id (node_id rec) rec (used (g_key_count st) (g_key_table st)) /\
  length (g_key_table st') = 32%nat /\
  g_key_count st <= g_key_count st' <= ATTESTATION_MAX_KEYS /\ g_initialised st' = true.
Proof.
  intros [Hsize Hcount Hnd]. unfold attestation_register_key, ATTESTATION_MAX_KEYS, upsert in *.
  intros H. destruct (find_index _ _) as [i|] eqn:Hi; cases; cbn.
  - rewrite length_insert. apply find_index_lt in Hi as Hlt.
    rewrite used_length in Hlt by lia. rewrite used_store_inside by lia.
    repeat split; auto; lia.
  - rewrite store_length, u8_small by (unfold is_u8; lia).
    rewrite used_store_append by lia. repeat split; auto; lia.
Qed.

Lemma register_wf st rec : wf st -> wf (snd (attestation_register_key st rec)).
Proof.
  intros Hwf. destruct (attestation_register_key st rec) as [res st'] eqn:Hr.
  destruct (decide (res = ATTEST_OK)) as [->|Hne].
  - destruct rec as [rec|]; [|discriminate].
    destruct (key_register_upsert _ _ _ Hwf Hr) as (Hu & Hl & Hc & _).
    destruct Hwf as [Hsize Hcount Hnd]. cbn. split; [exact Hl|lia|].
    rewrite Hu. apply (upsert_NoDup _ _ key_id_spec); auto.
  - revert Hr. unfold attestation_register_key. intros Hr. cases; auto; congruence.
Qed.

(** In a well-formed table the record [attestation_verify] finds is the one
    registered for the node, if it is active. *)
Lemma active_lookup st id :
  wf st ->
  find_first (fun k => has_id id k && active k) (used (g_key_count st) (g_key_table st)) =
  match registered st id with
  | Some k => if active k then Some k else None
  | None => None
  end.
Proof.
  intros [_ _ Hnd]. unfold registered.
  set (l := used (g_key_count st) (g_key_table st)) in *. clearbody l.
  destruct (find_first _ l) as [k|] eqn:Hf.
  - apply find_first_Some in Hf as [Hin Hk]. reflect.
    rewrite (keyed_lookup_elem node_id has_id key_id_spec id l k) by (auto; apply key_id_spec; auto).
    match goal with Ha : active k = true |- _ => rewrite Ha end. reflexivity.
  - destruct (keyed_lookup has_id id l) as [k|] eqn:Hl; [|reflexivity].
    apply (keyed_lookup_Some node_id has_id key_id_spec) in Hl as [Hin Hk].
    rewrite find_first_None in Hf. specialize (Hf k Hin).
    apply key_id_spec in Hk. rewrite Hk in Hf. cbn in Hf. rewrite Hf. reflexivity.
Qed.

(** ** Properties *)

(** The acceptance condition of [attestation_verify]. *)
Lemma attestation_verify_spec `{MdHmacOk} st c r max_drift :
  wf st -> length (response r) = 32%nat ->
  attestation_verify st (Some c) (Some r) max_drift = ATTEST_OK <->
  g_initialised st = true /\ drift c r <= max_drift /\
  exists k, registered st (responder_id r) = Some k /\ active k = true /\
            response r = attestation_compute_response (key k) c.
Proof.
  intros Hwf Hlen. unfold attestation_verify. rewrite (active_lookup st _ Hwf).
  assert (forall k, ct_equal (response r) (attestation_compute_response (key k) c) =
                    bool_decide (response r = attestation_compute_response (key k) c)) as Hct.
  { intros k. apply ct_equal_spec. rewrite Hlen. symmetry. apply iot_hmac_length. }
  split.
  - intros Hv. cases. all: rewrite Hct in *; reflect. eauto 10.
  - intros (-> & Hd & k & -> & -> & Hr). cbn.
    rewrite Hct, bool_decide_eq_true_2 by exact Hr.
    case_match; reflect; [lia|reflexivity].
Qed.

(** Verification accepts a response exactly when the subsystem is
    initialised, the timestamps are within the drift, and the responder has an
    active registered key under which the response is the HMAC of the challenge. *)
Theorem verify_ok_iff `{MdHmacOk} st c r max_drift :
  wf st -> length (response r) = 32%nat ->
  attestation_verify st (Some c) (Some r) max_drift = ATTEST_OK <->
  g_initialised st = true /\ drift c r <= max_drift /\
  exists k, registered st (responder_id r) = Some k /\ active k = true /\
            response r = attestation_compute_response (key k) c.
Proof. apply attestation_verify_spec. Qed.

(** Registering a record makes it the record of its node and leaves every
    other node's record alone: the key table refines a finite map, as long as
    it has a free slot. *)
Theorem register_refines_map st rec :
  wf st -> g_initialised st = true -> g_key_count st < ATTESTATION_MAX_KEYS ->
  let '(res, st') := attestation_register_key st (Some rec) in
  res = ATTEST_OK /\ wf st' /\ g_initialised st' = true /\
  forall id, registered st' id = if node_id rec =? id then Some rec else registered st id.
Proof.
  intros Hwf Hi Hc. destruct (attestation_register_key st (Some rec)) as [res st'] eqn:Hr.
  assert (res = ATTEST_OK) as ->.
  { revert Hr. unfold attestation_register_key. rewrite Hi. cbn. intros Hr. cases; auto; lia. }
  destruct (key_register_upsert _ _ _ Hwf Hr) as (Hu & _ & _ & Hi').
  split; [reflexivity|]. split; [|split; [exact Hi'|]].
  - pose proof (register_wf st (Some rec) Hwf) as H. rewrite Hr in H. exact H.
  - intros id. unfold registered. rewrite Hu.
    rewrite (upsert_lookup node_id has_id key_id_spec). reflexivity.
Qed.

(** A full key table rejects every registration, also one that would
    revoke or replace the key of a node already in the table: after the attempt
    the node's old key still verifies. *)
Theorem full_table_cannot_revoke `{MdHmacOk} st rec c r max_drift :
  wf st -> g_key_count st = ATTESTATION_MAX_KEYS -> length (response r) = 32%nat ->
  let '(res, st') := attestation_register_key st (Some rec) in
  res <> ATTEST_OK /\
  attestation_verify st' (Some c) (Some r) max_drift =
  attestation_verify st (Some c) (Some r) max_drift.
Proof.
  intros Hwf Hc Hlen. unfold attestation_register_key. rewrite Hc.
  destruct (g_initialised st); cbn; split; (discriminate || reflexivity).
Qed.

(** A timestamp and a sender that fit their fields, a full challenge. *)
Record wf_challenge (c : AttestationChallenge_t) : Prop := {
  wfc_size : length (challenge c) = ATTESTATION_CHALLENGE_SIZE;
  wfc_ts : is_u64 (ch_timestamp_ms c) }.

Lemma challenge_payload_inj c1 c2 :
  wf_challenge c1 -> wf_challenge c2 ->
  challenge_payload c1 = challenge_payload c2 -> c1 = c2.
Proof.
  intros [H1 T1] [H2 T2]. unfold challenge_payload.
  rewrite !take_ge by (rewrite ?H1, ?H2; reflexivity). intros H.
  apply app_inj_1 in H as [Hc H]; [|congruence].
  apply app_inj_1 in H as [Ht H]; [|rewrite !be_bytes_length; reflexivity].
  apply be_bytes_inj in Ht; [|exact T1|exact T2].
  destruct c1, c2. cbn in *. congruence.
Qed.

(** A response is bound to its challenge: if one response is accepted for
    two different challenges, the HMAC under the responder's registered key has
    one digest for the two different payloads. *)
Theorem response_bound_to_challenge `{MdHmacOk} st c1 c2 r d1 d2 :
  wf st -> wf_challenge c1 -> wf_challenge c2 -> length (response r) = 32%nat ->
  c1 <> c2 ->
  attestation_verify st (Some c1) (Some r) d1 = ATTEST_OK ->
  challenge_payload c1 <> challenge_payload c2 /\
  (attestation_verify st (Some c2) (Some r) d2 = ATTEST_OK ->
   exists k, registered st (responder_id r) = Some k /\
     attestation_compute_response (key k) c1 = attestation_compute_response (key k) c2).
Proof.
  intros Hwf H1 H2 Hlen Hne V1. split.
  { intros E. apply Hne, challenge_payload_inj; assumption. }
  intros V2.
  apply (attestation_verify_spec st c1 r d1 Hwf Hlen) in V1 as (_ & _ & k1 & Hk1 & _ & R1).
  apply (attestation_verify_spec st c2 r d2 Hwf Hlen) in V2 as (_ & _ & k2 & Hk2 & _ & R2).
  rewrite Hk1 in Hk2. injection Hk2 as <-. exists k1. split; [exact Hk1|congruence].
Qed.

(** ** The theorems on a concrete table *)

Definition demo_record : AttestationKeyRecord_t := mk_key 5 (replicate 32 9) true.

Definition demo_state : state :=
  snd (attestation_register_key (snd (attestation_init initial)) (Some demo_record)).

Lemma demo_keys_wf : wf demo_state.
Proof. apply register_wf, attestation_init_wf. Qed.

Definition demo_challenge : AttestationChallenge_t := mk_challenge (replicate 16 1) 1000 0.

Definition demo_response : AttestationResponse_t :=
  mk_response (attestation_compute_response (H := mix_hmac) (replicate 32 9) demo_challenge) 1500 5.

Lemma verify_ok_iff_witness :
  attestation_verify (H := mix_hmac) demo_state (Some demo_challenge) (Some demo_response) 600
  = ATTEST_OK.
Proof.
  apply (verify_ok_iff (H0 := mix_hmac_ok)).
  - exact demo_keys_wf.
  - reflexivity.
  - split; [reflexivity|]. split; [vm_compute; discriminate|].
    exists demo_record. repeat split; reflexivity.
Defined.

Lemma register_refines_map_witness :
  registered (snd (attestation_register_key demo_state (Some (mk_key 6 (replicate 32 1) true)))) 5
  = Some demo_record.
Proof.
  pose proof (register_refines_map demo_state (mk_key 6 (replicate 32 1) true) demo_keys_wf
                eq_refl eq_refl) as H.
  destruct (attestation_register_key _ _) as [res st']. destruct H as (_ & _ & _ & Hr).
  cbn [snd]. rewrite (Hr 5). reflexivity.
Defined.

(** A table with a key for every node from 0 to 31. *)
Definition full_state : state :=
  fold_left (fun st i => snd (attestation_register_key st (Some (mk_key (Z.of_nat i) (replicate 32 9) true))))
    (seq 0 32) (snd (attestation_init initial)).

Lemma full_wf : wf full_state.
Proof.
  unfold full_state. assert (wf (snd (attestation_init initial))) as Hwf by apply attestation_init_wf.
  revert Hwf. generalize (snd (attestation_init initial)). generalize (seq 0 32).
  induction l as [|i l IH]; intros st Hwf; [exact Hwf|]. apply IH, register_wf, Hwf.
Qed.

Lemma full_table_cannot_revoke_witness :
  fst (attestation_register_key full_state (Some (mk_key 5 (zeros 32) false))) <> ATTEST_OK /\
  attestation_verify (H := mix_hmac)
    (snd (attestation_register_key full_state (Some (mk_key 5 (zeros 32) false))))
    (Some demo_challenge) (Some demo_response) 600 = ATTEST_OK.
Proof.
  pose proof (full_table_cannot_revoke (H0 := mix_hmac_ok) full_state (mk_key 5 (zeros 32) false)
                demo_challenge demo_response 600 full_wf eq_refl eq_refl) as H.
  destruct (attestation_register_key _ _) as [res st']. destruct H as [Hr Hv].
  cbn [fst snd]. split; [exact Hr|]. rewrite Hv. vm_compute. reflexivity.
Defined.

Lemma response_bound_to_challenge_witness :
  challenge_payload demo_challenge <> challenge_payload (mk_challenge (replicate 16 2) 1000 0).
Proof.
  apply (response_bound_to_challenge (H0 := mix_hmac_ok) demo_state demo_challenge
           (mk_challenge (replicate 16 2) 1000 0) demo_response 600 600).
  - exact demo_keys_wf.
  - split; [reflexivity|unfold is_u64; cbn; lia].
  - split; [reflexivity|unfold is_u64; cbn; lia].
  - reflexivity.
  - discriminate.
  - vm_compute. reflexivity.
Defined.

End attestation.
