(* ===== verification/VerifiedBoot.v ===== *)
(** The boot-time check of the firmware image (firmware/shared/verified_boot.c):
    the boot key derived from the device identity, the tag of an image
    descriptor, and the roll back to the other slot. *)

From S2P Require Import Prelude Hmac.
Import hmac.

Module verified_boot.

Definition VERIFIED_BOOT_HASH_SIZE : nat := 32.
Definition VERIFIED_BOOT_KEY_SIZE : nat := 32.

Inductive VerifiedBootResult_t :=
| BOOT_OK
| BOOT_ERR_INTEGRITY
| BOOT_ERR_KEY_DERIVATION
| BOOT_ERR_NOT_PROVISIONED
| BOOT_ERR_PARAM_NULL.

#[export] Instance VerifiedBootResult_eq_dec : EqDecision VerifiedBootResult_t.
Proof. solve_decision. Defined.

Record BootVerification_t := mk_verification {
  result : VerifiedBootResult_t;
  image_valid : bool;
  rollback_triggered : bool;
  fw_version : Z }.

#[export] Instance eta_verification : Eta BootVerification_t := fun r =>
  mk_verification (result r) (image_valid r) (rollback_triggered r) (fw_version r).

Record FlashImageDescriptor_t := mk_descriptor {
  slot : Z;
  size : Z;
  version : Z;
  hash : list Z;
  present : bool }.

Definition zero_verification : BootVerification_t := mk_verification BOOT_OK false false 0.

Definition derivation_context : list Z := cstr "verified_boot_key_derivation".

(** The nine bytes of [data_to_hash] that are filled in. *)
Definition data_to_hash (d : FlashImageDescriptor_t) : list Z :=
  be_bytes 4 (version d) ++ be_bytes 4 (size d) ++ [u8 (slot d)].

Section boot.
Context `{MdHmac}.

(** The code, and the derived key where [*derived_key] is written; [out] says
    whether the caller passes a buffer. *)
Definition verified_boot_derive_key (identity_key : option (list Z)) (identity_len : Z) (out : bool)
  : VerifiedBootResult_t * option (list Z) :=
  match identity_key with
  | Some k =>
      if negb out then (BOOT_ERR_PARAM_NULL, None)
      else if negb (identity_len =? Z.of_nat VERIFIED_BOOT_KEY_SIZE) then (BOOT_ERR_KEY_DERIVATION, None)
      else
        (BOOT_OK, Some (take VERIFIED_BOOT_KEY_SIZE
                          (iot_hmac_sha256 (take (Z.to_nat identity_len) k) derivation_context)))
  | None => (BOOT_ERR_PARAM_NULL, None)
  end.

(** The code, and [*result] where it is written. *)
Definition verified_boot_check (descriptor : option FlashImageDescriptor_t)
    (identity_key : option (list Z)) (identity_len : Z) (out : bool)
  : VerifiedBootResult_t * option BootVerification_t :=
  match descriptor, identity_key with
  | Some d, Some k =>
      if negb out then (BOOT_ERR_PARAM_NULL, None)
      else
        let res := zero_verification <| fw_version := version d |> in
        if negb (present d) then
          (BOOT_OK, Some (res <| result := BOOT_ERR_INTEGRITY |> <| image_valid := false |>))
        else
          match verified_boot_derive_key (Some k) identity_len true with
          | (BOOT_OK, Some derived_key) =>
              let computed_hash := iot_hmac_sha256 derived_key (data_to_hash d) in
              let valid := bool_decide (computed_hash = take VERIFIED_BOOT_HASH_SIZE (hash d)) in
              (BOOT_OK, Some (res <| image_valid := valid |>
                                  <| result := if valid then BOOT_OK else BOOT_ERR_INTEGRITY |>))
          | (dk_result, _) => (BOOT_OK, Some (res <| result := dk_result |> <| image_valid := false |>))
          end
  | _, _ => (BOOT_ERR_PARAM_NULL, None)
  end.

Section full.
Context {W : Type}.
Implicit Types (w : W).

(** The callbacks are functions of the flash [W]: [read_image] fills the
    descriptor it is given, [rollback] says whether the switch succeeded. *)
Definition verified_boot_full_check
    (read_image : option (Z -> W -> option FlashImageDescriptor_t * W))
    (rollback : option (Z -> W -> bool * W))
    (identity_key : option (list Z)) (identity_len active_slot : Z) (out : bool) w
  : VerifiedBootResult_t * option BootVerification_t * W :=
  match read_image, identity_key, out with
  | Some read, Some k, true =>
      let '(desc, w) := read active_slot w in
      match desc with
      | None =>
          (BOOT_OK, Some (zero_verification <| result := BOOT_ERR_NOT_PROVISIONED |>
                                            <| image_valid := false |>), w)
      | Some d =>
          match verified_boot_check (Some d) (Some k) identity_len true with
          | (BOOT_OK, Some res) =>
              match rollback with
              | Some f =>
                  if negb (image_valid res) then
                    let other_slot := if active_slot =? 0 then 1 else 0 in
                    let '(ok, w) := f other_slot w in
                    (BOOT_OK, Some (if ok : bool then res <| rollback_triggered := true |> else res), w)
                  else (BOOT_OK, Some res, w)
              | None => (BOOT_OK, Some res, w)
              end
          | (vr, res) => (vr, res, w)
          end
      end
  | _, _, _ => (BOOT_ERR_PARAM_NULL, None, w)
  end.

End full.

(** ** What makes an image valid *)

(** The tag a provisioned image carries. *)
Definition image_tag (identity_key : list Z) (d : FlashImageDescriptor_t) : list Z :=
  iot_hmac_sha256 (iot_hmac_sha256 identity_key derivation_context) (data_to_hash d).

Record wf_descriptor (d : FlashImageDescriptor_t) : Prop := {
  wfd_hash : length (hash d) = VERIFIED_BOOT_HASH_SIZE;
  wfd_version : is_u32 (version d);
  wfd_size : is_u32 (size d);
  wfd_slot : is_u32 (slot d) }.

Definition wf_key (k : list Z) : Prop := length k = VERIFIED_BOOT_KEY_SIZE.

(** The verdict of the check with a key of the right size. *)
Definition verdict (k : list Z) (d : FlashImageDescriptor_t) : BootVerification_t :=
  let valid := present d && bool_decide (hash d = image_tag k d) in
  mk_verification (if valid then BOOT_OK else BOOT_ERR_INTEGRITY) valid false (version d).

Lemma derive_key_spec `{!MdHmacOk _} k :
  wf_key k ->
  verified_boot_derive_key (Some k) 32 true = (BOOT_OK, Some (iot_hmac_sha256 k derivation_context)).
Proof.
  intros Hk. unfold verified_boot_derive_key. change (Z.to_nat 32) with 32%nat.
  rewrite (take_ge k) by (rewrite Hk; reflexivity).
  rewrite take_ge by (rewrite iot_hmac_length; reflexivity). reflexivity.
Qed.

Lemma check_verdict `{!MdHmacOk _} d k :
  wf_descriptor d -> wf_key k ->
  verified_boot_check (Some d) (Some k) 32 true = (BOOT_OK, Some (verdict k d)).
Proof.
  intros [Hh _ _ _] Hk. unfold verified_boot_check, verdict, image_tag.
  rewrite (derive_key_spec k Hk), (take_ge (hash d)) by (rewrite Hh; reflexivity).
  destruct (present d); cbn [negb andb]; [|reflexivity].
  set (tag := iot_hmac_sha256 _ (data_to_hash d)).
  rewrite (bool_decide_ext (tag = hash d) (hash d = tag)) by (split; congruence).
  reflexivity.
Qed.

Lemma data_to_hash_inj d1 d2 :
  wf_descriptor d1 -> wf_descriptor d2 -> data_to_hash d1 = data_to_hash d2 ->
  version d1 = version d2 /\ size d1 = size d2 /\ u8 (slot d1) = u8 (slot d2).
Proof.
  intros [_ V1 S1 _] [_ V2 S2 _] E. unfold data_to_hash in E.
  apply app_inj_1 in E as [Ev E]; [|rewrite !be_bytes_length; reflexivity].
  apply app_inj_1 in E as [Es E]; [|rewrite !be_bytes_length; reflexivity].
  apply be_bytes_inj in Ev; [|exact V1|exact V2]. apply be_bytes_inj in Es; [|exact S1|exact S2].
  repeat split; congruence.
Qed.

(** ** Properties *)

(** The whole boot check of a device with a 32-byte key.  The image is valid
    exactly when the slot holds one whose stored hash is the tag of its version,
    size and slot; a valid image leaves the flash alone; an invalid one switches
    to the other slot, and the result says whether that worked. *)
Theorem full_check_decides `{!MdHmacOk _} {W} (read : Z -> W -> option FlashImageDescriptor_t * W)
    (rollback : Z -> W -> bool * W) k active w d w1 :
  wf_descriptor d -> wf_key k -> read active w = (Some d, w1) ->
  exists v w', verified_boot_full_check (Some read) (Some rollback) (Some k) 32 active true w
               = (BOOT_OK, Some v, w') /\
    (image_valid v = true <-> present d = true /\ hash d = image_tag k d) /\
    (image_valid v = true -> w' = w1 /\ rollback_triggered v = false /\ result v = BOOT_OK) /\
    (image_valid v = false ->
       (rollback_triggered v, w') = rollback (if active =? 0 then 1 else 0) w1 /\
       result v = BOOT_ERR_INTEGRITY).
Proof.
  intros Hd Hk Hr. unfold verified_boot_full_check. rewrite Hr, (check_verdict d k Hd Hk).
  assert (image_valid (verdict k d) = true <-> present d = true /\ hash d = image_tag k d) as Hv.
  { cbn. rewrite andb_true_iff, bool_decide_eq_true. reflexivity. }
  revert Hv. unfold verdict. cbn. destruct (present d && _); cbn; intros Hv.
  - eexists _, _. split; [reflexivity|]. cbn. repeat split; try apply Hv; auto; discriminate.
  - destruct (rollback _ w1) as [ok w2]. eexists _, _. split; [reflexivity|].
    destruct ok; cbn; repeat split; try apply Hv; auto; try discriminate; intros; apply Hv; auto.
Qed.

(** One stored hash that is valid for two descriptors of the same device fixes
    version, size and the low byte of the slot, or is one HMAC digest of two
    different messages. *)
Theorem hash_binds_descriptor `{!MdHmacOk _} k d1 d2 v1 v2 :
  wf_descriptor d1 -> wf_descriptor d2 -> wf_key k -> hash d1 = hash d2 ->
  verified_boot_check (Some d1) (Some k) 32 true = (BOOT_OK, Some v1) -> image_valid v1 = true ->
  verified_boot_check (Some d2) (Some k) 32 true = (BOOT_OK, Some v2) -> image_valid v2 = true ->
  (version d1 = version d2 /\ size d1 = size d2 /\ u8 (slot d1) = u8 (slot d2)) \/
  (data_to_hash d1 <> data_to_hash d2 /\ image_tag k d1 = image_tag k d2).
Proof.
  intros H1 H2 Hk Eh. rewrite (check_verdict d1 k), (check_verdict d2 k) by assumption.
  intros [= <-] Hv1 [= <-] Hv2. cbn in Hv1, Hv2. reflect.
  destruct (decide (data_to_hash d1 = data_to_hash d2)) as [E|Hne].
  - left. apply data_to_hash_inj; assumption.
  - right. split; [exact Hne|congruence].
Qed.

(** When the HMAC primitive fails, [iot_hmac_sha256] answers zeros, so an image
    whose stored hash is zero is valid on every device. *)
Theorem failed_hmac_accepts_zero_hash k d :
  (forall key data, mbedtls_md_hmac key data = None) ->
  wf_key k -> present d = true -> hash d = zeros 32 ->
  exists v, verified_boot_check (Some d) (Some k) 32 true = (BOOT_OK, Some v) /\ image_valid v = true.
Proof.
  intros Hf Hk Hp Hh. unfold verified_boot_check. rewrite Hp, Hh. cbn -[iot_hmac_sha256 take data_to_hash].
  eexists. split; [reflexivity|]. unfold iot_hmac_sha256. rewrite !Hf. reflexivity.
Qed.

End boot.

(** ** The theorems on a concrete device *)

Definition demo_key : list Z := replicate 32 7.

Definition demo_image (active : Z) (h : list Z) : FlashImageDescriptor_t :=
  mk_descriptor active 1024 3 h true.

Definition demo_tag (active : Z) : list Z :=
  image_tag (H := mix_hmac) demo_key (demo_image active (zeros 32)).

(** A flash that records the slot it boots from; slot 0 holds a damaged image. *)
Definition demo_read (s : Z) (w : Z) : option FlashImageDescriptor_t * Z :=
  (Some (demo_image s (if s =? 0 then zeros 32 else demo_tag s)), w).

Definition demo_rollback (s : Z) (w : Z) : bool * Z := (true, s).

Lemma demo_image_wf s h : is_u32 s -> length h = 32%nat -> wf_descriptor (demo_image s h).
Proof. intros Hs Hh. split; cbn; [exact Hh| | |exact Hs]; unfold is_u32; lia. Qed.

Lemma full_check_decides_witness :
  verified_boot_full_check (H := mix_hmac) (Some demo_read) (Some demo_rollback) (Some demo_key) 32 0 true 0
    = (BOOT_OK, Some (mk_verification BOOT_ERR_INTEGRITY false true 3), 1) /\
  exists v w', verified_boot_full_check (H := mix_hmac) (Some demo_read) (Some demo_rollback)
                 (Some demo_key) 32 0 true 0 = (BOOT_OK, Some v, w') /\
    (image_valid v = true <-> present (demo_image 0 (zeros 32)) = true /\
       zeros 32 = image_tag (H := mix_hmac) demo_key (demo_image 0 (zeros 32))).
Proof.
  split; [vm_compute; reflexivity|].
  destruct (full_check_decides (H := mix_hmac) demo_read demo_rollback demo_key 0 0
              (demo_image 0 (zeros 32)) 0) as (v & w' & Hc & Hv & _).
  - apply demo_image_wf; [unfold is_u32; lia|reflexivity].
  - reflexivity.
  - reflexivity.
  - exists v, w'. split; [exact Hc|exact Hv].
Defined.

Lemma hash_binds_descriptor_witness :
  (version (demo_image 1 (demo_tag 1)) = version (demo_image 257 (demo_tag 1)) /\
   size (demo_image 1 (demo_tag 1)) = size (demo_image 257 (demo_tag 1)) /\ u8 1 = u8 257) \/
  (data_to_hash (demo_image 1 (demo_tag 1)) <> data_to_hash (demo_image 257 (demo_tag 1)) /\
   image_tag (H := mix_hmac) demo_key (demo_image 1 (demo_tag 1))
   = image_tag (H := mix_hmac) demo_key (demo_image 257 (demo_tag 1))).
Proof.
  eapply (hash_binds_descriptor (H := mix_hmac) demo_key (demo_image 1 (demo_tag 1))
           (demo_image 257 (demo_tag 1))).
  - apply demo_image_wf; [unfold is_u32; lia|vm_compute; reflexivity].
  - apply demo_image_wf; [unfold is_u32; lia|vm_compute; reflexivity].
  - reflexivity.
  - reflexivity.
  - vm_compute. reflexivity.
  - reflexivity.
  - vm_compute. reflexivity.
  - reflexivity.
Defined.

Lemma failed_hmac_accepts_zero_hash_witness :
  exists v, verified_boot_check (H := fun _ _ => None) (Some (demo_image 0 (zeros 32))) (Some demo_key) 32 true
            = (BOOT_OK, Some v) /\ image_valid v = true.
Proof.
  apply (failed_hmac_accepts_zero_hash (H := fun _ _ => None)); reflexivity.
Defined.

End verified_boot.
