(* ===== verification/TransportEncryption.v ===== *)
(** Transport encryption (firmware/shared/transport_encryption.c): AES-128-CCM
    frames between two nodes, with a key for each direction derived from a
    shared key and the pair of node identifiers.

    The cipher is the vendored mbedTLS CCM, a parameter here (file Ccm); file
    TransportWire puts the real one in its place. *)

From Stdlib Require Import Sorted.
From S2P Require Import Prelude Hmac Ccm.
Import hmac ccm.

Module transport_encryption.

Definition TRANSPORT_AES_KEY_SIZE : nat := 16.
Definition TRANSPORT_NONCE_SIZE : nat := 13.
Definition TRANSPORT_MIC_SIZE : nat := 4.
Definition TRANSPORT_MAX_PAYLOAD : Z := 256.
Definition TRANSPORT_SESSION_KEY_TTL_MS : Z := 3600000.

Record TransportSession_t := mk_session {
  session_id : Z;
  local_node_id : Z;
  remote_node_id : Z;
  tx_key : list Z;
  rx_key : list Z;
  tx_nonce_counter : Z;
  rx_nonce_counter : Z;
  created_ms : Z;
  active : bool }.

#[export] Instance eta_session : Eta TransportSession_t := fun r =>
  mk_session (session_id r) (local_node_id r) (remote_node_id r) (tx_key r) (rx_key r)
    (tx_nonce_counter r) (rx_nonce_counter r) (created_ms r) (active r).

Record TransportFrame_t := mk_frame {
  f_session_id : Z;
  nonce_counter : Z;
  mic : list Z;
  ciphertext_len : Z;
  ciphertext : list Z }.

Inductive TransportDecryptResult_t :=
| TRANSPORT_DECRYPT_OK
| TRANSPORT_DECRYPT_ERR_MIC_FAIL
| TRANSPORT_DECRYPT_ERR_SESSION
| TRANSPORT_DECRYPT_ERR_NONCE
| TRANSPORT_DECRYPT_ERR_PARAM_NULL
| TRANSPORT_DECRYPT_ERR_TOO_LONG.

#[export] Instance TransportDecryptResult_eq_dec : EqDecision TransportDecryptResult_t.
Proof. solve_decision. Defined.

Record state := mk_state { g_initialised : bool; g_next_session_id : Z }.

Definition initial : state := mk_state false 0.

Definition transport_init (st : state) : bool * state := (true, mk_state true 1).

(** [HMAC-SHA256(shared_key, direction || salt)], at most 30 bytes of salt,
    truncated to a key. *)
Definition derived_key `{MdHmac} (shared_key salt direction : list Z) : list Z :=
  take TRANSPORT_AES_KEY_SIZE
    (iot_hmac_sha256 (take TRANSPORT_AES_KEY_SIZE shared_key) (direction ++ take 30 salt)).

Definition transport_derive_keys `{MdHmac} (shared_key salt tx_direction rx_direction : list Z)
  : list Z * list Z :=
  (derived_key shared_key salt tx_direction, derived_key shared_key salt rx_direction).

Definition transport_create_session `{MdHmac} (st : state) (session : option TransportSession_t)
    (local remote : Z) (shared_key : option (list Z)) : bool * state * option TransportSession_t :=
  match session, shared_key with
  | Some _, Some k =>
      if negb (g_initialised st) then (false, st, session)
      else
        let lower := if local <? remote then local else remote in
        let upper := if local <? remote then remote else local in
        let salt := [lower; upper] in
        let keys :=
          if local =? lower
          then transport_derive_keys k salt (cstr "a_to_b") (cstr "b_to_a")
          else transport_derive_keys k salt (cstr "b_to_a") (cstr "a_to_b") in
        (true, mk_state true (u8 (g_next_session_id st + 1)),
         Some (mk_session (g_next_session_id st) local remote (fst keys) (snd keys) 0 0 0 true))
  | _, _ => (false, st, session)
  end.

Definition transport_session_valid (session : option TransportSession_t) (current_ms : Z) : bool :=
  match session with
  | None => false
  | Some s =>
      if negb (active s) then false
      else if current_ms <? created_ms s then false
      else if TRANSPORT_SESSION_KEY_TTL_MS <? current_ms - created_ms s then false
      else true
  end.

(** Session identifier, big-endian counter, zero padding. *)
Definition build_ccm_nonce (id counter : Z) : list Z :=
  id :: be_bytes 4 counter ++ zeros (TRANSPORT_NONCE_SIZE - 5).

(** On failure the session and the frame are as they were. *)
Definition transport_encrypt `{Ccm} (session : option TransportSession_t)
    (plaintext : option (list Z)) (out_frame : option TransportFrame_t)
  : bool * option TransportSession_t * option TransportFrame_t :=
  match session, plaintext, out_frame with
  | Some s, Some p, Some f =>
      if negb (active s) then (false, session, out_frame)
      else if TRANSPORT_MAX_PAYLOAD <? Z.of_nat (length p) then (false, session, out_frame)
      else if negb (mbedtls_ccm_setkey (tx_key s)) then (false, session, out_frame)
      else
        match mbedtls_ccm_encrypt_and_tag (tx_key s)
                (build_ccm_nonce (session_id s) (tx_nonce_counter s)) p TRANSPORT_MIC_SIZE with
        | None => (false, session, out_frame)
        | Some (c, t) =>
            (true, Some (s <| tx_nonce_counter := u32 (tx_nonce_counter s + 1) |>),
             Some (mk_frame (session_id s) (tx_nonce_counter s) t (u16 (Z.of_nat (length p)))
                     (blit c (ciphertext f))))
        end
  | _, _, _ => (false, session, out_frame)
  end.

(** The plaintext is [out_plaintext[0 .. *out_len]]; [out] says that both
    output pointers are given. *)
Definition transport_decrypt `{Ccm} (session : option TransportSession_t)
    (frame : option TransportFrame_t) (out : bool)
  : TransportDecryptResult_t * option TransportSession_t * option (list Z) :=
  match session, frame, out with
  | Some s, Some f, true =>
      if negb (active s) then (TRANSPORT_DECRYPT_ERR_SESSION, session, None)
      else if nonce_counter f <? rx_nonce_counter s
      then (TRANSPORT_DECRYPT_ERR_NONCE, session, None)
      else if TRANSPORT_MAX_PAYLOAD <? ciphertext_len f
      then (TRANSPORT_DECRYPT_ERR_PARAM_NULL, session, None)
      else if negb (mbedtls_ccm_setkey (rx_key s))
      then (TRANSPORT_DECRYPT_ERR_MIC_FAIL, session, None)
      else
        match mbedtls_ccm_auth_decrypt (rx_key s)
                (build_ccm_nonce (f_session_id f) (nonce_counter f))
                (take (Z.to_nat (ciphertext_len f)) (ciphertext f)) (mic f) with
        | None => (TRANSPORT_DECRYPT_ERR_MIC_FAIL, session, None)
        | Some p =>
            (TRANSPORT_DECRYPT_OK,
             Some (s <| rx_nonce_counter := u32 (nonce_counter f + 1) |>), Some p)
        end
  | _, _, _ => (TRANSPORT_DECRYPT_ERR_PARAM_NULL, session, None)
  end.

Definition transport_session_invalidate (session : option TransportSession_t)
  : option TransportSession_t :=
  match session with
  | None => None
  | Some s =>
      Some (s <| active := false |> <| tx_key := zeros TRANSPORT_AES_KEY_SIZE |>
              <| rx_key := zeros TRANSPORT_AES_KEY_SIZE |>)
  end.

(** ** Derived keys *)

Section keys.
Context `{HOk : MdHmacOk}.

Lemma derived_key_length k salt d : length (derived_key k salt d) = TRANSPORT_AES_KEY_SIZE.
Proof.
  unfold derived_key. rewrite length_take, iot_hmac_length. reflexivity.
Qed.

(** What a created session holds, whatever the order of the identifiers. *)
Lemma create_session_inv st s0 a b k st' s :
  transport_create_session st (Some s0) a b (Some k) = (true, st', Some s) ->
  session_id s = g_next_session_id st /\
  tx_key s = (if a <=? b then derived_key k [a; b] (cstr "a_to_b")
              else derived_key k [b; a] (cstr "b_to_a")) /\
  rx_key s = (if a <=? b then derived_key k [a; b] (cstr "b_to_a")
              else derived_key k [b; a] (cstr "a_to_b")) /\
  tx_nonce_counter s = 0 /\ rx_nonce_counter s = 0 /\ created_ms s = 0 /\ active s = true.
Proof.
  unfold transport_create_session, transport_derive_keys. intros Hc.
  destruct (g_initialised st); cbn [negb] in Hc; [|congruence].
  injection Hc as _ <-. cbn.
  destruct (Z.ltb_spec a b), (Z.leb_spec a b); try lia; cbn.
  - rewrite Z.eqb_refl. auto 10.
  - assert (a = b) as -> by lia. rewrite Z.eqb_refl. auto 10.
  - destruct (Z.eqb_spec a b); [lia|]. auto 10.
Qed.

(** Ready to talk: what one end encrypts under is what the other decrypts
    under, and both are live. *)
Record paired (s r : TransportSession_t) : Prop := {
  paired_key : tx_key s = rx_key r;
  paired_size : length (tx_key s) = TRANSPORT_AES_KEY_SIZE;
  paired_tx : active s = true;
  paired_rx : active r = true }.

Lemma create_paired st1 st2 s1 s2 a b k st1' st2' s r :
  transport_create_session st1 (Some s1) a b (Some k) = (true, st1', Some s) ->
  transport_create_session st2 (Some s2) b a (Some k) = (true, st2', Some r) ->
  a <> b -> paired s r.
Proof.
  intros (_ & Ht & _ & _ & _ & _ & Ha)%create_session_inv
    (_ & _ & Hr & _ & _ & _ & Hb)%create_session_inv Hne.
  split; auto; rewrite Ht; [rewrite Hr|].
  - destruct (Z.leb_spec a b), (Z.leb_spec b a); try lia; reflexivity.
  - destruct (a <=? b); apply derived_key_length.
Qed.

End keys.

(** ** Nonces *)

Lemma nonce_length id c : length (build_ccm_nonce id c) = TRANSPORT_NONCE_SIZE.
Proof. cbn. rewrite length_app, be_bytes_length. reflexivity. Qed.

Lemma nonce_inj id c id' c' :
  is_u32 c -> is_u32 c' -> build_ccm_nonce id c = build_ccm_nonce id' c' -> id = id' /\ c = c'.
Proof.
  intros Hc Hc' H. pose proof (f_equal (hd 0) H) as Hid. pose proof (f_equal (@tl Z) H) as Ht.
  split; [exact Hid|]. apply (be_bytes_inj 4); auto. exact (app_inv_tail _ _ _ Ht).
Qed.

(** ** Streams of frames *)

Definition zero_frame : TransportFrame_t := mk_frame 0 0 (zeros 4) 0 (zeros 256).

(** Messages sent one after the other; the frames that were produced. *)
Fixpoint send_all `{Ccm} (s : option TransportSession_t) (ms : list (list Z))
  : list TransportFrame_t :=
  match ms with
  | [] => []
  | m :: ms =>
      match transport_encrypt s (Some m) (Some zero_frame) with
      | (true, s', Some f) => f :: send_all s' ms
      | (_, s', _) => send_all s' ms
      end
  end.

(** Frames received one after the other; those that were accepted, with the
    plaintext delivered. *)
Fixpoint receive_all `{Ccm} (s : option TransportSession_t) (fs : list TransportFrame_t)
  : list (TransportFrame_t * list Z) :=
  match fs with
  | [] => []
  | f :: fs =>
      match transport_decrypt s (Some f) true with
      | (TRANSPORT_DECRYPT_OK, s', Some p) => (f, p) :: receive_all s' fs
      | (_, s', _) => receive_all s' fs
      end
  end.

Section streams.
Context `{CcmOk}.
Implicit Types (s r : TransportSession_t) (f : TransportFrame_t) (m p : list Z).

(** A frame that carries the encryption of [m] under [key]. *)
Definition carries key m f : Prop :=
  mbedtls_ccm_encrypt_and_tag key (build_ccm_nonce (f_session_id f) (nonce_counter f)) m
    TRANSPORT_MIC_SIZE =
  Some (take (Z.to_nat (ciphertext_len f)) (ciphertext f), mic f).

Lemma encrypt_ok s m :
  active s = true -> length (tx_key s) = TRANSPORT_AES_KEY_SIZE ->
  Z.of_nat (length m) <= TRANSPORT_MAX_PAYLOAD ->
  exists f, transport_encrypt (Some s) (Some m) (Some zero_frame) =
    (true, Some (s <| tx_nonce_counter := u32 (tx_nonce_counter s + 1) |>), Some f) /\
    f_session_id f = session_id s /\ nonce_counter f = tx_nonce_counter s /\
    ciphertext_len f = Z.of_nat (length m) /\ carries (tx_key s) m f.
Proof.
  intros Ha Hk Hm. unfold transport_encrypt. rewrite Ha, ccm_setkey_16 by assumption. cbn [negb].
  destruct (Z.ltb_spec TRANSPORT_MAX_PAYLOAD (Z.of_nat (length m))); [lia|].
  destruct (ccm_total (tx_key s) (build_ccm_nonce (session_id s) (tx_nonce_counter s)) m
    TRANSPORT_MIC_SIZE) as [[c t] He]; auto using nonce_length;
    [compute; auto 10|unfold TRANSPORT_MAX_PAYLOAD in *; lia|].
  rewrite He. eexists. split; [reflexivity|]. unfold carries. cbn.
  rewrite u16_small by (unfold TRANSPORT_MAX_PAYLOAD, is_u16 in *; lia).
  split_and!; auto. rewrite He. apply ccm_sizes in He as [Hc _].
  rewrite Nat2Z.id, <- Hc, take_blit. reflexivity.
Qed.

Lemma encrypt_inv s m f0 ok (s' : option TransportSession_t) o :
  transport_encrypt (Some s) (Some m) (Some f0) = (ok, s', o) ->
  (ok = true /\ exists f, o = Some f /\ nonce_counter f = tx_nonce_counter s /\
     s' = Some (s <| tx_nonce_counter := u32 (tx_nonce_counter s + 1) |>)) \/
  (ok = false /\ s' = Some s).
Proof.
  unfold transport_encrypt. intros He.
  destruct (negb (active s)); [right; split; congruence|].
  destruct (_ <? _); [right; split; congruence|].
  destruct (negb (mbedtls_ccm_setkey _)); [right; split; congruence|].
  destruct (mbedtls_ccm_encrypt_and_tag _ _ _ _) as [[c t]|]; [|right; split; congruence].
  left. injection He as <- <- <-. eauto 10.
Qed.

Lemma decrypt_carried r f m :
  active r = true -> length (rx_key r) = TRANSPORT_AES_KEY_SIZE ->
  carries (rx_key r) m f -> ciphertext_len f <= TRANSPORT_MAX_PAYLOAD ->
  rx_nonce_counter r <= nonce_counter f ->
  transport_decrypt (Some r) (Some f) true =
    (TRANSPORT_DECRYPT_OK, Some (r <| rx_nonce_counter := u32 (nonce_counter f + 1) |>), Some m).
Proof.
  intros Ha Hk Hc Hl Hn. unfold transport_decrypt. rewrite Ha, ccm_setkey_16 by assumption.
  cbn [negb]. destruct (Z.ltb_spec (nonce_counter f) (rx_nonce_counter r)); [lia|].
  destruct (Z.ltb_spec TRANSPORT_MAX_PAYLOAD (ciphertext_len f)); [lia|].
  rewrite (ccm_open_seal _ _ _ _ _ _ Hc). reflexivity.
Qed.

(** Frames of a paired sender, some of them lost on the way. *)
Lemma delivery ms s r :
  paired s r -> 0 <= rx_nonce_counter r <= tx_nonce_counter s ->
  tx_nonce_counter s + Z.of_nat (length ms) < 4294967296 ->
  Forall (fun m => Z.of_nat (length m) <= TRANSPORT_MAX_PAYLOAD) ms ->
  length (send_all (Some s) ms) = length ms /\
  forall l, l `sublist_of` zip ms (send_all (Some s) ms) ->
    snd <$> receive_all (Some r) (snd <$> l) = fst <$> l.
Proof.
  revert s r. induction ms as [|m ms IH]; intros s r Hp Hrx Htx Hms.
  { split; [reflexivity|]. intros l Hl. apply sublist_nil_r in Hl. subst l. reflexivity. }
  inversion_clear Hms as [|? ? Hm Hms']. destruct Hp as [Hkey Hsize Hta Hra].
  destruct (encrypt_ok s m Hta Hsize Hm) as (f & He & Hid & Hc & Hlen & Hcar).
  cbn [send_all]. rewrite He.
  set (s' := s <| tx_nonce_counter := u32 (tx_nonce_counter s + 1) |>).
  assert (tx_nonce_counter s' = tx_nonce_counter s + 1) as Hs'
    by (cbn in *; apply u32_small; unfold is_u32; lia).
  cbn [length] in *.
  assert (forall r', paired s r' -> 0 <= rx_nonce_counter r' <= tx_nonce_counter s + 1 ->
    length (send_all (Some s') ms) = length ms /\
    forall l, l `sublist_of` zip ms (send_all (Some s') ms) ->
      snd <$> receive_all (Some r') (snd <$> l) = fst <$> l) as IH'.
  { intros r' [] Hr'. apply IH; [split; auto|lia|lia|assumption]. }
  split; [f_equal; apply (IH' r); [split; auto|lia]|].
  intros l Hl. cbn [zip zip_with] in Hl. apply sublist_cons_r in Hl as [Hl|(l' & -> & Hl)].
  - apply (IH' r); [split; auto|lia|exact Hl].
  - rewrite !fmap_cons. cbn [receive_all snd fst].
    rewrite (decrypt_carried r f m); [|auto|congruence|congruence| |lia].
    2: { rewrite Hlen. exact Hm. }
    cbn. f_equal. apply IH'; [split; auto| |exact Hl].
    cbn. rewrite Hc. rewrite u32_small by (unfold is_u32; lia). lia.
Qed.

(** The frames of one session number upwards from its counter. *)
Definition frame_nonce f : list Z := build_ccm_nonce (f_session_id f) (nonce_counter f).

Lemma send_counters ms s :
  0 <= tx_nonce_counter s -> tx_nonce_counter s + Z.of_nat (length ms) <= 4294967296 ->
  Forall (fun f => tx_nonce_counter s <= nonce_counter f < 4294967296) (send_all (Some s) ms) /\
  NoDup (frame_nonce <$> send_all (Some s) ms).
Proof.
  revert s. induction ms as [|m ms IH]; intros s Hlo Hhi; [split; constructor|].
  cbn [send_all length] in *.
  destruct (transport_encrypt (Some s) (Some m) (Some zero_frame)) as [[ok s'] o] eqn:He.
  apply encrypt_inv in He as [(-> & f & -> & Hn & ->)|(-> & ->)].
  2: { destruct (IH s) as [Ha Hb]; [lia|lia|]. destruct o; auto. }
  destruct ms as [|m' ms'].
  { cbn [send_all]. split; [repeat constructor; lia|apply NoDup_singleton]. }
  set (s' := s <| tx_nonce_counter := u32 (tx_nonce_counter s + 1) |>) in *.
  assert (tx_nonce_counter s' = tx_nonce_counter s + 1) as Hs'
    by (cbn in *; apply u32_small; unfold is_u32; lia).
  destruct (IH s') as [Ha Hb]; [lia|cbn [length] in *; lia|]. split.
  - constructor; [lia|]. eapply Forall_impl; [exact Ha|]. cbv beta. lia.
  - rewrite fmap_cons. constructor; [|exact Hb]. intros Hin.
    apply list_elem_of_fmap in Hin as (g & Hg & Hin). rewrite Forall_forall in Ha.
    specialize (Ha g Hin). cbv beta in Ha. apply nonce_inj in Hg as [_ Hg]; unfold is_u32; lia.
Qed.

(** What [transport_decrypt] accepts. *)
Lemma decrypt_ok_inv r f (r' : option TransportSession_t) p :
  transport_decrypt (Some r) (Some f) true = (TRANSPORT_DECRYPT_OK, r', Some p) ->
  rx_nonce_counter r <= nonce_counter f /\
  r' = Some (r <| rx_nonce_counter := u32 (nonce_counter f + 1) |>) /\
  (length (mic f) = TRANSPORT_MIC_SIZE -> carries (rx_key r) p f).
Proof.
  unfold transport_decrypt. intros Hd.
  destruct (negb (active r)); [discriminate|].
  destruct (Z.ltb_spec (nonce_counter f) (rx_nonce_counter r)); [discriminate|].
  destruct (Z.ltb_spec TRANSPORT_MAX_PAYLOAD (ciphertext_len f)); [discriminate|].
  destruct (negb (mbedtls_ccm_setkey (rx_key r))); [discriminate|].
  destruct (mbedtls_ccm_auth_decrypt _ _ _ _) as [q|] eqn:Hq; [|discriminate].
  injection Hd as <- <-. split_and!; auto. intros Hmic. unfold carries.
  apply ccm_seal_open in Hq. rewrite Hmic in Hq. exact Hq.
Qed.

Lemma decrypt_err_same r f res (r' : option TransportSession_t) (p : option (list Z)) :
  transport_decrypt (Some r) (Some f) true = (res, r', p) -> res <> TRANSPORT_DECRYPT_OK ->
  r' = Some r /\ p = None.
Proof. unfold transport_decrypt. intros Hd Hne. cases; try congruence; auto. Qed.

Lemma decrypt_ok_some r f (r' : option TransportSession_t) (p : option (list Z)) :
  transport_decrypt (Some r) (Some f) true = (TRANSPORT_DECRYPT_OK, r', p) -> is_Some p.
Proof. unfold transport_decrypt. intros Hd. cases; eauto. Qed.

(** One frame of a stream. *)
Lemma receive_step r f fs :
  (exists p, receive_all (Some r) (f :: fs) =
     (f, p) :: receive_all (Some (r <| rx_nonce_counter := u32 (nonce_counter f + 1) |>)) fs /\
     rx_nonce_counter r <= nonce_counter f /\
     (length (mic f) = TRANSPORT_MIC_SIZE -> carries (rx_key r) p f)) \/
  receive_all (Some r) (f :: fs) = receive_all (Some r) fs.
Proof.
  cbn [receive_all].
  destruct (transport_decrypt (Some r) (Some f) true) as [[res r'] p] eqn:Hd.
  destruct (decide (res = TRANSPORT_DECRYPT_OK)) as [->|Hne].
  - left. destruct (decrypt_ok_some _ _ _ _ Hd) as [q ->].
    apply decrypt_ok_inv in Hd as (Hn & -> & Hcar). eauto.
  - right. destruct (decrypt_err_same _ _ _ _ _ Hd Hne) as [-> ->]. destruct res; auto; congruence.
Qed.

(** An accepted stream has increasing counters, all at or above the
    receiver's. *)
Lemma receive_increasing fs r :
  Forall (fun f => 0 <= nonce_counter f < 4294967295) fs ->
  StronglySorted Z.lt (nonce_counter ∘ fst <$> receive_all (Some r) fs) /\
  Forall (Z.le (rx_nonce_counter r)) (nonce_counter ∘ fst <$> receive_all (Some r) fs).
Proof.
  revert r. induction fs as [|f fs IH]; intros r Hfs; [split; constructor|].
  inversion_clear Hfs as [|? ? Hf Hfs'].
  destruct (receive_step r f fs) as [(p & -> & Hn & _)| ->]; [|auto].
  destruct (IH (r <| rx_nonce_counter := u32 (nonce_counter f + 1) |>) Hfs') as [Hs Hb].
  rewrite fmap_cons. cbn [compose fst]. cbn in Hb.
  rewrite u32_small in * by (unfold is_u32; lia).
  split; constructor; auto; eapply Forall_impl; try exact Hb; cbn; lia.
Qed.

Lemma receive_authentic fs r f p :
  Forall (fun f => length (mic f) = TRANSPORT_MIC_SIZE) fs ->
  (f, p) ∈ receive_all (Some r) fs -> f ∈ fs /\ carries (rx_key r) p f.
Proof.
  revert r. induction fs as [|g fs IH]; intros r Hfs Hin; [apply elem_of_nil in Hin; tauto|].
  inversion_clear Hfs as [|? ? Hg Hfs'].
  destruct (receive_step r g fs) as [(q & Heq & _ & Hcar)|Heq]; rewrite Heq in Hin.
  - apply elem_of_cons in Hin as [[= -> ->]|Hin]; [split; [left|auto]|].
    destruct (IH _ Hfs' Hin). split; [right|]; assumption.
  - destruct (IH _ Hfs' Hin). split; [right|]; assumption.
Qed.

End streams.

(** ** Sessions of the examples *)

Definition demo_key : list Z := le_bytes 16 77.
Definition empty_session : TransportSession_t := mk_session 0 0 0 [] [] 0 0 0 false.
Definition demo_session (st : state) (a b : Z) : TransportSession_t :=
  match transport_create_session (H := mix_hmac) st (Some empty_session) a b (Some demo_key) with
  | (_, _, Some s) => s
  | _ => empty_session
  end.

(** ** Properties *)

Section properties.
Context `{HOk : MdHmacOk} `{COk : CcmOk}.

(** C5. Two nodes that create sessions with each other under the same key
    understand each other: every message of at most 256 bytes becomes a frame,
    and whatever frames are lost on the way, the receiver delivers exactly the
    messages of the frames that arrive in order. *)
Theorem sessions_deliver st1 st2 s1 s2 a b k st1' st2' s r ms l :
  transport_create_session st1 (Some s1) a b (Some k) = (true, st1', Some s) ->
  transport_create_session st2 (Some s2) b a (Some k) = (true, st2', Some r) ->
  a <> b -> Z.of_nat (length ms) < 4294967296 ->
  Forall (fun m => Z.of_nat (length m) <= TRANSPORT_MAX_PAYLOAD) ms ->
  l `sublist_of` zip ms (send_all (Some s) ms) ->
  length (send_all (Some s) ms) = length ms /\
  snd <$> receive_all (Some r) (snd <$> l) = fst <$> l.
Proof.
  intros H1 H2 Hne Hlen Hms Hl. pose proof (create_paired _ _ _ _ _ _ _ _ _ _ _ H1 H2 Hne) as Hp.
  apply create_session_inv in H1 as (_ & _ & _ & Htx & _).
  apply create_session_inv in H2 as (_ & _ & _ & _ & Hrx & _).
  destruct (delivery ms s r Hp) as [Hs Hr]; auto; lia.
Qed.

(** C7. No frame of a session is accepted twice: over any stream of incoming
    frames, forged and repeated ones included, the counters of the accepted
    frames strictly increase, and each accepted frame is the encryption of the
    delivered plaintext under the receiver's key and the frame's nonce (below
    the last counter value, after which the expected counter wraps to zero). *)
Theorem accepted_once_and_authentic r fs :
  Forall (fun f => 0 <= nonce_counter f < 4294967295) fs ->
  Forall (fun f => length (mic f) = TRANSPORT_MIC_SIZE) fs ->
  StronglySorted Z.lt (nonce_counter ∘ fst <$> receive_all (Some r) fs) /\
  forall f p, (f, p) ∈ receive_all (Some r) fs ->
    mbedtls_ccm_encrypt_and_tag (rx_key r) (build_ccm_nonce (f_session_id f) (nonce_counter f)) p
      TRANSPORT_MIC_SIZE = Some (take (Z.to_nat (ciphertext_len f)) (ciphertext f), mic f).
Proof.
  intros Hc Hm. split; [apply (receive_increasing fs r Hc)|].
  intros f p Hin. apply (receive_authentic fs r f p Hm Hin).
Qed.

(** No two frames sent in one session share a nonce, for as long as the
    32-bit counter lasts. *)
Theorem session_nonces_distinct s ms :
  0 <= tx_nonce_counter s -> tx_nonce_counter s + Z.of_nat (length ms) <= 4294967296 ->
  NoDup ((fun f => build_ccm_nonce (f_session_id f) (nonce_counter f)) <$> send_all (Some s) ms).
Proof. intros Hlo Hhi. exact (proj2 (send_counters ms s Hlo Hhi)). Qed.

(** The keys of a session depend on the shared key and the two identifiers
    only, and [transport_decrypt] takes the frame's session identifier on
    trust: a frame that was delivered in one session is delivered again by the
    next session between the same two nodes. *)
Theorem next_session_accepts_replay st1 st2 st3 s1 s2 s3 a b k st1' st2' st3' s r r' m f s' :
  transport_create_session st1 (Some s1) a b (Some k) = (true, st1', Some s) ->
  transport_create_session st2 (Some s2) b a (Some k) = (true, st2', Some r) ->
  transport_create_session st3 (Some s3) b a (Some k) = (true, st3', Some r') ->
  a <> b -> Z.of_nat (length m) <= TRANSPORT_MAX_PAYLOAD ->
  transport_encrypt (Some s) (Some m) (Some zero_frame) = (true, s', Some f) ->
  fst (fst (transport_decrypt (Some r) (Some f) true)) = TRANSPORT_DECRYPT_OK /\
  fst (fst (transport_decrypt (Some r') (Some f) true)) = TRANSPORT_DECRYPT_OK /\
  snd (transport_decrypt (Some r') (Some f) true) = Some m.
Proof.
  intros H1 H2 H3 Hne Hm He.
  pose proof (create_paired _ _ _ _ _ _ _ _ _ _ _ H1 H2 Hne) as [Hk Hsz Ha Hb].
  pose proof (create_paired _ _ _ _ _ _ _ _ _ _ _ H1 H3 Hne) as [Hk' _ _ Hb'].
  destruct (encrypt_ok s m Ha Hsz Hm) as (f' & He' & _ & Hn & Hl & Hcar).
  assert (f' = f) as -> by congruence.
  apply create_session_inv in H1 as (_ & _ & _ & Htx & _).
  apply create_session_inv in H2 as (_ & _ & _ & _ & Hrx & _).
  apply create_session_inv in H3 as (_ & _ & _ & _ & Hrx' & _).
  rewrite (decrypt_carried r f m), (decrypt_carried r' f m); auto; try congruence; lia.
Qed.

(** Session identifiers restart at one: the first session after a restart
    encrypts its first frame under the very key and nonce the first session
    before the restart used, so the keystream repeats. *)
Theorem restart_repeats_nonce st st' s1 s2 a b k t1 t2 s r :
  transport_create_session (snd (transport_init st)) (Some s1) a b (Some k) = (true, t1, Some s) ->
  transport_create_session (snd (transport_init st')) (Some s2) a b (Some k) = (true, t2, Some r) ->
  tx_key s = tx_key r /\
  build_ccm_nonce (session_id s) (tx_nonce_counter s) =
  build_ccm_nonce (session_id r) (tx_nonce_counter r).
Proof.
  intros (Hi & Hk & _ & Hn & _)%create_session_inv (Hi' & Hk' & _ & Hn' & _)%create_session_inv.
  rewrite Hi, Hi', Hk, Hk', Hn, Hn'. auto.
Qed.

End properties.

Lemma sessions_deliver_witness :
  snd <$> receive_all (H := toy_ccm) (Some (demo_session (mk_state true 9) 7 3))
    (drop 1 (send_all (H := toy_ccm) (Some (demo_session (mk_state true 1) 3 7)) [[1]; [2; 3]; []]))
  = [[2; 3]; []].
Proof.
  refine (proj2 (sessions_deliver (HOk := mix_hmac_ok) (COk := toy_ccm_ok)
    (mk_state true 1) (mk_state true 9) empty_session empty_session 3 7 demo_key _ _
    (demo_session (mk_state true 1) 3 7) (demo_session (mk_state true 9) 7 3)
    [[1]; [2; 3]; []]
    (drop 1 (zip [[1]; [2; 3]; []]
       (send_all (H := toy_ccm) (Some (demo_session (mk_state true 1) 3 7)) [[1]; [2; 3]; []])))
    _ _ _ _ _ _)); try (vm_compute; reflexivity).
  - lia.
  - repeat constructor; cbn; unfold TRANSPORT_MAX_PAYLOAD; lia.
  - apply sublist_drop.
Defined.

Definition demo_frames : list TransportFrame_t :=
  send_all (H := toy_ccm) (Some (demo_session (mk_state true 1) 3 7)) [[1]; [2; 3]].

Lemma accepted_once_and_authentic_witness :
  StronglySorted Z.lt (nonce_counter ∘ fst <$>
    receive_all (H := toy_ccm) (Some (demo_session (mk_state true 1) 7 3))
      (demo_frames ++ demo_frames)).
Proof.
  refine (proj1 (accepted_once_and_authentic (COk := toy_ccm_ok)
    (demo_session (mk_state true 1) 7 3) (demo_frames ++ demo_frames) _ _));
  apply (bool_decide_unpack _); vm_compute; exact I.
Defined.

Lemma session_nonces_distinct_witness :
  NoDup ((fun f => build_ccm_nonce (f_session_id f) (nonce_counter f)) <$>
    send_all (H := toy_ccm) (Some (demo_session (mk_state true 1) 3 7)) [[1]; [2; 3]; []]).
Proof.
  apply (session_nonces_distinct (demo_session (mk_state true 1) 3 7) [[1]; [2; 3]; []]).
  - vm_compute. congruence.
  - vm_compute. congruence.
Defined.

Lemma next_session_accepts_replay_witness :
  snd (transport_decrypt (H := toy_ccm) (Some (demo_session (mk_state true 2) 7 3))
    (Some (hd zero_frame demo_frames)) true) = Some [1].
Proof.
  refine (proj2 (proj2 (next_session_accepts_replay (HOk := mix_hmac_ok) (COk := toy_ccm_ok)
    (mk_state true 1) (mk_state true 1) (mk_state true 2) empty_session empty_session empty_session
    3 7 demo_key _ _ _ (demo_session (mk_state true 1) 3 7) (demo_session (mk_state true 1) 7 3)
    (demo_session (mk_state true 2) 7 3) [1] (hd zero_frame demo_frames) _ _ _ _ _ _ _)));
  try (vm_compute; reflexivity).
  - lia.
  - cbn. unfold TRANSPORT_MAX_PAYLOAD. lia.
Defined.

Lemma restart_repeats_nonce_witness :
  build_ccm_nonce (session_id (demo_session (mk_state true 1) 3 7)) 0 =
  build_ccm_nonce (session_id (demo_session (mk_state true 1) 3 7)) 0.
Proof.
  exact (proj2 (restart_repeats_nonce (H := mix_hmac) initial (mk_state true 8)
    empty_session empty_session 3 7 demo_key _ _ (demo_session (mk_state true 1) 3 7)
    (demo_session (mk_state true 1) 3 7) eq_refl eq_refl)).
Defined.

End transport_encryption.
