(* ===== verification/AuditLog.v ===== *)
(** The tamper-evident audit log (firmware/shared/audit_log.c): a ring of 32
    entries, each carrying the HMAC of its content and of the previous entry's
    HMAC. *)

From S2P Require Import Prelude Hmac TimeSource.
Import hmac.

Module audit_log.

Definition AUDIT_LOG_MAX_ENTRIES : Z := 32.
Definition AUDIT_LOG_HMAC_SIZE : nat := 32.

Inductive AuditEventType_t :=
| AUDIT_AUTH_SUCCESS
| AUDIT_AUTH_FAILURE
| AUDIT_SAFETY_LOCKED_REJECTED
| AUDIT_CONFIG_WRITE
| AUDIT_SESSION_CREATED
| AUDIT_SESSION_EXPIRED
| AUDIT_TAMPER_DETECTED
| AUDIT_MODULE_ATTESTATION_FAIL.

#[export] Instance AuditEventType_eq_dec : EqDecision AuditEventType_t.
Proof. solve_decision. Defined.

Definition event_code (e : AuditEventType_t) : Z :=
  match e with
  | AUDIT_AUTH_SUCCESS => 0 | AUDIT_AUTH_FAILURE => 1
  | AUDIT_SAFETY_LOCKED_REJECTED => 2 | AUDIT_CONFIG_WRITE => 3
  | AUDIT_SESSION_CREATED => 4 | AUDIT_SESSION_EXPIRED => 5
  | AUDIT_TAMPER_DETECTED => 6 | AUDIT_MODULE_ATTESTATION_FAIL => 7
  end.

(** [padding] is the byte the compiler inserts before [rule_id]; member stores
    leave it alone and [memcpy] of the entry reads it. *)
Record AuditLogEntry_t := mk_entry {
  timestamp_ms : Z;
  event_type : AuditEventType_t;
  session_id : Z;
  padding : Z;
  rule_id : Z;
  detail : list Z;
  chain_hmac : list Z }.

#[export] Instance eta_entry : Eta AuditLogEntry_t := fun r =>
  mk_entry (timestamp_ms r) (event_type r) (session_id r) (padding r) (rule_id r)
    (detail r) (chain_hmac r).

Definition zero_entry : AuditLogEntry_t :=
  mk_entry 0 AUDIT_AUTH_SUCCESS 0 0 0 (zeros 64) (zeros 32).

#[export] Instance entry_inhabited : Inhabited AuditLogEntry_t := populate zero_entry.

(** The storage callbacks, functions of an outside world. [load] receives what
    its out-pointers hold and returns what it leaves there. *)
Record AuditLogStorage_t (W : Type) := {
  save : option (list AuditLogEntry_t -> Z -> Z -> Z -> W -> bool * W);
  load : option (list AuditLogEntry_t -> Z -> Z -> Z -> W ->
                 bool * list AuditLogEntry_t * Z * Z * W) }.
Arguments save {W} _. Arguments load {W} _.

(** The file's statics; [clock] is the time source the file calls. *)
Record state (W : Type) := mk_state {
  g_audit_log : list AuditLogEntry_t;
  g_audit_write_index : Z;
  g_auth_failure_count : Z;
  g_chain_key : list Z;
  g_chain_key_set : bool;
  g_initialised : bool;
  g_storage : option (AuditLogStorage_t W);
  clock : time_source.state W }.
Arguments mk_state {W}. Arguments g_audit_log {W}. Arguments g_audit_write_index {W}.
Arguments g_auth_failure_count {W}. Arguments g_chain_key {W}. Arguments g_chain_key_set {W}.
Arguments g_initialised {W}. Arguments g_storage {W}. Arguments clock {W}.

#[export] Instance eta_state W : Eta (state W) := fun r =>
  mk_state (g_audit_log r) (g_audit_write_index r) (g_auth_failure_count r) (g_chain_key r)
    (g_chain_key_set r) (g_initialised r) (g_storage r) (clock r).

Definition initial {W} : state W :=
  mk_state (replicate 32 zero_entry) 0 0 (zeros 32) false false None time_source.initial.

(** The bytes [memcpy(buf, entry, offsetof(AuditLogEntry_t, chain_hmac))] copies
    on the little-endian targets: 8 + 4 + 1 + 1 + 2 + 64 bytes. *)
Definition content (e : AuditLogEntry_t) : list Z :=
  le_bytes 8 (timestamp_ms e) ++ le_bytes 4 (event_code (event_type e)) ++
  [session_id e; padding e] ++ le_bytes 2 (rule_id e) ++ take 64 (detail e).

Section audit_log.
Context {W : Type} `{MdHmac}.
Implicit Types (st : state W) (w : W) (e : AuditLogEntry_t).

Definition entry_count st : Z :=
  if g_audit_write_index st <? AUDIT_LOG_MAX_ENTRIES
  then g_audit_write_index st else AUDIT_LOG_MAX_ENTRIES.

Definition audit_log_persist st w : W :=
  match g_storage st ≫= save with
  | Some f => snd (f (g_audit_log st) (entry_count st) (g_audit_write_index st)
                     (g_auth_failure_count st) w)
  | None => w
  end.

(** HMAC over the entry's content followed by the previous entry's HMAC. *)
Definition audit_log_compute_chain_hmac st e (prev_hmac : list Z) : AuditLogEntry_t :=
  if negb (g_chain_key_set st) then e <| chain_hmac := zeros AUDIT_LOG_HMAC_SIZE |>
  else e <| chain_hmac := iot_hmac_sha256 (g_chain_key st) (content e ++ prev_hmac) |>.

Definition audit_log_init st w : bool * state W * W :=
  let st := st <| g_audit_write_index := 0 |> <| g_auth_failure_count := 0 |>
               <| g_chain_key_set := false |> in
  match g_storage st ≫= load with
  | Some f =>
      let '(_, log, wi, fails, w) := f (g_audit_log st) AUDIT_LOG_MAX_ENTRIES 0 0 w in
      (true, st <| g_audit_log := log |> <| g_audit_write_index := wi |>
                <| g_auth_failure_count := fails |> <| g_initialised := true |>, w)
  | None =>
      (true, st <| g_audit_log := replicate 32 zero_entry |> <| g_initialised := true |>, w)
  end.

Definition audit_log_set_storage st (storage : option (AuditLogStorage_t W)) : state W :=
  st <| g_storage := storage |>.

(** [log[i % AUDIT_LOG_MAX_ENTRIES]] *)
Definition entry_at (log : list AuditLogEntry_t) (i : Z) : AuditLogEntry_t :=
  log !!! Z.to_nat (i mod AUDIT_LOG_MAX_ENTRIES).

(** [strncpy] of the detail with a final NUL; with a NULL detail only the first
    byte is cleared. *)
Definition set_detail (old : list Z) (d : option (list Z)) : list Z :=
  match d with
  | Some s => strncpy 63 s ++ [0]
  | None => <[0%nat := 0]> old
  end.

Definition audit_log_add st w (event : AuditEventType_t) (sid rid : Z)
    (d : option (list Z)) : state W * W :=
  if negb (g_initialised st) then (st, w)
  else
    let wi := g_audit_write_index st in
    let prev_hmac :=
      if 0 <? wi then chain_hmac (entry_at (g_audit_log st) (u8 (wi - 1)))
      else zeros AUDIT_LOG_HMAC_SIZE in
    let '(now, clk, w) := time_source.time_source_get_ms (clock st) w in
    let old := entry_at (g_audit_log st) wi in
    let e := old <| timestamp_ms := now |> <| event_type := event |> <| session_id := sid |>
                 <| rule_id := rid |> <| detail := set_detail (detail old) d |> in
    let fails := if bool_decide (event = AUDIT_AUTH_FAILURE)
                 then u32 (g_auth_failure_count st + 1) else g_auth_failure_count st in
    let e := audit_log_compute_chain_hmac st e prev_hmac in
    let st := st <| clock := clk |> <| g_auth_failure_count := fails |>
                 <| g_audit_log := store (wi mod AUDIT_LOG_MAX_ENTRIES) e (g_audit_log st) |>
                 <| g_audit_write_index := u8 (wi + 1) |> in
    (st, audit_log_persist st w).

Definition audit_log_get_count st : Z := if negb (g_initialised st) then 0 else entry_count st.

(** The index of the oldest retained entry. *)
Definition start_idx st : Z :=
  if AUDIT_LOG_MAX_ENTRIES <=? g_audit_write_index st
  then g_audit_write_index st mod AUDIT_LOG_MAX_ENTRIES else 0.

(** The loop [for (i = 0; i < n; i++) ... g_audit_log[(start + i) % 32]]. *)
Definition entries_from st (n : Z) : list AuditLogEntry_t :=
  map (fun i => entry_at (g_audit_log st) (start_idx st + Z.of_nat i)) (seq 0 (Z.to_nat n)).

(** The entries copied to the caller; the C function returns their number. *)
Definition audit_log_get_entries st (out : bool) (max_entries : Z) : list AuditLogEntry_t :=
  if negb out || (max_entries =? 0) then []
  else if negb (g_initialised st) then []
  else entries_from st (Z.min (entry_count st) max_entries).

Definition audit_log_get_auth_failure_count st : Z := g_auth_failure_count st.

(** The verification loop over the entries, oldest first. *)
Fixpoint verify_entries (key : list Z) (prev_hmac : list Z) (es : list AuditLogEntry_t) : bool :=
  match es with
  | [] => true
  | e :: es =>
      if ct_equal (chain_hmac e) (iot_hmac_sha256 key (content e ++ prev_hmac))
      then verify_entries key (chain_hmac e) es else false
  end.

Definition audit_log_verify_chain st (hmac_key : option (list Z)) : bool :=
  match hmac_key with
  | None | Some [] => false
  | Some key =>
      if negb (g_initialised st) then false
      else
        let count := audit_log_get_count st in
        if count =? 0 then true
        else verify_entries key (zeros AUDIT_LOG_HMAC_SIZE) (entries_from st count)
  end.

(** The key is truncated or zero-padded to 32 bytes. *)
Definition audit_log_set_chain_key st (key : option (list Z)) : state W :=
  match key with
  | None | Some [] => st
  | Some k => st <| g_chain_key := take 32 k ++ zeros (32 - length (take 32 k)) |>
                 <| g_chain_key_set := true |>
  end.

(** ** Runs of the log *)

Record event := mk_event {
  ev_type : AuditEventType_t; ev_sid : Z; ev_rid : Z; ev_detail : option (list Z) }.

Definition add_event (sw : state W * W) (ev : event) : state W * W :=
  audit_log_add (fst sw) (snd sw) (ev_type ev) (ev_sid ev) (ev_rid ev) (ev_detail ev).

Definition add_all (sw : state W * W) (evs : list event) : state W * W :=
  fold_left add_event evs sw.

(** A log just initialised without stored entries and given its chain key. *)
Record fresh (st : state W) (k : list Z) : Prop := {
  fresh_init : g_initialised st = true;
  fresh_size : length (g_audit_log st) = 32%nat;
  fresh_index : g_audit_write_index st = 0;
  fresh_key : g_chain_key st = k;
  fresh_key_size : length k = 32%nat;
  fresh_key_set : g_chain_key_set st = true }.

(** The state of a log under key [k] after [n] additions. *)
Record logged (k : list Z) (n : Z) (st : state W) : Prop := {
  lg_init : g_initialised st = true;
  lg_size : length (g_audit_log st) = 32%nat;
  lg_index : g_audit_write_index st = u8 n;
  lg_key : g_chain_key st = k;
  lg_key_set : g_chain_key_set st = true }.

Definition prev_of st : list Z :=
  if 0 <? g_audit_write_index st
  then chain_hmac (entry_at (g_audit_log st) (u8 (g_audit_write_index st - 1)))
  else zeros AUDIT_LOG_HMAC_SIZE.

Lemma entry_at_lookup log i :
  length log = 32%nat -> log !! Z.to_nat (i mod AUDIT_LOG_MAX_ENTRIES) = Some (entry_at log i).
Proof.
  intros Hl. unfold entry_at, AUDIT_LOG_MAX_ENTRIES. apply list_lookup_lookup_total_lt.
  pose proof (Z.mod_pos_bound i 32). lia.
Qed.

Lemma content_set_chain e h : content (e <| chain_hmac := h |>) = content e.
Proof. reflexivity. Qed.

(** What one addition does to the ring, the index and the counters. *)
Lemma add_step k n st w ev :
  0 <= n -> logged k n st ->
  exists e,
    let '(st', w') := add_event (st, w) ev in
    logged k (n + 1) st' /\
    g_audit_log st' = store (u8 n mod 32) e (g_audit_log st) /\
    chain_hmac e = iot_hmac_sha256 k (content e ++ prev_of st) /\
    g_auth_failure_count st' =
      (if bool_decide (ev_type ev = AUDIT_AUTH_FAILURE)
       then u32 (g_auth_failure_count st + 1) else g_auth_failure_count st).
Proof.
  intros Hn [Hi Hs Hw Hk Hks]. unfold add_event, audit_log_add. cbn [fst snd].
  rewrite Hi. cbn [negb].
  destruct (time_source.time_source_get_ms (clock st) w) as [[now clk] w'].
  unfold audit_log_compute_chain_hmac. rewrite Hks, Hk. cbn [negb].
  unfold prev_of. rewrite !Hw. eexists. split; [|split; [|split]].
  - split; cbn; rewrite ?store_length; auto. words.
  - reflexivity.
  - cbn [chain_hmac set_field]. rewrite content_set_chain. reflexivity.
  - reflexivity.
Qed.

Lemma fresh_logged st k : fresh st k -> logged k 0 st.
Proof. intros [? ? ? ? ? ?]. split; auto. Qed.

(** An invariant indexed by the number of additions holds after any run. *)
Lemma run_invariant (P : Z -> state W -> Prop) k n st w evs :
  0 <= n -> logged k n st -> P n st ->
  (forall m st w ev, n <= m -> m < n + Z.of_nat (length evs) -> logged k m st -> P m st ->
     P (m + 1) (fst (add_event (st, w) ev))) ->
  let st' := fst (add_all (st, w) evs) in
  logged k (n + Z.of_nat (length evs)) st' /\ P (n + Z.of_nat (length evs)) st'.
Proof.
  revert n st w. induction evs as [|ev evs IH]; intros n st w Hn Hl HP Hstep.
  - cbn. rewrite Z.add_0_r. auto.
  - cbn [add_all fold_left].
    destruct (add_step k n st w ev Hn Hl) as (e & He).
    pose proof (Hstep n st w ev ltac:(lia) ltac:(cbn; lia) Hl HP) as HP'.
    destruct (add_event (st, w) ev) as [st1 w1]. destruct He as (Hl1 & _). cbn [fst] in HP'.
    replace (n + Z.of_nat (length (ev :: evs))) with ((n + 1) + Z.of_nat (length evs))
      by (cbn [length]; lia).
    apply IH; auto; [lia|]. intros m st2 w2 ev2 Hm Hm2. apply Hstep; cbn [length]; lia.
Qed.

(** While the ring has not wrapped, the retained entries are its first slots. *)
Lemma entries_from_prefix k n st :
  0 <= n <= 32 -> logged k n st -> entries_from st n = take (Z.to_nat n) (g_audit_log st).
Proof.
  intros Hn [_ Hs Hw _ _]. unfold entries_from, start_idx, AUDIT_LOG_MAX_ENTRIES.
  rewrite Hw, u8_small by (unfold is_u8; lia).
  assert ((if 32 <=? n then n mod 32 else 0) = 0) as ->.
  { destruct (Z.leb_spec 32 n); [|reflexivity]. replace n with 32 by lia. reflexivity. }
  apply list_eq. intros i. destruct (decide (i < Z.to_nat n)%nat) as [Hlt|Hge].
  - rewrite lookup_take_lt by lia. rewrite list_lookup_fmap, lookup_seq_lt by lia. cbn.
    rewrite Z.add_0_l, <- (entry_at_lookup (g_audit_log st) (Z.of_nat i) Hs). f_equal.
    unfold AUDIT_LOG_MAX_ENTRIES. rewrite Z.mod_small by lia. lia.
  - rewrite !lookup_ge_None_2; [reflexivity|rewrite length_take; lia|].
    rewrite length_map, length_seq. lia.
Qed.

Lemma verify_entries_app key prev es e :
  verify_entries key prev (es ++ [e]) =
  verify_entries key prev es &&
  ct_equal (chain_hmac e)
    (iot_hmac_sha256 key (content e ++ default prev (chain_hmac <$> last es))).
Proof.
  revert prev. induction es as [|e1 es IH]; intros prev; cbn.
  - destruct (ct_equal _ _); reflexivity.
  - destruct (ct_equal _ _); [|reflexivity]. rewrite IH.
    destruct es as [|e2 es]; [reflexivity|].
    change (last (e1 :: e2 :: es)) with (last (e2 :: es)).
    destruct (last (e2 :: es)) eqn:Hlast; [reflexivity|].
    apply last_None in Hlast. discriminate.
Qed.

Lemma get_count_logged k n st :
  0 <= n < 256 -> logged k n st -> audit_log_get_count st = Z.min n 32.
Proof.
  intros Hn [Hi _ Hw _ _]. unfold audit_log_get_count, entry_count, AUDIT_LOG_MAX_ENTRIES.
  rewrite Hi, Hw, u8_small by (unfold is_u8; lia). cbn. destruct (Z.ltb_spec n 32); lia.
Qed.

(** The hash-chain invariant of an unwrapped log. *)
Definition chained (k : list Z) (n : Z) st : Prop :=
  n <= 32 -> verify_entries k (zeros AUDIT_LOG_HMAC_SIZE) (take (Z.to_nat n) (g_audit_log st)) = true.

Lemma chained_step k m st w ev :
  0 <= m -> logged k m st -> chained k m st -> chained k (m + 1) (fst (add_event (st, w) ev)).
Proof.
  intros Hm Hl Hc Hle. specialize (Hc ltac:(lia)).
  destruct (add_step k m st w ev Hm Hl) as (e & He).
  destruct (add_event (st, w) ev) as [st1 w1]. destruct He as (_ & Hlog & Hch & _). cbn [fst].
  destruct Hl as [_ Hs Hw _ _].
  rewrite Hlog, u8_small, Z.mod_small by (unfold is_u8; lia). unfold store.
  replace (Z.to_nat (m + 1)) with (S (Z.to_nat m)) by lia.
  rewrite (take_S_r _ _ e) by (apply list_lookup_insert_eq; lia).
  rewrite take_insert_ge, verify_entries_app, Hc by lia. cbn [andb].
  rewrite Hch. replace (default _ _) with (prev_of st); [apply ct_equal_refl|].
  unfold prev_of. rewrite Hw, u8_small by (unfold is_u8; lia).
  destruct (Z.ltb_spec 0 m) as [Hpos|Hzero].
  - rewrite u8_small by (unfold is_u8; lia).
    replace (Z.to_nat m) with (S (Z.to_nat (m - 1))) by lia.
    rewrite (take_S_r _ _ (entry_at (g_audit_log st) (m - 1))).
    + rewrite last_snoc. reflexivity.
    + rewrite <- (entry_at_lookup _ (m - 1) Hs). unfold AUDIT_LOG_MAX_ENTRIES.
      rewrite Z.mod_small by lia. reflexivity.
  - replace m with 0 by lia. reflexivity.
Qed.

End audit_log.

(** ** Properties *)

Section properties.
Context {W : Type} `{MdHmacOk}.
Implicit Types (st : state W) (w : W).

(** A log that starts empty under a chain key verifies under that key after
    any sequence of at most 32 events. *)
Theorem chain_verifies_until_full st w k evs :
  fresh st k -> (length evs <= 32)%nat ->
  audit_log_verify_chain (fst (add_all (st, w) evs)) (Some k) = true.
Proof.
  intros Hf Hlen. pose proof (fresh_logged st k Hf) as Hl.
  destruct (run_invariant (chained k) k 0 st w evs ltac:(lia) Hl) as [Hl' Hc].
  { intros _. reflexivity. }
  { intros m st1 w1 ev Hm _. apply chained_step, Hm. }
  cbn beta zeta in *. set (st' := fst (add_all (st, w) evs)) in *.
  rewrite Z.add_0_l in *. assert (0 <= Z.of_nat (length evs) <= 32) by lia.
  set (n := Z.of_nat (length evs)) in *.
  unfold audit_log_verify_chain. destruct k as [|b k]; [destruct Hf; discriminate|].
  rewrite (lg_init _ _ _ Hl'). cbn [negb].
  rewrite (get_count_logged (b :: k) n) by (assumption || lia). rewrite Z.min_l by lia.
  destruct (n =? 0); [reflexivity|].
  rewrite (entries_from_prefix (b :: k) n) by (assumption || lia). apply Hc. lia.
Qed.

(** The messages the verification loop hashes. *)
Fixpoint chain_inputs (prev : list Z) (es : list AuditLogEntry_t) : list (list Z) :=
  match es with
  | [] => []
  | e :: es => (content e ++ prev) :: chain_inputs (chain_hmac e) es
  end.

Lemma chain_inputs_app prev es e :
  chain_inputs prev (es ++ [e]) =
  chain_inputs prev es ++ [content e ++ default prev (chain_hmac <$> last es)].
Proof.
  revert prev. induction es as [|e1 es IH]; intros prev; [reflexivity|].
  cbn. rewrite IH. do 2 f_equal. destruct es as [|e2 es]; [reflexivity|].
  change (last (e1 :: e2 :: es)) with (last (e2 :: es)).
  destruct (last (e2 :: es)) eqn:Hlast; [reflexivity|]. apply last_None in Hlast. discriminate.
Qed.

(** A message of the one verification and a different message of the other
    have one digest under [k]. *)
Definition collision (k : list Z) (ms1 ms2 : list (list Z)) : Prop :=
  exists m1 m2, m1 ∈ ms1 /\ m2 ∈ ms2 /\ m1 <> m2 /\ iot_hmac_sha256 k m1 = iot_hmac_sha256 k m2.

Record wf_entry (e : AuditLogEntry_t) : Prop := {
  wfe_detail : length (detail e) = 64%nat;
  wfe_chain : length (chain_hmac e) = 32%nat }.

Lemma content_length e : wf_entry e -> length (content e) = 80%nat.
Proof.
  intros [Hd _]. unfold content. rewrite !length_app, !le_bytes_length, length_take, Hd.
  reflexivity.
Qed.

(** Two verified chains of equal length ending in the same HMAC agree, or the
    HMAC collides. *)
Lemma verify_entries_tamper k prev es1 es2 :
  length es1 = length es2 -> Forall wf_entry es1 -> Forall wf_entry es2 ->
  verify_entries k prev es1 = true -> verify_entries k prev es2 = true ->
  default prev (chain_hmac <$> last es1) = default prev (chain_hmac <$> last es2) ->
  content <$> es1 = content <$> es2 \/
  collision k (chain_inputs prev es1) (chain_inputs prev es2).
Proof.
  revert es2. induction es1 as [|e1 es1 IH] using rev_ind; intros es2 Hlen H1 H2 V1 V2 Hlast.
  { destruct es2; [left; reflexivity|discriminate]. }
  destruct es2 as [|e2 es2' _] using rev_ind; [rewrite length_app in Hlen; cbn in Hlen; lia|].
  rewrite !length_app in Hlen. rewrite !last_snoc in Hlast. cbn in Hlen, Hlast.
  apply Forall_app in H1 as [H1 [We1 _]%Forall_cons].
  apply Forall_app in H2 as [H2 [We2 _]%Forall_cons].
  rewrite verify_entries_app in V1, V2. reflect.
  rewrite ct_equal_spec in * by (rewrite iot_hmac_length; apply We1 || apply We2). reflect.
  set (p1 := default prev (chain_hmac <$> last es1)) in *.
  set (p2 := default prev (chain_hmac <$> last es2')) in *.
  destruct (decide (content e1 ++ p1 = content e2 ++ p2)) as [E|Hne].
  - apply app_inj_1 in E as [Ec Ep]; [|rewrite !content_length by assumption; reflexivity].
    rewrite !chain_inputs_app.
    destruct (IH es2') as [E|(m1 & m2 & I1 & I2 & Hm)]; auto; [lia| |].
    + left. rewrite !fmap_app, E. cbn. congruence.
    + right. exists m1, m2. rewrite !elem_of_app. auto.
  - right. rewrite !chain_inputs_app. exists (content e1 ++ p1), (content e2 ++ p2).
    rewrite !elem_of_app, !list_elem_of_singleton. repeat split; auto. congruence.
Qed.

Lemma verify_chain_entries st k :
  audit_log_verify_chain st (Some k) = true ->
  verify_entries k (zeros AUDIT_LOG_HMAC_SIZE)
    (entries_from st (audit_log_get_count st)) = true.
Proof.
  unfold audit_log_verify_chain. intros Hv. destruct k; [discriminate|].
  destruct (negb (g_initialised st)); [discriminate|].
  destruct (Z.eqb_spec (audit_log_get_count st) 0) as [->|]; [reflexivity|exact Hv].
Qed.

(** C19. Tamper evidence: if two logs with equally many entries verify under one
    key and agree on the HMAC of the newest entry, they agree on the content of
    every retained entry, unless two different messages hashed by the two
    verifications have the same HMAC. *)
Theorem tamper_evident st1 st2 k :
  audit_log_verify_chain st1 (Some k) = true ->
  audit_log_verify_chain st2 (Some k) = true ->
  audit_log_get_count st1 = audit_log_get_count st2 ->
  let es1 := entries_from st1 (audit_log_get_count st1) in
  let es2 := entries_from st2 (audit_log_get_count st2) in
  Forall wf_entry es1 -> Forall wf_entry es2 ->
  chain_hmac <$> last es1 = chain_hmac <$> last es2 ->
  content <$> es1 = content <$> es2 \/
  collision k (chain_inputs (zeros AUDIT_LOG_HMAC_SIZE) es1)
    (chain_inputs (zeros AUDIT_LOG_HMAC_SIZE) es2).
Proof.
  intros V1 V2 Hc es1 es2 W1 W2 Hlast. apply verify_chain_entries in V1, V2.
  apply (verify_entries_tamper k (zeros AUDIT_LOG_HMAC_SIZE)); auto; [|fold es1 es2; congruence].
  unfold es1, es2, entries_from. rewrite !length_map, !length_seq. congruence.
Qed.

Lemma entry_at_store log i j e :
  length log = 32%nat -> 0 <= i < 32 -> 0 <= j < 32 ->
  entry_at (store i e log) j = if j =? i then e else entry_at log j.
Proof.
  intros Hl Hi Hj. unfold entry_at, store, AUDIT_LOG_MAX_ENTRIES.
  rewrite Z.mod_small by lia. destruct (Z.eqb_spec j i) as [->|Hne].
  - apply list_lookup_total_insert_eq. lia.
  - apply list_lookup_total_insert_ne. lia.
Qed.

Lemma entry_at_mod log i : entry_at log (i mod 32) = entry_at log i.
Proof. unfold entry_at, AUDIT_LOG_MAX_ENTRIES. rewrite Z.mod_mod by lia. reflexivity. Qed.

Lemma add_all_app (sw : state W * W) evs1 evs2 : add_all sw (evs1 ++ evs2) = add_all (add_all sw evs1) evs2.
Proof. apply fold_left_app. Qed.

(** An entry survives the 31 additions that follow it. *)
Lemma entry_survives k m e st w evs :
  0 <= m < 224 -> (length evs = 31)%nat -> logged k (m + 1) st ->
  entry_at (g_audit_log st) (m mod 32) = e ->
  entry_at (g_audit_log (fst (add_all (st, w) evs))) (m mod 32) = e.
Proof.
  intros Hm Hlen Hl He.
  refine (proj2 (run_invariant
    (fun _ st => entry_at (g_audit_log st) (m mod 32) = e) k (m + 1) st w evs _ Hl He _)); [lia|].
  intros j st1 w1 ev Hj Hj2 Hl1 He1.
  destruct (add_step k j st1 w1 ev ltac:(lia) Hl1) as (e' & Hs).
  destruct (add_event (st1, w1) ev) as [st2 w2]. destruct Hs as (_ & Hlog & _). cbn [fst].
  rewrite Hlog, u8_small, entry_at_store by (unfold is_u8; words || apply Hl1).
  destruct (Z.eqb_spec (m mod 32) (j mod 32)); [words|exact He1].
Qed.

(** Thirty-two events after [m] others, the oldest retained entry is the one
    chained to the HMAC before it. *)
Lemma oldest_chained st w k m ev evs :
  logged k m st -> 1 <= m <= 223 -> length evs = 31%nat ->
  let st' := fst (add_all (st, w) (ev :: evs)) in
  let e := entry_at (g_audit_log st') (start_idx st') in
  logged k (m + 32) st' /\ chain_hmac e = iot_hmac_sha256 k (content e ++ prev_of st).
Proof.
  intros Hlm Hm Hlen. cbn [add_all fold_left].
  destruct (add_step k m st w ev ltac:(lia) Hlm) as (e1 & H1).
  destruct (add_event (st, w) ev) as [st1 w1]. destruct H1 as (Hl1 & Hlog & Hch & _).
  change (fold_left add_event evs (st1, w1)) with (add_all (st1, w1) evs).
  destruct (run_invariant (fun _ _ => True) k (m + 1) st1 w1 evs ltac:(lia) Hl1) as [Hl2 _]; auto.
  replace (m + 1 + Z.of_nat (length evs)) with (m + 32) in Hl2 by lia.
  split; [exact Hl2|]. cbv beta zeta in Hl2 |- *.
  assert (forall log, entry_at log (start_idx (fst (add_all (st1, w1) evs))) =
                  entry_at log (m mod 32)) as Hidx.
  { intros log. destruct Hl2 as [_ _ Hw _ _]. unfold start_idx, AUDIT_LOG_MAX_ENTRIES.
    rewrite Hw, u8_small by (unfold is_u8; lia). destruct (Z.leb_spec 32 (m + 32)); [|lia].
    f_equal. words. }
  rewrite Hidx. rewrite (entry_survives k m e1) by (first [lia | assumption |
    rewrite Hlog, u8_small, entry_at_store by (unfold is_u8; words || apply Hlm);
    rewrite Z.eqb_refl; reflexivity]).
  rewrite Hch. reflexivity.
Qed.

(** Once the ring has wrapped, the oldest retained entry is chained to the
    HMAC [d] of an entry that was overwritten: with 33 to 255 events logged the
    log verifies under its own key only if the entry's HMAC over [d] collides
    with its HMAC over the all-zero start value. *)
Theorem chain_fails_after_wrap st w k evs :
  fresh st k -> (33 <= length evs <= 255)%nat ->
  let st' := fst (add_all (st, w) evs) in
  let e := entry_at (g_audit_log st') (start_idx st') in
  let d := prev_of (fst (add_all (st, w) (take (length evs - 32) evs))) in
  chain_hmac e = iot_hmac_sha256 k (content e ++ d) /\
  (audit_log_verify_chain st' (Some k) = true ->
   iot_hmac_sha256 k (content e ++ d) = iot_hmac_sha256 k (content e ++ zeros 32)).
Proof.
  intros Hf Hlen st' e d. set (m := Z.of_nat (length evs - 32)).
  assert (1 <= m <= 223) as Hm by lia.
  assert (logged k (m + 32) st' /\ chain_hmac e = iot_hmac_sha256 k (content e ++ d)) as [Hl' He].
  { destruct (run_invariant (fun _ _ => True) k 0 st w (take (length evs - 32) evs)
                ltac:(lia) (fresh_logged st k Hf)) as [Hlm _]; auto.
    assert (st' = fst (add_all (add_all (st, w) (take (length evs - 32) evs))
                             (drop (length evs - 32) evs))) as Est'.
    { unfold st'. rewrite <- add_all_app, take_drop. reflexivity. }
    unfold e, d. rewrite Est'. clear e d Est'. clearbody st'.
    destruct (add_all (st, w) (take (length evs - 32) evs)) as [stm wm]. cbn [fst] in *.
    rewrite length_take, Nat.min_l, Z.add_0_l in Hlm by lia. fold m in Hlm.
    destruct (drop (length evs - 32) evs) as [|ev evs'] eqn:Hd;
      apply (f_equal length) in Hd; rewrite length_drop in Hd; cbn [length] in Hd; [lia|].
    apply oldest_chained; [exact Hlm|exact Hm|lia]. }
  split; [exact He|]. intros Hv.
  apply verify_chain_entries in Hv. rewrite (get_count_logged k (m + 32)) in Hv by (assumption || lia).
  rewrite Z.min_r in Hv by lia. unfold entries_from in Hv.
  change (seq 0 (Z.to_nat 32)) with (0%nat :: seq 1 31) in Hv.
  cbn [map verify_entries] in Hv. change (Z.of_nat 0) with 0 in Hv. rewrite Z.add_0_r in Hv.
  fold e in Hv. rewrite ct_equal_spec in Hv by (rewrite He, !iot_hmac_length; reflexivity).
  case_match; [|discriminate]. reflect. rewrite <- He. assumption.
Qed.

(** The write index is one byte: after [n] events the log reports
    [n mod 256] entries, capped at 32.  After exactly 256 events it reports no
    entry at all, and the empty chain verifies under any key. *)
Theorem count_wraps_at_256 st w k evs :
  fresh st k ->
  let st' := fst (add_all (st, w) evs) in
  audit_log_get_count st' = Z.min (u8 (Z.of_nat (length evs))) 32 /\
  (length evs = 256%nat ->
   (forall max, audit_log_get_entries st' true max = []) /\
   (forall b key, audit_log_verify_chain st' (Some (b :: key)) = true)).
Proof.
  intros Hf. pose proof (fresh_logged st k Hf) as Hl.
  destruct (run_invariant (fun _ _ => True) k 0 st w evs ltac:(lia) Hl) as [[Hi _ Hw _ _] _]; auto.
  cbn beta zeta in *. set (st' := fst (add_all (st, w) evs)) in *. clearbody st'.
  rewrite Z.add_0_l in Hw.
  assert (entry_count st' = Z.min (u8 (Z.of_nat (length evs))) 32) as Hcount.
  { unfold entry_count, AUDIT_LOG_MAX_ENTRIES. rewrite Hw. case_match; reflect; lia. }
  split; [unfold audit_log_get_count; rewrite Hi; exact Hcount|]. intros Hlen.
  rewrite Hlen in Hcount. change (Z.min (u8 (Z.of_nat 256)) 32) with 0 in Hcount. split.
  - intros max. unfold audit_log_get_entries. rewrite Hi, Hcount. cbn.
    destruct (max =? 0) eqn:Hmax; [reflexivity|]. unfold entries_from.
    replace (Z.to_nat (Z.min 0 max)) with 0%nat by lia. reflexivity.
  - intros b key. unfold audit_log_verify_chain, audit_log_get_count. rewrite Hi, Hcount. reflexivity.
Qed.

End properties.

(** ** The theorems on concrete logs *)

Definition demo_key : list Z := replicate 32 7.

Definition demo_log : state unit :=
  audit_log_set_chain_key (snd (fst (audit_log_init initial tt))) (Some demo_key).

Lemma demo_fresh : fresh demo_log demo_key.
Proof. split; reflexivity. Qed.

Definition demo_event : event := mk_event AUDIT_AUTH_FAILURE 3 9 (Some (cstr "bad HMAC")).

Definition demo_run (n : nat) : state unit :=
  fst (add_all (H := mix_hmac) (demo_log, tt) (replicate n demo_event)).

Lemma chain_verifies_until_full_witness :
  audit_log_verify_chain (H := mix_hmac) (demo_run 3) (Some demo_key) = true.
Proof.
  apply (chain_verifies_until_full (H := mix_hmac) demo_log tt demo_key (replicate 3 demo_event)).
  - exact demo_fresh.
  - cbn. lia.
Defined.

Lemma tamper_evident_witness :
  content <$> entries_from (demo_run 2) 2 = content <$> entries_from (demo_run 2) 2 \/
  collision (H := mix_hmac) demo_key
    (chain_inputs (zeros AUDIT_LOG_HMAC_SIZE) (entries_from (demo_run 2) 2))
    (chain_inputs (zeros AUDIT_LOG_HMAC_SIZE) (entries_from (demo_run 2) 2)).
Proof.
  apply (tamper_evident (H0 := mix_hmac_ok) (demo_run 2) (demo_run 2) demo_key).
  - vm_compute. reflexivity.
  - vm_compute. reflexivity.
  - reflexivity.
  - repeat constructor.
  - repeat constructor.
  - reflexivity.
Defined.

Lemma chain_fails_after_wrap_witness :
  let e := entry_at (g_audit_log (demo_run 33)) (start_idx (demo_run 33)) in
  chain_hmac e = iot_hmac_sha256 (H := mix_hmac) demo_key
    (content e ++ prev_of (fst (add_all (H := mix_hmac) (demo_log, tt)
       (take (length (replicate 33 demo_event) - 32) (replicate 33 demo_event))))).
Proof.
  pose proof (chain_fails_after_wrap (H0 := mix_hmac_ok) demo_log tt demo_key
                (replicate 33 demo_event) demo_fresh ltac:(cbn; lia)) as Hc.
  exact (proj1 Hc).
Defined.

(** The chain of a log of 33 entries does not verify. *)
Example wrapped_chain_rejected :
  audit_log_verify_chain (H := mix_hmac) (demo_run 33) (Some demo_key) = false.
Proof. vm_compute. reflexivity. Qed.

Lemma count_wraps_at_256_witness : audit_log_get_count (demo_run 256) = 0.
Proof.
  pose proof (proj1 (count_wraps_at_256 (H := mix_hmac) demo_log tt demo_key
                       (replicate 256 demo_event) demo_fresh)) as Hc.
  rewrite length_replicate in Hc. exact Hc.
Defined.

End audit_log.
