(* ===== verification/ReplayProtection.v ===== *)
(** Replay protection (firmware/shared/replay_protection.c): per sender, the
    highest nonce seen and a 64-bit window of the nonces below it. *)

From S2P Require Import Prelude.

Module replay_protection.

Definition REPLAY_MAX_NODES : nat := 64.
Definition REPLAY_WINDOW_SIZE : Z := 64.
Definition REPLAY_MAX_DRIFT_MS : Z := 10000.

Record ReplayNodeState_t := mk_node {
  node_id : Z;
  highest_nonce : Z;
  highest_timestamp_ms : Z;
  bitmap : Z;
  initialised : bool }.

#[export] Instance eta_node : Eta ReplayNodeState_t := fun r =>
  mk_node (node_id r) (highest_nonce r) (highest_timestamp_ms r) (bitmap r) (initialised r).

Inductive ReplayCheckResult_t :=
| REPLAY_OK
| REPLAY_ERR_DUPLICATE
| REPLAY_ERR_STALE_TIMESTAMP
| REPLAY_ERR_PARAM_NULL.

#[export] Instance ReplayCheckResult_eq_dec : EqDecision ReplayCheckResult_t.
Proof. solve_decision. Defined.

Record state := mk_state {
  g_nodes : list ReplayNodeState_t;
  g_initialised : bool }.

#[export] Instance eta_state : Eta state := fun r => mk_state (g_nodes r) (g_initialised r).

Definition zero_node : ReplayNodeState_t := mk_node 0 0 0 0 false.

Definition initial : state := mk_state (replicate REPLAY_MAX_NODES zero_node) false.

(** The test of the scans: an initialised slot of this node. *)
Definition tracks_node (id : Z) (s : ReplayNodeState_t) : bool :=
  initialised s && (node_id s =? id).

(** The slot of [node_id], allocated in the first free slot if there is none;
    [None] when the table is full. *)
Definition find_or_alloc_node (nodes : list ReplayNodeState_t) (id : Z)
  : option (nat * list ReplayNodeState_t) :=
  match find_index (tracks_node id) nodes with
  | Some i => Some (i, nodes)
  | None =>
      match find_index (fun s => negb (initialised s)) nodes with
      | Some i => Some (i, <[i := mk_node id 0 0 0 true]> nodes)
      | None => None
      end
  end.

Definition replay_init (st : state) : bool * state :=
  (true, st <| g_nodes := replicate REPLAY_MAX_NODES zero_node |> <| g_initialised := true |>).

Definition drift (a b : Z) : Z := if b <? a then a - b else b - a.

(** The decision and update of [replay_check] on the sender's state. *)
Definition check_node (s : ReplayNodeState_t) (nonce timestamp_ms : Z)
  : ReplayCheckResult_t * ReplayNodeState_t :=
  if (highest_nonce s =? 0) && (bitmap s =? 0) then
    (REPLAY_OK, s <| highest_nonce := nonce |> <| highest_timestamp_ms := timestamp_ms |>
                  <| bitmap := 1 |>)
  else if REPLAY_MAX_DRIFT_MS <? drift timestamp_ms (highest_timestamp_ms s) then
    (REPLAY_ERR_STALE_TIMESTAMP, s)
  else if highest_nonce s <? nonce then
    let shift := nonce - highest_nonce s in
    let b := if shift <? REPLAY_WINDOW_SIZE
             then Z.lor (u64 (Z.shiftl (bitmap s) shift)) 1 else 1 in
    (REPLAY_OK, s <| bitmap := b |> <| highest_nonce := nonce |>
                  <| highest_timestamp_ms := timestamp_ms |>)
  else
    let delta := highest_nonce s - nonce in
    if REPLAY_WINDOW_SIZE <=? delta then (REPLAY_ERR_DUPLICATE, s)
    else
      let mask := u64 (Z.shiftl 1 delta) in
      if negb (Z.land (bitmap s) mask =? 0) then (REPLAY_ERR_DUPLICATE, s)
      else (REPLAY_OK, s <| bitmap := Z.lor (bitmap s) mask |>).

Definition replay_check (st : state) (id nonce timestamp_ms : Z) : ReplayCheckResult_t * state :=
  if negb (g_initialised st) then (REPLAY_ERR_PARAM_NULL, st)
  else
    match find_or_alloc_node (g_nodes st) id with
    | None => (REPLAY_ERR_PARAM_NULL, st)
    | Some (i, nodes) =>
        let '(res, s) := check_node (nth i nodes zero_node) nonce timestamp_ms in
        (res, st <| g_nodes := <[i := s]> nodes |>)
    end.

Definition replay_reset_node (st : state) (id : Z) : state :=
  match find_index (tracks_node id) (g_nodes st) with
  | Some i => st <| g_nodes := <[i := zero_node]> (g_nodes st) |>
  | None => st
  end.

Definition replay_reset_all (st : state) : state :=
  st <| g_nodes := replicate REPLAY_MAX_NODES zero_node |>.

(** ** The window refines the set of accepted nonces *)

(** [seen s S]: the state [s] of a sender represents the accepted nonces [S]. *)
Record seen (s : ReplayNodeState_t) (S : list Z) : Prop := {
  seen_bits : is_u64 (bitmap s);
  seen_window : forall i, 0 <= i < 64 ->
    Z.testbit (bitmap s) i = bool_decide (highest_nonce s - i ∈ S);
  seen_top : highest_nonce s ∈ S;
  seen_le : forall n, n ∈ S -> 0 <= n <= highest_nonce s }.

(** The abstract decision: new nonces are accepted, old ones if they are inside
    the window and were not accepted before. *)
Definition spec_check (highest hts : Z) (S : list Z) (nonce ts : Z) : ReplayCheckResult_t :=
  if REPLAY_MAX_DRIFT_MS <? drift ts hts then REPLAY_ERR_STALE_TIMESTAMP
  else if highest <? nonce then REPLAY_OK
  else if (REPLAY_WINDOW_SIZE <=? highest - nonce) || bool_decide (nonce ∈ S)
  then REPLAY_ERR_DUPLICATE else REPLAY_OK.

Lemma testbit_u64 x i : 0 <= i < 64 -> Z.testbit (u64 x) i = Z.testbit x i.
Proof. intros Hi. unfold u64. apply Z.mod_pow2_bits_low. lia. Qed.

Lemma testbit_1 i : Z.testbit 1 i = (i =? 0).
Proof. destruct i; reflexivity. Qed.

Lemma land_mask_zero b d :
  0 <= d < 64 -> (Z.land b (u64 (Z.shiftl 1 d)) =? 0) = negb (Z.testbit b d).
Proof.
  intros Hd. rewrite u64_small; cycle 1.
  { unfold is_u64. rewrite Z.shiftl_1_l. change 18446744073709551616 with (2 ^ 64).
    split; [apply Z.pow_nonneg|apply Z.pow_lt_mono_r]; lia. }
  rewrite Z.shiftl_1_l. destruct (Z.testbit b d) eqn:Hb; cbn.
  - apply Z.eqb_neq. intros E. apply (f_equal (fun x => Z.testbit x d)) in E.
    rewrite Z.land_spec, Hb, Z.pow2_bits_true, Z.bits_0 in E by lia. discriminate.
  - apply Z.eqb_eq, Z.bits_inj'. intros i Hi. rewrite Z.land_spec, Z.bits_0.
    destruct (Z.eq_dec i d) as [->|Hne]; [rewrite Hb; reflexivity|].
    rewrite Z.pow2_bits_false by lia. apply andb_false_r.
Qed.

Lemma lor_u64 a b : is_u64 a -> is_u64 b -> is_u64 (Z.lor a b).
Proof.
  unfold is_u64. change 18446744073709551616 with (2 ^ 64). intros Ha Hb.
  split; [apply Z.lor_nonneg; lia|].
  destruct (Z.eq_dec (Z.lor a b) 0) as [->|Hne]; [lia|].
  pose proof (Z.lor_nonneg a b). apply Z.log2_lt_pow2; [lia|].
  rewrite Z.log2_lor by lia. apply Z.max_lub_lt;
  (destruct (Z.eq_dec a 0) as [->|]; destruct (Z.eq_dec b 0) as [->|]; cbn;
   try lia; apply Z.log2_lt_pow2; lia).
Qed.

Lemma seen_bitmap_nonzero s S : seen s S -> (bitmap s =? 0) = false.
Proof.
  intros [_ Hw Ht _]. apply Z.eqb_neq. intros E. specialize (Hw 0 ltac:(lia)).
  rewrite E, Z.sub_0_r, bool_decide_eq_true_2 in Hw by exact Ht. discriminate.
Qed.

(** The first frame of a sender. *)
Lemma seen_first s nonce ts :
  is_u32 nonce ->
  seen (s <| highest_nonce := nonce |> <| highest_timestamp_ms := ts |> <| bitmap := 1 |>) [nonce].
Proof.
  intros Hn. split; cbn.
  - unfold is_u64. lia.
  - intros i Hi. rewrite testbit_1. destruct (Z.eqb_spec i 0) as [->|Hne]; symmetry.
    + apply bool_decide_eq_true. rewrite list_elem_of_singleton. lia.
    + apply bool_decide_eq_false. rewrite list_elem_of_singleton. lia.
  - left.
  - intros n Hn'%list_elem_of_singleton. unfold is_u32 in Hn. lia.
Qed.

(** A frame ahead of the window. *)
Lemma seen_advance s S nonce ts :
  seen s S -> is_u32 nonce -> highest_nonce s < nonce ->
  let shift := nonce - highest_nonce s in
  let b := if shift <? REPLAY_WINDOW_SIZE
           then Z.lor (u64 (Z.shiftl (bitmap s) shift)) 1 else 1 in
  seen (s <| bitmap := b |> <| highest_nonce := nonce |> <| highest_timestamp_ms := ts |>)
       (nonce :: S).
Proof.
  intros [Hb Hw Ht Hle] Hn Hlt shift b. pose proof (Hle _ Ht) as Hh. split; cbn.
  - unfold b. case_match; [apply lor_u64; [apply u64_range|]|]; unfold is_u64; lia.
  - intros i Hi. rewrite (bool_decide_ext _ (i = 0 \/ nonce - i ∈ S)); cycle 1.
    { rewrite elem_of_cons. split; intros [H|H]; auto; left; lia. }
    assert (0 < i -> ~ (shift <= i) -> nonce - i ∉ S) as Hout.
    { intros H0 Hs Hin. apply Hle in Hin. unfold shift in Hs. lia. }
    unfold b, REPLAY_WINDOW_SIZE. destruct (Z.ltb_spec shift 64).
    + rewrite Z.lor_spec, testbit_u64, Z.shiftl_spec, testbit_1 by lia.
      destruct (Z.eqb_spec i 0) as [->|Hne].
      * rewrite orb_true_r, bool_decide_eq_true_2 by auto. reflexivity.
      * rewrite orb_false_r. destruct (Z_lt_ge_dec i shift) as [His|His].
        -- rewrite Z.testbit_neg_r, bool_decide_eq_false_2 by (lia || tauto || (intros [?|Hin]; [lia|apply Hout in Hin; auto; lia])).
           reflexivity.
        -- rewrite Hw by lia. unfold shift. apply bool_decide_ext.
           replace (highest_nonce s - (i - (nonce - highest_nonce s))) with (nonce - i) by lia. tauto.
    + rewrite testbit_1. destruct (Z.eqb_spec i 0) as [->|Hne]; symmetry.
      * apply bool_decide_eq_true. auto.
      * apply bool_decide_eq_false. intros [?|Hin]; [lia|]. apply Hout in Hin; auto; lia.
  - left.
  - unfold is_u32 in Hn. intros n [->|Hin]%elem_of_cons; [lia|]. apply Hle in Hin. lia.
Qed.

(** A frame inside the window that was not seen. *)
Lemma seen_mark s S nonce :
  seen s S -> 0 <= nonce <= highest_nonce s -> highest_nonce s - nonce < 64 ->
  seen (s <| bitmap := Z.lor (bitmap s) (u64 (Z.shiftl 1 (highest_nonce s - nonce))) |>)
       (nonce :: S).
Proof.
  intros [Hb Hw Ht Hle] Hn Hd. split; cbn.
  - apply lor_u64; [exact Hb|apply u64_range].
  - intros i Hi. rewrite Z.lor_spec, testbit_u64, Hw, Z.shiftl_1_l by lia.
    destruct (Z.eq_dec i (highest_nonce s - nonce)) as [->|Hne].
    + rewrite Z.pow2_bits_true, orb_true_r by lia. symmetry. apply bool_decide_eq_true.
      rewrite elem_of_cons. left. lia.
    + rewrite Z.pow2_bits_false, orb_false_r by lia. apply bool_decide_ext.
      rewrite elem_of_cons. split; [tauto|]. intros [?|?]; [lia|assumption].
  - right. exact Ht.
  - intros n [->|Hin]%elem_of_cons; [lia|]. apply Hle, Hin.
Qed.

(** The window against the abstract check, shared by the properties. *)
Lemma window_refines s S nonce ts :
  seen s S -> is_u32 nonce ->
  let '(res, s') := check_node s nonce ts in
  res = spec_check (highest_nonce s) (highest_timestamp_ms s) S nonce ts /\
  (res = REPLAY_OK -> seen s' (nonce :: S)) /\ (res <> REPLAY_OK -> s' = s).
Proof.
  intros Hs Hn. unfold check_node, spec_check. rewrite (seen_bitmap_nonzero s S Hs), andb_false_r.
  destruct (_ <? drift _ _); [split; [reflexivity|split; [discriminate|reflexivity]]|].
  destruct (Z.ltb_spec (highest_nonce s) nonce) as [Hlt|Hge].
  { split; [reflexivity|]. split; [|congruence]. intros _. apply seen_advance; assumption. }
  unfold REPLAY_WINDOW_SIZE. destruct (Z.leb_spec 64 (highest_nonce s - nonce)) as [Hw|Hw].
  { split; [reflexivity|]. split; [discriminate|reflexivity]. }
  unfold is_u32 in Hn. rewrite land_mask_zero, negb_involutive, (seen_window _ _ Hs) by lia.
  replace (highest_nonce s - (highest_nonce s - nonce)) with nonce by lia. cbn [orb].
  case_bool_decide; (split; [reflexivity|]; split; [|congruence]); [discriminate|].
  intros _. apply seen_mark; auto; lia.
Qed.

(** C34. The bitmap window implements the abstract check exactly: on a sender
    whose accepted nonces are [S], the code's answer is the specification's, an
    accepted nonce is added to [S] and a rejected frame changes nothing. *)
Theorem check_node_refines s S nonce ts :
  seen s S -> is_u32 nonce ->
  let '(res, s') := check_node s nonce ts in
  res = spec_check (highest_nonce s) (highest_timestamp_ms s) S nonce ts /\
  (res = REPLAY_OK -> seen s' (nonce :: S)) /\ (res <> REPLAY_OK -> s' = s).
Proof. apply window_refines. Qed.

(** ** Runs over the whole table *)

Record frame := mk_frame { fr_node : Z; fr_nonce : Z; fr_ts : Z }.

(** The frames accepted by a run of checks, latest first. *)
Fixpoint accepted (st : state) (frames : list frame) (acc : list (Z * Z)) : list (Z * Z) :=
  match frames with
  | [] => acc
  | f :: frames =>
      let '(res, st') := replay_check st (fr_node f) (fr_nonce f) (fr_ts f) in
      accepted st' frames
        (if bool_decide (res = REPLAY_OK) then (fr_node f, fr_nonce f) :: acc else acc)
  end.

(** The nonces of one sender among the accepted frames. *)
Definition nonces_of (id : Z) (acc : list (Z * Z)) : list Z :=
  snd <$> filter (fun p => p.1 = id) acc.

Lemma nonces_of_elem id acc n : n ∈ nonces_of id acc <-> (id, n) ∈ acc.
Proof.
  unfold nonces_of. rewrite list_elem_of_fmap. split.
  - intros ([a b] & -> & Hin). apply list_elem_of_filter in Hin as [Hp Hin]. cbn in *.
    subst a. exact Hin.
  - intros Hin. exists (id, n). split; [reflexivity|]. apply list_elem_of_filter. auto.
Qed.

(** Every initialised slot represents the accepted nonces of its node, and a
    node with accepted nonces has its slot. *)
Record inv (st : state) (acc : list (Z * Z)) : Prop := {
  inv_seen : forall i s, g_nodes st !! i = Some s -> initialised s = true ->
    seen s (nonces_of (node_id s) acc);
  inv_find : forall i s, g_nodes st !! i = Some s -> initialised s = true ->
    find_index (tracks_node (node_id s)) (g_nodes st) = Some i;
  inv_slot : forall id n, (id, n) ∈ acc -> is_Some (find_index (tracks_node id) (g_nodes st));
  inv_nodup : NoDup acc }.

Lemma check_node_frame s nonce ts :
  node_id (snd (check_node s nonce ts)) = node_id s /\
  initialised (snd (check_node s nonce ts)) = initialised s.
Proof. unfold check_node. repeat case_match; auto. Qed.

Lemma spec_ok_fresh s S nonce ts :
  seen s S -> spec_check (highest_nonce s) (highest_timestamp_ms s) S nonce ts = REPLAY_OK ->
  nonce ∉ S.
Proof.
  intros Hs Hok Hin. apply (seen_le _ _ Hs) in Hin as Hle. revert Hok. unfold spec_check.
  rewrite (bool_decide_eq_true_2 (nonce ∈ S)), orb_true_r by exact Hin.
  repeat case_match; reflect; (discriminate || lia).
Qed.

Lemma nonces_of_cons id id' n acc :
  nonces_of id ((id', n) :: acc) =
  if decide (id' = id) then n :: nonces_of id acc else nonces_of id acc.
Proof. unfold nonces_of. rewrite filter_cons. cbn. destruct (decide _); reflexivity. Qed.

(** Storing the updated state of a node in its slot keeps the invariant. *)
Lemma inv_store st nodes i s s' acc acc' :
  nodes !! i = Some s -> node_id s' = node_id s -> initialised s' = true ->
  (forall id, tracks_node id s = (node_id s =? id)) ->
  (forall j t, nodes !! j = Some t -> initialised t = true -> j <> i ->
     seen t (nonces_of (node_id t) acc) /\ node_id t <> node_id s) ->
  (forall j t, nodes !! j = Some t -> initialised t = true ->
     find_index (tracks_node (node_id t)) nodes = Some j) ->
  (forall id n, (id, n) ∈ acc' -> is_Some (find_index (tracks_node id) nodes)) ->
  seen s' (nonces_of (node_id s) acc') ->
  (forall id, id <> node_id s -> nonces_of id acc' = nonces_of id acc) ->
  NoDup acc' ->
  inv (st <| g_nodes := <[i := s']> nodes |>) acc'.
Proof.
  intros Hi Hid Hini Ht Hother Hfind Hslot Hseen Hsame Hnd.
  assert (forall id, find_index (tracks_node id) (<[i := s']> nodes) =
                     find_index (tracks_node id) nodes) as Hfi.
  { intros id. apply (find_index_insert_same _ _ _ _ s); [exact Hi|].
    rewrite Ht. unfold tracks_node. rewrite Hini, Hid. reflexivity. }
  assert (initialised s = true) as His.
  { specialize (Ht (node_id s)). unfold tracks_node in Ht. rewrite Z.eqb_refl, andb_true_r in Ht.
    exact Ht. }
  pose proof (lookup_lt_Some _ _ _ Hi) as Hlt.
  split; cbn; try assumption.
  - intros j t Hj Htini. destruct (decide (j = i)) as [->|Hne].
    + rewrite list_lookup_insert_eq in Hj by exact Hlt. injection Hj as <-. rewrite Hid. exact Hseen.
    + rewrite list_lookup_insert_ne in Hj by auto. destruct (Hother j t Hj Htini Hne) as [Hs Hn].
      rewrite Hsame by exact Hn. exact Hs.
  - intros j t Hj Htini. rewrite Hfi. destruct (decide (j = i)) as [->|Hne].
    + rewrite list_lookup_insert_eq in Hj by exact Hlt. injection Hj as <-. rewrite Hid.
      apply Hfind; assumption.
    + rewrite list_lookup_insert_ne in Hj by auto. apply Hfind; assumption.
  - intros id n Hin. rewrite Hfi. eapply Hslot, Hin.
Qed.

Lemma accept_other id nid n acc :
  id <> nid -> nonces_of id ((nid, n) :: acc) = nonces_of id acc.
Proof. intros Hne. rewrite nonces_of_cons, decide_False by congruence. reflexivity. Qed.

Lemma accept_same id n acc : nonces_of id ((id, n) :: acc) = n :: nonces_of id acc.
Proof. rewrite nonces_of_cons, decide_True by reflexivity. reflexivity. Qed.

(** A frame of a node that has its slot. *)
Lemma inv_known st acc i s nonce ts :
  is_u32 nonce -> inv st acc -> g_nodes st !! i = Some s -> initialised s = true ->
  let '(res, s') := check_node s nonce ts in
  inv (st <| g_nodes := <[i := s']> (g_nodes st) |>)
    (if bool_decide (res = REPLAY_OK) then (node_id s, nonce) :: acc else acc).
Proof.
  intros Hn [Hseen Hfind Hslot Hnd] Hs H. pose proof (Hseen i s Hs H) as HS.
  pose proof (window_refines s _ nonce ts HS Hn) as Href.
  pose proof (check_node_frame s nonce ts) as [Hfid Hfini].
  destruct (check_node s nonce ts) as [res s']. cbn [snd] in *.
  destruct Href as (Hres & Hok & Hno).
  apply (inv_store _ _ _ s _ acc); auto; try congruence.
  - intros id'. unfold tracks_node. rewrite H. reflexivity.
  - intros j t Hj Htini Hne. split; [eapply Hseen; eassumption|].
    intros E. pose proof (Hfind j t Hj Htini) as F. rewrite E, (Hfind i s Hs H) in F. congruence.
  - case_bool_decide; [|exact Hslot]. intros id' n [[= -> ->]|Hin]%elem_of_cons;
      [rewrite (Hfind i s Hs H); eauto|]. eapply Hslot, Hin.
  - case_bool_decide as Hr; [rewrite accept_same; auto|]. rewrite Hno by exact Hr. exact HS.
  - intros id' Hne. case_bool_decide; [|reflexivity]. apply accept_other, Hne.
  - case_bool_decide as Hr; [|exact Hnd]. constructor; [|exact Hnd].
    rewrite <- nonces_of_elem. rewrite Hr in Hres. symmetry in Hres.
    eapply spec_ok_fresh; eassumption.
Qed.

(** The first frame of a node, in a slot that was free. *)
Lemma inv_new st acc id i s s' nonce :
  is_u32 nonce -> inv st acc -> find_index (tracks_node id) (g_nodes st) = None ->
  g_nodes st !! i = Some s -> initialised s = false ->
  node_id s' = id -> initialised s' = true -> seen s' [nonce] ->
  inv (st <| g_nodes := <[i := s']> (<[i := mk_node id 0 0 0 true]> (g_nodes st)) |>)
    ((id, nonce) :: acc).
Proof.
  intros Hn [Hseen Hfind Hslot Hnd] Hi Hs Hu Hid' Hini' Hfirst.
  pose proof (lookup_lt_Some _ _ _ Hs) as Hlt.
  assert (forall id', id' <> id -> find_index (tracks_node id') (<[i := mk_node id 0 0 0 true]> (g_nodes st))
            = find_index (tracks_node id') (g_nodes st)) as Hsame.
  { intros id' Hne. apply (find_index_insert_same _ _ _ _ s Hs).
    unfold tracks_node. rewrite Hu. cbn. apply Z.eqb_neq. congruence. }
  assert (find_index (tracks_node id) (<[i := mk_node id 0 0 0 true]> (g_nodes st)) = Some i) as Hnew.
  { apply find_index_insert_new; auto. unfold tracks_node. cbn. apply Z.eqb_refl. }
  assert (forall n, (id, n) ∉ acc) as Hnone.
  { intros n Hin. apply Hslot in Hin. rewrite Hi in Hin. destruct Hin. discriminate. }
  apply (inv_store _ _ _ (mk_node id 0 0 0 true) _ acc); auto.
  - apply list_lookup_insert_eq. exact Hlt.
  - intros j t Hj Htini Hne. rewrite list_lookup_insert_ne in Hj by auto.
    split; [eapply Hseen; eassumption|]. cbn. intros E.
    pose proof (Hfind j t Hj Htini) as F. rewrite E, Hi in F. discriminate.
  - intros j t Hj Htini. destruct (decide (j = i)) as [->|Hne].
    + rewrite list_lookup_insert_eq in Hj by exact Hlt. injection Hj as <-. exact Hnew.
    + rewrite list_lookup_insert_ne in Hj by auto. pose proof (Hfind j t Hj Htini) as F.
      rewrite Hsame; [exact F|]. intros E. rewrite E, Hi in F. discriminate.
  - intros id' n [[= -> ->]|Hin]%elem_of_cons; [rewrite Hnew; eauto|].
    rewrite Hsame; [eapply Hslot, Hin|]. intros ->. eapply Hnone, Hin.
  - cbn [node_id]. rewrite accept_same.
    replace (nonces_of id acc) with (@nil Z); [exact Hfirst|].
    symmetry. destruct (nonces_of id acc) as [|n l] eqn:Hl; [reflexivity|].
    exfalso. apply (Hnone n), nonces_of_elem. rewrite Hl. left.
  - intros id' Hne. apply accept_other, Hne.
  - constructor; [apply Hnone|exact Hnd].
Qed.

Lemma inv_step st acc id nonce ts :
  g_initialised st = true -> is_u32 nonce -> inv st acc ->
  let '(res, st') := replay_check st id nonce ts in
  g_initialised st' = true /\
  inv st' (if bool_decide (res = REPLAY_OK) then (id, nonce) :: acc else acc).
Proof.
  intros Hini Hn Hinv. unfold replay_check, find_or_alloc_node. rewrite Hini. cbn [negb].
  destruct (find_index (tracks_node id) (g_nodes st)) as [i|] eqn:Hi.
  - pose proof (find_index_lookup _ _ _ Hi) as (s & Hs & Ht). unfold tracks_node in Ht. reflect.
    subst id. rewrite (nth_lookup_Some _ _ _ _ Hs).
    pose proof (inv_known st acc i s nonce ts Hn Hinv Hs H) as Hk.
    destruct (check_node s nonce ts) as [res s']. split; [exact Hini|exact Hk].
  - destruct (find_index (fun s => negb (initialised s)) (g_nodes st)) as [i|] eqn:Hfree.
    2: { split; [exact Hini|]. rewrite bool_decide_eq_false_2 by discriminate. exact Hinv. }
    pose proof (find_index_lookup _ _ _ Hfree) as (s & Hs & Hu). reflect.
    pose proof (lookup_lt_Some _ _ _ Hs) as Hlt.
    rewrite (nth_lookup_Some _ _ _ (mk_node id 0 0 0 true)) by (apply list_lookup_insert_eq; exact Hlt).
    cbn [check_node highest_nonce bitmap Z.eqb andb].
    split; [exact Hini|]. rewrite bool_decide_eq_true_2 by reflexivity.
    apply (inv_new st acc id i s _ nonce Hn Hinv Hi Hs Hu); [reflexivity|reflexivity|].
    apply (seen_first (mk_node id 0 0 0 true)), Hn.
Qed.

Lemma accepted_NoDup frames st acc :
  g_initialised st = true -> inv st acc -> Forall (fun f => is_u32 (fr_nonce f)) frames ->
  NoDup (accepted st frames acc).
Proof.
  revert st acc. induction frames as [|f frames IH]; intros st acc Hini Hinv Hf; cbn.
  - apply Hinv.
  - apply Forall_cons in Hf as [Hn Hf].
    pose proof (inv_step st acc (fr_node f) (fr_nonce f) (fr_ts f) Hini Hn Hinv) as Hs.
    destruct (replay_check _ _ _ _) as [res st']. destruct Hs as [Hini' Hinv']. auto.
Qed.

(** C4. No replay: over any sequence of frames checked after [replay_init], in
    any order and from any senders, no (sender, nonce) pair is accepted twice. *)
Theorem no_replay st frames :
  Forall (fun f => is_u32 (fr_nonce f)) frames ->
  NoDup (accepted (snd (replay_init st)) frames []).
Proof.
  intros Hf. apply accepted_NoDup; [reflexivity| |exact Hf].
  assert (forall i s, replicate REPLAY_MAX_NODES zero_node !! i = Some s -> initialised s = false) as Hz.
  { intros i s Hs. apply lookup_replicate in Hs as [-> _]. reflexivity. }
  split; cbn.
  - intros i s Hs Hi. rewrite (Hz i s Hs) in Hi. discriminate.
  - intros i s Hs Hi. rewrite (Hz i s Hs) in Hi. discriminate.
  - intros id n Hin. apply elem_of_nil in Hin. tauto.
  - constructor.
Qed.

(** ** The theorems on concrete frames *)

Lemma check_node_refines_witness :
  let s := mk_node 7 10 500 1 true in
  seen s [10] /\ fst (check_node s 9 500) = spec_check 10 500 [10] 9 500.
Proof.
  assert (seen (mk_node 7 10 500 1 true) [10]) as Hs.
  { apply (seen_first (mk_node 7 0 0 0 true) 10 500). unfold is_u32. lia. }
  split; [exact Hs|].
  pose proof (check_node_refines (mk_node 7 10 500 1 true) [10] 9 500 Hs
                ltac:(unfold is_u32; lia)) as H.
  destruct (check_node _ _ _). apply H.
Defined.

Lemma no_replay_witness :
  NoDup (accepted (snd (replay_init initial))
    [mk_frame 1 5 100; mk_frame 1 4 100; mk_frame 1 5 100; mk_frame 2 5 100; mk_frame 1 80 200] []).
Proof.
  apply (no_replay initial). repeat constructor; cbn; lia.
Defined.

End replay_protection.
