(* ===== verification/RuleEngine.v ===== *)
(** The rule engine (firmware/shared/rule_engine_core.c): threshold rules of a
    domain profile evaluated on one reading, behind the profile's vtable. *)

From S2P Require Import Prelude Float32.
Import float32.

Module rule_engine_core.

Definition RULE_MAX_ENTRIES : Z := 32.
Definition RULE_ENGINE_MAX_ACTIONS : Z := 8.

(** The enumerations are stored in one-byte fields of [RuleEntry_t]. *)
Definition RULE_CLASS_SAFETY_LOCKED : Z := 0.
Definition RULE_CLASS_OPERATIONAL : Z := 1.

Definition RULE_ACTION_NONE : Z := 0.
Definition RULE_ACTION_SET_ACTUATOR : Z := 1.
Definition RULE_ACTION_TRIGGER_ALERT : Z := 2.
Definition RULE_ACTION_INTERLOCK : Z := 3.

Definition ACTUATOR_STATE_OFF : Z := 0.
Definition ACTUATOR_STATE_ON : Z := 1.
Definition ACTUATOR_STATE_SAFE : Z := 2.

Definition RULE_COMPARE_ABOVE : Z := 0.
Definition RULE_COMPARE_BELOW : Z := 1.

Record RuleEntry_t := mk_rule {
  rule_id : Z;
  priority : Z;
  threshold : float;
  action_type : Z;
  actuator_id : Z;
  metric_id : Z;
  rule_class : Z;
  interlock_id : Z;
  comparison_type : Z }.

Record RuleEvaluationResult_t := mk_result {
  res_rule_id : Z;
  triggered : bool;
  res_action_type : Z;
  res_actuator_id : Z;
  actuator_state : Z }.

Record SensorReading_t := mk_reading {
  rd_node_id : Z;
  rd_metric_id : Z;
  value : float;
  rd_timestamp_ms : Z }.

(** The profile's operations.  [getRuleTable] leaves a table pointer and an
    entry count behind its out-pointers; [executeAction] drives hardware and is
    a function of the outside world. *)
Record DomainProfileVTable_t (W : Type) := mk_vtable {
  getRuleTable : option (list RuleEntry_t) * Z;
  validateSensorReading : SensorReading_t -> W -> bool * W;
  getFailSafeMode : Z -> bool -> Z;
  executeAction : Z -> Z -> W -> bool * W }.
Arguments mk_vtable {W}. Arguments getRuleTable {W} _. Arguments validateSensorReading {W} _.
Arguments getFailSafeMode {W} _. Arguments executeAction {W} _.

Record state := mk_state { g_initialised : bool }.

Definition initial : state := mk_state false.

Definition rule_engine_init (st : state) : bool * state := (true, mk_state true).

(** The comparison of one rule with the reading. *)
Definition rule_triggered (reading : SensorReading_t) (rule : RuleEntry_t) : bool :=
  if comparison_type rule =? RULE_COMPARE_BELOW
  then flt (value reading) (threshold rule)
  else fge (value reading) (threshold rule).

(** The result entry of a triggered rule. *)
Definition rule_result (reading : SensorReading_t) (rule : RuleEntry_t) : RuleEvaluationResult_t :=
  mk_result (rule_id rule) true (action_type rule) (actuator_id rule)
    (if fge (value reading) (threshold rule) then ACTUATOR_STATE_ON else ACTUATOR_STATE_OFF).

(** The loop: [room] is [max_results - triggered_count]. *)
Fixpoint evaluate_loop (reading : SensorReading_t) (rules : list RuleEntry_t) (room : nat)
  : list RuleEvaluationResult_t :=
  match rules, room with
  | [], _ | _, O => []
  | rule :: rules, S room' =>
      if negb (metric_id rule =? rd_metric_id reading) then evaluate_loop reading rules room
      else if rule_triggered reading rule
      then rule_result reading rule :: evaluate_loop reading rules room'
      else evaluate_loop reading rules room
  end.

Section engine.
Context {W : Type}.
Implicit Types (vtable : option (DomainProfileVTable_t W)).

(** The results written to the caller's array; the C function returns their
    number.  [results] says whether the caller gave an array. *)
Definition rule_engine_evaluate (st : state) vtable (reading : option SensorReading_t)
    (results : bool) (max_results : Z) : list RuleEvaluationResult_t :=
  match vtable, reading with
  | Some v, Some r =>
      if negb results || (max_results =? 0) then []
      else if negb (g_initialised st) then []
      else
        match getRuleTable v with
        | (Some rules, rule_count) =>
            evaluate_loop r (take (Z.to_nat rule_count) rules) (Z.to_nat max_results)
        | (None, _) => []
        end
  | _, _ => []
  end.

Definition rule_engine_find_rule (st : state) vtable (id : Z) : option RuleEntry_t :=
  match vtable with
  | Some v =>
      if negb (g_initialised st) then None
      else
        match getRuleTable v with
        | (Some rules, rule_count) =>
            find_first (fun r => rule_id r =? id) (take (Z.to_nat rule_count) rules)
        | (None, _) => None
        end
  | None => None
  end.

End engine.

Definition rule_is_safety_locked (rule : option RuleEntry_t) : bool :=
  match rule with Some r => rule_class r =? RULE_CLASS_SAFETY_LOCKED | None => false end.

(** ** The loop against its specification *)

(** The rules of the table that the reading triggers. *)
Definition fires (reading : SensorReading_t) (rule : RuleEntry_t) : bool :=
  (metric_id rule =? rd_metric_id reading) && rule_triggered reading rule.

Lemma evaluate_loop_spec reading rules room :
  evaluate_loop reading rules room =
  take room (rule_result reading <$> List.filter (fires reading) rules).
Proof.
  revert room. induction rules as [|rule rules IH]; intros room; [destruct room; reflexivity|].
  destruct room as [|room]; [reflexivity|]. cbn [evaluate_loop List.filter]. unfold fires at 1.
  destruct (metric_id rule =? rd_metric_id reading); cbn [negb andb]; [|apply IH].
  destruct (rule_triggered reading rule); [|apply IH]. cbn. f_equal. apply IH.
Qed.

(** The commanded state is fixed by the direction of the rule. *)
Lemma rule_result_state reading rule :
  rule_triggered reading rule = true ->
  actuator_state (rule_result reading rule) =
  if comparison_type rule =? RULE_COMPARE_BELOW then ACTUATOR_STATE_OFF else ACTUATOR_STATE_ON.
Proof.
  unfold rule_triggered, rule_result. cbn. destruct (_ =? RULE_COMPARE_BELOW); intros Ht.
  - destruct (is_nan (value reading)) eqn:Hv.
    { destruct (is_nan_unordered (value reading) (threshold rule) Hv) as (E & _). congruence. }
    destruct (is_nan (threshold rule)) eqn:Hr.
    { destruct (is_nan_unordered (threshold rule) (value reading) Hr) as (_ & _ & E & _). congruence. }
    rewrite flt_fge, Ht by assumption. reflexivity.
  - rewrite Ht. reflexivity.
Qed.

Lemma evaluate_filter {W} st (v : DomainProfileVTable_t W) reading max_results rules count :
  g_initialised st = true -> 0 < max_results -> getRuleTable v = (Some rules, count) ->
  rule_engine_evaluate st (Some v) (Some reading) true max_results =
  take (Z.to_nat max_results)
    (rule_result reading <$> List.filter (fires reading) (take (Z.to_nat count) rules)).
Proof.
  intros Hi Hm Ht. unfold rule_engine_evaluate. rewrite Hi, Ht. cbn.
  destruct (Z.eqb_spec max_results 0); [lia|]. apply evaluate_loop_spec.
Qed.

(** Evaluation returns, in table order and cut at the caller's capacity,
    one result for every rule of the reading's metric whose comparison holds,
    and nothing else. *)
Theorem evaluate_spec {W} st (v : DomainProfileVTable_t W) reading max_results rules count :
  g_initialised st = true -> 0 < max_results -> getRuleTable v = (Some rules, count) ->
  rule_engine_evaluate st (Some v) (Some reading) true max_results =
  take (Z.to_nat max_results)
    (rule_result reading <$> List.filter (fires reading) (take (Z.to_nat count) rules)).
Proof. apply evaluate_filter. Qed.

(** The state commanded to the actuator does not depend on the reading or
    on the action: a rule that fires above its threshold always commands ON and
    one that fires below it always commands OFF, also where the action is an
    interlock. *)
Theorem commanded_state_by_direction {W} st (v : option (DomainProfileVTable_t W)) reading
    results max_results res :
  res ∈ rule_engine_evaluate st v (Some reading) results max_results ->
  exists rules count rule, getRuleTable <$> v = Some (Some rules, count) /\
    rule ∈ rules /\ res_rule_id res = rule_id rule /\ res_action_type res = action_type rule /\
    actuator_state res =
      if comparison_type rule =? RULE_COMPARE_BELOW then ACTUATOR_STATE_OFF else ACTUATOR_STATE_ON.
Proof.
  unfold rule_engine_evaluate. intros Hin.
  destruct v as [v|]; [|apply elem_of_nil in Hin; tauto].
  destruct (_ || _); [apply elem_of_nil in Hin; tauto|].
  destruct (negb _); [apply elem_of_nil in Hin; tauto|].
  destruct (getRuleTable v) as [[rules|] count] eqn:Hv; [|apply elem_of_nil in Hin; tauto].
  rewrite evaluate_loop_spec in Hin. apply elem_of_take in Hin as (i & Hi & _).
  apply list_elem_of_lookup_2, list_elem_of_fmap in Hi as (rule & -> & Hr).
  apply list_elem_of_In, filter_In in Hr as [Hr Hf].
  exists rules, count, rule. cbn. rewrite Hv. split; [reflexivity|].
  apply list_elem_of_In, elem_of_take in Hr as (j & Hj & _).
  apply list_elem_of_lookup_2 in Hj. split; [exact Hj|].
  split; [reflexivity|]. split; [reflexivity|].
  apply rule_result_state. unfold fires in Hf. reflect. assumption.
Qed.

(** ** The theorems on a concrete profile *)

Definition demo_rules : list RuleEntry_t :=
  [ mk_rule 1 0 (lit 30) RULE_ACTION_SET_ACTUATOR 4 2 RULE_CLASS_OPERATIONAL 0 RULE_COMPARE_ABOVE;
    mk_rule 2 0 (lit 10) RULE_ACTION_SET_ACTUATOR 5 2 RULE_CLASS_SAFETY_LOCKED 0 RULE_COMPARE_BELOW ].

Definition demo_vtable : DomainProfileVTable_t unit :=
  mk_vtable (Some demo_rules, 2) (fun _ w => (true, w)) (fun _ _ => 0) (fun _ _ w => (true, w)).

Lemma evaluate_spec_witness :
  rule_engine_evaluate (mk_state true) (Some demo_vtable) (Some (mk_reading 1 2 (lit 31) 5)) true 8 =
  [mk_result 1 true RULE_ACTION_SET_ACTUATOR 4 ACTUATOR_STATE_ON].
Proof.
  rewrite (evaluate_spec (mk_state true) demo_vtable (mk_reading 1 2 (lit 31) 5) 8 demo_rules 2).
  - vm_compute. reflexivity.
  - reflexivity.
  - reflexivity.
  - reflexivity.
Defined.

Lemma commanded_state_by_direction_witness :
  exists rules count rule, getRuleTable <$> Some demo_vtable = Some (Some rules, count) /\
    rule ∈ rules /\ 2 = rule_id rule /\ RULE_ACTION_SET_ACTUATOR = action_type rule /\
    ACTUATOR_STATE_OFF =
      if comparison_type rule =? RULE_COMPARE_BELOW then ACTUATOR_STATE_OFF else ACTUATOR_STATE_ON.
Proof.
  apply (commanded_state_by_direction (mk_state true) (Some demo_vtable)
           (mk_reading 1 2 (lit 9) 5) true 8
           (mk_result 2 true RULE_ACTION_SET_ACTUATOR 5 ACTUATOR_STATE_OFF)).
  vm_compute. left.
Defined.

End rule_engine_core.
