(* ===== verification/SensorValidation.v ===== *)
(** The plausibility gate (firmware/shared/sensor_validation.c): range, rate of
    change and stuck checks of a reading against a ring of the last samples. *)

From S2P Require Import Prelude Float32.
Import float32.

Module sensor_validation.

Definition SENSOR_HISTORY_SIZE : Z := 16.
Definition SENSOR_MAX_METRICS : Z := 16.

Record SensorValidationBounds_t := mk_bounds {
  min_physical : float;
  max_physical : float;
  max_rate_of_change : float;
  stuck_timeout_sec : Z;
  cross_check_node_id : Z }.

Inductive SensorValidationResult_t :=
| SENSOR_VALID
| SENSOR_OUT_OF_PHYSICAL_RANGE
| SENSOR_RATE_EXCEEDED
| SENSOR_STUCK
| SENSOR_CROSS_CHECK_MISMATCH.

#[export] Instance SensorValidationResult_eq_dec : EqDecision SensorValidationResult_t.
Proof. solve_decision. Defined.

Record SensorHistory_t := mk_history {
  node_id : Z;
  metric_id : Z;
  values : list float;
  timestamps_ms : list Z;
  write_index : Z;
  count : Z;
  last_value : float;
  last_change_ms : Z;
  initialised : bool }.

#[export] Instance eta_history : Eta SensorHistory_t := fun r =>
  mk_history (node_id r) (metric_id r) (values r) (timestamps_ms r) (write_index r) (count r)
    (last_value r) (last_change_ms r) (initialised r).

Definition zero_history : SensorHistory_t :=
  mk_history 0 0 (zeros 16) (zeros 16) 0 0 f_zero 0 false.

Record state := mk_state { g_initialised : bool }.

Definition initial : state := mk_state false.

Definition sensor_validation_init (st : state) : bool * state := (true, mk_state true).

(** The slot the rate check compares with. *)
Definition latest_idx (h : SensorHistory_t) : Z :=
  if SENSOR_HISTORY_SIZE <=? count h then write_index h else u8 (count h - 1).

(** [array[i]] for an index in range. *)
Definition at_index (l : list Z) (i : Z) : Z := nth (Z.to_nat i) l 0.

Definition rate_exceeded (new_value : float) (b : SensorValidationBounds_t)
    (h : SensorHistory_t) (current_ms : Z) : bool :=
  if fgt (max_rate_of_change b) f_zero && (0 <? count h) then
    let prev_value := at_index (values h) (latest_idx h) in
    let prev_ts := at_index (timestamps_ms h) (latest_idx h) in
    if (prev_ts <? current_ms) && (0 <? prev_ts) then
      let dt_sec := fdiv (of_uint (current_ms - prev_ts)) (lit 1000) in
      if fgt dt_sec f_zero then
        let delta := fsub new_value prev_value in
        let delta := if flt delta f_zero then fneg delta else delta in
        fgt (fdiv delta dt_sec) (max_rate_of_change b)
      else false
    else false
  else false.

Definition stuck (new_value : float) (b : SensorValidationBounds_t)
    (h : SensorHistory_t) (current_ms : Z) : bool :=
  (0 <? stuck_timeout_sec b) && (0 <? count h) && feq new_value (last_value h) &&
  (0 <? last_change_ms h) && (last_change_ms h <? current_ms) &&
  (stuck_timeout_sec b * 1000 <? current_ms - last_change_ms h).

Definition sensorValidate (st : state) (nid mid : Z) (new_value : float)
    (bounds : option SensorValidationBounds_t) (history : option SensorHistory_t)
    (current_ms : Z) : SensorValidationResult_t :=
  match bounds, history with
  | Some b, Some h =>
      if negb (g_initialised st) then SENSOR_OUT_OF_PHYSICAL_RANGE
      else if flt new_value (min_physical b) || fgt new_value (max_physical b)
      then SENSOR_OUT_OF_PHYSICAL_RANGE
      else if negb (initialised h) || (count h <? 1) then SENSOR_VALID
      else if rate_exceeded new_value b h current_ms then SENSOR_RATE_EXCEEDED
      else if stuck new_value b h current_ms then SENSOR_STUCK
      else SENSOR_VALID
  | _, _ => SENSOR_OUT_OF_PHYSICAL_RANGE
  end.

Definition sensor_history_record (history : option SensorHistory_t) (nid mid : Z)
    (value : float) (timestamp_ms : Z) : option SensorHistory_t :=
  match history with
  | None => None
  | Some h =>
      let h := if negb (initialised h)
               then zero_history <| node_id := nid |> <| metric_id := mid |>
                                 <| initialised := true |>
               else h in
      let h := if negb (feq value (last_value h))
               then h <| last_change_ms := timestamp_ms |> else h in
      let h := h <| last_value := value |> in
      let h := h <| values := store (write_index h) value (values h) |>
                 <| timestamps_ms := store (write_index h) timestamp_ms (timestamps_ms h) |> in
      let h := h <| write_index := (write_index h + 1) mod SENSOR_HISTORY_SIZE |> in
      Some (if count h <? SENSOR_HISTORY_SIZE then h <| count := count h + 1 |> else h)
  end.

Definition sensor_history_reset (history : option SensorHistory_t) : option SensorHistory_t :=
  match history with Some _ => Some zero_history | None => None end.

(** ** The ring holds the last sixteen samples *)

Record sample := mk_sample { s_value : float; s_ts : Z }.

Definition record_all (h : SensorHistory_t) (nid mid : Z) (samples : list sample)
  : SensorHistory_t :=
  fold_left (fun h s => default h (sensor_history_record (Some h) nid mid (s_value s) (s_ts s)))
    samples h.

(** [h] is the ring after the samples [ss]. *)
Record holds (h : SensorHistory_t) (ss : list sample) : Prop := {
  h_init : initialised h = bool_decide (ss <> []);
  h_size : length (values h) = 16%nat /\ length (timestamps_ms h) = 16%nat;
  h_index : write_index h = Z.of_nat (length ss) mod 16;
  h_count : count h = Z.min (Z.of_nat (length ss)) 16;
  h_slot : forall j s, ss !! j = Some s -> (length ss - 16 <= j)%nat ->
    values h !! (j mod 16)%nat = Some (s_value s) /\
    timestamps_ms h !! (j mod 16)%nat = Some (s_ts s) }.

Lemma holds_zero : holds zero_history [].
Proof. split; cbn; auto. intros j s Hj. rewrite lookup_nil in Hj. discriminate. Qed.

Lemma to_nat_mod_16 n : Z.to_nat (Z.of_nat n mod 16) = (n mod 16)%nat.
Proof. rewrite Z2Nat.inj_mod, Nat2Z.id by lia. reflexivity. Qed.

Lemma sample_slot_ne (n j : nat) : (n - 15 <= j < n)%nat -> (n mod 16 <> j mod 16)%nat.
Proof. intros H E. pose proof (Nat.div_mod_eq n 16). pose proof (Nat.div_mod_eq j 16). lia. Qed.

(** Recording a sample on an initialised or zeroed ring. *)
Lemma record_fields h nid mid s :
  (initialised h = false -> h = zero_history) ->
  exists h', sensor_history_record (Some h) nid mid (s_value s) (s_ts s) = Some h' /\
    initialised h' = true /\
    values h' = store (write_index h) (s_value s) (values h) /\
    timestamps_ms h' = store (write_index h) (s_ts s) (timestamps_ms h) /\
    write_index h' = (write_index h + 1) mod 16 /\
    count h' = (if count h <? 16 then count h + 1 else count h) /\
    last_value h' = s_value s.
Proof.
  intros Hz. unfold sensor_history_record, SENSOR_HISTORY_SIZE.
  destruct (initialised h) eqn:Hi; [|rewrite (Hz eq_refl)]; cbn [negb];
  destruct (feq (s_value s) _); cbn; eexists; (split; [reflexivity|]);
  rewrite ?Hi; repeat split; try (destruct (count h <? 16); cbn; auto; fail); auto.
Qed.

Lemma holds_record h ss nid mid s :
  (ss = [] -> h = zero_history) -> holds h ss ->
  exists h', sensor_history_record (Some h) nid mid (s_value s) (s_ts s) = Some h' /\
    holds h' (ss ++ [s]) /\ last_value h' = s_value s.
Proof.
  intros Hz [Hi [Hv Ht] Hw Hc Hs].
  destruct (record_fields h nid mid s) as (h' & Hr & Hi' & Hv' & Ht' & Hw' & Hc' & Hl).
  { intros Hf. rewrite Hi in Hf. apply Hz. destruct ss; [reflexivity|].
    apply bool_decide_eq_false in Hf. destruct Hf. discriminate. }
  exists h'. split; [exact Hr|]. split; [|exact Hl]. split.
  - rewrite Hi'. symmetry. apply bool_decide_eq_true. destruct ss; discriminate.
  - rewrite Hv', Ht', !store_length. auto.
  - rewrite Hw', Hw, length_app. cbn [length]. Z.div_mod_to_equations. lia.
  - rewrite Hc', Hc, length_app. cbn [length]. destruct (Z.ltb_spec (Z.min (Z.of_nat (length ss)) 16) 16); lia.
  - intros j x Hj Hlast. rewrite length_app in Hlast. cbn [length] in Hlast.
    rewrite Hv', Ht', Hw. unfold store. rewrite to_nat_mod_16.
    pose proof (Nat.mod_upper_bound (length ss) 16).
    destruct (decide (j = length ss)) as [->|Hne].
    + rewrite lookup_app_r, Nat.sub_diag in Hj by lia. injection Hj as <-.
      rewrite !list_lookup_insert_eq by lia. auto.
    + apply lookup_lt_Some in Hj as Hlt. rewrite length_app in Hlt. cbn [length] in Hlt.
      rewrite lookup_app_l in Hj by lia.
      pose proof (sample_slot_ne (length ss) j ltac:(lia)).
      rewrite !list_lookup_insert_ne by lia. apply Hs; [exact Hj|lia].
Qed.

Lemma record_all_cons h nid mid s samples :
  record_all h nid mid (s :: samples) =
  record_all (default h (sensor_history_record (Some h) nid mid (s_value s) (s_ts s))) nid mid samples.
Proof. reflexivity. Qed.

Lemma holds_record_all nid mid samples h ss :
  (ss = [] -> h = zero_history) -> holds h ss -> holds (record_all h nid mid samples) (ss ++ samples).
Proof.
  revert h ss. induction samples as [|s samples IH]; intros h ss Hz Hh.
  - rewrite app_nil_r. exact Hh.
  - destruct (holds_record h ss nid mid s Hz Hh) as (h' & Hr & Hh' & _).
    rewrite record_all_cons, Hr.
    replace (ss ++ s :: samples) with ((ss ++ [s]) ++ samples) by (rewrite <- app_assoc; reflexivity).
    apply IH; [destruct ss; discriminate|exact Hh'].
Qed.

(** ** Properties *)

(** A valid reading is inside the physical range. *)
Lemma valid_in_range st nid mid v b h now :
  sensorValidate st nid mid v (Some b) h now = SENSOR_VALID ->
  flt v (min_physical b) = false /\ fgt v (max_physical b) = false.
Proof.
  unfold sensorValidate. destruct h as [h|]; [|discriminate].
  destruct (negb (g_initialised st)); [discriminate|].
  destruct (flt v (min_physical b)), (fgt v (max_physical b)); cbn [orb]; try discriminate. auto.
Qed.

(** Only readings inside the physical range pass the gate: a valid reading
    is not below the minimum and not above the maximum, and a reading outside
    is rejected whatever the history. *)
Theorem range_gate st nid mid v b h now :
  g_initialised st = true ->
  (sensorValidate st nid mid v (Some b) (Some h) now = SENSOR_OUT_OF_PHYSICAL_RANGE <->
   flt v (min_physical b) = true \/ fgt v (max_physical b) = true).
Proof.
  intros Hi. unfold sensorValidate. rewrite Hi. cbn [negb].
  destruct (flt v (min_physical b)), (fgt v (max_physical b)); cbn;
  repeat case_match; split; try tauto; try discriminate; intros [?|?]; discriminate.
Qed.

Lemma fsub_nan v w : is_nan v = true -> fsub v w = qnan.
Proof. unfold is_nan, fsub. destruct (decode v); try discriminate. intros _. destruct (decode w) as [[]|[]| |[]]; reflexivity. Qed.

Lemma fdiv_nan v w : is_nan v = true -> fdiv v w = qnan.
Proof. unfold is_nan, fdiv. destruct (decode v); try discriminate. intros _. destruct (decode w) as [[]|[]| |[]]; reflexivity. Qed.

(** A NaN reading passes every check: the comparisons of the gate are all
    false on it, so it is reported valid for every bounds and history. *)
Theorem nan_reading_is_valid st nid mid v b h now :
  g_initialised st = true -> is_nan v = true ->
  sensorValidate st nid mid v (Some b) (Some h) now = SENSOR_VALID.
Proof.
  intros Hi Hn. unfold sensorValidate. rewrite Hi. cbn [negb].
  destruct (is_nan_unordered v (min_physical b) Hn) as (-> & _).
  destruct (is_nan_unordered v (max_physical b) Hn) as (_ & _ & E & _).
  unfold fgt at 1. rewrite E. cbn [orb].
  destruct (_ || _); [reflexivity|].
  assert (rate_exceeded v b h now = false) as ->.
  { unfold rate_exceeded. destruct (_ && _); [|reflexivity]. cbn zeta.
    destruct (_ && _); [|reflexivity]. destruct (fgt _ f_zero); [|reflexivity].
    rewrite fsub_nan by exact Hn.
    destruct (is_nan_unordered qnan f_zero is_nan_qnan) as (-> & _).
    rewrite fdiv_nan by exact is_nan_qnan. unfold fgt.
    destruct (is_nan_unordered qnan (max_rate_of_change b) is_nan_qnan) as (_ & _ & -> & _).
    reflexivity. }
  assert (stuck v b h now = false) as ->; [|reflexivity].
  unfold stuck. destruct (is_nan_unordered v (last_value h) Hn) as (_ & _ & _ & _ & ->).
  rewrite !andb_false_r. reflexivity.
Qed.

(** What the rate check compares with: up to fifteen samples it is the
    newest one, but once the ring is full it is the oldest retained sample,
    sixteen samples back, although the comment calls it the most recent. *)
Theorem rate_reference nid mid ss s :
  ss <> [] ->
  ss !! (if decide (length ss < 16)%nat then length ss - 1 else length ss - 16)%nat = Some s ->
  let h := record_all zero_history nid mid ss in
  at_index (values h) (latest_idx h) = s_value s /\
  at_index (timestamps_ms h) (latest_idx h) = s_ts s.
Proof.
  intros Hne Hs. cbn zeta. assert (holds (record_all zero_history nid mid ss) ss) as Hh.
  { apply (holds_record_all nid mid ss zero_history []); [reflexivity|apply holds_zero]. }
  generalize dependent (record_all zero_history nid mid ss). intros h [_ _ Hw Hc Hslot].
  assert (0 < length ss)%nat by (destruct ss; [congruence|cbn; lia]).
  destruct (Hslot _ _ Hs) as [Hv Ht]; [case_decide; lia|].
  assert (Z.to_nat (latest_idx h) =
          (if decide (length ss < 16)%nat then length ss - 1 else length ss - 16) mod 16)%nat as E.
  { unfold latest_idx, SENSOR_HISTORY_SIZE. rewrite Hw, Hc. case_decide.
    - destruct (Z.leb_spec 16 (Z.min (Z.of_nat (length ss)) 16)); [lia|].
      rewrite u8_small, Nat.mod_small by (unfold is_u8; lia). lia.
    - destruct (Z.leb_spec 16 (Z.min (Z.of_nat (length ss)) 16)); [|lia].
      rewrite to_nat_mod_16. replace (length ss) with (length ss - 16 + 1 * 16)%nat at 1 by lia.
      apply Nat.Div0.mod_add. }
  unfold at_index. rewrite E. split; apply nth_lookup_Some; assumption.
Qed.

(** ** The theorems on concrete samples *)

Definition demo_bounds : SensorValidationBounds_t := mk_bounds (lit (-40)) (lit 85) (lit 5) 300 0.

Lemma range_gate_witness :
  sensorValidate (mk_state true) 1 2 (lit 90) (Some demo_bounds) (Some zero_history) 1000 =
  SENSOR_OUT_OF_PHYSICAL_RANGE.
Proof.
  apply (range_gate (mk_state true) 1 2 (lit 90) demo_bounds zero_history 1000).
  - reflexivity.
  - right. vm_compute. reflexivity.
Defined.

Lemma nan_reading_is_valid_witness :
  sensorValidate (mk_state true) 1 2 qnan (Some demo_bounds) (Some zero_history) 1000 =
  SENSOR_VALID.
Proof.
  apply (nan_reading_is_valid (mk_state true) 1 2 qnan demo_bounds zero_history 1000).
  - reflexivity.
  - reflexivity.
Defined.

(** Twenty samples 0.0, 1.0, ..., 19.0, one second apart. *)
Definition demo_samples : list sample :=
  map (fun i => mk_sample (lit (Z.of_nat i)) (1000 * Z.of_nat (S i))) (seq 0 20).

Lemma rate_reference_witness :
  at_index (values (record_all zero_history 1 2 demo_samples))
    (latest_idx (record_all zero_history 1 2 demo_samples)) = lit 4.
Proof.
  apply (rate_reference 1 2 demo_samples (mk_sample (lit 4) 5000)).
  - discriminate.
  - vm_compute. reflexivity.
Defined.

End sensor_validation.
