(* ===== verification/ActuatorFailsafe.v ===== *)
(** The actuator fail-safe decision table (firmware/shared/actuator_failsafe.c). *)

From S2P Require Import Prelude.

Module actuator_failsafe.

Definition ACTUATOR_FAILSAFE_MAX_ENTRIES : Z := 16.

Inductive ActuatorFailSafeMode_t :=
| FAILSAFE_DE_ENERGIZE
| FAILSAFE_HOLD_LAST
| FAILSAFE_FORCE_OFF
| FAILSAFE_FORCE_SAFE_POS.

Inductive ActuatorSafetyClass_t :=
| ACTUATOR_SAFETY_CRITICAL
| ACTUATOR_SAFETY_STANDARD.

#[export] Instance ActuatorFailSafeMode_eq_dec : EqDecision ActuatorFailSafeMode_t.
Proof. solve_decision. Defined.
#[export] Instance ActuatorSafetyClass_eq_dec : EqDecision ActuatorSafetyClass_t.
Proof. solve_decision. Defined.

Record ActuatorFailSafeEntry_t := mk_entry {
  actuator_id : Z;
  criticality : ActuatorSafetyClass_t;
  power_loss_mode : ActuatorFailSafeMode_t;
  comms_loss_mode : ActuatorFailSafeMode_t;
  comms_timeout_sec : Z }.

Record state := mk_state {
  g_failsafe_table : list ActuatorFailSafeEntry_t;
  g_entry_count : Z;
  g_initialised : bool }.

#[export] Instance eta_state : Eta state := fun r =>
  mk_state (g_failsafe_table r) (g_entry_count r) (g_initialised r).

Definition zero_entry : ActuatorFailSafeEntry_t :=
  mk_entry 0 ACTUATOR_SAFETY_CRITICAL FAILSAFE_DE_ENERGIZE FAILSAFE_DE_ENERGIZE 0.

Definition initial : state := mk_state (replicate 16 zero_entry) 0 false.

Definition actuator_failsafe_init (st : state) : bool * state :=
  (true, mk_state (replicate 16 zero_entry) 0 true).

(** The test of the scans: [g_failsafe_table[i].actuator_id == id]. *)
Definition has_id (id : Z) (e : ActuatorFailSafeEntry_t) : bool := actuator_id e =? id.

Definition actuator_failsafe_register (st : state) (entry : option ActuatorFailSafeEntry_t)
  : bool * state :=
  match entry with
  | None => (false, st)
  | Some e =>
      if negb (g_initialised st) then (false, st)
      else if ACTUATOR_FAILSAFE_MAX_ENTRIES <=? g_entry_count st then (false, st)
      else
        match find_index (has_id (actuator_id e)) (used (g_entry_count st) (g_failsafe_table st)) with
        | Some i => (true, st <| g_failsafe_table := <[i := e]> (g_failsafe_table st) |>)
        | None =>
            (true, st <| g_failsafe_table := store (g_entry_count st) e (g_failsafe_table st) |>
                      <| g_entry_count := u8 (g_entry_count st + 1) |>)
        end
  end.

(** The entry copied to the caller; [out] says whether there is a buffer. *)
Definition actuator_failsafe_lookup (st : state) (id : Z) (is_power_loss out : bool)
  : option ActuatorFailSafeEntry_t :=
  if negb out then None
  else if negb (g_initialised st) then None
  else find_first (has_id id) (used (g_entry_count st) (g_failsafe_table st)).

(** The mode [actuator_failsafe_execute] settles on; [None] while the comms
    timeout has not elapsed and the actuator holds its last state. *)
Definition failsafe_mode (e : ActuatorFailSafeEntry_t) (is_power_loss : bool)
    (comms_loss_elapsed_sec : Z) : option ActuatorFailSafeMode_t :=
  if is_power_loss then Some (power_loss_mode e)
  else if comms_loss_elapsed_sec <? comms_timeout_sec e then None
  else Some (comms_loss_mode e).

(** The C function returns whether the actuator is in the table; the mode is
    computed and left to the hardware layer. *)
Definition actuator_failsafe_execute (st : state) (id : Z) (is_power_loss : bool)
    (comms_loss_elapsed_sec : Z) : bool * option ActuatorFailSafeMode_t :=
  if negb (g_initialised st) then (false, None)
  else
    match actuator_failsafe_lookup st id is_power_loss true with
    | None => (false, None)
    | Some e => (true, failsafe_mode e is_power_loss comms_loss_elapsed_sec)
    end.

Definition actuator_failsafe_count (st : state) : Z := g_entry_count st.

(** ** The table is a map from actuators to entries *)

Record wf (st : state) : Prop := {
  wf_size : length (g_failsafe_table st) = 16%nat;
  wf_count : 0 <= g_entry_count st <= ACTUATOR_FAILSAFE_MAX_ENTRIES }.

Lemma actuator_id_spec id e : has_id id e = true <-> actuator_id e = id.
Proof. apply Z.eqb_eq. Qed.

Lemma failsafe_init_wf st : wf (snd (actuator_failsafe_init st)).
Proof. split; cbn; [reflexivity|unfold ACTUATOR_FAILSAFE_MAX_ENTRIES; lia]. Qed.

Lemma failsafe_register_upsert st e :
  wf st -> g_initialised st = true -> g_entry_count st < ACTUATOR_FAILSAFE_MAX_ENTRIES ->
  exists st', actuator_failsafe_register st (Some e) = (true, st') /\ wf st' /\
    g_initialised st' = true /\
    used (g_entry_count st') (g_failsafe_table st') =
      upsert has_id (actuator_id e) e (used (g_entry_count st) (g_failsafe_table st)).
Proof.
  intros [Hs Hc] Hi Hlt. unfold actuator_failsafe_register, ACTUATOR_FAILSAFE_MAX_ENTRIES, upsert in *.
  rewrite Hi. cbn [negb]. destruct (Z.leb_spec 16 (g_entry_count st)); [lia|].
  destruct (find_index _ _) as [i|] eqn:Hf; eexists; (split; [reflexivity|]).
  - apply find_index_lt in Hf. rewrite used_length in Hf by lia.
    split; [split; cbn; [rewrite length_insert; exact Hs|exact Hc]|]. split; [exact Hi|].
    cbn. apply used_store_inside. exact Hf.
  - cbn. rewrite u8_small by (unfold is_u8; lia).
    split; [split; cbn; [rewrite store_length; exact Hs|unfold ACTUATOR_FAILSAFE_MAX_ENTRIES; lia]|].
    split; [exact Hi|]. apply used_store_append. lia.
Qed.

Lemma register_lookup st e id pl :
  wf st -> g_initialised st = true -> g_entry_count st < ACTUATOR_FAILSAFE_MAX_ENTRIES ->
  exists st', actuator_failsafe_register st (Some e) = (true, st') /\ wf st' /\
    g_initialised st' = true /\
    actuator_failsafe_lookup st' id pl true =
      if actuator_id e =? id then Some e else actuator_failsafe_lookup st id pl true.
Proof.
  intros Hwf Hi Hlt. destruct (failsafe_register_upsert st e Hwf Hi Hlt) as (st' & Hr & Hwf' & Hi' & Hu).
  exists st'. repeat (split; [assumption|]). unfold actuator_failsafe_lookup. rewrite Hi, Hi'. cbn [negb].
  rewrite Hu. apply (upsert_lookup actuator_id has_id actuator_id_spec).
Qed.

(** The decision the table gives: after an entry is registered, power loss
    puts its actuator into the entry's power-loss mode at once, comms loss holds
    the last state until the entry's timeout and then applies the comms-loss
    mode, and no other actuator's decision changes. *)
Theorem execute_after_register st e id power elapsed :
  wf st -> g_initialised st = true -> g_entry_count st < ACTUATOR_FAILSAFE_MAX_ENTRIES ->
  let '(ok, st') := actuator_failsafe_register st (Some e) in
  ok = true /\
  actuator_failsafe_execute st' id power elapsed =
    if actuator_id e =? id then
      (true, if power then Some (power_loss_mode e)
             else if elapsed <? comms_timeout_sec e then None else Some (comms_loss_mode e))
    else actuator_failsafe_execute st id power elapsed.
Proof.
  intros Hwf Hi Hlt. destruct (register_lookup st e id power Hwf Hi Hlt) as (st' & -> & _ & Hi' & Hl).
  split; [reflexivity|]. unfold actuator_failsafe_execute. rewrite Hi, Hi', Hl. cbn [negb].
  destruct (actuator_id e =? id); reflexivity.
Qed.

Definition demo_entry : ActuatorFailSafeEntry_t :=
  mk_entry 3 ACTUATOR_SAFETY_CRITICAL FAILSAFE_FORCE_OFF FAILSAFE_HOLD_LAST 30.

Lemma execute_after_register_witness :
  actuator_failsafe_execute
    (snd (actuator_failsafe_register (snd (actuator_failsafe_init initial)) (Some demo_entry)))
    3 false 29 = (true, None).
Proof.
  pose proof (execute_after_register (snd (actuator_failsafe_init initial)) demo_entry 3 false 29
                (failsafe_init_wf initial) eq_refl eq_refl) as H.
  destruct (actuator_failsafe_register _ _) as [ok st']. destruct H as [_ H].
  cbn [snd]. rewrite H. reflexivity.
Defined.

End actuator_failsafe.
