(* ===== verification/SafetyMonitor.v ===== *)
(** The safety monitor (firmware/shared/safety_monitor.c): a watchdog over the
    rule evaluation task. *)

From S2P Require Import Prelude TimeSource.

Module safety_monitor.

Definition SAFETY_MONITOR_DEADLINE_MS : Z := 500.
Definition SAFETY_MONITOR_RULE_DEADLINE_MS : Z := 1000.
Definition SAFETY_MONITOR_MAX_RULES : Z := 32.
Definition SAFETY_MONITOR_MISSED_THRESHOLD : Z := 3.

Inductive SafetyMonitorState_t :=
| SAFETY_STATE_IDLE
| SAFETY_STATE_ACTIVE
| SAFETY_STATE_DEGRADED
| SAFETY_STATE_EMERGENCY.

Inductive SafetyMonitorResult_t :=
| SAFETY_MON_OK
| SAFETY_MON_ERR_NOT_INIT
| SAFETY_MON_ERR_PARAM_NULL.

#[export] Instance SafetyMonitorState_eq_dec : EqDecision SafetyMonitorState_t.
Proof. solve_decision. Defined.
#[export] Instance SafetyMonitorResult_eq_dec : EqDecision SafetyMonitorResult_t.
Proof. solve_decision. Defined.

Record SafetyRuleTracker_t := mk_tracker {
  rule_id : Z;
  last_evaluated_ms : Z;
  active : bool }.

#[export] Instance eta_tracker : Eta SafetyRuleTracker_t := fun r =>
  mk_tracker (rule_id r) (last_evaluated_ms r) (active r).

Definition zero_tracker : SafetyRuleTracker_t := mk_tracker 0 0 false.

(** The callback drives the outputs: a function of the outside world. *)
Definition FailsafeCallback_t (W : Type) : Type := W -> W.

Record SafetyMonitorContext_t (W : Type) := mk_ctx {
  state : SafetyMonitorState_t;
  last_heartbeat_ms : Z;
  missed_count : Z;
  failsafe_cb : option (FailsafeCallback_t W);
  rules : list SafetyRuleTracker_t;
  rule_count : Z;
  initialized : bool }.
Arguments mk_ctx {W}. Arguments state {W}. Arguments last_heartbeat_ms {W}.
Arguments missed_count {W}. Arguments failsafe_cb {W}. Arguments rules {W}.
Arguments rule_count {W}. Arguments initialized {W}.

#[export] Instance eta_ctx W : Eta (SafetyMonitorContext_t W) := fun r =>
  mk_ctx (state r) (last_heartbeat_ms r) (missed_count r) (failsafe_cb r) (rules r)
    (rule_count r) (initialized r).

Section monitor.
Context {W : Type}.
Implicit Types (ctx : SafetyMonitorContext_t W) (w : W) (clk : time_source.state W).

Definition zero_ctx : SafetyMonitorContext_t W :=
  mk_ctx SAFETY_STATE_IDLE 0 0 None (replicate 32 zero_tracker) 0 false.

Definition safety_monitor_init (octx : option (SafetyMonitorContext_t W))
    (failsafe : option (FailsafeCallback_t W))
  : SafetyMonitorResult_t * option (SafetyMonitorContext_t W) :=
  match octx, failsafe with
  | Some _, Some cb =>
      (SAFETY_MON_OK, Some (zero_ctx <| failsafe_cb := Some cb |>
                                     <| state := SAFETY_STATE_IDLE |> <| initialized := true |>))
  | _, _ => (SAFETY_MON_ERR_PARAM_NULL, octx)
  end.

(** The operations below take a context that is not NULL; a NULL pointer gives
    the same answer as one that is not initialised. *)
Definition safety_monitor_heartbeat ctx clk w
  : SafetyMonitorResult_t * SafetyMonitorContext_t W * time_source.state W * W :=
  if negb (initialized ctx) then (SAFETY_MON_ERR_PARAM_NULL, ctx, clk, w)
  else
    let '(now, clk, w) := time_source.time_source_get_ms clk w in
    let ctx := ctx <| last_heartbeat_ms := now |> <| missed_count := 0 |> in
    let ctx := match state ctx with
               | SAFETY_STATE_DEGRADED | SAFETY_STATE_IDLE =>
                   ctx <| state := SAFETY_STATE_ACTIVE |>
               | _ => ctx
               end in
    (SAFETY_MON_OK, ctx, clk, w).

Definition safety_monitor_rule_evaluated ctx (id timestamp : Z)
  : SafetyMonitorResult_t * SafetyMonitorContext_t W :=
  if negb (initialized ctx) then (SAFETY_MON_ERR_PARAM_NULL, ctx)
  else
    match find_index (fun t => active t && (rule_id t =? id)) (used (rule_count ctx) (rules ctx)) with
    | Some i =>
        (SAFETY_MON_OK,
         ctx <| rules := alter (fun t => t <| last_evaluated_ms := timestamp |>) i (rules ctx) |>)
    | None =>
        if rule_count ctx <? SAFETY_MONITOR_MAX_RULES then
          (SAFETY_MON_OK,
           ctx <| rules := store (rule_count ctx) (mk_tracker id timestamp true) (rules ctx) |>
               <| rule_count := u8 (rule_count ctx + 1) |>)
        else (SAFETY_MON_OK, ctx)
    end.

Definition safety_monitor_check ctx clk w : SafetyMonitorState_t * time_source.state W * W :=
  if negb (initialized ctx) then (SAFETY_STATE_EMERGENCY, clk, w)
  else if bool_decide (state ctx = SAFETY_STATE_EMERGENCY) then (SAFETY_STATE_EMERGENCY, clk, w)
  else
    let '(now, clk, w) := time_source.time_source_get_ms clk w in
    if bool_decide (state ctx = SAFETY_STATE_IDLE) then
      (if 2 * SAFETY_MONITOR_DEADLINE_MS <? now then SAFETY_STATE_EMERGENCY
       else SAFETY_STATE_IDLE, clk, w)
    else
      let elapsed := u64 (now - last_heartbeat_ms ctx) in
      (if SAFETY_MONITOR_DEADLINE_MS * SAFETY_MONITOR_MISSED_THRESHOLD <? elapsed
       then SAFETY_STATE_EMERGENCY
       else if SAFETY_MONITOR_DEADLINE_MS <? elapsed then SAFETY_STATE_DEGRADED
       else SAFETY_STATE_ACTIVE, clk, w).

Definition safety_monitor_get_missed_count ctx : Z :=
  if negb (initialized ctx) then 0 else missed_count ctx.

Definition safety_monitor_trigger_failsafe ctx w
  : SafetyMonitorResult_t * SafetyMonitorContext_t W * W :=
  if negb (initialized ctx) then (SAFETY_MON_ERR_PARAM_NULL, ctx, w)
  else
    (SAFETY_MON_OK, ctx <| state := SAFETY_STATE_EMERGENCY |>,
     match failsafe_cb ctx with Some cb => cb w | None => w end).

(** ** The monitor as a state machine *)

(** One call of an operation that changes the context. *)
Inductive step : SafetyMonitorContext_t W -> SafetyMonitorContext_t W -> Prop :=
| step_heartbeat ctx clk w r ctx' clk' w' :
    safety_monitor_heartbeat ctx clk w = (r, ctx', clk', w') -> step ctx ctx'
| step_rule ctx id ts r ctx' :
    safety_monitor_rule_evaluated ctx id ts = (r, ctx') -> step ctx ctx'
| step_trigger ctx w r ctx' w' :
    safety_monitor_trigger_failsafe ctx w = (r, ctx', w') -> step ctx ctx'.

Definition steps := rtc step.

(** What every call preserves once the monitor is running. *)
Record running ctx : Prop := {
  run_init : initialized ctx = true;
  run_missed : missed_count ctx = 0 }.

Lemma step_running ctx ctx' : step ctx ctx' -> running ctx -> running ctx'.
Proof.
  intros Hs [Hi Hm]. destruct Hs as [c k w r c' k' w' H|c id ts r c' H|c w r c' w' H]; revert H.
  - unfold safety_monitor_heartbeat. rewrite Hi. cbn.
    destruct (time_source.time_source_get_ms k w) as [[now k1] w1].
    destruct (state c); intros [= _ <- _ _]; split; cbn; auto.
  - unfold safety_monitor_rule_evaluated. rewrite Hi. cbn.
    repeat case_match; intros [= _ <-]; split; cbn; auto.
  - unfold safety_monitor_trigger_failsafe. rewrite Hi. cbn. intros [= _ <- _]. split; cbn; auto.
Qed.

Lemma steps_running ctx ctx' : steps ctx ctx' -> running ctx -> running ctx'.
Proof. induction 1; eauto using step_running. Qed.

Lemma step_emergency ctx ctx' :
  step ctx ctx' -> initialized ctx = true -> state ctx = SAFETY_STATE_EMERGENCY ->
  initialized ctx' = true /\ state ctx' = SAFETY_STATE_EMERGENCY.
Proof.
  intros Hs Hi He. destruct Hs as [c k w r c' k' w' H|c id ts r c' H|c w r c' w' H]; revert H.
  - unfold safety_monitor_heartbeat. rewrite Hi. cbn.
    destruct (time_source.time_source_get_ms k w) as [[now k1] w1].
    rewrite He. intros [= _ <- _ _]. auto.
  - unfold safety_monitor_rule_evaluated. rewrite Hi. cbn.
    repeat case_match; intros [= _ <-]; auto.
  - unfold safety_monitor_trigger_failsafe. rewrite Hi. cbn. intros [= _ <- _]. auto.
Qed.

(** Emergency is latched: once the fail-safe was triggered, no sequence of
    heartbeats, rule reports and triggers leaves EMERGENCY, whatever the clock
    says. *)
Theorem emergency_latched ctx ctx1 ctx2 w w1 clk w2 :
  initialized ctx = true ->
  safety_monitor_trigger_failsafe ctx w = (SAFETY_MON_OK, ctx1, w1) ->
  steps ctx1 ctx2 ->
  fst (fst (safety_monitor_check ctx2 clk w2)) = SAFETY_STATE_EMERGENCY.
Proof.
  intros Hi Ht Hs. unfold safety_monitor_trigger_failsafe in Ht. rewrite Hi in Ht. cbn in Ht.
  injection Ht as <- _.
  assert (initialized ctx2 = true /\ state ctx2 = SAFETY_STATE_EMERGENCY) as [Hi2 He2].
  { remember (ctx <| state := SAFETY_STATE_EMERGENCY |>) as c eqn:Ec.
    assert (initialized c = true /\ state c = SAFETY_STATE_EMERGENCY) as [Hc Hce] by (subst c; auto).
    clear Ec Hi ctx. induction Hs as [|x y z Hxy _ IH]; [auto|].
    destruct (step_emergency x y Hxy Hc Hce). auto. }
  unfold safety_monitor_check. rewrite Hi2, bool_decide_eq_true_2 by exact He2. reflexivity.
Qed.

(** A heartbeat stores its clock reading and makes the monitor active. *)
Lemma heartbeat_active ctx clk w :
  initialized ctx = true -> state ctx <> SAFETY_STATE_EMERGENCY ->
  let '(r, ctx', clk', w') := safety_monitor_heartbeat ctx clk w in
  time_source.time_source_get_ms clk w = (last_heartbeat_ms ctx', clk', w') /\
  r = SAFETY_MON_OK /\ initialized ctx' = true /\ state ctx' = SAFETY_STATE_ACTIVE.
Proof.
  intros Hi Hne. unfold safety_monitor_heartbeat. rewrite Hi. cbn [negb].
  destruct (time_source.time_source_get_ms clk w) as [[t0 k0] w0].
  destruct (state ctx) eqn:Hs; cbn; rewrite Hs; cbn; auto; congruence.
Qed.

(** C36. The watchdog deadlines, with the 64-bit elapsed time written out: on a
    running monitor that is not latched in EMERGENCY, let a heartbeat's clock
    reading be [t]. A check whose reading is [now] then says ACTIVE up to 500 ms,
    DEGRADED up to 1500 ms and EMERGENCY beyond; a clock that went backwards (an
    unreliable source reads 0) is EMERGENCY for all but the last 1500 ms of the
    64-bit range. *)
Theorem check_deadlines ctx clk w t clk0 w0 clk1 w1 now clk2 w2 :
  initialized ctx = true -> state ctx <> SAFETY_STATE_EMERGENCY ->
  time_source.time_source_get_ms clk w = (t, clk0, w0) -> is_u64 t ->
  time_source.time_source_get_ms clk1 w1 = (now, clk2, w2) -> is_u64 now ->
  let '(r, ctx', clk', w') := safety_monitor_heartbeat ctx clk w in
  r = SAFETY_MON_OK /\ clk' = clk0 /\ w' = w0 /\
  safety_monitor_check ctx' clk1 w1 =
    (if t <=? now then
       if now - t <=? 500 then SAFETY_STATE_ACTIVE
       else if now - t <=? 1500 then SAFETY_STATE_DEGRADED else SAFETY_STATE_EMERGENCY
     else if now + 2 ^ 64 - t <=? 500 then SAFETY_STATE_ACTIVE
     else if now + 2 ^ 64 - t <=? 1500 then SAFETY_STATE_DEGRADED else SAFETY_STATE_EMERGENCY,
     clk2, w2).
Proof.
  intros Hi Hne Hb Ht Hg Hnow. pose proof (heartbeat_active ctx clk w Hi Hne) as H.
  destruct (safety_monitor_heartbeat ctx clk w) as [[[r ctx'] clk'] w']. rewrite Hb in H.
  destruct H as ([= -> -> ->] & -> & Hi' & Ha). split; [reflexivity|]. split; [reflexivity|]. split; [reflexivity|].
  unfold safety_monitor_check. rewrite Hi', Ha, Hg. cbn [negb].
  rewrite !bool_decide_eq_false_2 by discriminate.
  unfold SAFETY_MONITOR_DEADLINE_MS, SAFETY_MONITOR_MISSED_THRESHOLD. f_equal. f_equal.
  set (m := last_heartbeat_ms ctx') in *.
  assert (u64 (now - m) = if m <=? now then now - m else now + 2 ^ 64 - m) as ->.
  { destruct (Z.leb_spec m now); [apply u64_small; words|words]. }
  destruct (Z.leb_spec m now); repeat case_match; reflect; (reflexivity || lia).
Qed.

(** The missed-heartbeat counter never counts: from a fresh monitor it is
    zero after every sequence of calls, however late the heartbeats were. *)
Theorem missed_count_always_zero ctx0 cb ctx ctx' :
  safety_monitor_init (Some ctx0) (Some cb) = (SAFETY_MON_OK, Some ctx) ->
  steps ctx ctx' -> safety_monitor_get_missed_count ctx' = 0.
Proof.
  intros Hin Hs. assert (running ctx) as Hr.
  { unfold safety_monitor_init in Hin. injection Hin as <-. split; reflexivity. }
  destruct (steps_running ctx ctx' Hs Hr) as [Hi Hm].
  unfold safety_monitor_get_missed_count. rewrite Hi. exact Hm.
Qed.

End monitor.

(** ** The theorems on a concrete monitor *)

Definition demo_ctx : SafetyMonitorContext_t unit :=
  default zero_ctx (snd (safety_monitor_init (Some zero_ctx) (Some (fun w => w)))).

Definition demo_clock (ms : Z) : time_source.state unit :=
  time_source.time_source_mock_set time_source.initial ms true.

Lemma emergency_latched_witness :
  let ctx1 := demo_ctx <| state := SAFETY_STATE_EMERGENCY |> in
  let ctx2 := ctx1 <| last_heartbeat_ms := 1000 |> in
  fst (fst (safety_monitor_check ctx2 (demo_clock 1000) tt)) = SAFETY_STATE_EMERGENCY.
Proof.
  apply (emergency_latched demo_ctx (demo_ctx <| state := SAFETY_STATE_EMERGENCY |>) _ tt tt).
  - reflexivity.
  - reflexivity.
  - eapply rtc_once, (step_heartbeat _ (demo_clock 1000) tt). reflexivity.
Defined.

Definition demo_read (ms : Z) : time_source.state unit :=
  snd (fst (time_source.time_source_get_ms (demo_clock ms) tt)).

Lemma check_deadlines_witness :
  let '(_, ctx', _, _) := safety_monitor_heartbeat demo_ctx (demo_clock 1000) tt in
  fst (fst (safety_monitor_check ctx' (demo_clock 1501) tt)) = SAFETY_STATE_DEGRADED /\
  fst (fst (safety_monitor_check ctx' (demo_clock 999) tt)) = SAFETY_STATE_EMERGENCY.
Proof.
  pose proof (fun now => check_deadlines demo_ctx (demo_clock 1000) tt 1000 (demo_read 1000) tt
    (demo_clock now) tt now (demo_read now) tt eq_refl ltac:(discriminate) eq_refl
    ltac:(unfold is_u64; lia) eq_refl) as H.
  pose proof (H 1501 ltac:(unfold is_u64; lia)) as (_ & _ & _ & H1).
  pose proof (H 999 ltac:(unfold is_u64; lia)) as (_ & _ & _ & H2).
  split; [rewrite H1|rewrite H2]; reflexivity.
Defined.

Lemma missed_count_always_zero_witness :
  safety_monitor_get_missed_count (demo_ctx <| state := SAFETY_STATE_EMERGENCY |>) = 0.
Proof.
  apply (missed_count_always_zero (W := unit) zero_ctx (fun w => w) demo_ctx).
  - reflexivity.
  - eapply rtc_once, (step_trigger _ tt). reflexivity.
Defined.

End safety_monitor.
