(* ===== verification/FaultTree.v ===== *)
(** The fault tree (firmware/shared/fault_tree.c): which faults are active and
    the degradation level the system runs at. *)

From S2P Require Import Prelude.

Module fault_tree.

Definition FAULT_TREE_MAX_FAULTS : Z := 16.

Inductive FaultId_t :=
| FAULT_NONE
| FAULT_RADIO_LOST
| FAULT_CLOUD_UNREACHABLE
| FAULT_SENSOR_INVALID
| FAULT_ATTESTATION_FAILED
| FAULT_FLASH_WRITE_ERROR
| FAULT_CLOCK_DRIFT
| FAULT_MEMORY_LOW
| FAULT_RULE_ENGINE_STALL
| FAULT_COUNT.

#[export] Instance FaultId_eq_dec : EqDecision FaultId_t.
Proof. solve_decision. Defined.

Inductive DegradationLevel_t :=
| DEGRADE_LEVEL_NORMAL
| DEGRADE_LEVEL_REDUCED
| DEGRADE_LEVEL_LOCAL_ONLY
| DEGRADE_LEVEL_SAFE_MODE
| DEGRADE_LEVEL_EMERGENCY.

#[export] Instance DegradationLevel_eq_dec : EqDecision DegradationLevel_t.
Proof. solve_decision. Defined.

(** The integer an enumerator of [DegradationLevel_t] stands for. *)
Definition level_code (l : DegradationLevel_t) : Z :=
  match l with
  | DEGRADE_LEVEL_NORMAL => 0 | DEGRADE_LEVEL_REDUCED => 1 | DEGRADE_LEVEL_LOCAL_ONLY => 2
  | DEGRADE_LEVEL_SAFE_MODE => 3 | DEGRADE_LEVEL_EMERGENCY => 4
  end.

Definition level_of_code (c : Z) : DegradationLevel_t :=
  match c with
  | 0 => DEGRADE_LEVEL_NORMAL | 1 => DEGRADE_LEVEL_REDUCED | 2 => DEGRADE_LEVEL_LOCAL_ONLY
  | 3 => DEGRADE_LEVEL_SAFE_MODE | _ => DEGRADE_LEVEL_EMERGENCY
  end.

Record FaultState_t := mk_fault {
  fault_id : FaultId_t;
  current_level : DegradationLevel_t;
  since_ms : Z;
  count : Z;
  active : bool }.

#[export] Instance eta_fault : Eta FaultState_t := fun r =>
  mk_fault (fault_id r) (current_level r) (since_ms r) (count r) (active r).

Record FaultTreeContext_t := mk_ctx {
  faults : list FaultState_t;
  fault_count : Z;
  system_level : DegradationLevel_t;
  initialized : bool }.

#[export] Instance eta_ctx : Eta FaultTreeContext_t := fun r =>
  mk_ctx (faults r) (fault_count r) (system_level r) (initialized r).

Definition zero_fault : FaultState_t := mk_fault FAULT_NONE DEGRADE_LEVEL_NORMAL 0 0 false.

Definition zero_ctx : FaultTreeContext_t :=
  mk_ctx (replicate 16 zero_fault) 0 DEGRADE_LEVEL_NORMAL false.

(** One row per fault, one column per current level. *)
Definition degradation_row (f : FaultId_t) : list Z :=
  match f with
  | FAULT_NONE => [0; 0; 0; 0; 0]
  | FAULT_RADIO_LOST => [1; 2; 2; 3; 4]
  | FAULT_CLOUD_UNREACHABLE => [1; 2; 2; 3; 4]
  | FAULT_SENSOR_INVALID => [1; 2; 3; 3; 4]
  | FAULT_ATTESTATION_FAILED => [2; 3; 3; 3; 4]
  | FAULT_FLASH_WRITE_ERROR => [1; 1; 2; 3; 4]
  | FAULT_CLOCK_DRIFT => [1; 2; 2; 3; 4]
  | FAULT_MEMORY_LOW => [1; 2; 3; 4; 4]
  | FAULT_RULE_ENGINE_STALL => [3; 4; 4; 4; 4]
  | FAULT_COUNT => []
  end.

Definition s_degradation_matrix (f : FaultId_t) (l : DegradationLevel_t) : DegradationLevel_t :=
  level_of_code (nth (Z.to_nat (level_code l)) (degradation_row f) 0).

(** The loop body of [evaluate_system_level]. *)
Definition worse (m : DegradationLevel_t) (f : FaultState_t) : DegradationLevel_t :=
  if active f && (level_code m <? level_code (current_level f)) then current_level f else m.

Definition evaluate_system_level (ctx : FaultTreeContext_t) : DegradationLevel_t :=
  fold_left worse (used (fault_count ctx) (faults ctx)) DEGRADE_LEVEL_NORMAL.

Definition fault_tree_init (ctx : option FaultTreeContext_t) : bool * option FaultTreeContext_t :=
  match ctx with
  | None => (false, None)
  | Some _ => (true, Some (zero_ctx <| system_level := DEGRADE_LEVEL_NORMAL |> <| initialized := true |>))
  end.

Definition has_fault (id : FaultId_t) (f : FaultState_t) : bool := bool_decide (fault_id f = id).

(** The fields [fault_tree_report_fault] updates in the slot. *)
Definition bump (f : FaultState_t) (id : FaultId_t) (level : DegradationLevel_t) (timestamp : Z)
  : FaultState_t :=
  let f := f <| fault_id := id |> <| active := true |> <| count := u32 (count f + 1) |> in
  let new_level := s_degradation_matrix id level in
  let f := if level_code (current_level f) <? level_code new_level
           then f <| current_level := new_level |> else f in
  f <| since_ms := timestamp |>.

(** The operations take a context that is not NULL. *)
Definition fault_tree_report_fault (ctx : FaultTreeContext_t) (id : FaultId_t) (timestamp : Z)
  : DegradationLevel_t * FaultTreeContext_t :=
  if negb (initialized ctx) || bool_decide (id = FAULT_COUNT) then (DEGRADE_LEVEL_EMERGENCY, ctx)
  else
    let slot :=
      match find_index (has_fault id) (used (fault_count ctx) (faults ctx)) with
      | Some i => Some (i, fault_count ctx)
      | None =>
          if fault_count ctx <? FAULT_TREE_MAX_FAULTS
          then Some (Z.to_nat (fault_count ctx), fault_count ctx + 1) else None
      end in
    match slot with
    | None => (system_level ctx, ctx)
    | Some (i, n) =>
        let f := bump (nth i (faults ctx) zero_fault) id (system_level ctx) timestamp in
        let ctx := ctx <| fault_count := n |> <| faults := <[i := f]> (faults ctx) |> in
        let ctx := ctx <| system_level := evaluate_system_level ctx |> in
        (system_level ctx, ctx)
    end.

Definition fault_tree_clear_fault (ctx : FaultTreeContext_t) (id : FaultId_t)
  : DegradationLevel_t * FaultTreeContext_t :=
  if negb (initialized ctx) || bool_decide (id = FAULT_COUNT) then (DEGRADE_LEVEL_EMERGENCY, ctx)
  else
    let ctx :=
      match find_index (has_fault id) (used (fault_count ctx) (faults ctx)) with
      | Some i =>
          ctx <| faults := alter (fun f => f <| active := false |>
                                             <| current_level := DEGRADE_LEVEL_NORMAL |>)
                                 i (faults ctx) |>
      | None => ctx
      end in
    let ctx := ctx <| system_level := evaluate_system_level ctx |> in
    (system_level ctx, ctx).

Definition fault_tree_get_level (ctx : FaultTreeContext_t) : DegradationLevel_t :=
  if negb (initialized ctx) then DEGRADE_LEVEL_EMERGENCY else system_level ctx.

Definition fault_tree_is_fault_active (ctx : FaultTreeContext_t) (id : FaultId_t) : bool :=
  if negb (initialized ctx) || bool_decide (id = FAULT_COUNT) then false
  else existsb (fun f => has_fault id f && active f) (used (fault_count ctx) (faults ctx)).

Definition fault_tree_get_active_count (ctx : FaultTreeContext_t) : Z :=
  if negb (initialized ctx) then 0
  else Z.of_nat (length (List.filter active (used (fault_count ctx) (faults ctx)))).

(** ** The degradation level is the maximum of the active faults' levels *)

Lemma level_code_inj l1 l2 : level_code l1 = level_code l2 -> l1 = l2.
Proof. destruct l1, l2; cbn; congruence || lia. Qed.

Lemma has_fault_spec id f : has_fault id f = true <-> fault_id f = id.
Proof. apply bool_decide_eq_true. Qed.

Lemma worse_code m f :
  level_code (worse m f) = Z.max (level_code m) (if active f then level_code (current_level f) else 0).
Proof.
  unfold worse. destruct (active f); cbn [andb].
  - destruct (Z.ltb_spec (level_code m) (level_code (current_level f))); lia.
  - destruct m; cbn; lia.
Qed.

(** The contribution of one slot, and the maximum over a list. *)
Definition contrib (f : FaultState_t) : Z := if active f then level_code (current_level f) else 0.
Definition max_contrib (l : list FaultState_t) : Z := foldr Z.max 0 (contrib <$> l).

Lemma contrib_nonneg f : 0 <= contrib f.
Proof. unfold contrib. destruct (active f); [destruct (current_level f)|]; cbn; lia. Qed.

Lemma max_contrib_nonneg l : 0 <= max_contrib l.
Proof. induction l as [|f l IH]; cbn; [|unfold max_contrib in *]; lia. Qed.

Lemma fold_worse_code l m :
  level_code (fold_left worse l m) = Z.max (level_code m) (max_contrib l).
Proof.
  revert m. induction l as [|f l IH]; intros m; cbn [fold_left].
  - unfold max_contrib. cbn. destruct m; cbn; lia.
  - rewrite IH, worse_code. unfold max_contrib, contrib. cbn. lia.
Qed.

Lemma evaluate_code ctx :
  level_code (evaluate_system_level ctx) = max_contrib (used (fault_count ctx) (faults ctx)).
Proof.
  unfold evaluate_system_level. rewrite fold_worse_code. cbn.
  pose proof (max_contrib_nonneg (used (fault_count ctx) (faults ctx))). lia.
Qed.

Lemma max_contrib_app l1 l2 : max_contrib (l1 ++ l2) = Z.max (max_contrib l1) (max_contrib l2).
Proof.
  induction l1 as [|f l1 IH]; cbn.
  - pose proof (max_contrib_nonneg l2). unfold max_contrib in *. cbn. lia.
  - unfold max_contrib in *. cbn. rewrite IH. lia.
Qed.

(** Raising the contribution of one slot raises the maximum to it. *)
Lemma max_contrib_insert l i f g :
  l !! i = Some f -> contrib f <= contrib g ->
  max_contrib (<[i := g]> l) = Z.max (max_contrib l) (contrib g).
Proof.
  intros Hi Hle. rewrite <- (take_drop_middle l i f Hi) at 2.
  rewrite insert_take_drop by (eapply lookup_lt_Some, Hi).
  rewrite !max_contrib_app. unfold max_contrib. cbn. lia.
Qed.

(** ** The invariant *)

(** The table: the first [n] slots are in use, one per fault, and the rest are
    as [fault_tree_init] left them. *)
Record slots_wf (n : Z) (l : list FaultState_t) : Prop := {
  sl_size : length l = 16%nat;
  sl_count : 0 <= n <= FAULT_TREE_MAX_FAULTS;
  sl_unique : NoDup (fault_id <$> used n l);
  sl_ids : forall f, f ∈ used n l -> fault_id f <> FAULT_COUNT;
  sl_free : forall i, (Z.to_nat n <= i < 16)%nat -> l !! i = Some zero_fault;
  sl_inactive : forall f, f ∈ used n l -> active f = false -> current_level f = DEGRADE_LEVEL_NORMAL }.

Record wf (ctx : FaultTreeContext_t) : Prop := {
  wf_init : initialized ctx = true;
  wf_slots : slots_wf (fault_count ctx) (faults ctx);
  wf_level : system_level ctx = evaluate_system_level ctx }.

Lemma tree_init_wf ctx : wf (default zero_ctx (snd (fault_tree_init (Some ctx)))).
Proof.
  split; [reflexivity| |reflexivity].
  split; cbn; try reflexivity; try (unfold FAULT_TREE_MAX_FAULTS; lia); try constructor.
  - intros f Hf. apply elem_of_nil in Hf. tauto.
  - intros i Hi. apply (lookup_replicate_2 16 zero_fault i). lia.
  - intros f Hf. apply elem_of_nil in Hf. tauto.
Qed.

Definition all_faults : list FaultId_t :=
  [FAULT_NONE; FAULT_RADIO_LOST; FAULT_CLOUD_UNREACHABLE; FAULT_SENSOR_INVALID;
   FAULT_ATTESTATION_FAILED; FAULT_FLASH_WRITE_ERROR; FAULT_CLOCK_DRIFT; FAULT_MEMORY_LOW;
   FAULT_RULE_ENGINE_STALL].

Lemma slots_used_length n l : slots_wf n l -> length (used n l) = Z.to_nat n.
Proof.
  intros H. apply used_length. rewrite (sl_size _ _ H). pose proof (sl_count _ _ H).
  unfold FAULT_TREE_MAX_FAULTS in *. lia.
Qed.

(** Nine fault kinds never fill the sixteen slots. *)
Lemma slots_room n l : slots_wf n l -> n <= 9.
Proof.
  intros H. assert (length (fault_id <$> used n l) <= length all_faults)%nat as Hle.
  { apply submseteq_length, NoDup_submseteq; [apply H|].
    intros id (f & -> & Hf)%list_elem_of_fmap. apply (sl_ids _ _ H) in Hf. unfold all_faults.
    rewrite !elem_of_cons. destruct (fault_id f); tauto. }
  rewrite length_fmap, (slots_used_length n l H) in Hle. cbn in Hle. lia.
Qed.

Lemma slots_inplace n l i f g :
  slots_wf n l -> used n l !! i = Some f -> fault_id g = fault_id f ->
  (active g = false -> current_level g = DEGRADE_LEVEL_NORMAL) ->
  slots_wf n (<[i := g]> l) /\ used n (<[i := g]> l) = <[i := g]> (used n l).
Proof.
  intros H Hi Hid Hac. apply lookup_lt_Some in Hi as Hlt. rewrite (slots_used_length n l H) in Hlt.
  assert (used n (<[i := g]> l) = <[i := g]> (used n l)) as Hu by (apply used_store_inside; exact Hlt).
  split; [|exact Hu].
  assert (forall h, h ∈ used n (<[i := g]> l) -> h = g \/ h ∈ used n l) as Hin.
  { intros h Hh. rewrite Hu in Hh. apply list_elem_of_lookup in Hh as (j & Hj).
    apply list_lookup_insert_Some in Hj as [(_ & <- & _)|(_ & Hj)]; [auto|].
    right. eapply list_elem_of_lookup_2, Hj. }
  assert (f ∈ used n l) as Hf by (eapply list_elem_of_lookup_2, Hi).
  destruct H as [Hs Hc Hn Hids Hfree Hina]. split; auto.
  - rewrite length_insert. exact Hs.
  - rewrite Hu, list_fmap_insert, list_insert_id; [exact Hn|].
    rewrite list_lookup_fmap, Hi. cbn. congruence.
  - intros h Hh. destruct (Hin h Hh) as [->|Hh']; auto. rewrite Hid. auto.
  - intros j Hj. rewrite list_lookup_insert_ne by lia. auto.
  - intros h Hh. destruct (Hin h Hh) as [->|Hh']; auto.
Qed.

Lemma slots_append n l g :
  slots_wf n l -> find_index (has_fault (fault_id g)) (used n l) = None ->
  fault_id g <> FAULT_COUNT -> (active g = false -> current_level g = DEGRADE_LEVEL_NORMAL) ->
  slots_wf (n + 1) (<[Z.to_nat n := g]> l) /\
  used (n + 1) (<[Z.to_nat n := g]> l) = used n l ++ [g].
Proof.
  intros H Hnew Hid Hac. pose proof (slots_room n l H). destruct H as [Hs Hc Hn Hids Hfree Hina].
  assert (used (n + 1) (<[Z.to_nat n := g]> l) = used n l ++ [g]) as Hu
    by (apply (used_store_append n g l); lia).
  split; [|exact Hu].
  assert (forall h, h ∈ used (n + 1) (<[Z.to_nat n := g]> l) -> h = g \/ h ∈ used n l) as Hin.
  { intros h Hh. rewrite Hu in Hh. apply elem_of_app in Hh as [Hh|Hh%list_elem_of_singleton]; auto. }
  unfold FAULT_TREE_MAX_FAULTS in *. split; unfold FAULT_TREE_MAX_FAULTS; try lia.
  - rewrite length_insert. exact Hs.
  - pose proof (upsert_NoDup fault_id has_fault has_fault_spec _ _ g eq_refl Hn) as Hnd.
    unfold upsert in Hnd. rewrite Hnew in Hnd. rewrite Hu. exact Hnd.
  - intros h Hh. destruct (Hin h Hh) as [->|Hh']; auto.
  - intros j Hj. rewrite list_lookup_insert_ne by lia. apply Hfree. lia.
  - intros h Hh. destruct (Hin h Hh) as [->|Hh']; auto.
Qed.

(** The level an id contributes, 0 if it is not active. *)
Definition level_of (ctx : FaultTreeContext_t) (id : FaultId_t) : Z :=
  match keyed_lookup has_fault id (used (fault_count ctx) (faults ctx)) with
  | Some f => contrib f
  | None => 0
  end.

Lemma bump_contrib f id level ts :
  (active f = false -> current_level f = DEGRADE_LEVEL_NORMAL) ->
  contrib (bump f id level ts) = Z.max (contrib f) (level_code (s_degradation_matrix id level)).
Proof.
  intros Hf. unfold bump, contrib. cbn.
  destruct (Z.ltb_spec (level_code (current_level f)) (level_code (s_degradation_matrix id level))); cbn;
  (destruct (active f); [lia|rewrite Hf in * by reflexivity; cbn in *; lia]).
Qed.

Lemma bump_id f id level ts : fault_id (bump f id level ts) = id /\ active (bump f id level ts) = true.
Proof. unfold bump. case_match; auto. Qed.

Lemma used_fault n l i f : used n l !! i = Some f -> nth i l zero_fault = f.
Proof.
  unfold used. intros H. apply nth_lookup_Some. rewrite <- H. symmetry. apply lookup_take_lt.
  apply lookup_lt_Some in H. rewrite length_take in H. lia.
Qed.

(** Reporting writes one slot of the used part: in place or at its end. *)
Lemma report_upsert ctx id ts :
  wf ctx -> id <> FAULT_COUNT ->
  exists f', let ctx' := snd (fault_tree_report_fault ctx id ts) in
    fault_tree_report_fault ctx id ts = (system_level ctx', ctx') /\ wf ctx' /\
    fault_id f' = id /\
    contrib f' = Z.max (level_of ctx id) (level_code (s_degradation_matrix id (system_level ctx))) /\
    used (fault_count ctx') (faults ctx') =
      upsert has_fault id f' (used (fault_count ctx) (faults ctx)) /\
    max_contrib (used (fault_count ctx') (faults ctx')) =
      Z.max (max_contrib (used (fault_count ctx) (faults ctx))) (contrib f').
Proof.
  intros [Hi Hsl Hl] Hid. pose proof (slots_room _ _ Hsl) as Hroom.
  unfold fault_tree_report_fault, FAULT_TREE_MAX_FAULTS.
  rewrite Hi, bool_decide_eq_false_2 by exact Hid. cbn [negb orb].
  unfold level_of, keyed_lookup, find_first, upsert.
  destruct (find_index (has_fault id) (used (fault_count ctx) (faults ctx))) as [i|] eqn:Hf.
  - pose proof (find_index_lookup _ _ _ Hf) as (f & Hfl & Hfi). apply has_fault_spec in Hfi.
    assert (active f = false -> current_level f = DEGRADE_LEVEL_NORMAL) as Hfin.
    { apply (sl_inactive _ _ Hsl). eapply list_elem_of_lookup_2, Hfl. }
    rewrite (used_fault _ _ _ _ Hfl). cbn [mbind option_bind]. rewrite Hfl.
    destruct (bump_id f id (system_level ctx) ts) as [Eid Eac].
    pose proof (bump_contrib f id (system_level ctx) ts Hfin) as Hb.
    destruct (slots_inplace _ _ i f (bump f id (system_level ctx) ts) Hsl Hfl) as [Hsl' Hu'];
      [congruence|congruence|].
    exists (bump f id (system_level ctx) ts). cbn. rewrite Hu'.
    split_and!; [reflexivity|split; auto|exact Eid|exact Hb|reflexivity|].
    apply (max_contrib_insert _ _ f); [exact Hfl|lia].
  - destruct (Z.ltb_spec (fault_count ctx) 16); [|lia].
    rewrite (nth_lookup_Some _ _ _ _ (sl_free _ _ Hsl (Z.to_nat (fault_count ctx)) ltac:(lia))).
    destruct (bump_id zero_fault id (system_level ctx) ts) as [Eid Eac].
    pose proof (bump_contrib zero_fault id (system_level ctx) ts ltac:(reflexivity)) as Hb.
    destruct (slots_append _ _ (bump zero_fault id (system_level ctx) ts) Hsl) as [Hsl' Hu'];
      [rewrite Eid; exact Hf|congruence|congruence|].
    exists (bump zero_fault id (system_level ctx) ts). cbn. rewrite Hu'.
    split_and!; [reflexivity|split; auto|exact Eid|exact Hb|reflexivity|].
    rewrite max_contrib_app. unfold max_contrib at 2.
    cbn [fmap list_fmap foldr]. pose proof (contrib_nonneg (bump zero_fault id (system_level ctx) ts)). lia.
Qed.

(** Clearing an active fault takes its contribution away. *)
Lemma clear_effect ctx id :
  wf ctx -> id <> FAULT_COUNT ->
  let ctx' := snd (fault_tree_clear_fault ctx id) in
  fault_tree_clear_fault ctx id = (system_level ctx', ctx') /\ wf ctx' /\
  forall id', level_of ctx' id' = if decide (id' = id) then 0 else level_of ctx id'.
Proof.
  intros [Hi Hsl Hl] Hid. unfold fault_tree_clear_fault.
  rewrite Hi, bool_decide_eq_false_2 by exact Hid. cbn [negb orb].
  destruct (find_index (has_fault id) (used (fault_count ctx) (faults ctx))) as [i|] eqn:Hf; cbn.
  - pose proof (find_index_lookup _ _ _ Hf) as (f & Hfl & Hfi). apply has_fault_spec in Hfi.
    set (g := f <| active := false |> <| current_level := DEGRADE_LEVEL_NORMAL |>).
    destruct (slots_inplace _ _ i f g Hsl Hfl eq_refl ltac:(reflexivity)) as [Hsl' Hu'].
    assert (faults ctx !! i = Some f) as Hff.
    { unfold used in Hfl. apply lookup_take_Some in Hfl. tauto. }
    rewrite (alter_lookup _ _ i f Hff). fold g.
    split; [reflexivity|]. split; [split; auto|]. intros id'. unfold level_of. cbn. rewrite Hu'.
    rewrite (keyed_lookup_update fault_id has_fault has_fault_spec)
      by (change (fault_id g) with (fault_id f); rewrite Hfi; exact Hf).
    unfold has_fault at 1. change (fault_id g) with (fault_id f). rewrite Hfi.
    destruct (decide (id' = id)) as [->|Hne].
    + rewrite bool_decide_eq_true_2 by reflexivity. reflexivity.
    + rewrite bool_decide_eq_false_2 by congruence. reflexivity.
  - split; [reflexivity|]. split; [split; auto|]. intros id'. unfold level_of. cbn. destruct (decide (id' = id)) as [->|]; [|reflexivity].
    rewrite (find_index_lookup_None has_fault id) by exact Hf. reflexivity.
Qed.

(** ** Properties *)

(** The faults with a level, of which the system level is the maximum. *)
Lemma max_contrib_attained l :
  max_contrib l = 0 \/ exists f, f ∈ l /\ contrib f = max_contrib l.
Proof.
  induction l as [|f l IH]; [left; reflexivity|]. unfold max_contrib. cbn. fold (max_contrib l).
  destruct (Z_le_gt_dec (max_contrib l) (contrib f)) as [Hle|Hgt].
  - right. exists f. split; [left|lia].
  - destruct IH as [IH|(g & Hg & E)]; [pose proof (contrib_nonneg f); lia|].
    right. exists g. split; [right; exact Hg|lia].
Qed.

Lemma max_contrib_ge l f : f ∈ l -> contrib f <= max_contrib l.
Proof.
  induction l as [|g l IH]; intros Hin; [apply elem_of_nil in Hin; tauto|].
  unfold max_contrib. cbn. fold (max_contrib l).
  apply elem_of_cons in Hin as [->|Hin]; [|apply IH in Hin]; lia.
Qed.

Lemma level_of_elem ctx f :
  wf ctx -> f ∈ used (fault_count ctx) (faults ctx) -> level_of ctx (fault_id f) = contrib f.
Proof.
  intros [_ Hsl _] Hf. unfold level_of.
  rewrite (keyed_lookup_elem fault_id has_fault has_fault_spec _ _ f (sl_unique _ _ Hsl) Hf eq_refl).
  reflexivity.
Qed.

(** The system level is the least upper bound of the faults' levels. *)
Lemma system_level_is_max ctx :
  wf ctx ->
  (forall id, level_of ctx id <= level_code (system_level ctx)) /\
  (level_code (system_level ctx) = 0 \/ exists id, level_of ctx id = level_code (system_level ctx)).
Proof.
  intros Hwf. rewrite (wf_level _ Hwf), evaluate_code. split.
  - intros id. unfold level_of.
    destruct (keyed_lookup has_fault id _) as [f|] eqn:Hf; [|apply max_contrib_nonneg].
    apply max_contrib_ge. eapply (keyed_lookup_Some fault_id has_fault has_fault_spec), Hf.
  - destruct (max_contrib_attained (used (fault_count ctx) (faults ctx))) as [E|(f & Hf & E)]; [auto|].
    right. exists (fault_id f). rewrite level_of_elem by assumption. exact E.
Qed.

(** Reporting a fault never improves the system: the fault takes the worse
    of its level and its matrix entry at the current system level, the system
    takes the worse of its level and the fault's, every other fault keeps its
    level, and there is always a slot for the report. *)
Theorem report_degrades ctx id ts :
  wf ctx -> id <> FAULT_COUNT ->
  let '(level, ctx') := fault_tree_report_fault ctx id ts in
  let fault_level := Z.max (level_of ctx id)
                       (level_code (s_degradation_matrix id (system_level ctx))) in
  wf ctx' /\ level = system_level ctx' /\
  level_of ctx' id = fault_level /\
  level_code level = Z.max (level_code (system_level ctx)) fault_level /\
  forall id', id' <> id -> level_of ctx' id' = level_of ctx id'.
Proof.
  intros Hwf Hid. destruct (report_upsert ctx id ts Hwf Hid) as (f' & Hr & Hwf' & Eid & Ec & Hu & Hm).
  cbv zeta in *. destruct (fault_tree_report_fault ctx id ts) as [level ctx']. cbn [snd] in *.
  injection Hr as ->. split; [exact Hwf'|]. split; [reflexivity|].
  assert (forall id', level_of ctx' id' = if decide (id' = id) then contrib f' else level_of ctx id') as Hlev.
  { intros id'. unfold level_of. rewrite Hu. rewrite <- Eid at 1.
    rewrite (upsert_lookup fault_id has_fault has_fault_spec). unfold has_fault at 1. rewrite Eid.
    destruct (decide (id' = id)) as [->|]; [rewrite bool_decide_eq_true_2|rewrite bool_decide_eq_false_2];
      congruence. }
  rewrite Hlev, decide_True by reflexivity. split; [exact Ec|]. split.
  - rewrite (wf_level _ Hwf'), (wf_level _ Hwf), !evaluate_code, Hm, Ec, <- evaluate_code.
    rewrite <- (wf_level _ Hwf). reflexivity.
  - intros id' Hne. rewrite Hlev, decide_False by exact Hne. reflexivity.
Qed.

(** Clearing a fault removes exactly its contribution: the system level
    becomes the maximum over the remaining faults, so it can drop while other
    faults stay active, and it is NORMAL once no fault contributes. *)
Theorem clear_recovers ctx id :
  wf ctx -> id <> FAULT_COUNT ->
  let '(level, ctx') := fault_tree_clear_fault ctx id in
  wf ctx' /\
  (forall id', level_of ctx' id' = if decide (id' = id) then 0 else level_of ctx id') /\
  (forall id', id' <> id -> level_of ctx id' <= level_code level) /\
  (level_code level = 0 \/ exists id', id' <> id /\ level_of ctx id' = level_code level) /\
  ((forall id', id' <> id -> level_of ctx id' = 0) -> level = DEGRADE_LEVEL_NORMAL).
Proof.
  intros Hwf Hid. destruct (clear_effect ctx id Hwf Hid) as (Hr & Hwf' & Hlev).
  cbv zeta in *. destruct (fault_tree_clear_fault ctx id) as [level ctx']. cbn [snd] in *.
  injection Hr as ->. destruct (system_level_is_max ctx' Hwf') as [Hub Hat].
  split; [exact Hwf'|]. split; [exact Hlev|]. split.
  { intros id' Hne. specialize (Hub id'). rewrite Hlev, decide_False in Hub by exact Hne. exact Hub. }
  assert (level_code (system_level ctx') = 0 \/
          exists id', id' <> id /\ level_of ctx id' = level_code (system_level ctx')) as Hex.
  { destruct Hat as [E|(id' & E)]; [auto|]. rewrite Hlev in E.
    destruct (decide (id' = id)); [left; congruence|right; eauto]. }
  split; [exact Hex|]. intros Hall. apply level_code_inj. cbn.
  destruct Hex as [E|(id' & Hne & E)]; [exact E|]. rewrite <- E. auto.
Qed.

(** ** The theorems on a concrete tree *)

Definition demo_ctx : FaultTreeContext_t := default zero_ctx (snd (fault_tree_init (Some zero_ctx))).

Lemma report_degrades_witness :
  level_code (fst (fault_tree_report_fault demo_ctx FAULT_RULE_ENGINE_STALL 10)) = 3.
Proof.
  pose proof (report_degrades demo_ctx FAULT_RULE_ENGINE_STALL 10 (tree_init_wf zero_ctx)
                ltac:(discriminate)) as H.
  destruct (fault_tree_report_fault _ _ _) as [level ctx']. destruct H as (_ & _ & _ & H & _).
  cbn [fst]. rewrite H. reflexivity.
Defined.

Lemma clear_recovers_witness :
  let ctx := snd (fault_tree_report_fault demo_ctx FAULT_FLASH_WRITE_ERROR 1) in
  fst (fault_tree_clear_fault ctx FAULT_FLASH_WRITE_ERROR) = DEGRADE_LEVEL_NORMAL.
Proof.
  cbn zeta.
  pose proof (clear_recovers (snd (fault_tree_report_fault demo_ctx FAULT_FLASH_WRITE_ERROR 1))
                FAULT_FLASH_WRITE_ERROR) as H.
  destruct (report_upsert demo_ctx FAULT_FLASH_WRITE_ERROR 1 (tree_init_wf zero_ctx) ltac:(discriminate))
    as (_ & _ & Hwf & _).
  specialize (H Hwf ltac:(discriminate)).
  destruct (fault_tree_clear_fault _ _) as [level ctx'] eqn:E. cbn [fst].
  destruct H as (_ & _ & _ & _ & H). apply H. intros id' Hne. destruct id'; congruence || reflexivity.
Defined.

End fault_tree.
