(* ===== verification/DeviceIdentity.v ===== *)
(** The device identity (firmware/shared/device_identity.c): provisioned once,
    with a confirmed and a pending firmware version. *)

From S2P Require Import Prelude.

Module device_identity.

Definition DEVICE_UUID_SIZE : nat := 16.
Definition DEVICE_ID_NO_VERSION : Z := 0.

(** [DomainProfileId_t]; an unprovisioned device reports the value 0, which is
    not an enumerator, so the type is kept as the integer it is. *)
Definition DomainProfileId_t : Type := Z.
Definition DOMAIN_PROFILE_HOME : DomainProfileId_t := 1.
Definition DOMAIN_PROFILE_AGRICULTURE : DomainProfileId_t := 2.
Definition DOMAIN_PROFILE_HVAC : DomainProfileId_t := 3.
Definition DOMAIN_PROFILE_WATER_TREATMENT : DomainProfileId_t := 4.

Record DeviceIdentity_t := mk_identity {
  device_uuid : list Z;
  domain_profile_id : DomainProfileId_t;
  hw_variant_id : Z;
  fw_version : Z }.

#[export] Instance eta_identity : Eta DeviceIdentity_t := fun r =>
  mk_identity (device_uuid r) (domain_profile_id r) (hw_variant_id r) (fw_version r).

Inductive DeviceIdentityResult_t :=
| DEVICE_ID_OK
| DEVICE_ID_ERR_ALREADY_PROVISIONED
| DEVICE_ID_ERR_NOT_PROVISIONED
| DEVICE_ID_ERR_PARAM_NULL.

#[export] Instance DeviceIdentityResult_eq_dec : EqDecision DeviceIdentityResult_t.
Proof. solve_decision. Defined.

(** The storage callbacks; [load] gets what its out-pointers hold and returns
    what it leaves there. *)
Record DeviceIdentityStorage_t (W : Type) := mk_storage {
  save : option (DeviceIdentity_t -> bool -> Z -> W -> bool * W);
  load : option (DeviceIdentity_t -> bool -> Z -> W -> bool * (DeviceIdentity_t * bool * Z) * W) }.
Arguments mk_storage {W}. Arguments save {W} _. Arguments load {W} _.

Record state (W : Type) := mk_state {
  s_identity : DeviceIdentity_t;
  s_provisioned : bool;
  s_initialised : bool;
  s_fw_version_pending : Z;
  s_storage : option (DeviceIdentityStorage_t W) }.
Arguments mk_state {W}. Arguments s_identity {W}. Arguments s_provisioned {W}.
Arguments s_initialised {W}. Arguments s_fw_version_pending {W}. Arguments s_storage {W}.

#[export] Instance eta_state W : Eta (state W) := fun r =>
  mk_state (s_identity r) (s_provisioned r) (s_initialised r) (s_fw_version_pending r) (s_storage r).

Definition zero_identity : DeviceIdentity_t := mk_identity (zeros 16) 0 0 0.

Section device.
Context {W : Type}.
Implicit Types (st : state W) (w : W).

Definition initial : state W := mk_state zero_identity false false DEVICE_ID_NO_VERSION None.

Definition identity_persist st w : W :=
  match s_storage st ≫= save with
  | Some f => snd (f (s_identity st) (s_provisioned st) (s_fw_version_pending st) w)
  | None => w
  end.

Definition device_identity_set_storage st (storage : option (DeviceIdentityStorage_t W)) : state W :=
  st <| s_storage := storage |>.

Definition device_identity_init st w : bool * state W * W :=
  let st := st <| s_identity := zero_identity |> <| s_provisioned := false |>
               <| s_fw_version_pending := DEVICE_ID_NO_VERSION |> in
  match s_storage st ≫= load with
  | Some f =>
      let '(ok, (loaded, provisioned, pending), w) := f (s_identity st) false DEVICE_ID_NO_VERSION w in
      let st := st <| s_identity := loaded |> in
      if ok : bool then
        let st := st <| s_provisioned := provisioned |> in
        if negb (pending =? DEVICE_ID_NO_VERSION) then
          let st := st <| s_fw_version_pending := DEVICE_ID_NO_VERSION |> in
          (true, st <| s_initialised := true |>, identity_persist st w)
        else (true, st <| s_initialised := true |>, w)
      else (true, st <| s_initialised := true |>, w)
  | None => (true, st <| s_initialised := true |>, w)
  end.

Definition device_identity_set st w (identity : option DeviceIdentity_t)
  : DeviceIdentityResult_t * state W * W :=
  if negb (s_initialised st) then (DEVICE_ID_ERR_NOT_PROVISIONED, st, w)
  else
    match identity with
    | None => (DEVICE_ID_ERR_PARAM_NULL, st, w)
    | Some id =>
        if s_provisioned st then (DEVICE_ID_ERR_ALREADY_PROVISIONED, st, w)
        else
          let st := st <| s_identity := id |> <| s_provisioned := true |> in
          (DEVICE_ID_OK, st, identity_persist st w)
    end.

(** The identity copied to the caller's buffer; [out] says whether there is one. *)
Definition device_identity_get st (out : bool) : DeviceIdentityResult_t * option DeviceIdentity_t :=
  if negb out then (DEVICE_ID_ERR_PARAM_NULL, None)
  else if negb (s_initialised st) then (DEVICE_ID_ERR_NOT_PROVISIONED, None)
  else if negb (s_provisioned st) then (DEVICE_ID_ERR_NOT_PROVISIONED, None)
  else (DEVICE_ID_OK, Some (s_identity st)).

Definition ready st : bool := s_initialised st && s_provisioned st.

Definition device_identity_get_domain st : DomainProfileId_t :=
  if negb (ready st) then 0 else domain_profile_id (s_identity st).

Definition device_identity_get_hw_variant st : Z :=
  if negb (ready st) then 0 else hw_variant_id (s_identity st).

Definition device_identity_get_fw_version st : Z :=
  if negb (ready st) then 0 else fw_version (s_identity st).

Definition device_identity_set_pending_version st w (new_version : Z)
  : DeviceIdentityResult_t * state W * W :=
  if negb (s_initialised st) then (DEVICE_ID_ERR_NOT_PROVISIONED, st, w)
  else if negb (s_provisioned st) then (DEVICE_ID_ERR_NOT_PROVISIONED, st, w)
  else
    let st := st <| s_fw_version_pending := new_version |> in
    (DEVICE_ID_OK, st, identity_persist st w).

Definition device_identity_confirm_boot st w : DeviceIdentityResult_t * state W * W :=
  if negb (s_initialised st) then (DEVICE_ID_ERR_NOT_PROVISIONED, st, w)
  else if negb (s_provisioned st) then (DEVICE_ID_ERR_NOT_PROVISIONED, st, w)
  else if s_fw_version_pending st =? DEVICE_ID_NO_VERSION then (DEVICE_ID_OK, st, w)
  else
    let st := st <| s_identity := (s_identity st) <| fw_version := s_fw_version_pending st |> |>
                 <| s_fw_version_pending := DEVICE_ID_NO_VERSION |> in
    (DEVICE_ID_OK, st, identity_persist st w).

Definition device_identity_get_pending_version st : Z :=
  if negb (ready st) then DEVICE_ID_NO_VERSION else s_fw_version_pending st.

Definition device_identity_has_pending_version st : bool :=
  s_initialised st && s_provisioned st && negb (s_fw_version_pending st =? DEVICE_ID_NO_VERSION).

Definition device_identity_is_provisioned st : bool := s_initialised st && s_provisioned st.

End device.

(** ** A storage that keeps what was saved *)

(** What the storage interface promises its client: after a save, a load gives
    the saved record back. *)
Class StorageOk {W} (s : DeviceIdentityStorage_t W) (saved : W -> option (DeviceIdentity_t * bool * Z)) := {
  storage_save : exists f, save s = Some f /\
    forall id p v w, saved (snd (f id p v w)) = Some (id, p, v);
  storage_load : exists f, load s = Some f /\
    forall id p v w, f id p v w =
      match saved w with Some r => (true, r, w) | None => (false, (id, p, v), w) end }.

(** One record of non-volatile memory. *)
Definition nvm : Type := option (DeviceIdentity_t * bool * Z).

Definition nvm_storage : DeviceIdentityStorage_t nvm := mk_storage
  (Some (fun id p v _ => (true, Some (id, p, v))))
  (Some (fun id p v w => match w with Some r => (true, r, w) | None => (false, (id, p, v), w) end)).

#[export] Instance nvm_storage_ok : StorageOk nvm_storage (fun w => w).
Proof. split; eexists; (split; [reflexivity|]); reflexivity. Qed.

Section properties.
Context {W : Type} (storage : DeviceIdentityStorage_t W)
        (saved : W -> option (DeviceIdentity_t * bool * Z)) `{!StorageOk storage saved}.
Implicit Types (st : state W) (w : W).

(** Memory and storage agree, as they do after every operation that persists. *)
Definition synced st w : Prop :=
  s_storage st = Some storage /\
  saved w = Some (s_identity st, s_provisioned st, s_fw_version_pending st).

Lemma persist_synced st w : s_storage st = Some storage -> synced st (identity_persist st w).
Proof.
  intros Hs. destruct storage_save as (f & Hf & Hsave).
  unfold identity_persist. rewrite Hs. cbn. rewrite Hf. split; [exact Hs|]. apply Hsave.
Qed.

(** What a reboot restores. *)
Lemma reboot_restores st w st0 :
  synced st w -> s_storage st0 = Some storage ->
  let '(ok, st', w') := device_identity_init st0 w in
  ok = true /\ s_initialised st' = true /\ s_identity st' = s_identity st /\
  s_provisioned st' = s_provisioned st /\ s_fw_version_pending st' = DEVICE_ID_NO_VERSION /\
  synced st' w'.
Proof.
  intros [Hs Hsv] H0. destruct storage_load as (f & Hf & Hload).
  unfold device_identity_init. cbn [s_storage set_field]. rewrite H0. cbn. rewrite Hf, Hload, Hsv.
  destruct (Z.eqb_spec (s_fw_version_pending st) DEVICE_ID_NO_VERSION) as [E|Hne]; cbn.
  - repeat split; cbn; auto. rewrite Hsv, E. reflexivity.
  - repeat (split; [reflexivity|]). split; [exact H0|].
    match goal with |- saved (identity_persist ?s w) = _ => exact (proj2 (persist_synced s w H0)) end.
Qed.

(** The identity is provisioned once: with a storage that keeps what it is
    given, a reboot reads back exactly the stored identity, and a second
    provisioning is refused before and after the reboot. *)
Theorem provisioned_once st w st0 other :
  synced st w -> s_initialised st = true -> s_provisioned st = true -> s_storage st0 = Some storage ->
  fst (fst (device_identity_set st w (Some other))) = DEVICE_ID_ERR_ALREADY_PROVISIONED /\
  let '(_, st1, w1) := device_identity_init st0 w in
  device_identity_get st1 true = (DEVICE_ID_OK, Some (s_identity st)) /\
  fst (fst (device_identity_set st1 w1 (Some other))) = DEVICE_ID_ERR_ALREADY_PROVISIONED.
Proof.
  intros Hsy Hi Hp H0. split.
  { unfold device_identity_set. rewrite Hi, Hp. reflexivity. }
  pose proof (reboot_restores st w st0 Hsy H0) as Hr.
  destruct (device_identity_init st0 w) as [[ok st1] w1].
  destruct Hr as (_ & Hi1 & Hid1 & Hp1 & _). rewrite Hp in Hp1.
  unfold device_identity_get, device_identity_set. rewrite Hi1, Hp1, Hid1. auto.
Qed.

(** Confirm before commit: a pending version that is confirmed before the
    next reboot becomes the firmware version and survives the reboot; one that
    is not confirmed is dropped by the reboot and the old version stays. *)
Theorem pending_version_lifecycle st w st0 v (confirm : bool) :
  s_storage st = Some storage -> s_initialised st = true -> s_provisioned st = true ->
  v <> DEVICE_ID_NO_VERSION -> s_storage st0 = Some storage ->
  let '(_, st1, w1) := device_identity_set_pending_version st w v in
  let '(st2, w2) := if confirm then let '(_, s, w) := device_identity_confirm_boot st1 w1 in (s, w)
                    else (st1, w1) in
  let '(_, st3, _) := device_identity_init st0 w2 in
  device_identity_has_pending_version st1 = true /\
  device_identity_has_pending_version st3 = false /\
  device_identity_get_fw_version st3 = if confirm then v else device_identity_get_fw_version st.
Proof.
  intros Hs Hi Hp Hv H0. unfold device_identity_set_pending_version. rewrite Hi, Hp. cbn [negb].
  set (st1 := st <| s_fw_version_pending := v |>).
  assert (synced st1 (identity_persist st1 w)) as Hsy1 by (apply persist_synced; exact Hs).
  assert (exists st2 w2, (if confirm then let '(_, s, w) := device_identity_confirm_boot st1 (identity_persist st1 w) in (s, w)
                    else (st1, identity_persist st1 w)) = (st2, w2) /\ synced st2 w2 /\
          s_provisioned st2 = true /\
          fw_version (s_identity st2) = if confirm then v else fw_version (s_identity st)) as (st2 & w2 & -> & Hsy2 & Hp2 & Hfw).
  { destruct confirm; [|eexists _, _; repeat split; [apply Hs|apply Hsy1|exact Hp]].
    unfold device_identity_confirm_boot. cbn [s_initialised s_provisioned s_fw_version_pending set_field st1].
    rewrite Hi, Hp. cbn [negb]. destruct (Z.eqb_spec v DEVICE_ID_NO_VERSION); [congruence|].
    eexists _, _. split; [reflexivity|]. split; [apply persist_synced; exact Hs|]. split; [exact Hp|reflexivity]. }
  pose proof (reboot_restores st2 w2 st0 Hsy2 H0) as Hr.
  destruct (device_identity_init st0 w2) as [[ok st3] w3].
  destruct Hr as (_ & Hi3 & Hid3 & Hp3 & Hpd3 & _).
  unfold device_identity_has_pending_version, device_identity_get_fw_version, ready.
  rewrite Hpd3, Hi3, Hp3, Hp2, Hid3, Hfw. cbn [s_initialised s_provisioned s_fw_version_pending set_field st1].
  rewrite Hi, Hp. cbn. destruct (Z.eqb_spec v DEVICE_ID_NO_VERSION); [congruence|].
  destruct confirm; auto.
Qed.

End properties.

(** ** The theorems on a concrete device *)

Definition demo_identity : DeviceIdentity_t := mk_identity (zeros 16) DOMAIN_PROFILE_HVAC 2 7.

Definition demo_state : state nvm :=
  mk_state demo_identity true true DEVICE_ID_NO_VERSION (Some nvm_storage).

Definition demo_boot : state nvm := device_identity_set_storage initial (Some nvm_storage).

Lemma provisioned_once_witness :
  fst (fst (device_identity_set demo_state (Some (demo_identity, true, 0)) (Some zero_identity)))
  = DEVICE_ID_ERR_ALREADY_PROVISIONED.
Proof.
  apply (provisioned_once nvm_storage (fun w => w) demo_state (Some (demo_identity, true, 0)) demo_boot).
  - split; reflexivity.
  - reflexivity.
  - reflexivity.
  - reflexivity.
Defined.

Lemma pending_version_lifecycle_witness :
  let '(_, st1, w1) := device_identity_set_pending_version demo_state None 8 in
  let '(_, st2, w2) := device_identity_confirm_boot st1 w1 in
  let '(_, st3, _) := device_identity_init demo_boot w2 in
  device_identity_get_fw_version st3 = 8.
Proof.
  apply (pending_version_lifecycle nvm_storage (fun w => w) demo_state None demo_boot 8 true).
  - reflexivity.
  - reflexivity.
  - reflexivity.
  - discriminate.
  - reflexivity.
Defined.

End device_identity.
