(* ===== verification/OtaCanary.v ===== *)
(** Staged update rollout (firmware/shared/ota_canary.c): one group per domain
    and hardware variant, the deterministic choice of the devices of the first
    wave, and the error rate that stops a rollout. *)

From stdpp Require Import gmap.
From S2P Require Import Prelude DeviceIdentity.
Import device_identity(DomainProfileId_t).

Module ota_canary.

Definition OTA_CANARY_MAX_GROUPS : nat := 16.

Record OtaCanaryGroup_t := mk_group {
  domain_profile_id : DomainProfileId_t;
  hw_variant_id : Z;
  canary_percentage : Z;
  devices_in_canary : Z;
  devices_pending : Z;
  devices_rolled_out : Z;
  error_rate_threshold : Z;
  error_count : Z;
  total_attempts : Z;
  rollback_triggered : bool;
  active : bool }.

#[export] Instance eta_group : Eta OtaCanaryGroup_t := fun r =>
  mk_group (domain_profile_id r) (hw_variant_id r) (canary_percentage r) (devices_in_canary r)
    (devices_pending r) (devices_rolled_out r) (error_rate_threshold r) (error_count r)
    (total_attempts r) (rollback_triggered r) (active r).

Inductive OtaCanaryResult_t :=
| OTA_CANARY_OK
| OTA_CANARY_ERR_GROUP_NOT_FOUND
| OTA_CANARY_ERR_GROUP_FULL
| OTA_CANARY_ERR_PARAM_NULL
| OTA_CANARY_ERR_NOT_ACTIVE.

#[export] Instance OtaCanaryResult_eq_dec : EqDecision OtaCanaryResult_t.
Proof. solve_decision. Defined.

Definition zero_group : OtaCanaryGroup_t := mk_group 0 0 0 0 0 0 0 0 0 false false.

Record state := mk_state {
  s_groups : list OtaCanaryGroup_t;
  s_initialised : bool }.

#[export] Instance eta_state : Eta state := fun r => mk_state (s_groups r) (s_initialised r).

Definition initial : state := mk_state (replicate OTA_CANARY_MAX_GROUPS zero_group) false.

(** ** Operations *)

Definition fnv1a_hash (data : list Z) : Z :=
  fold_left (fun hash b => u32 (Z.lxor hash b * 16777619)) data 2166136261.

Definition ota_canary_init (st : state) : bool * state :=
  (true, st <| s_groups := replicate OTA_CANARY_MAX_GROUPS zero_group |> <| s_initialised := true |>).

(** The test of the scans for a group. *)
Definition is_group (dv : Z * Z) (g : OtaCanaryGroup_t) : bool :=
  active g && (domain_profile_id g =? dv.1) && (hw_variant_id g =? dv.2).

(** A group pointer is an index of [s_groups]; [out] says whether the caller
    passes the address for it. *)
Definition ota_canary_create_group (st : state) (domain variant percentage threshold : Z) (out : bool)
  : OtaCanaryResult_t * option nat * state :=
  if negb (s_initialised st) then (OTA_CANARY_ERR_PARAM_NULL, None, st)
  else if negb out then (OTA_CANARY_ERR_PARAM_NULL, None, st)
  else
    let percentage := if 100 <? percentage then 100 else percentage in
    match find_index (is_group (domain, variant)) (s_groups st) with
    | Some i => (OTA_CANARY_OK, Some i, st)
    | None =>
        match find_index (fun g => negb (active g)) (s_groups st) with
        | Some i =>
            let g := zero_group <| domain_profile_id := domain |> <| hw_variant_id := variant |>
                       <| canary_percentage := percentage |> <| error_rate_threshold := threshold |>
                       <| active := true |> in
            (OTA_CANARY_OK, Some i, st <| s_groups := <[i := g]> (s_groups st) |>)
        | None => (OTA_CANARY_ERR_GROUP_FULL, None, st)
        end
    end.

Definition ota_canary_hash_bucket (data : option (list Z)) : Z :=
  match data with
  | Some ((_ :: _) as d) => u8 (fnv1a_hash d mod 100)
  | _ => 0
  end.

Definition ota_canary_is_in_canary (device_uuid : option (list Z)) (group : option OtaCanaryGroup_t) : bool :=
  match device_uuid, group with
  | Some uuid, Some g =>
      if negb (active g) then false
      else if canary_percentage g =? 0 then false
      else if 100 <=? canary_percentage g then true
      else
        let hash_input := take 16 uuid ++ [u8 (domain_profile_id g); hw_variant_id g] in
        ota_canary_hash_bucket (Some hash_input) <? canary_percentage g
  | _, _ => false
  end.

(** What [ota_canary_record_attempt] does to the group it gets. *)
Definition record_attempt (success : bool) (g : OtaCanaryGroup_t) : bool * OtaCanaryGroup_t :=
  if negb (active g) then (false, g)
  else
    let g := g <| total_attempts := u32 (total_attempts g + 1) |> in
    let g := if success then g <| devices_rolled_out := u32 (devices_rolled_out g + 1) |>
             else g <| error_count := u32 (error_count g + 1) |> in
    let g := if 0 <? total_attempts g then
               let error_rate := u32 (error_count g * 100) / total_attempts g in
               if (error_rate_threshold g <? error_rate) && (0 <? error_rate_threshold g)
               then g <| rollback_triggered := true |> else g
             else g in
    (negb (rollback_triggered g), g).

Definition ota_canary_record_attempt (st : state) (group : option nat) (success : bool) : bool * state :=
  match group with
  | None => (false, st)
  | Some i =>
      match s_groups st !! i with
      | None => (false, st)
      | Some g =>
          let '(ok, g) := record_attempt success g in
          (ok, st <| s_groups := <[i := g]> (s_groups st) |>)
      end
  end.

Definition ota_canary_get_group (st : state) (domain variant : Z) (out : bool)
  : OtaCanaryResult_t * option nat :=
  if negb (s_initialised st) then (OTA_CANARY_ERR_PARAM_NULL, None)
  else if negb out then (OTA_CANARY_ERR_PARAM_NULL, None)
  else
    match find_index (is_group (domain, variant)) (s_groups st) with
    | Some i => (OTA_CANARY_OK, Some i)
    | None => (OTA_CANARY_ERR_GROUP_NOT_FOUND, None)
    end.

Definition ota_canary_rollback (st : state) (group : option nat) : OtaCanaryResult_t * state :=
  match group with
  | None => (OTA_CANARY_ERR_PARAM_NULL, st)
  | Some i =>
      match s_groups st !! i with
      | None => (OTA_CANARY_ERR_PARAM_NULL, st)
      | Some g =>
          if negb (active g) then (OTA_CANARY_ERR_PARAM_NULL, st)
          else (OTA_CANARY_OK,
                st <| s_groups := <[i := g <| rollback_triggered := true |>]> (s_groups st) |>)
      end
  end.

Definition ota_canary_get_group_count (st : state) : Z :=
  if negb (s_initialised st) then 0 else u8 (Z.of_nat (count_if active (s_groups st))).

(** ** The rollouts as a map

    The abstract state: for every group, keyed by domain and variant, its
    percentage, its threshold, the outcomes so far (latest first) and whether an
    operator rolled it back. *)

Record rollout := mk_rollout {
  percentage : Z;
  threshold : Z;
  outcomes : list bool;
  manual : bool }.

#[export] Instance eta_rollout : Eta rollout := fun r =>
  mk_rollout (percentage r) (threshold r) (outcomes r) (manual r).

Definition failures (l : list bool) : nat := count_if negb l.
Definition successes (l : list bool) : nat := count_if id l.

(** When a rollout with threshold [thr] is due to be stopped: the failures have
    reached [thr + 1] percent of the attempts.  A threshold of zero stops
    nothing.  This is not the rule of ota_canary.h ([exceeds]): a rate above the
    threshold by less than one percent does not stop the rollout. *)
Definition stop_due (thr : Z) (l : list bool) : bool :=
  (1 <=? thr) && ((thr + 1) * Z.of_nat (length l) <=? 100 * Z.of_nat (failures l)).

(** Stopping was due after one of the attempts so far. *)
Fixpoint stopped (thr : Z) (l : list bool) : bool :=
  match l with
  | [] => false
  | _ :: l' => stopped thr l' || stop_due thr l
  end.

(** The rule of the header: more than [thr] percent of the attempts failed. *)
Definition exceeds (thr : Z) (l : list bool) : Prop :=
  thr * Z.of_nat (length l) < 100 * Z.of_nat (failures l).

Definition rolled_back (r : rollout) : bool := manual r || stopped (threshold r) (outcomes r).

Inductive command :=
| Create (domain variant percentage threshold : Z)
| Attempt (domain variant : Z) (success : bool)
| Rollback (domain variant : Z).

Inductive answer :=
| Code (r : OtaCanaryResult_t)
| Allowed (b : bool).

(** A client finds a group before it reports to it. *)
Definition step (st : state) (c : command) : answer * state :=
  match c with
  | Create d v p t =>
      let '(r, _, st) := ota_canary_create_group st d v p t true in (Code r, st)
  | Attempt d v s =>
      let '(b, st) := ota_canary_record_attempt st (ota_canary_get_group st d v true).2 s in (Allowed b, st)
  | Rollback d v =>
      let '(r, st) := ota_canary_rollback st (ota_canary_get_group st d v true).2 in (Code r, st)
  end.

Definition spec_step (m : gmap (Z * Z) rollout) (c : command) : answer * gmap (Z * Z) rollout :=
  match c with
  | Create d v p t =>
      match m !! (d, v) with
      | Some _ => (Code OTA_CANARY_OK, m)
      | None =>
          if (size m <? OTA_CANARY_MAX_GROUPS)%nat
          then (Code OTA_CANARY_OK, <[(d, v) := mk_rollout (Z.min p 100) t [] false]> m)
          else (Code OTA_CANARY_ERR_GROUP_FULL, m)
      end
  | Attempt d v s =>
      match m !! (d, v) with
      | None => (Allowed false, m)
      | Some r =>
          let r := r <| outcomes := s :: outcomes r |> in
          (Allowed (negb (rolled_back r)), <[(d, v) := r]> m)
      end
  | Rollback d v =>
      match m !! (d, v) with
      | None => (Code OTA_CANARY_ERR_PARAM_NULL, m)
      | Some r => (Code OTA_CANARY_OK, <[(d, v) := r <| manual := true |>]> m)
      end
  end.

Definition run {S} (next : S -> command -> answer * S) (s : S) (l : list command) : list answer * S :=
  fold_left (fun '(out, s) c => let '(a, s) := next s c in (out ++ [a], s)) l ([], s).

(** ** The representation *)

(** What the table holds for a rollout. *)
Definition group_of (k : Z * Z) (r : rollout) : OtaCanaryGroup_t :=
  mk_group k.1 k.2 (percentage r) 0 0 (Z.of_nat (successes (outcomes r))) (threshold r)
    (Z.of_nat (failures (outcomes r))) (Z.of_nat (length (outcomes r))) (rolled_back r) true.

Definition group_key (g : OtaCanaryGroup_t) : option (Z * Z) :=
  if active g then Some (domain_profile_id g, hw_variant_id g) else None.

Definition has_key (k : option (Z * Z)) (g : OtaCanaryGroup_t) : bool :=
  match k with Some dv => is_group dv g | None => negb (active g) end.

Lemma group_key_spec k g : has_key k g = true <-> group_key g = k.
Proof.
  unfold has_key, is_group, group_key. destruct k as [[d v]|]; destruct (active g); cbn;
    split; try congruence; intros H.
  - reflect. subst. reflexivity.
  - injection H as <- <-. rewrite !Z.eqb_refl. reflexivity.
Qed.

(** The groups fill the table from the front and are the entries of the map. *)
Definition represents (st : state) (m : gmap (Z * Z) rollout) : Prop :=
  s_initialised st = true /\
  exists gs, s_groups st = gs ++ replicate (OTA_CANARY_MAX_GROUPS - length gs) zero_group /\
    (length gs <= OTA_CANARY_MAX_GROUPS)%nat /\ NoDup (group_key <$> gs) /\
    Forall (fun g => active g = true) gs /\ length gs = size m /\
    forall k, keyed_lookup has_key (Some k) gs = group_of k <$> m !! k.

(** No group saw so many attempts that its counters or their product with 100 wrap. *)
Definition few_attempts (n : nat) (m : gmap (Z * Z) rollout) : Prop :=
  map_Forall (fun _ r => (length (outcomes r) <= n)%nat) m.

Lemma few_attempts_insert n m k r :
  few_attempts n m -> (length (outcomes r) <= n)%nat -> few_attempts n (<[k := r]> m).
Proof. intros Hm Hr. apply map_Forall_insert_2; assumption. Qed.

Lemma init_represents st : represents (snd (ota_canary_init st)) ∅.
Proof.
  split; [reflexivity|]. exists []. split; [reflexivity|]. split; [cbn; lia|].
  split; [apply NoDup_nil_2|]. split; [apply Forall_nil_2|]. split; [reflexivity|].
  intros k. rewrite lookup_empty. reflexivity.
Qed.

Section table.
Context (st : state) (m : gmap (Z * Z) rollout) (gs : list OtaCanaryGroup_t).
Context (Hgs : s_groups st = gs ++ replicate (OTA_CANARY_MAX_GROUPS - length gs) zero_group).
Context (Hlen : (length gs <= OTA_CANARY_MAX_GROUPS)%nat) (Hnd : NoDup (group_key <$> gs)).
Context (Hact : Forall (fun g => active g = true) gs) (Hsize : length gs = size m).
Context (Hmap : forall k, keyed_lookup has_key (Some k) gs = group_of k <$> m !! k).

Lemma find_index_app_None {A} (p : A -> bool) l1 l2 :
  find_index p l1 = None -> find_index p (l1 ++ l2) = (fun i => (length l1 + i)%nat) <$> find_index p l2.
Proof.
  induction l1 as [|x l1 IH]; cbn; intros H.
  - destruct (find_index p l2); reflexivity.
  - destruct (p x); [discriminate|]. apply fmap_None in H. rewrite IH by exact H.
    destruct (find_index p l2); reflexivity.
Qed.

Lemma find_index_app_Some {A} (p : A -> bool) l1 l2 i :
  find_index p l1 = Some i -> find_index p (l1 ++ l2) = Some i.
Proof.
  revert i. induction l1 as [|x l1 IH]; cbn; intros i H; [discriminate|].
  destruct (p x); [exact H|]. apply fmap_Some in H as (j & Hj & ->). rewrite (IH j Hj). reflexivity.
Qed.

(** The scan for a group finds it among the groups in use, if the map has it. *)
Lemma scan_found (k : Z * Z) r :
  m !! k = Some r ->
  exists i, find_index (is_group k) (s_groups st) = Some i /\
    find_index (has_key (Some k)) gs = Some i /\ gs !! i = Some (group_of k r) /\
    s_groups st !! i = Some (group_of k r).
Proof.
  intros Hr. pose proof (Hmap k) as Hk. rewrite Hr in Hk. unfold keyed_lookup, find_first in Hk.
  apply bind_Some in Hk as (i & Hi & Hg). exists i.
  rewrite Hgs. repeat split; auto.
  - apply find_index_app_Some. exact Hi.
  - apply lookup_app_l_Some. exact Hg.
Qed.

Lemma scan_missing (k : Z * Z) :
  m !! k = None ->
  find_index (is_group k) (s_groups st) = None /\ find_index (has_key (Some k)) gs = None.
Proof.
  intros Hr. pose proof (Hmap k) as Hk. rewrite Hr in Hk.
  assert (find_index (has_key (Some k)) gs = None) as Hn.
  { unfold keyed_lookup in Hk. rewrite find_first_None in Hk. apply find_index_None. exact Hk. }
  split; [|exact Hn]. rewrite Hgs, find_index_app_None by exact Hn.
  rewrite fmap_None. apply find_index_None. intros g (-> & _)%elem_of_replicate. reflexivity.
Qed.

Lemma scan_free :
  find_index (fun g => negb (active g)) (s_groups st) =
  if (size m <? OTA_CANARY_MAX_GROUPS)%nat then Some (length gs) else None.
Proof.
  rewrite Hgs, find_index_app_None.
  2: { apply find_index_None. intros g Hg. rewrite Forall_forall in Hact. rewrite (Hact g Hg). reflexivity. }
  rewrite <- Hsize. destruct (OTA_CANARY_MAX_GROUPS - length gs)%nat as [|n] eqn:Hn.
  - replace (_ <? _)%nat with false by (symmetry; apply Nat.ltb_ge; lia). reflexivity.
  - replace (_ <? _)%nat with true by (symmetry; apply Nat.ltb_lt; lia). cbn.
    rewrite Nat.add_0_r. reflexivity.
Qed.

(** Replacing a group in place is updating its entry of the map. *)
Lemma represents_update k r r' i :
  s_initialised st = true -> m !! k = Some r -> find_index (has_key (Some k)) gs = Some i ->
  represents (st <| s_groups := <[i := group_of k r']> (s_groups st) |>) (<[k := r']> m).
Proof.
  intros Hi Hr Hf. split; [exact Hi|]. exists (<[i := group_of k r']> gs).
  apply find_index_lt in Hf as Hlt. rewrite length_insert. cbn [s_groups set_field].
  assert (group_key (group_of k r') = Some k) as Hk by (destruct k; reflexivity).
  split; [rewrite Hgs; apply insert_app_l, Hlt|]. split; [exact Hlen|]. split.
  { rewrite (keys_update group_key has_key group_key_spec (Some k)) by assumption. exact Hnd. }
  split; [apply Forall_insert; [exact Hact|reflexivity]|]. split.
  { rewrite map_size_insert, Hr. exact Hsize. }
  intros k'. rewrite <- Hk in Hf.
  rewrite (keyed_lookup_update group_key has_key group_key_spec) by exact Hf.
  rewrite lookup_insert, Hmap. destruct (has_key (Some k') (group_of k r')) eqn:Ht.
  - apply group_key_spec in Ht. rewrite Hk in Ht. injection Ht as ->.
    destruct (decide (k' = k')) as [_|]; [reflexivity|contradiction].
  - destruct (decide (k = k')) as [->|]; [|reflexivity].
    apply group_key_spec in Hk. congruence.
Qed.

(** Taking the first free slot is inserting a new entry. *)
Lemma represents_append k r :
  s_initialised st = true -> m !! k = None -> (size m < OTA_CANARY_MAX_GROUPS)%nat ->
  represents (st <| s_groups := <[length gs := group_of k r]> (s_groups st) |>) (<[k := r]> m).
Proof.
  intros Hi Hr Hsz. split; [exact Hi|]. exists (gs ++ [group_of k r]).
  assert (group_key (group_of k r) = Some k) as Hk by (destruct k; reflexivity).
  destruct (scan_missing k Hr) as [_ Hf]. rewrite length_app. cbn [s_groups set_field length].
  split.
  { rewrite Hgs, <- (Nat.add_0_r (length gs)) at 1. rewrite insert_app_r, <- app_assoc. f_equal.
    replace (OTA_CANARY_MAX_GROUPS - length gs)%nat with (S (OTA_CANARY_MAX_GROUPS - (length gs + 1))) by lia.
    reflexivity. }
  split; [lia|]. split.
  { pose proof (upsert_NoDup group_key has_key group_key_spec (Some k) gs (group_of k r) Hk Hnd) as H.
    unfold upsert in H. rewrite Hf in H. exact H. }
  split; [apply Forall_app_2; [exact Hact|constructor; [reflexivity|constructor]]|]. split.
  { rewrite map_size_insert, Hr. lia. }
  intros k'. rewrite (keyed_lookup_app has_key), Hmap, lookup_insert.
  destruct (decide (k = k')) as [->|Hne].
  - rewrite Hr. cbn [fmap option_fmap option_map]. rewrite (proj2 (group_key_spec _ _) Hk). reflexivity.
  - destruct (m !! k'); [reflexivity|]. cbn [fmap option_fmap option_map].
    destruct (has_key (Some k') (group_of k r)) eqn:Ht; [|reflexivity].
    apply group_key_spec in Ht. congruence.
Qed.

End table.

(** The division of the code, rounded down. *)
Lemma stop_due_rate thr b l :
  stop_due thr (b :: l) =
  (thr <? Z.of_nat (failures (b :: l)) * 100 / Z.of_nat (length (b :: l))) && (0 <? thr).
Proof.
  unfold stop_due. rewrite andb_comm. set (n := Z.of_nat (length (b :: l))). set (f := Z.of_nat (failures (b :: l))).
  assert (0 < n) as Hn by (unfold n; cbn [length]; lia). clearbody n f.
  f_equal; apply eq_bool_prop_intro; rewrite !Is_true_true, Z.leb_le, Z.ltb_lt; [|lia]. split; intros H.
  - assert (thr + 1 <= f * 100 / n) by (apply Z.div_le_lower_bound; lia). lia.
  - pose proof (Z.mul_div_le (f * 100) n Hn). nia.
Qed.

(** The counters of a group, which count in 32 bits, count its attempts. *)
Lemma record_attempt_spec k r s :
  Z.of_nat (length (outcomes r)) < 42949672 ->
  record_attempt s (group_of k r) =
  (negb (rolled_back (r <| outcomes := s :: outcomes r |>)), group_of k (r <| outcomes := s :: outcomes r |>)).
Proof.
  intros Hn. pose proof (count_if_le negb (outcomes r)) as Hf. pose proof (count_if_le id (outcomes r)) as Hs.
  unfold record_attempt, group_of, rolled_back, failures, successes in *. destruct r as [p t l mn].
  cbn in Hn, Hf, Hs |- *. rewrite !count_if_cons.
  rewrite (u32_small (Z.of_nat (length l) + 1)) by (unfold is_u32; lia).
  cbn [stopped]. rewrite stop_due_rate. unfold failures. rewrite count_if_cons. cbn [length].
  replace (Z.of_nat (length l) + 1) with (Z.of_nat (S (length l))) by lia.
  destruct s; cbn -[Z.of_nat Z.mul Z.div count_if].
  all: replace (0 <? Z.of_nat (S (length l))) with true by (symmetry; apply Z.ltb_lt; lia).
  - rewrite (u32_small (_ + 1)), (u32_small (_ * 100)) by (unfold is_u32; lia).
    replace (Z.of_nat (count_if id l) + 1) with (Z.of_nat (S (count_if id l))) by lia.
    destruct ((t <? _) && _); cbn -[Z.of_nat]; rewrite ?orb_true_r, ?orb_false_r; reflexivity.
  - rewrite (u32_small (_ + 1)), (u32_small (_ * 100)) by (unfold is_u32; lia).
    replace (Z.of_nat (count_if negb l) + 1) with (Z.of_nat (S (count_if negb l))) by lia.
    destruct ((t <? _) && _); cbn -[Z.of_nat]; rewrite ?orb_true_r, ?orb_false_r; reflexivity.
Qed.

Lemma rollback_group k r :
  (group_of k r) <| rollback_triggered := true |> = group_of k (r <| manual := true |>).
Proof. destruct r. reflexivity. Qed.

Lemma min_percentage p : (if 100 <? p then 100 else p) = Z.min p 100.
Proof. destruct (Z.ltb_spec 100 p); lia. Qed.

(** One command: the same answer, and the table represents the new map. *)
Lemma canary_step_refines st m c n :
  represents st m -> few_attempts n m -> Z.of_nat n < 42949672 ->
  (step st c).1 = (spec_step m c).1 /\ represents (step st c).2 (spec_step m c).2 /\
  few_attempts (S n) (spec_step m c).2.
Proof.
  intros [Hi (gs & Hgs & Hlen & Hnd & Hact & Hsize & Hmap)] Hfew Hn.
  assert (few_attempts (S n) m) as HfewS.
  { intros k r Hr. specialize (Hfew k r Hr). cbn in Hfew. lia. }
  assert (represents st m) as Hrep by (split; [exact Hi|exists gs; auto 10]).
  destruct c as [d v p t|d v s|d v]; cbn [step spec_step];
    unfold ota_canary_create_group, ota_canary_get_group; rewrite Hi; cbn [negb].
  all: destruct (m !! (d, v)) as [r|] eqn:Hr;
    [destruct (scan_found st m gs Hgs Hmap (d, v) r Hr) as (i & -> & Hf & Hg & Hl)
    |destruct (scan_missing st m gs Hgs Hmap (d, v) Hr) as [-> Hf]].
  - auto.
  - rewrite (scan_free st m gs Hgs Hlen Hact Hsize), min_percentage.
    destruct (Nat.ltb_spec (size m) OTA_CANARY_MAX_GROUPS) as [Hsz|]; cbn; [|auto].
    split; [reflexivity|]. split.
    + apply (represents_append st m gs Hgs Hlen Hnd Hact Hsize Hmap (d, v)
               (mk_rollout (Z.min p 100) t [] false)); assumption.
    + apply few_attempts_insert; [exact HfewS|cbn; lia].
  - unfold ota_canary_record_attempt. cbn [snd]. rewrite Hl.
    pose proof (Hfew _ _ Hr) as Hb. cbn in Hb.
    rewrite record_attempt_spec by lia. cbn [fst snd]. split; [reflexivity|]. split.
    + apply (represents_update st m gs Hgs Hlen Hnd Hact Hsize Hmap (d, v) r); assumption.
    + apply few_attempts_insert; [exact HfewS|]. destruct r; cbn in *; lia.
  - cbn. auto.
  - unfold ota_canary_rollback. cbn [snd]. rewrite Hl. cbn [active group_of negb fst snd].
    rewrite rollback_group.
    split; [reflexivity|]. pose proof (Hfew _ _ Hr) as Hb. cbn in Hb. split.
    + apply (represents_update st m gs Hgs Hlen Hnd Hact Hsize Hmap (d, v) r); assumption.
    + apply few_attempts_insert; [exact HfewS|]. destruct r; cbn in *; lia.
  - cbn. auto.
Qed.

Lemma canary_run_snoc {S} (next : S -> command -> answer * S) s l c :
  run next s (l ++ [c]) =
  ((run next s l).1 ++ [(next (run next s l).2 c).1], (next (run next s l).2 c).2).
Proof.
  unfold run. rewrite fold_left_app. cbn. destruct (fold_left _ l _) as [out s']. cbn.
  destruct (next s' c). reflexivity.
Qed.

(** A run of commands from any table that represents a map. *)
Lemma canary_run_refines st m n l :
  represents st m -> few_attempts n m -> Z.of_nat (n + length l) <= 42949672 ->
  (run step st l).1 = (run spec_step m l).1 /\
  represents (run step st l).2 (run spec_step m l).2 /\
  few_attempts (n + length l) (run spec_step m l).2.
Proof.
  intros Hr Hf Hl. induction l as [|c l IH] using rev_ind.
  - rewrite Nat.add_0_r. auto.
  - rewrite length_app in *. cbn [length] in *. destruct IH as (Ha & IHr & IHf); [lia|].
    destruct (canary_step_refines _ _ c _ IHr IHf) as (Hc & Hr' & Hf'); [lia|].
    rewrite !canary_run_snoc, Ha, Hc. cbn [fst snd].
    replace (n + (length l + 1))%nat with (S (n + length l)) by lia. auto.
Qed.

(** After enough failures in a row the rate passes any threshold below 99. *)
Lemma failures_stop thr l n :
  1 <= thr <= 98 -> 99 * Z.of_nat (length l) <= Z.of_nat n -> (0 < n)%nat ->
  stopped thr (replicate n false ++ l) = true.
Proof.
  intros Ht Hn Hpos. destruct n as [|n]; [lia|]. cbn [replicate app stopped].
  apply orb_true_iff. right. unfold stop_due.
  assert (forall k, failures (replicate k false ++ l) = (k + failures l)%nat) as Hf.
  { induction k as [|k IH]; [reflexivity|]. cbn [replicate app]. unfold failures in *.
    rewrite count_if_cons, IH. reflexivity. }
  change (false :: replicate n false ++ l) with (replicate (S n) false ++ l).
  rewrite Hf, length_app, length_replicate.
  apply andb_true_iff. split; apply Z.leb_le; [lia|]. nia.
Qed.

(** Attempts on one group add their outcomes to its rollout. *)
Lemma spec_run_attempts m d v r n s :
  m !! (d, v) = Some r ->
  (run spec_step m (replicate n (Attempt d v s))).2 !! (d, v)
  = Some (r <| outcomes := replicate n s ++ outcomes r |>).
Proof.
  intros Hr. induction n as [|n IH]; [destruct r; exact Hr|].
  replace (replicate (S n) (Attempt d v s)) with (replicate n (Attempt d v s) ++ [Attempt d v s])
    by (rewrite <- replicate_cons_app; reflexivity).
  rewrite canary_run_snoc. cbn [snd]. cbn [spec_step]. rewrite IH. cbn [snd].
  rewrite lookup_insert_eq. reflexivity.
Qed.

Lemma canary_run_cons {S} (next : S -> command -> answer * S) s c l :
  (run next s (c :: l)).1 = (next s c).1 :: (run next (next s c).2 l).1 /\
  (run next s (c :: l)).2 = (run next (next s c).2 l).2.
Proof.
  induction l as [|x l [IH1 IH2]] using rev_ind; [unfold run; cbn; destruct (next s c); auto|].
  rewrite app_comm_cons, !canary_run_snoc. cbn [fst snd]. rewrite IH1, IH2. auto.
Qed.

(** Nothing stops a rollout with threshold zero. *)
Lemma stopped_zero l : stopped 0 l = false.
Proof. induction l as [|b l IH]; cbn [stopped]; [reflexivity|]. rewrite IH. reflexivity. Qed.

Lemma spec_run_zero m d v r n :
  m !! (d, v) = Some r -> threshold r = 0 -> manual r = false ->
  (run spec_step m (replicate n (Attempt d v false))).1 = replicate n (Allowed true).
Proof.
  intros Hr Ht Hm. induction n as [|n IH]; [reflexivity|].
  rewrite (replicate_S_end n (Attempt d v false)), canary_run_snoc, replicate_S_end, IH. cbn [fst]. f_equal.
  cbn [spec_step]. rewrite (spec_run_attempts m d v r n false Hr). unfold rolled_back.
  cbn [threshold manual outcomes set_field fst]. rewrite Hm, Ht, stopped_zero. reflexivity.
Qed.

(** ** Properties *)

(** C15. From initialisation, a client that creates groups, reports attempts and
    rolls groups back, in at most 42949672 calls, gets the answers of the map of
    rollouts, and the table holds that map.  So each group counts its own
    attempts only; a group with a threshold of at least one is stopped from the
    first attempt on after which the failures had reached the percentage above
    its threshold, one with threshold zero never on its own, and neither
    resumes; and a roll back of one group is not seen in any other. *)
Theorem rollouts_refine_map st l :
  Z.of_nat (length l) <= 42949672 ->
  let st0 := snd (ota_canary_init st) in
  (run step st0 l).1 = (run spec_step ∅ l).1 /\
  represents (run step st0 l).2 (run spec_step ∅ l).2.
Proof.
  intros Hl. destruct (canary_run_refines (snd (ota_canary_init st)) ∅ 0 l) as (Ha & Hr & _); auto.
  - apply init_represents.
  - apply map_Forall_empty.
Qed.

(** The rule of the header against what the code does: no rollout is stopped by
    a rate that never exceeded its threshold, and one that exceeded it by a
    percent is. *)
Theorem stopped_against_header thr l :
  (stopped thr l = true -> exists later l', l = later ++ l' /\ exceeds thr l') /\
  (forall later b l', l = later ++ b :: l' -> 1 <= thr ->
     (thr + 1) * Z.of_nat (length (b :: l')) <= 100 * Z.of_nat (failures (b :: l')) -> stopped thr l = true).
Proof.
  split.
  - induction l as [|b l IH]; cbn [stopped]; [discriminate|]. intros [H|H]%orb_true_iff.
    + destruct (IH H) as (later & l' & -> & He). exists (b :: later), l'. auto.
    + exists [], (b :: l). split; [reflexivity|]. unfold stop_due in H. unfold exceeds. cbn [length] in *. reflect. lia.
  - intros later b l' -> Ht Hr. induction later as [|x later IH]; cbn [app stopped]; apply orb_true_iff.
    + right. apply andb_true_iff. rewrite !Z.leb_le. auto.
    + left. exact IH.
Qed.

(** A threshold of zero is no threshold: a rollout created with it goes on
    whatever fails. *)
Theorem zero_threshold_never_stops st d v p n :
  Z.of_nat n < 42949672 ->
  (run step (snd (ota_canary_init st)) (Create d v p 0 :: replicate n (Attempt d v false))).1 =
  Code OTA_CANARY_OK :: replicate n (Allowed true).
Proof.
  intros Hn. destruct (canary_run_refines (snd (ota_canary_init st)) ∅ 0
    (Create d v p 0 :: replicate n (Attempt d v false))) as (-> & _ & _).
  { apply init_represents. } { apply map_Forall_empty. } { cbn [length]. rewrite length_replicate. lia. }
  rewrite (proj1 (canary_run_cons _ _ _ _)). f_equal.
  apply spec_run_zero with (mk_rollout (Z.min p 100) 0 [] false); [|reflexivity|reflexivity].
  cbn [spec_step]. rewrite lookup_empty, map_size_empty. apply lookup_insert_eq.
Qed.

(** A rate of 20.5 percent does not exceed a threshold of 20: the rate is rounded
    down. *)
Theorem late_stop st :
  let l := Create 1 0 10 20 :: replicate 159 (Attempt 1 0 true) ++ replicate 41 (Attempt 1 0 false) in
  exceeds 20 (replicate 41 false ++ replicate 159 true) /\
  (run step (snd (ota_canary_init st)) l).1 = Code OTA_CANARY_OK :: replicate 200 (Allowed true).
Proof. split; [vm_compute; reflexivity|vm_compute; reflexivity]. Qed.

(** C38. A rollout whose updates keep failing is stopped: whatever its group has seen
    so far, if its threshold lies between 1 and 98 percent, then one more than 99
    times as many failures in a row as it had attempts are enough, and the
    update is refused from then on. *)
Theorem failing_rollout_stops st m d v r seen :
  represents st m -> m !! (d, v) = Some r -> 1 <= threshold r <= 98 ->
  few_attempts seen m -> Z.of_nat seen <= 400000 ->
  let n := (99 * length (outcomes r) + 1)%nat in
  forall s, (step (run step st (replicate n (Attempt d v false))).2 (Attempt d v s)).1 = Allowed false.
Proof.
  intros Hrep Hr Ht Hfew Hseen n s. pose proof (Hfew _ _ Hr) as Hb. cbn in Hb.
  destruct (canary_run_refines st m seen (replicate n (Attempt d v false)) Hrep Hfew)
    as (_ & Hrep' & Hf'); [rewrite length_replicate; lia|]. rewrite length_replicate in Hf'.
  destruct (canary_step_refines _ _ (Attempt d v s) _ Hrep' Hf') as (-> & _); [lia|].
  cbn [spec_step]. rewrite (spec_run_attempts m d v r n false Hr). cbn [fst]. f_equal.
  unfold rolled_back. cbn [threshold outcomes manual set_field stopped].
  rewrite failures_stop by lia. rewrite orb_true_r. reflexivity.
Qed.

Lemma hash_bucket_range data : 0 <= ota_canary_hash_bucket data < 100.
Proof.
  destruct data as [[|b d]|]; cbn [ota_canary_hash_bucket]; try lia.
  rewrite u8_small; unfold is_u8; pose proof (Z.mod_pos_bound (fnv1a_hash (b :: d)) 100); lia.
Qed.

(** The wave of a group is the devices whose bucket is below its percentage. *)
Lemma in_canary_bucket uuid g :
  active g = true -> 0 <= canary_percentage g <= 100 ->
  ota_canary_is_in_canary (Some uuid) (Some g) =
  (ota_canary_hash_bucket (Some (take 16 uuid ++ [u8 (domain_profile_id g); hw_variant_id g]))
   <? canary_percentage g).
Proof.
  intros Ha Hp. unfold ota_canary_is_in_canary. rewrite Ha. cbn [negb].
  pose proof (hash_bucket_range (Some (take 16 uuid ++ [u8 (domain_profile_id g); hw_variant_id g]))) as Hb.
  destruct (Z.eqb_spec (canary_percentage g) 0) as [->|]; [symmetry; apply Z.ltb_ge; lia|].
  destruct (Z.leb_spec 100 (canary_percentage g)); [symmetry; apply Z.ltb_lt; lia|reflexivity].
Qed.

(** Raising the percentage of a group keeps every device of its wave in the
    wave; no device is in it at 0 and every device at 100. *)
Theorem wave_grows uuid g p q :
  active g = true -> 0 <= p <= q -> q <= 100 ->
  (ota_canary_is_in_canary (Some uuid) (Some (g <| canary_percentage := p |>)) = true ->
   ota_canary_is_in_canary (Some uuid) (Some (g <| canary_percentage := q |>)) = true) /\
  ota_canary_is_in_canary (Some uuid) (Some (g <| canary_percentage := 0 |>)) = false /\
  ota_canary_is_in_canary (Some uuid) (Some (g <| canary_percentage := 100 |>)) = true.
Proof.
  intros Ha Hpq Hq. rewrite !in_canary_bucket by (cbn; auto; lia). cbn [canary_percentage set_field].
  change (hw_variant_id (g <| canary_percentage := p |>)) with (hw_variant_id g).
  match goal with |- context [ota_canary_hash_bucket ?d] => pose proof (hash_bucket_range d) as Hb end.
  rewrite !Z.ltb_lt, Z.ltb_ge. cbn in *. lia.
Qed.

(** ** The theorems on a concrete rollout *)

Definition demo_commands : list command :=
  [Create 1 0 10 20; Create 3 0 10 20] ++ replicate 9 (Attempt 1 0 true) ++
  [Attempt 1 0 false; Attempt 1 0 false; Attempt 1 0 false; Attempt 1 0 true; Attempt 3 0 true;
   Rollback 2 0; Rollback 3 0; Attempt 3 0 true].

Lemma rollouts_refine_map_witness :
  drop 11 (run step (snd (ota_canary_init initial)) demo_commands).1 =
    [Allowed true; Allowed true; Allowed false; Allowed false; Allowed true;
     Code OTA_CANARY_ERR_PARAM_NULL; Code OTA_CANARY_OK; Allowed false] /\
  (run step (snd (ota_canary_init initial)) demo_commands).1 = (run spec_step ∅ demo_commands).1.
Proof.
  split; [vm_compute; reflexivity|].
  apply (rollouts_refine_map initial demo_commands). vm_compute. discriminate.
Defined.

Lemma failing_rollout_stops_witness :
  (step (run step (run step (snd (ota_canary_init initial)) (take 3 demo_commands)).2
          (replicate 100 (Attempt 1 0 false))).2 (Attempt 1 0 true)).1 = Allowed false.
Proof.
  assert (Z.of_nat (length (take 3 demo_commands)) <= 42949672) as Hl by (vm_compute; discriminate).
  destruct (canary_run_refines (snd (ota_canary_init initial)) ∅ 0 (take 3 demo_commands)
              (init_represents initial) (map_Forall_empty _) Hl) as (_ & Hrep & Hf).
  apply (failing_rollout_stops _ _ 1 0 (mk_rollout 10 20 [true] false) 3 Hrep).
  - vm_compute. reflexivity.
  - cbn. lia.
  - exact Hf.
  - cbn. lia.
Defined.

Lemma zero_threshold_never_stops_witness :
  (run step (snd (ota_canary_init initial)) (Create 1 0 10 0 :: replicate 1000 (Attempt 1 0 false))).1 =
  Code OTA_CANARY_OK :: replicate 1000 (Allowed true).
Proof. apply zero_threshold_never_stops. vm_compute. reflexivity. Defined.

Definition demo_group : OtaCanaryGroup_t := group_of (1, 0) (mk_rollout 10 20 [] false).

Lemma wave_grows_witness :
  ota_canary_is_in_canary (Some (replicate 16 9)) (Some (demo_group <| canary_percentage := 95 |>)) = true ->
  ota_canary_is_in_canary (Some (replicate 16 9)) (Some (demo_group <| canary_percentage := 99 |>)) = true.
Proof. apply (wave_grows (replicate 16 9) demo_group 95 99); [reflexivity|lia|lia]. Defined.

End ota_canary.
