(* ===== verification/ConfigEngine.v ===== *)
(** The runtime configuration engine (firmware/shared/config_engine.c): the
    registered domain profiles, the active one, and the key-value parameters. *)

From stdpp Require Import gmap.
From S2P Require Import Prelude DeviceIdentity.
Import device_identity(DomainProfileId_t).

Module config_engine.

Definition CONFIG_MAX_PROFILES : Z := 4.
Definition CONFIG_MAX_PARAMS : Z := 32.
Definition CONFIG_KEY_MAX_LEN : nat := 32.
Definition CONFIG_VALUE_MAX_LEN : nat := 64.

Inductive ConfigResult_t :=
| CONFIG_OK
| CONFIG_ERR_FULL
| CONFIG_ERR_NOT_FOUND
| CONFIG_ERR_READONLY
| CONFIG_ERR_PARAM_NULL.

#[export] Instance ConfigResult_eq_dec : EqDecision ConfigResult_t.
Proof. solve_decision. Defined.

(** [V] is the type of a domain profile's vtable; the engine keeps the pointers
    of vtable and name, NULL in an unused slot. *)
Record ProfileRegistration_t (V : Type) := mk_profile {
  id : DomainProfileId_t;
  vtable : option V;
  name : option (list Z);
  p_active : bool }.
Arguments mk_profile {V}. Arguments id {V}. Arguments vtable {V}. Arguments name {V}.
Arguments p_active {V}.

Record ConfigParam_t := mk_param {
  key : list Z;
  value : list Z;
  editable : bool;
  active : bool }.

Record ConfigEngineContext_t (V : Type) := mk_ctx {
  profiles : list (ProfileRegistration_t V);
  profile_count : Z;
  active_profile_index : Z;
  params : list ConfigParam_t;
  param_count : Z;
  initialized : bool }.
Arguments mk_ctx {V}. Arguments profiles {V}. Arguments profile_count {V}.
Arguments active_profile_index {V}. Arguments params {V}. Arguments param_count {V}.
Arguments initialized {V}.

#[export] Instance eta_profile V : Eta (ProfileRegistration_t V) := fun r =>
  mk_profile (id r) (vtable r) (name r) (p_active r).
#[export] Instance eta_param : Eta ConfigParam_t := fun r =>
  mk_param (key r) (value r) (editable r) (active r).
#[export] Instance eta_ctx V : Eta (ConfigEngineContext_t V) := fun r =>
  mk_ctx (profiles r) (profile_count r) (active_profile_index r) (params r) (param_count r)
    (initialized r).

Definition zero_param : ConfigParam_t := mk_param (zeros 32) (zeros 64) false false.

Section engine.
Context {V : Type}.
Implicit Types (ctx : ConfigEngineContext_t V).

Definition zero_profile : ProfileRegistration_t V := mk_profile 0 None None false.

Definition zero_ctx : ConfigEngineContext_t V :=
  mk_ctx (replicate 4 zero_profile) 0 0 (replicate 32 zero_param) 0 false.

Definition config_engine_init (octx : option (ConfigEngineContext_t V))
  : ConfigResult_t * option (ConfigEngineContext_t V) :=
  match octx with
  | None => (CONFIG_ERR_PARAM_NULL, None)
  | Some _ => (CONFIG_OK, Some (zero_ctx <| active_profile_index := 255 |> <| initialized := true |>))
  end.

Definition has_profile (i : DomainProfileId_t) (p : ProfileRegistration_t V) : bool := id p =? i.

Definition config_register_profile ctx (i : DomainProfileId_t) (vt : option V) (nm : option (list Z))
  : ConfigResult_t * ConfigEngineContext_t V :=
  match vt, nm with
  | Some _, Some _ =>
      if negb (initialized ctx) then (CONFIG_ERR_PARAM_NULL, ctx)
      else if CONFIG_MAX_PROFILES <=? profile_count ctx then (CONFIG_ERR_FULL, ctx)
      else
        match find_index (has_profile i) (used (profile_count ctx) (profiles ctx)) with
        | Some k =>
            (CONFIG_OK, ctx <| profiles :=
                          alter (fun p => p <| vtable := vt |> <| name := nm |>) k (profiles ctx) |>)
        | None =>
            (CONFIG_OK, ctx <| profiles := store (profile_count ctx) (mk_profile i vt nm false) (profiles ctx) |>
                            <| profile_count := u8 (profile_count ctx + 1) |>)
        end
  | _, _ => (CONFIG_ERR_PARAM_NULL, ctx)
  end.

(** The first loop of [config_set_active_profile]. *)
Definition deactivate_all ctx : ConfigEngineContext_t V :=
  ctx <| profiles := ((fun p => p <| p_active := false |>) <$> used (profile_count ctx) (profiles ctx)) ++
                     drop (Z.to_nat (profile_count ctx)) (profiles ctx) |>.

Definition config_set_active_profile ctx (i : DomainProfileId_t) : ConfigResult_t * ConfigEngineContext_t V :=
  if negb (initialized ctx) then (CONFIG_ERR_PARAM_NULL, ctx)
  else
    let ctx := deactivate_all ctx in
    match find_index (has_profile i) (used (profile_count ctx) (profiles ctx)) with
    | Some k =>
        (CONFIG_OK, ctx <| profiles := alter (fun p => p <| p_active := true |>) k (profiles ctx) |>
                        <| active_profile_index := Z.of_nat k |>)
    | None => (CONFIG_ERR_NOT_FOUND, ctx)
    end.

Definition config_get_active_vtable ctx : option V :=
  if negb (initialized ctx) then None
  else if profile_count ctx <=? active_profile_index ctx then None
  else profiles ctx !! Z.to_nat (active_profile_index ctx) ≫= vtable.

Definition config_get_active_profile_id ctx : DomainProfileId_t :=
  if negb (initialized ctx) then 0
  else if profile_count ctx <=? active_profile_index ctx then 0
  else default 0 (id <$> profiles ctx !! Z.to_nat (active_profile_index ctx)).

(** [strcmp(params[i].key, key) == 0]. *)
Definition has_param (k : list Z) (p : ConfigParam_t) : bool := bool_decide (cstr_of (key p) = k).

Definition find_param ctx (k : list Z) : option nat :=
  find_index (has_param k) (used (param_count ctx) (params ctx)).

(** A C string argument is its bytes before the NUL. *)
Definition config_set_param ctx (k v : option (list Z)) : ConfigResult_t * ConfigEngineContext_t V :=
  match k, v with
  | Some k, Some v =>
      if negb (initialized ctx) then (CONFIG_ERR_PARAM_NULL, ctx)
      else
        let stored := strncpy (CONFIG_VALUE_MAX_LEN - 1) v ++ [0] in
        match find_param ctx k with
        | Some i =>
            if negb (default false (editable <$> params ctx !! i)) then (CONFIG_ERR_READONLY, ctx)
            else (CONFIG_OK, ctx <| params := alter (fun p => p <| value := stored |>) i (params ctx) |>)
        | None =>
            if CONFIG_MAX_PARAMS <=? param_count ctx then (CONFIG_ERR_FULL, ctx)
            else
              let p := mk_param (strncpy (CONFIG_KEY_MAX_LEN - 1) k ++ [0]) stored true true in
              (CONFIG_OK, ctx <| params := store (param_count ctx) p (params ctx) |>
                              <| param_count := u8 (param_count ctx + 1) |>)
        end
  | _, _ => (CONFIG_ERR_PARAM_NULL, ctx)
  end.

(** The code, and what the caller's buffer of [len] bytes holds where it is
    written.  [None] is undefined behaviour: with [len = 0] the copy has length
    [SIZE_MAX] and the terminator goes before the buffer. *)
Definition config_get_param ctx (k : option (list Z)) (out : bool) (len : Z)
  : option (ConfigResult_t * option (list Z)) :=
  match k with
  | Some k =>
      if negb (initialized ctx) || negb out then Some (CONFIG_ERR_PARAM_NULL, None)
      else
        match find_param ctx k with
        | Some i =>
            if len =? 0 then None
            else
              let v := default [] (value <$> params ctx !! i) in
              Some (CONFIG_OK, Some (strncpy (Z.to_nat (len - 1)) (cstr_of v) ++ [0]))
        | None => Some (CONFIG_ERR_NOT_FOUND, None)
        end
  | None => Some (CONFIG_ERR_PARAM_NULL, None)
  end.

Definition config_is_param_editable ctx (k : option (list Z)) : bool :=
  match k with
  | Some k =>
      if negb (initialized ctx) then false
      else
        match find_param ctx k with
        | Some i => default false (editable <$> params ctx !! i)
        | None => false
        end
  | None => false
  end.

Definition config_get_profile_count ctx : Z := if negb (initialized ctx) then 0 else profile_count ctx.
Definition config_get_param_count ctx : Z := if negb (initialized ctx) then 0 else param_count ctx.

(** ** The parameters as a finite map *)

Definition param_key (p : ConfigParam_t) : list Z := cstr_of (key p).

Lemma has_param_spec k p : has_param k p = true <-> param_key p = k.
Proof. apply bool_decide_eq_true. Qed.

Definition live_params ctx : list ConfigParam_t := used (param_count ctx) (params ctx).

(** The table is well formed: its keys were cut to 31 bytes. *)
Record wf_params ctx : Prop := {
  wfp_init : initialized ctx = true;
  wfp_size : length (params ctx) = 32%nat;
  wfp_count : 0 <= param_count ctx <= CONFIG_MAX_PARAMS;
  wfp_keys : Forall (fun p => (length (param_key p) < CONFIG_KEY_MAX_LEN)%nat) (live_params ctx) }.

(** Every parameter was created by [config_set_param], each under its own key,
    and the table holds the map [m]. *)
Record represents ctx (m : gmap (list Z) (list Z)) : Prop := {
  rep_wf : wf_params ctx;
  rep_distinct : NoDup (param_key <$> live_params ctx);
  rep_editable : Forall (fun p => editable p = true) (live_params ctx);
  rep_size : length (live_params ctx) = size m;
  rep_lookup : forall k, (fun p => cstr_of (value p)) <$> keyed_lookup has_param k (live_params ctx) = m !! k }.

Definition spec_set (m : gmap (list Z) (list Z)) (k v : list Z) : ConfigResult_t * gmap (list Z) (list Z) :=
  if bool_decide (is_Some (m !! k)) || (size m <? 32)%nat
  then (CONFIG_OK, <[k := take 63 v]> m) else (CONFIG_ERR_FULL, m).

Definition stored_value (v : list Z) : list Z := strncpy 63 v ++ [0].

Lemma live_alter ctx f i p :
  0 <= param_count ctx <= Z.of_nat (length (params ctx)) -> live_params ctx !! i = Some p ->
  live_params (ctx <| params := alter f i (params ctx) |>) = <[i := f p]> (live_params ctx).
Proof.
  intros Hc Hp. pose proof (lookup_lt_Some _ _ _ Hp) as Hlt.
  apply lookup_take_Some in Hp as [Hp _]. unfold live_params in *. rewrite used_length in Hlt by lia.
  cbn. rewrite (alter_lookup f _ _ p Hp). apply used_store_inside. lia.
Qed.

Lemma live_append ctx p :
  0 <= param_count ctx < Z.of_nat (length (params ctx)) -> param_count ctx < 255 ->
  live_params (ctx <| params := store (param_count ctx) p (params ctx) |>
                   <| param_count := u8 (param_count ctx + 1) |>) = live_params ctx ++ [p].
Proof.
  intros Hc Hlt. unfold live_params. cbn. rewrite u8_small by (unfold is_u8; lia).
  apply used_store_append, Hc.
Qed.

(** What a set that is accepted does to the parameters in use. *)
Lemma config_set_upsert ctx k v ctx' :
  wf_params ctx -> c_string k -> (length k < CONFIG_KEY_MAX_LEN)%nat ->
  config_set_param ctx (Some k) (Some v) = (CONFIG_OK, ctx') ->
  exists p, param_key p = k /\ value p = stored_value v /\ editable p = true /\
    live_params ctx' = upsert has_param k p (live_params ctx) /\ wf_params ctx'.
Proof.
  intros [Hi Hs Hc Hk] Hck Hlk. unfold config_set_param, find_param, CONFIG_MAX_PARAMS in *.
  rewrite Hi. cbn [negb]. fold (live_params ctx). unfold upsert.
  destruct (find_index (has_param k) (live_params ctx)) as [i|] eqn:Hf.
  - apply find_index_lookup in Hf as (p & Hp & Hkp).
    assert (params ctx !! i = Some p) as Hpi by (apply lookup_take_Some in Hp; apply Hp).
    rewrite Hpi. cbn -[strncpy]. destruct (editable p) eqn:He; cbn -[strncpy]; [|discriminate]. intros [= <-].
    fold (stored_value v). apply has_param_spec in Hkp.
    pose proof (live_alter ctx (fun p => p <| value := stored_value v |>) i p ltac:(lia) Hp) as Hlive.
    exists (p <| value := stored_value v |>).
    split; [exact Hkp|]. split; [reflexivity|]. split; [exact He|]. split; [exact Hlive|].
    split; [exact Hi|cbn; rewrite length_alter; exact Hs|exact Hc|].
    rewrite Hlive. apply Forall_insert; [exact Hk|].
    change (length (param_key p) < CONFIG_KEY_MAX_LEN)%nat. congruence.
  - destruct (32 <=? param_count ctx) eqn:Hfull; [discriminate|]. reflect. intros [= <-].
    fold (stored_value v). set (p := mk_param _ (stored_value v) true true).
    assert (param_key p = k) as Hpk.
    { unfold param_key. cbn [key p]. rewrite cstr_of_strncpy by exact Hck.
      unfold CONFIG_KEY_MAX_LEN in Hlk. apply take_ge. lia. }
    pose proof (live_append ctx p ltac:(lia) ltac:(lia)) as Hlive.
    exists p. split; [exact Hpk|]. split; [reflexivity|]. split; [reflexivity|]. split; [exact Hlive|].
    split; [exact Hi|cbn; rewrite store_length; exact Hs|cbn; unfold CONFIG_MAX_PARAMS; words|].
    rewrite Hlive. apply Forall_app_2; [exact Hk|]. constructor; [|constructor]. rewrite Hpk. exact Hlk.
Qed.

(** The answer of a set. *)
Lemma config_set_code ctx m k v :
  represents ctx m -> (config_set_param ctx (Some k) (Some v)).1 = (spec_set m k v).1 /\
  ((spec_set m k v).1 = CONFIG_ERR_FULL -> (config_set_param ctx (Some k) (Some v)).2 = ctx).
Proof.
  intros [[Hi Hs Hc _] _ He Hsz Hl]. unfold config_set_param, find_param, spec_set, CONFIG_MAX_PARAMS in *.
  rewrite Hi. cbn [negb]. fold (live_params ctx). specialize (Hl k).
  unfold keyed_lookup, find_first in Hl.
  destruct (find_index (has_param k) (live_params ctx)) as [i|] eqn:Hf; cbn in Hl.
  - apply find_index_lookup in Hf as (p & Hp & _). rewrite Hp in Hl. cbn in Hl.
    rewrite Forall_forall in He. rewrite <- Hl.
    assert (params ctx !! i = Some p) as -> by (apply lookup_take_Some in Hp; apply Hp).
    cbn. rewrite (He p) by (eapply list_elem_of_lookup_2, Hp). cbn.
    split; [reflexivity|discriminate].
  - rewrite <- Hl. unfold live_params in Hsz. rewrite used_length in Hsz by lia.
    rewrite bool_decide_eq_false_2 by (intros [? ?]; discriminate).
    destruct (Z.leb_spec 32 (param_count ctx)); destruct (Nat.ltb_spec (size m) 32); cbn [orb fst snd];
      try lia; split; (reflexivity || discriminate).
Qed.

Lemma config_set_refines ctx m k v :
  represents ctx m -> c_string k -> (length k < CONFIG_KEY_MAX_LEN)%nat -> c_string v ->
  (config_set_param ctx (Some k) (Some v)).1 = (spec_set m k v).1 /\
  represents (config_set_param ctx (Some k) (Some v)).2 (spec_set m k v).2.
Proof.
  intros Hrep Hk Hlk Hv. destruct (config_set_code ctx m k v Hrep) as [Hcode Hsame].
  split; [exact Hcode|]. revert Hcode Hsame. unfold spec_set.
  destruct (_ || _) eqn:Hroom; cbn [fst snd]; intros Hcode Hsame; [clear Hsame|rewrite Hsame; auto].
  destruct (config_set_param ctx (Some k) (Some v)) as [code ctx'] eqn:Hset; cbn [fst snd] in Hcode |- *; subst code.
  destruct Hrep as [Hwf Hnd He Hsz Hl].
  destruct (config_set_upsert ctx k v ctx' Hwf Hk Hlk Hset) as (p & Hpk & Hpv & Hpe & Hlive & Hwf').
  split; [exact Hwf'| | | |]; rewrite ?Hlive.
  - apply (upsert_NoDup param_key has_param has_param_spec); assumption.
  - unfold upsert. destruct (find_index _ _); [apply Forall_insert; assumption|].
    apply Forall_app_2; [assumption|constructor; auto].
  - rewrite (upsert_length has_param), Hsz, map_size_insert.
    pose proof (Hl k) as Hlk'. unfold keyed_lookup, find_first in Hlk'.
    destruct (find_index (has_param k) (live_params ctx)) as [i|] eqn:Hf; cbn in Hlk'.
    + apply find_index_lookup in Hf as (q & Hq & _). rewrite Hq in Hlk'. cbn in Hlk'. rewrite <- Hlk'. cbn. lia.
    + rewrite <- Hlk'. cbn. lia.
  - intros k'. rewrite <- Hpk at 1. rewrite (upsert_lookup param_key has_param has_param_spec).
    rewrite lookup_insert. destruct (has_param k' p) eqn:Hh.
    + apply has_param_spec in Hh. rewrite Hpk in Hh. subst k'. rewrite decide_True by reflexivity.
      cbn. rewrite Hpv. unfold stored_value. rewrite cstr_of_strncpy by exact Hv. reflexivity.
    + rewrite decide_False; [apply Hl|]. intros ->. apply has_param_spec in Hpk. congruence.
Qed.

Lemma config_init_represents octx ctx :
  config_engine_init octx = (CONFIG_OK, Some ctx) -> represents ctx ∅.
Proof.
  destruct octx; [|discriminate]. intros [= <-]. split.
  - split; cbn; [reflexivity|reflexivity|unfold CONFIG_MAX_PARAMS; lia|apply Forall_nil_2].
  - apply NoDup_nil_2.
  - apply Forall_nil_2.
  - reflexivity.
  - intros k. rewrite lookup_empty. reflexivity.
Qed.

Definition settings : Type := list (list Z * list Z).

(** The answers to a sequence of sets, and the state after it. *)
Definition set_all {S} (next : S -> list Z -> list Z -> ConfigResult_t * S) (s : S) (l : settings)
  : list ConfigResult_t * S :=
  fold_left (fun '(out, s) '(k, v) => let '(r, s) := next s k v in (out ++ [r], s)) l ([], s).

Lemma set_all_snoc {S} (next : S -> list Z -> list Z -> ConfigResult_t * S) s l k v :
  set_all next s (l ++ [(k, v)]) =
  ((set_all next s l).1 ++ [(next (set_all next s l).2 k v).1], (next (set_all next s l).2 k v).2).
Proof.
  unfold set_all. rewrite fold_left_app. cbn. destruct (fold_left _ l _) as [out s']. cbn.
  destruct (next s' k v). reflexivity.
Qed.

Definition set_param ctx (k v : list Z) := config_set_param ctx (Some k) (Some v).

Definition good_setting (kv : list Z * list Z) : Prop :=
  c_string kv.1 /\ (length kv.1 < CONFIG_KEY_MAX_LEN)%nat /\ c_string kv.2.

Lemma set_all_refines ctx m l :
  represents ctx m -> Forall good_setting l ->
  (set_all set_param ctx l).1 = (set_all spec_set m l).1 /\
  represents (set_all set_param ctx l).2 (set_all spec_set m l).2.
Proof.
  intros Hrep. induction l as [|[k v] l IH] using rev_ind; intros Hl; [auto|].
  apply Forall_app in Hl as [Hl [(Hk & Hlk & Hv) _]%Forall_cons].
  destruct (IH Hl) as [Ha Hr]. rewrite !set_all_snoc, Ha.
  destruct (config_set_refines _ _ k v Hr Hk Hlk Hv) as [Hc Hr']. unfold set_param in *.
  rewrite Hc. auto.
Qed.

Lemma config_get_spec ctx m k len :
  represents ctx m -> 0 < len ->
  config_get_param ctx (Some k) true len =
  Some (match m !! k with
        | Some v => (CONFIG_OK, Some (strncpy (Z.to_nat (len - 1)) v ++ [0]))
        | None => (CONFIG_ERR_NOT_FOUND, None)
        end).
Proof.
  intros [[Hi _ _ _] _ _ _ Hl] Hlen. unfold config_get_param, find_param. rewrite Hi. cbn [negb orb].
  fold (live_params ctx). rewrite <- Hl. unfold keyed_lookup, find_first.
  destruct (find_index (has_param k) (live_params ctx)) as [i|] eqn:Hf; [|reflexivity].
  apply find_index_lookup in Hf as (p & Hp & _). cbn [mbind option_bind]. rewrite Hp.
  apply lookup_take_Some in Hp as [-> _]. destruct (Z.eqb_spec len 0); [lia|]. reflexivity.
Qed.

(** ** The active profile *)

Record wf_profiles ctx : Prop := {
  wfr_init : initialized ctx = true;
  wfr_size : length (profiles ctx) = 4%nat;
  wfr_count : 0 <= profile_count ctx <= CONFIG_MAX_PROFILES }.

Definition live_profiles ctx : list (ProfileRegistration_t V) := used (profile_count ctx) (profiles ctx).

Lemma deactivate_used ctx :
  wf_profiles ctx ->
  used (profile_count ctx) (profiles (deactivate_all ctx)) =
  (fun p => p <| p_active := false |>) <$> live_profiles ctx.
Proof.
  intros [_ Hs Hc]. unfold CONFIG_MAX_PROFILES in Hc. unfold deactivate_all, live_profiles. cbn.
  unfold used at 1. apply take_app_length'. rewrite length_fmap, used_length by lia. reflexivity.
Qed.

Lemma deactivate_lookup ctx i :
  wf_profiles ctx ->
  profiles (deactivate_all ctx) !! i = (fun p => if (i <? Z.to_nat (profile_count ctx))%nat
                                                 then p <| p_active := false |> else p) <$> profiles ctx !! i.
Proof.
  intros Hwf. pose proof Hwf as [_ Hs Hc]. unfold CONFIG_MAX_PROFILES in Hc.
  destruct (Nat.ltb_spec i (Z.to_nat (profile_count ctx))) as [Hlt|Hge].
  - transitivity (used (profile_count ctx) (profiles (deactivate_all ctx)) !! i).
    { unfold used. symmetry. apply lookup_take_lt. exact Hlt. }
    rewrite (deactivate_used ctx Hwf), list_lookup_fmap. unfold live_profiles, used.
    rewrite lookup_take_lt by exact Hlt. reflexivity.
  - unfold deactivate_all. cbn.
    rewrite lookup_app_r by (rewrite length_fmap, used_length by lia; exact Hge).
    rewrite length_fmap, used_length, lookup_drop by lia.
    replace (Z.to_nat (profile_count ctx) + (i - Z.to_nat (profile_count ctx)))%nat with i by lia.
    destruct (profiles ctx !! i); reflexivity.
Qed.

Lemma has_profile_fmap i (l : list (ProfileRegistration_t V)) :
  find_index (has_profile i) ((fun p => p <| p_active := false |>) <$> l) = find_index (has_profile i) l.
Proof. induction l as [|p l IH]; [reflexivity|]. cbn in *. rewrite IH. reflexivity. Qed.

(** ** Properties *)

(** From initialisation, sets with keys that fit their field give the answers
    of a finite map of at most 32 keys whose values are cut to 63 bytes, and
    every get afterwards returns the map's value, cut to the caller's buffer. *)
Theorem params_refine_map octx ctx l k len :
  config_engine_init octx = (CONFIG_OK, Some ctx) -> Forall good_setting l -> 0 < len ->
  let '(answers, ctx') := set_all set_param ctx l in
  let '(spec_answers, m) := set_all spec_set ∅ l in
  answers = spec_answers /\
  config_get_param ctx' (Some k) true len =
  Some (match m !! k with
        | Some v => (CONFIG_OK, Some (strncpy (Z.to_nat (len - 1)) v ++ [0]))
        | None => (CONFIG_ERR_NOT_FOUND, None)
        end).
Proof.
  intros Hi Hl Hlen. destruct (set_all_refines ctx ∅ l (config_init_represents _ _ Hi) Hl) as [Ha Hr].
  destruct (set_all set_param ctx l), (set_all spec_set ∅ l). cbn in *.
  split; [exact Ha|]. apply config_get_spec; assumption.
Qed.

(** A key of 32 bytes or more is cut when it is stored and compared whole when
    it is looked up: each set of it that is accepted takes another slot of the
    table, and no get ever finds it. *)
Theorem long_key_lost ctx k v len :
  wf_params ctx -> c_string k -> (CONFIG_KEY_MAX_LEN <= length k)%nat ->
  param_count ctx < CONFIG_MAX_PARAMS ->
  let '(res, ctx') := config_set_param ctx (Some k) (Some v) in
  res = CONFIG_OK /\ wf_params ctx' /\ param_count ctx' = param_count ctx + 1 /\
  config_get_param ctx' (Some k) true len = Some (CONFIG_ERR_NOT_FOUND, None).
Proof.
  intros Hwf Hk Hlk Hroom. unfold CONFIG_MAX_PARAMS, CONFIG_KEY_MAX_LEN in *.
  assert (forall c, wf_params c -> find_param c k = None) as Hmiss.
  { intros c [_ _ _ Hkeys]. apply find_index_None. intros p Hp. apply not_true_iff_false.
    intros Ht. apply has_param_spec in Ht. rewrite Forall_forall in Hkeys. specialize (Hkeys p Hp).
    rewrite Ht in Hkeys. unfold CONFIG_KEY_MAX_LEN in Hkeys. lia. }
  pose proof Hwf as [Hi Hs Hc Hkeys]. unfold config_set_param. rewrite Hi, (Hmiss ctx Hwf).
  unfold CONFIG_MAX_PARAMS. destruct (Z.leb_spec 32 (param_count ctx)) as [|_]; [lia|]. cbn [negb].
  set (p := mk_param _ _ true true).
  match goal with |- context [wf_params ?c] => assert (wf_params c) as Hwf' end.
  { split; [exact Hi|cbn; rewrite store_length; exact Hs|cbn; unfold CONFIG_MAX_PARAMS; words|].
    rewrite live_append by lia. apply Forall_app_2; [exact Hkeys|]. constructor; [|constructor].
    unfold param_key. cbn [key p]. rewrite cstr_of_strncpy by exact Hk.
    rewrite length_take. unfold CONFIG_KEY_MAX_LEN. lia. }
  split; [reflexivity|]. split; [exact Hwf'|]. split; [cbn; words|].
  unfold config_get_param. rewrite (wfp_init _ Hwf'), (Hmiss _ Hwf'). reflexivity.
Qed.

(** Activating a profile: a registered one becomes the active one, whose vtable
    and id the getters return.  An unknown id is an error that clears the flag of
    every profile, but the getters go on returning the old profile. *)
Theorem set_active_spec ctx i :
  wf_profiles ctx -> 0 <= active_profile_index ctx ->
  let '(res, ctx') := config_set_active_profile ctx i in
  match find_first (has_profile i) (live_profiles ctx) with
  | Some p =>
      res = CONFIG_OK /\ config_get_active_vtable ctx' = vtable p /\
      config_get_active_profile_id ctx' = i
  | None =>
      res = CONFIG_ERR_NOT_FOUND /\ Forall (fun p => p_active p = false) (live_profiles ctx') /\
      config_get_active_vtable ctx' = config_get_active_vtable ctx /\
      config_get_active_profile_id ctx' = config_get_active_profile_id ctx
  end.
Proof.
  intros Hwf Hidx. pose proof Hwf as [Hi Hs Hc]. unfold config_set_active_profile. rewrite Hi. cbn [negb].
  change (profile_count (deactivate_all ctx)) with (profile_count ctx).
  rewrite (deactivate_used ctx Hwf), has_profile_fmap. unfold find_first.
  destruct (find_index (has_profile i) (live_profiles ctx)) as [n|] eqn:Hf; cbn [mbind option_bind].
  - apply find_index_lt in Hf as Hlt. apply find_index_lookup in Hf as (p & Hp & Hip). rewrite Hp.
    unfold live_profiles in Hlt, Hp. apply lookup_take_Some in Hp as [Hp _].
    rewrite used_length in Hlt by (unfold CONFIG_MAX_PROFILES in Hc; lia).
    split; [reflexivity|]. unfold config_get_active_vtable, config_get_active_profile_id.
    cbn [initialized profile_count active_profile_index profiles set_field].
    change (initialized (deactivate_all ctx)) with (initialized ctx).
    change (profile_count (deactivate_all ctx)) with (profile_count ctx). rewrite Hi. cbn [negb]. destruct (Z.leb_spec (profile_count ctx) (Z.of_nat n)); [lia|]. rewrite Nat2Z.id.
    rewrite list_lookup_alter_eq.
    rewrite (deactivate_lookup ctx n Hwf), Hp.
    unfold has_profile in Hip. apply Z.eqb_eq in Hip.
    destruct (n <? Z.to_nat (profile_count ctx))%nat; cbn; auto.
  - split; [reflexivity|]. split.
    { unfold live_profiles at 1. change (profile_count (deactivate_all ctx)) with (profile_count ctx).
      rewrite (deactivate_used ctx Hwf). apply Forall_fmap, Forall_true. reflexivity. }
    unfold config_get_active_vtable, config_get_active_profile_id.
    change (initialized (deactivate_all ctx)) with (initialized ctx).
    change (profile_count (deactivate_all ctx)) with (profile_count ctx).
    change (active_profile_index (deactivate_all ctx)) with (active_profile_index ctx).
    rewrite (deactivate_lookup ctx _ Hwf).
    destruct (profiles ctx !! Z.to_nat (active_profile_index ctx)); [|auto].
    destruct (Z.to_nat (active_profile_index ctx) <? Z.to_nat (profile_count ctx))%nat; auto.
Qed.

(** With four profiles registered, registering one of them again is refused, so
    a registration can no longer be updated. *)
Theorem full_engine_cannot_update ctx i vt nm :
  wf_profiles ctx -> profile_count ctx = CONFIG_MAX_PROFILES ->
  config_register_profile ctx i (Some vt) (Some nm) = (CONFIG_ERR_FULL, ctx).
Proof. intros [Hi _ _] Hc. unfold config_register_profile. rewrite Hi, Hc. reflexivity. Qed.

End engine.

(** ** The theorems on a concrete engine *)

Definition demo_ctx : ConfigEngineContext_t nat :=
  default zero_ctx (config_engine_init (Some zero_ctx)).2.

Definition demo_settings : settings := [(cstr "a", cstr "1"); (cstr "b", cstr "2"); (cstr "a", cstr "33")].

Lemma demo_settings_good : Forall good_setting demo_settings.
Proof. repeat constructor; cbn; unfold CONFIG_KEY_MAX_LEN; lia. Qed.

Lemma params_refine_map_witness :
  config_get_param (set_all set_param demo_ctx demo_settings).2 (Some (cstr "a")) true 8
  = Some (CONFIG_OK, Some (cstr "33" ++ zeros 6)).
Proof.
  pose proof (params_refine_map (Some zero_ctx) demo_ctx demo_settings (cstr "a") 8 eq_refl
                demo_settings_good ltac:(lia)) as H.
  destruct (set_all set_param demo_ctx demo_settings) as [answers ctx'].
  vm_compute in H. cbn [snd]. destruct H as [_ H]. vm_compute. exact H.
Defined.

Lemma long_key_lost_witness :
  param_count (config_set_param demo_ctx (Some (replicate 40 107)) (Some (cstr "1"))).2 = 1.
Proof.
  pose proof (long_key_lost demo_ctx (replicate 40 107) (cstr "1") 8) as H.
  destruct (config_set_param _ _ _) as [res ctx']. cbn [snd].
  apply H.
  - split; [reflexivity|reflexivity|cbn; unfold CONFIG_MAX_PARAMS; lia|apply Forall_nil_2].
  - apply Forall_replicate. discriminate.
  - rewrite length_replicate. unfold CONFIG_KEY_MAX_LEN. lia.
  - reflexivity.
Defined.

(** Home and HVAC registered, home active. *)
Definition demo_profiles : ConfigEngineContext_t nat :=
  let ctx := (config_register_profile demo_ctx 1 (Some 10%nat) (Some (cstr "home"))).2 in
  let ctx := (config_register_profile ctx 3 (Some 30%nat) (Some (cstr "hvac"))).2 in
  (config_set_active_profile ctx 1).2.

Lemma demo_profiles_wf : wf_profiles demo_profiles.
Proof. split; [reflexivity|reflexivity|vm_compute; split; discriminate]. Qed.

Lemma set_active_spec_witness :
  config_get_active_vtable (config_set_active_profile demo_profiles 2).2 = Some 10%nat /\
  Forall (fun p => p_active p = false) (live_profiles (config_set_active_profile demo_profiles 2).2).
Proof.
  pose proof (set_active_spec demo_profiles 2 demo_profiles_wf ltac:(vm_compute; discriminate)) as H.
  destruct (config_set_active_profile demo_profiles 2) as [res ctx'].
  change (find_first (has_profile 2) (live_profiles demo_profiles)) with
    (@None (ProfileRegistration_t nat)) in H.
  cbn [snd]. destruct H as (_ & Hf & -> & _). split; [reflexivity|exact Hf].
Defined.

Lemma full_engine_cannot_update_witness :
  let ctx := (config_register_profile (config_register_profile demo_profiles 2 (Some 20%nat) (Some [])).2
                4 (Some 40%nat) (Some [])).2 in
  config_register_profile ctx 1 (Some 11%nat) (Some []) = (CONFIG_ERR_FULL, ctx).
Proof.
  intros ctx. apply (full_engine_cannot_update ctx 1 11%nat []); [|reflexivity].
  split; [reflexivity|reflexivity|vm_compute; split; discriminate].
Defined.

End config_engine.
