(* ===== verification/PowerState.v ===== *)
(** The power states of an edge node (firmware/edge/power_state.c): a state that
    follows the battery voltage down and never up. *)

From S2P Require Import Prelude.

Module power_state.

Definition POWER_LOW_BATTERY_MV : Z := 3200.
Definition POWER_CRITICAL_BATTERY_MV : Z := 2800.
Definition POWER_EMERGENCY_BATTERY_MV : Z := 2500.
Definition POWER_SHUTDOWN_BATTERY_MV : Z := 2300.

Inductive PowerState_t :=
| POWER_STATE_ACTIVE
| POWER_STATE_IDLE
| POWER_STATE_SLEEP
| POWER_STATE_EMERGENCY
| POWER_STATE_SHUTDOWN.

#[export] Instance PowerState_eq_dec : EqDecision PowerState_t.
Proof. solve_decision. Defined.

Inductive PowerTransitionResult_t :=
| POWER_TRANSITION_OK
| POWER_TRANSITION_ERR_PARAM_NULL
| POWER_TRANSITION_ERR_INVALID.

Record PowerStateConfig_t := mk_config {
  low_battery_mv : Z;
  critical_battery_mv : Z;
  emergency_battery_mv : Z;
  shutdown_battery_mv : Z }.

Record PowerStateContext_t := mk_ctx {
  current : PowerState_t;
  config : PowerStateConfig_t;
  battery_mv : Z;
  wake_on_radio : bool;
  wake_on_timer : bool;
  initialized : bool }.

#[export] Instance eta_ctx : Eta PowerStateContext_t := fun r =>
  mk_ctx (current r) (config r) (battery_mv r) (wake_on_radio r) (wake_on_timer r) (initialized r).

Definition zero_ctx : PowerStateContext_t :=
  mk_ctx POWER_STATE_ACTIVE (mk_config 0 0 0 0) 0 false false false.

Definition power_state_init_custom (octx : option PowerStateContext_t) (cfg : option PowerStateConfig_t)
  : PowerTransitionResult_t * option PowerStateContext_t :=
  match octx, cfg with
  | Some _, Some c =>
      (POWER_TRANSITION_OK,
       Some (zero_ctx <| config := c |> <| current := POWER_STATE_ACTIVE |> <| initialized := true |>))
  | _, _ => (POWER_TRANSITION_ERR_PARAM_NULL, octx)
  end.

Definition default_config : PowerStateConfig_t :=
  mk_config POWER_LOW_BATTERY_MV POWER_CRITICAL_BATTERY_MV POWER_EMERGENCY_BATTERY_MV
    POWER_SHUTDOWN_BATTERY_MV.

Definition power_state_init (octx : option PowerStateContext_t)
  : PowerTransitionResult_t * option PowerStateContext_t :=
  power_state_init_custom octx (Some default_config).

(** A NULL or uninitialised context reports SHUTDOWN. *)
Definition power_state_evaluate (octx : option PowerStateContext_t) (mv : Z)
  : PowerState_t * option PowerStateContext_t :=
  match octx with
  | None => (POWER_STATE_SHUTDOWN, None)
  | Some ctx =>
      if negb (initialized ctx) then (POWER_STATE_SHUTDOWN, octx)
      else
        let ctx := ctx <| battery_mv := mv |> in
        let cfg := config ctx in
        let ctx :=
          if mv <=? shutdown_battery_mv cfg then ctx <| current := POWER_STATE_SHUTDOWN |>
          else if mv <=? emergency_battery_mv cfg then
            if bool_decide (current ctx <> POWER_STATE_SHUTDOWN)
            then ctx <| current := POWER_STATE_EMERGENCY |> else ctx
          else if mv <=? critical_battery_mv cfg then
            if bool_decide (current ctx = POWER_STATE_ACTIVE) || bool_decide (current ctx = POWER_STATE_IDLE)
            then ctx <| current := POWER_STATE_SLEEP |> else ctx
          else if mv <=? low_battery_mv cfg then
            if bool_decide (current ctx = POWER_STATE_ACTIVE)
            then ctx <| current := POWER_STATE_IDLE |> else ctx
          else ctx in
        (current ctx, Some ctx)
  end.

Definition power_state_get_current (octx : option PowerStateContext_t) : PowerState_t :=
  match octx with
  | Some ctx => if negb (initialized ctx) then POWER_STATE_SHUTDOWN else current ctx
  | None => POWER_STATE_SHUTDOWN
  end.

(** The four queries compare the current state, after the same guard. *)
Definition query (p : PowerState_t -> bool) (unready : bool) (octx : option PowerStateContext_t) : bool :=
  match octx with
  | Some ctx => if negb (initialized ctx) then unready else p (current ctx)
  | None => unready
  end.

Definition power_state_sensors_active := query (fun s => bool_decide (s = POWER_STATE_ACTIVE)) false.
Definition power_state_radio_active := query (fun s => bool_decide (s = POWER_STATE_ACTIVE)) false.
Definition power_state_cloud_active :=
  query (fun s => bool_decide (s = POWER_STATE_ACTIVE) || bool_decide (s = POWER_STATE_IDLE)) false.
Definition power_state_safety_active := query (fun s => bool_decide (s <> POWER_STATE_SHUTDOWN)) false.
Definition power_state_should_shutdown := query (fun s => bool_decide (s = POWER_STATE_SHUTDOWN)) true.

(** ** The order of the states *)

Definition severity (s : PowerState_t) : Z :=
  match s with
  | POWER_STATE_ACTIVE => 0 | POWER_STATE_IDLE => 1 | POWER_STATE_SLEEP => 2
  | POWER_STATE_EMERGENCY => 3 | POWER_STATE_SHUTDOWN => 4
  end.

Definition worse (a b : PowerState_t) : PowerState_t := if severity a <? severity b then b else a.

Lemma severity_inj a b : severity a = severity b -> a = b.
Proof. destruct a, b; cbn; congruence. Qed.

Lemma severity_worse a b : severity (worse a b) = Z.max (severity a) (severity b).
Proof. unfold worse. destruct (Z.ltb_spec (severity a) (severity b)); lia. Qed.

Lemma worse_assoc a b c : worse (worse a b) c = worse a (worse b c).
Proof. apply severity_inj. rewrite !severity_worse. lia. Qed.

(** The state a voltage calls for. *)
Definition level (cfg : PowerStateConfig_t) (mv : Z) : PowerState_t :=
  if mv <=? shutdown_battery_mv cfg then POWER_STATE_SHUTDOWN
  else if mv <=? emergency_battery_mv cfg then POWER_STATE_EMERGENCY
  else if mv <=? critical_battery_mv cfg then POWER_STATE_SLEEP
  else if mv <=? low_battery_mv cfg then POWER_STATE_IDLE
  else POWER_STATE_ACTIVE.

Lemma evaluate_worse ctx mv :
  initialized ctx = true ->
  power_state_evaluate (Some ctx) mv =
  (worse (current ctx) (level (config ctx) mv),
   Some (ctx <| battery_mv := mv |> <| current := worse (current ctx) (level (config ctx) mv) |>)).
Proof.
  intros Hi. destruct ctx as [s c b wr wt i]. cbn in Hi. subst i. unfold power_state_evaluate, level. cbn.
  destruct (mv <=? shutdown_battery_mv c); [destruct s; reflexivity|].
  destruct (mv <=? emergency_battery_mv c); [destruct s; reflexivity|].
  destruct (mv <=? critical_battery_mv c); [destruct s; reflexivity|].
  destruct (mv <=? low_battery_mv c); destruct s; reflexivity.
Qed.

(** Lower voltages call for states at least as severe. *)
Lemma level_antitone cfg a b : a <= b -> severity (level cfg b) <= severity (level cfg a).
Proof.
  intros Hab. unfold level.
  repeat match goal with |- context [?x <=? ?y] => destruct (Z.leb_spec x y) end; cbn; lia.
Qed.

Lemma level_min cfg a b : worse (level cfg a) (level cfg b) = level cfg (Z.min a b).
Proof.
  apply severity_inj. rewrite severity_worse.
  destruct (Z.le_ge_cases a b) as [H|H].
  - rewrite Z.min_l by exact H. pose proof (level_antitone cfg a b H). lia.
  - rewrite Z.min_r by exact H. pose proof (level_antitone cfg b a H). lia.
Qed.

(** ** A sequence of battery readings *)

Fixpoint evaluate_all (octx : option PowerStateContext_t) (mvs : list Z)
  : list PowerState_t * option PowerStateContext_t :=
  match mvs with
  | [] => ([], octx)
  | mv :: mvs =>
      let '(s, octx) := power_state_evaluate octx mv in
      let '(ss, octx) := evaluate_all octx mvs in (s :: ss, octx)
  end.

Definition lowest (mv : Z) (mvs : list Z) : Z := fold_left Z.min mvs mv.

Lemma level_lowest cfg mv mv' mvs :
  worse (level cfg mv) (level cfg (lowest mv' mvs)) = level cfg (lowest mv (mv' :: mvs)).
Proof.
  revert mv mv'. induction mvs as [|x mvs IH]; intros mv mv'; cbn.
  - apply level_min.
  - unfold lowest in IH. rewrite (IH mv (Z.min mv' x)). cbn. rewrite Z.min_assoc. reflexivity.
Qed.

Lemma evaluate_all_spec ctx mv mvs :
  initialized ctx = true ->
  exists ctx', (evaluate_all (Some ctx) (mv :: mvs)).2 = Some ctx' /\
    initialized ctx' = true /\ config ctx' = config ctx /\
    current ctx' = worse (current ctx) (level (config ctx) (lowest mv mvs)).
Proof.
  revert ctx mv. induction mvs as [|mv' mvs IH]; intros ctx mv Hi; cbn [evaluate_all].
  - rewrite evaluate_worse by exact Hi. cbn. eexists. repeat split; cbn; auto.
  - rewrite evaluate_worse by exact Hi.
    set (ctx1 := ctx <| battery_mv := mv |> <| current := worse (current ctx) (level (config ctx) mv) |>).
    destruct (IH ctx1 mv' Hi) as (ctx' & He & Hi' & Hc & Hs). revert He. cbn [evaluate_all].
    destruct (power_state_evaluate (Some ctx1) mv') as [s o]. destruct (evaluate_all o mvs) as [ss o'].
    cbn. intros ->. eexists. split; [reflexivity|]. split; [exact Hi'|]. split; [exact Hc|].
    rewrite Hs. change (config ctx1) with (config ctx).
    change (current ctx1) with (worse (current ctx) (level (config ctx) mv)).
    rewrite worse_assoc, level_lowest. reflexivity.
Qed.

(** The number of places where the state changes along a run. *)
Fixpoint changes (s : PowerState_t) (ss : list PowerState_t) : nat :=
  match ss with
  | [] => 0
  | s' :: ss => (if bool_decide (s = s') then 0 else 1) + changes s' ss
  end.

(** ** Properties *)

(** C37. The state of a node that was initialised is a function of the lowest voltage
    it has ever read: the state that voltage calls for, whatever came before or
    after it; so a battery that recovers never wakes the node. *)
Theorem state_of_lowest octx cfg ctx mv mvs :
  power_state_init_custom octx (Some cfg) = (POWER_TRANSITION_OK, Some ctx) ->
  power_state_get_current (evaluate_all (Some ctx) (mv :: mvs)).2 = level cfg (lowest mv mvs).
Proof.
  destruct octx; [|discriminate]. intros [= <-].
  set (ctx := zero_ctx <| config := cfg |> <| current := POWER_STATE_ACTIVE |> <| initialized := true |>).
  destruct (evaluate_all_spec ctx mv mvs eq_refl) as (ctx' & -> & Hi & _ & Hc).
  unfold power_state_get_current. rewrite Hi. cbn [negb]. rewrite Hc.
  change (current ctx) with POWER_STATE_ACTIVE. change (config ctx) with cfg.
  destruct (level cfg (lowest mv mvs)); reflexivity.
Qed.

(** C39. The state machine settles: along any sequence of readings, of any length,
    the state changes at most as often as there are states below it. *)
Theorem power_state_settles ctx mvs :
  initialized ctx = true ->
  Z.of_nat (changes (current ctx) (evaluate_all (Some ctx) mvs).1) <= 4 - severity (current ctx).
Proof.
  revert ctx. induction mvs as [|mv mvs IH]; intros ctx Hi; cbn [evaluate_all].
  - cbn. destruct (current ctx); cbn; lia.
  - rewrite evaluate_worse by exact Hi.
    set (ctx1 := ctx <| battery_mv := mv |> <| current := worse (current ctx) (level (config ctx) mv) |>).
    specialize (IH ctx1 Hi). destruct (evaluate_all (Some ctx1) mvs) as [ss o]. cbn [fst changes] in *.
    change (current ctx1) with (worse (current ctx) (level (config ctx) mv)) in IH.
    pose proof (severity_worse (current ctx) (level (config ctx) mv)) as Hs.
    case_bool_decide as Heq; [apply (f_equal severity) in Heq; lia|].
    assert (severity (current ctx) <> severity (worse (current ctx) (level (config ctx) mv)))
      by (intros E; apply Heq, severity_inj, E). lia.
Qed.

(** ** The theorems on a concrete node *)

Lemma state_of_lowest_witness :
  power_state_get_current (evaluate_all (power_state_init (Some zero_ctx)).2 [3300; 2700; 4200]).2
  = POWER_STATE_SLEEP.
Proof.
  cbn [power_state_init power_state_init_custom snd].
  rewrite (state_of_lowest (Some zero_ctx) default_config _ 3300 [2700; 4200] eq_refl). reflexivity.
Defined.

Definition demo_node : PowerStateContext_t :=
  zero_ctx <| config := default_config |> <| initialized := true |>.

Definition demo_readings : list Z := [3300; 3100; 3300; 2600; 2200; 4000].

Lemma power_state_settles_witness :
  (evaluate_all (Some demo_node) demo_readings).1
    = [POWER_STATE_ACTIVE; POWER_STATE_IDLE; POWER_STATE_IDLE; POWER_STATE_SLEEP;
       POWER_STATE_SHUTDOWN; POWER_STATE_SHUTDOWN] /\
  Z.of_nat (changes (current demo_node) (evaluate_all (Some demo_node) demo_readings).1)
    <= 4 - severity (current demo_node).
Proof.
  split; [vm_compute; reflexivity|].
  exact (power_state_settles demo_node demo_readings eq_refl).
Defined.

End power_state.
