(* ===== verification/PowerProfile.v ===== *)
(** Power profiles (firmware/shared/power_profile.c): the table of profiles and
    the action a battery reading calls for. *)

From S2P Require Import Prelude.

Module power_profile.

Definition POWER_PROFILE_MAX_PROFILES : Z := 8.

Inductive PowerSource_t := POWER_SOURCE_MAINS | POWER_SOURCE_BATTERY | POWER_SOURCE_SOLAR.

Record PowerProfile_t := mk_profile {
  source : PowerSource_t;
  active_duration_ms : Z;
  sleep_duration_ms : Z;
  low_battery_mv : Z;
  critical_battery_mv : Z;
  deep_sleep_enabled : bool;
  telemetry_duty_cycle : bool }.

Record PowerState_t := mk_state_t {
  last_wake_ms : Z;
  last_sleep_ms : Z;
  battery_mv : Z;
  cycle_count : Z;
  low_battery : bool;
  critical_battery : bool }.

#[export] Instance eta_power : Eta PowerState_t := fun r =>
  mk_state_t (last_wake_ms r) (last_sleep_ms r) (battery_mv r) (cycle_count r) (low_battery r)
    (critical_battery r).

Inductive PowerAction_t :=
| POWER_ACTION_STAY_ACTIVE
| POWER_ACTION_THROTTLE
| POWER_ACTION_ENTER_SLEEP
| POWER_ACTION_ENTER_DEEP_SLEEP
| POWER_ACTION_SHUTDOWN.

#[export] Instance PowerAction_eq_dec : EqDecision PowerAction_t.
Proof. solve_decision. Defined.

Definition zero_profile : PowerProfile_t := mk_profile POWER_SOURCE_MAINS 0 0 0 0 false false.

Record state := mk_state {
  g_profiles : list PowerProfile_t;
  g_profile_count : Z;
  g_initialised : bool }.

#[export] Instance eta_state : Eta state := fun r =>
  mk_state (g_profiles r) (g_profile_count r) (g_initialised r).

Definition initial : state := mk_state (replicate 8 zero_profile) 0 false.

Definition power_profile_init (st : state) : bool * state :=
  (true, st <| g_profiles := replicate 8 zero_profile |> <| g_profile_count := 0 |>
            <| g_initialised := true |>).

Definition power_profile_register (st : state) (profile : option PowerProfile_t) : bool * state :=
  match profile with
  | None => (false, st)
  | Some p =>
      if negb (g_initialised st) then (false, st)
      else if POWER_PROFILE_MAX_PROFILES <=? g_profile_count st then (false, st)
      else (true, st <| g_profiles := store (g_profile_count st) p (g_profiles st) |>
                     <| g_profile_count := u8 (g_profile_count st + 1) |>)
  end.

Definition power_profile_get (st : state) (index : Z) : option PowerProfile_t :=
  if negb (g_initialised st) || (g_profile_count st <=? index) then None
  else g_profiles st !! Z.to_nat index.

Definition power_profile_evaluate (st : state) (ostate : option PowerState_t)
    (profile : option PowerProfile_t) (current_ms mv : Z) : PowerAction_t * option PowerState_t :=
  match ostate, profile with
  | Some s, Some p =>
      if negb (g_initialised st) then (POWER_ACTION_STAY_ACTIVE, ostate)
      else
        let s := s <| battery_mv := mv |> in
        if (0 <? mv) && (0 <? critical_battery_mv p) then
          if mv <? critical_battery_mv p then
            (POWER_ACTION_SHUTDOWN, Some (s <| critical_battery := true |> <| low_battery := true |>))
          else if mv <? low_battery_mv p then
            (POWER_ACTION_THROTTLE, Some (s <| low_battery := true |>))
          else (POWER_ACTION_STAY_ACTIVE, Some (s <| low_battery := false |> <| critical_battery := false |>))
        else (POWER_ACTION_STAY_ACTIVE, Some s)
  | _, _ => (POWER_ACTION_STAY_ACTIVE, ostate)
  end.

Definition power_profile_count (st : state) : Z := g_profile_count st.

Definition power_profile_create_mains : PowerProfile_t :=
  mk_profile POWER_SOURCE_MAINS 0 0 0 0 false false.

Definition critical_of (low_battery_mv : Z) : Z :=
  if 200 <? low_battery_mv then low_battery_mv - 200 else 2800.

Definition power_profile_create_battery (active_ms sleep_ms low_battery_mv : Z) : PowerProfile_t :=
  mk_profile POWER_SOURCE_BATTERY active_ms sleep_ms low_battery_mv (critical_of low_battery_mv) true true.

Definition power_profile_create_solar (active_ms sleep_ms low_battery_mv : Z) : PowerProfile_t :=
  mk_profile POWER_SOURCE_SOLAR active_ms sleep_ms low_battery_mv (critical_of low_battery_mv) true true.

(** ** Properties *)

Record wf (st : state) : Prop := {
  wf_size : length (g_profiles st) = 8%nat;
  wf_count : 0 <= g_profile_count st <= POWER_PROFILE_MAX_PROFILES;
  wf_init : g_initialised st = true }.

(** A registration that succeeds appends: the new profile is the last index and
    every earlier index reads as before; it fails exactly when eight are there. *)
Theorem register_appends st p :
  wf st ->
  let '(ok, st') := power_profile_register st (Some p) in
  (ok = true <-> power_profile_count st < POWER_PROFILE_MAX_PROFILES) /\ wf st' /\
  (ok = true -> power_profile_get st' (power_profile_count st) = Some p /\
     forall i, 0 <= i < power_profile_count st -> power_profile_get st' i = power_profile_get st i) /\
  (ok = false -> st' = st).
Proof.
  intros [Hs Hc Hi]. unfold power_profile_register, power_profile_get, power_profile_count,
    POWER_PROFILE_MAX_PROFILES in *. rewrite Hi. cbn [negb].
  destruct (Z.leb_spec 8 (g_profile_count st)).
  - split; [split; [discriminate|lia]|]. split; [split; auto|]. split; [discriminate|reflexivity].
  - split; [split; [lia|reflexivity]|]. split.
    { split; cbn; [rewrite store_length; exact Hs|unfold POWER_PROFILE_MAX_PROFILES; words|exact Hi]. }
    split; [|discriminate]. intros _. cbn. rewrite Hi. cbn [negb orb].
    rewrite (u8_small (g_profile_count st + 1)) by (unfold is_u8; lia). split.
    + destruct (Z.leb_spec (g_profile_count st + 1) (g_profile_count st)); [lia|].
      unfold store. apply list_lookup_insert_eq. lia.
    + intros i Hik. destruct (Z.leb_spec (g_profile_count st + 1) i); [lia|].
      destruct (Z.leb_spec (g_profile_count st) i); [lia|].
      unfold store. rewrite list_lookup_insert_ne by lia. reflexivity.
Qed.

(** The action is shutdown below the critical threshold, throttling below the
    low one, and otherwise to stay active; the times, the sleep flags and the
    clock play no part, so no reading ever puts a node to sleep. *)
Theorem evaluate_action st s p now mv :
  g_initialised st = true -> 0 < mv -> 0 < critical_battery_mv p ->
  let '(a, s') := power_profile_evaluate st (Some s) (Some p) now mv in
  (a = POWER_ACTION_SHUTDOWN <-> mv < critical_battery_mv p) /\
  (a = POWER_ACTION_THROTTLE <-> critical_battery_mv p <= mv < low_battery_mv p) /\
  a <> POWER_ACTION_ENTER_SLEEP /\ a <> POWER_ACTION_ENTER_DEEP_SLEEP.
Proof.
  intros Hi Hmv Hc. unfold power_profile_evaluate. rewrite Hi. cbn [negb].
  replace (0 <? mv) with true by (symmetry; apply Z.ltb_lt; exact Hmv).
  replace (0 <? critical_battery_mv p) with true by (symmetry; apply Z.ltb_lt; exact Hc).
  cbn [andb]. destruct (Z.ltb_spec mv (critical_battery_mv p)), (Z.ltb_spec mv (low_battery_mv p));
    repeat split; try discriminate; try lia; reflexivity.
Qed.

(** With a low threshold of at most 200 mV the generated critical threshold is
    2800 mV, above the low one: a reading between them shuts the node down. *)
Theorem small_threshold_shuts_down st s active_ms sleep_ms low now mv :
  g_initialised st = true -> 0 <= low <= 200 -> low < mv < 2800 ->
  (power_profile_evaluate st (Some s) (Some (power_profile_create_battery active_ms sleep_ms low)) now mv).1
  = POWER_ACTION_SHUTDOWN.
Proof.
  intros Hi Hlow Hmv.
  pose proof (evaluate_action st s (power_profile_create_battery active_ms sleep_ms low) now mv Hi) as H.
  assert (critical_battery_mv (power_profile_create_battery active_ms sleep_ms low) = 2800) as Hc.
  { cbn. unfold critical_of. destruct (Z.ltb_spec 200 low); [lia|reflexivity]. }
  rewrite Hc in H. specialize (H ltac:(lia) ltac:(lia)).
  destruct (power_profile_evaluate _ _ _ _ _) as [a s']. apply H. lia.
Qed.

(** ** The theorems on concrete profiles *)

Definition demo_state : state := (power_profile_init initial).2.

Lemma demo_power_wf : wf demo_state.
Proof. split; [reflexivity|cbn; unfold POWER_PROFILE_MAX_PROFILES; lia|reflexivity]. Qed.

Lemma register_appends_witness :
  power_profile_get (power_profile_register demo_state (Some power_profile_create_mains)).2 0
  = Some power_profile_create_mains.
Proof.
  pose proof (register_appends demo_state power_profile_create_mains demo_power_wf) as H.
  destruct (power_profile_register _ _) as [ok st'] eqn:E. cbn [snd].
  apply H. vm_compute in E. congruence.
Defined.

Definition demo_power : PowerState_t := mk_state_t 0 0 0 0 false false.

Lemma evaluate_action_witness :
  (power_profile_evaluate demo_state (Some demo_power) (Some (power_profile_create_battery 10 20 3000)) 0 2900).1
  = POWER_ACTION_THROTTLE.
Proof.
  pose proof (evaluate_action demo_state demo_power (power_profile_create_battery 10 20 3000) 0 2900
                eq_refl ltac:(lia) ltac:(cbn; lia)) as H.
  destruct (power_profile_evaluate _ _ _ _ _) as [a s']. cbn [fst]. apply H. cbn. lia.
Defined.

Lemma small_threshold_shuts_down_witness :
  (power_profile_evaluate demo_state (Some demo_power) (Some (power_profile_create_battery 10 20 200)) 0 2700).1
  = POWER_ACTION_SHUTDOWN.
Proof. apply small_threshold_shuts_down; [reflexivity|lia|lia]. Defined.

End power_profile.
