(* ===== verification/TamperDetect.v ===== *)
(** Tamper switch detection (firmware/shared/tamper_detect.c), a client of the
    audit log. *)

From S2P Require Import Prelude Hmac TimeSource AuditLog.
Import hmac.
Import audit_log(audit_log_add, AUDIT_TAMPER_DETECTED).

Module tamper_detect.

Inductive TamperState_t := TAMPER_STATE_NONE | TAMPER_STATE_DETECTED.

#[export] Instance TamperState_eq_dec : EqDecision TamperState_t.
Proof. solve_decision. Defined.

Record TamperConfig_t := mk_config {
  gpio_pin : Z;
  active_high : bool;
  debounce_ms : Z }.

(** [gpio_read] reads a pin of the outside world, which may change meanwhile. *)
Record TamperGpio_t (W : Type) := mk_gpio { gpio_read : option (Z -> W -> bool * W) }.
Arguments mk_gpio {W}. Arguments gpio_read {W}.

(** The statics, and those of the audit log the file calls. *)
Record state (W : Type) := mk_state {
  s_config : TamperConfig_t;
  s_gpio : TamperGpio_t W;
  s_state : TamperState_t;
  s_initialised : bool;
  audit : audit_log.state W }.
Arguments mk_state {W}. Arguments s_config {W}. Arguments s_gpio {W}. Arguments s_state {W}.
Arguments s_initialised {W}. Arguments audit {W}.

#[export] Instance eta_state W : Eta (state W) := fun r =>
  mk_state (s_config r) (s_gpio r) (s_state r) (s_initialised r) (audit r).

Section tamper.
Context {W : Type} `{MdHmac}.
Implicit Types (st : state W) (w : W).

Definition initial : state W :=
  mk_state (mk_config 0 false 0) (mk_gpio None) TAMPER_STATE_NONE false audit_log.initial.

Definition tamper_detect_read_gpio st w : bool * W :=
  if negb (s_initialised st) then (false, w)
  else
    match gpio_read (s_gpio st) with
    | None => (false, w)
    | Some f =>
        let '(raw, w) := f (gpio_pin (s_config st)) w in
        (if active_high (s_config st) then raw else negb raw, w)
    end.

Definition tamper_detect_init st (config : option TamperConfig_t) (gpio : option (TamperGpio_t W)) w
  : bool * state W * W :=
  match config, gpio with
  | Some c, Some g =>
      match gpio_read g with
      | None => (false, st, w)
      | Some _ =>
          let st := st <| s_config := c |> <| s_gpio := g |> <| s_state := TAMPER_STATE_NONE |>
                       <| s_initialised := true |> in
          let '(triggered, w) := tamper_detect_read_gpio st w in
          (true, if triggered : bool then st <| s_state := TAMPER_STATE_DETECTED |> else st, w)
      end
  | _, _ => (false, st, w)
  end.

Definition tamper_detail : list Z := cstr "Physical tamper switch triggered".

Definition tamper_detect_get_state st w : TamperState_t * state W * W :=
  if negb (s_initialised st) then (TAMPER_STATE_NONE, st, w)
  else
    let '(triggered, w) := tamper_detect_read_gpio st w in
    if triggered : bool then
      if bool_decide (s_state st <> TAMPER_STATE_DETECTED) then
        let st := st <| s_state := TAMPER_STATE_DETECTED |> in
        let '(log, w) := audit_log_add (audit st) w AUDIT_TAMPER_DETECTED 0 0 (Some tamper_detail) in
        (TAMPER_STATE_DETECTED, st <| audit := log |>, w)
      else (s_state st, st, w)
    else (s_state st, st, w).

Definition tamper_detect_reset st w : bool * state W * W :=
  if negb (s_initialised st) then (false, st, w)
  else
    let '(triggered, w) := tamper_detect_read_gpio st w in
    if triggered : bool then (false, st, w)
    else (true, st <| s_state := TAMPER_STATE_NONE |>, w).

Definition tamper_detect_is_initialised st : bool := s_initialised st.

(** ** Sequences of calls *)

Inductive call := Poll | Reset.

Definition step (c : call) st w : state W * W :=
  match c with
  | Poll => let '(_, st, w) := tamper_detect_get_state st w in (st, w)
  | Reset => let '(_, st, w) := tamper_detect_reset st w in (st, w)
  end.

Fixpoint steps (cs : list call) st w : state W * W :=
  match cs with
  | [] => (st, w)
  | c :: cs => let '(st, w) := step c st w in steps cs st w
  end.

(** The position of the switch at each of the calls, as the calls read it. *)
Fixpoint readings (cs : list call) st w : list bool :=
  match cs with
  | [] => []
  | c :: cs => (tamper_detect_read_gpio st w).1 ::
               (let '(st, w) := step c st w in readings cs st w)
  end.

(** The state machine over the positions alone, with the number of events it
    reports. *)
Definition spec_step (c : call) (triggered : bool) (s : TamperState_t) : TamperState_t * nat :=
  match c, triggered, s with
  | Poll, true, TAMPER_STATE_NONE => (TAMPER_STATE_DETECTED, 1%nat)
  | Reset, false, _ => (TAMPER_STATE_NONE, 0%nat)
  | _, _, _ => (s, 0%nat)
  end.

Fixpoint spec_steps (cs : list call) (ts : list bool) (s : TamperState_t) : TamperState_t * nat :=
  match cs, ts with
  | c :: cs, t :: ts =>
      let '(s, n) := spec_step c t s in
      let '(s, m) := spec_steps cs ts s in (s, (n + m)%nat)
  | _, _ => (s, 0%nat)
  end.

(** ** What a call does *)

Lemma poll_spec st w :
  s_initialised st = true ->
  tamper_detect_get_state st w =
  let '(t, w) := tamper_detect_read_gpio st w in
  match t, s_state st with
  | true, TAMPER_STATE_NONE =>
      let '(log, w) := audit_log_add (audit st) w AUDIT_TAMPER_DETECTED 0 0 (Some tamper_detail) in
      (TAMPER_STATE_DETECTED, st <| s_state := TAMPER_STATE_DETECTED |> <| audit := log |>, w)
  | _, s => (s, st, w)
  end.
Proof.
  intros Hi. unfold tamper_detect_get_state. rewrite Hi. cbn [negb].
  destruct (tamper_detect_read_gpio st w) as [[] w']; [|destruct (s_state st); reflexivity].
  destruct (s_state st) eqn:Hs; cbn; [destruct (audit_log_add _ _ _ _ _ _)|]; rewrite ?Hs; reflexivity.
Qed.

Lemma reset_spec st w :
  s_initialised st = true ->
  tamper_detect_reset st w =
  let '(t, w) := tamper_detect_read_gpio st w in
  if t : bool then (false, st, w) else (true, st <| s_state := TAMPER_STATE_NONE |>, w).
Proof. intros Hi. unfold tamper_detect_reset. rewrite Hi. reflexivity. Qed.

(** One event added to a log whose write index has room. *)
Lemma audit_add_index (log : audit_log.state W) w e sid rid d :
  audit_log.g_initialised log = true ->
  let log' := (audit_log_add log w e sid rid d).1 in
  audit_log.g_initialised log' = true /\
  audit_log.g_audit_write_index log' = u8 (audit_log.g_audit_write_index log + 1).
Proof.
  intros Hi. unfold audit_log_add. rewrite Hi. cbn [negb].
  destruct (time_source.time_source_get_ms _ _) as [[now clk] w']. cbn. auto.
Qed.

Lemma step_spec c st w :
  s_initialised st = true -> audit_log.g_initialised (audit st) = true ->
  let t := (tamper_detect_read_gpio st w).1 in
  let st' := (step c st w).1 in
  s_initialised st' = true /\ audit_log.g_initialised (audit st') = true /\
  s_config st' = s_config st /\ s_gpio st' = s_gpio st /\
  s_state st' = (spec_step c t (s_state st)).1 /\
  audit_log.g_audit_write_index (audit st') =
    (if (spec_step c t (s_state st)).2 is O then audit_log.g_audit_write_index (audit st)
     else u8 (audit_log.g_audit_write_index (audit st) + 1)).
Proof.
  intros Hi Ha. destruct c; cbn [step]; [rewrite (poll_spec st w Hi)|rewrite (reset_spec st w Hi)].
  - destruct (tamper_detect_read_gpio st w) as [[] w']; destruct (s_state st) eqn:Hs; cbn; auto 10.
    pose proof (audit_add_index (audit st) w' AUDIT_TAMPER_DETECTED 0 0 (Some tamper_detail) Ha) as [Hl Hx].
    destruct (audit_log_add _ _ _ _ _ _) as [log w'']. cbn in *. auto 10.
  - destruct (tamper_detect_read_gpio st w) as [[] w']; destruct (s_state st) eqn:Hs; cbn; auto 10.
Qed.

(** ** Properties *)

(** Along any sequence of polls and resets the tamper state is that of the state
    machine over the positions of the switch alone, and one audit event is
    written for every detection it makes: a detection latches until a reset that
    finds the switch released. *)
Theorem tamper_refines cs st w :
  s_initialised st = true -> audit_log.g_initialised (audit st) = true ->
  is_u8 (audit_log.g_audit_write_index (audit st)) ->
  let st' := (steps cs st w).1 in
  s_state st' = (spec_steps cs (readings cs st w) (s_state st)).1 /\
  audit_log.g_audit_write_index (audit st') =
    u8 (audit_log.g_audit_write_index (audit st) +
        Z.of_nat (spec_steps cs (readings cs st w) (s_state st)).2).
Proof.
  revert st w. induction cs as [|c cs IH]; intros st w Hi Ha Hw.
  - cbn. split; [reflexivity|]. rewrite Z.add_0_r, u8_small by exact Hw. reflexivity.
  - destruct (step_spec c st w Hi Ha) as (Hi' & Ha' & _ & _ & Hs & Hx).
    cbn [steps readings spec_steps]. destruct (step c st w) as [st1 w1]. cbn [fst] in *.
    assert (is_u8 (audit_log.g_audit_write_index (audit st1))) as Hw'.
    { rewrite Hx. destruct (spec_step _ _ _).2; [exact Hw|apply u8_range]. }
    destruct (IH st1 w1 Hi' Ha' Hw') as [IHs IHx]. rewrite Hs in IHs, IHx.
    assert ((spec_step c (tamper_detect_read_gpio st w).1 (s_state st)).2 <= 1)%nat as Hn.
    { destruct c, (tamper_detect_read_gpio st w).1, (s_state st); cbn; lia. }
    destruct (spec_step _ _ _) as [s' n]. cbn [fst snd] in *.
    destruct (spec_steps cs _ s') as [s'' m]. cbn [fst snd] in *. split; [exact IHs|].
    rewrite IHx, Hx. destruct n as [|[|n]]; [reflexivity|words|lia].
Qed.

(** A case opened before boot: initialisation sees the switch and latches the
    state but writes no audit event, and no later poll writes one either. *)
Theorem boot_tamper_not_logged st c g f w :
  gpio_read g = Some f ->
  (let '(raw, _) := f (gpio_pin c) w in if active_high c then raw else negb raw) = true ->
  let '(ok, st1, w1) := tamper_detect_init st (Some c) (Some g) w in
  ok = true /\ s_state st1 = TAMPER_STATE_DETECTED /\ audit st1 = audit st /\
  forall n, let st2 := (steps (replicate n Poll) st1 w1).1 in
    s_state st2 = TAMPER_STATE_DETECTED /\ audit st2 = audit st.
Proof.
  intros Hg Ht. unfold tamper_detect_init. rewrite Hg. unfold tamper_detect_read_gpio. cbn. rewrite Hg.
  destruct (f (gpio_pin c) w) as [raw w1]. rewrite Ht. cbn.
  split; [reflexivity|]. split; [reflexivity|]. split; [reflexivity|]. intros n.
  match goal with |- context [steps _ ?s _] => set (st1 := s) end. assert (s_state st1 = TAMPER_STATE_DETECTED) as Hs by reflexivity.
  assert (s_initialised st1 = true) as Hi by reflexivity.
  change (audit st) with (audit st1). clearbody st1. clear Ht Hg.
  revert w1. induction n as [|n IH]; intros w1; cbn [replicate steps]; [auto|].
  cbn [step]. rewrite (poll_spec st1 w1 Hi).
  destruct (tamper_detect_read_gpio st1 w1) as [[] w2]; [rewrite Hs|]; apply IH.
Qed.

End tamper.

(** ** The theorems on a concrete switch *)

(** A world that is the list of the positions the switch will be read in. *)
Definition demo_gpio : TamperGpio_t (list bool) :=
  mk_gpio (Some (fun _ w => match w with b :: w => (b, w) | [] => (false, []) end)).

Definition demo_start : state (list bool) :=
  initial <| audit := (audit_log.audit_log_init audit_log.initial []).1.2 |>.

Definition demo_tamper : state (list bool) :=
  (tamper_detect_init demo_start (Some (mk_config 4 true 50)) (Some demo_gpio) [false]).1.2.

Lemma tamper_refines_witness :
  let st' := (steps (H := mix_hmac) [Poll; Poll; Poll; Reset; Poll; Reset; Poll] demo_tamper
                [false; true; true; true; false; false; true]).1 in
  s_state st' = TAMPER_STATE_DETECTED /\ audit_log.g_audit_write_index (audit st') = 2.
Proof.
  destruct (tamper_refines (H := mix_hmac) [Poll; Poll; Poll; Reset; Poll; Reset; Poll] demo_tamper
              [false; true; true; true; false; false; true] eq_refl eq_refl) as [Hs Hx].
  - vm_compute. split; discriminate || reflexivity.
  - split; [rewrite Hs; vm_compute; reflexivity|]. rewrite Hx. vm_compute. reflexivity.
Defined.

Lemma boot_tamper_not_logged_witness :
  let st1 := (tamper_detect_init demo_start (Some (mk_config 4 false 50)) (Some demo_gpio) [false]).1.2 in
  s_state (steps (H := mix_hmac) (replicate 5 Poll) st1 []).1 = TAMPER_STATE_DETECTED.
Proof.
  pose proof (boot_tamper_not_logged (H := mix_hmac) demo_start (mk_config 4 false 50) demo_gpio
                _ [false] eq_refl eq_refl) as H.
  destruct (tamper_detect_init _ _ _ _) as [[ok st1] w1] eqn:E.
  destruct H as (_ & _ & _ & H). cbn [fst snd].
  assert (w1 = []) as -> by (cbn in E; congruence). apply (H 5%nat).
Defined.

End tamper_detect.
