(* ===== verification/JtagDisable.v ===== *)
(** The JTAG lock (firmware/shared/jtag_disable.c): two confirmations, then a
    one-way disable.  Both builds, with and without [JTAG_DISABLE_ACTUAL_BURN],
    do the same assignments; neither touches a fuse. *)

From S2P Require Import Prelude.

Module jtag_disable.

Record JtagConfig_t := mk_config {
  require_two_step_confirm : bool;
  audit_before_and_after : bool }.

Inductive JtagResult_t :=
| JTAG_RESULT_OK
| JTAG_RESULT_NOT_INITIALISED
| JTAG_RESULT_NOT_CONFIRMED
| JTAG_RESULT_ALREADY_DISABLED
| JTAG_RESULT_HARDWARE_ERROR.

#[export] Instance JtagResult_eq_dec : EqDecision JtagResult_t.
Proof. solve_decision. Defined.

Record state := mk_state {
  s_config : JtagConfig_t;
  s_initialised : bool;
  s_enabled : bool;
  s_step1_done : bool;
  s_step2_done : bool }.

#[export] Instance eta_state : Eta state := fun r =>
  mk_state (s_config r) (s_initialised r) (s_enabled r) (s_step1_done r) (s_step2_done r).

Definition initial : state := mk_state (mk_config false false) false true false false.

Definition jtag_disable_init (st : state) (config : option JtagConfig_t) : bool * state :=
  match config with
  | None => (false, st)
  | Some c => (true, st <| s_config := c |> <| s_initialised := true |> <| s_enabled := true |>
                        <| s_step1_done := false |> <| s_step2_done := false |>)
  end.

Definition jtag_disable_is_enabled (st : state) : bool := s_enabled st.

Definition jtag_disable_confirm_step1 (st : state) : bool * state :=
  if negb (s_initialised st) then (false, st) else (true, st <| s_step1_done := true |>).

Definition jtag_disable_confirm_step2 (st : state) : bool * state :=
  if negb (s_initialised st) then (false, st)
  else if negb (s_step1_done st) then (false, st)
  else (true, st <| s_step2_done := true |>).

Definition jtag_disable_perform (st : state) : JtagResult_t * state :=
  if negb (s_initialised st) then (JTAG_RESULT_NOT_INITIALISED, st)
  else if negb (s_enabled st) then (JTAG_RESULT_ALREADY_DISABLED, st)
  else if require_two_step_confirm (s_config st) && (negb (s_step1_done st) || negb (s_step2_done st))
  then (JTAG_RESULT_NOT_CONFIRMED, st)
  else (JTAG_RESULT_OK, st <| s_enabled := false |> <| s_step1_done := false |>
                           <| s_step2_done := false |>).

(** ** Sequences of calls *)

Inductive call := Init (c : option JtagConfig_t) | Step1 | Step2 | Perform.

Definition step (st : state) (c : call) : state :=
  match c with
  | Init cfg => (jtag_disable_init st cfg).2
  | Step1 => (jtag_disable_confirm_step1 st).2
  | Step2 => (jtag_disable_confirm_step2 st).2
  | Perform => (jtag_disable_perform st).2
  end.

Definition run (st : state) (cs : list call) : state := fold_left step cs st.

(** No (successful) initialisation among the calls. *)
Definition no_init (cs : list call) : Prop := Forall (fun c => forall cfg, c <> Init (Some cfg)) cs.

Lemma sublist_snoc (ss cs : list call) s c :
  (ss ++ [s]) `sublist_of` (cs ++ [c]) <->
  (ss ++ [s]) `sublist_of` cs \/ (s = c /\ ss `sublist_of` cs).
Proof.
  split.
  - intros H. apply sublist_app_r in H as (l1 & l2 & E & H1 & H2).
    apply sublist_cons_r in H2 as [H2|(l' & -> & Hnil)].
    + apply sublist_nil_r in H2 as ->. rewrite app_nil_r in E. subst l1. auto.
    + apply sublist_nil_r in Hnil as ->. apply app_inj_tail in E as [-> ->]. auto.
  - intros [H|[-> H]].
    + apply sublist_inserts_r. exact H.
    + apply sublist_app; [exact H|reflexivity].
Qed.

(** What the flags mean after the calls [cs]. *)
Record tracks (cs : list call) (s : state) : Prop := {
  tr_init : s_initialised s = true;
  tr_two : require_two_step_confirm (s_config s) = true;
  tr_step1 : s_enabled s = true -> s_step1_done s = true <-> [Step1] `sublist_of` cs;
  tr_step2 : s_enabled s = true -> s_step2_done s = true <-> [Step1; Step2] `sublist_of` cs;
  tr_lock : s_enabled s = false <-> [Step1; Step2; Perform] `sublist_of` cs }.

Lemma tracks_step cs s c :
  tracks cs s -> (forall cfg, c <> Init (Some cfg)) -> tracks (cs ++ [c]) (step s c).
Proof.
  intros [Hi H2 T1 T2 T3] Hc.
  pose proof (sublist_snoc [] cs Step1 c) as S1. pose proof (sublist_snoc [Step1] cs Step2 c) as S2.
  pose proof (sublist_snoc [Step1; Step2] cs Perform c) as S3. cbn [app] in S1, S2, S3.
  assert ([] `sublist_of` cs) as S0 by apply sublist_nil_l.
  assert ([Step1; Step2] `sublist_of` cs -> [Step1] `sublist_of` cs) as S12.
  { intros H. etransitivity; [|exact H]. apply sublist_skip, sublist_nil_l. }
  destruct s as [cfg i en d1 d2]. cbn in *. subst i.
  revert S0 S12 T1 T2 T3 S1 S2 S3.
  generalize ([Step1] `sublist_of` cs) ([Step1; Step2] `sublist_of` cs)
    ([Step1; Step2; Perform] `sublist_of` cs) ([] `sublist_of` cs).
  intros P1 P2 P3 P0 S0 S12 T1 T2 T3 S1 S2 S3.
  destruct c as [[cfg'|]| | |]; [exfalso; eapply Hc; reflexivity|..];
    unfold step, jtag_disable_init, jtag_disable_confirm_step1, jtag_disable_confirm_step2,
      jtag_disable_perform; cbn; rewrite ?H2.
  all: destruct en, d1, d2; cbn; split; cbn; auto; rewrite ?S1, ?S2, ?S3; clear S1 S2 S3;
    try specialize (T1 eq_refl); try specialize (T2 eq_refl); intuition congruence.
Qed.

Lemma tracks_run cs st c :
  require_two_step_confirm c = true -> no_init cs ->
  tracks cs (run (jtag_disable_init st (Some c)).2 cs).
Proof.
  intros Hc. induction cs as [|x cs IH] using rev_ind; intros Hn.
  - split; cbn; auto; split; (discriminate || (intros E; apply sublist_nil_r in E; discriminate)).
  - apply Forall_app in Hn as [Hn [Hx _]%Forall_cons].
    unfold run. rewrite fold_left_app. apply tracks_step; [apply IH, Hn|exact Hx].
Qed.

(** ** Properties *)

(** After an initialisation that asks for both confirmations, and as long as it
    is not initialised again, JTAG is disabled exactly when among the calls made
    there are, in this order, the first confirmation, the second and the
    operation. *)
Theorem disabled_iff_confirmed st c cs :
  require_two_step_confirm c = true -> no_init cs ->
  jtag_disable_is_enabled (run (jtag_disable_init st (Some c)).2 cs) = false <->
  [Step1; Step2; Perform] `sublist_of` cs.
Proof. intros Hc Hn. apply (tr_lock _ _ (tracks_run cs st c Hc Hn)). Qed.

(** The lock is a variable of the module, not the fuse: initialising the module
    again reports JTAG enabled after it was disabled. *)
Theorem init_reenables st c c' cs :
  require_two_step_confirm c = true -> no_init cs -> [Step1; Step2; Perform] `sublist_of` cs ->
  let st' := run (jtag_disable_init st (Some c)).2 cs in
  jtag_disable_is_enabled st' = false /\
  jtag_disable_is_enabled (step st' (Init (Some c'))) = true.
Proof.
  intros Hc Hn Hsub st'. split; [|reflexivity]. apply (tr_lock _ _ (tracks_run cs st c Hc Hn)), Hsub.
Qed.

(** ** The theorems on concrete calls *)

Lemma no_init_demo (cs : list call) : forallb (fun c => if c is Init _ then false else true) cs = true -> no_init cs.
Proof.
  intros H. apply Forall_forall. intros c Hc cfg ->.
  rewrite forallb_forall in H. apply list_elem_of_In in Hc. specialize (H _ Hc). discriminate.
Qed.

Lemma disabled_iff_confirmed_witness :
  jtag_disable_is_enabled (run (jtag_disable_init initial (Some (mk_config true true))).2
                             [Step2; Step1; Perform; Step1; Step2; Perform]) = false.
Proof.
  apply disabled_iff_confirmed; [reflexivity|apply no_init_demo; reflexivity|].
  apply sublist_cons. repeat first [apply sublist_skip | apply sublist_cons | apply sublist_nil].
Defined.

Lemma init_reenables_witness :
  jtag_disable_is_enabled (step (run (jtag_disable_init initial (Some (mk_config true true))).2
                                   [Step1; Step2; Perform]) (Init (Some (mk_config true true)))) = true.
Proof.
  apply (init_reenables initial (mk_config true true) (mk_config true true) [Step1; Step2; Perform]);
    [reflexivity|apply no_init_demo; reflexivity|reflexivity].
Defined.

End jtag_disable.
