(* ===== verification/SensorDriver.v ===== *)
(** The sensor drivers of an edge node (firmware/edge/sensor_driver.c): a static
    registry of three drivers over mock hardware. *)

From S2P Require Import Prelude Float32.
Import float32.

Module sensor_driver.

(** [SensorType_t]; a stored configuration can hold any value of the integer. *)
Definition SensorType_t : Type := Z.
Definition SENSOR_DISTANCE : SensorType_t := 0.
Definition SENSOR_ANALOG : SensorType_t := 1.
Definition SENSOR_I2C : SensorType_t := 2.

Record SensorConfig_t := mk_config {
  pin_or_addr : Z;
  scale_factor : float;
  offset : float;
  sample_count : Z }.

Record SensorDriverReading_t := mk_reading {
  value : float;
  valid : bool }.

(** The mock hardware: the statics the drivers read. *)
Record hardware := mk_hardware {
  g_mock_distance_cm : float;
  g_mock_distance_fault : bool;
  g_mock_adc_raw : float;
  g_mock_adc_fault : bool;
  g_mock_i2c_temp_c : float;
  g_mock_i2c_humidity : float;
  g_mock_i2c_fault : bool }.

#[export] Instance eta_hardware : Eta hardware := fun r =>
  mk_hardware (g_mock_distance_cm r) (g_mock_distance_fault r) (g_mock_adc_raw r) (g_mock_adc_fault r)
    (g_mock_i2c_temp_c r) (g_mock_i2c_humidity r) (g_mock_i2c_fault r).

Definition initial : hardware :=
  mk_hardware (lit 100) false (lit 512) false (lit_frac 225 10) (lit 45) false.

Definition sensor_driver_mock_set_distance (hw : hardware) (cm : float) (fault : bool) : hardware :=
  hw <| g_mock_distance_cm := cm |> <| g_mock_distance_fault := fault |>.

Definition sensor_driver_mock_set_adc (hw : hardware) (raw : float) (fault : bool) : hardware :=
  hw <| g_mock_adc_raw := raw |> <| g_mock_adc_fault := fault |>.

Definition sensor_driver_mock_set_i2c (hw : hardware) (temp_c humidity : float) (fault : bool) : hardware :=
  hw <| g_mock_i2c_temp_c := temp_c |> <| g_mock_i2c_humidity := humidity |> <| g_mock_i2c_fault := fault |>.

Record SensorDriver_t := mk_driver {
  type : SensorType_t;
  init : SensorConfig_t -> bool;
  read : hardware -> SensorDriverReading_t;
  validate : float -> bool }.

Definition distance_init (cfg : SensorConfig_t) : bool := true.
Definition distance_read (hw : hardware) : SensorDriverReading_t :=
  mk_reading (g_mock_distance_cm hw) (negb (g_mock_distance_fault hw)).
Definition distance_validate (raw_value : float) : bool :=
  fge raw_value (lit 2) && fle raw_value (lit 400).

Definition s_distance_driver : SensorDriver_t :=
  mk_driver SENSOR_DISTANCE distance_init distance_read distance_validate.

Definition analog_init (cfg : SensorConfig_t) : bool := true.
Definition analog_read (hw : hardware) : SensorDriverReading_t :=
  mk_reading (g_mock_adc_raw hw) (negb (g_mock_adc_fault hw)).
Definition analog_validate (raw_value : float) : bool :=
  fge raw_value (lit 0) && fle raw_value (lit 4095).

Definition s_analog_driver : SensorDriver_t :=
  mk_driver SENSOR_ANALOG analog_init analog_read analog_validate.

Definition i2c_init (cfg : SensorConfig_t) : bool := true.
Definition i2c_read (hw : hardware) : SensorDriverReading_t :=
  mk_reading (g_mock_i2c_temp_c hw) (negb (g_mock_i2c_fault hw)).
Definition i2c_validate (raw_value : float) : bool :=
  fge raw_value (lit (-40)) && fle raw_value (lit 125).

Definition s_i2c_driver : SensorDriver_t := mk_driver SENSOR_I2C i2c_init i2c_read i2c_validate.

Definition s_driver_registry : list SensorDriver_t := [s_distance_driver; s_analog_driver; s_i2c_driver].

Definition sensor_driver_registry_count : Z := u8 (Z.of_nat (length s_driver_registry)).

Definition sensor_driver_find (t : SensorType_t) : option SensorDriver_t :=
  find_first (fun d => type d =? t) s_driver_registry.

(** The count, and the objects the returned pointer may be read through: it
    points to the first driver, not to the registry. *)
Definition sensor_driver_registry_get_all : Z * list SensorDriver_t :=
  (u8 (Z.of_nat (length s_driver_registry)), take 1 s_driver_registry).

(** ** Properties *)

Lemma find_registered t d : sensor_driver_find t = Some d -> d ∈ s_driver_registry /\ type d = t.
Proof. intros [Hin Ht]%find_first_Some. apply Z.eqb_eq in Ht. auto. Qed.

Lemma find_known t : sensor_driver_find t = None <-> t < 0 \/ 2 < t.
Proof.
  unfold sensor_driver_find. rewrite find_first_None. split.
  - intros H. pose proof (H s_distance_driver ltac:(left)) as H0.
    pose proof (H s_analog_driver ltac:(right; left)) as H1.
    pose proof (H s_i2c_driver ltac:(right; right; left)) as H2.
    apply Z.eqb_neq in H0, H1, H2.
    change (0 <> t) in H0. change (1 <> t) in H1. change (2 <> t) in H2. lia.
  - intros Ht d Hd. apply Z.eqb_neq.
    repeat (apply elem_of_cons in Hd as [->|Hd]); [cbn..|apply elem_of_nil in Hd; tauto];
    unfold SENSOR_DISTANCE, SENSOR_ANALOG, SENSOR_I2C; lia.
Qed.

(** No driver accepts a reading that is not a number. *)
Lemma validate_rejects_nan d raw :
  d ∈ s_driver_registry -> is_nan raw = true -> validate d raw = false.
Proof.
  intros Hd Hn.
  assert (forall b, fge raw b = false) as Hge by (intros b; apply (is_nan_unordered raw b Hn)).
  repeat (apply elem_of_cons in Hd as [->|Hd]); [cbn..|apply elem_of_nil in Hd; tauto];
  unfold distance_validate, analog_validate, i2c_validate; rewrite Hge; reflexivity.
Qed.

End sensor_driver.
