(* ===== verification/EdgeAuth.v ===== *)
(** The edge node's side of attestation (firmware/edge/edge_attestation.c), on top
    of the shared attestation module. *)

From S2P Require Import Prelude Hmac Attestation.
Import hmac attestation.

Module edge_attestation.

Inductive EdgeAuthState_t :=
| EDGE_AUTH_UNINIT
| EDGE_AUTH_IDLE
| EDGE_AUTH_AUTHENTICATED
| EDGE_AUTH_FAILED.

#[export] Instance EdgeAuthState_eq_dec : EqDecision EdgeAuthState_t.
Proof. solve_decision. Defined.

Record EdgeAuthContext_t := mk_ctx {
  ea_node_id : Z;
  pre_shared_key : list Z;
  key_set : bool;
  ea_state : EdgeAuthState_t }.

#[export] Instance eta_ctx : Eta EdgeAuthContext_t := fun r =>
  mk_ctx (ea_node_id r) (pre_shared_key r) (key_set r) (ea_state r).

Inductive EdgeAttestResult_t :=
| EDGE_ATTEST_OK
| EDGE_ATTEST_ERR_NOT_READY
| EDGE_ATTEST_ERR_PARAM_NULL.

#[export] Instance EdgeAttestResult_eq_dec : EqDecision EdgeAttestResult_t.
Proof. solve_decision. Defined.

Definition zero_ctx : EdgeAuthContext_t := mk_ctx 0 (zeros 32) false EDGE_AUTH_UNINIT.

Definition edge_auth_init (octx : option EdgeAuthContext_t) (node_id : Z) : option EdgeAuthContext_t :=
  match octx with
  | None => None
  | Some _ => Some (zero_ctx <| ea_node_id := node_id |> <| ea_state := EDGE_AUTH_IDLE |>)
  end.

Definition edge_auth_set_key (octx : option EdgeAuthContext_t) (key : option (list Z))
  : bool * option EdgeAuthContext_t :=
  match octx, key with
  | Some ctx, Some k =>
      (true, Some (ctx <| pre_shared_key := take ATTESTATION_KEY_SIZE k |> <| key_set := true |>))
  | _, _ => (false, octx)
  end.

(** The code, the context, and the response where it is written; [out] says
    whether the caller passes one. *)
Definition edge_auth_respond `{MdHmac} (octx : option EdgeAuthContext_t)
    (challenge : option AttestationChallenge_t) (out : bool)
  : EdgeAttestResult_t * option EdgeAuthContext_t * option AttestationResponse_t :=
  match octx, challenge with
  | Some ctx, Some c =>
      if negb out then (EDGE_ATTEST_ERR_PARAM_NULL, octx, None)
      else if negb (key_set ctx) then
        (EDGE_ATTEST_ERR_NOT_READY, Some (ctx <| ea_state := EDGE_AUTH_FAILED |>), None)
      else
        (EDGE_ATTEST_OK, Some (ctx <| ea_state := EDGE_AUTH_AUTHENTICATED |>),
         Some (mk_response (attestation_compute_response (pre_shared_key ctx) c)
                 (ch_timestamp_ms c) (ea_node_id ctx)))
  | _, _ => (EDGE_ATTEST_ERR_PARAM_NULL, octx, None)
  end.

Definition edge_auth_get_state (octx : option EdgeAuthContext_t) : EdgeAuthState_t :=
  match octx with Some ctx => ea_state ctx | None => EDGE_AUTH_UNINIT end.

Definition edge_auth_is_authenticated (octx : option EdgeAuthContext_t) : bool :=
  match octx with Some ctx => bool_decide (ea_state ctx = EDGE_AUTH_AUTHENTICATED) | None => false end.

(** ** Properties *)

Section attest.
Context `{HOk : MdHmacOk}.

(** The node's response to a challenge, as the Hub verifies it. *)
Lemma respond_verifies hub ctx c k max_drift :
  wf hub -> g_initialised hub = true -> 0 <= max_drift -> key_set ctx = true ->
  registered hub (ea_node_id ctx) = Some k -> active k = true ->
  exists resp,
    edge_auth_respond (Some ctx) (Some c) true =
      (EDGE_ATTEST_OK, Some (ctx <| ea_state := EDGE_AUTH_AUTHENTICATED |>), Some resp) /\
    responder_id resp = ea_node_id ctx /\
    (attestation_verify hub (Some c) (Some resp) max_drift = ATTEST_OK <->
     attestation_compute_response (pre_shared_key ctx) c = attestation_compute_response (key k) c).
Proof.
  intros Hwf Hi Hd Hk Hreg Hact. unfold edge_auth_respond. rewrite Hk. cbn [negb].
  set (r := mk_response _ (ch_timestamp_ms c) (ea_node_id ctx)). exists r.
  split; [reflexivity|]. split; [reflexivity|].
  rewrite attestation_verify_spec; [|exact Hwf|apply iot_hmac_length].
  assert (drift c r = 0) as -> by (unfold drift; cbn; rewrite Z.ltb_irrefl; lia). cbn. split.
  - intros (_ & _ & k' & Hk' & _ & E). congruence.
  - intros E. split; [exact Hi|]. split; [lia|]. exists k. auto.
Qed.

(** The node and the Hub together: the Hub accepts the node's response to its
    challenge exactly when the key registered for the node is active and gives
    the same response as the node's own key; so with the node's key registered it
    accepts, at any drift limit, because the response echoes the challenge's time. *)
Theorem edge_response_accepted hub ctx c k max_drift :
  wf hub -> g_initialised hub = true -> 0 <= max_drift -> key_set ctx = true ->
  registered hub (ea_node_id ctx) = Some k -> active k = true ->
  let '(res, ctx', resp) := edge_auth_respond (Some ctx) (Some c) true in
  res = EDGE_ATTEST_OK /\ edge_auth_is_authenticated ctx' = true /\
  (attestation_verify hub (Some c) resp max_drift = ATTEST_OK <->
   attestation_compute_response (pre_shared_key ctx) c = attestation_compute_response (key k) c) /\
  (key k = pre_shared_key ctx -> attestation_verify hub (Some c) resp max_drift = ATTEST_OK).
Proof.
  intros Hwf Hi Hd Hk Hreg Hact.
  destruct (respond_verifies hub ctx c k max_drift Hwf Hi Hd Hk Hreg Hact) as (resp & -> & _ & Hv).
  split; [reflexivity|]. split; [reflexivity|]. split; [exact Hv|].
  intros E. apply Hv. rewrite E. reflexivity.
Qed.

(** The node never learns the Hub's verdict: with any key set, also one the Hub
    refuses, answering a challenge makes it authenticated in its own eyes. *)
Theorem any_key_authenticates ctx c k :
  let '(_, ctx1) := edge_auth_set_key (Some ctx) (Some k) in
  let '(res, ctx2, _) := edge_auth_respond ctx1 (Some c) true in
  res = EDGE_ATTEST_OK /\ edge_auth_is_authenticated ctx2 = true.
Proof. cbn. auto. Qed.

End attest.

(** ** The theorem on a concrete node *)

Definition demo_edge : option EdgeAuthContext_t :=
  (edge_auth_set_key (edge_auth_init (Some zero_ctx) 5) (Some (replicate 32 9))).2.

Lemma edge_response_accepted_witness :
  attestation_verify (H := mix_hmac) demo_state (Some demo_challenge)
    (edge_auth_respond (H := mix_hmac) demo_edge (Some demo_challenge) true).2 0 = ATTEST_OK.
Proof.
  pose proof (edge_response_accepted (HOk := mix_hmac_ok) demo_state
                (default zero_ctx demo_edge) demo_challenge demo_record 0 demo_keys_wf eq_refl
                ltac:(lia) eq_refl eq_refl eq_refl) as H.
  change (Some (default zero_ctx demo_edge)) with demo_edge in H.
  destruct (edge_auth_respond demo_edge (Some demo_challenge) true) as [[res ctx'] resp].
  apply H. reflexivity.
Defined.

End edge_attestation.
