(* ===== verification/FlashPartition.v ===== *)
(** The A/B flash layer (firmware/shared/flash_partition.c): two slots behind a
    backend, an update written to the slot the device does not run from. *)

From S2P Require Import Prelude.

Module flash_partition.

Definition FLASH_PARTITION_SLOT_COUNT : Z := 2.
Definition FLASH_PARTITION_SLOT_A : Z := 0.
Definition FLASH_PARTITION_SLOT_B : Z := 1.
Definition FLASH_PARTITION_MAX_SIZE : Z := 256 * 1024.

Inductive FlashSlotState_t :=
| FLASH_SLOT_STATE_UNKNOWN
| FLASH_SLOT_STATE_ERASED
| FLASH_SLOT_STATE_WRITING
| FLASH_SLOT_STATE_VALID
| FLASH_SLOT_STATE_BOOTABLE.

#[export] Instance FlashSlotState_eq_dec : EqDecision FlashSlotState_t.
Proof. solve_decision. Defined.

(** A backend: functions of the medium [M] they drive. *)
Record FlashPartitionBackend_t (M : Type) := mk_backend {
  begin : Z -> Z -> M -> bool * M;
  write : Z -> Z -> list Z -> M -> bool * M;
  end_ : Z -> M -> bool * M;
  set_boot_partition : Z -> M -> bool * M;
  get_boot_partition : M -> Z;
  get_slot_state : Z -> M -> FlashSlotState_t;
  read : Z -> Z -> Z -> M -> option (list Z);
  get_data : Z -> M -> option (list Z);
  get_write_offset : Z -> M -> Z }.
Arguments mk_backend {M}. Arguments begin {M} _. Arguments write {M} _. Arguments end_ {M} _.
Arguments set_boot_partition {M} _. Arguments get_boot_partition {M} _.
Arguments get_slot_state {M} _. Arguments read {M} _. Arguments get_data {M} _.
Arguments get_write_offset {M} _.

(** ** The in-memory backend *)

Record mock := mk_mock {
  s_slot_data : list (list Z);
  s_slot_write_offset : list Z;
  s_slot_state : list FlashSlotState_t }.

#[export] Instance eta_mock : Eta mock := fun r =>
  mk_mock (s_slot_data r) (s_slot_write_offset r) (s_slot_state r).

(** [memcpy(buf + offset, data, len)]. *)
Definition splice (offset : Z) (data buf : list Z) : list Z :=
  take (Z.to_nat offset) buf ++ data ++ drop (Z.to_nat offset + length data) buf.

Definition bad_slot (slot : Z) : bool := FLASH_PARTITION_SLOT_COUNT <=? slot.

Definition slot_state (m : mock) (slot : Z) : FlashSlotState_t :=
  nth (Z.to_nat slot) (s_slot_state m) FLASH_SLOT_STATE_UNKNOWN.

Definition slot_data (m : mock) (slot : Z) : list Z := nth (Z.to_nat slot) (s_slot_data m) [].

Definition mock_begin (slot size : Z) (m : mock) : bool * mock :=
  if bad_slot slot then (false, m)
  else if FLASH_PARTITION_MAX_SIZE <? size then (false, m)
  else
    (true, m <| s_slot_data := store slot (splice 0 (replicate (Z.to_nat size) 255) (slot_data m slot))
                                     (s_slot_data m) |>
             <| s_slot_write_offset := store slot 0 (s_slot_write_offset m) |>
             <| s_slot_state := store slot FLASH_SLOT_STATE_WRITING (s_slot_state m) |>).

Definition mock_write (slot offset : Z) (data : list Z) (m : mock) : bool * mock :=
  let data_len := Z.of_nat (length data) in
  if bad_slot slot then (false, m)
  else if FLASH_PARTITION_MAX_SIZE <? u32 (offset + data_len) then (false, m)
  else if negb (bool_decide (slot_state m slot = FLASH_SLOT_STATE_WRITING)) then (false, m)
  else
    (true, m <| s_slot_data := store slot (splice offset data (slot_data m slot)) (s_slot_data m) |>
             <| s_slot_write_offset := store slot (u32 (offset + data_len)) (s_slot_write_offset m) |>).

Definition mock_end (slot : Z) (m : mock) : bool * mock :=
  if bad_slot slot then (false, m)
  else if negb (bool_decide (slot_state m slot = FLASH_SLOT_STATE_WRITING)) then (false, m)
  else (true, m <| s_slot_state := store slot FLASH_SLOT_STATE_VALID (s_slot_state m) |>).

Definition mock_set_boot_partition (slot : Z) (m : mock) : bool * mock :=
  if bad_slot slot then (false, m)
  else (true, m <| s_slot_state := store slot FLASH_SLOT_STATE_BOOTABLE (s_slot_state m) |>).

(** The first slot in BOOTABLE state, slot A by default. *)
Definition mock_get_boot_partition (m : mock) : Z :=
  match find_index (fun s => bool_decide (s = FLASH_SLOT_STATE_BOOTABLE)) (s_slot_state m) with
  | Some i => Z.of_nat i
  | None => FLASH_PARTITION_SLOT_A
  end.

Definition mock_get_slot_state (slot : Z) (m : mock) : FlashSlotState_t :=
  if bad_slot slot then FLASH_SLOT_STATE_UNKNOWN else slot_state m slot.

Definition mock_read (slot offset read_len : Z) (m : mock) : option (list Z) :=
  if bad_slot slot then None
  else if FLASH_PARTITION_MAX_SIZE <? u32 (offset + read_len) then None
  else Some (take (Z.to_nat read_len) (drop (Z.to_nat offset) (slot_data m slot))).

Definition mock_get_data (slot : Z) (m : mock) : option (list Z) :=
  if bad_slot slot then None else Some (slot_data m slot).

Definition mock_get_write_offset (slot : Z) (m : mock) : Z :=
  if bad_slot slot then 0 else nth (Z.to_nat slot) (s_slot_write_offset m) 0.

Definition s_mock_backend : FlashPartitionBackend_t mock := mk_backend
  mock_begin mock_write mock_end mock_set_boot_partition mock_get_boot_partition
  mock_get_slot_state mock_read mock_get_data mock_get_write_offset.

(** ** The partition layer *)

(** The medium of a device: the statics of the in-memory backend, and whatever
    a registered backend drives. *)
Definition medium (W : Type) : Type := mock * W.

(** The in-memory backend as a backend of the whole medium. *)
Definition on_mock {W A} (f : mock -> A * mock) (m : medium W) : A * medium W :=
  let '(a, k) := f (fst m) in (a, (k, snd m)).

Definition mock_backend (W : Type) : FlashPartitionBackend_t (medium W) := mk_backend
  (fun slot size => on_mock (begin s_mock_backend slot size))
  (fun slot offset data => on_mock (write s_mock_backend slot offset data))
  (fun slot => on_mock (end_ s_mock_backend slot))
  (fun slot => on_mock (set_boot_partition s_mock_backend slot))
  (fun m => get_boot_partition s_mock_backend (fst m))
  (fun slot m => get_slot_state s_mock_backend slot (fst m))
  (fun slot offset n m => read s_mock_backend slot offset n (fst m))
  (fun slot m => get_data s_mock_backend slot (fst m))
  (fun slot m => get_write_offset s_mock_backend slot (fst m)).

Record state (W : Type) := mk_state {
  s_backend : option (FlashPartitionBackend_t (medium W));
  s_initialised : bool;
  s_boot_partition : Z;
  s_original_boot_partition : Z;
  s_ota_target : Z;
  s_ota_in_progress : bool }.
Arguments mk_state {W}. Arguments s_backend {W}. Arguments s_initialised {W}.
Arguments s_boot_partition {W}. Arguments s_original_boot_partition {W}.
Arguments s_ota_target {W}. Arguments s_ota_in_progress {W}.

#[export] Instance eta_state W : Eta (state W) := fun r =>
  mk_state (s_backend r) (s_initialised r) (s_boot_partition r) (s_original_boot_partition r)
    (s_ota_target r) (s_ota_in_progress r).

Definition erased : mock :=
  mk_mock (replicate 2 (replicate (Z.to_nat FLASH_PARTITION_MAX_SIZE) 255)) [0; 0]
    [FLASH_SLOT_STATE_ERASED; FLASH_SLOT_STATE_ERASED].

Definition other_slot (slot : Z) : Z :=
  if slot =? FLASH_PARTITION_SLOT_A then FLASH_PARTITION_SLOT_B else FLASH_PARTITION_SLOT_A.

Section partition.
Context {W : Type}.
Implicit Types (st : state W) (m : medium W).

Definition initial : state W :=
  mk_state None false FLASH_PARTITION_SLOT_A FLASH_PARTITION_SLOT_A FLASH_PARTITION_SLOT_B false.

Definition flash_partition_init st m : bool * state W * medium W :=
  let st := st <| s_boot_partition := FLASH_PARTITION_SLOT_A |>
               <| s_original_boot_partition := FLASH_PARTITION_SLOT_A |>
               <| s_ota_target := FLASH_PARTITION_SLOT_B |> <| s_ota_in_progress := false |> in
  let st := match s_backend st with
            | Some _ => st
            | None => st <| s_backend := Some (mock_backend W) |>
            end in
  (true, st <| s_initialised := true |>, (erased, snd m)).

Definition flash_partition_set_backend st (b : option (FlashPartitionBackend_t (medium W))) : state W :=
  st <| s_backend := b |>.

(** [!s_initialised || !s_backend] *)
Definition backend_of st : option (FlashPartitionBackend_t (medium W)) :=
  if negb (s_initialised st) then None else s_backend st.

Definition flash_partition_ota_begin st m (image_size : Z) : bool * state W * medium W :=
  match backend_of st with
  | None => (false, st, m)
  | Some b =>
      if s_ota_in_progress st then (false, st, m)
      else
        let st := st <| s_original_boot_partition := s_boot_partition st |> in
        let st := st <| s_ota_target := other_slot (s_boot_partition st) |> in
        let '(ok, m) := begin b (s_ota_target st) image_size m in
        if ok : bool then (true, st <| s_ota_in_progress := true |>, m) else (false, st, m)
  end.

Definition flash_partition_ota_write st m (offset : Z) (data : list Z) : bool * medium W :=
  match backend_of st with
  | None => (false, m)
  | Some b =>
      if negb (s_ota_in_progress st) then (false, m)
      else write b (s_ota_target st) offset data m
  end.

Definition flash_partition_ota_end st m : bool * state W * medium W :=
  match backend_of st with
  | None => (false, st, m)
  | Some b =>
      if negb (s_ota_in_progress st) then (false, st, m)
      else
        let '(ok, m) := end_ b (s_ota_target st) m in
        (ok, st <| s_ota_in_progress := false |>, m)
  end.

Definition flash_partition_set_boot st m : bool * state W * medium W :=
  match backend_of st with
  | None => (false, st, m)
  | Some b =>
      let '(ok, m) := set_boot_partition b (s_ota_target st) m in
      if ok : bool then (true, st <| s_boot_partition := s_ota_target st |>, m) else (false, st, m)
  end.

Definition flash_partition_rollback st m : bool * state W * medium W :=
  match backend_of st with
  | None => (false, st, m)
  | Some b =>
      let '(ok, m) := set_boot_partition b (s_original_boot_partition st) m in
      if ok : bool then (true, st <| s_boot_partition := s_original_boot_partition st |>, m)
      else (false, st, m)
  end.

Definition flash_partition_get_active_slot st : Z := s_boot_partition st.

Definition flash_partition_get_inactive_slot st : Z := other_slot (s_boot_partition st).

Definition flash_partition_get_backend st := s_backend st.

End partition.

(** ** What a backend promises the partition layer *)

Definition is_slot (slot : Z) : Prop := slot = 0 \/ slot = 1.

(** [ok m] is the backend's own well-formedness of the medium; the laws are the
    documented behaviour of its operations on it: beginning an update opens a
    slot and leaves the other alone, a write inside the slot replaces exactly
    its bytes, closing and choosing the boot slot keep all data. *)
Class BackendOk {M} (b : FlashPartitionBackend_t M) (ok : M -> Prop) := {
  ok_begin : forall slot size m, ok m -> is_slot slot -> 0 <= size <= FLASH_PARTITION_MAX_SIZE ->
    exists m', begin b slot size m = (true, m') /\ ok m' /\
      get_slot_state b slot m' = FLASH_SLOT_STATE_WRITING /\
      get_data b (other_slot slot) m' = get_data b (other_slot slot) m;
  ok_write : forall slot offset data m, ok m -> is_slot slot ->
    get_slot_state b slot m = FLASH_SLOT_STATE_WRITING ->
    0 <= offset -> offset + Z.of_nat (length data) <= FLASH_PARTITION_MAX_SIZE ->
    exists m' old, write b slot offset data m = (true, m') /\ ok m' /\
      get_slot_state b slot m' = FLASH_SLOT_STATE_WRITING /\
      get_data b slot m = Some old /\ length old = Z.to_nat FLASH_PARTITION_MAX_SIZE /\
      get_data b slot m' = Some (splice offset data old) /\
      get_data b (other_slot slot) m' = get_data b (other_slot slot) m;
  ok_end : forall slot m, ok m -> is_slot slot -> get_slot_state b slot m = FLASH_SLOT_STATE_WRITING ->
    exists m', end_ b slot m = (true, m') /\ ok m' /\ forall s, get_data b s m' = get_data b s m;
  ok_set_boot : forall slot m, ok m -> is_slot slot ->
    exists m', set_boot_partition b slot m = (true, m') /\ ok m' /\
      forall s, get_data b s m' = get_data b s m;
  ok_data : forall slot m, ok m -> is_slot slot -> exists d, get_data b slot m = Some d /\
      length d = Z.to_nat FLASH_PARTITION_MAX_SIZE }.

(** ** The in-memory backend keeps the promise *)

Record mock_ok (m : mock) : Prop := {
  mk_slots : length (s_slot_data m) = 2%nat /\ length (s_slot_state m) = 2%nat;
  mk_sizes : forall d, d ∈ s_slot_data m -> length d = Z.to_nat FLASH_PARTITION_MAX_SIZE }.

Lemma splice_length offset data buf :
  0 <= offset -> offset + Z.of_nat (length data) <= Z.of_nat (length buf) ->
  length (splice offset data buf) = length buf.
Proof.
  intros Ho Hl. unfold splice. rewrite !length_app, length_take, length_drop. lia.
Qed.

Lemma elem_store {A} (l : list A) i x y : y ∈ store i x l -> y = x \/ y ∈ l.
Proof.
  unfold store. intros Hy. apply list_elem_of_lookup in Hy as (j & Hj).
  apply list_lookup_insert_Some in Hj as [(_ & <- & _)|(_ & Hj)]; [auto|].
  right. eapply list_elem_of_lookup_2, Hj.
Qed.

Section mock_ok.
Context {W : Type}.

Definition medium_ok (m : medium W) : Prop := mock_ok (fst m).

Lemma slot_data_length (m : mock) slot :
  mock_ok m -> is_slot slot -> length (slot_data m slot) = Z.to_nat FLASH_PARTITION_MAX_SIZE.
Proof.
  intros [[Hd _] Hs] Hslot. apply Hs. unfold slot_data. apply list_elem_of_lookup.
  exists (Z.to_nat slot). rewrite nth_lookup.
  destruct (lookup_lt_is_Some_2 (s_slot_data m) (Z.to_nat slot)) as [d Hl];
    [destruct Hslot; subst; cbn; lia|]. rewrite Hl. reflexivity.
Qed.

Lemma good_slot slot : is_slot slot -> bad_slot slot = false /\ bad_slot (other_slot slot) = false.
Proof. intros [-> | ->]; split; reflexivity. Qed.

Lemma other_slot_ne slot : is_slot slot -> (other_slot slot =? slot) = false /\ is_slot (other_slot slot).
Proof. intros [-> | ->]; split; cbn; unfold is_slot; auto. Qed.

Lemma store_sizes (m : mock) slot d' :
  mock_ok m -> length d' = Z.to_nat FLASH_PARTITION_MAX_SIZE ->
  forall d, d ∈ store slot d' (s_slot_data m) -> length d = Z.to_nat FLASH_PARTITION_MAX_SIZE.
Proof. intros [_ Hs] Hd d [->|Hin]%elem_store; auto. Qed.

Lemma slot_range slot : is_slot slot -> 0 <= slot < 2.
Proof. unfold is_slot. lia. Qed.

#[export] Instance mock_backend_ok : BackendOk (mock_backend W) medium_ok.
Proof.
  split.
  - intros slot size [m w] Hm Hslot Hsize. destruct (good_slot slot Hslot) as [Hg Hgo].
    destruct (other_slot_ne slot Hslot) as [Hne Hos]. apply slot_range in Hslot as Hr, Hos as Hro.
    pose proof (mk_slots m Hm) as [Hd Hst].
    cbn. unfold on_mock, mock_begin, mock_get_slot_state, mock_get_data. rewrite Hg, Hgo.
    destruct (Z.ltb_spec FLASH_PARTITION_MAX_SIZE size); [lia|].
    eexists. split; [reflexivity|]. cbn. split_and!.
    + split; cbn; [rewrite !store_length; auto|]. apply (store_sizes m slot); [exact Hm|].
      rewrite splice_length; [apply slot_data_length; assumption|lia|].
      rewrite length_replicate, (slot_data_length m slot) by assumption. lia.
    + unfold slot_state. cbn. rewrite nth_store, Z.eqb_refl by lia. reflexivity.
    + unfold slot_data. cbn. rewrite nth_store, Hne by lia. reflexivity.
  - intros slot offset data [m w] Hm Hslot Hst Ho Hl. destruct (good_slot slot Hslot) as [Hg Hgo].
    destruct (other_slot_ne slot Hslot) as [Hne Hos]. apply slot_range in Hslot as Hr, Hos as Hro.
    pose proof (mk_slots m Hm) as [Hd Hss]. revert Hst.
    cbn. unfold on_mock, mock_write, mock_get_slot_state, mock_get_data. rewrite Hg, Hgo. intros Hst.
    unfold FLASH_PARTITION_MAX_SIZE in *. rewrite u32_small by (unfold is_u32; lia).
    destruct (Z.ltb_spec (256 * 1024) (offset + Z.of_nat (length data))); [lia|].
    cbn in Hst. rewrite bool_decide_eq_true_2 by exact Hst. cbn.
    pose proof (slot_data_length m slot Hm Hslot) as Hlen. unfold FLASH_PARTITION_MAX_SIZE in Hlen.
    eexists _, _. split; [reflexivity|]. cbn. split_and!.
    + split; cbn; [rewrite !store_length; auto|]. apply (store_sizes m slot); [exact Hm|].
      rewrite splice_length; [exact Hlen|lia|lia].
    + unfold slot_state in *. cbn. exact Hst.
    + reflexivity.
    + exact Hlen.
    + unfold slot_data. cbn. rewrite nth_store, Z.eqb_refl by lia. reflexivity.
    + unfold slot_data. cbn. rewrite nth_store, Hne by lia. reflexivity.
  - intros slot [m w] Hm Hslot Hst. destruct (good_slot slot Hslot) as [Hg _]. revert Hst.
    cbn. unfold on_mock, mock_end, mock_get_slot_state. rewrite Hg. intros Hst. cbn in Hst.
    rewrite bool_decide_eq_true_2 by exact Hst. eexists. split; [reflexivity|]. split; [|reflexivity].
    destruct Hm as [[Hd Hss] Hs]. split; cbn; [rewrite store_length; auto|exact Hs].
  - intros slot [m w] Hm Hslot. destruct (good_slot slot Hslot) as [Hg _].
    cbn. unfold on_mock, mock_set_boot_partition. rewrite Hg.
    eexists. split; [reflexivity|]. split; [|reflexivity].
    destruct Hm as [[Hd Hss] Hs]. split; cbn; [rewrite store_length; auto|exact Hs].
  - intros slot [m w] Hm Hslot. destruct (good_slot slot Hslot) as [Hg _].
    cbn. unfold mock_get_data. rewrite Hg. eexists. split; [reflexivity|]. apply slot_data_length; assumption.
Qed.

Lemma erased_ok (w : W) : medium_ok (erased, w).
Proof.
  split; [split; reflexivity|]. intros d Hd. cbn [s_slot_data erased fst] in Hd.
  apply elem_of_replicate in Hd as [-> _]. apply length_replicate.
Qed.

End mock_ok.

End flash_partition.
