(* ===== verification/Firmware.v ===== *)
(** Firmware images: the HMAC check of an image
    (firmware/shared/firmware_integrity.c) and the compatibility check of an
    update manifest (firmware/shared/ota_manifest.c). *)

From S2P Require Import Prelude Hmac DeviceIdentity.
Import hmac.

Module firmware_integrity.

Definition FW_INTEGRITY_HMAC_SIZE : nat := 32.
Definition FW_INTEGRITY_MANIFEST_MAGIC : Z := 0x4657494D.

Record FirmwareImageHeader_t := mk_header {
  magic : Z;
  image_size : Z;
  image_crc32 : Z;
  hmac : list Z;
  version : Z;
  domain_profile_id : Z;
  hw_variant_id : Z;
  reserved : Z }.

Inductive FirmwareCheckResult_t :=
| FW_CHECK_OK
| FW_CHECK_ERR_HMAC
| FW_CHECK_ERR_MAGIC
| FW_CHECK_ERR_SIZE
| FW_CHECK_ERR_PARAM_NULL
| FW_CHECK_ERR_NOT_INIT.

#[export] Instance FirmwareCheckResult_eq_dec : EqDecision FirmwareCheckResult_t.
Proof. solve_decision. Defined.

Record state := mk_state {
  g_hmac_key : list Z;
  g_key_set : bool;
  g_initialised : bool }.

#[export] Instance eta_state : Eta state := fun r =>
  mk_state (g_hmac_key r) (g_key_set r) (g_initialised r).

Definition initial : state := mk_state (zeros 32) false false.

Definition firmware_integrity_init (st : state) : bool * state := (true, mk_state (zeros 32) false true).

Definition firmware_integrity_set_key (st : state) (key : option (list Z)) : bool * state :=
  if negb (g_initialised st) then (false, st)
  else
    match key with
    | Some k =>
        if negb (Z.of_nat (length k) =? Z.of_nat FW_INTEGRITY_HMAC_SIZE) then (false, st)
        else (true, st <| g_hmac_key := k |> <| g_key_set := true |>)
    | None => (false, st)
    end.

Definition firmware_integrity_compute_hmac `{MdHmac} (key image_data : list Z) : list Z :=
  iot_hmac_sha256 key image_data.

Definition firmware_integrity_verify `{MdHmac} (st : state) (header : option FirmwareImageHeader_t)
    (image_data : option (list Z)) : FirmwareCheckResult_t :=
  match header, image_data with
  | Some h, Some image =>
      if negb (g_initialised st) then FW_CHECK_ERR_NOT_INIT
      else if negb (g_key_set st) then FW_CHECK_ERR_NOT_INIT
      else if negb (magic h =? FW_INTEGRITY_MANIFEST_MAGIC) then FW_CHECK_ERR_MAGIC
      else if negb (image_size h =? Z.of_nat (length image)) then FW_CHECK_ERR_SIZE
      else if ct_equal (hmac h) (firmware_integrity_compute_hmac (g_hmac_key st) image)
      then FW_CHECK_OK else FW_CHECK_ERR_HMAC
  | _, _ => FW_CHECK_ERR_PARAM_NULL
  end.

(** An image is accepted exactly when a key is set and the header carries
    the magic, the image's size and the HMAC of the image under the key. *)
Theorem image_accepted_iff `{MdHmacOk} st h image :
  length (hmac h) = 32%nat ->
  firmware_integrity_verify st (Some h) (Some image) = FW_CHECK_OK <->
  g_initialised st = true /\ g_key_set st = true /\ magic h = FW_INTEGRITY_MANIFEST_MAGIC /\
  image_size h = Z.of_nat (length image) /\ hmac h = iot_hmac_sha256 (g_hmac_key st) image.
Proof.
  intros Hlen. unfold firmware_integrity_verify, firmware_integrity_compute_hmac.
  rewrite ct_equal_spec by (rewrite Hlen; symmetry; apply iot_hmac_length).
  destruct (g_initialised st), (g_key_set st); cbn [negb];
    try (split; [discriminate|intros (? & ? & _); discriminate]).
  destruct (Z.eqb_spec (magic h) FW_INTEGRITY_MANIFEST_MAGIC); cbn [negb];
    [|split; [discriminate|tauto]].
  destruct (Z.eqb_spec (image_size h) (Z.of_nat (length image))); cbn [negb];
    [|split; [discriminate|tauto]].
  case_bool_decide; split; tauto || discriminate.
Qed.

Lemma image_accepted_iff_witness :
  let st := mk_state (replicate 32 3) true true in
  let image := [1; 2; 3] in
  firmware_integrity_verify (H := mix_hmac) st
    (Some (mk_header FW_INTEGRITY_MANIFEST_MAGIC 3 0 (iot_hmac_sha256 (H := mix_hmac) (replicate 32 3) image) 1 3 2 0))
    (Some image) = FW_CHECK_OK.
Proof.
  apply (image_accepted_iff (H0 := mix_hmac_ok)).
  - reflexivity.
  - repeat split; reflexivity.
Defined.

End firmware_integrity.

Module ota_manifest.
Import device_identity.

Record FirmwareManifest_t := mk_manifest {
  target_domain_profile_id : DomainProfileId_t;
  target_hw_variant_id : Z;
  mf_fw_version : Z;
  image_size : Z;
  image_hmac : list Z }.

#[export] Instance eta_manifest : Eta FirmwareManifest_t := fun r =>
  mk_manifest (target_domain_profile_id r) (target_hw_variant_id r) (mf_fw_version r)
    (image_size r) (image_hmac r).

Inductive OtaCompatResult_t :=
| OTA_COMPAT_OK
| OTA_COMPAT_ERR_DOMAIN_MISMATCH
| OTA_COMPAT_ERR_VARIANT_MISMATCH
| OTA_COMPAT_ERR_VERSION_DOWNGRADE
| OTA_COMPAT_ERR_PARAM_NULL.

#[export] Instance OtaCompatResult_eq_dec : EqDecision OtaCompatResult_t.
Proof. solve_decision. Defined.

Definition ota_compatibility_check (device : option DeviceIdentity_t)
    (manifest : option FirmwareManifest_t) : OtaCompatResult_t :=
  match device, manifest with
  | Some d, Some m =>
      if negb (domain_profile_id d =? target_domain_profile_id m)
      then OTA_COMPAT_ERR_DOMAIN_MISMATCH
      else if negb (hw_variant_id d =? target_hw_variant_id m)
      then OTA_COMPAT_ERR_VARIANT_MISMATCH
      else if mf_fw_version m <=? fw_version d then OTA_COMPAT_ERR_VERSION_DOWNGRADE
      else OTA_COMPAT_OK
  | _, _ => OTA_COMPAT_ERR_PARAM_NULL
  end.

(** An update is compatible exactly when it targets this domain and hardware
    and is strictly newer. *)
Lemma compat_ok_iff d m :
  ota_compatibility_check (Some d) (Some m) = OTA_COMPAT_OK <->
  domain_profile_id d = target_domain_profile_id m /\ hw_variant_id d = target_hw_variant_id m /\
  fw_version d < mf_fw_version m.
Proof.
  unfold ota_compatibility_check. repeat case_match; reflect; split; try discriminate; try tauto; lia.
Qed.

Definition ota_compat_result_str (result : OtaCompatResult_t) : string :=
  match result with
  | OTA_COMPAT_OK => "OK — compatible"
  | OTA_COMPAT_ERR_DOMAIN_MISMATCH => "REJECT — domain profile mismatch"
  | OTA_COMPAT_ERR_VARIANT_MISMATCH => "REJECT — hardware variant mismatch"
  | OTA_COMPAT_ERR_VERSION_DOWNGRADE => "REJECT — version downgrade"
  | OTA_COMPAT_ERR_PARAM_NULL => "ERROR — NULL parameter"
  end.

End ota_manifest.
