(* ===== verification/DomainProfile.v ===== *)
(** What the four domain profiles have in common: the loops over a profile's
    fail-safe table, which the four files repeat, and the law that ties the
    table to the profile's [getFailSafeMode]. *)

From S2P Require Import Prelude Float32 ActuatorFailsafe RuleEngine SensorValidation.
Import float32 actuator_failsafe.
Import rule_engine_core(RuleEntry_t, mk_rule, SensorReading_t, rd_metric_id).
Import sensor_validation(SensorValidationBounds_t, min_physical, max_physical).

Module domain_profile.

(** The value of the enumeration, as the profiles return it in a [uint8_t]. *)
Definition mode_code (m : ActuatorFailSafeMode_t) : Z :=
  match m with
  | FAILSAFE_DE_ENERGIZE => 0
  | FAILSAFE_HOLD_LAST => 1
  | FAILSAFE_FORCE_OFF => 2
  | FAILSAFE_FORCE_SAFE_POS => 3
  end.

(** The loop of [*_failsafe_register_all]. *)
Definition register_table (table : list ActuatorFailSafeEntry_t) (st : state) : bool * state :=
  fold_left (fun '(success, st) e =>
               let '(ok, st) := actuator_failsafe_register st (Some e) in
               (if ok : bool then success else false, st))
    table (true, st).

(** The loop of [*_get_comms_timeout]. *)
Definition table_timeout (table : list ActuatorFailSafeEntry_t) (id : Z) : Z :=
  match find_first (has_id id) table with
  | Some e => comms_timeout_sec e
  | None => 0
  end.

(** The physical range check of the profiles that look their bounds up. *)
Definition in_bounds (bounds : option SensorValidationBounds_t) (reading : SensorReading_t) : bool :=
  match bounds with
  | None => false
  | Some b =>
      if flt (rule_engine_core.value reading) (min_physical b) ||
         fgt (rule_engine_core.value reading) (max_physical b) then false else true
  end.

(** A table fits the engine, has one entry per actuator, and says what the
    profile's [getFailSafeMode] says. *)
Class FailsafeTableOk (table : list ActuatorFailSafeEntry_t) (getFailSafeMode : Z -> bool -> Z) : Prop := {
  table_small : (length table <= 16)%nat;
  table_distinct : NoDup (actuator_id <$> table);
  table_modes : Forall (fun e =>
    getFailSafeMode (actuator_id e) true = mode_code (power_loss_mode e) /\
    getFailSafeMode (actuator_id e) false = mode_code (comms_loss_mode e)) table }.

(** Registering a table on top of what is there. *)
Lemma register_table_lookup table st (n : nat) :
  wf st -> g_initialised st = true -> g_entry_count st <= Z.of_nat n ->
  (n + length table <= 16)%nat -> NoDup (actuator_id <$> table) ->
  exists st', register_table table st = (true, st') /\ g_initialised st' = true /\
    forall id pl, actuator_failsafe_lookup st' id pl true =
      match find_first (has_id id) table with
      | Some e => Some e
      | None => actuator_failsafe_lookup st id pl true
      end.
Proof.
  unfold register_table. revert st n. induction table as [|e table IH]; intros st n Hwf Hi Hn Hlen Hnd.
  { exists st. auto. }
  cbn [length] in Hlen. rewrite fmap_cons, NoDup_cons in Hnd. destruct Hnd as [He Hnd].
  assert (g_entry_count st < ACTUATOR_FAILSAFE_MAX_ENTRIES) as Hlt
    by (unfold ACTUATOR_FAILSAFE_MAX_ENTRIES; lia).
  destruct (failsafe_register_upsert st e Hwf Hi Hlt) as (st1 & Hr & Hwf1 & Hi1 & Hu).
  assert (g_entry_count st1 <= Z.of_nat (S n)) as Hn1.
  { pose proof (upsert_length has_id (actuator_id e) (used (g_entry_count st) (g_failsafe_table st)) e) as Hl.
    rewrite <- Hu in Hl. destruct Hwf as [Hs Hc], Hwf1 as [Hs1 Hc1]. unfold ACTUATOR_FAILSAFE_MAX_ENTRIES in *.
    rewrite !used_length in Hl by lia. destruct (find_index _ _); lia. }
  destruct (IH st1 (S n) Hwf1 Hi1 Hn1 ltac:(lia) Hnd) as (st2 & Hf & Hi2 & Hl2).
  exists st2. cbn [fold_left]. rewrite Hr. split; [exact Hf|]. split; [exact Hi2|]. intros id pl.
  rewrite Hl2.
  change (find_first (has_id id) (e :: table)) with (keyed_lookup has_id id (e :: table)).
  rewrite keyed_lookup_cons. unfold actuator_failsafe_lookup. rewrite Hi, Hi1, Hu. cbn [negb].
  pose proof (upsert_lookup actuator_id has_id actuator_id_spec id
    (used (g_entry_count st) (g_failsafe_table st)) e) as Hup. unfold keyed_lookup in *. rewrite Hup.
  destruct (find_first (has_id id) table) as [e'|] eqn:Hf'; [|destruct (has_id id e); reflexivity].
  destruct (has_id id e) eqn:Hid; [|reflexivity]. exfalso. apply He.
  apply find_first_Some in Hf' as [Hin Hid']. apply actuator_id_spec in Hid, Hid'.
  rewrite Hid, <- Hid'. apply list_elem_of_fmap_2, Hin.
Qed.

(** The decision of the engine after a fresh start. *)
Lemma register_table_decides table mode `{!FailsafeTableOk table mode} st0 :
  exists st, register_table table (snd (actuator_failsafe_init st0)) = (true, st) /\
    forall id power elapsed, actuator_failsafe_execute st id power elapsed =
      match find_first (has_id id) table with
      | Some e => (true, failsafe_mode e power elapsed)
      | None => (false, None)
      end.
Proof.
  destruct (register_table_lookup table (snd (actuator_failsafe_init st0)) 0 (failsafe_init_wf st0)
    eq_refl ltac:(cbn; lia) table_small table_distinct) as (st & Hr & Hi & Hl).
  exists st. split; [exact Hr|]. intros id power elapsed. unfold actuator_failsafe_execute.
  rewrite Hi. cbn [negb]. rewrite Hl. destruct (find_first (has_id id) table); reflexivity.
Qed.

(** A settled mode is the one [getFailSafeMode] names, and the engine waits
    exactly while a communication loss is shorter than the timeout. *)
Lemma table_decision table mode `{!FailsafeTableOk table mode} id e power elapsed :
  find_first (has_id id) table = Some e ->
  (failsafe_mode e power elapsed = None <-> power = false /\ elapsed < table_timeout table id) /\
  forall m, failsafe_mode e power elapsed = Some m -> mode_code m = mode id power.
Proof.
  intros He. unfold table_timeout. rewrite He. apply find_first_Some in He as [Hin Hid].
  apply actuator_id_spec in Hid as <-.
  destruct (proj1 (Forall_forall _ _) table_modes e Hin) as [Hp Hc].
  unfold failsafe_mode. destruct power.
  - split; [split; [discriminate|intros [? _]; discriminate]|]. intros m [= <-]. symmetry. exact Hp.
  - destruct (Z.ltb_spec elapsed (comms_timeout_sec e)).
    + split; [tauto|discriminate].
    + split; [split; [discriminate|intros [_ ?]; lia]|]. intros m [= <-]. symmetry. exact Hc.
Qed.

End domain_profile.
