(* ===== verification/HomeProfile.v ===== *)
(** The home and building profile (firmware/profiles/home: home_rules.c,
    home_validation_bounds.c, home_failsafe.c). *)

From S2P Require Import Prelude Float32 ActuatorFailsafe RuleEngine SensorValidation DomainProfile.
Import float32 actuator_failsafe domain_profile.
Import rule_engine_core(RuleEntry_t, mk_rule, SensorReading_t, mk_reading, rd_metric_id,
  DomainProfileVTable_t, mk_vtable, RULE_ACTION_SET_ACTUATOR, RULE_CLASS_SAFETY_LOCKED,
  RULE_CLASS_OPERATIONAL, RULE_COMPARE_ABOVE, RULE_COMPARE_BELOW, ACTUATOR_STATE_ON, ACTUATOR_STATE_OFF).
Import sensor_validation(SensorValidationBounds_t, mk_bounds).

Module home_profile.

Definition HOME_RULE_DOOR_LOCK_CRITICAL : Z := 1001.
Definition HOME_RULE_IRRIGATION_OPERATIONAL : Z := 2001.
Definition HOME_RULE_LIGHTING_OPERATIONAL : Z := 2002.
Definition HOME_METRIC_SECURITY_STATE : Z := 10.
Definition HOME_METRIC_DOOR_CONTACT : Z := 11.
Definition HOME_METRIC_LIGHT_LEVEL : Z := 12.
Definition HOME_METRIC_SOIL_MOISTURE : Z := 13.
Definition HOME_ACTUATOR_DOOR_LOCK : Z := 1.
Definition HOME_ACTUATOR_IRRIGATION_VALVE : Z := 2.
Definition HOME_ACTUATOR_LIGHT_RELAY : Z := 3.
Definition HOME_DOOR_LOCK_COMMS_TIMEOUT : Z := 0.
Definition HOME_IRRIGATION_COMMS_TIMEOUT : Z := 600.
Definition HOME_LIGHT_RELAY_COMMS_TIMEOUT : Z := 0.

(** ** Rules *)

Definition s_home_rules : list RuleEntry_t := [
  mk_rule HOME_RULE_DOOR_LOCK_CRITICAL 0 (lit 1) RULE_ACTION_SET_ACTUATOR HOME_ACTUATOR_DOOR_LOCK
    HOME_METRIC_SECURITY_STATE RULE_CLASS_SAFETY_LOCKED 0 RULE_COMPARE_ABOVE;
  mk_rule HOME_RULE_IRRIGATION_OPERATIONAL 5 (lit 30) RULE_ACTION_SET_ACTUATOR HOME_ACTUATOR_IRRIGATION_VALVE
    HOME_METRIC_SOIL_MOISTURE RULE_CLASS_OPERATIONAL 0 RULE_COMPARE_ABOVE;
  mk_rule HOME_RULE_LIGHTING_OPERATIONAL 8 (lit 100) RULE_ACTION_SET_ACTUATOR HOME_ACTUATOR_LIGHT_RELAY
    HOME_METRIC_LIGHT_LEVEL RULE_CLASS_OPERATIONAL 0 RULE_COMPARE_ABOVE].

Definition HOME_RULE_COUNT : Z := Z.of_nat (length s_home_rules).

(** What is left behind the out-pointers. *)
Definition home_getRuleTable : option (list RuleEntry_t) * Z := (Some s_home_rules, u8 HOME_RULE_COUNT).

(** ** Plausibility bounds and history buffers *)

Definition s_door_contact_bounds : SensorValidationBounds_t := mk_bounds f_zero (lit 1) (lit 2) 0 0.
Definition s_light_level_bounds : SensorValidationBounds_t := mk_bounds f_zero (lit 1000) (lit 500) 3600 0.
Definition s_soil_moisture_bounds : SensorValidationBounds_t := mk_bounds f_zero (lit 100) (lit 10) 7200 0.

Definition home_get_validation_bounds (metric_id : Z) : option SensorValidationBounds_t :=
  if metric_id =? HOME_METRIC_DOOR_CONTACT then Some s_door_contact_bounds
  else if metric_id =? HOME_METRIC_LIGHT_LEVEL then Some s_light_level_bounds
  else if metric_id =? HOME_METRIC_SOIL_MOISTURE then Some s_soil_moisture_bounds
  else None.

(** The buffers by their order of declaration. *)
Definition home_get_metric_history (metric_id : Z) : option nat :=
  if metric_id =? HOME_METRIC_DOOR_CONTACT then Some 0%nat
  else if metric_id =? HOME_METRIC_LIGHT_LEVEL then Some 1%nat
  else if metric_id =? HOME_METRIC_SOIL_MOISTURE then Some 2%nat
  else None.

Definition home_validateSensorReading (reading : option SensorReading_t) : bool :=
  match reading with
  | None => false
  | Some r => fge (rule_engine_core.value r) f_zero
  end.

(** ** Fail-safe modes *)

Definition home_getFailSafeMode (actuator_id : Z) (is_power_loss : bool) : Z :=
  if is_power_loss then
    if actuator_id =? HOME_ACTUATOR_DOOR_LOCK then mode_code FAILSAFE_FORCE_SAFE_POS
    else if actuator_id =? HOME_ACTUATOR_IRRIGATION_VALVE then mode_code FAILSAFE_FORCE_OFF
    else if actuator_id =? HOME_ACTUATOR_LIGHT_RELAY then mode_code FAILSAFE_FORCE_OFF
    else mode_code FAILSAFE_DE_ENERGIZE
  else
    if actuator_id =? HOME_ACTUATOR_DOOR_LOCK then mode_code FAILSAFE_HOLD_LAST
    else if actuator_id =? HOME_ACTUATOR_IRRIGATION_VALVE then mode_code FAILSAFE_HOLD_LAST
    else if actuator_id =? HOME_ACTUATOR_LIGHT_RELAY then mode_code FAILSAFE_HOLD_LAST
    else mode_code FAILSAFE_HOLD_LAST.

Definition s_home_failsafe_table : list ActuatorFailSafeEntry_t := [
  mk_entry HOME_ACTUATOR_DOOR_LOCK ACTUATOR_SAFETY_CRITICAL FAILSAFE_FORCE_SAFE_POS FAILSAFE_HOLD_LAST HOME_DOOR_LOCK_COMMS_TIMEOUT;
  mk_entry HOME_ACTUATOR_IRRIGATION_VALVE ACTUATOR_SAFETY_STANDARD FAILSAFE_FORCE_OFF FAILSAFE_HOLD_LAST HOME_IRRIGATION_COMMS_TIMEOUT;
  mk_entry HOME_ACTUATOR_LIGHT_RELAY ACTUATOR_SAFETY_STANDARD FAILSAFE_FORCE_OFF FAILSAFE_HOLD_LAST HOME_LIGHT_RELAY_COMMS_TIMEOUT].

Definition home_failsafe_register_all (st : state) : bool * state :=
  register_table s_home_failsafe_table st.

Definition home_get_comms_timeout (actuator_id : Z) : Z :=
  table_timeout s_home_failsafe_table actuator_id.

#[export] Instance home_profile_failsafe_ok :
  FailsafeTableOk s_home_failsafe_table home_getFailSafeMode.
Proof.
  split; [cbn; lia|apply (bool_decide_unpack _); vm_compute; exact I|].
  repeat constructor.
Qed.

(** ** The vtable *)

Definition home_executeAction {W} (actuator_id state : Z) (w : W) : bool * W := (true, w).

Definition s_home_profile_vtable {W} : DomainProfileVTable_t W :=
  mk_vtable home_getRuleTable (fun r w => (home_validateSensorReading (Some r), w))
    home_getFailSafeMode home_executeAction.

Definition home_profile_get_vtable {W} : DomainProfileVTable_t W := s_home_profile_vtable.


End home_profile.
