(* ===== verification/AgricultureProfile.v ===== *)
(** The agriculture profile (firmware/profiles/agriculture: agriculture_rules.c,
    agriculture_validation_bounds.c, agriculture_failsafe.c). *)

From S2P Require Import Prelude Float32 ActuatorFailsafe RuleEngine SensorValidation DomainProfile.
Import float32 actuator_failsafe domain_profile.
Import rule_engine_core(RuleEntry_t, mk_rule, SensorReading_t, mk_reading, rd_metric_id,
  DomainProfileVTable_t, mk_vtable, RULE_ACTION_SET_ACTUATOR, RULE_CLASS_SAFETY_LOCKED,
  RULE_CLASS_OPERATIONAL, RULE_COMPARE_ABOVE, RULE_COMPARE_BELOW, ACTUATOR_STATE_ON, ACTUATOR_STATE_OFF).
Import sensor_validation(SensorValidationBounds_t, mk_bounds).

Module agriculture_profile.

Definition AGRI_RULE_PUMP_DRY_RUN_CRITICAL : Z := 3001.
Definition AGRI_RULE_IRRIGATION_OPERATIONAL : Z := 3002.
Definition AGRI_RULE_FROST_PROTECT_OPERATIONAL : Z := 3003.
Definition AGRI_METRIC_SOIL_MOISTURE : Z := 20.
Definition AGRI_METRIC_AMBIENT_TEMP : Z := 21.
Definition AGRI_METRIC_AMBIENT_HUMIDITY : Z := 22.
Definition AGRI_METRIC_WATER_LEVEL : Z := 23.
Definition AGRI_METRIC_FLOW_RATE : Z := 24.
Definition AGRI_ACTUATOR_IRRIGATION_PUMP : Z := 1.
Definition AGRI_ACTUATOR_IRRIGATION_VALVE : Z := 2.
Definition AGRI_ACTUATOR_FROST_VALVE : Z := 3.
Definition AGRI_PUMP_COMMS_TIMEOUT : Z := 30.
Definition AGRI_VALVE_COMMS_TIMEOUT : Z := 600.
Definition AGRI_FROST_VALVE_COMMS_TIMEOUT : Z := 300.

(** ** Rules *)

Definition s_agriculture_rules : list RuleEntry_t := [
  mk_rule AGRI_RULE_PUMP_DRY_RUN_CRITICAL 0 (lit 10) RULE_ACTION_SET_ACTUATOR AGRI_ACTUATOR_IRRIGATION_PUMP
    AGRI_METRIC_WATER_LEVEL RULE_CLASS_SAFETY_LOCKED 0 RULE_COMPARE_BELOW;
  mk_rule AGRI_RULE_IRRIGATION_OPERATIONAL 5 (lit 25) RULE_ACTION_SET_ACTUATOR AGRI_ACTUATOR_IRRIGATION_VALVE
    AGRI_METRIC_SOIL_MOISTURE RULE_CLASS_OPERATIONAL 0 RULE_COMPARE_BELOW;
  mk_rule AGRI_RULE_FROST_PROTECT_OPERATIONAL 3 (lit 2) RULE_ACTION_SET_ACTUATOR AGRI_ACTUATOR_FROST_VALVE
    AGRI_METRIC_AMBIENT_TEMP RULE_CLASS_OPERATIONAL 0 RULE_COMPARE_BELOW].

Definition AGRI_RULE_COUNT : Z := Z.of_nat (length s_agriculture_rules).

(** What is left behind the out-pointers. *)
Definition agriculture_getRuleTable : option (list RuleEntry_t) * Z := (Some s_agriculture_rules, u8 AGRI_RULE_COUNT).

(** ** Plausibility bounds and history buffers *)

Definition s_soil_moisture_bounds : SensorValidationBounds_t := mk_bounds f_zero (lit 100) (lit 5) 7200 0.
Definition s_ambient_temp_bounds : SensorValidationBounds_t := mk_bounds (lit (-40)) (lit 60) (lit 5) 3600 0.
Definition s_ambient_humidity_bounds : SensorValidationBounds_t := mk_bounds f_zero (lit 100) (lit 10) 3600 0.
Definition s_water_level_bounds : SensorValidationBounds_t := mk_bounds f_zero (lit 100) (lit 2) 1800 0.

Definition agriculture_get_validation_bounds (metric_id : Z) : option SensorValidationBounds_t :=
  if metric_id =? AGRI_METRIC_SOIL_MOISTURE then Some s_soil_moisture_bounds
  else if metric_id =? AGRI_METRIC_AMBIENT_TEMP then Some s_ambient_temp_bounds
  else if metric_id =? AGRI_METRIC_AMBIENT_HUMIDITY then Some s_ambient_humidity_bounds
  else if metric_id =? AGRI_METRIC_WATER_LEVEL then Some s_water_level_bounds
  else None.

(** The buffers by their order of declaration. *)
Definition agriculture_get_metric_history (metric_id : Z) : option nat :=
  if metric_id =? AGRI_METRIC_SOIL_MOISTURE then Some 0%nat
  else if metric_id =? AGRI_METRIC_AMBIENT_TEMP then Some 1%nat
  else if metric_id =? AGRI_METRIC_AMBIENT_HUMIDITY then Some 2%nat
  else if metric_id =? AGRI_METRIC_WATER_LEVEL then Some 3%nat
  else None.

Definition agriculture_validateSensorReading (reading : option SensorReading_t) : bool :=
  match reading with
  | None => false
  | Some r => fge (rule_engine_core.value r) f_zero
  end.

(** ** Fail-safe modes *)

Definition agriculture_getFailSafeMode (actuator_id : Z) (is_power_loss : bool) : Z :=
  if is_power_loss then
    if actuator_id =? AGRI_ACTUATOR_IRRIGATION_PUMP then mode_code FAILSAFE_FORCE_OFF
    else if actuator_id =? AGRI_ACTUATOR_IRRIGATION_VALVE then mode_code FAILSAFE_DE_ENERGIZE
    else if actuator_id =? AGRI_ACTUATOR_FROST_VALVE then mode_code FAILSAFE_DE_ENERGIZE
    else mode_code FAILSAFE_DE_ENERGIZE
  else
    if actuator_id =? AGRI_ACTUATOR_IRRIGATION_PUMP then mode_code FAILSAFE_FORCE_OFF
    else if actuator_id =? AGRI_ACTUATOR_IRRIGATION_VALVE then mode_code FAILSAFE_HOLD_LAST
    else if actuator_id =? AGRI_ACTUATOR_FROST_VALVE then mode_code FAILSAFE_HOLD_LAST
    else mode_code FAILSAFE_HOLD_LAST.

Definition s_agriculture_failsafe_table : list ActuatorFailSafeEntry_t := [
  mk_entry AGRI_ACTUATOR_IRRIGATION_PUMP ACTUATOR_SAFETY_CRITICAL FAILSAFE_FORCE_OFF FAILSAFE_FORCE_OFF AGRI_PUMP_COMMS_TIMEOUT;
  mk_entry AGRI_ACTUATOR_IRRIGATION_VALVE ACTUATOR_SAFETY_STANDARD FAILSAFE_DE_ENERGIZE FAILSAFE_HOLD_LAST AGRI_VALVE_COMMS_TIMEOUT;
  mk_entry AGRI_ACTUATOR_FROST_VALVE ACTUATOR_SAFETY_STANDARD FAILSAFE_DE_ENERGIZE FAILSAFE_HOLD_LAST AGRI_FROST_VALVE_COMMS_TIMEOUT].

Definition agriculture_failsafe_register_all (st : state) : bool * state :=
  register_table s_agriculture_failsafe_table st.

Definition agriculture_get_comms_timeout (actuator_id : Z) : Z :=
  table_timeout s_agriculture_failsafe_table actuator_id.

#[export] Instance agriculture_profile_failsafe_ok :
  FailsafeTableOk s_agriculture_failsafe_table agriculture_getFailSafeMode.
Proof.
  split; [cbn; lia|apply (bool_decide_unpack _); vm_compute; exact I|].
  repeat constructor.
Qed.

(** ** The vtable *)

Definition agriculture_executeAction {W} (actuator_id state : Z) (w : W) : bool * W := (true, w).

Definition s_agriculture_profile_vtable {W} : DomainProfileVTable_t W :=
  mk_vtable agriculture_getRuleTable (fun r w => (agriculture_validateSensorReading (Some r), w))
    agriculture_getFailSafeMode agriculture_executeAction.

Definition agriculture_profile_get_vtable {W} : DomainProfileVTable_t W := s_agriculture_profile_vtable.

(** Zero is the lower limit of every metric here, also of the temperature
    whose physical range starts at 40 degrees below it. *)
Lemma below_zero_rejected r :
  flt (rule_engine_core.value r) f_zero = true -> agriculture_validateSensorReading (Some r) = false.
Proof.
  intros Hlt. cbn. destruct (is_nan (rule_engine_core.value r)) eqn:Hn.
  - destruct (is_nan_unordered _ f_zero Hn) as (E & _). congruence.
  - rewrite flt_fge, Hlt by (exact Hn || reflexivity). reflexivity.
Qed.

End agriculture_profile.
