(* ===== verification/WaterProfile.v ===== *)
(** The water treatment profile (firmware/profiles/water_treatment:
    water_rules.c, water_validation_bounds.c, water_failsafe.c). *)

From S2P Require Import Prelude Float32 ActuatorFailsafe RuleEngine SensorValidation DomainProfile.
Import float32 actuator_failsafe domain_profile.
Import rule_engine_core(RuleEntry_t, mk_rule, SensorReading_t, mk_reading, rd_metric_id,
  DomainProfileVTable_t, mk_vtable, RULE_ACTION_SET_ACTUATOR, RULE_CLASS_SAFETY_LOCKED,
  RULE_CLASS_OPERATIONAL, RULE_COMPARE_ABOVE, RULE_COMPARE_BELOW, ACTUATOR_STATE_ON, ACTUATOR_STATE_OFF).
Import sensor_validation(SensorValidationBounds_t, mk_bounds).

Module water_profile.

Definition WATER_RULE_CHLORINE_SAFETY : Z := 5001.
Definition WATER_RULE_PH_HIGH_SAFETY : Z := 5002.
Definition WATER_RULE_PH_LOW_SAFETY : Z := 5004.
Definition WATER_RULE_TANK_REFILL : Z := 5003.
Definition WATER_METRIC_CHLORINE_LEVEL : Z := 40.
Definition WATER_METRIC_PH : Z := 41.
Definition WATER_METRIC_TANK_LEVEL : Z := 42.
Definition WATER_METRIC_FLOW_RATE : Z := 43.
Definition WATER_ACTUATOR_DOSING_VALVE : Z := 1.
Definition WATER_ACTUATOR_MAIN_SUPPLY_VALVE : Z := 2.
Definition WATER_ACTUATOR_CIRCULATION_PUMP : Z := 3.
Definition WATER_CHLORINE_SAFE_MIN_PPM : float := lit_frac 2 10.
Definition WATER_CHLORINE_SAFE_MAX_PPM : float := lit 4.
Definition WATER_PH_SAFE_MIN : float := lit_frac 13 2.
Definition WATER_PH_SAFE_MAX : float := lit_frac 17 2.
Definition WATER_DOSING_VALVE_COMMS_TIMEOUT : Z := 10.
Definition WATER_MAIN_VALVE_COMMS_TIMEOUT : Z := 60.
Definition WATER_CIRC_PUMP_COMMS_TIMEOUT : Z := 120.

(** ** Rules *)

Definition s_water_rules : list RuleEntry_t := [
  mk_rule WATER_RULE_CHLORINE_SAFETY 0 WATER_CHLORINE_SAFE_MAX_PPM RULE_ACTION_SET_ACTUATOR WATER_ACTUATOR_DOSING_VALVE
    WATER_METRIC_CHLORINE_LEVEL RULE_CLASS_SAFETY_LOCKED 0 RULE_COMPARE_ABOVE;
  mk_rule WATER_RULE_PH_HIGH_SAFETY 0 WATER_PH_SAFE_MAX RULE_ACTION_SET_ACTUATOR WATER_ACTUATOR_DOSING_VALVE
    WATER_METRIC_PH RULE_CLASS_SAFETY_LOCKED 0 RULE_COMPARE_ABOVE;
  mk_rule WATER_RULE_PH_LOW_SAFETY 0 WATER_PH_SAFE_MIN RULE_ACTION_SET_ACTUATOR WATER_ACTUATOR_DOSING_VALVE
    WATER_METRIC_PH RULE_CLASS_SAFETY_LOCKED 0 RULE_COMPARE_BELOW;
  mk_rule WATER_RULE_TANK_REFILL 5 (lit 20) RULE_ACTION_SET_ACTUATOR WATER_ACTUATOR_MAIN_SUPPLY_VALVE
    WATER_METRIC_TANK_LEVEL RULE_CLASS_OPERATIONAL 0 RULE_COMPARE_BELOW].

Definition WATER_RULE_COUNT : Z := Z.of_nat (length s_water_rules).

(** What is left behind the out-pointers. *)
Definition water_getRuleTable : option (list RuleEntry_t) * Z := (Some s_water_rules, u8 WATER_RULE_COUNT).

(** ** Plausibility bounds and history buffers *)

Definition s_chlorine_bounds : SensorValidationBounds_t := mk_bounds f_zero (lit 10) (lit 2) 1800 0.
Definition s_ph_bounds : SensorValidationBounds_t := mk_bounds f_zero (lit 14) (lit 1) 3600 0.
Definition s_tank_level_bounds : SensorValidationBounds_t := mk_bounds f_zero (lit 100) (lit 5) 1800 0.
Definition s_flow_rate_bounds : SensorValidationBounds_t := mk_bounds f_zero (lit 50) (lit 10) 900 0.

Definition water_get_validation_bounds (metric_id : Z) : option SensorValidationBounds_t :=
  if metric_id =? WATER_METRIC_CHLORINE_LEVEL then Some s_chlorine_bounds
  else if metric_id =? WATER_METRIC_PH then Some s_ph_bounds
  else if metric_id =? WATER_METRIC_TANK_LEVEL then Some s_tank_level_bounds
  else if metric_id =? WATER_METRIC_FLOW_RATE then Some s_flow_rate_bounds
  else None.

(** The buffers by their order of declaration. *)
Definition water_get_metric_history (metric_id : Z) : option nat :=
  if metric_id =? WATER_METRIC_CHLORINE_LEVEL then Some 0%nat
  else if metric_id =? WATER_METRIC_PH then Some 1%nat
  else if metric_id =? WATER_METRIC_TANK_LEVEL then Some 2%nat
  else if metric_id =? WATER_METRIC_FLOW_RATE then Some 3%nat
  else None.

Definition water_validateSensorReading (reading : option SensorReading_t) : bool :=
  match reading with
  | None => false
  | Some r => in_bounds (water_get_validation_bounds (rd_metric_id r)) r
  end.

(** ** Fail-safe modes *)

Definition water_getFailSafeMode (actuator_id : Z) (is_power_loss : bool) : Z :=
  if is_power_loss then
    if actuator_id =? WATER_ACTUATOR_DOSING_VALVE then mode_code FAILSAFE_FORCE_OFF
    else if actuator_id =? WATER_ACTUATOR_MAIN_SUPPLY_VALVE then mode_code FAILSAFE_DE_ENERGIZE
    else if actuator_id =? WATER_ACTUATOR_CIRCULATION_PUMP then mode_code FAILSAFE_FORCE_OFF
    else mode_code FAILSAFE_DE_ENERGIZE
  else
    if actuator_id =? WATER_ACTUATOR_DOSING_VALVE then mode_code FAILSAFE_FORCE_OFF
    else if actuator_id =? WATER_ACTUATOR_MAIN_SUPPLY_VALVE then mode_code FAILSAFE_HOLD_LAST
    else if actuator_id =? WATER_ACTUATOR_CIRCULATION_PUMP then mode_code FAILSAFE_HOLD_LAST
    else mode_code FAILSAFE_HOLD_LAST.

Definition s_water_failsafe_table : list ActuatorFailSafeEntry_t := [
  mk_entry WATER_ACTUATOR_DOSING_VALVE ACTUATOR_SAFETY_CRITICAL FAILSAFE_FORCE_OFF FAILSAFE_FORCE_OFF WATER_DOSING_VALVE_COMMS_TIMEOUT;
  mk_entry WATER_ACTUATOR_MAIN_SUPPLY_VALVE ACTUATOR_SAFETY_CRITICAL FAILSAFE_DE_ENERGIZE FAILSAFE_HOLD_LAST WATER_MAIN_VALVE_COMMS_TIMEOUT;
  mk_entry WATER_ACTUATOR_CIRCULATION_PUMP ACTUATOR_SAFETY_STANDARD FAILSAFE_FORCE_OFF FAILSAFE_HOLD_LAST WATER_CIRC_PUMP_COMMS_TIMEOUT].

Definition water_failsafe_register_all (st : state) : bool * state :=
  register_table s_water_failsafe_table st.

Definition water_get_comms_timeout (actuator_id : Z) : Z :=
  table_timeout s_water_failsafe_table actuator_id.

#[export] Instance water_profile_failsafe_ok :
  FailsafeTableOk s_water_failsafe_table water_getFailSafeMode.
Proof.
  split; [cbn; lia|apply (bool_decide_unpack _); vm_compute; exact I|].
  repeat constructor.
Qed.

(** ** The vtable *)

Definition water_executeAction {W} (actuator_id state : Z) (w : W) : bool * W := (true, w).

Definition s_water_profile_vtable {W} : DomainProfileVTable_t W :=
  mk_vtable water_getRuleTable (fun r w => (water_validateSensorReading (Some r), w))
    water_getFailSafeMode water_executeAction.

Definition water_profile_get_vtable {W} : DomainProfileVTable_t W := s_water_profile_vtable.


End water_profile.
