(* ===== verification/HvacProfile.v ===== *)
(** The HVAC profile (firmware/profiles/hvac: hvac_rules.c,
    hvac_validation_bounds.c, hvac_failsafe.c), with the short-cycle protection of
    the compressor as a state machine. *)

From S2P Require Import Prelude Float32 ActuatorFailsafe RuleEngine SensorValidation DomainProfile.
Import float32 actuator_failsafe domain_profile.
Import rule_engine_core(RuleEntry_t, mk_rule, SensorReading_t, mk_reading, rd_metric_id,
  DomainProfileVTable_t, mk_vtable, RULE_ACTION_SET_ACTUATOR, RULE_CLASS_SAFETY_LOCKED,
  RULE_CLASS_OPERATIONAL, RULE_COMPARE_ABOVE, RULE_COMPARE_BELOW, ACTUATOR_STATE_ON, ACTUATOR_STATE_OFF).
Import sensor_validation(SensorValidationBounds_t, mk_bounds).

Module hvac_profile.

Definition HVAC_RULE_COMPRESSOR_POST_RUN_LOCKOUT : Z := 4001.
Definition HVAC_RULE_COMFORT_SETPOINT : Z := 4002.
Definition HVAC_RULE_OVERTEMP_PROTECT : Z := 4003.
Definition HVAC_MIN_COMPRESSOR_OFF_SEC : Z := 300.
Definition HVAC_CLOCK_UNRELIABLE_FALLBACK_SEC : Z := 120.
Definition HVAC_METRIC_SUPPLY_TEMP : Z := 30.
Definition HVAC_METRIC_RETURN_TEMP : Z := 31.
Definition HVAC_METRIC_INDOOR_HUMIDITY : Z := 32.
Definition HVAC_METRIC_AMBIENT_TEMP : Z := 33.
Definition HVAC_ACTUATOR_COMPRESSOR_RELAY : Z := 1.
Definition HVAC_ACTUATOR_DAMPER_MOTOR : Z := 2.
Definition HVAC_ACTUATOR_FAN_MOTOR : Z := 3.
Definition HVAC_COMPRESSOR_COMMS_TIMEOUT : Z := 30.
Definition HVAC_DAMPER_COMMS_TIMEOUT : Z := 300.
Definition HVAC_FAN_COMMS_TIMEOUT : Z := 300.

(** ** Rules *)

Definition s_hvac_rules : list RuleEntry_t := [
  mk_rule HVAC_RULE_COMPRESSOR_POST_RUN_LOCKOUT 0 (lit 45) RULE_ACTION_SET_ACTUATOR HVAC_ACTUATOR_COMPRESSOR_RELAY
    HVAC_METRIC_SUPPLY_TEMP RULE_CLASS_SAFETY_LOCKED 0 RULE_COMPARE_ABOVE;
  mk_rule HVAC_RULE_OVERTEMP_PROTECT 0 (lit 55) RULE_ACTION_SET_ACTUATOR HVAC_ACTUATOR_COMPRESSOR_RELAY
    HVAC_METRIC_SUPPLY_TEMP RULE_CLASS_SAFETY_LOCKED 0 RULE_COMPARE_ABOVE;
  mk_rule HVAC_RULE_COMFORT_SETPOINT 5 (lit 20) RULE_ACTION_SET_ACTUATOR HVAC_ACTUATOR_FAN_MOTOR
    HVAC_METRIC_RETURN_TEMP RULE_CLASS_OPERATIONAL 0 RULE_COMPARE_BELOW].

Definition HVAC_RULE_COUNT : Z := Z.of_nat (length s_hvac_rules).

(** What is left behind the out-pointers. *)
Definition hvac_getRuleTable : option (list RuleEntry_t) * Z := (Some s_hvac_rules, u8 HVAC_RULE_COUNT).

(** ** Plausibility bounds and history buffers *)

Definition s_supply_temp_bounds : SensorValidationBounds_t := mk_bounds f_zero (lit 60) (lit 2) 600 0.
Definition s_return_temp_bounds : SensorValidationBounds_t := mk_bounds f_zero (lit 60) (lit 1) 900 0.
Definition s_indoor_humidity_bounds : SensorValidationBounds_t := mk_bounds f_zero (lit 100) (lit 5) 1800 0.
Definition s_ambient_temp_bounds : SensorValidationBounds_t := mk_bounds (lit (-10)) (lit 50) (lit 1) 1800 0.

Definition hvac_get_validation_bounds (metric_id : Z) : option SensorValidationBounds_t :=
  if metric_id =? HVAC_METRIC_SUPPLY_TEMP then Some s_supply_temp_bounds
  else if metric_id =? HVAC_METRIC_RETURN_TEMP then Some s_return_temp_bounds
  else if metric_id =? HVAC_METRIC_INDOOR_HUMIDITY then Some s_indoor_humidity_bounds
  else if metric_id =? HVAC_METRIC_AMBIENT_TEMP then Some s_ambient_temp_bounds
  else None.

(** The buffers by their order of declaration. *)
Definition hvac_get_metric_history (metric_id : Z) : option nat :=
  if metric_id =? HVAC_METRIC_SUPPLY_TEMP then Some 0%nat
  else if metric_id =? HVAC_METRIC_RETURN_TEMP then Some 1%nat
  else if metric_id =? HVAC_METRIC_INDOOR_HUMIDITY then Some 2%nat
  else if metric_id =? HVAC_METRIC_AMBIENT_TEMP then Some 3%nat
  else None.

Definition hvac_validateSensorReading (reading : option SensorReading_t) : bool :=
  match reading with
  | None => false
  | Some r => in_bounds (hvac_get_validation_bounds (rd_metric_id r)) r
  end.

(** ** Fail-safe modes *)

Definition hvac_getFailSafeMode (actuator_id : Z) (is_power_loss : bool) : Z :=
  if is_power_loss then
    if actuator_id =? HVAC_ACTUATOR_COMPRESSOR_RELAY then mode_code FAILSAFE_FORCE_OFF
    else if actuator_id =? HVAC_ACTUATOR_DAMPER_MOTOR then mode_code FAILSAFE_FORCE_SAFE_POS
    else if actuator_id =? HVAC_ACTUATOR_FAN_MOTOR then mode_code FAILSAFE_FORCE_OFF
    else mode_code FAILSAFE_DE_ENERGIZE
  else
    if actuator_id =? HVAC_ACTUATOR_COMPRESSOR_RELAY then mode_code FAILSAFE_FORCE_OFF
    else if actuator_id =? HVAC_ACTUATOR_DAMPER_MOTOR then mode_code FAILSAFE_HOLD_LAST
    else if actuator_id =? HVAC_ACTUATOR_FAN_MOTOR then mode_code FAILSAFE_HOLD_LAST
    else mode_code FAILSAFE_HOLD_LAST.

Definition s_hvac_failsafe_table : list ActuatorFailSafeEntry_t := [
  mk_entry HVAC_ACTUATOR_COMPRESSOR_RELAY ACTUATOR_SAFETY_CRITICAL FAILSAFE_FORCE_OFF FAILSAFE_FORCE_OFF HVAC_COMPRESSOR_COMMS_TIMEOUT;
  mk_entry HVAC_ACTUATOR_DAMPER_MOTOR ACTUATOR_SAFETY_STANDARD FAILSAFE_FORCE_SAFE_POS FAILSAFE_HOLD_LAST HVAC_DAMPER_COMMS_TIMEOUT;
  mk_entry HVAC_ACTUATOR_FAN_MOTOR ACTUATOR_SAFETY_STANDARD FAILSAFE_FORCE_OFF FAILSAFE_HOLD_LAST HVAC_FAN_COMMS_TIMEOUT].

Definition hvac_failsafe_register_all (st : state) : bool * state :=
  register_table s_hvac_failsafe_table st.

Definition hvac_get_comms_timeout (actuator_id : Z) : Z :=
  table_timeout s_hvac_failsafe_table actuator_id.

#[export] Instance hvac_profile_failsafe_ok :
  FailsafeTableOk s_hvac_failsafe_table hvac_getFailSafeMode.
Proof.
  split; [cbn; lia|apply (bool_decide_unpack _); vm_compute; exact I|].
  repeat constructor.
Qed.

(** ** The vtable *)

Definition hvac_executeAction {W} (actuator_id state : Z) (w : W) : bool * W := (true, w).

Definition s_hvac_profile_vtable {W} : DomainProfileVTable_t W :=
  mk_vtable hvac_getRuleTable (fun r w => (hvac_validateSensorReading (Some r), w))
    hvac_getFailSafeMode hvac_executeAction.

Definition hvac_profile_get_vtable {W} : DomainProfileVTable_t W := s_hvac_profile_vtable.

(** ** Short-cycle protection of the compressor *)

Record short_cycle_state := mk_short_cycle {
  last_off_time_sec : Z;
  tracked : bool;
  clock_unreliable : bool }.

#[export] Instance eta_short_cycle : Eta short_cycle_state := fun r =>
  mk_short_cycle (last_off_time_sec r) (tracked r) (clock_unreliable r).

Definition s_short_cycle_state : short_cycle_state := mk_short_cycle 0 false false.

Definition hvac_short_cycle_record_off (s : short_cycle_state) (current_time_sec : Z) : short_cycle_state :=
  s <| last_off_time_sec := current_time_sec |> <| tracked := true |>.

Definition hvac_short_cycle_check (s : short_cycle_state) (current_time_sec : Z)
  : bool * short_cycle_state :=
  if negb (tracked s) then (true, s)
  else if current_time_sec <? last_off_time_sec s then (false, s <| clock_unreliable := true |>)
  else
    let elapsed := u32 (current_time_sec - last_off_time_sec s) in
    if clock_unreliable s then (HVAC_CLOCK_UNRELIABLE_FALLBACK_SEC <=? elapsed, s)
    else (HVAC_MIN_COMPRESSOR_OFF_SEC <=? elapsed, s).

Definition hvac_short_cycle_reset (s : short_cycle_state) : short_cycle_state :=
  mk_short_cycle 0 false false.

Definition hvac_short_cycle_get_min_off_sec : Z := HVAC_MIN_COMPRESSOR_OFF_SEC.
Definition hvac_short_cycle_get_last_off (s : short_cycle_state) : Z := last_off_time_sec s.
Definition hvac_clock_unreliable_fallback_sec : Z := HVAC_CLOCK_UNRELIABLE_FALLBACK_SEC.

(** The calls the module gets, and the state after a sequence of them. *)
Inductive op :=
| record_off (t : Z)
| check (t : Z)
| reset.

#[export] Instance op_eq_dec : EqDecision op.
Proof. solve_decision. Defined.

Definition op_step (s : short_cycle_state) (o : op) : short_cycle_state :=
  match o with
  | record_off t => hvac_short_cycle_record_off s t
  | check t => snd (hvac_short_cycle_check s t)
  | reset => hvac_short_cycle_reset s
  end.

Definition run (ops : list op) : short_cycle_state := fold_left op_step ops s_short_cycle_state.

Definition op_time (o : op) : Z := match o with record_off t | check t => t | reset => 0 end.

(** What the calls mean: the last stop since the last reset, and whether the
    clock was seen before the last stop, also since the last reset. *)
Definition stop_step (stop : option Z) (o : op) : option Z :=
  match o with record_off t => Some t | check _ => stop | reset => None end.

Definition last_stop (ops : list op) : option Z := fold_left stop_step ops None.

Definition went_back (ops : list op) : Prop :=
  exists before t after stop, ops = before ++ check t :: after /\
    last_stop before = Some stop /\ t < stop /\ reset ∉ after.

Lemma run_snoc ops o : run (ops ++ [o]) = op_step (run ops) o.
Proof. unfold run. rewrite fold_left_app. reflexivity. Qed.

Lemma last_stop_snoc ops o : last_stop (ops ++ [o]) = stop_step (last_stop ops) o.
Proof. unfold last_stop. rewrite fold_left_app. reflexivity. Qed.

Lemma went_back_snoc ops o :
  went_back (ops ++ [o]) <->
  match o with
  | record_off _ => went_back ops
  | check t => went_back ops \/ exists stop, last_stop ops = Some stop /\ t < stop
  | reset => False
  end.
Proof.
  assert (forall before t after stop, ops ++ [o] = before ++ check t :: after -> reset ∉ after ->
    last_stop before = Some stop -> t < stop ->
    o = check t /\ ops = before \/ o <> reset /\ went_back ops) as Hsplit.
  { intros before t after stop E Hr Hs Ht.
    destruct after as [|o' after' _] using rev_ind.
    - apply app_inj_tail in E as [-> ->]. auto.
    - right. rewrite app_comm_cons, app_assoc in E. apply app_inj_tail in E as [-> ->]. split.
      + intros ->. apply Hr, elem_of_app. right. apply list_elem_of_singleton. reflexivity.
      + exists before, t, after', stop. split_and!; auto. intros Hin. apply Hr, elem_of_app. auto. }
  assert (o <> reset -> went_back ops -> went_back (ops ++ [o])) as Hkeep.
  { intros Ho (before & t & after & stop & -> & Hs & Ht & Hr).
    exists before, t, (after ++ [o]), stop. split_and!; auto.
    - rewrite <- app_assoc. reflexivity.
    - rewrite elem_of_app, list_elem_of_singleton. intros [?|?]; auto. }
  split.
  - intros (before & t & after & stop & E & Hs & Ht & Hr).
    destruct (Hsplit _ _ _ _ E Hr Hs Ht) as [[-> ->]|[Ho Hw]]; [right; eauto|].
    destruct o; auto.
  - destruct o as [t|t|]; [apply Hkeep; discriminate| |tauto].
    intros [Hw|(stop & Hs & Ht)]; [apply Hkeep; [discriminate|exact Hw]|].
    exists ops, t, [], stop. split_and!; auto. apply not_elem_of_nil.
Qed.

(** The state holds exactly that. *)
Lemma run_meaning ops :
  (if tracked (run ops) then last_stop ops = Some (last_off_time_sec (run ops)) else last_stop ops = None) /\
  (clock_unreliable (run ops) = true <-> went_back ops).
Proof.
  induction ops as [|o ops [IHs IHw]] using rev_ind.
  { split; [reflexivity|]. split; [discriminate|]. intros (b & t & a & s & E & _).
    destruct b; discriminate E. }
  rewrite run_snoc, last_stop_snoc, went_back_snoc. destruct o as [t|t|]; cbn.
  - auto.
  - unfold hvac_short_cycle_check. destruct (tracked (run ops)) eqn:Htr; cbn [negb snd].
    2: { rewrite Htr. split; [exact IHs|]. rewrite IHw, IHs. split; [auto|].
         intros [?|(s & ? & _)]; [assumption|discriminate]. }
    destruct (Z.ltb_spec t (last_off_time_sec (run ops))) as [Hlt|Hge]; cbn [snd].
    + cbn. rewrite Htr. split; [exact IHs|]. split; [rewrite IHs; eauto|reflexivity].
    + destruct (clock_unreliable (run ops)) eqn:Hu; cbn [snd]; rewrite Htr, Hu;
        (split; [exact IHs|]); rewrite IHw;
        (split; [auto|intros [?|(s & Es & ?)]; [assumption|rewrite IHs in Es; injection Es as <-; lia]]).
  - split; [reflexivity|]. split; [discriminate|tauto].
Qed.

(** C21. What the restart lock of the compressor guarantees: after any sequence
    of recorded stops, checks and resets, a restart is allowed exactly when no
    stop is recorded since the last reset, or the clock reads at least 300
    seconds past the last one, or, once any check since that reset has seen the
    clock before the stop recorded then, at least 120 seconds past it. *)
Theorem restart_allowed_iff ops now :
  Forall (fun o => is_u32 (op_time o)) ops -> is_u32 now ->
  fst (hvac_short_cycle_check (run ops) now) = true <->
  match last_stop ops with
  | None => True
  | Some stop => stop + 300 <= now \/ went_back ops /\ stop + 120 <= now
  end.
Proof.
  intros Hops Hnow. destruct (run_meaning ops) as [Hs Hw].
  unfold hvac_short_cycle_check, HVAC_CLOCK_UNRELIABLE_FALLBACK_SEC, HVAC_MIN_COMPRESSOR_OFF_SEC.
  destruct (tracked (run ops)); rewrite Hs; [|tauto]. cbn [negb].
  assert (forall stop, last_stop ops = Some stop -> is_u32 stop) as Hstop.
  { clear -Hops. induction ops as [|o ops IH] using rev_ind; [discriminate|]. intros stop.
    apply Forall_app in Hops as [Hops Ho]. apply Forall_cons in Ho as [Ho _].
    rewrite last_stop_snoc. destruct o; cbn in *; [intros [= <-]; exact Ho|apply IH, Hops|discriminate]. }
  specialize (Hstop _ Hs).
  destruct (Z.ltb_spec now (last_off_time_sec (run ops))) as [Hlt|Hge]; cbn [fst].
  { split; [discriminate|]. lia. }
  rewrite u32_small by (unfold is_u32 in *; lia).
  destruct (clock_unreliable (run ops)); cbn [fst]; rewrite Z.leb_le, <- Hw; split.
  - intros H. right. split; [reflexivity|lia].
  - lia.
  - left. lia.
  - intros [?|[? _]]; [lia|discriminate].
Qed.

Lemma restart_allowed_iff_witness :
  fst (hvac_short_cycle_check (run [record_off 1000; check 10; record_off 2000]) 2120) = true.
Proof.
  apply (restart_allowed_iff [record_off 1000; check 10; record_off 2000] 2120).
  - repeat constructor; cbn; words.
  - words.
  - right. split; [|lia]. exists [record_off 1000], 10, [record_off 2000], 1000.
    split_and!; try reflexivity; try lia. apply (bool_decide_unpack _). vm_compute. exact I.
Defined.

End hvac_profile.
