(* ===== verification/OtaSession.v ===== *)
(** The OTA session (firmware/shared/ota_session.c): a manifest check, chunks
    written to the inactive flash slot, and the boot self-check.

    [platform] gathers the components the session drives; every function takes
    it and returns its new value. *)

From S2P Require Import Prelude Hmac DeviceIdentity FlashPartition Firmware.
From S2P Require Import Attestation RuleEngine SensorValidation ActuatorFailsafe.
Import flash_partition ota_manifest.

Module ota_session.

Definition OTA_SESSION_MAX_CHUNK_SIZE : Z := 256.
Definition OTA_SESSION_MAX_IMAGE_SIZE : Z := 128 * 1024.
Definition OTA_SESSION_TOPIC_MAX_LEN : Z := 128.

Inductive OtaSessionState_t :=
| OTA_STATE_IDLE
| OTA_STATE_MANIFEST
| OTA_STATE_TRANSFER
| OTA_STATE_VERIFY
| OTA_STATE_COMPLETE
| OTA_STATE_ERROR.

Inductive OtaSessionResult_t :=
| OTA_RESULT_OK
| OTA_RESULT_ERR_COMPAT
| OTA_RESULT_ERR_SEQUENCE
| OTA_RESULT_ERR_SIZE
| OTA_RESULT_ERR_INTEGRITY
| OTA_RESULT_ERR_FLASH
| OTA_RESULT_ERR_STATE
| OTA_RESULT_ERR_PARAM_NULL.

#[export] Instance OtaSessionState_eq_dec : EqDecision OtaSessionState_t.
Proof. solve_decision. Defined.
#[export] Instance OtaSessionResult_eq_dec : EqDecision OtaSessionResult_t.
Proof. solve_decision. Defined.

Record OtaChunk_t := mk_chunk {
  sequence : Z;
  offset : Z;
  data_len : Z;
  data : list Z }.

Record OtaSessionStats_t := mk_stats {
  chunks_received : Z;
  chunks_accepted : Z;
  chunks_rejected : Z;
  bytes_written : Z;
  retries_requested : Z }.

#[export] Instance eta_stats : Eta OtaSessionStats_t := fun r =>
  mk_stats (chunks_received r) (chunks_accepted r) (chunks_rejected r) (bytes_written r)
    (retries_requested r).

Record OtaSessionContext_t := mk_ctx {
  ost : OtaSessionState_t;
  manifest : FirmwareManifest_t;
  cx_image_size : Z;
  chunks_expected : Z;
  next_sequence : Z;
  bytes_received : Z;
  running_hmac : list Z;
  hmac_started : bool;
  stats : OtaSessionStats_t }.

#[export] Instance eta_ctx : Eta OtaSessionContext_t := fun r =>
  mk_ctx (ost r) (manifest r) (cx_image_size r) (chunks_expected r) (next_sequence r)
    (bytes_received r) (running_hmac r) (hmac_started r) (stats r).

Definition zero_ctx : OtaSessionContext_t :=
  mk_ctx OTA_STATE_IDLE (mk_manifest 0 0 0 0 (zeros 32)) 0 0 0 0 (zeros 32) false (mk_stats 0 0 0 0 0).

(** The session's own static and the components it drives. *)
Record platform (W : Type) := mk_platform {
  s_initialised : bool;
  identity : device_identity.state W;
  flash : flash_partition.state W;
  mem : medium W;
  attest : attestation.state;
  engine : rule_engine_core.state;
  validation : sensor_validation.state;
  failsafe : actuator_failsafe.state }.
Arguments mk_platform {W}. Arguments s_initialised {W}. Arguments identity {W}.
Arguments flash {W}. Arguments mem {W}. Arguments attest {W}. Arguments engine {W}.
Arguments validation {W}. Arguments failsafe {W}.

#[export] Instance eta_platform W : Eta (platform W) := fun r =>
  mk_platform (s_initialised r) (identity r) (flash r) (mem r) (attest r) (engine r)
    (validation r) (failsafe r).

Section session.
Context {W : Type}.
Implicit Types (p : platform W) (ctx : OtaSessionContext_t).

Definition ota_session_init p : bool * platform W := (true, p <| s_initialised := true |>).

Definition ota_session_begin p (octx : option OtaSessionContext_t) (omanifest : option FirmwareManifest_t)
  : OtaSessionResult_t * option OtaSessionContext_t * platform W :=
  if negb (s_initialised p) then (OTA_RESULT_ERR_STATE, octx, p)
  else
    match octx, omanifest with
    | Some _, Some m =>
        let ctx := zero_ctx <| ost := OTA_STATE_MANIFEST |> in
        match device_identity.device_identity_get (identity p) true with
        | (device_identity.DEVICE_ID_OK, Some device) =>
            if negb (bool_decide (ota_compatibility_check (Some device) (Some m) = OTA_COMPAT_OK))
            then (OTA_RESULT_ERR_COMPAT, Some (ctx <| ost := OTA_STATE_ERROR |>), p)
            else
              let ctx := ctx <| manifest := m |> <| cx_image_size := image_size m |> in
              if (cx_image_size ctx =? 0) || (OTA_SESSION_MAX_IMAGE_SIZE <? cx_image_size ctx)
              then (OTA_RESULT_ERR_SIZE, Some (ctx <| ost := OTA_STATE_ERROR |>), p)
              else
                let ctx := ctx <| chunks_expected := 0 |> <| next_sequence := 0 |>
                               <| bytes_received := 0 |> in
                let '(ok, fl, md) := flash_partition_ota_begin (flash p) (mem p) (cx_image_size ctx) in
                let p := p <| flash := fl |> <| mem := md |> in
                if ok : bool then (OTA_RESULT_OK, Some (ctx <| ost := OTA_STATE_TRANSFER |>), p)
                else (OTA_RESULT_ERR_FLASH, Some (ctx <| ost := OTA_STATE_ERROR |>), p)
        | _ => (OTA_RESULT_ERR_COMPAT, Some (ctx <| ost := OTA_STATE_ERROR |>), p)
        end
    | _, _ => (OTA_RESULT_ERR_PARAM_NULL, octx, p)
    end.

(** [ctx->stats.chunks_rejected++] and the like. *)
Definition count_received ctx : OtaSessionContext_t :=
  ctx <| stats := (stats ctx) <| chunks_received := u32 (chunks_received (stats ctx) + 1) |> |>.

Definition count_rejected ctx : OtaSessionContext_t :=
  ctx <| stats := (stats ctx) <| chunks_rejected := u32 (chunks_rejected (stats ctx) + 1) |> |>.

Definition count_retry ctx : OtaSessionContext_t :=
  ctx <| stats := (stats ctx) <| retries_requested := u32 (retries_requested (stats ctx) + 1) |> |>.

Definition count_accepted ctx (n : Z) : OtaSessionContext_t :=
  ctx <| stats := (stats ctx) <| chunks_accepted := u32 (chunks_accepted (stats ctx) + 1) |>
                              <| bytes_written := u32 (bytes_written (stats ctx) + n) |> |>.

(** The last chunk: close the slot, record the pending version, boot the slot. *)
Definition finish p ctx : OtaSessionResult_t * OtaSessionContext_t * platform W :=
  let ctx := ctx <| ost := OTA_STATE_VERIFY |> in
  let '(ok, fl, md) := flash_partition_ota_end (flash p) (mem p) in
  let p := p <| flash := fl |> <| mem := md |> in
  if negb ok then (OTA_RESULT_ERR_FLASH, ctx <| ost := OTA_STATE_ERROR |>, p)
  else
    let ctx := ctx <| ost := OTA_STATE_COMPLETE |> in
    let '(_, ident, w) := device_identity.device_identity_set_pending_version (identity p) (snd (mem p))
                            (mf_fw_version (manifest ctx)) in
    let p := p <| identity := ident |> <| mem := (fst (mem p), w) |> in
    let '(_, fl, md) := flash_partition_set_boot (flash p) (mem p) in
    (OTA_RESULT_OK, ctx, p <| flash := fl |> <| mem := md |>).

Definition process_chunk p ctx (c : OtaChunk_t) : OtaSessionResult_t * OtaSessionContext_t * platform W :=
  if negb (bool_decide (ost ctx = OTA_STATE_TRANSFER)) then (OTA_RESULT_ERR_STATE, ctx, p)
  else
    let ctx := count_received ctx in
    if negb (sequence c =? next_sequence ctx)
    then (OTA_RESULT_ERR_SEQUENCE, count_retry (count_rejected ctx), p)
    else if (data_len c =? 0) || (OTA_SESSION_MAX_CHUNK_SIZE <? data_len c)
    then (OTA_RESULT_ERR_SIZE, count_rejected ctx, p)
    else if negb (offset c =? bytes_received ctx)
    then (OTA_RESULT_ERR_SIZE, count_rejected ctx, p)
    else if OTA_SESSION_MAX_IMAGE_SIZE <? u32 (offset c + data_len c)
    then (OTA_RESULT_ERR_SIZE, count_rejected ctx, p)
    else
      let '(ok, md) := flash_partition_ota_write (flash p) (mem p) (offset c)
                         (take (Z.to_nat (data_len c)) (data c)) in
      let p := p <| mem := md |> in
      if negb ok then (OTA_RESULT_ERR_FLASH, ctx <| ost := OTA_STATE_ERROR |>, p)
      else
        let ctx := ctx <| next_sequence := u32 (next_sequence ctx + 1) |>
                       <| bytes_received := u32 (bytes_received ctx + data_len c) |> in
        let ctx := count_accepted ctx (data_len c) in
        if cx_image_size ctx <=? bytes_received ctx then finish p ctx
        else (OTA_RESULT_OK, ctx, p).

Definition ota_session_process_chunk p (octx : option OtaSessionContext_t) (chunk : option OtaChunk_t)
  : OtaSessionResult_t * option OtaSessionContext_t * platform W :=
  match octx, chunk with
  | Some ctx, Some c => let '(r, ctx, p) := process_chunk p ctx c in (r, Some ctx, p)
  | _, _ => (OTA_RESULT_ERR_PARAM_NULL, octx, p)
  end.

Definition ota_session_get_state (octx : option OtaSessionContext_t) : OtaSessionState_t :=
  match octx with Some ctx => ost ctx | None => OTA_STATE_IDLE end.

Definition ota_session_get_stats (octx : option OtaSessionContext_t) : option OtaSessionStats_t :=
  stats <$> octx.

Definition ota_session_abort (octx : option OtaSessionContext_t) : option OtaSessionContext_t :=
  match octx with Some ctx => Some (ctx <| ost := OTA_STATE_ERROR |>) | None => None end.

Definition ota_session_result_str (result : OtaSessionResult_t) : string :=
  match result with
  | OTA_RESULT_OK => "OK"
  | OTA_RESULT_ERR_COMPAT => "Compatibility check failed"
  | OTA_RESULT_ERR_SEQUENCE => "Chunk sequence mismatch"
  | OTA_RESULT_ERR_SIZE => "Chunk size/offset error"
  | OTA_RESULT_ERR_INTEGRITY => "Image integrity check failed"
  | OTA_RESULT_ERR_FLASH => "Flash write error"
  | OTA_RESULT_ERR_STATE => "Invalid state for operation"
  | OTA_RESULT_ERR_PARAM_NULL => "NULL pointer argument"
  end.

Definition ota_session_boot_self_check p : bool * platform W :=
  if negb (device_identity.device_identity_has_pending_version (identity p)) then (true, p)
  else
    let '(ok1, at_) := attestation.attestation_init (attest p) in
    let '(ok2, en) := rule_engine_core.rule_engine_init (engine p) in
    let '(ok3, va) := sensor_validation.sensor_validation_init (validation p) in
    let '(ok4, fs) := actuator_failsafe.actuator_failsafe_init (failsafe p) in
    let p := p <| attest := at_ |> <| engine := en |> <| validation := va |> <| failsafe := fs |> in
    if ok1 && ok2 && ok3 && ok4 then
      let '(_, ident, w) := device_identity.device_identity_confirm_boot (identity p) (snd (mem p)) in
      (true, p <| identity := ident |> <| mem := (fst (mem p), w) |>)
    else
      let '(_, fl, md) := flash_partition_rollback (flash p) (mem p) in
      (false, p <| flash := fl |> <| mem := md |>).

(** [snprintf] of the topic: what the buffer holds, and whether it fitted. *)
Definition ota_build_chunk_topic (out_topic : bool) (buf_size : Z)
    (tenant_id site_id device_id : option (list Z)) : bool * option (list Z) :=
  if negb out_topic || (buf_size =? 0) then (false, None)
  else
    match tenant_id, site_id, device_id with
    | Some t, Some s, Some d =>
        let topic := cstr "rainmaker/" ++ t ++ cstr "/" ++ s ++ cstr "/" ++ d ++ cstr "/ota/chunk" in
        (Z.of_nat (length topic) <? buf_size,
         Some (take (Z.to_nat buf_size - 1) topic ++ [0]))
    | _, _, _ => (false, None)
    end.

(** ** Runs of a session *)

(** The chunks of a transfer in arrival order; [acc] collects the payloads of
    the chunks that were accepted. *)
Fixpoint process_all p ctx (acc : list Z) (cs : list OtaChunk_t)
  : platform W * OtaSessionContext_t * list Z :=
  match cs with
  | [] => (p, ctx, acc)
  | c :: cs =>
      let '(r, ctx, p) := process_chunk p ctx c in
      process_all p ctx
        (if bool_decide (r = OTA_RESULT_OK) then acc ++ take (Z.to_nat (data_len c)) (data c) else acc) cs
  end.

End session.

(** ** The image a session assembles *)

Section assembled.
Context {W : Type} (b : FlashPartitionBackend_t (medium W)) (ok : medium W -> Prop).
Context `{!BackendOk b ok}.

(** Saving the identity does not disturb the flash medium. *)
Hypothesis identity_apart : forall (st : device_identity.state W) m,
  ok m -> ok (fst m, device_identity.identity_persist st (snd m)) /\
  forall slot, get_data b slot (fst m, device_identity.identity_persist st (snd m)) = get_data b slot m.

Implicit Types (p : platform W) (ctx : OtaSessionContext_t) (acc : list Z).

(** The device runs from [boot], whose slot holds [old]; the update of [n] bytes
    to version [v] goes to the other slot. *)
Context (boot : Z) (old : option (list Z)) (n v : Z).

(** The other slot starts with the accepted bytes, the boot slot is untouched. *)
Record written p acc : Prop := {
  wr_ok : ok (mem p);
  wr_new : exists d, get_data b (other_slot boot) (mem p) = Some d /\ take (length acc) d = acc;
  wr_old : get_data b boot (mem p) = old }.

Record transferring p ctx acc : Prop := {
  tr_state : ost ctx = OTA_STATE_TRANSFER;
  tr_size : cx_image_size ctx = n /\ 0 < n <= OTA_SESSION_MAX_IMAGE_SIZE;
  tr_bytes : bytes_received ctx = Z.of_nat (length acc) /\ Z.of_nat (length acc) < n;
  tr_version : mf_fw_version (manifest ctx) = v;
  tr_boot : is_slot boot;
  tr_backend : backend_of (flash p) = Some b;
  tr_open : s_ota_in_progress (flash p) = true /\ s_ota_target (flash p) = other_slot boot;
  tr_writing : get_slot_state b (other_slot boot) (mem p) = FLASH_SLOT_STATE_WRITING;
  tr_ident : device_identity.s_initialised (identity p) = true /\
             device_identity.s_provisioned (identity p) = true;
  tr_written : written p acc }.

Record completed p ctx acc : Prop := {
  cp_state : ost ctx = OTA_STATE_COMPLETE;
  cp_size : n <= Z.of_nat (length acc) < n + OTA_SESSION_MAX_CHUNK_SIZE;
  cp_written : written p acc;
  cp_active : flash_partition_get_active_slot (flash p) = other_slot boot;
  cp_pending : device_identity.device_identity_get_pending_version (identity p) = v }.

(** A chunk as the transport hands it over: a 256-byte buffer. *)
Record wf_chunk (c : OtaChunk_t) : Prop := {
  wc_data : length (data c) = 256%nat;
  wc_len : is_u16 (data_len c);
  wc_offset : is_u32 (offset c) }.

Lemma splice_prefix (acc d x : list Z) :
  take (length acc) d = acc -> (length acc <= length d)%nat ->
  take (length (acc ++ x)) (splice (Z.of_nat (length acc)) x d) = acc ++ x.
Proof.
  intros Hp Hl. unfold splice. rewrite Nat2Z.id, Hp, app_assoc.
  rewrite take_app_length. reflexivity.
Qed.

(** Writing the next payload extends what the slot starts with. *)
Lemma write_extends p ctx acc x :
  transferring p ctx acc -> Z.of_nat (length (acc ++ x)) <= FLASH_PARTITION_MAX_SIZE ->
  exists m', flash_partition_ota_write (flash p) (mem p) (Z.of_nat (length acc)) x = (true, m') /\
    written (p <| mem := m' |>) (acc ++ x) /\
    get_slot_state b (other_slot boot) m' = FLASH_SLOT_STATE_WRITING.
Proof.
  intros [_ _ _ _ Hb Hbk [Ho Ht] Hw _ [Hok (d & Hd & Hpre) Hold]] Hlen. rewrite length_app in Hlen.
  destruct (other_slot_ne boot Hb) as [_ Hos].
  destruct (ok_write (b := b) (ok := ok) (other_slot boot) (Z.of_nat (length acc)) x (mem p) Hok Hos Hw)
    as (m' & d0 & Hwr & Hok' & Hw' & Hd0 & Hl0 & Hd' & Hoth); [lia|lia|].
  rewrite Hd in Hd0. injection Hd0 as <-.
  exists m'. unfold flash_partition_ota_write. rewrite Hbk, Ho, Ht. cbn [negb].
  split; [exact Hwr|]. split; [|exact Hw']. split; cbn.
  - exact Hok'.
  - exists (splice (Z.of_nat (length acc)) x d). split; [exact Hd'|].
    apply splice_prefix; [exact Hpre|]. rewrite Hl0. unfold FLASH_PARTITION_MAX_SIZE in *. lia.
  - rewrite <- Hold. destruct Hb as [-> | ->]; exact Hoth.
Qed.

(** Closing the slot of a finished transfer. *)
Lemma finish_completes p ctx acc :
  backend_of (flash p) = Some b -> s_ota_in_progress (flash p) = true ->
  s_ota_target (flash p) = other_slot boot -> is_slot boot ->
  get_slot_state b (other_slot boot) (mem p) = FLASH_SLOT_STATE_WRITING ->
  device_identity.s_initialised (identity p) = true ->
  device_identity.s_provisioned (identity p) = true ->
  mf_fw_version (manifest ctx) = v -> written p acc ->
  n <= Z.of_nat (length acc) < n + OTA_SESSION_MAX_CHUNK_SIZE ->
  exists ctx' p', finish p ctx = (OTA_RESULT_OK, ctx', p') /\ completed p' ctx' acc.
Proof.
  intros Hbk Ho Ht Hb Hw Hi Hp Hv [Hok (d & Hd & Hpre) Hold] Hn.
  destruct (other_slot_ne boot Hb) as [_ Hos].
  destruct (ok_end (b := b) (ok := ok) (other_slot boot) (mem p) Hok Hos Hw) as (m1 & He & Hok1 & Hd1).
  unfold finish, flash_partition_ota_end. rewrite Hbk, Ho, Ht, He. cbn [negb].
  unfold device_identity.device_identity_set_pending_version. cbn -[flash_partition_set_boot].
  rewrite Hi, Hp, Hv. cbn -[flash_partition_set_boot].
  match goal with |- context [device_identity.identity_persist ?st (snd m1)] =>
    destruct (identity_apart st m1 Hok1) as [Hok2 Hd2];
    destruct (ok_set_boot (b := b) (ok := ok) (other_slot boot)
                (fst m1, device_identity.identity_persist st (snd m1)) Hok2 Hos) as (m3 & Hs & Hok3 & Hd3)
  end.
  unfold flash_partition_set_boot.
  change (backend_of ((flash p) <| s_ota_in_progress := false |>)) with (backend_of (flash p)).
  rewrite Hbk. cbn. rewrite Ht, Hs. eexists _, _. split; [reflexivity|].
  split; cbn; auto.
  - split; cbn; [exact Hok3| |rewrite Hd3, Hd2, Hd1; exact Hold].
    exists d. rewrite Hd3, Hd2, Hd1. auto.
  - unfold device_identity.device_identity_get_pending_version, device_identity.ready. cbn.
    rewrite Hi, Hp. reflexivity.
Qed.

(** One chunk keeps the transfer going, completes it, or is rejected. *)
Lemma chunk_step p ctx acc c :
  transferring p ctx acc -> wf_chunk c ->
  let '(r, ctx', p') := process_chunk p ctx c in
  let acc' := if bool_decide (r = OTA_RESULT_OK) then acc ++ take (Z.to_nat (data_len c)) (data c) else acc in
  transferring p' ctx' acc' \/ completed p' ctx' acc'.
Proof.
  intros Htr [Hdat Hdl Hoff]. pose proof Htr as [Hst [Hsz Hn] [Hby Hlt] Hv Hb Hbk [Ho Ht] Hw [Hi Hp] Hwr].
  assert (forall r ctx', r <> OTA_RESULT_OK -> ost ctx' = ost ctx -> cx_image_size ctx' = cx_image_size ctx ->
            bytes_received ctx' = bytes_received ctx -> manifest ctx' = manifest ctx ->
            transferring p ctx' (if bool_decide (r = OTA_RESULT_OK)
               then acc ++ take (Z.to_nat (data_len c)) (data c) else acc)) as Hrej.
  { intros r ctx' Hr E1 E2 E3 E4. rewrite bool_decide_eq_false_2 by exact Hr.
    split; rewrite ?E1, ?E2, ?E3, ?E4; auto. }
  unfold process_chunk. rewrite bool_decide_eq_true_2 by exact Hst. cbn [negb].
  change (next_sequence (count_received ctx)) with (next_sequence ctx).
  change (bytes_received (count_received ctx)) with (bytes_received ctx).
  destruct (negb (sequence c =? next_sequence ctx)); [left; apply Hrej; auto; discriminate|].
  destruct ((data_len c =? 0) || _) eqn:Hlen; [left; apply Hrej; auto; discriminate|].
  destruct (Z.eqb_spec (offset c) (bytes_received ctx)) as [Eo|]; cbn [negb];
    [|left; apply Hrej; auto; discriminate].
  unfold OTA_SESSION_MAX_CHUNK_SIZE, OTA_SESSION_MAX_IMAGE_SIZE in *. reflect. unfold is_u16 in Hdl.
  rewrite u32_small by (unfold is_u32; lia).
  destruct (Z.ltb_spec (128 * 1024) (offset c + data_len c)) as [|Hmax]; [left; apply Hrej; auto; discriminate|].
  set (x := take (Z.to_nat (data_len c)) (data c)) in *.
  assert (Z.of_nat (length x) = data_len c) as Hx by (unfold x; rewrite length_take, Hdat; lia).
  destruct (write_extends p ctx acc x Htr) as (m' & Hwrite & Hwr' & Hw').
  { rewrite length_app. unfold FLASH_PARTITION_MAX_SIZE. lia. }
  rewrite Eo, Hby, Hwrite. cbn [negb].
  assert (u32 (Z.of_nat (length acc) + data_len c) = Z.of_nat (length (acc ++ x))) as Hnew.
  { rewrite length_app, u32_small by (unfold is_u32; lia). lia. }
  cbn -[finish]. rewrite ?Hby, ?Hsz, ?Hnew. rewrite length_app in *.
  destruct (Z.leb_spec n (Z.of_nat (length acc + length x))) as [Hfin|Hmore].
  - match goal with |- context [finish ?p1 ?c1] =>
      destruct (finish_completes p1 c1 (acc ++ x)) as (ctx' & p' & Hfi & Hc) end;
      auto; [rewrite length_app; unfold OTA_SESSION_MAX_CHUNK_SIZE; lia|].
    rewrite Hfi. right. exact Hc.
  - left. rewrite bool_decide_eq_true_2 by reflexivity. split; cbn; auto; rewrite ?length_app; lia.
Qed.

Lemma completed_stable p ctx acc cs :
  completed p ctx acc -> process_all p ctx acc cs = (p, ctx, acc).
Proof.
  intros Hc. induction cs as [|c cs IH]; [reflexivity|]. cbn. unfold process_chunk.
  rewrite (cp_state _ _ _ Hc). exact IH.
Qed.

Lemma transfer_run cs p ctx acc :
  transferring p ctx acc -> Forall wf_chunk cs ->
  let '(p', ctx', acc') := process_all p ctx acc cs in
  transferring p' ctx' acc' \/ completed p' ctx' acc'.
Proof.
  revert p ctx acc. induction cs as [|c cs IH]; intros p ctx acc Htr Hcs; [left; exact Htr|].
  apply Forall_cons in Hcs as [Hc Hcs]. pose proof (chunk_step p ctx acc c Htr Hc) as Hs.
  cbn. destruct (process_chunk p ctx c) as [[r ctx1] p1]. cbv zeta in Hs.
  destruct Hs as [Hs|Hs]; [apply IH; assumption|]. rewrite completed_stable by exact Hs. auto.
Qed.

End assembled.

(** ** Properties *)

Section properties.
Context {W : Type}.
Implicit Types (p : platform W) (ctx : OtaSessionContext_t).

Lemma begin_transferring (b : FlashPartitionBackend_t (medium W)) ok `{!BackendOk b ok} p c0 m ctx p' :
  backend_of (flash p) = Some b -> ok (mem p) -> is_slot (s_boot_partition (flash p)) ->
  0 <= image_size m ->
  ota_session_begin p (Some c0) (Some m) = (OTA_RESULT_OK, Some ctx, p') ->
  transferring b ok (s_boot_partition (flash p))
    (get_data b (s_boot_partition (flash p)) (mem p)) (image_size m) (mf_fw_version m) p' ctx [].
Proof.
  intros Hbk Hok Hb Hsz. unfold ota_session_begin, device_identity.device_identity_get.
  destruct (negb (s_initialised p)); [discriminate|]. cbn [negb].
  destruct (device_identity.s_initialised (identity p)) eqn:Hi; cbn [negb]; [|discriminate].
  destruct (device_identity.s_provisioned (identity p)) eqn:Hp; cbn [negb]; [|discriminate].
  destruct (negb _); [discriminate|]. cbn -[flash_partition_ota_begin].
  destruct ((image_size m =? 0) || _) eqn:Hn; [discriminate|]. reflect.
  unfold flash_partition_ota_begin. rewrite Hbk.
  destruct (s_ota_in_progress (flash p)); [discriminate|]. cbn.
  destruct (other_slot_ne _ Hb) as [_ Hos]. unfold OTA_SESSION_MAX_IMAGE_SIZE in *.
  destruct (ok_begin (b := b) (ok := ok) (other_slot (s_boot_partition (flash p))) (image_size m) (mem p) Hok Hos)
    as (m' & Hbeg & Hok' & Hw & Hoth); [unfold FLASH_PARTITION_MAX_SIZE; lia|].
  rewrite Hbeg. intros [= <- <-].
  split; cbn; auto; unfold OTA_SESSION_MAX_IMAGE_SIZE; try lia.
  split; cbn; [exact Hok'| |].
  - destruct (ok_data (b := b) (ok := ok) _ m' Hok' Hos) as (d & Hd & _). exists d. auto.
  - destruct Hb as [E|E]; rewrite E in *; exact Hoth.
Qed.

(** C9. A session assembles exactly what was accepted: after a successful begin
    and any sequence of chunks, in any order and with any rejected ones among
    them, the slot the device does not run from starts with the accepted
    payloads in order, the slot it runs from is untouched, and the session has
    completed only with at least the announced number of bytes (fewer than one
    chunk more), the new slot selected and the manifest's version pending. *)
Theorem session_assembles_image (b : FlashPartitionBackend_t (medium W)) ok `{!BackendOk b ok}
    p c0 m ctx p1 cs :
  (forall (st : device_identity.state W) md,
     ok md -> ok (fst md, device_identity.identity_persist st (snd md)) /\
     forall slot, get_data b slot (fst md, device_identity.identity_persist st (snd md)) = get_data b slot md) ->
  backend_of (flash p) = Some b -> ok (mem p) -> is_slot (s_boot_partition (flash p)) ->
  0 <= image_size m ->
  ota_session_begin p (Some c0) (Some m) = (OTA_RESULT_OK, Some ctx, p1) ->
  Forall wf_chunk cs ->
  let '(p2, ctx2, acc) := process_all p1 ctx [] cs in
  let boot := s_boot_partition (flash p) in
  get_data b boot (mem p2) = get_data b boot (mem p) /\
  (exists d, get_data b (other_slot boot) (mem p2) = Some d /\ take (length acc) d = acc) /\
  (ost ctx2 = OTA_STATE_TRANSFER /\ Z.of_nat (length acc) < image_size m \/
   ost ctx2 = OTA_STATE_COMPLETE /\
   image_size m <= Z.of_nat (length acc) < image_size m + OTA_SESSION_MAX_CHUNK_SIZE /\
   flash_partition_get_active_slot (flash p2) = other_slot boot /\
   device_identity.device_identity_get_pending_version (identity p2) = mf_fw_version m).
Proof.
  intros Hap Hbk Hok Hb Hsz Hbeg Hcs.
  pose proof (begin_transferring b ok p c0 m ctx p1 Hbk Hok Hb Hsz Hbeg) as Htr.
  pose proof (transfer_run b ok Hap _ _ _ _ cs p1 ctx [] Htr Hcs) as Hrun.
  destruct (process_all p1 ctx [] cs) as [[p2 ctx2] acc].
  destruct Hrun as [[Hst _ [_ Hlt] _ _ _ _ _ _ [_ Hnew Hold]]|[Hst Hsize [_ Hnew Hold] Hact Hpend]]; auto 10.
Qed.

(** The session reads the manifest's HMAC nowhere. *)
Definition with_hmac (h : list Z) ctx : OtaSessionContext_t :=
  ctx <| manifest := (manifest ctx) <| image_hmac := h |> |>.

Lemma process_chunk_hmac h p ctx c :
  process_chunk p (with_hmac h ctx) c =
  let '(r, ctx', p') := process_chunk p ctx c in (r, with_hmac h ctx', p').
Proof.
  unfold process_chunk. cbn -[finish flash_partition_ota_write Z.eqb u32 Z.add Z.leb Z.ltb take].
  destruct (negb (bool_decide _)); [reflexivity|]. destruct (negb (sequence c =? _)); [reflexivity|].
  destruct (_ || _); [reflexivity|]. destruct (negb (offset c =? _)); [reflexivity|].
  destruct (_ <? u32 _); [reflexivity|].
  destruct (flash_partition_ota_write _ _ _ _) as [[] md]; [|reflexivity]. cbn -[finish].
  destruct (_ <=? _); [|reflexivity]. unfold finish.
  destruct (flash_partition_ota_end _ _) as [[[] fl] md']; [|reflexivity]. cbn.
  destruct (device_identity.device_identity_set_pending_version _ _ _) as [[r' id'] w'].
  destruct (flash_partition_set_boot _ _) as [[ok fl'] md'']. reflexivity.
Qed.

(** The image HMAC is never checked: whatever HMAC the manifest carries, the
    same chunks give the same platform, the same session state and the same
    bytes, so a tampered image completes and is selected for boot. *)
Theorem image_hmac_ignored h p ctx acc cs :
  let '(p1, ctx1, acc1) := process_all p ctx acc cs in
  process_all p (with_hmac h ctx) acc cs = (p1, with_hmac h ctx1, acc1).
Proof.
  revert p ctx acc. induction cs as [|c cs IH]; intros p ctx acc; [reflexivity|].
  cbn. rewrite process_chunk_hmac. destruct (process_chunk p ctx c) as [[r ctx1] p1]. apply IH.
Qed.

(** An aborted session blocks every later update: after a successful begin
    and an abort, no begin succeeds again, whatever the manifest, because the
    flash layer still has the update in progress. *)
Theorem abort_blocks_updates p c0 m ctx p1 m2 :
  ota_session_begin p (Some c0) (Some m) = (OTA_RESULT_OK, Some ctx, p1) ->
  let '(r, ctx2, p2) := ota_session_begin p1 (ota_session_abort (Some ctx)) (Some m2) in
  r <> OTA_RESULT_OK /\ flash p2 = flash p1.
Proof.
  intros Hbeg. assert (s_ota_in_progress (flash p1) = true) as Ho.
  { revert Hbeg. unfold ota_session_begin. destruct (negb _); [discriminate|].
    destruct (device_identity.device_identity_get _ _) as [[] [d|]]; try discriminate.
    destruct (negb _); [discriminate|]. destruct (_ || _); [discriminate|].
    unfold flash_partition_ota_begin. destruct (backend_of (flash p)); [|discriminate].
    destruct (s_ota_in_progress (flash p)); [discriminate|]. cbn.
    destruct (begin _ _ _ _) as [[] md]; [|discriminate]. intros [= <- <-]. reflexivity. }
  unfold ota_session_begin, ota_session_abort.
  destruct (negb (s_initialised p1)); [split; [discriminate|reflexivity]|].
  destruct (device_identity.device_identity_get _ _) as [[] [d|]]; try (split; [discriminate|reflexivity]).
  destruct (negb _); [split; [discriminate|reflexivity]|].
  destruct (_ || _); [split; [discriminate|reflexivity]|].
  unfold flash_partition_ota_begin. destruct (backend_of (flash p1)); [|split; [discriminate|reflexivity]].
  rewrite Ho. split; [discriminate|reflexivity].
Qed.

(** A reboot loses the update: the boot self-check that should confirm the
    pending version runs after [device_identity_init], which discards it, so the
    check finds nothing pending, changes nothing, and the device keeps reporting
    the old version while it runs from the new slot. *)
Theorem reboot_never_confirms (storage : device_identity.DeviceIdentityStorage_t W)
    saved `{!device_identity.StorageOk storage saved} p ident0 v :
  device_identity.s_storage (identity p) = Some storage ->
  device_identity.s_storage ident0 = Some storage ->
  device_identity.s_initialised (identity p) = true ->
  device_identity.s_provisioned (identity p) = true ->
  let '(_, ident, w) := device_identity.device_identity_set_pending_version (identity p) (snd (mem p)) v in
  let '(_, ident', w') := device_identity.device_identity_init ident0 w in
  let booted := p <| identity := ident' |> <| mem := (fst (mem p), w') |> in
  ota_session_boot_self_check booted = (true, booted) /\
  device_identity.device_identity_get_fw_version (identity booted) =
    device_identity.device_identity_get_fw_version (identity p).
Proof.
  intros Hs H0 Hi Hp. unfold device_identity.device_identity_set_pending_version. rewrite Hi, Hp. cbn [negb].
  match goal with |- context [device_identity.identity_persist ?st (snd (mem p))] =>
    pose proof (device_identity.persist_synced storage saved st (snd (mem p)) Hs) as Hsy end.
  pose proof (device_identity.reboot_restores storage saved _ _ ident0 Hsy H0) as Hr.
  destruct (device_identity.device_identity_init ident0 _) as [[ok ident'] w'].
  destruct Hr as (_ & Hi' & Hid & Hp' & Hpd & _). cbn in Hid, Hp'.
  unfold ota_session_boot_self_check, device_identity.device_identity_has_pending_version,
    device_identity.device_identity_get_fw_version, device_identity.ready. cbn.
  rewrite Hpd, Hi', Hp', Hid, Hi, Hp. cbn. auto.
Qed.

(** With a version pending the self-check always passes, promotes it, and
    re-initialises its subjects: the attestation keys and the fail-safe table
    registered before the check are gone. *)
Theorem self_check_wipes_tables p :
  device_identity.device_identity_has_pending_version (identity p) = true ->
  let '(ok, p') := ota_session_boot_self_check p in
  ok = true /\
  device_identity.device_identity_get_fw_version (identity p') =
    device_identity.device_identity_get_pending_version (identity p) /\
  device_identity.device_identity_has_pending_version (identity p') = false /\
  (forall id, attestation.registered (attest p') id = None) /\
  (forall id pl, actuator_failsafe.actuator_failsafe_lookup (failsafe p') id pl true = None).
Proof.
  intros Hpend. unfold ota_session_boot_self_check. rewrite Hpend. cbn.
  unfold device_identity.device_identity_has_pending_version in Hpend. reflect.
  unfold device_identity.device_identity_confirm_boot.
  destruct (device_identity.s_initialised (identity p)) eqn:Hi; [|discriminate].
  destruct (device_identity.s_provisioned (identity p)) eqn:Hp; [|discriminate]. cbn [negb].
  destruct (Z.eqb_spec (device_identity.s_fw_version_pending (identity p)) device_identity.DEVICE_ID_NO_VERSION);
    [contradiction|]. split; [reflexivity|].
  unfold device_identity.device_identity_get_fw_version, device_identity.device_identity_get_pending_version,
    device_identity.device_identity_has_pending_version, device_identity.ready.
  cbn. rewrite Hi, Hp. cbn. repeat split; reflexivity.
Qed.

End properties.

(** ** The theorems on a concrete device *)

Definition nvm := device_identity.nvm.

Definition demo_platform : platform nvm :=
  mk_platform true device_identity.demo_state
    (snd (fst (flash_partition_init initial (erased, None)))) (erased, None)
    attestation.demo_state (rule_engine_core.mk_state true) (sensor_validation.mk_state true)
    actuator_failsafe.initial.

Definition demo_manifest : FirmwareManifest_t :=
  mk_manifest device_identity.DOMAIN_PROFILE_HVAC 2 8 300 (zeros 32).

Definition demo_begin := ota_session_begin demo_platform (Some zero_ctx) (Some demo_manifest).
Definition demo_ctx : OtaSessionContext_t := default zero_ctx (snd (fst demo_begin)).
Definition demo_open : platform nvm := snd demo_begin.

Lemma demo_begin_ok :
  ota_session_begin demo_platform (Some zero_ctx) (Some demo_manifest) =
  (OTA_RESULT_OK, Some demo_ctx, demo_open).
Proof.
  unfold demo_ctx, demo_open. fold demo_begin.
  assert (fst (fst demo_begin) = OTA_RESULT_OK) as H1 by (vm_compute; reflexivity).
  assert (is_Some (snd (fst demo_begin))) as [c H2] by (vm_compute; eauto).
  destruct demo_begin as [[r o] q]. cbn in *. rewrite H1, H2. reflexivity.
Qed.

(** The mock flash does not live in the identity's storage. *)
Lemma nvm_apart (st : device_identity.state nvm) (md : medium nvm) :
  medium_ok md -> medium_ok (fst md, device_identity.identity_persist st (snd md)) /\
  forall slot, get_data (mock_backend nvm) slot (fst md, device_identity.identity_persist st (snd md)) =
               get_data (mock_backend nvm) slot md.
Proof. auto. Qed.

(** Two chunks, the second sent twice. *)
Definition demo_chunks : list OtaChunk_t :=
  [mk_chunk 0 0 200 (replicate 256 7); mk_chunk 1 200 100 (replicate 256 8); mk_chunk 1 200 100 (replicate 256 9)].

Lemma session_assembles_image_witness :
  let '(p2, ctx2, acc) := process_all demo_open demo_ctx [] demo_chunks in
  get_data (mock_backend nvm) 0 (mem p2) = get_data (mock_backend nvm) 0 (mem demo_platform).
Proof.
  pose proof (session_assembles_image (mock_backend nvm) medium_ok demo_platform zero_ctx demo_manifest
                demo_ctx demo_open demo_chunks nvm_apart eq_refl (erased_ok None) (or_introl eq_refl)
                ltac:(cbn; lia) demo_begin_ok
                ltac:(repeat constructor; cbn; unfold is_u16, is_u32; lia)) as H.
  destruct (process_all demo_open demo_ctx [] demo_chunks) as [[p2 ctx2] acc]. apply H.
Defined.

Lemma abort_blocks_updates_witness :
  fst (fst (ota_session_begin demo_open (ota_session_abort (Some demo_ctx)) (Some demo_manifest)))
  <> OTA_RESULT_OK.
Proof.
  pose proof (abort_blocks_updates demo_platform zero_ctx demo_manifest demo_ctx demo_open demo_manifest
                demo_begin_ok) as H.
  destruct (ota_session_begin demo_open _ _) as [[r c] q]. apply H.
Defined.

Lemma reboot_never_confirms_witness :
  let '(_, ident, w) := device_identity.device_identity_set_pending_version (identity demo_platform) None 8 in
  let '(_, ident', w') := device_identity.device_identity_init device_identity.demo_boot w in
  device_identity.device_identity_get_fw_version ident' = 7.
Proof.
  exact (proj2 (reboot_never_confirms (H := device_identity.nvm_storage_ok)
                  device_identity.nvm_storage (fun w => w) demo_platform
                  device_identity.demo_boot 8 eq_refl eq_refl eq_refl eq_refl)).
Defined.

Definition demo_pending : platform nvm :=
  demo_platform <| identity := snd (fst (device_identity.device_identity_set_pending_version
                                           device_identity.demo_state None 8)) |>.

Lemma self_check_wipes_tables_witness :
  attestation.registered (attest demo_pending) 5 = Some attestation.demo_record /\
  attestation.registered (attest (snd (ota_session_boot_self_check demo_pending))) 5 = None.
Proof.
  split; [reflexivity|].
  pose proof (self_check_wipes_tables demo_pending eq_refl) as H.
  destruct (ota_session_boot_self_check demo_pending) as [ok q]. apply H.
Defined.

End ota_session.
