(* ===== verification/NetResilience.v ===== *)
(** Network resilience (firmware/shared/net_resilience.c): the offline queue,
    backpressure and the reconnect back-off. *)

From S2P Require Import Prelude Float32.
Import float32.

Module net_resilience.

Definition OFFLINE_QUEUE_MAX_RECORDS : Z := 512.
Definition RECONNECT_MAX_DELAY_MS : Z := 300000.
Definition RECONNECT_BASE_DELAY_MS : Z := 1000.
Definition RECONNECT_MULTIPLIER : Z := 2.

Record OfflineRecord_t := mk_record {
  timestamp_ms : Z;
  node_id : Z;
  metric_id : Z;
  value : float;
  valid : bool }.

Record OfflineQueue_t := mk_queue {
  records : list OfflineRecord_t;
  head : Z;
  tail : Z;
  count : Z;
  overflow : bool }.

#[export] Instance eta_queue : Eta OfflineQueue_t := fun r =>
  mk_queue (records r) (head r) (tail r) (count r) (overflow r).

Inductive BackpressureLevel_t :=
| PRESSURE_OK
| PRESSURE_MODERATE
| PRESSURE_HIGH
| PRESSURE_CRITICAL.

#[export] Instance BackpressureLevel_eq_dec : EqDecision BackpressureLevel_t.
Proof. solve_decision. Defined.

Record ReconnectStrategy_t := mk_reconnect {
  attempt : Z;
  delay_ms : Z;
  max_delay_ms : Z;
  next_retry_ms : Z;
  waiting : bool }.

#[export] Instance eta_reconnect : Eta ReconnectStrategy_t := fun r =>
  mk_reconnect (attempt r) (delay_ms r) (max_delay_ms r) (next_retry_ms r) (waiting r).

Record NetResilienceContext_t := mk_ctx {
  queue : OfflineQueue_t;
  reconnect : ReconnectStrategy_t;
  pressure : BackpressureLevel_t;
  cloud_publish_rate_ms : Z;
  last_publish_ms : Z;
  cloud_connected : bool;
  initialized : bool }.

#[export] Instance eta_ctx : Eta NetResilienceContext_t := fun r =>
  mk_ctx (queue r) (reconnect r) (pressure r) (cloud_publish_rate_ms r) (last_publish_ms r)
    (cloud_connected r) (initialized r).

Definition zero_record : OfflineRecord_t := mk_record 0 0 0 f_zero false.
#[export] Instance record_inhabited : Inhabited OfflineRecord_t := populate zero_record.

Definition zero_ctx : NetResilienceContext_t :=
  mk_ctx (mk_queue (replicate 512 zero_record) 0 0 0 false) (mk_reconnect 0 0 0 0 false)
    PRESSURE_OK 0 0 false false.

Definition net_resilience_init (octx : option NetResilienceContext_t)
  : bool * option NetResilienceContext_t :=
  match octx with
  | None => (false, None)
  | Some _ =>
      let ctx := zero_ctx in
      let ctx := ctx <| reconnect := (reconnect ctx) <| max_delay_ms := RECONNECT_MAX_DELAY_MS |>
                                                     <| delay_ms := RECONNECT_BASE_DELAY_MS |> |> in
      (true, Some (ctx <| pressure := PRESSURE_OK |> <| cloud_connected := true |>
                       <| initialized := true |>))
  end.

Implicit Types ctx : NetResilienceContext_t.

(** The operations take a context that is not NULL. *)
Definition net_resilience_enqueue ctx (record : option OfflineRecord_t)
  : bool * NetResilienceContext_t :=
  if negb (initialized ctx) then (false, ctx)
  else
    match record with
    | None => (false, ctx)
    | Some r =>
        let q := queue ctx in
        if OFFLINE_QUEUE_MAX_RECORDS <=? count q
        then (false, ctx <| queue := q <| overflow := true |> |>)
        else
          let slot := (head q + count q) mod OFFLINE_QUEUE_MAX_RECORDS in
          (true, ctx <| queue := q <| records := store slot r (records q) |>
                                   <| count := u16 (count q + 1) |> |>)
    end.

Definition net_resilience_dequeue ctx (out : bool)
  : bool * option OfflineRecord_t * NetResilienceContext_t :=
  if negb (initialized ctx) || negb out then (false, None, ctx)
  else if count (queue ctx) =? 0 then (false, None, ctx)
  else
    let q := queue ctx in
    (true, Some (records q !!! Z.to_nat (head q)),
     ctx <| queue := q <| head := (head q + 1) mod OFFLINE_QUEUE_MAX_RECORDS |>
                       <| count := u16 (count q - 1) |> |>).

Definition net_resilience_queue_count ctx : Z :=
  if negb (initialized ctx) then 0 else count (queue ctx).

Definition net_resilience_queue_overflowed ctx : bool :=
  if negb (initialized ctx) then false else overflow (queue ctx).

Definition net_resilience_update_connection ctx (connected : bool) (free_heap : Z)
  : BackpressureLevel_t * NetResilienceContext_t :=
  if negb (initialized ctx) then (PRESSURE_CRITICAL, ctx)
  else
    let level :=
      if negb connected then PRESSURE_HIGH
      else if free_heap <? 10240 then PRESSURE_CRITICAL
      else if free_heap <? 32768 then PRESSURE_HIGH
      else if free_heap <? 65536 then PRESSURE_MODERATE
      else PRESSURE_OK in
    (level, ctx <| cloud_connected := connected |> <| pressure := level |>).

Definition net_resilience_can_publish ctx (now_ms : Z) : bool :=
  if negb (initialized ctx) then false
  else if negb (cloud_connected ctx) then false
  else
    match pressure ctx with
    | PRESSURE_HIGH | PRESSURE_CRITICAL => false
    | level =>
        let rate := cloud_publish_rate_ms ctx in
        let min_interval := if bool_decide (level = PRESSURE_MODERATE) then u32 (rate * 4) else rate in
        let min_interval := if min_interval =? 0 then 1000 else min_interval in
        min_interval <=? u32 (now_ms - last_publish_ms ctx)
    end.

Definition net_resilience_report_publish ctx (now_ms : Z) : NetResilienceContext_t :=
  if negb (initialized ctx) then ctx else ctx <| last_publish_ms := now_ms |>.

Definition net_resilience_get_reconnect_delay ctx : Z :=
  if negb (initialized ctx) then RECONNECT_MAX_DELAY_MS else delay_ms (reconnect ctx).

Definition net_resilience_report_reconnect_fail ctx : NetResilienceContext_t :=
  if negb (initialized ctx) then ctx
  else
    let r := reconnect ctx in
    let d := u32 (delay_ms r * RECONNECT_MULTIPLIER) in
    let d := if max_delay_ms r <? d then max_delay_ms r else d in
    ctx <| reconnect := r <| attempt := u32 (attempt r + 1) |> <| delay_ms := d |>
                          <| waiting := true |> |>.

Definition net_resilience_report_reconnect_success ctx : NetResilienceContext_t :=
  if negb (initialized ctx) then ctx
  else
    ctx <| reconnect := (reconnect ctx) <| attempt := 0 |> <| delay_ms := RECONNECT_BASE_DELAY_MS |>
                                        <| waiting := false |> |>
        <| cloud_connected := true |>.

Definition net_resilience_get_pressure ctx : BackpressureLevel_t :=
  if negb (initialized ctx) then PRESSURE_CRITICAL else pressure ctx.

(** ** The ring refines a bounded FIFO queue *)

(** The records waiting in the ring, oldest first. *)
Definition contents (q : OfflineQueue_t) : list OfflineRecord_t :=
  map (fun i => records q !!! Z.to_nat ((head q + Z.of_nat i) mod 512)) (seq 0 (Z.to_nat (count q))).

Record queue_wf (q : OfflineQueue_t) : Prop := {
  q_size : length (records q) = 512%nat;
  q_head : 0 <= head q < 512;
  q_count : 0 <= count q <= 512 }.

(** The abstract queue: a list of at most 512 records. *)
Inductive op := Enqueue (r : OfflineRecord_t) | Dequeue.
Inductive answer := Stored (ok : bool) | Taken (r : option OfflineRecord_t).

Definition spec_step (l : list OfflineRecord_t) (o : op) : answer * list OfflineRecord_t :=
  match o with
  | Enqueue r => if decide (length l < 512)%nat then (Stored true, l ++ [r]) else (Stored false, l)
  | Dequeue => match l with [] => (Taken None, []) | r :: l => (Taken (Some r), l) end
  end.

Definition code_step ctx (o : op) : answer * NetResilienceContext_t :=
  match o with
  | Enqueue r => let '(ok, ctx) := net_resilience_enqueue ctx (Some r) in (Stored ok, ctx)
  | Dequeue => let '(_, r, ctx) := net_resilience_dequeue ctx true in (Taken r, ctx)
  end.

Fixpoint run {S} (step : S -> op -> answer * S) (s : S) (os : list op) : list answer :=
  match os with
  | [] => []
  | o :: os => let '(a, s) := step s o in a :: run step s os
  end.

Definition refines ctx (l : list OfflineRecord_t) : Prop :=
  initialized ctx = true /\ queue_wf (queue ctx) /\ contents (queue ctx) = l.

Lemma contents_length q : length (contents q) = Z.to_nat (count q).
Proof. unfold contents. rewrite length_map, length_seq. reflexivity. Qed.

Lemma contents_lookup q i :
  (i < Z.to_nat (count q))%nat ->
  contents q !! i = Some (records q !!! Z.to_nat ((head q + Z.of_nat i) mod 512)).
Proof.
  intros Hi. unfold contents. rewrite list_lookup_fmap, lookup_seq_lt by exact Hi. reflexivity.
Qed.

Lemma queue_slot_ne h i n :
  0 <= h < 512 -> 0 <= i < n -> n < 512 -> (h + i) mod 512 <> (h + n) mod 512.
Proof. intros. Z.div_mod_to_equations. lia. Qed.

Lemma contents_push q r :
  queue_wf q -> count q < 512 ->
  contents (q <| records := store ((head q + count q) mod 512) r (records q) |>
              <| count := u16 (count q + 1) |>) = contents q ++ [r].
Proof.
  intros [Hs Hh Hc] Hlt. apply list_eq. intros i.
  assert (u16 (count q + 1) = count q + 1) as Hu by (apply u16_small; unfold is_u16; lia).
  pose proof (Z.mod_pos_bound (head q + count q) 512 ltac:(lia)).
  destruct (decide (i < Z.to_nat (count q))%nat) as [Hi|Hi].
  - rewrite lookup_app_l, !contents_lookup by (rewrite ?contents_length; cbn; lia). cbn. f_equal.
    unfold store. rewrite list_lookup_total_insert_ne; [reflexivity|].
    pose proof (queue_slot_ne (head q) (Z.of_nat i) (count q)).
    pose proof (Z.mod_pos_bound (head q + Z.of_nat i) 512). lia.
  - destruct (decide (i = Z.to_nat (count q))) as [->|Hne].
    + rewrite contents_lookup by (cbn; lia). cbn. rewrite Z2Nat.id by lia.
      unfold store. rewrite list_lookup_total_insert_eq by lia.
      rewrite <- contents_length, lookup_app_r, Nat.sub_diag by lia. reflexivity.
    + rewrite !lookup_ge_None_2; [reflexivity| |].
      * rewrite length_app, contents_length. cbn. lia.
      * rewrite contents_length. cbn. lia.
Qed.

Lemma contents_pop q :
  queue_wf q -> 0 < count q ->
  contents q = records q !!! Z.to_nat (head q) ::
    contents (q <| head := (head q + 1) mod 512 |> <| count := u16 (count q - 1) |>).
Proof.
  intros [Hs Hh Hc] Hpos. unfold contents at 1.
  replace (Z.to_nat (count q)) with (S (Z.to_nat (count q - 1))) by lia.
  cbn [seq map]. f_equal; [do 2 f_equal; rewrite Z.mod_small; lia|].
  unfold contents. cbn. rewrite u16_small by (unfold is_u16; lia).
  rewrite <- seq_shift, map_map. apply map_ext. intros i. do 2 f_equal. Z.div_mod_to_equations. lia.
Qed.

Lemma step_refines ctx l o :
  refines ctx l ->
  fst (code_step ctx o) = fst (spec_step l o) /\ refines (snd (code_step ctx o)) (snd (spec_step l o)).
Proof.
  intros (Hi & Hwf & <-). pose proof (contents_length (queue ctx)) as Hlen.
  destruct Hwf as [Hs Hh Hc] eqn:Ewf. destruct o as [r|]; cbn.
  - unfold net_resilience_enqueue, OFFLINE_QUEUE_MAX_RECORDS. rewrite Hi, Hlen. cbn [negb].
    destruct (Z.leb_spec 512 (count (queue ctx))) as [Hfull|Hroom];
    [rewrite decide_False by lia|rewrite decide_True by lia]; cbn.
    + split; [reflexivity|]. split; [exact Hi|]. split; [|reflexivity]. split; auto.
    + split; [reflexivity|]. split; [exact Hi|]. split.
      * split; cbn; [rewrite store_length; exact Hs|exact Hh|rewrite u16_small by (unfold is_u16; lia); lia].
      * apply contents_push; auto.
  - unfold net_resilience_dequeue, OFFLINE_QUEUE_MAX_RECORDS. rewrite Hi. cbn [negb orb].
    destruct (Z.eqb_spec (count (queue ctx)) 0) as [Hz|Hnz].
    + assert (contents (queue ctx) = []) as -> by (unfold contents; rewrite Hz; reflexivity).
      split; [reflexivity|]. split; [exact Hi|]. split; [exact Hwf|].
      cbn. unfold contents. rewrite Hz. reflexivity.
    + rewrite (contents_pop (queue ctx) Hwf) by lia. cbn.
      split; [reflexivity|]. split; [exact Hi|]. split; [|reflexivity].
      split; cbn; [exact Hs|apply Z.mod_pos_bound; lia|rewrite u16_small by (unfold is_u16; lia); lia].
Qed.

Lemma init_refines ctx0 ctx :
  net_resilience_init (Some ctx0) = (true, Some ctx) -> refines ctx [].
Proof.
  intros [= <-]. split; [reflexivity|]. split; [|reflexivity]. split; cbn; lia || reflexivity.
Qed.

(** ** Properties *)

(** C35. The offline queue is a FIFO of at most 512 records: from a fresh
    context, every sequence of enqueues and dequeues answers exactly as the
    abstract queue does; a record is refused only when 512 are waiting and
    records come out in the order they went in. *)
Theorem queue_refines_fifo ctx0 ctx os :
  net_resilience_init (Some ctx0) = (true, Some ctx) ->
  run code_step ctx os = run spec_step [] os.
Proof.
  intros Hin. apply init_refines in Hin. revert Hin. generalize (@nil OfflineRecord_t) as l.
  revert ctx. induction os as [|o os IH]; intros ctx l Hr; [reflexivity|]. cbn.
  destruct (step_refines ctx l o Hr) as [Ha Hr'].
  destruct (code_step ctx o) as [a c']. destruct (spec_step l o) as [a' l']. cbn in Ha, Hr'.
  subst a'. f_equal. apply IH, Hr'.
Qed.

(** [n] failed reconnects in a row. *)
Definition fails (n : nat) ctx : NetResilienceContext_t :=
  Nat.iter n net_resilience_report_reconnect_fail ctx.

Lemma fails_delay n ctx0 ctx :
  net_resilience_init (Some ctx0) = (true, Some ctx) ->
  initialized (fails n ctx) = true /\ max_delay_ms (reconnect (fails n ctx)) = RECONNECT_MAX_DELAY_MS /\
  delay_ms (reconnect (fails n ctx)) = Z.min (1000 * 2 ^ Z.of_nat n) RECONNECT_MAX_DELAY_MS.
Proof.
  intros [= <-]. induction n as [|n (Hi & Hm & Hd)]; [repeat split|].
  match goal with |- context [fails (S n) ?c] =>
    change (fails (S n) c) with (net_resilience_report_reconnect_fail (fails n c)) end.
  unfold net_resilience_report_reconnect_fail. rewrite Hi. cbn. rewrite Hm, Hd.
  split; [exact Hi|]. split; [reflexivity|].
  unfold RECONNECT_MAX_DELAY_MS, RECONNECT_MULTIPLIER in *.
  rewrite Nat2Z.inj_succ, Z.pow_succ_r by lia.
  assert (0 < 2 ^ Z.of_nat n) by (apply Z.pow_pos_nonneg; lia).
  rewrite u32_small by (unfold is_u32; lia). case_match; reflect; lia.
Qed.

(** Exponential back-off with a cap: after [n] failures the delay is
    [min(1000 * 2^n, 300000)] milliseconds for every [n], and a success brings
    it back to one second. *)
Theorem reconnect_backoff n ctx0 ctx :
  net_resilience_init (Some ctx0) = (true, Some ctx) ->
  net_resilience_get_reconnect_delay (fails n ctx) = Z.min (1000 * 2 ^ Z.of_nat n) 300000 /\
  net_resilience_get_reconnect_delay (net_resilience_report_reconnect_success (fails n ctx)) = 1000.
Proof.
  intros Hin. destruct (fails_delay n ctx0 ctx Hin) as (Hi & _ & Hd).
  unfold net_resilience_get_reconnect_delay, net_resilience_report_reconnect_success.
  rewrite Hi. cbn. rewrite Hi, Hd. split; reflexivity.
Qed.

(** Moderate pressure does not slow publishing down: with the publish rate
    that initialisation leaves, the interval at MODERATE is the same second as
    at OK, since four times zero is still replaced by the default. *)
Theorem moderate_pressure_same_rate ctx0 ctx heap1 heap2 now :
  net_resilience_init (Some ctx0) = (true, Some ctx) ->
  32768 <= heap1 < 65536 -> 65536 <= heap2 ->
  let c1 := snd (net_resilience_update_connection ctx true heap1) in
  let c2 := snd (net_resilience_update_connection ctx true heap2) in
  net_resilience_get_pressure c1 = PRESSURE_MODERATE /\
  net_resilience_get_pressure c2 = PRESSURE_OK /\
  net_resilience_can_publish c1 now = net_resilience_can_publish c2 now.
Proof.
  intros [= <-] H1 H2. unfold net_resilience_update_connection. cbn [initialized set_field negb].
  destruct (Z.ltb_spec heap1 10240), (Z.ltb_spec heap1 32768), (Z.ltb_spec heap1 65536); try lia.
  destruct (Z.ltb_spec heap2 10240), (Z.ltb_spec heap2 32768), (Z.ltb_spec heap2 65536); try lia.
  repeat split.
Qed.

(** ** The theorems on a concrete context *)

Definition demo_ctx : NetResilienceContext_t :=
  default zero_ctx (snd (net_resilience_init (Some zero_ctx))).

Definition demo_record (i : Z) : OfflineRecord_t := mk_record i 1 2 (lit i) true.

Lemma queue_refines_fifo_witness :
  run code_step demo_ctx [Enqueue (demo_record 1); Enqueue (demo_record 2); Dequeue; Dequeue; Dequeue] =
  [Stored true; Stored true; Taken (Some (demo_record 1)); Taken (Some (demo_record 2)); Taken None].
Proof.
  rewrite (queue_refines_fifo zero_ctx demo_ctx).
  - reflexivity.
  - reflexivity.
Defined.

Lemma reconnect_backoff_witness :
  net_resilience_get_reconnect_delay (fails 9 demo_ctx) = 300000.
Proof.
  apply (reconnect_backoff 9 zero_ctx demo_ctx). reflexivity.
Defined.

Lemma moderate_pressure_same_rate_witness :
  net_resilience_can_publish (snd (net_resilience_update_connection demo_ctx true 40000)) 1500 =
  net_resilience_can_publish (snd (net_resilience_update_connection demo_ctx true 70000)) 1500.
Proof.
  apply (moderate_pressure_same_rate zero_ctx demo_ctx 40000 70000 1500).
  - reflexivity.
  - lia.
  - lia.
Defined.

End net_resilience.
