(* ===== verification/Crc.v ===== *)
(** The theory the two CRC-16 checksums of the firmware share: a checksum that
    takes each byte in with [entry] and then runs eight rounds of [bit] misses no
    change of a single byte, as long as neither step loses information. *)

From S2P Require Import Prelude.

Module crc.

Lemma lxor_u16 a b : is_u16 a -> is_u16 b -> is_u16 (Z.lxor a b).
Proof.
  unfold is_u16. change 65536 with (2 ^ 16). intros Ha Hb.
  split; [apply Z.lxor_nonneg; lia|].
  destruct (Z.eq_dec (Z.lxor a b) 0) as [->|Hne]; [lia|].
  pose proof (proj2 (Z.lxor_nonneg a b) ltac:(lia)). apply Z.log2_lt_pow2; [lia|].
  eapply Z.le_lt_trans; [apply Z.log2_lxor; lia|]. apply Z.max_lub_lt;
  (destruct (Z.eq_dec a 0) as [->|]; destruct (Z.eq_dec b 0) as [->|]; cbn;
   try lia; apply Z.log2_lt_pow2; lia).
Qed.

(** A decidable property of the [n]-bit words that continue the bits [acc],
    checked on all of them. *)
Fixpoint all_words (n : nat) (f : Z -> bool) (acc : Z) : bool :=
  match n with
  | O => f acc
  | S n => all_words n f (2 * acc) && all_words n f (2 * acc + 1)
  end.

Lemma all_words_spec n f acc c :
  all_words n f acc = true -> acc * 2 ^ Z.of_nat n <= c < (acc + 1) * 2 ^ Z.of_nat n -> f c = true.
Proof.
  revert acc. induction n as [|n IH]; intros acc; cbn [all_words].
  - intros Hf Hc. replace c with acc by (cbn in Hc; lia). exact Hf.
  - rewrite andb_true_iff, Nat2Z.inj_succ, Z.pow_succ_r by lia. intros [H0 H1] Hc.
    destruct (Z.lt_ge_cases c ((2 * acc + 1) * 2 ^ Z.of_nat n)) as [Hlt|Hge].
    + apply (IH _ H0). lia.
    + apply (IH _ H1). lia.
Qed.

Lemma all_u16 f c : all_words 16 f 0 = true -> is_u16 c -> f c = true.
Proof. intros Hf Hc. apply (all_words_spec 16 f 0 c Hf). exact Hc. Qed.

(** What a CRC-16 promises of its two steps. *)
Class CrcOk (bit : Z -> Z) (entry : Z -> Z -> Z) : Prop := {
  bit_u16 : forall c, is_u16 c -> is_u16 (bit c);
  bit_inj : forall c d, is_u16 c -> is_u16 d -> bit c = bit d -> c = d;
  entry_u16 : forall c b, is_u16 c -> is_u8 b -> is_u16 (entry c b);
  entry_state_inj : forall c d b, is_u16 c -> is_u16 d -> entry c b = entry d b -> c = d;
  entry_byte_inj : forall c x y, is_u8 x -> is_u8 y -> entry c x = entry c y -> x = y }.

Section theory.
Context (bit : Z -> Z) (entry : Z -> Z -> Z) `{!CrcOk bit entry}.

(** A run over a list of bytes. *)
Definition crc_run (l : list Z) (c : Z) : Z := fold_left (fun c b => Nat.iter 8 bit (entry c b)) l c.

Lemma bits_u16 n c : is_u16 c -> is_u16 (Nat.iter n bit c).
Proof. intros Hc. induction n as [|n IH]; [exact Hc|]. apply (bit_u16 (bit := bit) (entry := entry)), IH. Qed.

Lemma bits_inj n c d : is_u16 c -> is_u16 d -> Nat.iter n bit c = Nat.iter n bit d -> c = d.
Proof.
  intros Hc Hd. induction n as [|n IH]; intros E; [exact E|].
  apply IH, (bit_inj (bit := bit) (entry := entry)); auto using bits_u16.
Qed.

Lemma byte_u16 c b : is_u16 c -> is_u8 b -> is_u16 (Nat.iter 8 bit (entry c b)).
Proof. intros Hc Hb. apply bits_u16, entry_u16; assumption. Qed.

Lemma crc_run_u16 l c : is_u16 c -> byte_list l -> is_u16 (crc_run l c).
Proof.
  revert c. induction l as [|b l IH]; intros c Hc Hl; [exact Hc|].
  inversion_clear Hl. apply IH; [apply byte_u16|]; assumption.
Qed.

(** The same bytes from different states lead to different states. *)
Lemma crc_run_inj l c d :
  is_u16 c -> is_u16 d -> byte_list l ->
  crc_run l c = crc_run l d -> c = d.
Proof.
  revert c d. induction l as [|b l IH]; intros c d Hc Hd Hl E; [exact E|].
  apply Forall_cons in Hl as [Hb Hl]. apply IH in E; [|apply byte_u16; assumption..|exact Hl].
  apply bits_inj in E; [|apply entry_u16; assumption..]. exact (entry_state_inj _ _ _ Hc Hd E).
Qed.

(** Changing one byte changes the checksum. *)
Lemma crc_detects_byte c0 pre x y post :
  is_u16 c0 -> byte_list pre -> byte_list post -> is_u8 x -> is_u8 y -> x <> y ->
  crc_run (pre ++ x :: post) c0 <> crc_run (pre ++ y :: post) c0.
Proof.
  intros H0 Hp Hq Hx Hy Hne E. unfold crc_run in E. rewrite !fold_left_app in E. cbn [fold_left] in E.
  pose proof (crc_run_u16 pre c0 H0 Hp) as Hc. unfold crc_run in Hc.
  apply crc_run_inj in E; [|apply byte_u16; assumption..|exact Hq].
  apply bits_inj in E; [|apply entry_u16; assumption..]. exact (Hne (entry_byte_inj _ _ _ Hx Hy E)).
Qed.

End theory.

End crc.
