(* ===== verification/Rs485.v ===== *)
(** The RS-485 framing (firmware/shared/rs485_protocol.c): start byte, header,
    payload and CRC-16. *)

From S2P Require Import Prelude Crc.
Import crc.

Module rs485_protocol.

Definition RS485_MAX_FRAME_PAYLOAD : Z := 128.
Definition RS485_BROADCAST_ADDR : Z := 0xFF.
Definition RS485_CRC_POLYNOMIAL : Z := 0xA001.
Definition RS485_START_BYTE : Z := 0xAA.
Definition RS485_HEADER_SIZE : Z := 4.
Definition RS485_CRC_SIZE : Z := 2.
Definition RS485_MIN_FRAME : Z := RS485_HEADER_SIZE + RS485_CRC_SIZE.

Record RS485Frame_t := mk_frame {
  dest_addr : Z;
  src_addr : Z;
  payload_len : Z;
  payload : list Z }.

Inductive RS485ParseResult_t :=
| RS485_OK
| RS485_ERR_CRC
| RS485_ERR_TOO_SHORT
| RS485_ERR_TOO_LONG
| RS485_ERR_BAD_START
| RS485_ERR_PARAM_NULL.

#[export] Instance RS485ParseResult_eq_dec : EqDecision RS485ParseResult_t.
Proof. solve_decision. Defined.

(** One round of the inner loop: shift a bit out. *)
Definition crc_bit (crc : Z) : Z :=
  if negb (Z.land crc 1 =? 0) then Z.lxor (Z.shiftr crc 1) RS485_CRC_POLYNOMIAL
  else Z.shiftr crc 1.

Definition crc_byte (crc b : Z) : Z := Nat.iter 8 crc_bit (Z.lxor crc b).

Definition rs485_crc16 (data : list Z) : Z := fold_left crc_byte data 0xFFFF.

(** The bytes written to [out_buf]; their number is [*out_len]. *)
Definition rs485_encode (frame : option RS485Frame_t) (out_buf : bool) (buf_size : Z)
  : option (list Z) :=
  match frame with
  | Some f =>
      if negb out_buf then None
      else if buf_size <? RS485_HEADER_SIZE + payload_len f + RS485_CRC_SIZE then None
      else if RS485_MAX_FRAME_PAYLOAD <? payload_len f then None
      else
        let body := [dest_addr f; src_addr f; payload_len f]
                      ++ take (Z.to_nat (payload_len f)) (payload f) in
        let crc := rs485_crc16 body in
        Some ([RS485_START_BYTE] ++ body ++
              [Z.land (Z.shiftr crc 8) 0xFF; Z.land crc 0xFF])
  | None => None
  end.

(** [wire_buf[i]] for an index in range. *)
Definition byte_at (l : list Z) (i : Z) : Z := nth (Z.to_nat i) l 0.

(** The caller's frame is overwritten only on success, and only the first
    [payload_len] bytes of its payload. *)
Definition rs485_parse (wire_buf : option (list Z)) (out_frame : option RS485Frame_t)
  : RS485ParseResult_t * option RS485Frame_t :=
  match wire_buf, out_frame with
  | Some wire, Some out =>
      let wire_len := Z.of_nat (length wire) in
      if wire_len <? RS485_MIN_FRAME then (RS485_ERR_TOO_SHORT, out_frame)
      else if negb (byte_at wire 0 =? RS485_START_BYTE) then (RS485_ERR_BAD_START, out_frame)
      else
        let plen := byte_at wire 3 in
        if wire_len <? RS485_HEADER_SIZE + plen + RS485_CRC_SIZE then (RS485_ERR_TOO_SHORT, out_frame)
        else if RS485_MAX_FRAME_PAYLOAD <? plen then (RS485_ERR_TOO_LONG, out_frame)
        else
          let received_crc := Z.lor (Z.shiftl (byte_at wire (RS485_HEADER_SIZE + plen)) 8)
                                    (byte_at wire (RS485_HEADER_SIZE + plen + 1)) in
          let computed_crc := rs485_crc16 (take (Z.to_nat (3 + plen)) (drop 1 wire)) in
          if negb (received_crc =? computed_crc) then (RS485_ERR_CRC, out_frame)
          else
            (RS485_OK,
             Some (mk_frame (byte_at wire 1) (byte_at wire 2) plen
                     (take (Z.to_nat plen) (drop 4 wire) ++ drop (Z.to_nat plen) (payload out))))
  | _, _ => (RS485_ERR_PARAM_NULL, out_frame)
  end.

Definition rs485_create_frame (out_frame : option RS485Frame_t) (dest src : Z)
    (data : option (list Z)) (len : Z) : option RS485Frame_t :=
  match out_frame with
  | None => None
  | Some f =>
      let p := match data with
               | Some d =>
                   if (0 <? len) && (len <=? RS485_MAX_FRAME_PAYLOAD)
                   then take (Z.to_nat len) d ++ drop (Z.to_nat len) (payload f) else payload f
               | None => payload f
               end in
      Some (mk_frame dest src len p)
  end.

(** ** The CRC *)

Lemma land_1 c : (Z.land c 1 =? 0) = Z.even c.
Proof.
  change 1 with (Z.ones 1). rewrite Z.land_ones, Zeven_mod by lia.
  rewrite Z.pow_1_r. destruct (Z.eqb_spec (c mod 2) 0); reflexivity || (symmetry; apply Z.eqb_neq; assumption).
Qed.

Lemma crc_bit_u16 c : is_u16 c -> is_u16 (crc_bit c).
Proof.
  intros Hc. assert (is_u16 (Z.shiftr c 1)).
  { rewrite Z.shiftr_div_pow2 by lia. unfold is_u16 in *. Z.div_mod_to_equations. lia. }
  unfold crc_bit. case_match; [|assumption]. apply lxor_u16; [assumption|].
  unfold is_u16, RS485_CRC_POLYNOMIAL. lia.
Qed.

Lemma testbit_15_half c : is_u16 c -> Z.testbit (Z.shiftr c 1) 15 = false.
Proof.
  intros Hc. rewrite Z.shiftr_spec by lia. cbn.
  rewrite <- (Z.mod_small c (2 ^ 16)) by exact Hc. apply Z.mod_pow2_bits_high. lia.
Qed.

(** A round loses nothing: the top bit of the result tells which branch ran. *)
Lemma crc_bit_inj c d : is_u16 c -> is_u16 d -> crc_bit c = crc_bit d -> c = d.
Proof.
  intros Hc Hd. unfold crc_bit. rewrite !land_1.
  pose proof (Zdiv2_odd_eqn c). pose proof (Zdiv2_odd_eqn d). rewrite !Z.shiftr_div_pow2, !Z.pow_1_r, <- !Z.div2_div by lia.
  pose proof (testbit_15_half c Hc) as Tc. pose proof (testbit_15_half d Hd) as Td.
  rewrite Z.shiftr_div_pow2, Z.pow_1_r, <- Z.div2_div in Tc, Td by lia.
  rewrite <- !Z.negb_odd, !negb_involutive.
  destruct (Z.odd c), (Z.odd d); intros E.
  - apply (f_equal (fun x => Z.lxor x RS485_CRC_POLYNOMIAL)) in E.
    rewrite !Z.lxor_assoc, !Z.lxor_nilpotent, !Z.lxor_0_r in E. lia.
  - apply (f_equal (fun x => Z.testbit x 15)) in E. rewrite Z.lxor_spec, Tc, Td in E. discriminate.
  - apply (f_equal (fun x => Z.testbit x 15)) in E. rewrite Z.lxor_spec, Tc, Td in E. discriminate.
  - lia.
Qed.

#[export] Instance rs485_crc_ok : CrcOk crc_bit Z.lxor.
Proof.
  split; [exact crc_bit_u16|exact crc_bit_inj| | |].
  - intros c b Hc Hb. apply lxor_u16; [exact Hc|unfold is_u8, is_u16 in *; lia].
  - intros c d b _ _ E. apply (f_equal (fun x => Z.lxor x b)) in E.
    rewrite !Z.lxor_assoc, !Z.lxor_nilpotent, !Z.lxor_0_r in E. exact E.
  - intros c x y _ _ E. apply (f_equal (fun z => Z.lxor c z)) in E.
    rewrite <- !Z.lxor_assoc, !Z.lxor_nilpotent, !Z.lxor_0_l in E. exact E.
Qed.

Lemma crc_u16 l : byte_list l -> is_u16 (rs485_crc16 l).
Proof. intros Hl. apply (crc_run_u16 crc_bit Z.lxor); [unfold is_u16; lia|exact Hl]. Qed.

Lemma crc_split crc :
  is_u16 crc ->
  Z.lor (Z.shiftl (Z.land (Z.shiftr crc 8) 255) 8) (Z.land crc 255) = crc.
Proof.
  intros Hc. rewrite Z.lor_comm. rewrite lor_shift_add by (rewrite land_255; words).
  rewrite !land_255, shiftr_8. unfold is_u16 in Hc. Z.div_mod_to_equations. lia.
Qed.

(** ** Frames on the wire *)

Record wf_frame (f : RS485Frame_t) : Prop := {
  wf_dest : is_u8 (dest_addr f);
  wf_src : is_u8 (src_addr f);
  wf_len : 0 <= payload_len f <= RS485_MAX_FRAME_PAYLOAD;
  wf_payload : byte_list (payload f) /\ length (payload f) = 128%nat }.

(** The bytes the CRC covers. *)
Definition body (f : RS485Frame_t) : list Z :=
  [dest_addr f; src_addr f; payload_len f] ++ take (Z.to_nat (payload_len f)) (payload f).

Lemma body_length f : wf_frame f -> length (body f) = (3 + Z.to_nat (payload_len f))%nat.
Proof.
  intros [_ _ Hl [_ Hp]]. unfold RS485_MAX_FRAME_PAYLOAD in Hl.
  unfold body. rewrite length_app, length_take, Hp. cbn. lia.
Qed.

Lemma body_bytes f : wf_frame f -> byte_list (body f).
Proof.
  intros [Hd Hs Hl [Hp _]]. unfold RS485_MAX_FRAME_PAYLOAD in Hl.
  apply Forall_app. split; [|apply Forall_take, Hp].
  repeat constructor; unfold is_u8 in *; lia.
Qed.

Lemma encode_some f buf_size :
  wf_frame f -> 6 + payload_len f <= buf_size ->
  rs485_encode (Some f) true buf_size =
  Some (RS485_START_BYTE :: body f ++
        [Z.land (Z.shiftr (rs485_crc16 (body f)) 8) 255; Z.land (rs485_crc16 (body f)) 255]).
Proof.
  intros [_ _ Hl _] Hb. unfold rs485_encode, RS485_HEADER_SIZE, RS485_CRC_SIZE. cbn [negb].
  unfold RS485_MAX_FRAME_PAYLOAD in *.
  destruct (Z.ltb_spec buf_size (4 + payload_len f + 2)); [lia|].
  destruct (Z.ltb_spec 128 (payload_len f)); [lia|]. reflexivity.
Qed.

(** Parsing a wire buffer laid out as start byte, body, two CRC bytes, rest. *)
Lemma parse_layout f out hi lo rest :
  wf_frame f ->
  rs485_parse (Some (RS485_START_BYTE :: body f ++ hi :: lo :: rest)) (Some out) =
  if Z.lor (Z.shiftl hi 8) lo =? rs485_crc16 (body f) then
    (RS485_OK, Some (mk_frame (dest_addr f) (src_addr f) (payload_len f)
                      (take (Z.to_nat (payload_len f)) (payload f) ++
                       drop (Z.to_nat (payload_len f)) (payload out))))
  else (RS485_ERR_CRC, Some out).
Proof.
  intros Hwf. pose proof (body_length f Hwf) as Hbl. destruct Hwf as [_ _ Hl [_ Hp]].
  unfold RS485_MAX_FRAME_PAYLOAD in Hl. set (n := Z.to_nat (payload_len f)) in *.
  assert (length (take n (payload f)) = n) as Htl by (rewrite length_take; lia).
  assert (forall k, nth (4 + n + k) (RS485_START_BYTE :: body f ++ hi :: lo :: rest) 0 =
               nth k (hi :: lo :: rest) 0) as Hcrc.
  { intros k. rewrite app_comm_cons, app_nth2 by (cbn [length]; lia). f_equal. cbn [length]. lia. }
  unfold rs485_parse, RS485_MIN_FRAME, RS485_HEADER_SIZE, RS485_CRC_SIZE, RS485_MAX_FRAME_PAYLOAD.
  change (byte_at _ 0 =? RS485_START_BYTE) with true.
  change (byte_at (RS485_START_BYTE :: body f ++ hi :: lo :: rest) 3) with (payload_len f).
  change (byte_at (RS485_START_BYTE :: body f ++ hi :: lo :: rest) 1) with (dest_addr f).
  change (byte_at (RS485_START_BYTE :: body f ++ hi :: lo :: rest) 2) with (src_addr f).
  cbn [length]. rewrite length_app, Hbl. cbn [length negb].
  destruct (Z.ltb_spec (Z.of_nat (S (3 + n + S (S (length rest))))) (4 + 2)); [lia|].
  destruct (Z.ltb_spec (Z.of_nat (S (3 + n + S (S (length rest))))) (4 + payload_len f + 2)); [lia|].
  destruct (Z.ltb_spec 128 (payload_len f)); [lia|].
  unfold byte_at. replace (Z.to_nat (4 + payload_len f)) with (4 + n + 0)%nat by lia.
  replace (Z.to_nat (4 + payload_len f + 1)) with (4 + n + 1)%nat by lia.
  rewrite !Hcrc. cbn [nth].
  replace (Z.to_nat (3 + payload_len f)) with (length (body f)) by lia.
  change (drop 1 (RS485_START_BYTE :: body f ++ hi :: lo :: rest)) with (body f ++ hi :: lo :: rest).
  rewrite take_app_length. fold n.
  change (drop 4 (RS485_START_BYTE :: body f ++ hi :: lo :: rest))
    with (take n (payload f) ++ hi :: lo :: rest).
  replace (take n (take n (payload f) ++ hi :: lo :: rest)) with (take n (payload f))
    by (rewrite take_app_le, take_take by lia; f_equal; lia).
  destruct (_ =? _); reflexivity.
Qed.

(** ** Properties *)

(** Round trip: whatever follows it on the wire, an encoded frame parses
    back to its addresses, length and payload. *)
Theorem parse_encode f out buf_size wire rest :
  wf_frame f -> rs485_encode (Some f) true buf_size = Some wire ->
  rs485_parse (Some (wire ++ rest)) (Some out) =
  (RS485_OK, Some (mk_frame (dest_addr f) (src_addr f) (payload_len f)
                     (take (Z.to_nat (payload_len f)) (payload f) ++
                      drop (Z.to_nat (payload_len f)) (payload out)))).
Proof.
  intros Hwf He. assert (6 + payload_len f <= buf_size) as Hb.
  { revert He. unfold rs485_encode, RS485_HEADER_SIZE, RS485_CRC_SIZE. cbn [negb].
    destruct (Z.ltb_spec buf_size (4 + payload_len f + 2)); [discriminate|lia]. }
  rewrite (encode_some f buf_size Hwf Hb) in He.
  match type of He with Some ?w = _ => assert (wire = w) as -> by congruence end. clear He.
  match goal with |- rs485_parse (Some ((?s :: ?b ++ [?hi; ?lo]) ++ rest)) _ = _ =>
    replace ((s :: b ++ [hi; lo]) ++ rest) with (s :: b ++ hi :: lo :: rest)
      by (change (s :: b ++ [hi; lo] ++ rest = s :: (b ++ [hi; lo]) ++ rest);
          rewrite <- app_assoc; reflexivity) end.
  rewrite parse_layout, crc_split, Z.eqb_refl; [reflexivity| |exact Hwf].
  apply crc_u16, body_bytes, Hwf.
Qed.

(** C33. A frame damaged in one address or payload byte is rejected with a CRC
    error, whatever the damage, and the caller's frame is left alone. *)
Theorem one_byte_error_detected f g out buf_size wire pre post x y :
  wf_frame f -> wf_frame g -> payload_len g = payload_len f ->
  body f = pre ++ x :: post -> body g = pre ++ y :: post -> x <> y ->
  rs485_encode (Some f) true buf_size = Some wire ->
  rs485_parse (Some (RS485_START_BYTE :: body g ++ drop (1 + length (body f)) wire)) (Some out) =
  (RS485_ERR_CRC, Some out).
Proof.
  intros Hf Hg Hlen Ef Eg Hne He. assert (6 + payload_len f <= buf_size) as Hb.
  { revert He. unfold rs485_encode, RS485_HEADER_SIZE, RS485_CRC_SIZE. cbn [negb].
    destruct (Z.ltb_spec buf_size (4 + payload_len f + 2)); [discriminate|lia]. }
  rewrite (encode_some f buf_size Hf Hb) in He.
  match type of He with Some ?w = _ => assert (wire = w) as -> by congruence end. clear He.
  rewrite Nat.add_1_l, skipn_cons, drop_app_length, parse_layout, crc_split; [| |exact Hg].
  - pose proof (body_bytes f Hf) as Bf. pose proof (body_bytes g Hg) as Bg.
    rewrite Ef in *. rewrite Eg in *.
    apply Forall_app in Bf as [Bp [Bx Bq]%Forall_cons]. apply Forall_app in Bg as [_ [By _]%Forall_cons].
    destruct (Z.eqb_spec (rs485_crc16 (pre ++ x :: post)) (rs485_crc16 (pre ++ y :: post))) as [E|]; [|reflexivity].
    exfalso. revert E. apply (crc_detects_byte crc_bit Z.lxor); auto. unfold is_u16. lia.
  - apply crc_u16, body_bytes, Hf.
Qed.

(** ** The theorems on a concrete frame *)

Definition demo_frame : RS485Frame_t := mk_frame 1 2 3 ([10; 20; 30] ++ zeros 125).
Definition demo_damaged : RS485Frame_t := mk_frame 1 2 3 ([10; 21; 30] ++ zeros 125).

Lemma demo_frame_wf d : is_u8 d -> wf_frame (mk_frame 1 2 3 ([10; d; 30] ++ zeros 125)).
Proof.
  intros Hd. split; cbn [dest_addr src_addr payload_len payload].
  - unfold is_u8. lia.
  - unfold is_u8. lia.
  - unfold RS485_MAX_FRAME_PAYLOAD. lia.
  - split; [|reflexivity]. apply Forall_app. split; [|apply zeros_bytes].
    repeat constructor; unfold is_u8 in *; lia.
Qed.

Lemma parse_encode_witness :
  rs485_parse (Some ([0xAA; 1; 2; 3; 10; 20; 30; 68; 215] ++ [77])) (Some (mk_frame 0 0 0 (zeros 128))) =
  (RS485_OK, Some demo_frame).
Proof.
  apply (parse_encode demo_frame (mk_frame 0 0 0 (zeros 128)) 16).
  - apply (demo_frame_wf 20). unfold is_u8. lia.
  - vm_compute. reflexivity.
Defined.

Lemma one_byte_error_detected_witness :
  rs485_parse (Some [0xAA; 1; 2; 3; 10; 21; 30; 68; 215]) (Some demo_frame) =
  (RS485_ERR_CRC, Some demo_frame).
Proof.
  apply (one_byte_error_detected demo_frame demo_damaged demo_frame 16 [0xAA; 1; 2; 3; 10; 20; 30; 68; 215]
           [1; 2; 3; 10] [30] 20 21).
  - apply (demo_frame_wf 20). unfold is_u8. lia.
  - apply (demo_frame_wf 21). unfold is_u8. lia.
  - reflexivity.
  - reflexivity.
  - reflexivity.
  - discriminate.
  - vm_compute. reflexivity.
Defined.

End rs485_protocol.
