(* ===== verification/EdgeNode.v ===== *)
(** The edge node (firmware/edge/edge_config.c, firmware/edge/edge_node.c): its
    stored configuration, and one round of reading a sensor and sending an
    RS-485 frame to the gateway.  A client of SensorDriver, EdgeAuth and Rs485. *)

From S2P Require Import Prelude Float32 SensorDriver Hmac Attestation EdgeAuth Crc Rs485.
Import float32.
Import edge_attestation(EdgeAuthContext_t, edge_auth_is_authenticated, EDGE_AUTH_AUTHENTICATED, ea_state).
Import rs485_protocol(RS485Frame_t, mk_frame, rs485_create_frame, rs485_encode, rs485_parse, RS485_OK,
  RS485_MAX_FRAME_PAYLOAD).

(** ** The configuration *)

Module edge_config.

Record EdgeNodeConfig_t := mk_config {
  node_id : Z;
  active_driver : sensor_driver.SensorType_t;
  metric_id : Z;
  driver_config : sensor_driver.SensorConfig_t;
  gw_dest_addr : Z;
  valid : bool }.

#[export] Instance eta_config : Eta EdgeNodeConfig_t := fun r =>
  mk_config (node_id r) (active_driver r) (metric_id r) (driver_config r) (gw_dest_addr r) (valid r).

Inductive EdgeConfigResult_t :=
| EDGE_CONFIG_OK
| EDGE_CONFIG_ERR_NOT_PROVISIONED
| EDGE_CONFIG_ERR_DRIVER_NOT_FOUND
| EDGE_CONFIG_ERR_DRIVER_INIT_FAIL
| EDGE_CONFIG_ERR_PARAM_NULL
| EDGE_CONFIG_ERR_STORAGE.

#[export] Instance EdgeConfigResult_eq_dec : EqDecision EdgeConfigResult_t.
Proof. solve_decision. Defined.

(** [load] fills the configuration it is given, or fails. *)
Record EdgeConfigStorage_t (W : Type) := mk_storage {
  save : option (EdgeNodeConfig_t -> W -> bool * W);
  load : option (W -> option EdgeNodeConfig_t * W) }.
Arguments mk_storage {W}. Arguments save {W}. Arguments load {W}.

Record state (W : Type) := mk_state {
  s_config : EdgeNodeConfig_t;
  s_storage : option (EdgeConfigStorage_t W);
  s_initialised : bool }.
Arguments mk_state {W}. Arguments s_config {W}. Arguments s_storage {W}. Arguments s_initialised {W}.

#[export] Instance eta_state W : Eta (state W) := fun r =>
  mk_state (s_config r) (s_storage r) (s_initialised r).

Definition zero_config : EdgeNodeConfig_t := mk_config 0 0 0 (sensor_driver.mk_config 0 0 0 0) 0 false.

Section config.
Context {W : Type}.
Implicit Types (st : state W) (w : W).

Definition initial : state W := mk_state zero_config None false.

Definition edge_config_init st (storage : option (EdgeConfigStorage_t W)) w : bool * state W * W :=
  let st := st <| s_config := zero_config |> <| s_storage := storage |> <| s_initialised := true |> in
  match s_storage st ≫= load with
  | Some f =>
      let '(loaded, w) := f w in
      match loaded with
      | Some c => (true, if valid c then st <| s_config := c |> else st, w)
      | None => (true, st, w)
      end
  | None => (true, st, w)
  end.

Definition edge_config_get st : option EdgeNodeConfig_t :=
  if negb (s_initialised st) then None
  else if negb (valid (s_config st)) then None
  else Some (s_config st).

Definition edge_config_set st (config : option EdgeNodeConfig_t) w : EdgeConfigResult_t * state W * W :=
  match config with
  | None => (EDGE_CONFIG_ERR_PARAM_NULL, st, w)
  | Some c =>
      if negb (s_initialised st) then (EDGE_CONFIG_ERR_STORAGE, st, w)
      else
        match sensor_driver.sensor_driver_find (active_driver c) with
        | None => (EDGE_CONFIG_ERR_DRIVER_NOT_FOUND, st, w)
        | Some _ =>
            let st := st <| s_config := c <| valid := true |> |> in
            match s_storage st ≫= save with
            | Some f =>
                let '(ok, w) := f (s_config st) w in
                (if ok : bool then EDGE_CONFIG_OK else EDGE_CONFIG_ERR_STORAGE, st, w)
            | None => (EDGE_CONFIG_OK, st, w)
            end
        end
  end.

Definition edge_config_is_provisioned st : bool := s_initialised st && valid (s_config st).

(** A storage that keeps what it saves. *)
Class StorageOk (storage : EdgeConfigStorage_t W) : Prop := {
  store_has_save : is_Some (save storage);
  store_has_load : is_Some (load storage);
  store_keeps : forall f g c w w', save storage = Some f -> load storage = Some g ->
    f c w = (true, w') -> exists w'', g w' = (Some c, w'') }.

(** A configuration that was accepted is the one in use, now and after a reboot;
    one whose driver is not registered is refused and changes nothing. *)
Theorem config_survives_reboot storage `{!StorageOk storage} st c w st2 :
  s_initialised st = true -> s_storage st = Some storage ->
  let '(res, st', w') := edge_config_set st (Some c) w in
  (res = EDGE_CONFIG_OK ->
     edge_config_get st' = Some (c <| valid := true |>) /\
     edge_config_get (edge_config_init st2 (Some storage) w').1.2 = Some (c <| valid := true |>)) /\
  (sensor_driver.sensor_driver_find (active_driver c) = None -> res <> EDGE_CONFIG_OK /\ st' = st /\ w' = w) /\
  (sensor_driver.sensor_driver_find (active_driver c) <> None -> edge_config_get st' = Some (c <| valid := true |>)).
Proof.
  intros Hi Hst. unfold edge_config_set. rewrite Hi. cbn [negb].
  destruct (sensor_driver.sensor_driver_find (active_driver c)) as [d|] eqn:Hd.
  2: { split; [discriminate|]. split; [|congruence]. intros _. split; [discriminate|auto]. }
  destruct store_has_save as [f Hf], store_has_load as [g Hg].
  cbn [s_storage set_field]. rewrite Hst. cbn [mbind option_bind]. rewrite Hf.
  cbn [s_config set_field]. destruct (f (c <| valid := true |>) w) as [ok w'] eqn:Hfw.
  assert (edge_config_get (st <| s_config := c <| valid := true |> |>) = Some (c <| valid := true |>)) as Hget.
  { unfold edge_config_get. cbn. rewrite Hi. reflexivity. }
  split; [|split; [discriminate|intros _; exact Hget]]. destruct ok; [intros _|discriminate].
  split; [exact Hget|]. unfold edge_config_init. cbn [s_storage set_field mbind option_bind]. rewrite Hg.
  destruct (store_keeps f g _ _ _ Hf Hg Hfw) as [w'' ->]. reflexivity.
Qed.

End config.

Definition cell_storage : EdgeConfigStorage_t (option EdgeNodeConfig_t) :=
  mk_storage (Some (fun c _ => (true, Some c))) (Some (fun w => (w, w))).

#[export] Instance cell_storage_ok : StorageOk cell_storage.
Proof.
  split; cbn; eauto. intros f g c w w' [= <-] [= <-] [= <-]. eauto.
Qed.

Definition demo_config : EdgeNodeConfig_t :=
  mk_config 7 1 13 (sensor_driver.mk_config 4 (lit_frac 1 10) (lit 0) 1) 1 false.

Lemma config_survives_reboot_witness :
  let '(res, _, w) := edge_config_set (edge_config_init initial (Some cell_storage) None).1.2
                        (Some demo_config) None in
  res = EDGE_CONFIG_OK /\
  edge_config_get (edge_config_init initial (Some cell_storage) w).1.2 = Some (demo_config <| valid := true |>).
Proof.
  pose proof (config_survives_reboot cell_storage (edge_config_init initial (Some cell_storage) None).1.2
                demo_config None initial eq_refl eq_refl) as H.
  destruct (edge_config_set _ _ _) as [[res st'] w] eqn:E. destruct H as [H _].
  assert (res = EDGE_CONFIG_OK) as Hr by (cbn in E; congruence).
  split; [exact Hr|]. apply H, Hr.
Defined.

End edge_config.

(** ** The node *)

Module edge_node.
Import edge_config.
#[local] Existing Instance edge_config.eta_state.

Record EdgeNodeResult_t := mk_result {
  r_value : float;
  r_valid : bool;
  r_node_id : Z;
  gw_addr : Z;
  frame_sent : bool }.

#[export] Instance eta_result : Eta EdgeNodeResult_t := fun r =>
  mk_result (r_value r) (r_valid r) (r_node_id r) (gw_addr r) (frame_sent r).

Record EdgeNodeStats_t := mk_stats {
  reads_total : Z;
  reads_valid : Z;
  reads_invalid : Z;
  frames_sent : Z;
  frames_failed : Z }.

#[export] Instance eta_stats : Eta EdgeNodeStats_t := fun r =>
  mk_stats (reads_total r) (reads_valid r) (reads_invalid r) (frames_sent r) (frames_failed r).

(** The argument of [edge_node_init]: NULL, the testing sentinel, or a context
    of the caller's, which the node reads through its pointer. *)
Inductive auth_arg := AuthNull | EDGE_AUTH_UNGATED_TESTING_ONLY | AuthCtx.

(** [s_auth_ctx] says whether the pointer is set; what it points to is the
    caller's and is an argument of the round. *)
Record node (W : Type) := mk_node {
  s_send_fn : option (list Z -> W -> bool * W);
  s_auth_ctx : bool;
  s_auth_disabled_test_only : bool;
  s_stats : EdgeNodeStats_t }.
Arguments mk_node {W}. Arguments s_send_fn {W}. Arguments s_auth_ctx {W}.
Arguments s_auth_disabled_test_only {W}. Arguments s_stats {W}.

#[export] Instance eta_node W : Eta (node W) := fun r =>
  mk_node (s_send_fn r) (s_auth_ctx r) (s_auth_disabled_test_only r) (s_stats r).

Definition zero_stats : EdgeNodeStats_t := mk_stats 0 0 0 0 0.
Definition zero_result : EdgeNodeResult_t := mk_result 0 false 0 0 false.

(** The frame object on the stack; its payload bytes past the six are whatever
    was there, and are not sent. *)
Definition stack_frame : RS485Frame_t := mk_frame 0 0 0 (zeros 128).

Section node.
Context {W : Type}.
Implicit Types (nd : node W) (cfg : edge_config.state W) (hw : sensor_driver.hardware)
  (auth : EdgeAuthContext_t) (w : W).

Definition edge_node_init (send_fn : option (list Z -> W -> bool * W)) (a : auth_arg) : node W :=
  match a with
  | AuthNull => mk_node send_fn false false zero_stats
  | EDGE_AUTH_UNGATED_TESTING_ONLY => mk_node send_fn false true zero_stats
  | AuthCtx => mk_node send_fn true false zero_stats
  end.

Definition count_invalid nd : node W :=
  nd <| s_stats := (s_stats nd) <| reads_invalid := u32 (reads_invalid (s_stats nd) + 1) |> |>.

(** Step 6: build the frame, encode it into the wire buffer, send it. *)
Definition frame_payload (c : EdgeNodeConfig_t) (v : float) : list Z :=
  [edge_config.node_id c; metric_id c] ++ le_bytes 4 v.

Definition send_frame nd (c : EdgeNodeConfig_t) (res : EdgeNodeResult_t) w : EdgeNodeResult_t * node W * W :=
  let frame := rs485_create_frame (Some stack_frame) (gw_dest_addr c) (edge_config.node_id c)
                 (Some (frame_payload c (r_value res))) 6 in
  let failed := nd <| s_stats := (s_stats nd) <| frames_failed := u32 (frames_failed (s_stats nd) + 1) |> |> in
  match rs485_encode frame true (RS485_MAX_FRAME_PAYLOAD + 8) with
  | None => (res, failed, w)
  | Some wire =>
      match s_send_fn nd with
      | None => (res, failed, w)
      | Some f =>
          let '(ok, w) := f wire w in
          if ok : bool then
            (res <| frame_sent := true |>,
             nd <| s_stats := (s_stats nd) <| frames_sent := u32 (frames_sent (s_stats nd) + 1) |> |>, w)
          else (res, failed, w)
      end
  end.

Definition edge_node_read_and_send nd cfg hw auth w : EdgeNodeResult_t * node W * W :=
  let nd := nd <| s_stats := (s_stats nd) <| reads_total := u32 (reads_total (s_stats nd) + 1) |> |> in
  let res := zero_result in
  if negb (s_auth_disabled_test_only nd) &&
     (negb (s_auth_ctx nd) || negb (edge_auth_is_authenticated (Some auth)))
  then (res, count_invalid nd, w)
  else
    match edge_config_get cfg with
    | None => (res, count_invalid nd, w)
    | Some c =>
        let res := res <| r_node_id := edge_config.node_id c |> <| gw_addr := gw_dest_addr c |> in
        match sensor_driver.sensor_driver_find (active_driver c) with
        | None => (res, count_invalid nd, w)
        | Some driver =>
            let reading := sensor_driver.read driver hw in
            if negb (sensor_driver.valid reading) then (res, count_invalid nd, w)
            else if negb (sensor_driver.validate driver (sensor_driver.value reading)) then
              (res, count_invalid nd, w)
            else
              let physical_value :=
                fadd (fmul (sensor_driver.value reading) (sensor_driver.scale_factor (driver_config c)))
                     (sensor_driver.offset (driver_config c)) in
              let res := res <| r_value := physical_value |> <| r_valid := true |> in
              let nd := nd <| s_stats := (s_stats nd) <| reads_valid := u32 (reads_valid (s_stats nd) + 1) |> |> in
              send_frame nd c res w
        end
    end.

Definition edge_node_get_stats nd : EdgeNodeStats_t := s_stats nd.
Definition edge_node_reset_stats nd : node W := nd <| s_stats := zero_stats |>.

(** ** What a round needs to send *)

(** The gate of step 0. *)
Definition may_send nd auth : Prop :=
  s_auth_disabled_test_only nd = true \/
  (s_auth_ctx nd = true /\ ea_state auth = EDGE_AUTH_AUTHENTICATED).

(** The configuration, the driver and the accepted reading of a round. *)
Definition accepted cfg hw (c : EdgeNodeConfig_t) (raw : float) : Prop :=
  edge_config_get cfg = Some c /\
  exists d, sensor_driver.sensor_driver_find (active_driver c) = Some d /\
    sensor_driver.read d hw = sensor_driver.mk_reading raw true /\ sensor_driver.validate d raw = true.

Definition physical (c : EdgeNodeConfig_t) (raw : float) : float :=
  fadd (fmul raw (sensor_driver.scale_factor (driver_config c))) (sensor_driver.offset (driver_config c)).

Record wf_config (c : EdgeNodeConfig_t) : Prop := {
  wfc_node : is_u8 (edge_config.node_id c);
  wfc_metric : is_u8 (metric_id c);
  wfc_gw : is_u8 (gw_dest_addr c) }.

Lemma gate_spec nd auth :
  negb (s_auth_disabled_test_only nd) && (negb (s_auth_ctx nd) || negb (edge_auth_is_authenticated (Some auth)))
  = false <-> may_send nd auth.
Proof.
  unfold may_send. cbn [edge_auth_is_authenticated].
  destruct (s_auth_disabled_test_only nd), (s_auth_ctx nd); cbn; try intuition congruence.
  rewrite negb_false_iff, bool_decide_eq_true. intuition congruence.
Qed.

(** The node's frame, as the encoder sees it. *)
Definition node_frame (c : EdgeNodeConfig_t) (v : float) : RS485Frame_t :=
  mk_frame (gw_dest_addr c) (edge_config.node_id c) 6 (frame_payload c v ++ zeros 122).

Lemma node_frame_wf c v : wf_config c -> rs485_protocol.wf_frame (node_frame c v).
Proof.
  intros [Hn Hm Hg]. split; cbn [node_frame rs485_protocol.dest_addr rs485_protocol.src_addr
    rs485_protocol.payload_len rs485_protocol.payload]; auto.
  - unfold RS485_MAX_FRAME_PAYLOAD. lia.
  - split.
    + apply Forall_app_2; [|apply zeros_bytes]. apply Forall_app_2; [constructor; [exact Hn|constructor; [exact Hm|constructor]]|apply le_bytes_bytes].
    + rewrite length_app, zeros_length. unfold frame_payload. rewrite length_app, le_bytes_length. reflexivity.
Qed.

Lemma node_frame_encodes c v :
  wf_config c ->
  exists wire, rs485_encode (Some (node_frame c v)) true (RS485_MAX_FRAME_PAYLOAD + 8) = Some wire.
Proof.
  intros Hc. eexists. apply rs485_protocol.encode_some; [apply node_frame_wf, Hc|].
  cbn. unfold RS485_MAX_FRAME_PAYLOAD. lia.
Qed.

Lemma created_frame c v :
  rs485_create_frame (Some stack_frame) (gw_dest_addr c) (edge_config.node_id c) (Some (frame_payload c v)) 6
  = Some (node_frame c v).
Proof.
  unfold rs485_create_frame, node_frame. cbn [andb Z.ltb Z.leb Z.compare].
  change (Z.to_nat 6) with 6%nat.
  rewrite (take_ge (frame_payload c v)).
  - reflexivity.
  - unfold frame_payload. rewrite length_app, le_bytes_length. cbn. lia.
Qed.

Lemma send_frame_spec nd c res w f :
  s_send_fn nd = Some f -> wf_config c ->
  exists wire,
    rs485_encode (Some (node_frame c (r_value res))) true (RS485_MAX_FRAME_PAYLOAD + 8) = Some wire /\
    let out := send_frame nd c res w in
    (frame_sent res = false -> f wire w = (frame_sent out.1.1, out.2)) /\
    r_valid out.1.1 = r_valid res /\ r_value out.1.1 = r_value res.
Proof.
  intros Hf Hc. destruct (node_frame_encodes c (r_value res) Hc) as [wire Henc].
  exists wire. split; [exact Henc|]. unfold send_frame. rewrite created_frame, Henc, Hf.
  destruct (f wire w) as [[] w'] eqn:Hs; cbn; auto. split; [intros ->; reflexivity|auto].
Qed.

(** One round with a send function: what it sends, if anything. *)
Lemma round_spec nd cfg hw auth w f :
  s_send_fn nd = Some f ->
  (forall c, edge_config_get cfg = Some c -> wf_config c) ->
  let '(res, nd', w') := edge_node_read_and_send nd cfg hw auth w in
  (r_valid res = true <-> may_send nd auth /\ exists c raw, accepted cfg hw c raw) /\
  (r_valid res = false -> w' = w /\ frame_sent res = false) /\
  (forall c raw, r_valid res = true -> accepted cfg hw c raw ->
     r_value res = physical c raw /\
     exists wire, rs485_encode (Some (node_frame c (physical c raw))) true (RS485_MAX_FRAME_PAYLOAD + 8) = Some wire /\
       f wire w = (frame_sent res, w')).
Proof.
  intros Hf Hwf. unfold edge_node_read_and_send.
  cbn [s_auth_disabled_test_only s_auth_ctx set_field].
  destruct (negb (s_auth_disabled_test_only nd) && _) eqn:Hg.
  { assert (~ may_send nd auth) as Hno by (rewrite <- gate_spec; congruence).
    split; [split; [discriminate|tauto]|split; [auto|discriminate]]. }
  apply gate_spec in Hg.
  assert (forall c raw, accepted cfg hw c raw -> edge_config_get cfg = Some c) as Hget by (intros c raw H; apply H).
  destruct (edge_config_get cfg) as [c|] eqn:Hc.
  2: { split; [split; [discriminate|]|split; [auto|discriminate]].
       intros (_ & c & raw & Ha). apply Hget in Ha. discriminate. }
  specialize (Hwf c eq_refl).
  destruct (sensor_driver.sensor_driver_find (active_driver c)) as [d|] eqn:Hd.
  2: { split; [split; [discriminate|]|split; [auto|discriminate]].
       intros (_ & c' & raw & [Hc' (d & Hd' & _)]). rewrite Hc in Hc'. congruence. }
  destruct (sensor_driver.read d hw) as [raw ok] eqn:Hr. cbn [sensor_driver.valid sensor_driver.value].
  assert (forall c' raw', accepted cfg hw c' raw' ->
            c' = c /\ raw' = raw /\ ok = true /\ sensor_driver.validate d raw = true) as Hacc.
  { intros c' raw' [Hc' (d' & Hd' & Hr' & Hv')]. rewrite Hc in Hc'. injection Hc' as <-.
    rewrite Hd in Hd'. injection Hd' as <-. rewrite Hr in Hr'. injection Hr' as -> ->. auto. }
  destruct ok; cbn [negb].
  2: { split; [split; [discriminate|]|split; [auto|discriminate]].
       intros (_ & c' & raw' & Ha). apply Hacc in Ha. destruct Ha as (_ & _ & ? & _). discriminate. }
  destruct (sensor_driver.validate d raw) eqn:Hv; cbn [negb].
  2: { split; [split; [discriminate|]|split; [auto|discriminate]].
       intros (_ & c' & raw' & Ha). apply Hacc in Ha. destruct Ha as (_ & _ & _ & ?). discriminate. }
  fold (physical c raw).
  set (nd' := set_field _ (set_field _ nd)). set (res := set_field true _).
  assert (s_send_fn nd' = Some f) as Hf' by exact Hf.
  assert (r_valid res = true /\ r_value res = physical c raw /\ frame_sent res = false)
    as (Hrv & Hrp & Hrf) by auto.
  clearbody nd' res.
  assert (accepted cfg hw c raw) as Ha by (split; eauto 10).
  destruct (send_frame_spec nd' c res w f Hf' Hwf) as (wire & Henc & Hs & Hsv & Hsr).
  destruct (send_frame nd' c res w) as [[res' nd''] w']. cbn [fst snd] in Hs, Hsv, Hsr. specialize (Hs Hrf).
  rewrite Hsv, Hsr, Hrv, Hrp. rewrite Hrp in Henc.
  split; [split; [eauto|reflexivity]|]. split; [discriminate|].
  intros c' raw' _ Ha'. apply Hacc in Ha' as (-> & -> & _). split; [reflexivity|]. eauto.
Qed.

(** ** The counters *)

(** Every read is valid or invalid, every valid read was sent or failed. *)
Definition balanced (s : EdgeNodeStats_t) : Prop :=
  reads_total s = u32 (reads_valid s + reads_invalid s) /\
  u32 (reads_valid s) = u32 (frames_sent s + frames_failed s).

Lemma count_invalid_balanced nd s :
  balanced s -> s_stats nd = s <| reads_total := u32 (reads_total s + 1) |> ->
  balanced (s_stats (count_invalid nd)).
Proof. intros [H1 H2] E. unfold count_invalid. cbn. rewrite E. split; cbn; [words|exact H2]. Qed.

Lemma send_frame_balanced nd c res w s :
  balanced s ->
  s_stats nd = s <| reads_total := u32 (reads_total s + 1) |> <| reads_valid := u32 (reads_valid s + 1) |> ->
  balanced (s_stats (send_frame nd c res w).1.2).
Proof.
  intros [H1 H2] E. unfold send_frame.
  destruct (rs485_encode _ _ _) as [wire|]; [destruct (s_send_fn nd) as [f|]; [destruct (f wire w) as [[] w']|]|];
    cbn; rewrite E; split; cbn; words.
Qed.

Lemma round_balanced nd cfg hw auth w :
  balanced (s_stats nd) -> balanced (s_stats (edge_node_read_and_send nd cfg hw auth w).1.2).
Proof.
  intros Hb. unfold edge_node_read_and_send.
  destruct (_ && _); [apply (count_invalid_balanced _ _ Hb); reflexivity|].
  destruct (edge_config_get cfg) as [c|]; [|apply (count_invalid_balanced _ _ Hb); reflexivity].
  destruct (sensor_driver.sensor_driver_find _) as [d|]; [|apply (count_invalid_balanced _ _ Hb); reflexivity].
  destruct (negb (sensor_driver.valid _)); [apply (count_invalid_balanced _ _ Hb); reflexivity|].
  destruct (negb (sensor_driver.validate _ _)); [apply (count_invalid_balanced _ _ Hb); reflexivity|].
  apply (send_frame_balanced _ _ _ _ _ Hb). reflexivity.
Qed.

(** One round of the node: the hardware and the authentication context as they
    are at that moment. *)
Definition rounds nd cfg w (l : list (sensor_driver.hardware * EdgeAuthContext_t)) : node W * W :=
  fold_left (fun '(nd, w) '(hw, auth) =>
               let '(_, nd, w) := edge_node_read_and_send nd cfg hw auth w in (nd, w)) l (nd, w).

(** ** Properties *)

(** C10. What a round sends.  It produces a valid reading exactly when the node is
    allowed to send (its context is authenticated, or it runs with the testing
    sentinel), it is provisioned, its driver is registered and the driver reads
    and accepts a value; otherwise nothing reaches the link.  A valid reading is
    sent as one frame, which the gateway's parser turns back into the addresses
    of the configuration and a payload of node, metric and the four bytes of the
    scaled value, whatever follows it on the wire. *)
Theorem frame_reaches_gateway nd cfg hw auth w f out rest :
  s_send_fn nd = Some f -> (forall c, edge_config_get cfg = Some c -> wf_config c) ->
  let '(res, nd', w') := edge_node_read_and_send nd cfg hw auth w in
  (r_valid res = true <-> may_send nd auth /\ exists c raw, accepted cfg hw c raw) /\
  (r_valid res = false -> w' = w /\ frame_sent res = false) /\
  (forall c raw, r_valid res = true -> accepted cfg hw c raw ->
     r_value res = physical c raw /\
     exists wire, f wire w = (frame_sent res, w') /\
       rs485_parse (Some (wire ++ rest)) (Some out) =
       (RS485_OK, Some (mk_frame (gw_dest_addr c) (edge_config.node_id c) 6
                          (([edge_config.node_id c; metric_id c] ++ le_bytes 4 (physical c raw)) ++
                           drop 6 (rs485_protocol.payload out))))).
Proof.
  intros Hf Hwf. pose proof (round_spec nd cfg hw auth w f Hf Hwf) as H.
  destruct (edge_node_read_and_send nd cfg hw auth w) as [[res nd'] w'].
  destruct H as (Hiff & Hno & Hyes). split; [exact Hiff|]. split; [exact Hno|].
  intros c raw Hv Ha. destruct (Hyes c raw Hv Ha) as (Hval & wire & Henc & Hs).
  split; [exact Hval|]. exists wire. split; [exact Hs|].
  assert (wf_config c) as Hc by (apply Hwf, Ha).
  rewrite (rs485_protocol.parse_encode _ out _ wire rest (node_frame_wf c (physical c raw) Hc) Henc).
  unfold node_frame. cbn [rs485_protocol.dest_addr rs485_protocol.src_addr rs485_protocol.payload_len
    rs485_protocol.payload]. change (Z.to_nat 6) with 6%nat.
  rewrite take_app_length'; [reflexivity|]. unfold frame_payload. rewrite length_app, le_bytes_length. reflexivity.
Qed.

(** Over any number of rounds from start-up, with the hardware and the
    authentication changing in between, the counters balance modulo 2^32: reads
    are valid or invalid, and valid reads were sent or failed. *)
Theorem stats_balance send_fn a cfg w l :
  balanced (edge_node_get_stats (rounds (edge_node_init send_fn a) cfg w l).1).
Proof.
  assert (balanced (s_stats (edge_node_init send_fn a))) as Hb by (destruct a; split; reflexivity).
  revert Hb. generalize (edge_node_init send_fn a) as nd. revert w. unfold rounds, edge_node_get_stats.
  induction l as [|[hw auth] l IH]; intros w nd Hb; [exact Hb|]. cbn [fold_left].
  pose proof (round_balanced nd cfg hw auth w Hb) as H.
  destruct (edge_node_read_and_send nd cfg hw auth w) as [[res nd'] w']. apply IH, H.
Qed.

End node.

(** ** The theorem on a concrete node *)

(** A link that keeps the last frame. *)
Definition demo_link : node (list Z) := edge_node_init (Some (fun wire _ => (true, wire))) AuthCtx.

Definition demo_edge_cfg : edge_config.state (list Z) :=
  mk_state (demo_config <| valid := true |>) None true.

Definition demo_auth (s : edge_attestation.EdgeAuthState_t) : EdgeAuthContext_t :=
  edge_attestation.mk_ctx 7 (zeros 32) true s.

Lemma frame_reaches_gateway_witness :
  let '(res, _, wire) := edge_node_read_and_send demo_link demo_edge_cfg sensor_driver.initial
                           (demo_auth EDGE_AUTH_AUTHENTICATED) [] in
  r_valid res = true /\ frame_sent res = true /\
  (rs485_parse (Some wire) (Some stack_frame)).1 = RS485_OK.
Proof.
  pose proof (frame_reaches_gateway demo_link demo_edge_cfg sensor_driver.initial
                (demo_auth EDGE_AUTH_AUTHENTICATED) [] _ stack_frame [] eq_refl) as H.
  destruct (edge_node_read_and_send _ _ _ _ _) as [[res nd] wire].
  assert (accepted demo_edge_cfg sensor_driver.initial (demo_config <| valid := true |>) (lit 512)) as Ha.
  { split; [reflexivity|]. exists sensor_driver.s_analog_driver. repeat split; vm_compute; reflexivity. }
  destruct H as (Hiff & _ & Hyes).
  { intros c [= <-]. split; unfold is_u8; cbn; lia. }
  assert (r_valid res = true) as Hv by (apply Hiff; split; [right; split; reflexivity|eauto]).
  split; [exact Hv|]. destruct (Hyes _ _ Hv Ha) as (_ & wire' & Hs & Hp).
  rewrite app_nil_r in Hp. injection Hs as Hs <-. split; [congruence|]. rewrite Hp. reflexivity.
Defined.

Example unauthenticated_edge_silent :
  (edge_node_read_and_send demo_link demo_edge_cfg sensor_driver.initial
     (demo_auth edge_attestation.EDGE_AUTH_IDLE) []).2 = [].
Proof. reflexivity. Qed.

End edge_node.
