(* ===== verification/Zigbee.v ===== *)
(** The Zigbee link (firmware/shared/zigbee_handler.c): the network state
    machine and the APS frame, over the file's loopback radio. *)

From S2P Require Import Prelude.

Module zigbee_handler.

Definition ZIGBEE_MAX_PAYLOAD : Z := 72.
Definition ZIGBEE_SHORT_ADDR_INVALID : Z := 0xFFFF.
Definition ZIGBEE_CHANNEL_DEFAULT : Z := 15.
Definition ZIGBEE_APS_OVERHEAD : Z := 7.
Definition ZIGBEE_PROFILE_HOME : Z := 0x0104.
Definition ZIGBEE_CLUSTER_DEFAULT : Z := 0x0000.

Record ZigbeeNodeInfo_t := mk_info {
  short_addr : Z;
  extended_addr : Z;
  endpoint : Z;
  node_id : Z;
  joined : bool }.

#[export] Instance eta_info : Eta ZigbeeNodeInfo_t := fun r =>
  mk_info (short_addr r) (extended_addr r) (endpoint r) (node_id r) (joined r).

Record ZigbeeFrame_t := mk_frame {
  src_addr : Z;
  dest_addr : Z;
  src_endpoint : Z;
  dest_endpoint : Z;
  payload_len : Z;
  payload : list Z }.

#[export] Instance eta_frame : Eta ZigbeeFrame_t := fun r =>
  mk_frame (src_addr r) (dest_addr r) (src_endpoint r) (dest_endpoint r) (payload_len r) (payload r).

Inductive ZigbeeResult_t :=
| ZIGBEE_OK
| ZIGBEE_ERR_NOT_JOINED
| ZIGBEE_ERR_SEND_FAILED
| ZIGBEE_ERR_NO_DATA
| ZIGBEE_ERR_PARAM_NULL.

#[export] Instance ZigbeeResult_eq_dec : EqDecision ZigbeeResult_t.
Proof. solve_decision. Defined.

Inductive ZigbeeInternalState_t :=
| ZIGBEE_STATE_UNINIT
| ZIGBEE_STATE_IDLE
| ZIGBEE_STATE_JOINING
| ZIGBEE_STATE_JOINED
| ZIGBEE_STATE_LEAVE_PENDING.

#[export] Instance ZigbeeInternalState_eq_dec : EqDecision ZigbeeInternalState_t.
Proof. solve_decision. Defined.

Record state := mk_state {
  g_state : ZigbeeInternalState_t;
  g_node_info : ZigbeeNodeInfo_t;
  g_channel : Z;
  g_initialised : bool;
  g_aps_sequence : Z;
  g_rx_buffer : ZigbeeFrame_t;
  g_rx_pending : bool }.

#[export] Instance eta_state : Eta state := fun r =>
  mk_state (g_state r) (g_node_info r) (g_channel r) (g_initialised r) (g_aps_sequence r)
    (g_rx_buffer r) (g_rx_pending r).

Definition zero_info : ZigbeeNodeInfo_t := mk_info 0 0 0 0 false.
Definition zero_frame : ZigbeeFrame_t := mk_frame 0 0 0 0 0 (zeros 72).

Definition initial : state :=
  mk_state ZIGBEE_STATE_UNINIT zero_info ZIGBEE_CHANNEL_DEFAULT false 0 zero_frame false.

(** ** The APS frame *)

(** The frame, and the counter's increment; [None] is the length 0 of an error. *)
Definition zigbee_build_aps_frame (st : state) (out : bool) (src_ep dest_ep : Z) (data : option (list Z)) (len : Z)
  : option (list Z) * state :=
  if negb out then (None, st)
  else if ZIGBEE_MAX_PAYLOAD - ZIGBEE_APS_OVERHEAD <? len then (None, st)
  else
    let header := [dest_ep; src_ep;
                   Z.land ZIGBEE_CLUSTER_DEFAULT 0xFF; Z.land (Z.shiftr ZIGBEE_CLUSTER_DEFAULT 8) 0xFF;
                   Z.land ZIGBEE_PROFILE_HOME 0xFF; Z.land (Z.shiftr ZIGBEE_PROFILE_HOME 8) 0xFF;
                   g_aps_sequence st] in
    let body := match data with
                | Some d => if 0 <? len then take (Z.to_nat len) d else []
                | None => []
                end in
    (Some (header ++ body), st <| g_aps_sequence := u8 (g_aps_sequence st + 1) |>).

(** The caller's frame after the parse; [None] is [false]. *)
Definition zigbee_parse_aps_frame (input : option (list Z)) (out_frame : option ZigbeeFrame_t)
  : option ZigbeeFrame_t :=
  match input, out_frame with
  | Some data, Some f =>
      let in_len := Z.of_nat (length data) in
      if in_len <? ZIGBEE_APS_OVERHEAD then None
      else
        let plen := u8 (in_len - 7) in
        if ZIGBEE_MAX_PAYLOAD <? plen then None
        else
          Some (f <| dest_endpoint := nth 0 data 0 |> <| src_endpoint := nth 1 data 0 |>
                  <| payload_len := plen |>
                  <| payload := blit (take (Z.to_nat plen) (drop 7 data)) (payload f) |>)
  | _, _ => None
  end.

(** ** The loopback radio *)

Definition mock_radio_send (st : state) (dest : Z) (frame : option (list Z)) : bool * state :=
  match frame with
  | None | Some [] => (false, st)
  | Some f =>
      if Z.of_nat (length f) <=? ZIGBEE_MAX_PAYLOAD + ZIGBEE_APS_OVERHEAD then
        match zigbee_parse_aps_frame (Some f)
                (Some (zero_frame <| src_addr := 0 |> <| dest_addr := dest |>)) with
        | Some rx => (true, st <| g_rx_buffer := rx |> <| g_rx_pending := true |>)
        | None => (true, st)
        end
      else (true, st)
  end.

(** The frame copied out, if there is one. *)
Definition mock_radio_receive (st : state) (out : bool) : option ZigbeeFrame_t * state :=
  if negb out then (None, st)
  else if negb (g_rx_pending st) then (None, st)
  else (Some (g_rx_buffer st), st <| g_rx_pending := false |>).

(** ** Operations *)

Definition zigbee_init (st : state) (channel : Z) : bool * state :=
  (true, st <| g_node_info := zero_info |> <| g_state := ZIGBEE_STATE_IDLE |> <| g_rx_pending := false |>
            <| g_aps_sequence := 0 |>
            <| g_channel := if (11 <=? channel) && (channel <=? 26) then channel else ZIGBEE_CHANNEL_DEFAULT |>
            <| g_initialised := true |>).

Definition zigbee_join (st : state) (out : bool) : ZigbeeResult_t * option ZigbeeNodeInfo_t * state :=
  if negb (g_initialised st) then (ZIGBEE_ERR_PARAM_NULL, None, st)
  else if negb out then (ZIGBEE_ERR_PARAM_NULL, None, st)
  else if negb (bool_decide (g_state st = ZIGBEE_STATE_IDLE)) then (ZIGBEE_ERR_SEND_FAILED, None, st)
  else
    let st := st <| g_state := ZIGBEE_STATE_JOINING |> in
    let info := mk_info 0x1234 0x00124B0014D2A1B2 1 1 true in
    let st := st <| g_node_info := info |> <| g_state := ZIGBEE_STATE_JOINED |> in
    (ZIGBEE_OK, Some info, st).

Definition zigbee_leave (st : state) : ZigbeeResult_t * state :=
  if negb (g_initialised st) then (ZIGBEE_ERR_NOT_JOINED, st)
  else if negb (bool_decide (g_state st = ZIGBEE_STATE_JOINED)) then (ZIGBEE_ERR_NOT_JOINED, st)
  else
    let st := st <| g_state := ZIGBEE_STATE_LEAVE_PENDING |> in
    (ZIGBEE_OK, st <| g_node_info := zero_info <| short_addr := ZIGBEE_SHORT_ADDR_INVALID |> |>
                   <| g_state := ZIGBEE_STATE_IDLE |> <| g_rx_pending := false |>).

Definition zigbee_send (st : state) (dest dest_ep : Z) (data : option (list Z)) : ZigbeeResult_t * state :=
  if negb (g_initialised st) then (ZIGBEE_ERR_PARAM_NULL, st)
  else if negb (bool_decide (g_state st = ZIGBEE_STATE_JOINED)) then (ZIGBEE_ERR_NOT_JOINED, st)
  else
    match data with
    | None => (ZIGBEE_ERR_PARAM_NULL, st)
    | Some d =>
        let len := Z.of_nat (length d) in
        if ZIGBEE_MAX_PAYLOAD <? len then (ZIGBEE_ERR_PARAM_NULL, st)
        else
          let '(frame, st) := zigbee_build_aps_frame st true (endpoint (g_node_info st)) dest_ep data len in
          match frame with
          | None => (ZIGBEE_ERR_PARAM_NULL, st)
          | Some _ =>
              let '(ok, st) := mock_radio_send st dest frame in
              (if ok : bool then ZIGBEE_OK else ZIGBEE_ERR_SEND_FAILED, st)
          end
    end.

Definition zigbee_receive (st : state) (out : bool) : ZigbeeResult_t * option ZigbeeFrame_t * state :=
  if negb (g_initialised st) then (ZIGBEE_ERR_PARAM_NULL, None, st)
  else if negb out then (ZIGBEE_ERR_PARAM_NULL, None, st)
  else if negb (bool_decide (g_state st = ZIGBEE_STATE_JOINED)) then (ZIGBEE_ERR_NOT_JOINED, None, st)
  else
    let '(f, st) := mock_radio_receive st out in
    match f with
    | Some _ => (ZIGBEE_OK, f, st)
    | None => (ZIGBEE_ERR_NO_DATA, None, st)
    end.

Definition zigbee_is_joined (st : state) : bool := bool_decide (g_state st = ZIGBEE_STATE_JOINED).

(** ** The link as a mailbox *)

(** Off, idle, or joined with at most one message waiting: the destination
    address and endpoint, and the data. *)
Inductive link :=
| Off
| Idle
| Joined (mail : option (Z * Z * list Z)).

Inductive call :=
| Init (channel : Z)
| Join
| Leave
| Send (dest dest_ep : Z) (data : list Z)
| Receive.

Inductive answer :=
| Done (r : ZigbeeResult_t)
| Message (f : ZigbeeFrame_t).

(** The message a receiver gets. *)
Definition frame_of (dest dest_ep : Z) (data : list Z) : ZigbeeFrame_t :=
  mk_frame 0 dest 1 dest_ep (Z.of_nat (length data)) (data ++ zeros (72 - length data)).

Definition step (st : state) (c : call) : answer * state :=
  match c with
  | Init ch => let '(_, st) := zigbee_init st ch in (Done ZIGBEE_OK, st)
  | Join => let '(r, _, st) := zigbee_join st true in (Done r, st)
  | Leave => let '(r, st) := zigbee_leave st in (Done r, st)
  | Send dest ep data => let '(r, st) := zigbee_send st dest ep (Some data) in (Done r, st)
  | Receive =>
      let '(r, f, st) := zigbee_receive st true in
      (match f with Some f => Message f | None => Done r end, st)
  end.

Definition spec_step (l : link) (c : call) : answer * link :=
  match c, l with
  | Init _, _ => (Done ZIGBEE_OK, Idle)
  | Join, Off => (Done ZIGBEE_ERR_PARAM_NULL, Off)
  | Join, Idle => (Done ZIGBEE_OK, Joined None)
  | Join, Joined _ => (Done ZIGBEE_ERR_SEND_FAILED, l)
  | Leave, Joined _ => (Done ZIGBEE_OK, Idle)
  | Leave, _ => (Done ZIGBEE_ERR_NOT_JOINED, l)
  | Send dest ep data, Joined _ =>
      if (length data <=? 65)%nat then (Done ZIGBEE_OK, Joined (Some (dest, ep, data)))
      else (Done ZIGBEE_ERR_PARAM_NULL, l)
  | Receive, Joined (Some (dest, ep, data)) => (Message (frame_of dest ep data), Joined None)
  | Receive, Joined None => (Done ZIGBEE_ERR_NO_DATA, l)
  | (Send _ _ _ | Receive), Off => (Done ZIGBEE_ERR_PARAM_NULL, l)
  | (Send _ _ _ | Receive), Idle => (Done ZIGBEE_ERR_NOT_JOINED, l)
  end.

Fixpoint run {S} (next : S -> call -> answer * S) (s : S) (cs : list call) : list answer * S :=
  match cs with
  | [] => ([], s)
  | c :: cs =>
      let '(a, s) := next s c in
      let '(out, s) := run next s cs in (a :: out, s)
  end.

(** The representation: the flags of each phase, a legal channel once it is
    initialised, the waiting message in the receive buffer. *)
Definition represents (st : state) (l : link) : Prop :=
  is_u8 (g_aps_sequence st) /\ 11 <= g_channel st <= 26 /\
  match l with
  | Off => g_initialised st = false /\ g_state st = ZIGBEE_STATE_UNINIT
  | Idle => g_initialised st = true /\ g_state st = ZIGBEE_STATE_IDLE /\ g_rx_pending st = false
  | Joined mail =>
      g_initialised st = true /\ g_state st = ZIGBEE_STATE_JOINED /\ endpoint (g_node_info st) = 1 /\
      match mail with
      | None => g_rx_pending st = false
      | Some (dest, ep, data) =>
          g_rx_pending st = true /\ g_rx_buffer st = frame_of dest ep data /\ (length data <= 65)%nat
      end
  end.

Lemma initial_represents : represents initial Off.
Proof. split; [unfold is_u8; cbn; lia|]. split; [cbn; unfold ZIGBEE_CHANNEL_DEFAULT; lia|]. split; reflexivity. Qed.

(** What the loopback radio puts into the receive buffer. *)
Lemma loopback dest ep seq data :
  (length data <= 65)%nat ->
  zigbee_parse_aps_frame
    (Some ([ep; 1; 0; 0; 4; 1; seq] ++ data)) (Some (zero_frame <| src_addr := 0 |> <| dest_addr := dest |>))
  = Some (frame_of dest ep data).
Proof.
  intros Hl. unfold zigbee_parse_aps_frame, ZIGBEE_APS_OVERHEAD, ZIGBEE_MAX_PAYLOAD, frame_of.
  rewrite length_app. cbn [length].
  replace (u8 (Z.of_nat (7 + length data) - 7)) with (Z.of_nat (length data)) by words.
  destruct (Z.ltb_spec (Z.of_nat (7 + length data)) 7); [lia|].
  destruct (Z.ltb_spec 72 (Z.of_nat (length data))); [lia|].
  rewrite Nat2Z.id. change (drop 7 ([ep; 1; 0; 0; 4; 1; seq] ++ data)) with data.
  rewrite take_ge by lia. unfold blit, zero_frame, zeros. cbn [payload set_field].
  rewrite drop_replicate. reflexivity.
Qed.

Lemma send_joined st dest ep data mail :
  represents st (Joined mail) -> (length data <= 65)%nat ->
  let '(r, st') := zigbee_send st dest ep (Some data) in
  r = ZIGBEE_OK /\ represents st' (Joined (Some (dest, ep, data))).
Proof.
  intros (Hq & Hch & Hi & Hs & He & _) Hl. unfold zigbee_send. rewrite Hi, Hs. cbn [negb].
  rewrite bool_decide_eq_true_2 by reflexivity. cbn [negb].
  unfold zigbee_build_aps_frame, ZIGBEE_MAX_PAYLOAD, ZIGBEE_APS_OVERHEAD.
  destruct (Z.ltb_spec 72 (Z.of_nat (length data))); [lia|]. cbn [negb].
  destruct (Z.ltb_spec (72 - 7) (Z.of_nat (length data))); [lia|]. rewrite He.
  replace (if 0 <? Z.of_nat (length data) then take (Z.to_nat (Z.of_nat (length data))) data else []) with data.
  2: { rewrite Nat2Z.id. destruct data; [reflexivity|]. symmetry. apply take_ge. lia. }
  change (Z.land ZIGBEE_CLUSTER_DEFAULT 255) with 0. change (Z.land (Z.shiftr ZIGBEE_CLUSTER_DEFAULT 8) 255) with 0.
  change (Z.land ZIGBEE_PROFILE_HOME 255) with 4. change (Z.land (Z.shiftr ZIGBEE_PROFILE_HOME 8) 255) with 1.
  unfold mock_radio_send. rewrite (loopback dest ep (g_aps_sequence st) data Hl).
  cbn [app]. cbn [length]. unfold ZIGBEE_MAX_PAYLOAD, ZIGBEE_APS_OVERHEAD.
  destruct (Z.leb_spec (Z.of_nat (S (S (S (S (S (S (S (length data))))))))) (72 + 7)); [|lia].
  cbv beta iota zeta. split; [reflexivity|]. split; [cbn; apply u8_range|]. split; [exact Hch|]. auto 10.
Qed.

Lemma send_oversized st dest ep data mail :
  represents st (Joined mail) -> (65 < length data)%nat ->
  zigbee_send st dest ep (Some data) = (ZIGBEE_ERR_PARAM_NULL, st).
Proof.
  intros (_ & _ & Hi & Hs & _) Hl. unfold zigbee_send. rewrite Hi, Hs. cbn [negb].
  rewrite bool_decide_eq_true_2 by reflexivity. cbn [negb].
  destruct (ZIGBEE_MAX_PAYLOAD <? _); [reflexivity|].
  unfold zigbee_build_aps_frame, ZIGBEE_MAX_PAYLOAD, ZIGBEE_APS_OVERHEAD. cbn [negb].
  destruct (Z.ltb_spec (72 - 7) (Z.of_nat (length data))); [reflexivity|lia].
Qed.

Lemma zigbee_step_refines st l c :
  represents st l ->
  (step st c).1 = (spec_step l c).1 /\ represents (step st c).2 (spec_step l c).2.
Proof.
  intros Hrep. destruct c as [ch| | |dest ep data|].
  - split; [reflexivity|]. destruct Hrep as (Hq & Hch & _). cbn. unfold ZIGBEE_CHANNEL_DEFAULT.
    split; [cbn; unfold is_u8; lia|]. split; [|auto]. cbn.
    destruct (Z.leb_spec 11 ch), (Z.leb_spec ch 26); cbn; lia.
  - unfold step, zigbee_join. destruct l as [| |mail]; pose proof Hrep as (Hq & Hch & Hi & Hr); rewrite Hi; cbn [negb].
    + split; [reflexivity|exact Hrep].
    + destruct Hr as [Hs Hp]. rewrite Hs. split; [reflexivity|]. split; [exact Hq|]. split; [exact Hch|]. cbn. auto.
    + destruct Hr as [Hs Hr]. rewrite Hs. split; [reflexivity|exact Hrep].
  - unfold step, zigbee_leave. destruct l as [| |mail]; pose proof Hrep as (Hq & Hch & Hi & Hr); rewrite Hi; cbn [negb].
    + split; [reflexivity|exact Hrep].
    + destruct Hr as [Hs Hp]. rewrite Hs. split; [reflexivity|exact Hrep].
    + destruct Hr as [Hs Hr]. rewrite Hs. split; [reflexivity|]. split; [exact Hq|]. split; [exact Hch|]. cbn. auto.
  - unfold step. destruct l as [| |mail].
    1, 2: pose proof Hrep as (Hq & Hch & Hi & Hr); unfold zigbee_send; rewrite Hi; cbn [negb].
    + split; [reflexivity|exact Hrep].
    + destruct Hr as [Hs Hp]. rewrite Hs. split; [reflexivity|exact Hrep].
    + cbn [spec_step]. destruct (Nat.leb_spec (length data) 65) as [Hl|Hl].
      * pose proof (send_joined st dest ep data mail Hrep Hl) as H.
        destruct (zigbee_send st dest ep (Some data)) as [r st']. destruct H as [-> H]. auto.
      * rewrite (send_oversized st dest ep data mail Hrep Hl). auto.
  - unfold step, zigbee_receive. destruct l as [| |mail];
      pose proof Hrep as (Hq & Hch & Hi & Hr); rewrite Hi; cbn [negb].
    + split; [reflexivity|exact Hrep].
    + destruct Hr as [Hs Hp]. rewrite Hs. split; [reflexivity|exact Hrep].
    + destruct Hr as (Hs & He & Hm). rewrite Hs, bool_decide_eq_true_2 by reflexivity. cbn [negb].
      unfold mock_radio_receive. destruct mail as [[[dest ep] data]|].
      * destruct Hm as (-> & Hb & Hl). cbn [negb fst snd]. rewrite Hb. split; [reflexivity|].
        split; [exact Hq|]. split; [exact Hch|]. cbn. auto.
      * rewrite Hm. cbn [negb]. split; [reflexivity|exact Hrep].
Qed.

Lemma zigbee_refines_link cs :
  (run step initial cs).1 = (run spec_step Off cs).1 /\
  represents (run step initial cs).2 (run spec_step Off cs).2.
Proof.
  pose proof initial_represents as Hrep. revert Hrep. generalize initial Off.
  induction cs as [|c cs IH]; intros st l Hrep; cbn [run]; [auto|].
  destruct (zigbee_step_refines st l c Hrep) as [Ha Hr].
  destruct (step st c) as [a st'], (spec_step l c) as [a' l']. cbn [fst snd] in Ha, Hr. subst a'.
  specialize (IH st' l' Hr). destruct (run step st' cs), (run spec_step l' cs). cbn [fst snd] in *.
  destruct IH as [-> IH]. auto.
Qed.

(** ** Properties *)

(** C16. From power-up, any sequence of calls gets the answers of a mailbox: a node
    sends and receives only between a join and a leave, a message of at most 65
    bytes is received once and unchanged with its addresses, a second message
    sent before the first was received replaces it, and leaving drops it.  The
    channel stays between 11 and 26. *)
Theorem zigbee_refines_mailbox cs :
  (run step initial cs).1 = (run spec_step Off cs).1 /\
  represents (run step initial cs).2 (run spec_step Off cs).2.
Proof. apply zigbee_refines_link. Qed.

(** The documented limit is 72 bytes, but the header must fit into it too: a
    joined node refuses payloads of 66 to 72 bytes as if they were NULL. *)
Theorem last_seven_bytes_refused st dest ep data mail :
  represents st (Joined mail) -> (66 <= length data <= 72)%nat ->
  zigbee_send st dest ep (Some data) = (ZIGBEE_ERR_PARAM_NULL, st).
Proof. intros Hrep Hl. apply (send_oversized st dest ep data mail Hrep). lia. Qed.

(** ** The theorem on a concrete session *)

Example mailbox_demo :
  (run spec_step Off [Receive; Init 30; Join; Send 2 9 [1; 2]; Send 2 9 [3]; Receive; Receive; Leave; Receive]).1
  = [Done ZIGBEE_ERR_PARAM_NULL; Done ZIGBEE_OK; Done ZIGBEE_OK; Done ZIGBEE_OK; Done ZIGBEE_OK;
     Message (frame_of 2 9 [3]); Done ZIGBEE_ERR_NO_DATA; Done ZIGBEE_OK; Done ZIGBEE_ERR_NOT_JOINED].
Proof. reflexivity. Qed.

Lemma last_seven_bytes_refused_witness :
  let st := (run step initial [Init 15; Join]).2 in
  zigbee_send st 2 9 (Some (replicate 70 1)) = (ZIGBEE_ERR_PARAM_NULL, st).
Proof.
  intros st. apply (last_seven_bytes_refused st 2 9 (replicate 70 1) None).
  - apply (zigbee_refines_link [Init 15; Join]).
  - rewrite length_replicate. lia.
Defined.

End zigbee_handler.
