(* ===== verification/Text.v ===== *)
(** The C library's text functions the firmware uses: [%lu] and [%llu]
    conversions, [snprintf] into a bounded buffer, [strchr] and [strtof]. *)

From S2P Require Import Prelude Float32.
From Stdlib Require Import SpecFloat.
Import float32.

Module text.

(** ** Decimal numbers *)

Definition digit (d : Z) : Z := 48 + d.
Definition is_digit (c : Z) : bool := (48 <=? c) && (c <=? 57).
Definition digit_value (c : Z) : Z := c - 48.

(** The digits of [n], most significant first; [fuel] bounds their number, and
    [n] itself has fewer digits than [n + 1]. *)
Fixpoint digits_aux (fuel : nat) (n : Z) (acc : list Z) : list Z :=
  match fuel with
  | O => acc
  | S fuel =>
      let acc := digit (n mod 10) :: acc in
      if n / 10 =? 0 then acc else digits_aux fuel (n / 10) acc
  end.

(** [%lu] of an unsigned value below 2^64: twenty digits are enough. *)
Definition print_u (n : Z) : list Z := digits_aux 20 n [].

Definition value_of_digits (l : list Z) : Z := fold_left (fun v c => v * 10 + digit_value c) l 0.

(** ** Buffers *)

(** [snprintf(buf, size, ...)] of a text: the bytes before the NUL that fit, and
    the length the whole text would have had. *)
Definition snprintf (size : Z) (s : list Z) : list Z * Z :=
  (take (Z.to_nat (size - 1)) s, Z.of_nat (length s)).

(** [strchr(s, c)] for [c <> 0]: the text before the character and after it. *)
Fixpoint split_at (c : Z) (s : list Z) : option (list Z * list Z) :=
  match s with
  | [] => None
  | b :: s => if b =? c then Some ([], s)
              else '(pre, post) ← split_at c s; Some (b :: pre, post)
  end.

(** ** [strtof] *)

Definition is_space (c : Z) : bool := (c =? 32) || ((9 <=? c) && (c <=? 13)).

Fixpoint skip_space (s : list Z) : list Z :=
  match s with
  | c :: s' => if is_space c then skip_space s' else s
  | [] => []
  end.

(** The longest prefix of characters of a class, and the rest. *)
Fixpoint span (p : Z -> bool) (s : list Z) : list Z * list Z :=
  match s with
  | c :: s' => if p c then let '(a, b) := span p s' in (c :: a, b) else ([], s)
  | [] => ([], [])
  end.

Definition lower (c : Z) : Z := if (65 <=? c) && (c <=? 90) then c + 32 else c.

(** The literal, ignoring case, at the start of [s]. *)
Definition starts_with (lit s : list Z) : bool := bool_decide (map lower (take (length lit) s) = lit).

Definition take_sign (s : list Z) : bool * list Z :=
  match s with
  | 43 :: s' => (false, s')
  | 45 :: s' => (true, s')
  | _ => (false, s)
  end.

(** Integer digits, and fraction digits after a point. *)
Definition mantissa (p : Z -> bool) (s : list Z) : list Z * list Z * list Z :=
  let '(ip, s) := span p s in
  match s with
  | 46 :: s' => let '(fp, s'') := span p s' in (ip, fp, s'')
  | _ => (ip, [], s)
  end.

(** An exponent introduced by [mark], if digits follow. *)
Definition exponent (mark : Z) (s : list Z) : Z :=
  match s with
  | c :: s' =>
      if lower c =? mark then
        let '(neg, s'') := take_sign s' in
        match (span is_digit s'').1 with
        | [] => 0
        | ds => if neg : bool then - value_of_digits ds else value_of_digits ds
        end
      else 0
  | [] => 0
  end.

Definition is_hex (c : Z) : bool := is_digit c || ((97 <=? lower c) && (lower c <=? 102)).
Definition hex_value (l : list Z) : Z :=
  fold_left (fun v c => v * 16 + (if is_digit c then digit_value c else lower c - 87)) l 0.

(** [m * 10^e], rounded once to the nearest float. *)
Definition decimal (neg : bool) (m e : Z) : spec_float :=
  match m with
  | Zpos p =>
      if 0 <=? e then binary_normalize prec emax (if neg then - (m * 10 ^ e) else m * 10 ^ e) 0 neg
      else
        match 10 ^ (- e) with
        | Zpos q => SFdiv prec emax (S754_finite neg p 0) (S754_finite false q 0)
        | _ => S754_nan
        end
  | _ => S754_zero neg
  end.

Definition binary (neg : bool) (m e : Z) : spec_float :=
  binary_normalize prec emax (if neg then - m else m) e neg.

Definition parse_decimal (neg : bool) (s : list Z) : spec_float :=
  let '(ip, fp, rest) := mantissa is_digit s in
  match ip ++ fp with
  | [] => S754_zero false
  | ds => decimal neg (value_of_digits ds) (exponent 101 rest - Z.of_nat (length fp))
  end.

Definition parse_hex (neg : bool) (s : list Z) : spec_float :=
  let '(ip, fp, rest) := mantissa is_hex s in
  match ip ++ fp with
  | [] => S754_zero neg
  | ds => binary neg (hex_value ds) (exponent 112 rest - 4 * Z.of_nat (length fp))
  end.

Definition strtof (s : list Z) : float :=
  let '(neg, s) := take_sign (skip_space s) in
  encode (if starts_with (cstr "inf") s then S754_infinity neg
          else if starts_with (cstr "nan") s then S754_nan
          else if starts_with (cstr "0x") s then parse_hex neg (drop 2 s)
          else parse_decimal neg s).

Example strtof_23 : strtof (cstr "23.5") = lit_frac 235 10.
Proof. vm_compute. reflexivity. Qed.
Example strtof_e : strtof (cstr " -1.25e2 C") = lit (-125).
Proof. vm_compute. reflexivity. Qed.
Example strtof_tenth : strtof (cstr ".1") = 0x3DCCCCCD.
Proof. vm_compute. reflexivity. Qed.
Example strtof_big : strtof (cstr "1e39") = encode (S754_infinity false).
Proof. vm_compute. reflexivity. Qed.
Example strtof_hex : strtof (cstr "0x1.8p1") = lit 3.
Proof. vm_compute. reflexivity. Qed.
Example strtof_none : strtof (cstr "abc") = 0.
Proof. vm_compute. reflexivity. Qed.

(** ** Lemmas *)

Lemma digits_aux_app fuel n acc : digits_aux fuel n acc = digits_aux fuel n [] ++ acc.
Proof.
  revert n acc. induction fuel as [|fuel IH]; intros n acc; cbn; [reflexivity|].
  destruct (n / 10 =? 0); [reflexivity|].
  rewrite (IH _ (_ :: acc)), (IH _ [_]), <- app_assoc. reflexivity.
Qed.

Lemma value_of_digits_app l c : value_of_digits (l ++ [c]) = value_of_digits l * 10 + digit_value c.
Proof. unfold value_of_digits. rewrite fold_left_app. reflexivity. Qed.

Lemma value_digits_aux fuel n :
  0 <= n < 10 ^ Z.of_nat fuel -> value_of_digits (digits_aux fuel n []) = n.
Proof.
  revert n. induction fuel as [|fuel IH]; intros n Hn.
  - cbn in *. lia.
  - rewrite Nat2Z.inj_succ, Z.pow_succ_r in Hn by lia. cbn [digits_aux].
    destruct (Z.eqb_spec (n / 10) 0) as [E|E].
    + cbn. unfold digit_value, digit. pose proof (Z.div_mod n 10). lia.
    + rewrite digits_aux_app, value_of_digits_app, IH.
      * unfold digit_value, digit. pose proof (Z.div_mod n 10). lia.
      * split; [apply Z.div_pos; lia|apply Z.div_lt_upper_bound; lia].
Qed.

(** A printed number reads back. *)
Lemma value_print_u n : is_u64 n -> value_of_digits (print_u n) = n.
Proof. intros [H1 H2]. apply value_digits_aux. cbn. lia. Qed.

Lemma digits_aux_digits fuel n : 0 <= n -> Forall (fun c => is_digit c = true) (digits_aux fuel n []).
Proof.
  revert n. induction fuel as [|fuel IH]; intros n Hn; cbn [digits_aux]; [constructor|].
  assert (is_digit (digit (n mod 10)) = true) as Hd.
  { unfold is_digit, digit. pose proof (Z.mod_pos_bound n 10). apply andb_true_iff.
    rewrite !Z.leb_le. lia. }
  destruct (n / 10 =? 0); [constructor; auto|]. rewrite digits_aux_app.
  apply Forall_app_2; [apply IH, Z.div_pos; lia|constructor; auto].
Qed.

Lemma span_app p s c rest :
  Forall (fun b => p b = true) s -> p c = false -> span p (s ++ c :: rest) = (s, c :: rest).
Proof.
  intros Hs Hc. induction Hs as [|b s Hb Hs IH]; cbn; [rewrite Hc; reflexivity|].
  rewrite Hb, IH. reflexivity.
Qed.

Lemma digits_aux_length fuel n acc : (length (digits_aux fuel n acc) <= fuel + length acc)%nat.
Proof.
  revert n acc. induction fuel as [|fuel IH]; intros n acc; cbn [digits_aux]; [lia|].
  destruct (n / 10 =? 0); [cbn; lia|]. etransitivity; [apply IH|]. cbn. lia.
Qed.

(** A number below 10^k has at most k digits. *)
Lemma digits_aux_short k fuel n acc :
  0 <= n < 10 ^ Z.of_nat k -> (0 < k)%nat -> (length (digits_aux fuel n acc) <= k + length acc)%nat.
Proof.
  revert fuel n acc. induction k as [|k IH]; intros fuel n acc Hn Hk; [lia|].
  destruct fuel as [|fuel]; cbn [digits_aux]; [lia|].
  destruct (Z.eqb_spec (n / 10) 0) as [E|E]; [cbn; lia|].
  rewrite Nat2Z.inj_succ, Z.pow_succ_r in Hn by lia.
  assert (0 <= n / 10 < 10 ^ Z.of_nat k) as Hn' by (split; [apply Z.div_pos|apply Z.div_lt_upper_bound]; lia).
  destruct k as [|k]; [cbn in Hn'; lia|].
  etransitivity; [apply (IH fuel (n / 10) (_ :: acc) Hn'); lia|]. cbn. lia.
Qed.

Lemma print_u_length n k :
  0 <= n < 10 ^ Z.of_nat k -> (0 < k)%nat -> (length (print_u n) <= k)%nat.
Proof. intros Hn Hk. etransitivity; [apply (digits_aux_short k); assumption|]. cbn. lia. Qed.

Lemma split_at_app c s post : c ∉ s -> split_at c (s ++ c :: post) = Some (s, post).
Proof.
  induction s as [|b s IH]; intros Hn; cbn.
  - rewrite Z.eqb_refl. reflexivity.
  - apply not_elem_of_cons in Hn as [Hb Hn].
    destruct (Z.eqb_spec b c); [congruence|]. rewrite (IH Hn). reflexivity.
Qed.

Lemma split_at_None c s : c ∉ s -> split_at c s = None.
Proof.
  induction s as [|b s IH]; intros Hn; cbn; [reflexivity|]. apply not_elem_of_cons in Hn as [Hb Hn].
  destruct (Z.eqb_spec b c); [congruence|]. rewrite (IH Hn). reflexivity.
Qed.

Lemma digits_aux_grows fuel n acc : (length acc <= length (digits_aux fuel n acc))%nat.
Proof.
  revert n acc. induction fuel as [|fuel IH]; intros n acc; cbn [digits_aux]; [lia|].
  destruct (n / 10 =? 0); [cbn; lia|]. etransitivity; [|apply IH]. cbn. lia.
Qed.

Lemma print_u_nonempty n : (0 < length (print_u n))%nat.
Proof.
  unfold print_u. change 20%nat with (S 19). generalize 19%nat. intros k. cbn [digits_aux].
  destruct (n / 10 =? 0); [cbn; lia|]. eapply Nat.lt_le_trans; [|apply digits_aux_grows]. cbn. lia.
Qed.

End text.
