(* ===== verification/Diagnostics.v ===== *)
(** System diagnostics (firmware/shared/diagnostics.c): named counters, the ring
    of the last 64 changes, and their JSON form. *)

From S2P Require Import Prelude FaultTree Text.
Import fault_tree(DegradationLevel_t, DEGRADE_LEVEL_NORMAL, level_code).
Import text.

Module diagnostics.

Definition DIAG_HISTORY_SIZE : Z := 64.
Definition DIAG_JSON_MAX_SIZE : Z := 2048.

Inductive DiagResult_t :=
| DIAG_OP_OK
| DIAG_OP_ERR_NOT_INIT
| DIAG_OP_ERR_PARAM_NULL
| DIAG_OP_ERR_BUFFER_TOO_SMALL.

#[export] Instance DiagResult_eq_dec : EqDecision DiagResult_t.
Proof. solve_decision. Defined.

Record SystemDiagnostics_t := mk_snapshot {
  uptime_ms : Z;
  free_heap_bytes : Z;
  radio_tx_count : Z;
  radio_rx_count : Z;
  radio_errors : Z;
  attestation_success : Z;
  attestation_failures : Z;
  rule_engine_evaluations : Z;
  rule_engine_safety_fires : Z;
  historian_writes : Z;
  historian_evictions : Z;
  ota_transfers_attempted : Z;
  ota_transfers_succeeded : Z;
  ota_transfers_failed : Z;
  mqtt_publish_count : Z;
  mqtt_reconnect_count : Z;
  watchdog_resets : Z;
  active_fault_count : Z;
  current_degradation : DegradationLevel_t }.

#[export] Instance eta_snapshot : Eta SystemDiagnostics_t := fun r =>
  mk_snapshot (uptime_ms r) (free_heap_bytes r) (radio_tx_count r) (radio_rx_count r) (radio_errors r)
    (attestation_success r) (attestation_failures r) (rule_engine_evaluations r)
    (rule_engine_safety_fires r) (historian_writes r) (historian_evictions r) (ota_transfers_attempted r)
    (ota_transfers_succeeded r) (ota_transfers_failed r) (mqtt_publish_count r) (mqtt_reconnect_count r)
    (watchdog_resets r) (active_fault_count r) (current_degradation r).

Record DiagEvent_t := mk_event {
  timestamp_ms : Z;
  old_value : Z;
  new_value : Z;
  counter_index : Z }.

#[export] Instance eta_event : Eta DiagEvent_t := fun r =>
  mk_event (timestamp_ms r) (old_value r) (new_value r) (counter_index r).

Record DiagnosticsContext_t := mk_ctx {
  snapshot : SystemDiagnostics_t;
  history : list DiagEvent_t;
  history_head : Z;
  history_count : Z;
  initialized : bool }.

#[export] Instance eta_ctx : Eta DiagnosticsContext_t := fun r =>
  mk_ctx (snapshot r) (history r) (history_head r) (history_count r) (initialized r).

Definition zero_snapshot : SystemDiagnostics_t :=
  mk_snapshot 0 0 0 0 0 0 0 0 0 0 0 0 0 0 0 0 0 0 DEGRADE_LEVEL_NORMAL.
Definition zero_event : DiagEvent_t := mk_event 0 0 0 0.
Definition zero_ctx : DiagnosticsContext_t := mk_ctx zero_snapshot (replicate 64 zero_event) 0 0 false.

(** ** Counters by name *)

(** A pointer into the snapshot: which of its counters it points to. *)
Inductive counter :=
| P_uptime_ms
| P_free_heap_bytes
| P_radio_tx_count
| P_radio_rx_count
| P_radio_errors
| P_attestation_success
| P_attestation_failures
| P_rule_engine_evaluations
| P_rule_engine_safety_fires
| P_historian_writes
| P_historian_evictions
| P_ota_transfers_attempted
| P_ota_transfers_succeeded
| P_ota_transfers_failed
| P_mqtt_publish_count
| P_mqtt_reconnect_count
| P_watchdog_resets.

#[export] Instance counter_eq_dec : EqDecision counter.
Proof. solve_decision. Defined.

Definition load (c : counter) (s : SystemDiagnostics_t) : Z :=
  match c with
  | P_uptime_ms => uptime_ms s
  | P_free_heap_bytes => free_heap_bytes s
  | P_radio_tx_count => radio_tx_count s
  | P_radio_rx_count => radio_rx_count s
  | P_radio_errors => radio_errors s
  | P_attestation_success => attestation_success s
  | P_attestation_failures => attestation_failures s
  | P_rule_engine_evaluations => rule_engine_evaluations s
  | P_rule_engine_safety_fires => rule_engine_safety_fires s
  | P_historian_writes => historian_writes s
  | P_historian_evictions => historian_evictions s
  | P_ota_transfers_attempted => ota_transfers_attempted s
  | P_ota_transfers_succeeded => ota_transfers_succeeded s
  | P_ota_transfers_failed => ota_transfers_failed s
  | P_mqtt_publish_count => mqtt_publish_count s
  | P_mqtt_reconnect_count => mqtt_reconnect_count s
  | P_watchdog_resets => watchdog_resets s
  end.

Definition assign (c : counter) (v : Z) (s : SystemDiagnostics_t) : SystemDiagnostics_t :=
  match c with
  | P_uptime_ms => s <| uptime_ms := v |>
  | P_free_heap_bytes => s <| free_heap_bytes := v |>
  | P_radio_tx_count => s <| radio_tx_count := v |>
  | P_radio_rx_count => s <| radio_rx_count := v |>
  | P_radio_errors => s <| radio_errors := v |>
  | P_attestation_success => s <| attestation_success := v |>
  | P_attestation_failures => s <| attestation_failures := v |>
  | P_rule_engine_evaluations => s <| rule_engine_evaluations := v |>
  | P_rule_engine_safety_fires => s <| rule_engine_safety_fires := v |>
  | P_historian_writes => s <| historian_writes := v |>
  | P_historian_evictions => s <| historian_evictions := v |>
  | P_ota_transfers_attempted => s <| ota_transfers_attempted := v |>
  | P_ota_transfers_succeeded => s <| ota_transfers_succeeded := v |>
  | P_ota_transfers_failed => s <| ota_transfers_failed := v |>
  | P_mqtt_publish_count => s <| mqtt_publish_count := v |>
  | P_mqtt_reconnect_count => s <| mqtt_reconnect_count := v |>
  | P_watchdog_resets => s <| watchdog_resets := v |>
  end.

(** The chain of [strcmp] tests. *)
Definition find_counter (name : list Z) : option counter :=
  if bool_decide (name = cstr "uptime_ms") then Some P_uptime_ms
  else if bool_decide (name = cstr "free_heap_bytes") then Some P_free_heap_bytes
  else if bool_decide (name = cstr "radio_tx_count") then Some P_radio_tx_count
  else if bool_decide (name = cstr "radio_rx_count") then Some P_radio_rx_count
  else if bool_decide (name = cstr "radio_errors") then Some P_radio_errors
  else if bool_decide (name = cstr "attestation_success") then Some P_attestation_success
  else if bool_decide (name = cstr "attestation_failures") then Some P_attestation_failures
  else if bool_decide (name = cstr "rule_engine_evaluations") then Some P_rule_engine_evaluations
  else if bool_decide (name = cstr "rule_engine_safety_fires") then Some P_rule_engine_safety_fires
  else if bool_decide (name = cstr "historian_writes") then Some P_historian_writes
  else if bool_decide (name = cstr "historian_evictions") then Some P_historian_evictions
  else if bool_decide (name = cstr "ota_transfers_attempted") then Some P_ota_transfers_attempted
  else if bool_decide (name = cstr "ota_transfers_succeeded") then Some P_ota_transfers_succeeded
  else if bool_decide (name = cstr "ota_transfers_failed") then Some P_ota_transfers_failed
  else if bool_decide (name = cstr "mqtt_publish_count") then Some P_mqtt_publish_count
  else if bool_decide (name = cstr "mqtt_reconnect_count") then Some P_mqtt_reconnect_count
  else if bool_decide (name = cstr "watchdog_resets") then Some P_watchdog_resets
  else None.

Definition s_counter_map : list (list Z) :=
  [cstr "uptime_ms"; cstr "free_heap_bytes"; cstr "radio_tx_count"; cstr "radio_rx_count";
   cstr "radio_errors"; cstr "attestation_success"; cstr "attestation_failures";
   cstr "rule_engine_evaluations"; cstr "rule_engine_safety_fires"; cstr "historian_writes";
   cstr "historian_evictions"; cstr "ota_transfers_attempted"; cstr "ota_transfers_succeeded";
   cstr "ota_transfers_failed"; cstr "mqtt_publish_count"; cstr "mqtt_reconnect_count";
   cstr "watchdog_resets"].

Definition find_counter_index (name : list Z) : Z :=
  match find_index (fun n => bool_decide (n = name)) s_counter_map with
  | Some i => u8 (Z.of_nat i)
  | None => 0xFF
  end.

(** ** Operations *)

Definition diagnostics_init (octx : option DiagnosticsContext_t) : DiagResult_t * option DiagnosticsContext_t :=
  match octx with
  | None => (DIAG_OP_ERR_PARAM_NULL, None)
  | Some _ => (DIAG_OP_OK, Some (zero_ctx <| initialized := true |>))
  end.

(** The fields of a slot the function writes; its time is left as it is. *)
Definition diagnostics_record_event (octx : option DiagnosticsContext_t) (index old new : Z)
  : DiagResult_t * option DiagnosticsContext_t :=
  match octx with
  | None => (DIAG_OP_ERR_PARAM_NULL, None)
  | Some ctx =>
      if negb (initialized ctx) then (DIAG_OP_ERR_PARAM_NULL, octx)
      else
        let slot := u16 ((history_head ctx + history_count ctx) mod DIAG_HISTORY_SIZE) in
        let ctx :=
          if history_count ctx <? DIAG_HISTORY_SIZE
          then ctx <| history_count := u16 (history_count ctx + 1) |>
          else ctx <| history_head := u16 ((history_head ctx + 1) mod DIAG_HISTORY_SIZE) |> in
        let write e := e <| counter_index := index |> <| old_value := old |> <| new_value := new |> in
        (DIAG_OP_OK, Some (ctx <| history := alter write (Z.to_nat slot) (history ctx) |>))
  end.

Definition diagnostics_add (octx : option DiagnosticsContext_t) (name : option (list Z)) (amount : Z)
  : DiagResult_t * option DiagnosticsContext_t :=
  match octx, name with
  | Some ctx, Some name =>
      if negb (initialized ctx) then (DIAG_OP_ERR_PARAM_NULL, octx)
      else
        match find_counter name with
        | None => (DIAG_OP_OK, octx)
        | Some ptr =>
            let old_value := load ptr (snapshot ctx) in
            let new_value := u32 (old_value + amount) in
            let ctx := ctx <| snapshot := assign ptr new_value (snapshot ctx) |> in
            let idx := find_counter_index name in
            if negb (idx =? 0xFF) then
              (DIAG_OP_OK, (diagnostics_record_event (Some ctx) idx old_value new_value).2)
            else (DIAG_OP_OK, Some ctx)
        end
  | _, _ => (DIAG_OP_ERR_PARAM_NULL, octx)
  end.

Definition diagnostics_increment (octx : option DiagnosticsContext_t) (name : option (list Z))
  : DiagResult_t * option DiagnosticsContext_t := diagnostics_add octx name 1.

(** The code, and [*snapshot] where it is written. *)
Definition diagnostics_get_snapshot (octx : option DiagnosticsContext_t) (out : bool)
  : DiagResult_t * option SystemDiagnostics_t :=
  match octx with
  | Some ctx => if out then (DIAG_OP_OK, Some (snapshot ctx)) else (DIAG_OP_ERR_PARAM_NULL, None)
  | None => (DIAG_OP_ERR_PARAM_NULL, None)
  end.

Definition diagnostics_get_counter (octx : option DiagnosticsContext_t) (name : option (list Z)) (out : bool)
  : DiagResult_t * option Z :=
  match octx, name with
  | Some ctx, Some name =>
      if negb out then (DIAG_OP_ERR_PARAM_NULL, None)
      else
        match find_counter name with
        | None => (DIAG_OP_ERR_PARAM_NULL, None)
        | Some ptr => (DIAG_OP_OK, Some (load ptr (snapshot ctx)))
        end
  | _, _ => (DIAG_OP_ERR_PARAM_NULL, None)
  end.

Definition diagnostics_set_uptime (octx : option DiagnosticsContext_t) (ms : Z)
  : DiagResult_t * option DiagnosticsContext_t :=
  match octx with
  | Some ctx =>
      if negb (initialized ctx) then (DIAG_OP_ERR_PARAM_NULL, octx)
      else (DIAG_OP_OK, Some (ctx <| snapshot := (snapshot ctx) <| uptime_ms := ms |> |>))
  | None => (DIAG_OP_ERR_PARAM_NULL, None)
  end.

(** ** JSON *)

Definition quote : Z := 34.

(** ["name":value], the comma apart. *)
Definition json_field (f : list Z * Z) : list Z := quote :: f.1 ++ [quote; 58] ++ print_u f.2.

(** The names and arguments of the format. *)
Definition json_fields (s : SystemDiagnostics_t) : list (list Z * Z) :=
  [(cstr "uptime_ms", uptime_ms s);
   (cstr "free_heap_bytes", free_heap_bytes s);
   (cstr "radio_tx", radio_tx_count s);
   (cstr "radio_rx", radio_rx_count s);
   (cstr "radio_errors", radio_errors s);
   (cstr "attestation_ok", attestation_success s);
   (cstr "attestation_fail", attestation_failures s);
   (cstr "rule_eval", rule_engine_evaluations s);
   (cstr "rule_safety", rule_engine_safety_fires s);
   (cstr "historian_writes", historian_writes s);
   (cstr "historian_evict", historian_evictions s);
   (cstr "ota_attempted", ota_transfers_attempted s);
   (cstr "ota_succeeded", ota_transfers_succeeded s);
   (cstr "ota_failed", ota_transfers_failed s);
   (cstr "mqtt_pub", mqtt_publish_count s);
   (cstr "mqtt_reconn", mqtt_reconnect_count s);
   (cstr "wdt_resets", watchdog_resets s);
   (cstr "active_faults", active_fault_count s);
   (cstr "degradation", level_code (current_degradation s))].

Fixpoint commas (l : list (list Z)) : list Z :=
  match l with
  | [] => []
  | [x] => x
  | x :: l => x ++ 44 :: commas l
  end.

Definition json_text (s : SystemDiagnostics_t) : list Z :=
  123 :: commas (map json_field (json_fields s)) ++ [125].

(** The text left in the buffer, and the length returned. *)
Definition diagnostics_to_json (octx : option DiagnosticsContext_t) (out : bool) (buf_size : Z)
  : option (list Z) * Z :=
  match octx with
  | None => (None, 0)
  | Some ctx =>
      if negb out || (buf_size =? 0) then (None, 0)
      else
        let '(text, written) := snprintf buf_size (json_text (snapshot ctx)) in
        (Some text, if (0 <? written) && (written <? buf_size) then written else 0)
  end.

(** The lines printed on the serial console. *)
Definition diagnostics_print_summary (octx : option DiagnosticsContext_t) : list (list Z) :=
  match octx with
  | None => []
  | Some ctx =>
      if negb (initialized ctx) then []
      else
        let s := snapshot ctx in
        let three a b c := print_u a ++ cstr " / " ++ print_u b ++ cstr " / " ++ print_u c in
        let two a b := print_u a ++ cstr " / " ++ print_u b in
        [cstr "=== System Diagnostics ===";
         cstr "  Uptime:             " ++ print_u (uptime_ms s) ++ cstr " ms";
         cstr "  Free heap:          " ++ print_u (free_heap_bytes s) ++ cstr " bytes";
         cstr "  Radio TX/RX/Err:    " ++ three (radio_tx_count s) (radio_rx_count s) (radio_errors s);
         cstr "  Attestation OK/Fail:" ++ two (attestation_success s) (attestation_failures s);
         cstr "  Rule eval/safety:   " ++ two (rule_engine_evaluations s) (rule_engine_safety_fires s);
         cstr "  Historian W/E:      " ++ two (historian_writes s) (historian_evictions s);
         cstr "  Active faults:      " ++ print_u (active_fault_count s);
         cstr "  Degradation level:  " ++ print_u (level_code (current_degradation s));
         cstr "=========================="]
  end.

(** ** The names *)

Definition name_of (c : counter) : list Z :=
  match c with
  | P_uptime_ms => cstr "uptime_ms"
  | P_free_heap_bytes => cstr "free_heap_bytes"
  | P_radio_tx_count => cstr "radio_tx_count"
  | P_radio_rx_count => cstr "radio_rx_count"
  | P_radio_errors => cstr "radio_errors"
  | P_attestation_success => cstr "attestation_success"
  | P_attestation_failures => cstr "attestation_failures"
  | P_rule_engine_evaluations => cstr "rule_engine_evaluations"
  | P_rule_engine_safety_fires => cstr "rule_engine_safety_fires"
  | P_historian_writes => cstr "historian_writes"
  | P_historian_evictions => cstr "historian_evictions"
  | P_ota_transfers_attempted => cstr "ota_transfers_attempted"
  | P_ota_transfers_succeeded => cstr "ota_transfers_succeeded"
  | P_ota_transfers_failed => cstr "ota_transfers_failed"
  | P_mqtt_publish_count => cstr "mqtt_publish_count"
  | P_mqtt_reconnect_count => cstr "mqtt_reconnect_count"
  | P_watchdog_resets => cstr "watchdog_resets"
  end.

Definition code (c : counter) : Z :=
  match c with
  | P_uptime_ms => 0
  | P_free_heap_bytes => 1
  | P_radio_tx_count => 2
  | P_radio_rx_count => 3
  | P_radio_errors => 4
  | P_attestation_success => 5
  | P_attestation_failures => 6
  | P_rule_engine_evaluations => 7
  | P_rule_engine_safety_fires => 8
  | P_historian_writes => 9
  | P_historian_evictions => 10
  | P_ota_transfers_attempted => 11
  | P_ota_transfers_succeeded => 12
  | P_ota_transfers_failed => 13
  | P_mqtt_publish_count => 14
  | P_mqtt_reconnect_count => 15
  | P_watchdog_resets => 16
  end.

Lemma find_counter_name c : find_counter (name_of c) = Some c.
Proof. destruct c; vm_compute; reflexivity. Qed.

Lemma find_counter_Some n c : find_counter n = Some c -> n = name_of c.
Proof.
  unfold find_counter. repeat (case_bool_decide; [intros [= <-]; assumption|]). discriminate.
Qed.

(** The two tables of names agree. *)
Lemma find_counter_index_code n c : find_counter n = Some c -> find_counter_index n = code c.
Proof. intros ->%find_counter_Some. destruct c; vm_compute; reflexivity. Qed.

Lemma load_assign c c' v s : load c (assign c' v s) = if decide (c = c') then v else load c s.
Proof. destruct c'; destruct c; reflexivity. Qed.

(** ** The ring of the last changes *)

(** What is recorded of a change: the counter, its old and its new value. *)
Definition change : Type := Z * Z * Z.

Definition change_of (e : DiagEvent_t) : change := (counter_index e, old_value e, new_value e).

Definition recorded (ctx : DiagnosticsContext_t) : list change :=
  map (fun i => change_of (nth (Z.to_nat ((history_head ctx + Z.of_nat i) mod 64)) (history ctx) zero_event))
    (seq 0 (Z.to_nat (history_count ctx))).

Definition last_n {A} (n : nat) (l : list A) : list A := drop (length l - n) l.

Record wf (ctx : DiagnosticsContext_t) : Prop := {
  wf_init : initialized ctx = true;
  wf_size : length (history ctx) = 64%nat;
  wf_head : 0 <= history_head ctx < 64;
  wf_count : 0 <= history_count ctx <= 64 }.

Lemma last_n_snoc {A} n (l : list A) x :
  last_n n (l ++ [x]) = (if (length l <? n)%nat then last_n n l else drop 1 (last_n n l)) ++ (if (0 <? n)%nat then [x] else []).
Proof.
  unfold last_n. rewrite length_app. cbn [length].
  destruct (Nat.ltb_spec (length l) n) as [H|H].
  - replace (length l + 1 - n)%nat with 0%nat by lia. replace (length l - n)%nat with 0%nat by lia.
    destruct (Nat.ltb_spec 0 n); [reflexivity|lia].
  - rewrite drop_drop. replace (length l - n + 1)%nat with (length l + 1 - n)%nat by lia.
    destruct (Nat.ltb_spec 0 n) as [Hn|Hn].
    + rewrite drop_app_le by lia. reflexivity.
    + rewrite (drop_ge (l ++ [x])) by (rewrite length_app; cbn; lia).
      rewrite drop_ge by lia. reflexivity.
Qed.

Lemma recorded_length ctx : length (recorded ctx) = Z.to_nat (history_count ctx).
Proof. unfold recorded. rewrite length_map, length_seq. reflexivity. Qed.

Lemma nth_alter {A} (f : A -> A) (l : list A) j k d :
  (k < length l)%nat -> nth j (alter f k l) d = if decide (j = k) then f (nth k l d) else nth j l d.
Proof.
  intros Hk. rewrite !nth_lookup. case_decide as E.
  - subst j. rewrite list_lookup_alter_eq. destruct (lookup_lt_is_Some_2 l k Hk) as [x ->]. reflexivity.
  - rewrite list_lookup_alter_ne by congruence. reflexivity.
Qed.

Lemma ring_slots_differ h i j :
  0 <= h < 64 -> 0 <= i < 64 -> 0 <= j < 64 -> i <> j -> Z.to_nat ((h + i) mod 64) <> Z.to_nat ((h + j) mod 64).
Proof. intros. Z.div_mod_to_equations. lia. Qed.

Lemma drop_1_seq {A} (f : nat -> A) k : drop 1 (map f (seq 0 (S k))) = map (fun i => f (S i)) (seq 0 k).
Proof. cbn [seq map]. rewrite <- seq_shift, map_map. reflexivity. Qed.

(** A change is recorded behind the others; when the ring is full the oldest one goes. *)
Lemma record_event_spec ctx i o n :
  wf ctx ->
  exists ctx', diagnostics_record_event (Some ctx) i o n = (DIAG_OP_OK, Some ctx') /\ wf ctx' /\
    snapshot ctx' = snapshot ctx /\
    recorded ctx' = (if (length (recorded ctx) <? 64)%nat then recorded ctx else drop 1 (recorded ctx)) ++ [(i, o, n)].
Proof.
  intros [Hi Hs Hh Hc]. unfold diagnostics_record_event. rewrite Hi. cbn [negb].
  unfold DIAG_HISTORY_SIZE. rewrite recorded_length.
  set (write := fun e : DiagEvent_t => _). rewrite (u16_small (_ mod 64)) by (unfold is_u16; Z.div_mod_to_equations; lia).
  assert (forall j, change_of (write j) = (i, o, n)) as Hw by reflexivity.
  assert (Z.to_nat ((history_head ctx + history_count ctx) mod 64) < length (history ctx))%nat as Hslot
    by (rewrite Hs; Z.div_mod_to_equations; lia).
  destruct (Z.ltb_spec (history_count ctx) 64) as [Hlt|Hge]; eexists; (split; [reflexivity|]).
  - rewrite u16_small by (unfold is_u16; lia). split; [split; cbn; rewrite ?length_alter; auto; lia|].
    split; [reflexivity|]. rewrite (proj2 (Nat.ltb_lt _ _)) by lia.
    unfold recorded. cbn [history history_head history_count set_field].
    replace (Z.to_nat (history_count ctx + 1)) with (S (Z.to_nat (history_count ctx))) by lia.
    rewrite seq_S, map_app. cbn [map Nat.add]. f_equal.
    + apply map_ext_in. intros k Hk. apply in_seq in Hk. rewrite nth_alter by exact Hslot.
      rewrite decide_False; [reflexivity|]. apply ring_slots_differ; lia.
    + rewrite nth_alter by exact Hslot. rewrite Z2Nat.id by lia. rewrite decide_True by reflexivity. rewrite Hw. reflexivity.
  - assert (history_count ctx = 64) as Hc64 by lia. rewrite Hc64 in *.
    rewrite u16_small by (unfold is_u16; Z.div_mod_to_equations; lia).
    split; [split; cbn; rewrite ?length_alter; auto; Z.div_mod_to_equations; lia|].
    split; [reflexivity|]. rewrite (proj2 (Nat.ltb_ge _ _)) by lia.
    unfold recorded. cbn [history history_head history_count set_field]. rewrite Hc64.
    change (Z.to_nat 64) with 64%nat. rewrite (drop_1_seq _ 63), (seq_S 63), map_app. cbn [Nat.add map]. f_equal.
    + apply map_ext_in. intros k Hk. apply in_seq in Hk. rewrite nth_alter by exact Hslot.
      rewrite decide_False by (Z.div_mod_to_equations; lia). do 3 f_equal. Z.div_mod_to_equations. lia.
    + rewrite nth_alter by exact Hslot. rewrite decide_True by (Z.div_mod_to_equations; lia). rewrite Hw. reflexivity.
Qed.

(** ** Calls and what they do to the counters *)

(** A call of the interface on an existing context. *)
Inductive op :=
| Init
| Add (name : list Z) (amount : Z)
| Increment (name : list Z)
| SetUptime (ms : Z)
| RecordEvent (index old new : Z)
| GetCounter (name : list Z).

Definition answer : Type := DiagResult_t * option Z.

Definition op_step (octx : option DiagnosticsContext_t) (o : op) : answer * option DiagnosticsContext_t :=
  let no_value (x : DiagResult_t * option DiagnosticsContext_t) := ((x.1, None), x.2) in
  match o with
  | Init => no_value (diagnostics_init octx)
  | Add name amount => no_value (diagnostics_add octx (Some name) amount)
  | Increment name => no_value (diagnostics_increment octx (Some name))
  | SetUptime ms => no_value (diagnostics_set_uptime octx ms)
  | RecordEvent index old new => no_value (diagnostics_record_event octx index old new)
  | GetCounter name => (diagnostics_get_counter octx (Some name) true, octx)
  end.

Fixpoint run (octx : option DiagnosticsContext_t) (ops : list op) : list answer * option DiagnosticsContext_t :=
  match ops with
  | [] => ([], octx)
  | o :: ops =>
      let '(a, octx) := op_step octx o in
      let '(answers, octx) := run octx ops in (a :: answers, octx)
  end.

(** The specification: a value for each of the seventeen names, and all changes
    there ever were. *)
Definition names : list (list Z) :=
  [cstr "uptime_ms"; cstr "free_heap_bytes"; cstr "radio_tx_count"; cstr "radio_rx_count"; cstr "radio_errors";
   cstr "attestation_success"; cstr "attestation_failures"; cstr "rule_engine_evaluations";
   cstr "rule_engine_safety_fires"; cstr "historian_writes"; cstr "historian_evictions";
   cstr "ota_transfers_attempted"; cstr "ota_transfers_succeeded"; cstr "ota_transfers_failed";
   cstr "mqtt_publish_count"; cstr "mqtt_reconnect_count"; cstr "watchdog_resets"].

Record counters := mk_counters { values : list Z; log : list change }.

Definition no_counts : counters := mk_counters (replicate 17 0) [].

(** The change an addition makes: the position of its name, the value before and
    the value after. *)
Definition addition (s : counters) (name : list Z) (amount : Z) : option (nat * Z * Z) :=
  i ← find_index (fun n => bool_decide (n = name)) names;
  old ← values s !! i;
  Some (i, old, (old + amount) mod 2 ^ 32).

Definition spec_add (s : counters) (name : list Z) (amount : Z) : counters :=
  match addition s name amount with
  | Some (i, old, new) => mk_counters (<[i := new]> (values s)) (log s ++ [(Z.of_nat i, old, new)])
  | None => s
  end.

Definition spec_step (s : counters) (o : op) : answer * counters :=
  match o with
  | Init => ((DIAG_OP_OK, None), no_counts)
  | Add name amount => ((DIAG_OP_OK, None), spec_add s name amount)
  | Increment name => ((DIAG_OP_OK, None), spec_add s name 1)
  | SetUptime ms => ((DIAG_OP_OK, None), mk_counters (<[0%nat := ms]> (values s)) (log s))
  | RecordEvent index old new => ((DIAG_OP_OK, None), mk_counters (values s) (log s ++ [(index, old, new)]))
  | GetCounter name =>
      (match addition s name 0 with
       | Some (_, value, _) => (DIAG_OP_OK, Some value)
       | None => (DIAG_OP_ERR_PARAM_NULL, None)
       end, s)
  end.

Fixpoint spec_run (s : counters) (ops : list op) : list answer * counters :=
  match ops with
  | [] => ([], s)
  | o :: ops =>
      let '(a, s) := spec_step s o in
      let '(answers, s) := spec_run s ops in (a :: answers, s)
  end.

(** The context holds the values, and the last 64 of the changes. *)
Record represents (s : counters) (ctx : DiagnosticsContext_t) : Prop := {
  rep_wf : wf ctx;
  rep_values : forall c, values s !! Z.to_nat (code c) = Some (load c (snapshot ctx));
  rep_log : recorded ctx = last_n 64 (log s) }.

Lemma position_of_name name :
  find_index (fun n => bool_decide (n = name)) names = (fun c => Z.to_nat (code c)) <$> find_counter name.
Proof.
  destruct (find_counter name) as [c|] eqn:Hf.
  - apply find_counter_Some in Hf as ->. destruct c; vm_compute; reflexivity.
  - apply find_index_None, Forall_forall. assert (forall c, name_of c <> name) as Hne.
    { intros c <-. rewrite find_counter_name in Hf. discriminate. }
    repeat constructor; apply bool_decide_eq_false_2;
      [apply (Hne P_uptime_ms)|apply (Hne P_free_heap_bytes)|apply (Hne P_radio_tx_count)
      |apply (Hne P_radio_rx_count)|apply (Hne P_radio_errors)|apply (Hne P_attestation_success)
      |apply (Hne P_attestation_failures)|apply (Hne P_rule_engine_evaluations)
      |apply (Hne P_rule_engine_safety_fires)|apply (Hne P_historian_writes)|apply (Hne P_historian_evictions)
      |apply (Hne P_ota_transfers_attempted)|apply (Hne P_ota_transfers_succeeded)
      |apply (Hne P_ota_transfers_failed)|apply (Hne P_mqtt_publish_count)|apply (Hne P_mqtt_reconnect_count)
      |apply (Hne P_watchdog_resets)].
Qed.

Lemma addition_represented s ctx name amount :
  represents s ctx ->
  addition s name amount =
    (fun c => (Z.to_nat (code c), load c (snapshot ctx), u32 (load c (snapshot ctx) + amount))) <$> find_counter name.
Proof.
  intros [_ Hv _]. unfold addition. rewrite position_of_name. destruct (find_counter name) as [c|]; [|reflexivity].
  cbn. rewrite Hv. reflexivity.
Qed.

Lemma values_assign s ctx c v :
  represents s ctx ->
  forall c', <[Z.to_nat (code c) := v]> (values s) !! Z.to_nat (code c') = Some (load c' (assign c v (snapshot ctx))).
Proof.
  intros [_ Hv _] c'. rewrite load_assign. case_decide as E.
  - subst c'. apply list_lookup_insert_eq, lookup_lt_is_Some. rewrite Hv. eauto.
  - rewrite list_lookup_insert_ne; [apply Hv|]. intros Hcode. apply E.
    destruct c, c'; first [reflexivity|discriminate Hcode].
Qed.

Lemma record_represented s ctx i o n :
  represents s ctx ->
  exists ctx', diagnostics_record_event (Some ctx) i o n = (DIAG_OP_OK, Some ctx') /\
    represents (mk_counters (values s) (log s ++ [(i, o, n)])) ctx'.
Proof.
  intros [Hwf Hv Hlog]. destruct (record_event_spec ctx i o n Hwf) as (ctx' & -> & Hwf' & Hsnap & Hrec).
  exists ctx'. split; [reflexivity|]. split; [exact Hwf'|intros c; rewrite Hsnap; apply Hv|].
  rewrite Hrec, Hlog. cbn [log]. rewrite last_n_snoc. change (0 <? 64)%nat with true. f_equal.
  unfold last_n. rewrite length_drop.
  destruct (Nat.ltb_spec (length (log s)) 64); destruct (Nat.ltb_spec (length (log s) - (length (log s) - 64)) 64);
    try reflexivity; lia.
Qed.

Lemma add_represented s ctx name amount :
  represents s ctx ->
  exists ctx', diagnostics_add (Some ctx) (Some name) amount = (DIAG_OP_OK, Some ctx') /\
    represents (spec_add s name amount) ctx'.
Proof.
  intros Hr. pose proof Hr as [Hwf Hv Hlog]. unfold diagnostics_add, spec_add.
  rewrite (wf_init _ Hwf), (addition_represented s ctx name amount Hr). cbn [negb].
  destruct (find_counter name) as [c|] eqn:Hf; cbn [fmap option_fmap option_map]; [|exists ctx; auto].
  rewrite (find_counter_index_code _ _ Hf).
  replace (negb (code c =? 0xFF)) with true by (destruct c; reflexivity).
  set (v := u32 _). set (ctx1 := ctx <| snapshot := _ |>).
  assert (represents (mk_counters (<[Z.to_nat (code c) := v]> (values s)) (log s)) ctx1) as Hr1.
  { split; [destruct Hwf; split; assumption|apply values_assign, Hr|exact Hlog]. }
  destruct (record_represented _ ctx1 (code c) (load c (snapshot ctx)) v Hr1) as (ctx' & -> & Hr').
  exists ctx'. split; [reflexivity|]. rewrite Z2Nat.id by (destruct c; cbn; lia). exact Hr'.
Qed.

Lemma fresh_represented ctx : exists ctx', diagnostics_init (Some ctx) = (DIAG_OP_OK, Some ctx') /\ represents no_counts ctx'.
Proof.
  eexists. split; [reflexivity|]. split; [|intros []; reflexivity|reflexivity].
  split; first [reflexivity|split; vm_compute; congruence].
Qed.

Lemma op_step_represented s ctx o :
  represents s ctx ->
  exists ctx', op_step (Some ctx) o = ((spec_step s o).1, Some ctx') /\ represents (spec_step s o).2 ctx'.
Proof.
  intros Hr. destruct o as [|name amount|name|ms|i old new|name]; cbn [op_step spec_step fst snd].
  - destruct (fresh_represented ctx) as (ctx' & -> & Hr'). eauto.
  - destruct (add_represented s ctx name amount Hr) as (ctx' & -> & Hr'). eauto.
  - destruct (add_represented s ctx name 1 Hr) as (ctx' & Ha & Hr').
    unfold diagnostics_increment. rewrite Ha. eauto.
  - pose proof Hr as [Hwf Hv Hlog]. unfold diagnostics_set_uptime. rewrite (wf_init _ Hwf). cbn [negb].
    eexists. split; [reflexivity|].
    split; [destruct Hwf; split; assumption|apply (values_assign s ctx P_uptime_ms ms Hr)|exact Hlog].
  - destruct (record_represented s ctx i old new Hr) as (ctx' & -> & Hr'). eauto.
  - exists ctx. split; [|exact Hr]. rewrite (addition_represented s ctx name 0 Hr).
    unfold diagnostics_get_counter. destruct (find_counter name) as [c|]; reflexivity.
Qed.

Lemma run_represented ops : forall s ctx,
  represents s ctx ->
  exists ctx', run (Some ctx) ops = ((spec_run s ops).1, Some ctx') /\ represents (spec_run s ops).2 ctx'.
Proof.
  induction ops as [|o ops IH]; intros s ctx Hr; [exists ctx; auto|]. cbn [run spec_run].
  destruct (op_step_represented s ctx o Hr) as (ctx1 & -> & Hr1). destruct (spec_step s o) as [a s1].
  cbn [fst snd] in Hr1 |- *. destruct (IH s1 ctx1 Hr1) as (ctx' & -> & Hr').
  destruct (spec_run s1 ops) as [answers s2]. eauto.
Qed.

(** ** Reading the JSON back *)

(** A reader of objects whose values are unsigned numbers, up to the last brace;
    [fuel] is the number of fields. *)
Fixpoint read_fields (fuel : nat) (s : list Z) : option (list (list Z * Z)) :=
  match fuel, s with
  | S fuel, 34 :: s =>
      '(key, s) ← split_at quote s;
      match s with
      | 58 :: s =>
          let '(digits, s) := span is_digit s in
          match s with
          | [125] => Some [(key, value_of_digits digits)]
          | 44 :: s => fs ← read_fields fuel s; Some ((key, value_of_digits digits) :: fs)
          | _ => None
          end
      | _ => None
      end
  | _, _ => None
  end.

Definition read_json (s : list Z) : option (list (list Z * Z)) :=
  match s with
  | 123 :: s => read_fields (length s) s
  | _ => None
  end.

Record good_field (f : list Z * Z) : Prop := {
  field_key : quote ∉ f.1;
  field_value : is_u32 f.2 }.

Lemma print_u_digits n : 0 <= n -> Forall (fun c => is_digit c = true) (print_u n).
Proof. apply digits_aux_digits. Qed.

Lemma read_commas fuel fs :
  Forall good_field fs -> fs <> [] -> (length fs <= fuel)%nat ->
  read_fields fuel (commas (map json_field fs) ++ [125]) = Some fs.
Proof.
  revert fuel. induction fs as [|[k v] fs IH]; intros fuel Hg Hne Hfuel; [contradiction|].
  inversion Hg as [|? ? [Hk [Hv0 Hv1]] Hg']; subst. cbn in Hk, Hv0, Hv1, Hfuel.
  destruct fuel as [|fuel]; [lia|].
  assert (forall rest, read_fields (S fuel) (json_field (k, v) ++ rest) =
            let '(digits, s) := span is_digit (print_u v ++ rest) in
            match s with
            | [125] => Some [(k, value_of_digits digits)]
            | 44 :: s => fs ← read_fields fuel s; Some ((k, value_of_digits digits) :: fs)
            | _ => None
            end) as Hread.
  { intros rest. unfold json_field. cbn [fst snd app read_fields]. rewrite <- !app_assoc. cbn [app].
    rewrite split_at_app by exact Hk. reflexivity. }
  assert (value_of_digits (print_u v) = v) as Hval by (apply value_print_u; unfold is_u64; lia).
  destruct fs as [|f fs].
  - cbn [map commas]. rewrite Hread, span_app by (first [apply print_u_digits; lia|reflexivity]).
    rewrite Hval. reflexivity.
  - change (commas (map json_field ((k, v) :: f :: fs))) with
      (json_field (k, v) ++ 44 :: commas (map json_field (f :: fs))).
    rewrite <- app_assoc, Hread. cbn [app].
    rewrite span_app by (first [apply print_u_digits; lia|reflexivity]).
    rewrite IH by (first [exact Hg'|discriminate|lia]). rewrite Hval. reflexivity.
Qed.

(** Every number of the snapshot has its 32 bits. *)
Record wf_snapshot (s : SystemDiagnostics_t) : Prop := {
  wf_counters : forall c, is_u32 (load c s);
  wf_faults : is_u32 (active_fault_count s) }.

Lemma json_fields_good s : wf_snapshot s -> Forall good_field (json_fields s).
Proof.
  intros [Hc Hf]. unfold json_fields.
  assert (is_u32 (level_code (current_degradation s))) as Hl
    by (unfold is_u32; destruct (current_degradation s); cbn; lia).
  repeat (constructor; [split; [apply (bool_decide_unpack _); vm_compute; exact I|cbn [snd]]|]); [..|constructor].
  all: first [exact Hf|exact Hl|exact (Hc P_uptime_ms)|exact (Hc P_free_heap_bytes)|exact (Hc P_radio_tx_count)
             |exact (Hc P_radio_rx_count)|exact (Hc P_radio_errors)|exact (Hc P_attestation_success)|exact (Hc P_attestation_failures)
             |exact (Hc P_rule_engine_evaluations)|exact (Hc P_rule_engine_safety_fires)|exact (Hc P_historian_writes)|exact (Hc P_historian_evictions)
             |exact (Hc P_ota_transfers_attempted)|exact (Hc P_ota_transfers_succeeded)|exact (Hc P_ota_transfers_failed)|exact (Hc P_mqtt_publish_count)
             |exact (Hc P_mqtt_reconnect_count)|exact (Hc P_watchdog_resets)].
Qed.

Lemma commas_length l : (length (commas l) <= sum_list_with (fun x => S (length x)) l)%nat.
Proof.
  induction l as [|x l IH]; [reflexivity|]. destruct l as [|y l].
  - cbn. lia.
  - change (commas (x :: y :: l)) with (x ++ 44 :: commas (y :: l)). rewrite length_app.
    cbn [length sum_list_with] in *. lia.
Qed.

Lemma commas_length_ge fs : (length fs <= length (commas (map json_field fs)))%nat.
Proof.
  induction fs as [|f fs IH]; [cbn; lia|]. destruct fs as [|g fs]; [cbn; lia|].
  change (commas (map json_field (f :: g :: fs))) with (json_field f ++ 44 :: commas (map json_field (g :: fs))).
  rewrite length_app. cbn [length] in *. lia.
Qed.

(** Keys, quotes, colons, commas and ten digits each: the text fits the size the
    header gives. *)
Lemma json_text_length s : wf_snapshot s -> Z.of_nat (length (json_text s)) < DIAG_JSON_MAX_SIZE.
Proof.
  intros Hs. pose proof (json_fields_good s Hs) as Hg.
  unfold json_text, DIAG_JSON_MAX_SIZE. cbn [length]. rewrite length_app. cbn [length].
  pose proof (commas_length (map json_field (json_fields s))) as Hl.
  assert (sum_list_with (fun x => S (length x)) (map json_field (json_fields s)) <=
          sum_list_with (fun f => length f.1 + 14)%nat (json_fields s))%nat as H1.
  { clear Hl. induction Hg as [|[k v] fs [Hk [Hv0 Hv1]] Hg IH]; cbn [map sum_list_with]; [lia|].
    apply Nat.add_le_mono; [|exact IH]. unfold json_field. cbn [fst snd length] in *.
    rewrite !length_app. cbn [length].
    pose proof (print_u_length v 10 ltac:(cbn; lia) ltac:(lia)). lia. }
  assert (sum_list_with (fun f => length f.1 + 14)%nat (json_fields s) <= 600)%nat as H2.
  { unfold json_fields. cbn [sum_list_with fst]. vm_compute. lia. }
  lia.
Qed.

Definition undated (ctx : DiagnosticsContext_t) : Prop := Forall (fun e => timestamp_ms e = 0) (history ctx).

Lemma record_undated ctx i o n :
  undated ctx -> exists ctx', (diagnostics_record_event (Some ctx) i o n).2 = Some ctx' /\ undated ctx'.
Proof.
  intros H. unfold diagnostics_record_event. destruct (initialized ctx); cbn [negb]; [|exists ctx; auto].
  eexists. split; [reflexivity|]. unfold undated.
  destruct (history_count ctx <? _); (apply Forall_alter; [exact H|]); intros e _ He; exact He.
Qed.

Lemma op_step_undated ctx o :
  undated ctx -> exists ctx', (op_step (Some ctx) o).2 = Some ctx' /\ undated ctx'.
Proof.
  intros H.
  assert (forall name amount, exists ctx', (diagnostics_add (Some ctx) (Some name) amount).2 = Some ctx' /\
            undated ctx') as Hadd.
  { intros name amount. unfold diagnostics_add. destruct (initialized ctx); cbn [negb]; [|exists ctx; auto].
    destruct (find_counter name) as [c|]; [|exists ctx; auto].
    destruct (negb _); [apply record_undated; exact H|eexists; split; [reflexivity|exact H]]. }
  destruct o as [|name amount|name|ms|i old new|name]; cbn [op_step].
  - eexists. split; [reflexivity|]. apply Forall_replicate. reflexivity.
  - destruct (Hadd name amount) as (ctx' & Ha & Hu). destruct (diagnostics_add _ _ _). eauto.
  - destruct (Hadd name 1) as (ctx' & Ha & Hu). unfold diagnostics_increment.
    destruct (diagnostics_add _ _ _). eauto.
  - unfold diagnostics_set_uptime. destruct (initialized ctx); eexists; (split; [reflexivity|exact H]).
  - destruct (record_undated ctx i old new H) as (ctx' & Ha & Hu).
    destruct (diagnostics_record_event _ _ _ _). eauto.
  - exists ctx. auto.
Qed.

Lemma run_undated ops : forall ctx,
  undated ctx -> exists ctx', (run (Some ctx) ops).2 = Some ctx' /\ undated ctx'.
Proof.
  induction ops as [|o ops IH]; intros ctx H; [exists ctx; auto|]. cbn [run].
  destruct (op_step_undated ctx o H) as (ctx1 & H1 & Hu). destruct (op_step (Some ctx) o) as [a octx].
  cbn [snd] in H1. subst octx. destruct (IH ctx1 Hu) as (ctx' & Hrun & Hd).
  exists ctx'. destruct (run (Some ctx1) ops). auto.
Qed.

(** ** Properties *)

(** C40. The counters are a table of seventeen named numbers: whatever the memory
    held before, after initialisation any sequence of calls answers as the
    specification does. An addition to a known name adds its amount modulo
    2^32, an increment adds one, setting the uptime overwrites it, an unknown
    name changes nothing and has no value to read. The ring, read from
    its head, holds the last 64 changes, each with the position of its
    counter and the values before and after. *)
Theorem counters_refine_table ctx ops :
  exists ctx', run (Some ctx) (Init :: ops) =
      ((DIAG_OP_OK, None) :: (spec_run no_counts ops).1, Some ctx') /\
    recorded ctx' = last_n 64 (log (spec_run no_counts ops).2).
Proof.
  cbn [run op_step]. destruct (fresh_represented ctx) as (ctx0 & -> & Hr).
  cbn [fst snd]. destruct (run_represented ops no_counts ctx0 Hr) as (ctx' & -> & [_ _ Hlog]). eauto.
Qed.

(** The JSON text of a snapshot fits the 2048 bytes the header gives for it, and
    reads back as the names of the format with exactly the snapshot's numbers. *)
Theorem json_reads_back ctx size :
  wf_snapshot (snapshot ctx) -> DIAG_JSON_MAX_SIZE <= size ->
  let '(text, len) := diagnostics_to_json (Some ctx) true size in
  text = Some (json_text (snapshot ctx)) /\ len = Z.of_nat (length (json_text (snapshot ctx))) /\
  (text ≫= read_json) = Some (json_fields (snapshot ctx)).
Proof.
  intros Hwf Hsize. pose proof (json_text_length _ Hwf) as Hl.
  unfold diagnostics_to_json. cbn [negb orb].
  destruct (Z.eqb_spec size 0) as [->|_]; [unfold DIAG_JSON_MAX_SIZE in Hsize; lia|].
  unfold snprintf. rewrite take_ge by lia.
  assert (0 < Z.of_nat (length (json_text (snapshot ctx)))) as Hpos by (unfold json_text; cbn [length]; lia).
  rewrite (proj2 (Z.ltb_lt _ _) Hpos), (proj2 (Z.ltb_lt _ size)) by lia. cbn [andb].
  split; [reflexivity|]. split; [reflexivity|]. cbn [mbind option_bind].
  unfold json_text, read_json. apply read_commas.
  - apply json_fields_good, Hwf.
  - discriminate.
  - rewrite length_app. pose proof (commas_length_ge (json_fields (snapshot ctx))). lia.
Qed.

(** No change is ever dated: the field for it keeps the zero of initialisation
    through any calls. *)
Theorem changes_have_no_time ctx ops :
  exists ctx', (run (Some ctx) (Init :: ops)).2 = Some ctx' /\
    Forall (fun e => timestamp_ms e = 0) (history ctx').
Proof.
  assert (undated (zero_ctx <| initialized := true |>)) as H0 by (apply Forall_replicate; reflexivity).
  destruct (run_undated ops _ H0) as (ctx' & Hrun & Hu). exists ctx'. split; [|exact Hu].
  rewrite <- Hrun. cbn [run].
  change (op_step (Some ctx) Init) with ((DIAG_OP_OK, @None Z), Some (zero_ctx <| initialized := true |>)).
  cbv beta iota. destruct (run _ ops). reflexivity.
Qed.

(** ** The theorems on a concrete context *)

Definition demo_ctx : DiagnosticsContext_t := zero_ctx <| initialized := true |>.

Example counters_run :
  let '(answers, octx) := run (Some zero_ctx)
    [Init; Add (cstr "radio_errors") 3; Add (cstr "reboots") 1; Add (cstr "radio_errors") 4294967295;
     Increment (cstr "ota_transfers_failed"); SetUptime 7; Increment (cstr "uptime_ms");
     GetCounter (cstr "radio_errors"); GetCounter (cstr "uptime_ms"); GetCounter (cstr "reboots")] in
  drop 7 answers = [(DIAG_OP_OK, Some 2); (DIAG_OP_OK, Some 8); (DIAG_OP_ERR_PARAM_NULL, None)] /\
  recorded <$> octx = Some [(4, 0, 3); (4, 3, 2); (13, 0, 1); (0, 7, 8)].
Proof. vm_compute. split; reflexivity. Qed.

Lemma demo_snapshot_wf : wf_snapshot (snapshot demo_ctx).
Proof. split; [intros []|]; vm_compute; split; congruence. Qed.

Lemma json_reads_back_witness :
  ((diagnostics_to_json (Some demo_ctx) true 2048).1 ≫= read_json) = Some (json_fields zero_snapshot).
Proof.
  pose proof (json_reads_back demo_ctx 2048 demo_snapshot_wf ltac:(unfold DIAG_JSON_MAX_SIZE; lia)) as H.
  destruct (diagnostics_to_json _ _ _) as [text len]. apply H.
Defined.

End diagnostics.
