(* ===== verification/Printf.v ===== *)
(** The C library's [%g] conversion of a float: six significant digits, trailing
    zeros removed, fixed or exponent form; what it prints of a finite value is
    a number of the grammar [is_number]. *)

From S2P Require Import Prelude Float32 Text.
From Stdlib Require Import SpecFloat.
Import float32 text.

Module printf.

(** [n / d], rounded to the nearest integer, ties to even. *)
Definition round_even (n d : Z) : Z :=
  let q := n / d in
  match 2 * (n mod d) ?= d with
  | Lt => q
  | Gt => q + 1
  | Eq => if Z.even q then q else q + 1
  end.

(** The ratio [n / d] is at least [10^x]. *)
Definition at_least (n d x : Z) : bool :=
  if 0 <=? x then 10 ^ x * d <=? n else d <=? n * 10 ^ (- x).

(** The largest exponent from [x] down to [x - fuel] that the ratio reaches. *)
Fixpoint find_exponent (fuel : nat) (n d x : Z) : Z :=
  match fuel with
  | O => x
  | S fuel => if at_least n d x then x else find_exponent fuel n d (x - 1)
  end.

(** Six digits and the exponent of the first of them.  A float lies between
    10^-45 and 10^39, so 84 candidates are enough. *)
Definition six_digits (n d : Z) : Z * Z :=
  let x := find_exponent 84 n d 38 in
  let q := if x <=? 5 then round_even (n * 10 ^ (5 - x)) d else round_even n (d * 10 ^ (x - 5)) in
  if q =? 1000000 then (100000, x + 1) else (q, x).

Definition zero_char : Z := 48.
Definition point : Z := 46.

(** The digits without the trailing zeros. *)
Fixpoint strip_zeros (l : list Z) : list Z :=
  match l with
  | [] => []
  | c :: l =>
      match strip_zeros l with
      | [] => if c =? zero_char then [] else [c]
      | l => c :: l
      end
  end.

Definition fraction (l : list Z) : list Z :=
  match strip_zeros l with [] => [] | l => point :: l end.

(** At least two digits. *)
Definition exponent_text (x : Z) : list Z :=
  101 :: (if x <? 0 then 45 else 43) ::
  (if Z.abs x <? 10 then [zero_char] else []) ++ print_u (Z.abs x).

Definition print_finite (n d : Z) : list Z :=
  let '(q, x) := six_digits n d in
  let ds := print_u q in
  if (-4 <=? x) && (x <? 6) then
    if 0 <=? x then take (Z.to_nat (x + 1)) ds ++ fraction (drop (Z.to_nat (x + 1)) ds)
    else zero_char :: point :: replicate (Z.to_nat (- x - 1)) zero_char ++ strip_zeros ds
  else take 1 ds ++ fraction (drop 1 ds) ++ exponent_text x.

Definition minus (s : bool) (l : list Z) : list Z := if s then 45 :: l else l.

Definition print_g (v : float) : list Z :=
  match decode v with
  | S754_zero s => minus s [zero_char]
  | S754_infinity s => minus s (cstr "inf")
  | S754_nan => minus (2 ^ 31 <=? v) (cstr "nan")
  | S754_finite s m e =>
      minus s (if 0 <=? e then print_finite (Zpos m * 2 ^ e) 1 else print_finite (Zpos m) (2 ^ (- e)))
  end.

Example g_0 : print_g 0 = cstr "0". Proof. vm_compute. reflexivity. Qed.
Example g_23 : print_g (lit_frac 235 10) = cstr "23.5". Proof. vm_compute. reflexivity. Qed.
Example g_100 : print_g (lit 100) = cstr "100". Proof. vm_compute. reflexivity. Qed.
Example g_tenth : print_g (fneg (lit_frac 1 10)) = cstr "-0.1". Proof. vm_compute. reflexivity. Qed.
Example g_small : print_g (lit_frac 1 8192) = cstr "0.00012207". Proof. vm_compute. reflexivity. Qed.
Example g_tiny : print_g 1 = cstr "1.4013e-45". Proof. vm_compute. reflexivity. Qed.
Example g_max : print_g 0x7F7FFFFF = cstr "3.40282e+38". Proof. vm_compute. reflexivity. Qed.
Example g_million : print_g (lit 1000000) = cstr "1e+06". Proof. vm_compute. reflexivity. Qed.
Example g_carry : print_g (lit_frac 9999995 10) = cstr "1e+06". Proof. vm_compute. reflexivity. Qed.
Example g_five : print_g (lit 123456) = cstr "123456". Proof. vm_compute. reflexivity. Qed.
Example g_tie : print_g (lit_frac 1234565 10) = cstr "123456". Proof. vm_compute. reflexivity. Qed.
Example g_merge : print_g (lit 1000001) = print_g (lit 1000002). Proof. vm_compute. reflexivity. Qed.
Example g_inf : print_g 0xFF800000 = cstr "-inf". Proof. vm_compute. reflexivity. Qed.

(** ** The length of a number, and its characters *)

Lemma round_even_le n d k : 0 < d -> n <= k * d -> round_even n d <= k.
Proof.
  intros Hd Hn. unfold round_even. pose proof (Z.div_mod n d ltac:(lia)) as E.
  pose proof (Z.mod_pos_bound n d Hd). assert (n / d <= k) by (apply Z.div_le_upper_bound; lia).
  assert (n / d = k -> n mod d = 0) by nia.
  destruct (Z.compare_spec (2 * (n mod d)) d); [|lia|]; [destruct (Z.even _); [lia|]|];
    destruct (Z.eq_dec (n / d) k); lia.
Qed.

Lemma round_even_nonneg n d : 0 <= n -> 0 < d -> 0 <= round_even n d.
Proof.
  intros Hn Hd. unfold round_even. pose proof (Z.div_pos n d Hn Hd).
  destruct (_ ?= _); [destruct (Z.even _)| |]; lia.
Qed.

Lemma find_exponent_spec fuel n d x :
  let y := find_exponent fuel n d x in
  x - Z.of_nat fuel <= y <= x /\ (at_least n d (x + 1) = false -> at_least n d (y + 1) = false).
Proof.
  revert x. induction fuel as [|fuel IH]; intros x; cbn [find_exponent]; [split; [lia|auto]|].
  destruct (at_least n d x) eqn:E; [split; [lia|auto]|].
  destruct (IH (x - 1)) as [H1 H2]. split; [lia|]. intros _. apply H2.
  replace (x - 1 + 1) with x by lia. exact E.
Qed.

Lemma six_digits_range n d :
  0 <= n -> 0 < d -> n < 10 ^ 39 * d ->
  let '(q, x) := six_digits n d in 0 <= q < 1000000 /\ -46 <= x <= 39.
Proof.
  intros Hn Hd Hlt. unfold six_digits. pose proof (find_exponent_spec 84 n d 38) as [Hx Hat].
  set (x := find_exponent 84 n d 38) in *. clearbody x. change (Z.of_nat 84) with 84 in Hx.
  assert (at_least n d (38 + 1) = false) as H39.
  { unfold at_least. change (0 <=? 38 + 1) with true. apply Z.leb_gt. exact Hlt. }
  specialize (Hat H39). unfold at_least in Hat.
  set (q := if x <=? 5 then _ else _).
  assert (0 <= q <= 1000000) as Hq.
  { unfold q. destruct (Z.leb_spec x 5) as [H5|H5].
    - assert (0 < 10 ^ (5 - x)) by (apply Z.pow_pos_nonneg; lia). split; [apply round_even_nonneg; nia|].
      apply round_even_le; [exact Hd|]. destruct (Z.leb_spec 0 (x + 1)) as [Hp|Hp].
      + apply Z.leb_gt in Hat. assert (10 ^ (x + 1) * 10 ^ (5 - x) = 1000000) as E
          by (rewrite <- Z.pow_add_r by lia; replace (x + 1 + (5 - x)) with 6 by lia; reflexivity). nia.
      + apply Z.leb_gt in Hat. assert (10 ^ (5 - x) = 1000000 * 10 ^ (- (x + 1))) as ->.
        { change 1000000 with (10 ^ 6). rewrite <- Z.pow_add_r by lia. f_equal. lia. } nia.
    - assert (0 < 10 ^ (x - 5)) by (apply Z.pow_pos_nonneg; lia). split; [apply round_even_nonneg; nia|].
      apply round_even_le; [nia|]. destruct (Z.leb_spec 0 (x + 1)); [|lia].
      apply Z.leb_gt in Hat. assert (10 ^ (x + 1) = 1000000 * 10 ^ (x - 5)) as E.
      { change 1000000 with (10 ^ 6). rewrite <- Z.pow_add_r by lia. f_equal. lia. } nia. }
  destruct (Z.eqb_spec q 1000000); lia.
Qed.

Lemma strip_zeros_length l : (length (strip_zeros l) <= length l)%nat.
Proof.
  induction l as [|c l IH]; cbn [strip_zeros]; [lia|]. destruct (strip_zeros l).
  - destruct (c =? zero_char); cbn; lia.
  - cbn [length] in *. lia.
Qed.

Lemma strip_zeros_Forall (P : Z -> Prop) l : Forall P l -> Forall P (strip_zeros l).
Proof.
  induction 1 as [|c l Hc Hl IH]; cbn [strip_zeros]; [constructor|]. destruct (strip_zeros l).
  - destruct (c =? zero_char); repeat constructor; assumption.
  - constructor; assumption.
Qed.

(** The characters of a number: digits, signs, the point and letters. *)
Definition number_char (c : Z) : Prop := is_digit c = true \/ c ∈ [43; 45; 46; 101; 105; 110; 102; 97].

Record number_text (n : nat) (l : list Z) : Prop := {
  nt_length : (length l <= n)%nat;
  nt_chars : Forall number_char l }.

Lemma digits_number l : Forall (fun c => is_digit c = true) l -> Forall number_char l.
Proof. intros H. apply (Forall_impl _ _ _ H). intros c Hc. left. exact Hc. Qed.

Lemma print_u_number n : 0 <= n -> Forall number_char (print_u n).
Proof. intros Hn. apply digits_number, digits_aux_digits, Hn. Qed.

Ltac char := first [left; reflexivity | right; repeat constructor].

Lemma fraction_number n l : (length l <= n)%nat -> Forall number_char l -> number_text (S n) (fraction l).
Proof.
  intros Hl Hf. unfold fraction. pose proof (strip_zeros_length l). pose proof (strip_zeros_Forall _ _ Hf) as Hs.
  destruct (strip_zeros l); split; cbn [length] in *; try lia; [constructor|].
  constructor; [char|exact Hs].
Qed.

Lemma exponent_number x : -46 <= x <= 39 -> number_text 4 (exponent_text x).
Proof.
  intros Hx. unfold exponent_text. split.
  - cbn [length]. rewrite length_app. destruct (Z.ltb_spec (Z.abs x) 10).
    + pose proof (print_u_length (Z.abs x) 1 ltac:(cbn; lia) ltac:(lia)). cbn [length]. lia.
    + pose proof (print_u_length (Z.abs x) 2 ltac:(cbn; lia) ltac:(lia)). cbn [length]. lia.
  - constructor; [char|]. constructor; [destruct (x <? 0); char|].
    apply Forall_app_2; [destruct (_ <? 10); repeat constructor; char|]. apply print_u_number. lia.
Qed.

Lemma print_finite_number n d : 0 <= n -> 0 < d -> n < 10 ^ 39 * d -> number_text 11 (print_finite n d).
Proof.
  intros Hn Hd Hlt. unfold print_finite. pose proof (six_digits_range n d Hn Hd Hlt) as H.
  destruct (six_digits n d) as [q x]. destruct H as [Hq Hx].
  pose proof (print_u_length q 6 ltac:(cbn; lia) ltac:(lia)) as Hl.
  pose proof (print_u_number q ltac:(lia)) as Hc. set (ds := print_u q) in *. clearbody ds.
  pose proof (strip_zeros_length ds). pose proof (strip_zeros_Forall _ _ Hc) as Hs.
  destruct (Z.leb_spec (-4) x), (Z.ltb_spec x 6); cbn [andb].
  1: destruct (Z.leb_spec 0 x).
  - destruct (fraction_number 6 (drop (Z.to_nat (x + 1)) ds)) as [Hfl Hfc];
      [rewrite length_drop; lia|apply Forall_drop, Hc|].
    split; [|apply Forall_app_2; [apply Forall_take, Hc|exact Hfc]].
    unfold fraction in *. pose proof (strip_zeros_length (drop (Z.to_nat (x + 1)) ds)) as Hd'.
    rewrite length_app, length_take. rewrite length_drop in Hd'.
    destruct (strip_zeros (drop _ ds)); cbn [length] in *; lia.
  - split.
    + cbn [length]. rewrite length_app, length_replicate. lia.
    + constructor; [char|]. constructor; [char|]. apply Forall_app_2; [apply Forall_replicate; char|exact Hs].
  - destruct (fraction_number 5 (drop 1 ds)) as [Hfl Hfc]; [rewrite length_drop; lia|apply Forall_drop, Hc|].
    destruct (exponent_number x Hx) as [Hel Hec]. split.
    + rewrite !length_app, length_take. lia.
    + apply Forall_app_2; [apply Forall_take, Hc|]. apply Forall_app_2; assumption.
  - destruct (fraction_number 5 (drop 1 ds)) as [Hfl Hfc]; [rewrite length_drop; lia|apply Forall_drop, Hc|].
    destruct (exponent_number x Hx) as [Hel Hec]. split.
    + rewrite !length_app, length_take. lia.
    + apply Forall_app_2; [apply Forall_take, Hc|]. apply Forall_app_2; assumption.
  - lia.
Qed.

Lemma decode_finite v s p e : decode v = S754_finite s p e -> Zpos p < 2 ^ 24 /\ -149 <= e <= 104.
Proof.
  unfold decode. change 8388607 with (Z.ones 23). change 255 with (Z.ones 8).
  rewrite !Z.land_ones by lia. pose proof (Z.mod_pos_bound v (2 ^ 23) ltac:(lia)).
  pose proof (Z.mod_pos_bound (Z.shiftr v 23) (2 ^ 8) ltac:(lia)).
  set (m := v mod 2 ^ 23) in *. set (x := Z.shiftr v 23 mod 2 ^ 8) in *. clearbody m x.
  destruct (Z.eqb_spec x (Z.ones 8)) as [|Hx]; [destruct (m =? 0); discriminate|]. change (Z.ones 8) with 255 in Hx.
  destruct (Z.eqb_spec x 0).
  - destruct m as [|m'|m'] eqn:E; intros [= <- <- <-]. lia.
  - destruct (m + 8388608) as [|m'|m'] eqn:E; intros [= <- <- <-]. lia.
Qed.

(** Every float is printed in at most 12 characters of numbers. *)
Lemma print_g_number v : number_text 12 (print_g v).
Proof.
  assert (forall s l, number_text 11 l -> number_text 12 (minus s l)) as Hminus.
  { intros [] l [Hl Hc]; split; cbn [minus length]; try lia; [|exact Hc]. constructor; [char|exact Hc]. }
  unfold print_g. destruct (decode v) as [s|s| |s m e] eqn:E; apply Hminus.
  - split; [cbn; lia|]. constructor; [char|constructor].
  - split; [cbn; lia|]. repeat constructor; char.
  - split; [cbn; lia|]. repeat constructor; char.
  - apply decode_finite in E as [Hm He]. destruct (Z.leb_spec 0 e).
    + apply print_finite_number; [nia|lia|].
      assert (2 ^ e <= 2 ^ 104) by (apply Z.pow_le_mono_r; lia).
      assert (0 < 2 ^ e) by (apply Z.pow_pos_nonneg; lia).
      change (10 ^ 39) with (1000000000000000000000000000000000000000).
      change (2 ^ 104) with 20282409603651670423947251286016 in *. change (2 ^ 24) with 16777216 in Hm. nia.
    + apply print_finite_number; [lia|apply Z.pow_pos_nonneg; lia|].
      assert (0 < 2 ^ (- e)) by (apply Z.pow_pos_nonneg; lia).
      change (2 ^ 24) with 16777216 in Hm. change (10 ^ 39) with (1000000000000000000000000000000000000000). nia.
Qed.

Lemma print_g_nonempty v : (0 < length (print_g v))%nat.
Proof.
  assert (forall s l, (0 < length l)%nat -> (0 < length (minus s l))%nat) as Hminus
    by (intros [] l Hl; cbn; lia).
  assert (forall n d, 0 < length (print_finite n d))%nat as Hfin.
  { intros n d. unfold print_finite. destruct (six_digits n d) as [q x].
    pose proof (print_u_nonempty q). destruct (_ && _) eqn:E; [destruct (Z.leb_spec 0 x); [|cbn; lia]|];
      rewrite length_app, length_take; lia. }
  unfold print_g. destruct (decode v) as [s|s| |s m e]; apply Hminus; [cbn; lia..|].
  destruct (0 <=? e); apply Hfin.
Qed.

(** ** The grammar of a number *)

(** Digits, at least one, and the rest. *)
Definition some_digits (s : list Z) : option (list Z) :=
  match span is_digit s with ([], _) => None | (_, rest) => Some rest end.

Definition exponent_part (s : list Z) : bool :=
  match s with
  | [] => true
  | e :: sign :: s =>
      (e =? 101) && ((sign =? 43) || (sign =? 45)) && bool_decide (some_digits s = Some [])
  | _ => false
  end.

(** Digits, an optional fraction, an optional exponent. *)
Definition is_unsigned (s : list Z) : bool :=
  match some_digits s with
  | None => false
  | Some (46 :: s) => match some_digits s with Some s => exponent_part s | None => false end
  | Some s => exponent_part s
  end.

Definition is_number (s : list Z) : bool :=
  match s with 45 :: s => is_unsigned s | _ => is_unsigned s end.

Lemma minus_number s l : is_unsigned l = true -> is_number (minus s l) = true.
Proof.
  intros Hl. destruct s; [exact Hl|]. cbn [minus]. unfold is_number.
  destruct l as [|c l]; [exact Hl|]. destruct (Z.eqb_spec c 45) as [->|Hc]; [discriminate|].
  clear -Hl Hc. repeat case_match; congruence.
Qed.

Definition finite (v : float) : Prop :=
  match decode v with S754_zero _ | S754_finite _ _ _ => True | _ => False end.

Definition digits (l : list Z) : Prop := Forall (fun c => is_digit c = true) l.

Lemma span_digits l rest :
  digits l -> match rest with [] => True | c :: _ => is_digit c = false end -> span is_digit (l ++ rest) = (l, rest).
Proof.
  intros Hl Hr. destruct rest as [|c rest]; [|apply span_app; assumption]. rewrite app_nil_r.
  induction Hl as [|c l Hc Hl IH]; [reflexivity|]. cbn [span]. rewrite Hc, IH. reflexivity.
Qed.

Lemma some_digits_app l rest :
  digits l -> l <> [] -> match rest with [] => True | c :: _ => is_digit c = false end ->
  some_digits (l ++ rest) = Some rest.
Proof. intros Hl Hn Hr. unfold some_digits. rewrite span_digits by assumption. destruct l; [contradiction|reflexivity]. Qed.

Lemma exponent_part_text x : exponent_part (exponent_text x) = true.
Proof.
  unfold exponent_text. cbn [exponent_part]. rewrite <- (app_nil_r (_ ++ print_u (Z.abs x))).
  rewrite some_digits_app; [destruct (x <? 0); reflexivity| | |exact I].
  - apply Forall_app_2; [destruct (_ <? 10); repeat constructor|apply digits_aux_digits; lia].
  - intros [_ E]%app_eq_nil. pose proof (print_u_nonempty (Z.abs x)) as H. rewrite E in H. cbn in H. lia.
Qed.

(** The mantissa of every form: digits, a fraction or none, what follows. *)
Lemma mantissa_number l f rest :
  digits l -> l <> [] -> digits f -> exponent_part rest = true ->
  match rest with [] => True | c :: _ => c = 101 end ->
  is_unsigned (l ++ fraction f ++ rest) = true.
Proof.
  intros Hl Hn Hf Hr Hc. unfold is_unsigned, fraction.
  assert (match rest with [] => True | c :: _ => is_digit c = false end) as Hd
    by (destruct rest; [exact I|subst; reflexivity]).
  pose proof (strip_zeros_Forall _ _ Hf) as Hs. destruct (strip_zeros f) as [|c fs].
  - cbn [app]. rewrite some_digits_app by assumption. destruct rest as [|c rest]; [reflexivity|]. subst c. exact Hr.
  - rewrite some_digits_app by (first [assumption|reflexivity]). cbn [app point].
    change (c :: fs ++ rest) with ((c :: fs) ++ rest). rewrite (some_digits_app (c :: fs)) by (first [assumption|discriminate]).
    exact Hr.
Qed.

(** Six digits are never zero. *)
Lemma find_exponent_found fuel n d x k :
  x - Z.of_nat fuel < k <= x -> at_least n d k = true -> at_least n d (find_exponent fuel n d x) = true.
Proof.
  revert x. induction fuel as [|fuel IH]; intros x Hk Hat; [lia|]. cbn [find_exponent].
  destruct (at_least n d x) eqn:E; [exact E|]. apply IH; [|exact Hat].
  destruct (Z.eq_dec k x); [congruence|lia].
Qed.

Lemma round_even_pos n d : 0 < d -> d <= n -> 0 < round_even n d.
Proof.
  intros Hd Hn. unfold round_even. assert (1 <= n / d) by (apply Z.div_le_lower_bound; lia).
  destruct (_ ?= _); [destruct (Z.even _)| |]; lia.
Qed.

Lemma six_digits_pos n d : 0 < n -> 0 < d -> d <= n * 10 ^ 45 -> 0 < (six_digits n d).1.
Proof.
  intros Hn Hd Hsmall. unfold six_digits.
  pose proof (find_exponent_found 84 n d 38 (-45) ltac:(lia) ltac:(apply Z.leb_le; exact Hsmall)) as Hat.
  set (x := find_exponent 84 n d 38) in *. clearbody x.
  set (q := if x <=? 5 then _ else _). assert (0 < q) as Hq; [|destruct (q =? 1000000); cbn [fst]; lia].
  unfold at_least in Hat. unfold q. destruct (Z.leb_spec x 5) as [H5|H5]; destruct (Z.leb_spec 0 x) as [H0|H0];
    try lia; apply Z.leb_le in Hat.
  - apply round_even_pos; [exact Hd|]. assert (1 <= 10 ^ x) by (apply (Z.pow_le_mono_r 10 0); lia).
    assert (1 <= 10 ^ (5 - x)) by (apply (Z.pow_le_mono_r 10 0); lia). nia.
  - apply round_even_pos; [exact Hd|]. assert (10 ^ (- x) <= 10 ^ (5 - x)) by (apply Z.pow_le_mono_r; lia). nia.
  - apply round_even_pos; [assert (0 < 10 ^ (x - 5)) by (apply Z.pow_pos_nonneg; lia); nia|].
    assert (10 ^ (x - 5) <= 10 ^ x) by (apply Z.pow_le_mono_r; lia). nia.
Qed.

Lemma strip_zeros_nil l : strip_zeros l = [] -> Forall (fun c => c = zero_char) l.
Proof.
  induction l as [|c l IH]; intros E; [constructor|]. cbn [strip_zeros] in E.
  destruct (strip_zeros l); [|discriminate]. destruct (Z.eqb_spec c zero_char); [|discriminate].
  constructor; [assumption|]. apply IH. reflexivity.
Qed.

Lemma strip_zeros_digits q : 0 < q < 1000000 -> strip_zeros (print_u q) <> [].
Proof.
  intros Hq E%strip_zeros_nil. pose proof (value_print_u q ltac:(unfold is_u64; lia)) as Hv.
  enough (value_of_digits (print_u q) = 0) by lia. clear Hv. unfold value_of_digits.
  induction E as [|c l -> _ IH]; [reflexivity|]. exact IH.
Qed.

(** What is printed for a finite value is a number. *)
Lemma print_finite_grammar n d :
  0 < n -> 0 < d -> n < 10 ^ 39 * d -> d <= n * 10 ^ 45 -> is_unsigned (print_finite n d) = true.
Proof.
  intros Hn Hd Hlt Hsmall. unfold print_finite. pose proof (six_digits_range n d ltac:(lia) Hd Hlt) as H.
  pose proof (six_digits_pos n d Hn Hd Hsmall) as Hpos. destruct (six_digits n d) as [q x]. cbn [fst] in Hpos.
  destruct H as [Hq Hx].
  pose proof (digits_aux_digits 20 q ltac:(lia)) as Hc. fold (print_u q) in Hc.
  pose proof (print_u_nonempty q) as Hne. pose proof (strip_zeros_digits q ltac:(lia)) as Hs.
  pose proof (strip_zeros_Forall _ _ Hc) as Hsd. set (ds := print_u q) in *. clearbody ds.
  assert (forall k, (0 < k)%nat -> take k ds <> []) as Htake
    by (intros [|k] Hk E; [lia|]; destruct ds; [cbn in Hne; lia|discriminate]).
  destruct (Z.leb_spec (-4) x), (Z.ltb_spec x 6); cbn [andb].
  1: destruct (Z.leb_spec 0 x).
  - rewrite <- (app_nil_r (fraction _)). apply mantissa_number;
      [apply Forall_take, Hc|apply Htake; lia|apply Forall_drop, Hc|reflexivity|exact I].
  - set (f := replicate _ _ ++ strip_zeros ds).
    change (zero_char :: point :: f) with ([zero_char] ++ point :: f). unfold is_unsigned.
    rewrite (some_digits_app [zero_char] (point :: f))
      by (first [discriminate|reflexivity|repeat constructor]). cbn [point].
    rewrite <- (app_nil_r f), some_digits_app; [reflexivity| | |exact I].
    + apply Forall_app_2; [apply Forall_replicate; reflexivity|exact Hsd].
    + intros [_ E]%app_eq_nil. contradiction.
  - apply mantissa_number; [apply Forall_take, Hc|apply Htake; lia|apply Forall_drop, Hc|apply exponent_part_text|reflexivity].
  - apply mantissa_number; [apply Forall_take, Hc|apply Htake; lia|apply Forall_drop, Hc|apply exponent_part_text|reflexivity].
  - lia.
Qed.

Lemma print_g_grammar v : finite v -> is_number (print_g v) = true.
Proof.
  unfold print_g, finite. destruct (decode v) as [s|s| |s m e] eqn:E; try tauto; intros _; apply minus_number; [reflexivity|].
  apply decode_finite in E as [Hm He]. destruct (Z.leb_spec 0 e) as [H0|H0].
  - assert (1 <= 2 ^ e <= 2 ^ 104) by (split; [apply (Z.pow_le_mono_r 2 0); lia|apply Z.pow_le_mono_r; lia]).
    change (2 ^ 104) with 20282409603651670423947251286016 in *. change (2 ^ 24) with 16777216 in Hm.
    apply print_finite_grammar; [nia|lia| |].
    + change (10 ^ 39) with 1000000000000000000000000000000000000000. nia.
    + change (10 ^ 45) with 1000000000000000000000000000000000000000000000. nia.
  - assert (1 <= 2 ^ (- e) <= 2 ^ 149) by (split; [apply (Z.pow_le_mono_r 2 0); lia|apply Z.pow_le_mono_r; lia]).
    change (2 ^ 149) with 713623846352979940529142984724747568191373312 in *. change (2 ^ 24) with 16777216 in Hm.
    apply print_finite_grammar; [lia|lia| |].
    + change (10 ^ 39) with 1000000000000000000000000000000000000000. nia.
    + change (10 ^ 45) with 1000000000000000000000000000000000000000000000. nia.
Qed.

(** Unfolding it on a variable would run the decoder. *)
#[global] Opaque finite.

End printf.
