(* ===== verification/TelemetryStore.v ===== *)
(** The cloud's telemetry store (cloud/telemetry_store.c): a bounded list of
    tagged points, per-tenant tokens and the count of series of each tenant. *)

From S2P Require Import Prelude Float32.
Import float32.

Module telemetry_store.

Definition TELEMETRY_STORE_MAX_SERIES : Z := 1024.
Definition TELEMETRY_STORE_MAX_TAG_LEN : nat := 64.
Definition TELEMETRY_STORE_MAX_TENANTS : Z := 16.

(** Tags are 64-byte buffers that hold C strings. *)
Record TelemetryDataPoint_t := mk_point {
  tenant_id : list Z;
  site_id : list Z;
  node_id : list Z;
  device_class : list Z;
  metric_id : list Z;
  domain_profile_id : list Z;
  value : float;
  timestamp_ms : Z }.

Record TenantCardinality_t := mk_cardinality {
  c_tenant_id : list Z;
  series_count : Z;
  c_active : bool }.

#[export] Instance eta_cardinality : Eta TenantCardinality_t := fun r =>
  mk_cardinality (c_tenant_id r) (series_count r) (c_active r).

Record TenantToken_t := mk_token {
  token_id : Z;
  bound_tenant_id : list Z;
  valid : bool }.

Inductive TelemetryStoreResult_t :=
| STORE_OK
| STORE_ERR_FULL
| STORE_ERR_PARAM_NULL
| STORE_ERR_TENANT_NOT_FOUND
| STORE_ERR_UNAUTHORIZED.

#[export] Instance TelemetryStoreResult_eq_dec : EqDecision TelemetryStoreResult_t.
Proof. solve_decision. Defined.

Definition zero_point : TelemetryDataPoint_t :=
  mk_point (zeros 64) (zeros 64) (zeros 64) (zeros 64) (zeros 64) (zeros 64) 0 0.
Definition zero_cardinality : TenantCardinality_t := mk_cardinality (zeros 64) 0 false.

Record state := mk_state {
  s_store : list TelemetryDataPoint_t;
  s_store_count : Z;
  s_initialised : bool;
  s_cardinality : list TenantCardinality_t;
  s_cardinality_count : Z;
  s_next_token_id : Z }.

#[export] Instance eta_state : Eta state := fun r =>
  mk_state (s_store r) (s_store_count r) (s_initialised r) (s_cardinality r) (s_cardinality_count r)
    (s_next_token_id r).

Definition initial : state :=
  mk_state (replicate 1024 zero_point) 0 false (replicate 16 zero_cardinality) 0 1.

(** ** Helpers *)

(** [snprintf(key, 192, "%s:%s:%s", ...)]. *)
Definition make_series_key (p : TelemetryDataPoint_t) : list Z :=
  take 191 (cstr_of (site_id p) ++ cstr ":" ++ cstr_of (node_id p) ++ cstr ":" ++ cstr_of (metric_id p)).

(** [active && strcmp(entry.tenant_id, tenant) == 0]. *)
Definition tracks (tenant : list Z) (c : TenantCardinality_t) : bool :=
  c_active c && bool_decide (cstr_of (c_tenant_id c) = tenant).

(** The index of the entry, as the returned pointer. *)
Definition find_or_create_cardinality (st : state) (tenant : list Z) : option nat * state :=
  match find_index (tracks tenant) (used (s_cardinality_count st) (s_cardinality st)) with
  | Some i => (Some i, st)
  | None =>
      if TELEMETRY_STORE_MAX_TENANTS <=? s_cardinality_count st then (None, st)
      else
        let entry := mk_cardinality (strncpy 63 tenant ++ [0]) 0 true in
        (Some (Z.to_nat (s_cardinality_count st)),
         st <| s_cardinality := store (s_cardinality_count st) entry (s_cardinality st) |>
            <| s_cardinality_count := u8 (s_cardinality_count st + 1) |>)
  end.

(** [strcmp(s_store[i].tenant_id, tenant) == 0]. *)
Definition of_tenant (tenant : list Z) (p : TelemetryDataPoint_t) : bool :=
  bool_decide (cstr_of (tenant_id p) = tenant).

Definition series_key_exists (st : state) (tenant series_key : list Z) : bool :=
  existsb (fun p => of_tenant tenant p && bool_decide (make_series_key p = series_key))
    (used (s_store_count st) (s_store st)).

(** The recount loop: the keys seen so far, and their number. *)
Definition count_series (tenant : list Z) (points : list TelemetryDataPoint_t) : list (list Z) * Z :=
  fold_left (fun '(seen, unique) p =>
               if of_tenant tenant p then
                 let key := make_series_key p in
                 if existsb (fun k => bool_decide (k = key)) seen then (seen, unique)
                 else (seen ++ [key], u32 (unique + 1))
               else (seen, unique))
    points ([], 0).

(** The second half of a write: find the tenant's entry and recount its series. *)
Definition update_cardinality (st : state) (tenant : list Z) : state :=
  let '(card, st) := find_or_create_cardinality st tenant in
  match card with
  | None => st
  | Some i =>
      let unique := (count_series tenant (used (s_store_count st) (s_store st))).2 in
      st <| s_cardinality := alter (fun c => c <| series_count := unique |>) i (s_cardinality st) |>
  end.

(** ** Operations *)

Definition telemetry_store_init (st : state) : bool * state :=
  (true, mk_state (replicate 1024 zero_point) 0 true (replicate 16 zero_cardinality) 0 1).

Definition telemetry_store_write (st : state) (point : option TelemetryDataPoint_t)
  : TelemetryStoreResult_t * state :=
  if negb (s_initialised st) then (STORE_ERR_PARAM_NULL, st)
  else
    match point with
    | None => (STORE_ERR_PARAM_NULL, st)
    | Some p =>
        if TELEMETRY_STORE_MAX_SERIES <=? s_store_count st then (STORE_ERR_FULL, st)
        else
          let st := st <| s_store := store (s_store_count st) p (s_store st) |>
                       <| s_store_count := s_store_count st + 1 |> in
          (STORE_OK, update_cardinality st (cstr_of (tenant_id p)))
    end.

Definition telemetry_issue_tenant_token (st : state) (tenant : option (list Z)) (out : bool)
  : TelemetryStoreResult_t * option TenantToken_t * state :=
  if negb (s_initialised st) then (STORE_ERR_PARAM_NULL, None, st)
  else
    match tenant with
    | None => (STORE_ERR_PARAM_NULL, None, st)
    | Some t =>
        if negb out then (STORE_ERR_PARAM_NULL, None, st)
        else (STORE_OK, Some (mk_token (s_next_token_id st) (strncpy 63 t ++ [0]) true),
              st <| s_next_token_id := u32 (s_next_token_id st + 1) |>)
    end.

(** The points copied to the caller; their number is [*out_count]. *)
Definition telemetry_store_query (st : state) (token : option TenantToken_t) (out : bool) (max_points : Z)
  : TelemetryStoreResult_t * list TelemetryDataPoint_t :=
  if negb (s_initialised st) then (STORE_ERR_PARAM_NULL, [])
  else
    match token with
    | None => (STORE_ERR_PARAM_NULL, [])
    | Some t =>
        if negb out then (STORE_ERR_PARAM_NULL, [])
        else if negb (valid t) then (STORE_ERR_UNAUTHORIZED, [])
        else if bool_decide (cstr_of (bound_tenant_id t) = []) then (STORE_ERR_UNAUTHORIZED, [])
        else
          (STORE_OK,
           fold_left (fun out p =>
                        if Z.of_nat (length out) <? max_points then
                          if of_tenant (cstr_of (bound_tenant_id t)) p then out ++ [p] else out
                        else out)
             (used (s_store_count st) (s_store st)) [])
    end.

Definition telemetry_store_get_cardinality (st : state) (tenant : option (list Z)) : Z :=
  match tenant with
  | Some t =>
      if negb (s_initialised st) then 0
      else
        match find_first (tracks t) (used (s_cardinality_count st) (s_cardinality st)) with
        | Some c => series_count c
        | None => 0
        end
  | None => 0
  end.

Definition telemetry_store_get_all_cardinality (st : state) (out : bool) (max_entries : Z)
  : list TenantCardinality_t :=
  if negb (s_initialised st) || negb out then []
  else
    let count := if s_cardinality_count st <? max_entries then s_cardinality_count st else max_entries in
    take (Z.to_nat count) (s_cardinality st).

Definition telemetry_store_cardinality_exceeds (st : state) (tenant : option (list Z)) (threshold : Z) : bool :=
  threshold <? telemetry_store_get_cardinality st tenant.

(** ** The points written, and their series *)

Definition tenant_of (p : TelemetryDataPoint_t) : list Z := cstr_of (tenant_id p).

(** The series of a tenant among some points: the distinct keys. *)
Definition series (tenant : list Z) (ps : list TelemetryDataPoint_t) : list (list Z) :=
  remove_dups (make_series_key <$> List.filter (of_tenant tenant) ps).

Definition points (st : state) : list TelemetryDataPoint_t := used (s_store_count st) (s_store st).
Definition entries (st : state) : list TenantCardinality_t := used (s_cardinality_count st) (s_cardinality st).

Definition entry_tenant (c : TenantCardinality_t) : option (list Z) :=
  if c_active c then Some (cstr_of (c_tenant_id c)) else None.

(** The book-keeping of the tenants' entries [es] over the points [ps]: one
    active entry per tenant, in order of appearance, with the number of its
    series; every tenant has one as long as there is room. *)
Record book (es : list TenantCardinality_t) (ps : list TelemetryDataPoint_t) : Prop := {
  bk_active : Forall (fun c => c_active c = true) es;
  bk_distinct : NoDup (entry_tenant <$> es);
  bk_series : Forall (fun c => series_count c =
                Z.of_nat (length (series (cstr_of (c_tenant_id c)) ps))) es;
  bk_origin : Forall (fun c => cstr_of (c_tenant_id c) ∈ tenant_of <$> ps) es;
  bk_tracked : (length es < 16)%nat ->
               Forall (fun p => exists c, c ∈ es /\ cstr_of (c_tenant_id c) = tenant_of p) ps }.

Record wf (st : state) : Prop := {
  wf_init : s_initialised st = true;
  wf_size : length (s_store st) = 1024%nat;
  wf_count : 0 <= s_store_count st <= TELEMETRY_STORE_MAX_SERIES;
  wf_csize : length (s_cardinality st) = 16%nat;
  wf_ccount : 0 <= s_cardinality_count st <= TELEMETRY_STORE_MAX_TENANTS;
  wf_book : book (entries st) (points st) }.

(** *** The recount loop counts the distinct keys *)

Lemma existsb_elem (k : list Z) l : existsb (fun x => bool_decide (x = k)) l = true <-> k ∈ l.
Proof.
  rewrite existsb_exists. split.
  - intros (x & Hx & E). apply bool_decide_eq_true in E as ->. apply list_elem_of_In. exact Hx.
  - intros H. exists k. split; [apply list_elem_of_In, H|apply bool_decide_eq_true_2; reflexivity].
Qed.

Lemma count_series_snoc tenant ps p :
  count_series tenant (ps ++ [p]) =
  let '(seen, unique) := count_series tenant ps in
  if of_tenant tenant p then
    if existsb (fun k => bool_decide (k = make_series_key p)) seen then (seen, unique)
    else (seen ++ [make_series_key p], u32 (unique + 1))
  else (seen, unique).
Proof. unfold count_series. rewrite fold_left_app. cbn. destruct (fold_left _ ps _). reflexivity. Qed.

Lemma keys_snoc tenant ps p :
  make_series_key <$> List.filter (of_tenant tenant) (ps ++ [p]) =
  (make_series_key <$> List.filter (of_tenant tenant) ps) ++
  (if of_tenant tenant p then [make_series_key p] else []).
Proof. rewrite List.filter_app, fmap_app. cbn. destruct (of_tenant tenant p); reflexivity. Qed.

Lemma count_series_seen tenant ps :
  let '(seen, unique) := count_series tenant ps in
  NoDup seen /\ (forall k, k ∈ seen <-> k ∈ make_series_key <$> List.filter (of_tenant tenant) ps) /\
  (Z.of_nat (length ps) < 4294967296 -> unique = Z.of_nat (length seen)).
Proof.
  induction ps as [|p ps IH] using rev_ind.
  - cbn. split; [constructor|]. split; [intros k; reflexivity|reflexivity].
  - rewrite count_series_snoc. destruct (count_series tenant ps) as [seen unique].
    destruct IH as (Hnd & Hin & Hu). rewrite keys_snoc, length_app. cbn [length].
    assert (length seen <= length ps)%nat as Hle.
    { etransitivity; [apply (submseteq_length seen (make_series_key <$> List.filter (of_tenant tenant) ps))|].
      - apply NoDup_submseteq; [exact Hnd|]. intros k Hk. apply Hin, Hk.
      - rewrite length_fmap. apply List.filter_length_le. }
    destruct (of_tenant tenant p); [|rewrite app_nil_r; split; [exact Hnd|split; [exact Hin|intros; apply Hu; lia]]].
    destruct (existsb _ seen) eqn:He.
    + apply existsb_elem in He. split; [exact Hnd|]. split; [|intros; apply Hu; lia].
      intros k. rewrite elem_of_app, <- Hin. split; [auto|]. intros [Hk|Hk]; [exact Hk|].
      apply list_elem_of_singleton in Hk as ->. exact He.
    + assert (make_series_key p ∉ seen) as Hn by (intros H; apply existsb_elem in H; congruence).
      split; [|split].
      * apply NoDup_app. split; [exact Hnd|]. split; [|apply NoDup_singleton].
        intros k Hk Hk'. apply list_elem_of_singleton in Hk' as ->. contradiction.
      * intros k. rewrite !elem_of_app, Hin. reflexivity.
      * intros Hl. rewrite length_app. cbn. rewrite Hu by lia. words.
Qed.

Lemma count_series_spec tenant ps :
  Z.of_nat (length ps) < 4294967296 ->
  (count_series tenant ps).2 = Z.of_nat (length (series tenant ps)).
Proof.
  intros Hl. pose proof (count_series_seen tenant ps) as H.
  destruct (count_series tenant ps) as [seen unique]. destruct H as (Hnd & Hin & Hu).
  cbn. rewrite Hu by exact Hl. f_equal. apply Permutation_length. apply NoDup_Permutation.
  - exact Hnd.
  - apply NoDup_remove_dups.
  - intros k. unfold series. rewrite elem_of_remove_dups. apply Hin.
Qed.

(** *** Finding and creating an entry *)

Definition tracks_opt (t : option (list Z)) (c : TenantCardinality_t) : bool :=
  match t with Some t => tracks t c | None => negb (c_active c) end.

Lemma tracks_spec t c : tracks_opt t c = true <-> entry_tenant c = t.
Proof.
  unfold tracks_opt, tracks, entry_tenant. destruct t as [t|]; destruct (c_active c); cbn;
    rewrite ?bool_decide_eq_true; split; congruence.
Qed.

Lemma tracks_true t c : tracks t c = true <-> c_active c = true /\ cstr_of (c_tenant_id c) = t.
Proof. unfold tracks. rewrite andb_true_iff, bool_decide_eq_true. reflexivity. Qed.

(** A tag that fits its buffer with its NUL. *)
Definition good_tag (s : list Z) : Prop := (length s <= 63)%nat.

Lemma series_snoc_other tenant ps p :
  of_tenant tenant p = false -> series tenant (ps ++ [p]) = series tenant ps.
Proof. intros H. unfold series. rewrite keys_snoc, H, app_nil_r. reflexivity. Qed.

Lemma series_nil tenant ps :
  Forall (fun p => tenant_of p <> tenant) ps -> series tenant ps = [].
Proof.
  intros H. unfold series. replace (List.filter (of_tenant tenant) ps) with (@nil TelemetryDataPoint_t); [reflexivity|].
  symmetry. induction H as [|p ps Hp _ IH]; [reflexivity|]. cbn. unfold of_tenant, tenant_of in *.
  rewrite bool_decide_eq_false_2 by exact Hp. exact IH.
Qed.

(** The count of an entry, brought up to date. *)
Definition recount (ps : list TelemetryDataPoint_t) (c : TenantCardinality_t) : TenantCardinality_t :=
  c <| series_count := Z.of_nat (length (series (cstr_of (c_tenant_id c)) ps)) |>.

Lemma series_other tenant ps p :
  tenant <> tenant_of p -> series tenant (ps ++ [p]) = series tenant ps.
Proof.
  intros Ht. apply series_snoc_other. apply bool_decide_eq_false_2. unfold tenant_of in Ht. congruence.
Qed.

(** Entries with the same tenant are the same entry. *)
Lemma book_unique es ps i j c c' :
  book es ps -> es !! i = Some c -> es !! j = Some c' ->
  cstr_of (c_tenant_id c) = cstr_of (c_tenant_id c') -> i = j.
Proof.
  intros [Ha Hd _ _ _] Hi Hj E. eapply (NoDup_lookup _ i j (entry_tenant c) Hd); rewrite list_lookup_fmap.
  - rewrite Hi. reflexivity.
  - rewrite Hj. cbn. unfold entry_tenant. rewrite Forall_forall in Ha.
    rewrite (Ha c), (Ha c') by (eapply list_elem_of_lookup_2; eassumption). congruence.
Qed.

Lemma origin_snoc es ps p :
  Forall (fun c => cstr_of (c_tenant_id c) ∈ tenant_of <$> ps) es ->
  Forall (fun c => cstr_of (c_tenant_id c) ∈ tenant_of <$> (ps ++ [p])) es.
Proof.
  intros H. eapply Forall_impl; [exact H|]. intros c Hc. rewrite fmap_app. apply elem_of_app. auto.
Qed.

Lemma book_update es ps p i c :
  book es ps -> es !! i = Some c -> cstr_of (c_tenant_id c) = tenant_of p ->
  book (<[i := recount (ps ++ [p]) c]> es) (ps ++ [p]).
Proof.
  intros Hb Hi Hc. pose proof Hb as [Ha Hd Hs Ho Ht].
  assert (c_active c = true) as Hca by (rewrite Forall_forall in Ha; eapply Ha, list_elem_of_lookup_2, Hi).
  split.
  - apply Forall_insert; [exact Ha|exact Hca].
  - rewrite list_fmap_insert, list_insert_id; [exact Hd|]. rewrite list_lookup_fmap, Hi. reflexivity.
  - apply Forall_lookup. intros j c' Hj.
    apply list_lookup_insert_Some in Hj as [(-> & <- & _)|(Hne & Hj)]; [reflexivity|].
    rewrite series_other; [apply (Forall_lookup_1 _ _ _ _ Hs Hj)|].
    rewrite <- Hc. intros E. apply Hne. eapply (book_unique es ps i j); eauto.
  - apply Forall_insert; [apply (origin_snoc _ _ _ Ho)|]. rewrite fmap_app. apply elem_of_app. right.
    apply list_elem_of_singleton. exact Hc.
  - rewrite length_insert. intros Hl. specialize (Ht Hl).
    assert (forall c', c' ∈ es -> exists c'', c'' ∈ <[i := recount (ps ++ [p]) c]> es /\
              cstr_of (c_tenant_id c'') = cstr_of (c_tenant_id c')) as Hkeep.
    { intros c' [j Hj]%list_elem_of_lookup_1. destruct (decide (i = j)) as [<-|Hne].
      - exists (recount (ps ++ [p]) c). split; [|rewrite Hi in Hj; injection Hj as <-; reflexivity].
        eapply list_elem_of_lookup_2, list_lookup_insert_eq, lookup_lt_Some, Hi.
      - exists c'. split; [|reflexivity]. eapply list_elem_of_lookup_2.
        rewrite list_lookup_insert_ne by exact Hne. exact Hj. }
    apply Forall_app_2.
    + eapply Forall_impl; [exact Ht|]. intros q (c' & Hc' & <-). apply Hkeep, Hc'.
    + constructor; [|constructor]. rewrite <- Hc. eapply Hkeep, list_elem_of_lookup_2, Hi.
Qed.

(** No entry has the tenant. *)
Definition untracked (es : list TenantCardinality_t) (t : list Z) : Prop :=
  Forall (fun c => cstr_of (c_tenant_id c) <> t) es.

Lemma book_series_other es ps p :
  book es ps -> untracked es (tenant_of p) ->
  Forall (fun c => series_count c = Z.of_nat (length (series (cstr_of (c_tenant_id c)) (ps ++ [p])))) es.
Proof.
  intros [_ _ Hs _ _] Hu. apply Forall_lookup. intros j c Hj.
  rewrite series_other by apply (Forall_lookup_1 _ _ _ _ Hu Hj). apply (Forall_lookup_1 _ _ _ _ Hs Hj).
Qed.

Lemma book_append es ps p c :
  book es ps -> untracked es (tenant_of p) -> (length es < 16)%nat ->
  c_active c = true -> cstr_of (c_tenant_id c) = tenant_of p ->
  book (es ++ [recount (ps ++ [p]) c]) (ps ++ [p]).
Proof.
  intros Hb Hu Hl Hca Hc. pose proof Hb as [Ha Hd Hs Ho Ht]. split.
  - apply Forall_app_2; [exact Ha|]. constructor; [exact Hca|constructor].
  - rewrite fmap_app, NoDup_app. split; [exact Hd|]. split; [|apply NoDup_singleton].
    intros t Hin Ht'. apply list_elem_of_singleton in Ht' as ->.
    apply list_elem_of_fmap in Hin as (c' & E & Hc'). unfold untracked in Hu. rewrite Forall_forall in Hu, Ha.
    specialize (Hu c' Hc'). unfold entry_tenant in E. rewrite (Ha c' Hc') in E. cbn in E. rewrite Hca in E. congruence.
  - apply Forall_app_2; [apply book_series_other; assumption|]. constructor; [reflexivity|constructor].
  - apply Forall_app_2; [apply (origin_snoc _ _ _ Ho)|]. constructor; [|constructor].
    rewrite fmap_app. apply elem_of_app. right. apply list_elem_of_singleton. exact Hc.
  - intros _. specialize (Ht Hl). apply Forall_app_2.
    + eapply Forall_impl; [exact Ht|]. intros q (c' & Hc' & E). exists c'. split; [|exact E].
      apply elem_of_app. left. exact Hc'.
    + constructor; [|constructor]. exists (recount (ps ++ [p]) c). split; [|exact Hc].
      apply elem_of_app. right. left.
Qed.

Lemma book_full es ps p :
  book es ps -> untracked es (tenant_of p) -> (16 <= length es)%nat -> book es (ps ++ [p]).
Proof.
  intros Hb Hu Hl. pose proof Hb as [Ha Hd _ Ho _].
  split; [exact Ha|exact Hd|apply book_series_other; assumption|apply (origin_snoc _ _ _ Ho)|lia].
Qed.

(** The entries after the update of one of them in the table. *)
Lemma entries_alter st f i c :
  0 <= s_cardinality_count st <= Z.of_nat (length (s_cardinality st)) -> entries st !! i = Some c ->
  used (s_cardinality_count st) (alter f i (s_cardinality st)) = <[i := f c]> (entries st).
Proof.
  intros Hc Hi. pose proof (lookup_lt_Some _ _ _ Hi) as Hlt. apply lookup_take_Some in Hi as [Hi _].
  unfold entries in *. rewrite used_length in Hlt by lia.
  rewrite (alter_lookup f _ _ c Hi). apply used_store_inside. lia.
Qed.

Lemma update_store st t :
  s_initialised (update_cardinality st t) = s_initialised st /\
  s_store (update_cardinality st t) = s_store st /\
  s_store_count (update_cardinality st t) = s_store_count st.
Proof.
  unfold update_cardinality, find_or_create_cardinality.
  destruct (find_index _ _); [auto|]. destruct (_ <=? _); auto.
Qed.

(** The entries after the last point of the store was counted. *)
Lemma update_book st ps p :
  points st = ps ++ [p] -> (length (points st) <= 1024)%nat -> good_tag (tenant_of p) ->
  length (s_cardinality st) = 16%nat -> 0 <= s_cardinality_count st <= 16 -> book (entries st) ps ->
  let st' := update_cardinality st (tenant_of p) in
  length (s_cardinality st') = 16%nat /\ 0 <= s_cardinality_count st' <= 16 /\ book (entries st') (points st).
Proof.
  intros Hp Hlen Hgood Hcs Hcc Hb. unfold update_cardinality, find_or_create_cardinality.
  fold (entries st). assert (length (entries st) = Z.to_nat (s_cardinality_count st)) as Hle
    by (unfold entries; apply used_length; lia).
  assert ((count_series (tenant_of p) (points st)).2 = Z.of_nat (length (series (tenant_of p) (points st))))
    as Hcount by (apply count_series_spec; lia).
  destruct (find_index (tracks (tenant_of p)) (entries st)) as [i|] eqn:Hf.
  - apply find_index_lookup in Hf as (c & Hci & [Hca Hct]%tracks_true). fold (points st).
    cbn [s_cardinality s_cardinality_count set_field]. rewrite length_alter.
    split; [exact Hcs|]. split; [exact Hcc|]. unfold entries at 1. cbn [s_cardinality s_cardinality_count set_field].
    rewrite (entries_alter st _ i c) by (exact Hci || lia). rewrite Hcount, Hp.
    pose proof (book_update _ _ p i c Hb Hci Hct) as H. unfold recount in H. rewrite Hct in H. exact H.
  - assert (untracked (entries st) (tenant_of p)) as Hu.
    { destruct Hb as [Ha _ _ _ _]. apply Forall_forall. intros c Hc E. rewrite Forall_forall in Ha.
      rewrite find_index_None in Hf. specialize (Hf c Hc).
      rewrite (proj2 (tracks_true (tenant_of p) c)) in Hf by auto. discriminate. }
    unfold TELEMETRY_STORE_MAX_TENANTS. destruct (Z.leb_spec 16 (s_cardinality_count st)).
    + split; [exact Hcs|]. split; [exact Hcc|]. rewrite Hp. apply book_full; [exact Hb|exact Hu|lia].
    + set (c := mk_cardinality _ 0 true).
      assert (cstr_of (c_tenant_id c) = tenant_of p) as Hct.
      { cbn. rewrite cstr_of_strncpy by apply cstr_of_c_string. apply take_ge. unfold good_tag in Hgood. lia. }
      set (n := s_cardinality_count st) in *. cbn [s_cardinality s_cardinality_count s_store s_store_count set_field].
      fold (points st). rewrite length_alter, store_length. split; [exact Hcs|].
      rewrite u8_small by (unfold is_u8; lia). split; [lia|].
      unfold entries. cbn [s_cardinality s_cardinality_count set_field].
      rewrite (alter_lookup _ _ _ c) by (unfold store; apply list_lookup_insert_eq; lia).
      unfold store. rewrite list_insert_insert_eq. fold (store n (c <| series_count :=
        (count_series (tenant_of p) (points st)).2 |>) (s_cardinality st)).
      rewrite used_store_append by lia. fold (entries st). rewrite Hcount, Hp.
      pose proof (book_append _ _ p c Hb Hu ltac:(lia) eq_refl Hct) as Hbk.
      unfold recount in Hbk. rewrite Hct in Hbk. exact Hbk.
Qed.

(** A write into a store with room is accepted and adds the point. *)
Lemma write_spec st p :
  wf st -> good_tag (tenant_of p) ->
  s_store_count st < TELEMETRY_STORE_MAX_SERIES ->
  let '(res, st') := telemetry_store_write st (Some p) in
  res = STORE_OK /\ wf st' /\ points st' = points st ++ [p].
Proof.
  intros [Hi Hs Hc Hcs Hcc Hb] Hgood Hroom.
  unfold telemetry_store_write. rewrite Hi. cbn [negb].
  unfold TELEMETRY_STORE_MAX_SERIES, TELEMETRY_STORE_MAX_TENANTS in *.
  destruct (Z.leb_spec 1024 (s_store_count st)); [lia|]. fold (tenant_of p).
  set (st1 := set_field (s_store_count st + 1) (set_field _ st)).
  assert (points st1 = points st ++ [p]) as Hp1.
  { unfold points, st1. cbn [s_store s_store_count set_field]. apply used_store_append. lia. }
  assert (s_initialised st1 = true /\ length (s_store st1) = 1024%nat /\ 0 <= s_store_count st1 <= 1024)
    as (Hi1 & Hs1 & Hc1) by (cbn; rewrite store_length; split; [exact Hi|split; [exact Hs|lia]]).
  assert (length (points st1) <= 1024)%nat as Hlen by (unfold points; rewrite used_length by lia; lia).
  destruct (update_book st1 (points st) p Hp1 Hlen Hgood Hcs Hcc Hb) as (Hcs' & Hcc' & Hb').
  destruct (update_store st1 (tenant_of p)) as (Ei & Es & Ec).
  assert (points (update_cardinality st1 (tenant_of p)) = points st1) as Ep by (unfold points; rewrite Es, Ec; reflexivity).
  split; [reflexivity|]. split; [|rewrite Ep; exact Hp1].
  split; [rewrite Ei; exact Hi1|rewrite Es; exact Hs1|rewrite Ec; exact Hc1|exact Hcs'|exact Hcc'|].
  rewrite Ep. exact Hb'.
Qed.

Lemma write_wf st p :
  wf st -> good_tag (tenant_of p) -> wf (telemetry_store_write st (Some p)).2.
Proof.
  intros Hwf Hg. destruct (Z.lt_ge_cases (s_store_count st) TELEMETRY_STORE_MAX_SERIES) as [Hlt|Hge].
  - pose proof (write_spec st p Hwf Hg Hlt) as H. destruct (telemetry_store_write st (Some p)) as [res st'].
    apply H.
  - unfold telemetry_store_write. rewrite (wf_init _ Hwf). cbn [negb].
    destruct (Z.leb_spec TELEMETRY_STORE_MAX_SERIES (s_store_count st)); [exact Hwf|lia].
Qed.

Lemma init_wf st : wf (telemetry_store_init st).2.
Proof.
  split; cbn; try reflexivity; [unfold TELEMETRY_STORE_MAX_SERIES; lia|unfold TELEMETRY_STORE_MAX_TENANTS; lia|].
  split; [apply Forall_nil_2|apply NoDup_nil_2|apply Forall_nil_2|apply Forall_nil_2|intros _; apply Forall_nil_2].
Qed.

Definition write_all (st : state) (ps : list TelemetryDataPoint_t) : state :=
  fold_left (fun st p => (telemetry_store_write st (Some p)).2) ps st.

Definition good_points (ps : list TelemetryDataPoint_t) : Prop := Forall (fun p => good_tag (tenant_of p)) ps.

(** The store keeps the first 1024 points it is given. *)
Lemma write_all_spec st ps :
  good_points ps ->
  wf (write_all (telemetry_store_init st).2 ps) /\
  points (write_all (telemetry_store_init st).2 ps) = take 1024 ps.
Proof.
  intros Hg. unfold write_all. induction ps as [|p ps IH] using rev_ind.
  - split; [apply init_wf|reflexivity].
  - apply Forall_app in Hg as [Hg [Hp _]%Forall_cons]. destruct (IH Hg) as [Hwf Hps].
    rewrite fold_left_app. cbn [fold_left]. set (st' := fold_left _ ps _) in *. clearbody st'.
    pose proof Hwf as [Hi Hs Hc _ _ _]. unfold TELEMETRY_STORE_MAX_SERIES in Hc.
    assert (length (points st') = Z.to_nat (s_store_count st')) as Hl by (unfold points; apply used_length; lia).
    rewrite Hps, length_take in Hl.
    destruct (Z.lt_ge_cases (s_store_count st') TELEMETRY_STORE_MAX_SERIES) as [Hlt|Hge];
      unfold TELEMETRY_STORE_MAX_SERIES in *.
    + pose proof (write_spec st' p Hwf Hp Hlt) as H. destruct (telemetry_store_write st' (Some p)) as [res st''].
      destruct H as (_ & Hwf' & Hp'). split; [exact Hwf'|]. cbn. rewrite Hp', Hps.
      rewrite !(take_ge) by (rewrite ?length_app; cbn; lia). reflexivity.
    + unfold telemetry_store_write. rewrite Hi. unfold TELEMETRY_STORE_MAX_SERIES.
      destruct (Z.leb_spec 1024 (s_store_count st')); [|lia]. split; [exact Hwf|]. cbn [negb snd].
      rewrite Hps, take_app_le by lia. reflexivity.
Qed.

(** The query loop. *)
Lemma query_loop t max ps out :
  0 <= max -> (length out <= Z.to_nat max)%nat ->
  fold_left (fun out p => if Z.of_nat (length out) <? max then
                            if of_tenant t p then out ++ [p] else out
                          else out) ps out
  = out ++ take (Z.to_nat max - length out) (List.filter (of_tenant t) ps).
Proof.
  intros Hmax. revert out. induction ps as [|p ps IH]; intros out Hn; cbn [fold_left List.filter].
  - rewrite take_nil, app_nil_r. reflexivity.
  - destruct (Z.ltb_spec (Z.of_nat (length out)) max).
    + destruct (of_tenant t p); [|apply IH, Hn].
      rewrite IH by (rewrite length_app; cbn; lia). rewrite length_app, <- app_assoc. cbn [length app].
      replace (Z.to_nat max - length out)%nat with (S (Z.to_nat max - (length out + 1))) by lia. reflexivity.
    + rewrite IH by exact Hn. replace (Z.to_nat max - length out)%nat with 0%nat by lia.
      rewrite !take_0. reflexivity.
Qed.

(** ** Properties *)

(** C14. Tenant isolation: after any writes, a token issued for a tenant reads exactly
    the points written for that tenant, in order, among the first 1024 written,
    up to the caller's limit; never a point of another tenant. *)
Theorem tenant_isolation st0 ps t max st1 token :
  good_points ps -> c_string t -> good_tag t -> t <> [] -> 0 <= max ->
  telemetry_issue_tenant_token (write_all (telemetry_store_init st0).2 ps) (Some t) true
    = (STORE_OK, Some token, st1) ->
  telemetry_store_query st1 (Some token) true max =
  (STORE_OK, take (Z.to_nat max) (List.filter (of_tenant t) (take 1024 ps))).
Proof.
  intros Hg Ht Hgt Hne Hmax. destruct (write_all_spec st0 ps Hg) as [Hwf Hps].
  set (st := write_all _ ps) in *. clearbody st. pose proof Hwf as [Hi _ _ _ _ _].
  unfold telemetry_issue_tenant_token. rewrite Hi. cbn [negb]. intros [= <- <-].
  assert (cstr_of (strncpy 63 t ++ [0]) = t) as Htok.
  { rewrite cstr_of_strncpy by exact Ht. apply take_ge. exact Hgt. }
  unfold telemetry_store_query. cbn [s_initialised s_store s_store_count set_field valid bound_tenant_id].
  rewrite Hi, Htok. cbn [negb]. rewrite bool_decide_eq_false_2 by exact Hne.
  fold (points st). rewrite Hps. rewrite query_loop by (cbn; lia). cbn [length app]. rewrite Nat.sub_0_r. reflexivity.
Qed.

(** As long as the points kept come from at most 16 tenants, the cardinality
    reported for any tenant is its number of distinct series (site, node and
    metric) among them. *)
Theorem cardinality_exact st0 ps t :
  good_points ps -> (length (remove_dups (tenant_of <$> take 1024 ps)) <= 16)%nat ->
  telemetry_store_get_cardinality (write_all (telemetry_store_init st0).2 ps) (Some t) =
  Z.of_nat (length (series t (take 1024 ps))).
Proof.
  intros Hg Hten. destruct (write_all_spec st0 ps Hg) as [Hwf Hps].
  set (st := write_all _ ps) in *. clearbody st. rewrite <- Hps in *.
  destruct Hwf as [Hi _ _ _ _ [Ha Hd Hs Ho Ht]].
  unfold telemetry_store_get_cardinality. rewrite Hi. cbn [negb]. fold (entries st).
  destruct (find_first (tracks t) (entries st)) as [c|] eqn:Hf.
  - apply find_first_Some in Hf as [Hin [_ Hc]%tracks_true].
    rewrite Forall_forall in Hs. rewrite (Hs c Hin), Hc. reflexivity.
  - rewrite find_first_None in Hf. rewrite series_nil; [reflexivity|].
    assert (Forall (fun c => cstr_of (c_tenant_id c) <> t) (entries st)) as Hno.
    { apply Forall_forall. intros c Hc E. specialize (Hf c Hc). rewrite Forall_forall in Ha.
      rewrite (proj2 (tracks_true t c)) in Hf by auto. discriminate. }
    apply Forall_forall. intros p Hp E.
    assert (~ (length (entries st) < 16)%nat) as Hfull.
    { intros Hlt. specialize (Ht Hlt). rewrite Forall_forall in Ht. rewrite Forall_forall in Hno.
      destruct (Ht p Hp) as (c & Hc & Hct). apply (Hno c Hc). congruence. }
    assert (length (t :: ((fun c => cstr_of (c_tenant_id c)) <$> entries st)) <=
            length (remove_dups (tenant_of <$> points st)))%nat as Hle.
    2: { cbn in Hle. rewrite length_fmap in Hle. lia. }
    apply submseteq_length, NoDup_submseteq.
    + apply NoDup_cons. split.
      * intros (c & Hct & Hc)%list_elem_of_fmap. rewrite Forall_forall in Hno. apply (Hno c Hc). congruence.
      * apply (NoDup_fmap_1 Some). rewrite <- list_fmap_compose.
        erewrite (Forall_fmap_ext_1 _ entry_tenant); [exact Hd|].
        eapply Forall_impl; [exact Ha|]. intros c Hc. cbn. unfold entry_tenant. rewrite Hc. reflexivity.
    + intros t' Ht'. apply elem_of_remove_dups. apply elem_of_cons in Ht' as [->|Ht'].
      * rewrite <- E. apply list_elem_of_fmap_2, Hp.
      * apply list_elem_of_fmap in Ht' as (c & -> & Hc). rewrite Forall_forall in Ho. apply Ho, Hc.
Qed.

(** The id of a token is never looked up: a token nobody issued, with the valid
    flag set by whoever made it, reads the tenant it names. *)
Theorem forged_token_accepted st ps t i max :
  good_points ps -> c_string t -> good_tag t -> t <> [] -> 0 <= max ->
  (telemetry_store_query (write_all (telemetry_store_init st).2 ps)
     (Some (mk_token i (strncpy 63 t ++ [0]) true)) true max).1 = STORE_OK.
Proof.
  intros Hg Ht Hgt Hne Hmax. destruct (write_all_spec st ps Hg) as [[Hi _ _ _ _ _] _].
  unfold telemetry_store_query. rewrite Hi. cbn [negb valid bound_tenant_id].
  rewrite cstr_of_strncpy by exact Ht. rewrite take_ge by exact Hgt.
  rewrite bool_decide_eq_false_2 by exact Hne. reflexivity.
Qed.

(** ** The theorems on a concrete store *)

Definition tag (s : string) : list Z := strncpy 63 (cstr s) ++ [0].

Definition demo_point (tenant node : string) (ts : Z) : TelemetryDataPoint_t :=
  mk_point (tag tenant) (tag "site") (tag node) (tag "") (tag "temp") (tag "") 0 ts.

Definition demo_points : list TelemetryDataPoint_t :=
  [demo_point "acme" "n1" 1; demo_point "zeta" "n1" 2; demo_point "acme" "n2" 3; demo_point "acme" "n1" 4].

Lemma demo_points_good : good_points demo_points.
Proof. repeat constructor; unfold good_tag; vm_compute; lia. Qed.

Lemma tenant_isolation_witness :
  let st := write_all (telemetry_store_init initial).2 demo_points in
  telemetry_store_query (telemetry_issue_tenant_token st (Some (cstr "acme")) true).2
    (telemetry_issue_tenant_token st (Some (cstr "acme")) true).1.2 true 2
  = (STORE_OK, [demo_point "acme" "n1" 1; demo_point "acme" "n2" 3]).
Proof.
  intros st. destruct (telemetry_issue_tenant_token st (Some (cstr "acme")) true) as [[res token] st1] eqn:E.
  assert (res = STORE_OK /\ exists tk, token = Some tk) as [-> [tk ->]].
  { revert E. unfold telemetry_issue_tenant_token. destruct (write_all_spec initial demo_points demo_points_good)
      as [[Hi _ _ _ _ _] _]. fold st in Hi. rewrite Hi. intros [= <- <- <-]. eauto. }
  cbn [fst snd]. rewrite (tenant_isolation initial demo_points (cstr "acme") 2 st1 tk demo_points_good).
  - reflexivity.
  - repeat constructor; discriminate.
  - unfold good_tag. vm_compute. lia.
  - discriminate.
  - lia.
  - exact E.
Defined.

Lemma cardinality_exact_witness :
  telemetry_store_get_cardinality (write_all (telemetry_store_init initial).2 demo_points) (Some (cstr "acme")) = 2.
Proof.
  rewrite (cardinality_exact initial demo_points (cstr "acme") demo_points_good).
  - vm_compute. reflexivity.
  - vm_compute. lia.
Defined.

Lemma forged_token_accepted_witness :
  (telemetry_store_query (write_all (telemetry_store_init initial).2 demo_points)
     (Some (mk_token 77 (strncpy 63 (cstr "zeta") ++ [0]) true)) true 5).1 = STORE_OK.
Proof.
  apply (forged_token_accepted initial demo_points (cstr "zeta") 77 5 demo_points_good).
  - repeat constructor; discriminate.
  - unfold good_tag. vm_compute. lia.
  - discriminate.
  - lia.
Defined.

End telemetry_store.
