(* ===== verification/Influx.v ===== *)
(** The InfluxDB client (firmware/shared/influxdb_client.c): telemetry points in
    line protocol, sent over an HTTP transport to the bucket of a tenant.  The
    text buffers are memories with bounds: a write outside of one is [None]. *)

From S2P Require Import Prelude Float32 Text Printf TelemetryStore.
Import float32 text printf.
Import telemetry_store(TenantToken_t, mk_token, valid, bound_tenant_id).

Module influxdb_client.

Definition INFLUXDB_MAX_URL_LEN : Z := 256.
Definition INFLUXDB_MAX_TOKEN_LEN : Z := 128.
Definition INFLUXDB_MAX_BUCKET_LEN : Z := 64.
Definition INFLUXDB_MAX_LINE_LEN : Z := 512.

(** [http_request url method headers body capacity]: the answer, the bytes
    stored in the response buffer, and the world after the request. *)
Record InfluxDBTransport_t (W : Type) := mk_transport {
  http_request : list Z -> list Z -> list (list Z) -> list Z -> Z -> W -> bool * list Z * W }.
Arguments mk_transport {W}.
Arguments http_request {W}.

(** Character arrays that hold C strings. *)
Record InfluxDBConfig_t := mk_config {
  base_url : list Z;
  api_token : list Z;
  org : list Z }.

Record InfluxDBPoint_t := mk_point {
  measurement : list Z;
  tags : list (list Z);
  tag_count : Z;
  field_key : list Z;
  field_value : float;
  timestamp_ns : Z }.

Inductive InfluxDBResult_t :=
| INFLUX_OK
| INFLUX_ERR_PARAM_NULL
| INFLUX_ERR_TRANSPORT
| INFLUX_ERR_BUFFER_FULL
| INFLUX_ERR_LINE_TOO_LONG
| INFLUX_ERR_QUERY_FAILED
| INFLUX_ERR_NOT_CONFIGURED
| INFLUX_ERR_UNAUTHORIZED.

#[export] Instance InfluxDBResult_eq_dec : EqDecision InfluxDBResult_t.
Proof. solve_decision. Defined.

Record state (W : Type) := mk_state {
  s_config : InfluxDBConfig_t;
  s_transport : option (InfluxDBTransport_t W);
  s_initialised : bool }.
Arguments mk_state {W}.
Arguments s_config {W}.
Arguments s_transport {W}.
Arguments s_initialised {W}.

Definition zero_config : InfluxDBConfig_t := mk_config (zeros 256) (zeros 128) (zeros 64).

(** ** Buffers *)

(** Bytes stored at an index of a memory. *)
Definition poke (mem : list Z) (i : Z) (bs : list Z) : option (list Z) :=
  if (0 <=? i) && (i + Z.of_nat (length bs) <=? Z.of_nat (length mem))
  then Some (take (Z.to_nat i) mem ++ bs ++ drop (Z.to_nat i + length bs) mem)
  else None.

Definition backslash : Z := 92.
Definition newline : Z := 10.
Definition comma : Z := 44.
Definition space : Z := 32.
Definition equals : Z := 61.

Definition separator (c : Z) : bool := (c =? comma) || (c =? space).

(** ** Line protocol *)

(** The loop of [escape_tag_value]; [out] is the memory of [out_buf]. *)
Fixpoint escape_loop (size : Z) (value : list Z) (out : list Z) (written : Z) : option (list Z * Z) :=
  match value with
  | [] => Some (out, written)
  | c :: value =>
      if written <? size - 1 then
        if separator c then
          if written + 1 <? size then
            out ← poke out written [backslash];
            out ← poke out (written + 1) [c];
            escape_loop size value out (written + 2)
          else Some (out, written)
        else
          out ← poke out written [c];
          escape_loop size value out (written + 1)
      else Some (out, written)
  end.

Definition escape_tag_value (value out : list Z) (size : Z) : option (list Z * Z) :=
  '(out, written) ← escape_loop size value out 0;
  out ← poke out written [0];
  Some (out, written).

(** The line buffer is the part of a memory from [base] on; [pos] is the place in it. *)
Section emit.
Context (base remaining : Z).

(** [if (pos < remaining) line_buf[pos++] = b;] *)
Definition emit (b : Z) (mp : list Z * Z) : option (list Z * Z) :=
  let '(mem, pos) := mp in
  if pos <? remaining then mem ← poke mem (base + pos) [b]; Some (mem, pos + 1) else Some mp.

Fixpoint emit_text (s : list Z) (mp : list Z * Z) : option (list Z * Z) :=
  match s with
  | [] => Some mp
  | c :: s => if mp.2 <? remaining then mp ← emit c mp; emit_text s mp else Some mp
  end.

Fixpoint emit_measurement (s : list Z) (mp : list Z * Z) : option (list Z * Z) :=
  match s with
  | [] => Some mp
  | c :: s =>
      if mp.2 <? remaining then
        mp ← (if separator c then mem ← poke mp.1 (base + mp.2) [backslash]; Some (mem, mp.2 + 1) else Some mp);
        mp ← emit c mp;
        emit_measurement s mp
      else Some mp
  end.

(** One tag, a C string. *)
Definition emit_tag (tag : list Z) (mp : list Z * Z) : option (list Z * Z) :=
  match tag with
  | [] => Some mp
  | _ =>
      mp ← emit comma mp;
      match split_at equals tag with
      | None => Some mp
      | Some (key, value) =>
          mp ← emit_text key mp;
          mp ← emit equals mp;
          '(escaped, _) ← escape_tag_value value (zeros 128) 128;
          emit_text (cstr_of escaped) mp
      end
  end.

Fixpoint emit_tags (l : list (list Z)) (mp : list Z * Z) : option (list Z * Z) :=
  match l with
  | [] => Some mp
  | tag :: l => mp ← emit_tag (cstr_of tag) mp; emit_tags l mp
  end.

(** [pos += snprintf(line_buf + pos, remaining - pos, ...)]: the size is a
    [size_t] of 64 bits, and what does not fit it is not written but counted. *)
Definition emit_printf (s : list Z) (mp : list Z * Z) : option (list Z * Z) :=
  let '(mem, pos) := mp in
  let size := u64 (remaining - pos) in
  mem ← (if size =? 0 then Some mem
         else poke mem (base + pos) (take (Z.to_nat (Z.min (size - 1) (Z.of_nat (length s)))) s ++ [0]));
  Some (mem, pos + Z.of_nat (length s)).

End emit.

(** The line up to the value. *)
Definition encode_head (base remaining : Z) (p : InfluxDBPoint_t) (mem : list Z) : option (list Z * Z) :=
  mp ← emit_measurement base remaining (cstr_of (measurement p)) (mem, 0);
  mp ← emit_tags base remaining (take (Z.to_nat (Z.min (tag_count p) 8)) (tags p)) mp;
  mp ← emit base remaining space mp;
  mp ← emit_text base remaining (cstr_of (field_key p)) mp;
  emit base remaining equals mp.

(** The memory, and the length returned. *)
Definition influxdb_encode_line (point : option InfluxDBPoint_t) (mem : list Z) (base buf_size : Z)
  : option (list Z * Z) :=
  match point with
  | None => Some (mem, 0)
  | Some p =>
      if buf_size =? 0 then Some (mem, 0)
      else
        let remaining := buf_size - 1 in
        mp ← encode_head base remaining p mem;
        mp ← emit_printf base remaining (print_g (field_value p)) mp;
        mp ← (if 0 <? timestamp_ns p then
                mp ← emit base remaining space mp;
                emit_printf base remaining (print_u (timestamp_ns p)) mp
              else Some mp);
        mem ← poke mp.1 (base + mp.2) [0];
        Some (mem, mp.2)
  end.

(** ** Requests *)

Definition derive_bucket (tenant_id : list Z) (bucket_size : Z) : list Z :=
  (snprintf bucket_size (cstr "telemetry-" ++ tenant_id)).1.

(** A NULL token is not valid. *)
Definition validate_token (token : option TenantToken_t) : bool :=
  match token with
  | None => false
  | Some t => if negb (valid t) then false else negb (bool_decide (cstr_of (bound_tenant_id t) = []))
  end.

Section client.
Context {W : Type}.
Implicit Types (st : state W) (w : W).

(** The URL; [None] is [false]. *)
Definition make_write_url st (url_size : Z) (token : TenantToken_t) : option (list Z) :=
  if bool_decide (cstr_of (base_url (s_config st)) = []) then None
  else
    let bucket := derive_bucket (cstr_of (bound_tenant_id token)) INFLUXDB_MAX_BUCKET_LEN in
    let '(url, n) := snprintf url_size (cstr_of (base_url (s_config st)) ++ cstr "/api/v2/write?org=" ++
                       cstr_of (org (s_config st)) ++ cstr "&bucket=" ++ bucket ++ cstr "&precision=ns") in
    if (0 <? n) && (n <? url_size) then Some url else None.

Definition make_auth_header st (header_size : Z) : list Z :=
  (snprintf header_size (cstr "Authorization: Token " ++ cstr_of (api_token (s_config st)))).1.

Definition make_query_url st (url_size : Z) : option (list Z) :=
  if bool_decide (cstr_of (base_url (s_config st)) = []) then None
  else
    let '(url, n) := snprintf url_size (cstr_of (base_url (s_config st)) ++ cstr "/api/v2/query?org=" ++
                       cstr_of (org (s_config st))) in
    if (0 <? n) && (n <? url_size) then Some url else None.

(** The tail of both writes: address, headers and request. *)
Definition send_write st (t : InfluxDBTransport_t W) (token : TenantToken_t) (body : list Z) w
  : InfluxDBResult_t * W :=
  match make_write_url st INFLUXDB_MAX_URL_LEN token with
  | None => (INFLUX_ERR_BUFFER_FULL, w)
  | Some url =>
      let auth_header := make_auth_header st (INFLUXDB_MAX_TOKEN_LEN + 32) in
      let headers := [auth_header; cstr "Content-Type: text/plain; charset=utf-8"] in
      let '(ok, _, w) := http_request t url (cstr "POST") headers body 64 w in
      (if ok then INFLUX_OK else INFLUX_ERR_TRANSPORT, w)
  end.

(** The line buffer starts with whatever the stack holds; only bytes written to
    it are sent, so the model starts it with zeros. *)
Definition influxdb_write st (point : option InfluxDBPoint_t) (token : option TenantToken_t) w
  : option (InfluxDBResult_t * W) :=
  match s_initialised st, s_transport st with
  | true, Some t =>
      match point, token with
      | Some p, Some tok =>
          if negb (validate_token token) then Some (INFLUX_ERR_UNAUTHORIZED, w)
          else
            '(line, line_len) ← influxdb_encode_line point (zeros 512) 0 INFLUXDB_MAX_LINE_LEN;
            if line_len =? 0 then Some (INFLUX_ERR_LINE_TOO_LONG, w)
            else Some (send_write st t tok (take (Z.to_nat line_len) line) w)
      | _, _ => Some (INFLUX_ERR_PARAM_NULL, w)
      end
  | _, _ => Some (INFLUX_ERR_NOT_CONFIGURED, w)
  end.

(** The loop over the points: the buffer and [total], or that a line did not fit. *)
Fixpoint batch_lines (points : list InfluxDBPoint_t) (buf_size : Z) (buf : list Z) (total : Z)
  : option (list Z * Z * bool) :=
  match points with
  | [] => Some (buf, total, true)
  | p :: points =>
      '(buf, line_len) ← influxdb_encode_line (Some p) buf total (u64 (buf_size - total - 1));
      if line_len =? 0 then Some (buf, total, false)
      else
        let total := total + line_len in
        '(buf, total) ← (if total <? u64 (buf_size - 1)
                         then buf ← poke buf total [newline]; Some (buf, total + 1) else Some (buf, total));
        batch_lines points buf_size buf total
  end.

(** The code, the caller's buffer and the world. *)
Definition influxdb_write_batch st (points : option (list InfluxDBPoint_t)) (count : Z)
    (batch_buf : option (list Z)) (buf_size : Z) (token : option TenantToken_t) w
  : option (InfluxDBResult_t * option (list Z) * W) :=
  match s_initialised st, s_transport st with
  | true, Some t =>
      match points, batch_buf with
      | Some points, Some buf =>
          if count =? 0 then Some (INFLUX_ERR_PARAM_NULL, batch_buf, w)
          else
            match token with
            | None => Some (INFLUX_ERR_PARAM_NULL, batch_buf, w)
            | Some tok =>
                if negb (validate_token token) then Some (INFLUX_ERR_UNAUTHORIZED, batch_buf, w)
                else
                  '(buf, total, ok) ← batch_lines (take (Z.to_nat count) points) buf_size buf 0;
                  if negb ok then Some (INFLUX_ERR_BUFFER_FULL, Some buf, w)
                  else
                    let total :=
                      if (0 <? total) && (nth (Z.to_nat (total - 1)) buf 0 =? newline) then total - 1 else total in
                    buf ← poke buf total [0];
                    let '(res, w) := send_write st t tok (take (Z.to_nat total) buf) w in
                    Some (res, Some buf, w)
            end
      | _, _ => Some (INFLUX_ERR_PARAM_NULL, batch_buf, w)
      end
  | _, _ => Some (INFLUX_ERR_NOT_CONFIGURED, batch_buf, w)
  end.

(** [response] says whether the caller gave a buffer and a length, [capacity] is
    the length on input; the bytes stored in the response are returned. *)
Definition influxdb_query st (flux_query : option (list Z)) (response : bool) (capacity : Z)
    (token : option TenantToken_t) w : InfluxDBResult_t * option (list Z) * W :=
  match s_initialised st, s_transport st with
  | true, Some t =>
      match flux_query with
      | None => (INFLUX_ERR_PARAM_NULL, None, w)
      | Some q =>
          if negb response then (INFLUX_ERR_PARAM_NULL, None, w)
          else
            match token with
            | None => (INFLUX_ERR_PARAM_NULL, None, w)
            | Some _ =>
                if negb (validate_token token) then (INFLUX_ERR_UNAUTHORIZED, None, w)
                else
                  match make_query_url st INFLUXDB_MAX_URL_LEN with
                  | None => (INFLUX_ERR_BUFFER_FULL, None, w)
                  | Some url =>
                      let auth_header := make_auth_header st (INFLUXDB_MAX_TOKEN_LEN + 32) in
                      let headers := [auth_header; cstr "Content-Type: application/vnd.flux";
                                      cstr "Accept: application/csv"] in
                      let '(ok, bytes, w) := http_request t url (cstr "POST") headers q capacity w in
                      (if ok : bool then INFLUX_OK else INFLUX_ERR_QUERY_FAILED, Some bytes, w)
                  end
            end
      end
  | _, _ => (INFLUX_ERR_NOT_CONFIGURED, None, w)
  end.

(** A tag [name=value] printed into its 64 bytes; NULL and empty values have none. *)
Definition add_tag (name : list Z) (value : option (list Z)) (l : list (list Z)) : list (list Z) :=
  match value with
  | Some (c :: v) => l ++ [(snprintf 64 (name ++ equals :: c :: v)).1]
  | _ => l
  end.

(** The point, for a token whose tenant is not empty. *)
Definition telemetry_point (t : TenantToken_t)
    (site_id node_id device_class metric_id domain_profile_id : option (list Z))
    (value : float) (timestamp_ms : Z) : InfluxDBPoint_t :=
  let l := add_tag (cstr "tenant_id") (Some (take 53 (cstr_of (bound_tenant_id t)))) [] in
  let l := add_tag (cstr "site_id") site_id l in
  let l := add_tag (cstr "node_id") node_id l in
  let l := add_tag (cstr "device_class") device_class l in
  let l := add_tag (cstr "metric_id") metric_id l in
  let l := add_tag (cstr "domain_profile_id") domain_profile_id l in
  mk_point (strncpy 63 (cstr "node_telemetry") ++ [0])
           (map (fun s => strncpy 63 s ++ [0]) l ++ replicate (8 - length l) (zeros 64))
           (Z.of_nat (length l)) (strncpy 63 (cstr "value") ++ [0]) value
           (u64 (timestamp_ms * 1000000)).

Definition influxdb_write_telemetry st (token : option TenantToken_t)
    (site_id node_id device_class metric_id domain_profile_id : option (list Z))
    (value : float) (timestamp_ms : Z) w : option (InfluxDBResult_t * W) :=
  if negb (validate_token token) then Some (INFLUX_ERR_UNAUTHORIZED, w)
  else
    match token, node_id, metric_id with
    | Some t, Some _, Some _ =>
        let point := telemetry_point t site_id node_id device_class metric_id domain_profile_id value timestamp_ms in
        influxdb_write st (Some point) token w
    | _, _, _ => Some (INFLUX_ERR_PARAM_NULL, w)
    end.

Definition influxdb_reset st : state W := mk_state zero_config None false.

Definition influxdb_init st (config : option InfluxDBConfig_t) (transport : option (InfluxDBTransport_t W))
  : bool * state W :=
  let st := influxdb_reset st in
  match config, transport with
  | Some c, Some t => (true, mk_state c (Some t) true)
  | _, _ => (false, st)
  end.

End client.

(** ** The text of a line *)

Definition escape (s : list Z) : list Z :=
  flat_map (fun c => if separator c then [backslash; c] else [c]) s.

Definition tag_text (tag : list Z) : list Z :=
  match tag with
  | [] => []
  | _ => comma :: match split_at equals tag with
                  | Some (key, value) => key ++ equals :: escape value
                  | None => []
                  end
  end.

Definition used_tags (p : InfluxDBPoint_t) : list (list Z) :=
  map cstr_of (take (Z.to_nat (Z.min (tag_count p) 8)) (tags p)).

(** A line up to the value, the rest of it, and the whole. *)
Definition line_head (p : InfluxDBPoint_t) : list Z :=
  escape (cstr_of (measurement p)) ++ flat_map tag_text (used_tags p) ++ space :: cstr_of (field_key p) ++ [equals].

Definition stamp_text (ns : Z) : list Z := if 0 <? ns then space :: print_u ns else [].

Definition line_text (p : InfluxDBPoint_t) : list Z :=
  line_head p ++ print_g (field_value p) ++ stamp_text (timestamp_ns p).

(** ** The buffer holds the text, cut to its size *)

Lemma poke_Some mem i bs :
  0 <= i -> i + Z.of_nat (length bs) <= Z.of_nat (length mem) ->
  exists mem', poke mem i bs = Some mem' /\ length mem' = length mem /\
    take (Z.to_nat i + length bs) mem' = take (Z.to_nat i) mem ++ bs.
Proof.
  intros Hi Hl. unfold poke. rewrite (proj2 (Z.leb_le _ _) Hi), (proj2 (Z.leb_le _ _) Hl). cbn [andb].
  eexists. split; [reflexivity|]. split.
  - rewrite !length_app, length_take, length_drop. lia.
  - rewrite app_assoc. apply take_app_length'. rewrite length_app, length_take. lia.
Qed.

Lemma poke_None mem i bs : Z.of_nat (length mem) < i + Z.of_nat (length bs) -> poke mem i bs = None.
Proof. intros H. unfold poke. rewrite (proj2 (Z.leb_gt _ _) H), andb_false_r. reflexivity. Qed.

Lemma escape_length s : (length (escape s) <= 2 * length s)%nat.
Proof.
  induction s as [|c s IH]; [cbn; lia|]. cbn [escape flat_map]. fold (escape s). rewrite length_app.
  destruct (separator c); cbn [length]; lia.
Qed.

Lemma escape_c_string s : c_string s -> c_string (escape s).
Proof.
  unfold c_string. induction 1 as [|c s Hc Hs IH]; [constructor|]. cbn [escape flat_map]. fold (escape s).
  apply Forall_app_2; [|exact IH]. destruct (separator c); repeat constructor; [discriminate|exact Hc..].
Qed.

Lemma escape_loop_text value out written text :
  length out = 128%nat -> written = Z.of_nat (length text) -> take (length text) out = text ->
  written + 2 * Z.of_nat (length value) < 127 ->
  exists out', escape_loop 128 value out written = Some (out', Z.of_nat (length (text ++ escape value))) /\
    length out' = 128%nat /\ take (length (text ++ escape value)) out' = text ++ escape value.
Proof.
  revert out written text. induction value as [|c value IH]; intros out written text Hl Hw Ht Hfit.
  - exists out. cbn [escape_loop escape flat_map]. rewrite app_nil_r, Hw. auto.
  - cbn [length] in Hfit. cbn [escape_loop].
    rewrite (proj2 (Z.ltb_lt written (128 - 1))) by lia.
    assert (forall b o n tx, length o = 128%nat -> n = Z.of_nat (length tx) -> take (length tx) o = tx -> n < 127 ->
              exists o', poke o n [b] = Some o' /\ length o' = 128%nat /\ take (length (tx ++ [b])) o' = tx ++ [b])
      as Hput.
    { intros b o n tx Ho Hn Htx Hlt. destruct (poke_Some o n [b]) as (o' & -> & Hlo & Hto); [lia|cbn; lia|].
      exists o'. split; [reflexivity|]. split; [lia|]. rewrite length_app.
      replace (length tx) with (Z.to_nat n) in * by lia. rewrite Hto. congruence. }
    destruct (separator c) eqn:Esep.
    + rewrite (proj2 (Z.ltb_lt (written + 1) 128)) by lia.
      destruct (Hput backslash out written text Hl Hw Ht) as (o1 & -> & Hl1 & Ht1); [lia|]. cbn [mbind option_bind].
      destruct (Hput c o1 (written + 1) (text ++ [backslash]) Hl1) as (o2 & -> & Hl2 & Ht2);
        [rewrite length_app; cbn; lia|exact Ht1|lia|]. cbn [mbind option_bind].
      destruct (IH o2 (written + 2) ((text ++ [backslash]) ++ [c]) Hl2) as (o3 & H3); [rewrite !length_app; cbn; lia|exact Ht2|lia|].
      exists o3. cbn [escape flat_map]. rewrite Esep. fold (escape value). rewrite <- !app_assoc in H3. exact H3.
    + destruct (Hput c out written text Hl Hw Ht) as (o1 & -> & Hl1 & Ht1); [lia|]. cbn [mbind option_bind].
      destruct (IH o1 (written + 1) (text ++ [c]) Hl1) as (o3 & H3); [rewrite length_app; cbn; lia|exact Ht1|lia|].
      exists o3. cbn [escape flat_map]. rewrite Esep. fold (escape value). rewrite <- !app_assoc in H3. exact H3.
Qed.

(** The value of a tag has at most 62 bytes, so its buffer of 128 is never full. *)
Lemma escape_tag_value_text value :
  c_string value -> (length value <= 62)%nat ->
  exists out n, escape_tag_value value (zeros 128) 128 = Some (out, n) /\ cstr_of out = escape value.
Proof.
  intros Hc Hl. unfold escape_tag_value.
  destruct (escape_loop_text value (zeros 128) 0 []) as (o & -> & Hlo & Hto); [apply zeros_length|reflexivity|reflexivity|lia|].
  cbn [mbind option_bind app] in *. pose proof (escape_length value) as Hle.
  destruct (poke_Some o (Z.of_nat (length (escape value))) [0]) as (o' & -> & Hlo' & Hto'); [lia|cbn; lia|].
  eexists _, _. split; [reflexivity|]. rewrite Nat2Z.id, Hto in Hto'.
  rewrite <- (take_drop (length (escape value) + length [0]) o'), Hto', <- app_assoc.
  apply cstr_of_app, escape_c_string, Hc.
Qed.

(** The line started at [base] behind [pre]; [text] is what was emitted since. *)
Section holds.
Context (base remaining cap : Z) (pre : list Z).

Record holds (text : list Z) (mp : list Z * Z) : Prop := {
  h_cap : Z.of_nat (length mp.1) = cap;
  h_pos : mp.2 = Z.min remaining (Z.of_nat (length text));
  h_text : take (Z.to_nat (base + mp.2)) mp.1 = pre ++ take (Z.to_nat remaining) text }.

Hypotheses (Hbase : base = Z.of_nat (length pre)) (Hrem : 0 <= remaining) (Hcap : base + remaining <= cap).

Lemma emit_holds b text mp :
  holds text mp -> exists mp', emit base remaining b mp = Some mp' /\ holds (text ++ [b]) mp'.
Proof.
  destruct mp as [mem pos]. intros [Hc Hp Ht]. cbn [fst snd] in *. unfold emit.
  destruct (Z.ltb_spec pos remaining) as [Hlt|Hge].
  - destruct (poke_Some mem (base + pos) [b]) as (mem' & -> & Hl & Htk); [lia|cbn; lia|].
    eexists. split; [reflexivity|]. split; cbn [fst snd]; [lia|rewrite length_app; cbn; lia|].
    replace (Z.to_nat (base + (pos + 1))) with (Z.to_nat (base + pos) + length [b])%nat by (cbn; lia).
    rewrite Htk, Ht, <- app_assoc. f_equal. rewrite !take_ge; [reflexivity|rewrite length_app; cbn; lia|lia].
  - exists (mem, pos). split; [reflexivity|]. split; cbn [fst snd]; [lia|rewrite length_app; cbn; lia|].
    rewrite Ht. f_equal. rewrite take_app_le by lia. reflexivity.
Qed.

Lemma emit_text_holds s text mp :
  holds text mp -> exists mp', emit_text base remaining s mp = Some mp' /\ holds (text ++ s) mp'.
Proof.
  revert text mp. induction s as [|c s IH]; intros text mp H; cbn [emit_text].
  - exists mp. rewrite app_nil_r. auto.
  - destruct (Z.ltb_spec mp.2 remaining) as [Hlt|Hge].
    + destruct (emit_holds c text mp H) as (mp1 & -> & H1). cbn [mbind option_bind].
      destruct (IH _ _ H1) as (mp2 & -> & H2). exists mp2. rewrite <- app_assoc in H2. auto.
    + exists mp. split; [reflexivity|]. destruct H as [Hc Hp Ht].
      split; [exact Hc|rewrite length_app; lia|]. rewrite Ht. f_equal. rewrite take_app_le by lia. reflexivity.
Qed.

(** The loop over the measurement emits its escaped text. *)
Lemma emit_measurement_text s mp :
  emit_measurement base remaining s mp = emit_text base remaining (escape s) mp.
Proof.
  revert mp. induction s as [|c s IH]; intros [mem pos]; [reflexivity|].
  cbn [emit_measurement escape flat_map]. fold (escape s). destruct (separator c).
  - cbn [app emit_text fst snd]. destruct (pos <? remaining) eqn:E; [|reflexivity].
    cbn [emit]. rewrite E. destruct (poke mem (base + pos) [backslash]) as [m1|]; [|reflexivity].
    cbn [mbind option_bind snd]. destruct (pos + 1 <? remaining) eqn:E1.
    + destruct (emit base remaining c (m1, pos + 1)); [apply IH|reflexivity].
    + unfold emit. rewrite E1. cbn [mbind option_bind]. rewrite IH. destruct (escape s); cbn [emit_text snd]; [reflexivity|]. rewrite E1. reflexivity.
  - cbn [app emit_text fst snd]. destruct (pos <? remaining) eqn:E; [|reflexivity].
    cbn [mbind option_bind]. destruct (emit base remaining c (mem, pos)); [apply IH|reflexivity].
Qed.

(** A tag is a C string of its 64 bytes. *)
Definition good_tag (tag : list Z) : Prop := c_string tag /\ (length tag <= 63)%nat.

Lemma split_at_parts c s k v : split_at c s = Some (k, v) -> s = k ++ c :: v.
Proof.
  revert k. induction s as [|b s IH]; intros k; cbn [split_at]; [discriminate|].
  destruct (Z.eqb_spec b c); [intros [= <- <-]; subst; reflexivity|].
  destruct (split_at c s) as [[k' v']|]; [|discriminate]. intros [= <- <-]. rewrite (IH k' eq_refl). reflexivity.
Qed.

Lemma emit_tag_holds tag text mp :
  good_tag tag -> holds text mp ->
  exists mp', emit_tag base remaining tag mp = Some mp' /\ holds (text ++ tag_text tag) mp'.
Proof.
  intros [Hc Hl] H. destruct tag as [|b tag]; [exists mp; rewrite app_nil_r; auto|].
  unfold emit_tag, tag_text. set (t := b :: tag) in *.
  destruct (emit_holds comma text mp H) as (mp1 & -> & H1). cbn [mbind option_bind].
  destruct (split_at equals t) as [[k v]|] eqn:Hs; [|exists mp1; auto].
  apply split_at_parts in Hs. rewrite Hs in Hc, Hl. rewrite length_app in Hl. cbn [length] in Hl.
  apply Forall_app in Hc as [_ Hc]. apply Forall_cons in Hc as [_ Hc].
  destruct (emit_text_holds k _ _ H1) as (mp2 & -> & H2). cbn [mbind option_bind].
  destruct (emit_holds equals _ _ H2) as (mp3 & -> & H3). cbn [mbind option_bind].
  destruct (escape_tag_value_text v Hc) as (out & n & -> & Hout); [lia|]. cbn [mbind option_bind].
  rewrite Hout. destruct (emit_text_holds (escape v) _ _ H3) as (mp4 & -> & H4).
  exists mp4. split; [reflexivity|]. rewrite <- !app_assoc in H4. exact H4.
Qed.

Lemma emit_tags_holds l text mp :
  Forall (fun buf => good_tag (cstr_of buf)) l -> holds text mp ->
  exists mp', emit_tags base remaining l mp = Some mp' /\ holds (text ++ flat_map tag_text (map cstr_of l)) mp'.
Proof.
  intros Hl. revert text mp. induction Hl as [|t l Ht Hl IH]; intros text mp H.
  - exists mp. rewrite app_nil_r. auto.
  - cbn [emit_tags map flat_map]. destruct (emit_tag_holds _ text mp Ht H) as (mp1 & -> & H1).
    cbn [mbind option_bind]. destruct (IH _ _ H1) as (mp2 & -> & H2). exists mp2. rewrite <- app_assoc in H2. auto.
Qed.

(** A printed number that fits with its NUL is emitted like any text. *)
Lemma emit_printf_holds s text mp :
  holds text mp -> Z.of_nat (length text) + Z.of_nat (length s) < remaining -> remaining < 2 ^ 64 ->
  exists mp', emit_printf base remaining s mp = Some mp' /\ holds (text ++ s) mp'.
Proof.
  destruct mp as [mem pos]. intros [Hc Hp Ht] Hfit H64. cbn [fst snd] in *. unfold emit_printf.
  rewrite u64_small by (unfold is_u64; lia).
  destruct (Z.eqb_spec (remaining - pos) 0); [lia|]. rewrite (take_ge s) by lia.
  destruct (poke_Some mem (base + pos) (s ++ [0])) as (mem' & -> & Hl & Htk);
    [lia|rewrite length_app; cbn; lia|]. cbn [mbind option_bind].
  eexists. split; [reflexivity|]. split; cbn [fst snd]; [lia|rewrite length_app; lia|].
  rewrite (take_ge (text ++ s)) by (rewrite length_app; lia). rewrite (take_ge text) in Ht by lia.
  rewrite app_assoc, <- Ht.
  replace (Z.to_nat (base + (pos + Z.of_nat (length s)))) with (Z.to_nat (base + pos) + length s)%nat by lia.
  rewrite length_app in Htk. apply (f_equal (take (Z.to_nat (base + pos) + length s))) in Htk.
  rewrite take_take, Nat.min_l in Htk by lia. rewrite Htk, app_assoc. apply take_app_length'.
  rewrite length_app, length_take. lia.
Qed.

End holds.

(** ** Encoding a line *)

Definition wf_point (p : InfluxDBPoint_t) : Prop := Forall (fun buf => (length (cstr_of buf) <= 63)%nat) (tags p).

Lemma encode_head_holds base remaining cap pre p mem :
  base = Z.of_nat (length pre) -> 0 <= remaining -> base + remaining <= cap -> wf_point p ->
  Z.of_nat (length mem) = cap -> take (length pre) mem = pre ->
  exists mp, encode_head base remaining p mem = Some mp /\ holds base remaining cap pre (line_head p) mp.
Proof.
  intros Hb Hr Hcap Hp Hm Hpre.
  assert (holds base remaining cap pre [] (mem, 0)) as H0.
  { split; cbn [fst snd]; [exact Hm|cbn; lia|]. rewrite take_nil, app_nil_r.
    replace (Z.to_nat (base + 0)) with (length pre) by lia. exact Hpre. }
  assert (Forall (fun buf => good_tag (cstr_of buf)) (take (Z.to_nat (Z.min (tag_count p) 8)) (tags p))) as Htags.
  { apply Forall_take. apply (Forall_impl _ _ _ Hp). intros buf Hbuf. split; [apply cstr_of_c_string|exact Hbuf]. }
  unfold encode_head. rewrite emit_measurement_text.
  destruct (emit_text_holds base remaining cap pre Hb Hr Hcap (escape (cstr_of (measurement p))) _ _ H0)
    as (mp1 & -> & H1). cbn [mbind option_bind].
  destruct (emit_tags_holds base remaining cap pre Hb Hr Hcap _ _ _ Htags H1) as (mp2 & -> & H2).
  cbn [mbind option_bind].
  destruct (emit_holds base remaining cap pre Hb Hr Hcap space _ _ H2) as (mp3 & -> & H3). cbn [mbind option_bind].
  destruct (emit_text_holds base remaining cap pre Hb Hr Hcap (cstr_of (field_key p)) _ _ H3) as (mp4 & -> & H4).
  cbn [mbind option_bind].
  destruct (emit_holds base remaining cap pre Hb Hr Hcap equals _ _ H4) as (mp5 & -> & H5).
  exists mp5. split; [reflexivity|]. unfold line_head, used_tags.
  rewrite <- !app_assoc in H5. exact H5.
Qed.

(** A line that leaves room for two more bytes is written whole behind what was
    in the buffer before. *)
Lemma encode_line_spec p mem base buf_size :
  wf_point p -> 0 <= base -> base + buf_size <= Z.of_nat (length mem) -> buf_size < 2 ^ 64 ->
  Z.of_nat (length (line_text p)) < buf_size - 1 ->
  exists mem', influxdb_encode_line (Some p) mem base buf_size = Some (mem', Z.of_nat (length (line_text p))) /\
    length mem' = length mem /\
    take (Z.to_nat base + length (line_text p)) mem' = take (Z.to_nat base) mem ++ line_text p.
Proof.
  intros Hp Hb Hcap H64 Hfit. unfold line_text in Hfit. rewrite !length_app in Hfit.
  set (pre := take (Z.to_nat base) mem).
  assert (length pre = Z.to_nat base) as Hlp by (unfold pre; rewrite length_take; lia).
  assert (base = Z.of_nat (length pre)) as Hbase by lia. set (cap := Z.of_nat (length mem)) in *.
  assert (base + (buf_size - 1) <= cap) as Hcap' by lia. assert (0 <= buf_size - 1) as Hr by lia.
  unfold influxdb_encode_line. rewrite (proj2 (Z.eqb_neq _ _)) by lia.
  destruct (encode_head_holds base (buf_size - 1) cap pre p mem Hbase Hr Hcap' Hp eq_refl) as (mp1 & -> & H1);
    [rewrite Hlp; reflexivity|]. cbn [mbind option_bind].
  destruct (emit_printf_holds base (buf_size - 1) cap pre Hbase Hcap' (print_g (field_value p)) _ _ H1)
    as (mp2 & -> & H2); [lia..|]. cbn [mbind option_bind].
  assert (exists mp3, (if 0 <? timestamp_ns p then
                mp ← emit base (buf_size - 1) space mp2;
                emit_printf base (buf_size - 1) (print_u (timestamp_ns p)) mp
              else Some mp2) = Some mp3 /\ holds base (buf_size - 1) cap pre (line_text p) mp3) as (mp3 & -> & H3).
  { unfold line_text, stamp_text in *. rewrite app_assoc. destruct (0 <? timestamp_ns p).
    - destruct (emit_holds base (buf_size - 1) cap pre Hbase Hr Hcap' space _ _ H2) as (mp & -> & H).
      cbn [mbind option_bind]. cbn [length] in Hfit.
      destruct (emit_printf_holds base (buf_size - 1) cap pre Hbase Hcap' (print_u (timestamp_ns p)) _ _ H)
        as (mp3 & -> & H3); [rewrite !length_app; cbn [length]; lia|lia|].
      exists mp3. split; [reflexivity|]. rewrite <- app_assoc in H3. exact H3.
    - exists mp2. rewrite app_nil_r. auto. }
  cbn [mbind option_bind]. destruct mp3 as [m pos]. destruct H3 as [Hc3 Hp3 Ht3]. cbn [fst snd] in *.
  assert (length (line_text p) = length (line_head p) + (length (print_g (field_value p)) + length (stamp_text (timestamp_ns p))))%nat
    as Hll by (unfold line_text; rewrite !length_app; reflexivity).
  destruct (poke_Some m (base + pos) [0]) as (m' & -> & Hl' & Ht'); [lia|cbn; lia|]. cbn [mbind option_bind].
  eexists. split; [do 2 f_equal; lia|]. split; [lia|].
  rewrite (take_ge (line_text p)) in Ht3 by lia. rewrite <- Ht3.
  replace (Z.to_nat base + length (line_text p))%nat with (Z.to_nat (base + pos)) by lia.
  apply (f_equal (take (Z.to_nat (base + pos)))) in Ht'. rewrite take_take, Nat.min_l in Ht' by lia.
  rewrite Ht'. apply take_app_length'. rewrite length_take. lia.
Qed.

(** With the buffer full, a number is counted and not written; with the place
    past its end the size wraps and the number is written out of bounds. *)
Lemma emit_printf_full base remaining s mem :
  emit_printf base remaining s (mem, remaining) = Some (mem, remaining + Z.of_nat (length s)).
Proof. unfold emit_printf. rewrite Z.sub_diag. reflexivity. Qed.

Lemma emit_printf_past remaining s mem n :
  0 <= remaining -> Z.of_nat (length mem) = remaining + 1 -> 0 < n < 2 ^ 63 ->
  emit_printf 0 remaining s (mem, remaining + n) = None.
Proof.
  intros Hr Hm Hn. unfold emit_printf. cbv beta iota.
  assert (u64 (remaining - (remaining + n)) = 2 ^ 64 - n) as ->.
  { unfold u64. replace (remaining - (remaining + n)) with (2 ^ 64 - n + (-1) * 2 ^ 64) by lia.
    rewrite Z_mod_plus_full. apply Z.mod_small. lia. }
  destruct (Z.eqb_spec (2 ^ 64 - n) 0); [lia|]. rewrite poke_None; [reflexivity|].
  rewrite length_app. cbn [length]. lia.
Qed.

(** A line whose part before the value fills the buffer is written past its end. *)
Lemma encode_line_overruns p mem buf_size :
  wf_point p -> 0 < buf_size -> Z.of_nat (length mem) = buf_size -> buf_size < 2 ^ 63 ->
  buf_size - 1 <= Z.of_nat (length (line_head p)) ->
  influxdb_encode_line (Some p) mem 0 buf_size = None.
Proof.
  intros Hp Hs Hm H64 Hlong. unfold influxdb_encode_line. rewrite (proj2 (Z.eqb_neq _ _)) by lia.
  destruct (encode_head_holds 0 (buf_size - 1) buf_size [] p mem) as ([m pos] & -> & H1); [cbn; lia..|exact Hp|lia|reflexivity|].
  destruct H1 as [Hc Hpos _]. cbn [fst snd] in *. cbn [mbind option_bind].
  rewrite Z.min_l in Hpos by lia. subst pos. pose proof (print_g_nonempty (field_value p)) as Hg.
  pose proof (nt_length _ _ (print_g_number (field_value p))) as Hg'.
  rewrite emit_printf_full. cbn [mbind option_bind].
  set (n := Z.of_nat (length (print_g (field_value p)))) in *. destruct (0 <? timestamp_ns p).
  - unfold emit. destruct (Z.ltb_spec (buf_size - 1 + n) (buf_size - 1)); [lia|]. cbn [mbind option_bind].
    rewrite emit_printf_past by lia. reflexivity.
  - cbn [mbind option_bind fst snd]. rewrite poke_None; [reflexivity|]. cbn [length]. lia.
Qed.

(** ** Reading lines back

    A reader of the documented line protocol, as a server has it.  A newline ends
    a line.  In a measurement a comma and a space end the name unless a backslash
    stands before them; in tags and fields the equals sign does so too, and a tag
    value that runs into one is an error.  Names and values are not empty, the
    value of the field is a number and the time is digits. *)

Fixpoint split_lines (s : list Z) : list (list Z) :=
  match s with
  | [] => [[]]
  | c :: s =>
      match split_lines s with
      | l :: ls => if c =? newline then [] :: l :: ls else (c :: l) :: ls
      | [] => [[]]
      end
  end.

Definition special (c : Z) : bool := (c =? comma) || (c =? space) || (c =? equals).

(** Text up to an unescaped character of a class. *)
Fixpoint read_name (ends : Z -> bool) (s : list Z) : list Z * list Z :=
  match s with
  | [] => ([], [])
  | c :: s' =>
      if c =? backslash then
        match s' with
        | d :: s'' =>
            if ends d then let '(a, b) := read_name ends s'' in (d :: a, b)
            else let '(a, b) := read_name ends s' in (c :: a, b)
        | [] => ([c], [])
        end
      else if ends c then ([], s)
      else let '(a, b) := read_name ends s' in (c :: a, b)
  end.

Fixpoint read_tags (fuel : nat) (s : list Z) : option (list (list Z * list Z) * list Z) :=
  match fuel, s with
  | S fuel, 44 :: s =>
      match read_name special s with
      | (c :: key, 61 :: s) =>
          match read_name special s with
          | ([], _) | (_, 61 :: _) => None
          | (value, s) => '(l, s) ← read_tags fuel s; Some ((c :: key, value) :: l, s)
          end
      | _ => None
      end
  | _, _ => Some ([], s)
  end.

Record parsed := mk_parsed {
  p_measurement : list Z;
  p_tags : list (list Z * list Z);
  p_field : list Z;
  p_value : list Z;
  p_stamp : option (list Z) }.

(** The value of the field and the time. *)
Definition read_value (s : list Z) : option (list Z * option (list Z)) :=
  let '(v, s) := span (fun c => negb (c =? space)) s in
  if is_number v then
    match s with
    | [] => Some (v, None)
    | _ :: stamp => if bool_decide (some_digits stamp = Some []) then Some (v, Some stamp) else None
    end
  else None.

Definition parse_line (s : list Z) : option parsed :=
  match read_name separator s with
  | ([], _) => None
  | (m, s) =>
      '(l, s) ← read_tags (length s) s;
      match s with
      | 32 :: s =>
          match read_name special s with
          | (c :: f, 61 :: s) => '(v, stamp) ← read_value s; Some (mk_parsed m l (c :: f) v stamp)
          | _ => None
          end
      | _ => None
      end
  end.

(** What a server makes of the body of a write: its lines, empty ones left out. *)
Definition parse_body (s : list Z) : list (option parsed) :=
  map parse_line (List.filter (fun l => negb (bool_decide (l = []))) (split_lines s)).

Lemma split_lines_one s : newline ∉ s -> split_lines s = [s].
Proof.
  induction s as [|c s IH]; intros Hs; [reflexivity|]. apply not_elem_of_cons in Hs as [Hc Hs].
  cbn [split_lines]. rewrite IH by exact Hs. destruct (Z.eqb_spec c newline); [congruence|reflexivity].
Qed.

Lemma parse_body_one s : newline ∉ s -> s <> [] -> parse_body s = [parse_line s].
Proof.
  intros Hs Hn. unfold parse_body. rewrite split_lines_one by exact Hs. cbn [List.filter].
  rewrite bool_decide_eq_false_2 by exact Hn. reflexivity.
Qed.

Lemma separator_special c : separator c = true -> special c = true.
Proof. unfold separator, special. intros ->. reflexivity. Qed.

(** Characters the encoder passes through and the protocol does not: the
    backslash, the equals sign and the newline. *)
Definition clean (c : Z) : Prop := c <> backslash /\ c <> equals /\ c <> newline.

(** Clean text, escaped by the encoder, is read back. *)
Lemma read_name_escape ends s r rest :
  Forall clean s -> (forall c, separator c = true -> ends c = true) ->
  (forall c, ends c = true -> special c = true) -> ends r = true -> r <> backslash ->
  read_name ends (escape s ++ r :: rest) = (s, r :: rest).
Proof.
  intros Hs Hsep Hends Hr Hrb. induction Hs as [|c s (Hcb & Hce & _) _ IH].
  - cbn [escape flat_map app read_name]. rewrite (proj2 (Z.eqb_neq _ _) Hrb), Hr. reflexivity.
  - cbn [escape flat_map]. fold (escape s). destruct (separator c) eqn:E; cbn [app read_name].
    + rewrite Z.eqb_refl, (Hsep c E), IH. reflexivity.
    + rewrite (proj2 (Z.eqb_neq _ _)) by exact Hcb.
      destruct (ends c) eqn:Ec; [|rewrite IH; reflexivity].
      apply Hends in Ec. unfold special in Ec. unfold separator in E. rewrite E in Ec.
      apply Z.eqb_eq in Ec. contradiction.
Qed.

(** Plain names are their own escaped form. *)
Definition plain (s : list Z) : Prop := Forall (fun c => separator c = false /\ clean c) s.

Lemma plain_clean s : plain s -> Forall clean s.
Proof. intros Hs. apply (Forall_impl _ _ _ Hs). intros c Hc. apply Hc. Qed.

Lemma escape_plain s : Forall (fun c => separator c = false) s -> escape s = s.
Proof.
  induction 1 as [|c s Hc Hs IH]; [reflexivity|]. cbn [escape flat_map]. fold (escape s). rewrite Hc, IH. reflexivity.
Qed.

Lemma read_name_plain ends s r rest :
  plain s -> (forall c, separator c = true -> ends c = true) ->
  (forall c, ends c = true -> special c = true) -> ends r = true -> r <> backslash ->
  read_name ends (s ++ r :: rest) = (s, r :: rest).
Proof.
  intros Hs H1 H2 Hr Hb. rewrite <- (escape_plain s) at 1 by (apply (Forall_impl _ _ _ Hs); intros c Hc; apply Hc).
  apply read_name_escape; auto using plain_clean.
Qed.

Definition pair_text (kv : list Z * list Z) : list Z := kv.1 ++ equals :: kv.2.

Record good_pair (kv : list Z * list Z) : Prop := {
  pair_key : plain kv.1;
  pair_key_some : kv.1 <> [] }.

Lemma tag_text_pair kv : good_pair kv -> tag_text (pair_text kv) = comma :: kv.1 ++ equals :: escape kv.2.
Proof.
  intros [Hk Hn]. unfold tag_text, pair_text. destruct kv as [[|c k] v]; [contradiction|]. cbn [fst snd app] in *.
  change (c :: k ++ equals :: v) with ((c :: k) ++ equals :: v). rewrite split_at_app; [reflexivity|].
  intros Hin. unfold plain in Hk. rewrite Forall_forall in Hk. destruct (Hk _ Hin) as (_ & _ & Hne & _). contradiction.
Qed.

(** A pair the protocol can carry. *)
Record clean_pair (kv : list Z * list Z) : Prop := {
  cp_good : good_pair kv;
  cp_clean : Forall clean kv.2;
  cp_some : kv.2 <> [] }.

Lemma tags_head l rest :
  Forall clean_pair l ->
  exists r rest', flat_map tag_text (map pair_text l) ++ space :: rest = r :: rest' /\ separator r = true /\
    r <> backslash /\ r <> equals.
Proof.
  intros [|kv l' Hkv _]; [exists space, rest; repeat split; discriminate|].
  cbn [map flat_map]. rewrite (tag_text_pair _ (cp_good _ Hkv)). eexists comma, _. repeat split; discriminate.
Qed.

Lemma read_tags_pairs l fuel rest :
  Forall clean_pair l -> (length l <= fuel)%nat ->
  read_tags fuel (flat_map tag_text (map pair_text l) ++ space :: rest) = Some (l, space :: rest).
Proof.
  intros Hl. revert fuel. induction Hl as [|[k v] l Hkv Hl IH]; intros fuel Hf.
  - destruct fuel; reflexivity.
  - cbn [length] in Hf. destruct fuel as [|fuel]; [lia|]. cbn [map flat_map].
    rewrite (tag_text_pair _ (cp_good _ Hkv)). destruct Hkv as [[Hk Hkn] Hv Hvn]. cbn [fst snd] in *.
    destruct (tags_head l rest Hl) as (r & rest' & E & Hr & Hrb & Hre).
    rewrite <- app_assoc, <- app_comm_cons, <- app_assoc, <- app_comm_cons, E. cbn [read_tags comma].
    rewrite (read_name_plain special k equals) by auto using separator_special.
    destruct k as [|c k]; [contradiction|]. cbn [equals].
    rewrite (read_name_escape special v r) by auto using separator_special.
    rewrite <- E, (IH fuel) by lia.
    destruct v as [|d v]; [contradiction|]. cbn [mbind option_bind].
    clear -Hre. unfold equals in Hre. repeat case_match; congruence.
Qed.

Lemma print_g_chars v : Forall (fun c => 43 <= c < 123 /\ c <> equals /\ c <> comma /\ c <> backslash) (print_g v).
Proof.
  apply (Forall_impl _ _ _ (nt_chars _ _ (print_g_number v))). intros c [Hc|Hc].
  - unfold is_digit in Hc. reflect. unfold equals, comma, backslash. lia.
  - rewrite list_elem_of_In in Hc. cbn in Hc. unfold equals, comma, backslash. lia.
Qed.

(** The time of a line: none for zero. *)
Definition stamp_of (ns : Z) : option (list Z) := if 0 <? ns then Some (print_u ns) else None.

Lemma read_value_text v ns : finite v -> read_value (print_g v ++ stamp_text ns) = Some (print_g v, stamp_of ns).
Proof.
  intros Hv. unfold read_value. assert (span (fun c => negb (c =? space)) (print_g v ++ stamp_text ns) =
    (print_g v, stamp_text ns)) as ->.
  { assert (Forall (fun c => negb (c =? space) = true) (print_g v)) as Hg.
    { apply (Forall_impl _ _ _ (print_g_chars v)). intros c Hc. apply negb_true_iff, Z.eqb_neq. unfold space. lia. }
    unfold stamp_text. destruct (0 <? ns); [apply span_app; [exact Hg|reflexivity]|].
    rewrite app_nil_r. induction Hg as [|c l Hc _ IH]; [reflexivity|]. cbn [span]. rewrite Hc, IH. reflexivity. }
  rewrite print_g_grammar by exact Hv. unfold stamp_text, stamp_of. destruct (Z.ltb_spec 0 ns) as [Hns|]; [|reflexivity].
  rewrite bool_decide_eq_true_2; [reflexivity|]. rewrite <- (app_nil_r (print_u ns)).
  apply some_digits_app; [apply digits_aux_digits; lia| |exact I].
  intros E. pose proof (print_u_nonempty ns) as H. rewrite E in H. cbn in H. lia.
Qed.

(** Parsing a line of plain names and clean pairs, with a finite value. *)
Lemma parse_line_text p l :
  used_tags p = map pair_text l -> Forall clean_pair l ->
  plain (cstr_of (measurement p)) -> cstr_of (measurement p) <> [] ->
  plain (cstr_of (field_key p)) -> cstr_of (field_key p) <> [] -> finite (field_value p) ->
  parse_line (line_text p) =
  Some (mk_parsed (cstr_of (measurement p)) l (cstr_of (field_key p)) (print_g (field_value p))
          (stamp_of (timestamp_ns p))).
Proof.
  intros Htags Hl Hm Hmn Hf Hfn Hv.
  set (tail := cstr_of (field_key p) ++ equals :: print_g (field_value p) ++ stamp_text (timestamp_ns p)).
  assert (line_text p = escape (cstr_of (measurement p)) ++ flat_map tag_text (map pair_text l) ++ space :: tail) as ->.
  { unfold line_text, line_head, tail. rewrite Htags, <- !app_assoc, <- !app_comm_cons, <- !app_assoc. reflexivity. }
  destruct (tags_head l tail Hl) as (r & rest' & E & Hr & Hrb & Hre).
  unfold parse_line. rewrite E.
  rewrite (read_name_escape separator (cstr_of (measurement p)) r rest' (plain_clean _ Hm) (fun c H => H)
             separator_special Hr Hrb).
  destruct (cstr_of (measurement p)) as [|mc ms]; [contradiction|]. rewrite <- E, read_tags_pairs; [|exact Hl|].
  - cbn [mbind option_bind space]. unfold tail.
    rewrite (read_name_plain special _ equals _ Hf separator_special (fun c H => H) eq_refl ltac:(discriminate)).
    destruct (cstr_of (field_key p)) as [|fc fs]; [contradiction|]. cbn [equals].
    rewrite read_value_text by exact Hv. reflexivity.
  - rewrite length_app. assert (length l <= length (flat_map tag_text (map pair_text l)))%nat; [|lia].
    clear E Htags. induction Hl as [|kv l Hkv Hl IH]; [cbn; lia|]. cbn [map flat_map].
    rewrite (tag_text_pair _ (cp_good _ Hkv)), length_app. cbn [length]. lia.
Qed.

(** No newline in a line of clean text. *)
Lemma escape_newline s : newline ∉ s -> newline ∉ escape s.
Proof.
  induction s as [|c s IH]; intros Hs; [exact Hs|]. apply not_elem_of_cons in Hs as [Hc Hs].
  cbn [escape flat_map]. fold (escape s). rewrite elem_of_app. intros [Hin|Hin]; [|exact (IH Hs Hin)].
  destruct (separator c); rewrite list_elem_of_In in Hin; cbn in Hin; unfold newline, backslash in *; intuition congruence.
Qed.

Lemma clean_newline s : Forall clean s -> newline ∉ s.
Proof. intros Hs Hin. rewrite Forall_forall in Hs. destruct (Hs _ Hin) as (_ & _ & Hn). contradiction. Qed.

Lemma tags_newline l : Forall clean_pair l -> newline ∉ flat_map tag_text (map pair_text l).
Proof.
  induction 1 as [|kv l Hkv _ IH]; [apply not_elem_of_nil|]. cbn [map flat_map].
  rewrite (tag_text_pair _ (cp_good _ Hkv)). destruct Hkv as [[Hk _] Hv _]. rewrite elem_of_app. intros [Hin|Hin]; [|exact (IH Hin)].
  apply elem_of_cons in Hin as [Hin|Hin]; [discriminate|]. apply elem_of_app in Hin as [Hin|Hin].
  - exact (clean_newline _ (plain_clean _ Hk) Hin).
  - apply elem_of_cons in Hin as [Hin|Hin]; [discriminate|]. exact (escape_newline _ (clean_newline _ Hv) Hin).
Qed.

Lemma line_newline p l :
  used_tags p = map pair_text l -> Forall clean_pair l ->
  plain (cstr_of (measurement p)) -> plain (cstr_of (field_key p)) -> newline ∉ line_text p.
Proof.
  intros Htags Hl Hm Hf. unfold line_text, line_head. rewrite Htags, !elem_of_app, elem_of_cons, elem_of_app.
  intros [[Hin|[Hin|[Hin|[Hin|Hin]]]]|[Hin|Hin]].
  - exact (escape_newline _ (clean_newline _ (plain_clean _ Hm)) Hin).
  - exact (tags_newline _ Hl Hin).
  - discriminate.
  - exact (clean_newline _ (plain_clean _ Hf) Hin).
  - apply list_elem_of_singleton in Hin. discriminate.
  - pose proof (print_g_chars (field_value p)) as Hg. rewrite Forall_forall in Hg. specialize (Hg _ Hin).
    unfold newline in Hg. lia.
  - unfold stamp_text in Hin. destruct (Z.ltb_spec 0 (timestamp_ns p)); [|apply not_elem_of_nil in Hin; exact Hin].
    apply elem_of_cons in Hin as [Hin|Hin]; [discriminate|].
    pose proof (digits_aux_digits 20 (timestamp_ns p) ltac:(lia)) as Hd. rewrite Forall_forall in Hd.
    specialize (Hd _ Hin). discriminate.
Qed.

(** ** The tags of a telemetry point *)

Definition tag_pair (name : list Z) (value : option (list Z)) : list (list Z * list Z) :=
  match value with
  | Some (c :: v) => [(name, take (62 - length name) (c :: v))]
  | _ => []
  end.

Definition telemetry_pairs (tenant : list Z) (site_id node_id device_class metric_id domain_profile_id : option (list Z))
  : list (list Z * list Z) :=
  tag_pair (cstr "tenant_id") (Some tenant) ++ tag_pair (cstr "site_id") site_id ++
  tag_pair (cstr "node_id") node_id ++ tag_pair (cstr "device_class") device_class ++
  tag_pair (cstr "metric_id") metric_id ++ tag_pair (cstr "domain_profile_id") domain_profile_id.

Lemma add_tag_pair name value l :
  (length name <= 62)%nat -> add_tag name value (map pair_text l) = map pair_text (l ++ tag_pair name value).
Proof.
  intros Hn. destruct value as [[|c v]|]; cbn [add_tag tag_pair]; rewrite ?app_nil_r; [reflexivity| |reflexivity].
  rewrite map_app. f_equal. cbn [map]. f_equal. unfold snprintf, pair_text. cbn [fst snd].
  change (Z.to_nat (64 - 1)) with 63%nat. rewrite take_app_ge by lia.
  replace (63 - length name)%nat with (S (62 - length name)) by lia. reflexivity.
Qed.

Lemma tag_pair_length name value : (length (tag_pair name value) <= 1)%nat.
Proof. destruct value as [[|]|]; cbn; lia. Qed.

(** An optional C string, and one of clean text. *)
Definition good_value (value : option (list Z)) : Prop :=
  match value with Some s => c_string s | None => True end.

Definition clean_value (value : option (list Z)) : Prop :=
  match value with Some s => c_string s /\ Forall clean s | None => True end.

Lemma clean_good value : clean_value value -> good_value value.
Proof. destruct value; [intros [H _]; exact H|auto]. Qed.

(** A pair whose text fits a tag. *)
Record fitting_pair (kv : list Z * list Z) : Prop := {
  fp_good : good_pair kv;
  fp_text : c_string (pair_text kv);
  fp_length : (length (pair_text kv) <= 63)%nat }.

Lemma tag_pair_fits name value :
  plain name -> c_string name -> name <> [] -> (length name <= 62)%nat -> good_value value ->
  Forall fitting_pair (tag_pair name value).
Proof.
  intros Hp Hc Hn Hl Hv. destruct value as [[|c v]|]; cbn [tag_pair]; [constructor| |constructor].
  constructor; [|constructor]. cbn [good_value] in Hv. set (s := c :: v) in *. clearbody s.
  split; unfold pair_text; cbn [fst snd].
  - split; cbn [fst snd]; [exact Hp|exact Hn].
  - apply Forall_app_2; [exact Hc|]. constructor; [discriminate|apply c_string_take, Hv].
  - rewrite length_app. cbn [length]. rewrite length_take. lia.
Qed.

Lemma tag_pair_clean name value :
  plain name -> name <> [] -> (length name <= 61)%nat -> clean_value value ->
  Forall clean_pair (tag_pair name value).
Proof.
  intros Hp Hn Hl Hv. destruct value as [[|c v]|]; cbn [tag_pair]; [constructor| |constructor].
  destruct Hv as [_ Hc]. constructor; [|constructor]. split; cbn [fst snd].
  - split; assumption.
  - apply Forall_take, Hc.
  - destruct (62 - length name)%nat eqn:E; [lia|discriminate].
Qed.

Ltac name_ok := first [discriminate | cbn; lia
                      | repeat constructor; vm_compute; congruence ].

Section point.
Context (t : TenantToken_t) (site_id node_id device_class metric_id domain_profile_id : option (list Z))
  (value : float) (timestamp_ms : Z).
Hypotheses (Hsite : good_value site_id) (Hnode : good_value node_id) (Hclass : good_value device_class)
  (Hmetric : good_value metric_id) (Hprofile : good_value domain_profile_id).

Definition point : InfluxDBPoint_t :=
  telemetry_point t site_id node_id device_class metric_id domain_profile_id value timestamp_ms.

Definition pairs : list (list Z * list Z) :=
  telemetry_pairs (take 53 (cstr_of (bound_tenant_id t))) site_id node_id device_class metric_id domain_profile_id.

Lemma pairs_fit : Forall fitting_pair pairs.
Proof.
  assert (good_value (Some (take 53 (cstr_of (bound_tenant_id t))))) as Ht by apply c_string_take, cstr_of_c_string.
  unfold pairs, telemetry_pairs. repeat apply Forall_app_2; apply tag_pair_fits; first [assumption|name_ok].
Qed.

Lemma pairs_length : (length pairs <= 6)%nat.
Proof.
  unfold pairs, telemetry_pairs. rewrite !length_app.
  pose proof (tag_pair_length (cstr "tenant_id") (Some (take 53 (cstr_of (bound_tenant_id t))))).
  pose proof (tag_pair_length (cstr "site_id") site_id). pose proof (tag_pair_length (cstr "node_id") node_id).
  pose proof (tag_pair_length (cstr "device_class") device_class).
  pose proof (tag_pair_length (cstr "metric_id") metric_id).
  pose proof (tag_pair_length (cstr "domain_profile_id") domain_profile_id). lia.
Qed.

Lemma point_tags :
  tags point = map (fun s => strncpy 63 s ++ [0]) (map pair_text pairs) ++ replicate (8 - length pairs) (zeros 64) /\
  tag_count point = Z.of_nat (length pairs).
Proof.
  unfold point, telemetry_point. cbn [tags tag_count]. change (@nil (list Z)) with (map pair_text []).
  rewrite !add_tag_pair by (cbn; lia). cbn [app]. rewrite <- !app_assoc.
  change (tag_pair (cstr "tenant_id") _ ++ _) with pairs. rewrite length_map. auto.
Qed.

Lemma point_used : used_tags point = map pair_text pairs.
Proof.
  unfold used_tags. destruct point_tags as [-> ->]. pose proof pairs_length. rewrite Z.min_l by lia.
  rewrite Nat2Z.id, take_app_length' by (rewrite !length_map; reflexivity). rewrite !map_map.
  apply map_ext_in. intros kv Hin. pose proof pairs_fit as Hf. rewrite Forall_forall in Hf.
  apply list_elem_of_In in Hin. destruct (Hf _ Hin) as [_ Hc Hl]. rewrite cstr_of_strncpy by exact Hc.
  apply take_ge, Hl.
Qed.

Lemma point_wf : wf_point point.
Proof.
  unfold wf_point. destruct point_tags as [-> _]. apply Forall_app_2.
  - rewrite map_map. apply Forall_map, (Forall_impl _ _ _ pairs_fit). intros kv [_ Hc _].
    rewrite cstr_of_strncpy by exact Hc. rewrite length_take. lia.
  - apply Forall_replicate, Nat.leb_le. vm_compute. reflexivity.
Qed.

Lemma point_names : cstr_of (measurement point) = cstr "node_telemetry" /\ cstr_of (field_key point) = cstr "value".
Proof. split; reflexivity. Qed.

Lemma point_parses :
  Forall clean (cstr_of (bound_tenant_id t)) -> clean_value site_id -> clean_value node_id ->
  clean_value device_class -> clean_value metric_id -> clean_value domain_profile_id -> finite value ->
  parse_body (line_text point) =
  [Some (mk_parsed (cstr "node_telemetry") pairs (cstr "value") (print_g value)
           (stamp_of (u64 (timestamp_ms * 1000000))))].
Proof.
  intros Ct Cs Cn Cc Cm Cp Hv.
  assert (Forall clean_pair pairs) as Hclean.
  { assert (clean_value (Some (take 53 (cstr_of (bound_tenant_id t))))) as Ht
      by (split; [apply c_string_take, cstr_of_c_string|apply Forall_take, Ct]).
    unfold pairs, telemetry_pairs. repeat apply Forall_app_2; apply tag_pair_clean; first [assumption|name_ok]. }
  destruct point_names as [Hm Hf].
  assert (plain (cstr_of (measurement point)) /\ plain (cstr_of (field_key point))) as [Pm Pf]
    by (rewrite Hm, Hf; split; name_ok).
  rewrite parse_body_one.
  - rewrite (parse_line_text point pairs point_used), Hm, Hf; [reflexivity|assumption..| | | |exact Hv];
      rewrite ?Hm, ?Hf; first [assumption|discriminate].
  - exact (line_newline point pairs point_used Hclean Pm Pf).
  - unfold line_text, line_head. rewrite Hm. discriminate.
Qed.

End point.

(** ** Requests *)

Lemma influxdb_write_fits {W} (st : state W) t p tok w :
  s_initialised st = true -> s_transport st = Some t -> validate_token (Some tok) = true -> wf_point p ->
  (length (line_text p) < 511)%nat ->
  influxdb_write st (Some p) (Some tok) w = Some (send_write st t tok (line_text p) w).
Proof.
  intros Hi Ht Hv Hp Hfit. unfold influxdb_write. rewrite Hi, Ht, Hv. cbn [negb]. unfold INFLUXDB_MAX_LINE_LEN.
  pose proof (zeros_length 512) as Hz.
  destruct (encode_line_spec p (zeros 512) 0 512 Hp) as (m & -> & _ & Htk); [lia..|]. cbn [mbind option_bind].
  pose proof (print_g_nonempty (field_value p)) as Hg.
  assert (length (line_text p) <> 0)%nat as Hne by (unfold line_text; rewrite !length_app; lia).
  destruct (Z.eqb_spec (Z.of_nat (length (line_text p))) 0); [lia|]. rewrite Nat2Z.id.
  change (Z.to_nat 0) with 0%nat in Htk. cbn [Nat.add app take] in Htk. rewrite Htk. reflexivity.
Qed.

(** The address and the header as texts. *)
Lemma bucket_text t : derive_bucket t INFLUXDB_MAX_BUCKET_LEN = cstr "telemetry-" ++ take 53 t.
Proof.
  unfold derive_bucket, snprintf. cbn [fst]. change (Z.to_nat (INFLUXDB_MAX_BUCKET_LEN - 1)) with 63%nat.
  rewrite take_app_ge by (cbn; lia). reflexivity.
Qed.

Lemma write_url_text {W} (st : state W) tok :
  let url := cstr_of (base_url (s_config st)) ++ cstr "/api/v2/write?org=" ++ cstr_of (org (s_config st)) ++
             cstr "&bucket=telemetry-" ++ take 53 (cstr_of (bound_tenant_id tok)) ++ cstr "&precision=ns" in
  cstr_of (base_url (s_config st)) <> [] -> (length url < 256)%nat ->
  make_write_url st INFLUXDB_MAX_URL_LEN tok = Some url.
Proof.
  intros url Hb Hl. unfold make_write_url. rewrite bool_decide_eq_false_2 by exact Hb. rewrite bucket_text.
  change (cstr "&bucket=telemetry-") with (cstr "&bucket=" ++ cstr "telemetry-") in url.
  replace (_ ++ cstr "/api/v2/write?org=" ++ _) with url by (unfold url; rewrite <- !app_assoc; reflexivity).
  unfold snprintf, INFLUXDB_MAX_URL_LEN. rewrite take_ge by lia.
  assert (0 < length url)%nat by (unfold url; rewrite length_app; destruct (cstr_of (base_url _)); [contradiction|cbn; lia]).
  rewrite (proj2 (Z.ltb_lt 0 _)), (proj2 (Z.ltb_lt _ 256)) by lia. reflexivity.
Qed.

Lemma auth_header_text {W} (st : state W) :
  make_auth_header st (INFLUXDB_MAX_TOKEN_LEN + 32) =
  cstr "Authorization: Token " ++ take 138 (cstr_of (api_token (s_config st))).
Proof.
  unfold make_auth_header, snprintf. cbn [fst]. change (Z.to_nat (INFLUXDB_MAX_TOKEN_LEN + 32 - 1)) with 159%nat.
  rewrite take_app_ge by (cbn; lia). reflexivity.
Qed.

Lemma influxdb_write_telemetry_point {W} (st : state W) tok site node class metric profile value ts w :
  validate_token (Some tok) = true ->
  influxdb_write_telemetry st (Some tok) site (Some node) class (Some metric) profile value ts w =
  influxdb_write st (Some (telemetry_point tok site (Some node) class (Some metric) profile value ts)) (Some tok) w.
Proof. intros Hv. unfold influxdb_write_telemetry. rewrite Hv. reflexivity. Qed.

(** The loop over the points of a batch. *)
Definition batch_text (ps : list InfluxDBPoint_t) : list Z := flat_map (fun p => line_text p ++ [newline]) ps.

Lemma batch_lines_spec ps buf total buf_size :
  Forall wf_point ps -> 0 <= total -> buf_size <= Z.of_nat (length buf) -> buf_size < 2 ^ 64 ->
  total + Z.of_nat (length (batch_text ps)) + 1 < buf_size ->
  exists buf', batch_lines ps buf_size buf total = Some (buf', total + Z.of_nat (length (batch_text ps)), true) /\
    length buf' = length buf /\
    take (Z.to_nat total + length (batch_text ps)) buf' = take (Z.to_nat total) buf ++ batch_text ps.
Proof.
  intros Hps. revert buf total. induction Hps as [|p ps Hp Hps IH]; intros buf total H0 Hl H64 Hfit.
  - exists buf. cbn [batch_lines batch_text flat_map length]. rewrite Z.add_0_r, Nat.add_0_r, app_nil_r. auto.
  - cbn [batch_text flat_map] in *. fold (batch_text ps) in *. rewrite !length_app in *. cbn [length] in *.
    cbn [batch_lines]. rewrite (u64_small (buf_size - total - 1)) by (unfold is_u64; lia).
    destruct (encode_line_spec p buf total (buf_size - total - 1) Hp H0) as (b1 & -> & Hl1 & Ht1); [lia..|].
    cbn [mbind option_bind]. pose proof (print_g_nonempty (field_value p)) as Hg.
    assert (length (line_text p) <> 0)%nat as Hne by (unfold line_text; rewrite !length_app; lia).
    destruct (Z.eqb_spec (Z.of_nat (length (line_text p))) 0); [lia|].
    rewrite (u64_small (buf_size - 1)) by (unfold is_u64; lia).
    rewrite (proj2 (Z.ltb_lt _ (buf_size - 1))) by lia.
    destruct (poke_Some b1 (total + Z.of_nat (length (line_text p))) [newline]) as (b2 & -> & Hl2 & Ht2);
      [lia|cbn; lia|]. cbn [mbind option_bind].
    destruct (IH b2 (total + Z.of_nat (length (line_text p)) + 1)) as (b3 & -> & Hl3 & Ht3); [lia..|].
    exists b3. split; [do 3 f_equal; lia|]. split; [lia|].
    replace (Z.to_nat (total + Z.of_nat (length (line_text p)))) with (Z.to_nat total + length (line_text p))%nat in Ht2 by lia.
    replace (Z.to_nat (total + Z.of_nat (length (line_text p)) + 1))
      with (Z.to_nat total + length (line_text p) + length [newline])%nat in Ht3 by (cbn [length]; lia).
    rewrite Ht2, Ht1 in Ht3. rewrite <- !app_assoc in *. rewrite <- Ht3. f_equal. cbn [length]. lia.
Qed.

(** ** Properties *)

(** C13. A telemetry write by a tenant whose line and address fit their buffers
    is exactly one request, to the write address of the bucket named after the
    first 53 bytes of the tenant; a server that reads its body by the line
    protocol gets exactly one point: the measurement, the tags of the token's
    tenant and of the caller's identifiers, each cut to its 64 bytes, the value
    and the time in nanoseconds.  The value is finite and tenant and identifiers
    hold no backslash, equals sign or newline: those the encoder does not escape
    ([unescaped_identifiers]). *)
Theorem telemetry_reaches_bucket {W} (st : state W) t tok site node class metric profile value ts w :
  s_initialised st = true -> s_transport st = Some t -> validate_token (Some tok) = true ->
  let tenant := cstr_of (bound_tenant_id tok) in
  Forall clean tenant -> clean_value site -> clean_value (Some node) ->
  clean_value class -> clean_value (Some metric) -> clean_value profile -> finite value ->
  (length (line_text (telemetry_point tok site (Some node) class (Some metric) profile value ts)) < 511)%nat ->
  cstr_of (base_url (s_config st)) <> [] ->
  let url := cstr_of (base_url (s_config st)) ++ cstr "/api/v2/write?org=" ++ cstr_of (org (s_config st)) ++
             cstr "&bucket=telemetry-" ++ take 53 tenant ++ cstr "&precision=ns" in
  (length url < 256)%nat ->
  exists body,
    influxdb_write_telemetry st (Some tok) site (Some node) class (Some metric) profile value ts w =
    (let headers := [cstr "Authorization: Token " ++ take 138 (cstr_of (api_token (s_config st)));
                     cstr "Content-Type: text/plain; charset=utf-8"] in
     let '(ok, _, w') := http_request t url (cstr "POST") headers body 64 w in
     Some (if ok then INFLUX_OK else INFLUX_ERR_TRANSPORT, w')) /\
    parse_body body =
    [Some (mk_parsed (cstr "node_telemetry")
             (telemetry_pairs (take 53 tenant) site (Some node) class (Some metric) profile)
             (cstr "value") (print_g value) (stamp_of ((ts * 1000000) mod 2 ^ 64)))].
Proof.
  intros Hi Ht Hv tenant Hten Hs Hn Hc Hm Hp Hfin Hfit Hbase url Hurl. eexists.
  split; [|apply point_parses; auto using clean_good].
  rewrite influxdb_write_telemetry_point by exact Hv.
  rewrite (influxdb_write_fits st t) by (first [assumption|apply point_wf; auto using clean_good]).
  unfold send_write. rewrite (write_url_text st tok Hbase Hurl), auth_header_text. fold tenant.
  destruct (http_request _ _ _ _ _ _ _) as [[ok r] w']. reflexivity.
Qed.

(** What the encoder does not escape breaks the line: with an equals sign in an
    identifier, a backslash at its end, or a value that is not finite, the server
    refuses the line; a newline makes two lines of it, and what stands behind the
    newline becomes the measurement of a point without a tenant. *)
Theorem unescaped_identifiers :
  let body node value := line_text (telemetry_point (mk_token 1 (cstr "acme" ++ [0]) true) None (Some node) None
                                      (Some (cstr "temp")) None value 1000) in
  parse_body (body (cstr "n=7") (lit 21)) = [None] /\
  parse_body (body (cstr "n7" ++ [backslash]) (lit 21)) = [None] /\
  parse_body (body (cstr "n" ++ [newline] ++ cstr "other") (lit 21)) =
    [None; Some (mk_parsed (cstr "other") [(cstr "metric_id", cstr "temp")] (cstr "value") (cstr "21")
                   (Some (cstr "1000000000")))] /\
  parse_body (body (cstr "n7") 0x7F800000) = [None] /\
  parse_body (body (cstr "n7") (lit 21)) <> [None].
Proof. vm_compute. repeat (split; [reflexivity|]). discriminate. Qed.

(** Identifiers without commas and spaces always fit, whatever their length. *)
Theorem plain_telemetry_fits tok site node class metric profile value ts :
  good_value site -> good_value node -> good_value class -> good_value metric -> good_value profile ->
  Forall (fun kv => Forall (fun c => separator c = false) kv.2)
    (telemetry_pairs (take 53 (cstr_of (bound_tenant_id tok))) site node class metric profile) ->
  (length (line_text (telemetry_point tok site node class metric profile value ts)) < 511)%nat.
Proof.
  intros Hs Hn Hc Hm Hp Hplain. set (p := telemetry_point _ _ _ _ _ _ _ _).
  pose proof (point_used tok site node class metric profile value ts Hs Hn Hc Hm Hp) as Hused.
  pose proof (pairs_length tok site node class metric profile) as H6.
  pose proof (pairs_fit tok site node class metric profile Hs Hn Hc Hm Hp) as Hfit.
  unfold point in Hused. fold p in Hused. unfold line_text, line_head. rewrite Hused, !length_app. cbn [length].
  rewrite !length_app. cbn [length].
  change (cstr_of (measurement p)) with (cstr "node_telemetry"). change (cstr_of (field_key p)) with (cstr "value").
  change (length (escape (cstr "node_telemetry"))) with 14%nat. change (length (cstr "value")) with 5%nat.
  pose proof (nt_length _ _ (print_g_number (field_value p))) as Hg.
  assert (length (stamp_text (timestamp_ns p)) <= 21)%nat as Hst.
  { unfold stamp_text. destruct (0 <? timestamp_ns p); [|cbn; lia]. cbn [length].
    unfold print_u. pose proof (digits_aux_length 20 (timestamp_ns p) []). cbn [length] in *. lia. }
  assert (length (flat_map tag_text (map pair_text (pairs tok site node class metric profile))) <=
          64 * length (pairs tok site node class metric profile))%nat as Htags; [|lia].
  fold (pairs tok site node class metric profile) in Hplain. clear -Hplain Hfit.
  induction Hfit as [|kv l [Hg _ Hl] Hfit IH]; [cbn; lia|]. inversion Hplain as [|? ? Hkv Hpl]; subst.
  cbn [map flat_map]. rewrite length_app, (tag_text_pair _ Hg), (escape_plain _ Hkv).
  specialize (IH Hpl). unfold pair_text in Hl. cbn [length] in *. rewrite length_app in *. cbn [length] in *. lia.
Qed.

(** A batch whose lines fit the caller's buffer is one request whose body is the
    lines of the points in order, separated by newlines. *)
Theorem batch_sends_lines {W} (st : state W) t ps buf buf_size tok w :
  s_initialised st = true -> s_transport st = Some t -> validate_token (Some tok) = true ->
  Forall wf_point ps -> ps <> [] ->
  buf_size <= Z.of_nat (length buf) -> buf_size < 2 ^ 64 -> Z.of_nat (length (batch_text ps)) + 1 < buf_size ->
  exists body buf', body ++ [newline] = batch_text ps /\
    influxdb_write_batch st (Some ps) (Z.of_nat (length ps)) (Some buf) buf_size (Some tok) w =
    (let '(res, w') := send_write st t tok body w in Some (res, Some buf', w')).
Proof.
  intros Hi Ht Hv Hps Hne Hl H64 Hfit.
  destruct (batch_lines_spec ps buf 0 buf_size Hps) as (b & Hb & Hlb & Htb); [lia..|].
  change (Z.to_nat 0) with 0%nat in Htb. rewrite take_0 in Htb. cbn [Nat.add app] in Htb.
  assert (exists body, batch_text ps = body ++ [newline]) as [body Hbody].
  { destruct (exists_last Hne) as (front & p & ->). exists (batch_text front ++ line_text p).
    unfold batch_text. rewrite flat_map_app. cbn [flat_map]. rewrite app_nil_r, app_assoc. reflexivity. }
  rewrite Hbody in *. rewrite length_app in *. cbn [length] in *.
  destruct (poke_Some b (Z.of_nat (length body)) [0]) as (b' & Hb' & _ & Htb'); [lia|cbn; lia|].
  exists body, b'. split; [reflexivity|]. unfold influxdb_write_batch. rewrite Hi, Ht, Hv. cbn [negb].
  destruct (Z.eqb_spec (Z.of_nat (length ps)) 0); [destruct ps; [contradiction|cbn in *; lia]|].
  rewrite Nat2Z.id, take_ge, Hb by lia. cbn [mbind option_bind negb].
  rewrite (proj2 (Z.ltb_lt _ _)) by lia.
  replace (Z.to_nat (0 + Z.of_nat (length body + 1) - 1)) with (length body) by lia.
  assert (nth (length body) b 0 = newline) as ->.
  { rewrite <- (take_drop (length body + 1) b), Htb, <- app_assoc. apply nth_middle. }
  cbn [andb]. rewrite Z.eqb_refl. cbn [andb].
  replace (0 + Z.of_nat (length body + 1) - 1) with (Z.of_nat (length body)) by lia. rewrite Hb'. cbn [mbind option_bind].
  rewrite Nat2Z.id in *. replace (take (length body) b') with body; [reflexivity|].
  apply (f_equal (take (length body))) in Htb, Htb'. rewrite take_take, Nat.min_l in Htb, Htb' by lia.
  rewrite Htb', Htb, !take_app_length. reflexivity.
Qed.

(** A line that is too long is not refused: when its part before the value fills
    the 512 bytes, the client writes past the end of its buffer. *)
Theorem long_telemetry_overruns {W} (st : state W) t tok site node class metric profile value ts w :
  s_initialised st = true -> s_transport st = Some t -> validate_token (Some tok) = true ->
  good_value site -> good_value (Some node) -> good_value class -> good_value (Some metric) -> good_value profile ->
  (511 <= length (line_head (telemetry_point tok site (Some node) class (Some metric) profile value ts)))%nat ->
  influxdb_write_telemetry st (Some tok) site (Some node) class (Some metric) profile value ts w = None.
Proof.
  intros Hi Ht Hv Hs Hn Hc Hm Hp Hlong. rewrite influxdb_write_telemetry_point by exact Hv.
  unfold influxdb_write. rewrite Hi, Ht, Hv. cbn [negb]. unfold INFLUXDB_MAX_LINE_LEN.
  rewrite encode_line_overruns; [reflexivity|apply point_wf; assumption|lia| |lia|lia].
  rewrite zeros_length. reflexivity.
Qed.

(** Buckets of tenants: equal exactly when the first 53 bytes of the names are. *)
Theorem bucket_of_tenant t1 t2 :
  derive_bucket t1 INFLUXDB_MAX_BUCKET_LEN = derive_bucket t2 INFLUXDB_MAX_BUCKET_LEN <-> take 53 t1 = take 53 t2.
Proof.
  unfold derive_bucket, snprintf. cbn [fst]. change (Z.to_nat (INFLUXDB_MAX_BUCKET_LEN - 1)) with 63%nat.
  rewrite !take_app_ge by (cbn; lia). change (63 - length (cstr "telemetry-"))%nat with 53%nat.
  split; [apply app_inv_head|intros ->; reflexivity].
Qed.

(** A query is sent as the caller wrote it, under the organisation's token: no
    part of the request depends on the tenant of the caller's token. *)
Theorem query_ignores_tenant {W} (st : state W) q response capacity tok1 tok2 w :
  validate_token (Some tok1) = true -> validate_token (Some tok2) = true ->
  influxdb_query st q response capacity (Some tok1) w = influxdb_query st q response capacity (Some tok2) w.
Proof. intros H1 H2. unfold influxdb_query. rewrite H1, H2. reflexivity. Qed.

(** ** The theorems on a concrete client *)

(** A server that keeps the addresses and bodies of the requests. *)
Definition demo_transport : InfluxDBTransport_t (list (list Z * list Z)) :=
  mk_transport (fun url _ _ body _ w => (true, [], w ++ [(url, body)])).

Definition demo_client : state (list (list Z * list Z)) :=
  (influxdb_init (mk_state zero_config None false)
     (Some (mk_config (strncpy 255 (cstr "http://localhost:8086") ++ [0]) (strncpy 127 (cstr "secret") ++ [0])
              (strncpy 63 (cstr "farm") ++ [0])))
     (Some demo_transport)).2.

Definition demo_token (tenant : string) : TenantToken_t := mk_token 1 (strncpy 63 (cstr tenant) ++ [0]) true.

Ltac plain_value :=
  match goal with
  | |- clean_value None => exact I
  | |- clean_value (Some _) => split; repeat constructor; vm_compute; congruence
  | |- good_value (Some _) => repeat constructor; vm_compute; congruence
  end.

Definition demo_url : list Z :=
  cstr "http://localhost:8086/api/v2/write?org=farm&bucket=telemetry-acme&precision=ns".

Lemma telemetry_reaches_bucket_witness :
  exists body,
    influxdb_write_telemetry demo_client (Some (demo_token "acme")) (Some (cstr "north field")) (Some (cstr "n7"))
      None (Some (cstr "temp")) None (lit_frac 235 10) 1000 [] = Some (INFLUX_OK, [(demo_url, body)]) /\
    map (option_map p_tags) (parse_body body) =
      [Some [(cstr "tenant_id", cstr "acme"); (cstr "site_id", cstr "north field"); (cstr "node_id", cstr "n7");
            (cstr "metric_id", cstr "temp")]].
Proof.
  destruct (telemetry_reaches_bucket demo_client demo_transport (demo_token "acme") (Some (cstr "north field"))
              (cstr "n7") None (cstr "temp") None (lit_frac 235 10) 1000 []) as (body & Hw & Hp).
  - reflexivity.
  - reflexivity.
  - reflexivity.
  - repeat constructor; vm_compute; congruence.
  - plain_value.
  - plain_value.
  - plain_value.
  - plain_value.
  - plain_value.
  - vm_compute. exact I.
  - apply Nat.ltb_lt. vm_compute. reflexivity.
  - discriminate.
  - apply Nat.ltb_lt. vm_compute. reflexivity.
  - exists body. split; [exact Hw|]. rewrite Hp. vm_compute. reflexivity.
Defined.

Definition long_id (c : Z) : option (list Z) := Some (replicate 70 c).

Lemma plain_telemetry_fits_witness :
  (length (line_text (telemetry_point (demo_token "acme") (long_id 65%Z) (long_id 65%Z) (long_id 65%Z) (long_id 65%Z)
                        (long_id 65%Z) 0xFF7FFFFF%Z 18446744073709%Z)) < 511)%nat.
Proof.
  assert (good_value (long_id 65)) as H by (unfold long_id; plain_value).
  apply plain_telemetry_fits; [exact H|exact H|exact H|exact H|exact H|].
  vm_compute. repeat constructor.
Defined.

Lemma long_telemetry_overruns_witness :
  influxdb_write_telemetry demo_client (Some (demo_token "acme")) (long_id 32) (long_id 32) (long_id 32) (long_id 32)
    (long_id 32) 0 1000 [] = None.
Proof.
  assert (good_value (long_id 32)) as H by (unfold long_id; plain_value).
  apply (long_telemetry_overruns demo_client demo_transport); [reflexivity|reflexivity|reflexivity|exact H|exact H|exact H|exact H|exact H|].
  apply Nat.leb_le. vm_compute. reflexivity.
Defined.

Definition demo_point (ns : Z) : InfluxDBPoint_t :=
  mk_point (strncpy 63 (cstr "m") ++ [0]) [] 0 (strncpy 63 (cstr "f") ++ [0]) 0 ns.

Lemma batch_sends_lines_witness :
  exists buf', influxdb_write_batch demo_client (Some [demo_point 1; demo_point 2]) 2 (Some (zeros 64)) 64
                 (Some (demo_token "acme")) [] =
  Some (INFLUX_OK, Some buf', [(demo_url, cstr "m f=0 1" ++ [newline] ++ cstr "m f=0 2")]).
Proof.
  destruct (batch_sends_lines demo_client demo_transport [demo_point 1; demo_point 2] (zeros 64) 64 (demo_token "acme") [])
    as (body & buf' & Hbody & Hw); [reflexivity|reflexivity|reflexivity| |discriminate|reflexivity|reflexivity|reflexivity|].
  - repeat constructor.
  - exists buf'. change (batch_text _) with ((cstr "m f=0 1" ++ [newline] ++ cstr "m f=0 2") ++ [newline]) in Hbody.
    apply app_inv_tail in Hbody. subst body. exact Hw.
Defined.

Lemma query_ignores_tenant_witness :
  influxdb_query demo_client (Some (cstr "from(bucket:other)")) true 100 (Some (demo_token "acme")) [] =
  influxdb_query demo_client (Some (cstr "from(bucket:other)")) true 100 (Some (demo_token "zenith")) [].
Proof. apply query_ignores_tenant; reflexivity. Defined.

End influxdb_client.
