(* ===== verification/Mqtt.v ===== *)
(** The MQTT client (firmware/shared/mqtt_client.c): the topic of a device, the
    subscription table both builds scan, and the ESP32 build over the vendor's
    client.  The native build is in MqttNative. *)

From S2P Require Import Prelude Text.
Import text.

Module mqtt_client.

Definition MQTT_MAX_TOPIC_LEN : nat := 128.
Definition MQTT_MAX_PAYLOAD : Z := 256.
Definition MQTT_KEEPALIVE_SEC : Z := 60.
Definition MQTT_DEFAULT_PORT : Z := 8883.

Inductive MQTTState_t :=
| MQTT_STATE_DISCONNECTED
| MQTT_STATE_CONNECTING
| MQTT_STATE_CONNECTED
| MQTT_STATE_ERROR.

#[export] Instance MQTTState_eq_dec : EqDecision MQTTState_t.
Proof. solve_decision. Defined.

Inductive MQTTQoS_t := MQTT_QOS_0 | MQTT_QOS_1 | MQTT_QOS_2.

(** A received message: its topic as a C string, and [payload_len] bytes. *)
Record MQTTMessage_t := mk_message {
  topic : list Z;
  payload : list Z;
  m_qos : MQTTQoS_t;
  retain : bool }.

(** Strings the caller owns; [None] is NULL. *)
Record MQTTClientConfig_t := mk_config {
  broker_host : option (list Z);
  broker_port : Z;
  client_id : option (list Z);
  username : option (list Z);
  password : option (list Z);
  ca_cert_pem : option (list Z);
  keepalive_sec : Z;
  use_tls : bool }.

#[export] Instance eta_config : Eta MQTTClientConfig_t := fun r =>
  mk_config (broker_host r) (broker_port r) (client_id r) (username r) (password r) (ca_cert_pem r)
    (keepalive_sec r) (use_tls r).

Definition zero_config : MQTTClientConfig_t := mk_config None 0 None None None None 0 false.

(** A slot of the subscription table. [callback] is the caller's function, a
    transformer of the outside world; [esp_msg_id] is 0 in the native build,
    which has no such field. *)
Record MQTTSubscription_t (W : Type) := mk_subscription {
  topic_filter : list Z;
  qos : MQTTQoS_t;
  callback : option (MQTTMessage_t -> W -> W);
  active : bool;
  esp_msg_id : Z }.
Arguments mk_subscription {W}. Arguments topic_filter {W}. Arguments qos {W}. Arguments callback {W}.
Arguments active {W}. Arguments esp_msg_id {W}.

#[export] Instance eta_subscription W : Eta (MQTTSubscription_t W) := fun r =>
  mk_subscription (topic_filter r) (qos r) (callback r) (active r) (esp_msg_id r).

(** ** The topic of a device *)

Definition topic_text (tenant_id site_id device_id : list Z) : list Z :=
  cstr "rainmaker/" ++ tenant_id ++ cstr "/" ++ site_id ++ cstr "/" ++ device_id ++ cstr "/telemetry".

(** The C string left in [out_topic], and whether it is the whole topic. *)
Definition mqtt_build_telemetry_topic (out_topic : bool) (buf_size : Z)
    (tenant_id site_id device_id : option (list Z)) : option (list Z) * bool :=
  match tenant_id, site_id, device_id with
  | Some t, Some s, Some d =>
      if negb out_topic then (None, false)
      else
        let '(text, written) := snprintf buf_size (topic_text t s d) in
        (Some text, (0 <? written) && (written <? buf_size))
  | _, _, _ => (None, false)
  end.

(** ** The subscription table, which both builds scan in the same way *)

Section table.
Context {W : Type}.
Implicit Types (t : list (MQTTSubscription_t W)).

Definition zero_subscription : MQTTSubscription_t W := mk_subscription (zeros 128) MQTT_QOS_0 None false 0.
Definition empty_table : list (MQTTSubscription_t W) := replicate 8 zero_subscription.

Definition free_slot t : option nat := find_index (fun s => negb (active s)) t.

Definition has_topic (tp : list Z) (s : MQTTSubscription_t W) : bool :=
  active s && bool_decide (cstr_of (topic_filter s) = tp).

Definition fill (tp : list Z) (q : MQTTQoS_t) (cb : MQTTMessage_t -> W -> W) (id : Z) : MQTTSubscription_t W :=
  mk_subscription (strncpy (MQTT_MAX_TOPIC_LEN - 1) tp ++ [0]) q (Some cb) true id.

Definition clear (s : MQTTSubscription_t W) : MQTTSubscription_t W :=
  s <| active := false |> <| callback := None |>.

End table.

(** ** The ESP32 build *)

Module esp.
Section esp.
Context {W : Type}.

(** The vendor's MQTT client, behind its functions: [None] of [client_init] is a
    NULL handle, the other integers are [esp_err_t] codes or message ids. *)
Record esp_mqtt := mk_esp {
  esp_mqtt_client_init : MQTTClientConfig_t -> W -> bool * W;
  esp_mqtt_client_start : W -> bool * W;
  esp_mqtt_client_stop : W -> bool * W;
  esp_mqtt_client_publish : list Z -> list Z -> MQTTQoS_t -> bool -> W -> Z * W;
  esp_mqtt_client_subscribe : list Z -> MQTTQoS_t -> W -> Z * W;
  esp_mqtt_client_unsubscribe : list Z -> W -> W }.

(** [s_client] says whether the handle is set. *)
Record state := mk_state {
  s_client : bool;
  g_state : MQTTState_t;
  g_initialised : bool;
  g_subscriptions : list (MQTTSubscription_t W) }.

#[local] Instance eta_state : Eta state := fun r =>
  mk_state (s_client r) (g_state r) (g_initialised r) (g_subscriptions r).

Definition initial : state := mk_state false MQTT_STATE_DISCONNECTED false empty_table.

Inductive event :=
| MQTT_EVENT_CONNECTED
| MQTT_EVENT_DISCONNECTED
| MQTT_EVENT_SUBSCRIBED (msg_id : Z)
| MQTT_EVENT_DATA (tp data : list Z)
| MQTT_EVENT_ERROR
| MQTT_EVENT_OTHER.

(** The topic buffer of a DATA event, as the C string the scan compares. *)
Definition topic_buf (tp : list Z) : list Z :=
  cstr_of (take (if Z.of_nat (length tp) <? 127 then length tp else 127) tp ++ [0]).

Definition received (s : MQTTSubscription_t W) (tp data : list Z) : MQTTMessage_t :=
  mk_message (take 127 (topic_buf tp)) (take (Z.to_nat MQTT_MAX_PAYLOAD) data) (qos s) false.

Definition esp_mqtt_event_handler (st : state) (e : event) (w : W) : state * W :=
  match e with
  | MQTT_EVENT_CONNECTED => (st <| g_state := MQTT_STATE_CONNECTED |>, w)
  | MQTT_EVENT_DISCONNECTED => (st <| g_state := MQTT_STATE_DISCONNECTED |>, w)
  | MQTT_EVENT_SUBSCRIBED _ => (st, w)
  | MQTT_EVENT_DATA tp data =>
      match find_first (has_topic (topic_buf tp)) (g_subscriptions st) with
      | Some s =>
          match callback s with
          | Some cb => (st, cb (received s tp data) w)
          | None => (st, w)
          end
      | None => (st, w)
      end
  | MQTT_EVENT_ERROR => (st <| g_state := MQTT_STATE_ERROR |>, w)
  | MQTT_EVENT_OTHER => (st, w)
  end.

Context (api : esp_mqtt).

Definition mqtt_client_init (st : state) : bool * state :=
  (true, st <| g_subscriptions := empty_table |> <| g_state := MQTT_STATE_DISCONNECTED |>
            <| g_initialised := true |>).

(** The vendor's configuration has no port, keep-alive or certificate defaults;
    the certificate is passed when TLS is asked for. *)
Definition mqtt_client_configure (st : state) (config : option MQTTClientConfig_t) (w : W) : bool * state * W :=
  match config with
  | None => (false, st, w)
  | Some c =>
      if negb (g_initialised st) then (false, st, w)
      else
        let esp_cfg := if use_tls c then c else c <| ca_cert_pem := None |> in
        let '(ok, w) := esp_mqtt_client_init api esp_cfg w in
        (ok, st <| s_client := ok |>, w)
  end.

Definition ready (st : state) : bool := g_initialised st && s_client st.

Definition mqtt_client_connect (st : state) (w : W) : bool * state * W :=
  if negb (ready st) then (false, st, w)
  else
    let st := st <| g_state := MQTT_STATE_CONNECTING |> in
    let '(ok, w) := esp_mqtt_client_start api w in
    if ok : bool then (true, st, w) else (false, st <| g_state := MQTT_STATE_ERROR |>, w).

Definition mqtt_client_disconnect (st : state) (w : W) : bool * state * W :=
  if negb (ready st) then (false, st, w)
  else
    let '(ok, w) := esp_mqtt_client_stop api w in
    (ok, st <| g_state := MQTT_STATE_DISCONNECTED |>, w).

Definition mqtt_client_publish (st : state) (tp data : option (list Z)) (q : MQTTQoS_t) (rt : bool) (w : W)
  : bool * W :=
  if negb (ready st) then (false, w)
  else if negb (bool_decide (g_state st = MQTT_STATE_CONNECTED)) then (false, w)
  else
    match tp, data with
    | Some tp, Some d =>
        if MQTT_MAX_PAYLOAD <? Z.of_nat (length d) then (false, w)
        else
          let '(msg_id, w) := esp_mqtt_client_publish api tp d q rt w in
          (0 <=? msg_id, w)
    | _, _ => (false, w)
    end.

Definition mqtt_client_subscribe (st : state) (tp : option (list Z)) (q : MQTTQoS_t)
    (cb : option (MQTTMessage_t -> W -> W)) (w : W) : bool * state * W :=
  if negb (ready st) then (false, st, w)
  else
    match tp, cb with
    | Some tp, Some cb =>
        match free_slot (g_subscriptions st) with
        | None => (false, st, w)
        | Some slot =>
            let '(msg_id, w) := esp_mqtt_client_subscribe api tp q w in
            if msg_id <? 0 then (false, st, w)
            else (true, st <| g_subscriptions := <[slot := fill tp q cb msg_id]> (g_subscriptions st) |>, w)
        end
    | _, _ => (false, st, w)
    end.

Definition mqtt_client_unsubscribe (st : state) (tp : option (list Z)) (w : W) : bool * state * W :=
  if negb (ready st) then (false, st, w)
  else
    match tp with
    | None => (false, st, w)
    | Some tp =>
        match find_index (has_topic tp) (g_subscriptions st) with
        | Some i =>
            let w := esp_mqtt_client_unsubscribe api tp w in
            (true, st <| g_subscriptions := alter clear i (g_subscriptions st) |>, w)
        | None => (false, st, w)
        end
    end.

Definition mqtt_client_get_state (st : state) : MQTTState_t := g_state st.

(** ** Properties *)

(** A topic that fits its buffer. *)
Definition good_topic (tp : list Z) : Prop := c_string tp /\ (length tp <= 126)%nat.

Lemma topic_buf_good tp : good_topic tp -> topic_buf tp = tp.
Proof.
  intros [Hc Hl]. unfold topic_buf. destruct (Z.ltb_spec (Z.of_nat (length tp)) 127); [|lia].
  rewrite take_ge by lia. apply cstr_of_app, Hc.
Qed.

Lemma fill_has_topic tp tp' q cb id :
  good_topic tp -> has_topic tp' (fill tp q cb id : MQTTSubscription_t W) = bool_decide (tp = tp').
Proof.
  intros [Hc Hl]. unfold has_topic, fill. cbn [active topic_filter andb].
  rewrite cstr_of_strncpy by exact Hc. unfold MQTT_MAX_TOPIC_LEN. rewrite take_ge by lia. reflexivity.
Qed.

(** A subscription that is accepted delivers: the next message on exactly its
    topic reaches its callback, with the payload cut to 256 bytes, provided no
    earlier subscription has that topic; messages on other topics are routed as
    before. *)
Theorem subscribe_delivers st tp q cb w st' w' :
  good_topic tp -> mqtt_client_subscribe st (Some tp) q (Some cb) w = (true, st', w') ->
  find_index (has_topic tp) (g_subscriptions st) = None ->
  (forall data v, esp_mqtt_event_handler st' (MQTT_EVENT_DATA tp data) v =
     (st', cb (mk_message tp (take 256 data) q false) v)) /\
  (forall tp' data v, good_topic tp' -> tp' <> tp ->
     (esp_mqtt_event_handler st' (MQTT_EVENT_DATA tp' data) v).2 =
     (esp_mqtt_event_handler st (MQTT_EVENT_DATA tp' data) v).2).
Proof.
  intros Hg. unfold mqtt_client_subscribe. destruct (negb (ready st)); [discriminate|].
  destruct (free_slot (g_subscriptions st)) as [i|] eqn:Hf; [|discriminate].
  destruct (esp_mqtt_client_subscribe api tp q w) as [id w1]. destruct (id <? 0); [discriminate|].
  intros [= <- <-] Hnone. set (s := fill tp q cb id).
  unfold free_slot in Hf. pose proof (find_index_lt _ _ _ Hf) as Hlt.
  apply find_index_lookup in Hf as (old & Hold & Ho). apply negb_true_iff in Ho.
  split.
  - intros data v. cbn [esp_mqtt_event_handler g_subscriptions set_field]. rewrite topic_buf_good by exact Hg.
    unfold find_first.
    rewrite (find_index_insert_new (has_topic tp) _ i s Hnone Hlt)
      by (unfold s; rewrite fill_has_topic by exact Hg; apply bool_decide_eq_true_2; reflexivity).
    cbn [mbind option_bind]. rewrite list_lookup_insert_eq by exact Hlt. cbn [callback s fill].
    unfold received. rewrite topic_buf_good by exact Hg.
    destruct Hg as [_ Hl]. rewrite (take_ge tp) by lia. reflexivity.
  - intros tp' data v Hg' Hne. cbn [esp_mqtt_event_handler g_subscriptions set_field].
    rewrite topic_buf_good by exact Hg'. unfold find_first.
    rewrite (find_index_insert_same (has_topic tp') _ i s old Hold).
    2: { unfold s. rewrite fill_has_topic by exact Hg. rewrite bool_decide_eq_false_2 by congruence.
         unfold has_topic. rewrite Ho. reflexivity. }
    destruct (find_index (has_topic tp') (g_subscriptions st)) as [j|] eqn:Hj; [|reflexivity].
    cbn [mbind option_bind]. rewrite list_lookup_insert_ne.
    + destruct (g_subscriptions st !! j) as [s'|]; [|reflexivity].
      unfold received. destruct (callback s'); reflexivity.
    + intros <-. apply find_index_lookup in Hj as (s' & Hs' & Ht). rewrite Hold in Hs'. injection Hs' as <-.
      unfold has_topic in Ht. rewrite Ho in Ht. discriminate.
Qed.

(** The table is matched with [strcmp]: a subscription to a wildcard filter is
    accepted by the broker, and no message on a topic it stands for is delivered. *)
Theorem wildcard_never_delivers st filter q cb w st' w' tp data v :
  good_topic filter -> good_topic tp -> tp <> filter ->
  mqtt_client_subscribe st (Some filter) q (Some cb) w = (true, st', w') ->
  g_subscriptions st = empty_table ->
  esp_mqtt_event_handler st' (MQTT_EVENT_DATA tp data) v = (st', v).
Proof.
  intros Hg Hg' Hne. unfold mqtt_client_subscribe. destruct (negb (ready st)); [discriminate|].
  intros Hs He. rewrite He in Hs. cbn in Hs.
  destruct (esp_mqtt_client_subscribe api filter q w) as [id w1]. destruct (id <? 0); [discriminate|].
  injection Hs as <- <-. cbn [esp_mqtt_event_handler g_subscriptions set_field].
  rewrite topic_buf_good by exact Hg'.
  replace (find_first _ _) with (@None (MQTTSubscription_t W)); [reflexivity|].
  symmetry. apply find_first_None. intros s Hs. apply elem_of_cons in Hs as [->|Hs].
  - change (has_topic tp (fill filter q cb id : MQTTSubscription_t W) = false).
    rewrite fill_has_topic by exact Hg. apply bool_decide_eq_false_2. congruence.
  - change (s ∈ replicate 7 (@zero_subscription W)) in Hs.
    apply elem_of_replicate in Hs as [-> _]. reflexivity.
Qed.

End esp.
End esp.

(** ** The theorems on a concrete client *)

Definition demo_api : esp.esp_mqtt (W := list MQTTMessage_t) :=
  esp.mk_esp (fun _ w => (true, w)) (fun w => (true, w)) (fun w => (true, w))
    (fun _ _ _ _ w => (1, w)) (fun _ _ w => (7, w)) (fun _ w => w).

Definition demo_client : esp.state (W := list MQTTMessage_t) :=
  (esp.mqtt_client_configure demo_api (esp.mqtt_client_init esp.initial).2 (Some zero_config) []).1.2.

Lemma demo_topic_good (s : string) :
  forallb (fun b => negb (b =? 0)) (cstr s) && (length (cstr s) <=? 126)%nat = true -> esp.good_topic (cstr s).
Proof.
  intros [H1 H2]%andb_true_iff. split; [|apply Nat.leb_le, H2]. apply Forall_forall. intros b Hb.
  rewrite forallb_forall in H1. apply list_elem_of_In in Hb. specialize (H1 b Hb). reflect. exact H1.
Qed.

Definition demo_subscribe (filter : string) : bool * esp.state (W := list MQTTMessage_t) * list MQTTMessage_t :=
  esp.mqtt_client_subscribe demo_api demo_client (Some (cstr filter)) MQTT_QOS_1
    (Some (fun m w => w ++ [m])) [].

Lemma demo_accepted filter : demo_subscribe filter = (true, (demo_subscribe filter).1.2, (demo_subscribe filter).2).
Proof. reflexivity. Qed.

Lemma subscribe_delivers_witness :
  (esp.esp_mqtt_event_handler (demo_subscribe "a/b").1.2 (esp.MQTT_EVENT_DATA (cstr "a/b") [1; 2]) []).2
  = [mk_message (cstr "a/b") [1; 2] MQTT_QOS_1 false].
Proof.
  destruct (esp.subscribe_delivers demo_api demo_client (cstr "a/b") MQTT_QOS_1 (fun m w => w ++ [m]) []
              _ _ (demo_topic_good "a/b" eq_refl) (demo_accepted "a/b") eq_refl) as [H _].
  specialize (H [1; 2] []). rewrite H. reflexivity.
Defined.

Lemma wildcard_never_delivers_witness :
  (esp.esp_mqtt_event_handler (demo_subscribe "a/#").1.2 (esp.MQTT_EVENT_DATA (cstr "a/b") [1; 2]) []).2 = [].
Proof.
  pose proof (esp.wildcard_never_delivers demo_api demo_client (cstr "a/#") MQTT_QOS_1 (fun m w => w ++ [m]) []
             _ _ (cstr "a/b") [1; 2] [] (demo_topic_good "a/#" eq_refl) (demo_topic_good "a/b" eq_refl)
             ltac:(discriminate) (demo_accepted "a/#") eq_refl) as H.
  rewrite H. reflexivity.
Defined.

End mqtt_client.
