(* ===== verification/MqttNative.v ===== *)
(** The native build of the MQTT client (firmware/shared/mqtt_client.c, the #else
    branch): no broker, a connection that always succeeds, and the subscription
    table of Mqtt, which makes it stand in for the ESP32 build. *)

From S2P Require Import Prelude Mqtt.
Import mqtt_client.

Module mqtt_native.
Section native.
Context {W : Type}.

Record state := mk_state {
  g_config : MQTTClientConfig_t;
  g_state : MQTTState_t;
  g_initialised : bool;
  g_subscriptions : list (MQTTSubscription_t W) }.

#[local] Instance eta_state : Eta state := fun r =>
  mk_state (g_config r) (g_state r) (g_initialised r) (g_subscriptions r).

Definition initial : state := mk_state zero_config MQTT_STATE_DISCONNECTED false empty_table.

Definition mqtt_client_init (st : state) : bool * state :=
  (true, mk_state zero_config MQTT_STATE_DISCONNECTED true empty_table).

Definition mqtt_client_configure (st : state) (config : option MQTTClientConfig_t) : bool * state :=
  match config with
  | None => (false, st)
  | Some c =>
      if negb (g_initialised st) then (false, st)
      else
        let c := if keepalive_sec c =? 0 then c <| keepalive_sec := MQTT_KEEPALIVE_SEC |> else c in
        let c := if broker_port c =? 0 then c <| broker_port := MQTT_DEFAULT_PORT |> else c in
        (true, st <| g_config := c |>)
  end.

Definition mqtt_client_connect (st : state) : bool * state :=
  if negb (g_initialised st) then (false, st)
  else
    match broker_host (g_config st) with
    | None => (false, st)
    | Some _ => (true, st <| g_state := MQTT_STATE_CONNECTING |> <| g_state := MQTT_STATE_CONNECTED |>)
    end.

Definition mqtt_client_disconnect (st : state) : bool * state :=
  if negb (g_initialised st) then (false, st) else (true, st <| g_state := MQTT_STATE_DISCONNECTED |>).

Definition mqtt_client_publish (st : state) (tp data : option (list Z)) (payload_len : Z) : bool :=
  if negb (g_initialised st) then false
  else if negb (bool_decide (g_state st = MQTT_STATE_CONNECTED)) then false
  else
    match tp, data with
    | Some _, Some _ => if MQTT_MAX_PAYLOAD <? payload_len then false else true
    | _, _ => false
    end.

Definition mqtt_client_subscribe (st : state) (tp : option (list Z)) (q : MQTTQoS_t)
    (cb : option (MQTTMessage_t -> W -> W)) : bool * state :=
  if negb (g_initialised st) then (false, st)
  else
    match tp, cb with
    | Some tp, Some cb =>
        match free_slot (g_subscriptions st) with
        | Some i => (true, st <| g_subscriptions := <[i := fill tp q cb 0]> (g_subscriptions st) |>)
        | None => (false, st)
        end
    | _, _ => (false, st)
    end.

Definition mqtt_client_unsubscribe (st : state) (tp : option (list Z)) : bool * state :=
  if negb (g_initialised st) then (false, st)
  else
    match tp with
    | None => (false, st)
    | Some tp =>
        match find_index (has_topic tp) (g_subscriptions st) with
        | Some i => (true, st <| g_subscriptions := alter clear i (g_subscriptions st) |>)
        | None => (false, st)
        end
    end.

Definition mqtt_client_get_state (st : state) : MQTTState_t := g_state st.

End native.

(** ** The two builds *)

Section builds.
Context {W : Type} (api : esp.esp_mqtt (W := W)).

(** The broker of the ESP32 build accepts every subscription. *)
Hypothesis accepts : forall tp q w, 0 <= (esp.esp_mqtt_client_subscribe api tp q w).1.

(** A subscription without the message id, which the native build does not have. *)
Definition erase (s : MQTTSubscription_t W) : MQTTSubscription_t W := s <| esp_msg_id := 0 |>.

(** The same subscriptions, in a client that is set up. *)
Record agree (n : state) (e : esp.state (W := W)) : Prop := {
  agree_native : g_initialised n = true;
  agree_esp : esp.ready e = true;
  agree_table : g_subscriptions n = map erase (esp.g_subscriptions e) }.

Inductive call :=
| Subscribe (tp : option (list Z)) (q : MQTTQoS_t) (cb : option (MQTTMessage_t -> W -> W))
| Unsubscribe (tp : option (list Z)).

Definition native_step (n : state) (c : call) : bool * state :=
  match c with
  | Subscribe tp q cb => mqtt_client_subscribe n tp q cb
  | Unsubscribe tp => mqtt_client_unsubscribe n tp
  end.

Definition esp_step (e : esp.state) (w : W) (c : call) : bool * esp.state * W :=
  match c with
  | Subscribe tp q cb => esp.mqtt_client_subscribe api e tp q cb w
  | Unsubscribe tp => esp.mqtt_client_unsubscribe api e tp w
  end.

Fixpoint native_run (n : state) (cs : list call) : list bool * state :=
  match cs with
  | [] => ([], n)
  | c :: cs => let '(ok, n) := native_step n c in let '(oks, n) := native_run n cs in (ok :: oks, n)
  end.

Fixpoint esp_run (e : esp.state) (w : W) (cs : list call) : list bool * esp.state * W :=
  match cs with
  | [] => ([], e, w)
  | c :: cs =>
      let '(ok, e, w) := esp_step e w c in
      let '(oks, e, w) := esp_run e w cs in (ok :: oks, e, w)
  end.

Lemma find_index_map {A B} (f : A -> B) (p : B -> bool) (q : A -> bool) l :
  (forall x, p (f x) = q x) -> find_index p (map f l) = find_index q l.
Proof. intros H. induction l as [|x l IH]; cbn; [reflexivity|]. rewrite H, IH. reflexivity. Qed.

Lemma map_insert {A B} (f : A -> B) i x (l : list A) : map f (<[i := x]> l) = <[i := f x]> (map f l).
Proof. apply list_fmap_insert. Qed.

Lemma map_alter {A B} (f : A -> B) (g : A -> A) (h : B -> B) i (l : list A) :
  (forall x, f (g x) = h (f x)) -> map f (alter g i l) = alter h i (map f l).
Proof.
  intros H. revert i. induction l as [|x l IH]; intros [|i]; cbn; [reflexivity..| |].
  - rewrite H. reflexivity.
  - f_equal. apply IH.
Qed.

Lemma step_agrees n e w c :
  agree n e ->
  let '(ok, e', _) := esp_step e w c in
  (native_step n c).1 = ok /\ agree (native_step n c).2 e'.
Proof.
  intros [Hn He Ht]. destruct c as [tp q cb|tp]; cbn [native_step esp_step].
  - unfold mqtt_client_subscribe, esp.mqtt_client_subscribe. rewrite Hn, He. cbn [negb].
    destruct tp as [tp|]; [|split; [reflexivity|split; auto]]. destruct cb as [cb|]; [|split; [reflexivity|split; auto]].
    unfold free_slot. rewrite Ht, (find_index_map erase _ (fun s => negb (active s))) by reflexivity.
    destruct (find_index _ _) as [i|]; [|split; [reflexivity|split; auto]].
    pose proof (accepts tp q w) as Hacc. destruct (esp.esp_mqtt_client_subscribe api tp q w) as [id w1].
    cbn [fst] in Hacc. rewrite (proj2 (Z.ltb_ge _ _)) by lia. split; [reflexivity|]. split; [exact Hn|exact He|].
    cbn. rewrite map_insert. reflexivity.
  - unfold mqtt_client_unsubscribe, esp.mqtt_client_unsubscribe. rewrite Hn, He. cbn [negb].
    destruct tp as [tp|]; [|split; [reflexivity|split; auto]].
    rewrite Ht, (find_index_map erase _ (has_topic tp)) by reflexivity.
    destruct (find_index _ _) as [i|]; [|split; [reflexivity|split; auto]].
    split; [reflexivity|]. split; [exact Hn|exact He|]. cbn. rewrite (map_alter erase clear clear) by reflexivity. reflexivity.
Qed.

(** Under a broker that accepts every subscription the native build stands in for
    the ESP32 one: from set-up clients with the same subscriptions, any calls get
    the same answers and leave the same subscriptions. *)
Theorem builds_agree n e w cs :
  agree n e ->
  let '(oks, e', _) := esp_run e w cs in
  (native_run n cs).1 = oks /\ agree (native_run n cs).2 e'.
Proof.
  revert n e w. induction cs as [|c cs IH]; intros n e w H; [split; [reflexivity|exact H]|].
  cbn [esp_run native_run]. pose proof (step_agrees n e w c H) as Hs.
  destruct (esp_step e w c) as [[ok e1] w1]. destruct (native_step n c) as [ok' n1]. cbn [fst snd] in Hs.
  destruct Hs as [-> H1]. specialize (IH n1 e1 w1 H1).
  destruct (esp_run e1 w1 cs) as [[oks e'] w']. destruct (native_run n1 cs) as [oks' n']. cbn [fst snd] in *.
  destruct IH as [-> IH]. auto.
Qed.

End builds.

Definition demo_calls : list (call (W := list MQTTMessage_t)) :=
  [Subscribe (Some (cstr "a")) MQTT_QOS_0 (Some (fun m w => w ++ [m])); Unsubscribe (Some (cstr "b"));
   Unsubscribe (Some (cstr "a")); Subscribe None MQTT_QOS_0 None].

Lemma builds_agree_witness :
  (native_run (mqtt_client_init initial).2 demo_calls).1 = [true; false; true; false].
Proof.
  assert (forall tp q w, 0 <= (esp.esp_mqtt_client_subscribe demo_api tp q w).1) as Hacc by (intros; cbn; lia).
  pose proof (builds_agree demo_api Hacc (mqtt_client_init initial).2 demo_client [] demo_calls) as H.
  assert (agree (mqtt_client_init initial).2 demo_client) as Ha by (split; reflexivity).
  specialize (H Ha). destruct (esp_run demo_api demo_client [] demo_calls) as [[oks e'] w'] eqn:E.
  destruct H as [-> _]. apply (f_equal (fun r => r.1.1)) in E. cbn [fst] in E. rewrite <- E. vm_compute. reflexivity.
Defined.

End mqtt_native.
