(* ===== verification/CloudIngestion.v ===== *)
(** The cloud ingestion service (cloud/ingestion_service.c): topics and payloads
    into points of the telemetry store.  A client of TelemetryStore, and the
    reader of the topics that Mqtt builds. *)

From S2P Require Import Prelude Float32 Text Mqtt TelemetryStore.
Import float32 text.
Import mqtt_client(topic_text, mqtt_build_telemetry_topic).
Import telemetry_store(TelemetryDataPoint_t, mk_point, telemetry_store_write, telemetry_store_get_cardinality,
  TELEMETRY_STORE_MAX_TAG_LEN, STORE_OK, STORE_ERR_FULL).

Module ingestion_service.

#[local] Existing Instance telemetry_store.TelemetryStoreResult_eq_dec.

Definition INGESTION_DEFAULT_CARDINALITY_THRESHOLD : Z := 10000.

Inductive IngestionResult_t :=
| INGEST_OK
| INGEST_ERR_PARAM_NULL
| INGEST_ERR_TOPIC_PARSE
| INGEST_ERR_STORE_FULL
| INGEST_ERR_NOT_INIT.

#[export] Instance IngestionResult_eq_dec : EqDecision IngestionResult_t.
Proof. solve_decision. Defined.

Definition slash : Z := 47.

(** ** Topics *)

(** The loop that steps over [n] separators. *)
Fixpoint skip_components (n : nat) (p : list Z) : option (list Z) :=
  match n with
  | O => Some p
  | S n' =>
      match p with
      | [] => None
      | c :: p => if c =? slash then skip_components n' p else skip_components n p
      end
  end.

(** The text copied into [out], if it is not empty. *)
Definition extract_component (topic : list Z) (index : nat) (out_size : nat) : option (list Z) :=
  let p := match topic with c :: p => if c =? slash then p else topic | [] => [] end in
  match skip_components index p with
  | None => None
  | Some p =>
      match take (out_size - 1) (span (fun c => negb (c =? slash)) p).1 with
      | [] => None
      | out => Some out
      end
  end.

(** The three identifiers. *)
Definition ingestion_parse_topic (topic : option (list Z)) (out : bool)
  : IngestionResult_t * option (list Z * list Z * list Z) :=
  match topic with
  | None => (INGEST_ERR_PARAM_NULL, None)
  | Some topic =>
      if negb out then (INGEST_ERR_PARAM_NULL, None)
      else
        match extract_component topic 0 16, extract_component topic 1 TELEMETRY_STORE_MAX_TAG_LEN,
              extract_component topic 2 TELEMETRY_STORE_MAX_TAG_LEN,
              extract_component topic 3 TELEMETRY_STORE_MAX_TAG_LEN, extract_component topic 4 16 with
        | Some prefix, Some tenant, Some site, Some device, Some suffix =>
            if bool_decide (prefix = cstr "rainmaker") && bool_decide (suffix = cstr "telemetry")
            then (INGEST_OK, Some (tenant, site, device))
            else (INGEST_ERR_TOPIC_PARSE, None)
        | _, _, _, _, _ => (INGEST_ERR_TOPIC_PARSE, None)
        end
  end.

(** ** The service *)

(** The statics, and those of the store the file calls. The callback gets the
    tenant, the count and the threshold. *)
Record state (W : Type) := mk_state {
  cardinality_warning_threshold : Z;
  s_initialised : bool;
  s_cardinality_callback : option (list Z -> Z -> Z -> W -> W);
  store : telemetry_store.state }.
Arguments mk_state {W}. Arguments cardinality_warning_threshold {W}. Arguments s_initialised {W}.
Arguments s_cardinality_callback {W}. Arguments store {W}.

#[export] Instance eta_state W : Eta (state W) := fun r =>
  mk_state (cardinality_warning_threshold r) (s_initialised r) (s_cardinality_callback r) (store r).

Section service.
Context {W : Type}.
Implicit Types (st : state W) (w : W).

Definition initial (s : telemetry_store.state) : state W := mk_state 0 false None s.

(** The configuration is its threshold. *)
Definition ingestion_service_init st (config : option Z) : bool * state W :=
  let st := match config with
            | Some c => st <| cardinality_warning_threshold := c |>
            | None => st <| cardinality_warning_threshold := INGESTION_DEFAULT_CARDINALITY_THRESHOLD |>
            end in
  (true, st <| s_cardinality_callback := None |> <| s_initialised := true |>).

(** The metric and the value of a payload, a C string. *)
Definition parse_payload (payload : list Z) : list Z * float :=
  match split_at 58 payload with
  | Some (metric, rest) => (take 63 metric, strtof rest)
  | None => (cstr "unknown", 0)
  end.

Definition make_point (tenant site device metric : list Z) (v : float) (ts : Z) : TelemetryDataPoint_t :=
  let field s := strncpy (TELEMETRY_STORE_MAX_TAG_LEN - 1) s ++ [0] in
  mk_point (field tenant) (field site) (field device) (zeros 64) (field metric) (field (cstr "unknown")) v ts.

(** [payload_len] is not used: the payload is read up to its NUL. *)
Definition ingestion_ingest st (topic payload : option (list Z)) (payload_len timestamp_ms : Z) w
  : IngestionResult_t * state W * W :=
  if negb (s_initialised st) then (INGEST_ERR_NOT_INIT, st, w)
  else
    match topic, payload with
    | Some topic, Some payload =>
        match ingestion_parse_topic (Some topic) true with
        | (INGEST_OK, Some (tenant_id, site_id, device_id)) =>
            let '(metric_id, value) := parse_payload payload in
            let point := make_point tenant_id site_id device_id metric_id value timestamp_ms in
            let '(store_result, s) := telemetry_store_write (store st) (Some point) in
            let st := st <| store := s |> in
            if bool_decide (store_result = STORE_ERR_FULL) then (INGEST_ERR_STORE_FULL, st, w)
            else
              match s_cardinality_callback st with
              | Some cb =>
                  if 0 <? cardinality_warning_threshold st then
                    let cardinality := telemetry_store_get_cardinality s (Some tenant_id) in
                    if cardinality_warning_threshold st <? cardinality
                    then (INGEST_OK, st, cb tenant_id cardinality (cardinality_warning_threshold st) w)
                    else (INGEST_OK, st, w)
                  else (INGEST_OK, st, w)
              | None => (INGEST_OK, st, w)
              end
        | (parse_result, _) => (parse_result, st, w)
        end
    | _, _ => (INGEST_ERR_PARAM_NULL, st, w)
    end.

Definition ingestion_set_cardinality_callback st (cb : option (list Z -> Z -> Z -> W -> W)) : state W :=
  st <| s_cardinality_callback := cb |>.

Definition ingestion_get_config st : option Z :=
  if s_initialised st then Some (cardinality_warning_threshold st) else None.

End service.

(** ** Reading a topic back *)

(** An identifier that is one component of a topic and fits a tag. *)
Record good_id (s : list Z) : Prop := {
  gi_string : c_string s;
  gi_nonempty : s <> [];
  gi_short : (length s <= 63)%nat;
  gi_slash : slash ∉ s }.

Lemma skip_none p : skip_components 0 p = Some p.
Proof. destruct p; reflexivity. Qed.

Lemma skip_component s rest n :
  slash ∉ s -> skip_components (S n) (s ++ slash :: rest) = skip_components n rest.
Proof.
  induction s as [|c s IH]; intros Hs; [reflexivity|].
  apply not_elem_of_cons in Hs as [Hc Hs]. cbn [app skip_components].
  destruct (Z.eqb_spec c slash); [congruence|]. apply IH, Hs.
Qed.

Lemma span_component s rest :
  slash ∉ s -> (span (fun c => negb (c =? slash)) (s ++ slash :: rest)).1 = s.
Proof.
  induction s as [|c s IH]; intros Hs; [reflexivity|].
  apply not_elem_of_cons in Hs as [Hc Hs]. cbn [app span].
  destruct (Z.eqb_spec c slash); [congruence|]. cbn [negb].
  specialize (IH Hs). destruct (span _ (s ++ slash :: rest)). cbn in *. congruence.
Qed.

Lemma span_last s : slash ∉ s -> (span (fun c => negb (c =? slash)) s).1 = s.
Proof.
  induction s as [|c s IH]; intros Hs; [reflexivity|].
  apply not_elem_of_cons in Hs as [Hc Hs]. cbn [span].
  destruct (Z.eqb_spec c slash); [congruence|]. cbn [negb].
  specialize (IH Hs). destruct (span _ s). cbn in *. congruence.
Qed.

Definition joined (parts : list (list Z)) (last : list Z) : list Z :=
  foldr (fun s rest => s ++ slash :: rest) last parts.

Lemma skip_joined n parts last s :
  Forall (fun p => slash ∉ p) parts -> parts !! n = Some s ->
  exists rest, skip_components n (joined parts last) = Some (s ++ slash :: rest).
Proof.
  revert n. induction parts as [|p parts IH]; intros [|n] Hp Hn; try discriminate Hn.
  - injection Hn as ->. rewrite skip_none. eexists. reflexivity.
  - apply Forall_cons in Hp as [Hp Hps]. cbn [joined foldr]. fold (joined parts last).
    rewrite skip_component by exact Hp. apply IH; assumption.
Qed.

Lemma skip_joined_last parts last :
  Forall (fun p => slash ∉ p) parts -> skip_components (length parts) (joined parts last) = Some last.
Proof.
  induction 1 as [|p parts Hp _ IH]; [apply skip_none|]. cbn [length joined foldr]. fold (joined parts last).
  rewrite skip_component by exact Hp. exact IH.
Qed.

Lemma topic_joined t s d :
  topic_text t s d = joined [cstr "rainmaker"; t; s; d] (cstr "telemetry").
Proof.
  unfold topic_text, joined. cbn [foldr]. change (cstr "rainmaker/") with (cstr "rainmaker" ++ [slash]).
  change (cstr "/telemetry") with ([slash] ++ cstr "telemetry"). change (cstr "/") with [slash].
  rewrite <- !app_assoc. reflexivity.
Qed.

Lemma no_slash_name : (slash ∉ cstr "rainmaker") /\ (slash ∉ cstr "telemetry").
Proof. split; rewrite list_elem_of_In; cbn; unfold slash; intuition discriminate. Qed.

(** Extracting a component of a joined topic, cut to the buffer. *)
Lemma extract_joined parts last n size part p0 rest0 :
  Forall (fun p => slash ∉ p) parts -> parts !! n = Some part -> part <> [] -> (1 < size)%nat ->
  joined parts last = p0 :: rest0 -> p0 <> slash ->
  extract_component (joined parts last) n size = Some (take (size - 1) part).
Proof.
  intros Hp Hpart Hne Hsize Hj Hp0. unfold extract_component.
  replace (match joined parts last with c :: p => if c =? slash then p else joined parts last | [] => [] end)
    with (joined parts last) by (rewrite Hj; destruct (Z.eqb_spec p0 slash); [contradiction|reflexivity]).
  destruct (skip_joined n _ last part Hp Hpart) as [rest ->].
  rewrite span_component by (rewrite Forall_forall in Hp; eapply Hp, list_elem_of_lookup_2, Hpart).
  destruct part as [|c part]; [contradiction|]. destruct (size - 1)%nat eqn:E; [lia|]. reflexivity.
Qed.

(** The topic of three identifiers, read back and cut to 63 bytes each. *)
Lemma parse_topic_cut t s d :
  slash ∉ t -> slash ∉ s -> slash ∉ d -> t <> [] -> s <> [] -> d <> [] ->
  ingestion_parse_topic (Some (topic_text t s d)) true =
  (INGEST_OK, Some (take 63 t, take 63 s, take 63 d)).
Proof.
  intros St Ss Sd Nt Ns Nd. rewrite topic_joined.
  assert (Forall (fun p => slash ∉ p) [cstr "rainmaker"; t; s; d]) as Hp
    by (repeat constructor; auto; apply no_slash_name).
  assert (forall n size part, [cstr "rainmaker"; t; s; d] !! n = Some part -> part <> [] -> (1 < size)%nat ->
    extract_component (joined [cstr "rainmaker"; t; s; d] (cstr "telemetry")) n size = Some (take (size - 1) part))
    as Hex.
  { intros n size part Hpart Hne Hsize.
    eapply (extract_joined _ _ n size part 114); [exact Hp|exact Hpart|exact Hne|exact Hsize|reflexivity|discriminate]. }
  unfold ingestion_parse_topic. cbn [negb]. unfold TELEMETRY_STORE_MAX_TAG_LEN.
  rewrite (Hex 0%nat 16%nat (cstr "rainmaker")), (Hex 1%nat 64%nat t), (Hex 2%nat 64%nat s), (Hex 3%nat 64%nat d)
    by (first [reflexivity | discriminate | assumption | lia]).
  unfold extract_component.
  change (match joined _ _ with c :: p => _ | [] => [] end) with
    (joined [cstr "rainmaker"; t; s; d] (cstr "telemetry")).
  change 4%nat with (length [cstr "rainmaker"; t; s; d]). rewrite skip_joined_last by exact Hp.
  rewrite span_last by apply no_slash_name. reflexivity.
Qed.

Lemma parse_topic_text t s d :
  good_id t -> good_id s -> good_id d ->
  ingestion_parse_topic (Some (topic_text t s d)) true = (INGEST_OK, Some (t, s, d)).
Proof.
  intros [_ Nt Lt St] [_ Ns Ls Ss] [_ Nd Ld Sd]. rewrite parse_topic_cut by assumption.
  rewrite !take_ge by lia. reflexivity.
Qed.

(** A tag written by the service always fits. *)
Lemma cstr_of_snoc_length (l : list Z) : (length (cstr_of (l ++ [0%Z])) <= length l)%nat.
Proof.
  induction l as [|b l IH]; cbn; [lia|]. destruct (b =? 0); cbn; lia.
Qed.

Lemma point_tag_good t s d metric v ts :
  telemetry_store.good_tag (telemetry_store.tenant_of (make_point t s d metric v ts)).
Proof.
  unfold telemetry_store.good_tag, telemetry_store.tenant_of. cbn [make_point telemetry_store.tenant_id].
  etransitivity; [apply cstr_of_snoc_length|]. rewrite strncpy_length. reflexivity.
Qed.

(** What an ingest writes into a store with room. *)
Lemma ingest_writes {W} (st : state W) t s d payload len ts w :
  s_initialised st = true -> telemetry_store.wf (store st) -> good_id t -> good_id s -> good_id d ->
  telemetry_store.s_store_count (store st) < telemetry_store.TELEMETRY_STORE_MAX_SERIES ->
  let '(metric, v) := parse_payload payload in
  let '(res, st', _) := ingestion_ingest st (Some (topic_text t s d)) (Some payload) len ts w in
  res = INGEST_OK /\ telemetry_store.wf (store st') /\
  telemetry_store.points (store st') = telemetry_store.points (store st) ++ [make_point t s d metric v ts].
Proof.
  intros Hi Hwf Ht Hs Hd Hroom. destruct (parse_payload payload) as [metric v] eqn:Hpay.
  unfold ingestion_ingest. rewrite Hi, (parse_topic_text t s d Ht Hs Hd), Hpay. cbn [negb].
  pose proof (telemetry_store.write_spec (store st) (make_point t s d metric v ts) Hwf
                (point_tag_good t s d metric v ts) Hroom) as H.
  destruct (telemetry_store_write (store st) _) as [res s']. destruct H as (-> & Hwf' & Hp).
  rewrite bool_decide_eq_false_2 by discriminate.
  cbn [s_cardinality_callback cardinality_warning_threshold set_field].
  destruct (s_cardinality_callback st); [destruct (0 <? _); [destruct (_ <? _)|]|]; cbn; auto.
Qed.

(** No tenant has more series than the store has points. *)
Lemma cardinality_bound s t : telemetry_store.wf s -> telemetry_store_get_cardinality s (Some t) <= 1024.
Proof.
  intros [Hi Hs Hc _ _ [_ _ Hser _ _]]. unfold telemetry_store_get_cardinality. rewrite Hi. cbn [negb].
  destruct (find_first _ _) as [c|] eqn:Hf; [|lia]. apply find_first_Some in Hf as [Hin _].
  rewrite Forall_forall in Hser. rewrite (Hser c Hin).
  assert (length (telemetry_store.series (cstr_of (telemetry_store.c_tenant_id c)) (telemetry_store.points s))
          <= length (telemetry_store.points s))%nat as Hle.
  { unfold telemetry_store.series. set (l := List.filter _ (telemetry_store.points s)).
    assert (remove_dups (telemetry_store.make_series_key <$> l) ⊆+ (telemetry_store.make_series_key <$> l)) as Hsub.
    { apply NoDup_submseteq; [apply NoDup_remove_dups|]. intros k. apply elem_of_remove_dups. }
    apply submseteq_length in Hsub. rewrite length_fmap in Hsub.
    etransitivity; [exact Hsub|apply List.filter_length_le]. }
  unfold telemetry_store.TELEMETRY_STORE_MAX_SERIES in Hc.
  assert (length (telemetry_store.points s) = Z.to_nat (telemetry_store.s_store_count s)) as Hl
    by (unfold telemetry_store.points; apply used_length; lia). lia.
Qed.

(** What a payload says: the text before the first colon is the metric, of which
    63 bytes count, and the number after it is the value; without a colon
    neither is known. *)
Inductive payload_says : list Z -> list Z -> float -> Prop :=
| says_reading metric number :
    58 ∉ metric -> payload_says (metric ++ 58 :: number) (take 63 metric) (strtof number)
| says_nothing payload : 58 ∉ payload -> payload_says payload (cstr "unknown") f_zero.

Lemma payload_says_parse payload metric v :
  payload_says payload metric v -> parse_payload payload = (metric, v).
Proof.
  unfold parse_payload. intros [m number Hm|p Hp].
  - rewrite split_at_app by exact Hm. reflexivity.
  - rewrite split_at_None by exact Hp. reflexivity.
Qed.

Lemma payload_metric payload metric v :
  c_string payload -> payload_says payload metric v -> c_string metric /\ (length metric <= 63)%nat.
Proof.
  intros Hc Hsays. destruct Hsays as [m number Hm|p Hp].
  - apply Forall_app in Hc as [Hc _]. split; [apply c_string_take, Hc|]. rewrite length_take. lia.
  - split; [apply (bool_decide_unpack _); vm_compute; exact I|cbn; lia].
Qed.

(** A tag of at most 63 bytes, copied into its buffer. *)
Lemma field_text (s : list Z) : c_string s -> (length s <= 63)%nat -> cstr_of (strncpy 63 s ++ [0]) = s.
Proof. intros Hs Hl. rewrite cstr_of_strncpy by exact Hs. apply take_ge, Hl. Qed.

(** What a token reads after one more point. *)
Lemma query_one_more s s' p (tenant : list Z) i max :
  telemetry_store.wf s -> telemetry_store.wf s' -> telemetry_store.points s' = telemetry_store.points s ++ [p] ->
  good_id tenant -> Z.of_nat (length (telemetry_store.points s)) < max ->
  let token := telemetry_store.mk_token i (strncpy 63 tenant ++ [0]) true in
  (telemetry_store.telemetry_store_query s' (Some token) true max).2 =
  (telemetry_store.telemetry_store_query s (Some token) true max).2 ++
  (if bool_decide (cstr_of (telemetry_store.tenant_id p) = tenant) then [p] else []).
Proof.
  intros Hwf Hwf' Hp [Hc Hne Hl _] Hmax token. unfold telemetry_store.telemetry_store_query.
  rewrite (telemetry_store.wf_init _ Hwf), (telemetry_store.wf_init _ Hwf').
  cbn [negb token telemetry_store.valid telemetry_store.bound_tenant_id].
  rewrite (field_text tenant Hc Hl), bool_decide_eq_false_2 by exact Hne. cbn [snd].
  fold (telemetry_store.points s) (telemetry_store.points s'). rewrite Hp.
  rewrite !telemetry_store.query_loop by (cbn; lia). cbn [app length]. rewrite Nat.sub_0_r.
  rewrite List.filter_app. pose proof (List.filter_length_le (telemetry_store.of_tenant tenant)
    (telemetry_store.points s)) as Hle.
  rewrite (take_ge (List.filter _ (telemetry_store.points _))) by lia. apply take_ge.
  rewrite length_app. destruct (bool_decide _); cbn; lia.
Qed.

(** ** Properties *)

(** Round trip between the device and the cloud: the topic that the MQTT client
    builds into a large enough buffer is parsed back to the same tenant, site and
    device, for any identifiers of 1 to 63 bytes without a slash. *)
Theorem topic_roundtrip t s d size :
  good_id t -> good_id s -> good_id d -> Z.of_nat (length (topic_text t s d)) < size ->
  let '(topic, ok) := mqtt_build_telemetry_topic true size (Some t) (Some s) (Some d) in
  ok = true /\ ingestion_parse_topic topic true = (INGEST_OK, Some (t, s, d)).
Proof.
  intros Ht Hs Hd Hsize. unfold mqtt_build_telemetry_topic, snprintf. cbn [negb].
  rewrite take_ge by lia. split; [|apply parse_topic_text; assumption].
  apply andb_true_iff. rewrite !Z.ltb_lt. split; [|exact Hsize].
  unfold topic_text. rewrite length_app. cbn. lia.
Qed.

(** C12. From the message to the tenant's query: a message on the topic of a
    device is stored as one point whose tags are the tenant, site and device of
    the topic and the metric before the colon of the payload, whose value is the
    number after it, and whose time is the time of the message.  A token of the
    tenant then reads that point after the tenant's earlier points, and a token
    of another tenant reads what it read before. *)
Theorem ingested_point_readable {W} (st : state W) t s d payload metric v len ts w i t' max :
  s_initialised st = true -> telemetry_store.wf (store st) -> good_id t -> good_id s -> good_id d ->
  c_string payload -> payload_says payload metric v ->
  telemetry_store.s_store_count (store st) < 1024 ->
  good_id t' -> Z.of_nat (length (telemetry_store.points (store st))) < max ->
  let topic := cstr "rainmaker/" ++ t ++ cstr "/" ++ s ++ cstr "/" ++ d ++ cstr "/telemetry" in
  let '(res, st', _) := ingestion_ingest st (Some topic) (Some payload) len ts w in
  let token := telemetry_store.mk_token i (strncpy 63 t' ++ [0]) true in
  let read st := (telemetry_store.telemetry_store_query (store st) (Some token) true max).2 in
  res = INGEST_OK /\
  exists p, read st' = read st ++ (if bool_decide (t = t') then [p] else []) /\
    cstr_of (telemetry_store.tenant_id p) = t /\ cstr_of (telemetry_store.site_id p) = s /\
    cstr_of (telemetry_store.node_id p) = d /\ cstr_of (telemetry_store.metric_id p) = metric /\
    cstr_of (telemetry_store.device_class p) = [] /\
    cstr_of (telemetry_store.domain_profile_id p) = cstr "unknown" /\
    telemetry_store.value p = v /\ telemetry_store.timestamp_ms p = ts.
Proof.
  intros Hi Hwf Ht Hs Hd Hc Hsays Hroom Ht' Hmax topic.
  pose proof (ingest_writes st t s d payload len ts w Hi Hwf Ht Hs Hd Hroom) as H.
  rewrite (payload_says_parse _ _ _ Hsays) in H. destruct (payload_metric _ _ _ Hc Hsays) as [Hmc Hml].
  change (topic_text t s d) with topic in H.
  destruct (ingestion_ingest _ _ _ _ _ _) as [[res st'] w']. destruct H as (-> & Hwf' & Hp).
  cbn zeta. split; [reflexivity|]. exists (make_point t s d metric v ts).
  assert (cstr_of (telemetry_store.tenant_id (make_point t s d metric v ts)) = t) as Et
    by (apply field_text; apply Ht).
  split; [rewrite (query_one_more _ _ _ t' i max Hwf Hwf' Hp Ht' Hmax), Et; reflexivity|].
  split; [exact Et|]. split_and!; try reflexivity; apply field_text; first [exact Hmc|exact Hml|apply Hs|apply Hd].
Qed.

(** Identifiers are cut to 63 bytes: the messages of two tenants whose names agree
    in their first 63 bytes are read as those of one tenant. *)
Theorem long_tenants_merge t1 t2 s d :
  slash ∉ t1 -> slash ∉ t2 -> slash ∉ s -> slash ∉ d -> s <> [] -> d <> [] ->
  t1 <> t2 -> take 63 t1 = take 63 t2 -> t1 <> [] -> t2 <> [] ->
  ingestion_parse_topic (Some (topic_text t1 s d)) true =
  ingestion_parse_topic (Some (topic_text t2 s d)) true.
Proof. intros. rewrite !parse_topic_cut by assumption. congruence. Qed.

(** With the default configuration the cardinality warning never fires, whatever
    is ingested: its threshold is 10000 and the store holds 1024 points. *)
Theorem default_warning_never_fires {W} (st : state W) topic payload len ts w :
  telemetry_store.wf (store st) ->
  cardinality_warning_threshold st = INGESTION_DEFAULT_CARDINALITY_THRESHOLD ->
  let '(_, st', w') := ingestion_ingest st topic payload len ts w in
  w' = w /\ telemetry_store.wf (store st') /\
  cardinality_warning_threshold st' = INGESTION_DEFAULT_CARDINALITY_THRESHOLD.
Proof.
  intros Hwf Hc. unfold ingestion_ingest. destruct (negb (s_initialised st)); [auto|].
  destruct topic as [topic|]; [|auto]. destruct payload as [payload|]; [|auto].
  destruct (ingestion_parse_topic (Some topic) true) as [[] [[[t s] d]|]]; auto.
  destruct (parse_payload payload) as [metric v].
  pose proof (telemetry_store.write_wf (store st) (make_point t s d metric v ts) Hwf
                (point_tag_good t s d metric v ts)) as Hwf'.
  destruct (telemetry_store_write (store st) _) as [res s']. cbn [snd] in Hwf'.
  destruct (bool_decide _); [auto|].
  cbn [s_cardinality_callback cardinality_warning_threshold set_field].
  destruct (s_cardinality_callback st) as [cb|]; [|auto]. rewrite Hc.
  destruct (0 <? _); [|auto]. pose proof (cardinality_bound s' t Hwf').
  unfold INGESTION_DEFAULT_CARDINALITY_THRESHOLD.
  destruct (Z.ltb_spec 10000 (telemetry_store_get_cardinality s' (Some t))); [lia|auto].
Qed.

(** ** The theorems on a concrete message *)

Definition id_ok (s : list Z) : bool :=
  forallb (fun b => negb (b =? 0) && negb (b =? slash)) s && negb (bool_decide (s = [])) && (length s <=? 63)%nat.

Lemma id_ok_good s : id_ok s = true -> good_id s.
Proof.
  unfold id_ok. intros [[H1 H2]%andb_true_iff H3]%andb_true_iff.
  rewrite negb_true_iff, bool_decide_eq_false in H2. apply Nat.leb_le in H3. rewrite forallb_forall in H1.
  split; [|exact H2|exact H3|].
  - apply Forall_forall. intros b Hb. apply list_elem_of_In, H1 in Hb. reflect. assumption.
  - intros Hb. apply list_elem_of_In, H1 in Hb. reflect. congruence.
Qed.

Ltac good := apply id_ok_good; vm_compute; reflexivity.

Definition demo_service : state (list (list Z)) :=
  (ingestion_service_init (initial (telemetry_store.telemetry_store_init telemetry_store.initial).2) None).2.

Lemma demo_service_wf : telemetry_store.wf (store demo_service).
Proof. apply telemetry_store.init_wf. Qed.

Lemma topic_roundtrip_witness :
  ingestion_parse_topic
    (mqtt_build_telemetry_topic true 128 (Some (cstr "acme")) (Some (cstr "s1")) (Some (cstr "n7"))).1 true
  = (INGEST_OK, Some (cstr "acme", cstr "s1", cstr "n7")).
Proof.
  pose proof (topic_roundtrip (cstr "acme") (cstr "s1") (cstr "n7") 128 ltac:(good)
                ltac:(good) ltac:(good) ltac:(vm_compute; reflexivity)) as H.
  destruct (mqtt_build_telemetry_topic _ _ _ _ _) as [topic ok]. apply H.
Defined.

Lemma demo_payload_says : payload_says (cstr "temp:23.5") (cstr "temp") (lit_frac 235 10).
Proof.
  replace (lit_frac 235 10) with (strtof (cstr "23.5")) by (vm_compute; reflexivity).
  apply (says_reading (cstr "temp") (cstr "23.5")). rewrite list_elem_of_In. vm_compute. intuition discriminate.
Qed.

Lemma ingested_point_readable_witness :
  let '(res, st', _) := ingestion_ingest demo_service (Some (cstr "rainmaker/acme/s1/n7/telemetry"))
                          (Some (cstr "temp:23.5")) 9 1000 [] in
  let points := (telemetry_store.telemetry_store_query (store st')
     (Some (telemetry_store.mk_token 1 (strncpy 63 (cstr "acme") ++ [0]) true)) true 10).2 in
  res = INGEST_OK /\ (fun p => (cstr_of (telemetry_store.site_id p), telemetry_store.value p)) <$> points =
    [(cstr "s1", lit_frac 235 10)].
Proof.
  pose proof (ingested_point_readable demo_service (cstr "acme") (cstr "s1") (cstr "n7") (cstr "temp:23.5")
                (cstr "temp") (lit_frac 235 10) 9 1000 [] 1 (cstr "acme") 10 eq_refl demo_service_wf ltac:(good)
                ltac:(good) ltac:(good) ltac:(apply (bool_decide_unpack _); vm_compute; exact I) demo_payload_says
                ltac:(reflexivity) ltac:(good) ltac:(reflexivity)) as H.
  cbn zeta in H.
  change (cstr "rainmaker/" ++ cstr "acme" ++ cstr "/" ++ cstr "s1" ++ cstr "/" ++ cstr "n7" ++ cstr "/telemetry")
    with (cstr "rainmaker/acme/s1/n7/telemetry") in H.
  destruct (ingestion_ingest _ _ _ _ _ _) as [[res st'] w'].
  destruct H as (-> & p & H & _ & Hsite & _ & _ & _ & _ & Hv & _). split; [reflexivity|]. cbn zeta. rewrite H.
  rewrite bool_decide_eq_true_2 by reflexivity.
  change (store demo_service) with (telemetry_store.telemetry_store_init telemetry_store.initial).2.
  replace ((telemetry_store.telemetry_store_query _ _ _ _).2) with (@nil TelemetryDataPoint_t) by (vm_compute; reflexivity).
  cbn [app fmap list_fmap]. rewrite Hsite, Hv. reflexivity.
Defined.

Lemma long_tenants_merge_witness :
  ingestion_parse_topic (Some (topic_text (replicate 63 65 ++ [66]) (cstr "s") (cstr "d"))) true =
  ingestion_parse_topic (Some (topic_text (replicate 63 65 ++ [67]) (cstr "s") (cstr "d"))) true.
Proof.
  apply long_tenants_merge; try discriminate; try reflexivity;
    rewrite list_elem_of_In; vm_compute; intuition discriminate.
Defined.

Lemma default_warning_never_fires_witness :
  (ingestion_ingest (ingestion_set_cardinality_callback demo_service (Some (fun t _ _ w => t :: w)))
     (Some (topic_text (cstr "acme") (cstr "s1") (cstr "n7"))) (Some (cstr "temp:1")) 6 5 []).2 = [].
Proof.
  pose proof (default_warning_never_fires
    (ingestion_set_cardinality_callback demo_service (Some (fun t _ _ w => t :: w)))
    (Some (topic_text (cstr "acme") (cstr "s1") (cstr "n7"))) (Some (cstr "temp:1")) 6 5 [] demo_service_wf eq_refl) as H.
  destruct (ingestion_ingest _ _ _ _ _ _) as [[res st'] w']. apply H.
Defined.

End ingestion_service.
