(* ===== verification/StatefulCache.v ===== *)
(** The gateway's value cache (firmware/gateway/stateful_cache.c): the last value
    per node and metric, and which of them still have to be forwarded. *)

From S2P Require Import Prelude Float32.
Import float32.

Module stateful_cache.

Definition GATEWAY_MAX_NODES : Z := 64.
Definition GATEWAY_MAX_METRICS : Z := 16.

Record CacheEntry_t := mk_entry {
  node_id : Z;
  metric_id : Z;
  value : float;
  valid : bool;
  dirty : bool }.

#[export] Instance eta_entry : Eta CacheEntry_t := fun r =>
  mk_entry (node_id r) (metric_id r) (value r) (valid r) (dirty r).

#[export] Instance CacheEntry_eq_dec : EqDecision CacheEntry_t.
Proof. solve_decision. Defined.

Record CacheStats_t := mk_stats {
  total_updates : Z;
  total_hits : Z;
  total_suppressed : Z;
  active_entries : Z }.

#[export] Instance eta_stats : Eta CacheStats_t := fun r =>
  mk_stats (total_updates r) (total_hits r) (total_suppressed r) (active_entries r).

Record state := mk_state {
  s_entries : list CacheEntry_t;
  s_entry_count : Z;
  s_stats : CacheStats_t }.

#[export] Instance eta_state : Eta state := fun r =>
  mk_state (s_entries r) (s_entry_count r) (s_stats r).

Definition zero_entry : CacheEntry_t := mk_entry 0 0 f_zero false false.

Definition initial : state := mk_state (replicate 1024 zero_entry) 0 (mk_stats 0 0 0 0).

(** The test of [find_entry]: a valid entry of this node and metric. *)
Definition matches (k : bool * Z * Z) (e : CacheEntry_t) : bool :=
  Bool.eqb (valid e) k.1.1 && (node_id e =? k.1.2) && (metric_id e =? k.2).

(** The index of the entry; [None] is the code's -1.  The index is below 1024,
    so the cast to 16 bits loses nothing. *)
Definition find_entry (st : state) (nid mid : Z) : option nat :=
  find_index (matches (true, nid, mid)) (used (s_entry_count st) (s_entries st)).

Definition entry_at (st : state) (i : nat) : CacheEntry_t := nth i (s_entries st) zero_entry.

Definition cache_init (st : state) : state := initial.

Definition cache_write (st : state) (nid mid : Z) (v : float) : bool * state :=
  let st := st <| s_stats := (s_stats st) <| total_updates := u32 (total_updates (s_stats st) + 1) |> |> in
  let hit (st : state) :=
    st <| s_stats := (s_stats st) <| total_hits := u32 (total_hits (s_stats st) + 1) |> |> in
  match find_entry st nid mid with
  | Some i =>
      if feq (value (entry_at st i)) v then
        (true, st <| s_stats := (s_stats st)
                       <| total_suppressed := u32 (total_suppressed (s_stats st) + 1) |> |>)
      else
        (true, hit (st <| s_entries := <[i := (entry_at st i) <| value := v |> <| dirty := true |>]>
                                         (s_entries st) |>))
  | None =>
      if GATEWAY_MAX_NODES * GATEWAY_MAX_METRICS <=? s_entry_count st then (false, st)
      else
        (true, hit (st <| s_entries := store (s_entry_count st) (mk_entry nid mid v true true)
                                         (s_entries st) |>
                       <| s_entry_count := u16 (s_entry_count st + 1) |>))
  end.

(** The value stored behind [out_value]; [out] says whether there is a pointer. *)
Definition cache_read (st : state) (nid mid : Z) (out : bool) : option float :=
  if negb out then None
  else
    match find_entry st nid mid with
    | Some i => if valid (entry_at st i) then Some (value (entry_at st i)) else None
    | None => None
    end.

Definition cache_is_dirty (st : state) (nid mid : Z) : bool :=
  match find_entry st nid mid with
  | Some i => valid (entry_at st i) && dirty (entry_at st i)
  | None => false
  end.

Definition cache_clear_dirty (st : state) (nid mid : Z) : bool * state :=
  match find_entry st nid mid with
  | Some i =>
      if valid (entry_at st i)
      then (true, st <| s_entries := <[i := (entry_at st i) <| dirty := false |>]> (s_entries st) |>)
      else (false, st)
  | None => (false, st)
  end.

(** The entries copied out; the C function returns their number. *)
Definition cache_get_dirty (st : state) (out : bool) (max_entries : Z) : list CacheEntry_t :=
  if negb out || (max_entries =? 0) then []
  else take (Z.to_nat max_entries)
         (List.filter (fun e => valid e && dirty e) (used (s_entry_count st) (s_entries st))).

(** The recount of the active entries, in the one-byte field. *)
Definition count_active (l : list CacheEntry_t) : Z :=
  fold_left (fun n e => if valid e then u8 (n + 1) else n) l 0.

Definition cache_get_stats (st : state) : CacheStats_t * state :=
  let st := st <| s_stats := (s_stats st)
                    <| active_entries := count_active (used (s_entry_count st) (s_entries st)) |> |> in
  (s_stats st, st).

Definition cache_entry_count (st : state) : Z := s_entry_count st.

(** ** The cache is a map from (node, metric) to a value and a flag *)

Definition key (e : CacheEntry_t) : bool * Z * Z := (valid e, node_id e, metric_id e).

Lemma matches_spec k e : matches k e = true <-> key e = k.
Proof.
  destruct k as [[v n] m]. unfold matches, key. cbn. rewrite !andb_true_iff, eqb_true_iff, !Z.eqb_eq.
  split; [intros [[-> ->] ->]; reflexivity|intros [= -> -> ->]; auto].
Qed.

Record wf (st : state) : Prop := {
  wf_size : length (s_entries st) = 1024%nat;
  wf_count : 0 <= s_entry_count st <= 1024;
  wf_valid : forall e, e ∈ used (s_entry_count st) (s_entries st) -> valid e = true;
  wf_unique : NoDup (key <$> used (s_entry_count st) (s_entries st)) }.

(** What the cache holds for a node's metric. *)
Definition cached (st : state) (nid mid : Z) : option CacheEntry_t :=
  keyed_lookup matches (true, nid, mid) (used (s_entry_count st) (s_entries st)).

Lemma cache_init_wf st : wf (cache_init st).
Proof.
  split; cbn; [reflexivity|lia|intros e He; apply elem_of_nil in He; tauto|constructor].
Qed.

Lemma used_entry (st : state) i e :
  used (s_entry_count st) (s_entries st) !! i = Some e -> entry_at st i = e.
Proof.
  unfold used, entry_at. intros H. apply lookup_take_Some in H as [H _]. apply nth_lookup_Some, H.
Qed.

Lemma find_entry_cached st nid mid :
  match find_entry st nid mid with
  | Some i => cached st nid mid = Some (entry_at st i) /\
              used (s_entry_count st) (s_entries st) !! i = Some (entry_at st i) /\
              key (entry_at st i) = (true, nid, mid)
  | None => cached st nid mid = None
  end.
Proof.
  unfold find_entry, cached, keyed_lookup, find_first.
  destruct (find_index _ _) as [i|] eqn:Hi; [|reflexivity]. cbn.
  apply find_index_lookup in Hi as (e & He & Hm). apply matches_spec in Hm.
  rewrite (used_entry st i e He). auto.
Qed.

Lemma read_cached st nid mid : cache_read st nid mid true = value <$> cached st nid mid.
Proof.
  unfold cache_read. cbn [negb]. pose proof (find_entry_cached st nid mid) as H.
  destruct (find_entry st nid mid) as [i|]; [|rewrite H; reflexivity].
  destruct H as (-> & _ & Hk). unfold key in Hk. injection Hk as -> _ _. reflexivity.
Qed.

Lemma dirty_cached st nid mid :
  cache_is_dirty st nid mid = match cached st nid mid with Some e => dirty e | None => false end.
Proof.
  unfold cache_is_dirty. pose proof (find_entry_cached st nid mid) as H.
  destruct (find_entry st nid mid) as [i|]; [|rewrite H; reflexivity].
  destruct H as (-> & _ & Hk). unfold key in Hk. injection Hk as -> _ _. reflexivity.
Qed.

(** Storing an entry in the slot of its key. *)
Lemma update_wf st i e e' :
  wf st -> used (s_entry_count st) (s_entries st) !! i = Some e -> key e' = key e -> valid e = true ->
  wf (st <| s_entries := <[i := e']> (s_entries st) |>) /\
  used (s_entry_count st) (<[i := e']> (s_entries st)) =
    <[i := e']> (used (s_entry_count st) (s_entries st)).
Proof.
  intros [Hs Hc Hv Hu] Hi Hk Hve. apply lookup_lt_Some in Hi as Hlt. rewrite used_length in Hlt by lia.
  assert (used (s_entry_count st) (<[i := e']> (s_entries st)) =
          <[i := e']> (used (s_entry_count st) (s_entries st))) as E by (apply used_store_inside; exact Hlt).
  split; [|exact E]. split; cbn.
  - rewrite length_insert. exact Hs.
  - exact Hc.
  - rewrite E. intros x Hx. apply list_elem_of_lookup in Hx as (j & Hj).
    apply list_lookup_insert_Some in Hj as [(_ & <- & _)|(_ & Hj)].
    + unfold key in Hk. congruence.
    + eapply Hv, list_elem_of_lookup_2, Hj.
  - rewrite E, list_fmap_insert, list_insert_id; [exact Hu|]. rewrite list_lookup_fmap, Hi. cbn. congruence.
Qed.

Lemma append_wf st e :
  wf st -> s_entry_count st < 1024 -> valid e = true ->
  find_index (matches (key e)) (used (s_entry_count st) (s_entries st)) = None ->
  wf (st <| s_entries := store (s_entry_count st) e (s_entries st) |>
         <| s_entry_count := s_entry_count st + 1 |>) /\
  used (s_entry_count st + 1) (store (s_entry_count st) e (s_entries st)) =
    used (s_entry_count st) (s_entries st) ++ [e].
Proof.
  intros [Hs Hc Hv Hu] Hlt Hve Hn.
  assert (used (s_entry_count st + 1) (store (s_entry_count st) e (s_entries st)) =
          used (s_entry_count st) (s_entries st) ++ [e]) as E by (apply used_store_append; lia).
  split; [|exact E]. split; cbn.
  - rewrite store_length. exact Hs.
  - lia.
  - rewrite E. intros x [Hx|Hx%list_elem_of_singleton]%elem_of_app; [auto|congruence].
  - rewrite E. pose proof (upsert_NoDup key matches matches_spec _ _ e eq_refl Hu) as Hnd.
    unfold upsert in Hnd. rewrite Hn in Hnd. exact Hnd.
Qed.

(** The specification of a write on what is cached for its key. *)
Definition spec_write (old : option CacheEntry_t) (nid mid : Z) (v : float) : CacheEntry_t :=
  match old with
  | Some e => if feq (value e) v then e else e <| value := v |> <| dirty := true |>
  | None => mk_entry nid mid v true true
  end.

(** The statistics are not part of the map. *)
Lemma wf_stats st s : wf st -> wf (st <| s_stats := s |>).
Proof. intros [? ? ? ?]. split; assumption. Qed.

Lemma write_upsert st nid mid v ok st' :
  wf st -> cache_write st nid mid v = (ok, st') ->
  wf st' /\
  (ok = false <-> cached st nid mid = None /\ s_entry_count st = 1024) /\
  (ok = false -> used (s_entry_count st') (s_entries st') = used (s_entry_count st) (s_entries st)) /\
  (ok = true -> used (s_entry_count st') (s_entries st') =
     upsert matches (true, nid, mid) (spec_write (cached st nid mid) nid mid v)
       (used (s_entry_count st) (s_entries st))).
Proof.
  intros Hwf. unfold cache_write.
  change (find_entry (st <| s_stats := _ |>) nid mid) with (find_entry st nid mid).
  change (entry_at (st <| s_stats := _ |>)) with (entry_at st).
  pose proof (find_entry_cached st nid mid) as Hf. unfold upsert.
  destruct (find_entry st nid mid) as [i|] eqn:Hi; unfold find_entry in Hi; rewrite Hi.
  - destruct Hf as (-> & Hl & Hk). cbn [spec_write].
    assert (valid (entry_at st i) = true) as Hv by (unfold key in Hk; congruence).
    destruct (feq (value (entry_at st i)) v) eqn:Heq; intros [= <- <-].
    + split; [apply wf_stats, wf_stats, Hwf|]. split; [split; [discriminate|intros [? _]; discriminate]|].
      split; [discriminate|]. intros _. cbn. symmetry. apply list_insert_id, Hl.
    + destruct (update_wf st i (entry_at st i) ((entry_at st i) <| value := v |> <| dirty := true |>) Hwf Hl ltac:(destruct (entry_at st i); reflexivity) Hv)
        as [Hwf' E].
      split; [destruct Hwf' as [? ? ? ?]; split; assumption|].
      split; [split; [discriminate|intros [? _]; discriminate]|]. split; [discriminate|]. intros _. exact E.
  - rewrite Hf. unfold GATEWAY_MAX_NODES, GATEWAY_MAX_METRICS. pose proof (wf_count _ Hwf).
    cbn [s_entry_count s_entries set_field].
    destruct (Z.leb_spec (64 * 16) (s_entry_count st)) as [Hfull|Hroom]; intros [= <- <-].
    + split; [apply wf_stats, Hwf|]. split; [split; auto; intros _; split; [reflexivity|cbn in *; lia]|].
      split; [reflexivity|discriminate].
    + cbn in Hroom. destruct (append_wf st (mk_entry nid mid v true true) Hwf ltac:(lia) eq_refl Hi) as [Hwf' E].
      rewrite u16_small by (unfold is_u16; cbn; lia).
      split; [destruct Hwf' as [? ? ? ?]; split; assumption|].
      split; [split; [discriminate|intros [_ ?]; lia]|]. split; [discriminate|]. intros _. exact E.
Qed.

Lemma spec_write_key old nid mid v :
  (forall e, old = Some e -> key e = (true, nid, mid)) ->
  key (spec_write old nid mid v) = (true, nid, mid).
Proof.
  intros H. destruct old as [e|]; cbn; [|reflexivity]. destruct (feq (value e) v); [apply H; reflexivity|].
  rewrite <- (H e eq_refl). reflexivity.
Qed.

(** The entries of the cache, in slot order. *)
Definition slots (st : state) : list CacheEntry_t := take (Z.to_nat (s_entry_count st)) (s_entries st).

Lemma key_inj st x y : wf st -> x ∈ slots st -> y ∈ slots st -> key x = key y -> x = y.
Proof. intros [_ _ _ Hu]. apply (NoDup_fmap_elem_inj key (slots st)). exact Hu. Qed.

(** Clearing changes the flag of the one entry with the key, and nothing else. *)
Lemma clear_dirty_slots st nid mid :
  wf st ->
  wf (snd (cache_clear_dirty st nid mid)) /\
  slots (snd (cache_clear_dirty st nid mid)) =
    (fun e => if matches (true, nid, mid) e then e <| dirty := false |> else e) <$> slots st.
Proof.
  intros Hwf. pose proof (find_entry_cached st nid mid) as Hf. unfold cache_clear_dirty.
  destruct (find_entry st nid mid) as [i|].
  - destruct Hf as (_ & Hi & Hk).
    assert (valid (entry_at st i) = true) as Hv by (unfold key in Hk; congruence). rewrite Hv. cbn [snd].
    destruct (update_wf st i (entry_at st i) ((entry_at st i) <| dirty := false |>) Hwf Hi
                ltac:(destruct (entry_at st i); reflexivity) Hv) as [Hwf' E].
    split; [exact Hwf'|]. unfold slots. cbn [s_entry_count s_entries set_field]. unfold used in E. rewrite E.
    apply (keyed_store key matches matches_spec (fun e => e <| dirty := false |>));
      [exact (wf_unique _ Hwf)|exact Hi|exact Hk].
  - split; [exact Hwf|]. cbn [snd]. symmetry. transitivity (id <$> slots st); [|apply list_fmap_id].
    apply list_fmap_ext. intros j e He. destruct (matches (true, nid, mid) e) eqn:Hm; [|reflexivity].
    apply matches_spec in Hm. apply list_elem_of_lookup_2 in He.
    unfold cached in Hf. rewrite (keyed_lookup_None key matches matches_spec) in Hf.
    destruct (Hf e He Hm).
Qed.

(** The dirty entries a caller with room for [max] gets: the first ones. *)
Lemma get_dirty_first st max :
  wf st -> 0 < max ->
  exists later, List.filter dirty (slots st) = cache_get_dirty st true max ++ later /\
    length (cache_get_dirty st true max) = Nat.min (Z.to_nat max) (length (List.filter dirty (slots st))).
Proof.
  intros Hwf Hmax. unfold cache_get_dirty. destruct (Z.eqb_spec max 0); [lia|]. cbn [negb orb].
  assert (List.filter (fun e => valid e && dirty e) (used (s_entry_count st) (s_entries st)) =
          List.filter dirty (slots st)) as ->.
  { apply filter_ext_in. intros e He%list_elem_of_In. rewrite (wf_valid _ Hwf e He). reflexivity. }
  exists (drop (Z.to_nat max) (List.filter dirty (slots st))).
  rewrite take_drop, length_take. auto.
Qed.

(** ** Properties *)

(** A write that is accepted changes exactly its own key, to the value
    specified for it: unchanged and still clean if the cached value compares
    equal, otherwise the new value marked dirty; it is refused only for a new
    key when all 1024 slots are taken. *)
Theorem write_refines_map st nid mid v ok st' :
  wf st -> cache_write st nid mid v = (ok, st') ->
  wf st' /\
  (ok = false <-> cached st nid mid = None /\ s_entry_count st = 1024) /\
  forall n m, cached st' n m =
    if ok && (n =? nid) && (m =? mid) then Some (spec_write (cached st nid mid) nid mid v)
    else cached st n m.
Proof.
  intros Hwf Hw. destruct (write_upsert st nid mid v ok st' Hwf Hw) as (Hwf' & Hiff & Hno & Hok).
  split; [exact Hwf'|]. split; [exact Hiff|]. intros n m. unfold cached at 1.
  destruct ok; [|rewrite Hno by reflexivity; reflexivity]. rewrite Hok by reflexivity.
  assert (key (spec_write (cached st nid mid) nid mid v) = (true, nid, mid)) as Hk.
  { apply spec_write_key. intros e He. eapply (keyed_lookup_Some key matches matches_spec), He. }
  rewrite <- Hk at 1. rewrite (upsert_lookup key matches matches_spec). cbn [andb].
  destruct (matches (true, n, m) (spec_write (cached st nid mid) nid mid v)) eqn:Hm.
  - apply matches_spec in Hm. rewrite Hk in Hm. injection Hm as -> ->. rewrite !Z.eqb_refl. reflexivity.
  - destruct (Z.eqb_spec n nid) as [->|]; [|reflexivity]. destruct (Z.eqb_spec m mid) as [->|]; [|reflexivity].
    apply matches_spec in Hk. congruence.
Qed.

Lemma count_active_mod l :
  (forall e, e ∈ l -> valid e = true) -> count_active l = u8 (Z.of_nat (length l)).
Proof.
  intros Hv. unfold count_active.
  assert (forall n, fold_left (fun n e => if valid e then u8 (n + 1) else n) l (u8 n) =
                    u8 (n + Z.of_nat (length l))) as H; [|apply (H 0)].
  induction l as [|e l IH]; intros n; [cbn; f_equal; lia|]. cbn [fold_left length].
  rewrite Hv by left. replace (u8 (u8 n + 1)) with (u8 (n + 1)) by words.
  rewrite IH by (intros; apply Hv; right; assumption). f_equal. lia.
Qed.

(** The number of active entries is reported modulo 256: a cache with 256
    entries reports none. *)
Theorem active_entries_wraps st :
  wf st -> active_entries (fst (cache_get_stats st)) = u8 (cache_entry_count st).
Proof.
  intros [Hs Hc Hv _]. cbn. rewrite count_active_mod by exact Hv. rewrite used_length by lia.
  rewrite Z2Nat.id by lia. reflexivity.
Qed.

(** ** The theorems on a concrete cache *)

Definition demo_cache : state := snd (cache_write initial 7 2 (lit 21)).

Lemma write_refines_map_witness :
  cached (snd (cache_write demo_cache 7 2 (lit 22))) 7 2 = Some (mk_entry 7 2 (lit 22) true true).
Proof.
  destruct (write_upsert initial 7 2 (lit 21) true demo_cache (cache_init_wf initial) eq_refl) as [Hwf _].
  destruct (write_refines_map demo_cache 7 2 (lit 22) true (snd (cache_write demo_cache 7 2 (lit 22)))
              Hwf eq_refl) as (_ & _ & H).
  rewrite (H 7 2). vm_compute. reflexivity.
Defined.

Lemma active_entries_wraps_witness : active_entries (fst (cache_get_stats demo_cache)) = u8 1.
Proof.
  apply (active_entries_wraps demo_cache).
  apply (write_upsert initial 7 2 (lit 21) true demo_cache (cache_init_wf initial) eq_refl).
Defined.

End stateful_cache.
