(* ===== verification/DeltaFilter.v ===== *)
(** The gateway's delta filter (firmware/gateway/delta_filter.c): how far a value
    must move from the cached one, per metric, to be worth forwarding. *)

From S2P Require Import Prelude Float32 StatefulCache.
Import float32.

Module delta_filter.

Definition DELTA_FILTER_MAX_METRICS : Z := 16.

Inductive DeltaFilterResult_t :=
| DELTA_FORWARD
| DELTA_SUPPRESS
| DELTA_FIRST_READ
| DELTA_ERR_NOT_FOUND.

#[export] Instance DeltaFilterResult_eq_dec : EqDecision DeltaFilterResult_t.
Proof. solve_decision. Defined.

Record DeltaThreshold_t := mk_threshold {
  metric_id : Z;
  abs_threshold : float;
  configured : bool }.

#[export] Instance eta_threshold : Eta DeltaThreshold_t := fun r =>
  mk_threshold (metric_id r) (abs_threshold r) (configured r).

Record state := mk_state {
  s_thresholds : list DeltaThreshold_t;
  s_config_count : Z }.

#[export] Instance eta_state : Eta state := fun r => mk_state (s_thresholds r) (s_config_count r).

Definition zero_threshold : DeltaThreshold_t := mk_threshold 0 f_zero false.

Definition initial : state := mk_state (replicate 16 zero_threshold) 0.

(** The test of the scans: a configured slot of this metric. *)
Definition for_metric (mid : Z) (t : DeltaThreshold_t) : bool := configured t && (metric_id t =? mid).

Definition find_threshold (st : state) (mid : Z) : option DeltaThreshold_t :=
  find_first (for_metric mid) (used (s_config_count st) (s_thresholds st)).

Definition delta_filter_init (st : state) : state :=
  mk_state (map (fun t => t <| configured := false |>) (s_thresholds st)) 0.

Definition delta_filter_set_threshold (st : state) (mid : Z) (threshold : float) : bool * state :=
  match find_index (for_metric mid) (used (s_config_count st) (s_thresholds st)) with
  | Some i =>
      (true, st <| s_thresholds := alter (fun t => t <| abs_threshold := threshold |>) i (s_thresholds st) |>)
  | None =>
      if DELTA_FILTER_MAX_METRICS <=? s_config_count st then (false, st)
      else
        (true, st <| s_thresholds := store (s_config_count st) (mk_threshold mid threshold true)
                                       (s_thresholds st) |>
                  <| s_config_count := u8 (s_config_count st + 1) |>)
  end.

Definition delta_filter_evaluate (st : state) (cache : stateful_cache.state) (nid mid : Z)
    (new_value : float) : DeltaFilterResult_t :=
  match find_threshold st mid with
  | None => DELTA_ERR_NOT_FOUND
  | Some t =>
      match stateful_cache.cache_read cache nid mid true with
      | None => DELTA_FIRST_READ
      | Some cached =>
          if fgt (fabsf (fsub new_value cached)) (abs_threshold t) then DELTA_FORWARD
          else DELTA_SUPPRESS
      end
  end.

Definition delta_filter_config_count (st : state) : Z := s_config_count st.

(** ** The threshold table as a map from metrics *)

Definition metric_key (t : DeltaThreshold_t) : option Z :=
  if configured t then Some (metric_id t) else None.

Definition has_key (k : option Z) (t : DeltaThreshold_t) : bool :=
  match k with Some m => for_metric m t | None => negb (configured t) end.

Lemma has_key_spec k t : has_key k t = true <-> metric_key t = k.
Proof.
  unfold has_key, metric_key, for_metric. destruct k as [m|], (configured t); cbn;
  try (split; congruence). rewrite Z.eqb_eq. split; congruence.
Qed.

Record wf (st : state) : Prop := {
  wf_size : length (s_thresholds st) = 16%nat;
  wf_count : 0 <= s_config_count st <= DELTA_FILTER_MAX_METRICS }.

Lemma filter_init_wf : wf (delta_filter_init initial).
Proof. split; cbn; [reflexivity|unfold DELTA_FILTER_MAX_METRICS; lia]. Qed.

(** Setting a threshold inserts it into the table in use. *)
Lemma set_upsert st mid th st' :
  wf st -> delta_filter_set_threshold st mid th = (true, st') ->
  wf st' /\
  used (s_config_count st') (s_thresholds st') =
    upsert has_key (Some mid) (mk_threshold mid th true) (used (s_config_count st) (s_thresholds st)).
Proof.
  intros [Hs Hc]. unfold delta_filter_set_threshold, upsert, DELTA_FILTER_MAX_METRICS in *.
  change (has_key (Some mid)) with (for_metric mid).
  destruct (find_index _ _) as [i|] eqn:Hi.
  - intros [= <-]. pose proof (find_index_lt _ _ _ Hi) as Hlt. rewrite used_length in Hlt by lia.
    apply find_index_lookup in Hi as (x & Hx & Hp). unfold used in Hx.
    rewrite lookup_take_lt in Hx by exact Hlt. rewrite (alter_lookup _ _ _ _ Hx).
    unfold for_metric in Hp. reflect.
    split; [split; cbn; [rewrite length_insert|]; assumption|]. cbn.
    rewrite used_store_inside by exact Hlt. f_equal. destruct x. cbn in *. subst. reflexivity.
  - destruct (Z.leb_spec 16 (s_config_count st)); [discriminate|]. intros [= <-]. cbn.
    rewrite u8_small by (unfold is_u8; lia). split.
    + split; cbn; [rewrite store_length; exact Hs|unfold DELTA_FILTER_MAX_METRICS; lia].
    + apply used_store_append. lia.
Qed.

Lemma set_lookup st mid th st' m :
  wf st -> delta_filter_set_threshold st mid th = (true, st') ->
  find_threshold st' m = if mid =? m then Some (mk_threshold mid th true) else find_threshold st m.
Proof.
  intros Hwf Hset. destruct (set_upsert _ _ _ _ Hwf Hset) as [_ Hu].
  unfold find_threshold. rewrite Hu.
  exact (upsert_lookup metric_key has_key has_key_spec (Some m) _ (mk_threshold mid th true)).
Qed.

(** The filter decides on the cache's map view alone. *)
Lemma evaluate_by_map st cache nid mid v t :
  find_threshold st mid = Some t ->
  delta_filter_evaluate st cache nid mid v =
  match stateful_cache.cached cache nid mid with
  | None => DELTA_FIRST_READ
  | Some e => if fgt (fabsf (fsub v (stateful_cache.value e))) (abs_threshold t)
              then DELTA_FORWARD else DELTA_SUPPRESS
  end.
Proof.
  intros Ht. unfold delta_filter_evaluate. rewrite Ht, stateful_cache.read_cached.
  destruct (stateful_cache.cached cache nid mid); reflexivity.
Qed.

(** After a threshold is set for a metric, the first reading of that metric
    on a node is forwarded and a later one exactly when it moved further than
    the threshold from the cached value; no other metric's decisions change. *)
Theorem filter_after_set st mid th st' cache nid m v :
  wf st -> delta_filter_set_threshold st mid th = (true, st') ->
  delta_filter_evaluate st' cache nid m v =
    if mid =? m then
      match stateful_cache.cached cache nid m with
      | None => DELTA_FIRST_READ
      | Some e => if fgt (fabsf (fsub v (stateful_cache.value e))) th
                  then DELTA_FORWARD else DELTA_SUPPRESS
      end
    else delta_filter_evaluate st cache nid m v.
Proof.
  intros Hwf Hset. pose proof (set_lookup _ _ _ _ m Hwf Hset) as Hl.
  destruct (mid =? m).
  - rewrite (evaluate_by_map _ _ _ _ _ _ Hl). reflexivity.
  - unfold delta_filter_evaluate. rewrite Hl. reflexivity.
Qed.

Lemma filter_after_set_witness :
  delta_filter_evaluate
    (snd (delta_filter_set_threshold (delta_filter_init initial) 2 (lit 1)))
    stateful_cache.demo_cache 7 2 (lit 23) = DELTA_FORWARD.
Proof.
  refine (eq_trans (filter_after_set (delta_filter_init initial) 2 (lit 1)
    (snd (delta_filter_set_threshold (delta_filter_init initial) 2 (lit 1)))
    stateful_cache.demo_cache 7 2 (lit 23) filter_init_wf _) _); vm_compute; reflexivity.
Defined.

End delta_filter.
