(* ===== verification/BatchFrame.v ===== *)
(** The batch frame of the gateway-to-hub link: [batch_encode_frame] and
    [batch_decode_frame_untrusted] of firmware/gateway/batch_forwarder.c. *)

From S2P Require Import Prelude Float32.
Import float32.

Module batch_frame.

Definition BATCH_MAX_ENTRIES : Z := 22.
Definition BATCH_FRAME_HEADER_SIZE : Z := 8.
Definition BATCH_FRAME_ENTRY_SIZE : Z := 7.
Definition BATCH_FRAME_HMAC_SIZE : Z := 32.
Definition BATCH_FRAME_MAX_SIZE : Z :=
  BATCH_FRAME_HEADER_SIZE + BATCH_MAX_ENTRIES * BATCH_FRAME_ENTRY_SIZE + BATCH_FRAME_HMAC_SIZE.
Definition BATCH_FRAME_MAGIC : Z := 0xB7.
Definition BATCH_FRAME_VERSION : Z := 0x02.

Record BatchFrameHeader_t := mk_header {
  magic : Z;
  version : Z;
  entry_count : Z;
  flags : Z;
  sequence_number : Z }.

#[export] Instance eta_header : Eta BatchFrameHeader_t := fun r =>
  mk_header (magic r) (version r) (entry_count r) (flags r) (sequence_number r).

Record BatchFrameEntry_t := mk_entry {
  node_id : Z;
  metric_id : Z;
  value : float }.

Definition zero_header : BatchFrameHeader_t := mk_header 0 0 0 0 0.

(** Two bytes of node id, the metric, the four bytes of the float. *)
Definition entry_bytes (e : BatchFrameEntry_t) : list Z :=
  le_bytes 2 (node_id e) ++ [metric_id e] ++ le_bytes 4 (value e).

Definition header_bytes (h : BatchFrameHeader_t) : list Z :=
  [magic h; version h; entry_count h; flags h] ++ le_bytes 4 (sequence_number h).

(** The bytes written to [out_buf]; their number is [*out_len].  The size check
    leaves the HMAC placeholder out, so the result can be longer than the buffer. *)
Definition batch_encode_frame (header : option BatchFrameHeader_t)
    (entries : option (list BatchFrameEntry_t)) (count : Z) (out_buf : bool) (buf_size : Z)
  : option (list Z) :=
  match header, entries with
  | Some h, Some es =>
      if negb out_buf then None
      else if buf_size <? BATCH_FRAME_HEADER_SIZE + count * BATCH_FRAME_ENTRY_SIZE then None
      else
        Some (header_bytes h ++ (take (Z.to_nat count) es ≫= entry_bytes) ++
              if version h =? 0x02 then zeros 32 else [])
  | _, _ => None
  end.

(** The loop over [count] entries from a position of the wire buffer. *)
Fixpoint parse_entries (count : nat) (wire : list Z) : list BatchFrameEntry_t :=
  match count with
  | O => []
  | S n => mk_entry (le_value (take 2 wire)) (nth 2 wire 0) (le_value (take 4 (drop 3 wire)))
             :: parse_entries n (drop 7 wire)
  end.

(** Whether the frame was decoded, what is left in [out_header], and the entries
    written to [out_entries]; on success [*out_count] is their number. *)
Definition batch_decode_frame_untrusted (wire_buf : option (list Z)) (out : bool)
    (old : BatchFrameHeader_t) (max_entries : Z)
  : bool * BatchFrameHeader_t * list BatchFrameEntry_t :=
  match wire_buf with
  | None => (false, old, [])
  | Some wire =>
      let wire_len := Z.of_nat (length wire) in
      if negb out then (false, old, [])
      else if wire_len <? 4 then (false, old, [])
      else
        let h := mk_header (nth 0 wire 0) (nth 1 wire 0) (nth 2 wire 0) (nth 3 wire 0) 0 in
        if negb (magic h =? BATCH_FRAME_MAGIC) then (false, h, [])
        else if version h =? 0x01 then
          if wire_len <? 4 + entry_count h * BATCH_FRAME_ENTRY_SIZE then (false, h, [])
          else
            let count := if max_entries <? entry_count h then max_entries else entry_count h in
            (true, h, parse_entries (Z.to_nat count) (drop 4 wire))
        else if negb (version h =? 0x02) then (false, h, [])
        else if wire_len <? BATCH_FRAME_HEADER_SIZE then (false, h, [])
        else
          let h := h <| sequence_number := le_value (take 4 (drop 4 wire)) |> in
          let entries_and_hmac_len := wire_len - BATCH_FRAME_HEADER_SIZE in
          if entries_and_hmac_len <? BATCH_FRAME_HMAC_SIZE then (false, h, [])
          else
            let have := entries_and_hmac_len - BATCH_FRAME_HMAC_SIZE in
            if have <? entry_count h * BATCH_FRAME_ENTRY_SIZE then (false, h, [])
            else
              let count := if max_entries <? entry_count h then max_entries else entry_count h in
              (true, h, parse_entries (Z.to_nat count) (drop 8 wire))
  end.

(** ** Decoding what was encoded *)

Record wf_entry (e : BatchFrameEntry_t) : Prop := {
  we_node : is_u16 (node_id e);
  we_metric : is_u8 (metric_id e);
  we_value : is_u32 (value e) }.

Lemma entry_bytes_length e : length (entry_bytes e) = 7%nat.
Proof. unfold entry_bytes. rewrite !length_app, !le_bytes_length. reflexivity. Qed.

Lemma entries_bytes_length es : length (es ≫= entry_bytes) = (7 * length es)%nat.
Proof.
  induction es as [|e es IH]; [reflexivity|]. rewrite bind_cons, length_app, entry_bytes_length, IH.
  cbn [length]. lia.
Qed.

Lemma parse_entry e rest :
  wf_entry e ->
  mk_entry (le_value (take 2 (entry_bytes e ++ rest))) (nth 2 (entry_bytes e ++ rest) 0)
           (le_value (take 4 (drop 3 (entry_bytes e ++ rest)))) = e.
Proof.
  intros [Hn Hm Hv]. unfold entry_bytes. rewrite <- !app_assoc.
  rewrite (take_app_length' (le_bytes 2 (node_id e))) by (rewrite le_bytes_length; reflexivity).
  rewrite app_nth2 by (rewrite le_bytes_length; lia). rewrite le_bytes_length. cbn [nth Nat.sub app].
  replace (drop 3 (le_bytes 2 (node_id e) ++ metric_id e :: le_bytes 4 (value e) ++ rest))
    with (le_bytes 4 (value e) ++ rest); cycle 1.
  { change (metric_id e :: le_bytes 4 (value e) ++ rest) with ([metric_id e] ++ le_bytes 4 (value e) ++ rest).
    rewrite app_assoc. symmetry. apply drop_app_length'. rewrite length_app, le_bytes_length. reflexivity. }
  rewrite (take_app_length' (le_bytes 4 (value e))) by (rewrite le_bytes_length; reflexivity).
  rewrite !le_roundtrip by assumption. destruct e; reflexivity.
Qed.

Lemma parse_entries_bytes es rest :
  Forall wf_entry es -> parse_entries (length es) ((es ≫= entry_bytes) ++ rest) = es.
Proof.
  induction es as [|e es IH]; intros Hes; [reflexivity|]. apply Forall_cons in Hes as [He Hes].
  rewrite bind_cons. rewrite <- app_assoc. cbn [length parse_entries].
  rewrite parse_entry by exact He. f_equal.
  rewrite drop_app_length' by (rewrite entry_bytes_length; reflexivity). auto.
Qed.

(** The entry in position [i] of a frame: seven bytes past the eight of the
    header, low byte first. *)
Definition entry_in (wire : list Z) (i : nat) : BatchFrameEntry_t :=
  mk_entry (le_value (take 2 (drop (8 + 7 * i) wire))) (nth (10 + 7 * i) wire 0)
           (le_value (take 4 (drop (11 + 7 * i) wire))).

(** Two reads of the same bytes, the places written differently. *)
Ltac same_places := first [reflexivity | lia | f_equal; same_places].

Lemma parse_entries_seq n wire :
  parse_entries n wire =
  (fun i => mk_entry (le_value (take 2 (drop (7 * i) wire))) (nth (2 + 7 * i) wire 0)
                     (le_value (take 4 (drop (3 + 7 * i) wire)))) <$> seq 0 n.
Proof.
  revert wire. induction n as [|n IH]; intros wire; [reflexivity|]. cbn [parse_entries seq]. rewrite IH.
  rewrite fmap_cons. f_equal. rewrite <- fmap_S_seq, <- list_fmap_compose. apply list_fmap_ext.
  intros k i _. cbn [compose]. rewrite !drop_drop, nth_skipn. same_places.
Qed.

(** The decoded entries of a version-2 frame are those in the first positions,
    as many as it announces and has room for at most. *)
Lemma decoded_entries wire old n :
  nth 1 wire 0 = 0x02 ->
  exists m, snd (batch_decode_frame_untrusted (Some wire) true old n) = entry_in wire <$> seq 0 m /\
    forall i, (i < m)%nat -> Z.of_nat i < nth 2 wire 0 /\ (8 + 7 * S i + 32 <= length wire)%nat.
Proof.
  intros Hver. unfold batch_decode_frame_untrusted. cbn [negb version set_field entry_count]. rewrite Hver.
  unfold BATCH_FRAME_HEADER_SIZE, BATCH_FRAME_HMAC_SIZE, BATCH_FRAME_ENTRY_SIZE.
  repeat case_match; cbn [snd]; try discriminate; try (exists 0%nat; split; [reflexivity|lia]);
    rewrite parse_entries_seq; eexists; (split; [apply list_fmap_ext|]);
    try (intros i Hi; cbn [entry_count set_field]; repeat case_match; lia);
    intros k i _; unfold entry_in; rewrite !drop_drop, nth_skipn; same_places.
Qed.

(** Whatever was received, a decoded value is four bytes wide. *)
Lemma entry_in_value wire i : byte_list wire -> is_u32 (value (entry_in wire i)).
Proof.
  intros Hw. cbn [value entry_in].
  pose proof (le_value_range (take 4 (drop (11 + 7 * i) wire)) ltac:(apply Forall_take, Forall_drop, Hw)) as [H0 H1].
  split; [exact H0|]. eapply Z.lt_le_trans; [exact H1|]. rewrite length_take.
  change 4294967296 with (256 ^ 4). apply Z.pow_le_mono_r; lia.
Qed.

(** A version-2 frame: header, entries, any 32-byte tag. *)
Definition frame_of (seq : Z) (es : list BatchFrameEntry_t) (tag : list Z) : list Z :=
  header_bytes (mk_header BATCH_FRAME_MAGIC BATCH_FRAME_VERSION (Z.of_nat (length es)) 0 seq)
    ++ (es ≫= entry_bytes) ++ tag.

Lemma header_bytes_length h : length (header_bytes h) = 8%nat.
Proof. unfold header_bytes. rewrite length_app, le_bytes_length. reflexivity. Qed.

Lemma frame_of_length seq es tag :
  length (frame_of seq es tag) = (8 + 7 * length es + length tag)%nat.
Proof.
  unfold frame_of. rewrite !length_app, header_bytes_length, entries_bytes_length. lia.
Qed.

Lemma frame_of_tag seq es tag : frame_of seq es tag = frame_of seq es [] ++ tag.
Proof. unfold frame_of. rewrite app_nil_r, app_assoc. reflexivity. Qed.

Lemma decode_frame_of seq es tag old :
  is_u32 seq -> Forall wf_entry es -> (length es <= 22)%nat -> length tag = 32%nat ->
  batch_decode_frame_untrusted (Some (frame_of seq es tag)) true old BATCH_MAX_ENTRIES =
  (true, mk_header BATCH_FRAME_MAGIC BATCH_FRAME_VERSION (Z.of_nat (length es)) 0 seq, es).
Proof.
  intros Hs Hes Hlen Ht. pose proof (frame_of_length seq es tag) as Hl. rewrite Ht in Hl.
  unfold batch_decode_frame_untrusted, BATCH_MAX_ENTRIES, BATCH_FRAME_HEADER_SIZE,
    BATCH_FRAME_ENTRY_SIZE, BATCH_FRAME_HMAC_SIZE. cbn [negb].
  destruct (Z.ltb_spec (Z.of_nat (length (frame_of seq es tag))) 4); [lia|].
  change (nth 0 (frame_of seq es tag) 0) with BATCH_FRAME_MAGIC.
  change (nth 1 (frame_of seq es tag) 0) with BATCH_FRAME_VERSION.
  change (nth 2 (frame_of seq es tag) 0) with (Z.of_nat (length es)).
  change (nth 3 (frame_of seq es tag) 0) with 0. cbn [magic version entry_count set_field].
  change (BATCH_FRAME_MAGIC =? BATCH_FRAME_MAGIC) with true.
  change (BATCH_FRAME_VERSION =? 1) with false. change (BATCH_FRAME_VERSION =? 2) with true. cbn [negb].
  destruct (Z.ltb_spec (Z.of_nat (length (frame_of seq es tag))) 8); [lia|].
  destruct (Z.ltb_spec (Z.of_nat (length (frame_of seq es tag)) - 8) 32); [lia|].
  destruct (Z.ltb_spec (Z.of_nat (length (frame_of seq es tag)) - 8 - 32) (Z.of_nat (length es) * 7)); [lia|].
  destruct (Z.ltb_spec 22 (Z.of_nat (length es))); [lia|]. rewrite Nat2Z.id.
  replace (drop 8 (frame_of seq es tag)) with ((es ≫= entry_bytes) ++ tag)
    by (symmetry; apply drop_app_length'; rewrite header_bytes_length; reflexivity).
  rewrite parse_entries_bytes by exact Hes.
  change (drop 4 (frame_of seq es tag)) with (le_bytes 4 seq ++ (es ≫= entry_bytes) ++ tag).
  rewrite take_app_length' by (rewrite le_bytes_length; reflexivity).
  rewrite le_roundtrip by exact Hs. reflexivity.
Qed.

Lemma encode_frame_of seq es :
  (length es <= 22)%nat ->
  batch_encode_frame (Some (mk_header BATCH_FRAME_MAGIC BATCH_FRAME_VERSION (Z.of_nat (length es)) 0 seq))
    (Some es) (Z.of_nat (length es)) true BATCH_FRAME_MAX_SIZE = Some (frame_of seq es (zeros 32)).
Proof.
  intros Hlen. unfold batch_encode_frame, BATCH_FRAME_MAX_SIZE, BATCH_FRAME_HEADER_SIZE,
    BATCH_FRAME_ENTRY_SIZE, BATCH_MAX_ENTRIES, BATCH_FRAME_HMAC_SIZE. cbn [negb].
  destruct (Z.ltb_spec (8 + 22 * 7 + 32) (8 + Z.of_nat (length es) * 7)); [lia|].
  rewrite Nat2Z.id, take_ge by lia. reflexivity.
Qed.

(** ** Properties *)

(** Round trip of the wire format: up to 22 entries encoded into a
    version-2 frame decode to the same header and the same entries, float bit
    patterns included. *)
Theorem decode_encode seq es old wire :
  is_u32 seq -> Forall wf_entry es -> (length es <= 22)%nat ->
  batch_encode_frame (Some (mk_header BATCH_FRAME_MAGIC BATCH_FRAME_VERSION (Z.of_nat (length es)) 0 seq))
    (Some es) (Z.of_nat (length es)) true BATCH_FRAME_MAX_SIZE = Some wire ->
  batch_decode_frame_untrusted (Some wire) true old BATCH_MAX_ENTRIES =
  (true, mk_header BATCH_FRAME_MAGIC BATCH_FRAME_VERSION (Z.of_nat (length es)) 0 seq, es).
Proof.
  intros Hs Hes Hlen He. rewrite encode_frame_of in He by exact Hlen.
  assert (wire = frame_of seq es (zeros 32)) as -> by congruence.
  apply decode_frame_of; auto.
Qed.

(** The encoder's bound is short by the HMAC placeholder: for every count
    there is a buffer size it accepts and then overruns by exactly 32 bytes. *)
Theorem encode_overruns_buffer h es count :
  version h = 0x02 -> 0 <= count -> length es = Z.to_nat count ->
  let buf_size := BATCH_FRAME_HEADER_SIZE + count * BATCH_FRAME_ENTRY_SIZE in
  exists wire, batch_encode_frame (Some h) (Some es) count true buf_size = Some wire /\
    Z.of_nat (length wire) = buf_size + 32.
Proof.
  intros Hv Hc Hl. cbv zeta. unfold batch_encode_frame. cbn [negb]. rewrite Z.ltb_irrefl, Hv.
  eexists. split; [reflexivity|]. change (2 =? 2) with true. cbn iota.
  rewrite !length_app, header_bytes_length, take_ge, entries_bytes_length, Hl by lia.
  change (length (zeros 32)) with 32%nat. unfold BATCH_FRAME_HEADER_SIZE, BATCH_FRAME_ENTRY_SIZE. lia.
Qed.

(** ** The theorems on a concrete frame *)

Definition demo_entries : list BatchFrameEntry_t := [mk_entry 7 2 (lit 21); mk_entry 300 1 (lit 5)].

Lemma demo_entries_wf : Forall wf_entry demo_entries.
Proof.
  repeat (apply Forall_cons; split; [split; vm_compute; split; congruence|]). apply Forall_nil_2.
Qed.

Lemma decode_encode_witness :
  batch_decode_frame_untrusted (Some (frame_of 9 demo_entries (zeros 32))) true zero_header 22 =
  (true, mk_header BATCH_FRAME_MAGIC BATCH_FRAME_VERSION 2 0 9, demo_entries).
Proof.
  apply (decode_encode 9 demo_entries zero_header).
  - unfold is_u32. lia.
  - exact demo_entries_wf.
  - cbn. lia.
  - reflexivity.
Defined.

Lemma encode_overruns_buffer_witness :
  exists wire, batch_encode_frame (Some (mk_header 0xB7 2 2 0 9)) (Some demo_entries) 2 true 22 = Some wire /\
    Z.of_nat (length wire) = 22 + 32.
Proof.
  apply (encode_overruns_buffer (mk_header 0xB7 2 2 0 9) demo_entries 2).
  - reflexivity.
  - lia.
  - reflexivity.
Defined.

End batch_frame.
