(* ===== verification/Lora.v ===== *)
(** The LoRa link between gateway and hub (firmware/shared/lora_handler.c):
    packet framing with CRC-16/CCITT, the join by module attestation, and
    stop-and-wait sending with retries.

    The file's radio is its loopback: a packet sent is parsed, its addresses are
    swapped and it waits in the receive buffer; the ACK of an attempt fails as
    often as [g_mock_ack_fail_count] says.  The time source the file calls is
    the clock of the audit log it writes. *)

From S2P Require Import Prelude Crc Float32 Hmac TimeSource AuditLog Attestation.
Import crc hmac.

Module lora_handler.

Definition LORA_MAX_PAYLOAD : Z := 255.
Definition LORA_PACKET_OVERHEAD : Z := 10.
Definition LORA_MAX_RETRIES : nat := 3.
Definition LORA_ACK_TIMEOUT_MS : Z := 5000.

Record LoRaConfig_t := mk_config {
  spreading_factor : Z;
  bandwidth : Z;
  coding_rate : Z;
  tx_power_dbm : Z;
  frequency_mhz : Z;
  crc_enabled : bool }.

#[export] Instance eta_config : Eta LoRaConfig_t := fun r =>
  mk_config (spreading_factor r) (bandwidth r) (coding_rate r) (tx_power_dbm r) (frequency_mhz r)
    (crc_enabled r).

Definition LORA_MSG_DATA : Z := 1.
Definition LORA_MSG_ACK : Z := 2.
Definition LORA_MSG_NACK : Z := 3.

Record LoRaPacketHeader_t := mk_header {
  h_dest_addr : Z;
  h_src_addr : Z;
  h_seq_num : Z;
  msg_type : Z;
  h_payload_len : Z;
  flags : Z }.

Record LoRaFrame_t := mk_frame {
  src_addr : Z;
  dest_addr : Z;
  rssi : Z;
  snr : float32.float;
  seq_num : Z;
  payload_len : Z;
  payload : list Z }.

#[export] Instance eta_frame : Eta LoRaFrame_t := fun r =>
  mk_frame (src_addr r) (dest_addr r) (rssi r) (snr r) (seq_num r) (payload_len r) (payload r).

Inductive LoRaResult_t :=
| LORA_OK
| LORA_ERR_NOT_INIT
| LORA_ERR_SEND_FAILED
| LORA_ERR_NO_DATA
| LORA_ERR_PARAM_NULL
| LORA_ERR_BUSY
| LORA_ERR_CRC_FAIL
| LORA_ERR_ACK_TIMEOUT
| LORA_ERR_NO_SPACE
| LORA_ERR_NOT_JOINED
| LORA_ERR_JOIN_FAILED.

#[export] Instance LoRaResult_eq_dec : EqDecision LoRaResult_t.
Proof. solve_decision. Defined.

Record LoRaStats_t := mk_stats {
  tx_packets : Z;
  tx_retries : Z;
  tx_acks_received : Z;
  tx_ack_timeouts : Z;
  rx_packets : Z;
  rx_crc_errors : Z;
  join_attempts : Z;
  join_failures : Z }.

#[export] Instance eta_stats : Eta LoRaStats_t := fun r =>
  mk_stats (tx_packets r) (tx_retries r) (tx_acks_received r) (tx_ack_timeouts r) (rx_packets r)
    (rx_crc_errors r) (join_attempts r) (join_failures r).

Inductive LoRaInternalState_t :=
| LORA_STATE_UNINIT
| LORA_STATE_JOINING
| LORA_STATE_JOINED
| LORA_STATE_TX_BUSY
| LORA_STATE_WAIT_ACK.

#[export] Instance LoRaInternalState_eq_dec : EqDecision LoRaInternalState_t.
Proof. solve_decision. Defined.

Record state := mk_state {
  g_state : LoRaInternalState_t;
  g_config : LoRaConfig_t;
  g_initialised : bool;
  g_tx_seq : Z;
  g_rx_expected_seq : Z;
  g_rx_buffer : LoRaFrame_t;
  g_rx_pending : bool;
  g_last_rssi : Z;
  g_stats : LoRaStats_t;
  g_mock_ack_fail_count : Z;
  g_mock_module_stored_key : list Z;
  g_mock_module_key_set : bool }.

#[export] Instance eta_state : Eta state := fun r =>
  mk_state (g_state r) (g_config r) (g_initialised r) (g_tx_seq r) (g_rx_expected_seq r) (g_rx_buffer r)
    (g_rx_pending r) (g_last_rssi r) (g_stats r) (g_mock_ack_fail_count r) (g_mock_module_stored_key r)
    (g_mock_module_key_set r).

Definition zero_config : LoRaConfig_t := mk_config 0 0 0 0 0 false.
Definition zero_frame : LoRaFrame_t := mk_frame 0 0 0 float32.f_zero 0 0 (zeros 255).
Definition zero_stats : LoRaStats_t := mk_stats 0 0 0 0 0 0 0 0.

Definition initial : state :=
  mk_state LORA_STATE_UNINIT zero_config false 0 0 zero_frame false 0 zero_stats 0 (zeros 32) false.

(** ** CRC-16/CCITT *)

Definition crc_bit (crc : Z) : Z :=
  if negb (Z.land crc 0x8000 =? 0) then Z.lxor (u16 (Z.shiftl crc 1)) 0x1021
  else u16 (Z.shiftl crc 1).

Definition crc_byte (crc b : Z) : Z := Nat.iter 8 crc_bit (Z.lxor crc (Z.shiftl b 8)).

Definition lora_crc16 (data : list Z) : Z := fold_left crc_byte data 0xFFFF.

(** ** Packets *)

(** The bytes the CRC covers. *)
Definition packet_body (dest src seq msg : Z) (data : option (list Z)) (len : Z) : list Z :=
  le_bytes 2 dest ++ le_bytes 2 src ++ [seq; msg; len; 0] ++
  match data with
  | Some p => if 0 <? len then take (Z.to_nat len) p else []
  | None => []
  end.

(** The bytes written to [out]; the C function returns their number. *)
Definition lora_build_packet (out : bool) (dest src seq msg : Z) (data : option (list Z)) (len : Z)
  : list Z :=
  if negb out then []
  else
    let body := packet_body dest src seq msg data len in
    body ++ le_bytes 2 (lora_crc16 body).

(** The header is zero where the C leaves it unset: no caller reads it then. *)
Definition zero_header : LoRaPacketHeader_t := mk_header 0 0 0 0 0 0.

Definition lora_parse_packet (st : state) (input : list Z) (out_frame : LoRaFrame_t)
  : LoRaResult_t * LoRaFrame_t * LoRaPacketHeader_t * state :=
  let in_len := Z.of_nat (length input) in
  if in_len <? LORA_PACKET_OVERHEAD then (LORA_ERR_CRC_FAIL, out_frame, zero_header, st)
  else
    let body := take (length input - 2) input in
    let received_crc := le_value (drop (length input - 2) input) in
    if negb (received_crc =? lora_crc16 body) then
      (LORA_ERR_CRC_FAIL, out_frame, zero_header,
       st <| g_stats := (g_stats st) <| rx_crc_errors := u32 (rx_crc_errors (g_stats st) + 1) |> |>)
    else
      let h := mk_header (le_value (take 2 input)) (le_value (take 2 (drop 2 input))) (nth 4 input 0)
                 (nth 5 input 0) (nth 6 input 0) (nth 7 input 0) in
      if negb (in_len =? u16 (LORA_PACKET_OVERHEAD + h_payload_len h))
      then (LORA_ERR_CRC_FAIL, out_frame, h, st)
      else
        (LORA_OK,
         out_frame <| src_addr := h_src_addr h |> <| dest_addr := h_dest_addr h |>
                   <| seq_num := h_seq_num h |> <| payload_len := h_payload_len h |>
                   <| payload := blit (take (Z.to_nat (h_payload_len h)) (drop 8 input)) (payload out_frame) |>,
         h, st).

(** ** The loopback radio *)

Definition mock_radio_send (st : state) (packet : list Z) : bool * state :=
  if (length packet =? 0)%nat then (false, st)
  else
    match lora_parse_packet st packet zero_frame with
    | (LORA_OK, rx, hdr, st) =>
        let rx := rx <| src_addr := dest_addr rx |> <| dest_addr := src_addr rx |> in
        if (msg_type hdr =? LORA_MSG_ACK) || (msg_type hdr =? LORA_MSG_NACK) then (true, st)
        else (true, st <| g_rx_buffer := rx |> <| g_rx_pending := true |>)
    | (_, _, _, st) => (true, st)
    end.

Definition mock_radio_receive (st : state) : option (list Z) * state :=
  if negb (g_rx_pending st) then (None, st)
  else
    let rx := g_rx_buffer st in
    let pkt := lora_build_packet true (dest_addr rx) (src_addr rx) (seq_num rx) LORA_MSG_DATA
                 (Some (payload rx)) (payload_len rx) in
    if (length pkt =? 0)%nat then (None, st)
    else (Some pkt, st <| g_rx_pending := false |>).

Definition mock_radio_wait_ack (st : state) (expected_seq timeout_ms : Z) : bool * state :=
  if 0 <? g_mock_ack_fail_count st
  then (false, st <| g_mock_ack_fail_count := u8 (g_mock_ack_fail_count st - 1) |>)
  else (true, st).

Definition lora_mock_set_ack_fail_count (st : state) (fail_count : Z) : state :=
  st <| g_mock_ack_fail_count := fail_count |>.

Definition lora_mock_set_module_key (st : state) (key : list Z) : state :=
  st <| g_mock_module_stored_key := take 32 key |> <| g_mock_module_key_set := true |>.

(** ** The API *)

Definition lora_default_config (region : option (list Z)) : LoRaConfig_t :=
  match region with
  | Some r =>
      if bool_decide (cstr_of r = cstr "US915") then mk_config 10 0 1 14 915 true
      else mk_config 10 0 1 14 868 true
  | None => mk_config 10 0 1 14 868 true
  end.

Definition lora_init (st : state) (config : option LoRaConfig_t) : bool * state :=
  let c := match config with Some c => c | None => lora_default_config (Some (cstr "EU868" ++ [0])) end in
  let c := if (spreading_factor c <? 7) || (12 <? spreading_factor c) then c <| spreading_factor := 10 |> else c in
  let c := if (tx_power_dbm c <? 2) || (20 <? tx_power_dbm c) then c <| tx_power_dbm := 14 |> else c in
  (true, st <| g_config := c |> <| g_state := LORA_STATE_JOINING |> <| g_tx_seq := 0 |>
            <| g_rx_expected_seq := 0 |> <| g_rx_pending := false |> <| g_last_rssi := 0 |>
            <| g_initialised := true |> <| g_stats := zero_stats |> <| g_mock_ack_fail_count := 0 |>
            <| g_mock_module_key_set := false |>).

(** The challenge of a join at [now]. *)
Definition join_challenge (now : Z) : attestation.AttestationChallenge_t :=
  attestation.mk_challenge (replicate 16 0x42) now 1.

(** The key the module answers with. *)
Definition module_answer_key (st : state) (module_key : list Z) : list Z :=
  if g_mock_module_key_set st then g_mock_module_stored_key st else module_key.

#[local] Existing Instance audit_log.eta_state.

Section api.
Context {W : Type} `{MdHmac}.
Implicit Types (st : state) (keys : attestation.state) (al : audit_log.state W) (w : W).

(** [key_len] is the length of [module_key]. *)
Definition lora_join st keys al w (module_key : option (list Z))
  : LoRaResult_t * state * attestation.state * audit_log.state W * W :=
  if negb (g_initialised st) then (LORA_ERR_NOT_INIT, st, keys, al, w)
  else
    match module_key with
    | None => (LORA_ERR_PARAM_NULL, st, keys, al, w)
    | Some mk =>
        if (length mk <? 32)%nat then (LORA_ERR_PARAM_NULL, st, keys, al, w)
        else if bool_decide (g_state st = LORA_STATE_JOINED) then (LORA_OK, st, keys, al, w)
        else if negb (bool_decide (g_state st = LORA_STATE_JOINING)) then (LORA_ERR_BUSY, st, keys, al, w)
        else
          let st := st <| g_stats := (g_stats st) <| join_attempts := u32 (join_attempts (g_stats st) + 1) |> |> in
          let '(_, keys) := attestation.attestation_register_key keys
                             (Some (attestation.mk_key 0xF0 (take 32 mk) true)) in
          let '(t1, clk, w) := time_source.time_source_get_ms (audit_log.clock al) w in
          let challenge := join_challenge t1 in
          let answer := attestation.attestation_compute_response (module_answer_key st mk) challenge in
          let '(t2, clk, w) := time_source.time_source_get_ms clk w in
          let al := al <| audit_log.clock := clk |> in
          match attestation.attestation_verify keys (Some challenge)
                  (Some (attestation.mk_response answer t2 0xF0)) 5000 with
          | attestation.ATTEST_OK => (LORA_OK, st <| g_state := LORA_STATE_JOINED |>, keys, al, w)
          | _ =>
              let st := st <| g_stats := (g_stats st) <| join_failures := u32 (join_failures (g_stats st) + 1) |> |> in
              let '(al, w) := audit_log.audit_log_add al w audit_log.AUDIT_MODULE_ATTESTATION_FAIL 0 0
                                (Some (cstr "LoRa radio module attestation failed")) in
              (LORA_ERR_JOIN_FAILED, st, keys, al, w)
          end
    end.

End api.

(** The send loop, [n] attempts left. *)
Fixpoint send_attempts (st : state) (n : nat) (dest : Z) (data : list Z) (len : Z) : LoRaResult_t * state :=
  match n with
  | O => (LORA_ERR_ACK_TIMEOUT, st <| g_state := LORA_STATE_JOINED |>)
  | S n =>
      let st := st <| g_state := LORA_STATE_TX_BUSY |> in
      let packet := lora_build_packet true dest 0 (g_tx_seq st) LORA_MSG_DATA (Some data) len in
      if (length packet =? 0)%nat then (LORA_ERR_SEND_FAILED, st <| g_state := LORA_STATE_JOINED |>)
      else
        let st := st <| g_stats := (g_stats st) <| tx_packets := u32 (tx_packets (g_stats st) + 1) |> |> in
        let '(send_ok, st) := mock_radio_send st packet in
        if negb send_ok then (LORA_ERR_SEND_FAILED, st <| g_state := LORA_STATE_JOINED |>)
        else
          let st := st <| g_state := LORA_STATE_WAIT_ACK |> in
          let '(ack, st) := mock_radio_wait_ack st (g_tx_seq st) LORA_ACK_TIMEOUT_MS in
          if ack : bool then
            (LORA_OK,
             st <| g_stats := (g_stats st) <| tx_acks_received := u32 (tx_acks_received (g_stats st) + 1) |> |>
                <| g_tx_seq := u8 (g_tx_seq st + 1) |> <| g_state := LORA_STATE_JOINED |>)
          else
            send_attempts
              (st <| g_stats := (g_stats st) <| tx_retries := u32 (tx_retries (g_stats st) + 1) |>
                                  <| tx_ack_timeouts := u32 (tx_ack_timeouts (g_stats st) + 1) |> |>)
              n dest data len
  end.

Definition lora_send (st : state) (dest : Z) (data : option (list Z)) (len : Z) : LoRaResult_t * state :=
  if negb (g_initialised st) then (LORA_ERR_NOT_INIT, st)
  else
    match data with
    | None => (LORA_ERR_PARAM_NULL, st)
    | Some p =>
        if bool_decide (g_state st = LORA_STATE_JOINING) then (LORA_ERR_NOT_JOINED, st)
        else if negb (bool_decide (g_state st = LORA_STATE_JOINED)) then (LORA_ERR_BUSY, st)
        else send_attempts st (S LORA_MAX_RETRIES) dest p len
    end.

(** The caller's frame is an in-out buffer. *)
Definition lora_receive (st : state) (out_frame : option LoRaFrame_t)
  : LoRaResult_t * option LoRaFrame_t * state :=
  if negb (g_initialised st) then (LORA_ERR_NOT_INIT, out_frame, st)
  else
    match out_frame with
    | None => (LORA_ERR_PARAM_NULL, None, st)
    | Some out =>
        if bool_decide (g_state st = LORA_STATE_JOINING) then (LORA_ERR_NOT_JOINED, out_frame, st)
        else
          match mock_radio_receive st with
          | (None, st) => (LORA_ERR_NO_DATA, out_frame, st)
          | (Some raw, st) =>
              if (length raw =? 0)%nat then (LORA_ERR_NO_DATA, out_frame, st)
              else
                match lora_parse_packet st raw out with
                | (LORA_OK, frame, h, st) =>
                    if negb (msg_type h =? LORA_MSG_DATA) then (LORA_ERR_NO_DATA, Some frame, st)
                    else
                      (LORA_OK, Some frame,
                       st <| g_stats := (g_stats st) <| rx_packets := u32 (rx_packets (g_stats st) + 1) |> |>
                          <| g_rx_expected_seq := u8 (h_seq_num h + 1) |>)
                | (err, frame, _, st) => (err, Some frame, st)
                end
          end
    end.

Definition lora_is_ready (st : state) : bool :=
  g_initialised st && bool_decide (g_state st = LORA_STATE_JOINED).
Definition lora_is_joined (st : state) : bool :=
  g_initialised st && bool_decide (g_state st = LORA_STATE_JOINED).
Definition lora_get_rssi (st : state) : Z := g_last_rssi st.
Definition lora_get_stats (st : state) : LoRaStats_t := g_stats st.
Definition lora_get_config (st : state) : option LoRaConfig_t :=
  if negb (g_initialised st) then None else Some (g_config st).

#[global] Arguments packet_body : simpl never.
#[global] Arguments lora_crc16 : simpl never.

(** ** The checksum *)

(** What a round did can be read off the low bit. *)
Definition crc_unbit (c : Z) : Z :=
  if Z.odd c then Z.shiftr (Z.lxor c 0x1021) 1 + 0x8000 else Z.shiftr c 1.

Lemma crc_unbit_bit c : is_u16 c -> crc_unbit (crc_bit c) = c.
Proof.
  intros Hc. apply Z.eqb_eq. revert Hc.
  apply (all_u16 (fun c => crc_unbit (crc_bit c) =? c)). vm_compute. reflexivity.
Qed.

#[export] Instance lora_crc_ok : CrcOk crc_bit (fun c b => Z.lxor c (Z.shiftl b 8)).
Proof.
  split.
  - intros c _. unfold crc_bit. case_match; [apply lxor_u16|]; auto with words. unfold is_u16. lia.
  - intros c d Hc Hd E. rewrite <- (crc_unbit_bit c Hc), <- (crc_unbit_bit d Hd), E. reflexivity.
  - intros c b Hc Hb. apply lxor_u16; [exact Hc|]. rewrite shiftl_8. unfold is_u8, is_u16 in *. lia.
  - intros c d b _ _ E. apply (f_equal (fun x => Z.lxor x (Z.shiftl b 8))) in E.
    rewrite !Z.lxor_assoc, !Z.lxor_nilpotent, !Z.lxor_0_r in E. exact E.
  - intros c x y _ _ E. apply (f_equal (fun z => Z.lxor c z)) in E.
    rewrite <- !Z.lxor_assoc, !Z.lxor_nilpotent, !Z.lxor_0_l, !shiftl_8 in E. lia.
Qed.

Lemma lora_crc_u16 l : byte_list l -> is_u16 (lora_crc16 l).
Proof. intros Hl. apply (crc_run_u16 crc_bit (fun c b => Z.lxor c (Z.shiftl b 8))); [unfold is_u16; lia|exact Hl]. Qed.

(** ** Packets *)

(** The arguments of a packet in range, and their data. *)
Record wf_packet (dest src seq msg : Z) (p : list Z) : Prop := {
  wp_dest : is_u16 dest; wp_src : is_u16 src; wp_seq : is_u8 seq; wp_msg : is_u8 msg;
  wp_len : Z.of_nat (length p) <= 255; wp_bytes : byte_list p }.

Lemma body_layout dest src seq msg p :
  packet_body dest src seq msg (Some p) (Z.of_nat (length p)) =
  le_bytes 2 dest ++ le_bytes 2 src ++ [seq; msg; Z.of_nat (length p); 0] ++ p.
Proof.
  unfold packet_body. do 2 f_equal. destruct (Z.ltb_spec 0 (Z.of_nat (length p))) as [|Hl].
  - rewrite take_ge by lia. reflexivity.
  - destruct p; [reflexivity|cbn in Hl; lia].
Qed.

Lemma packet_body_bytes dest src seq msg p :
  wf_packet dest src seq msg p -> byte_list (packet_body dest src seq msg (Some p) (Z.of_nat (length p))).
Proof.
  intros [Hd Hs Hq Hm Hl Hp]. rewrite body_layout. apply Forall_app. split; [apply le_bytes_bytes|].
  apply Forall_app. split; [apply le_bytes_bytes|].
  repeat (constructor; [unfold is_u8 in *; lia|]). exact Hp.
Qed.

(** What parsing makes of a body of at least eight bytes under a checksum. *)
Lemma parse_body st body v out :
  (8 <= length body)%nat -> is_u16 v ->
  lora_parse_packet st (body ++ le_bytes 2 v) out =
  if negb (v =? lora_crc16 body) then
    (LORA_ERR_CRC_FAIL, out, zero_header,
     st <| g_stats := (g_stats st) <| rx_crc_errors := u32 (rx_crc_errors (g_stats st) + 1) |> |>)
  else
    let len := nth 6 body 0 in
    let h := mk_header (le_value (take 2 body)) (le_value (take 2 (drop 2 body))) (nth 4 body 0)
               (nth 5 body 0) len (nth 7 body 0) in
    if negb (Z.of_nat (length body + 2) =? u16 (10 + len)) then (LORA_ERR_CRC_FAIL, out, h, st)
    else (LORA_OK,
          out <| src_addr := h_src_addr h |> <| dest_addr := h_dest_addr h |>
              <| seq_num := h_seq_num h |> <| payload_len := len |>
              <| payload := blit (take (Z.to_nat len) (drop 8 body ++ le_bytes 2 v)) (payload out) |>, h, st).
Proof.
  intros Hlen Hv. unfold lora_parse_packet, LORA_PACKET_OVERHEAD.
  assert (length (body ++ le_bytes 2 v) = (length body + 2)%nat) as Hl
    by (rewrite length_app, le_bytes_length; reflexivity).
  rewrite Hl. destruct (Z.ltb_spec (Z.of_nat (length body + 2)) 10); [lia|].
  replace (length body + 2 - 2)%nat with (length body) by lia.
  rewrite take_app_length, drop_app_length, le_roundtrip by exact Hv.
  rewrite !app_nth1 by lia. rewrite (drop_app_le body _ 2), (drop_app_le body _ 8) by lia.
  rewrite !take_app_le by (rewrite ?length_drop; lia). reflexivity.
Qed.

(** The frame a packet carries, in the caller's buffer. *)
Definition carried (dest src seq : Z) (p : list Z) (out : LoRaFrame_t) : LoRaFrame_t :=
  out <| src_addr := src |> <| dest_addr := dest |> <| seq_num := seq |>
      <| payload_len := Z.of_nat (length p) |> <| payload := blit p (payload out) |>.

Lemma parse_built dest src seq msg p st out :
  wf_packet dest src seq msg p ->
  lora_parse_packet st (lora_build_packet true dest src seq msg (Some p) (Z.of_nat (length p))) out =
  (LORA_OK, carried dest src seq p out, mk_header dest src seq msg (Z.of_nat (length p)) 0, st).
Proof.
  intros Hwf. pose proof (packet_body_bytes _ _ _ _ _ Hwf) as Hb. destruct Hwf as [Hd Hs Hq Hm Hl Hp].
  unfold lora_build_packet. cbn [negb]. rewrite body_layout in *.
  rewrite parse_body; [|rewrite !length_app, !le_bytes_length; cbn [length]; lia|apply lora_crc_u16, Hb].
  pose proof (le_bytes_length 2 dest) as L1. pose proof (le_bytes_length 2 src) as L2.
  pose proof (le_roundtrip 2 dest Hd) as R1. pose proof (le_roundtrip 2 src Hs) as R2.
  destruct (le_bytes 2 dest) as [|d0 [|d1 [|]]]; try discriminate L1.
  destruct (le_bytes 2 src) as [|s0 [|s1 [|]]]; try discriminate L2. clear L1 L2. cbn [app].
  rewrite Z.eqb_refl. cbn [negb nth take drop length]. cbv zeta. rewrite R1, R2.
  rewrite u16_small by (unfold is_u16; lia).
  replace (Z.of_nat (S (S (S (S (S (S (S (S (length p)))))))) + 2) =? 10 + Z.of_nat (length p)) with true
    by (symmetry; apply Z.eqb_eq; lia).
  cbn [negb]. rewrite Nat2Z.id, take_app_length. reflexivity.
Qed.

(** A packet damaged in one byte of header or payload is rejected: whatever
    the damage, it counts as a checksum error and the caller's frame is left
    alone. *)
Theorem damaged_packet_rejected dest src seq msg p pre x y post st out :
  wf_packet dest src seq msg p ->
  packet_body dest src seq msg (Some p) (Z.of_nat (length p)) = pre ++ x :: post -> is_u8 y -> x <> y ->
  let packet := lora_build_packet true dest src seq msg (Some p) (Z.of_nat (length p)) in
  let '(res, frame, _, st') := lora_parse_packet st (pre ++ y :: drop (S (length pre)) packet) out in
  res = LORA_ERR_CRC_FAIL /\ frame = out /\
  st' = st <| g_stats := (g_stats st) <| rx_crc_errors := u32 (rx_crc_errors (g_stats st) + 1) |> |>.
Proof.
  intros Hwf Hbody Hy Hne. pose proof (packet_body_bytes _ _ _ _ _ Hwf) as Hb.
  unfold lora_build_packet. cbn [negb]. cbv zeta. pose proof (f_equal length Hbody) as Hlen.
  rewrite body_layout, !length_app, !le_bytes_length in Hlen. cbn [length] in Hlen.
  rewrite Hbody in *. pose proof Hb as [Hpre [Hx Hpost]%Forall_cons]%Forall_app.
  replace (drop (S (length pre)) ((pre ++ x :: post) ++ le_bytes 2 (lora_crc16 (pre ++ x :: post))))
    with (post ++ le_bytes 2 (lora_crc16 (pre ++ x :: post))).
  2: { rewrite <- app_assoc, drop_app_ge by lia. replace (S (length pre) - length pre)%nat with 1%nat by lia.
       reflexivity. }
  rewrite app_comm_cons, app_assoc, parse_body;
    [|rewrite length_app; cbn [length]; lia|apply lora_crc_u16, Hb].
  destruct (Z.eqb_spec (lora_crc16 (pre ++ x :: post)) (lora_crc16 (pre ++ y :: post))) as [E|]; cbn [negb].
  - exfalso. revert E. apply (crc_detects_byte crc_bit (fun c b => Z.lxor c (Z.shiftl b 8))); auto.
    unfold is_u16. lia.
  - auto.
Qed.

(** ** Sending *)

(** The frame the loopback leaves for the receiver. *)
Definition looped (dest seq : Z) (p : list Z) : LoRaFrame_t :=
  mk_frame dest 0 0 float32.f_zero seq (Z.of_nat (length p)) (blit p (zeros 255)).

(** A link whose receive buffer holds that frame, joined. *)
Definition delivering st dest seq p : Prop :=
  lora_is_joined st = true /\ g_rx_pending st = true /\ g_rx_buffer st = looped dest seq p.

Lemma radio_send_data st dest seq p :
  wf_packet dest 0 seq LORA_MSG_DATA p ->
  mock_radio_send st (lora_build_packet true dest 0 seq LORA_MSG_DATA (Some p) (Z.of_nat (length p))) =
  (true, st <| g_rx_buffer := looped dest seq p |> <| g_rx_pending := true |>).
Proof.
  intros Hwf. unfold mock_radio_send. rewrite parse_built by exact Hwf.
  replace (length (lora_build_packet true dest 0 seq LORA_MSG_DATA (Some p) (Z.of_nat (length p))) =? 0)%nat
    with false; [reflexivity|].
  symmetry. apply Nat.eqb_neq. unfold lora_build_packet. cbn [negb].
  rewrite length_app, le_bytes_length. lia.
Qed.

(** An attempt that was not acknowledged, and one that was. *)
Definition transmitted st dest p : state :=
  st <| g_state := LORA_STATE_TX_BUSY |>
     <| g_stats := (g_stats st) <| tx_packets := u32 (tx_packets (g_stats st) + 1) |> |>
     <| g_rx_buffer := looped dest (g_tx_seq st) p |> <| g_rx_pending := true |>
     <| g_state := LORA_STATE_WAIT_ACK |>.

Definition missed st : state :=
  st <| g_mock_ack_fail_count := u8 (g_mock_ack_fail_count st - 1) |>
     <| g_stats := (g_stats st) <| tx_retries := u32 (tx_retries (g_stats st) + 1) |>
                                <| tx_ack_timeouts := u32 (tx_ack_timeouts (g_stats st) + 1) |> |>.

Definition acknowledged st : state :=
  st <| g_stats := (g_stats st) <| tx_acks_received := u32 (tx_acks_received (g_stats st) + 1) |> |>
     <| g_tx_seq := u8 (g_tx_seq st + 1) |> <| g_state := LORA_STATE_JOINED |>.

Lemma attempt_step n st dest p :
  wf_packet dest 0 (g_tx_seq st) LORA_MSG_DATA p ->
  send_attempts st (S n) dest p (Z.of_nat (length p)) =
  if 0 <? g_mock_ack_fail_count st
  then send_attempts (missed (transmitted st dest p)) n dest p (Z.of_nat (length p))
  else (LORA_OK, acknowledged (transmitted st dest p)).
Proof.
  intros Hwf. cbn [send_attempts].
  replace (length _ =? 0)%nat with false.
  2: { symmetry. apply Nat.eqb_neq. unfold lora_build_packet. cbn [negb]. rewrite length_app, le_bytes_length. lia. }
  cbn [g_tx_seq set_field]. rewrite radio_send_data by exact Hwf. cbn [negb].
  unfold mock_radio_wait_ack. cbn [g_mock_ack_fail_count set_field].
  destruct (0 <? g_mock_ack_fail_count st); reflexivity.
Qed.

(** The attempts, with [n] left and the next [k] acknowledgements failing. *)
Lemma attempts_spec n st dest p :
  wf_packet dest 0 (g_tx_seq st) LORA_MSG_DATA p -> is_u8 (g_mock_ack_fail_count st) ->
  g_initialised st = true ->
  (n = 0%nat -> g_rx_pending st = true /\ g_rx_buffer st = looped dest (g_tx_seq st) p) ->
  let k := g_mock_ack_fail_count st in
  let acked := k <? Z.of_nat n in
  let '(res, st') := send_attempts st n dest p (Z.of_nat (length p)) in
  delivering st' dest (g_tx_seq st) p /\
  res = (if acked then LORA_OK else LORA_ERR_ACK_TIMEOUT) /\
  g_tx_seq st' = (if acked then u8 (g_tx_seq st + 1) else g_tx_seq st) /\
  g_mock_ack_fail_count st' = (if acked then 0 else k - Z.of_nat n) /\
  u32 (tx_packets (g_stats st')) =
    u32 (tx_packets (g_stats st) + (if acked then k + 1 else Z.of_nat n)).
Proof.
  revert st. induction n as [|n IH]; intros st Hwf Hk Hi Hn; cbv zeta.
  { destruct (Hn eq_refl) as [Hp Hb]. destruct (Z.ltb_spec (g_mock_ack_fail_count st) (Z.of_nat 0)) as [?|_];
      [unfold is_u8 in Hk; lia|]. cbn [send_attempts]. unfold delivering, lora_is_joined. cbn.
    rewrite Hi, Z.sub_0_r, Z.add_0_r. auto. }
  rewrite attempt_step by exact Hwf. destruct (Z.ltb_spec 0 (g_mock_ack_fail_count st)) as [Hk0|Hk0].
  - assert (g_mock_ack_fail_count (missed (transmitted st dest p)) = g_mock_ack_fail_count st - 1) as E
      by (cbn; apply u8_small; unfold is_u8 in *; lia).
    specialize (IH (missed (transmitted st dest p)) Hwf). cbv zeta in IH. rewrite E in IH.
    specialize (IH ltac:(unfold is_u8 in *; lia) Hi (fun _ => conj eq_refl eq_refl)).
    replace (g_mock_ack_fail_count st - 1 <? Z.of_nat n) with (g_mock_ack_fail_count st <? Z.of_nat (S n)) in IH
      by (apply eq_true_iff_eq; rewrite !Z.ltb_lt; lia).
    destruct (send_attempts _ n _ _ _) as [res st']. destruct IH as (Hd & Hr & Hq & Hf & Ht).
    split; [exact Hd|]. split; [exact Hr|]. split; [exact Hq|].
    split; [rewrite Hf; case_match; lia|]. rewrite Ht. cbn [missed transmitted g_stats tx_packets set_field].
    unfold u32. rewrite Zplus_mod_idemp_l. f_equal. case_match; lia.
  - assert (g_mock_ack_fail_count st = 0) as E by (unfold is_u8 in *; lia). rewrite E.
    destruct (Z.ltb_spec 0 (Z.of_nat (S n))); [|lia]. unfold delivering, lora_is_joined. cbn. rewrite Hi, E.
    repeat split; auto. unfold u32. apply Zmod_mod.
Qed.

Lemma receive_delivering st dest seq p out :
  delivering st dest seq p -> wf_packet dest 0 seq LORA_MSG_DATA p ->
  exists st', lora_receive st (Some out) = (LORA_OK, Some (carried 0 dest seq p out), st') /\
    lora_is_joined st' = true /\ g_tx_seq st' = g_tx_seq st /\
    g_mock_ack_fail_count st' = g_mock_ack_fail_count st.
Proof.
  intros (Hj & Hp & Hb) [Hd Hs Hq Hm Hl Hpb]. unfold lora_is_joined in Hj.
  apply andb_true_iff in Hj as [Hi Hj]. apply bool_decide_eq_true in Hj.
  unfold lora_receive, mock_radio_receive. rewrite Hi, Hj, Hp, Hb. cbn [negb].
  rewrite bool_decide_eq_false_2 by discriminate. cbn [dest_addr src_addr seq_num payload payload_len looped].
  assert (lora_build_packet true 0 dest seq LORA_MSG_DATA (Some (blit p (zeros 255))) (Z.of_nat (length p)) =
          lora_build_packet true 0 dest seq LORA_MSG_DATA (Some p) (Z.of_nat (length p))) as E.
  { unfold lora_build_packet, packet_body. cbn [negb]. rewrite !Nat2Z.id, take_blit, take_ge by lia. reflexivity. }
  rewrite E. pose proof (parse_built 0 dest seq LORA_MSG_DATA p (st <| g_rx_pending := false |>) out) as Hparse.
  assert ((length (lora_build_packet true 0 dest seq LORA_MSG_DATA (Some p) (Z.of_nat (length p))) =? 0)%nat = false) as Hne.
  { apply Nat.eqb_neq. unfold lora_build_packet. cbn [negb]. rewrite length_app, le_bytes_length. lia. }
  rewrite Hne, Hne, Hparse by (split; auto; unfold is_u16; lia).
  eexists. split; [reflexivity|]. unfold lora_is_joined. cbn. rewrite Hi, Hj. auto.
Qed.

Lemma send_unfold st dest p n :
  lora_is_joined st = true -> lora_send st dest (Some p) n = send_attempts st (S LORA_MAX_RETRIES) dest p n.
Proof.
  unfold lora_is_joined, lora_send. intros [Hi Hj]%andb_true_iff. apply bool_decide_eq_true in Hj.
  rewrite Hi, Hj. reflexivity.
Qed.

(** C22. Sending on a joined link: the message is delivered in any case, to the
    last byte and with its addresses swapped; if at most three acknowledgements
    in a row are lost the sender sees success and moves its sequence number on,
    after as many packets as it took, and otherwise it gives up after four
    packets with the sequence number unchanged. *)
Theorem send_delivers st dest p out :
  lora_is_joined st = true -> wf_packet dest 0 (g_tx_seq st) LORA_MSG_DATA p ->
  is_u8 (g_mock_ack_fail_count st) ->
  let lost := g_mock_ack_fail_count st in
  let '(res, st') := lora_send st dest (Some p) (Z.of_nat (length p)) in
  let '(res2, frame, _) := lora_receive st' (Some out) in
  res = (if lost <=? 3 then LORA_OK else LORA_ERR_ACK_TIMEOUT) /\
  g_tx_seq st' = (if lost <=? 3 then u8 (g_tx_seq st + 1) else g_tx_seq st) /\
  u32 (tx_packets (g_stats st')) = u32 (tx_packets (g_stats st) + Z.min (lost + 1) 4) /\
  res2 = LORA_OK /\ frame = Some (carried 0 dest (g_tx_seq st) p out).
Proof.
  intros Hj Hwf Hk. cbv zeta. rewrite send_unfold by exact Hj.
  pose proof Hj as [Hi _]%andb_true_iff.
  pose proof (attempts_spec (S LORA_MAX_RETRIES) st dest p Hwf Hk Hi ltac:(discriminate)) as Hs.
  cbv zeta in Hs. destruct (send_attempts _ _ _ _ _) as [res st']. destruct Hs as (Hd & Hr & Hq & _ & Ht).
  destruct (receive_delivering st' dest _ p out Hd Hwf) as (st2 & -> & _).
  replace (g_mock_ack_fail_count st <=? 3) with (g_mock_ack_fail_count st <? Z.of_nat (S LORA_MAX_RETRIES))
    by (apply eq_true_iff_eq; unfold LORA_MAX_RETRIES; rewrite Z.ltb_lt, Z.leb_le; lia).
  split; [exact Hr|]. split; [exact Hq|]. split; [|auto]. rewrite Ht. f_equal. f_equal.
  unfold LORA_MAX_RETRIES. destruct (Z.ltb_spec (g_mock_ack_fail_count st) (Z.of_nat 4)); lia.
Qed.

(** A repeated message is delivered twice: when the acknowledgements of a
    message are lost and the application sends it again, the receiver gets it a
    second time under the sequence number of the first; the expected number the
    handler keeps is never compared. *)
Theorem retry_delivers_twice st dest p out out2 :
  lora_is_joined st = true -> wf_packet dest 0 (g_tx_seq st) LORA_MSG_DATA p ->
  g_mock_ack_fail_count st = 4 ->
  let '(res1, st1) := lora_send st dest (Some p) (Z.of_nat (length p)) in
  let '(got1, frame1, st2) := lora_receive st1 (Some out) in
  let '(res2, st3) := lora_send st2 dest (Some p) (Z.of_nat (length p)) in
  let '(got2, frame2, _) := lora_receive st3 (Some out2) in
  res1 = LORA_ERR_ACK_TIMEOUT /\ got1 = LORA_OK /\ frame1 = Some (carried 0 dest (g_tx_seq st) p out) /\
  res2 = LORA_OK /\ got2 = LORA_OK /\ frame2 = Some (carried 0 dest (g_tx_seq st) p out2).
Proof.
  intros Hj Hwf Hk. rewrite send_unfold by exact Hj. pose proof Hj as [Hi _]%andb_true_iff.
  pose proof (attempts_spec (S LORA_MAX_RETRIES) st dest p Hwf ltac:(rewrite Hk; words) Hi
    ltac:(discriminate)) as Hs.
  cbv zeta in Hs. rewrite Hk in Hs. change (4 <? Z.of_nat (S LORA_MAX_RETRIES)) with false in Hs.
  change (4 - Z.of_nat (S LORA_MAX_RETRIES)) with 0 in Hs.
  destruct (send_attempts st _ _ _ _) as [res1 st1]. destruct Hs as (Hd & -> & Hq & Hf & _).
  destruct (receive_delivering st1 dest _ p out Hd Hwf) as (st2 & -> & Hj2 & Hq2 & Hf2).
  rewrite send_unfold by exact Hj2. pose proof Hj2 as [Hi2 _]%andb_true_iff.
  assert (g_tx_seq st2 = g_tx_seq st) as Eq by congruence.
  assert (g_mock_ack_fail_count st2 = 0) as Ef by congruence.
  pose proof (attempts_spec (S LORA_MAX_RETRIES) st2 dest p ltac:(rewrite Eq; exact Hwf)
    ltac:(rewrite Ef; words) Hi2 ltac:(discriminate)) as Hs.
  cbv zeta in Hs. rewrite Eq, Ef in Hs. destruct (send_attempts st2 _ _ _ _) as [res2 st3].
  destruct Hs as (Hd3 & -> & _).
  destruct (receive_delivering st3 dest _ p out2 Hd3 Hwf) as (st4 & -> & _). auto 10.
Qed.

(** ** Joining *)

(** The calls a link gets; the second component says whether a join since the
    last initialisation ended with a verified response. *)
Inductive link_step {W} `{MdHmac} : state * bool -> state * bool -> Prop :=
| step_init st a c : link_step (st, a) (snd (lora_init st c), false)
| step_join st a keys al w mk res st' keys' al' w' :
    lora_join (W := W) st keys al w mk = (res, st', keys', al', w') ->
    link_step (st, a) (st', a || bool_decide (res = LORA_OK))
| step_send st a dest data len : link_step (st, a) (snd (lora_send st dest data len), a)
| step_receive st a out : link_step (st, a) (snd (lora_receive st out), a)
| step_module_key st a key : link_step (st, a) (lora_mock_set_module_key st key, a)
| step_ack_fails st a n : link_step (st, a) (lora_mock_set_ack_fail_count st n, a).

Lemma parse_keeps st l out : let '(_, _, _, st') := lora_parse_packet st l out in
  g_state st' = g_state st /\ g_initialised st' = g_initialised st.
Proof. unfold lora_parse_packet. repeat case_match; simplify_eq; auto. Qed.

Lemma radio_send_keeps st l : g_state (snd (mock_radio_send st l)) = g_state st /\
  g_initialised (snd (mock_radio_send st l)) = g_initialised st.
Proof.
  unfold mock_radio_send. case_match; [auto|]. pose proof (parse_keeps st l zero_frame) as Hp.
  destruct (lora_parse_packet st l zero_frame) as [[[res rx] hdr] st']. destruct res; try exact Hp.
  case_match; exact Hp.
Qed.

Lemma send_attempts_keeps n st dest data len :
  let '(_, st') := send_attempts st n dest data len in
  g_state st' = LORA_STATE_JOINED /\ g_initialised st' = g_initialised st.
Proof.
  revert st. induction n as [|n IH]; intros st; cbn [send_attempts]; [auto|].
  destruct (_ =? 0)%nat; [auto|]. match goal with |- context [mock_radio_send ?s ?l] =>
    pose proof (radio_send_keeps s l) as [_ Hk]; destruct (mock_radio_send s l) as [ok st1] end.
  cbn [snd] in Hk. destruct ok; cbn [negb]; [|split; [reflexivity|exact Hk]].
  unfold mock_radio_wait_ack. cbn [g_mock_ack_fail_count set_field].
  destruct (0 <? g_mock_ack_fail_count st1).
  - match goal with |- context [send_attempts ?s n dest data len] =>
      specialize (IH s); destruct (send_attempts s n dest data len) as [r st2] end.
    destruct IH as [IH1 IH2]. split; [exact IH1|]. etransitivity; [exact IH2|exact Hk].
  - split; [reflexivity|exact Hk].
Qed.

(** An initialised link is joining or, after a verified join, joined. *)
Definition link_ok (s : state * bool) : Prop :=
  g_initialised (fst s) = true ->
  g_state (fst s) = LORA_STATE_JOINING \/ g_state (fst s) = LORA_STATE_JOINED /\ snd s = true.

Lemma send_keeps st a dest data len : link_ok (st, a) -> link_ok (snd (lora_send st dest data len), a).
Proof.
  unfold link_ok, lora_send. cbn [fst snd]. intros Hl.
  destruct (g_initialised st) eqn:Hi; cbn [negb snd]; [|congruence].
  destruct data as [p|]; cbn [snd]; [|auto].
  case_bool_decide as Hs; cbn [snd]; [auto|]. case_bool_decide as Hj; cbn [snd negb]; [|auto].
  pose proof (send_attempts_keeps (S LORA_MAX_RETRIES) st dest p len) as Hk.
  destruct (send_attempts _ _ _ _ _) as [r st']. cbn [snd]. destruct Hk as [Hk _]. intros _.
  destruct (Hl eq_refl) as [E|[_ Ha]]; [congruence|auto].
Qed.

Lemma receive_keeps st out : g_state (snd (lora_receive st out)) = g_state st /\
  g_initialised (snd (lora_receive st out)) = g_initialised st.
Proof.
  unfold lora_receive. destruct (g_initialised st) eqn:Hi; cbn [negb snd]; [|auto].
  destruct out as [out|]; [|auto]. case_bool_decide; [auto|].
  unfold mock_radio_receive. destruct (g_rx_pending st); cbn [negb]; [|auto].
  destruct (_ =? 0)%nat eqn:E; [auto|]. cbn iota beta. rewrite E.
  match goal with |- context [lora_parse_packet ?s ?l out] =>
    pose proof (parse_keeps s l out) as Hp; destruct (lora_parse_packet s l out) as [[[r f] h] st'] end.
  rewrite <- Hi. destruct r; try exact Hp. destruct (negb _); exact Hp.
Qed.

Lemma join_keeps {W} `{MdHmac} st keys (al : audit_log.state W) w mk a :
  link_ok (st, a) ->
  let '(res, st', _, _, _) := lora_join st keys al w mk in
  link_ok (st', a || bool_decide (res = LORA_OK)).
Proof.
  unfold link_ok, lora_join. cbn [fst snd]. intros Hl.
  destruct (g_initialised st) eqn:Hi; cbn [negb]; [|congruence].
  assert (forall r, g_state st = LORA_STATE_JOINING \/
            g_state st = LORA_STATE_JOINED /\ a || bool_decide (r = LORA_OK) = true) as Hkeep.
  { intros r. destruct (Hl eq_refl) as [|[? ->]]; auto. }
  destruct mk as [mk|]; [|auto]. destruct (_ <? 32)%nat; [auto|]. case_bool_decide as Hs; [auto|].
  case_bool_decide as Hj; cbn [negb]; [|auto].
  destruct (attestation.attestation_register_key _ _) as [r keys'].
  destruct (time_source.time_source_get_ms _ _) as [[t1 clk] w1].
  destruct (time_source.time_source_get_ms clk w1) as [[t2 clk2] w2].
  destruct (attestation.attestation_verify _ _ _ _);
    try (destruct (audit_log.audit_log_add _ _ _ _ _ _) as [al' w3]; intros _; left; exact Hj).
  intros _. right. rewrite bool_decide_eq_true_2 by reflexivity. rewrite orb_true_r. auto.
Qed.

Lemma link_step_ok {W} `{MdHmac} s s' : link_step (W := W) s s' -> link_ok s -> link_ok s'.
Proof.
  intros Hstep Hl. destruct Hstep as [st a c|st a keys al w mk res st' keys' al' w' Hj|st a dest data len|st a out|st a key|st a n].
  - intros _. left. reflexivity.
  - pose proof (join_keeps st keys al w mk a Hl) as Hk. rewrite Hj in Hk. exact Hk.
  - apply send_keeps, Hl.
  - unfold link_ok. cbn [fst snd]. destruct (receive_keeps st out) as [-> ->]. exact Hl.
  - exact Hl.
  - exact Hl.
Qed.

Lemma link_invariant {W} `{MdHmac} st a : rtc (link_step (W := W)) (initial, false) (st, a) -> link_ok (st, a).
Proof.
  intros Hr. assert (forall s s', rtc (link_step (W := W)) s s' -> link_ok s -> link_ok s') as Hinv.
  { clear. induction 1; eauto using link_step_ok. }
  apply (Hinv _ _ Hr). intros H0. discriminate H0.
Qed.

(** No data passes before attestation: however the link is used, whenever
    a send or a receive succeeds, a join since the last initialisation has
    succeeded, which takes a verified response of the module. *)
Theorem data_only_after_join {W} `{MdHmac} st a dest data len out :
  rtc (link_step (W := W)) (initial, false) (st, a) ->
  fst (lora_send st dest data len) = LORA_OK \/ fst (fst (lora_receive st out)) = LORA_OK ->
  a = true.
Proof.
  intros Hr Hok. pose proof (link_invariant st a Hr) as Hl. unfold link_ok in Hl. cbn [fst snd] in Hl.
  destruct Hok as [Hok|Hok]; revert Hok.
  - unfold lora_send. destruct (g_initialised st); cbn [negb]; [|discriminate].
    destruct data; [|discriminate]. destruct (Hl eq_refl) as [->|[_ ->]]; [discriminate|auto].
  - unfold lora_receive. destruct (g_initialised st); cbn [negb]; [|discriminate].
    destruct out; [|discriminate]. destruct (Hl eq_refl) as [->|[_ ->]]; [discriminate|auto].
Qed.

(** What a join decides: from the joining state, with room in the key table
    and a clock that moves at most five seconds meanwhile, the join succeeds
    exactly when the module's answer is the HMAC of the challenge under the key
    the hub gave; the link is then joined, and else stays where it was. *)
Theorem join_iff {W} `{MdHmacOk} st keys (al : audit_log.state W) w mk t1 clk1 w1 t2 clk2 w2 :
  g_initialised st = true -> g_state st = LORA_STATE_JOINING -> (32 <= length mk)%nat ->
  attestation.wf keys -> attestation.g_initialised keys = true ->
  attestation.g_key_count keys < attestation.ATTESTATION_MAX_KEYS ->
  time_source.time_source_get_ms (audit_log.clock al) w = (t1, clk1, w1) ->
  time_source.time_source_get_ms clk1 w1 = (t2, clk2, w2) -> Z.abs (t2 - t1) <= 5000 ->
  let '(res, st', _, _, _) := lora_join st keys al w (Some mk) in
  (res = LORA_OK <->
   attestation.attestation_compute_response (module_answer_key st mk) (join_challenge t1) =
   attestation.attestation_compute_response mk (join_challenge t1)) /\
  (res = LORA_OK \/ res = LORA_ERR_JOIN_FAILED) /\
  lora_is_joined st' = bool_decide (res = LORA_OK).
Proof.
  intros Hi Hs Hlen Hwf Hki Hkc Ht1 Ht2 Hdrift. unfold lora_join. rewrite Hi, Hs. cbn [negb].
  destruct (Nat.ltb_spec (length mk) 32); [lia|].
  rewrite bool_decide_eq_false_2 by discriminate. rewrite bool_decide_eq_true_2 by reflexivity. cbn [negb].
  pose proof (attestation.register_refines_map keys (attestation.mk_key 0xF0 (take 32 mk) true) Hwf Hki Hkc) as Hreg.
  destruct (attestation.attestation_register_key _ _) as [r keys']. destruct Hreg as (_ & Hwf' & Hi' & Hl).
  rewrite Ht1, Ht2. set (answer := attestation.attestation_compute_response (module_answer_key st mk) (join_challenge t1)).
  assert (attestation.attestation_verify keys' (Some (join_challenge t1))
            (Some (attestation.mk_response answer t2 0xF0)) 5000 = attestation.ATTEST_OK <->
          answer = attestation.attestation_compute_response mk (join_challenge t1)) as Hv.
  { rewrite attestation.attestation_verify_spec; [|exact Hwf'|apply iot_hmac_length].
    cbn [attestation.responder_id attestation.response]. rewrite Hl. cbn [attestation.node_id].
    rewrite Z.eqb_refl. unfold attestation.attestation_compute_response at 1.
    split.
    - intros (_ & _ & k & [= <-] & _ & E). cbn [attestation.key] in E. rewrite take_take in E. exact E.
    - intros E. split; [exact Hi'|]. split.
      + unfold attestation.drift, join_challenge. cbn. destruct (Z.ltb_spec t2 t1); lia.
      + eexists. split; [reflexivity|]. split; [reflexivity|]. cbn [attestation.key].
        rewrite take_take. exact E. }
  destruct (attestation.attestation_verify _ _ _ _) eqn:Hres.
  1: { split; [split; [intros _; apply Hv; reflexivity|auto]|]. split; [auto|].
       unfold lora_is_joined. cbn. rewrite Hi. reflexivity. }
  all: destruct (audit_log.audit_log_add _ _ _ _ _ _) as [al' w3];
    (split; [split; [discriminate|intros E; apply Hv in E; discriminate]|]);
    (split; [auto|]); unfold lora_is_joined; cbn; rewrite Hi, Hs; reflexivity.
Qed.

(** ** The theorems on a concrete link *)

Definition demo_link : state := (snd (lora_init initial None)) <| g_state := LORA_STATE_JOINED |>.
Definition demo_message : list Z := [1; 2; 3].

Lemma demo_packet_wf : wf_packet 7 0 0 LORA_MSG_DATA demo_message.
Proof.
  split; try (unfold is_u16, is_u8, LORA_MSG_DATA; lia); [cbn; lia|].
  apply (bool_decide_unpack _). vm_compute. exact I.
Qed.

Lemma damaged_packet_rejected_witness :
  let '(res, _, _, _) := lora_parse_packet demo_link
    ([7] ++ 9 :: drop 2 (lora_build_packet true 7 0 0 LORA_MSG_DATA (Some demo_message) 3)) zero_frame in
  res = LORA_ERR_CRC_FAIL.
Proof.
  pose proof (damaged_packet_rejected 7 0 0 LORA_MSG_DATA demo_message [7] 0 9
    [0; 0; 0; 1; 3; 0; 1; 2; 3] demo_link zero_frame demo_packet_wf eq_refl ltac:(words) ltac:(lia)) as H.
  cbv zeta in H. destruct (lora_parse_packet _ _ _) as [[[res f] h] st']. apply H.
Defined.

Lemma send_delivers_witness :
  let '(res, st') := lora_send (demo_link <| g_mock_ack_fail_count := 2 |>) 7 (Some demo_message) 3 in
  let '(res2, frame, _) := lora_receive st' (Some zero_frame) in
  res = LORA_OK /\ frame = Some (carried 0 7 0 demo_message zero_frame).
Proof.
  pose proof (send_delivers (demo_link <| g_mock_ack_fail_count := 2 |>) 7 demo_message zero_frame
    eq_refl demo_packet_wf ltac:(cbn; words)) as H. cbv zeta in H.
  change (Z.of_nat (length demo_message)) with 3 in H.
  destruct (lora_send _ _ _ _) as [res st']. destruct (lora_receive st' _) as [[res2 f] st2].
  destruct H as (H1 & _ & _ & _ & H2). split; [exact H1|exact H2].
Defined.

Lemma retry_delivers_twice_witness :
  let '(_, st1) := lora_send (demo_link <| g_mock_ack_fail_count := 4 |>) 7 (Some demo_message) 3 in
  let '(_, frame1, st2) := lora_receive st1 (Some zero_frame) in
  let '(_, st3) := lora_send st2 7 (Some demo_message) 3 in
  let '(_, frame2, _) := lora_receive st3 (Some zero_frame) in
  frame1 = Some (carried 0 7 0 demo_message zero_frame) /\ frame2 = frame1.
Proof.
  pose proof (retry_delivers_twice (demo_link <| g_mock_ack_fail_count := 4 |>) 7 demo_message zero_frame
    zero_frame eq_refl demo_packet_wf eq_refl) as H. change (Z.of_nat (length demo_message)) with 3 in H.
  destruct (lora_send _ _ _ _) as [r1 st1]. destruct (lora_receive st1 _) as [[g1 f1] st2].
  destruct (lora_send st2 _ _ _) as [r2 st3]. destruct (lora_receive st3 _) as [[g2 f2] st4].
  destruct H as (_ & _ & H1 & _ & _ & H2). split; [exact H1|]. rewrite H1, H2. reflexivity.
Defined.

Definition demo_keys : attestation.state := snd (attestation.attestation_init attestation.initial).
Definition demo_audit : audit_log.state unit := audit_log.initial.

Lemma join_iff_witness :
  let '(res, _, _, _, _) := lora_join (H := mix_hmac) (snd (lora_init initial None)) demo_keys demo_audit tt
    (Some (replicate 32 9)) in
  res = LORA_OK.
Proof.
  pose proof (join_iff (H0 := mix_hmac_ok) (snd (lora_init initial None)) demo_keys demo_audit tt (replicate 32 9)
    0 (snd (fst (time_source.time_source_get_ms (audit_log.clock demo_audit) tt))) tt
    0 (snd (fst (time_source.time_source_get_ms (audit_log.clock demo_audit) tt))) tt
    eq_refl eq_refl (Nat.le_refl 32) (attestation.attestation_init_wf _) eq_refl eq_refl eq_refl eq_refl
    ltac:(cbn; lia)) as H.
  destruct (lora_join _ _ _ _ _) as [[[[res st] ks] al] w]. apply H. reflexivity.
Defined.

Lemma join_reaches {W} `{MdHmac} s st a keys (al : audit_log.state W) w mk :
  rtc (link_step (W := W)) s (st, a) ->
  exists a', rtc (link_step (W := W)) s (snd (fst (fst (fst (lora_join st keys al w mk)))), a').
Proof.
  intros Hr. destruct (lora_join st keys al w mk) as [[[[res st'] ks] al'] w'] eqn:E.
  eexists. eapply rtc_r; [exact Hr|]. exact (step_join st a keys al w mk res st' ks al' w' E).
Qed.

(** A link that is initialised and joined with the key it presents. *)
Definition demo_joined_link : state :=
  snd (fst (fst (fst (lora_join (H := mix_hmac) (snd (lora_init initial None)) demo_keys demo_audit tt
                        (Some (replicate 32 9)))))).

Lemma demo_joined_reached : exists a,
  rtc (link_step (W := unit) (H := mix_hmac)) (initial, false) (demo_joined_link, a).
Proof.
  apply join_reaches with (a := false). apply rtc_once, step_init.
Qed.

Lemma demo_joined_sends : fst (lora_send demo_joined_link 7 (Some demo_message) 3) = LORA_OK.
Proof. vm_compute. reflexivity. Qed.

Lemma data_only_after_join_witness :
  exists a, rtc (link_step (W := unit) (H := mix_hmac)) (initial, false) (demo_joined_link, a) /\ a = true.
Proof.
  destruct demo_joined_reached as [a Hr]. exists a. split; [exact Hr|].
  exact (data_only_after_join (W := unit) (H := mix_hmac) demo_joined_link a 7 (Some demo_message) 3 None Hr
    (or_introl demo_joined_sends)).
Defined.

End lora_handler.
