(* ===== verification/ConfigPortal.v ===== *)
(** The configuration portal (firmware/hub/config_portal.c): user accounts with
    a role, login sessions, and the permission checks in front of every change.

    Sessions live twice: in the portal's table [g_sessions] and in the caller's
    copy, which is what every operation receives.  Every operation writes the
    audit log, a field of the state here. *)

From S2P Require Import Prelude Hmac TimeSource AuditLog.
Import hmac.
Import audit_log(AuditEventType_t, AUDIT_AUTH_FAILURE, AUDIT_AUTH_SUCCESS, AUDIT_CONFIG_WRITE,
  AUDIT_SAFETY_LOCKED_REJECTED, AUDIT_SESSION_CREATED, AUDIT_SESSION_EXPIRED).

Module config_portal.

Definition CONFIG_PORTAL_SESSION_TOKEN_SIZE : nat := 32.
Definition CONFIG_PORTAL_CREDENTIAL_MAX_LEN : Z := 16.
Definition CONFIG_PORTAL_HASH_SIZE : nat := 32.
Definition CONFIG_PORTAL_MAX_SESSIONS : nat := 4.
Definition CONFIG_PORTAL_MAX_USERS : Z := 8.
Definition CONFIG_PORTAL_USERNAME_MAX_LEN : nat := 16.
Definition CONFIG_PORTAL_IDLE_TIMEOUT_MS : Z := 15 * 60 * 1000.

Inductive UserRole_t := ROLE_TECHNICIAN | ROLE_ADMIN.

#[export] Instance UserRole_eq_dec : EqDecision UserRole_t.
Proof. solve_decision. Defined.

Inductive ConfigPortalResult_t :=
| CONFIG_OK
| CONFIG_ERR_AUTH_FAILED
| CONFIG_ERR_NO_SESSION
| CONFIG_ERR_SESSION_EXPIRED
| CONFIG_ERR_SAFETY_LOCKED
| CONFIG_ERR_NOT_AUTHORIZED
| CONFIG_ERR_USER_NOT_FOUND
| CONFIG_ERR_USER_EXISTS
| CONFIG_ERR_USERS_FULL
| CONFIG_ERR_LAST_ADMIN
| CONFIG_ERR_PARAM_NULL
| CONFIG_ERR_NOT_INIT
| CONFIG_ERR_INTERNAL.

#[export] Instance ConfigPortalResult_eq_dec : EqDecision ConfigPortalResult_t.
Proof. solve_decision. Defined.

Record UserAccount_t := mk_user {
  username : list Z;
  credential_hash : list Z;
  role : UserRole_t;
  active : bool }.

#[export] Instance eta_user : Eta UserAccount_t := fun r =>
  mk_user (username r) (credential_hash r) (role r) (active r).

Record ConfigSession_t := mk_session {
  session_token : list Z;
  session_id : Z;
  last_active_ms : Z;
  s_active : bool;
  user_index : Z;
  s_role : UserRole_t;
  s_username : list Z }.

#[export] Instance eta_session : Eta ConfigSession_t := fun r =>
  mk_session (session_token r) (session_id r) (last_active_ms r) (s_active r) (user_index r)
    (s_role r) (s_username r).

(** [new_threshold] is a float's bit pattern. *)
Record ConfigWriteRequest_t := mk_request {
  rule_id : Z; new_threshold : Z; new_action_type : Z; new_actuator_id : Z }.

(** The storage callbacks; [load] receives the table and the count it may
    overwrite. *)
Record ConfigPortalStorage_t (W : Type) := mk_storage {
  save : option (list UserAccount_t -> Z -> W -> bool * W);
  load : option (list UserAccount_t -> Z -> Z -> W -> bool * list UserAccount_t * Z * W) }.
Arguments mk_storage {W}. Arguments save {W}. Arguments load {W}.

Record state (W : Type) := mk_state {
  g_users : list UserAccount_t;
  g_user_count : Z;
  g_initialised : bool;
  g_sessions : list ConfigSession_t;
  g_next_session_id : Z;
  g_storage : option (ConfigPortalStorage_t W);
  audit : audit_log.state W }.
Arguments mk_state {W}. Arguments g_users {W}. Arguments g_user_count {W}.
Arguments g_initialised {W}. Arguments g_sessions {W}. Arguments g_next_session_id {W}.
Arguments g_storage {W}. Arguments audit {W}.

#[export] Instance eta_state W : Eta (state W) := fun r =>
  mk_state (g_users r) (g_user_count r) (g_initialised r) (g_sessions r) (g_next_session_id r)
    (g_storage r) (audit r).

Definition zero_user : UserAccount_t := mk_user (zeros 16) (zeros 32) ROLE_TECHNICIAN false.
Definition zero_session : ConfigSession_t :=
  mk_session (zeros 32) 0 0 false 0 ROLE_TECHNICIAN (zeros 16).

Definition initial {W} : state W :=
  mk_state (replicate 8 zero_user) 0 false (replicate 4 zero_session) 1 None audit_log.initial.

(** HMAC under a constant salt. *)
Definition hash_credential `{MdHmac} (credential : list Z) : list Z :=
  iot_hmac_sha256 (cstr "config_portal_credential_salt_v2") credential.

(** An account the scan for [name] stops at: active, and its C string is
    [name]. *)
Definition is_user (name : list Z) (u : UserAccount_t) : bool :=
  active u && bool_decide (cstr_of (username u) = name).

Section config_portal.
Context {W : Type} `{MdHmac}.
Implicit Types (st : state W) (w : W) (session : option ConfigSession_t).

Definition users st : list UserAccount_t := used (g_user_count st) (g_users st).

(** The index of the user, or [None] for -1. *)
Definition find_user st (name : list Z) : option nat := find_index (is_user name) (users st).

Definition persist_users st w : W :=
  match g_storage st ≫= save with
  | Some f => snd (f (g_users st) (g_user_count st) w)
  | None => w
  end.

Definition is_admin (u : UserAccount_t) : bool := active u && bool_decide (role u = ROLE_ADMIN).

Definition count_active_admins st : Z := Z.of_nat (count_if is_admin (users st)).

Definition count_active_admins_for_remove st : Z := count_active_admins st.

(** [audit_log_add] with a string literal. *)
Definition log st w (e : AuditEventType_t) (sid rid : Z) (msg : list Z) : state W * W :=
  let '(al, w) := audit_log.audit_log_add (audit st) w e sid rid (Some msg) in
  (st <| audit := al |>, w).

Definition config_portal_init st w : bool * state W * W :=
  let st := st <| g_users := replicate 8 zero_user |> <| g_sessions := replicate 4 zero_session |>
               <| g_user_count := 0 |> <| g_next_session_id := 1 |> in
  let '(us, n, w) :=
    match g_storage st ≫= load with
    | Some f => let '(_, us, n, w) := f (g_users st) CONFIG_PORTAL_MAX_USERS 0 w in (us, n, w)
    | None => (g_users st, 0, w)
    end in
  let '(_, al, w) := audit_log.audit_log_init (audit st) w in
  (true, st <| g_users := us |> <| g_user_count := n |> <| audit := al |>
            <| g_initialised := true |>, w).

Definition config_portal_set_storage st (storage : option (ConfigPortalStorage_t W)) : state W :=
  st <| g_storage := storage |>.

Definition config_portal_validate_session st session (current_ms : Z) : ConfigPortalResult_t :=
  match session with
  | None => CONFIG_ERR_PARAM_NULL
  | Some s =>
      if negb (g_initialised st) then CONFIG_ERR_NOT_INIT
      else if negb (s_active s) then CONFIG_ERR_NO_SESSION
      else if CONFIG_PORTAL_IDLE_TIMEOUT_MS <? u64 (current_ms - last_active_ms s)
      then CONFIG_ERR_SESSION_EXPIRED
      else CONFIG_OK
  end.

(** The gate of [config_portal_add_user] once users exist: [CONFIG_OK] to go on. *)
Definition add_user_gate st w session (current_ms : Z) : ConfigPortalResult_t * state W * W :=
  if 0 <? g_user_count st then
    match session with
    | None =>
        let '(st, w) := log st w AUDIT_AUTH_FAILURE 0 0
          (cstr "Add user denied: no session (post-bootstrap)") in
        (CONFIG_ERR_NOT_AUTHORIZED, st, w)
    | Some s =>
        if negb (bool_decide (s_role s = ROLE_ADMIN)) then
          let '(st, w) := log st w AUDIT_SAFETY_LOCKED_REJECTED (session_id s) 0
            (cstr "Add user denied: not admin") in
          (CONFIG_ERR_NOT_AUTHORIZED, st, w)
        else (config_portal_validate_session st session current_ms, st, w)
    end
  else (CONFIG_OK, st, w).

(** The first inactive slot below the high-water mark, else the slot at the
    mark, which then rises; [None] when the table is full. *)
Definition alloc_slot st : option (nat * Z) :=
  match find_index (fun u => negb (active u)) (users st) with
  | Some i => Some (i, g_user_count st)
  | None =>
      if CONFIG_PORTAL_MAX_USERS <=? g_user_count st then None
      else Some (Z.to_nat (g_user_count st), u8 (g_user_count st + 1))
  end.

(** [username] and [credential] are buffers, of which the given lengths count. *)
Definition config_portal_add_user st w session (name : option (list Z)) (name_len : Z)
    (credential : option (list Z)) (credential_len : Z) (r : UserRole_t) (current_ms : Z)
  : ConfigPortalResult_t * state W * W :=
  match name, credential with
  | Some nb, Some cb =>
      if negb (g_initialised st) then (CONFIG_ERR_NOT_INIT, st, w)
      else if (name_len =? 0) || (Z.of_nat CONFIG_PORTAL_USERNAME_MAX_LEN <=? name_len)
      then (CONFIG_ERR_PARAM_NULL, st, w)
      else if (credential_len =? 0) || (CONFIG_PORTAL_CREDENTIAL_MAX_LEN <? credential_len)
      then (CONFIG_ERR_PARAM_NULL, st, w)
      else
        match add_user_gate st w session current_ms with
        | (CONFIG_OK, st, w) =>
            let n := take (Z.to_nat name_len) nb in
            if find_user st n is Some _ then (CONFIG_ERR_USER_EXISTS, st, w)
            else
              match alloc_slot st with
              | None => (CONFIG_ERR_USERS_FULL, st, w)
              | Some (slot, count) =>
                  let u := mk_user (blit n (zeros 16))
                             (hash_credential (take (Z.to_nat credential_len) cb)) r true in
                  let st := st <| g_user_count := count |>
                               <| g_users := <[slot := u]> (g_users st) |> in
                  let w := persist_users st w in
                  let '(st, w) := log st w AUDIT_CONFIG_WRITE 0 0 (cstr "User account added") in
                  (CONFIG_OK, st, w)
              end
        | other => other
        end
  | _, _ => (CONFIG_ERR_PARAM_NULL, st, w)
  end.

(** What [config_portal_remove_user] and [config_portal_change_role] check
    first: a session of an admin that is still valid. *)
Definition admin_gate st w (s : ConfigSession_t) (current_ms : Z) (msg : list Z)
  : ConfigPortalResult_t * state W * W :=
  if negb (bool_decide (s_role s = ROLE_ADMIN)) then
    let '(st, w) := log st w AUDIT_SAFETY_LOCKED_REJECTED (session_id s) 0 msg in
    (CONFIG_ERR_NOT_AUTHORIZED, st, w)
  else (config_portal_validate_session st (Some s) current_ms, st, w).

(** [g_users[i]], below the high-water mark. *)
Definition user_at st (i : nat) : UserAccount_t := default zero_user (g_users st !! i).

Definition config_portal_remove_user st w session (name : option (list Z)) (name_len current_ms : Z)
  : ConfigPortalResult_t * state W * W :=
  match session, name with
  | Some s, Some nb =>
      if negb (g_initialised st) then (CONFIG_ERR_NOT_INIT, st, w)
      else
        match admin_gate st w s current_ms (cstr "Remove user denied: not admin") with
        | (CONFIG_OK, st, w) =>
            match find_user st (take (Z.to_nat name_len) nb) with
            | None => (CONFIG_ERR_USER_NOT_FOUND, st, w)
            | Some i =>
                let u := user_at st i in
                if bool_decide (role u = ROLE_ADMIN) && (count_active_admins_for_remove st <=? 1)
                then
                  let '(st, w) := log st w AUDIT_SAFETY_LOCKED_REJECTED (session_id s) 0
                    (cstr "Remove user denied: last admin") in
                  (CONFIG_ERR_LAST_ADMIN, st, w)
                else
                  let u := u <| active := false |>
                             <| credential_hash := zeros CONFIG_PORTAL_HASH_SIZE |> in
                  let st := st <| g_users := <[i := u]> (g_users st) |> in
                  let w := persist_users st w in
                  let '(st, w) := log st w AUDIT_CONFIG_WRITE (session_id s) 0
                    (cstr "User account removed") in
                  (CONFIG_OK, st, w)
            end
        | other => other
        end
  | _, _ => (CONFIG_ERR_PARAM_NULL, st, w)
  end.

Definition config_portal_change_role st w session (name : option (list Z)) (name_len : Z)
    (new_role : UserRole_t) (current_ms : Z) : ConfigPortalResult_t * state W * W :=
  match session, name with
  | Some s, Some nb =>
      if negb (g_initialised st) then (CONFIG_ERR_NOT_INIT, st, w)
      else
        match admin_gate st w s current_ms (cstr "Role change denied: not admin") with
        | (CONFIG_OK, st, w) =>
            match find_user st (take (Z.to_nat name_len) nb) with
            | None => (CONFIG_ERR_USER_NOT_FOUND, st, w)
            | Some i =>
                let u := user_at st i in
                if bool_decide (role u = ROLE_ADMIN) &&
                   negb (bool_decide (new_role = ROLE_ADMIN)) &&
                   (count_active_admins_for_remove st <=? 1)
                then
                  let '(st, w) := log st w AUDIT_SAFETY_LOCKED_REJECTED (session_id s) 0
                    (cstr "Role change denied: last admin cannot be demoted") in
                  (CONFIG_ERR_LAST_ADMIN, st, w)
                else
                  let st := st <| g_users := <[i := u <| role := new_role |>]> (g_users st) |> in
                  let w := persist_users st w in
                  let '(st, w) := log st w AUDIT_CONFIG_WRITE (session_id s) 0
                    (cstr "User role changed") in
                  (CONFIG_OK, st, w)
            end
        | other => other
        end
  | _, _ => (CONFIG_ERR_PARAM_NULL, st, w)
  end.

(** [(uint8_t)(session_id * 31 + i * 17 + current_ms)] for each byte. *)
Definition make_token (sid current_ms : Z) : list Z :=
  map (fun i => u8 (sid * 31 + Z.of_nat i * 17 + current_ms))
    (seq 0 CONFIG_PORTAL_SESSION_TOKEN_SIZE).

Definition make_session (sid current_ms : Z) (idx : nat) (u : UserAccount_t) : ConfigSession_t :=
  mk_session (make_token sid current_ms) sid current_ms true (u8 (Z.of_nat idx)) (role u)
    (strncpy 15 (cstr_of (username u)) ++ [0]).

(** The copy in [*out_session], when there is one. *)
Definition config_portal_authenticate st w (name : option (list Z)) (name_len : Z)
    (credential : option (list Z)) (credential_len current_ms : Z) (out_session : bool)
  : ConfigPortalResult_t * option ConfigSession_t * state W * W :=
  match name, credential, out_session with
  | Some nb, Some cb, true =>
      if negb (g_initialised st) then (CONFIG_ERR_NOT_INIT, None, st, w)
      else
        match find_user st (take (Z.to_nat name_len) nb) with
        | None =>
            let '(st, w) := log st w AUDIT_AUTH_FAILURE 0 0 (cstr "Username not found") in
            (CONFIG_ERR_AUTH_FAILED, None, st, w)
        | Some idx =>
            let u := user_at st idx in
            if negb (ct_equal (hash_credential (take (Z.to_nat credential_len) cb))
                       (credential_hash u))
            then
              let '(st, w) := log st w AUDIT_AUTH_FAILURE 0 0
                (cstr "Credential authentication failed") in
              (CONFIG_ERR_AUTH_FAILED, None, st, w)
            else
              match find_index (fun s => negb (s_active s)) (g_sessions st) with
              | None =>
                  let '(st, w) := log st w AUDIT_AUTH_FAILURE 0 0
                    (cstr "No free session slots") in
                  (CONFIG_ERR_INTERNAL, None, st, w)
              | Some slot =>
                  let s := make_session (g_next_session_id st) current_ms idx u in
                  let st := st <| g_next_session_id := u8 (g_next_session_id st + 1) |>
                               <| g_sessions := <[slot := s]> (g_sessions st) |> in
                  let '(st, w) := log st w AUDIT_SESSION_CREATED (session_id s) 0
                    (cstr "Session created") in
                  let '(st, w) := log st w AUDIT_AUTH_SUCCESS (session_id s) 0 (cstr_of nb) in
                  (CONFIG_OK, Some s, st, w)
              end
        end
  | _, _, _ => (CONFIG_ERR_PARAM_NULL, None, st, w)
  end.

Definition config_portal_write st w session (request : option ConfigWriteRequest_t) (current_ms : Z)
  : ConfigPortalResult_t * state W * W :=
  match session, request with
  | Some s, Some q =>
      if negb (g_initialised st) then (CONFIG_ERR_NOT_INIT, st, w)
      else
        match config_portal_validate_session st session current_ms with
        | CONFIG_OK =>
            let '(st, w) := log st w AUDIT_CONFIG_WRITE (session_id s) (rule_id q)
              (cstr "Config write accepted") in
            (CONFIG_OK, st, w)
        | err => (err, st, w)
        end
  | _, _ => (CONFIG_ERR_PARAM_NULL, st, w)
  end.

Definition config_portal_reject_safety_locked st w session (rid current_ms : Z)
  : ConfigPortalResult_t * state W * W :=
  match session with
  | None => (CONFIG_ERR_PARAM_NULL, st, w)
  | Some s =>
      if negb (g_initialised st) then (CONFIG_ERR_NOT_INIT, st, w)
      else
        match config_portal_validate_session st session current_ms with
        | CONFIG_OK =>
            let '(st, w) := log st w AUDIT_SAFETY_LOCKED_REJECTED (session_id s) rid
              (cstr "Write rejected: SAFETY_LOCKED rule is immutable from field") in
            (CONFIG_ERR_SAFETY_LOCKED, st, w)
        | err => (err, st, w)
        end
  end.

(** The caller's copy is changed, the portal's table is not. *)
Definition config_portal_logout st w session : option ConfigSession_t * state W * W :=
  match session with
  | Some s =>
      if s_active s then
        let '(st, w) := log st w AUDIT_SESSION_EXPIRED (session_id s) 0
          (cstr "Session logged out") in
        (Some (s <| s_active := false |>
                 <| session_token := zeros CONFIG_PORTAL_SESSION_TOKEN_SIZE |>), st, w)
      else (session, st, w)
  | None => (session, st, w)
  end.

Definition config_portal_get_audit_log st (out : bool) (max_entries : Z)
  : list audit_log.AuditLogEntry_t := audit_log.audit_log_get_entries (audit st) out max_entries.

Definition config_portal_get_auth_failure_count st : Z :=
  audit_log.audit_log_get_auth_failure_count (audit st).

End config_portal.

(** ** Steps of the portal *)

(** A call of an operation, with its arguments. *)
Inductive op :=
| Add (s : option ConfigSession_t) (name : option (list Z)) (name_len : Z)
    (cred : option (list Z)) (cred_len : Z) (r : UserRole_t) (now : Z)
| Remove (s : option ConfigSession_t) (name : option (list Z)) (name_len now : Z)
| ChangeRole (s : option ConfigSession_t) (name : option (list Z)) (name_len : Z)
    (r : UserRole_t) (now : Z)
| Authenticate (name : option (list Z)) (name_len : Z) (cred : option (list Z))
    (cred_len now : Z) (out : bool)
| Write (s : option ConfigSession_t) (q : option ConfigWriteRequest_t) (now : Z)
| Reject (s : option ConfigSession_t) (rid now : Z)
| Logout (s : option ConfigSession_t).

Section steps.
Context {W : Type} `{MdHmac}.
Implicit Types (st : state W) (w : W).

Definition step st w (o : op) : ConfigPortalResult_t * state W * W :=
  match o with
  | Add s n l c cl r now => config_portal_add_user st w s n l c cl r now
  | Remove s n l now => config_portal_remove_user st w s n l now
  | ChangeRole s n l r now => config_portal_change_role st w s n l r now
  | Authenticate n l c cl now out =>
      let '(res, _, st, w) := config_portal_authenticate st w n l c cl now out in (res, st, w)
  | Write s q now => config_portal_write st w s q now
  | Reject s rid now => config_portal_reject_safety_locked st w s rid now
  | Logout s => let '(_, st, w) := config_portal_logout st w s in (CONFIG_OK, st, w)
  end.

(** A run of calls, with the result of each. *)
Fixpoint run st w (os : list op) : list (op * ConfigPortalResult_t) * state W * W :=
  match os with
  | [] => ([], st, w)
  | o :: os =>
      let '(res, st, w) := step st w o in
      let '(rs, st, w) := run st w os in ((o, res) :: rs, st, w)
  end.

Record wf st : Prop := {
  wf_users : length (g_users st) = 8%nat;
  wf_count : 0 <= g_user_count st <= CONFIG_PORTAL_MAX_USERS }.

(** What a call may do to the accounts in use. *)
Inductive account_step (us : list UserAccount_t) : list UserAccount_t -> Prop :=
| accounts_same : account_step us us
| accounts_reuse i u v :
    us !! i = Some v -> active v = false -> account_step us (<[i := u]> us)
| accounts_append u : account_step us (us ++ [u])
| accounts_remove i u h :
    us !! i = Some u -> (is_admin u = true -> (2 <= count_if is_admin us)%nat) ->
    account_step us (<[i := u <| active := false |> <| credential_hash := h |>]> us)
| accounts_role i u r :
    us !! i = Some u ->
    (is_admin u = true -> r <> ROLE_ADMIN -> (2 <= count_if is_admin us)%nat) ->
    account_step us (<[i := u <| role := r |>]> us).

(** No step takes the last administrator away. *)
Lemma account_step_admin us us' :
  account_step us us' -> (1 <= count_if is_admin us)%nat -> (1 <= count_if is_admin us')%nat.
Proof.
  intros [| i u v Hi Hv | u | i u h Hi Hlast | i u r Hi Hlast] Hone.
  - exact Hone.
  - pose proof (count_if_insert is_admin us i u v Hi) as Hc.
    assert (is_admin v = false) as Hv' by (unfold is_admin; rewrite Hv; reflexivity).
    rewrite Hv' in Hc. cbn in Hc. lia.
  - rewrite count_if_snoc. lia.
  - pose proof (count_if_insert is_admin us i (u <| active := false |> <| credential_hash := h |>)
      u Hi) as Hc.
    destruct (is_admin u); cbn in Hc; [specialize (Hlast eq_refl)|]; lia.
  - pose proof (count_if_insert is_admin us i (u <| role := r |>) u Hi) as Hc.
    destruct (is_admin u) eqn:Hu; cbn [Nat.b2n] in Hc; [|lia].
    destruct (decide (r = ROLE_ADMIN)) as [->|Hr]; [|specialize (Hlast eq_refl Hr); lia].
    assert (is_admin (u <| role := ROLE_ADMIN |>) = true) as Hr.
    { unfold is_admin in *. apply andb_true_iff in Hu as [Ha _]. cbn. rewrite Ha. reflexivity. }
    rewrite Hr in Hc. cbn [Nat.b2n] in Hc. lia.
Qed.

(** Who may change accounts: anyone on a portal that never had a user, else the
    bearer of an admin session that is not idle for too long. *)
Definition op_session (o : op) : option ConfigSession_t :=
  match o with
  | Add s _ _ _ _ _ _ | Remove s _ _ _ | ChangeRole s _ _ _ _ | Write s _ _ | Reject s _ _
  | Logout s => s
  | Authenticate _ _ _ _ _ _ => None
  end.

Definition op_time (o : op) : Z :=
  match o with
  | Add _ _ _ _ _ _ now | Remove _ _ _ now | ChangeRole _ _ _ _ now | Write _ _ now
  | Reject _ _ now | Authenticate _ _ _ _ now _ => now
  | Logout _ => 0
  end.

Definition may_manage st (o : op) : Prop :=
  (g_user_count st = 0 /\ exists s n l c cl r now, o = Add s n l c cl r now) \/
  exists s, op_session o = Some s /\ s_role s = ROLE_ADMIN /\ s_active s = true /\
    u64 (op_time o - last_active_ms s) <= CONFIG_PORTAL_IDLE_TIMEOUT_MS.

(** The fields the audit log does not hold. *)
Definition same_portal st st' : Prop :=
  g_users st' = g_users st /\ g_user_count st' = g_user_count st /\
  g_initialised st' = g_initialised st /\ g_sessions st' = g_sessions st.

Lemma log_same st w e sid rid msg :
  same_portal st (fst (log st w e sid rid msg)).
Proof.
  unfold log. destruct (audit_log.audit_log_add _ _ _ _ _ _). repeat split.
Qed.

Lemma validate_ok st s now :
  config_portal_validate_session st (Some s) now = CONFIG_OK <->
  g_initialised st = true /\ s_active s = true /\
  u64 (now - last_active_ms s) <= CONFIG_PORTAL_IDLE_TIMEOUT_MS.
Proof.
  unfold config_portal_validate_session.
  destruct (g_initialised st), (s_active s); cbn; try (split; [discriminate|tauto]).
  - destruct (Z.ltb_spec CONFIG_PORTAL_IDLE_TIMEOUT_MS (u64 (now - last_active_ms s))).
    + split; [discriminate|lia].
    + tauto.
  - split; [discriminate|]. intros (_ & ? & _). discriminate.
  - split; [discriminate|]. intros (? & _). discriminate.
  - split; [discriminate|]. intros (? & _). discriminate.
Qed.

(** What one call does: a permitted change of the accounts, and a session slot
    taken exactly when a login succeeds. *)
Definition logins (o : op) (res : ConfigPortalResult_t) : nat :=
  match o, res with Authenticate _ _ _ _ _ _, CONFIG_OK => 1 | _, _ => 0 end.

Record step_ok st (o : op) (res : ConfigPortalResult_t) st' : Prop := {
  ok_wf : wf st';
  ok_init : g_initialised st' = g_initialised st;
  ok_accounts : account_step (users st) (users st');
  ok_permitted : users st' = users st \/ may_manage st o;
  ok_sessions : length (g_sessions st') = length (g_sessions st);
  ok_logins : count_if s_active (g_sessions st') =
              (count_if s_active (g_sessions st) + logins o res)%nat }.

Lemma same_step_ok st o res st' :
  wf st -> same_portal st st' -> logins o res = 0%nat -> step_ok st o res st'.
Proof.
  intros [Hu Hc] (H1 & H2 & H3 & H4) Hl. split.
  - split; congruence.
  - exact H3.
  - unfold users. rewrite H1, H2. constructor.
  - left. unfold users. congruence.
  - congruence.
  - rewrite H4, Hl. lia.
Qed.

Lemma same_refl st : same_portal st st.
Proof. repeat split. Qed.

Lemma step_ok_same st o res st1 st2 :
  step_ok st o res st1 -> same_portal st1 st2 -> step_ok st o res st2.
Proof.
  intros [[Hu Hc] Hi Ha Hp Hs Hl] (H1 & H2 & H3 & H4).
  assert (users st2 = users st1) as E by (unfold users; congruence).
  split; [split|..]; try rewrite E; try rewrite H4; congruence.
Qed.

Lemma step_ok_from st st1 o res st2 :
  same_portal st st1 -> step_ok st1 o res st2 -> step_ok st o res st2.
Proof.
  intros (H1 & H2 & H3 & H4) [Hwf Hi Ha Hp Hs Hl].
  assert (users st1 = users st) as E by (unfold users; congruence).
  split; try rewrite <- E; auto; try congruence.
  destruct Hp as [Hp|Hp]; [left; exact Hp|right]. unfold may_manage in *. rewrite <- H2. exact Hp.
Qed.

(** The user found is in use and is the one the code reads. *)
Lemma find_user_at st name i :
  wf st -> find_user st name = Some i ->
  users st !! i = Some (user_at st i) /\ (i < Z.to_nat (g_user_count st))%nat /\
  active (user_at st i) = true.
Proof.
  intros [Hu Hc] Hf. unfold find_user in Hf. pose proof (find_index_lt _ _ _ Hf) as Hlt.
  apply find_index_lookup in Hf as (u & Hi & Hp).
  unfold users in *. rewrite used_length in Hlt by (unfold CONFIG_PORTAL_MAX_USERS in *; lia).
  unfold user_at. unfold used in Hi. rewrite lookup_take_lt in Hi by exact Hlt.
  rewrite Hi. unfold used. rewrite lookup_take_lt, Hi by exact Hlt. cbn.
  unfold is_user in Hp. apply andb_true_iff in Hp as [Ha _]. auto.
Qed.

Lemma admin_gate_inv st w s now msg res st' w' :
  admin_gate st w s now msg = (res, st', w') ->
  same_portal st st' /\
  (res = CONFIG_OK -> s_role s = ROLE_ADMIN /\ s_active s = true /\
     u64 (now - last_active_ms s) <= CONFIG_PORTAL_IDLE_TIMEOUT_MS).
Proof.
  unfold admin_gate. case_bool_decide as Hr; cbn [negb]; intros Hg.
  - assert (config_portal_validate_session st (Some s) now = res /\ st = st') as [Hv ->]
      by (split; congruence).
    split; [apply same_refl|]. intros ->. apply validate_ok in Hv. tauto.
  - pose proof (log_same st w AUDIT_SAFETY_LOCKED_REJECTED (session_id s) 0 msg) as Hs.
    destruct (log _ _ _ _ _ _) as [st1 w1]. split; [|congruence].
    replace st' with st1 by congruence. exact Hs.
Qed.

Lemma add_gate_inv st w so now res st' w' :
  add_user_gate st w so now = (res, st', w') ->
  same_portal st st' /\
  (res = CONFIG_OK -> g_user_count st <= 0 \/ exists s, so = Some s /\ s_role s = ROLE_ADMIN /\
     s_active s = true /\ u64 (now - last_active_ms s) <= CONFIG_PORTAL_IDLE_TIMEOUT_MS).
Proof.
  unfold add_user_gate. destruct (Z.ltb_spec 0 (g_user_count st)) as [Hc|Hc].
  2: { intros [= <- <- <-]. split; [apply same_refl|auto]. }
  destruct so as [s|].
  - intros Hg. assert (admin_gate st w s now (cstr "Add user denied: not admin") = (res, st', w'))
      as Hg' by exact Hg.
    apply admin_gate_inv in Hg' as [Hs Ho]. split; [exact Hs|]. intros Hr. right. eauto.
  - match goal with |- context [log ?a ?b ?c ?d ?e ?f] => pose proof (log_same a b c d e f) as Hs end.
    destruct (log _ _ _ _ _ _) as [st1 w1]. intros Hg. split; [|congruence].
    replace st' with st1 by congruence. exact Hs.
Qed.

(** Writing one account in use. *)
Lemma update_user_ok st o res i u :
  wf st -> (i < Z.to_nat (g_user_count st))%nat ->
  account_step (users st) (<[i := u]> (users st)) -> may_manage st o -> logins o res = 0%nat ->
  step_ok st o res (st <| g_users := <[i := u]> (g_users st) |>).
Proof.
  intros [Hu Hc] Hi Ha Hp Hl.
  assert (users (st <| g_users := <[i := u]> (g_users st) |>) = <[i := u]> (users st)) as E
    by (unfold users; cbn; apply used_store_inside; exact Hi).
  split; cbn; [split; cbn; [rewrite length_insert|]; assumption|reflexivity|rewrite E; exact Ha| |
    reflexivity|rewrite Hl; lia].
  right. exact Hp.
Qed.

(** Allocating a slot for a new account. *)
Lemma alloc_user_ok st o res slot count u :
  wf st -> alloc_slot st = Some (slot, count) -> may_manage st o -> logins o res = 0%nat ->
  step_ok st o res (st <| g_user_count := count |> <| g_users := <[slot := u]> (g_users st) |>).
Proof.
  intros [Hu Hc] Hs Hp Hl. unfold alloc_slot in Hs. unfold CONFIG_PORTAL_MAX_USERS in *.
  destruct (find_index _ (users st)) as [i|] eqn:Hf.
  - injection Hs as <- <-. pose proof (find_index_lt _ _ _ Hf) as Hlt.
    apply find_index_lookup in Hf as (v & Hi & Hv). apply negb_true_iff in Hv.
    unfold users in Hlt. rewrite used_length in Hlt by lia.
    apply (step_ok_same _ _ _ (st <| g_users := <[i := u]> (g_users st) |>)); [|repeat split].
    apply update_user_ok; auto; [split; auto|]. eapply accounts_reuse; eauto.
  - destruct (Z.leb_spec 8 (g_user_count st)); [discriminate|]. injection Hs as <- <-.
    rewrite u8_small by (unfold is_u8; lia).
    assert (users (st <| g_user_count := g_user_count st + 1 |>
      <| g_users := <[Z.to_nat (g_user_count st) := u]> (g_users st) |>) = users st ++ [u]) as E.
    { unfold users. cbn. apply (used_store_append (g_user_count st) u (g_users st)). lia. }
    split; cbn; [split; cbn; [rewrite length_insert; assumption|unfold CONFIG_PORTAL_MAX_USERS; lia]
      |reflexivity| |right; exact Hp|reflexivity|rewrite Hl; lia].
    rewrite E. constructor.
Qed.

(** Follow a write to the audit log. *)
Ltac follow_log :=
  match goal with
  | |- context [log ?a ?b ?c ?d ?e ?f] =>
      let Hs := fresh "Hs" in
      pose proof (log_same a b c d e f) as Hs;
      destruct (log a b c d e f) as [? ?]; cbn [fst snd] in *
  end.

Lemma add_ok st w s n l c cl r now :
  wf st -> let '(res, st', _) := config_portal_add_user st w s n l c cl r now in
  step_ok st (Add s n l c cl r now) res st'.
Proof.
  intros Hwf. unfold config_portal_add_user.
  destruct n as [nb|], c as [cb|]; try (apply same_step_ok; auto using same_refl).
  destruct (g_initialised st); cbn [negb]; [|apply same_step_ok; auto using same_refl].
  destruct (_ || _); [apply same_step_ok; auto using same_refl|].
  destruct (_ || _); [apply same_step_ok; auto using same_refl|].
  destruct (add_user_gate st w s now) as [[res st1] w1] eqn:Hg.
  apply add_gate_inv in Hg as [Hsame Hok].
  destruct res; try (apply same_step_ok; auto; fail).
  destruct (find_user st1 _); [apply same_step_ok; auto|].
  destruct (alloc_slot st1) as [[slot count]|] eqn:Hs; [|apply same_step_ok; auto].
  follow_log. eapply step_ok_same; [|eassumption]. apply (step_ok_from st st1 _ _ _ Hsame).
  destruct Hsame as (H1 & H2 & _). destruct Hwf as [Hu Hc].
  apply alloc_user_ok; auto; [split; congruence|].
  destruct (Hok eq_refl) as [H0|(s' & -> & Hs')]; [left; split; [lia|eauto 10]|right; eauto].
Qed.

Lemma remove_ok st w s n l now :
  wf st -> let '(res, st', _) := config_portal_remove_user st w s n l now in
  step_ok st (Remove s n l now) res st'.
Proof.
  intros Hwf. unfold config_portal_remove_user.
  destruct s as [s|], n as [nb|]; try (apply same_step_ok; auto using same_refl).
  destruct (g_initialised st); cbn [negb]; [|apply same_step_ok; auto using same_refl].
  destruct (admin_gate st w s now _) as [[res st1] w1] eqn:Hg.
  apply admin_gate_inv in Hg as [Hsame Hok].
  destruct res; try (apply same_step_ok; auto; fail).
  assert (wf st1) as Hwf1 by (destruct Hsame as (H1 & H2 & _), Hwf; split; congruence).
  destruct (find_user st1 _) as [i|] eqn:Hf; [|apply same_step_ok; auto].
  destruct (find_user_at _ _ _ Hwf1 Hf) as (Hi & Hlt & Hact).
  destruct (bool_decide _ && _) eqn:Hlast.
  - follow_log. apply (step_ok_from st st1 _ _ _ Hsame). apply same_step_ok; auto.
  - follow_log. eapply step_ok_same; [|eassumption]. apply (step_ok_from st st1 _ _ _ Hsame).
    apply update_user_ok; auto; [|right; exists s; cbn; auto].
    apply accounts_remove; [exact Hi|]. intros Ha. unfold is_admin in Ha. rewrite Hact in Ha.
    cbn [andb] in Ha. rewrite Ha in Hlast. cbn [andb] in Hlast. apply Z.leb_gt in Hlast.
    unfold count_active_admins_for_remove, count_active_admins in Hlast. lia.
Qed.

Lemma role_ok st w s n l r now :
  wf st -> let '(res, st', _) := config_portal_change_role st w s n l r now in
  step_ok st (ChangeRole s n l r now) res st'.
Proof.
  intros Hwf. unfold config_portal_change_role.
  destruct s as [s|], n as [nb|]; try (apply same_step_ok; auto using same_refl).
  destruct (g_initialised st); cbn [negb]; [|apply same_step_ok; auto using same_refl].
  destruct (admin_gate st w s now _) as [[res st1] w1] eqn:Hg.
  apply admin_gate_inv in Hg as [Hsame Hok].
  destruct res; try (apply same_step_ok; auto; fail).
  assert (wf st1) as Hwf1 by (destruct Hsame as (H1 & H2 & _), Hwf; split; congruence).
  destruct (find_user st1 _) as [i|] eqn:Hf; [|apply same_step_ok; auto].
  destruct (find_user_at _ _ _ Hwf1 Hf) as (Hi & Hlt & Hact).
  destruct (bool_decide _ && _ && _) eqn:Hlast.
  - follow_log. apply (step_ok_from st st1 _ _ _ Hsame). apply same_step_ok; auto.
  - follow_log. eapply step_ok_same; [|eassumption]. apply (step_ok_from st st1 _ _ _ Hsame).
    apply update_user_ok; auto; [|right; exists s; cbn; auto].
    apply accounts_role; [exact Hi|]. intros Ha Hr. unfold is_admin in Ha. rewrite Hact in Ha.
    cbn [andb] in Ha. rewrite Ha in Hlast. rewrite bool_decide_eq_false_2 in Hlast by exact Hr.
    cbn [andb negb] in Hlast. apply Z.leb_gt in Hlast.
    unfold count_active_admins_for_remove, count_active_admins in Hlast. lia.
Qed.

Lemma session_slot_ok st o s slot next :
  wf st -> find_index (fun s => negb (s_active s)) (g_sessions st) = Some slot ->
  s_active s = true -> logins o CONFIG_OK = 1%nat ->
  step_ok st o CONFIG_OK
    (st <| g_next_session_id := next |> <| g_sessions := <[slot := s]> (g_sessions st) |>).
Proof.
  intros [Hu Hc] Hf Hs Hl. apply find_index_lookup in Hf as (v & Hi & Hv).
  apply negb_true_iff in Hv.
  pose proof (count_if_insert s_active _ _ s v Hi) as Hcount. rewrite Hs, Hv in Hcount.
  cbn [Nat.b2n] in Hcount.
  split; cbn; [split; assumption|reflexivity|constructor|left; reflexivity|apply length_insert|].
  cbn in Hl. rewrite Hl. lia.
Qed.

Lemma authenticate_ok st w n l c cl now out :
  wf st -> let '(res, _, st', _) := config_portal_authenticate st w n l c cl now out in
  step_ok st (Authenticate n l c cl now out) res st'.
Proof.
  intros Hwf. unfold config_portal_authenticate.
  destruct n as [nb|], c as [cb|], out; try (apply same_step_ok; auto using same_refl).
  destruct (g_initialised st); cbn [negb]; [|apply same_step_ok; auto using same_refl].
  destruct (find_user st _) as [i|]; [|follow_log; apply same_step_ok; auto].
  destruct (negb _); [follow_log; apply same_step_ok; auto|].
  destruct (find_index _ (g_sessions st)) as [slot|] eqn:Hf; [|follow_log; apply same_step_ok; auto].
  follow_log. follow_log. eapply step_ok_same; [|eassumption]. eapply step_ok_same; [|eassumption].
  apply session_slot_ok; auto.
Qed.

Lemma step_is_ok st w o :
  wf st -> let '(res, st', _) := step st w o in step_ok st o res st'.
Proof.
  intros Hwf. destruct o as [s n l c cl r now|s n l now|s n l r now|n l c cl now out|s q now
    |s rid now|s]; cbn [step].
  - apply add_ok, Hwf.
  - apply remove_ok, Hwf.
  - apply role_ok, Hwf.
  - pose proof (authenticate_ok st w n l c cl now out Hwf) as Ha.
    destruct (config_portal_authenticate _ _ _ _ _ _ _ _) as [[[res s] st'] w']. exact Ha.
  - unfold config_portal_write. destruct s, q; try (apply same_step_ok; auto using same_refl).
    destruct (negb _); [apply same_step_ok; auto using same_refl|].
    destruct (config_portal_validate_session _ _ _); try follow_log;
    apply same_step_ok; auto using same_refl.
  - unfold config_portal_reject_safety_locked.
    destruct s; try (apply same_step_ok; auto using same_refl).
    destruct (negb _); [apply same_step_ok; auto using same_refl|].
    destruct (config_portal_validate_session _ _ _); try follow_log;
    apply same_step_ok; auto using same_refl.
  - unfold config_portal_logout. destruct s as [s|]; [destruct (s_active s); [follow_log|]|];
    apply same_step_ok; auto using same_refl.
Qed.

(** What holds after a call holds after a run. *)
Lemma portal_invariant (P : state W -> Prop) :
  (forall st w o, wf st -> P st -> let '(_, st', _) := step st w o in P st') ->
  forall os st w, wf st -> P st -> let '(_, st', _) := run st w os in wf st' /\ P st'.
Proof.
  intros Hstep os. induction os as [|o os IH]; intros st w Hwf HP; cbn [run]; [auto|].
  pose proof (Hstep st w o Hwf HP) as HP'. pose proof (step_is_ok st w o Hwf) as Hok.
  destruct (step st w o) as [[res st1] w1]. specialize (IH st1 w1 (ok_wf _ _ _ _ Hok) HP').
  destruct (run st1 w1 os) as [[rs st2] w2]. exact IH.
Qed.

(** The logins that succeeded in a run. *)
Fixpoint successful_logins (rs : list (op * ConfigPortalResult_t)) : nat :=
  match rs with
  | [] => 0
  | (o, res) :: rs => logins o res + successful_logins rs
  end.

Lemma run_logins os st w :
  wf st -> let '(rs, st', _) := run st w os in
  count_if s_active (g_sessions st') =
    (count_if s_active (g_sessions st) + successful_logins rs)%nat /\
  length (g_sessions st') = length (g_sessions st).
Proof.
  revert st w. induction os as [|o os IH]; intros st w Hwf; cbn [run].
  { cbn. split; [lia|reflexivity]. }
  pose proof (step_is_ok st w o Hwf) as Hok.
  destruct (step st w o) as [[res st1] w1]. destruct Hok as [Hwf1 _ _ _ Hs Hl]. specialize (IH st1 w1 Hwf1).
  destruct (run st1 w1 os) as [[rs st2] w2]. destruct IH as [IH1 IH2].
  cbn [successful_logins]. split; [lia|congruence].
Qed.

(** ** Properties *)

(** C17. The portal never loses its last administrator: whatever calls are
    made, with whatever sessions, at least one active admin account remains
    once there is one. *)
Theorem last_admin_kept os st w :
  wf st -> 1 <= count_active_admins st ->
  let '(_, st', _) := run st w os in 1 <= count_active_admins st'.
Proof.
  intros Hwf Hone.
  pose proof (portal_invariant (fun st => 1 <= count_active_admins st)) as Hinv.
  assert (forall st w o, wf st -> 1 <= count_active_admins st ->
    let '(_, st', _) := step st w o in 1 <= count_active_admins st') as Hstep.
  { intros st1 w1 o Hwf1 H1. pose proof (step_is_ok st1 w1 o Hwf1) as Hok.
    destruct (step st1 w1 o) as [[res st2] w2]. destruct Hok as [_ _ Ha _ _ _].
    unfold count_active_admins in *. apply account_step_admin in Ha; lia. }
  specialize (Hinv Hstep os st w Hwf Hone). destruct (run st w os) as [[rs st'] w']. tauto.
Qed.

(** C18. Accounts change only by permission: a call that changes the account
    table carries an admin session that is active and was used in the last 15
    minutes, or is the first registration on a portal that never had a user. *)
Theorem accounts_change_by_admin o st w res st' w' :
  wf st -> step st w o = (res, st', w') -> users st' <> users st ->
  (g_user_count st = 0 /\ exists s n l c cl r now, o = Add s n l c cl r now) \/
  exists s, op_session o = Some s /\ s_role s = ROLE_ADMIN /\ s_active s = true /\
    u64 (op_time o - last_active_ms s) <= CONFIG_PORTAL_IDLE_TIMEOUT_MS.
Proof.
  intros Hwf Hs Hne. pose proof (step_is_ok st w o Hwf) as Hok. rewrite Hs in Hok.
  destruct Hok as [_ _ _ [Hp|Hp] _ _]; [contradiction|exact Hp].
Qed.

(** Sessions are never given back: logging out marks the caller's copy
    and leaves the portal's slot taken, so between two initialisations at most
    four logins succeed, however many sessions are closed or expire. *)
Theorem at_most_four_logins os st w :
  wf st -> length (g_sessions st) = CONFIG_PORTAL_MAX_SESSIONS ->
  let '(rs, _, _) := run st w os in (successful_logins rs <= 4)%nat.
Proof.
  intros Hwf Hlen. pose proof (run_logins os st w Hwf) as Hl.
  destruct (run st w os) as [[rs st'] w']. destruct Hl as [Hl Hs].
  pose proof (count_if_le s_active (g_sessions st')) as Hle.
  unfold CONFIG_PORTAL_MAX_SESSIONS in Hlen. lia.
Qed.

Context {HOk : MdHmacOk H}.

(** A login succeeds exactly when the portal is up, the name is that of an
    active account, the credential hashes to the stored hash and a session slot
    is free; the session then carries the account's role. *)
Theorem authenticate_iff st w nb l cb cl now res so st' w' :
  wf st -> Forall (fun u => length (credential_hash u) = 32%nat) (users st) ->
  config_portal_authenticate st w (Some nb) l (Some cb) cl now true = (res, so, st', w') ->
  (res = CONFIG_OK <->
   g_initialised st = true /\
   (exists i u, find_user st (take (Z.to_nat l) nb) = Some i /\ users st !! i = Some u /\
      credential_hash u = hash_credential (take (Z.to_nat cl) cb)) /\
   exists s, s ∈ g_sessions st /\ s_active s = false) /\
  (res = CONFIG_OK -> exists i u s, find_user st (take (Z.to_nat l) nb) = Some i /\
     users st !! i = Some u /\ so = Some s /\ s_active s = true /\ s_role s = role u).
Proof.
  intros Hwf Hhash. unfold config_portal_authenticate.
  destruct (g_initialised st); cbn [negb].
  2: { intros [= <- <- <- <-]. split; [split; [discriminate|intros [? _]; discriminate]|discriminate]. }
  destruct (find_user st _) as [i|] eqn:Hf.
  2: { follow_log. intros [= <- <- <- <-]. split; [split|]; try discriminate.
       intros (_ & (i & u & Hi & _) & _). discriminate. }
  destruct (find_user_at _ _ _ Hwf Hf) as (Hi & _ & _).
  assert (length (credential_hash (user_at st i)) = 32%nat) as Hlen
    by (eapply Forall_lookup_1 in Hhash; eauto).
  rewrite ct_equal_spec by (rewrite Hlen; apply iot_hmac_length).
  case_bool_decide as Heq; cbn [negb].
  2: { follow_log. intros [= <- <- <- <-]. split; [split|]; try discriminate.
       intros (_ & (i' & u & Hi' & Hu & Hh) & _). congruence. }
  destruct (find_index _ (g_sessions st)) as [slot|] eqn:Hs.
  - do 2 follow_log. intros [= <- <- <- <-]. split; [|intros _; repeat eexists; eauto].
    split; [intros _|reflexivity]. split; [reflexivity|]. split; [eauto 10|].
    apply find_index_lookup in Hs as (v & Hin & Hact). apply negb_true_iff in Hact.
    eauto using list_elem_of_lookup_2.
  - follow_log. intros [= <- <- <- <-]. split; [split|]; try discriminate.
    intros (_ & _ & v & Hin & Hact). rewrite find_index_None in Hs. specialize (Hs v Hin).
    rewrite Hact in Hs. discriminate.
Qed.

(** A session outlives its account: no call, removal or demotion of the
    user included, changes the answer [config_portal_validate_session] gives
    for a session, nor the role the session carries. *)
Theorem session_outlives_account os st w session now :
  wf st -> let '(_, st', _) := run st w os in
  config_portal_validate_session st' session now = config_portal_validate_session st session now.
Proof.
  intros Hwf. pose proof (portal_invariant (fun st' => g_initialised st' = g_initialised st)) as Hinv.
  assert (forall st1 w o, wf st1 -> g_initialised st1 = g_initialised st ->
    let '(_, st', _) := step st1 w o in g_initialised st' = g_initialised st) as Hstep.
  { intros st1 w1 o Hwf1 H1. pose proof (step_is_ok st1 w1 o Hwf1) as Hok.
    destruct (step st1 w1 o) as [[res st2] w2]. rewrite (ok_init _ _ _ _ Hok). exact H1. }
  specialize (Hinv Hstep os st w Hwf eq_refl). destruct (run st w os) as [[rs st'] w'].
  unfold config_portal_validate_session. destruct Hinv as [_ ->]. reflexivity.
Qed.

(** The configuration write is a stub: it answers [CONFIG_OK] to every
    request of a valid session, a technician's included, whatever the class of
    the rule, and changes nothing but the audit log. *)
Theorem write_accepts_any_rule st w s q now :
  config_portal_validate_session st (Some s) now = CONFIG_OK ->
  let '(res, st', _) := config_portal_write st w (Some s) (Some q) now in
  res = CONFIG_OK /\ same_portal st st'.
Proof.
  intros Hv. unfold config_portal_write. rewrite Hv. apply validate_ok in Hv as [-> _]. cbn [negb].
  pose proof (log_same st w AUDIT_CONFIG_WRITE (session_id s) (rule_id q)
    (cstr "Config write accepted")) as Hs.
  destruct (log _ _ _ _ _ _) as [st1 w1]. auto.
Qed.

End steps.

(** ** A portal with one administrator *)

Definition demo_name : list Z := cstr "root".
Definition demo_cred : list Z := cstr "secret".

Definition demo_portal : state unit :=
  let '(_, st, w) := config_portal_init initial tt in
  let '(_, st, _) := config_portal_add_user (H := mix_hmac) st w None (Some demo_name) 4
    (Some demo_cred) 6 ROLE_ADMIN 0 in st.

Definition demo_login : op := Authenticate (Some demo_name) 4 (Some demo_cred) 6 1000 true.

Definition demo_session : ConfigSession_t := make_session 1 1000 0 (user_at demo_portal 0).

Lemma demo_portal_wf : wf demo_portal.
Proof. split; [vm_compute; reflexivity|]. vm_compute. split; discriminate. Qed.

Lemma last_admin_kept_witness :
  let '(_, st', _) := run (H := mix_hmac) demo_portal tt
    [demo_login; ChangeRole (Some demo_session) (Some demo_name) 4 ROLE_TECHNICIAN 2000;
     Remove (Some demo_session) (Some demo_name) 4 2000] in 1 <= count_active_admins st'.
Proof.
  apply (last_admin_kept (H := mix_hmac)
    [demo_login; ChangeRole (Some demo_session) (Some demo_name) 4 ROLE_TECHNICIAN 2000;
     Remove (Some demo_session) (Some demo_name) 4 2000] demo_portal tt demo_portal_wf).
  vm_compute. discriminate.
Defined.

Definition demo_add : op :=
  Add (Some demo_session) (Some (cstr "tech")) 4 (Some (cstr "pw")) 2 ROLE_TECHNICIAN 2000.

Lemma accounts_change_by_admin_witness :
  (g_user_count demo_portal = 0 /\ exists s n l c cl r now, demo_add = Add s n l c cl r now) \/
  exists s, op_session demo_add = Some s /\ s_role s = ROLE_ADMIN /\ s_active s = true /\
    u64 (op_time demo_add - last_active_ms s) <= CONFIG_PORTAL_IDLE_TIMEOUT_MS.
Proof.
  refine (accounts_change_by_admin (H := mix_hmac) demo_add demo_portal tt CONFIG_OK
    (snd (fst (step (H := mix_hmac) demo_portal tt demo_add))) tt demo_portal_wf _ _).
  - vm_compute. reflexivity.
  - intros Heq. apply (f_equal length) in Heq. vm_compute in Heq. discriminate.
Defined.

(** Six calls, five of them logins: the fifth login finds no slot. *)
Definition demo_logins : list op :=
  [demo_login; Logout (Some demo_session); demo_login; demo_login; demo_login; demo_login].

Lemma at_most_four_logins_witness :
  (let '(rs, _, _) := run (H := mix_hmac) demo_portal tt demo_logins in
   (successful_logins rs <= 4)%nat) /\
  bool_decide (successful_logins (fst (fst (run (H := mix_hmac) demo_portal tt demo_logins))) = 4%nat)
    = true.
Proof.
  split; [|vm_compute; reflexivity].
  exact (at_most_four_logins (H := mix_hmac) demo_logins demo_portal tt demo_portal_wf eq_refl).
Defined.

Lemma authenticate_iff_witness :
  fst (fst (fst (config_portal_authenticate (H := mix_hmac) demo_portal tt (Some demo_name) 4
    (Some demo_cred) 6 1000 true))) = CONFIG_OK /\
  exists s, snd (fst (fst (config_portal_authenticate (H := mix_hmac) demo_portal tt
    (Some demo_name) 4 (Some demo_cred) 6 1000 true))) = Some s /\ s_role s = ROLE_ADMIN.
Proof.
  destruct (config_portal_authenticate (H := mix_hmac) demo_portal tt (Some demo_name) 4
    (Some demo_cred) 6 1000 true) as [[[res so] st'] w'] eqn:Ha.
  assert (Forall (fun u => length (credential_hash u) = 32%nat) (users demo_portal)) as Hlen
    by (vm_compute; repeat constructor).
  destruct (authenticate_iff (HOk := mix_hmac_ok) demo_portal tt demo_name 4 demo_cred 6 1000
    res so st' w' demo_portal_wf Hlen Ha) as [Hok Hrole].
  assert (res = CONFIG_OK) as Hres.
  { apply Hok. split; [vm_compute; reflexivity|]. split.
    - exists 0%nat, (user_at demo_portal 0). split_and!; vm_compute; reflexivity.
    - exists zero_session. split; [|reflexivity]. vm_compute. left. }
  split; [exact Hres|]. destruct (Hrole Hres) as (i & u & s & Hi & Hu & Hs & _ & Hr).
  exists s. split; [exact Hs|]. assert (i = 0%nat) as -> by (vm_compute in Hi; congruence).
  rewrite Hr. vm_compute in Hu. injection Hu as <-. reflexivity.
Defined.

(** The first administrator registers a second one and removes itself. *)
Definition demo_handover : list op :=
  [Add (Some demo_session) (Some (cstr "boss")) 4 (Some (cstr "pw")) 2 ROLE_ADMIN 2000;
   Remove (Some demo_session) (Some demo_name) 4 2000].

Lemma session_outlives_account_witness :
  let '(_, st', _) := run (H := mix_hmac) demo_portal tt demo_handover in
  config_portal_validate_session st' (Some demo_session) 3000 =
  config_portal_validate_session demo_portal (Some demo_session) 3000.
Proof.
  exact (session_outlives_account (H := mix_hmac) demo_handover demo_portal tt (Some demo_session)
    3000 demo_portal_wf).
Defined.

Lemma handover_removes :
  find_user (snd (fst (run (H := mix_hmac) demo_portal tt demo_handover))) demo_name = None.
Proof. vm_compute. reflexivity. Qed.

Lemma write_accepts_any_rule_witness :
  fst (fst (config_portal_write (H := mix_hmac) demo_portal tt (Some demo_session)
    (Some (mk_request 7 0 0 0)) 2000)) = CONFIG_OK.
Proof.
  assert (config_portal_validate_session demo_portal (Some demo_session) 2000 = CONFIG_OK) as Hv
    by (vm_compute; reflexivity).
  pose proof (write_accepts_any_rule (H := mix_hmac) demo_portal tt demo_session
    (mk_request 7 0 0 0) 2000 Hv) as Hw.
  destruct (config_portal_write (H := mix_hmac) demo_portal tt (Some demo_session)
    (Some (mk_request 7 0 0 0)) 2000) as [[res st] w].
  exact (proj1 Hw).
Defined.

End config_portal.
