(* ===== verification/Historian.v ===== *)
(** The historian (firmware/hub/historian.c): a ring of encrypted records that
    keeps the last thirty days of readings, flushed to storage in batches.

    [HISTORIAN_CAPACITY] is the production value 16384 of the header.  The
    storage callbacks are functions of an outside world; [load] receives the
    ring and counters it may overwrite. *)

From S2P Require Import Prelude Float32 Hmac Ccm.
Import float32 ccm.

Module historian.

Definition HISTORIAN_CAPACITY : Z := 16384.
Definition HISTORIAN_CCM_TAG_SIZE : nat := 16.
Definition HISTORIAN_CCM_NONCE_SIZE : nat := 13.
Definition HISTORIAN_KEY_SIZE : nat := 16.
Definition HISTORIAN_ONDISK_RECORD_SIZE : Z := 40.
Definition HISTORIAN_30_DAY_MS : Z := 30 * 24 * 60 * 60 * 1000.
Definition HISTORIAN_FLUSH_INTERVAL_MS : Z := 60 * 1000.
Definition HISTORIAN_PENDING_MAX : Z := 64.

Record HistorianRecord_t := mk_record {
  timestamp_ms : Z;
  value : float;
  sequence : Z;
  node_id : Z;
  metric_id : Z;
  domain_profile_id : Z;
  reserved : list Z }.

Record HistorianStats_t := mk_stats {
  records_written : Z;
  records_evicted : Z;
  write_errors : Z;
  read_errors : Z;
  enc_errors : Z;
  dec_errors : Z }.

#[export] Instance eta_stats : Eta HistorianStats_t := fun r =>
  mk_stats (records_written r) (records_evicted r) (write_errors r) (read_errors r)
    (enc_errors r) (dec_errors r).

Record HistorianQuery_t := mk_query {
  time_start_ms : Z; time_end_ms : Z; q_node_id : Z; q_metric_id : Z }.

Record HistorianStorage_t (W : Type) := mk_storage {
  append : option (Z -> list Z -> Z -> Z -> W -> bool * W);
  load : option (list (list Z) -> Z -> Z -> Z -> W -> bool * list (list Z) * Z * Z * W) }.
Arguments mk_storage {W}. Arguments append {W}. Arguments load {W}.

Record state (W : Type) := mk_state {
  s_ring : list (list Z);
  s_write_index : Z;
  s_count : Z;
  s_pending_start : Z;
  s_pending_count : Z;
  s_last_flush_ms : Z;
  s_key : list Z;
  s_key_set : bool;
  s_storage : option (HistorianStorage_t W);
  s_stats : HistorianStats_t;
  s_initialised : bool }.
Arguments mk_state {W}. Arguments s_ring {W}. Arguments s_write_index {W}. Arguments s_count {W}.
Arguments s_pending_start {W}. Arguments s_pending_count {W}. Arguments s_last_flush_ms {W}.
Arguments s_key {W}. Arguments s_key_set {W}. Arguments s_storage {W}. Arguments s_stats {W}.
Arguments s_initialised {W}.

#[export] Instance eta_state W : Eta (state W) := fun r =>
  mk_state (s_ring r) (s_write_index r) (s_count r) (s_pending_start r) (s_pending_count r)
    (s_last_flush_ms r) (s_key r) (s_key_set r) (s_storage r) (s_stats r) (s_initialised r).

Definition zero_stats : HistorianStats_t := mk_stats 0 0 0 0 0 0.
Definition zero_slot : list Z := zeros 40.
Definition zero_ring : list (list Z) := replicate (Z.to_nat HISTORIAN_CAPACITY) zero_slot.

Definition initial {W} : state W :=
  mk_state zero_ring 0 0 0 0 0 (zeros 16) false None zero_stats false.

(** The 24 bytes of the packed struct on a little-endian target. *)
Definition record_bytes (r : HistorianRecord_t) : list Z :=
  le_bytes 8 (timestamp_ms r) ++ le_bytes 4 (value r) ++ le_bytes 4 (sequence r) ++
  le_bytes 2 (node_id r) ++ [metric_id r; domain_profile_id r] ++ take 4 (reserved r).

(** The struct read back from its bytes. *)
Definition record_of (b : list Z) : HistorianRecord_t :=
  mk_record (le_value (take 8 b)) (le_value (take 4 (drop 8 b))) (le_value (take 4 (drop 12 b)))
    (le_value (take 2 (drop 16 b))) (nth 18 b 0) (nth 19 b 0) (take 4 (drop 20 b)).

(** Ring position, counter, zero padding. *)
Definition build_nonce (record_index counter : Z) : list Z :=
  be_bytes 4 record_index ++ be_bytes 4 counter ++ zeros (HISTORIAN_CCM_NONCE_SIZE - 8).

Definition bump_written (s : HistorianStats_t) := s <| records_written := u32 (records_written s + 1) |>.
Definition bump_evicted (s : HistorianStats_t) := s <| records_evicted := u32 (records_evicted s + 1) |>.
Definition bump_write_error (s : HistorianStats_t) := s <| write_errors := u32 (write_errors s + 1) |>.
Definition bump_enc_error (s : HistorianStats_t) := s <| enc_errors := u32 (enc_errors s + 1) |>.
Definition bump_dec_error (s : HistorianStats_t) := s <| dec_errors := u32 (dec_errors s + 1) |>.

Section historian.
Context {W : Type} `{Ccm}.
Implicit Types (st : state W) (w : W).

Definition encrypt_record st (ring_index counter : Z) (r : HistorianRecord_t) : option (list Z) :=
  if negb (s_key_set st) then None
  else if negb (mbedtls_ccm_setkey (s_key st)) then None
  else
    match mbedtls_ccm_encrypt_and_tag (s_key st) (build_nonce ring_index counter) (record_bytes r)
            HISTORIAN_CCM_TAG_SIZE with
    | Some (c, t) => Some (c ++ t)
    | None => None
    end.

Definition decrypt_record st (ring_index counter : Z) (ondisk : list Z) : option HistorianRecord_t :=
  if negb (s_key_set st) then None
  else if negb (mbedtls_ccm_setkey (s_key st)) then None
  else record_of <$> mbedtls_ccm_auth_decrypt (s_key st) (build_nonce ring_index counter)
                       (take 24 ondisk) (take 16 (drop 24 ondisk)).

(** [s_ring[pos]] for a position in range. *)
Definition slot st (pos : Z) : list Z := nth (Z.to_nat pos) (s_ring st) [].

Definition oldest_pos st : Z :=
  u32 (s_write_index st - s_count st + HISTORIAN_CAPACITY) mod HISTORIAN_CAPACITY.

Definition historian_buffer_for_flush st (ring_index : Z) : state W :=
  let st := if s_pending_count st =? 0 then st <| s_pending_start := ring_index |> else st in
  st <| s_pending_count := u32 (s_pending_count st + 1) |>.

(** The append loop: [n] records left, the next one at offset [i]. *)
Fixpoint flush_loop (f : Z -> list Z -> Z -> Z -> W -> bool * W) st w (n : nat) (i : Z)
  : state W * W :=
  match n with
  | O => (st, w)
  | S n =>
      let pos := u32 (s_pending_start st + i) mod HISTORIAN_CAPACITY in
      let '(ok, w) := f pos (slot st pos) (s_count st) (s_write_index st) w in
      let st := if ok : bool then st else st <| s_stats := bump_write_error (s_stats st) |> in
      flush_loop f st w n (i + 1)
  end.

Definition historian_flush st w (current_ms : Z) : state W * W :=
  if negb (s_initialised st) then (st, w)
  else if s_pending_count st =? 0 then (st, w)
  else
    match s_storage st ≫= append with
    | None => (st, w)
    | Some f =>
        let '(st, w) := flush_loop f st w (Z.to_nat (s_pending_count st)) 0 in
        (st <| s_pending_count := 0 |> <| s_pending_start := 0 |>
            <| s_last_flush_ms := current_ms |>, w)
    end.

Definition historian_pending_count st : Z := s_pending_count st.

Definition historian_auto_flush st w (current_ms : Z) : state W * W :=
  if HISTORIAN_PENDING_MAX <=? s_pending_count st then historian_flush st w current_ms
  else if (0 <? s_last_flush_ms st) &&
          (HISTORIAN_FLUSH_INTERVAL_MS <=? u64 (current_ms - s_last_flush_ms st))
  then historian_flush st w current_ms
  else (st, w).

(** The test of the age loop. *)
Definition too_old (current_ms : Z) (r : HistorianRecord_t) : bool :=
  (0 <? current_ms) && (0 <? timestamp_ms r) &&
  (HISTORIAN_30_DAY_MS <? u64 (current_ms - timestamp_ms r)).

Definition evict_one st : state W :=
  st <| s_count := u32 (s_count st - 1) |> <| s_stats := bump_evicted (s_stats st) |>.

(** The age loop; [n] is the number of records when it starts, and every round
    but the last removes one. *)
Fixpoint evict_by_age st (n : nat) (current_ms : Z) : state W :=
  match n with
  | O => st
  | S n =>
      match decrypt_record st (oldest_pos st) (oldest_pos st) (slot st (oldest_pos st)) with
      | Some oldest =>
          if too_old current_ms oldest then evict_by_age (evict_one st) n current_ms else st
      | None =>
          let st := evict_one st in
          evict_by_age (st <| s_stats := bump_dec_error (s_stats st) |>) n current_ms
      end
  end.

(** The capacity loop, at most [n] rounds. *)
Fixpoint evict_by_capacity st (n : nat) : state W :=
  match n with
  | O => st
  | S n => if HISTORIAN_CAPACITY <=? s_count st then evict_by_capacity (evict_one st) n else st
  end.

Definition historian_evict st (current_ms : Z) : state W :=
  let st := evict_by_age st (Z.to_nat (s_count st)) current_ms in
  evict_by_capacity st (Z.to_nat (s_count st)).

Definition historian_init st w : bool * state W * W :=
  let st := st <| s_ring := zero_ring |> <| s_write_index := 0 |> <| s_count := 0 |>
               <| s_pending_start := 0 |> <| s_pending_count := 0 |> <| s_last_flush_ms := 0 |>
               <| s_stats := zero_stats |> in
  match s_storage st ≫= load with
  | None => (true, st <| s_initialised := true |>, w)
  | Some f =>
      let '(ok, ring, loaded_count, loaded_write_index, w) :=
        f (s_ring st) HISTORIAN_CAPACITY 0 0 w in
      let st := st <| s_ring := ring |> in
      let st := if ok && (loaded_count <=? HISTORIAN_CAPACITY)
                then st <| s_count := loaded_count |>
                        <| s_write_index := loaded_write_index mod HISTORIAN_CAPACITY |>
                else st in
      (true, st <| s_initialised := true |>, w)
  end.

Definition historian_set_storage st (storage : option (HistorianStorage_t W)) : state W :=
  st <| s_storage := storage |>.

Definition historian_set_key st (key : option (list Z)) : state W :=
  match key with
  | None => st
  | Some k =>
      if (length k <? HISTORIAN_KEY_SIZE)%nat then st
      else st <| s_key := take HISTORIAN_KEY_SIZE k |> <| s_key_set := true |>
  end.

Definition historian_write st w (record : option HistorianRecord_t) : bool * state W * W :=
  if negb (s_initialised st) then (false, st, w)
  else
    match record with
    | None => (false, st, w)
    | Some r =>
        if negb (s_key_set st)
        then (false, st <| s_stats := bump_write_error (s_stats st) |>, w)
        else
          let st := historian_evict st (timestamp_ms r) in
          match encrypt_record st (s_write_index st) (s_write_index st) r with
          | None => (false, st <| s_stats := bump_write_error (bump_enc_error (s_stats st)) |>, w)
          | Some ondisk =>
              let written_index := s_write_index st in
              let st := st <| s_ring := store written_index ondisk (s_ring st) |>
                           <| s_write_index := u32 (s_write_index st + 1) mod HISTORIAN_CAPACITY |> in
              let st := if s_count st <? HISTORIAN_CAPACITY
                        then st <| s_count := u32 (s_count st + 1) |> else st in
              let st := st <| s_stats := bump_written (s_stats st) |> in
              let st := historian_buffer_for_flush st written_index in
              let '(st, w) := historian_auto_flush st w (timestamp_ms r) in
              (true, st, w)
          end
    end.

(** Does the record pass the query's filter; a zero field is no restriction. *)
Definition query_match (query : option HistorianQuery_t) (r : HistorianRecord_t) : bool :=
  match query with
  | None => true
  | Some q =>
      if (0 <? time_start_ms q) && (timestamp_ms r <? time_start_ms q) then false
      else if (0 <? time_end_ms q) && (time_end_ms q <? timestamp_ms r) then false
      else if negb (q_node_id q =? 0) && negb (node_id r =? q_node_id q) then false
      else if negb (q_metric_id q =? 0) && negb (metric_id r =? q_metric_id q) then false
      else true
  end.

(** The read loop: [n] records left, the next one [j] after the oldest, [room]
    free entries in the output. *)
Fixpoint read_loop st (query : option HistorianQuery_t) (start : Z) (n : nat) (j : Z) (room : nat)
  : list HistorianRecord_t * state W :=
  match n, room with
  | O, _ | _, O => ([], st)
  | S n, S room' =>
      let pos := u32 (start + j) mod HISTORIAN_CAPACITY in
      match decrypt_record st pos pos (slot st pos) with
      | None => read_loop (st <| s_stats := bump_dec_error (s_stats st) |>) query start n (j + 1) room
      | Some r =>
          if query_match query r
          then let '(out, st) := read_loop st query start n (j + 1) room' in (r :: out, st)
          else read_loop st query start n (j + 1) room
      end
  end.

(** The records copied to the caller; the C function returns their number. *)
Definition historian_read st (query : option HistorianQuery_t) (out_records : bool) (max_records : Z)
  : list HistorianRecord_t * state W :=
  if negb (s_initialised st) then ([], st)
  else if negb out_records || (max_records =? 0) then ([], st)
  else read_loop st query (oldest_pos st) (Z.to_nat (s_count st)) 0 (Z.to_nat max_records).

Definition historian_count st : Z := s_count st.
Definition historian_get_stats st : HistorianStats_t := s_stats st.
Definition historian_reset_stats st : state W := st <| s_stats := zero_stats |>.
Definition historian_ondisk_record_size : Z := HISTORIAN_ONDISK_RECORD_SIZE.
Definition historian_capacity : Z := HISTORIAN_CAPACITY.

End historian.

#[global] Arguments zero_ring : simpl never.
#[global] Arguments record_bytes : simpl never.
#[global] Arguments record_of : simpl never.

(** ** Records and their encryption *)

Record wf_record (r : HistorianRecord_t) : Prop := {
  wr_timestamp : is_u64 (timestamp_ms r);
  wr_value : is_u32 (value r);
  wr_sequence : is_u32 (sequence r);
  wr_node : is_u16 (node_id r);
  wr_reserved : length (reserved r) = 4%nat }.

Lemma record_bytes_length r : length (reserved r) = 4%nat -> length (record_bytes r) = 24%nat.
Proof.
  intros Hr. unfold record_bytes. rewrite !length_app, !le_bytes_length, length_take, Hr. reflexivity.
Qed.

(** The packed struct survives its bytes. *)
Lemma record_roundtrip r : wf_record r -> record_of (record_bytes r) = r.
Proof.
  intros [Ht Hv Hs Hn Hr]. unfold record_of, record_bytes. destruct r as [ts v sq nd m d rs].
  cbn [timestamp_ms value sequence node_id metric_id domain_profile_id reserved] in *.
  assert (take 4 rs = rs) as -> by (apply take_ge; lia).
  pose proof (le_bytes_length 8 ts) as L1. pose proof (le_bytes_length 4 v) as L2.
  pose proof (le_bytes_length 4 sq) as L3. pose proof (le_bytes_length 2 nd) as L4.
  destruct (le_bytes 8 ts) as [|a0 [|a1 [|a2 [|a3 [|a4 [|a5 [|a6 [|a7 [|]]]]]]]]] eqn:E1; try discriminate L1.
  destruct (le_bytes 4 v) as [|b0 [|b1 [|b2 [|b3 [|]]]]] eqn:E2; try discriminate L2.
  destruct (le_bytes 4 sq) as [|c0 [|c1 [|c2 [|c3 [|]]]]] eqn:E3; try discriminate L3.
  destruct (le_bytes 2 nd) as [|d0 [|d1 [|]]] eqn:E4; try discriminate L4.
  destruct rs as [|r0 [|r1 [|r2 [|r3 [|]]]]]; try discriminate Hr.
  cbn [app take drop nth]. rewrite <- E1, <- E2, <- E3, <- E4, !le_roundtrip by assumption.
  reflexivity.
Qed.

Lemma build_nonce_length i c : length (build_nonce i c) = 13%nat.
Proof. unfold build_nonce. rewrite !length_app, !be_bytes_length. reflexivity. Qed.

Section refinement.
Context {W : Type} `{COk : CcmOk}.
Implicit Types (st : state W) (w : W) (r : HistorianRecord_t) (l : list HistorianRecord_t).

Definition keyed st : Prop := s_key_set st = true /\ length (s_key st) = 16%nat.

Lemma encrypt_decrypt st i r :
  keyed st -> wf_record r ->
  exists d, encrypt_record st i i r = Some d /\ decrypt_record st i i d = Some r.
Proof.
  intros [Hs Hk] Hr. unfold encrypt_record, decrypt_record. rewrite Hs, ccm_setkey_16 by exact Hk.
  cbn [negb].
  assert (length (record_bytes r) = 24%nat) as Hl by apply record_bytes_length, Hr.
  destruct (ccm_total (s_key st) (build_nonce i i) (record_bytes r) HISTORIAN_CCM_TAG_SIZE)
    as [[c t] He]; auto using build_nonce_length; [compute; auto 10|lia|].
  rewrite He. eexists. split; [reflexivity|].
  pose proof (ccm_sizes _ _ _ _ _ _ He) as [Hc Ht].
  rewrite take_app_length' by lia. rewrite drop_app_length' by lia.
  rewrite take_ge by (rewrite Ht; reflexivity).
  rewrite (ccm_open_seal _ _ _ _ _ _ He). cbn. rewrite record_roundtrip by exact Hr. reflexivity.
Qed.

(** ** The ring as a list of records, oldest first *)

(** The slot of the [j]-th oldest record. *)
Definition pos_of st (j : nat) : Z :=
  (s_write_index st - s_count st + Z.of_nat j) mod HISTORIAN_CAPACITY.

Definition record_at st (pos : Z) : option HistorianRecord_t :=
  decrypt_record st pos pos (slot st pos).

Record holds st l : Prop := {
  h_init : s_initialised st = true;
  h_keyed : keyed st;
  h_ring : Z.of_nat (length (s_ring st)) = HISTORIAN_CAPACITY;
  h_index : 0 <= s_write_index st < HISTORIAN_CAPACITY;
  h_count : s_count st = Z.of_nat (length l);
  h_room : Z.of_nat (length l) <= HISTORIAN_CAPACITY;
  h_records : forall j r, l !! j = Some r -> record_at st (pos_of st j) = Some r }.

Lemma oldest_pos_eq st l : holds st l -> oldest_pos st = pos_of st 0.
Proof.
  intros Hh. unfold oldest_pos, pos_of. destruct Hh as [_ _ _ Hi Hc Hr _].
  unfold HISTORIAN_CAPACITY in *. rewrite u32_small by (unfold is_u32; lia).
  change (Z.of_nat 0) with 0.
  rewrite <- (Z_mod_plus_full (s_write_index st - s_count st + 0) 1 16384). f_equal. lia.
Qed.

Lemma next_pos_eq st l j :
  holds st l -> (j <= length l)%nat -> u32 (oldest_pos st + Z.of_nat j) mod HISTORIAN_CAPACITY = pos_of st j.
Proof.
  intros Hh Hj. rewrite (oldest_pos_eq st l Hh). unfold pos_of.
  destruct Hh as [_ _ _ Hi Hc Hr _]. unfold HISTORIAN_CAPACITY in *.
  pose proof (Z.mod_pos_bound (s_write_index st - s_count st + Z.of_nat 0) 16384).
  rewrite u32_small by (unfold is_u32; lia). rewrite Zplus_mod_idemp_l. f_equal. lia.
Qed.

(** Reading is filtering the list. *)
Lemma read_loop_spec st l q n j room :
  holds st l -> (j + n = length l)%nat ->
  read_loop st q (oldest_pos st) n (Z.of_nat j) room =
  (take room (List.filter (query_match q) (drop j l)), st).
Proof.
  intros Hh. revert j room. induction n as [|n IH]; intros j room Hj.
  - rewrite drop_ge by lia. destruct room; reflexivity.
  - destruct (lookup_lt_is_Some_2 l j ltac:(lia)) as [r Hr].
    rewrite (drop_S _ _ _ Hr). destruct room as [|room]; [reflexivity|].
    cbn [read_loop]. rewrite (next_pos_eq st l j Hh) by lia.
    pose proof (h_records _ _ Hh j r Hr) as Hd. unfold record_at in Hd. rewrite Hd.
    replace (Z.of_nat j + 1) with (Z.of_nat (S j)) by lia. rewrite !(IH (S j)) by lia.
    cbn [List.filter]. destruct (query_match q r); reflexivity.
Qed.

(** What a query asks for: a time, a node and a metric where it names one. *)
Definition wants (q : option HistorianQuery_t) (r : HistorianRecord_t) : bool :=
  match q with
  | None => true
  | Some q =>
      ((time_start_ms q <=? 0) || (time_start_ms q <=? timestamp_ms r)) &&
      ((time_end_ms q <=? 0) || (timestamp_ms r <=? time_end_ms q)) &&
      ((q_node_id q =? 0) || (node_id r =? q_node_id q)) &&
      ((q_metric_id q =? 0) || (metric_id r =? q_metric_id q))
  end.

Lemma query_match_wants q r : query_match q r = wants q r.
Proof.
  unfold query_match, wants. destruct q as [q|]; [|reflexivity].
  destruct (Z.ltb_spec 0 (time_start_ms q)), (Z.leb_spec (time_start_ms q) 0); try lia;
  destruct (Z.ltb_spec 0 (time_end_ms q)), (Z.leb_spec (time_end_ms q) 0); try lia;
  destruct (Z.ltb_spec (timestamp_ms r) (time_start_ms q)), (Z.leb_spec (time_start_ms q) (timestamp_ms r)); try lia;
  destruct (Z.ltb_spec (time_end_ms q) (timestamp_ms r)), (Z.leb_spec (timestamp_ms r) (time_end_ms q)); try lia;
  destruct (q_node_id q =? 0), (node_id r =? q_node_id q), (q_metric_id q =? 0), (metric_id r =? q_metric_id q);
  reflexivity.
Qed.

Lemma read_spec st l q max :
  holds st l -> historian_read st q true max =
  (take (Z.to_nat max) (List.filter (wants q) l), st).
Proof.
  intros Hh. rewrite <- (List.filter_ext _ _ (query_match_wants q)). unfold historian_read. rewrite (h_init _ _ Hh). cbn [negb orb].
  destruct (Z.eqb_spec max 0) as [->|_]; [reflexivity|].
  rewrite (h_count _ _ Hh), Nat2Z.id. exact (read_loop_spec st l q (length l) 0 _ Hh eq_refl).
Qed.

(** ** Eviction *)

(** More than thirty days before [now], the age counted in 64 bits; a time of
    zero is no time. *)
Definition expired (now : Z) r : bool :=
  (0 <? now) && (0 <? timestamp_ms r) && (2592000000 <? (now - timestamp_ms r) mod 2 ^ 64).

Fixpoint drop_old (now : Z) l : list HistorianRecord_t :=
  match l with
  | [] => []
  | r :: l' => if expired now r then drop_old now l' else l
  end.

(** The abstract write: forget what is older than thirty days and, in a full
    ring, the oldest record; then append. *)
Definition spec_write l r : list HistorianRecord_t :=
  let l := drop_old (timestamp_ms r) l in
  (if 16384 <=? Z.of_nat (length l) then drop 1 l else l) ++ [r].

(** The fields that eviction leaves alone. *)
Record same_ring st st' : Prop := {
  sr_ring : s_ring st' = s_ring st;
  sr_index : s_write_index st' = s_write_index st;
  sr_pending_start : s_pending_start st' = s_pending_start st;
  sr_pending : s_pending_count st' = s_pending_count st;
  sr_flush : s_last_flush_ms st' = s_last_flush_ms st;
  sr_key : s_key st' = s_key st;
  sr_key_set : s_key_set st' = s_key_set st;
  sr_storage : s_storage st' = s_storage st;
  sr_init : s_initialised st' = s_initialised st }.

Lemma same_ring_refl st : same_ring st st.
Proof. split; reflexivity. Qed.

Lemma same_ring_trans st1 st2 st3 : same_ring st1 st2 -> same_ring st2 st3 -> same_ring st1 st3.
Proof. intros [] []. split; congruence. Qed.

Lemma evict_one_holds st r l :
  holds st (r :: l) -> holds (evict_one st) l /\ same_ring st (evict_one st).
Proof.
  intros [Hin Hk Hr Hi Hc Hm Hrec]. split; [|split; reflexivity].
  assert (s_count (evict_one st) = Z.of_nat (length l)) as Hc'.
  { cbn in *. rewrite u32_small by (unfold is_u32, HISTORIAN_CAPACITY in *; lia). lia. }
  split; auto; [cbn [length] in Hm; lia|].
  intros j x Hj. specialize (Hrec (S j) x Hj).
  replace (pos_of (evict_one st) j) with (pos_of st (S j)); [exact Hrec|].
  unfold pos_of. rewrite Hc', Hc. cbn [evict_one s_write_index length]. f_equal. cbn. lia.
Qed.

Lemma evict_by_age_holds st l now :
  holds st l ->
  holds (evict_by_age st (length l) now) (drop_old now l) /\
  same_ring st (evict_by_age st (length l) now).
Proof.
  revert st. induction l as [|r l IH]; intros st Hh; [split; [exact Hh|apply same_ring_refl]|].
  cbn [length evict_by_age drop_old]. rewrite (oldest_pos_eq _ _ Hh).
  pose proof (h_records _ _ Hh 0 r eq_refl) as Hd. unfold record_at in Hd. rewrite Hd.
  change (too_old now r) with (expired now r). destruct (expired now r); [|split; [exact Hh|apply same_ring_refl]].
  destruct (evict_one_holds _ _ _ Hh) as [Hh' Hs]. destruct (IH _ Hh') as [Hh2 Hs2].
  split; [exact Hh2|]. eapply same_ring_trans; eassumption.
Qed.

Lemma evict_by_capacity_holds st l n :
  holds st l -> (length l <= n)%nat ->
  holds (evict_by_capacity st n)
    (if HISTORIAN_CAPACITY <=? Z.of_nat (length l) then drop 1 l else l) /\
  same_ring st (evict_by_capacity st n).
Proof.
  intros Hh Hn. destruct n as [|n].
  { assert (l = []) as -> by (destruct l; [reflexivity|cbn in Hn; lia]).
    split; [exact Hh|apply same_ring_refl]. }
  cbn [evict_by_capacity]. rewrite (h_count _ _ Hh).
  destruct (Z.leb_spec HISTORIAN_CAPACITY (Z.of_nat (length l))) as [Hfull|Hroom];
    [|split; [exact Hh|apply same_ring_refl]].
  destruct l as [|r l]; [unfold HISTORIAN_CAPACITY in Hfull; cbn in Hfull; lia|].
  destruct (evict_one_holds _ _ _ Hh) as [Hh' Hs].
  assert (evict_by_capacity (evict_one st) n = evict_one st) as ->.
  { destruct n; cbn [evict_by_capacity]; [reflexivity|]. rewrite (h_count _ _ Hh').
    pose proof (h_room _ _ Hh) as Hm. cbn [length] in Hm.
    destruct (Z.leb_spec HISTORIAN_CAPACITY (Z.of_nat (length l))); [lia|reflexivity]. }
  split; assumption.
Qed.

Lemma evict_holds st l now :
  holds st l ->
  let l' := drop_old now l in
  holds (historian_evict st now) (if HISTORIAN_CAPACITY <=? Z.of_nat (length l') then drop 1 l' else l')
  /\ same_ring st (historian_evict st now).
Proof.
  intros Hh l'. unfold historian_evict. rewrite (h_count _ _ Hh), Nat2Z.id.
  destruct (evict_by_age_holds st l now Hh) as [Hh1 Hs1]. fold l' in Hh1.
  rewrite (h_count _ _ Hh1), Nat2Z.id.
  destruct (evict_by_capacity_holds _ _ (length l') Hh1 ltac:(lia)) as [Hh2 Hs2].
  split; [exact Hh2|]. eapply same_ring_trans; eassumption.
Qed.

(** ** Writing *)

(** The fields that flushing leaves alone. *)
Record same_data st st' : Prop := {
  sd_ring : s_ring st' = s_ring st;
  sd_index : s_write_index st' = s_write_index st;
  sd_count : s_count st' = s_count st;
  sd_key : s_key st' = s_key st;
  sd_key_set : s_key_set st' = s_key_set st;
  sd_storage : s_storage st' = s_storage st;
  sd_init : s_initialised st' = s_initialised st }.

Lemma same_data_refl st : same_data st st.
Proof. split; reflexivity. Qed.

Lemma same_data_trans st1 st2 st3 : same_data st1 st2 -> same_data st2 st3 -> same_data st1 st3.
Proof. intros [] []. split; congruence. Qed.

Lemma record_at_ext st st' pos :
  slot st' pos = slot st pos -> s_key st' = s_key st -> s_key_set st' = s_key_set st ->
  record_at st' pos = record_at st pos.
Proof. intros H1 H2 H3. unfold record_at, decrypt_record. rewrite H1, H2, H3. reflexivity. Qed.

Lemma holds_data st st' l : holds st l -> same_data st st' -> holds st' l.
Proof.
  intros [Hin Hk Hr Hi Hc Hm Hrec] [H1 H2 H3 H4 H5 H6 H7].
  split; try congruence; [unfold keyed in *; rewrite H4, H5; exact Hk|].
  intros j r Hj. unfold pos_of. rewrite H2, H3. rewrite <- (Hrec j r Hj).
  apply record_at_ext; auto. unfold slot. congruence.
Qed.

Lemma flush_loop_data f st w n i : same_data st (fst (flush_loop f st w n i)).
Proof.
  revert st w i. induction n as [|n IH]; intros st w i; [apply same_data_refl|].
  cbn [flush_loop]. destruct (f _ _ _ _ _) as [[] w']; [apply IH|].
  eapply same_data_trans; [|apply IH]. split; reflexivity.
Qed.

Lemma flush_data st w now : same_data st (fst (historian_flush st w now)).
Proof.
  unfold historian_flush. destruct (negb _); [apply same_data_refl|].
  destruct (_ =? 0); [apply same_data_refl|].
  destruct (s_storage st ≫= append) as [f|]; [|apply same_data_refl].
  pose proof (flush_loop_data f st w (Z.to_nat (s_pending_count st)) 0) as Hd.
  destruct (flush_loop _ _ _ _ _) as [st' w']. eapply same_data_trans; [exact Hd|]. split; reflexivity.
Qed.

Lemma auto_flush_data st w now : same_data st (fst (historian_auto_flush st w now)).
Proof.
  unfold historian_auto_flush. destruct (_ <=? _); [apply flush_data|].
  destruct (_ && _); [apply flush_data|apply same_data_refl].
Qed.

(** The state a write leaves before it looks at flushing. *)
Definition stored st r (d : list Z) : state W :=
  let st1 := historian_evict st (timestamp_ms r) in
  let wi := s_write_index st1 in
  let st1 := st1 <| s_ring := store wi d (s_ring st1) |>
                 <| s_write_index := u32 (wi + 1) mod HISTORIAN_CAPACITY |> in
  let st1 := if s_count st1 <? HISTORIAN_CAPACITY
             then st1 <| s_count := u32 (s_count st1 + 1) |> else st1 in
  historian_buffer_for_flush (st1 <| s_stats := bump_written (s_stats st1) |>) wi.

Lemma slot_store st pos pos' d :
  0 <= pos < Z.of_nat (length (s_ring st)) -> 0 <= pos' ->
  slot (st <| s_ring := store pos d (s_ring st) |>) pos' = if pos =? pos' then d else slot st pos'.
Proof.
  intros Hp Hp'. unfold slot, store. cbn. destruct (Z.eqb_spec pos pos') as [<-|Hne].
  - apply nth_lookup_Some. apply list_lookup_insert_eq. lia.
  - rewrite !nth_lookup, list_lookup_insert_ne by lia. reflexivity.
Qed.

Lemma pos_of_ne st l j :
  holds st l -> (j < length l)%nat -> Z.of_nat (length l) < HISTORIAN_CAPACITY ->
  pos_of st j <> s_write_index st.
Proof.
  intros [_ _ _ Hi Hc _ _] Hj Hl. unfold pos_of, HISTORIAN_CAPACITY in *. rewrite Hc.
  Z.div_mod_to_equations. lia.
Qed.

Lemma pos_of_append st n j ring c :
  s_count st = n -> u32 (s_write_index st + 1) = s_write_index st + 1 -> c = n + 1 ->
  pos_of (st <| s_ring := ring |>
             <| s_write_index := u32 (s_write_index st + 1) mod HISTORIAN_CAPACITY |>
             <| s_count := c |>) j = pos_of st j.
Proof.
  intros Hc Hw ->. unfold pos_of. cbn. rewrite Hc, Hw. unfold HISTORIAN_CAPACITY.
  Z.div_mod_to_equations. lia.
Qed.

(** One record more in a ring with room. *)
Lemma append_holds st l r d :
  holds st l -> Z.of_nat (length l) < HISTORIAN_CAPACITY ->
  decrypt_record st (s_write_index st) (s_write_index st) d = Some r ->
  holds (st <| s_ring := store (s_write_index st) d (s_ring st) |>
            <| s_write_index := u32 (s_write_index st + 1) mod HISTORIAN_CAPACITY |>
            <| s_count := u32 (s_count st + 1) |>) (l ++ [r]).
Proof.
  intros Hh Hl Hd. pose proof Hh as [Hin Hk Hr Hi Hc Hm Hrec].
  assert (u32 (s_count st + 1) = Z.of_nat (length (l ++ [r]))) as Hc'.
  { rewrite length_app. cbn. unfold HISTORIAN_CAPACITY in *.
    rewrite u32_small by (unfold is_u32; lia). lia. }
  assert (u32 (s_count st + 1) = Z.of_nat (length l) + 1) as Hc2
    by (rewrite Hc', length_app; cbn; lia).
  assert (u32 (s_write_index st + 1) = s_write_index st + 1) as Hw.
  { apply u32_small. unfold is_u32, HISTORIAN_CAPACITY in *. lia. }
  split; cbn; auto.
  - unfold store. rewrite length_insert. exact Hr.
  - apply Z.mod_pos_bound. unfold HISTORIAN_CAPACITY. lia.
  - rewrite length_app. cbn. lia.
  - intros j x Hj. rewrite (pos_of_append st (Z.of_nat (length l)) j _ _ Hc Hw Hc2).
    unfold record_at, decrypt_record. cbn [s_key_set s_key].
    assert (0 <= pos_of st j) as Hp by (apply Z.mod_pos_bound; unfold HISTORIAN_CAPACITY; lia).
    change (slot _ (pos_of st j)) with
      (slot (st <| s_ring := store (s_write_index st) d (s_ring st) |>) (pos_of st j)).
    rewrite slot_store by lia. destruct (decide (j < length l)%nat) as [Hlt|Hge].
    + rewrite lookup_app_l in Hj by exact Hlt. pose proof (pos_of_ne st l j Hh Hlt Hl) as Hne.
      destruct (Z.eqb_spec (s_write_index st) (pos_of st j)); [congruence|]. exact (Hrec j x Hj).
    + rewrite lookup_app_r in Hj by lia. apply list_lookup_singleton_Some in Hj as [Hj ->].
      assert (pos_of st j = s_write_index st) as ->.
      { unfold pos_of. rewrite Hc. replace (s_write_index st - Z.of_nat (length l) + Z.of_nat j)
          with (s_write_index st) by lia. apply Z.mod_small. exact Hi. }
      rewrite Z.eqb_refl. exact Hd.
Qed.

Lemma buffer_data st i : same_data st (historian_buffer_for_flush st i).
Proof. unfold historian_buffer_for_flush. destruct (_ =? 0); split; reflexivity. Qed.

(** A write of a record never fails on a keyed historian, and does to the list
    what the abstract write does. *)
Lemma write_stores st w l r :
  holds st l -> wf_record r ->
  exists d, historian_write st w (Some r) =
    (let '(st', w') := historian_auto_flush (stored st r d) w (timestamp_ms r) in (true, st', w')) /\
    holds (stored st r d) (spec_write l r).
Proof.
  intros Hh Hr. destruct (evict_holds st l (timestamp_ms r) Hh) as [Hh1 Hs1].
  set (st1 := historian_evict st (timestamp_ms r)) in *.
  set (l1 := if _ <=? _ then _ else _) in *.
  assert (Z.of_nat (length l1) < HISTORIAN_CAPACITY) as Hroom.
  { pose proof (h_room _ _ Hh1) as Hm. unfold l1 in *.
    destruct (Z.leb_spec HISTORIAN_CAPACITY (Z.of_nat (length (drop_old (timestamp_ms r) l)))) as [Hf|Hf];
      [|exact Hf].
    pose proof (h_room _ _ (proj1 (evict_by_age_holds st l (timestamp_ms r) Hh))) as Hm'.
    rewrite length_drop. unfold HISTORIAN_CAPACITY in *. lia. }
  destruct (encrypt_decrypt st1 (s_write_index st1) r (h_keyed _ _ Hh1) Hr) as (d & He & Hd).
  exists d. unfold historian_write. rewrite (h_init _ _ Hh). destruct (h_keyed _ _ Hh) as [Hks _].
  rewrite Hks. cbn [negb]. fold st1. rewrite He. split; [reflexivity|].
  unfold stored. fold st1. cbn zeta.
  change (s_count (st1 <| s_ring := _ |> <| s_write_index := _ |>)) with (s_count st1).
  rewrite (h_count _ _ Hh1). destruct (Z.ltb_spec (Z.of_nat (length l1)) HISTORIAN_CAPACITY); [|lia].
  eapply holds_data; [|apply buffer_data].
  pose proof (append_holds st1 l1 r d Hh1 Hroom Hd) as Ha. rewrite (h_count _ _ Hh1) in Ha.
  eapply holds_data; [exact Ha|]. split; reflexivity.
Qed.

Lemma write_holds st w l r :
  holds st l -> wf_record r ->
  let '(ok, st', _) := historian_write st w (Some r) in ok = true /\ holds st' (spec_write l r).
Proof.
  intros Hh Hr. destruct (write_stores st w l r Hh Hr) as (d & -> & Hh').
  pose proof (auto_flush_data (stored st r d) w (timestamp_ms r)) as Hs.
  destruct (historian_auto_flush _ _ _) as [st' w']. split; [reflexivity|].
  eapply holds_data; eassumption.
Qed.

(** What [stored] does to the other fields. *)
Lemma stored_fields st r d l :
  holds st l ->
  s_write_index (stored st r d) = (s_write_index st + 1) mod HISTORIAN_CAPACITY /\
  s_key (stored st r d) = s_key st /\ s_key_set (stored st r d) = s_key_set st /\
  s_storage (stored st r d) = s_storage st /\ s_initialised (stored st r d) = s_initialised st /\
  s_ring (stored st r d) = store (s_write_index st) d (s_ring st) /\
  s_pending_start (stored st r d) =
    (if s_pending_count st =? 0 then s_write_index st else s_pending_start st) /\
  s_pending_count (stored st r d) = u32 (s_pending_count st + 1).
Proof.
  intros Hh. destruct (evict_holds st l (timestamp_ms r) Hh) as [_ [H1 H2 H3 H4 H5 H6 H7 H8 H9]].
  unfold stored. set (st1 := historian_evict st (timestamp_ms r)) in *. cbn zeta.
  rewrite <- H1, <- H2, <- H3, <- H4, <- H6, <- H7, <- H8, <- H9.
  assert (u32 (s_write_index st1 + 1) = s_write_index st1 + 1) as Hw.
  { rewrite H2. apply u32_small. pose proof (h_index _ _ Hh).
    unfold is_u32, HISTORIAN_CAPACITY in *. lia. }
  unfold historian_buffer_for_flush. rewrite Hw. clearbody st1.
  destruct (s_count _ <? HISTORIAN_CAPACITY); cbn; destruct (s_pending_count st1 =? 0); cbn; auto 20.
Qed.

(** A run of writes. *)
Fixpoint write_all st w (rs : list HistorianRecord_t) : list bool * state W * W :=
  match rs with
  | [] => ([], st, w)
  | r :: rs =>
      let '(ok, st, w) := historian_write st w (Some r) in
      let '(oks, st, w) := write_all st w rs in (ok :: oks, st, w)
  end.


Lemma write_all_index rs st w l :
  holds st l -> Forall wf_record rs ->
  let '(_, st', _) := write_all st w rs in
  s_write_index st' = (s_write_index st + Z.of_nat (length rs)) mod HISTORIAN_CAPACITY /\
  s_key st' = s_key st /\ s_key_set st' = s_key_set st.
Proof.
  revert st w l. induction rs as [|r rs IH]; intros st w l Hh Hrs; cbn [write_all length].
  { rewrite Z.add_0_r, Z.mod_small by apply (h_index _ _ Hh). auto. }
  inversion_clear Hrs as [|? ? Hr Hrs'].
  destruct (write_stores st w l r Hh Hr) as (d & Hw & Hh1). rewrite Hw.
  pose proof (auto_flush_data (stored st r d) w (timestamp_ms r)) as Hs.
  destruct (historian_auto_flush _ _ _) as [st1 w1]. cbn [fst] in Hs.
  specialize (IH st1 w1 _ (holds_data _ _ _ Hh1 Hs) Hrs').
  destruct (write_all st1 w1 rs) as [[oks st2] w2]. destruct IH as (Hi & Hk & Hks).
  destruct (stored_fields st r d l Hh) as (Fi & Fk & Fks & _).
  destruct Hs as [_ Si _ Sk Sks _ _]. rewrite Hi, Hk, Hks, Si, Sk, Sks, Fi, Fk, Fks.
  split; [|auto]. rewrite Zplus_mod_idemp_l. f_equal. lia.
Qed.

(** ** Storage *)

(** A storage that keeps what is appended: [saved] is the ring and the two
    counters it holds. *)
Class StorageOk (s : HistorianStorage_t W) (saved : W -> list (list Z) * Z * Z) : Prop := {
  append_saves : exists f, append s = Some f /\ forall i d c wi w, exists w',
    f i d c wi w = (true, w') /\ saved w' = (store i d (fst (fst (saved w))), c, wi);
  load_restores : exists f, load s = Some f /\ forall ring n c wi w, exists w',
    f ring n c wi w = (true, fst (fst (saved w)), snd (fst (saved w)), snd (saved w), w') /\
    saved w' = saved w }.

Context (s : HistorianStorage_t W) (saved : W -> list (list Z) * Z * Z).
Context {SOk : StorageOk s saved}.

Definition saved_ring w : list (list Z) := fst (fst (saved w)).

(** The storage lags behind the ring by the pending slots. *)
Record synced st w : Prop := {
  sy_storage : s_storage st = Some s;
  sy_size : Z.of_nat (length (saved_ring w)) = HISTORIAN_CAPACITY;
  sy_pending : 0 <= s_pending_count st < HISTORIAN_PENDING_MAX + 1;
  sy_window : 0 < s_pending_count st ->
    0 <= s_pending_start st < HISTORIAN_CAPACITY /\
    s_write_index st = (s_pending_start st + s_pending_count st) mod HISTORIAN_CAPACITY;
  sy_counters : s_pending_count st = 0 ->
    snd (fst (saved w)) = s_count st /\ snd (saved w) = s_write_index st;
  sy_slots : forall pos, 0 <= pos < HISTORIAN_CAPACITY ->
    nth (Z.to_nat pos) (saved_ring w) [] = slot st pos \/
    exists k, 0 <= k < s_pending_count st /\
      pos = (s_pending_start st + k) mod HISTORIAN_CAPACITY }.






(** Start-up: load the storage, then set the key. *)
Lemma init_loads st0 w :
  s_storage st0 = Some s -> snd (fst (saved w)) <= HISTORIAN_CAPACITY ->
  exists w', saved w' = saved w /\
    historian_init st0 w =
    (true, mk_state (saved_ring w) (snd (saved w) mod HISTORIAN_CAPACITY) (snd (fst (saved w))) 0 0 0
       (s_key st0) (s_key_set st0) (s_storage st0) zero_stats true, w').
Proof.
  intros Hst0 Hc. destruct load_restores as (f & Hf & Hload).
  destruct (Hload zero_ring HISTORIAN_CAPACITY 0 0 w) as (w' & Hw & Hsv).
  exists w'. split; [exact Hsv|]. unfold historian_init. destruct st0. cbn in Hst0 |- *.
  rewrite Hst0. cbn [mbind option_bind]. rewrite Hf, Hw. cbn [andb].
  destruct (Z.leb_spec (snd (fst (saved w))) HISTORIAN_CAPACITY); [reflexivity|lia].
Qed.

Definition boot st w (k : list Z) : state W * W :=
  let '(_, st, w) := historian_init st w in (historian_set_key st (Some k), w).

Lemma set_key_fields st (k : list Z) :
  (16 <= length k)%nat ->
  historian_set_key st (Some k) = st <| s_key := take 16 k |> <| s_key_set := true |>.
Proof.
  intros Hk. unfold historian_set_key, HISTORIAN_KEY_SIZE.
  destruct (Nat.ltb_spec (length k) 16); [lia|reflexivity].
Qed.


(** A first boot on an empty storage. *)
Lemma first_boot st0 w (k : list Z) :
  s_storage st0 = Some s -> saved w = (zero_ring, 0, 0) -> (16 <= length k)%nat ->
  let '(st, w') := boot st0 w k in
  holds st [] /\ synced st w' /\ s_pending_count st = 0 /\ s_key st = take 16 k.
Proof.
  intros Hst0 Hsv Hk. destruct (init_loads st0 w Hst0) as (w' & Hsv' & Hinit).
  { rewrite Hsv. cbn. unfold HISTORIAN_CAPACITY. lia. }
  assert (saved_ring w = zero_ring) as Hring by (unfold saved_ring; rewrite Hsv; reflexivity).
  assert (saved_ring w' = zero_ring) as Hring' by (unfold saved_ring in *; congruence).
  assert (Z.of_nat (length zero_ring) = HISTORIAN_CAPACITY) as Hz.
  { unfold zero_ring. rewrite length_replicate, Z2Nat.id; [reflexivity|]. unfold HISTORIAN_CAPACITY. lia. }
  unfold boot. rewrite Hinit, set_key_fields, Hring, Hsv by exact Hk.
  change (0 mod HISTORIAN_CAPACITY) with 0. split_and!; [| |reflexivity|reflexivity].
  - split; try reflexivity; try exact Hz.
    + split; cbn; [reflexivity|]. rewrite length_take. lia.
    + cbn. apply Z.mod_pos_bound. unfold HISTORIAN_CAPACITY. lia.
    + cbn. unfold HISTORIAN_CAPACITY. lia.
    + intros j r Hj. rewrite lookup_nil in Hj. discriminate.
  - split; [exact Hst0|rewrite Hring'; exact Hz|cbn; unfold HISTORIAN_PENDING_MAX; lia|cbn; lia| |].
    + intros _. rewrite Hsv', Hsv. split; reflexivity.
    + intros pos Hpos. left. rewrite Hring'. reflexivity.
Qed.

(** ** What is kept when the clock does not step back *)
















(** ** Properties *)


(** A clock that steps back erases the history: writing a record older
    than everything stored makes the unsigned age of every stored record
    enormous, so all of them are evicted and only the new record remains. *)
Theorem clock_step_back_erases st w l r :
  holds st l -> wf_record r -> 0 < timestamp_ms r ->
  Forall (fun x => timestamp_ms r < timestamp_ms x < 2 ^ 63) l ->
  let '(ok, st', _) := historian_write st w (Some r) in
  ok = true /\ historian_count st' = 1 /\ fst (historian_read st' None true 1) = [r].
Proof.
  intros Hh Hr Hpos Hl. pose proof (write_holds st w l r Hh Hr) as Hw.
  destruct (historian_write st w (Some r)) as [[ok st'] w']. destruct Hw as [-> Hh'].
  assert (spec_write l r = [r]) as E.
  { unfold spec_write. replace (drop_old (timestamp_ms r) l) with (@nil HistorianRecord_t); [reflexivity|].
    symmetry. clear Hh Hh'. induction Hl as [|x l Hx Hl IH]; [reflexivity|]. cbn [drop_old].
    replace (expired (timestamp_ms r) x) with true; [exact IH|]. symmetry. unfold expired.
    change ((timestamp_ms r - timestamp_ms x) mod 2 ^ 64) with (u64 (timestamp_ms r - timestamp_ms x)).
    destruct Hr as [Ht _ _ _ _]. rewrite !andb_true_iff, !Z.ltb_lt.
    change (2 ^ 63) with 9223372036854775808 in Hx. split; [lia|]. words. }
  rewrite E in Hh'. split; [reflexivity|]. split; [exact (h_count _ _ Hh')|].
  rewrite (read_spec _ _ None 1 Hh'). reflexivity.
Qed.

(** The nonce repeats every time round the ring: after 16384 further
    writes the next record is encrypted under the key and nonce of the record
    it overwrites. *)
Theorem ring_wrap_repeats_nonce st w l rs r :
  holds st l -> Forall wf_record rs -> Z.of_nat (length rs) = HISTORIAN_CAPACITY ->
  let '(_, st', _) := write_all st w rs in
  build_nonce (s_write_index st') (s_write_index st') =
    build_nonce (s_write_index st) (s_write_index st) /\
  encrypt_record st' (s_write_index st') (s_write_index st') r =
  encrypt_record st (s_write_index st) (s_write_index st) r.
Proof.
  intros Hh Hrs Hlen. pose proof (write_all_index rs st w l Hh Hrs) as Hi.
  destruct (write_all st w rs) as [[oks st'] w']. destruct Hi as (Hi & Hk & Hks).
  assert (s_write_index st' = s_write_index st) as E.
  { rewrite Hi, Hlen. pose proof (h_index _ _ Hh). unfold HISTORIAN_CAPACITY in *.
    Z.div_mod_to_equations. lia. }
  rewrite E. split; [reflexivity|]. unfold encrypt_record. rewrite Hk, Hks. reflexivity.
Qed.

End refinement.

(** ** A historian on a storage in memory *)

Definition ram : Type := list (list Z) * Z * Z.

Definition ram_storage : HistorianStorage_t ram :=
  mk_storage (Some (fun i d c wi w => (true, (store i d (fst (fst w)), c, wi))))
    (Some (fun ring n c wi w => (true, fst (fst w), snd (fst w), snd w, w))).

#[export] Instance ram_storage_ok : StorageOk ram_storage (fun w => w).
Proof.
  split; eexists; (split; [reflexivity|]); intros; eexists; [split; reflexivity|].
  split; [|reflexivity]. reflexivity.
Qed.

Definition empty_ram : ram := (zero_ring, 0, 0).
Definition demo_off : state ram := initial <| s_storage := Some ram_storage |>.
Definition demo_key : list Z := le_bytes 16 99.
Definition demo_old : HistorianRecord_t := mk_record 2000000 (lit 21) 0 7 2 1 (zeros 4).
Definition demo_new : HistorianRecord_t := mk_record 1000000 (lit 23) 0 7 2 1 (zeros 4).

Lemma demo_old_wf : wf_record demo_old.
Proof. split; cbn; try (words || reflexivity). vm_compute. split; congruence. Qed.
Lemma demo_new_wf : wf_record demo_new.
Proof. split; cbn; try (words || reflexivity). vm_compute. split; congruence. Qed.

Definition demo_boot : state ram * ram := boot demo_off empty_ram demo_key.

Lemma demo_boot_holds : holds (C := toy_ccm) (fst demo_boot) [].
Proof.
  pose proof (first_boot (C := toy_ccm) ram_storage (fun w => w) demo_off empty_ram demo_key
    eq_refl eq_refl (Nat.le_refl 16)) as H.
  unfold demo_boot. destruct (boot demo_off empty_ram demo_key) as [st w]. apply H.
Qed.

Definition demo_one : state ram :=
  snd (fst (historian_write (H := toy_ccm) (fst demo_boot) (snd demo_boot) (Some demo_old))).

Lemma demo_one_holds : holds (C := toy_ccm) demo_one [demo_old].
Proof.
  pose proof (write_holds (C := toy_ccm) (fst demo_boot) (snd demo_boot) [] demo_old demo_boot_holds
    demo_old_wf) as H.
  unfold demo_one. destruct (historian_write _ _ _) as [[ok st] w]. apply H.
Qed.


Lemma clock_step_back_erases_witness :
  let '(ok, st', _) := historian_write (H := toy_ccm) demo_one empty_ram (Some demo_new) in
  ok = true /\ historian_count st' = 1 /\
  fst (historian_read (H := toy_ccm) st' None true 1) = [demo_new].
Proof.
  apply (clock_step_back_erases (COk := toy_ccm_ok) demo_one empty_ram [demo_old] demo_new
    demo_one_holds demo_new_wf); [cbn; lia|].
  constructor; [cbn; lia|constructor].
Defined.

Lemma ring_wrap_repeats_nonce_witness :
  let '(_, st', _) := write_all (C := toy_ccm) (fst demo_boot) (snd demo_boot)
    (replicate (Z.to_nat HISTORIAN_CAPACITY) demo_old) in
  build_nonce (s_write_index st') (s_write_index st') =
    build_nonce (s_write_index (fst demo_boot)) (s_write_index (fst demo_boot)) /\
  encrypt_record (H := toy_ccm) st' (s_write_index st') (s_write_index st') demo_new =
  encrypt_record (H := toy_ccm) (fst demo_boot) (s_write_index (fst demo_boot))
    (s_write_index (fst demo_boot)) demo_new.
Proof.
  apply (ring_wrap_repeats_nonce (COk := toy_ccm_ok) (fst demo_boot) (snd demo_boot) []
    (replicate (Z.to_nat HISTORIAN_CAPACITY) demo_old) demo_new demo_boot_holds).
  - apply Forall_replicate, demo_old_wf.
  - rewrite length_replicate, Z2Nat.id; [reflexivity|]. unfold HISTORIAN_CAPACITY. lia.
Defined.

End historian.
