(* ===== verification/GatewayAuth.v ===== *)
(** Gateway authentication (firmware/gateway/gateway_auth.c): signing on the
    gateway, verification and per-node trust on the hub.

    The hub's functions write the audit log, so they take and return its state
    together with the outside world of its clock and storage. *)

From S2P Require Import Prelude Float32 Hmac TimeSource AuditLog Attestation BatchFrame.
Import float32 hmac batch_frame.

Module gateway_auth.

Definition GATEWAY_HMAC_SIZE : nat := 32.
Definition GATEWAY_NODE_ID_DEFAULT : Z := 0xF0.
Definition EDGE_NODE_TRACKER_MAX : Z := 32.
Definition EDGE_NODE_ATTEST_EXPIRY_MS : Z := 24 * 60 * 60 * 1000.

Inductive GatewayAuthState_t :=
| GW_AUTH_UNINIT
| GW_AUTH_IDLE
| GW_AUTH_AUTHENTICATED
| GW_AUTH_FAILED.

#[export] Instance GatewayAuthState_eq_dec : EqDecision GatewayAuthState_t.
Proof. solve_decision. Defined.

Record GatewayAuthContext_t := mk_auth {
  gateway_node_id : Z;
  hub_node_id : Z;
  session_key : list Z;
  tx_sequence : Z;
  auth_state : GatewayAuthState_t }.

#[export] Instance eta_auth : Eta GatewayAuthContext_t := fun r =>
  mk_auth (gateway_node_id r) (hub_node_id r) (session_key r) (tx_sequence r) (auth_state r).

Record GatewayGatewayTracker_t := mk_tracker {
  tr_gateway_node_id : Z;
  last_sequence : Z;
  sequence_initialized : bool;
  tr_session_key : list Z;
  authenticated : bool }.

#[export] Instance eta_tracker : Eta GatewayGatewayTracker_t := fun r =>
  mk_tracker (tr_gateway_node_id r) (last_sequence r) (sequence_initialized r) (tr_session_key r)
    (authenticated r).

Inductive GatewayFrameResult_t :=
| GW_FRAME_OK
| GW_FRAME_ERR_HMAC_MISMATCH
| GW_FRAME_ERR_GAP_DETECTED
| GW_FRAME_ERR_NOT_AUTH
| GW_FRAME_ERR_PARAM_NULL.

#[export] Instance GatewayFrameResult_eq_dec : EqDecision GatewayFrameResult_t.
Proof. solve_decision. Defined.

Record EdgeNodeTrackerEntry_t := mk_node {
  node_id : Z;
  attested : bool;
  attested_at_ms : Z;
  active : bool }.

Record EdgeNodeTracker_t := mk_nodes {
  entries : list EdgeNodeTrackerEntry_t;
  count : Z;
  expiry_ms : Z }.

#[export] Instance eta_nodes : Eta EdgeNodeTracker_t := fun r =>
  mk_nodes (entries r) (count r) (expiry_ms r).

(** The [edge_tracker] argument: NULL, the test sentinel 0xDEAD, or a tracker. *)
Inductive edge_tracker_ref :=
| EDGE_TRACKER_NULL
| EDGE_TRACKER_CHECK_DISABLED_TESTING_ONLY
| EDGE_TRACKER (t : EdgeNodeTracker_t).

(** ** The gateway's side *)

Definition gateway_auth_init (ctx : option GatewayAuthContext_t) (gateway_id hub_id : Z)
    (key : option (list Z)) : option GatewayAuthContext_t :=
  match ctx, key with
  | Some _, Some k => Some (mk_auth gateway_id hub_id (take GATEWAY_HMAC_SIZE k) 0 GW_AUTH_IDLE)
  | _, _ => ctx
  end.

Definition gateway_sign_frame `{MdHmac} (ctx : option GatewayAuthContext_t)
    (encoded_frame : option (list Z)) (out_hmac : bool) : option (list Z) :=
  match ctx, encoded_frame with
  | Some c, Some frame =>
      if negb out_hmac then None
      else if negb (bool_decide (auth_state c = GW_AUTH_AUTHENTICATED)) then None
      else if (length frame =? 0)%nat then None
      else Some (iot_hmac_sha256 (session_key c) frame)
  | _, _ => None
  end.

Definition gateway_advance_sequence (ctx : option GatewayAuthContext_t) : option GatewayAuthContext_t :=
  (fun c => c <| tx_sequence := u32 (tx_sequence c + 1) |>) <$> ctx.

Definition gateway_get_sequence (ctx : option GatewayAuthContext_t) : Z :=
  match ctx with Some c => tx_sequence c | None => 0 end.

Definition gateway_get_state (ctx : option GatewayAuthContext_t) : GatewayAuthState_t :=
  match ctx with Some c => auth_state c | None => GW_AUTH_UNINIT end.

Definition gateway_set_state (ctx : option GatewayAuthContext_t) (s : GatewayAuthState_t)
  : option GatewayAuthContext_t := (fun c => c <| auth_state := s |>) <$> ctx.

(** ** The hub's side *)

Definition gateway_tracker_init (tracker : option GatewayGatewayTracker_t) (gateway_id : Z)
    (key : option (list Z)) : option GatewayGatewayTracker_t :=
  match tracker, key with
  | Some _, Some k => Some (mk_tracker gateway_id 0 false (take GATEWAY_HMAC_SIZE k) false)
  | _, _ => tracker
  end.

Definition gateway_tracker_update_sequence (tracker : GatewayGatewayTracker_t) (sequence : Z)
  : GatewayGatewayTracker_t :=
  tracker <| last_sequence := sequence |> <| sequence_initialized := true |>.

Definition edge_tracker_init (tracker : option EdgeNodeTracker_t) (expiry : Z) : option EdgeNodeTracker_t :=
  match tracker with
  | None => None
  | Some _ => Some (mk_nodes (replicate 32 (mk_node 0 false 0 false)) 0
                      (if 0 <? expiry then expiry else EDGE_NODE_ATTEST_EXPIRY_MS))
  end.

(** The test of the scans: an active entry of this node. *)
Definition is_node (id : Z) (e : EdgeNodeTrackerEntry_t) : bool := active e && (node_id e =? id).

Definition edge_tracker_attest `{MdHmac} (st : attestation.state) (tracker : option EdgeNodeTracker_t)
    (challenge : option attestation.AttestationChallenge_t)
    (response : option attestation.AttestationResponse_t) (current_ms : Z)
  : attestation.AttestationResult_t * option EdgeNodeTracker_t :=
  match tracker, challenge, response with
  | Some t, Some c, Some r =>
      match attestation.attestation_verify st (Some c) (Some r) 5000 with
      | attestation.ATTEST_OK =>
          let id := attestation.responder_id r in
          match find_index (is_node id) (used (count t) (entries t)) with
          | Some i =>
              (attestation.ATTEST_OK,
               Some (t <| entries := alter (fun e => mk_node (node_id e) true current_ms (active e)) i
                                       (entries t) |>))
          | None =>
              if EDGE_NODE_TRACKER_MAX <=? count t then (attestation.ATTEST_ERR_PARAM_NULL, tracker)
              else
                (attestation.ATTEST_OK,
                 Some (t <| entries := store (count t) (mk_node id true current_ms true) (entries t) |>
                         <| count := u8 (count t + 1) |>))
          end
      | err => (err, tracker)
      end
  | _, _, _ => (attestation.ATTEST_ERR_PARAM_NULL, tracker)
  end.

Definition edge_tracker_is_trusted (tracker : option EdgeNodeTracker_t) (id current_ms : Z) : bool :=
  match tracker with
  | None => false
  | Some t =>
      match find_first (is_node id) (used (count t) (entries t)) with
      | None => false
      | Some e =>
          if negb (attested e) then false
          else if (0 <? current_ms) && (0 <? expiry_ms t) &&
                  (expiry_ms t <? u64 (current_ms - attested_at_ms e))
          then false else true
      end
  end.

Definition edge_tracker_count (tracker : option EdgeNodeTracker_t) : Z :=
  match tracker with Some t => count t | None => 0 end.

Section hub.
Context {W : Type} `{MdHmac}.
Implicit Types (al : audit_log.state W) (w : W).

Definition msg_version : list Z :=
  cstr "Gateway batch frame rejected: unsupported version — possible downgrade attack".
Definition msg_hmac : list Z := cstr "Gateway batch frame HMAC mismatch — possible tampering".
Definition msg_gap : list Z := cstr "Gateway sequence gap detected — possible suppression".
Definition msg_decode : list Z := cstr "Gateway frame passed HMAC but failed structural decode".
Definition msg_null : list Z := cstr "gateway_ingest_frame: NULL edge_tracker — parameter error".
Definition msg_untrusted : list Z :=
  cstr "Edge Node data rejected: attestation not verified or expired".

(** The signed part and the tag of a frame. *)
Definition signed_part (frame : list Z) : list Z := take (length frame - GATEWAY_HMAC_SIZE) frame.
Definition tag_part (frame : list Z) : list Z := drop (length frame - GATEWAY_HMAC_SIZE) frame.

Definition gateway_verify_frame al w (tracker : option GatewayGatewayTracker_t)
    (encoded_frame : option (list Z)) : GatewayFrameResult_t * audit_log.state W * W :=
  match tracker, encoded_frame with
  | Some t, Some frame =>
      if negb (authenticated t) then (GW_FRAME_ERR_NOT_AUTH, al, w)
      else if (length frame <? 4)%nat then (GW_FRAME_ERR_PARAM_NULL, al, w)
      else if negb (nth 1 frame 0 =? 0x02) then
        let '(al, w) := audit_log.audit_log_add al w audit_log.AUDIT_AUTH_FAILURE 0 0 (Some msg_version) in
        (GW_FRAME_ERR_HMAC_MISMATCH, al, w)
      else if (length frame <? 4 + 4 + 32)%nat then (GW_FRAME_ERR_PARAM_NULL, al, w)
      else
        let sequence := le_value (take 4 (drop 4 frame)) in
        if negb (ct_equal (tag_part frame) (iot_hmac_sha256 (tr_session_key t) (signed_part frame))) then
          let '(al, w) := audit_log.audit_log_add al w audit_log.AUDIT_AUTH_FAILURE 0 0 (Some msg_hmac) in
          (GW_FRAME_ERR_HMAC_MISMATCH, al, w)
        else if sequence_initialized t && negb (sequence =? u32 (last_sequence t + 1)) then
          let '(al, w) := audit_log.audit_log_add al w audit_log.AUDIT_CONFIG_WRITE 0 0 (Some msg_gap) in
          (GW_FRAME_OK, al, w)
        else (GW_FRAME_OK, al, w)
  | _, _ => (GW_FRAME_ERR_PARAM_NULL, al, w)
  end.

(** The filter loop: [room] is [max_entries - trusted_count].  The node id is
    cut to one byte and the trust check is made with [current_ms] zero. *)
Fixpoint filter_trusted al w (tracker : edge_tracker_ref) (es : list BatchFrameEntry_t) (room : nat)
  : list BatchFrameEntry_t * audit_log.state W * W :=
  match es, room with
  | [], _ | _, O => ([], al, w)
  | e :: es, S room' =>
      let id := u8 (batch_frame.node_id e) in
      let trusted := match tracker with
                     | EDGE_TRACKER t => edge_tracker_is_trusted (Some t) id 0
                     | _ => true
                     end in
      if trusted : bool then
        let '(out, al, w) := filter_trusted al w tracker es room' in (e :: out, al, w)
      else
        let '(al, w) := audit_log.audit_log_add al w audit_log.AUDIT_AUTH_FAILURE id 0 (Some msg_untrusted) in
        filter_trusted al w tracker es room
  end.

(** The result, the header and the entries handed to the caller, the tracker,
    the audit log and the outside world; [outs] says whether all the output
    pointers are there. *)
Definition gateway_ingest_frame al w (tracker : option GatewayGatewayTracker_t)
    (edge_tracker : edge_tracker_ref) (raw_frame : option (list Z)) (outs : bool) (max_entries : Z)
  : GatewayFrameResult_t * option (BatchFrameHeader_t * list BatchFrameEntry_t)
      * option GatewayGatewayTracker_t * audit_log.state W * W :=
  match tracker, raw_frame with
  | Some t, Some frame =>
      if negb outs then (GW_FRAME_ERR_PARAM_NULL, None, tracker, al, w)
      else
        let '(vr, al, w) := gateway_verify_frame al w tracker raw_frame in
        match vr with
        | GW_FRAME_OK =>
            match batch_decode_frame_untrusted raw_frame true zero_header BATCH_MAX_ENTRIES with
            | (false, _, _) =>
                let '(al, w) := audit_log.audit_log_add al w audit_log.AUDIT_AUTH_FAILURE 0 0 (Some msg_decode) in
                (GW_FRAME_ERR_HMAC_MISMATCH, None, tracker, al, w)
            | (true, header, decoded) =>
                let t := gateway_tracker_update_sequence t (sequence_number header) in
                match edge_tracker with
                | EDGE_TRACKER_NULL =>
                    let '(al, w) := audit_log.audit_log_add al w audit_log.AUDIT_AUTH_FAILURE 0 0 (Some msg_null) in
                    (GW_FRAME_ERR_PARAM_NULL, None, Some t, al, w)
                | _ =>
                    let '(out, al, w) := filter_trusted al w edge_tracker decoded (Z.to_nat max_entries) in
                    (GW_FRAME_OK, Some (header, out), Some t, al, w)
                end
            end
        | err => (err, None, tracker, al, w)
        end
  | _, _ => (GW_FRAME_ERR_PARAM_NULL, None, tracker, al, w)
  end.

(** ** What verification and filtering decide *)

(** A node is trusted by the ingest path exactly when it has an attested entry. *)
Definition trusts (t : EdgeNodeTracker_t) (id : Z) : bool :=
  match find_first (is_node id) (used (count t) (entries t)) with
  | Some e => attested e
  | None => false
  end.

Lemma is_trusted_at_0 t id : edge_tracker_is_trusted (Some t) id 0 = trusts t id.
Proof.
  unfold edge_tracker_is_trusted, trusts. destruct (find_first _ _) as [e|]; [|reflexivity].
  destruct (attested e); reflexivity.
Qed.

Lemma filter_trusted_spec al w t es room :
  fst (fst (filter_trusted al w (EDGE_TRACKER t) es room)) =
  take room (List.filter (fun e => trusts t (u8 (batch_frame.node_id e))) es).
Proof.
  revert al w room. induction es as [|e es IH]; intros al w room; [destruct room; reflexivity|].
  destruct room as [|room]; [reflexivity|]. cbn [filter_trusted List.filter]. rewrite is_trusted_at_0.
  destruct (trusts t (u8 (batch_frame.node_id e))).
  - specialize (IH al w room). destruct (filter_trusted al w (EDGE_TRACKER t) es room) as [[out al'] w'].
    cbn in *. congruence.
  - destruct (audit_log.audit_log_add _ _ _ _ _ _) as [al' w']. apply IH.
Qed.

Lemma tag_part_length frame : (32 <= length frame)%nat -> length (tag_part frame) = 32%nat.
Proof. intros H0. unfold tag_part, GATEWAY_HMAC_SIZE. rewrite length_drop. lia. Qed.

End hub.

Section verification.
Context {W : Type} `{MdHmacOk}.
Implicit Types (al : audit_log.state W) (w : W).

(** Verification accepts exactly the long enough version-2 frames whose last 32
    bytes are the HMAC of the rest under the gateway's key. *)
Lemma frame_verify_spec al w t frame :
  fst (fst (gateway_verify_frame al w (Some t) (Some frame))) = GW_FRAME_OK <->
  authenticated t = true /\ (40 <= length frame)%nat /\ nth 1 frame 0 = 0x02 /\
  tag_part frame = iot_hmac_sha256 (tr_session_key t) (signed_part frame).
Proof.
  unfold gateway_verify_frame.
  destruct (authenticated t); cbn [negb]; [|split; [discriminate|intros [? _]; discriminate]].
  destruct (Nat.ltb_spec (length frame) 4); [split; [discriminate|lia]|].
  destruct (Z.eqb_spec (nth 1 frame 0) 2); cbn [negb];
    [|destruct (audit_log.audit_log_add _ _ _ _ _ _); split; [discriminate|tauto]].
  destruct (Nat.ltb_spec (length frame) (4 + 4 + 32)); [split; [discriminate|lia]|].
  rewrite ct_equal_spec by (rewrite tag_part_length, iot_hmac_length by lia; reflexivity).
  case_bool_decide; cbn [negb];
    [|destruct (audit_log.audit_log_add _ _ _ _ _ _); split; [discriminate|tauto]].
  destruct (_ && _); [destruct (audit_log.audit_log_add _ _ _ _ _ _)|]; split; auto; intros _;
    (split; [reflexivity|]; split; [lia|]; auto).
Qed.

(** The signed frame for a list of entries. *)
Definition signed_frame (key : list Z) (seq : Z) (es : list BatchFrameEntry_t) : list Z :=
  frame_of seq es (iot_hmac_sha256 key (frame_of seq es [])).

Lemma signed_frame_length key seq es :
  length (signed_frame key seq es) = (40 + 7 * length es)%nat.
Proof. unfold signed_frame. rewrite frame_of_length, iot_hmac_length. lia. Qed.

Lemma signed_frame_verifies al w t seq es :
  authenticated t = true ->
  fst (fst (gateway_verify_frame al w (Some t) (Some (signed_frame (tr_session_key t) seq es)))) = GW_FRAME_OK.
Proof.
  intros Ha. apply frame_verify_spec. split; [exact Ha|]. rewrite signed_frame_length. split; [lia|].
  split; [reflexivity|]. unfold tag_part, signed_part. rewrite signed_frame_length.
  assert ((40 + 7 * length es - GATEWAY_HMAC_SIZE)%nat = length (frame_of seq es [])) as ->
    by (rewrite frame_of_length; unfold GATEWAY_HMAC_SIZE; cbn [length]; lia).
  unfold signed_frame. rewrite (frame_of_tag seq es (iot_hmac_sha256 _ _)).
  rewrite drop_app_length, take_app_length. reflexivity.
Qed.

(** The ingest path past verification, as one equation. *)
Lemma ingest_ok_inv al w t et frame n r out t' al' w' :
  gateway_ingest_frame al w (Some t) et (Some frame) true n = (r, out, t', al', w') ->
  r = GW_FRAME_OK ->
  exists header decoded al1 w1,
    gateway_verify_frame al w (Some t) (Some frame) = (GW_FRAME_OK, al1, w1) /\
    batch_decode_frame_untrusted (Some frame) true zero_header BATCH_MAX_ENTRIES = (true, header, decoded) /\
    et <> EDGE_TRACKER_NULL /\
    t' = Some (gateway_tracker_update_sequence t (sequence_number header)) /\
    out = Some (header, fst (fst (filter_trusted al1 w1 et decoded (Z.to_nat n)))).
Proof.
  unfold gateway_ingest_frame. cbn [negb]. intros Hi ->.
  destruct (gateway_verify_frame al w (Some t) (Some frame)) as [[vr al1] w1].
  destruct vr; try (injection Hi; discriminate).
  destruct (batch_decode_frame_untrusted _ _ _ _) as [[[] header] decoded].
  - exists header, decoded, al1, w1. destruct et as [| |tk].
    + destruct (audit_log.audit_log_add _ _ _ _ _ _). discriminate.
    + destruct (filter_trusted _ _ _ _ _) as [[o a] b]. injection Hi as <- <- <- <-. repeat split; congruence.
    + destruct (filter_trusted _ _ _ _ _) as [[o a] b]. injection Hi as <- <- <- <-. repeat split; congruence.
  - destruct (audit_log.audit_log_add _ _ _ _ _ _). discriminate.
Qed.

Lemma ingest_ok_intro al w t et frame n header decoded :
  fst (fst (gateway_verify_frame al w (Some t) (Some frame))) = GW_FRAME_OK ->
  batch_decode_frame_untrusted (Some frame) true zero_header BATCH_MAX_ENTRIES = (true, header, decoded) ->
  exists al' w', gateway_ingest_frame al w (Some t) (EDGE_TRACKER et) (Some frame) true n =
    (GW_FRAME_OK,
     Some (header, take (Z.to_nat n)
       (List.filter (fun e => trusts et (u8 (batch_frame.node_id e))) decoded)),
     Some (gateway_tracker_update_sequence t (sequence_number header)), al', w').
Proof.
  intros Hv Hd. unfold gateway_ingest_frame. cbn [negb].
  destruct (gateway_verify_frame al w (Some t) (Some frame)) as [[vr al1] w1]. cbn in Hv. subst vr.
  rewrite Hd. pose proof (filter_trusted_spec al1 w1 et decoded (Z.to_nat n)) as Hf.
  destruct (filter_trusted al1 w1 (EDGE_TRACKER et) decoded (Z.to_nat n)) as [[out al2] w2].
  cbn in Hf. subst out. eauto.
Qed.

(** ** Properties *)

(** Without authentication nothing is looked at and nothing changes. *)
Lemma unauthenticated_rejected al w t et frame n :
  authenticated t = false ->
  gateway_ingest_frame al w (Some t) et (Some frame) true n =
    (GW_FRAME_ERR_NOT_AUTH, None, Some t, al, w).
Proof. intros Ha. unfold gateway_ingest_frame, gateway_verify_frame. rewrite Ha. reflexivity. Qed.

(** Where the entries of an accepted frame come from: positions of the frame, in
    order. *)
Lemma ingested_positions al w t et frame n header out t' al' w' :
  gateway_ingest_frame al w (Some t) (EDGE_TRACKER et) (Some frame) true n =
    (GW_FRAME_OK, Some (header, out), t', al', w') ->
  authenticated t = true /\ nth 1 frame 0 = 2 /\
  (exists body, frame = body ++ iot_hmac_sha256 (tr_session_key t) body) /\
  (length out <= Z.to_nat n)%nat /\
  exists ids, StronglySorted lt ids /\ out = entry_in frame <$> ids /\
    forall i, i ∈ ids ->
      Z.of_nat i < nth 2 frame 0 /\ (8 + 7 * S i + 32 <= length frame)%nat /\
      trusts et (u8 (batch_frame.node_id (entry_in frame i))) = true.
Proof.
  intros Hi. destruct (ingest_ok_inv _ _ _ _ _ _ _ _ _ _ _ Hi eq_refl)
    as (h & dec & al1 & w1 & Hv & Hd & _ & _ & Hout). injection Hout as -> ->.
  pose proof (frame_verify_spec al w t frame) as [Hok _].
  rewrite Hv in Hok. destruct (Hok eq_refl) as (Ha & Hlen & Hver & Htag).
  split; [exact Ha|]. split; [exact Hver|]. split.
  { exists (signed_part frame). rewrite <- Htag. symmetry. apply take_drop. }
  rewrite filter_trusted_spec. split; [rewrite length_take; lia|].
  destruct (decoded_entries frame zero_header BATCH_MAX_ENTRIES Hver) as (m & Hm & Hpos).
  rewrite Hd in Hm. cbn [snd] in Hm. subst dec.
  set (out := take _ _). assert (out `sublist_of` entry_in frame <$> seq 0 m) as Hsub.
  { etransitivity; [apply sublist_take|apply filter_sublist]. }
  destruct (sublist_fmap_inv _ _ _ Hsub) as (ids & Hids & E). exists ids.
  split; [eapply sublist_StronglySorted; [exact Hids|apply seq_StronglySorted]|]. split; [exact E|].
  intros i Hin. pose proof (sublist_subseteq _ _ Hids i Hin) as Hlt%elem_of_seq.
  destruct (Hpos i ltac:(lia)) as [H1 H2]. split; [exact H1|]. split; [exact H2|].
  assert (entry_in frame i ∈ out) as He by (rewrite E; apply list_elem_of_fmap_2, Hin).
  apply elem_of_take in He as (k & Hk & _). apply list_elem_of_lookup_2, list_elem_of_In, filter_In in Hk as [_ Ht].
  exact Ht.
Qed.

(** What trust says of the entries of the tracker. *)
Lemma trusts_elem t id :
  trusts t id = true ->
  exists n, n ∈ used (count t) (entries t) /\ active n = true /\ attested n = true /\ node_id n = id.
Proof.
  unfold trusts. destruct (find_first _ _) as [n|] eqn:Hn; [|discriminate]. intros Ha.
  apply find_first_Some in Hn as [Hin [Hact Hid%Z.eqb_eq]%andb_true_iff]. eauto.
Qed.

(** With one entry per node in the tracker, trust is to have an active and
    attested one. *)
Lemma trusts_existsb t id :
  NoDup (node_id <$> used (count t) (entries t)) ->
  trusts t id =
    existsb (fun n => active n && attested n && (node_id n =? id)) (used (count t) (entries t)).
Proof.
  intros Hnd. destruct (trusts t id) eqn:Ht; symmetry.
  - apply trusts_elem in Ht as (n & Hn & Ha & Hat & <-). apply existsb_exists.
    exists n. rewrite Ha, Hat, Z.eqb_refl. split; [apply list_elem_of_In, Hn|reflexivity].
  - apply not_true_iff_false. intros (n & Hn%list_elem_of_In & [[Ha Hat]%andb_true_iff <-%Z.eqb_eq]%andb_true_iff)%existsb_exists.
    unfold trusts in Ht. destruct (find_first _ _) as [m|] eqn:Hm.
    + apply find_first_Some in Hm as [Hin [_ Hid%Z.eqb_eq]%andb_true_iff].
      assert (m = n) as -> by (apply (NoDup_fmap_elem_inj node_id (used (count t) (entries t))); assumption). congruence.
    + rewrite find_first_None in Hm. specialize (Hm n Hn). unfold is_node in Hm.
      rewrite Ha, Z.eqb_refl in Hm. discriminate.
Qed.

(** C8. Nothing unauthenticated is ingested: every entry handed to the caller
    comes from a version-2 frame that ends in the HMAC of what precedes under
    the authenticated gateway's key; its node, metric and value are the bytes of
    one of the seven-byte entries the frame announces; and the tracker holds an
    active, attested entry whose node id is the low byte of the entry's node
    id.  For nodes below 256 that is the node itself; a node above is let in on
    the attestation of another ([aliased_node_accepted]). *)
Theorem ingest_authentic al w t et frame n header out t' al' w' :
  gateway_ingest_frame al w (Some t) (EDGE_TRACKER et) (Some frame) true n =
    (GW_FRAME_OK, Some (header, out), t', al', w') ->
  authenticated t = true /\ nth 1 frame 0 = 2 /\
  (exists body, frame = body ++ iot_hmac_sha256 (tr_session_key t) body) /\
  (length out <= Z.to_nat n)%nat /\
  forall e, e ∈ out ->
    (exists i, Z.of_nat i < nth 2 frame 0 /\ (8 + 7 * S i + 32 <= length frame)%nat /\
       batch_frame.node_id e = le_value (take 2 (drop (8 + 7 * i) frame)) /\
       metric_id e = nth (10 + 7 * i) frame 0 /\
       value e = le_value (take 4 (drop (11 + 7 * i) frame))) /\
    (exists a, a ∈ take (Z.to_nat (count et)) (entries et) /\ active a = true /\ attested a = true /\
       node_id a = batch_frame.node_id e mod 256).
Proof.
  intros Hi. destruct (ingested_positions _ _ _ _ _ _ _ _ _ _ _ Hi)
    as (Ha & Hver & Hbody & Hlen & ids & _ & -> & Hids).
  do 4 (split; [assumption|]). intros e (i & -> & Hin)%list_elem_of_fmap.
  destruct (Hids i Hin) as (H1 & H2 & Ht). split; [exists i; auto|exact (trusts_elem _ _ Ht)].
Qed.

(** The node id of an entry has sixteen bits and the trust check takes eight: a
    signed reading of node [id + 256 * k] is handed on when node [id] is
    attested, whether or not the tracker has ever heard of its own node. *)
Theorem aliased_node_accepted al w t et seq id k m v :
  authenticated t = true -> is_u32 seq -> is_u8 id -> 0 <= k < 256 -> is_u8 m -> is_u32 v ->
  edge_tracker_is_trusted (Some et) id 0 = true ->
  let e := mk_entry (id + 256 * k) m v in
  exists header t' al' w',
    gateway_ingest_frame al w (Some t) (EDGE_TRACKER et)
      (Some (signed_frame (tr_session_key t) seq [e])) true BATCH_MAX_ENTRIES =
    (GW_FRAME_OK, Some (header, [e]), t', al', w').
Proof.
  intros Ha Hs Hid Hk Hm Hv Ht e. rewrite is_trusted_at_0 in Ht.
  destruct (ingest_ok_intro al w t et (signed_frame (tr_session_key t) seq [e]) BATCH_MAX_ENTRIES
              (mk_header BATCH_FRAME_MAGIC BATCH_FRAME_VERSION 1 0 seq) [e]) as (al' & w' & Hin).
  - apply signed_frame_verifies, Ha.
  - apply (decode_frame_of seq [e]); [exact Hs| |cbn; lia|apply iot_hmac_length].
    apply Forall_singleton. split; cbn; unfold is_u16, is_u8, is_u32 in *; lia.
  - rewrite Hin. cbn [List.filter batch_frame.node_id e].
    assert (u8 (id + 256 * k) = id) as ->
      by (unfold u8; rewrite Z.mul_comm, Z_mod_plus_full; apply Z.mod_small, Hid).
    rewrite Ht. eauto 10.
Qed.

(** Replay of a whole frame is accepted: a frame the hub has ingested is
    ingested again, with the same entries, any number of times, because the
    sequence check only writes the audit log. *)
Theorem replayed_frame_accepted al w t et frame n header out t' al' w' al2 w2 :
  gateway_ingest_frame al w (Some t) (EDGE_TRACKER et) (Some frame) true n =
    (GW_FRAME_OK, Some (header, out), Some t', al', w') ->
  exists al3 w3,
    gateway_ingest_frame al2 w2 (Some t') (EDGE_TRACKER et) (Some frame) true n =
      (GW_FRAME_OK, Some (header, out), Some t', al3, w3).
Proof.
  intros Hi. destruct (ingest_ok_inv _ _ _ _ _ _ _ _ _ _ _ Hi eq_refl)
    as (h & dec & al1 & w1 & Hv & Hd & _ & Ht' & Hout). injection Hout as -> ->. injection Ht' as ->.
  assert (fst (fst (gateway_verify_frame al2 w2
            (Some (gateway_tracker_update_sequence t (sequence_number h))) (Some frame))) = GW_FRAME_OK) as Hv2.
  { apply frame_verify_spec. cbn [gateway_tracker_update_sequence authenticated tr_session_key set_field].
    apply (frame_verify_spec al w t frame). rewrite Hv. reflexivity. }
  destruct (ingest_ok_intro al2 w2 _ et frame n h dec Hv2 Hd) as (al3 & w3 & ->).
  exists al3, w3. rewrite filter_trusted_spec. reflexivity.
Qed.

(** The same nodes with other attestation times and another expiry. *)
Definition reaged (at_ exp : Z) (t : EdgeNodeTracker_t) : EdgeNodeTracker_t :=
  mk_nodes (map (fun e => mk_node (node_id e) (attested e) at_ (active e)) (entries t)) (count t) exp.

Lemma trusts_reaged at_ exp t id : trusts (reaged at_ exp t) id = trusts t id.
Proof.
  unfold trusts, reaged, used. cbn. rewrite firstn_map.
  generalize (take (Z.to_nat (count t)) (entries t)). intros l. unfold find_first.
  assert (find_index (is_node id) (map (fun e => mk_node (node_id e) (attested e) at_ (active e)) l)
          = find_index (is_node id) l) as ->.
  { induction l as [|e l IH]; [reflexivity|]. cbn. rewrite IH. reflexivity. }
  destruct (find_index (is_node id) l) as [i|]; [|reflexivity]. cbn.
  rewrite list_lookup_fmap. destruct (l !! i); reflexivity.
Qed.

Lemma filter_trusted_reaged at_ exp al w t es room :
  filter_trusted al w (EDGE_TRACKER (reaged at_ exp t)) es room =
  filter_trusted al w (EDGE_TRACKER t) es room.
Proof.
  revert al w room. induction es as [|e es IH]; intros al w [|room]; try reflexivity.
  cbn [filter_trusted]. rewrite !is_trusted_at_0, trusts_reaged.
  destruct (trusts t _); [rewrite IH; reflexivity|].
  destruct (audit_log.audit_log_add _ _ _ _ _ _) as [al' w']. apply IH.
Qed.

(** Attestation never expires at the ingest gate: whatever the times of the
    attestations and the configured expiry, ingestion behaves the same, because
    the gate asks for trust at time zero, which switches the expiry check off. *)
Theorem expiry_not_enforced al w t et frame outs n at_ exp :
  gateway_ingest_frame al w t (EDGE_TRACKER (reaged at_ exp et)) frame outs n =
  gateway_ingest_frame al w t (EDGE_TRACKER et) frame outs n.
Proof.
  unfold gateway_ingest_frame. destruct t as [t|], frame as [frame|]; try reflexivity.
  destruct outs; [cbn [negb]|reflexivity].
  destruct (gateway_verify_frame al w (Some t) (Some frame)) as [[vr al1] w1]. destruct vr; try reflexivity.
  destruct (batch_decode_frame_untrusted _ _ _ _) as [[[] header] decoded]; [|reflexivity].
  rewrite filter_trusted_reaged. reflexivity.
Qed.

End verification.

(** ** The theorems on a concrete link *)

Definition demo_key : list Z := replicate 32 5.
Definition demo_tracker : GatewayGatewayTracker_t := mk_tracker 0xF0 0 false demo_key true.
Definition demo_nodes : EdgeNodeTracker_t :=
  mk_nodes (mk_node 7 true 1000 true :: replicate 31 (mk_node 0 false 0 false)) 1 EDGE_NODE_ATTEST_EXPIRY_MS.

(** A frame with a reading of node 7 and one of node 300, signed. *)
Definition demo_frame : list Z :=
  frame_of 9 demo_entries (iot_hmac_sha256 (H := mix_hmac) demo_key (frame_of 9 demo_entries [])).

Definition demo_ingest :=
  gateway_ingest_frame (H := mix_hmac) (@audit_log.initial unit) tt (Some demo_tracker)
    (EDGE_TRACKER demo_nodes) (Some demo_frame) true 22.

Definition demo_header : BatchFrameHeader_t := mk_header BATCH_FRAME_MAGIC BATCH_FRAME_VERSION 2 0 9.

Lemma demo_ingest_ok :
  demo_ingest = (GW_FRAME_OK, Some (demo_header, [mk_entry 7 2 (lit 21)]),
                 Some (gateway_tracker_update_sequence demo_tracker 9), audit_log.initial, tt).
Proof. vm_compute. reflexivity. Qed.

Lemma ingest_authentic_witness :
  exists a, a ∈ take 1 (entries demo_nodes) /\ active a = true /\ attested a = true /\ node_id a = 7 mod 256.
Proof.
  destruct (ingest_authentic (H0 := mix_hmac_ok) (@audit_log.initial unit) tt demo_tracker demo_nodes
           demo_frame 22 demo_header [mk_entry 7 2 (lit 21)]
           (Some (gateway_tracker_update_sequence demo_tracker 9)) audit_log.initial tt demo_ingest_ok)
    as (_ & _ & _ & _ & H).
  exact (proj2 (H (mk_entry 7 2 (lit 21)) ltac:(left))).
Defined.

(** Node 263 is let in on the attestation of node 7; its own id is not in the tracker. *)
Lemma aliased_node_accepted_witness :
  edge_tracker_is_trusted (Some demo_nodes) 263 0 = false /\
  exists header t' al' w',
    gateway_ingest_frame (H := mix_hmac) (@audit_log.initial unit) tt (Some demo_tracker) (EDGE_TRACKER demo_nodes)
      (Some (signed_frame (H := mix_hmac) demo_key 9 [mk_entry 263 2 (lit 21)])) true 22 =
    (GW_FRAME_OK, Some (header, [mk_entry 263 2 (lit 21)]), t', al', w').
Proof.
  split; [reflexivity|].
  apply (aliased_node_accepted (H0 := mix_hmac_ok) (@audit_log.initial unit) tt demo_tracker demo_nodes 9 7 1 2 (lit 21));
    [reflexivity| | | | | |reflexivity]; vm_compute; split; congruence.
Defined.

Lemma replayed_frame_accepted_witness :
  exists al3 w3,
    gateway_ingest_frame (H := mix_hmac) (@audit_log.initial unit) tt
      (Some (gateway_tracker_update_sequence demo_tracker 9)) (EDGE_TRACKER demo_nodes)
      (Some demo_frame) true 22 =
    (GW_FRAME_OK, Some (demo_header, [mk_entry 7 2 (lit 21)]),
     Some (gateway_tracker_update_sequence demo_tracker 9), al3, w3).
Proof.
  apply (replayed_frame_accepted (H0 := mix_hmac_ok) (@audit_log.initial unit) tt demo_tracker demo_nodes
           demo_frame 22 demo_header [mk_entry 7 2 (lit 21)]
           (gateway_tracker_update_sequence demo_tracker 9) audit_log.initial tt audit_log.initial tt).
  exact demo_ingest_ok.
Defined.

End gateway_auth.
