(* ===== verification/EdgeTrust.v ===== *)
(** The trust of a hub in an edge node: the node's side of attestation
    (EdgeAuth), the key table (Attestation) and the tracker that the ingest path
    asks (GatewayAuth), composed. *)

From S2P Require Import Prelude Hmac Attestation EdgeAuth GatewayAuth.
Import hmac attestation edge_attestation.

Module edge_trust.

Record wf_nodes (t : gateway_auth.EdgeNodeTracker_t) : Prop := {
  wf_entries : length (gateway_auth.entries t) = 32%nat;
  wf_count : 0 <= gateway_auth.count t <= 32 }.

(** The tracker has an entry of the node or a free one. *)
Definition has_place (t : gateway_auth.EdgeNodeTracker_t) (id : Z) : Prop :=
  find_first (gateway_auth.is_node id) (used (gateway_auth.count t) (gateway_auth.entries t)) <> None \/
  gateway_auth.count t < 32.

Lemma is_node_unique id id' e :
  gateway_auth.is_node id e = true -> gateway_auth.is_node id' e = true -> id = id'.
Proof. unfold gateway_auth.is_node. intros [_ H1]%andb_true_iff [_ H2]%andb_true_iff. reflect. congruence. Qed.

Section trust.
Context `{HOk : MdHmacOk}.

(** A response that verifies gives its node a fresh attested entry and leaves
    the entries of the others alone. *)
Lemma attest_updates hub t c r now :
  wf_nodes t -> has_place t (responder_id r) ->
  attestation_verify hub (Some c) (Some r) 5000 = ATTEST_OK ->
  exists t', gateway_auth.edge_tracker_attest hub (Some t) (Some c) (Some r) now = (ATTEST_OK, Some t') /\
    wf_nodes t' /\ gateway_auth.expiry_ms t' = gateway_auth.expiry_ms t /\
    (exists e, find_first (gateway_auth.is_node (responder_id r))
                 (used (gateway_auth.count t') (gateway_auth.entries t')) = Some e /\
       gateway_auth.attested e = true /\ gateway_auth.attested_at_ms e = now) /\
    (forall id, id <> responder_id r ->
       find_first (gateway_auth.is_node id) (used (gateway_auth.count t') (gateway_auth.entries t')) =
       find_first (gateway_auth.is_node id) (used (gateway_auth.count t) (gateway_auth.entries t))).
Proof.
  intros [Hl Hc] Hplace Hv. unfold gateway_auth.edge_tracker_attest. rewrite Hv.
  set (id := responder_id r) in *. unfold has_place, find_first in Hplace.
  destruct (find_index (gateway_auth.is_node id) _) as [i|] eqn:Hi.
  - apply find_index_lookup in Hi as Hi'. destruct Hi' as (e & He & Hid).
    eexists. split; [reflexivity|]. split; [split; cbn; rewrite ?length_alter; assumption|]. split; [reflexivity|].
    cbn [gateway_auth.count gateway_auth.entries set_field]. rewrite used_alter. unfold find_first.
    split.
    + rewrite find_index_alter, Hi by reflexivity. cbn [mbind option_bind].
      rewrite list_lookup_alter_eq, He. eexists. split; [reflexivity|]. auto.
    + intros id' Hne. rewrite find_index_alter by reflexivity.
      destruct (find_index (gateway_auth.is_node id') _) as [j|] eqn:Hj; [|reflexivity]. cbn [mbind option_bind].
      apply list_lookup_alter_ne. intros <-. apply find_index_lookup in Hj as (e' & He' & Hid').
      rewrite He in He'. injection He' as <-. apply Hne, (is_node_unique _ _ e); assumption.
  - destruct Hplace as [Hp|Hroom]; [contradiction Hp; reflexivity|].
    unfold gateway_auth.EDGE_NODE_TRACKER_MAX. rewrite (proj2 (Z.leb_gt _ _)) by lia.
    eexists. split; [reflexivity|]. rewrite u8_small by (unfold is_u8; lia).
    split; [split; cbn; rewrite ?store_length; lia|]. split; [reflexivity|].
    cbn [gateway_auth.count gateway_auth.entries set_field]. rewrite used_store_append by lia. split.
    + rewrite find_first_snoc. unfold find_first. rewrite Hi. cbn [mbind option_bind].
      unfold gateway_auth.is_node at 1. cbn. rewrite Z.eqb_refl. eexists. split; [reflexivity|]. auto.
    + intros id' Hne. rewrite find_first_snoc. destruct (find_first _ _); [reflexivity|].
      unfold gateway_auth.is_node. cbn. rewrite (proj2 (Z.eqb_neq _ _)) by congruence. reflexivity.
Qed.

Lemma attest_refused hub t c r now :
  attestation_verify hub (Some c) (Some r) 5000 <> ATTEST_OK ->
  gateway_auth.edge_tracker_attest hub (Some t) (Some c) (Some r) now =
    (attestation_verify hub (Some c) (Some r) 5000, Some t).
Proof. intros Hv. unfold gateway_auth.edge_tracker_attest. destruct (attestation_verify _ _ _ _); congruence. Qed.

(** ** Properties *)

(** C11. A node answers the challenge of the hub with its own key.  If that gives the
    response the key registered for it gives, and the tracker has a place, the hub
    trusts the node from then on: at once, at every time up to the expiry after
    now, and in the ingest path; if not, it is refused and the tracker stays as
    it was.  Either way the trust in every other node is what it was. *)
Theorem node_gains_trust hub t ctx c k now :
  wf hub -> g_initialised hub = true -> wf_nodes t -> has_place t (ea_node_id ctx) ->
  key_set ctx = true -> registered hub (ea_node_id ctx) = Some k -> active k = true ->
  let '(_, _, resp) := edge_auth_respond (Some ctx) (Some c) true in
  let '(res, ot) := gateway_auth.edge_tracker_attest hub (Some t) (Some c) resp now in
  (attestation_compute_response (pre_shared_key ctx) c = attestation_compute_response (key k) c ->
     res = ATTEST_OK /\ gateway_auth.edge_tracker_is_trusted ot (ea_node_id ctx) 0 = true /\
     forall later, 0 <= now <= later -> later - now <= gateway_auth.expiry_ms t -> later < 2 ^ 64 ->
       gateway_auth.edge_tracker_is_trusted ot (ea_node_id ctx) later = true) /\
  (attestation_compute_response (pre_shared_key ctx) c <> attestation_compute_response (key k) c ->
     res <> ATTEST_OK /\ ot = Some t) /\
  (forall id later, id <> ea_node_id ctx ->
     gateway_auth.edge_tracker_is_trusted ot id later = gateway_auth.edge_tracker_is_trusted (Some t) id later).
Proof.
  intros Hwf Hi Ht Hplace Hk Hreg Hact.
  destruct (respond_verifies hub ctx c k 5000 Hwf Hi ltac:(lia) Hk Hreg Hact) as (r & -> & Hid & Hv).
  rewrite <- Hid in *.
  destruct (decide (attestation_verify hub (Some c) (Some r) 5000 = ATTEST_OK)) as [Hok|Hno].
  - destruct (attest_updates hub t c r now Ht Hplace Hok) as (t' & -> & _ & Hexp & (e & He & Ha & Hat) & Hothers).
    split; [|split].
    + intros _. split; [reflexivity|]. unfold gateway_auth.edge_tracker_is_trusted. rewrite He, Ha, Hat, Hexp.
      cbn [negb]. split; [reflexivity|]. intros later Hl Hle H64.
      rewrite u64_small by (unfold is_u64; lia). rewrite (proj2 (Z.ltb_ge _ (later - now))) by lia.
      rewrite andb_false_r. reflexivity.
    + intros Hne. contradiction Hne. apply Hv, Hok.
    + intros id later Hne. unfold gateway_auth.edge_tracker_is_trusted. rewrite (Hothers id Hne), Hexp. reflexivity.
  - rewrite (attest_refused hub t c r now Hno). split; [|split; auto]. intros E. contradiction Hno. apply Hv, E.
Qed.

End trust.

(** ** The theorem on a concrete node *)

Definition demo_ctx : EdgeAuthContext_t := default zero_ctx demo_edge.
Definition demo_nodes : gateway_auth.EdgeNodeTracker_t :=
  default gateway_auth.demo_nodes (gateway_auth.edge_tracker_init (Some gateway_auth.demo_nodes) 0).

Lemma node_gains_trust_witness :
  gateway_auth.edge_tracker_is_trusted
    (gateway_auth.edge_tracker_attest (H := mix_hmac) demo_state (Some demo_nodes) (Some demo_challenge)
       (edge_auth_respond (H := mix_hmac) (Some demo_ctx) (Some demo_challenge) true).2 1000).2 5 2000 = true.
Proof.
  assert (wf_nodes demo_nodes) as Hn by (split; [reflexivity|cbn; lia]).
  assert (has_place demo_nodes (ea_node_id demo_ctx)) as Hp by (right; cbn; lia).
  pose proof (node_gains_trust (HOk := mix_hmac_ok) demo_state demo_nodes demo_ctx demo_challenge demo_record 1000
                demo_keys_wf eq_refl Hn Hp eq_refl eq_refl eq_refl) as H.
  destruct (edge_auth_respond (Some demo_ctx) (Some demo_challenge) true) as [[r1 c1] resp]. cbn [snd].
  destruct (gateway_auth.edge_tracker_attest _ _ _ _ _) as [res ot]. cbn [snd].
  destruct H as ((_ & _ & H) & _); [reflexivity|]. apply H; [lia|vm_compute; congruence|vm_compute; reflexivity].
Defined.

End edge_trust.
