(* ===== verification/IngestionHandler.v ===== *)
(** The hub's ingestion handler (firmware/hub/ingestion_handler.c): one poll
    receives a frame, ingests it, and takes every entry through the profile's
    validation, the plausibility checks, the historian and the rule engine.

    The configuration holds what the C pointers point to: the trackers, the
    vtable, the radio (a function of the outside world) and the two lookups.
    [history_lookup] gives a pointer: the index of a buffer in [histories], so
    that two metrics may share one. *)

From S2P Require Import Prelude Float32 Hmac Ccm TimeSource AuditLog Attestation BatchFrame.
From S2P Require Import GatewayAuth RuleEngine SensorValidation Historian.
Import float32 hmac ccm batch_frame gateway_auth.
Import rule_engine_core(SensorReading_t, mk_reading, rd_node_id, rd_metric_id, rd_timestamp_ms,
  DomainProfileVTable_t, validateSensorReading).
Import sensor_validation(SensorValidationBounds_t, SensorHistory_t).

Module ingestion_handler.

Definition INGESTION_HANDLER_MAX_ENTRIES : Z := 22.

(** The payload received, if there was one. *)
Definition RadioReceiveFunc_t (W : Type) : Type := Z -> W -> option (list Z) * W.
Definition BoundsLookupFunc_t : Type := Z -> option SensorValidationBounds_t.
Definition HistoryLookupFunc_t : Type := Z -> option nat.

Record IngestionHandlerConfig_t (W : Type) := mk_config {
  gw_tracker : option GatewayGatewayTracker_t;
  edge_tracker : edge_tracker_ref;
  vtable : option (DomainProfileVTable_t W);
  radio_receive : option (RadioReceiveFunc_t W);
  bounds_lookup : option BoundsLookupFunc_t;
  history_lookup : option HistoryLookupFunc_t;
  domain_profile_id : Z }.
Arguments mk_config {W}. Arguments gw_tracker {W}. Arguments edge_tracker {W}.
Arguments vtable {W}. Arguments radio_receive {W}. Arguments bounds_lookup {W}.
Arguments history_lookup {W}. Arguments domain_profile_id {W}.

#[export] Instance eta_config W : Eta (IngestionHandlerConfig_t W) := fun r =>
  mk_config (gw_tracker r) (edge_tracker r) (vtable r) (radio_receive r) (bounds_lookup r)
    (history_lookup r) (domain_profile_id r).

Record IngestionHandlerStats_t := mk_stats {
  poll_count : Z;
  frames_received : Z;
  frames_ingested : Z;
  frames_rejected : Z;
  entries_processed : Z;
  entries_valid : Z;
  entries_rejected : Z;
  rules_triggered : Z }.

#[export] Instance eta_stats : Eta IngestionHandlerStats_t := fun r =>
  mk_stats (poll_count r) (frames_received r) (frames_ingested r) (frames_rejected r)
    (entries_processed r) (entries_valid r) (entries_rejected r) (rules_triggered r).

(** The handler's statics, then the state of the components it calls. *)
Record state (W : Type) := mk_state {
  s_config : option (IngestionHandlerConfig_t W);
  s_stats : IngestionHandlerStats_t;
  s_initialised : bool;
  audit : audit_log.state W;
  engine : rule_engine_core.state;
  validation : sensor_validation.state;
  histories : list SensorHistory_t;
  store : historian.state W }.
Arguments mk_state {W}. Arguments s_config {W}. Arguments s_stats {W}.
Arguments s_initialised {W}. Arguments audit {W}. Arguments engine {W}.
Arguments validation {W}. Arguments histories {W}. Arguments store {W}.

#[export] Instance eta_state W : Eta (state W) := fun r =>
  mk_state (s_config r) (s_stats r) (s_initialised r) (audit r) (engine r) (validation r)
    (histories r) (store r).

Definition zero_stats : IngestionHandlerStats_t := mk_stats 0 0 0 0 0 0 0 0.

Section handler.
Context {W : Type} `{MdHmac} `{Ccm}.
Implicit Types (st : state W) (w : W).

Definition ingestion_handler_init st (config : option (IngestionHandlerConfig_t W)) : bool * state W :=
  match config with
  | None => (false, st)
  | Some c =>
      match gw_tracker c, edge_tracker c, vtable c, radio_receive c with
      | None, _, _, _ | _, EDGE_TRACKER_NULL, _, _ | _, _, None, _ | _, _, _, None => (false, st)
      | _, _, _, _ =>
          (true, st <| s_config := Some c |> <| s_stats := zero_stats |> <| s_initialised := true |>)
      end
  end.

Definition reading_of (now : Z) (e : BatchFrameEntry_t) : SensorReading_t :=
  mk_reading (u8 (batch_frame.node_id e)) (batch_frame.metric_id e) (batch_frame.value e) now.

Definition bump_rejected st : state W :=
  st <| s_stats := (s_stats st) <| entries_rejected := u32 (entries_rejected (s_stats st) + 1) |> |>.

Definition log st w (sid : Z) (msg : list Z) : state W * W :=
  let '(al, w) := audit_log.audit_log_add (audit st) w audit_log.AUDIT_AUTH_FAILURE sid 0 (Some msg) in
  (st <| audit := al |>, w).

(** Gate 2: the bounds and the history buffer of the metric, when the profile
    has both; [None] skips the gate. *)
Definition lookup_gate (c : IngestionHandlerConfig_t W) (metric : Z)
  : option (SensorValidationBounds_t * nat) :=
  match bounds_lookup c, history_lookup c with
  | Some bl, Some hl =>
      match bl metric, hl metric with
      | Some b, Some i => Some (b, i)
      | _, _ => None
      end
  | _, _ => None
  end.

Definition gate_2 st (c : IngestionHandlerConfig_t W) (r : SensorReading_t) (now : Z)
  : bool * state W :=
  match lookup_gate c (rd_metric_id r) with
  | None => (true, st)
  | Some (b, i) =>
      let hist := histories st !! i in
      match sensor_validation.sensorValidate (validation st) (rd_node_id r) (rd_metric_id r)
              (rule_engine_core.value r) (Some b) hist now with
      | sensor_validation.SENSOR_VALID =>
          match sensor_validation.sensor_history_record hist (rd_node_id r) (rd_metric_id r)
                  (rule_engine_core.value r) now with
          | Some h => (true, st <| histories := <[i := h]> (histories st) |>)
          | None => (true, st)
          end
      | _ => (false, st)
      end
  end.

Definition history_record (c : IngestionHandlerConfig_t W) (r : SensorReading_t) (now : Z)
  : historian.HistorianRecord_t :=
  historian.mk_record now (rule_engine_core.value r) 0 (rd_node_id r) (rd_metric_id r)
    (domain_profile_id c) (zeros 4).

(** One turn of the loop: the number of rules triggered. *)
Definition process_entry st w (c : IngestionHandlerConfig_t W) (v : DomainProfileVTable_t W)
    (now : Z) (e : BatchFrameEntry_t) : Z * state W * W :=
  let st := st <| s_stats := (s_stats st)
                    <| entries_processed := u32 (entries_processed (s_stats st) + 1) |> |> in
  let r := reading_of now e in
  let '(ok, w) := validateSensorReading v r w in
  if negb ok then
    let '(st, w) := log (bump_rejected st) w (rd_node_id r)
                      (cstr "Ingestion handler: vtable validation rejected entry") in (0, st, w)
  else
    match gate_2 st c r now with
    | (false, st) =>
        let '(st, w) := log (bump_rejected st) w (rd_node_id r)
                          (cstr "Ingestion handler: sensorValidate rejected entry") in (0, st, w)
    | (true, st) =>
        let st := st <| s_stats := (s_stats st)
                          <| entries_valid := u32 (entries_valid (s_stats st) + 1) |> |> in
        let '(_, h, w) := historian.historian_write (store st) w (Some (history_record c r now)) in
        let st := st <| store := h |> in
        let triggered := u8 (Z.of_nat (length
          (rule_engine_core.rule_engine_evaluate (engine st) (Some v) (Some r) true
             rule_engine_core.RULE_ENGINE_MAX_ACTIONS))) in
        (triggered,
         st <| s_stats := (s_stats st)
                 <| rules_triggered := u32 (rules_triggered (s_stats st) + triggered) |> |>, w)
    end.

Fixpoint process_entries st w (c : IngestionHandlerConfig_t W) (v : DomainProfileVTable_t W)
    (now : Z) (es : list BatchFrameEntry_t) (total : Z) : Z * state W * W :=
  match es with
  | [] => (total, st, w)
  | e :: es =>
      let '(triggered, st, w) := process_entry st w c v now e in
      process_entries st w c v now es (u8 (total + triggered))
  end.

Definition ingestion_handler_poll st w (current_ms : Z) : Z * state W * W :=
  match s_config st with
  | Some c =>
      if negb (s_initialised st) then (0, st, w)
      else
        let st := st <| s_stats := (s_stats st)
                          <| poll_count := u32 (poll_count (s_stats st) + 1) |> |> in
        match vtable c, radio_receive c with
        | Some v, Some receive =>
            let '(payload, w) := receive 256 w in
            match payload with
            | None => (0, st, w)
            | Some frame =>
                let st := st <| s_stats := (s_stats st)
                                  <| frames_received := u32 (frames_received (s_stats st) + 1) |> |> in
                let '(gr, out, tr, al, w) :=
                  gateway_ingest_frame (audit st) w (gw_tracker c) (edge_tracker c) (Some frame) true
                    INGESTION_HANDLER_MAX_ENTRIES in
                let c := c <| gw_tracker := tr |> in
                let st := st <| s_config := Some c |> <| audit := al |> in
                match gr, out with
                | GW_FRAME_OK, Some (_, entries) =>
                    let st := st <| s_stats := (s_stats st)
                                      <| frames_ingested := u32 (frames_ingested (s_stats st) + 1) |> |> in
                    process_entries st w c v current_ms entries 0
                | _, _ =>
                    (0, st <| s_stats := (s_stats st)
                                <| frames_rejected := u32 (frames_rejected (s_stats st) + 1) |> |>, w)
                end
            end
        | _, _ => (0, st, w)
        end
  | None => (0, st, w)
  end.

Definition ingestion_handler_get_stats st : IngestionHandlerStats_t := s_stats st.
Definition ingestion_handler_reset_stats st : state W := st <| s_stats := zero_stats |>.

End handler.

(** ** What a poll records *)

(** The historian after a sequence of writes, whatever the outside world did
    between them. *)
Inductive recorded {W} `{Ccm} : historian.state W -> list historian.HistorianRecord_t ->
    historian.state W -> Prop :=
| recorded_nil h : recorded h [] h
| recorded_cons h r rs w ok h1 w1 h2 :
    historian.historian_write h w (Some r) = (ok, h1, w1) -> recorded h1 rs h2 ->
    recorded h (r :: rs) h2.

Section poll.
Context {W : Type} `{HOk : MdHmacOk} `{Ccm}.
Implicit Types (st : state W) (w : W) (c : IngestionHandlerConfig_t W) (v : DomainProfileVTable_t W).

(** Passed by the profile, and inside the physical range where the profile has
    bounds for the metric. *)
Definition validated c v (r : SensorReading_t) : Prop :=
  (exists w w', validateSensorReading v r w = (true, w')) /\
  forall b i, lookup_gate c (rd_metric_id r) = Some (b, i) ->
    flt (rule_engine_core.value r) (sensor_validation.min_physical b) = false /\
    fgt (rule_engine_core.value r) (sensor_validation.max_physical b) = false.

(** The entry counters after [n] valid and [m] rejected entries. *)
Definition counted (s s' : IngestionHandlerStats_t) (n m : nat) : Prop :=
  entries_processed s' = u32 (entries_processed s + Z.of_nat (n + m)) /\
  entries_valid s' = u32 (entries_valid s + Z.of_nat n) /\
  entries_rejected s' = u32 (entries_rejected s + Z.of_nat m).

Definition is_counter (s : IngestionHandlerStats_t) : Prop :=
  is_u32 (entries_processed s) /\ is_u32 (entries_valid s) /\ is_u32 (entries_rejected s).

Lemma counted_counter s s' n m : counted s s' n m -> is_counter s'.
Proof. intros (H1 & H2 & H3). unfold is_counter. rewrite H1, H2, H3. auto with words. Qed.

Lemma counted_refl s : is_counter s -> counted s s 0 0.
Proof. intros (H1 & H2 & H3). unfold counted. cbn. rewrite !Z.add_0_r, !u32_small by assumption. auto. Qed.

Lemma u32_add_add (x y z : Z) : u32 (u32 (x + y) + z) = u32 (x + (y + z)).
Proof. unfold u32. rewrite Zplus_mod_idemp_l. f_equal. lia. Qed.

Lemma counted_trans s1 s2 s3 n m n' m' :
  counted s1 s2 n m -> counted s2 s3 n' m' -> counted s1 s3 (n + n') (m + m').
Proof.
  intros (H1 & H2 & H3) (K1 & K2 & K3). unfold counted.
  rewrite K1, K2, K3, H1, H2, H3, !u32_add_add. repeat split; f_equal; lia.
Qed.

Lemma gate_2_ok st c r now st' :
  gate_2 st c r now = (true, st') ->
  store st' = store st /\ s_stats st' = s_stats st /\ s_config st' = s_config st /\
  forall b i, lookup_gate c (rd_metric_id r) = Some (b, i) ->
    flt (rule_engine_core.value r) (sensor_validation.min_physical b) = false /\
    fgt (rule_engine_core.value r) (sensor_validation.max_physical b) = false.
Proof.
  unfold gate_2. destruct (lookup_gate c (rd_metric_id r)) as [[b i]|].
  2: { intros [= <-]. split_and!; auto. discriminate. }
  destruct (sensor_validation.sensorValidate _ _ _ _ _ _ _) eqn:Hv; try discriminate.
  apply sensor_validation.valid_in_range in Hv.
  destruct (sensor_validation.sensor_history_record _ _ _ _ _); intros [= <-];
  (split_and!; auto; intros b' i' [= <- <-]; exact Hv).
Qed.

Lemma gate_2_rejects st c r now st' :
  gate_2 st c r now = (false, st') -> st' = st.
Proof.
  unfold gate_2. destruct (lookup_gate c (rd_metric_id r)) as [[b i]|]; [|discriminate].
  destruct (sensor_validation.sensorValidate _ _ _ _ _ _ _); try congruence.
  destruct (sensor_validation.sensor_history_record _ _ _ _ _); discriminate.
Qed.

Lemma log_fields st w sid msg :
  store (fst (log st w sid msg)) = store st /\ s_stats (fst (log st w sid msg)) = s_stats st /\
  s_config (fst (log st w sid msg)) = s_config st.
Proof. unfold log. destruct (audit_log.audit_log_add _ _ _ _ _ _). auto. Qed.

(** One entry: rejected and counted, or valid, counted and recorded. *)
Lemma process_entry_effect st w c v now e n st' w' :
  is_counter (s_stats st) -> process_entry st w c v now e = (n, st', w') ->
  s_config st' = s_config st /\
  (store st' = store st /\ counted (s_stats st) (s_stats st') 0 1 \/
   validated c v (reading_of now e) /\ counted (s_stats st) (s_stats st') 1 0 /\
   exists w1 ok w2, historian.historian_write (store st) w1
     (Some (history_record c (reading_of now e) now)) = (ok, store st', w2)).
Proof.
  intros (Hp & Hv & Hr). unfold process_entry.
  set (st1 := st <| s_stats := _ |>).
  destruct (validateSensorReading v (reading_of now e) w) as [ok w1] eqn:Hval.
  destruct ok; cbn [negb].
  2: { match goal with |- context [log ?a ?b ?d ?f] => pose proof (log_fields a b d f) as Hl end.
       destruct (log _ _ _ _) as [st2 w2]. intros [= <- <- <-]. destruct Hl as (Hl1 & Hl2 & Hl3).
       cbn [fst] in *. split; [rewrite Hl3; reflexivity|]. left. rewrite Hl1, Hl2.
       split; [reflexivity|]. unfold counted. cbn. rewrite Z.add_0_r, (u32_small (entries_valid _)) by exact Hv.
       auto. }
  destruct (gate_2 st1 c (reading_of now e) now) as [[] st2] eqn:Hg.
  - destruct (gate_2_ok _ _ _ _ _ Hg) as (G1 & G2 & G3 & G4).
    match goal with |- context [historian.historian_write ?a ?b ?d] =>
      destruct (historian.historian_write a b d) as [[hok h] w2] eqn:Hw end.
    intros [= <- <- <-]. split; [exact G3|]. right. split; [split; [eauto|exact G4]|].
    split; [|cbn in Hw; rewrite G1 in Hw; exists w1, hok, w2; exact Hw].
    unfold counted. cbn. rewrite G2. cbn. rewrite Z.add_0_r, (u32_small (entries_rejected _)) by exact Hr.
    auto.
  - apply gate_2_rejects in Hg as ->.
    match goal with |- context [log ?a ?b ?d ?f] => pose proof (log_fields a b d f) as Hl end.
    destruct (log _ _ _ _) as [st2 w2]. intros [= <- <- <-]. destruct Hl as (Hl1 & Hl2 & Hl3).
    cbn [fst] in *. split; [rewrite Hl3; reflexivity|]. left. rewrite Hl1, Hl2.
    split; [reflexivity|]. unfold counted. cbn. rewrite Z.add_0_r, (u32_small (entries_valid _)) by exact Hv.
    auto.
Qed.

(** The loop over the entries of a frame. *)
Lemma process_entries_effect es st w c v now total n st' w' :
  is_counter (s_stats st) -> process_entries st w c v now es total = (n, st', w') ->
  s_config st' = s_config st /\
  exists rs, rs `sublist_of` (reading_of now <$> es) /\ Forall (validated c v) rs /\
    recorded (store st) ((fun r => history_record c r now) <$> rs) (store st') /\
    counted (s_stats st) (s_stats st') (length rs) (length es - length rs).
Proof.
  revert st w total. induction es as [|e es IH]; intros st w total Hc; cbn [process_entries].
  { intros [= <- <- <-]. split; [reflexivity|]. exists []. split_and!; try constructor; apply counted_refl, Hc. }
  destruct (process_entry st w c v now e) as [[t1 st1] w1] eqn:He. intros Hp.
  apply process_entry_effect in He as [Hcfg He]; [|exact Hc].
  assert (is_counter (s_stats st1)) as Hc1
    by (destruct He as [(_ & He)|(_ & He & _)]; eapply counted_counter, He).
  destruct (IH _ _ _ Hc1 Hp) as (Hcfg2 & rs & Hsub & Hval & Hrec & Hcnt).
  split; [congruence|]. pose proof (sublist_length _ _ Hsub) as Hlen. rewrite length_fmap in Hlen.
  destruct He as [(Hst & He)|(Hv & He & wa & ok & wb & Hw)].
  - exists rs. split; [constructor; exact Hsub|]. split; [exact Hval|]. rewrite <- Hst. split; [exact Hrec|].
    replace (length (e :: es) - length rs)%nat with (1 + (length es - length rs))%nat by (cbn; lia).
    exact (counted_trans _ _ _ 0 1 _ _ He Hcnt).
  - exists (reading_of now e :: rs). split; [constructor; exact Hsub|].
    split; [constructor; assumption|]. split; [econstructor; [exact Hw|exact Hrec]|].
    exact (counted_trans _ _ _ 1 0 _ _ He Hcnt).
Qed.

(** A poll either leaves the historian and the entry counters alone, or takes
    the entries of an accepted frame through the loop. *)
Definition same_entries (s s' : IngestionHandlerStats_t) : Prop :=
  entries_processed s' = entries_processed s /\ entries_valid s' = entries_valid s /\
  entries_rejected s' = entries_rejected s.

Lemma counted_same s1 s2 s3 n m : same_entries s1 s2 -> counted s2 s3 n m -> counted s1 s3 n m.
Proof. intros (E1 & E2 & E3). unfold counted. rewrite E1, E2, E3. auto. Qed.

Lemma same_entries_counter s s' : same_entries s s' -> is_counter s -> is_counter s'.
Proof. intros (E1 & E2 & E3). unfold is_counter. rewrite E1, E2, E3. auto. Qed.

Lemma poll_cases st w c now n st' w' :
  s_config st = Some c -> ingestion_handler_poll st w now = (n, st', w') ->
  (store st' = store st /\ same_entries (s_stats st) (s_stats st')) \/
  exists v receive frame w1 header es tr al w2 st1,
    vtable c = Some v /\ radio_receive c = Some receive /\ receive 256 w = (Some frame, w1) /\
    gateway_ingest_frame (audit st) w1 (gw_tracker c) (edge_tracker c) (Some frame) true
      INGESTION_HANDLER_MAX_ENTRIES = (GW_FRAME_OK, Some (header, es), tr, al, w2) /\
    store st1 = store st /\ same_entries (s_stats st) (s_stats st1) /\
    process_entries st1 w2 (c <| gw_tracker := tr |>) v now es 0 = (n, st', w').
Proof.
  intros Hc. unfold ingestion_handler_poll. rewrite Hc.
  destruct (s_initialised st); cbn [negb].
  2: { intros [= <- <- <-]. left. repeat split. }
  destruct (vtable c) as [v|], (radio_receive c) as [receive|];
    try (intros [= <- <- <-]; left; repeat split).
  destruct (receive 256 w) as [[frame|] w1] eqn:Hr.
  2: { intros [= <- <- <-]. left. repeat split. }
  cbn [audit set_field].
  match goal with |- context [gateway_ingest_frame ?a ?b ?x ?d ?e ?f ?g] =>
    destruct (gateway_ingest_frame a b x d e f g) as [[[[gr out] tr] al] w2] eqn:Hi end.
  destruct gr, out as [[header es]|];
    try (intros [= <- <- <-]; left; repeat split).
  intros Hp. right. exists v, receive, frame, w1, header, es, tr, al, w2. eexists.
  do 4 (split; [reflexivity || eassumption|]). split; [|split; [|exact Hp]]; repeat split.
Qed.

(** The gateway's tracker is there and not authenticated, and nothing was ever
    ingested into the historian state [hs]. *)
Definition locked_out (hs : historian.state W) st : Prop :=
  (exists c t, s_config st = Some c /\ gw_tracker c = Some t /\ authenticated t = false) /\
  frames_ingested (s_stats st) = 0 /\ entries_processed (s_stats st) = 0 /\ store st = hs.

Lemma poll_locked_out hs st w now :
  locked_out hs st -> locked_out hs (snd (fst (ingestion_handler_poll st w now))).
Proof.
  intros ((c & t & Hc & Ht & Ha) & Hi & Hp & Hs). unfold ingestion_handler_poll. rewrite Hc.
  destruct (s_initialised st); cbn [negb].
  2: { split; [eauto|auto]. }
  destruct (vtable c) as [v|], (radio_receive c) as [receive|]; try (split; [exists c, t; auto|auto]; fail).
  destruct (receive 256 w) as [[frame|] w1]; [|split; [exists c, t; auto|auto]].
  rewrite Ht, unauthenticated_rejected by exact Ha.
  split; [|split_and!; [exact Hi|exact Hp|exact Hs]].
  eexists _, t. split; [reflexivity|]. split; [reflexivity|exact Ha].
Qed.

(** The counters of entries add up. *)
Definition accounted st : Prop :=
  is_counter (s_stats st) /\
  entries_processed (s_stats st) = u32 (entries_valid (s_stats st) + entries_rejected (s_stats st)).

Lemma counted_accounted s s' n m :
  counted s s' n m -> entries_processed s = u32 (entries_valid s + entries_rejected s) ->
  entries_processed s' = u32 (entries_valid s' + entries_rejected s').
Proof.
  intros (H1 & H2 & H3) E. rewrite H1, H2, H3, E. unfold u32.
  rewrite Zplus_mod_idemp_l, <- Zplus_mod. f_equal. lia.
Qed.

(** No entry is lost in the handler: initialisation and reset start the
    counters at zero, and every poll, whatever the radio delivers and whatever
    the validation decides, keeps the number of processed entries equal to the
    number of valid plus the number of rejected ones. *)
Theorem entries_accounted st w config now :
  (fst (ingestion_handler_init st config) = true -> accounted (snd (ingestion_handler_init st config))) /\
  accounted (ingestion_handler_reset_stats st) /\
  (accounted st -> accounted (snd (fst (ingestion_handler_poll st w now)))).
Proof.
  assert (is_counter zero_stats) as Hz by (unfold is_counter; cbn; words).
  split_and!.
  - unfold ingestion_handler_init. destruct config as [c|]; [|discriminate].
    destruct (gw_tracker c), (edge_tracker c), (vtable c), (radio_receive c); try discriminate;
      intros _; (split; [exact Hz|reflexivity]).
  - split; [exact Hz|reflexivity].
  - intros [Hk Hacc]. destruct (s_config st) as [c|] eqn:Hc.
    2: { unfold ingestion_handler_poll. rewrite Hc. split; assumption. }
    destruct (ingestion_handler_poll st w now) as [[n st'] w'] eqn:Hp. cbn [fst snd].
    destruct (poll_cases _ _ _ _ _ _ _ Hc Hp)
      as [(_ & Hs)|(v & rc & f & w1 & h & es & tr & al & w2 & st1 & _ & _ & _ & _ & _ & Hs & Hl)].
    + destruct Hs as (E1 & E2 & E3). unfold accounted, is_counter. rewrite E1, E2, E3. split; assumption.
    + pose proof (same_entries_counter _ _ Hs Hk) as Hk1.
      destruct (process_entries_effect _ _ _ _ _ _ _ _ _ _ Hk1 Hl) as (_ & rs & _ & _ & _ & Hn).
      apply (counted_same _ _ _ _ _ Hs) in Hn.
      split; [exact (counted_counter _ _ _ _ Hn)|]. exact (counted_accounted _ _ _ _ Hn Hacc).
Qed.

(** The handler with another [executeAction] in its profile. *)
Definition with_action (f : Z -> Z -> W -> bool * W) v : DomainProfileVTable_t W :=
  rule_engine_core.mk_vtable (rule_engine_core.getRuleTable v) (validateSensorReading v)
    (rule_engine_core.getFailSafeMode v) f.

Definition config_with_action (f : Z -> Z -> W -> bool * W) c : IngestionHandlerConfig_t W :=
  c <| vtable := with_action f <$> vtable c |>.

Definition state_with_action (f : Z -> Z -> W -> bool * W) st : state W :=
  st <| s_config := config_with_action f <$> s_config st |>.

(** The results of a step with the profile's action replaced in the state. *)
Definition replaced (f : Z -> Z -> W -> bool * W) (r : Z * state W * W) : Z * state W * W :=
  let '(n, st, w) := r in (n, state_with_action f st, w).

Lemma gate_2_with_action f st c r now :
  gate_2 (state_with_action f st) (config_with_action f c) r now =
  let '(ok, st') := gate_2 st c r now in (ok, state_with_action f st').
Proof.
  unfold gate_2. change (lookup_gate (config_with_action f c)) with (lookup_gate c).
  destruct (lookup_gate c (rd_metric_id r)) as [[b i]|]; [|reflexivity].
  change (histories (state_with_action f st)) with (histories st).
  change (validation (state_with_action f st)) with (validation st).
  destruct (sensor_validation.sensorValidate _ _ _ _ _ _ _); try reflexivity.
  destruct (sensor_validation.sensor_history_record _ _ _ _ _); reflexivity.
Qed.

Lemma log_with_action f st w sid msg :
  log (state_with_action f st) w sid msg =
  let '(st', w') := log st w sid msg in (state_with_action f st', w').
Proof.
  unfold log. change (audit (state_with_action f st)) with (audit st).
  destruct (audit_log.audit_log_add _ _ _ _ _ _). reflexivity.
Qed.

Lemma reject_with_action f st w sid msg :
  (let '(st', w') := log (bump_rejected (state_with_action f st)) w sid msg in (0, st', w')) =
  replaced f (let '(st', w') := log (bump_rejected st) w sid msg in (0, st', w')).
Proof.
  change (bump_rejected (state_with_action f st)) with (state_with_action f (bump_rejected st)).
  rewrite log_with_action. destruct (log _ _ _ _). reflexivity.
Qed.

Lemma process_entry_with_action f st w c v now e :
  process_entry (state_with_action f st) w (config_with_action f c) (with_action f v) now e =
  replaced f (process_entry st w c v now e).
Proof.
  unfold process_entry. change (validateSensorReading (with_action f v)) with (validateSensorReading v).
  set (st1 := st <| s_stats := _ |>).
  match goal with |- context [set_field ?x (state_with_action f st)] =>
    change (set_field x (state_with_action f st)) with (state_with_action f st1) end.
  cbv zeta. clearbody st1. clear st.
  destruct (validateSensorReading v (reading_of now e) w) as [[] w1]; cbn [negb].
  2: apply reject_with_action.
  rewrite gate_2_with_action. destruct (gate_2 st1 c _ now) as [[] st2]; [|apply reject_with_action].
  set (st3 := st2 <| s_stats := _ |>).
  match goal with |- context [set_field ?x (state_with_action f st2)] =>
    change (set_field x (state_with_action f st2)) with (state_with_action f st3) end.
  clearbody st3.
  change (store (state_with_action f st3)) with (store st3).
  change (history_record (config_with_action f c)) with (history_record c).
  destruct (historian.historian_write _ _ _) as [[ok h] w2]. reflexivity.
Qed.

Lemma process_entries_with_action f es : forall st w c v now total,
  process_entries (state_with_action f st) w (config_with_action f c) (with_action f v) now es total =
  replaced f (process_entries st w c v now es total).
Proof.
  induction es as [|e es IH]; intros st w c v now total; cbn [process_entries]; [reflexivity|].
  rewrite process_entry_with_action. destruct (process_entry st w c v now e) as [[t st1] w1].
  apply IH.
Qed.

(** No rule moves an actuator: whatever the profile's [executeAction] does,
    a poll gives the same result, leaves the same state behind and does the
    same to the outside world. Rules that trigger, interlocks included, are
    only counted. *)
Theorem poll_never_actuates f st w now :
  ingestion_handler_poll (state_with_action f st) w now =
  replaced f (ingestion_handler_poll st w now).
Proof.
  unfold ingestion_handler_poll. destruct st as [[c|] stats init al eng vl hs h]; [|reflexivity].
  cbn [state_with_action s_config s_initialised set_field fmap option_fmap option_map].
  destruct init; cbn [negb]; [|reflexivity].
  change (vtable (config_with_action f c)) with (with_action f <$> vtable c).
  change (radio_receive (config_with_action f c)) with (radio_receive c).
  destruct (vtable c) as [v|] eqn:Hv; [|reflexivity]. cbn [fmap option_fmap option_map].
  destruct (radio_receive c) as [receive|]; [|reflexivity].
  destruct (receive 256 w) as [[frame|] w1]; [|reflexivity].
  change (gw_tracker (config_with_action f c)) with (gw_tracker c).
  change (edge_tracker (config_with_action f c)) with (edge_tracker c).
  repeat match goal with |- context [gateway_ingest_frame ?a w1] => progress change a with al end.
  match goal with |- context [gateway_ingest_frame ?a ?b ?x ?d ?e ?g ?h] =>
    destruct (gateway_ingest_frame a b x d e g h) as [[[[gr out] tr] al'] w2] end.
  destruct gr, out as [[header es]|]; try reflexivity.
  etransitivity; [|apply process_entries_with_action]. reflexivity.
Qed.

End poll.

Section end_to_end.
Context {W : Type} `{HOk : MdHmacOk} `{COk : CcmOk}.
Implicit Types (st : state W) (w : W) (c : IngestionHandlerConfig_t W).





End end_to_end.

(** ** A hub with an attested node *)

Definition demo_vtable : DomainProfileVTable_t historian.ram :=
  rule_engine_core.mk_vtable (None, 0) (fun r w => (flt (rule_engine_core.value r) (lit 50), w))
    (fun _ _ => 0) (fun _ _ w => (true, w)).

Definition demo_radio : RadioReceiveFunc_t historian.ram := fun _ w => (Some demo_frame, w).

Definition demo_config : IngestionHandlerConfig_t historian.ram :=
  mk_config (Some demo_tracker) (EDGE_TRACKER demo_nodes) (Some demo_vtable) (Some demo_radio) None None 1.

Definition demo_hub : state historian.ram :=
  mk_state (Some demo_config) zero_stats true audit_log.initial (rule_engine_core.mk_state true)
    sensor_validation.initial [] (fst historian.demo_boot).

Definition demo_poll : Z * state historian.ram * historian.ram :=
  ingestion_handler_poll (H := mix_hmac) (H0 := toy_ccm) demo_hub (snd historian.demo_boot) 5000.



Lemma entries_accounted_witness : accounted (snd (fst demo_poll)).
Proof.
  apply (entries_accounted (H0 := toy_ccm) demo_hub (snd historian.demo_boot) None 5000).
  unfold accounted, is_counter. cbn. repeat split; words.
Defined.

End ingestion_handler.
