(* ===== verification/HubMain.v ===== *)
(** The hub as it is built (firmware/hub/main.c and app_main.cpp): the profile
    chosen at compile time, the initialisation of every component in order, and
    the main loop that polls the ingestion handler once a second.

    The radio adapter is a function of the outside world; the state of the radio
    drivers is part of it. *)

From S2P Require Import Prelude Float32 Hmac Ccm AuditLog Attestation TransportEncryption.
From S2P Require Import ReplayProtection Firmware ActuatorFailsafe RuleEngine SensorValidation.
From S2P Require Import DomainProfile HomeProfile AgricultureProfile WaterProfile HvacProfile.
From S2P Require Import BatchFrame ConfigPortal GatewayAuth Historian IngestionHandler.
Import actuator_failsafe(ActuatorFailSafeMode_t, FAILSAFE_DE_ENERGIZE, FAILSAFE_HOLD_LAST, FAILSAFE_FORCE_OFF,
  FAILSAFE_FORCE_SAFE_POS, power_loss_mode, comms_loss_mode, comms_timeout_sec).
Import float32 hmac ccm home_profile agriculture_profile water_profile hvac_profile.
Import rule_engine_core(SensorReading_t, rd_metric_id, DomainProfileVTable_t, RuleEvaluationResult_t,
  mk_result, RULE_ACTION_SET_ACTUATOR, ACTUATOR_STATE_ON, ACTUATOR_STATE_OFF).

Module hub_main.

(** The macro the build defines. *)
Inductive hub_profile :=
| PROFILE_HOME
| PROFILE_AGRICULTURE
| PROFILE_HVAC
| PROFILE_WATER_TREATMENT.

#[export] Instance hub_profile_eq_dec : EqDecision hub_profile.
Proof. solve_decision. Defined.

Definition profile_vtable {W} (p : hub_profile) : DomainProfileVTable_t W :=
  match p with
  | PROFILE_HOME => home_profile_get_vtable
  | PROFILE_AGRICULTURE => agriculture_profile_get_vtable
  | PROFILE_HVAC => hvac_profile_get_vtable
  | PROFILE_WATER_TREATMENT => water_profile_get_vtable
  end.

Definition profile_bounds (p : hub_profile) : ingestion_handler.BoundsLookupFunc_t :=
  match p with
  | PROFILE_HOME => home_get_validation_bounds
  | PROFILE_AGRICULTURE => agriculture_get_validation_bounds
  | PROFILE_HVAC => hvac_get_validation_bounds
  | PROFILE_WATER_TREATMENT => water_get_validation_bounds
  end.

Definition profile_id (p : hub_profile) : Z :=
  match p with
  | PROFILE_HOME => 0
  | PROFILE_AGRICULTURE => 1
  | PROFILE_HVAC => 2
  | PROFILE_WATER_TREATMENT => 3
  end.

Definition failsafe_register_all (p : hub_profile) (st : actuator_failsafe.state)
  : bool * actuator_failsafe.state :=
  match p with
  | PROFILE_HOME => home_failsafe_register_all st
  | PROFILE_AGRICULTURE => agriculture_failsafe_register_all st
  | PROFILE_HVAC => hvac_failsafe_register_all st
  | PROFILE_WATER_TREATMENT => water_failsafe_register_all st
  end.

Definition get_comms_timeout (p : hub_profile) (actuator_id : Z) : Z :=
  match p with
  | PROFILE_HOME => home_get_comms_timeout actuator_id
  | PROFILE_AGRICULTURE => agriculture_get_comms_timeout actuator_id
  | PROFILE_HVAC => hvac_get_comms_timeout actuator_id
  | PROFILE_WATER_TREATMENT => water_get_comms_timeout actuator_id
  end.

(** The statics of the components; the audit log of the hub is the one of
    [pipeline]. *)
Record hub_state (W : Type) := mk_hub {
  attest : attestation.state;
  transport : transport_encryption.state;
  replay : replay_protection.state;
  integrity : firmware_integrity.state;
  failsafe : actuator_failsafe.state;
  portal : config_portal.state W;
  pipeline : ingestion_handler.state W;
  last_poll_ms : Z }.
Arguments mk_hub {W}. Arguments attest {W}. Arguments transport {W}. Arguments replay {W}.
Arguments integrity {W}. Arguments failsafe {W}. Arguments portal {W}. Arguments pipeline {W}.
Arguments last_poll_ms {W}.

#[export] Instance eta_hub W : Eta (hub_state W) := fun r =>
  mk_hub (attest r) (transport r) (replay r) (integrity r) (failsafe r) (portal r) (pipeline r)
    (last_poll_ms r).

Definition zero_key : list Z := zeros 32.
Definition blank_tracker : gateway_auth.GatewayGatewayTracker_t :=
  gateway_auth.mk_tracker 0 0 false (zeros 32) false.
Definition blank_nodes : gateway_auth.EdgeNodeTracker_t :=
  gateway_auth.mk_nodes (replicate 32 (gateway_auth.mk_node 0 false 0 false)) 0 0.

Definition s_hub_gw_tracker : option gateway_auth.GatewayGatewayTracker_t :=
  gateway_auth.gateway_tracker_init (Some blank_tracker) 0xF0 (Some zero_key).

Definition s_hub_edge_tracker : gateway_auth.edge_tracker_ref :=
  match gateway_auth.edge_tracker_init (Some blank_nodes) 0 with
  | Some t => gateway_auth.EDGE_TRACKER t
  | None => gateway_auth.EDGE_TRACKER_NULL
  end.

#[local] Existing Instance ingestion_handler.eta_state.
#[local] Existing Instance config_portal.eta_state.

Section hub.
Context {W : Type} `{MdHmac} `{Ccm}.
Implicit Types (h : hub_state W) (w : W) (p : hub_profile).

(** The configuration [hub_init] builds; there are no history buffers. *)
Definition ih_config p (radio : ingestion_handler.RadioReceiveFunc_t W)
  : ingestion_handler.IngestionHandlerConfig_t W :=
  ingestion_handler.mk_config s_hub_gw_tracker s_hub_edge_tracker (Some (profile_vtable p)) (Some radio)
    (Some (profile_bounds p)) None (profile_id p).

(** The components up to the portal; [false] at the first that fails. *)
Definition init_components h w p : bool * hub_state W * W :=
  let '(ok, s) := attestation.attestation_init (attest h) in
  let h := h <| attest := s |> in
  if negb ok then (false, h, w) else
  let '(ok, s) := transport_encryption.transport_init (transport h) in
  let h := h <| transport := s |> in
  if negb ok then (false, h, w) else
  let '(ok, s) := replay_protection.replay_init (replay h) in
  let h := h <| replay := s |> in
  if negb ok then (false, h, w) else
  let '(ok, s) := firmware_integrity.firmware_integrity_init (integrity h) in
  let h := h <| integrity := s |> in
  if negb ok then (false, h, w) else
  let '(ok, s) := rule_engine_core.rule_engine_init (ingestion_handler.engine (pipeline h)) in
  let h := h <| pipeline := (pipeline h) <| ingestion_handler.engine := s |> |> in
  if negb ok then (false, h, w) else
  let '(ok, s) := sensor_validation.sensor_validation_init (ingestion_handler.validation (pipeline h)) in
  let h := h <| pipeline := (pipeline h) <| ingestion_handler.validation := s |> |> in
  if negb ok then (false, h, w) else
  let '(ok, s) := actuator_failsafe.actuator_failsafe_init (failsafe h) in
  let h := h <| failsafe := s |> in
  if negb ok then (false, h, w) else
  let '(ok, s) := failsafe_register_all p (failsafe h) in
  let h := h <| failsafe := s |> in
  if negb ok then (false, h, w) else
  let '(ok, s, w) := config_portal.config_portal_init
      ((portal h) <| config_portal.audit := ingestion_handler.audit (pipeline h) |>) w in
  (ok, h <| portal := s |>
         <| pipeline := (pipeline h) <| ingestion_handler.audit := config_portal.audit s |> |>, w).

Definition hub_init h w p (radio : ingestion_handler.RadioReceiveFunc_t W) : bool * hub_state W * W :=
  let '(ok, h, w) := init_components h w p in
  if negb ok then (false, h, w) else
  let '(_, s, w) := historian.historian_init (ingestion_handler.store (pipeline h)) w in
  let h := h <| pipeline := (pipeline h) <| ingestion_handler.store := s |> |> in
  let '(ok, s) := ingestion_handler.ingestion_handler_init (pipeline h) (Some (ih_config p radio)) in
  (ok, h <| pipeline := s |>, w).

(** One turn of the main loop at [now_ms], the 32-bit uptime. *)
Definition loop h w (now_ms : Z) : hub_state W * W :=
  if 1000 <=? u32 (now_ms - last_poll_ms h) then
    let h := h <| last_poll_ms := now_ms |> in
    let '(_, s, w) := ingestion_handler.ingestion_handler_poll (pipeline h) w now_ms in
    (h <| pipeline := s |>, w)
  else (h, w).

Fixpoint loops h w (times : list Z) : hub_state W * W :=
  match times with
  | [] => (h, w)
  | now_ms :: times => let '(h, w) := loop h w now_ms in loops h w times
  end.

End hub.

(** ** What initialisation establishes *)

(** What each build does with its actuators 1, 2 and 3: the mode at a power loss,
    the seconds a communication loss is waited out, and the mode after them. *)
Definition failsafe_row (p : hub_profile) (id : Z)
  : option (ActuatorFailSafeMode_t * Z * ActuatorFailSafeMode_t) :=
  let '(first, second, third) :=
    match p with
    | PROFILE_HOME => ((FAILSAFE_FORCE_SAFE_POS, 0, FAILSAFE_HOLD_LAST),
                       (FAILSAFE_FORCE_OFF, 600, FAILSAFE_HOLD_LAST),
                       (FAILSAFE_FORCE_OFF, 0, FAILSAFE_HOLD_LAST))
    | PROFILE_AGRICULTURE => ((FAILSAFE_FORCE_OFF, 30, FAILSAFE_FORCE_OFF),
                              (FAILSAFE_DE_ENERGIZE, 600, FAILSAFE_HOLD_LAST),
                              (FAILSAFE_DE_ENERGIZE, 300, FAILSAFE_HOLD_LAST))
    | PROFILE_HVAC => ((FAILSAFE_FORCE_OFF, 30, FAILSAFE_FORCE_OFF),
                       (FAILSAFE_FORCE_SAFE_POS, 300, FAILSAFE_HOLD_LAST),
                       (FAILSAFE_FORCE_OFF, 300, FAILSAFE_HOLD_LAST))
    | PROFILE_WATER_TREATMENT => ((FAILSAFE_FORCE_OFF, 10, FAILSAFE_FORCE_OFF),
                                  (FAILSAFE_DE_ENERGIZE, 60, FAILSAFE_HOLD_LAST),
                                  (FAILSAFE_FORCE_OFF, 120, FAILSAFE_HOLD_LAST))
    end in
  if id =? 1 then Some first else if id =? 2 then Some second else if id =? 3 then Some third else None.

(** The table a profile registers has the rows of [failsafe_row]. *)
Lemma failsafe_table_rows p :
  exists table, (forall st, failsafe_register_all p st = domain_profile.register_table table st) /\
    (forall W, domain_profile.FailsafeTableOk table
       (rule_engine_core.getFailSafeMode (@profile_vtable W p))) /\
    (forall id, (fun e => (power_loss_mode e, comms_timeout_sec e, comms_loss_mode e)) <$>
       find_first (actuator_failsafe.has_id id) table = failsafe_row p id).
Proof.
  destruct p; eexists; (split; [reflexivity|]); (split; [intros W; exact _|]); intros id; unfold failsafe_row;
    (destruct (Z.eqb_spec id 1) as [->|]; [reflexivity|]); (destruct (Z.eqb_spec id 2) as [->|]; [reflexivity|]);
    (destruct (Z.eqb_spec id 3) as [->|]; [reflexivity|]);
    (rewrite (proj2 (find_first_None _ _)); [reflexivity|]); apply Forall_forall;
    repeat constructor; apply Z.eqb_neq, not_eq_sym; assumption.
Qed.

(** The decisions of the engine after the build's registration. *)
Lemma failsafe_registered p st0 :
  exists st, failsafe_register_all p (snd (actuator_failsafe.actuator_failsafe_init st0)) = (true, st) /\
    forall id power elapsed,
      actuator_failsafe.actuator_failsafe_execute st id power elapsed =
        match failsafe_row p id with
        | Some (at_power_loss, timeout, afterwards) =>
            (true, if power : bool then Some at_power_loss else if elapsed <? timeout then None else Some afterwards)
        | None => (false, None)
        end.
Proof.
  destruct (failsafe_table_rows p) as (table & Hreg & Hok & Hrows). rewrite Hreg.
  destruct (domain_profile.register_table_decides table _ (FailsafeTableOk0 := Hok unit) st0) as (st & -> & Hex).
  exists st. split; [reflexivity|]. intros id power elapsed. rewrite Hex, <- Hrows.
  destruct (find_first _ table); reflexivity.
Qed.

Lemma register_profile p st0 :
  fst (failsafe_register_all p (snd (actuator_failsafe.actuator_failsafe_init st0))) = true.
Proof. destruct (failsafe_registered p st0) as (st & -> & _). reflexivity. Qed.

(** ** What a reading commands *)

(** A row of a profile's rule table as the engine acts on it: at or above (or
    else below) the limit the actuator gets the state. *)
Record command := mk_command {
  cmd_rule : Z; cmd_metric : Z; cmd_above : bool; cmd_limit : float; cmd_actuator : Z; cmd_state : Z }.

Definition commands (p : hub_profile) : list command :=
  match p with
  | PROFILE_HOME =>
      [mk_command HOME_RULE_DOOR_LOCK_CRITICAL HOME_METRIC_SECURITY_STATE true (lit 1)
         HOME_ACTUATOR_DOOR_LOCK ACTUATOR_STATE_ON;
       mk_command HOME_RULE_IRRIGATION_OPERATIONAL HOME_METRIC_SOIL_MOISTURE true (lit 30)
         HOME_ACTUATOR_IRRIGATION_VALVE ACTUATOR_STATE_ON;
       mk_command HOME_RULE_LIGHTING_OPERATIONAL HOME_METRIC_LIGHT_LEVEL true (lit 100)
         HOME_ACTUATOR_LIGHT_RELAY ACTUATOR_STATE_ON]
  | PROFILE_AGRICULTURE =>
      [mk_command AGRI_RULE_PUMP_DRY_RUN_CRITICAL AGRI_METRIC_WATER_LEVEL false (lit 10)
         AGRI_ACTUATOR_IRRIGATION_PUMP ACTUATOR_STATE_OFF;
       mk_command AGRI_RULE_IRRIGATION_OPERATIONAL AGRI_METRIC_SOIL_MOISTURE false (lit 25)
         AGRI_ACTUATOR_IRRIGATION_VALVE ACTUATOR_STATE_OFF;
       mk_command AGRI_RULE_FROST_PROTECT_OPERATIONAL AGRI_METRIC_AMBIENT_TEMP false (lit 2)
         AGRI_ACTUATOR_FROST_VALVE ACTUATOR_STATE_OFF]
  | PROFILE_HVAC =>
      [mk_command HVAC_RULE_COMPRESSOR_POST_RUN_LOCKOUT HVAC_METRIC_SUPPLY_TEMP true (lit 45)
         HVAC_ACTUATOR_COMPRESSOR_RELAY ACTUATOR_STATE_ON;
       mk_command HVAC_RULE_OVERTEMP_PROTECT HVAC_METRIC_SUPPLY_TEMP true (lit 55)
         HVAC_ACTUATOR_COMPRESSOR_RELAY ACTUATOR_STATE_ON;
       mk_command HVAC_RULE_COMFORT_SETPOINT HVAC_METRIC_RETURN_TEMP false (lit 20)
         HVAC_ACTUATOR_FAN_MOTOR ACTUATOR_STATE_OFF]
  | PROFILE_WATER_TREATMENT =>
      [mk_command WATER_RULE_CHLORINE_SAFETY WATER_METRIC_CHLORINE_LEVEL true WATER_CHLORINE_SAFE_MAX_PPM
         WATER_ACTUATOR_DOSING_VALVE ACTUATOR_STATE_ON;
       mk_command WATER_RULE_PH_HIGH_SAFETY WATER_METRIC_PH true WATER_PH_SAFE_MAX
         WATER_ACTUATOR_DOSING_VALVE ACTUATOR_STATE_ON;
       mk_command WATER_RULE_PH_LOW_SAFETY WATER_METRIC_PH false WATER_PH_SAFE_MIN
         WATER_ACTUATOR_DOSING_VALVE ACTUATOR_STATE_OFF;
       mk_command WATER_RULE_TANK_REFILL WATER_METRIC_TANK_LEVEL false (lit 20)
         WATER_ACTUATOR_MAIN_SUPPLY_VALVE ACTUATOR_STATE_OFF]
  end.

Definition commanded (r : SensorReading_t) (c : command) : bool :=
  (cmd_metric c =? rd_metric_id r) &&
  if cmd_above c then fge (rule_engine_core.value r) (cmd_limit c)
  else flt (rule_engine_core.value r) (cmd_limit c).

Definition command_result (c : command) : RuleEvaluationResult_t :=
  mk_result (cmd_rule c) true RULE_ACTION_SET_ACTUATOR (cmd_actuator c) (cmd_state c).

(** A rule does what the command says on every reading. *)
Definition implements (rule : rule_engine_core.RuleEntry_t) (c : command) : Prop :=
  rule_engine_core.rule_id rule = cmd_rule c /\ rule_engine_core.metric_id rule = cmd_metric c /\
  rule_engine_core.action_type rule = RULE_ACTION_SET_ACTUATOR /\
  rule_engine_core.actuator_id rule = cmd_actuator c /\ rule_engine_core.threshold rule = cmd_limit c /\
  (rule_engine_core.comparison_type rule =? rule_engine_core.RULE_COMPARE_BELOW) = negb (cmd_above c) /\
  cmd_state c = if cmd_above c then ACTUATOR_STATE_ON else ACTUATOR_STATE_OFF.

Lemma implements_fires rule c r :
  implements rule c -> rule_engine_core.fires r rule = commanded r c.
Proof.
  intros (_ & Hm & _ & _ & Ht & Hc & _). unfold rule_engine_core.fires, commanded, rule_engine_core.rule_triggered.
  rewrite Hm, Ht, Hc. destruct (cmd_above c); reflexivity.
Qed.

Lemma implements_result rule c r :
  implements rule c -> rule_engine_core.fires r rule = true ->
  rule_engine_core.rule_result r rule = command_result c.
Proof.
  intros (Hid & _ & Ha & Hact & _ & Hc & Hs) Hf. apply andb_true_iff in Hf as [_ Hf].
  apply rule_engine_core.rule_result_state in Hf. rewrite Hc in Hf.
  unfold command_result. rewrite <- Hid, <- Ha, <- Hact, Hs. unfold rule_engine_core.rule_result in *.
  cbn in Hf |- *. rewrite Hf. destruct (cmd_above c); reflexivity.
Qed.

Lemma implements_table rules cs r :
  Forall2 implements rules cs ->
  rule_engine_core.rule_result r <$> List.filter (rule_engine_core.fires r) rules =
  command_result <$> List.filter (commanded r) cs.
Proof.
  induction 1 as [|rule c rules cs Hi _ IH]; [reflexivity|]. cbn [List.filter].
  rewrite <- (implements_fires rule c r Hi). destruct (rule_engine_core.fires r rule) eqn:Hf; [|exact IH].
  rewrite !fmap_cons, IH, (implements_result rule c r Hi Hf). reflexivity.
Qed.

(** What every profile commands, exactly: evaluating a reading on the
    profile of the build gives, in table order, one SET_ACTUATOR result for
    every row of [commands] the reading reaches. So the rules that should shut
    something down above a limit (HVAC over-temperature, chlorine, high pH)
    command ON, and those that should open or start something below one
    (irrigation, frost protection, tank refill, comfort fan) command OFF. *)
Theorem profile_commands {W} p st r :
  rule_engine_core.g_initialised st = true ->
  rule_engine_core.rule_engine_evaluate st (Some (@profile_vtable W p)) (Some r) true
    rule_engine_core.RULE_ENGINE_MAX_ACTIONS =
  command_result <$> List.filter (commanded r) (commands p).
Proof.
  intros Hi.
  assert (exists rules count, rule_engine_core.getRuleTable (@profile_vtable W p) = (Some rules, count) /\
    take (Z.to_nat count) rules = rules /\ Forall2 implements rules (commands p) /\ (length rules <= 8)%nat)
    as (rules & count & Hg & Ht & Hf & Hl).
  { destruct p; eexists _, _; (split; [reflexivity|]); (split; [reflexivity|]);
      (split; [repeat constructor|cbn; lia]). }
  rewrite (rule_engine_core.evaluate_filter st _ r rule_engine_core.RULE_ENGINE_MAX_ACTIONS rules count
    Hi eq_refl Hg), Ht.
  rewrite (implements_table rules (commands p) r Hf). apply take_ge.
  rewrite length_fmap. etransitivity; [apply filter_length_le|].
  rewrite <- (Forall2_length _ _ _ Hf). exact Hl.
Qed.

(** The modes of the rows, as the vtable of the profile answers them. *)
Lemma failsafe_row_modes {W} p id at_power_loss timeout afterwards :
  failsafe_row p id = Some (at_power_loss, timeout, afterwards) ->
  rule_engine_core.getFailSafeMode (@profile_vtable W p) id true = domain_profile.mode_code at_power_loss /\
  rule_engine_core.getFailSafeMode (@profile_vtable W p) id false = domain_profile.mode_code afterwards /\
  get_comms_timeout p id = timeout.
Proof.
  unfold failsafe_row.
  destruct (Z.eqb_spec id 1) as [->|_]; [|destruct (Z.eqb_spec id 2) as [->|_];
    [|destruct (Z.eqb_spec id 3) as [->|_]; [|destruct p; discriminate]]];
    destruct p; intros [= <- <- <-]; repeat split; reflexivity.
Qed.

(** C20. The fail-safe decisions of the build, row by row: registration succeeds
    and makes the engine know exactly the actuators 1, 2 and 3 of the profile. A
    power loss puts each into the mode of its row at once. A communication loss
    leaves it as it is while it is shorter than the row's seconds and afterwards
    puts it into the row's mode: OFF for the compressor, the irrigation pump and
    the dosing valve; HOLD_LAST for the other nine, which therefore keep their
    last state however long the loss lasts. The profile's [getFailSafeMode]
    and timeout function answer with the same modes and seconds. *)
Theorem failsafe_decisions {W} p st0 id power elapsed :
  let '(ok, st) := failsafe_register_all p (snd (actuator_failsafe.actuator_failsafe_init st0)) in
  ok = true /\
  match failsafe_row p id with
  | Some (at_power_loss, timeout, afterwards) =>
      1 <= id <= 3 /\
      actuator_failsafe.actuator_failsafe_execute st id power elapsed =
        (true, if power : bool then Some at_power_loss
               else if elapsed <? timeout then None else Some afterwards) /\
      afterwards = (if bool_decide (p <> PROFILE_HOME /\ id = 1) then FAILSAFE_FORCE_OFF else FAILSAFE_HOLD_LAST) /\
      rule_engine_core.getFailSafeMode (@profile_vtable W p) id true = domain_profile.mode_code at_power_loss /\
      rule_engine_core.getFailSafeMode (@profile_vtable W p) id false = domain_profile.mode_code afterwards /\
      get_comms_timeout p id = timeout
  | None => ~ 1 <= id <= 3 /\
      actuator_failsafe.actuator_failsafe_execute st id power elapsed = (false, None)
  end.
Proof.
  destruct (failsafe_registered p st0) as (st & -> & Hex). split; [reflexivity|]. rewrite Hex.
  destruct (failsafe_row p id) as [[[pl t] cl]|] eqn:Hr.
  - pose proof (failsafe_row_modes (W := W) p id pl t cl Hr) as Hm. revert Hr. unfold failsafe_row.
    destruct (Z.eqb_spec id 1) as [->|_]; [|destruct (Z.eqb_spec id 2) as [->|_];
      [|destruct (Z.eqb_spec id 3) as [->|_]; [|destruct p; discriminate]]];
      destruct p; intros [= <- <- <-]; (split; [lia|]); (split; [reflexivity|]); (split; [reflexivity|exact Hm]).
  - split; [|reflexivity]. revert Hr. unfold failsafe_row.
    destruct p; repeat case_match; reflect; (discriminate || lia).
Qed.

(** What the comments of the profiles say of a communication loss that outlasts
    the timeout, where they name a mode other than holding the last state. *)
Definition documented_after_hold (p : hub_profile) (id : Z) : option ActuatorFailSafeMode_t :=
  match p, id with
  | PROFILE_HOME, 2 => Some FAILSAFE_FORCE_OFF
  | PROFILE_AGRICULTURE, 2 | PROFILE_AGRICULTURE, 3 => Some FAILSAFE_DE_ENERGIZE
  | PROFILE_HVAC, 2 => Some FAILSAFE_FORCE_SAFE_POS
  | PROFILE_HVAC, 3 => Some FAILSAFE_FORCE_OFF
  | PROFILE_WATER_TREATMENT, 2 => Some FAILSAFE_DE_ENERGIZE
  | PROFILE_WATER_TREATMENT, 3 => Some FAILSAFE_FORCE_OFF
  | _, _ => None
  end.

(** The second half of "HOLD_LAST for 60s, then DE_ENERGIZE" never happens: for
    each of the seven actuators whose comment names a mode after the hold, no
    length of communication loss ever makes the engine settle on that mode. *)
Theorem held_for_ever p st0 id documented :
  documented_after_hold p id = Some documented ->
  documented <> FAILSAFE_HOLD_LAST /\
  forall elapsed,
    let st := snd (failsafe_register_all p (snd (actuator_failsafe.actuator_failsafe_init st0))) in
    let mode := snd (actuator_failsafe.actuator_failsafe_execute st id false elapsed) in
    mode = None \/ mode = Some FAILSAFE_HOLD_LAST.
Proof.
  intros Hd. destruct (failsafe_registered p st0) as (st & -> & Hex). cbn [snd].
  assert (documented <> FAILSAFE_HOLD_LAST /\
          exists pl t, failsafe_row p id = Some (pl, t, FAILSAFE_HOLD_LAST)) as (Hn & pl & t & Hr).
  { revert Hd. unfold documented_after_hold.
    destruct p, id as [|[[]|[]|]|]; try discriminate; intros [= <-]; (split; [discriminate|eauto]). }
  split; [exact Hn|]. intros elapsed. cbv zeta. rewrite Hex, Hr. cbn [snd]. destruct (elapsed <? t); auto.
Qed.

Section wiring.
Context {W : Type} `{MdHmacOk} `{Ccm}.
Implicit Types (h : hub_state W) (w : W) (p : hub_profile).

Lemma portal_starts (s : config_portal.state W) w : fst (fst (config_portal.config_portal_init s w)) = true.
Proof. unfold config_portal.config_portal_init. repeat case_match; reflexivity. Qed.

Lemma historian_starts (s : historian.state W) w : fst (fst (historian.historian_init s w)) = true.
Proof. unfold historian.historian_init. repeat case_match; reflexivity. Qed.

(** Initialisation always succeeds. *)
Lemma hub_init_spec h w p radio :
  exists h1 w1, hub_init h w p radio = (true, h1, w1) /\
    ingestion_handler.s_config (pipeline h1) = Some (ih_config p radio) /\
    ingestion_handler.s_stats (pipeline h1) = ingestion_handler.zero_stats /\
    rule_engine_core.g_initialised (ingestion_handler.engine (pipeline h1)) = true /\
    failsafe h1 = snd (failsafe_register_all p (snd (actuator_failsafe.actuator_failsafe_init (failsafe h)))).
Proof.
  unfold hub_init, init_components. cbn -[failsafe_register_all config_portal.config_portal_init
    historian.historian_init ih_config replicate].
  pose proof (register_profile p (failsafe h)) as Hr.
  cbn [actuator_failsafe.actuator_failsafe_init snd] in Hr |- *.
  match type of Hr with fst ?x = _ => destruct x as [ok fs] end.
  cbn [fst] in Hr. subst ok. cbn [negb].
  match goal with |- context [config_portal.config_portal_init ?a ?b] =>
    pose proof (portal_starts a b) as Hp; destruct (config_portal.config_portal_init a b) as [[ok ps] w1] end.
  cbn [fst] in Hp. subst ok. cbn [negb].
  match goal with |- context [historian.historian_init ?a ?b] =>
    destruct (historian.historian_init a b) as [[ok hs] w2] end.
  eexists _, w2. split; [reflexivity|]. repeat split.
Qed.

Lemma loops_locked_out hs times : forall h w,
  ingestion_handler.locked_out hs (pipeline h) ->
  ingestion_handler.locked_out hs (pipeline (fst (loops h w times))).
Proof.
  induction times as [|t times IH]; intros h w Hl; cbn [loops]; [exact Hl|].
  unfold loop at 1. destruct (1000 <=? _); [|apply IH, Hl].
  pose proof (ingestion_handler.poll_locked_out hs (pipeline h) w t Hl) as Hp.
  change (pipeline (h <| last_poll_ms := t |>)) with (pipeline h).
  destruct (ingestion_handler.ingestion_handler_poll (pipeline h) w t) as [[n s] w1]. apply IH. exact Hp.
Qed.

(** The hub as it is wired ingests nothing: initialisation succeeds, but the
    gateway's tracker it sets up is not authenticated and nothing in the
    program authenticates it, so whatever the radio delivers and however long
    the main loop runs, no frame is ingested, no entry processed and nothing
    written to the historian. *)
Theorem hub_ingests_nothing h w p radio times :
  let '(ok, h1, w1) := hub_init h w p radio in
  let h2 := fst (loops h1 w1 times) in
  ok = true /\
  ingestion_handler.frames_ingested (ingestion_handler.s_stats (pipeline h2)) = 0 /\
  ingestion_handler.entries_processed (ingestion_handler.s_stats (pipeline h2)) = 0 /\
  ingestion_handler.store (pipeline h2) = ingestion_handler.store (pipeline h1).
Proof.
  destruct (hub_init_spec h w p radio) as (h1 & w1 & -> & Hc & Hs & _ & _). cbv zeta.
  split; [reflexivity|].
  assert (ingestion_handler.locked_out (ingestion_handler.store (pipeline h1)) (pipeline h1)) as Hl.
  { split; [|rewrite Hs; auto]. eexists _, _. split; [exact Hc|]. split; reflexivity. }
  apply loops_locked_out with (times := times) (w := w1) in Hl. apply Hl.
Qed.

(** Without history buffers the second gate lets everything pass. *)
Lemma gate_2_skipped p radio (st : ingestion_handler.state W) r now :
  ingestion_handler.gate_2 st (ih_config p radio) r now = (true, st).
Proof. reflexivity. Qed.

(** Frost never reaches the rules: on the agriculture hub every reading
    below zero, on whatever metric, is counted as rejected and neither recorded
    nor evaluated, although the temperature's physical range starts at -40 and
    the frost rule is about temperatures below 2 degrees. *)
Theorem frost_reading_rejected radio (st : ingestion_handler.state W) w now e :
  flt (batch_frame.value e) f_zero = true ->
  let '(triggered, st', _) := ingestion_handler.process_entry st w
    (ih_config PROFILE_AGRICULTURE radio) (profile_vtable PROFILE_AGRICULTURE) now e in
  triggered = 0 /\ ingestion_handler.store st' = ingestion_handler.store st /\
  ingestion_handler.entries_rejected (ingestion_handler.s_stats st') =
    u32 (ingestion_handler.entries_rejected (ingestion_handler.s_stats st) + 1).
Proof.
  intros Hv. unfold ingestion_handler.process_entry.
  change (rule_engine_core.validateSensorReading (profile_vtable PROFILE_AGRICULTURE)
            (ingestion_handler.reading_of now e) w)
    with (agriculture_validateSensorReading (Some (ingestion_handler.reading_of now e)), w).
  rewrite (below_zero_rejected (ingestion_handler.reading_of now e) Hv). cbn [negb].
  match goal with |- context [ingestion_handler.log ?a ?b ?d ?f] =>
    pose proof (ingestion_handler.log_fields a b d f) as Hl; destruct (ingestion_handler.log a b d f) as [st2 w2] end.
  cbn [fst] in Hl. destruct Hl as (Hl1 & Hl2 & _).
  split; [reflexivity|]. split; [exact Hl1|]. rewrite Hl2. reflexivity.
Qed.

End wiring.

(** ** Witnesses *)

Definition hub_off : hub_state unit :=
  mk_hub attestation.initial transport_encryption.initial replay_protection.initial
    firmware_integrity.initial actuator_failsafe.initial config_portal.initial
    (ingestion_handler.mk_state None ingestion_handler.zero_stats false audit_log.initial
       rule_engine_core.initial sensor_validation.initial [] historian.initial) 0.

Definition overdose : SensorReading_t := rule_engine_core.mk_reading 7 WATER_METRIC_CHLORINE_LEVEL (lit 6) 5000.

Lemma profile_commands_witness :
  rule_engine_core.rule_engine_evaluate (rule_engine_core.mk_state true)
    (Some (@profile_vtable unit PROFILE_WATER_TREATMENT)) (Some overdose) true
    rule_engine_core.RULE_ENGINE_MAX_ACTIONS =
  [mk_result WATER_RULE_CHLORINE_SAFETY true RULE_ACTION_SET_ACTUATOR WATER_ACTUATOR_DOSING_VALVE
     ACTUATOR_STATE_ON].
Proof.
  rewrite (profile_commands (W := unit) PROFILE_WATER_TREATMENT (rule_engine_core.mk_state true) overdose eq_refl).
  vm_compute. reflexivity.
Defined.

Lemma held_for_ever_witness :
  let st := snd (failsafe_register_all PROFILE_WATER_TREATMENT
    (snd (actuator_failsafe.actuator_failsafe_init actuator_failsafe.initial))) in
  let mode := snd (actuator_failsafe.actuator_failsafe_execute st WATER_ACTUATOR_MAIN_SUPPLY_VALVE false 61) in
  FAILSAFE_DE_ENERGIZE <> FAILSAFE_HOLD_LAST /\ (mode = None \/ mode = Some FAILSAFE_HOLD_LAST).
Proof.
  destruct (held_for_ever PROFILE_WATER_TREATMENT actuator_failsafe.initial WATER_ACTUATOR_MAIN_SUPPLY_VALVE
    FAILSAFE_DE_ENERGIZE eq_refl) as [Hn H]. exact (conj Hn (H 61)).
Defined.

Lemma frost_reading_rejected_witness :
  domain_profile.in_bounds (agriculture_get_validation_bounds AGRI_METRIC_AMBIENT_TEMP)
    (rule_engine_core.mk_reading 7 AGRI_METRIC_AMBIENT_TEMP (lit (-5)) 5000) = true /\
  let '(triggered, _, _) := ingestion_handler.process_entry (H := mix_hmac) (H0 := toy_ccm) (pipeline hub_off) tt
    (ih_config PROFILE_AGRICULTURE (fun _ w => (None, w))) (profile_vtable PROFILE_AGRICULTURE) 5000
    (batch_frame.mk_entry 7 AGRI_METRIC_AMBIENT_TEMP (lit (-5))) in
  triggered = 0.
Proof.
  split; [vm_compute; reflexivity|].
  pose proof (frost_reading_rejected (H := mix_hmac) (H1 := toy_ccm) (fun _ w => (None, w)) (pipeline hub_off) tt 5000
    (batch_frame.mk_entry 7 AGRI_METRIC_AMBIENT_TEMP (lit (-5))) ltac:(vm_compute; reflexivity)) as H.
  destruct (ingestion_handler.process_entry _ _ _ _ _ _) as [[n st] w]. apply H.
Defined.

End hub_main.
