(* ===== verification/BatchForwarder.v ===== *)
(** The batch forwarder (firmware/gateway/batch_forwarder.c): flushes the dirty
    cache entries to the hub in one signed frame.  The radio is a function of
    the outside world. *)

From S2P Require Import Prelude Float32 Hmac TimeSource AuditLog Attestation BatchFrame GatewayAuth StatefulCache.
Import float32 hmac batch_frame gateway_auth.
Import (hints) stateful_cache.

Module batch_forwarder.

Definition RadioSendFunc_t (W : Type) : Type := list Z -> W -> bool * W.

Record BatchForwarderStats_t := mk_stats {
  total_batches : Z;
  total_entries_sent : Z;
  total_send_ok : Z;
  total_send_fail : Z }.

#[export] Instance eta_stats : Eta BatchForwarderStats_t := fun r =>
  mk_stats (total_batches r) (total_entries_sent r) (total_send_ok r) (total_send_fail r).

(** The statics; [s_auth_ctx] is the context behind the pointer, [cache] the
    value cache the forwarder drains. *)
Record state (W : Type) := mk_state {
  s_send_func : option (RadioSendFunc_t W);
  s_stats : BatchForwarderStats_t;
  s_auth_ctx : option GatewayAuthContext_t;
  cache : stateful_cache.state }.
Arguments mk_state {W}. Arguments s_send_func {W}. Arguments s_stats {W}.
Arguments s_auth_ctx {W}. Arguments cache {W}.

#[export] Instance eta_state W : Eta (state W) := fun r =>
  mk_state (s_send_func r) (s_stats r) (s_auth_ctx r) (cache r).



Section forwarder.
Context {W : Type} `{MdHmac}.
Implicit Types (st : state W) (w : W).

Definition batch_forwarder_init st (send : option (RadioSendFunc_t W)) : state W :=
  st <| s_send_func := send |> <| s_auth_ctx := None |> <| s_stats := mk_stats 0 0 0 0 |>.

Definition batch_forwarder_set_auth st (auth : option GatewayAuthContext_t) : state W :=
  st <| s_auth_ctx := auth |>.



Definition batch_forwarder_get_stats st : BatchForwarderStats_t := s_stats st.

End forwarder.

(** ** The frame that reaches the radio *)

Section link.
Context {W : Type} `{MdHmacOk}.
Implicit Types (st : state W) (w : W).










(** ** Properties *)


End link.

(** ** The theorem on a concrete gateway *)



End batch_forwarder.
