(* ===== verification/MbedCommon.v ===== *)
(** The base of mbedTLS as the Makefile builds it (lib/mbedtls/library:
    common.h, constant_time.c, platform_util.c): byte access to words,
    constant-time comparison and zeroisation, with the lemmas that turn a word
    into its bytes and back. *)

From S2P Require Import Prelude.
From Stdlib Require Import Btauto.

Module mbed.

(** ** common.h *)

Definition MBEDTLS_BYTE_0 (x : Z) : Z := Z.land x 255.
Definition MBEDTLS_BYTE_1 (x : Z) : Z := Z.land (Z.shiftr x 8) 255.
Definition MBEDTLS_BYTE_2 (x : Z) : Z := Z.land (Z.shiftr x 16) 255.
Definition MBEDTLS_BYTE_3 (x : Z) : Z := Z.land (Z.shiftr x 24) 255.

Definition MBEDTLS_BYTE_4 (x : Z) : Z := Z.land (Z.shiftr x 32) 255.
Definition MBEDTLS_BYTE_5 (x : Z) : Z := Z.land (Z.shiftr x 40) 255.
Definition MBEDTLS_BYTE_6 (x : Z) : Z := Z.land (Z.shiftr x 48) 255.
Definition MBEDTLS_BYTE_7 (x : Z) : Z := Z.land (Z.shiftr x 56) 255.

(** [data[i]] *)
Notation "data .[ i ]" := (nth i%nat data 0) (at level 1, left associativity, format "data .[ i ]") : c_scope.

Definition MBEDTLS_GET_UINT32_BE (data : list Z) (offset : nat) : Z :=
  Z.lor (Z.lor (Z.lor (Z.shiftl data.[offset] 24) (Z.shiftl data.[offset + 1] 16))
               (Z.shiftl data.[offset + 2] 8))
        data.[offset + 3].

Definition MBEDTLS_GET_UINT32_LE (data : list Z) (offset : nat) : Z :=
  Z.lor (Z.lor (Z.lor data.[offset] (Z.shiftl data.[offset + 1] 8))
               (Z.shiftl data.[offset + 2] 16))
        (Z.shiftl data.[offset + 3] 24).

Definition MBEDTLS_GET_UINT64_BE (data : list Z) (offset : nat) : Z :=
  Z.lor (Z.lor (Z.lor (Z.lor (Z.lor (Z.lor (Z.lor
    (Z.shiftl data.[offset] 56) (Z.shiftl data.[offset + 1] 48))
    (Z.shiftl data.[offset + 2] 40)) (Z.shiftl data.[offset + 3] 32))
    (Z.shiftl data.[offset + 4] 24)) (Z.shiftl data.[offset + 5] 16))
    (Z.shiftl data.[offset + 6] 8)) data.[offset + 7].

(** The bytes the PUT macros store. *)
Definition MBEDTLS_PUT_UINT32_BE (n : Z) : list Z :=
  [MBEDTLS_BYTE_3 n; MBEDTLS_BYTE_2 n; MBEDTLS_BYTE_1 n; MBEDTLS_BYTE_0 n].

Definition MBEDTLS_PUT_UINT32_LE (n : Z) : list Z :=
  [MBEDTLS_BYTE_0 n; MBEDTLS_BYTE_1 n; MBEDTLS_BYTE_2 n; MBEDTLS_BYTE_3 n].

Definition MBEDTLS_PUT_UINT64_BE (n : Z) : list Z :=
  [MBEDTLS_BYTE_7 n; MBEDTLS_BYTE_6 n; MBEDTLS_BYTE_5 n; MBEDTLS_BYTE_4 n;
   MBEDTLS_BYTE_3 n; MBEDTLS_BYTE_2 n; MBEDTLS_BYTE_1 n; MBEDTLS_BYTE_0 n].

Definition MBEDTLS_PUT_UINT16_BE (n : Z) : list Z := [MBEDTLS_BYTE_1 n; MBEDTLS_BYTE_0 n].

(** [memcpy(buf + off, src, length src)], also what a PUT macro does to its
    buffer; the callers establish that [src] fits. *)
Definition memcpy_at (off : nat) (src buf : list Z) : list Z :=
  take off buf ++ src ++ drop (off + length src) buf.

(** [memset(buf + off, c, n)] *)
Definition memset_at (off : nat) (c : Z) (n : nat) (buf : list Z) : list Z :=
  memcpy_at off (replicate n c) buf.

(** ** platform_util.c *)

Definition mbedtls_platform_zeroize (buf : list Z) (len : nat) : list Z :=
  if (0 <? len)%nat then memset_at 0 0 len buf else buf.

(** ** constant_time.c *)

Definition mbedtls_ct_memcmp (a b : list Z) (n : nat) : Z :=
  fold_left (fun diff i => Z.lor diff (Z.lxor a.[i] b.[i])) (seq 0 n) 0.

(** [unsigned] is 32 bits wide, [size_t] 64. *)
Definition mbedtls_ct_uint_mask (value : Z) : Z :=
  u32 (- Z.shiftr (Z.lor value (u32 (- value))) 31).

Definition mbedtls_ct_size_bool_eq (x y : Z) : Z :=
  let diff := Z.lxor x y in
  let diff_msb := Z.lor diff (u64 (- diff)) in
  let diff1 := Z.shiftr diff_msb 63 in
  Z.lxor 1 diff1.

Definition mbedtls_ct_uint_if (condition if1 if0 : Z) : Z :=
  let mask := mbedtls_ct_uint_mask condition in
  Z.lor (Z.land mask if1) (Z.land (u32 (Z.lnot mask)) if0).

(** ** Stores *)

Lemma memcpy_at_length off src buf :
  (off + length src <= length buf)%nat -> length (memcpy_at off src buf) = length buf.
Proof. intros H. unfold memcpy_at. rewrite !length_app, length_take, length_drop. lia. Qed.

Lemma memset_at_length off c n buf :
  (off + n <= length buf)%nat -> length (memset_at off c n buf) = length buf.
Proof. intros H. apply memcpy_at_length. rewrite length_replicate. exact H. Qed.

(** What lies below the end of the copy. *)
Lemma take_memcpy_at off src buf :
  (off <= length buf)%nat -> take (off + length src) (memcpy_at off src buf) = take off buf ++ src.
Proof.
  intros H. unfold memcpy_at. rewrite app_assoc. apply take_app_length'.
  rewrite length_app, length_take. lia.
Qed.

Lemma memcpy_at_end off src buf :
  (off + length src = length buf)%nat -> memcpy_at off src buf = take off buf ++ src.
Proof. intros H. unfold memcpy_at. rewrite drop_ge by lia. rewrite app_nil_r. reflexivity. Qed.

Lemma platform_zeroize_all buf n : length buf = n -> mbedtls_platform_zeroize buf n = zeros n.
Proof.
  intros H. unfold mbedtls_platform_zeroize. destruct (Nat.ltb_spec 0 n).
  - unfold memset_at. rewrite memcpy_at_end by (rewrite length_replicate; lia). reflexivity.
  - destruct buf; [|cbn in H; lia]. cbn in H. subst n. reflexivity.
Qed.

(** ** Arrays filled in order *)

Lemma nth_take_lt {A} (l : list A) i n d : (i < n)%nat -> nth i (take n l) d = nth i l d.
Proof. intros H. rewrite !nth_lookup, lookup_take_lt by exact H. reflexivity. Qed.

Lemma take_S_insert {A} t (x : A) l : (t < length l)%nat -> take (S t) (<[t := x]> l) = take t l ++ [x].
Proof.
  intros H. rewrite (take_S_r _ _ x) by (apply list_lookup_insert_eq; exact H).
  rewrite take_insert_ge by lia. reflexivity.
Qed.

Lemma nth_insert_eq i (x d : Z) l : (i < length l)%nat -> nth i (<[i := x]> l) d = x.
Proof. intros H. rewrite nth_lookup, list_lookup_insert_eq by exact H. reflexivity. Qed.

Lemma nth_insert_ne i j (x d : Z) l : i <> j -> nth j (<[i := x]> l) d = nth j l d.
Proof. intros H. rewrite !nth_lookup, list_lookup_insert_ne by exact H. reflexivity. Qed.

(** Filling the first slots of an array in order. *)
Lemma fill_seq (f : nat -> Z) n W :
  (n <= length W)%nat ->
  length (fold_left (fun W i => <[i := f i]> W) (seq 0 n) W) = length W /\
  take n (fold_left (fun W i => <[i := f i]> W) (seq 0 n) W) = map f (seq 0 n).
Proof.
  induction n as [|n IH]; intros Hn; [split; reflexivity|].
  rewrite seq_S, fold_left_app, map_app. cbn [fold_left map Nat.add].
  destruct IH as [Hl Ht]; [lia|]. rewrite length_insert, take_S_insert by lia.
  rewrite Ht. auto.
Qed.

(** ** Bytes of words *)

Lemma PUT_LE_le_bytes n : MBEDTLS_PUT_UINT32_LE n = le_bytes 4 n.
Proof.
  unfold MBEDTLS_PUT_UINT32_LE, MBEDTLS_BYTE_0, MBEDTLS_BYTE_1, MBEDTLS_BYTE_2, MBEDTLS_BYTE_3.
  unfold le_bytes. rewrite !Z.shiftr_shiftr by lia. reflexivity.
Qed.

Lemma PUT_BE_be_bytes n : MBEDTLS_PUT_UINT32_BE n = be_bytes 4 n.
Proof. unfold be_bytes. rewrite <- PUT_LE_le_bytes. reflexivity. Qed.

Lemma le_value_4 a b c d :
  le_value [a; b; c; d] = Z.lor (Z.lor (Z.lor a (Z.shiftl b 8)) (Z.shiftl c 16)) (Z.shiftl d 24).
Proof.
  cbn [le_value]. rewrite Z.shiftl_0_l, Z.lor_0_r.
  rewrite !Z.shiftl_lor, !Z.shiftl_shiftl, !Z.lor_assoc by lia. reflexivity.
Qed.

Lemma GET_LE_le_value a b c d l : MBEDTLS_GET_UINT32_LE (a :: b :: c :: d :: l) 0 = le_value [a; b; c; d].
Proof. rewrite le_value_4. reflexivity. Qed.

(** Reading at an offset is reading what is left after it. *)
Lemma nth_add {A} (d : A) i j l : nth (i + j)%nat l d = nth j (drop i l) d.
Proof. rewrite !nth_lookup, lookup_drop. reflexivity. Qed.

Lemma GET_LE_drop off data :
  MBEDTLS_GET_UINT32_LE data off = MBEDTLS_GET_UINT32_LE (drop off data) 0.
Proof.
  unfold MBEDTLS_GET_UINT32_LE. rewrite !nth_add.
  replace (nth off data 0) with (drop off data).[0] by (rewrite <- nth_add; f_equal; lia).
  reflexivity.
Qed.

Lemma GET_BE_drop off data :
  MBEDTLS_GET_UINT32_BE data off = MBEDTLS_GET_UINT32_BE (drop off data) 0.
Proof.
  unfold MBEDTLS_GET_UINT32_BE. rewrite !nth_add.
  replace (nth off data 0) with (drop off data).[0] by (rewrite <- nth_add; f_equal; lia).
  reflexivity.
Qed.

Lemma GET_BE_be_value a b c d l : MBEDTLS_GET_UINT32_BE (a :: b :: c :: d :: l) 0 = be_value [a; b; c; d].
Proof.
  unfold be_value, MBEDTLS_GET_UINT32_BE. change (rev [a; b; c; d]) with [d; c; b; a].
  rewrite le_value_4. cbn [nth Nat.add].
  apply Z.bits_inj'. intros i Hi. rewrite !Z.lor_spec. btauto.
Qed.

Lemma PUT_BE64_be_bytes n : MBEDTLS_PUT_UINT64_BE n = be_bytes 8 n.
Proof.
  unfold MBEDTLS_PUT_UINT64_BE, MBEDTLS_BYTE_0, MBEDTLS_BYTE_1, MBEDTLS_BYTE_2, MBEDTLS_BYTE_3,
    MBEDTLS_BYTE_4, MBEDTLS_BYTE_5, MBEDTLS_BYTE_6, MBEDTLS_BYTE_7, be_bytes, le_bytes.
  rewrite !Z.shiftr_shiftr by lia. reflexivity.
Qed.

(** Eight bytes are two words. *)
Lemma GET_BE64_halves data off :
  MBEDTLS_GET_UINT64_BE data off =
  Z.lor (Z.shiftl (MBEDTLS_GET_UINT32_BE data off) 32) (MBEDTLS_GET_UINT32_BE data (off + 4)).
Proof.
  unfold MBEDTLS_GET_UINT64_BE, MBEDTLS_GET_UINT32_BE.
  rewrite !Z.shiftl_lor, !Z.shiftl_shiftl, <- !Nat.add_assoc, !Z.lor_assoc by lia. reflexivity.
Qed.

Lemma be_value_app a b :
  be_value (a ++ b) = Z.lor (Z.shiftl (be_value a) (8 * Z.of_nat (length b))) (be_value b).
Proof.
  unfold be_value. rewrite rev_app_distr, <- (length_rev b). generalize (rev a) as x, (rev b) as y.
  clear a b. intros x y. induction y as [|c y IH]; cbn [app le_value length].
  - rewrite Z.shiftl_0_r, Z.lor_0_r. reflexivity.
  - rewrite IH, Z.shiftl_lor, Z.shiftl_shiftl by lia.
    replace (8 * Z.of_nat (length y) + 8) with (8 * Z.of_nat (S (length y))) by lia.
    apply Z.bits_inj'. intros i Hi. rewrite !Z.lor_spec. btauto.
Qed.

(** The bytes of an exclusive or. *)
Lemma le_bytes_lxor n a b :
  le_bytes n (Z.lxor a b) = zip_with Z.lxor (le_bytes n a) (le_bytes n b).
Proof.
  revert a b. unfold le_bytes. induction n as [|n IH]; intros a b; [reflexivity|]. cbn [zip_with].
  rewrite Z.shiftr_lxor, IH. f_equal.
  apply Z.bits_inj'. intros i Hi. rewrite !Z.land_spec, !Z.lxor_spec, !Z.land_spec. btauto.
Qed.

Lemma lxor_u8 a b : is_u8 a -> is_u8 b -> is_u8 (Z.lxor a b).
Proof.
  intros Ha Hb. split; [apply Z.lxor_nonneg; unfold is_u8 in *; lia|].
  destruct (Z.eq_dec (Z.lxor a b) 0) as [->|Hne]; [lia|].
  assert (H : forall z, is_u8 z -> Z.log2 z < 8).
  { intros z Hz. destruct (decide (z <= 0)); [rewrite Z.log2_nonpos; lia|].
    apply Z.log2_lt_pow2; [lia|apply Hz]. }
  pose proof (Z.log2_lxor a b ltac:(apply Ha) ltac:(apply Hb)). pose proof (H a Ha). pose proof (H b Hb).
  assert (0 <= Z.lxor a b) by (apply Z.lxor_nonneg; unfold is_u8 in *; lia).
  change 256 with (2 ^ 8). apply Z.log2_lt_pow2; lia.
Qed.

Lemma MBEDTLS_BYTE_0_range x : is_u8 (MBEDTLS_BYTE_0 x).
Proof. unfold MBEDTLS_BYTE_0. rewrite land_255. words. Qed.
Lemma MBEDTLS_BYTE_1_range x : is_u8 (MBEDTLS_BYTE_1 x).
Proof. unfold MBEDTLS_BYTE_1. rewrite land_255. words. Qed.
Lemma MBEDTLS_BYTE_2_range x : is_u8 (MBEDTLS_BYTE_2 x).
Proof. unfold MBEDTLS_BYTE_2. rewrite land_255. words. Qed.
Lemma MBEDTLS_BYTE_3_range x : is_u8 (MBEDTLS_BYTE_3 x).
Proof. unfold MBEDTLS_BYTE_3. rewrite land_255. words. Qed.
#[export] Hint Resolve MBEDTLS_BYTE_0_range MBEDTLS_BYTE_1_range MBEDTLS_BYTE_2_range
  MBEDTLS_BYTE_3_range : words.

(** A sum of disjoint parts is their bitwise or. *)
Lemma lor_disjoint_add a b m : 0 <= m -> 0 <= a < 2 ^ m -> Z.lor a (Z.shiftl b m) = a + b * 2 ^ m.
Proof.
  intros Hm Ha. rewrite <- Z.shiftl_mul_pow2 by lia.
  pose proof (Z.add_lor_land a (Z.shiftl b m)) as Hadd.
  enough (Z.land a (Z.shiftl b m) = 0) by lia.
  apply Z.bits_inj'. intros i Hi. rewrite Z.land_spec, Z.bits_0.
  destruct (Z_lt_ge_dec i m) as [Hlt|Hge].
  - rewrite Z.shiftl_spec_low by lia. apply andb_false_r.
  - rewrite <- (Z.mod_small a (2 ^ m)) by exact Ha.
    rewrite Z.mod_pow2_bits_high by lia. reflexivity.
Qed.

(** The bytes of a word by halves. *)
Lemma le_bytes_app n m x :
  le_bytes (n + m) x = le_bytes n x ++ le_bytes m (Z.shiftr x (8 * Z.of_nat n)).
Proof.
  unfold le_bytes. revert x. induction n as [|n IH]; intros x.
  - rewrite Z.shiftr_0_r. reflexivity.
  - cbn [Nat.add app]. rewrite IH, Z.shiftr_shiftr by lia.
    replace (8 * Z.of_nat (S n)) with (8 + 8 * Z.of_nat n) by lia. reflexivity.
Qed.

Lemma be_bytes_app n m x :
  be_bytes (n + m) x = be_bytes m (Z.shiftr x (8 * Z.of_nat n)) ++ be_bytes n x.
Proof. unfold be_bytes. rewrite le_bytes_app, rev_app_distr. reflexivity. Qed.

(** Only the low bits count. *)
Lemma le_bytes_mod n x : le_bytes n (x mod 256 ^ Z.of_nat n) = le_bytes n x.
Proof.
  rewrite <- le_value_le_bytes. rewrite <- (le_bytes_length n x) at 1. apply le_bytes_le_value, le_bytes_bytes.
Qed.

Lemma be_bytes_mod n x : be_bytes n (x mod 256 ^ Z.of_nat n) = be_bytes n x.
Proof. unfold be_bytes. rewrite le_bytes_mod. reflexivity. Qed.

(** The bits above a word, and the highest bit of one. *)
Lemma testbit_high x n i : 0 <= n <= i -> 0 <= x < 2 ^ n -> Z.testbit x i = false.
Proof. intros Hi Hx. rewrite <- (Z.mod_small x (2 ^ n)) by exact Hx. apply Z.mod_pow2_bits_high. lia. Qed.

Lemma top_bit b : 0 <= b < 2 ^ 64 -> Z.shiftr b 63 = Z.b2z (Z.testbit b 63).
Proof.
  intros Hb. rewrite Z.testbit_spec' by lia. rewrite Z.shiftr_div_pow2 by lia.
  change (2 ^ 64) with (2 * 2 ^ 63) in Hb. symmetry. apply Z.mod_small. split; [apply Z.div_pos; lia|].
  apply Z.div_lt_upper_bound; lia.
Qed.

(** ** Comparison in constant time *)

Lemma ct_fold_zero a b n i d :
  fold_left (fun diff i => Z.lor diff (Z.lxor a.[i] b.[i])) (seq i n) d = 0 <->
  d = 0 /\ (forall j, (i <= j < i + n)%nat -> a.[j] = b.[j]).
Proof.
  revert i d. induction n as [|n IH]; intros i d; cbn [seq fold_left].
  - split; [intros ->; split; [reflexivity|]; intros j Hj; lia | tauto].
  - rewrite IH, Z.lor_eq_0_iff, Z.lxor_eq_0_iff. split.
    + intros [[Hd Hi] Hr]. split; [exact Hd|]. intros j Hj.
      destruct (decide (j = i)) as [->|]; [exact Hi|]. apply Hr. lia.
    + intros [Hd Hr]. repeat split; [exact Hd| |]; intros; apply Hr; lia.
Qed.

Lemma list_eq_nth (a b : list Z) n :
  length a = n -> length b = n -> (forall j, (j < n)%nat -> a.[j] = b.[j]) -> a = b.
Proof. intros Ha Hb H. apply (nth_ext a b 0 0); [congruence|]. intros j Hj. apply H. lia. Qed.

(** The comparison answers 0 exactly when the buffers agree. *)
Lemma ct_memcmp_zero a b n :
  length a = n -> length b = n -> (mbedtls_ct_memcmp a b n = 0 <-> a = b).
Proof.
  intros Ha Hb. unfold mbedtls_ct_memcmp. rewrite ct_fold_zero. split.
  - intros [_ H]. apply (list_eq_nth a b n Ha Hb). intros j Hj. apply H. lia.
  - intros ->. auto.
Qed.

(** The mask of a word: all ones, or zero for zero. *)
Lemma ct_uint_mask_spec value :
  is_u32 value -> mbedtls_ct_uint_mask value = if value =? 0 then 0 else 4294967295.
Proof.
  intros H. unfold mbedtls_ct_uint_mask. destruct (Z.eqb_spec value 0) as [->|Hne]; [reflexivity|].
  replace (Z.shiftr (Z.lor value (u32 (- value))) 31) with 1; [reflexivity|].
  rewrite Z.shiftr_lor, !Z.shiftr_div_pow2 by lia. change (2 ^ 31) with 2147483648.
  assert (Hn : u32 (- value) = 4294967296 - value) by words. rewrite Hn.
  unfold is_u32 in H. destruct (Z_lt_ge_dec value 2147483649) as [Hlt|Hge].
  - assert ((4294967296 - value) / 2147483648 = 1 \/ value = 2147483648) as [-> | ->]
      by (Z.div_mod_to_equations; lia); [|reflexivity].
    assert (value / 2147483648 = 0 \/ value / 2147483648 = 1) as [-> | ->]
      by (Z.div_mod_to_equations; lia); reflexivity.
  - replace (value / 2147483648) with 1 by (Z.div_mod_to_equations; lia).
    replace ((4294967296 - value) / 2147483648) with 0 by (Z.div_mod_to_equations; lia). reflexivity.
Qed.

(** The branch-free conditional selects. *)
Lemma ct_uint_if_spec condition if1 if0 :
  is_u32 condition -> is_u32 if1 -> is_u32 if0 ->
  mbedtls_ct_uint_if condition if1 if0 = if condition =? 0 then if0 else if1.
Proof.
  intros Hc H1 H0. unfold mbedtls_ct_uint_if. rewrite ct_uint_mask_spec by exact Hc.
  destruct (condition =? 0).
  - change (u32 (Z.lnot 0)) with (Z.ones 32).
    rewrite (Z.land_comm _ if0), Z.land_ones by lia. cbn [Z.land Z.lor]. apply u32_small, H0.
  - change (u32 (Z.lnot 4294967295)) with 0. change 4294967295 with (Z.ones 32).
    rewrite (Z.land_comm _ if1), Z.land_ones, Z.land_0_l, Z.lor_0_r by lia. apply u32_small, H1.
Qed.

(** Equality without a branch. *)
Lemma ct_size_bool_eq_spec x y :
  is_u64 x -> is_u64 y -> mbedtls_ct_size_bool_eq x y = if x =? y then 1 else 0.
Proof.
  intros Hx Hy. unfold mbedtls_ct_size_bool_eq. destruct (Z.eqb_spec x y) as [->|Hne].
  - rewrite Z.lxor_nilpotent. reflexivity.
  - assert (Hd : 0 < Z.lxor x y < 18446744073709551616).
    { assert (Z.lxor x y <> 0) by (rewrite Z.lxor_eq_0_iff; exact Hne).
      assert (0 <= Z.lxor x y) by (apply Z.lxor_nonneg; unfold is_u64 in *; lia).
      split; [lia|]. change 18446744073709551616 with (2 ^ 64). apply Z.log2_lt_pow2; [lia|].
      pose proof (Z.log2_lxor x y). assert (Hl : forall z, is_u64 z -> Z.log2 z < 64).
      { intros z Hz. destruct (decide (z <= 0)); [rewrite Z.log2_nonpos; lia|].
        apply Z.log2_lt_pow2; [lia|]. apply Hz. }
      pose proof (Hl x Hx). pose proof (Hl y Hy). unfold is_u64 in *. lia. }
    generalize dependent (Z.lxor x y). intros d Hd.
    replace (Z.shiftr (Z.lor d (u64 (- d))) 63) with 1; [reflexivity|].
    rewrite Z.shiftr_lor, !Z.shiftr_div_pow2 by lia. change (2 ^ 63) with 9223372036854775808.
    replace (u64 (- d)) with (18446744073709551616 - d) by words.
    assert (d / 9223372036854775808 = 0 /\ (18446744073709551616 - d) / 9223372036854775808 = 1
      \/ d / 9223372036854775808 = 1 /\ ((18446744073709551616 - d) / 9223372036854775808 = 0
      \/ (18446744073709551616 - d) / 9223372036854775808 = 1))
      as [[-> ->]|[-> [-> | ->]]] by (Z.div_mod_to_equations; lia); reflexivity.
Qed.

#[global] Arguments memcpy_at : simpl never.
#[global] Arguments memset_at : simpl never.

End mbed.
