(* ===== verification/HashStream.v ===== *)
(** The streaming half that the digests of mbedTLS share (the update and finish
    functions of sha256.c and its siblings differ in the block size, the width
    of the byte counter and the encoding of the length only; ripemd160.c pads through
    its update): a context buffers
    a partial block, [hash_update] absorbs input of any length and [hash_finish]
    pads.  The theorems relate a context to the message absorbed so far, for
    any compression function.  Module rounds holds what the compression functions
    share. *)

From S2P Require Import Prelude MbedCommon.
From Stdlib Require Import Btauto.
Import mbed.

Module stream.

(** [total[2]], [state], [buffer] *)
Record hash_context := {
  total0 : Z;
  total1 : Z;
  state : list Z;
  buffer : list Z }.

#[export] Instance eta_hash_context : Eta hash_context :=
  fun r => Build_hash_context (total0 r) (total1 r) (state r) (buffer r).

Section stream.
Context (B : nat) (W : Z) (process : list Z -> list Z -> list Z).
Implicit Types (ctx : hash_context) (st input msg : list Z).

(** [while (ilen >= B) { process(ctx, input); input += B; ilen -= B; }]: the
    state and what is left of the input. *)
Fixpoint while_blocks (fuel : nat) (st input : list Z) : list Z * list Z :=
  match fuel with
  | O => (st, input)
  | S fuel => if (B <=? length input)%nat
              then while_blocks fuel (process st (take B input)) (drop B input)
              else (st, input)
  end.

(** The compression function has no failing path, so the error returns after
    its calls are dead code. *)
Definition hash_update (ctx : hash_context) (input : list Z) : hash_context :=
  let ilen := length input in
  if (ilen =? 0)%nat then ctx
  else
    let left_ := Z.to_nat (Z.land (total0 ctx) (Z.of_nat B - 1)) in
    let fill := (B - left_)%nat in
    let n := Z.of_nat ilen mod 2 ^ W in
    let ctx := ctx <| total0 := (total0 ctx + n) mod 2 ^ W |> in
    let ctx := if total0 ctx <? n then ctx <| total1 := (total1 ctx + 1) mod 2 ^ W |> else ctx in
    let '(ctx, input, left_) :=
      if (negb (left_ =? 0)%nat && (fill <=? ilen)%nat)%bool
      then
        let ctx := ctx <| buffer := memcpy_at left_ (take fill input) (buffer ctx) |> in
        (ctx <| state := process (state ctx) (buffer ctx) |>, drop fill input, O)
      else (ctx, input, left_) in
    let '(st, input) := while_blocks (length input) (state ctx) input in
    let ctx := ctx <| state := st |> in
    if (0 <? length input)%nat
    then ctx <| buffer := memcpy_at left_ input (buffer ctx) |>
    else ctx.

(** [L] is the size of the length field, [len] its bytes. *)
Definition hash_finish (L : nat) (len : Z -> Z -> list Z) (ctx : hash_context) : hash_context :=
  let used := Z.to_nat (Z.land (total0 ctx) (Z.of_nat B - 1)) in
  let ctx := ctx <| buffer := memcpy_at used [128] (buffer ctx) |> in
  let used := S used in
  let ctx :=
    if (used <=? B - L)%nat
    then ctx <| buffer := memset_at used 0 (B - L - used) (buffer ctx) |>
    else
      let ctx := ctx <| buffer := memset_at used 0 (B - used) (buffer ctx) |> in
      let ctx := ctx <| state := process (state ctx) (buffer ctx) |> in
      ctx <| buffer := memset_at 0 0 (B - L) (buffer ctx) |> in
  let ctx := ctx <| buffer := memcpy_at (B - L) (len (total0 ctx) (total1 ctx)) (buffer ctx) |> in
  ctx <| state := process (state ctx) (buffer ctx) |>.

(** ** The reference: a message cut into blocks *)

Fixpoint fold_blocks (n : nat) (st l : list Z) : list Z :=
  match n with
  | O => st
  | S n => fold_blocks n (process st (take B l)) (drop B l)
  end.

Definition nblocks (l : list Z) : nat := length l / B.
Definition absorbed (st l : list Z) : list Z := fold_blocks (nblocks l) st l.
Definition pending (l : list Z) : list Z := drop (nblocks l * B) l.

(** The message, a one bit, zeros up to the length field, the length field. *)
Definition padding (L n : nat) (len : list Z) : list Z :=
  128 :: zeros ((2 * B - 1 - L - n mod B) mod B) ++ len.

Definition iterated_hash (iv : list Z) (L : nat) (len : list Z) (msg : list Z) : list Z :=
  absorbed iv (msg ++ padding L (length msg) len).

Context (k : Z) (HB : Z.of_nat B = 2 ^ k) (Hk : 0 < k <= W).

Lemma B_pos : (0 < B)%nat.
Proof. pose proof (Z.pow_pos_nonneg 2 k). lia. Qed.

Lemma land_mask x : Z.land x (Z.of_nat B - 1) = x mod Z.of_nat B.
Proof.
  rewrite HB. replace (2 ^ k - 1) with (Z.ones k) by (rewrite Z.ones_equiv; lia).
  apply Z.land_ones. lia.
Qed.

Lemma fold_blocks_add n m st l :
  fold_blocks (n + m) st l = fold_blocks m (fold_blocks n st l) (drop (n * B) l).
Proof.
  revert st l. induction n as [|n IH]; intros st l; [reflexivity|].
  cbn [Nat.add fold_blocks]. rewrite IH, drop_drop. reflexivity.
Qed.

Lemma fold_blocks_app n st a b :
  (n * B <= length a)%nat -> fold_blocks n st (a ++ b) = fold_blocks n st a.
Proof.
  revert st a. induction n as [|n IH]; intros st a Hn; [reflexivity|].
  cbn [fold_blocks]. rewrite take_app_le, drop_app_le by lia.
  apply IH. rewrite length_drop. lia.
Qed.

Lemma nblocks_le l : (nblocks l * B <= length l)%nat.
Proof. unfold nblocks. pose proof B_pos. pose proof (Nat.div_mod_eq (length l) B). lia. Qed.

Lemma pending_length l : length (pending l) = (length l mod B)%nat.
Proof.
  unfold pending. rewrite length_drop. unfold nblocks. pose proof B_pos.
  pose proof (Nat.div_mod_eq (length l) B). lia.
Qed.

(** Absorbing more: go on from the state with what was pending in front. *)
Lemma nblocks_app a b : nblocks (a ++ b) = (nblocks a + nblocks (pending a ++ b))%nat.
Proof.
  unfold nblocks at 1 3. pose proof B_pos as HB0.
  rewrite !length_app, pending_length, (Nat.div_mod_eq (length a) B) at 1.
  unfold nblocks. rewrite <- Nat.div_add_l by lia. f_equal. lia.
Qed.

Lemma drop_nblocks_app a b : drop (nblocks a * B) (a ++ b) = pending a ++ b.
Proof. apply drop_app_le, nblocks_le. Qed.

Lemma absorbed_app st a b : absorbed st (a ++ b) = absorbed (absorbed st a) (pending a ++ b).
Proof.
  unfold absorbed at 1. rewrite nblocks_app, fold_blocks_add, drop_nblocks_app.
  rewrite (fold_blocks_app (nblocks a)) by apply nblocks_le. reflexivity.
Qed.

Lemma pending_app a b : pending (a ++ b) = pending (pending a ++ b).
Proof.
  unfold pending at 1. rewrite nblocks_app, Nat.mul_add_distr_r, <- drop_drop.
  rewrite drop_nblocks_app. reflexivity.
Qed.

(** Fuel of the length of the input is enough for the loop. *)
Lemma while_blocks_spec fuel st input :
  (length input <= fuel)%nat -> while_blocks fuel st input = (absorbed st input, pending input).
Proof.
  pose proof B_pos as HB0. revert st input. unfold absorbed, pending, nblocks.
  induction fuel as [|fuel IH]; intros st input Hf.
  - destruct input; [|cbn in Hf; lia]. cbn [length]. rewrite Nat.Div0.div_0_l. reflexivity.
  - cbn [while_blocks]. destruct (Nat.leb_spec B (length input)) as [Hle|Hlt].
    + rewrite IH by (rewrite length_drop; lia). rewrite length_drop.
      replace (length input / B)%nat with (S ((length input - B) / B)).
      * cbn [fold_blocks]. rewrite drop_drop. f_equal.
      * replace (length input) with ((length input - B) + 1 * B)%nat at 2 by lia.
        rewrite Nat.div_add by lia. lia.
    + rewrite Nat.div_small by lia. reflexivity.
Qed.

Lemma absorbed_block st l : length l = B -> absorbed st l = process st l.
Proof.
  intros H. unfold absorbed, nblocks. pose proof B_pos. rewrite H, Nat.div_same by lia.
  cbn [fold_blocks]. rewrite take_ge by lia. reflexivity.
Qed.

Lemma pending_block l : length l = B -> pending l = [].
Proof. intros H. apply length_zero_iff_nil. rewrite pending_length, H. apply Nat.Div0.mod_same. Qed.

Lemma absorbed_short st l : (length l < B)%nat -> absorbed st l = st.
Proof. intros H. unfold absorbed, nblocks. rewrite Nat.div_small by exact H. reflexivity. Qed.

Lemma pending_short l : (length l < B)%nat -> pending l = l.
Proof. intros H. unfold pending, nblocks. rewrite Nat.div_small by exact H. reflexivity. Qed.

(** ** The context and the message absorbed so far *)

Record hash_inv (iv : list Z) (ctx : hash_context) (msg : list Z) : Prop := {
  inv_total0 : total0 ctx = Z.of_nat (length msg) mod 2 ^ W;
  inv_total1 : total1 ctx = (Z.of_nat (length msg) / 2 ^ W) mod 2 ^ W;
  inv_buffer : length (buffer ctx) = B;
  inv_state : state ctx = absorbed iv msg;
  inv_pending : take (length (pending msg)) (buffer ctx) = pending msg }.

Lemma hash_inv_start iv buf :
  length buf = B ->
  hash_inv iv {| total0 := 0; total1 := 0; state := iv; buffer := buf |} [].
Proof.
  intros Hb. pose proof B_pos.
  split; cbn [total0 total1 state buffer]; [reflexivity..|exact Hb| |].
  - symmetry. apply absorbed_short. cbn. lia.
  - rewrite pending_short by (cbn; lia). reflexivity.
Qed.

Lemma pow_pos : 0 < 2 ^ W.
Proof. apply Z.pow_pos_nonneg; lia. Qed.

Lemma mod_W_mod_B x : (x mod 2 ^ W) mod Z.of_nat B = x mod Z.of_nat B.
Proof.
  rewrite HB. apply Z.mod_mod_divide. exists (2 ^ (W - k)).
  rewrite <- Z.pow_add_r by lia. f_equal. lia.
Qed.

Lemma left_pending iv ctx msg :
  hash_inv iv ctx msg ->
  Z.to_nat (Z.land (total0 ctx) (Z.of_nat B - 1)) = length (pending msg).
Proof.
  intros H. rewrite (inv_total0 _ _ _ H), land_mask, mod_W_mod_B, pending_length.
  rewrite <- Nat2Z.inj_mod. apply Nat2Z.id.
Qed.

(** The two counter words are the length, with the carry as the code finds it. *)
Lemma count_low m n : ((m mod 2 ^ W) + n) mod 2 ^ W = (m + n) mod 2 ^ W.
Proof. apply Zplus_mod_idemp_l. Qed.

Lemma count_high m n :
  0 <= m -> 0 <= n < 2 ^ W ->
  (if (m + n) mod 2 ^ W <? n then ((m / 2 ^ W) mod 2 ^ W + 1) mod 2 ^ W else (m / 2 ^ W) mod 2 ^ W)
  = ((m + n) / 2 ^ W) mod 2 ^ W.
Proof.
  intros Hm Hn. pose proof pow_pos as Hp. rewrite Zplus_mod_idemp_l.
  pose proof (Z.div_mod m (2 ^ W) ltac:(lia)) as Hd.
  pose proof (Z.mod_pos_bound m (2 ^ W) Hp) as Hr.
  generalize dependent (m / 2 ^ W). generalize dependent (m mod 2 ^ W). intros r Hr q Hd.
  subst m. replace (2 ^ W * q + r + n) with (r + n + q * 2 ^ W) by lia.
  rewrite Z.mod_add, Z.div_add by lia.
  destruct (Z_lt_ge_dec (r + n) (2 ^ W)) as [Hlt|Hge].
  - rewrite (Z.mod_small (r + n)), (Z.div_small (r + n)) by lia.
    destruct (Z.ltb_spec (r + n) n); [lia|]. reflexivity.
  - replace (r + n) with (r + n - 2 ^ W + 1 * 2 ^ W) by lia.
    rewrite Z.mod_add, Z.div_add, (Z.mod_small (r + n - 2 ^ W)), (Z.div_small (r + n - 2 ^ W)) by lia.
    destruct (Z.ltb_spec (r + n - 2 ^ W) n); [|lia]. f_equal. lia.
Qed.

(** What update does to state and buffer, counters aside. *)
Definition absorb_input (left_ : nat) (st buf input : list Z) : list Z * list Z :=
  let fill := (B - left_)%nat in
  let '(st, buf, input, left_) :=
    if (negb (left_ =? 0)%nat && (fill <=? length input)%nat)%bool
    then (process st (memcpy_at left_ (take fill input) buf),
          memcpy_at left_ (take fill input) buf, drop fill input, O)
    else (st, buf, input, left_) in
  let '(st, input) := while_blocks (length input) st input in
  (st, if (0 <? length input)%nat then memcpy_at left_ input buf else buf).

Lemma hash_update_eq ctx input :
  input <> [] ->
  let n := Z.of_nat (length input) mod 2 ^ W in
  let t0 := (total0 ctx + n) mod 2 ^ W in
  let '(st, buf) := absorb_input (Z.to_nat (Z.land (total0 ctx) (Z.of_nat B - 1)))
                      (state ctx) (buffer ctx) input in
  hash_update ctx input =
  {| total0 := t0;
     total1 := if t0 <? n then (total1 ctx + 1) mod 2 ^ W else total1 ctx;
     state := st; buffer := buf |}.
Proof.
  intros Hne. unfold hash_update, absorb_input.
  destruct (length input =? 0)%nat eqn:H0; [destruct input; [congruence|discriminate]|].
  cbn [total0 total1 state buffer set_field]. destruct ctx as [t0 t1 st buf]; cbn.
  destruct (_ <? _); cbn; destruct (negb _ && _)%bool; cbn;
    destruct (while_blocks _ _ _) as [st' rest]; destruct rest; reflexivity.
Qed.

(** The tail that is copied is what is pending. *)
Lemma copy_tail st buf input left_ :
  (left_ + length input < B)%nat -> length buf = B ->
  let buf' := if (0 <? length input)%nat then memcpy_at left_ input buf else buf in
  length buf' = B /\ take (left_ + length input) buf' = take left_ buf ++ input /\
  absorbed st (take left_ buf ++ input) = st.
Proof.
  intros Hl Hb. cbn zeta. repeat split.
  - destruct (_ <? _)%nat; [rewrite memcpy_at_length by lia|]; exact Hb.
  - destruct (Nat.ltb_spec 0 (length input)) as [_|Hz].
    + apply take_memcpy_at. lia.
    + destruct input; [|cbn in Hz; lia]. rewrite Nat.add_0_r, app_nil_r. reflexivity.
  - apply absorbed_short. rewrite length_app, length_take. lia.
Qed.

Lemma absorbed_block_app st blk l :
  length blk = B -> absorbed st (blk ++ l) = absorbed (process st blk) l.
Proof.
  intros H. rewrite absorbed_app, (absorbed_block st blk H), (pending_block blk H). reflexivity.
Qed.

Lemma pending_block_app blk l : length blk = B -> pending (blk ++ l) = pending l.
Proof. intros H. rewrite pending_app, (pending_block blk H). reflexivity. Qed.

Lemma absorb_input_spec left_ st buf input :
  (left_ < B)%nat -> length buf = B ->
  let p := take left_ buf in
  let '(st', buf') := absorb_input left_ st buf input in
  st' = absorbed st (p ++ input) /\ length buf' = B /\
  take (length (pending (p ++ input))) buf' = pending (p ++ input).
Proof.
  intros Hl Hb p. assert (Hp : length p = left_) by (unfold p; rewrite length_take; lia).
  unfold absorb_input. destruct (negb _ && _)%bool eqn:Hc; rewrite while_blocks_spec by lia.
  - apply andb_prop in Hc as [_ Hc%Nat.leb_le].
    set (fill := (B - left_)%nat) in *. set (blk := memcpy_at left_ (take fill input) buf).
    assert (Hblk : blk = p ++ take fill input)
      by (apply memcpy_at_end; rewrite length_take; lia).
    assert (HB' : length blk = B) by (rewrite Hblk, length_app, length_take; lia).
    replace (p ++ input) with (blk ++ drop fill input)
      by (rewrite Hblk, <- app_assoc, take_drop; reflexivity).
    rewrite absorbed_block_app, pending_block_app by exact HB'.
    pose proof (copy_tail [] blk (pending (drop fill input)) 0) as Hct.
    destruct Hct as (Hlen & Htk & _); [|exact HB'|].
    { rewrite pending_length. apply Nat.mod_upper_bound. lia. }
    split; [reflexivity|]. split; [exact Hlen|]. exact Htk.
  - assert (Hcase : left_ = O \/ (left_ + length input < B)%nat).
    { apply andb_false_iff in Hc as [Hc|Hc%Nat.leb_gt]; [|lia].
      apply negb_false_iff, Nat.eqb_eq in Hc. lia. }
    destruct Hcase as [->|Hs].
    + replace p with (@nil Z) by (destruct p; [reflexivity|discriminate]). cbn [app].
      destruct (copy_tail [] buf (pending input) 0) as (Hlen & Htk & _); [|exact Hb|].
      { rewrite pending_length. apply Nat.mod_upper_bound. lia. }
      split; [reflexivity|]. split; [exact Hlen|]. exact Htk.
    + destruct (copy_tail st buf input left_ Hs Hb) as (Hlen & Htk & Hab). fold p in Htk, Hab.
      rewrite absorbed_short, pending_short by lia. rewrite Hab.
      rewrite pending_short by (rewrite length_app; lia). rewrite length_app, Hp. auto.
Qed.

(** An update of less than [2 ^ W] bytes absorbs its input. *)
Lemma hash_update_inv iv ctx msg input :
  Z.of_nat (length input) < 2 ^ W ->
  hash_inv iv ctx msg -> hash_inv iv (hash_update ctx input) (msg ++ input).
Proof.
  intros Hn H. destruct (decide (input = [])) as [->|Hne]; [rewrite app_nil_r; exact H|].
  pose proof (hash_update_eq ctx input Hne) as Heq. cbn zeta in Heq.
  rewrite (left_pending iv ctx msg H) in Heq.
  pose proof (absorb_input_spec (length (pending msg)) (state ctx) (buffer ctx) input) as Hab.
  destruct (absorb_input _ _ _ _) as [st buf]. rewrite Heq. clear Heq. cbn zeta in Hab.
  rewrite (inv_pending _ _ _ H), (inv_state _ _ _ H) in Hab.
  rewrite <- absorbed_app, <- pending_app in Hab.
  destruct Hab as (-> & Hlen & Htk).
  { rewrite pending_length. apply Nat.mod_upper_bound. pose proof B_pos. lia. }
  { apply (inv_buffer _ _ _ H). }
  rewrite (Z.mod_small (Z.of_nat (length input))) by lia.
  split; cbn [total0 total1 state buffer]; try assumption; try reflexivity;
    rewrite length_app, Nat2Z.inj_add, (inv_total0 _ _ _ H), ?(inv_total1 _ _ _ H).
  - apply count_low.
  - rewrite count_low. apply count_high; lia.
Qed.

(** Any sequence of such updates absorbs the concatenation. *)
Lemma hash_updates_inv iv ctx msg chunks :
  Forall (fun c => Z.of_nat (length c) < 2 ^ W) chunks -> hash_inv iv ctx msg ->
  hash_inv iv (fold_left hash_update chunks ctx) (msg ++ concat chunks).
Proof.
  intros Hc. revert ctx msg. induction Hc as [|c cs Hcl _ IH]; intros ctx msg H.
  - cbn. rewrite app_nil_r. exact H.
  - cbn [fold_left concat]. rewrite app_assoc. apply IH, hash_update_inv; assumption.
Qed.

(** The zeros of the padding, by cases. *)
Lemma padding_one L n len :
  (n mod B + 1 + L <= B)%nat -> padding L n len = 128 :: zeros (B - L - S (n mod B)) ++ len.
Proof.
  intros H. unfold padding. pose proof B_pos.
  replace (2 * B - 1 - L - n mod B)%nat with (B - L - S (n mod B) + 1 * B)%nat by lia.
  rewrite Nat.Div0.mod_add, Nat.mod_small by lia. reflexivity.
Qed.

Lemma padding_two L n len :
  (L < B)%nat -> (B < n mod B + 1 + L)%nat ->
  padding L n len = (128 :: zeros (B - S (n mod B))) ++ zeros (B - L) ++ len.
Proof.
  intros HL H. unfold padding. pose proof B_pos. pose proof (Nat.mod_upper_bound n B).
  rewrite Nat.mod_small by lia.
  replace (2 * B - 1 - L - n mod B)%nat with ((B - S (n mod B)) + (B - L))%nat by lia.
  unfold zeros. rewrite replicate_add. cbn [app]. rewrite <- app_assoc. reflexivity.
Qed.

Lemma take_memset off n buf :
  (off + n <= length buf)%nat -> take (off + n) (memset_at off 0 n buf) = take off buf ++ zeros n.
Proof.
  intros H. unfold memset_at, zeros.
  pose proof (take_memcpy_at off (replicate n 0) buf ltac:(lia)) as Ht.
  rewrite length_replicate in Ht. exact Ht.
Qed.

(** The last block when the length still fits, and when it needs another. *)
Lemma last_block L len p buf :
  let u := S (length p) in
  (u + L <= B)%nat -> length len = L -> length buf = B -> take u buf = p ++ [128] ->
  memcpy_at (B - L) len (memset_at u 0 (B - L - u) buf) = (p ++ [128]) ++ zeros (B - L - u) ++ len.
Proof.
  intros u Hu Hlen Hb Ht. rewrite memcpy_at_end by (rewrite memset_at_length; lia).
  replace (B - L)%nat with (u + (B - L - u))%nat at 1 by lia.
  rewrite take_memset, Ht, <- !app_assoc by lia. reflexivity.
Qed.

Lemma length_block L len buf :
  (L <= B)%nat -> length len = L -> length buf = B ->
  memcpy_at (B - L) len (memset_at 0 0 (B - L) buf) = zeros (B - L) ++ len.
Proof.
  intros HL Hlen Hb. rewrite memcpy_at_end by (rewrite memset_at_length; lia).
  pose proof (take_memset 0 (B - L) buf ltac:(lia)) as H. cbn [Nat.add] in H. rewrite H. reflexivity.
Qed.

Lemma full_block p buf :
  let u := S (length p) in
  (u <= B)%nat -> length buf = B -> take u buf = p ++ [128] ->
  memset_at u 0 (B - u) buf = (p ++ [128]) ++ zeros (B - u).
Proof.
  intros u Hu Hb Ht. unfold memset_at.
  rewrite memcpy_at_end by (rewrite length_replicate; lia). rewrite Ht. reflexivity.
Qed.

(** The one bit, stored behind what is pending. *)
Lemma mark_block iv ctx msg :
  hash_inv iv ctx msg ->
  let buf := memcpy_at (length (pending msg)) [128] (buffer ctx) in
  length buf = B /\ take (S (length (pending msg))) buf = pending msg ++ [128].
Proof.
  intros H buf. pose proof (inv_buffer _ _ _ H) as Hb. pose proof B_pos.
  pose proof (Nat.mod_upper_bound (length msg) B ltac:(lia)) as Hr.
  rewrite <- (pending_length msg) in Hr. split.
  - unfold buf. rewrite memcpy_at_length; cbn; lia.
  - pose proof (take_memcpy_at (length (pending msg)) [128] (buffer ctx) ltac:(lia)) as Ht.
    cbn [length] in Ht. rewrite Nat.add_1_r, (inv_pending _ _ _ H) in Ht. exact Ht.
Qed.

(** Finishing leaves the hash of the message in the state. *)
Lemma hash_finish_spec iv ctx msg L len :
  (0 < L < B)%nat -> length (len (total0 ctx) (total1 ctx)) = L -> hash_inv iv ctx msg ->
  state (hash_finish L len ctx) = iterated_hash iv L (len (total0 ctx) (total1 ctx)) msg /\
  length (buffer (hash_finish L len ctx)) = B.
Proof.
  intros HL Hlen H. pose proof (pending_length msg) as Hp.
  pose proof (Nat.mod_upper_bound (length msg) B ltac:(lia)) as Hr.
  destruct (mark_block iv ctx msg H) as [H1l H1].
  unfold hash_finish, iterated_hash. rewrite (left_pending iv ctx msg H).
  rewrite absorbed_app, <- (inv_state _ _ _ H).
  destruct ctx as [t0 t1 st buf]; cbn [total0 total1 state buffer set_field] in *.
  revert H1 H1l. generalize (memcpy_at (length (pending msg)) [128] buf). intros buf1 H1 H1l.
  destruct (Nat.leb_spec (S (length (pending msg))) (B - L)) as [Hle|Hgt]; cbn.
  - rewrite last_block by (assumption || lia). rewrite padding_one, <- Hp by lia. split.
    + rewrite absorbed_block by (rewrite length_app; cbn [length]; rewrite length_app, zeros_length; lia).
      rewrite <- app_assoc. reflexivity.
    + rewrite !length_app, zeros_length. cbn. lia.
  - rewrite full_block by (assumption || lia).
    assert (Hf : length ((pending msg ++ [128]) ++ zeros (B - S (length (pending msg)))) = B)
      by (rewrite !length_app, zeros_length; cbn [length]; lia).
    rewrite length_block by (assumption || lia). rewrite padding_two, <- Hp by lia. split.
    + rewrite (app_assoc (pending msg)). rewrite <- app_assoc in Hf |- *. cbn [app] in Hf |- *.
      rewrite absorbed_block_app by exact Hf.
      rewrite absorbed_block by (rewrite length_app, zeros_length; lia). reflexivity.
    + rewrite length_app, zeros_length. lia.
Qed.

(** An update of [2 ^ W] bytes is not counted. *)
Lemma hash_update_uncounted ctx input :
  Z.of_nat (length input) = 2 ^ W -> 0 <= total0 ctx < 2 ^ W ->
  total0 (hash_update ctx input) = total0 ctx /\ total1 (hash_update ctx input) = total1 ctx.
Proof.
  intros Hl Ht. pose proof pow_pos as Hp.
  assert (Hne : input <> []) by (intros ->; cbn in Hl; lia).
  pose proof (hash_update_eq ctx input Hne) as Heq. cbn zeta in Heq.
  destruct (absorb_input _ _ _ _) as [st buf]. rewrite Heq. cbn [total0 total1].
  rewrite Hl, Z.mod_same, Z.add_0_r, Z.mod_small by lia.
  destruct (Z.ltb_spec (total0 ctx) 0); [lia|]. auto.
Qed.

End stream.

(** What the compression function preserves, the operations preserve. *)
Section preserved.
Context (B : nat) (W : Z) (process : list Z -> list Z -> list Z) (Q : list Z -> Prop).
Context (HQ : forall st blk, Q st -> Q (process st blk)).

Lemma while_blocks_preserves fuel st input : Q st -> Q (fst (while_blocks B process fuel st input)).
Proof.
  revert st input. induction fuel as [|fuel IH]; intros st input H; [exact H|].
  cbn [while_blocks]. destruct (_ <=? _)%nat; [apply IH, HQ, H|exact H].
Qed.

Lemma hash_update_preserves ctx input : Q (state ctx) -> Q (state (hash_update B W process ctx input)).
Proof.
  intros H. unfold hash_update. destruct (_ =? _)%nat; [exact H|]. cbn zeta.
  destruct (_ <? _); cbn [state buffer set_field]; destruct (negb _ && _)%bool; cbn [state buffer set_field];
    match goal with |- context [while_blocks B process ?f ?st ?i] =>
      pose proof (while_blocks_preserves f st i ltac:(auto)) as Hw;
      destruct (while_blocks B process f st i) as [st' rest] end;
    cbn [fst] in Hw; destruct (_ <? _)%nat; exact Hw.
Qed.

Lemma hash_finish_preserves L len ctx : Q (state ctx) -> Q (state (hash_finish B process L len ctx)).
Proof.
  intros H. unfold hash_finish. cbn zeta. destruct (_ <=? _)%nat; cbn [state set_field]; auto.
Qed.

End preserved.

(** Compression functions that agree on well-formed states and blocks of bytes
    absorb the same. *)
Section absorbed_ext.
Context (B : nat) (p q : list Z -> list Z -> list Z) (Q : list Z -> Prop).
Context (Hpq : forall st blk, Q st -> length blk = B -> byte_list blk ->
  p st blk = q st blk /\ Q (q st blk)).

Lemma fold_blocks_ext n st l :
  (n * B <= length l)%nat -> Q st -> byte_list l ->
  fold_blocks B p n st l = fold_blocks B q n st l /\ Q (fold_blocks B q n st l).
Proof.
  revert st l. induction n as [|n IH]; intros st l Hl HQ Hb; [auto|]. cbn [fold_blocks].
  destruct (Hpq st (take B l)) as [-> HQ']; [exact HQ|rewrite length_take; lia|apply Forall_take, Hb|].
  apply IH; [rewrite length_drop; lia|exact HQ'|apply Forall_drop, Hb].
Qed.

Lemma absorbed_ext st l :
  (0 < B)%nat -> Q st -> byte_list l ->
  absorbed B p st l = absorbed B q st l /\ Q (absorbed B q st l).
Proof.
  intros HB HQ Hb. apply fold_blocks_ext; try assumption.
  unfold nblocks. pose proof (Nat.div_mod_eq (length l) B). lia.
Qed.

Lemma iterated_hash_ext iv L len msg :
  (0 < B)%nat -> Q iv -> byte_list msg -> byte_list len ->
  iterated_hash B p iv L len msg = iterated_hash B q iv L len msg /\ Q (iterated_hash B q iv L len msg).
Proof.
  intros HB Hiv Hb Hlen. apply absorbed_ext; [exact HB|exact Hiv|].
  apply Forall_app. split; [exact Hb|]. constructor; [unfold is_u8; lia|].
  apply Forall_app. split; [apply zeros_bytes|exact Hlen].
Qed.

End absorbed_ext.

(** A digest: a compression function that agrees with the standard's, and the
    encoding of the length of messages of less than [max] bytes. *)
Section digest.
Context (B : nat) (W : Z) (process compress : list Z -> list Z -> list Z).
Context (k : Z) (HB : Z.of_nat B = 2 ^ k) (Hk : 0 < k <= W) (Q : list Z -> Prop).
Context (Hcompress : forall st blk, Q st -> length blk = B -> byte_list blk ->
  process st blk = compress st blk /\ Q (compress st blk)).
Context (L : nat) (len : Z -> Z -> list Z) (field : Z -> list Z) (max : Z) (HL : (0 < L < B)%nat).
Context (Hlen : forall n, 0 <= n < max ->
  len (n mod 2 ^ W) ((n / 2 ^ W) mod 2 ^ W) = field n /\ length (field n) = L /\ byte_list (field n)).

Lemma digest_finish iv ctx msg :
  Q iv -> byte_list msg -> Z.of_nat (length msg) < max -> hash_inv B W process iv ctx msg ->
  let st := state (hash_finish B process L len ctx) in
  st = iterated_hash B compress iv L (field (Z.of_nat (length msg))) msg /\ Q st.
Proof.
  intros Hiv Hb Hl H.
  destruct (Hlen (Z.of_nat (length msg))) as (Hf & Hfl & Hfb); [lia|].
  destruct (hash_finish_spec B W process k HB Hk iv ctx msg L len HL) as [Hst _]; [|exact H|].
  { rewrite (inv_total0 _ _ _ _ _ _ H), (inv_total1 _ _ _ _ _ _ H), Hf. exact Hfl. }
  rewrite (inv_total0 _ _ _ _ _ _ H), (inv_total1 _ _ _ _ _ _ H), Hf in Hst.
  cbn zeta. rewrite Hst.
  destruct (iterated_hash_ext B process compress Q Hcompress iv L (field (Z.of_nat (length msg))) msg)
    as [-> HQ]; [lia|assumption..|]. auto.
Qed.

(** From a started context, fed in pieces, to the hash value. *)
Lemma digest_stream iv buf chunks :
  Q iv -> length buf = B -> Forall byte_list chunks ->
  Forall (fun c => Z.of_nat (length c) < 2 ^ W) chunks -> Z.of_nat (length (concat chunks)) < max ->
  let ctx := {| total0 := 0; total1 := 0; state := iv; buffer := buf |} in
  let st := state (hash_finish B process L len (fold_left (hash_update B W process) chunks ctx)) in
  st = iterated_hash B compress iv L (field (Z.of_nat (length (concat chunks)))) (concat chunks) /\ Q st.
Proof.
  intros Hiv Hbuf Hb Hc Hl ctx. apply digest_finish; [exact Hiv|apply Forall_concat, Hb|exact Hl|].
  apply (hash_updates_inv B W process k HB Hk iv ctx [] chunks Hc).
  apply (hash_inv_start B W process k HB Hk), Hbuf.
Qed.

End digest.
End stream.

(** What the compression functions of the digests share: words of a block,
    rotations of a word, the length field of the padding, and rounds whose
    unrolled code names the registers in a rotated order. *)

Import mbed stream.

Module rounds.

(** ** Loops over rounds *)

Lemma fold_seq_inv {T} (f : T -> nat -> T) (I : nat -> T -> Prop) n x :
  (forall i y, (i < n)%nat -> I i y -> I (S i) (f y i)) -> I 0%nat x -> I n (fold_left f (seq 0 n) x).
Proof.
  intros Hf H0. induction n as [|n IH]; [exact H0|].
  rewrite seq_S, fold_left_app. cbn [fold_left Nat.add]. apply Hf; [lia|]. apply IH. intros; apply Hf; auto.
Qed.

Lemma fold_left_map_seq {T C} (f : T -> C -> T) (c : nat -> C) g n x :
  fold_left (fun x i => f x (c (g + i)%nat)) (seq 0 n) x = fold_left f (map c (seq g n)) x.
Proof.
  induction n as [|n IH]; [reflexivity|].
  rewrite !seq_S, map_app, !fold_left_app, IH. reflexivity.
Qed.

(** ** Words *)

Definition is_word (W x : Z) : Prop := 0 <= x < 2 ^ W.
Definition words (W : Z) (l : list Z) : Prop := Forall (is_word W) l.

Lemma word_0 W : 0 <= W -> is_word W 0.
Proof. intros H. pose proof (Z.pow_pos_nonneg 2 W). unfold is_word. lia. Qed.

Lemma word_mod W x : 0 <= W -> is_word W (x mod 2 ^ W).
Proof. intros H. apply Z.mod_pos_bound, Z.pow_pos_nonneg; lia. Qed.

Lemma nth_words W l i : 0 <= W -> words W l -> is_word W l.[i].
Proof.
  intros HW H. rewrite nth_lookup. destruct (l !! i) eqn:Hi; [|apply word_0, HW].
  exact (Forall_lookup_1 _ _ _ _ H Hi).
Qed.

(** Words are closed under the bitwise operations. *)
Lemma word_bits W x : 0 <= W -> 0 <= x -> (forall i, W <= i -> Z.testbit x i = false) -> is_word W x.
Proof.
  intros HW Hx Hb. rewrite <- (Z.mod_small x (2 ^ (Z.max W (Z.log2 x + 1)))).
  - unfold is_word. replace (x mod _) with (x mod 2 ^ W); [apply Z.mod_pos_bound, Z.pow_pos_nonneg; lia|].
    apply Z.bits_inj'. intros i Hi. destruct (Z_lt_ge_dec i W).
    + rewrite !Z.mod_pow2_bits_low by lia. reflexivity.
    + rewrite Z.mod_pow2_bits_high by lia.
      destruct (Z_lt_ge_dec i (Z.max W (Z.log2 x + 1))); [|rewrite Z.mod_pow2_bits_high by lia; reflexivity].
      rewrite Z.mod_pow2_bits_low by lia. symmetry. apply Hb. lia.
  - split; [exact Hx|]. destruct (Z.eq_dec x 0) as [->|]; [apply Z.pow_pos_nonneg; lia|].
    apply Z.log2_lt_pow2; lia.
Qed.

Lemma word_high W x i : is_word W x -> W <= i -> Z.testbit x i = false.
Proof.
  intros Hx Hi. destruct (Z_lt_ge_dec W 0) as [Hn|HW].
  - unfold is_word in Hx. rewrite Z.pow_neg_r in Hx by exact Hn. lia.
  - rewrite <- (Z.mod_small x (2 ^ W)) by exact Hx. apply Z.mod_pow2_bits_high. lia.
Qed.

Lemma word_lxor W x y : 0 <= W -> is_word W x -> is_word W y -> is_word W (Z.lxor x y).
Proof.
  intros HW Hx Hy. apply word_bits; [exact HW|apply Z.lxor_nonneg; unfold is_word in *; lia|].
  intros i Hi. rewrite Z.lxor_spec, (word_high W x i), (word_high W y i) by assumption. reflexivity.
Qed.

Lemma word_lor W x y : 0 <= W -> is_word W x -> is_word W y -> is_word W (Z.lor x y).
Proof.
  intros HW Hx Hy. apply word_bits; [exact HW|apply Z.lor_nonneg; unfold is_word in *; lia|].
  intros i Hi. rewrite Z.lor_spec, (word_high W x i), (word_high W y i) by assumption. reflexivity.
Qed.

Lemma word_shiftr W x n : 0 <= n -> is_word W x -> is_word W (Z.shiftr x n).
Proof.
  intros Hn [H0 H1]. assert (0 < 2 ^ n) by (apply Z.pow_pos_nonneg; lia).
  rewrite Z.shiftr_div_pow2 by exact Hn. split; [apply Z.div_pos; lia|].
  apply Z.le_lt_trans with x; [|exact H1]. apply Z.div_le_upper_bound; nia.
Qed.

(** A rotation to the right by [n] as arithmetic; to the left it is by [W - n]. *)
Definition rotr (W n x : Z) : Z := x / 2 ^ n + (x mod 2 ^ n) * 2 ^ (W - n).
Definition rotl (W n x : Z) : Z := rotr W (W - n) x.

Lemma shifts_rotr W n x :
  is_word W x -> 0 < n < W ->
  Z.lor (Z.shiftr x n) (Z.shiftl x (W - n) mod 2 ^ W) = rotr W n x.
Proof.
  intros Hx Hn. unfold rotr.
  assert (Hp : 2 ^ W = 2 ^ n * 2 ^ (W - n)) by (rewrite <- Z.pow_add_r by lia; f_equal; lia).
  assert (0 < 2 ^ n /\ 0 < 2 ^ (W - n)) as [? ?] by (split; apply Z.pow_pos_nonneg; lia).
  rewrite Z.shiftr_div_pow2, Z.shiftl_mul_pow2, Hp, Zmult_mod_distr_r, <- Z.shiftl_mul_pow2 by lia.
  rewrite lor_disjoint_add, Z.shiftl_mul_pow2; [reflexivity|lia..|].
  unfold is_word in Hx. split; [apply Z.div_pos; lia|].
  apply Z.div_lt_upper_bound; [lia|]. rewrite <- Hp. apply Hx.
Qed.

Lemma shifts_rotl W n x :
  is_word W x -> 0 < n < W ->
  Z.lor (Z.shiftl x n mod 2 ^ W) (Z.shiftr x (W - n)) = rotl W n x.
Proof.
  intros Hx Hn. unfold rotl. rewrite <- shifts_rotr by (assumption || lia).
  rewrite Z.lor_comm. do 4 f_equal. lia.
Qed.

(** The macro of the 32-bit digests, which masks its argument. *)
Lemma masked_rotl x n :
  is_word 32 x -> 0 < n < 32 ->
  Z.lor (u32 (Z.shiftl x n)) (Z.shiftr (Z.land x 0xFFFFFFFF) (32 - n)) = rotl 32 n x.
Proof.
  intros Hx Hn. change 0xFFFFFFFF with (Z.ones 32).
  rewrite Z.land_ones, Z.mod_small by (assumption || lia). apply (shifts_rotl 32 n x); assumption.
Qed.

Lemma rotr_word W n x : is_word W x -> 0 < n < W -> is_word W (rotr W n x).
Proof.
  intros Hx Hn. rewrite <- shifts_rotr by assumption.
  apply word_lor; [lia|apply word_shiftr; [lia|exact Hx]|apply word_mod; lia].
Qed.

Lemma rotl_word W n x : is_word W x -> 0 < n < W -> is_word W (rotl W n x).
Proof. intros Hx Hn. apply rotr_word; [exact Hx|lia]. Qed.

(** The choice and majority functions, and the shorter forms the code computes. *)
Definition Ch (x y z : Z) : Z := Z.lxor (Z.land x y) (Z.land (Z.lnot x) z).
Definition Maj (x y z : Z) : Z := Z.lxor (Z.lxor (Z.land x y) (Z.land x z)) (Z.land y z).

Lemma short_Maj x y z : Z.lor (Z.land x y) (Z.land z (Z.lor x y)) = Maj x y z.
Proof.
  apply Z.bits_inj'. intros i Hi. unfold Maj.
  rewrite Z.lor_spec, !Z.lxor_spec, !Z.land_spec, Z.lor_spec. btauto.
Qed.

Lemma short_Ch x y z : Z.lxor z (Z.land x (Z.lxor y z)) = Ch x y z.
Proof.
  apply Z.bits_inj'. intros i Hi. unfold Ch.
  rewrite !Z.lxor_spec, !Z.land_spec, Z.lxor_spec, Z.lnot_spec by exact Hi. btauto.
Qed.

(** ** Blocks *)

Definition words32 : list Z -> Prop := Forall is_u32.

Lemma nth_word l i : words32 l -> is_u32 l.[i].
Proof. intros H. apply (nth_words 32 l i); [lia|exact H]. Qed.
#[export] Hint Resolve nth_word : words.

Lemma GET_BE_block data i :
  (4 * i + 4 <= length data)%nat ->
  MBEDTLS_GET_UINT32_BE data (4 * i) = be_value (take 4 (drop (4 * i) data)).
Proof.
  intros H. rewrite GET_BE_drop. pose proof (length_drop data (4 * i)) as Hl.
  destruct (drop (4 * i) data) as [|a [|b [|c [|d l]]]]; cbn in Hl; try lia.
  apply GET_BE_be_value.
Qed.

Lemma GET_LE_block data i :
  (4 * i + 4 <= length data)%nat ->
  MBEDTLS_GET_UINT32_LE data (4 * i) = le_value (take 4 (drop (4 * i) data)).
Proof.
  intros H. rewrite GET_LE_drop. pose proof (length_drop data (4 * i)) as Hl.
  destruct (drop (4 * i) data) as [|a [|b [|c [|d l]]]]; cbn in Hl; try lia.
  apply GET_LE_le_value.
Qed.

Lemma be_value_range l : byte_list l -> 0 <= be_value l < 256 ^ Z.of_nat (length l).
Proof.
  intros H. unfold be_value. rewrite <- length_rev. apply le_value_range, Forall_rev, H.
Qed.

(** The sixteen words of a block, big-endian or little-endian. *)
Definition block_words (block : list Z) : list Z :=
  map (fun i => be_value (take 4 (drop (4 * i) block))) (seq 0 16).

Definition block_words_le (block : list Z) : list Z :=
  map (fun i => le_value (take 4 (drop (4 * i) block))) (seq 0 16).

Lemma block_word_bytes (data : list Z) i :
  length data = 64%nat -> byte_list data -> (i < 16)%nat ->
  length (take 4 (drop (4 * i) data)) = 4%nat /\ byte_list (take 4 (drop (4 * i) data)).
Proof.
  intros Hl Hb Hi. split; [rewrite length_take, length_drop; lia|].
  apply Forall_take, Forall_drop, Hb.
Qed.

Lemma block_words_words data : length data = 64%nat -> byte_list data -> words32 (block_words data).
Proof.
  intros Hl Hb. apply Forall_map, Forall_forall. intros i Hi%elem_of_seq.
  destruct (block_word_bytes data i Hl Hb) as [Hn Hbb]; [lia|].
  pose proof (be_value_range _ Hbb) as Hr. rewrite Hn in Hr. exact Hr.
Qed.

Lemma block_words_le_words data : length data = 64%nat -> byte_list data -> words32 (block_words_le data).
Proof.
  intros Hl Hb. apply Forall_map, Forall_forall. intros i Hi%elem_of_seq.
  destruct (block_word_bytes data i Hl Hb) as [Hn Hbb]; [lia|].
  pose proof (le_value_range _ Hbb) as Hr. rewrite Hn in Hr. exact Hr.
Qed.

(** The sixteen loads at the start of a compression function. *)
Lemma load_words (get : list Z -> nat -> Z) (value : list Z -> Z) data :
  (forall i, (4 * i + 4 <= length data)%nat -> get data (4 * i)%nat = value (take 4 (drop (4 * i) data))) ->
  length data = 64%nat ->
  fold_left (fun W i => <[i := get data (4 * i)%nat]> W) (seq 0 16) (zeros 16) =
  map (fun i => value (take 4 (drop (4 * i) data))) (seq 0 16).
Proof.
  intros Hget H.
  destruct (fill_seq (fun i => get data (4 * i)%nat) 16 (zeros 16)) as [Hl Ht];
    [rewrite zeros_length; lia|]. rewrite take_ge in Ht by (rewrite Hl, zeros_length; lia). rewrite Ht.
  apply map_ext_in. intros i Hi%in_seq. apply Hget. lia.
Qed.

(** A hash value of [n] words; adding one to another gives one. *)
Definition hash_value (n : nat) (st : list Z) : Prop := length st = n /\ words32 st.

Lemma hash_value_add n st r :
  hash_value n st -> length r = n -> hash_value n (zip_with (fun h r => u32 (h + r)) st r).
Proof.
  intros [Hl _] Hr. split; [rewrite length_zip_with; lia|].
  apply Forall_zip_with_fst with (P := fun _ => True); [apply Forall_true; auto|].
  apply Forall_true. intros x. auto using u32_range.
Qed.

Lemma concat_le_bytes_bytes n (l : list Z) : byte_list (concat (map (le_bytes n) l)).
Proof.
  induction l as [|x l IH]; [constructor|]. cbn [map concat]. apply Forall_app.
  split; [apply le_bytes_bytes|exact IH].
Qed.

Lemma concat_be_bytes_length n (l : list Z) : length (concat (map (be_bytes n) l)) = (n * length l)%nat.
Proof.
  induction l as [|x l IH]; [cbn; lia|].
  cbn [map concat]. rewrite length_app, be_bytes_length, IH. cbn [length]. lia.
Qed.

Lemma concat_be_bytes_bytes n (l : list Z) : byte_list (concat (map (be_bytes n) l)).
Proof.
  induction l as [|x l IH]; [constructor|]. cbn [map concat]. apply Forall_app.
  split; [apply be_bytes_bytes|exact IH].
Qed.

(** ** The length in bits, in two words *)

(** [high = (total[0] >> (W - 3)) | (total[1] << 3)], [low = total[0] << 3]. *)
Lemma bit_count_words W n :
  3 < W -> 0 <= n < 2 ^ (2 * W - 3) ->
  let t0 := n mod 2 ^ W in
  let t1 := (n / 2 ^ W) mod 2 ^ W in
  Z.lor (Z.shiftr t0 (W - 3)) (Z.shiftl t1 3 mod 2 ^ W) = 8 * n / 2 ^ W /\
  Z.shiftl t0 3 mod 2 ^ W = (8 * n) mod 2 ^ W.
Proof.
  intros HW Hn t0 t1.
  assert (Hp : 2 ^ W = 8 * 2 ^ (W - 3)) by (change 8 with (2 ^ 3); rewrite <- Z.pow_add_r by lia; f_equal; lia).
  assert (Hp2 : 2 ^ (2 * W - 3) = 2 ^ W * 2 ^ (W - 3)) by (rewrite <- Z.pow_add_r by lia; f_equal; lia).
  assert (Hpos : 0 < 2 ^ (W - 3)) by (apply Z.pow_pos_nonneg; lia).
  rewrite Hp2 in Hn.
  assert (Hq : 0 <= n / 2 ^ W < 2 ^ (W - 3)).
  { split; [apply Z.div_pos; lia|]. apply Z.div_lt_upper_bound; lia. }
  pose proof (Z.mod_pos_bound n (2 ^ W) ltac:(lia)) as Hr.
  pose proof (Z.div_mod n (2 ^ W) ltac:(lia)) as Hd. split.
  - unfold t0, t1. rewrite (Z.mod_small (n / 2 ^ W)) by lia.
    rewrite (Z.mod_small (Z.shiftl _ 3)) by (rewrite Z.shiftl_mul_pow2 by lia; change (2 ^ 3) with 8; lia).
    rewrite Z.shiftr_div_pow2, lor_disjoint_add by (lia || (split; [apply Z.div_pos; lia|];
      apply Z.div_lt_upper_bound; [lia|]; change (2 ^ 3) with 8; lia)).
    change (2 ^ 3) with 8. rewrite Hd at 3.
    replace (8 * (2 ^ W * (n / 2 ^ W) + n mod 2 ^ W)) with (8 * (n mod 2 ^ W) + 8 * (n / 2 ^ W) * 2 ^ W) by lia.
    rewrite Z.div_add by lia. rewrite Hp at 4. rewrite Z.div_mul_cancel_l by lia. lia.
  - unfold t0. rewrite Z.shiftl_mul_pow2 by lia. change (2 ^ 3) with 8.
    rewrite Zmult_mod_idemp_l. f_equal. lia.
Qed.

(** The two words as the length field, big-endian or little-endian. *)
Lemma words_be_bytes m x :
  be_bytes m (x / 256 ^ Z.of_nat m) ++ be_bytes m (x mod 256 ^ Z.of_nat m) = be_bytes (m + m) x.
Proof.
  rewrite be_bytes_mod, be_bytes_app, Z.shiftr_div_pow2 by lia.
  change 256 with (2 ^ 8). rewrite <- Z.pow_mul_r by lia. reflexivity.
Qed.

Lemma words_le_bytes m x :
  le_bytes m (x mod 256 ^ Z.of_nat m) ++ le_bytes m (x / 256 ^ Z.of_nat m) = le_bytes (m + m) x.
Proof.
  rewrite le_bytes_mod, le_bytes_app, Z.shiftr_div_pow2 by lia.
  change 256 with (2 ^ 8). rewrite <- Z.pow_mul_r by lia. reflexivity.
Qed.

(** ** Message schedules *)

Section schedule.
Context (next_word : list Z -> Z).

(** [n] more words, each from the words before it. *)
Fixpoint schedule (M : list Z) (n : nat) : list Z :=
  match n with
  | O => M
  | S n => let W := schedule M n in W ++ [next_word W]
  end.

Lemma schedule_length M n : length (schedule M n) = (length M + n)%nat.
Proof. induction n as [|n IH]; cbn [schedule]; [lia|]. rewrite length_app, IH. cbn. lia. Qed.

Lemma schedule_take M m n : (m <= n)%nat -> take (length M + m) (schedule M n) = schedule M m.
Proof.
  intros H. induction H as [|n H IH].
  - apply take_ge. rewrite schedule_length. lia.
  - cbn [schedule]. rewrite take_app_le by (rewrite schedule_length; lia). exact IH.
Qed.

Lemma schedule_words W M n :
  (forall l, words W l -> is_word W (next_word l)) -> words W M -> words W (schedule M n).
Proof.
  intros Hn H. induction n as [|n IH]; cbn [schedule]; [exact H|].
  apply Forall_app. split; [exact IH|]. constructor; [apply Hn, IH|constructor].
Qed.

(** Each word comes from those before it. *)
Lemma schedule_nth M n t :
  (length M <= t < length M + n)%nat ->
  (schedule M n).[t] = next_word (take t (schedule M n)).
Proof.
  intros Ht. rewrite <- (nth_take_lt _ t (S t)) by lia.
  replace (S t) with (length M + S (t - length M))%nat by lia.
  rewrite schedule_take by lia. cbn [schedule].
  rewrite app_nth2; rewrite schedule_length; [|lia].
  replace (t - (length M + (t - length M)))%nat with 0%nat by lia. cbn [nth].
  f_equal. rewrite <- (schedule_take M (t - length M) n) by lia. f_equal. lia.
Qed.

End schedule.

(** ** Registers named in a rotated order *)

(** In round [t] of a function with [n] registers, the macro's [j]th argument is
    register [rot n t j]. *)
Definition rot (n t j : nat) : nat := ((n - t mod n + j) mod n)%nat.

Definition view (n t : nat) (A : list Z) : list Z := map (fun j => A.[rot n t j]) (seq 0 n).

Lemma mod_S n t : (0 < n)%nat -> (S t mod n)%nat = (S (t mod n) mod n)%nat.
Proof.
  intros Hn. rewrite <- (Nat.add_1_r t), <- (Nat.add_1_r (t mod n)).
  rewrite Nat.Div0.add_mod_idemp_l. reflexivity.
Qed.

(** A view depends on the round modulo [n] only. *)
Lemma rot_mod n t j : (0 < n)%nat -> rot n (t mod n) j = rot n t j.
Proof. intros Hn. unfold rot. rewrite Nat.Div0.mod_mod. reflexivity. Qed.

Lemma rot_mod_S n t j : (0 < n)%nat -> rot n (S t) j = rot n (S (t mod n)) j.
Proof. intros Hn. unfold rot. rewrite (mod_S n t Hn). reflexivity. Qed.

Lemma view_mod n t A : (0 < n)%nat -> view n (t mod n) A = view n t A.
Proof. intros Hn. apply map_ext. intros j. rewrite rot_mod by exact Hn. reflexivity. Qed.

Lemma view_mod_S n t A : (0 < n)%nat -> view n (S t) A = view n (S (t mod n)) A.
Proof. intros Hn. apply map_ext. intros j. rewrite rot_mod_S by exact Hn. reflexivity. Qed.

Lemma view_0 n A : length A = n -> view n 0 A = A.
Proof.
  intros Hl. unfold view. apply list_eq. intros i. rewrite list_lookup_fmap.
  destruct (decide (i < n)%nat) as [Hi|Hi].
  - rewrite lookup_seq_lt by exact Hi. cbn [fmap option_fmap option_map Nat.add].
    unfold rot. rewrite Nat.Div0.mod_0_l, Nat.sub_0_r.
    replace (n + i)%nat with (i + 1 * n)%nat by lia. rewrite Nat.Div0.mod_add, Nat.mod_small by exact Hi.
    rewrite nth_lookup. destruct (lookup_lt_is_Some_2 A i ltac:(lia)) as [x ->]. reflexivity.
  - rewrite (lookup_seq_ge 0 n i) by lia. rewrite lookup_ge_None_2 by lia. reflexivity.
Qed.

End rounds.
