(* ===== verification/Sha256.v ===== *)
(** SHA-256 as mbedTLS computes it (lib/mbedtls/library/sha256.c), and its
    equality with FIPS 180-4: the compression function unrolled over a rotating
    register file is the standard's round function over the standard's message
    schedule, and a context fed in pieces of any size ends with the digest of
    the whole message. *)

From S2P Require Import Prelude MbedCommon HashStream.
Import mbed stream rounds.

Module sha256.

Record mbedtls_sha256_context := {
  core : hash_context;      (* total[2], state[8], buffer[64] *)
  is224 : Z }.

#[export] Instance eta_sha256_context : Eta mbedtls_sha256_context :=
  fun r => Build_mbedtls_sha256_context (core r) (is224 r).

Definition MBEDTLS_ERR_SHA256_BAD_INPUT_DATA : Z := -0x74.

Definition mbedtls_sha256_init : mbedtls_sha256_context :=
  {| core := {| total0 := 0; total1 := 0; state := zeros 8; buffer := zeros 64 |}; is224 := 0 |}.

(** Freeing zeroes the context. *)
Definition mbedtls_sha256_free (ctx : mbedtls_sha256_context) : mbedtls_sha256_context :=
  mbedtls_sha256_init.

Definition mbedtls_sha256_clone (dst src : mbedtls_sha256_context) : mbedtls_sha256_context := src.

Definition iv_256 : list Z :=
  [0x6A09E667; 0xBB67AE85; 0x3C6EF372; 0xA54FF53A; 0x510E527F; 0x9B05688C; 0x1F83D9AB; 0x5BE0CD19].

Definition iv_224 : list Z :=
  [0xC1059ED8; 0x367CD507; 0x3070DD17; 0xF70E5939; 0xFFC00B31; 0x68581511; 0x64F98FA7; 0xBEFA4FA4].

(** The validation macros are empty in this configuration; [is224] is 0 or 1. *)
Definition mbedtls_sha256_starts_ret (ctx : mbedtls_sha256_context) (is224_ : Z)
  : Z * mbedtls_sha256_context :=
  (0, {| core := {| total0 := 0; total1 := 0;
                    state := if is224_ =? 0 then iv_256 else iv_224;
                    buffer := buffer (core ctx) |};
         is224 := is224_ |}).

Definition K : list Z :=
  [0x428A2F98; 0x71374491; 0xB5C0FBCF; 0xE9B5DBA5; 0x3956C25B; 0x59F111F1; 0x923F82A4; 0xAB1C5ED5;
   0xD807AA98; 0x12835B01; 0x243185BE; 0x550C7DC3; 0x72BE5D74; 0x80DEB1FE; 0x9BDC06A7; 0xC19BF174;
   0xE49B69C1; 0xEFBE4786; 0x0FC19DC6; 0x240CA1CC; 0x2DE92C6F; 0x4A7484AA; 0x5CB0A9DC; 0x76F988DA;
   0x983E5152; 0xA831C66D; 0xB00327C8; 0xBF597FC7; 0xC6E00BF3; 0xD5A79147; 0x06CA6351; 0x14292967;
   0x27B70A85; 0x2E1B2138; 0x4D2C6DFC; 0x53380D13; 0x650A7354; 0x766A0ABB; 0x81C2C92E; 0x92722C85;
   0xA2BFE8A1; 0xA81A664B; 0xC24B8B70; 0xC76C51A3; 0xD192E819; 0xD6990624; 0xF40E3585; 0x106AA070;
   0x19A4C116; 0x1E376C08; 0x2748774C; 0x34B0BCB5; 0x391C0CB3; 0x4ED8AA4A; 0x5B9CCA4F; 0x682E6FF3;
   0x748F82EE; 0x78A5636F; 0x84C87814; 0x8CC70208; 0x90BEFFFA; 0xA4506CEB; 0xBEF9A3F7; 0xC67178F2].

Definition SHR (x n : Z) : Z := Z.shiftr (Z.land x 0xFFFFFFFF) n.
Definition ROTR (x n : Z) : Z := Z.lor (SHR x n) (u32 (Z.shiftl x (32 - n))).

Definition S0 (x : Z) : Z := Z.lxor (Z.lxor (ROTR x 7) (ROTR x 18)) (SHR x 3).
Definition S1 (x : Z) : Z := Z.lxor (Z.lxor (ROTR x 17) (ROTR x 19)) (SHR x 10).
Definition S2 (x : Z) : Z := Z.lxor (Z.lxor (ROTR x 2) (ROTR x 13)) (ROTR x 22).
Definition S3 (x : Z) : Z := Z.lxor (Z.lxor (ROTR x 6) (ROTR x 11)) (ROTR x 25).

Definition F0 (x y z : Z) : Z := Z.lor (Z.land x y) (Z.land z (Z.lor x y)).
Definition F1 (x y z : Z) : Z := Z.lxor z (Z.land x (Z.lxor y z)).

(** [local.W[t] = ...], the value of the assignment and the array. *)
Definition R (t : nat) (W : list Z) : Z * list Z :=
  let v := u32 (S1 W.[t - 2] + W.[t - 7] + S0 W.[t - 15] + W.[t - 16]) in
  (v, <[t := v]> W).

(** One round; the arguments [a] to [h] are the indices into [local.A] the
    macro is expanded with. *)
Definition P (a b c d e f g h : nat) (x k : Z) (A : list Z) : list Z :=
  let temp1 := u32 (A.[h] + S3 A.[e] + F1 A.[e] A.[f] A.[g] + k + x) in
  let temp2 := u32 (S2 A.[a] + F0 A.[a] A.[b] A.[c]) in
  let A := <[d := u32 (A.[d] + temp1)]> A in
  <[h := u32 (temp1 + temp2)]> A.

(** A round whose message word is read or computed by [load]. *)
Definition round (load : nat -> list Z -> Z * list Z) (a b c d e f g h t : nat)
  (AW : list Z * list Z) : list Z * list Z :=
  let '(A, W) := AW in
  let '(x, W) := load t W in
  (P a b c d e f g h x K.[t] A, W).

Definition load_word (t : nat) (W : list Z) : Z * list Z := (W.[t], W).

(** The body of the two loops: eight rounds, the registers rotated by one from
    each to the next. *)
Definition eight_rounds (load : nat -> list Z -> Z * list Z) (AW : list Z * list Z) (i : nat)
  : list Z * list Z :=
  let AW := round load 0 1 2 3 4 5 6 7 (i + 0) AW in
  let AW := round load 7 0 1 2 3 4 5 6 (i + 1) AW in
  let AW := round load 6 7 0 1 2 3 4 5 (i + 2) AW in
  let AW := round load 5 6 7 0 1 2 3 4 (i + 3) AW in
  let AW := round load 4 5 6 7 0 1 2 3 (i + 4) AW in
  let AW := round load 3 4 5 6 7 0 1 2 (i + 5) AW in
  let AW := round load 2 3 4 5 6 7 0 1 (i + 6) AW in
  round load 1 2 3 4 5 6 7 0 (i + 7) AW.

Definition load_block (data : list Z) (W : list Z) : list Z :=
  fold_left (fun W i => <[i := MBEDTLS_GET_UINT32_BE data (4 * i)]> W) (seq 0 16) W.

(** [mbedtls_internal_sha256_process], on the eight state words. *)
Definition sha256_process (state data : list Z) : list Z :=
  let W := load_block data (zeros 64) in
  let AW := fold_left (eight_rounds load_word) [0; 8]%nat (state, W) in
  let AW := fold_left (eight_rounds R) [16; 24; 32; 40; 48; 56]%nat AW in
  zip_with (fun s a => u32 (s + a)) state (fst AW).

Definition mbedtls_internal_sha256_process (ctx : mbedtls_sha256_context) (data : list Z)
  : Z * mbedtls_sha256_context :=
  (0, ctx <| core := (core ctx) <| state := sha256_process (state (core ctx)) data |> |>).

Definition mbedtls_sha256_update_ret (ctx : mbedtls_sha256_context) (input : list Z)
  : Z * mbedtls_sha256_context :=
  (0, ctx <| core := hash_update 64 32 sha256_process (core ctx) input |>).

(** The 64-bit count of bits, high word first. *)
Definition bit_count (total0 total1 : Z) : list Z :=
  let high := Z.lor (Z.shiftr total0 29) (u32 (Z.shiftl total1 3)) in
  let low := u32 (Z.shiftl total0 3) in
  MBEDTLS_PUT_UINT32_BE high ++ MBEDTLS_PUT_UINT32_BE low.

(** The third component is what is written to [output]. *)
Definition mbedtls_sha256_finish_ret (ctx : mbedtls_sha256_context)
  : Z * mbedtls_sha256_context * list Z :=
  let ctx := ctx <| core := hash_finish 64 sha256_process 8 bit_count (core ctx) |> in
  let n := if is224 ctx =? 0 then 8%nat else 7%nat in
  (0, ctx, concat (map MBEDTLS_PUT_UINT32_BE (take n (state (core ctx))))).

(** The older names, which drop the code (the last one follows below). *)
Definition mbedtls_sha256_starts (ctx : mbedtls_sha256_context) (is224_ : Z) : mbedtls_sha256_context :=
  snd (mbedtls_sha256_starts_ret ctx is224_).
Definition mbedtls_sha256_process (ctx : mbedtls_sha256_context) (data : list Z) : mbedtls_sha256_context :=
  snd (mbedtls_internal_sha256_process ctx data).
Definition mbedtls_sha256_update (ctx : mbedtls_sha256_context) (input : list Z) : mbedtls_sha256_context :=
  snd (mbedtls_sha256_update_ret ctx input).
Definition mbedtls_sha256_finish (ctx : mbedtls_sha256_context) : mbedtls_sha256_context * list Z :=
  let '(_, ctx, output) := mbedtls_sha256_finish_ret ctx in (ctx, output).

Definition mbedtls_sha256_ret (input : list Z) (is224 : Z) : Z * list Z :=
  let ctx := mbedtls_sha256_init in
  let '(_, ctx) := mbedtls_sha256_starts_ret ctx is224 in
  let '(_, ctx) := mbedtls_sha256_update_ret ctx input in
  let '(ret, _, output) := mbedtls_sha256_finish_ret ctx in
  (ret, output).

Definition mbedtls_sha256 (input : list Z) (is224 : Z) : list Z := snd (mbedtls_sha256_ret input is224).

(** The test vectors of the file's self test. *)
Example sha256_abc :
  mbedtls_sha256_ret (cstr "abc") 0 =
  (0, [0xBA; 0x78; 0x16; 0xBF; 0x8F; 0x01; 0xCF; 0xEA; 0x41; 0x41; 0x40; 0xDE; 0x5D; 0xAE; 0x22; 0x23;
       0xB0; 0x03; 0x61; 0xA3; 0x96; 0x17; 0x7A; 0x9C; 0xB4; 0x10; 0xFF; 0x61; 0xF2; 0x00; 0x15; 0xAD]).
Proof. vm_compute. reflexivity. Qed.

Example sha224_abc :
  mbedtls_sha256_ret (cstr "abc") 1 =
  (0, [0x23; 0x09; 0x7D; 0x22; 0x34; 0x05; 0xD8; 0x22; 0x86; 0x42; 0xA4; 0x77; 0xBD; 0xA2; 0x55; 0xB3;
       0x2A; 0xAD; 0xBC; 0xE4; 0xBD; 0xA0; 0xB3; 0xF7; 0xE3; 0x6C; 0x9D; 0xA7]).
Proof. vm_compute. reflexivity. Qed.

(** ** FIPS 180-4 *)

(** Rotation of a 32-bit word by [n], as arithmetic. *)
Definition fips_ROTR (n x : Z) : Z := rotr 32 n x.
Definition fips_SHR (n x : Z) : Z := x / 2 ^ n.

Definition Sigma0 (x : Z) : Z := Z.lxor (Z.lxor (fips_ROTR 2 x) (fips_ROTR 13 x)) (fips_ROTR 22 x).
Definition Sigma1 (x : Z) : Z := Z.lxor (Z.lxor (fips_ROTR 6 x) (fips_ROTR 11 x)) (fips_ROTR 25 x).
Definition sigma0 (x : Z) : Z := Z.lxor (Z.lxor (fips_ROTR 7 x) (fips_ROTR 18 x)) (fips_SHR 3 x).
Definition sigma1 (x : Z) : Z := Z.lxor (Z.lxor (fips_ROTR 17 x) (fips_ROTR 19 x)) (fips_SHR 10 x).

(** The next word of the message schedule, from the words so far. *)
Definition next_word (W : list Z) : Z :=
  let t := length W in
  u32 (sigma1 W.[t - 2] + W.[t - 7] + sigma0 W.[t - 15] + W.[t - 16]).

Definition schedule : list Z -> nat -> list Z := rounds.schedule next_word.

(** The working variables [a] to [h]. *)
Definition registers : Type := Z * Z * Z * Z * Z * Z * Z * Z.

Definition fips_round (r : registers) (k w : Z) : registers :=
  let '(a, b, c, d, e, f, g, h) := r in
  let T1 := h + Sigma1 e + Ch e f g + k + w in
  let T2 := Sigma0 a + Maj a b c in
  (u32 (T1 + T2), a, b, c, u32 (d + T1), e, f, g).

Definition load_registers (H : list Z) : registers :=
  (H.[0], H.[1], H.[2], H.[3], H.[4], H.[5], H.[6], H.[7]).

Definition registers_list (r : registers) : list Z :=
  let '(a, b, c, d, e, f, g, h) := r in [a; b; c; d; e; f; g; h].

Definition fips_rounds (W : list Z) (n : nat) (r : registers) : registers :=
  fold_left (fun r t => fips_round r K.[t] W.[t]) (seq 0 n) r.

Definition fips_compress (H block : list Z) : list Z :=
  let W := schedule (block_words block) 48 in
  zip_with (fun h r => u32 (h + r)) H (registers_list (fips_rounds W 64 (load_registers H))).

(** The message padded with a one bit, zeros and its length in bits, cut into
    blocks; the digest is the first [n] words of the last hash value. *)
Definition fips_digest (iv : list Z) (n : nat) (msg : list Z) : list Z :=
  let H := iterated_hash 64 fips_compress iv 8 (be_bytes 8 (8 * Z.of_nat (length msg))) msg in
  concat (map (be_bytes 4) (take n H)).

Definition fips_sha256 (msg : list Z) : list Z := fips_digest iv_256 8 msg.
Definition fips_sha224 (msg : list Z) : list Z := fips_digest iv_224 7 msg.

(** ** The macros *)

Lemma SHR_fips x n : is_u32 x -> 0 <= n -> SHR x n = fips_SHR n x.
Proof.
  intros Hx Hn. unfold SHR, fips_SHR. change 0xFFFFFFFF with (Z.ones 32).
  rewrite Z.land_ones, Z.mod_small, Z.shiftr_div_pow2 by (assumption || lia). reflexivity.
Qed.

Lemma ROTR_fips x n : is_u32 x -> 0 < n < 32 -> ROTR x n = fips_ROTR n x.
Proof.
  intros Hx Hn. unfold ROTR. rewrite SHR_fips by (assumption || lia). unfold fips_SHR.
  rewrite <- Z.shiftr_div_pow2 by lia. apply (shifts_rotr 32 n x); assumption.
Qed.

Lemma S0_sigma0 x : is_u32 x -> S0 x = sigma0 x.
Proof. intros H. unfold S0, sigma0. rewrite !ROTR_fips, SHR_fips by (assumption || lia). reflexivity. Qed.
Lemma S1_sigma1 x : is_u32 x -> S1 x = sigma1 x.
Proof. intros H. unfold S1, sigma1. rewrite !ROTR_fips, SHR_fips by (assumption || lia). reflexivity. Qed.
Lemma S2_Sigma0 x : is_u32 x -> S2 x = Sigma0 x.
Proof. intros H. unfold S2, Sigma0. rewrite !ROTR_fips by (assumption || lia). reflexivity. Qed.
Lemma S3_Sigma1 x : is_u32 x -> S3 x = Sigma1 x.
Proof. intros H. unfold S3, Sigma1. rewrite !ROTR_fips by (assumption || lia). reflexivity. Qed.

Lemma F0_Maj x y z : F0 x y z = Maj x y z.
Proof. exact (short_Maj x y z). Qed.

Lemma F1_Ch x y z : F1 x y z = Ch x y z.
Proof. exact (short_Ch x y z). Qed.

(** The registers as the round with [r] rotations sees them. *)
Definition view (r : nat) (A : list Z) : registers :=
  (A.[rot 8 r 0], A.[rot 8 r 1], A.[rot 8 r 2], A.[rot 8 r 3], A.[rot 8 r 4], A.[rot 8 r 5], A.[rot 8 r 6], A.[rot 8 r 7]).

Lemma P_words a b c d e f g h x k A : words32 A -> words32 (P a b c d e f g h x k A).
Proof. intros H. unfold P. repeat apply Forall_insert; [exact H|apply u32_range..]. Qed.

Lemma P_length a b c d e f g h x k A : length (P a b c d e f g h x k A) = length A.
Proof. unfold P. rewrite !length_insert. reflexivity. Qed.

(** One expansion of the macro is one round of the standard, seen from the next
    rotation. *)
Lemma P_round r x k A :
  (r < 8)%nat -> length A = 8%nat -> words32 A ->
  view (S r) (P (rot 8 r 0) (rot 8 r 1) (rot 8 r 2) (rot 8 r 3) (rot 8 r 4) (rot 8 r 5) (rot 8 r 6) (rot 8 r 7) x k A)
  = fips_round (view r A) k x.
Proof.
  intros Hr Hl HA. unfold P. rewrite F0_Maj, F1_Ch, S2_Sigma0, S3_Sigma1 by auto with words.
  unfold view, fips_round.
  do 8 (destruct A as [|? A]; [discriminate Hl|]). destruct A; [|discriminate Hl].
  do 8 (destruct r as [|r]; [cbn -[u32 Z.add Ch Maj Sigma0 Sigma1];
    repeat match goal with |- (_, _) = (_, _) => f_equal end; try reflexivity; words|]).
  lia.
Qed.

(** ** The message schedule *)

Lemma sha256_schedule_words M n : words32 M -> words32 (schedule M n).
Proof. intros H. apply (rounds.schedule_words next_word 32); [intros; apply u32_range|exact H]. Qed.

(** What [R] stores is the next word of the schedule. *)
Lemma R_next_word t W :
  (16 <= t < length W)%nat -> words32 (take t W) ->
  R t W = (next_word (take t W), <[t := next_word (take t W)]> W).
Proof.
  intros Ht HW. unfold R, next_word. rewrite length_take, Nat.min_l by lia.
  assert (Hn : forall i, (i < t)%nat -> W.[i] = (take t W).[i])
    by (intros i Hi; rewrite nth_take_lt by exact Hi; reflexivity).
  rewrite !Hn, S1_sigma1, S0_sigma0 by (lia || auto with words). reflexivity.
Qed.

Lemma load_block_words data :
  length data = 64%nat ->
  length (load_block data (zeros 64)) = 64%nat /\
  take 16 (load_block data (zeros 64)) = block_words data.
Proof.
  intros H. unfold load_block, block_words.
  destruct (fill_seq (fun i => MBEDTLS_GET_UINT32_BE data (4 * i)) 16 (zeros 64)) as [Hl Ht];
    [rewrite zeros_length; lia|]. rewrite Hl, Ht. split; [apply zeros_length|].
  apply map_ext_in. intros i Hi%in_seq. apply GET_BE_block. lia.
Qed.

(** ** The loops *)

Section process.
Context (H0 M : list Z) (HM : words32 M) (HMl : length M = 16%nat).
Context (HH : words32 H0) (HHl : length H0 = 8%nat).

Let W := schedule M 48.

(** After [t] rounds. *)
Record loop_inv (t : nat) (AW : list Z * list Z) : Prop := {
  loop_A_length : length (fst AW) = 8%nat;
  loop_A_words : words32 (fst AW);
  loop_W_length : length (snd AW) = 64%nat;
  loop_W : take (16 `max` t) (snd AW) = take (16 `max` t) W;
  loop_view : view (t mod 8) (fst AW) = fips_rounds W t (load_registers H0) }.

Lemma W_length : length W = 64%nat.
Proof. unfold W, schedule. rewrite schedule_length, HMl. reflexivity. Qed.

Lemma W_take t : (16 <= t <= 64)%nat -> take t W = schedule M (t - 16).
Proof.
  intros Ht. unfold W, schedule. rewrite <- (schedule_take next_word M (t - 16) 48) by lia. rewrite HMl.
  f_equal. lia.
Qed.

Lemma view_next t A : view (S (t mod 8)) A = view (S t mod 8) A.
Proof.
  assert (Hr : (t mod 8 < 8)%nat) by (apply Nat.mod_upper_bound; lia).
  rewrite <- (Nat.add_1_r t), (Nat.Div0.add_mod t 1 8). revert Hr. generalize (t mod 8)%nat as r.
  intros r Hr. do 8 (destruct r as [|r]; [reflexivity|]). lia.
Qed.

(** One round whose word is right. *)
Lemma round_inv load t A V x V' :
  load t V = (x, V') -> x = W.[t] ->
  length V' = 64%nat -> take (16 `max` S t) V' = take (16 `max` S t) W ->
  loop_inv t (A, V) ->
  let r := (t mod 8)%nat in
  loop_inv (S t)
    (round load (rot 8 r 0) (rot 8 r 1) (rot 8 r 2) (rot 8 r 3) (rot 8 r 4) (rot 8 r 5) (rot 8 r 6) (rot 8 r 7) t (A, V)).
Proof.
  intros Hload Hx HV' HtV' [HA HAw HV HtV Hview] r. cbn [fst snd] in *.
  unfold round. rewrite Hload. split; cbn [fst snd]; auto using P_words.
  - rewrite P_length. exact HA.
  - unfold fips_rounds. rewrite seq_S, fold_left_app. cbn [fold_left Nat.add].
    fold (fips_rounds W t (load_registers H0)). rewrite <- Hview, <- view_next, Hx.
    apply P_round; [apply Nat.mod_upper_bound; lia|exact HA|exact HAw].
Qed.

Lemma load_word_inv t A V :
  (t < 16)%nat -> loop_inv t (A, V) ->
  let r := (t mod 8)%nat in
  loop_inv (S t) (round load_word (rot 8 r 0) (rot 8 r 1) (rot 8 r 2) (rot 8 r 3) (rot 8 r 4) (rot 8 r 5) (rot 8 r 6)
                    (rot 8 r 7) t (A, V)).
Proof.
  intros Ht Hinv. pose proof (loop_W _ _ Hinv) as HW. pose proof (loop_W_length _ _ Hinv) as Hl.
  rewrite !Nat.max_l in HW by lia. cbn [fst snd] in *.
  apply (round_inv load_word t A V V.[t] V); [reflexivity| |exact Hl| |exact Hinv].
  - rewrite <- (nth_take_lt V t 16), HW, nth_take_lt by lia. reflexivity.
  - rewrite !Nat.max_l by lia. exact HW.
Qed.

Lemma R_inv t A V :
  (16 <= t < 64)%nat -> loop_inv t (A, V) ->
  let r := (t mod 8)%nat in
  loop_inv (S t) (round R (rot 8 r 0) (rot 8 r 1) (rot 8 r 2) (rot 8 r 3) (rot 8 r 4) (rot 8 r 5) (rot 8 r 6)
                    (rot 8 r 7) t (A, V)).
Proof.
  intros Ht Hinv. pose proof (loop_W _ _ Hinv) as HW. pose proof (loop_W_length _ _ Hinv) as Hl.
  rewrite !Nat.max_r in HW by lia. cbn [fst snd] in *. rewrite W_take in HW by lia.
  assert (Hw : take (S t) W = take t V ++ [next_word (take t V)]).
  { rewrite W_take, HW by lia. replace (S t - 16)%nat with (S (t - 16)) by lia. reflexivity. }
  apply (round_inv R t A V (next_word (take t V)) (<[t := next_word (take t V)]> V)).
  - apply R_next_word; [lia|]. rewrite HW. apply sha256_schedule_words, HM.
  - rewrite <- (nth_take_lt W t (S t)), Hw by lia.
    rewrite app_nth2; rewrite length_take, Nat.min_l by lia; [|lia]. rewrite Nat.sub_diag. reflexivity.
  - rewrite length_insert. exact Hl.
  - rewrite !Nat.max_r, take_S_insert by lia. symmetry. exact Hw.
  - exact Hinv.
Qed.

(** The body of a loop runs eight rounds. *)
Lemma eight_inv load lo hi m AW :
  (forall t A V, (lo <= t < hi)%nat -> loop_inv t (A, V) ->
     let r := (t mod 8)%nat in
     loop_inv (S t) (round load (rot 8 r 0) (rot 8 r 1) (rot 8 r 2) (rot 8 r 3) (rot 8 r 4) (rot 8 r 5) (rot 8 r 6)
                       (rot 8 r 7) t (A, V))) ->
  (lo <= 8 * m /\ 8 * m + 8 <= hi)%nat ->
  loop_inv (8 * m) AW -> loop_inv (8 * m + 8) (eight_rounds load AW (8 * m)).
Proof.
  intros Hstep Hm Hinv.
  assert (Hn : forall j AW, (j < 8)%nat -> loop_inv (8 * m + j) AW ->
    loop_inv (8 * m + S j) (round load (rot 8 j 0) (rot 8 j 1) (rot 8 j 2) (rot 8 j 3) (rot 8 j 4) (rot 8 j 5)
                              (rot 8 j 6) (rot 8 j 7) (8 * m + j) AW)).
  { intros j [A V] Hj Hi. specialize (Hstep (8 * m + j)%nat A V ltac:(lia) Hi). cbn zeta in Hstep.
    replace ((8 * m + j) mod 8)%nat with j in Hstep.
    - replace (8 * m + S j)%nat with (S (8 * m + j)) by lia. exact Hstep.
    - rewrite (Nat.add_comm (8 * m)), (Nat.mul_comm 8), Nat.Div0.mod_add, Nat.mod_small by lia.
      reflexivity. }
  unfold eight_rounds. rewrite <- (Nat.add_0_r (8 * m)) in Hinv.
  apply (Hn 7%nat), (Hn 6%nat), (Hn 5%nat), (Hn 4%nat), (Hn 3%nat), (Hn 2%nat), (Hn 1%nat), (Hn 0%nat);
    lia || exact Hinv.
Qed.

Lemma view_8_0 A : length A = 8%nat -> registers_list (view 0 A) = A.
Proof.
  intros HA. do 8 (destruct A as [|? A]; [discriminate HA|]). destruct A; [|discriminate HA].
  reflexivity.
Qed.

(** Both loops together run the sixty-four rounds of the standard. *)
Lemma loops_spec V :
  length V = 64%nat -> take 16 V = M ->
  fst (fold_left (eight_rounds R) [16; 24; 32; 40; 48; 56]%nat
         (fold_left (eight_rounds load_word) [0; 8]%nat (H0, V))) =
  registers_list (fips_rounds W 64 (load_registers H0)).
Proof.
  intros HV HVM. cbn [fold_left].
  assert (H : loop_inv (8 * 0) (H0, V)).
  { split; cbn [fst snd]; try assumption; [|reflexivity].
    rewrite Nat.max_l by lia. rewrite HVM, W_take by lia. reflexivity. }
  apply (eight_inv load_word 0 16) in H; [|intros; apply load_word_inv; [lia|assumption]|lia].
  apply (eight_inv load_word 0 16 1) in H; [|intros; apply load_word_inv; [lia|assumption]|lia].
  apply (eight_inv R 16 64 2) in H; [|intros; apply R_inv; [lia|assumption]|lia].
  apply (eight_inv R 16 64 3) in H; [|intros; apply R_inv; [lia|assumption]|lia].
  apply (eight_inv R 16 64 4) in H; [|intros; apply R_inv; [lia|assumption]|lia].
  apply (eight_inv R 16 64 5) in H; [|intros; apply R_inv; [lia|assumption]|lia].
  apply (eight_inv R 16 64 6) in H; [|intros; apply R_inv; [lia|assumption]|lia].
  apply (eight_inv R 16 64 7) in H; [|intros; apply R_inv; [lia|assumption]|lia].
  pose proof (loop_view 64%nat _ H) as Hv. change (64 mod 8)%nat with 0%nat in Hv.
  rewrite <- Hv. symmetry. apply view_8_0, (loop_A_length _ _ H).
Qed.

End process.

(** The compression function is the standard's. *)
Lemma sha256_process_fips st block :
  length st = 8%nat -> words32 st -> length block = 64%nat -> byte_list block ->
  sha256_process st block = fips_compress st block.
Proof.
  intros Hl Hw Hbl Hb. unfold sha256_process, fips_compress.
  destruct (load_block_words block Hbl) as [HV HM].
  rewrite (loops_spec st (block_words block)); try assumption; try reflexivity.
  apply block_words_words; assumption.
Qed.

(** ** Contexts *)

Lemma fips_compress_value st block :
  hash_value 8 st -> hash_value 8 (fips_compress st block).
Proof.
  intros H. apply hash_value_add; [exact H|].
  destruct (fips_rounds _ _ _) as [[[[[[[? ?] ?] ?] ?] ?] ?] ?]. reflexivity.
Qed.

Lemma process_compress st block :
  hash_value 8 st -> length block = 64%nat -> byte_list block ->
  sha256_process st block = fips_compress st block /\ hash_value 8 (fips_compress st block).
Proof.
  intros [Hl Hw] Hbl Hb. split; [apply sha256_process_fips; assumption|].
  apply fips_compress_value. split; assumption.
Qed.

Lemma iv_value n : hash_value 8 (if n =? 0 then iv_256 else iv_224).
Proof.
  destruct (n =? 0); (split; [reflexivity|]); repeat (constructor; [unfold is_u32; lia|]); constructor.
Qed.

(** The length field of a message below 2^61 bytes. *)
Lemma bit_count_spec n :
  0 <= n < 2 ^ 61 -> bit_count (n mod 2 ^ 32) ((n / 2 ^ 32) mod 2 ^ 32) = be_bytes 8 (8 * n).
Proof.
  intros Hn. unfold bit_count, u32.
  destruct (bit_count_words 32 n) as [Hh Hl]; [lia|exact Hn|].
  change (32 - 3) with 29 in Hh. rewrite Hh, Hl, !PUT_BE_be_bytes. apply (words_be_bytes 4).
Qed.

Definition sha256_inv (is224_ : Z) (ctx : mbedtls_sha256_context) (msg : list Z) : Prop :=
  hash_inv 64 32 sha256_process (if is224_ =? 0 then iv_256 else iv_224) (core ctx) msg /\
  is224 ctx = is224_.

Lemma B64 : Z.of_nat 64 = 2 ^ 6.
Proof. reflexivity. Qed.

Lemma six_32 : 0 < 6 <= 32.
Proof. lia. Qed.

Lemma starts_inv ctx n :
  length (buffer (core ctx)) = 64%nat -> sha256_inv n (snd (mbedtls_sha256_starts_ret ctx n)) [].
Proof.
  intros H. split; [|reflexivity]. apply (hash_inv_start 64 32 sha256_process 6 B64 six_32), H.
Qed.

Lemma update_inv n ctx msg input :
  Z.of_nat (length input) < 2 ^ 32 -> sha256_inv n ctx msg ->
  sha256_inv n (snd (mbedtls_sha256_update_ret ctx input)) (msg ++ input).
Proof.
  intros Hl [H Hn]. split; [|exact Hn].
  apply (hash_update_inv 64 32 sha256_process 6 B64 six_32); assumption.
Qed.

Definition digest (is224_ : Z) (msg : list Z) : list Z :=
  if is224_ =? 0 then fips_sha256 msg else fips_sha224 msg.

(** Finishing gives the standard's digest, in a context that can start again. *)
Lemma finish_spec n ctx msg :
  byte_list msg -> Z.of_nat (length msg) < 2 ^ 61 -> sha256_inv n ctx msg ->
  snd (mbedtls_sha256_finish_ret ctx) = digest n msg /\
  length (buffer (core (snd (fst (mbedtls_sha256_finish_ret ctx))))) = 64%nat.
Proof.
  intros Hb Hl [H Hn]. unfold mbedtls_sha256_finish_ret. cbn [snd fst core is224 set_field].
  destruct (hash_finish_spec 64 32 sha256_process 6 B64 six_32 _ _ _ 8 bit_count ltac:(lia) eq_refl H)
    as [Hst Hbuf]. split; [|exact Hbuf].
  rewrite (inv_total0 _ _ _ _ _ _ H), (inv_total1 _ _ _ _ _ _ H), bit_count_spec in Hst by lia.
  destruct (iterated_hash_ext 64 sha256_process fips_compress (hash_value 8) process_compress
              (if n =? 0 then iv_256 else iv_224) 8 (be_bytes 8 (8 * Z.of_nat (length msg))) msg)
    as [Heq _]; [lia|apply iv_value|exact Hb|apply be_bytes_bytes|].
  rewrite Heq in Hst. cbn [is224 core] in *.
  rewrite (map_ext _ _ PUT_BE_be_bytes), Hst, Hn. unfold digest, fips_sha256, fips_sha224, fips_digest, iterated_hash.
  destruct (n =? 0); reflexivity.
Qed.

Lemma updates_inv n ctx msg chunks :
  Forall (fun c => Z.of_nat (length c) < 2 ^ 32) chunks -> sha256_inv n ctx msg ->
  sha256_inv n (fold_left (fun ctx c => snd (mbedtls_sha256_update_ret ctx c)) chunks ctx)
    (msg ++ concat chunks).
Proof.
  intros Hc. revert ctx msg. induction Hc as [|c cs Hcl _ IH]; intros ctx msg H.
  - cbn. rewrite app_nil_r. exact H.
  - cbn [fold_left concat]. rewrite app_assoc. apply IH, update_inv; assumption.
Qed.

Lemma absorbed_value iv L len msg :
  hash_value 8 iv -> byte_list msg -> byte_list len ->
  hash_value 8 (iterated_hash 64 fips_compress iv L len msg).
Proof.
  intros Hiv Hm Hlen.
  apply (iterated_hash_ext 64 fips_compress fips_compress (hash_value 8)); [|lia|assumption..].
  intros st blk Hst _ _. split; [reflexivity|]. apply fips_compress_value, Hst.
Qed.

Lemma digest_bytes n msg : byte_list (digest n msg).
Proof. unfold digest, fips_sha256, fips_sha224, fips_digest. destruct (n =? 0); apply (concat_be_bytes_bytes 4). Qed.

Lemma digest_length n msg :
  byte_list msg -> length (digest n msg) = if n =? 0 then 32%nat else 28%nat.
Proof.
  intros Hm. unfold digest, fips_sha256, fips_sha224, fips_digest.
  pose proof (absorbed_value (if n =? 0 then iv_256 else iv_224) 8
                (be_bytes 8 (8 * Z.of_nat (length msg))) msg (iv_value n) Hm) as Hv.
  destruct (n =? 0); rewrite concat_be_bytes_length, length_take;
    destruct Hv as [Hl _]; auto with words; rewrite Hl; reflexivity.
Qed.

(** C31. A context fed with a message in pieces of any size ends with the FIPS 180-4
    digest of the message (SHA-256, or SHA-224 when [is224] is set), whatever
    was in the context before it was started. *)
Theorem sha256_stream_is_fips ctx n chunks :
  length (buffer (core ctx)) = 64%nat ->
  Forall byte_list chunks -> Forall (fun c => Z.of_nat (length c) < 2 ^ 32) chunks ->
  Z.of_nat (length (concat chunks)) < 2 ^ 61 ->
  let ctx := snd (mbedtls_sha256_starts_ret ctx n) in
  let ctx := fold_left (fun ctx c => snd (mbedtls_sha256_update_ret ctx c)) chunks ctx in
  snd (mbedtls_sha256_finish_ret ctx) = digest n (concat chunks).
Proof.
  intros Hbuf Hb Hc Hl. cbn zeta. apply finish_spec; [|exact Hl|].
  - apply Forall_concat, Hb.
  - apply (updates_inv n _ [] chunks Hc), starts_inv, Hbuf.
Qed.

Lemma sha256_stream_is_fips_witness :
  snd (mbedtls_sha256_finish_ret
         (fold_left (fun ctx c => snd (mbedtls_sha256_update_ret ctx c)) [cstr "a"; cstr "bc"; cstr ""]
            (snd (mbedtls_sha256_starts_ret mbedtls_sha256_init 0)))) = digest 0 (cstr "abc").
Proof.
  apply (sha256_stream_is_fips mbedtls_sha256_init 0 [cstr "a"; cstr "bc"; cstr ""]);
    [reflexivity| |repeat constructor|vm_compute; reflexivity].
  repeat (constructor; try (vm_compute; intuition discriminate)).
Defined.

(** The shape of the output needs no hypothesis on the input. *)
Lemma eight_rounds_length load AW i :
  length (fst (eight_rounds load AW i)) = length (fst AW).
Proof.
  unfold eight_rounds.
  assert (Hr : forall a b c d e f g h t AW, length (fst (round load a b c d e f g h t AW)) = length (fst AW)).
  { intros. destruct AW0 as [A W]. unfold round. destruct (load t W). apply P_length. }
  rewrite !Hr. reflexivity.
Qed.

Lemma sha256_process_length st data : length st = 8%nat -> length (sha256_process st data) = 8%nat.
Proof.
  intros H. unfold sha256_process. rewrite length_zip_with. cbn [fold_left].
  rewrite !eight_rounds_length. cbn [fst]. lia.
Qed.

Lemma finish_shape ctx :
  length (state (core ctx)) = 8%nat -> is224 ctx = 0 ->
  let '(ret, ctx', out) := mbedtls_sha256_finish_ret ctx in
  ret = 0 /\ length out = 32%nat /\ byte_list out /\ length (state (core ctx')) = 8%nat /\ is224 ctx' = 0.
Proof.
  intros Hl Hn. unfold mbedtls_sha256_finish_ret. cbn [core is224 set_field]. rewrite Hn. cbn [Z.eqb].
  pose proof (hash_finish_preserves 64 sha256_process (fun st => length st = 8%nat)
    sha256_process_length 8 bit_count (core ctx) Hl) as Hs. cbn beta in Hs.
  rewrite (map_ext _ _ PUT_BE_be_bytes). repeat split; [|apply (concat_be_bytes_bytes 4)|exact Hs].
  rewrite concat_be_bytes_length, length_take, Hs. reflexivity.
Qed.

(** The one-shot call. *)
Lemma sha256_ret_spec input n :
  byte_list input -> Z.of_nat (length input) < 2 ^ 32 ->
  mbedtls_sha256_ret input n = (0, digest n input).
Proof.
  intros Hb Hl. unfold mbedtls_sha256_ret.
  pose proof (starts_inv mbedtls_sha256_init n eq_refl) as H.
  destruct (mbedtls_sha256_starts_ret _ n) as [r1 ctx]. cbn [snd] in H.
  apply (update_inv n ctx [] input Hl) in H. destruct (mbedtls_sha256_update_ret ctx input) as [r2 ctx'].
  cbn [snd app] in H. apply finish_spec in H as [H _]; [|exact Hb|lia].
  unfold mbedtls_sha256_finish_ret in *. cbn [snd] in H. rewrite H. reflexivity.
Qed.

(** The byte counter takes the length of an update modulo 2^32: an update of
    4 GiB leaves it as it was, so the digest is padded with the wrong length. *)
Lemma sha256_update_4gib_uncounted ctx input :
  Z.of_nat (length input) = 2 ^ 32 -> is_u32 (total0 (core ctx)) ->
  let ctx' := snd (mbedtls_sha256_update_ret ctx input) in
  bit_count (total0 (core ctx')) (total1 (core ctx')) =
  bit_count (total0 (core ctx)) (total1 (core ctx)).
Proof.
  intros Hl Ht. cbn zeta. unfold mbedtls_sha256_update_ret. cbn [snd core set_field].
  destruct (hash_update_uncounted 64 32 sha256_process 6 six_32 (core ctx) input Hl Ht) as [-> ->].
  reflexivity.
Qed.

End sha256.
