(* ===== verification/Md.v ===== *)
(** The message digest layer of mbedTLS (lib/mbedtls/library/md.c) as the
    Makefile configures it: SHA-256 and SHA-224 only, and HMAC on top of them.
    [hmac_stream_is_rfc2104] is the functional specification of HMAC;
    [mbed_hmac_ok] discharges the interface [MdHmacOk] of Hmac, against which the
    firmware is verified, with this code. *)

From S2P Require Import Prelude MbedCommon HashStream Sha256 Hmac.
Import mbed stream sha256 hmac.

Module md.

Inductive mbedtls_md_type_t :=
| MBEDTLS_MD_NONE | MBEDTLS_MD_MD2 | MBEDTLS_MD_MD4 | MBEDTLS_MD_MD5 | MBEDTLS_MD_SHA1
| MBEDTLS_MD_SHA224 | MBEDTLS_MD_SHA256 | MBEDTLS_MD_SHA384 | MBEDTLS_MD_SHA512 | MBEDTLS_MD_RIPEMD160.

#[export] Instance md_type_eq_dec : EqDecision mbedtls_md_type_t.
Proof. solve_decision. Defined.

Record mbedtls_md_info_t := {
  name : string;
  type : mbedtls_md_type_t;
  size : nat;
  block_size : nat }.

Definition mbedtls_sha224_info : mbedtls_md_info_t :=
  {| name := "SHA224"; type := MBEDTLS_MD_SHA224; size := 28; block_size := 64 |}.
Definition mbedtls_sha256_info : mbedtls_md_info_t :=
  {| name := "SHA256"; type := MBEDTLS_MD_SHA256; size := 32; block_size := 64 |}.

(** A pointer that may be NULL is an option; the digest context is the only
    kind this configuration allocates. *)
Record mbedtls_md_context_t := {
  md_info : option mbedtls_md_info_t;
  md_ctx : option mbedtls_sha256_context;
  hmac_ctx : option (list Z) }.

#[export] Instance eta_md_context : Eta mbedtls_md_context_t :=
  fun r => Build_mbedtls_md_context_t (md_info r) (md_ctx r) (hmac_ctx r).

Definition MBEDTLS_ERR_MD_BAD_INPUT_DATA : Z := -0x5100.
Definition MBEDTLS_ERR_MD_ALLOC_FAILED : Z := -0x5180.

Definition supported_digests : list mbedtls_md_type_t :=
  [MBEDTLS_MD_SHA256; MBEDTLS_MD_SHA224; MBEDTLS_MD_NONE].
Definition mbedtls_md_list : list mbedtls_md_type_t := supported_digests.

Definition mbedtls_md_info_from_type (md_type : mbedtls_md_type_t) : option mbedtls_md_info_t :=
  match md_type with
  | MBEDTLS_MD_SHA224 => Some mbedtls_sha224_info
  | MBEDTLS_MD_SHA256 => Some mbedtls_sha256_info
  | _ => None
  end.

Definition mbedtls_md_info_from_string (md_name : option string) : option mbedtls_md_info_t :=
  match md_name with
  | None => None
  | Some md_name =>
      if String.eqb "SHA224" md_name then mbedtls_md_info_from_type MBEDTLS_MD_SHA224
      else if String.eqb "SHA256" md_name then mbedtls_md_info_from_type MBEDTLS_MD_SHA256
      else None
  end.

Definition mbedtls_md_init : mbedtls_md_context_t :=
  {| md_info := None; md_ctx := None; hmac_ctx := None |}.

(** The parts are freed and the context is zeroed, unless it was never set up. *)
Definition mbedtls_md_free (ctx : mbedtls_md_context_t) : mbedtls_md_context_t :=
  match md_info ctx with
  | None => ctx
  | Some _ => mbedtls_md_init
  end.

Definition mbedtls_md_clone (dst src : mbedtls_md_context_t) : Z * mbedtls_md_context_t :=
  match md_info dst, md_info src with
  | Some di, Some si =>
      if decide (type di = type si)
      then
        match type si, md_ctx dst, md_ctx src with
        | (MBEDTLS_MD_SHA224 | MBEDTLS_MD_SHA256), Some d, Some s =>
            (0, dst <| md_ctx := Some (mbedtls_sha256_clone d s) |>)
        | _, _, _ => (MBEDTLS_ERR_MD_BAD_INPUT_DATA, dst)
        end
      else (MBEDTLS_ERR_MD_BAD_INPUT_DATA, dst)
  | _, _ => (MBEDTLS_ERR_MD_BAD_INPUT_DATA, dst)
  end.

(** [alloc_md] and [alloc_hmac] are the outcomes of the two allocations. *)
Definition mbedtls_md_setup (alloc_md alloc_hmac : bool) (ctx : mbedtls_md_context_t)
  (info : option mbedtls_md_info_t) (hmac : bool) : Z * mbedtls_md_context_t :=
  match info with
  | None => (MBEDTLS_ERR_MD_BAD_INPUT_DATA, ctx)
  | Some info =>
      let ctx := {| md_info := Some info; md_ctx := None; hmac_ctx := None |} in
      match type info with
      | MBEDTLS_MD_SHA224 | MBEDTLS_MD_SHA256 =>
          if alloc_md
          then
            let ctx := ctx <| md_ctx := Some mbedtls_sha256_init |> in
            if hmac
            then
              if alloc_hmac then (0, ctx <| hmac_ctx := Some (zeros (2 * block_size info)) |>)
              else (MBEDTLS_ERR_MD_ALLOC_FAILED, mbedtls_md_free ctx)
            else (0, ctx)
          else (MBEDTLS_ERR_MD_ALLOC_FAILED, ctx)
      | _ => (MBEDTLS_ERR_MD_BAD_INPUT_DATA, ctx)
      end
  end.

Definition mbedtls_md_init_ctx (alloc_md alloc_hmac : bool) (ctx : mbedtls_md_context_t)
  (info : option mbedtls_md_info_t) : Z * mbedtls_md_context_t :=
  mbedtls_md_setup alloc_md alloc_hmac ctx info true.

(** The common head of the operations on a context that is set up: its digest
    state, or the error.  A context whose set-up failed has an [md_info] without
    an [md_ctx]; C would dereference NULL there, the definitions answer the same
    error, and the theorems are about contexts that were set up. *)
Definition with_digest {A} (ctx : mbedtls_md_context_t) (bad : A)
  (f : mbedtls_md_type_t -> mbedtls_sha256_context -> A) : A :=
  match md_info ctx, md_ctx ctx with
  | Some info, Some c =>
      match type info with
      | MBEDTLS_MD_SHA224 | MBEDTLS_MD_SHA256 => f (type info) c
      | _ => bad
      end
  | _, _ => bad
  end.

Definition is224_of (t : mbedtls_md_type_t) : Z :=
  match t with MBEDTLS_MD_SHA224 => 1 | _ => 0 end.

Definition mbedtls_md_starts (ctx : mbedtls_md_context_t) : Z * mbedtls_md_context_t :=
  with_digest ctx (MBEDTLS_ERR_MD_BAD_INPUT_DATA, ctx) (fun t c =>
    let '(ret, c) := mbedtls_sha256_starts_ret c (is224_of t) in
    (ret, ctx <| md_ctx := Some c |>)).

Definition mbedtls_md_update (ctx : mbedtls_md_context_t) (input : list Z) : Z * mbedtls_md_context_t :=
  with_digest ctx (MBEDTLS_ERR_MD_BAD_INPUT_DATA, ctx) (fun t c =>
    let '(ret, c) := mbedtls_sha256_update_ret c input in
    (ret, ctx <| md_ctx := Some c |>)).

Definition mbedtls_md_finish (ctx : mbedtls_md_context_t) : Z * mbedtls_md_context_t * list Z :=
  with_digest ctx (MBEDTLS_ERR_MD_BAD_INPUT_DATA, ctx, []) (fun t c =>
    let '(ret, c, output) := mbedtls_sha256_finish_ret c in
    (ret, ctx <| md_ctx := Some c |>, output)).

Definition mbedtls_md_process (ctx : mbedtls_md_context_t) (data : list Z) : Z * mbedtls_md_context_t :=
  with_digest ctx (MBEDTLS_ERR_MD_BAD_INPUT_DATA, ctx) (fun t c =>
    let '(ret, c) := mbedtls_internal_sha256_process c data in
    (ret, ctx <| md_ctx := Some c |>)).

Definition mbedtls_md (info : option mbedtls_md_info_t) (input : list Z) : Z * list Z :=
  match info with
  | None => (MBEDTLS_ERR_MD_BAD_INPUT_DATA, [])
  | Some info =>
      match type info with
      | MBEDTLS_MD_SHA224 => mbedtls_sha256_ret input 1
      | MBEDTLS_MD_SHA256 => mbedtls_sha256_ret input 0
      | _ => (MBEDTLS_ERR_MD_BAD_INPUT_DATA, [])
      end
  end.

(** ** HMAC *)

(** [for (i = 0; i < keylen; i++) { ipad[i] ^= key[i]; opad[i] ^= key[i]; }] *)
Definition xor_key (key : list Z) (pads : list Z * list Z) : list Z * list Z :=
  fold_left (fun '(ipad, opad) i =>
      (<[i := Z.lxor ipad.[i] key.[i]]> ipad, <[i := Z.lxor opad.[i] key.[i]]> opad))
    (seq 0 (length key)) pads.

(** The tail of [mbedtls_md_hmac_starts], once the key fits a block; the pads
    are the two halves of [hmac_ctx]. *)
Definition hmac_pads (ctx : mbedtls_md_context_t) (info : mbedtls_md_info_t) (key : list Z)
  : Z * mbedtls_md_context_t :=
  let '(ipad, opad) :=
    xor_key key (replicate (block_size info) 0x36, replicate (block_size info) 0x5C) in
  let ctx := ctx <| hmac_ctx := Some (ipad ++ opad) |> in
  let '(ret, ctx) := mbedtls_md_starts ctx in
  if negb (ret =? 0) then (ret, ctx) else
  mbedtls_md_update ctx ipad.

Definition mbedtls_md_hmac_starts (ctx : mbedtls_md_context_t) (key : list Z)
  : Z * mbedtls_md_context_t :=
  match md_info ctx, hmac_ctx ctx with
  | Some info, Some _ =>
      if (block_size info <? length key)%nat
      then
        let '(ret, ctx) := mbedtls_md_starts ctx in
        if negb (ret =? 0) then (ret, ctx) else
        let '(ret, ctx) := mbedtls_md_update ctx key in
        if negb (ret =? 0) then (ret, ctx) else
        let '(ret, ctx, sum) := mbedtls_md_finish ctx in
        if negb (ret =? 0) then (ret, ctx) else
        hmac_pads ctx info (take (size info) sum)
      else hmac_pads ctx info key
  | _, _ => (MBEDTLS_ERR_MD_BAD_INPUT_DATA, ctx)
  end.

Definition mbedtls_md_hmac_update (ctx : mbedtls_md_context_t) (input : list Z)
  : Z * mbedtls_md_context_t :=
  match md_info ctx, hmac_ctx ctx with
  | Some _, Some _ => mbedtls_md_update ctx input
  | _, _ => (MBEDTLS_ERR_MD_BAD_INPUT_DATA, ctx)
  end.

Definition mbedtls_md_hmac_finish (ctx : mbedtls_md_context_t) : Z * mbedtls_md_context_t * list Z :=
  match md_info ctx, hmac_ctx ctx with
  | Some info, Some pads =>
      let opad := drop (block_size info) pads in
      let '(ret, ctx, tmp) := mbedtls_md_finish ctx in
      if negb (ret =? 0) then (ret, ctx, []) else
      let '(ret, ctx) := mbedtls_md_starts ctx in
      if negb (ret =? 0) then (ret, ctx, []) else
      let '(ret, ctx) := mbedtls_md_update ctx (take (block_size info) opad) in
      if negb (ret =? 0) then (ret, ctx, []) else
      let '(ret, ctx) := mbedtls_md_update ctx (take (size info) tmp) in
      if negb (ret =? 0) then (ret, ctx, []) else
      mbedtls_md_finish ctx
  | _, _ => (MBEDTLS_ERR_MD_BAD_INPUT_DATA, ctx, [])
  end.

Definition mbedtls_md_hmac_reset (ctx : mbedtls_md_context_t) : Z * mbedtls_md_context_t :=
  match md_info ctx, hmac_ctx ctx with
  | Some info, Some ipad =>
      let '(ret, ctx) := mbedtls_md_starts ctx in
      if negb (ret =? 0) then (ret, ctx) else
      mbedtls_md_update ctx (take (block_size info) ipad)
  | _, _ => (MBEDTLS_ERR_MD_BAD_INPUT_DATA, ctx)
  end.

Definition mbedtls_md_hmac (alloc_md alloc_hmac : bool) (info : option mbedtls_md_info_t)
  (key input : list Z) : Z * list Z :=
  match info with
  | None => (MBEDTLS_ERR_MD_BAD_INPUT_DATA, [])
  | Some info =>
      let '(ret, ctx) := mbedtls_md_setup alloc_md alloc_hmac mbedtls_md_init (Some info) true in
      if negb (ret =? 0) then (ret, []) else
      let '(ret, ctx) := mbedtls_md_hmac_starts ctx key in
      if negb (ret =? 0) then (ret, []) else
      let '(ret, ctx) := mbedtls_md_hmac_update ctx input in
      if negb (ret =? 0) then (ret, []) else
      let '(ret, ctx, output) := mbedtls_md_hmac_finish ctx in
      (ret, output)
  end.

Definition mbedtls_md_get_size (info : option mbedtls_md_info_t) : nat :=
  match info with None => 0%nat | Some info => size info end.
Definition mbedtls_md_get_type (info : option mbedtls_md_info_t) : mbedtls_md_type_t :=
  match info with None => MBEDTLS_MD_NONE | Some info => type info end.
Definition mbedtls_md_get_name (info : option mbedtls_md_info_t) : option string := name <$> info.

(** RFC 4231, test case 2. *)
Example hmac_jefe :
  mbedtls_md_hmac true true (mbedtls_md_info_from_type MBEDTLS_MD_SHA256)
    (cstr "Jefe") (cstr "what do ya want for nothing?") =
  (0, [0x5b; 0xdc; 0xc1; 0x46; 0xbf; 0x60; 0x75; 0x4e; 0x6a; 0x04; 0x24; 0x26; 0x08; 0x95; 0x75; 0xc7;
       0x5a; 0x00; 0x3f; 0x08; 0x9d; 0x27; 0x39; 0x83; 0x9d; 0xec; 0x58; 0xb9; 0x64; 0xec; 0x38; 0x43]).
Proof. vm_compute. reflexivity. Qed.

(** ** RFC 2104 *)

(** The key as a block: hashed when it is longer, then filled with zeros. *)
Definition hmac_block (n : Z) (key : list Z) : list Z :=
  let k := if (64 <? length key)%nat then digest n key else key in
  k ++ zeros (64 - length k).

Definition rfc2104_hmac (n : Z) (key msg : list Z) : list Z :=
  let K := hmac_block n key in
  digest n (map (Z.lxor 0x5C) K ++ digest n (map (Z.lxor 0x36) K ++ msg)).

(** The information block of a digest, by its [is224]. *)
Definition info_of (n : Z) : mbedtls_md_info_t :=
  if n =? 0 then mbedtls_sha256_info else mbedtls_sha224_info.

Definition is_digest (n : Z) : Prop := n = 0 \/ n = 1.

(** A context that is set up for digest [n] and has absorbed [msg]; [pads] is
    its HMAC part. *)
Record md_inv (n : Z) (pads : option (list Z)) (ctx : mbedtls_md_context_t) (msg : list Z) : Prop := {
  md_inv_info : md_info ctx = Some (info_of n);
  md_inv_pads : hmac_ctx ctx = pads;
  md_inv_ctx : exists c, md_ctx ctx = Some c /\ sha256_inv n c msg }.

(** The same without a message: what any operation needs. *)
Definition md_ready (n : Z) (pads : option (list Z)) (ctx : mbedtls_md_context_t) : Prop :=
  md_info ctx = Some (info_of n) /\ hmac_ctx ctx = pads /\
  exists c, md_ctx ctx = Some c /\ length (buffer (core c)) = 64%nat.

Lemma md_inv_ready n pads ctx msg : md_inv n pads ctx msg -> md_ready n pads ctx.
Proof.
  intros [Hi Hp (c & Hc & [Hinv _])]. repeat split; try assumption.
  exists c. split; [exact Hc|]. apply (inv_buffer _ _ _ _ _ _ Hinv).
Qed.

Lemma with_digest_ready {A} n pads ctx (bad : A) f c :
  is_digest n -> md_info ctx = Some (info_of n) -> hmac_ctx ctx = pads -> md_ctx ctx = Some c ->
  with_digest ctx bad f = f (type (info_of n)) c /\ is224_of (type (info_of n)) = n.
Proof.
  intros Hn Hi _ Hc. unfold with_digest. rewrite Hi, Hc.
  destruct Hn as [-> | ->]; split; reflexivity.
Qed.

Lemma md_starts_inv n pads ctx :
  is_digest n -> md_ready n pads ctx ->
  exists ctx', mbedtls_md_starts ctx = (0, ctx') /\ md_inv n pads ctx' [].
Proof.
  intros Hn (Hi & Hp & c & Hc & Hb). unfold mbedtls_md_starts.
  pose proof (fun A bad f => @with_digest_ready A n pads ctx bad f c Hn Hi Hp Hc) as Hw.
  rewrite (proj1 (Hw _ _ _)), (proj2 (Hw unit tt (fun _ _ => tt))).
  pose proof (starts_inv c n Hb) as Hs.
  eexists. split; [reflexivity|]. split; [exact Hi|exact Hp|]. eexists. split; [reflexivity|exact Hs].
Qed.

Lemma md_update_inv n pads ctx msg input :
  is_digest n -> Z.of_nat (length input) < 2 ^ 32 -> md_inv n pads ctx msg ->
  exists ctx', mbedtls_md_update ctx input = (0, ctx') /\ md_inv n pads ctx' (msg ++ input).
Proof.
  intros Hn Hl [Hi Hp (c & Hc & Hinv)]. unfold mbedtls_md_update.
  rewrite (proj1 (with_digest_ready n pads ctx _ _ c Hn Hi Hp Hc)).
  pose proof (update_inv n c msg input Hl Hinv) as Hs.
  eexists. split; [reflexivity|]. split; [exact Hi|exact Hp|]. eexists. split; [reflexivity|exact Hs].
Qed.

Lemma md_finish_spec n pads ctx msg :
  is_digest n -> byte_list msg -> Z.of_nat (length msg) < 2 ^ 61 -> md_inv n pads ctx msg ->
  exists ctx', mbedtls_md_finish ctx = (0, ctx', digest n msg) /\ md_ready n pads ctx'.
Proof.
  intros Hn Hb Hl [Hi Hp (c & Hc & Hinv)]. unfold mbedtls_md_finish.
  rewrite (proj1 (with_digest_ready n pads ctx _ _ c Hn Hi Hp Hc)).
  destruct (finish_spec n c msg Hb Hl Hinv) as [Hd Hbuf].
  unfold mbedtls_sha256_finish_ret in *. cbn [fst snd] in Hd, Hbuf. rewrite Hd.
  eexists. split; [reflexivity|]. split; [exact Hi|]. split; [exact Hp|].
  eexists. split; [reflexivity|exact Hbuf].
Qed.

(** ** The pads *)

Lemma xor_key_steps key ipad opad m :
  (m <= length key)%nat -> (length key <= length ipad)%nat -> length opad = length ipad ->
  fold_left (fun '(ipad, opad) i =>
      (<[i := Z.lxor ipad.[i] key.[i]]> ipad, <[i := Z.lxor opad.[i] key.[i]]> opad))
    (seq 0 m) (ipad, opad) =
  (zip_with Z.lxor (take m ipad) (take m key) ++ drop m ipad,
   zip_with Z.lxor (take m opad) (take m key) ++ drop m opad).
Proof.
  intros Hm Hk Ho. induction m as [|m IH]; [rewrite !drop_0; reflexivity|].
  rewrite seq_S, fold_left_app, IH by lia. cbn [fold_left Nat.add].
  assert (Hstep : forall pad, length pad = length ipad ->
    <[m := Z.lxor (zip_with Z.lxor (take m pad) (take m key) ++ drop m pad).[m] key.[m]]>
      (zip_with Z.lxor (take m pad) (take m key) ++ drop m pad) =
    zip_with Z.lxor (take (S m) pad) (take (S m) key) ++ drop (S m) pad).
  { intros pad Hp. destruct (lookup_lt_is_Some_2 pad m ltac:(lia)) as [x Hx].
    destruct (lookup_lt_is_Some_2 key m ltac:(lia)) as [y Hy].
    rewrite (take_S_r pad m x Hx), (take_S_r key m y Hy), (drop_S pad x m Hx).
    rewrite zip_with_app by (rewrite !length_take; lia). rewrite <- app_assoc.
    assert (Hz : length (zip_with Z.lxor (take m pad) (take m key)) = m)
      by (rewrite length_zip_with, !length_take; lia).
    rewrite nth_lookup, lookup_app_r, Hz, Nat.sub_diag by lia. cbn [lookup list_lookup default].
    rewrite (nth_lookup key), Hy. rewrite <- Hz at 1. rewrite <- (Nat.add_0_r (length _)).
    rewrite insert_app_r. reflexivity. }
  rewrite !Hstep by lia. reflexivity.
Qed.

Lemma zip_lxor_replicate (c : Z) l : zip_with Z.lxor (replicate (length l) c) l = map (Z.lxor c) l.
Proof. induction l as [|x l IH]; [reflexivity|]. cbn. rewrite IH. reflexivity. Qed.

Lemma pad_half c key :
  (length key <= 64)%nat ->
  zip_with Z.lxor (take (length key) (replicate 64 c)) (take (length key) key) ++
    drop (length key) (replicate 64 c) = map (Z.lxor c) (key ++ zeros (64 - length key)).
Proof.
  intros H. rewrite take_replicate, drop_replicate, Nat.min_l, (take_ge key), zip_lxor_replicate by lia.
  rewrite map_app. f_equal. symmetry. unfold zeros. etransitivity; [apply fmap_replicate|].
  rewrite Z.lxor_0_r. reflexivity.
Qed.

Lemma xor_key_spec key :
  (length key <= 64)%nat ->
  xor_key key (replicate 64 0x36, replicate 64 0x5C) =
  (map (Z.lxor 0x36) (key ++ zeros (64 - length key)), map (Z.lxor 0x5C) (key ++ zeros (64 - length key))).
Proof.
  intros H. unfold xor_key. rewrite xor_key_steps by (rewrite ?length_replicate; lia).
  rewrite !pad_half by exact H. reflexivity.
Qed.

Lemma map_lxor_bytes c l : is_u8 c -> byte_list l -> byte_list (map (Z.lxor c) l).
Proof. intros Hc Hl. apply Forall_map. eapply Forall_impl; [exact Hl|]. intros x. apply lxor_u8, Hc. Qed.

Section hmac.
Context (n : Z) (Hn : is_digest n) (key : list Z).
Context (Hkb : byte_list key) (Hkl : Z.of_nat (length key) < 2 ^ 32).

Let ipad := map (Z.lxor 0x36) (hmac_block n key).
Let opad := map (Z.lxor 0x5C) (hmac_block n key).

(** An HMAC context under [key] that has absorbed [msg]. *)
Definition hmac_inv (ctx : mbedtls_md_context_t) (msg : list Z) : Prop :=
  md_inv n (Some (ipad ++ opad)) ctx (ipad ++ msg).

Lemma info_sizes :
  block_size (info_of n) = 64%nat /\ (size (info_of n) <= 32)%nat /\
  forall m, byte_list m -> length (digest n m) = size (info_of n).
Proof.
  destruct Hn as [-> | ->]; (split; [reflexivity|]; split; [cbn; lia|]);
    intros m Hm; rewrite digest_length by exact Hm; reflexivity.
Qed.

Lemma hmac_key_fits : (length (if (64 <? length key)%nat then digest n key else key) <= 64)%nat.
Proof.
  destruct info_sizes as (_ & Hs & Hd).
  destruct (Nat.ltb_spec 64 (length key)); cbv iota; [rewrite (Hd key Hkb); lia|lia].
Qed.

Lemma hmac_block_length : length (hmac_block n key) = 64%nat.
Proof. unfold hmac_block. rewrite length_app, zeros_length. pose proof hmac_key_fits. lia. Qed.

Lemma hmac_block_bytes : byte_list (hmac_block n key).
Proof.
  unfold hmac_block. apply Forall_app. split; [|apply zeros_bytes].
  destruct (64 <? length key)%nat; [apply digest_bytes|exact Hkb].
Qed.

Lemma pads_facts : length ipad = 64%nat /\ length opad = 64%nat /\ byte_list ipad /\ byte_list opad.
Proof.
  unfold ipad, opad. rewrite !length_map, hmac_block_length.
  repeat split; apply map_lxor_bytes; try apply hmac_block_bytes; unfold is_u8; lia.
Qed.

Lemma hmac_pads_inv pads ctx k :
  md_ready n (Some pads) ctx -> k = (if (64 <? length key)%nat then digest n key else key) ->
  exists ctx', hmac_pads ctx (info_of n) k = (0, ctx') /\ hmac_inv ctx' [].
Proof.
  intros (Hi & Hp & c & Hc & Hb) ->. unfold hmac_pads.
  rewrite (proj1 info_sizes), xor_key_spec by apply hmac_key_fits.
  change (_ ++ zeros _) with (hmac_block n key). fold ipad opad.
  destruct (md_starts_inv n (Some (ipad ++ opad)) (ctx <| hmac_ctx := Some (ipad ++ opad) |>) Hn)
    as (ctx1 & -> & H1).
  { split; [exact Hi|]. split; [reflexivity|]. exists c. auto. }
  change (negb (0 =? 0)) with false. cbv iota.
  destruct pads_facts as (Hl & _ & _ & _).
  destruct (md_update_inv n (Some (ipad ++ opad)) ctx1 [] ipad Hn) as (ctx2 & -> & H2); [lia|exact H1|].
  exists ctx2. split; [reflexivity|]. unfold hmac_inv. rewrite app_nil_r. exact H2.
Qed.

Lemma hmac_starts_inv pads ctx :
  md_ready n (Some pads) ctx -> exists ctx', mbedtls_md_hmac_starts ctx key = (0, ctx') /\ hmac_inv ctx' [].
Proof.
  intros H. pose proof H as (Hi & Hp & _). unfold mbedtls_md_hmac_starts. rewrite Hi, Hp.
  destruct info_sizes as (-> & _ & Hd).
  destruct (Nat.ltb_spec 64 (length key)) as [Hlt|Hle].
  - destruct (md_starts_inv n _ ctx Hn H) as (ctx1 & -> & H1). cbn [Z.eqb negb].
    destruct (md_update_inv n _ ctx1 [] key Hn Hkl H1) as (ctx2 & -> & H2). cbn [Z.eqb negb app] in *.
    destruct (md_finish_spec n _ ctx2 key Hn Hkb ltac:(lia) H2) as (ctx3 & -> & H3). cbn [Z.eqb negb].
    apply (hmac_pads_inv pads); [exact H3|].
    rewrite take_ge by (rewrite Hd by exact Hkb; lia). destruct (Nat.ltb_spec 64 (length key)); [reflexivity|lia].
  - apply (hmac_pads_inv pads); [exact H|]. destruct (Nat.ltb_spec 64 (length key)); [lia|reflexivity].
Qed.

Lemma hmac_update_inv ctx msg input :
  Z.of_nat (length input) < 2 ^ 32 -> hmac_inv ctx msg ->
  exists ctx', mbedtls_md_hmac_update ctx input = (0, ctx') /\ hmac_inv ctx' (msg ++ input).
Proof.
  intros Hl H. unfold mbedtls_md_hmac_update. rewrite (md_inv_info _ _ _ _ H), (md_inv_pads _ _ _ _ H).
  unfold hmac_inv. rewrite app_assoc. apply md_update_inv; assumption.
Qed.

Lemma hmac_finish_spec ctx msg :
  byte_list msg -> Z.of_nat (length msg) + 64 < 2 ^ 61 -> hmac_inv ctx msg ->
  exists ctx', mbedtls_md_hmac_finish ctx = (0, ctx', rfc2104_hmac n key msg) /\
    md_ready n (Some (ipad ++ opad)) ctx'.
Proof.
  intros Hb Hl H. destruct pads_facts as (Hil & Hol & Hib & Hob). destruct info_sizes as (Hbs & Hsz & Hd).
  unfold mbedtls_md_hmac_finish. rewrite (md_inv_info _ _ _ _ H), (md_inv_pads _ _ _ _ H), Hbs.
  rewrite (drop_app_length' ipad opad 64), (take_ge opad) by lia.
  assert (Hinner : byte_list (ipad ++ msg)) by (apply Forall_app; auto).
  destruct (md_finish_spec n _ ctx _ Hn Hinner ltac:(rewrite length_app; lia) H) as (ctx1 & -> & H1).
  cbn [Z.eqb negb]. destruct (md_starts_inv n _ ctx1 Hn H1) as (ctx2 & -> & H2). cbn [Z.eqb negb].
  destruct (md_update_inv n _ ctx2 [] opad Hn ltac:(lia) H2) as (ctx3 & -> & H3). cbn [Z.eqb negb app] in *.
  rewrite take_ge by (rewrite Hd by exact Hinner; lia).
  destruct (md_update_inv n (Some (ipad ++ opad)) ctx3 opad (digest n (ipad ++ msg)) Hn) as (ctx4 & -> & H4);
    [rewrite Hd by exact Hinner; lia|exact H3|]. cbn [Z.eqb negb].
  apply md_finish_spec; [exact Hn| | |exact H4].
  - apply Forall_app. split; [exact Hob|apply digest_bytes].
  - rewrite length_app, Hd by exact Hinner. fold opad. lia.
Qed.

(** After a reset the context is keyed as before and has absorbed nothing. *)
Lemma hmac_reset_inv ctx :
  md_ready n (Some (ipad ++ opad)) ctx ->
  exists ctx', mbedtls_md_hmac_reset ctx = (0, ctx') /\ hmac_inv ctx' [].
Proof.
  intros H. pose proof H as (Hi & Hp & _). unfold mbedtls_md_hmac_reset. rewrite Hi, Hp.
  destruct pads_facts as (Hil & _). rewrite (proj1 info_sizes), (take_app_length' ipad opad 64) by lia.
  destruct (md_starts_inv n _ ctx Hn H) as (ctx1 & -> & H1). cbn [Z.eqb negb].
  destruct (md_update_inv n _ ctx1 [] ipad Hn ltac:(lia) H1) as (ctx2 & -> & H2).
  exists ctx2. split; [reflexivity|]. unfold hmac_inv. rewrite app_nil_r. exact H2.
Qed.

Lemma hmac_updates_inv ctx msg chunks :
  Forall (fun c => Z.of_nat (length c) < 2 ^ 32) chunks -> hmac_inv ctx msg ->
  hmac_inv (fold_left (fun ctx c => snd (mbedtls_md_hmac_update ctx c)) chunks ctx) (msg ++ concat chunks).
Proof.
  intros Hc. revert ctx msg. induction Hc as [|c cs Hcl _ IH]; intros ctx msg H.
  - cbn. rewrite app_nil_r. exact H.
  - cbn [fold_left concat]. rewrite app_assoc.
    destruct (hmac_update_inv ctx msg c Hcl H) as (ctx' & Heq & H'). rewrite Heq. apply IH, H'.
Qed.

End hmac.

(** C32. HMAC through the context: start with a key of any length, feed the message
    in pieces, finish.  The result is the HMAC of RFC 2104, and a reset makes
    the context ready for the next message under the same key. *)
Theorem hmac_stream_is_rfc2104 n pads ctx key chunks :
  is_digest n -> md_ready n (Some pads) ctx ->
  byte_list key -> Z.of_nat (length key) < 2 ^ 32 ->
  Forall byte_list chunks -> Forall (fun c => Z.of_nat (length c) < 2 ^ 32) chunks ->
  Z.of_nat (length (concat chunks)) + 64 < 2 ^ 61 ->
  let ctx := snd (mbedtls_md_hmac_starts ctx key) in
  let ctx := fold_left (fun ctx c => snd (mbedtls_md_hmac_update ctx c)) chunks ctx in
  exists ctx', mbedtls_md_hmac_finish ctx = (0, ctx', rfc2104_hmac n key (concat chunks)) /\
    exists ctx'', mbedtls_md_hmac_reset ctx' = (0, ctx'') /\ hmac_inv n key ctx'' [].
Proof.
  intros Hn Hr Hkb Hkl Hb Hc Hl. cbn zeta.
  destruct (hmac_starts_inv n Hn key Hkb Hkl pads ctx Hr) as (ctx1 & -> & H1). cbn [snd].
  pose proof (hmac_updates_inv n Hn key _ [] chunks Hc H1) as H2.
  destruct (hmac_finish_spec n Hn key Hkb _ (concat chunks) ltac:(apply Forall_concat, Hb) Hl H2)
    as (ctx3 & Heq & H3).
  exists ctx3. split; [exact Heq|]. apply (hmac_reset_inv n Hn key Hkb), H3.
Qed.

(** A context as [mbedtls_md_setup] leaves it. *)
Lemma setup_ready n ctx :
  is_digest n ->
  exists ctx', mbedtls_md_setup true true ctx (Some (info_of n)) true = (0, ctx') /\
    md_ready n (Some (zeros 128)) ctx'.
Proof.
  intros [-> | ->]; (eexists; split; [reflexivity|]); repeat split; eexists; split; reflexivity.
Qed.

Lemma hmac_stream_is_rfc2104_witness :
  let ctx := snd (mbedtls_md_setup true true mbedtls_md_init (Some mbedtls_sha256_info) true) in
  let ctx := snd (mbedtls_md_hmac_starts ctx (cstr "Jefe")) in
  let ctx := fold_left (fun ctx c => snd (mbedtls_md_hmac_update ctx c))
               [cstr "what do ya want "; cstr "for nothing?"] ctx in
  exists ctx', mbedtls_md_hmac_finish ctx =
      (0, ctx', rfc2104_hmac 0 (cstr "Jefe") (cstr "what do ya want for nothing?")) /\
    exists ctx'', mbedtls_md_hmac_reset ctx' = (0, ctx'') /\ hmac_inv 0 (cstr "Jefe") ctx'' [].
Proof.
  apply (hmac_stream_is_rfc2104 0 (zeros 128)
           (snd (mbedtls_md_setup true true mbedtls_md_init (Some mbedtls_sha256_info) true))
           (cstr "Jefe") [cstr "what do ya want "; cstr "for nothing?"]).
  - left. reflexivity.
  - repeat split. eexists. split; reflexivity.
  - repeat (constructor; try (vm_compute; intuition discriminate)).
  - reflexivity.
  - repeat (constructor; try (vm_compute; intuition discriminate)).
  - repeat constructor.
  - reflexivity.
Defined.

(** The one-shot call: HMAC, or the allocation error. *)
Lemma md_hmac_spec a1 a2 n key input :
  is_digest n -> byte_list key -> Z.of_nat (length key) < 2 ^ 32 ->
  byte_list input -> Z.of_nat (length input) < 2 ^ 32 ->
  mbedtls_md_hmac a1 a2 (Some (info_of n)) key input =
  if a1 && a2 then (0, rfc2104_hmac n key input) else (MBEDTLS_ERR_MD_ALLOC_FAILED, []).
Proof.
  intros Hn Hkb Hkl Hb Hl. unfold mbedtls_md_hmac. destruct (a1 && a2) eqn:Ha.
  - apply andb_prop in Ha as [-> ->].
    destruct (setup_ready n mbedtls_md_init Hn) as (ctx1 & -> & H1). cbn [Z.eqb negb].
    destruct (hmac_starts_inv n Hn key Hkb Hkl _ ctx1 H1) as (ctx2 & -> & H2). cbn [Z.eqb negb].
    destruct (hmac_update_inv n Hn key ctx2 [] input Hl H2) as (ctx3 & -> & H3). cbn [Z.eqb negb app] in *.
    destruct (hmac_finish_spec n Hn key Hkb ctx3 input Hb ltac:(lia) H3) as (ctx4 & -> & _). reflexivity.
  - destruct Hn as [-> | ->], a1, a2; try discriminate Ha; reflexivity.
Qed.

(** ** The interface of the firmware *)

(** [mbedtls_md_hmac(mbedtls_md_info_from_type(MBEDTLS_MD_SHA256), ...)] as the
    firmware calls it. *)
Definition mbed_hmac (a1 a2 : bool) : MdHmac := fun key data =>
  let '(ret, out) :=
    mbedtls_md_hmac a1 a2 (mbedtls_md_info_from_type MBEDTLS_MD_SHA256) key data in
  if ret =? 0 then Some out else None.

(** A SHA-256 context with eight state words. *)
Definition md_wf (ctx : mbedtls_md_context_t) : Prop :=
  md_info ctx = Some mbedtls_sha256_info /\ (exists pads, hmac_ctx ctx = Some pads) /\
  exists c, md_ctx ctx = Some c /\ length (state (core c)) = 8%nat /\ is224 c = 0.

Lemma md_starts_wf ctx :
  md_wf ctx -> exists ctx', mbedtls_md_starts ctx = (0, ctx') /\ md_wf ctx'.
Proof.
  intros (Hi & Hp & c & Hc & _). unfold mbedtls_md_starts, with_digest. rewrite Hi, Hc. cbn.
  eexists. split; [reflexivity|]. split; [exact Hi|]. split; [exact Hp|].
  eexists. repeat split.
Qed.

Lemma md_update_wf ctx input :
  md_wf ctx -> exists ctx', mbedtls_md_update ctx input = (0, ctx') /\ md_wf ctx'.
Proof.
  intros (Hi & Hp & c & Hc & Hl & Hn). unfold mbedtls_md_update, with_digest. rewrite Hi, Hc.
  cbn [type mbedtls_sha256_info mbedtls_sha256_update_ret].
  eexists. split; [reflexivity|]. split; [exact Hi|]. split; [exact Hp|].
  eexists. split; [reflexivity|]. split; [|exact Hn]. cbn [core set_field].
  apply (hash_update_preserves 64 32 sha256_process (fun st => length st = 8%nat) sha256_process_length _ _ Hl).
Qed.

Lemma md_finish_wf ctx :
  md_wf ctx ->
  exists ctx' out, mbedtls_md_finish ctx = (0, ctx', out) /\ md_wf ctx' /\ length out = 32%nat /\ byte_list out.
Proof.
  intros (Hi & Hp & c & Hc & Hl & Hn). unfold mbedtls_md_finish, with_digest. rewrite Hi, Hc.
  cbn [type mbedtls_sha256_info]. pose proof (finish_shape c Hl Hn) as Hs.
  destruct (mbedtls_sha256_finish_ret c) as [[ret c'] out].
  destruct Hs as (-> & Hlen & Hb & Hl' & Hn'). exists (ctx <| md_ctx := Some c' |>), out.
  split; [reflexivity|]. split; [|auto]. split; [exact Hi|]. split; [exact Hp|]. exists c'. auto.
Qed.

Lemma hmac_pads_wf ctx key :
  md_wf ctx -> exists ctx', hmac_pads ctx mbedtls_sha256_info key = (0, ctx') /\ md_wf ctx'.
Proof.
  intros (Hi & _ & Hc). unfold hmac_pads. destruct (xor_key _ _) as [ipad opad].
  destruct (md_starts_wf (ctx <| hmac_ctx := Some (ipad ++ opad) |>)) as (ctx1 & -> & H1).
  { split; [exact Hi|]. split; [eexists; reflexivity|exact Hc]. }
  change (negb (0 =? 0)) with false. cbv iota. apply md_update_wf, H1.
Qed.

Lemma hmac_starts_wf ctx key :
  md_wf ctx -> exists ctx', mbedtls_md_hmac_starts ctx key = (0, ctx') /\ md_wf ctx'.
Proof.
  intros H. pose proof H as (Hi & (pads & Hp) & _). unfold mbedtls_md_hmac_starts. rewrite Hi, Hp.
  destruct (_ <? _)%nat; [|apply hmac_pads_wf, H].
  destruct (md_starts_wf ctx H) as (ctx1 & -> & H1). cbn [Z.eqb negb].
  destruct (md_update_wf ctx1 key H1) as (ctx2 & -> & H2). cbn [Z.eqb negb].
  destruct (md_finish_wf ctx2 H2) as (ctx3 & sum & -> & H3 & _). cbn [Z.eqb negb].
  apply hmac_pads_wf, H3.
Qed.

Lemma hmac_finish_wf ctx :
  md_wf ctx ->
  exists ctx' out, mbedtls_md_hmac_finish ctx = (0, ctx', out) /\ length out = 32%nat /\ byte_list out.
Proof.
  intros H. pose proof H as (Hi & (pads & Hp) & _). unfold mbedtls_md_hmac_finish. rewrite Hi, Hp.
  change (block_size mbedtls_sha256_info) with 64%nat. change (size mbedtls_sha256_info) with 32%nat.
  destruct (md_finish_wf ctx H) as (ctx1 & tmp & -> & H1 & _). cbn [Z.eqb negb].
  destruct (md_starts_wf ctx1 H1) as (ctx2 & -> & H2). cbn [Z.eqb negb].
  destruct (md_update_wf ctx2 (take 64 (drop 64 pads)) H2) as (ctx3 & -> & H3). cbn [Z.eqb negb].
  destruct (md_update_wf ctx3 (take 32 tmp) H3) as (ctx4 & -> & H4). cbn [Z.eqb negb].
  destruct (md_finish_wf ctx4 H4) as (ctx5 & out & -> & _ & Hl & Hb). eauto.
Qed.

(** mbedTLS keeps the promise the firmware's theorems rely on. *)
#[export] Instance mbed_hmac_ok a1 a2 : MdHmacOk (mbed_hmac a1 a2).
Proof.
  intros key data out. cbv [hmac.mbedtls_md_hmac mbed_hmac mbedtls_md_info_from_type].
  unfold mbedtls_md_hmac. destruct a1, a2; cbn [mbedtls_md_setup type mbedtls_sha256_info]; try discriminate.
  cbv zeta. change (negb (0 =? 0)) with false. cbv iota.
  match goal with |- context [mbedtls_md_hmac_starts ?c key] =>
    destruct (hmac_starts_wf c key) as (ctx1 & -> & H1) end.
  { split; [reflexivity|]. split; eexists; repeat split. }
  change (negb (0 =? 0)) with false. cbv iota. unfold mbedtls_md_hmac_update.
  pose proof H1 as (Hi & (pads & Hp) & _). rewrite Hi, Hp.
  destruct (md_update_wf ctx1 data H1) as (ctx2 & -> & H2). cbn [Z.eqb negb].
  destruct (hmac_finish_wf ctx2 H2) as (ctx3 & out' & -> & Hl & Hb).
  intros [= <-]. split; assumption.
Qed.

(** The firmware's digest is the HMAC-SHA256 of RFC 2104, or zeros when an
    allocation fails. *)
Theorem firmware_hmac_is_rfc2104 a1 a2 key data :
  byte_list key -> Z.of_nat (length key) < 2 ^ 32 ->
  byte_list data -> Z.of_nat (length data) < 2 ^ 32 ->
  iot_hmac_sha256 (H := mbed_hmac a1 a2) key data =
  if a1 && a2 then rfc2104_hmac 0 key data else zeros 32.
Proof.
  intros Hkb Hkl Hb Hl. unfold iot_hmac_sha256. cbv [hmac.mbedtls_md_hmac mbed_hmac].
  change (mbedtls_md_info_from_type MBEDTLS_MD_SHA256) with (Some (info_of 0)).
  rewrite md_hmac_spec by (assumption || (left; reflexivity)). destruct (a1 && a2); reflexivity.
Qed.

Lemma firmware_hmac_is_rfc2104_witness :
  iot_hmac_sha256 (H := mbed_hmac true true) (cstr "key") (cstr "data") =
  if true && true then rfc2104_hmac 0 (cstr "key") (cstr "data") else zeros 32.
Proof.
  apply (firmware_hmac_is_rfc2104 true true (cstr "key") (cstr "data")); [|reflexivity| |reflexivity];
    repeat (constructor; try (vm_compute; intuition discriminate)).
Defined.

End md.
