(* ===== verification/ConstantTime.v ===== *)
(** constant_time.c of mbedTLS beyond what the build uses of it (that part is in
    MbedCommon): masks, comparisons and selections without branches, base64
    characters, comparison, conditional copy and swap of big numbers, the removal of
    PKCS#1 v1.5 padding (module constant_time) and HMAC of a message of secret
    length (module ct_hmac); with what each computes when the branches are put
    back. *)

From S2P Require Import Prelude MbedCommon HashStream Sha256 Md.
Import mbed.

Module constant_time.

(** ** Masks and comparisons: [unsigned] of 32 bits, [size_t] and
    [mbedtls_mpi_uint] of 64 *)

Definition mbedtls_ct_size_mask (value : Z) : Z := u64 (- Z.shiftr (Z.lor value (u64 (- value))) 63).
Definition mbedtls_ct_mpi_uint_mask (value : Z) : Z := u64 (- Z.shiftr (Z.lor value (u64 (- value))) 63).

Definition mbedtls_ct_size_mask_lt (x y : Z) : Z :=
  let sub := u64 (x - y) in
  let sub1 := Z.shiftr sub 63 in
  mbedtls_ct_size_mask sub1.

Definition mbedtls_ct_size_mask_ge (x y : Z) : Z := u64 (Z.lnot (mbedtls_ct_size_mask_lt x y)).

Definition mbedtls_ct_uchar_mask_of_range (low high c : Z) : Z :=
  let low_mask := Z.shiftr (u32 (c - low)) 8 in
  let high_mask := Z.shiftr (u32 (high - c)) 8 in
  Z.land (u32 (Z.lnot (Z.lor low_mask high_mask))) 0xff.

Definition mbedtls_ct_size_gt (x y : Z) : Z := u32 (Z.shiftr (u64 (y - x)) 63).

Definition mbedtls_ct_mpi_uint_lt (x y : Z) : Z :=
  let cond := Z.lxor x y in
  let ret := Z.land (u64 (x - y)) (u64 (Z.lnot cond)) in
  let ret := Z.lor ret (Z.land y cond) in
  u32 (Z.shiftr ret 63).

(** ** Selections *)

(** One byte of the conditional copies; [mask] is all ones or zero. *)
Definition select_byte (mask : Z) (src dest : Z) : Z :=
  Z.lor (Z.land src mask) (Z.land dest (u8 (Z.lnot mask))).

(** The first [len] bytes of [dest]; the callers' buffers have them. *)
Definition mbedtls_ct_memcpy_if_eq (dest src : list Z) (len : nat) (c1 c2 : Z) : list Z :=
  let equal := mbedtls_ct_size_bool_eq c1 c2 in
  let mask := u8 (mbedtls_ct_size_mask equal) in
  zip_with (select_byte mask) (take len src) (take len dest) ++ drop len dest.

Definition mbedtls_ct_memcpy_offset (dest src : list Z) (offset offset_min offset_max : nat) (len : nat) : list Z :=
  fold_left (fun dest offsetval =>
    mbedtls_ct_memcpy_if_eq dest (drop offsetval src) len (Z.of_nat offsetval) (Z.of_nat offset))
    (seq offset_min (S offset_max - offset_min)) dest.

Definition mbedtls_ct_mpi_uint_cond_assign (n : nat) (dest src : list Z) (condition : Z) : list Z :=
  let mask := u64 (- condition) in
  zip_with (fun s d => Z.lor (Z.land s mask) (Z.land d (u64 (Z.lnot mask)))) (take n src) (take n dest) ++ drop n dest.

(** One pass over the buffer: nothing, or a shift by one byte. *)
Definition move_pass (no_op : Z) (total : nat) (buf : list Z) : list Z :=
  let buf := fold_left (fun buf n => <[n := mbedtls_ct_uint_if no_op buf.[n] buf.[n + 1]]> buf) (seq 0 (total - 1)) buf in
  <[(total - 1)%nat := mbedtls_ct_uint_if no_op buf.[total - 1] 0]> buf.

Definition mbedtls_ct_mem_move_to_left (buf : list Z) (total offset : nat) : list Z :=
  if (total =? 0)%nat then buf else
  fold_left (fun buf i => move_pass (mbedtls_ct_size_gt (u64 (Z.of_nat total - Z.of_nat offset)) (Z.of_nat i)) total buf)
    (seq 0 total) buf.

(** ** Base64 *)

Definition mbedtls_ct_base64_enc_char (value : Z) : Z :=
  let digit := Z.land (mbedtls_ct_uchar_mask_of_range 0 25 value) (65 + value) in
  let digit := Z.lor digit (Z.land (mbedtls_ct_uchar_mask_of_range 26 51 value) (97 + value - 26)) in
  let digit := Z.lor digit (Z.land (mbedtls_ct_uchar_mask_of_range 52 61 value) (48 + value - 52)) in
  let digit := Z.lor digit (Z.land (mbedtls_ct_uchar_mask_of_range 62 62 value) 43) in
  Z.lor digit (Z.land (mbedtls_ct_uchar_mask_of_range 63 63 value) 47).

Definition mbedtls_ct_base64_dec_value (c : Z) : Z :=
  let val := Z.land (mbedtls_ct_uchar_mask_of_range 65 90 c) (c - 65 + 0 + 1) in
  let val := Z.lor val (Z.land (mbedtls_ct_uchar_mask_of_range 97 122 c) (c - 97 + 26 + 1)) in
  let val := Z.lor val (Z.land (mbedtls_ct_uchar_mask_of_range 48 57 c) (c - 48 + 52 + 1)) in
  let val := Z.lor val (Z.land (mbedtls_ct_uchar_mask_of_range 43 43 c) (c - 43 + 62 + 1)) in
  let val := Z.lor val (Z.land (mbedtls_ct_uchar_mask_of_range 47 47 c) (c - 47 + 63 + 1)) in
  val - 1.

(** ** Big numbers *)

(** [s] and the limbs [p], the least significant first; [n] is their number. *)
Record mbedtls_mpi := {
  s : Z;
  p : list Z }.

Definition MBEDTLS_ERR_MPI_BAD_INPUT_DATA : Z := -0x0004.

(** A turn of the loop on a limb of each, [*ret] and [done]. *)
Definition lt_turn (X_is_negative : Z) (st : Z * Z) (limbs : Z * Z) : Z * Z :=
  let '(ret, done) := st in
  let '(x, y) := limbs in
  let cond := mbedtls_ct_mpi_uint_lt y x in
  let ret := Z.lor ret (Z.land (Z.land cond (1 - done)) X_is_negative) in
  let done := Z.lor done cond in
  let cond := mbedtls_ct_mpi_uint_lt x y in
  let ret := Z.lor ret (Z.land (Z.land cond (1 - done)) (1 - X_is_negative)) in
  (ret, Z.lor done cond).

(** The code, and [*ret] if it is written. *)
Definition mbedtls_mpi_lt_mpi_ct (X Y : mbedtls_mpi) : Z * option Z :=
  if negb (length (p X) =? length (p Y))%nat then (MBEDTLS_ERR_MPI_BAD_INPUT_DATA, None) else
  let X_is_negative := Z.shiftr (Z.land (s X) 2) 1 in
  let Y_is_negative := Z.shiftr (Z.land (s Y) 2) 1 in
  let cond := Z.lxor X_is_negative Y_is_negative in
  let ret := Z.land cond X_is_negative in
  let '(ret, _) := fold_left (lt_turn X_is_negative) (rev (zip (p X) (p Y))) (ret, cond) in
  (0, Some ret).

(** The conversion of [unsigned] to [int]. *)
Definition int_of (x : Z) : Z := if x <? 2 ^ 31 then x else x - 2 ^ 32.

Section safe.
(** [mbedtls_mpi_grow] of bignum.c, which is not in the repository. *)
Context (mbedtls_mpi_grow : mbedtls_mpi -> nat -> Z * mbedtls_mpi).

(** The code and [X] as the call leaves it. *)
Definition mbedtls_mpi_safe_cond_assign (X Y : mbedtls_mpi) (assign : Z) : Z * mbedtls_mpi :=
  let limb_mask := mbedtls_ct_mpi_uint_mask assign in
  let '(ret, X) := mbedtls_mpi_grow X (length (p Y)) in
  if negb (ret =? 0) then (ret, X) else
  let limbs := mbedtls_ct_mpi_uint_cond_assign (length (p Y)) (p X) (p Y) assign in
  (0, {| s := int_of (mbedtls_ct_uint_if assign (u32 (s Y)) (u32 (s X)));
         p := take (length (p Y)) limbs ++ map (fun l => Z.land l (u64 (Z.lnot limb_mask))) (drop (length (p Y)) limbs) |}).

(** [same] is [X == Y]. *)
Definition mbedtls_mpi_safe_cond_swap (same : bool) (X Y : mbedtls_mpi) (swap : Z) : Z * mbedtls_mpi * mbedtls_mpi :=
  if same then (0, X, Y) else
  let limb_mask := mbedtls_ct_mpi_uint_mask swap in
  let '(ret, X) := mbedtls_mpi_grow X (length (p Y)) in
  if negb (ret =? 0) then (ret, X, Y) else
  let '(ret, Y) := mbedtls_mpi_grow Y (length (p X)) in
  if negb (ret =? 0) then (ret, X, Y) else
  let n := length (p X) in
  let pick a b := Z.lor (Z.land a (u64 (Z.lnot limb_mask))) (Z.land b limb_mask) in
  (0, {| s := int_of (mbedtls_ct_uint_if swap (u32 (s Y)) (u32 (s X)));
         p := zip_with pick (p X) (take n (p Y)) |},
      {| s := int_of (mbedtls_ct_uint_if swap (u32 (s X)) (u32 (s Y)));
         p := zip_with pick (take n (p Y)) (p X) ++ drop n (p Y) |}).

End safe.

(** ** PKCS#1 v1.5 *)

Definition MBEDTLS_RSA_PUBLIC : Z := 0.
Definition MBEDTLS_RSA_PRIVATE : Z := 1.
Definition MBEDTLS_RSA_SIGN : Z := 1.
Definition MBEDTLS_RSA_CRYPT : Z := 2.
Definition MBEDTLS_ERR_RSA_INVALID_PADDING : Z := -0x4100.
Definition MBEDTLS_ERR_RSA_OUTPUT_TOO_LARGE : Z := -0x4400.

(** [((b | (unsigned char) -b) >> 7) ^ 1] *)
Definition is_zero_byte (b : Z) : Z := Z.lxor (Z.shiftr (Z.lor b (u8 (- b))) 7) 1.

(** A turn of the loop of each mode on [bad], [pad_done] and [pad_count]. *)
Definition private_turn (st : Z * Z * Z) (b : Z) : Z * Z * Z :=
  let '(bad, pad_done, pad_count) := st in
  let pad_done := Z.lor pad_done (is_zero_byte b) in
  (bad, pad_done, u64 (pad_count + is_zero_byte pad_done)).

Definition public_turn (st : Z * Z * Z) (b : Z) : Z * Z * Z :=
  let '(bad, pad_done, pad_count) := st in
  let pad_done := Z.lor pad_done (mbedtls_ct_uint_if b 0 1) in
  let pad_count := u64 (pad_count + mbedtls_ct_uint_if pad_done 0 1) in
  (Z.lor bad (mbedtls_ct_uint_if pad_done 0 (Z.lxor b 0xFF)), pad_done, pad_count).

Definition padding_turn (mode : Z) : Z * Z * Z -> Z -> Z * Z * Z :=
  if mode =? MBEDTLS_RSA_PRIVATE then private_turn else public_turn.

Definition scan_padding (mode : Z) (input : list Z) : Z * Z * Z :=
  let bad := input.[0] in
  let block_type := if mode =? MBEDTLS_RSA_PRIVATE then MBEDTLS_RSA_CRYPT else MBEDTLS_RSA_SIGN in
  fold_left (padding_turn mode) (drop 2 input) (Z.lor bad (Z.lxor input.[1] block_type), 0, 0).

(** What follows once [bad] and [pad_count] are known: the code, the bytes copied to
    [output] and [*olen]. *)
Definition unpad_finish (input : list Z) (output_max_len : nat) (bad pad_count : Z) : Z * list Z * Z :=
  let ilen := length input in
  let plaintext_max_size := if (ilen - 11 <? output_max_len)%nat then (ilen - 11)%nat else output_max_len in
  let plaintext_size :=
    mbedtls_ct_uint_if bad (u32 (Z.of_nat plaintext_max_size)) (u32 (u64 (Z.of_nat ilen - pad_count - 3))) in
  let output_too_large := mbedtls_ct_size_gt plaintext_size (Z.of_nat plaintext_max_size) in
  let ret :=
    - mbedtls_ct_uint_if bad (- MBEDTLS_ERR_RSA_INVALID_PADDING)
        (mbedtls_ct_uint_if output_too_large (- MBEDTLS_ERR_RSA_OUTPUT_TOO_LARGE) 0) in
  let bad := mbedtls_ct_uint_mask (Z.lor bad output_too_large) in
  let input := take 11 input ++ map (fun b => Z.land b (u32 (Z.lnot bad))) (drop 11 input) in
  let plaintext_size := mbedtls_ct_uint_if output_too_large (u32 (Z.of_nat plaintext_max_size)) plaintext_size in
  let moved :=
    mbedtls_ct_mem_move_to_left (drop (ilen - plaintext_max_size) input) plaintext_max_size
      (plaintext_max_size - Z.to_nat plaintext_size) in
  (ret, if (output_max_len =? 0)%nat then [] else moved, plaintext_size).

(** [input] is a working buffer of at least 11 bytes. *)
Definition mbedtls_ct_rsaes_pkcs1_v15_unpadding (mode : Z) (input : list Z) (output_max_len : nat)
  : Z * list Z * Z :=
  let '(bad, pad_done, pad_count) := scan_padding mode input in
  let bad := Z.lor bad (mbedtls_ct_uint_if pad_done 0 1) in
  let bad := Z.lor bad (mbedtls_ct_size_gt 8 pad_count) in
  unpad_finish input output_max_len bad pad_count.

(** 00 02, eight nonzero bytes, 00 and the message. *)
Example unpad_message :
  mbedtls_ct_rsaes_pkcs1_v15_unpadding MBEDTLS_RSA_PRIVATE ([0; 2] ++ repeat 7 9 ++ [0; 104; 105]) 4 =
  (0, [104; 105; 0], 2).
Proof. vm_compute. reflexivity. Qed.

Example unpad_too_large :
  mbedtls_ct_rsaes_pkcs1_v15_unpadding MBEDTLS_RSA_PUBLIC ([0; 1] ++ repeat 255 8 ++ [0; 104; 105]) 1 =
  (MBEDTLS_ERR_RSA_OUTPUT_TOO_LARGE, [0], 1).
Proof. vm_compute. reflexivity. Qed.

(** ** What the masks and comparisons are *)

Lemma msb v : is_u64 v -> Z.shiftr v 63 = if v <? 2 ^ 63 then 0 else 1.
Proof.
  intros Hv. rewrite Z.shiftr_div_pow2 by lia. change (2 ^ 63) with 9223372036854775808.
  destruct (Z.ltb_spec v 9223372036854775808); words.
Qed.

Lemma size_mask_spec value :
  is_u64 value -> mbedtls_ct_size_mask value = if value =? 0 then 0 else 2 ^ 64 - 1.
Proof.
  intros H. unfold mbedtls_ct_size_mask. destruct (Z.eqb_spec value 0) as [->|Hne]; [reflexivity|].
  replace (Z.shiftr (Z.lor value (u64 (- value))) 63) with 1; [reflexivity|].
  rewrite Z.shiftr_lor, !msb by (assumption || apply u64_range). change (2 ^ 63) with 9223372036854775808.
  assert (Hn : u64 (- value) = 18446744073709551616 - value) by words. rewrite Hn.
  destruct (Z.ltb_spec value 9223372036854775808), (Z.ltb_spec (18446744073709551616 - value) 9223372036854775808);
    try reflexivity. exfalso. unfold is_u64 in H. lia.
Qed.

Lemma mpi_uint_mask_spec value :
  is_u64 value -> mbedtls_ct_mpi_uint_mask value = if value =? 0 then 0 else 2 ^ 64 - 1.
Proof. exact (size_mask_spec value). Qed.

(** Sizes stay below half of their range. *)
Definition is_size (x : Z) : Prop := 0 <= x < 2 ^ 63.

Lemma sub_msb x y : is_size x -> is_size y -> Z.shiftr (u64 (x - y)) 63 = if x <? y then 1 else 0.
Proof.
  unfold is_size. change (2 ^ 63) with 9223372036854775808. intros Hx Hy. rewrite msb by apply u64_range.
  change (2 ^ 63) with 9223372036854775808. destruct (Z.ltb_spec x y).
  - replace (u64 (x - y)) with (x - y + 18446744073709551616) by words.
    destruct (Z.ltb_spec (x - y + 18446744073709551616) 9223372036854775808); [lia|reflexivity].
  - rewrite u64_small by (unfold is_u64; lia). destruct (Z.ltb_spec (x - y) 9223372036854775808); [reflexivity|lia].
Qed.

Lemma size_mask_ge_spec x y :
  is_size x -> is_size y -> mbedtls_ct_size_mask_ge x y = if x <? y then 0 else 2 ^ 64 - 1.
Proof.
  intros Hx Hy. unfold mbedtls_ct_size_mask_ge, mbedtls_ct_size_mask_lt. rewrite sub_msb by assumption.
  destruct (x <? y); reflexivity.
Qed.

Lemma size_gt_spec x y : is_size x -> is_size y -> mbedtls_ct_size_gt x y = if y <? x then 1 else 0.
Proof. intros Hx Hy. unfold mbedtls_ct_size_gt. rewrite sub_msb by assumption. destruct (y <? x); reflexivity. Qed.

Lemma mpi_uint_lt_spec x y : is_u64 x -> is_u64 y -> mbedtls_ct_mpi_uint_lt x y = if x <? y then 1 else 0.
Proof.
  intros Hx Hy. unfold mbedtls_ct_mpi_uint_lt. rewrite Z.shiftr_lor, !Z.shiftr_land.
  assert (Hc : is_u64 (Z.lxor x y)).
  { split; [apply Z.lxor_nonneg; unfold is_u64 in *; lia|]. destruct (decide (0 < Z.lxor x y)); [|lia].
    change 18446744073709551616 with (2 ^ 64). apply Z.log2_lt_pow2; [lia|].
    pose proof (Z.log2_lxor x y ltac:(apply Hx) ltac:(apply Hy)).
    assert (Hlog : forall z, is_u64 z -> Z.log2 z < 64).
    { intros z Hz. destruct (decide (z <= 0)); [rewrite Z.log2_nonpos; lia|]. apply Z.log2_lt_pow2; [lia|apply Hz]. }
    pose proof (Hlog x Hx). pose proof (Hlog y Hy). lia. }
  assert (Hn : Z.shiftr (u64 (Z.lnot (Z.lxor x y))) 63 = 1 - Z.shiftr (Z.lxor x y) 63).
  { rewrite !msb by (assumption || apply u64_range). change (2 ^ 63) with 9223372036854775808.
    replace (u64 (Z.lnot (Z.lxor x y))) with (18446744073709551615 - Z.lxor x y) by (unfold Z.lnot; words).
    destruct (Z.ltb_spec (Z.lxor x y) 9223372036854775808), (Z.ltb_spec (18446744073709551615 - Z.lxor x y) 9223372036854775808);
      lia. }
  rewrite Hn, Z.shiftr_lxor, !msb by (assumption || apply u64_range).
  change (2 ^ 63) with 9223372036854775808. clear Hc Hn.
  destruct (Z.ltb_spec x 9223372036854775808), (Z.ltb_spec y 9223372036854775808), (Z.ltb_spec x y),
    (Z.ltb_spec (u64 (x - y)) 9223372036854775808); try reflexivity; exfalso; words.
Qed.

Lemma uchar_mask_of_range_spec low high c :
  is_u8 low -> is_u8 high -> is_u8 c ->
  mbedtls_ct_uchar_mask_of_range low high c = if (low <=? c) && (c <=? high) then 255 else 0.
Proof.
  intros Hl Hh Hc. unfold mbedtls_ct_uchar_mask_of_range.
  assert (Hm : forall a b, is_u8 a -> is_u8 b -> Z.shiftr (u32 (a - b)) 8 = if b <=? a then 0 else 16777215).
  { intros a b Ha Hb. rewrite shiftr_8. destruct (Z.leb_spec b a); words. }
  rewrite !Hm by assumption. destruct (low <=? c), (c <=? high); reflexivity.
Qed.

(** ** Base64 *)

(** RFC 4648, table 1. *)
Definition base64_char (v : Z) : Z :=
  if v <? 26 then 65 + v else if v <? 52 then 97 + (v - 26) else if v <? 62 then 48 + (v - 52)
  else if v =? 62 then 43 else 47.

Lemma base64_enc_char_spec v : 0 <= v < 64 -> mbedtls_ct_base64_enc_char v = base64_char v.
Proof.
  intros Hv. assert (H : forallb (fun i => mbedtls_ct_base64_enc_char (Z.of_nat i) =? base64_char (Z.of_nat i)) (seq 0 64) = true)
    by (vm_compute; reflexivity).
  rewrite forallb_forall in H. specialize (H (Z.to_nat v) ltac:(apply in_seq; lia)). rewrite Z2Nat.id in H by lia.
  apply Z.eqb_eq, H.
Qed.

(** Decoding finds the digit with that character, and answers -1 when there is none. *)
Lemma base64_dec_value_spec c :
  is_u8 c ->
  mbedtls_ct_base64_dec_value c =
  match find_first (fun v => base64_char v =? c) (map Z.of_nat (seq 0 64)) with Some v => v | None => -1 end.
Proof.
  intros Hc. assert (H : forallb (fun i => mbedtls_ct_base64_dec_value (Z.of_nat i) =?
    match find_first (fun v => base64_char v =? Z.of_nat i) (map Z.of_nat (seq 0 64)) with Some v => v | None => -1 end)
    (seq 0 256) = true) by (vm_compute; reflexivity).
  rewrite forallb_forall in H. specialize (H (Z.to_nat c) ltac:(apply in_seq; unfold is_u8 in Hc; lia)).
  rewrite Z2Nat.id in H by apply Hc. apply Z.eqb_eq, H.
Qed.

Lemma base64_roundtrip v : 0 <= v < 64 -> mbedtls_ct_base64_dec_value (mbedtls_ct_base64_enc_char v) = v.
Proof.
  intros Hv. assert (H : forallb (fun i => mbedtls_ct_base64_dec_value (mbedtls_ct_base64_enc_char (Z.of_nat i)) =? Z.of_nat i)
    (seq 0 64) = true) by (vm_compute; reflexivity).
  rewrite forallb_forall in H. specialize (H (Z.to_nat v) ltac:(apply in_seq; lia)). rewrite Z2Nat.id in H by lia.
  apply Z.eqb_eq, H.
Qed.

(** ** Copies *)

Lemma land_ones8 b : is_u8 b -> Z.land b 255 = b.
Proof. intros H. rewrite land_255. apply Z.mod_small. exact H. Qed.

Lemma select_byte_spec (c : bool) a b :
  is_u8 a -> is_u8 b -> select_byte (if c then 255 else 0) a b = if c then a else b.
Proof.
  intros Ha Hb. unfold select_byte. destruct c.
  - change (u8 (Z.lnot 255)) with 0. rewrite land_ones8, Z.land_0_r, Z.lor_0_r by exact Ha. reflexivity.
  - change (u8 (Z.lnot 0)) with 255. rewrite Z.land_0_r, land_ones8 by exact Hb. reflexivity.
Qed.

Lemma memcpy_if_eq_spec dest src len c1 c2 :
  is_u64 c1 -> is_u64 c2 -> byte_list dest -> byte_list src -> (len <= length dest)%nat -> (len <= length src)%nat ->
  mbedtls_ct_memcpy_if_eq dest src len c1 c2 = if c1 =? c2 then take len src ++ drop len dest else dest.
Proof.
  intros H1 H2 Hd Hs Hld Hls. unfold mbedtls_ct_memcpy_if_eq. rewrite ct_size_bool_eq_spec by assumption. cbv zeta.
  assert (Hm : u8 (mbedtls_ct_size_mask (if c1 =? c2 then 1 else 0)) = if c1 =? c2 then 255 else 0)
    by (destruct (c1 =? c2); reflexivity).
  rewrite Hm.
  assert (Hz : forall a b n, byte_list a -> byte_list b -> (n <= length a)%nat -> (n <= length b)%nat ->
    zip_with (select_byte (if c1 =? c2 then 255 else 0)) (take n a) (take n b) = if c1 =? c2 then take n a else take n b).
  { clear. intros a b n Ha. revert b n. induction Ha as [|x a Hx Ha IH]; intros b n Hb H1 H2.
    - assert (n = 0%nat) as -> by (cbn in H1; lia). destruct (c1 =? c2); reflexivity.
    - destruct n as [|n]; [destruct (c1 =? c2); reflexivity|]. destruct b as [|y b]; [cbn in H2; lia|].
      inversion Hb; subst. cbn [take zip_with]. rewrite select_byte_spec, IH by (auto; cbn in *; lia).
      destruct (c1 =? c2); reflexivity. }
  rewrite Hz by assumption. destruct (c1 =? c2); [reflexivity|apply take_drop].
Qed.

(** The copy is from [offset] whenever it is in the range. *)
Lemma memcpy_offset_spec dest src offset offset_min offset_max len :
  byte_list dest -> byte_list src -> (len <= length dest)%nat -> (offset_max + len <= length src)%nat ->
  Z.of_nat (length src) < 2 ^ 63 -> (offset_min <= offset <= offset_max)%nat ->
  mbedtls_ct_memcpy_offset dest src offset offset_min offset_max len = take len (drop offset src) ++ drop len dest.
Proof.
  intros Hd Hs Hld Hls H63 Hr. unfold mbedtls_ct_memcpy_offset. change (2 ^ 63) with 9223372036854775808 in H63.
  set (goal := take len (drop offset src) ++ drop len dest).
  assert (Hgl : length goal = length dest) by (unfold goal; rewrite length_app, length_take, !length_drop; lia).
  assert (Hgb : byte_list goal).
  { apply Forall_app. split; [apply Forall_take, Forall_drop, Hs|apply Forall_drop, Hd]. }
  assert (Hinv : forall n, (n <= S offset_max - offset_min)%nat ->
    fold_left (fun d o => mbedtls_ct_memcpy_if_eq d (drop o src) len (Z.of_nat o) (Z.of_nat offset)) (seq offset_min n) dest =
    if (offset <? offset_min + n)%nat then goal else dest).
  { induction n as [|n IH]; intros Hn.
    - cbn [seq fold_left]. destruct (Nat.ltb_spec offset (offset_min + 0)); [lia|reflexivity].
    - rewrite seq_S, fold_left_app, IH by lia. cbn [fold_left].
      assert (Hs' : byte_list (drop (offset_min + n) src)) by apply Forall_drop, Hs.
      rewrite memcpy_if_eq_spec; try (destruct (offset <? offset_min + n)%nat; assumption || lia);
        try (unfold is_u64; lia); try (rewrite length_drop; lia).
      destruct (Z.eqb_spec (Z.of_nat (offset_min + n)) (Z.of_nat offset)),
        (Nat.ltb_spec offset (offset_min + n)), (Nat.ltb_spec offset (offset_min + S n)); try lia; try reflexivity.
      replace (offset_min + n)%nat with offset by lia. reflexivity. }
  rewrite Hinv by lia. destruct (Nat.ltb_spec offset (offset_min + (S offset_max - offset_min))); [reflexivity|lia].
Qed.

(** A pass leaves the buffer or shifts it by a byte. *)
Lemma uint_if_bit (c : bool) a b :
  is_u8 a -> is_u8 b -> mbedtls_ct_uint_if (if c then 1 else 0) a b = if c then a else b.
Proof.
  intros Ha Hb. rewrite ct_uint_if_spec by (destruct c; unfold is_u8, is_u32 in *; lia). destruct c; reflexivity.
Qed.

Lemma move_pass_spec (no_op : bool) buf :
  byte_list buf -> buf <> [] ->
  move_pass (if no_op then 1 else 0) (length buf) buf = if no_op then buf else drop 1 buf ++ [0].
Proof.
  intros Hb Hne. assert (Hpos : (0 < length buf)%nat) by (destruct buf; [congruence|cbn; lia]). unfold move_pass.
  set (turn := fun l n => <[n := mbedtls_ct_uint_if (if no_op then 1 else 0) l.[n] l.[n + 1]]> l).
  assert (Hloop : forall m, (m <= length buf - 1)%nat ->
    fold_left turn (seq 0 m) buf = if no_op then buf else take m (drop 1 buf) ++ drop m buf).
  { induction m as [|m IH]; intros Hm; [destruct no_op; reflexivity|].
    rewrite seq_S, fold_left_app, IH by lia. cbn [fold_left Nat.add]. unfold turn.
    assert (Hnth : forall l i, byte_list l -> is_u8 l.[i]).
    { intros l i Hl. destruct (Nat.lt_ge_cases i (length l)); [apply Forall_nth; assumption|].
      rewrite nth_overflow by lia. unfold is_u8. lia. }
    assert (Hlb : byte_list (if no_op then buf else take m (drop 1 buf) ++ drop m buf)).
    { destruct no_op; [exact Hb|]. apply Forall_app. split; [apply Forall_take, Forall_drop, Hb|apply Forall_drop, Hb]. }
    rewrite uint_if_bit by (apply Hnth, Hlb). destruct no_op.
    - apply list_insert_id. rewrite (nth_lookup buf m). destruct (lookup_lt_is_Some_2 buf m) as [x Hx]; [lia|].
      rewrite Hx. reflexivity.
    - assert (Ht : length (take m (drop 1 buf)) = m) by (rewrite length_take, length_drop; lia).
      rewrite insert_app_r_alt, app_nth2 by lia. rewrite Ht, Nat.sub_diag.
      replace (m + 1 - m)%nat with 1%nat by lia.
      destruct (lookup_lt_is_Some_2 buf m ltac:(lia)) as [x Hx].
      destruct (lookup_lt_is_Some_2 buf (S m) ltac:(lia)) as [y Hy].
      rewrite (drop_S buf x m Hx), (drop_S buf y (S m) Hy). cbn [insert list_insert nth].
      rewrite (take_S_r (drop 1 buf) m y) by (rewrite lookup_drop; exact Hy).
      rewrite <- app_assoc. reflexivity. }
  rewrite Hloop by lia. destruct no_op.
  - rewrite (uint_if_bit true) by (first [apply Forall_nth; [exact Hb|lia] | unfold is_u8; lia]).
    apply list_insert_id. rewrite (nth_lookup buf (length buf - 1)).
    destruct (lookup_lt_is_Some_2 buf (length buf - 1)) as [x Hx]; [lia|]. rewrite Hx. reflexivity.
  - assert (Ht : length (take (length buf - 1) (drop 1 buf)) = (length buf - 1)%nat) by (rewrite length_take, length_drop; lia).
    rewrite insert_app_r_alt by lia. rewrite Ht, Nat.sub_diag, take_ge by (rewrite length_drop; lia). f_equal.
    destruct (drop (length buf - 1) buf) as [|x [|y r]] eqn:Hd; apply (f_equal length) in Hd; rewrite length_drop in Hd;
      cbn in Hd; try lia. cbn [insert list_insert]. f_equal.
Qed.

Lemma mem_move_to_left_spec buf offset :
  byte_list buf -> (offset <= length buf)%nat -> Z.of_nat (length buf) < 2 ^ 63 ->
  mbedtls_ct_mem_move_to_left buf (length buf) offset = drop offset buf ++ zeros offset.
Proof.
  intros Hb Ho H63. change (2 ^ 63) with 9223372036854775808 in H63. unfold mbedtls_ct_mem_move_to_left.
  destruct (Nat.eqb_spec (length buf) 0) as [H0|H0].
  { destruct buf; [|discriminate]. cbn in Ho. assert (offset = 0%nat) as -> by lia. reflexivity. }
  rewrite u64_small by (unfold is_u64; lia). set (total := length buf) in *.
  assert (Hinv : forall n, (n <= total)%nat ->
    fold_left (fun b i => move_pass (mbedtls_ct_size_gt (Z.of_nat total - Z.of_nat offset) (Z.of_nat i)) total b) (seq 0 n) buf =
    drop (n - (total - offset)) buf ++ zeros (n - (total - offset))).
  { induction n as [|n IH]; intros Hn; [rewrite app_nil_r; reflexivity|].
    rewrite seq_S, fold_left_app, IH by lia. cbn [fold_left Nat.add].
    rewrite size_gt_spec by (unfold is_size; change (2 ^ 63) with 9223372036854775808; lia).
    set (k := (n - (total - offset))%nat). set (l := drop k buf ++ zeros k).
    assert (Hl : length l = total) by (unfold l; rewrite length_app, length_drop, zeros_length; lia).
    assert (Hpass : forall c : bool, move_pass (if c then 1 else 0) total l = if c then l else drop 1 l ++ [0]).
    { intros c. rewrite <- Hl. apply move_pass_spec; [|intros H; rewrite H in Hl; cbn in Hl; lia].
      apply Forall_app. split; [apply Forall_drop, Hb|apply zeros_bytes]. }
    rewrite Hpass. destruct (Z.ltb_spec (Z.of_nat n) (Z.of_nat total - Z.of_nat offset)).
    - replace (S n - (total - offset))%nat with k by lia. reflexivity.
    - replace (S n - (total - offset))%nat with (S k) by lia. unfold l.
      rewrite drop_app_le by (rewrite length_drop; lia). rewrite drop_drop, <- app_assoc. f_equal; [f_equal; lia|].
      unfold zeros. rewrite <- replicate_cons_app. reflexivity. }
  rewrite Hinv by lia. replace (total - (total - offset))%nat with offset by lia. reflexivity.
Qed.

(** ** Comparison of big numbers *)

(** The magnitude of limbs, the most significant first. *)
Definition magnitude (limbs : list Z) : Z := fold_left (fun m limb => m * 2 ^ 64 + limb) limbs 0.

Definition mpi_value (X : mbedtls_mpi) : Z := s X * magnitude (rev (p X)).

Definition mpi_wf (X : mbedtls_mpi) : Prop := (s X = 1 \/ s X = -1) /\ Forall is_u64 (p X).

Lemma magnitude_acc limbs a :
  fold_left (fun m limb => m * 2 ^ 64 + limb) limbs a = a * 2 ^ (64 * Z.of_nat (length limbs)) + magnitude limbs.
Proof.
  unfold magnitude. revert a. induction limbs as [|x limbs IH]; intros a; cbn [fold_left length].
  - rewrite Z.pow_0_r. lia.
  - rewrite IH, (IH (0 * 2 ^ 64 + x)). replace (64 * Z.of_nat (S (length limbs))) with (64 + 64 * Z.of_nat (length limbs)) by lia.
    rewrite Z.pow_add_r by lia. ring.
Qed.

Lemma magnitude_cons x limbs :
  magnitude (x :: limbs) = x * 2 ^ (64 * Z.of_nat (length limbs)) + magnitude limbs.
Proof. unfold magnitude at 1. cbn [fold_left]. rewrite magnitude_acc, Z.mul_0_l. reflexivity. Qed.

Lemma magnitude_range limbs : Forall is_u64 limbs -> 0 <= magnitude limbs < 2 ^ (64 * Z.of_nat (length limbs)).
Proof.
  induction 1 as [|x limbs Hx _ IH]; [cbn; lia|]. rewrite magnitude_cons. cbn [length].
  replace (64 * Z.of_nat (S (length limbs))) with (64 + 64 * Z.of_nat (length limbs)) by lia.
  rewrite Z.pow_add_r by lia. unfold is_u64 in Hx. change 18446744073709551616 with (2 ^ 64) in Hx. nia.
Qed.

(** Once the answer is known it stays. *)
Lemma lt_turns_done neg ret l :
  Forall (fun xy => is_u64 xy.1 /\ is_u64 xy.2) l ->
  fold_left (lt_turn neg) l (ret, 1) = (ret, 1).
Proof.
  induction 1 as [|[x y] l [Hx Hy] _ IH]; [reflexivity|]. cbn [fold_left lt_turn fst snd] in *.
  rewrite !mpi_uint_lt_spec by assumption. replace (Z.lor _ _) with ret at 1.
  - replace (Z.lor (Z.lor 1 _) _) with 1 by (destruct (y <? x), (x <? y); reflexivity). exact IH.
  - destruct (y <? x), (x <? y); cbn; rewrite ?Z.lor_0_r; reflexivity.
Qed.

(** Numbers of the same sign, limb by limb from the top. *)
Lemma lt_turns_same (neg : bool) l :
  Forall (fun xy => is_u64 xy.1 /\ is_u64 xy.2) l ->
  fst (fold_left (lt_turn (if neg then 1 else 0)) l (0, 0)) =
  if (if neg then magnitude l.*2 <? magnitude l.*1 else magnitude l.*1 <? magnitude l.*2) then 1 else 0.
Proof.
  induction 1 as [|[x y] l [Hx Hy] Hl IH]; [destruct neg; reflexivity|]. cbn [fst snd] in *.
  rewrite !fmap_cons, !magnitude_cons, !length_fmap. cbn [fold_left lt_turn fst snd].
  rewrite !mpi_uint_lt_spec by assumption.
  pose proof (magnitude_range l.*1) as H1. pose proof (magnitude_range l.*2) as H2. rewrite !length_fmap in *.
  specialize (H1 ltac:(apply Forall_fmap; eapply Forall_impl; [exact Hl|intros ? []; assumption])).
  specialize (H2 ltac:(apply Forall_fmap; eapply Forall_impl; [exact Hl|intros ? []; assumption])).
  set (B := 2 ^ (64 * Z.of_nat (length l))) in *. set (m1 := magnitude l.*1) in *. set (m2 := magnitude l.*2) in *.
  destruct (Z.ltb_spec y x), (Z.ltb_spec x y); try lia.
  - change (Z.lor (Z.lor 0 1) 0) with 1. destruct neg; cbn [Z.land Z.lor Z.sub Z.add Z.opp Pos.land Z.pos_sub];
      rewrite lt_turns_done by exact Hl; cbn [fst].
    + destruct (Z.ltb_spec (y * B + m2) (x * B + m1)); [reflexivity|nia].
    + destruct (Z.ltb_spec (x * B + m1) (y * B + m2)); [nia|reflexivity].
  - change (Z.lor (Z.lor 0 0) 1) with 1. destruct neg; cbn [Z.land Z.lor Z.sub Z.add Z.opp Pos.land Z.pos_sub];
      rewrite lt_turns_done by exact Hl; cbn [fst].
    + destruct (Z.ltb_spec (y * B + m2) (x * B + m1)); [nia|reflexivity].
    + destruct (Z.ltb_spec (x * B + m1) (y * B + m2)); [reflexivity|nia].
  - assert (x = y) as -> by lia. change (Z.lor (Z.lor 0 0) 0) with 0.
    replace (Z.lor _ _) with 0 by (destruct neg; reflexivity). rewrite IH.
    destruct neg; [destruct (Z.ltb_spec m2 m1), (Z.ltb_spec (y * B + m2) (y * B + m1))|
      destruct (Z.ltb_spec m1 m2), (Z.ltb_spec (y * B + m1) (y * B + m2))]; lia || reflexivity.
Qed.

(** The comparison of two numbers with as many limbs is that of their values. *)
Theorem mpi_lt_mpi_ct_spec X Y :
  mpi_wf X -> mpi_wf Y -> mpi_value X <> 0 \/ mpi_value Y <> 0 \/ s X = s Y -> length (p X) = length (p Y) ->
  mbedtls_mpi_lt_mpi_ct X Y = (0, Some (if mpi_value X <? mpi_value Y then 1 else 0)).
Proof.
  intros [HsX HX] [HsY HY] Hz Hl. unfold mbedtls_mpi_lt_mpi_ct. rewrite Hl, Nat.eqb_refl. cbn [negb].
  assert (Hpairs : Forall (fun xy => is_u64 xy.1 /\ is_u64 xy.2) (rev (zip (p X) (p Y)))).
  { apply Forall_rev, Forall_forall. intros [x y] Hxy. rewrite Forall_forall in HX, HY.
    split; [apply HX; exact (elem_of_zip_l _ _ _ _ Hxy)|apply HY; exact (elem_of_zip_r _ _ _ _ Hxy)]. }
  assert (Hfst : (rev (zip (p X) (p Y))).*1 = rev (p X) /\ (rev (zip (p X) (p Y))).*2 = rev (p Y)).
  { change ((rev (zip (p X) (p Y))).*1) with (map fst (rev (zip (p X) (p Y)))).
    change ((rev (zip (p X) (p Y))).*2) with (map snd (rev (zip (p X) (p Y)))).
    rewrite !map_rev. split; f_equal; [apply fst_zip|apply snd_zip]; lia. }
  pose proof (magnitude_range (rev (p X)) ltac:(apply Forall_rev, HX)) as H1.
  pose proof (magnitude_range (rev (p Y)) ltac:(apply Forall_rev, HY)) as H2.
  unfold mpi_value in *. set (l := rev (zip (p X) (p Y))) in *.
  pose proof (lt_turns_same false l Hpairs) as Hpos. pose proof (lt_turns_same true l Hpairs) as Hneg.
  destruct Hfst as [Hf1 Hf2]. rewrite Hf1, Hf2 in Hpos, Hneg.
  destruct HsX as [E1|E1], HsY as [E2|E2]; rewrite E1, E2 in *; clear E1 E2.
  - change (Z.shiftr (Z.land 1 2) 1) with 0. change (Z.land (Z.lxor 0 0) 0) with 0. change (Z.lxor 0 0) with 0.
    destruct (fold_left (lt_turn 0) _ _) as [r d]. cbn [fst] in Hpos. subst r.
    rewrite !Z.mul_1_l. reflexivity.
  - change (Z.shiftr (Z.land 1 2) 1) with 0. change (Z.shiftr (Z.land (-1) 2) 1) with 1.
    change (Z.land (Z.lxor 0 1) 0) with 0. change (Z.lxor 0 1) with 1.
    rewrite lt_turns_done by exact Hpairs. do 2 f_equal.
    destruct (Z.ltb_spec (1 * magnitude (rev (p X))) (-1 * magnitude (rev (p Y)))); [lia|reflexivity].
  - change (Z.shiftr (Z.land 1 2) 1) with 0. change (Z.shiftr (Z.land (-1) 2) 1) with 1.
    change (Z.land (Z.lxor 1 0) 1) with 1. change (Z.lxor 1 0) with 1.
    rewrite lt_turns_done by exact Hpairs. do 2 f_equal.
    destruct (Z.ltb_spec (-1 * magnitude (rev (p X))) (1 * magnitude (rev (p Y)))); [reflexivity|lia].
  - change (Z.shiftr (Z.land (-1) 2) 1) with 1. change (Z.land (Z.lxor 1 1) 1) with 0. change (Z.lxor 1 1) with 0.
    destruct (fold_left (lt_turn 1) _ _) as [r d]. cbn [fst] in Hneg.
    subst r. do 2 f_equal. destruct (Z.ltb_spec (magnitude (rev (p Y))) (magnitude (rev (p X)))),
      (Z.ltb_spec (-1 * magnitude (rev (p X))) (-1 * magnitude (rev (p Y)))); lia || reflexivity.
Qed.

(** ** PKCS#1 v1.5 *)

(** RFC 8017: 00, the block type, the padding string, 00 and the message. *)
Definition block_type (mode : Z) : Z := if mode =? MBEDTLS_RSA_PRIVATE then 2 else 1.
Definition pkcs1_v15 (mode : Z) (PS M : list Z) : list Z := [0; block_type mode] ++ PS ++ 0 :: M.

Definition padding_byte (mode b : Z) : Prop := if mode =? MBEDTLS_RSA_PRIVATE then b <> 0 else b = 255.
Definition padding_string (mode : Z) (PS : list Z) : Prop := (8 <= length PS)%nat /\ Forall (padding_byte mode) PS.

Lemma lor_u32 a b : is_u32 a -> is_u32 b -> is_u32 (Z.lor a b).
Proof.
  intros Ha Hb. assert (0 <= Z.lor a b) by (apply Z.lor_nonneg; unfold is_u32 in *; lia).
  split; [assumption|]. destruct (decide (Z.lor a b = 0)); [lia|].
  assert (Hlog : forall z, is_u32 z -> Z.log2 z < 32).
  { intros z Hz. destruct (decide (z <= 0)); [rewrite Z.log2_nonpos; lia|]. apply Z.log2_lt_pow2; [lia|apply Hz]. }
  change 4294967296 with (2 ^ 32). apply Z.log2_lt_pow2; [lia|].
  rewrite Z.log2_lor by (unfold is_u32 in *; lia). pose proof (Hlog a Ha). pose proof (Hlog b Hb). lia.
Qed.

Lemma is_zero_byte_spec b : is_u8 b -> is_zero_byte b = if b =? 0 then 1 else 0.
Proof.
  intros Hb. assert (H : forallb (fun i => is_zero_byte (Z.of_nat i) =? (if Z.of_nat i =? 0 then 1 else 0)) (seq 0 256) = true)
    by (vm_compute; reflexivity).
  rewrite forallb_forall in H. specialize (H (Z.to_nat b) ltac:(apply in_seq; unfold is_u8 in Hb; lia)).
  rewrite Z2Nat.id in H by apply Hb. apply Z.eqb_eq, H.
Qed.

Lemma size_u64 n : is_size n -> is_u64 n.
Proof. unfold is_size, is_u64. change (2 ^ 63) with 9223372036854775808. lia. Qed.

Lemma size_succ n : is_size n -> is_u64 (n + 1).
Proof. unfold is_size, is_u64. change (2 ^ 63) with 9223372036854775808. lia. Qed.

Section scan.
Context (mode : Z).

Lemma uint_if_01 b : is_u8 b -> mbedtls_ct_uint_if b 0 1 = if b =? 0 then 1 else 0.
Proof. intros Hb. apply ct_uint_if_spec; unfold is_u8, is_u32 in *; lia. Qed.

Lemma turn_nonzero bad n b :
  is_u8 b -> b <> 0 -> is_u32 bad -> is_size n ->
  exists bad', padding_turn mode (bad, 0, n) b = (bad', 0, n + 1) /\ is_u32 bad' /\ (bad' = 0 <-> bad = 0 /\ padding_byte mode b).
Proof.
  intros Hb Hne Hbad Hn. unfold padding_byte. assert (Hn' : u64 (n + 1) = n + 1) by (apply u64_small, size_succ; assumption).
  unfold padding_turn. destruct (mode =? MBEDTLS_RSA_PRIVATE); cbn [private_turn public_turn].
  - rewrite is_zero_byte_spec by exact Hb. destruct (Z.eqb_spec b 0); [contradiction|].
    change (is_zero_byte (Z.lor 0 0)) with 1. rewrite Hn'. exists bad. tauto.
  - rewrite uint_if_01 by exact Hb. destruct (Z.eqb_spec b 0); [contradiction|].
    change (Z.lor 0 0) with 0. change (mbedtls_ct_uint_if 0 0 1) with 1. rewrite Hn'.
    pose proof (lxor_u8 b 255 Hb ltac:(unfold is_u8; lia)) as Hx.
    rewrite ct_uint_if_spec by (unfold is_u8, is_u32 in *; lia). cbn [Z.eqb].
    eexists. split; [reflexivity|]. split; [apply lor_u32; unfold is_u8, is_u32 in *; lia|].
    rewrite Z.lor_eq_0_iff, Z.lxor_eq_0_iff. reflexivity.
Qed.

Lemma turn_zero bad n : is_u32 bad -> is_size n -> padding_turn mode (bad, 0, n) 0 = (bad, 1, n).
Proof.
  intros Hbad Hn. assert (Hn' : u64 (n + 0) = n) by (rewrite Z.add_0_r; apply u64_small, size_u64; assumption).
  unfold padding_turn. destruct (mode =? MBEDTLS_RSA_PRIVATE); cbn [private_turn public_turn].
  - change (is_zero_byte (Z.lor 0 (is_zero_byte 0))) with 0. rewrite Hn'. reflexivity.
  - change (mbedtls_ct_uint_if (Z.lor 0 (mbedtls_ct_uint_if 0 0 1)) 0 ?x) with (mbedtls_ct_uint_if 1 0 x).
    change (Z.lor 0 (mbedtls_ct_uint_if 0 0 1)) with 1. change (mbedtls_ct_uint_if 1 0 1) with 0.
    change (mbedtls_ct_uint_if 1 0 (Z.lxor 0 255)) with 0. rewrite Hn', Z.lor_0_r. reflexivity.
Qed.

Lemma turn_done bad n b : is_u8 b -> is_u32 bad -> is_size n -> padding_turn mode (bad, 1, n) b = (bad, 1, n).
Proof.
  intros Hb Hbad Hn. assert (Hn' : u64 (n + 0) = n) by (rewrite Z.add_0_r; apply u64_small, size_u64; assumption).
  assert (H1 : forall c : bool, Z.lor 1 (if c then 1 else 0) = 1) by (intros []; reflexivity).
  unfold padding_turn. destruct (mode =? MBEDTLS_RSA_PRIVATE); cbn [private_turn public_turn].
  - rewrite is_zero_byte_spec, H1 by exact Hb. change (is_zero_byte 1) with 0. rewrite Hn'. reflexivity.
  - pose proof (lxor_u8 b 255 Hb ltac:(unfold is_u8; lia)) as Hx.
    rewrite uint_if_01, H1 by exact Hb. change (mbedtls_ct_uint_if 1 0 1) with 0.
    rewrite ct_uint_if_spec by (unfold is_u8, is_u32 in *; lia). cbn [Z.eqb]. rewrite Hn', Z.lor_0_r. reflexivity.
Qed.

Lemma scan_done l bad n :
  byte_list l -> is_u32 bad -> is_size n -> fold_left (padding_turn mode) l (bad, 1, n) = (bad, 1, n).
Proof. intros Hl Hbad Hn. induction Hl as [|b l Hb _ IH]; [reflexivity|]. cbn [fold_left]. rewrite turn_done; auto. Qed.

Lemma scan_nonzero l bad n :
  byte_list l -> Forall (fun b => b <> 0) l -> is_u32 bad -> 0 <= n -> is_size (n + Z.of_nat (length l)) ->
  exists bad', fold_left (padding_turn mode) l (bad, 0, n) = (bad', 0, n + Z.of_nat (length l)) /\ is_u32 bad' /\
    (bad' = 0 <-> bad = 0 /\ Forall (padding_byte mode) l).
Proof.
  intros Hl Hnz. revert bad n. induction Hl as [|b l Hb Hl IH]; intros bad n Hbad Hn Hlen; cbn [fold_left length] in *.
  - exists bad. rewrite Z.add_0_r. split; [reflexivity|]. split; [exact Hbad|]. split; [auto|tauto].
  - inversion Hnz as [|? ? Hne Hnz']; subst.
    destruct (turn_nonzero bad n b Hb Hne Hbad ltac:(unfold is_size in *; lia)) as (bad1 & -> & Hbad1 & Hiff1).
    destruct (IH Hnz' bad1 (n + 1) Hbad1 ltac:(lia) ltac:(unfold is_size in *; lia)) as (bad2 & -> & Hbad2 & Hiff2).
    exists bad2. split; [f_equal; lia|]. split; [exact Hbad2|]. rewrite Hiff2, Hiff1, Forall_cons. tauto.
Qed.

End scan.

(** The room for the message, and the buffers the function is called with. *)
Definition room (input : list Z) (output_max_len : nat) : nat := Nat.min (length input - 11) output_max_len.

Definition rsa_buffer (input : list Z) : Prop :=
  byte_list input /\ (11 <= length input)%nat /\ Z.of_nat (length input) < 2 ^ 32.

Lemma plaintext_max_size input output_max_len :
  (if (length input - 11 <? output_max_len)%nat then (length input - 11)%nat else output_max_len) =
  room input output_max_len.
Proof. unfold room. destruct (Nat.ltb_spec (length input - 11) output_max_len); lia. Qed.

(** The bytes moved to the front: the last [k] of the buffer when it is kept, zeros
    when it is erased. *)
Lemma moved_spec input output_max_len (kept : bool) k :
  rsa_buffer input -> (k <= room input output_max_len)%nat ->
  let mx := room input output_max_len in
  mbedtls_ct_mem_move_to_left
    (drop (length input - mx) (take 11 input ++ map (fun b => Z.land b (u32 (Z.lnot (if kept then 0 else 4294967295)))) (drop 11 input)))
    mx (mx - k) =
  if kept then drop (length input - k) input ++ zeros (mx - k) else zeros mx.
Proof.
  intros (Hb & Hl & H32) Hk. cbv zeta. change (2 ^ 32) with 4294967296 in H32. set (mx := room input output_max_len) in *.
  assert (Hmx : (mx <= length input - 11)%nat) by (unfold mx, room; lia).
  assert (Hmap : map (fun b => Z.land b (u32 (Z.lnot (if kept then 0 else 4294967295)))) (drop 11 input) =
                 if kept then drop 11 input else zeros (length input - 11)).
  { rewrite <- length_drop. pose proof (Forall_drop _ 11 _ Hb) as Hd. generalize dependent (drop 11 input). clear. intros l Hl.
    destruct kept.
    - induction Hl as [|b l H _ IH]; [reflexivity|]. cbn [map]. rewrite IH. f_equal.
      change (u32 (Z.lnot 0)) with (Z.ones 32). rewrite Z.land_ones by lia. apply u32_small. unfold is_u8, is_u32 in *. lia.
    - induction Hl as [|b l H _ IH]; [reflexivity|]. cbn [map length]. rewrite IH.
      change (u32 (Z.lnot 4294967295)) with 0. rewrite Z.land_0_r. reflexivity. }
  rewrite Hmap. destruct kept.
  - rewrite take_drop. set (w := drop (length input - mx) input).
    assert (Hw : length w = mx) by (unfold w; rewrite length_drop; lia). rewrite <- Hw at 1.
    rewrite mem_move_to_left_spec; [|apply Forall_drop, Hb|lia|rewrite Hw; change (2 ^ 63) with 9223372036854775808; lia].
    unfold w. rewrite drop_drop. do 2 f_equal. lia.
  - assert (Hw : drop (length input - mx) (take 11 input ++ zeros (length input - 11)) = zeros mx).
    { rewrite drop_app_ge by (rewrite length_take; lia). rewrite length_take. unfold zeros. rewrite drop_replicate. f_equal. lia. }
    rewrite Hw. rewrite <- (zeros_length mx) at 2.
    rewrite mem_move_to_left_spec; [|apply zeros_bytes|rewrite zeros_length; lia|rewrite zeros_length; change (2 ^ 63) with 9223372036854775808; lia].
    unfold zeros. rewrite drop_replicate, <- replicate_add. f_equal. lia.
Qed.

Lemma no_room input output_max_len (l : list Z) :
  length l = room input output_max_len -> (if (output_max_len =? 0)%nat then [] else l) = l.
Proof.
  unfold room. intros H. destruct (Nat.eqb_spec output_max_len 0); [|reflexivity].
  destruct l; [reflexivity|cbn in H; lia].
Qed.

Lemma finish_bad input output_max_len bad pad_count :
  rsa_buffer input -> is_u32 bad -> bad <> 0 ->
  let mx := room input output_max_len in
  unpad_finish input output_max_len bad pad_count = (MBEDTLS_ERR_RSA_INVALID_PADDING, zeros mx, Z.of_nat mx).
Proof.
  intros Hbuf Hbad Hne. cbv zeta. unfold unpad_finish. rewrite plaintext_max_size. set (mx := room input output_max_len).
  assert (Hmx : Z.of_nat mx < 2 ^ 32) by (unfold mx, room; destruct Hbuf as (_ & _ & H); lia).
  change (2 ^ 32) with 4294967296 in Hmx. rewrite !(u32_small (Z.of_nat mx)) by (unfold is_u32; lia).
  rewrite (ct_uint_if_spec bad (Z.of_nat mx)) by (first [apply u32_range|unfold is_u32; lia|exact Hbad]).
  destruct (Z.eqb_spec bad 0); [contradiction|].
  rewrite size_gt_spec by (unfold is_size; change (2 ^ 63) with 9223372036854775808; lia). rewrite Z.ltb_irrefl.
  rewrite Z.lor_0_r, ct_uint_mask_spec by exact Hbad. destruct (Z.eqb_spec bad 0); [contradiction|].
  rewrite !(ct_uint_if_spec 0) by (unfold is_u32, MBEDTLS_ERR_RSA_OUTPUT_TOO_LARGE; lia). cbn [Z.eqb]. rewrite Nat2Z.id.
  pose proof (moved_spec input output_max_len false mx Hbuf (Nat.le_refl _)) as Hm.
  cbv zeta in Hm. fold mx in Hm. rewrite Hm.
  rewrite (no_room input) by (apply zeros_length).
  rewrite ct_uint_if_spec by (first [exact Hbad|unfold is_u32, MBEDTLS_ERR_RSA_INVALID_PADDING; lia]).
  destruct (Z.eqb_spec bad 0); [contradiction|reflexivity].
Qed.

Lemma finish_good input output_max_len pad_count :
  rsa_buffer input -> (8 <= pad_count)%nat -> (pad_count + 3 <= length input)%nat ->
  let mx := room input output_max_len in
  let k := (length input - pad_count - 3)%nat in
  unpad_finish input output_max_len 0 (Z.of_nat pad_count) =
  if (k <=? mx)%nat then (0, drop (length input - k) input ++ zeros (mx - k), Z.of_nat k)
  else (MBEDTLS_ERR_RSA_OUTPUT_TOO_LARGE, zeros mx, Z.of_nat mx).
Proof.
  intros Hbuf Hc Hl. cbv zeta. unfold unpad_finish. rewrite plaintext_max_size. set (mx := room input output_max_len).
  set (k := (length input - pad_count - 3)%nat). pose proof Hbuf as (_ & _ & H32). change (2 ^ 32) with 4294967296 in H32.
  assert (Hmx : Z.of_nat mx < 4294967296) by (unfold mx, room; lia).
  assert (Hk : u32 (u64 (Z.of_nat (length input) - Z.of_nat pad_count - 3)) = Z.of_nat k).
  { rewrite u64_small, u32_small by (unfold is_u64, is_u32; lia). lia. }
  rewrite Hk, !(u32_small (Z.of_nat mx)), (ct_uint_if_spec 0 (Z.of_nat mx) (Z.of_nat k)) by (unfold is_u32; lia). cbn [Z.eqb].
  rewrite size_gt_spec by (unfold is_size; change (2 ^ 63) with 9223372036854775808; lia).
  destruct (Nat.leb_spec k mx), (Z.ltb_spec (Z.of_nat mx) (Z.of_nat k)); try lia.
  - change (mbedtls_ct_uint_if 0 (- MBEDTLS_ERR_RSA_INVALID_PADDING) _) with 0.
    rewrite (ct_uint_if_spec 0) by (unfold is_u32; lia). cbn [Z.eqb Z.opp Z.lor]. rewrite Nat2Z.id.
    change (mbedtls_ct_uint_mask (Z.lor 0 0)) with 0. pose proof (moved_spec input output_max_len true k Hbuf ltac:(assumption)) as Hm.
    cbv zeta in Hm. fold mx in Hm. rewrite Hm, (no_room input); [reflexivity|].
    rewrite length_app, length_drop, zeros_length. fold mx. lia.
  - change (mbedtls_ct_uint_if 0 (- MBEDTLS_ERR_RSA_INVALID_PADDING) _) with (- MBEDTLS_ERR_RSA_OUTPUT_TOO_LARGE).
    rewrite (ct_uint_if_spec 1) by (unfold is_u32; lia). cbn [Z.eqb Z.lor]. rewrite Nat2Z.id.
    change (mbedtls_ct_uint_mask (Z.lor 0 1)) with 4294967295.
    pose proof (moved_spec input output_max_len false mx Hbuf (Nat.le_refl _)) as Hm.
  cbv zeta in Hm. fold mx in Hm. rewrite Hm.
    rewrite (no_room input) by (apply zeros_length). reflexivity.
Qed.

Lemma padding_nonzero mode PS : Forall (padding_byte mode) PS -> Forall (fun b => b <> 0) PS.
Proof.
  intros H. eapply Forall_impl; [exact H|]. intros b Hb. unfold padding_byte in Hb.
  destruct (mode =? MBEDTLS_RSA_PRIVATE); lia.
Qed.

(** Bytes up to the first zero, if there is one. *)
Lemma first_zero (l : list Z) :
  Forall (fun b => b <> 0) l \/ exists PS M, l = PS ++ 0 :: M /\ Forall (fun b => b <> 0) PS.
Proof.
  induction l as [|b l IH]; [left; constructor|]. destruct (decide (b = 0)) as [->|Hne].
  - right. exists [], l. split; [reflexivity|constructor].
  - destruct IH as [H|(PS & M & -> & H)]; [left; constructor; auto|]. right. exists (b :: PS), M.
    split; [reflexivity|constructor; auto].
Qed.

Lemma header_bad mode b0 b1 :
  is_u8 b0 -> is_u8 b1 ->
  is_u32 (Z.lor b0 (Z.lxor b1 (block_type mode))) /\
  (Z.lor b0 (Z.lxor b1 (block_type mode)) = 0 <-> b0 = 0 /\ b1 = block_type mode).
Proof.
  intros H0 H1. assert (Ht : is_u8 (block_type mode)) by (unfold block_type, is_u8; destruct (mode =? MBEDTLS_RSA_PRIVATE); lia).
  pose proof (lxor_u8 b1 _ H1 Ht) as Hx. split; [apply lor_u32; unfold is_u8, is_u32 in *; lia|].
  rewrite Z.lor_eq_0_iff, Z.lxor_eq_0_iff. reflexivity.
Qed.

Lemma unpadding_at_zero mode b0 b1 PS M output_max_len :
  let input := b0 :: b1 :: PS ++ 0 :: M in
  rsa_buffer input -> Forall (fun b => b <> 0) PS ->
  exists bad, mbedtls_ct_rsaes_pkcs1_v15_unpadding mode input output_max_len =
    unpad_finish input output_max_len bad (Z.of_nat (length PS)) /\ is_u32 bad /\
    (bad = 0 <-> b0 = 0 /\ b1 = block_type mode /\ padding_string mode PS).
Proof.
  cbv zeta. intros (Hb & Hl & H32) Hnz. change (2 ^ 32) with 4294967296 in H32. cbn [length] in Hl, H32.
  rewrite length_app in Hl, H32. cbn [length] in Hl, H32.
  inversion Hb as [|? ? Hb0 Hb']; subst. inversion Hb' as [|? ? Hb1 Hb'']; subst.
  apply Forall_app in Hb'' as [HPS HM]. inversion HM as [|? ? _ HM']; subst.
  destruct (header_bad mode b0 b1 Hb0 Hb1) as [Hh Hhiff].
  assert (Hsize : forall n, (n <= length PS + 8)%nat -> is_size (Z.of_nat n)).
  { intros n Hn. unfold is_size. change (2 ^ 63) with 9223372036854775808. lia. }
  destruct (scan_nonzero mode PS _ 0 HPS Hnz Hh ltac:(lia) ltac:(apply (Hsize (length PS)); lia)) as (bad & Hs & Hbad & Hiff).
  assert (Hscan : scan_padding mode (b0 :: b1 :: PS ++ 0 :: M) = (bad, 1, Z.of_nat (length PS))).
  { unfold scan_padding. change (drop 2 (b0 :: b1 :: ?l)) with l. cbn [nth]. rewrite fold_left_app. cbn [fold_left].
    unfold MBEDTLS_RSA_CRYPT, MBEDTLS_RSA_SIGN. fold (block_type mode). rewrite Hs.
    rewrite turn_zero, scan_done by (auto; apply (Hsize (length PS)); lia). reflexivity. }
  unfold mbedtls_ct_rsaes_pkcs1_v15_unpadding. rewrite Hscan. change (mbedtls_ct_uint_if 1 0 1) with 0. rewrite Z.lor_0_r.
  eexists. split; [reflexivity|].
  rewrite size_gt_spec by (apply (Hsize 8%nat) || apply Hsize; lia).
  split; [apply lor_u32; [exact Hbad|destruct (Z.of_nat (length PS) <? 8); unfold is_u32; lia]|].
  rewrite Z.lor_eq_0_iff, Hiff, Hhiff. unfold padding_string. destruct (Z.ltb_spec (Z.of_nat (length PS)) 8).
  - split; [intros [_ H1]; discriminate H1|intros (_ & _ & H1 & _); lia].
  - split; [intros [[[H0 H1] H2] _]; repeat split; auto; lia|tauto].
Qed.

(** C28. The message is unpadded exactly when the buffer is a PKCS#1 v1.5 encoding that
    fits; otherwise the error says which, and the output is zeros: nothing of the
    buffer is given away. *)
Theorem pkcs1_unpadding_spec mode input output_max_len :
  rsa_buffer input ->
  let mx := room input output_max_len in
  (forall PS M, input = pkcs1_v15 mode PS M -> padding_string mode PS ->
     mbedtls_ct_rsaes_pkcs1_v15_unpadding mode input output_max_len =
     if (length M <=? mx)%nat then (0, M ++ zeros (mx - length M), Z.of_nat (length M))
     else (MBEDTLS_ERR_RSA_OUTPUT_TOO_LARGE, zeros mx, Z.of_nat mx)) /\
  (~ (exists PS M, input = pkcs1_v15 mode PS M /\ padding_string mode PS) ->
     mbedtls_ct_rsaes_pkcs1_v15_unpadding mode input output_max_len =
     (MBEDTLS_ERR_RSA_INVALID_PADDING, zeros mx, Z.of_nat mx)).
Proof.
  intros Hbuf mx. split.
  - intros PS M -> HPS. unfold pkcs1_v15 in *. cbn [app] in *.
    destruct (unpadding_at_zero mode _ _ PS M output_max_len Hbuf (padding_nonzero _ _ (proj2 HPS))) as (bad & -> & _ & Hiff).
    rewrite (proj2 Hiff) by auto. unfold mx. clear mx. set (input := 0 :: block_type mode :: PS ++ 0 :: M) in *.
    assert (Hil : length input = (length PS + 3 + length M)%nat) by (unfold input; cbn [length]; rewrite length_app; cbn; lia).
    rewrite finish_good by (try exact Hbuf; try apply HPS; lia). cbv zeta.
    replace (length input - length PS - 3)%nat with (length M) by lia. destruct (length M <=? _)%nat; [|reflexivity].
    do 3 f_equal. replace (length input - length M)%nat with (length (0 :: block_type mode :: PS ++ [0])).
    + unfold input. replace (0 :: block_type mode :: PS ++ 0 :: M) with ((0 :: block_type mode :: PS ++ [0]) ++ M)
        by (cbn; rewrite <- app_assoc; reflexivity). apply drop_app_length.
    + rewrite Hil. cbn [length]. rewrite length_app. cbn [length]. lia.
  - intros Hno. destruct input as [|b0 [|b1 l]]; [destruct Hbuf as (_ & H & _); cbn in H; lia..|].
    destruct (first_zero l) as [Hnz|(PS & M & -> & Hnz)].
    + pose proof Hbuf as (Hb & Hl & H32). inversion Hb as [|? ? Hb0 Hb']; subst. inversion Hb' as [|? ? Hb1 Hb'']; subst.
      destruct (header_bad mode b0 b1 Hb0 Hb1) as [Hh _]. cbn [length] in H32. change (2 ^ 32) with 4294967296 in H32.
      destruct (scan_nonzero mode l _ 0 Hb'' Hnz Hh ltac:(lia)
        ltac:(unfold is_size; change (2 ^ 63) with 9223372036854775808; lia)) as (bad & Hs & Hbad & _).
      unfold mbedtls_ct_rsaes_pkcs1_v15_unpadding, scan_padding.
      change (drop 2 (b0 :: b1 :: ?l)) with l. cbn [nth].
      unfold MBEDTLS_RSA_CRYPT, MBEDTLS_RSA_SIGN. fold (block_type mode). rewrite Hs.
      change (mbedtls_ct_uint_if 0 0 1) with 1. apply finish_bad; [exact Hbuf| |].
      * apply lor_u32; [apply lor_u32; [exact Hbad|unfold is_u32; lia]|apply u32_range].
      * rewrite !Z.lor_eq_0_iff. intros [[_ H] _]. discriminate H.
    + destruct (unpadding_at_zero mode b0 b1 PS M output_max_len Hbuf Hnz) as (bad & -> & Hbad & Hiff).
      apply finish_bad; [exact Hbuf|exact Hbad|]. intros H0. apply Hiff in H0 as (-> & -> & HPS). apply Hno.
      exists PS, M. split; [reflexivity|exact HPS].
Qed.

Lemma pkcs1_unpadding_spec_witness :
  let input := pkcs1_v15 MBEDTLS_RSA_PRIVATE (repeat 7 8) [104; 105] in
  mbedtls_ct_rsaes_pkcs1_v15_unpadding MBEDTLS_RSA_PRIVATE input 2 = (0, [104; 105], 2).
Proof.
  assert (Hbuf : rsa_buffer (pkcs1_v15 MBEDTLS_RSA_PRIVATE (repeat 7 8) [104; 105])).
  { split; [|split; [apply Nat.leb_le; reflexivity|reflexivity]].
    repeat (constructor; [vm_compute; intuition discriminate|]). constructor. }
  destruct (pkcs1_unpadding_spec MBEDTLS_RSA_PRIVATE _ 2 Hbuf) as [H _].
  apply (H (repeat 7 8) [104; 105] eq_refl).
  split; [apply Nat.leb_le; reflexivity|]. repeat (constructor; [discriminate|]). constructor.
Defined.

(** ** Conditional copy and swap of big numbers *)

Lemma pick_limb (c : Z) a b :
  c = 0 \/ c = 1 -> is_u64 a -> is_u64 b ->
  Z.lor (Z.land a (u64 (Z.lnot (u64 (- c))))) (Z.land b (u64 (- c))) = if c =? 1 then b else a.
Proof.
  intros [-> | ->] Ha Hb.
  - replace (u64 (- 0)) with 0 by reflexivity. replace (u64 (Z.lnot 0)) with (Z.ones 64) by reflexivity.
    rewrite Z.land_0_r, Z.lor_0_r, Z.land_ones by lia. apply u64_small, Ha.
  - replace (u64 (- (1))) with (Z.ones 64) by reflexivity. replace (u64 (Z.lnot (Z.ones 64))) with 0 by reflexivity.
    rewrite Z.land_0_r, Z.lor_0_l, Z.land_ones by lia. apply u64_small, Hb.
Qed.

Lemma limb_mask_spec c : c = 0 \/ c = 1 -> mbedtls_ct_mpi_uint_mask c = u64 (- c).
Proof. intros [-> | ->]; reflexivity. Qed.

Lemma pick_limbs (c : Z) xs ys :
  c = 0 \/ c = 1 -> Forall is_u64 xs -> Forall is_u64 ys -> length xs = length ys ->
  zip_with (fun a b => Z.lor (Z.land a (u64 (Z.lnot (u64 (- c))))) (Z.land b (u64 (- c)))) xs ys =
  if c =? 1 then ys else xs.
Proof.
  intros Hc Hx. revert ys. induction Hx as [|x xs Hxu _ IH]; intros ys Hy Hl; destruct ys as [|y ys]; try discriminate Hl.
  - destruct (c =? 1); reflexivity.
  - inversion Hy as [|? ? Hyu Hys]; subst. injection Hl as Hl. cbn [zip_with].
    rewrite pick_limb, IH by assumption. destruct (c =? 1); reflexivity.
Qed.

Lemma cond_assign_spec n dest src c :
  c = 0 \/ c = 1 -> Forall is_u64 dest -> Forall is_u64 src -> (n <= length dest)%nat -> (n <= length src)%nat ->
  mbedtls_ct_mpi_uint_cond_assign n dest src c = (if c =? 1 then take n src else take n dest) ++ drop n dest.
Proof.
  intros Hc Hd Hs H1 H2. unfold mbedtls_ct_mpi_uint_cond_assign. f_equal.
  rewrite <- (pick_limbs c (take n dest) (take n src)) by (auto using Forall_take; rewrite !length_take; lia).
  rewrite <- zip_with_flip. unfold flip. apply zip_with_ext; [|reflexivity|reflexivity].
  intros a b. apply Z.lor_comm.
Qed.

Lemma pick_sign (c : Z) a b :
  c = 0 \/ c = 1 -> (a = 1 \/ a = -1) -> (b = 1 \/ b = -1) ->
  int_of (mbedtls_ct_uint_if c (u32 b) (u32 a)) = if c =? 1 then b else a.
Proof. intros [-> | ->] [-> | ->] [-> | ->]; reflexivity. Qed.

Lemma magnitude_zeros k limbs : magnitude (zeros k ++ limbs) = magnitude limbs.
Proof.
  induction k as [|k IH]; [reflexivity|]. change (zeros (S k) ++ limbs) with (0 :: (zeros k ++ limbs)).
  rewrite magnitude_cons, IH. lia.
Qed.

(** High limbs that are zero change nothing. *)
Lemma value_grown sg limbs k : mpi_value {| s := sg; p := limbs ++ zeros k |} = mpi_value {| s := sg; p := limbs |}.
Proof.
  unfold mpi_value. cbn [s p]. rewrite rev_app_distr. f_equal.
  replace (rev (zeros k)) with (zeros k); [apply magnitude_zeros|].
  symmetry. unfold zeros. rewrite rev_alt. apply reverse_replicate.
Qed.

Lemma zeros_limbs k : Forall is_u64 (zeros k).
Proof. apply Forall_replicate. unfold is_u64. lia. Qed.

Section safe_laws.
Context (grow : mbedtls_mpi -> nat -> Z * mbedtls_mpi).

(** What bignum.h says of [mbedtls_mpi_grow]: at least that many limbs, the number
    unchanged, or an error. *)
Definition grows : Prop := forall X n, let '(ret, X') := grow X n in
  ret = 0 -> s X' = s X /\ p X' = p X ++ zeros (n - length (p X)).

Context (Hgrow : grows).

Lemma grown X n X' :
  grow X n = (0, X') -> mpi_wf X ->
  s X' = s X /\ p X' = p X ++ zeros (n - length (p X)) /\ mpi_wf X' /\ mpi_value X' = mpi_value X.
Proof.
  intros Hg [Hs Hp]. pose proof (Hgrow X n) as H. rewrite Hg in H. destruct (H eq_refl) as [Es Ep].
  split; [exact Es|]. split; [exact Ep|]. split.
  - split; [rewrite Es; exact Hs|rewrite Ep; apply Forall_app; split; [exact Hp|apply zeros_limbs]].
  - destruct X as [sx px], X' as [sx' px']. cbn [s p] in *. subst. apply value_grown.
Qed.

(** The copy: [X] becomes the number of [Y], or stays as it was. *)
Lemma safe_cond_assign_spec X Y assign :
  mpi_wf X -> mpi_wf Y -> assign = 0 \/ assign = 1 ->
  let '(ret, X') := mbedtls_mpi_safe_cond_assign grow X Y assign in
  ret = 0 -> mpi_wf X' /\ mpi_value X' = if assign =? 1 then mpi_value Y else mpi_value X.
Proof.
  intros HX [HsY HpY] Hc. unfold mbedtls_mpi_safe_cond_assign. destruct (grow X (length (p Y))) as [ret X1] eqn:Hg.
  destruct (Z.eqb_spec ret 0) as [-> |Hne]; cbn [negb]; [|intros H; destruct (Hne H)]. intros _.
  destruct (grown _ _ _ Hg HX) as (_ & Hp1 & [Hs1 Hw1] & <-).
  assert (Hl : (length (p Y) <= length (p X1))%nat) by (rewrite Hp1, length_app, zeros_length; lia).
  rewrite pick_sign, limb_mask_spec, cond_assign_spec by (assumption || lia).
  assert (Hhead : length (if assign =? 1 then take (length (p Y)) (p Y) else take (length (p Y)) (p X1)) = length (p Y)).
  { destruct (assign =? 1); rewrite length_take; lia. }
  rewrite take_app_length', drop_app_length' by (symmetry; exact Hhead).
  assert (Hmap : map (fun l => Z.land l (u64 (Z.lnot (u64 (- assign))))) (drop (length (p Y)) (p X1)) =
                 if assign =? 1 then zeros (length (p X1) - length (p Y)) else drop (length (p Y)) (p X1)).
  { rewrite <- (length_drop (p X1)). pose proof (Forall_drop _ (length (p Y)) _ Hw1) as Hd.
    induction Hd as [|l ls Hu _ IH]; [destruct (assign =? 1); reflexivity|]. cbn [map length]. rewrite IH.
    pose proof (pick_limb assign l 0 Hc Hu ltac:(unfold is_u64; lia)) as Hp. rewrite Z.land_0_l, Z.lor_0_r in Hp. rewrite Hp.
    destruct (assign =? 1); reflexivity. }
  rewrite Hmap. destruct (assign =? 1).
  - rewrite take_ge by lia. rewrite value_grown. destruct Y as [sy py]. split; [|reflexivity].
    split; [exact HsY|]. apply Forall_app. split; [exact HpY|apply zeros_limbs].
  - rewrite take_drop. destruct X1 as [sx px]. split; [split; assumption|reflexivity].
Qed.

(** The swap: the two numbers change places, or stay as they were. *)
Lemma safe_cond_swap_spec X Y swap :
  mpi_wf X -> mpi_wf Y -> swap = 0 \/ swap = 1 ->
  let '(ret, X', Y') := mbedtls_mpi_safe_cond_swap grow false X Y swap in
  ret = 0 -> mpi_wf X' /\ mpi_wf Y' /\
    (mpi_value X', mpi_value Y') = if swap =? 1 then (mpi_value Y, mpi_value X) else (mpi_value X, mpi_value Y).
Proof.
  intros HX HY Hc. unfold mbedtls_mpi_safe_cond_swap. destruct (grow X (length (p Y))) as [ret X1] eqn:HgX.
  destruct (Z.eqb_spec ret 0) as [-> |Hne]; cbn [negb]; [|intros H; destruct (Hne H)].
  destruct (grow Y (length (p X1))) as [ret Y1] eqn:HgY.
  destruct (Z.eqb_spec ret 0) as [-> |Hne]; cbn [negb]; [|intros H; destruct (Hne H)]. intros _.
  destruct (grown _ _ _ HgX HX) as (_ & Hp1 & [Hs1 Hw1] & <-). destruct (grown _ _ _ HgY HY) as (_ & Hp2 & [Hs2 Hw2] & <-).
  assert (Hl : length (p Y1) = length (p X1)) by (rewrite Hp2, Hp1, !length_app, !zeros_length; lia).
  rewrite !pick_sign, limb_mask_spec, <- Hl, take_ge, drop_ge, app_nil_r by (assumption || lia).
  rewrite !pick_limbs by (assumption || lia). destruct X1 as [sx px], Y1 as [sy py]. cbn [s p] in *.
  destruct (swap =? 1); (split; [split; assumption|split; [split; assumption|reflexivity]]).
Qed.

End safe_laws.

(** A growth as bignum.h describes it, and a swap of numbers of different length. *)
Example swap_grows :
  let grow X n := (0, {| s := s X; p := p X ++ zeros (n - length (p X)) |}) in
  grows grow /\
  mbedtls_mpi_safe_cond_swap grow false {| s := -1; p := [5] |} {| s := 1; p := [7; 8] |} 1 =
  (0, {| s := 1; p := [7; 8] |}, {| s := -1; p := [5; 0] |}).
Proof. split; [intros X n _; split; reflexivity|reflexivity]. Qed.

End constant_time.

Import constant_time stream sha256 md.

Module ct_hmac.

(** The loop over the possible lengths, with the offsets that are left: the code,
    [aux], [ctx] and [output]. *)
Fixpoint hash_lengths (hash_size data_len_secret max_data_len : nat) (data : list Z) (offsets : list nat)
  (aux ctx : mbedtls_md_context_t) (output : list Z) : Z * mbedtls_md_context_t * mbedtls_md_context_t * list Z :=
  match offsets with
  | [] => (0, aux, ctx, output)
  | offset :: offsets =>
      let '(ret, aux) := mbedtls_md_clone aux ctx in
      if negb (ret =? 0) then (ret, aux, ctx, output) else
      let '(ret, aux, aux_out) := mbedtls_md_finish aux in
      if negb (ret =? 0) then (ret, aux, ctx, output) else
      let output :=
        mbedtls_ct_memcpy_if_eq output aux_out hash_size (Z.of_nat offset) (Z.of_nat data_len_secret) in
      let '(ret, ctx) :=
        if (offset <? max_data_len)%nat then mbedtls_md_update ctx (take 1 (drop offset data)) else (0, ctx) in
      if negb (ret =? 0) then (ret, aux, ctx, output)
      else hash_lengths hash_size data_len_secret max_data_len data offsets aux ctx output
  end.

(** What follows the loop: HASH(okey + inner_hash), and the context ready for the
    next message. *)
Definition outer_hash (ctx : mbedtls_md_context_t) (okey : list Z) (hash_size : nat) (output : list Z)
  : Z * mbedtls_md_context_t * list Z :=
  let '(ret, ctx, _) := mbedtls_md_finish ctx in
  if negb (ret =? 0) then (ret, ctx, output) else
  let '(ret, ctx) := mbedtls_md_starts ctx in
  if negb (ret =? 0) then (ret, ctx, output) else
  let '(ret, ctx) := mbedtls_md_update ctx okey in
  if negb (ret =? 0) then (ret, ctx, output) else
  let '(ret, ctx) := mbedtls_md_update ctx (take hash_size output) in
  if negb (ret =? 0) then (ret, ctx, output) else
  let '(ret, ctx, sum) := mbedtls_md_finish ctx in
  if negb (ret =? 0) then (ret, ctx, output) else
  let output := sum ++ drop (length sum) output in
  let '(ret, ctx) := mbedtls_md_hmac_reset ctx in
  (ret, ctx, output).

(** [alloc_md] is the outcome of the allocation for [aux]; [output] is the buffer of
    the caller.  A context without an HMAC part has no keys to point to. *)
Definition mbedtls_ct_hmac (alloc_md : bool) (ctx : mbedtls_md_context_t) (add_data data : list Z)
  (data_len_secret min_data_len max_data_len : nat) (output : list Z) : Z * mbedtls_md_context_t * list Z :=
  let md_alg := mbedtls_md_get_type (md_info ctx) in
  let block_size := if decide (md_alg = MBEDTLS_MD_SHA384) then 128%nat else 64%nat in
  let ikey := default [] (hmac_ctx ctx) in
  let okey := take block_size (drop block_size ikey) in
  let hash_size := mbedtls_md_get_size (md_info ctx) in
  let aux := mbedtls_md_init in
  let '(ret, aux) := mbedtls_md_setup alloc_md true aux (md_info ctx) false in
  if negb (ret =? 0) then (ret, ctx, output) else
  let '(ret, ctx) := mbedtls_md_update ctx add_data in
  if negb (ret =? 0) then (ret, ctx, output) else
  let '(ret, ctx) := mbedtls_md_update ctx (take min_data_len data) in
  if negb (ret =? 0) then (ret, ctx, output) else
  let output := replicate hash_size 33 ++ drop hash_size output in
  let '(ret, aux, ctx, output) :=
    hash_lengths hash_size data_len_secret max_data_len data (seq min_data_len (S max_data_len - min_data_len)) aux ctx output in
  if negb (ret =? 0) then (ret, ctx, output) else outer_hash ctx okey hash_size output.

(** The key and message of RFC 4231, test case 2; the last nine bytes are not of the
    message. *)
Example ct_hmac_jefe :
  let '(_, ctx) := mbedtls_md_setup true true mbedtls_md_init (Some mbedtls_sha256_info) true in
  let '(_, ctx) := mbedtls_md_hmac_starts ctx (cstr "Jefe") in
  let '(ret, _, output) :=
    mbedtls_ct_hmac true ctx (cstr "what do ya want ") (cstr "for nothing? and more") 12 9 14 (zeros 33) in
  (ret, output) = (0, snd (mbedtls_md_hmac true true (Some mbedtls_sha256_info) (cstr "Jefe")
                             (cstr "what do ya want for nothing?")) ++ [0]).
Proof. vm_compute. reflexivity. Qed.

(** ** HMAC of the secret length *)

(** A clone has absorbed what the source has. *)
Lemma clone_inv n pads pads' dst src msg :
  is_digest n -> md_ready n pads' dst -> md_inv n pads src msg ->
  exists dst', mbedtls_md_clone dst src = (0, dst') /\ md_inv n pads' dst' msg.
Proof.
  intros Hn (Hi & Hp & c & Hc & _) [Hi' _ (c' & Hc' & Hinv)]. unfold mbedtls_md_clone. rewrite Hi, Hi', Hc, Hc'.
  rewrite decide_True by reflexivity.
  destruct Hn as [-> | ->]; (eexists; split; [reflexivity|]; split; [exact Hi|exact Hp|eexists; split; [reflexivity|exact Hinv]]).
Qed.

Section hmac.
Context (n : Z) (Hn : is_digest n) (pads : option (list Z)) (data : list Z) (secret max : nat).
Context (Hdata : byte_list data) (Hsm : (secret <= max)%nat) (Hmax : (max <= length data)%nat).

Let hs := size (info_of n).

(** After the offsets from [offset] on, [output] holds the hash of [secret] bytes if
    that is among them. *)
Lemma hash_lengths_spec k offset aux ctx msg output :
  (offset + k = S max)%nat -> (0 < k)%nat -> md_ready n None aux -> md_inv n pads ctx (msg ++ take offset data) ->
  byte_list msg -> Z.of_nat (length msg + length data) < 2 ^ 61 -> byte_list output -> (hs <= length output)%nat ->
  exists aux' ctx', hash_lengths hs secret max data (seq offset k) aux ctx output =
      (0, aux', ctx', if (offset <=? secret)%nat then digest n (msg ++ take secret data) ++ drop hs output else output) /\
    md_inv n pads ctx' (msg ++ take max data).
Proof.
  intros Hk H0 Haux Hctx Hmsg H61 Hout Hhs. destruct (info_sizes n Hn []) as (_ & _ & Hd).
  revert offset aux ctx output Hk Haux Hctx Hout Hhs. change (2 ^ 61) with 2305843009213693952 in H61.
  induction k as [|k IH]; intros offset aux ctx output Hk Haux Hctx Hout Hhs; [lia|]. cbn [seq hash_lengths].
  destruct (clone_inv n pads None aux ctx _ Hn Haux Hctx) as (aux1 & -> & Haux1). cbn [Z.eqb negb].
  assert (Hbytes : forall l, byte_list (msg ++ take l data)) by (intros l; apply Forall_app; split; [exact Hmsg|apply Forall_take, Hdata]).
  destruct (md_finish_spec n None aux1 _ Hn (Hbytes offset)) as (aux2 & -> & Haux2);
    [change (2 ^ 61) with 2305843009213693952; rewrite length_app, length_take; lia|exact Haux1|]. cbn [Z.eqb negb].
  rewrite memcpy_if_eq_spec by (first [exact Hout|apply digest_bytes|rewrite Hd by apply Hbytes; reflexivity|exact Hhs|unfold is_u64; lia]).
  fold hs. rewrite (take_ge (digest _ _)) by (rewrite Hd by apply Hbytes; reflexivity).
  set (output1 := if Z.of_nat offset =? Z.of_nat secret then _ else output).
  assert (Ho1 : output1 = if (offset =? secret)%nat then digest n (msg ++ take secret data) ++ drop hs output else output).
  { unfold output1. destruct (Nat.eqb_spec offset secret) as [<- |Hne]; [rewrite Z.eqb_refl; reflexivity|].
    destruct (Z.eqb_spec (Z.of_nat offset) (Z.of_nat secret)); [lia|reflexivity]. }
  rewrite Ho1. clear output1 Ho1. destruct k as [|k].
  - assert (offset = max) as -> by lia. rewrite Nat.ltb_irrefl. cbn [Z.eqb negb seq hash_lengths]. exists aux2, ctx.
    split; [|exact Hctx]. do 2 f_equal. destruct (Nat.eqb_spec max secret), (Nat.leb_spec max secret); try lia; reflexivity.
  - destruct (Nat.ltb_spec offset max) as [_|]; [|lia].
    destruct (md_update_inv n pads ctx (msg ++ take offset data) (take 1 (drop offset data)) Hn) as (ctx1 & -> & Hctx1);
      [rewrite length_take; lia|exact Hctx|]. cbn [Z.eqb negb].
    assert (Hnext : take offset data ++ take 1 (drop offset data) = take (S offset) data).
    { rewrite take_take_drop. f_equal. lia. }
    rewrite <- app_assoc, Hnext in Hctx1.
    set (output1 := if (offset =? secret)%nat then digest n (msg ++ take secret data) ++ drop hs output else output).
    assert (Hl1 : byte_list output1 /\ length output1 = length output /\ drop hs output1 = drop hs output).
    { unfold output1. destruct (offset =? secret)%nat; [|auto].
      rewrite length_app, length_drop, Hd, drop_app_length' by (rewrite ?Hd by apply Hbytes; first [apply Hbytes|reflexivity]).
      split; [|split; [fold hs; lia|reflexivity]]. apply Forall_app. split; [apply digest_bytes|apply Forall_drop, Hout]. }
    destruct Hl1 as (Hb1 & Hl1 & Hd1).
    destruct (IH ltac:(lia) (S offset) aux2 ctx1 output1 ltac:(lia) Haux2 Hctx1 Hb1 ltac:(lia)) as (aux3 & ctx3 & -> & Hctx3).
    exists aux3, ctx3. split; [|exact Hctx3]. do 2 f_equal. rewrite Hd1. unfold output1.
    destruct (Nat.leb_spec (S offset) secret), (Nat.leb_spec offset secret), (Nat.eqb_spec offset secret); try lia; reflexivity.
Qed.

End hmac.

Lemma outer_hash_spec n key ctx absorbed X rest :
  is_digest n -> byte_list key ->
  let ipad := map (Z.lxor 0x36) (hmac_block n key) in
  let opad := map (Z.lxor 0x5C) (hmac_block n key) in
  md_inv n (Some (ipad ++ opad)) ctx absorbed -> byte_list absorbed -> Z.of_nat (length absorbed) < 2 ^ 61 -> byte_list X ->
  exists ctx', outer_hash ctx opad (size (info_of n)) (digest n X ++ rest) = (0, ctx', digest n (opad ++ digest n X) ++ rest) /\
    hmac_inv n key ctx' [].
Proof.
  intros Hn Hkb ipad opad H Hb Hl HX. destruct (pads_facts n Hn key Hkb) as (Hil & Hol & Hib & Hob). fold ipad opad in Hil, Hol, Hib, Hob.
  destruct (info_sizes n Hn key) as (_ & Hsz & Hd). unfold outer_hash.
  destruct (md_finish_spec n _ ctx absorbed Hn Hb Hl H) as (ctx1 & -> & H1). cbn [Z.eqb negb].
  destruct (md_starts_inv n _ ctx1 Hn H1) as (ctx2 & -> & H2). cbn [Z.eqb negb].
  destruct (md_update_inv n _ ctx2 [] opad Hn ltac:(lia) H2) as (ctx3 & -> & H3). cbn [Z.eqb negb app] in *.
  rewrite (take_app_length' (digest n X)) by (symmetry; apply Hd, HX).
  destruct (md_update_inv n (Some (ipad ++ opad)) ctx3 opad (digest n X) Hn) as (ctx4 & -> & H4);
    [rewrite Hd by exact HX; lia|exact H3|]. cbn [Z.eqb negb].
  assert (Hob' : byte_list (opad ++ digest n X)) by (apply Forall_app; split; [exact Hob|apply digest_bytes]).
  destruct (md_finish_spec n (Some (ipad ++ opad)) ctx4 (opad ++ digest n X) Hn Hob') as (ctx5 & -> & H5);
    [rewrite length_app, Hd by exact HX; lia|exact H4|]. cbn [Z.eqb negb].
  destruct (hmac_reset_inv n Hn key Hkb ctx5 H5) as (ctx6 & -> & H6). exists ctx6.
  rewrite drop_app_length' by (rewrite !Hd by assumption; reflexivity). split; [reflexivity|exact H6].
Qed.

(** C29. The HMAC of the message whose length is secret, in place of the first bytes of
    [output]; the context is keyed as before. *)
Theorem ct_hmac_is_hmac n ctx key msg add_data data secret min max output :
  is_digest n -> byte_list key -> hmac_inv n key ctx msg -> byte_list msg -> byte_list add_data -> byte_list data ->
  byte_list output -> (min <= secret <= max)%nat -> (max <= length data)%nat -> (size (info_of n) <= length output)%nat ->
  Z.of_nat (length add_data) < 2 ^ 32 -> Z.of_nat min < 2 ^ 32 ->
  Z.of_nat (length msg + length add_data + length data) + 64 < 2 ^ 61 ->
  exists ctx', mbedtls_ct_hmac true ctx add_data data secret min max output =
      (0, ctx', rfc2104_hmac n key (msg ++ add_data ++ take secret data) ++ drop (size (info_of n)) output) /\
    hmac_inv n key ctx' [].
Proof.
  intros Hn Hkb H Hmsg Hadd Hdata Hout Hrange Hmax Hsize H32 Hmin H61. unfold mbedtls_ct_hmac. cbv zeta.
  pose proof (pads_facts n Hn key Hkb) as (Hil & Hol & Hib & Hob).
  rewrite (md_inv_info _ _ _ _ H), (md_inv_pads _ _ _ _ H). cbn [mbedtls_md_get_size mbedtls_md_get_type]. change (default [] (Some ?l)) with l.
  rewrite decide_False by (destruct Hn as [-> | ->]; discriminate).
  rewrite (drop_app_length' _ _ 64) by (symmetry; exact Hil). rewrite (take_ge _ 64) by lia.
  assert (Hset : exists aux, mbedtls_md_setup true true mbedtls_md_init (Some (info_of n)) false = (0, aux) /\ md_ready n None aux).
  { destruct Hn as [-> | ->]; (eexists; split; [reflexivity|]); repeat split; eexists; split; reflexivity. }
  destruct Hset as (aux & -> & Haux). cbn [Z.eqb negb]. unfold hmac_inv in H.
  destruct (md_update_inv n _ ctx _ add_data Hn H32 H) as (ctx1 & -> & H1). cbn [Z.eqb negb].
  destruct (md_update_inv n _ ctx1 _ (take min data) Hn ltac:(rewrite length_take; lia) H1) as (ctx2 & -> & H2). cbn [Z.eqb negb].
  set (out0 := replicate _ 33 ++ drop (size (info_of n)) output).
  assert (Hout0 : byte_list out0 /\ (size (info_of n) <= length out0)%nat /\ drop (size (info_of n)) out0 = drop (size (info_of n)) output).
  { unfold out0. split; [|split].
    - apply Forall_app. split; [apply Forall_replicate; unfold is_u8; lia|apply Forall_drop, Hout].
    - rewrite length_app, length_replicate. lia.
    - apply drop_app_length'. rewrite length_replicate. reflexivity. }
  destruct Hout0 as (Hb0 & Hl0 & Hd0). change (2 ^ 61) with 2305843009213693952 in H61.
  assert (Hm : byte_list ((map (Z.lxor 0x36) (hmac_block n key) ++ msg) ++ add_data)) by (repeat (apply Forall_app; split); assumption).
  destruct (hash_lengths_spec n Hn _ data secret max Hdata ltac:(lia) Hmax (S max - min) min aux ctx2 _ out0
    ltac:(lia) ltac:(lia) Haux H2 Hm) as (aux' & ctx3 & -> & H3);
    [change (2 ^ 61) with 2305843009213693952; rewrite !length_app; lia|exact Hb0|exact Hl0|]. cbn [Z.eqb negb].
  rewrite (proj2 (Nat.leb_le min secret)), Hd0 by lia.
  destruct (outer_hash_spec n key ctx3 _ (((map (Z.lxor 0x36) (hmac_block n key) ++ msg) ++ add_data) ++ take secret data)
    (drop (size (info_of n)) output) Hn Hkb H3) as (ctx4 & Heq & H4).
  - apply Forall_app. split; [exact Hm|apply Forall_take, Hdata].
  - change (2 ^ 61) with 2305843009213693952. rewrite !length_app, length_take. lia.
  - apply Forall_app. split; [exact Hm|apply Forall_take, Hdata].
  - exists ctx4. split; [|exact H4]. rewrite Heq. unfold rfc2104_hmac. rewrite <- !app_assoc. reflexivity.
Qed.

Lemma ct_hmac_is_hmac_witness :
  let ctx := snd (mbedtls_md_setup true true mbedtls_md_init (Some mbedtls_sha256_info) true) in
  let ctx := snd (mbedtls_md_hmac_starts ctx (cstr "Jefe")) in
  exists ctx', mbedtls_ct_hmac true ctx (cstr "what do ya want ") (cstr "for nothing? and more") 12 9 14 (zeros 33) =
      (0, ctx', rfc2104_hmac 0 (cstr "Jefe") ([] ++ cstr "what do ya want " ++ take 12 (cstr "for nothing? and more")) ++
                drop 32 (zeros 33)) /\
    hmac_inv 0 (cstr "Jefe") ctx' [].
Proof.
  assert (Hn : is_digest 0) by (left; reflexivity).
  destruct (setup_ready 0 mbedtls_md_init Hn) as (ctx0 & Hset & H0).
  change (mbedtls_md_setup true true mbedtls_md_init (Some mbedtls_sha256_info) true)
    with (mbedtls_md_setup true true mbedtls_md_init (Some (info_of 0)) true). rewrite Hset. cbn [snd].
  assert (Hk : byte_list (cstr "Jefe")) by (repeat (constructor; [vm_compute; intuition discriminate|]); constructor).
  destruct (hmac_starts_inv 0 Hn (cstr "Jefe") Hk eq_refl _ ctx0 H0) as (ctx1 & Hstart & H1).
  cbv zeta. rewrite Hstart. cbn [snd].
  apply (ct_hmac_is_hmac 0 ctx1 (cstr "Jefe") [] (cstr "what do ya want ") (cstr "for nothing? and more") 12 9 14 (zeros 33)
    Hn Hk H1);
    try reflexivity; try (apply Nat.leb_le; reflexivity); try (split; apply Nat.leb_le; reflexivity);
    repeat (constructor; [vm_compute; intuition discriminate|]); constructor.
Defined.

(** Without memory for the second context nothing is written or absorbed. *)
Lemma ct_hmac_no_memory n pads ctx add_data data secret min max output :
  is_digest n -> md_ready n pads ctx ->
  mbedtls_ct_hmac false ctx add_data data secret min max output = (MBEDTLS_ERR_MD_ALLOC_FAILED, ctx, output).
Proof. intros Hn (Hi & _). unfold mbedtls_ct_hmac. rewrite Hi. destruct Hn as [-> | ->]; reflexivity. Qed.

End ct_hmac.
