(* ===== verification/Sha1.v ===== *)
(** SHA-1 as mbedTLS computes it (lib/mbedtls/library/sha1.c), and its equality
    with FIPS 180-4: the eighty unrolled rounds over a ring of sixteen message
    words are the standard's rounds over its message schedule. *)

From S2P Require Import Prelude MbedCommon HashStream.
From Stdlib Require Import Btauto.
Import mbed stream rounds.

Module sha1.

Definition mbedtls_sha1_context : Type := hash_context.

Definition mbedtls_sha1_init : mbedtls_sha1_context :=
  {| total0 := 0; total1 := 0; state := zeros 5; buffer := zeros 64 |}.

(** Freeing zeroes the context. *)
Definition mbedtls_sha1_free (ctx : mbedtls_sha1_context) : mbedtls_sha1_context := mbedtls_sha1_init.

Definition mbedtls_sha1_clone (dst src : mbedtls_sha1_context) : mbedtls_sha1_context := src.

Definition sha1_iv : list Z := [0x67452301; 0xEFCDAB89; 0x98BADCFE; 0x10325476; 0xC3D2E1F0].

Definition mbedtls_sha1_starts_ret (ctx : mbedtls_sha1_context) : Z * mbedtls_sha1_context :=
  (0, {| total0 := 0; total1 := 0; state := sha1_iv; buffer := buffer ctx |}).

Definition S (x n : Z) : Z := Z.lor (u32 (Z.shiftl x n)) (Z.shiftr (Z.land x 0xFFFFFFFF) (32 - n)).

(** [local.W[t & 0x0F] = ...], the value of the assignment and the array. *)
Definition R (t : nat) (W : list Z) : Z * list Z :=
  let temp := Z.lxor (Z.lxor (Z.lxor W.[(t - 3) mod 16] W.[(t - 8) mod 16]) W.[(t - 14) mod 16]) W.[t mod 16] in
  let v := S temp 1 in
  (v, <[(t mod 16)%nat := v]> W).

(** One round; [a] to [e] are the registers the macro is expanded with, indices
    into [local.A] to [local.E]. *)
Definition P (F : Z -> Z -> Z -> Z) (K : Z) (a b c d e : nat) (x : Z) (A : list Z) : list Z :=
  let A := <[e := u32 (A.[e] + (S A.[a] 5 + F A.[b] A.[c] A.[d] + K + x))]> A in
  <[b := S A.[b] 30]> A.

Definition F_1 (x y z : Z) : Z := Z.lxor z (Z.land x (Z.lxor y z)).
Definition F_2 (x y z : Z) : Z := Z.lxor (Z.lxor x y) z.
Definition F_3 (x y z : Z) : Z := Z.lor (Z.land x y) (Z.land z (Z.lor x y)).

(** The argument [x]: [local.W[t]] in the first sixteen rounds, then [R(t)]. *)
Definition message_word (t : nat) (W : list Z) : Z * list Z :=
  if (t <? 16)%nat then (W.[t], W) else R t W.

Definition round (F : Z -> Z -> Z -> Z) (K : Z) (a b c d e t : nat) (AW : list Z * list Z)
  : list Z * list Z :=
  let '(A, W) := AW in
  let '(x, W) := message_word t W in
  (P F K a b c d e x A, W).

(** Five calls of the macro, the registers rotated by one from each to the next;
    four times five have the same [F] and [K]. *)
Definition five_rounds (F : Z -> Z -> Z -> Z) (K : Z) (AW : list Z * list Z) (t : nat)
  : list Z * list Z :=
  let AW := round F K 0 1 2 3 4 (t + 0) AW in
  let AW := round F K 4 0 1 2 3 (t + 1) AW in
  let AW := round F K 3 4 0 1 2 (t + 2) AW in
  let AW := round F K 2 3 4 0 1 (t + 3) AW in
  round F K 1 2 3 4 0 (t + 4) AW.

Definition load_block (data : list Z) (W : list Z) : list Z :=
  fold_left (fun W i => <[i := MBEDTLS_GET_UINT32_BE data (4 * i)]> W) (seq 0 16) W.

(** [mbedtls_internal_sha1_process], on the five state words. *)
Definition sha1_process (state data : list Z) : list Z :=
  let W := load_block data (zeros 16) in
  let AW := (state, W) in
  let AW := fold_left (five_rounds F_1 0x5A827999) [0; 5; 10; 15]%nat AW in
  let AW := fold_left (five_rounds F_2 0x6ED9EBA1) [20; 25; 30; 35]%nat AW in
  let AW := fold_left (five_rounds F_3 0x8F1BBCDC) [40; 45; 50; 55]%nat AW in
  let AW := fold_left (five_rounds F_2 0xCA62C1D6) [60; 65; 70; 75]%nat AW in
  zip_with (fun s a => u32 (s + a)) state (fst AW).

Definition mbedtls_internal_sha1_process (ctx : mbedtls_sha1_context) (data : list Z)
  : Z * mbedtls_sha1_context :=
  (0, ctx <| state := sha1_process (state ctx) data |>).

Definition mbedtls_sha1_update_ret (ctx : mbedtls_sha1_context) (input : list Z)
  : Z * mbedtls_sha1_context :=
  (0, hash_update 64 32 sha1_process ctx input).

(** The 64-bit count of bits, high word first. *)
Definition bit_count (total0 total1 : Z) : list Z :=
  let high := Z.lor (Z.shiftr total0 29) (u32 (Z.shiftl total1 3)) in
  let low := u32 (Z.shiftl total0 3) in
  MBEDTLS_PUT_UINT32_BE high ++ MBEDTLS_PUT_UINT32_BE low.

(** The third component is what is written to [output]. *)
Definition mbedtls_sha1_finish_ret (ctx : mbedtls_sha1_context)
  : Z * mbedtls_sha1_context * list Z :=
  let ctx := hash_finish 64 sha1_process 8 bit_count ctx in
  (0, ctx, concat (map MBEDTLS_PUT_UINT32_BE (state ctx))).

(** The older names, which drop the code. *)
Definition mbedtls_sha1_starts (ctx : mbedtls_sha1_context) : mbedtls_sha1_context :=
  snd (mbedtls_sha1_starts_ret ctx).
Definition mbedtls_sha1_process (ctx : mbedtls_sha1_context) (data : list Z) : mbedtls_sha1_context :=
  snd (mbedtls_internal_sha1_process ctx data).
Definition mbedtls_sha1_update (ctx : mbedtls_sha1_context) (input : list Z) : mbedtls_sha1_context :=
  snd (mbedtls_sha1_update_ret ctx input).
Definition mbedtls_sha1_finish (ctx : mbedtls_sha1_context) : mbedtls_sha1_context * list Z :=
  let '(_, ctx, output) := mbedtls_sha1_finish_ret ctx in (ctx, output).

Definition mbedtls_sha1_ret (input : list Z) : Z * list Z :=
  let ctx := mbedtls_sha1_init in
  let '(_, ctx) := mbedtls_sha1_starts_ret ctx in
  let '(_, ctx) := mbedtls_sha1_update_ret ctx input in
  let '(ret, _, output) := mbedtls_sha1_finish_ret ctx in
  (ret, output).

Definition mbedtls_sha1 (input : list Z) : list Z := snd (mbedtls_sha1_ret input).

(** The first two vectors of the file's self test. *)
Example sha1_abc :
  mbedtls_sha1_ret (cstr "abc") =
  (0, [0xA9; 0x99; 0x3E; 0x36; 0x47; 0x06; 0x81; 0x6A; 0xBA; 0x3E;
       0x25; 0x71; 0x78; 0x50; 0xC2; 0x6C; 0x9C; 0xD0; 0xD8; 0x9D]).
Proof. vm_compute. reflexivity. Qed.

Example sha1_two_blocks :
  mbedtls_sha1_ret (cstr "abcdbcdecdefdefgefghfghighijhijkijkljklmklmnlmnomnopnopq") =
  (0, [0x84; 0x98; 0x3E; 0x44; 0x1C; 0x3B; 0xD2; 0x6E; 0xBA; 0xAE;
       0x4A; 0xA1; 0xF9; 0x51; 0x29; 0xE5; 0xE5; 0x46; 0x70; 0xF1]).
Proof. vm_compute. reflexivity. Qed.

(** ** FIPS 180-4 *)

Definition fips_f (t : nat) (x y z : Z) : Z :=
  if (t <? 20)%nat then Z.lxor (Z.land x y) (Z.land (Z.lnot x) z)
  else if (t <? 40)%nat then Z.lxor x (Z.lxor y z)
  else if (t <? 60)%nat then Z.lxor (Z.land x y) (Z.lxor (Z.land x z) (Z.land y z))
  else Z.lxor x (Z.lxor y z).

Definition fips_K (t : nat) : Z :=
  if (t <? 20)%nat then 0x5a827999 else if (t <? 40)%nat then 0x6ed9eba1
  else if (t <? 60)%nat then 0x8f1bbcdc else 0xca62c1d6.

(** The next word of the message schedule, from the words so far. *)
Definition next_word (W : list Z) : Z :=
  let t := length W in
  rotl 32 1 (Z.lxor (Z.lxor (Z.lxor W.[t - 3] W.[t - 8]) W.[t - 14]) W.[t - 16]).

(** The working variables [a] to [e]. *)
Definition fips_round (t : nat) (w : Z) (r : list Z) : list Z :=
  match r with
  | [a; b; c; d; e] => [u32 (rotl 32 5 a + fips_f t b c d + e + fips_K t + w); a; rotl 32 30 b; c; d]
  | _ => r
  end.

Definition fips_rounds (W : list Z) (n : nat) (r : list Z) : list Z :=
  fold_left (fun r t => fips_round t W.[t] r) (seq 0 n) r.

Definition fips_compress (H block : list Z) : list Z :=
  zip_with (fun h r => u32 (h + r)) H (fips_rounds (schedule next_word (block_words block) 64) 80 H).

Definition fips_sha1 (msg : list Z) : list Z :=
  concat (map (be_bytes 4)
    (iterated_hash 64 fips_compress sha1_iv 8 (be_bytes 8 (8 * Z.of_nat (length msg))) msg)).

(** ** The macros *)

Lemma sha1_S_rotl x n : is_u32 x -> 0 < n < 32 -> S x n = rotl 32 n x.
Proof. exact (masked_rotl x n). Qed.

(** The code's [F] and [K] of round [t]. *)
Definition code_F (t : nat) : Z -> Z -> Z -> Z :=
  if (t <? 20)%nat then F_1 else if (t <? 40)%nat then F_2 else if (t <? 60)%nat then F_3 else F_2.

Lemma code_F_fips t x y z : code_F t x y z = fips_f t x y z.
Proof.
  unfold code_F, fips_f.
  repeat (match goal with |- context [(t <? ?n)%nat] => destruct (t <? n)%nat end);
    apply Z.bits_inj'; intros i Hi; unfold F_1, F_2, F_3;
    rewrite ?Z.lor_spec, ?Z.lxor_spec, ?Z.land_spec, ?Z.lor_spec, ?Z.lxor_spec, ?Z.land_spec,
      ?Z.lnot_spec by exact Hi; btauto.
Qed.

(** One expansion of the macro is one round of the standard, seen from the next
    rotation. *)
Lemma sha1_P_round F t r x A :
  (r < 5)%nat -> length A = 5%nat -> words32 A -> (forall x y z, F x y z = fips_f t x y z) ->
  view 5 (Datatypes.S r) (P F (fips_K t) (rot 5 r 0) (rot 5 r 1) (rot 5 r 2) (rot 5 r 3) (rot 5 r 4) x A)
  = fips_round t x (view 5 r A).
Proof.
  intros Hr Hl HA HF. unfold P. rewrite HF.
  do 5 (destruct A as [|? A]; [discriminate Hl|]). destruct A; [|discriminate Hl].
  unfold words32 in HA. rewrite !Forall_cons in HA. destruct HA as (? & ? & ? & ? & ? & _).
  do 5 (destruct r as [|r];
    [cbn -[u32 Z.add fips_f fips_K S rotl]; rewrite !sha1_S_rotl by (assumption || lia);
     repeat match goal with |- _ :: _ = _ :: _ => f_equal end; try reflexivity; f_equal; lia|]). lia.
Qed.

Lemma sha1_P_words F K a b c d e x A :
  words32 A -> words32 (P F K a b c d e x A).
Proof.
  intros H. unfold P.
  assert (H1 : words32 (<[e := u32 (A.[e] + (S A.[a] 5 + F A.[b] A.[c] A.[d] + K + x))]> A))
    by (apply Forall_insert; [exact H|apply u32_range]).
  apply Forall_insert; [exact H1|]. rewrite sha1_S_rotl by (auto with words || lia).
  apply rotl_word; [apply nth_word, H1|lia].
Qed.

Lemma sha1_P_length F K a b c d e x A : length (P F K a b c d e x A) = length A.
Proof. unfold P. rewrite !length_insert. reflexivity. Qed.

(** ** The message words and the loop *)

Lemma lxor_u32 x y : is_u32 x -> is_u32 y -> is_u32 (Z.lxor x y).
Proof. apply (word_lxor 32). lia. Qed.

Lemma sha1_next_word_range l : words32 l -> is_u32 (next_word l).
Proof. intros H. apply (rotl_word 32 1); [repeat apply lxor_u32; auto with words|lia]. Qed.

Section process.
Context (H0 M : list Z) (HM : words32 M) (HMl : length M = 16%nat).
Context (HH : words32 H0) (HHl : length H0 = 5%nat).

Let W := schedule next_word M 64.

Lemma W_words : words32 W.
Proof. apply (schedule_words next_word 32); [exact sha1_next_word_range|exact HM]. Qed.

Lemma W_next t :
  (16 <= t < 80)%nat -> W.[t] = S (Z.lxor (Z.lxor (Z.lxor W.[t - 3] W.[t - 8]) W.[t - 14]) W.[t - 16]) 1.
Proof.
  intros Ht. rewrite sha1_S_rotl by (repeat apply lxor_u32; auto using W_words with words || lia).
  unfold W at 1. rewrite schedule_nth by lia. fold W. unfold next_word.
  rewrite length_take, Nat.min_l by (unfold W; rewrite schedule_length; lia).
  rewrite !nth_take_lt by lia. reflexivity.
Qed.

(** After [t] rounds; the ring holds the last sixteen words. *)
Record loop_inv (t : nat) (AW : list Z * list Z) : Prop := {
  loop_A_length : length (fst AW) = 5%nat;
  loop_A_words : words32 (fst AW);
  loop_W_length : length (snd AW) = 16%nat;
  loop_W s : (s < 16 \/ s < t)%nat -> (t <= s + 16)%nat -> (snd AW).[s mod 16] = W.[s];
  loop_view : view 5 t (fst AW) = fips_rounds W t H0 }.

(** The word of round [t], and the ring after it. *)
Lemma message_word_spec t AW :
  (t < 80)%nat -> loop_inv t AW ->
  let '(x, V) := message_word t (snd AW) in
  x = W.[t] /\ length V = 16%nat /\
  forall s, (s < 16 \/ s < Datatypes.S t)%nat -> (Datatypes.S t <= s + 16)%nat -> V.[s mod 16] = W.[s].
Proof.
  intros Ht [_ _ HV HW _]. unfold message_word. destruct (Nat.ltb_spec t 16) as [Hlt|Hge].
  - rewrite <- (HW t) by lia. rewrite Nat.mod_small by lia. split; [reflexivity|]. split; [exact HV|].
    intros s Hs1 Hs2. apply HW; lia.
  - assert (Hv : forall d, (0 < d <= 16)%nat -> (snd AW).[(t - d) mod 16] = W.[t - d]) by (intros; apply HW; lia).
    unfold R. replace (t mod 16)%nat with ((t - 16) mod 16)%nat
      by (rewrite <- (Nat.Div0.mod_add (t - 16) 1 16); f_equal; lia).
    rewrite !Hv, <- W_next by lia. split; [reflexivity|]. rewrite length_insert. split; [exact HV|].
    intros s Hs1 Hs2. pose proof (Nat.mod_upper_bound (t - 16) 16 ltac:(lia)).
    destruct (decide (s = t)) as [->|Hne].
    + replace (t mod 16)%nat with ((t - 16) mod 16)%nat
        by (rewrite <- (Nat.Div0.mod_add (t - 16) 1 16); f_equal; lia).
      apply nth_insert_eq. lia.
    + rewrite nth_insert_ne; [apply HW; lia|].
      intros He. pose proof (Nat.div_mod_eq s 16). pose proof (Nat.div_mod_eq (t - 16) 16). lia.
Qed.

Definition nth_round (AW : list Z * list Z) (t : nat) : list Z * list Z :=
  round (code_F t) (fips_K t) (rot 5 t 0) (rot 5 t 1) (rot 5 t 2) (rot 5 t 3) (rot 5 t 4) t AW.

Lemma sha1_nth_round_inv t AW : (t < 80)%nat -> loop_inv t AW -> loop_inv (Datatypes.S t) (nth_round AW t).
Proof.
  intros Ht Hinv. pose proof (message_word_spec t AW Ht Hinv) as Hmw.
  destruct AW as [A V]. destruct Hinv as [HA HAw HV HW Hview]. cbn [fst snd] in *.
  unfold nth_round, round. destruct (message_word t V) as [x V']. destruct Hmw as (-> & HV' & HW').
  split; cbn [fst snd]; auto using sha1_P_words.
  - rewrite sha1_P_length. exact HA.
  - unfold fips_rounds. rewrite seq_S, fold_left_app. cbn [fold_left Nat.add].
    fold (fips_rounds W t H0). rewrite <- Hview, <- (view_mod 5 t), view_mod_S by lia.
    rewrite <- !(rot_mod 5 t) by lia.
    apply sha1_P_round; [apply Nat.mod_upper_bound; lia|exact HA|exact HAw|apply code_F_fips].
Qed.

(** Twenty rounds of the code. *)
Lemma five_rounds_inv F K t AW :
  (t mod 5 = 0)%nat -> (t + 5 <= 80)%nat ->
  (forall j, (j < 5)%nat -> code_F (t + j) = F /\ fips_K (t + j) = K) ->
  loop_inv t AW -> loop_inv (t + 5) (five_rounds F K AW t).
Proof.
  intros Hm Ht HFK Hinv.
  assert (Hn : forall j AW, (j < 5)%nat -> loop_inv (t + j) AW ->
    loop_inv (t + Datatypes.S j)
      (round F K (rot 5 j 0) (rot 5 j 1) (rot 5 j 2) (rot 5 j 3) (rot 5 j 4) (t + j) AW)).
  { intros j AW' Hj Hi. apply sha1_nth_round_inv in Hi; [|lia]. unfold nth_round in Hi.
    destruct (HFK j Hj) as [HF HK]. rewrite HF, HK in Hi.
    rewrite Nat.add_succ_r. rewrite <- !(rot_mod 5 (t + j)) in Hi by lia.
    replace ((t + j) mod 5)%nat with j in Hi; [exact Hi|].
    rewrite <- Nat.Div0.add_mod_idemp_l, Hm. symmetry. apply Nat.mod_small. exact Hj. }
  unfold five_rounds. rewrite <- (Nat.add_0_r t) in Hinv.
  apply (Hn 4%nat), (Hn 3%nat), (Hn 2%nat), (Hn 1%nat), (Hn 0%nat); lia || exact Hinv.
Qed.

Lemma twenty_rounds_inv F K g AW :
  (g < 4)%nat -> (forall j, (j < 20)%nat -> code_F (20 * g + j) = F /\ fips_K (20 * g + j) = K) ->
  loop_inv (20 * g) AW ->
  loop_inv (20 * g + 20)
    (fold_left (five_rounds F K) [20 * g; 20 * g + 5; 20 * g + 10; 20 * g + 15]%nat AW).
Proof.
  intros Hg HFK Hinv. cbn [fold_left].
  assert (Hn : forall i AW, (i < 4)%nat -> loop_inv (20 * g + 5 * i) AW ->
    loop_inv (20 * g + 5 * Datatypes.S i) (five_rounds F K AW (20 * g + 5 * i))).
  { intros i AW' Hi H. replace (20 * g + 5 * Datatypes.S i)%nat with (20 * g + 5 * i + 5)%nat by lia.
    apply five_rounds_inv; [|lia| |exact H].
    - replace (20 * g + 5 * i)%nat with ((4 * g + i) * 5)%nat by lia. apply Nat.Div0.mod_mul.
    - intros j Hj. rewrite <- Nat.add_assoc. apply HFK. lia. }
  replace (20 * g)%nat with (20 * g + 5 * 0)%nat in Hinv by lia.
  apply (Hn 0%nat) in Hinv; [|lia]. apply (Hn 1%nat) in Hinv; [|lia].
  apply (Hn 2%nat) in Hinv; [|lia]. apply (Hn 3%nat) in Hinv; [|lia].
  rewrite Nat.mul_0_r, Nat.add_0_r in Hinv. exact Hinv.
Qed.

Ltac by_cases_on_j :=
  let j := fresh "j" in intros j ?; do 20 (destruct j as [|j]; [split; reflexivity|]); lia.

(** The unrolled code runs the rounds in order, so it computes the standard's. *)
Lemma sha1_loops V :
  V = M ->
  fst (fold_left (five_rounds F_2 0xCA62C1D6) [60; 65; 70; 75]%nat
       (fold_left (five_rounds F_3 0x8F1BBCDC) [40; 45; 50; 55]%nat
        (fold_left (five_rounds F_2 0x6ED9EBA1) [20; 25; 30; 35]%nat
         (fold_left (five_rounds F_1 0x5A827999) [0; 5; 10; 15]%nat (H0, V))))) =
  fips_rounds W 80 H0.
Proof.
  intros ->.
  assert (H : loop_inv (20 * 0) (H0, M)).
  { split; cbn [fst snd]; try assumption; [|apply view_0, HHl].
    intros s Hs1 Hs2. rewrite Nat.mod_small by lia.
    rewrite <- (nth_take_lt W s 16) by lia. unfold W.
    change 16%nat with (16 + 0)%nat. rewrite <- HMl, schedule_take by lia. reflexivity. }
  apply (twenty_rounds_inv F_1 0x5A827999 0) in H; [|lia|by_cases_on_j].
  apply (twenty_rounds_inv F_2 0x6ED9EBA1 1) in H; [|lia|by_cases_on_j].
  apply (twenty_rounds_inv F_3 0x8F1BBCDC 2) in H; [|lia|by_cases_on_j].
  apply (twenty_rounds_inv F_2 0xCA62C1D6 3) in H; [|lia|by_cases_on_j].
  pose proof (loop_view _ _ H) as Hv. cbn [Nat.mul Nat.add] in H, Hv. rewrite <- Hv.
  symmetry. rewrite <- (view_mod 5 80) by lia. apply view_0, (loop_A_length _ _ H).
Qed.

End process.

(** ** The digest *)

Lemma sha1_load_block_words data : length data = 64%nat -> load_block data (zeros 16) = block_words data.
Proof. apply (load_words MBEDTLS_GET_UINT32_BE be_value). apply GET_BE_block. Qed.

Lemma fips_rounds_length W n r : length r = 5%nat -> length (fips_rounds W n r) = 5%nat.
Proof.
  intros Hr. apply (fold_seq_inv _ (fun _ r => length r = 5%nat)); [|exact Hr].
  intros i y _ Hy. do 5 (destruct y as [|? y]; [discriminate Hy|]). destruct y; [reflexivity|discriminate Hy].
Qed.

(** The compression function is the standard's. *)
Lemma sha1_process_fips st block :
  hash_value 5 st -> length block = 64%nat -> byte_list block ->
  sha1_process st block = fips_compress st block /\ hash_value 5 (fips_compress st block).
Proof.
  intros [Hl Hw] Hbl Hb. split.
  - unfold sha1_process, fips_compress. cbn zeta.
    rewrite (sha1_loops st (block_words block)); try assumption; try reflexivity;
      [apply block_words_words; assumption|apply sha1_load_block_words, Hbl].
  - apply hash_value_add; [split; assumption|]. apply fips_rounds_length, Hl.
Qed.

(** The length field of a message below 2^61 bytes. *)
Lemma sha1_bit_count_spec n :
  0 <= n < 2 ^ 61 ->
  bit_count (n mod 2 ^ 32) ((n / 2 ^ 32) mod 2 ^ 32) = be_bytes 8 (8 * n) /\
  length (be_bytes 8 (8 * n)) = 8%nat /\ byte_list (be_bytes 8 (8 * n)).
Proof.
  intros Hn. split; [|split; [apply be_bytes_length|apply be_bytes_bytes]].
  unfold bit_count, u32. destruct (bit_count_words 32 n) as [Hh Hl]; [lia|exact Hn|].
  change (32 - 3) with 29 in Hh. rewrite Hh, Hl, !PUT_BE_be_bytes. apply (words_be_bytes 4).
Qed.

(** A context fed with a message in pieces of any size ends with the FIPS 180-4
    digest of the message, whatever was in the context before it was started. *)
Theorem sha1_stream_is_fips ctx chunks :
  length (buffer ctx) = 64%nat ->
  Forall byte_list chunks -> Forall (fun c => Z.of_nat (length c) < 2 ^ 32) chunks ->
  Z.of_nat (length (concat chunks)) < 2 ^ 61 ->
  let ctx := snd (mbedtls_sha1_starts_ret ctx) in
  let ctx := fold_left (fun ctx c => snd (mbedtls_sha1_update_ret ctx c)) chunks ctx in
  snd (mbedtls_sha1_finish_ret ctx) = fips_sha1 (concat chunks).
Proof.
  intros Hbuf Hb Hc Hl. cbn zeta. unfold mbedtls_sha1_finish_ret, fips_sha1. cbn [snd].
  assert (Hiv : hash_value 5 sha1_iv)
    by (split; [reflexivity|]; repeat (constructor; [unfold is_u32; lia|]); constructor).
  destruct (digest_stream 64 32 sha1_process fips_compress 6 eq_refl ltac:(lia) (hash_value 5) sha1_process_fips
              8 bit_count (fun n => be_bytes 8 (8 * n)) (2 ^ 61) ltac:(lia) sha1_bit_count_spec
              sha1_iv (buffer ctx) chunks Hiv Hbuf Hb Hc Hl) as [Hst _].
  rewrite (map_ext _ _ PUT_BE_be_bytes). f_equal. f_equal. exact Hst.
Qed.

End sha1.
