(* ===== verification/Md5.v ===== *)
(** MD5 as mbedTLS computes it (lib/mbedtls/library/md5.c), and its equality with
    RFC 1321: the sixty-four unrolled steps are those of the RFC, constants and
    all. *)

From S2P Require Import Prelude MbedCommon HashStream.
From Stdlib Require Import Btauto.
Import mbed stream rounds.

Module md5.

Definition mbedtls_md5_context : Type := hash_context.

Definition mbedtls_md5_init : mbedtls_md5_context :=
  {| total0 := 0; total1 := 0; state := zeros 4; buffer := zeros 64 |}.

(** Freeing zeroes the context. *)
Definition mbedtls_md5_free (ctx : mbedtls_md5_context) : mbedtls_md5_context := mbedtls_md5_init.

Definition mbedtls_md5_clone (dst src : mbedtls_md5_context) : mbedtls_md5_context := src.

Definition md5_iv : list Z := [0x67452301; 0xEFCDAB89; 0x98BADCFE; 0x10325476].

Definition mbedtls_md5_starts_ret (ctx : mbedtls_md5_context) : Z * mbedtls_md5_context :=
  (0, {| total0 := 0; total1 := 0; state := md5_iv; buffer := buffer ctx |}).

Definition S (x n : Z) : Z := Z.lor (u32 (Z.shiftl x n)) (Z.shiftr (Z.land x 0xFFFFFFFF) (32 - n)).

(** The arguments of the macro [P]: the registers as indices into [local.A] to
    [local.D], the word, the shift, the constant. *)
Inductive call := Call (a b c d k : nat) (s t : Z).

Definition P (F : Z -> Z -> Z -> Z) (X : list Z) (A : list Z) (c : call) : list Z :=
  let 'Call a b c d k s t := c in
  let A := <[a := u32 (A.[a] + (F A.[b] A.[c] A.[d] + X.[k] + t))]> A in
  <[a := u32 (S A.[a] s + A.[b])]> A.

Definition F_1 (x y z : Z) : Z := Z.lxor z (Z.land x (Z.lxor y z)).
Definition F_2 (x y z : Z) : Z := Z.lxor y (Z.land z (Z.lxor x y)).
Definition F_3 (x y z : Z) : Z := Z.lxor (Z.lxor x y) z.
Definition F_4 (x y z : Z) : Z := Z.lxor y (Z.lor x (u32 (Z.lnot z))).

(** The calls made under each definition of [F]. *)
Definition calls_1 : list call :=
  [Call 0 1 2 3 0 7 0xD76AA478; Call 3 0 1 2 1 12 0xE8C7B756;
   Call 2 3 0 1 2 17 0x242070DB; Call 1 2 3 0 3 22 0xC1BDCEEE;
   Call 0 1 2 3 4 7 0xF57C0FAF; Call 3 0 1 2 5 12 0x4787C62A;
   Call 2 3 0 1 6 17 0xA8304613; Call 1 2 3 0 7 22 0xFD469501;
   Call 0 1 2 3 8 7 0x698098D8; Call 3 0 1 2 9 12 0x8B44F7AF;
   Call 2 3 0 1 10 17 0xFFFF5BB1; Call 1 2 3 0 11 22 0x895CD7BE;
   Call 0 1 2 3 12 7 0x6B901122; Call 3 0 1 2 13 12 0xFD987193;
   Call 2 3 0 1 14 17 0xA679438E; Call 1 2 3 0 15 22 0x49B40821].

Definition calls_2 : list call :=
  [Call 0 1 2 3 1 5 0xF61E2562; Call 3 0 1 2 6 9 0xC040B340;
   Call 2 3 0 1 11 14 0x265E5A51; Call 1 2 3 0 0 20 0xE9B6C7AA;
   Call 0 1 2 3 5 5 0xD62F105D; Call 3 0 1 2 10 9 0x02441453;
   Call 2 3 0 1 15 14 0xD8A1E681; Call 1 2 3 0 4 20 0xE7D3FBC8;
   Call 0 1 2 3 9 5 0x21E1CDE6; Call 3 0 1 2 14 9 0xC33707D6;
   Call 2 3 0 1 3 14 0xF4D50D87; Call 1 2 3 0 8 20 0x455A14ED;
   Call 0 1 2 3 13 5 0xA9E3E905; Call 3 0 1 2 2 9 0xFCEFA3F8;
   Call 2 3 0 1 7 14 0x676F02D9; Call 1 2 3 0 12 20 0x8D2A4C8A].

Definition calls_3 : list call :=
  [Call 0 1 2 3 5 4 0xFFFA3942; Call 3 0 1 2 8 11 0x8771F681;
   Call 2 3 0 1 11 16 0x6D9D6122; Call 1 2 3 0 14 23 0xFDE5380C;
   Call 0 1 2 3 1 4 0xA4BEEA44; Call 3 0 1 2 4 11 0x4BDECFA9;
   Call 2 3 0 1 7 16 0xF6BB4B60; Call 1 2 3 0 10 23 0xBEBFBC70;
   Call 0 1 2 3 13 4 0x289B7EC6; Call 3 0 1 2 0 11 0xEAA127FA;
   Call 2 3 0 1 3 16 0xD4EF3085; Call 1 2 3 0 6 23 0x04881D05;
   Call 0 1 2 3 9 4 0xD9D4D039; Call 3 0 1 2 12 11 0xE6DB99E5;
   Call 2 3 0 1 15 16 0x1FA27CF8; Call 1 2 3 0 2 23 0xC4AC5665].

Definition calls_4 : list call :=
  [Call 0 1 2 3 0 6 0xF4292244; Call 3 0 1 2 7 10 0x432AFF97;
   Call 2 3 0 1 14 15 0xAB9423A7; Call 1 2 3 0 5 21 0xFC93A039;
   Call 0 1 2 3 12 6 0x655B59C3; Call 3 0 1 2 3 10 0x8F0CCC92;
   Call 2 3 0 1 10 15 0xFFEFF47D; Call 1 2 3 0 1 21 0x85845DD1;
   Call 0 1 2 3 8 6 0x6FA87E4F; Call 3 0 1 2 15 10 0xFE2CE6E0;
   Call 2 3 0 1 6 15 0xA3014314; Call 1 2 3 0 13 21 0x4E0811A1;
   Call 0 1 2 3 4 6 0xF7537E82; Call 3 0 1 2 11 10 0xBD3AF235;
   Call 2 3 0 1 2 15 0x2AD7D2BB; Call 1 2 3 0 9 21 0xEB86D391].

Definition load_block (data : list Z) (X : list Z) : list Z :=
  fold_left (fun X i => <[i := MBEDTLS_GET_UINT32_LE data (4 * i)]> X) (seq 0 16) X.

(** [mbedtls_internal_md5_process], on the four state words. *)
Definition md5_process (state data : list Z) : list Z :=
  let X := load_block data (zeros 16) in
  let A := fold_left (P F_1 X) calls_1 state in
  let A := fold_left (P F_2 X) calls_2 A in
  let A := fold_left (P F_3 X) calls_3 A in
  let A := fold_left (P F_4 X) calls_4 A in
  zip_with (fun s a => u32 (s + a)) state A.

Definition mbedtls_internal_md5_process (ctx : mbedtls_md5_context) (data : list Z)
  : Z * mbedtls_md5_context :=
  (0, ctx <| state := md5_process (state ctx) data |>).

Definition mbedtls_md5_update_ret (ctx : mbedtls_md5_context) (input : list Z)
  : Z * mbedtls_md5_context :=
  (0, hash_update 64 32 md5_process ctx input).

(** The 64-bit count of bits, low word first. *)
Definition bit_count (total0 total1 : Z) : list Z :=
  let high := Z.lor (Z.shiftr total0 29) (u32 (Z.shiftl total1 3)) in
  let low := u32 (Z.shiftl total0 3) in
  MBEDTLS_PUT_UINT32_LE low ++ MBEDTLS_PUT_UINT32_LE high.

(** The third component is what is written to [output]. *)
Definition mbedtls_md5_finish_ret (ctx : mbedtls_md5_context)
  : Z * mbedtls_md5_context * list Z :=
  let ctx := hash_finish 64 md5_process 8 bit_count ctx in
  (0, ctx, concat (map MBEDTLS_PUT_UINT32_LE (state ctx))).

(** The older names, which drop the code. *)
Definition mbedtls_md5_starts (ctx : mbedtls_md5_context) : mbedtls_md5_context :=
  snd (mbedtls_md5_starts_ret ctx).
Definition mbedtls_md5_process (ctx : mbedtls_md5_context) (data : list Z) : mbedtls_md5_context :=
  snd (mbedtls_internal_md5_process ctx data).
Definition mbedtls_md5_update (ctx : mbedtls_md5_context) (input : list Z) : mbedtls_md5_context :=
  snd (mbedtls_md5_update_ret ctx input).
Definition mbedtls_md5_finish (ctx : mbedtls_md5_context) : mbedtls_md5_context * list Z :=
  let '(_, ctx, output) := mbedtls_md5_finish_ret ctx in (ctx, output).

Definition mbedtls_md5_ret (input : list Z) : Z * list Z :=
  let ctx := mbedtls_md5_init in
  let '(_, ctx) := mbedtls_md5_starts_ret ctx in
  let '(_, ctx) := mbedtls_md5_update_ret ctx input in
  let '(ret, _, output) := mbedtls_md5_finish_ret ctx in
  (ret, output).

Definition mbedtls_md5 (input : list Z) : list Z := snd (mbedtls_md5_ret input).

(** The first and the last vector of the file's self test. *)
Example md5_empty :
  mbedtls_md5_ret [] =
  (0, [0xD4; 0x1D; 0x8C; 0xD9; 0x8F; 0x00; 0xB2; 0x04; 0xE9; 0x80; 0x09; 0x98; 0xEC; 0xF8; 0x42; 0x7E]).
Proof. vm_compute. reflexivity. Qed.

Example md5_eighty_digits :
  mbedtls_md5_ret (cstr "12345678901234567890123456789012345678901234567890123456789012345678901234567890") =
  (0, [0x57; 0xED; 0xF4; 0xA2; 0x2B; 0xE3; 0xC9; 0x55; 0xAC; 0x49; 0xDA; 0x2E; 0x21; 0x07; 0xB6; 0x7A]).
Proof. vm_compute. reflexivity. Qed.

(** ** RFC 1321 *)

(** [I]'s complement is that of a 32-bit word. *)
Definition rfc_F (t : nat) (x y z : Z) : Z :=
  if (t <? 16)%nat then Z.lor (Z.land x y) (Z.land (Z.lnot x) z)
  else if (t <? 32)%nat then Z.lor (Z.land x z) (Z.land y (Z.lnot z))
  else if (t <? 48)%nat then Z.lxor x (Z.lxor y z)
  else Z.lxor y (Z.lor x (2 ^ 32 - 1 - z)).

(** The word a step adds, and by how much it rotates. *)
Definition rfc_k (t : nat) : nat :=
  if (t <? 16)%nat then t
  else if (t <? 32)%nat then ((5 * t + 1) mod 16)%nat
  else if (t <? 48)%nat then ((3 * t + 5) mod 16)%nat
  else ((7 * t) mod 16)%nat.

Definition rfc_s (t : nat) : Z :=
  nth (t mod 4)%nat
    (if (t <? 16)%nat then [7; 12; 17; 22] else if (t <? 32)%nat then [5; 9; 14; 20]
     else if (t <? 48)%nat then [4; 11; 16; 23] else [6; 10; 15; 21]) 0.

(** The sum of [n] more terms of the Taylor series of the sine at [x], in units
    of [2 ^ -256]; [term] is the [i]th. *)
Fixpoint sine_terms (n : nat) (i : Z) (x term : Z) : Z :=
  match n with
  | O => 0
  | Datatypes.S n => term + sine_terms n (i + 2) x (- (term * x * x / ((i + 1) * (i + 2))))
  end.

(** The integer part of 4294967296 times the sine of [t + 1] radians, up to its
    sign; 200 terms leave an error far below one unit. *)
Definition rfc_T (t : nat) : Z :=
  let x := Z.of_nat t + 1 in
  Z.abs (sine_terms 200 1 x (Z.shiftl x 256)) * 2 ^ 32 / 2 ^ 256.

(** [a = b + ((a + F(b,c,d) + X[k] + T) <<< s)], then the names move on by one. *)
Definition rfc_step (X : list Z) (t : nat) (r : list Z) : list Z :=
  match r with
  | [a; b; c; d] =>
      [d; u32 (b + rotl 32 (rfc_s t) (u32 (a + rfc_F t b c d + X.[rfc_k t] + rfc_T t))); b; c]
  | _ => r
  end.

Definition rfc_steps (X : list Z) (n : nat) (r : list Z) : list Z :=
  fold_left (fun r t => rfc_step X t r) (seq 0 n) r.

Definition rfc_compress (H block : list Z) : list Z :=
  zip_with (fun h r => u32 (h + r)) H (rfc_steps (block_words_le block) 64 H).

Definition rfc_md5 (msg : list Z) : list Z :=
  concat (map (le_bytes 4)
    (iterated_hash 64 rfc_compress md5_iv 8 (le_bytes 8 (8 * Z.of_nat (length msg))) msg)).

(** ** The steps *)

(** The call of step [t], as the RFC numbers the steps. *)
Definition nth_call (t : nat) : call :=
  Call (rot 4 t 0) (rot 4 t 1) (rot 4 t 2) (rot 4 t 3) (rfc_k t) (rfc_s t) (rfc_T t).

(** The code's calls are the RFC's: registers, words, shifts, sines. *)
Lemma md5_calls_spec :
  calls_1 = map nth_call (seq 0 16) /\ calls_2 = map nth_call (seq 16 16) /\
  calls_3 = map nth_call (seq 32 16) /\ calls_4 = map nth_call (seq 48 16).
Proof. vm_compute. auto. Qed.

Lemma md5_S_rotl x n : is_u32 x -> 0 < n < 32 -> S x n = rotl 32 n x.
Proof. exact (masked_rotl x n). Qed.

(** The code's [F] of step [t]. *)
Definition code_F (t : nat) : Z -> Z -> Z -> Z :=
  if (t <? 16)%nat then F_1 else if (t <? 32)%nat then F_2 else if (t <? 48)%nat then F_3 else F_4.

Lemma lnot_u32 z : is_u32 z -> u32 (Z.lnot z) = 2 ^ 32 - 1 - z.
Proof.
  intros Hz. unfold u32, Z.lnot. unfold is_u32 in Hz.
  replace (Z.pred (- z)) with (2 ^ 32 - 1 - z + (-1) * 2 ^ 32) by lia.
  rewrite Z.mod_add, Z.mod_small by lia. reflexivity.
Qed.

Lemma code_F_rfc t x y z : is_u32 z -> code_F t x y z = rfc_F t x y z.
Proof.
  intros Hz. unfold code_F, rfc_F, F_1, F_2, F_3, F_4.
  repeat (match goal with |- context [(t <? ?n)%nat] => destruct (t <? n)%nat end);
    rewrite ?lnot_u32 by exact Hz; try reflexivity;
    apply Z.bits_inj'; intros i Hi;
    rewrite ?Z.lor_spec, ?Z.lxor_spec, ?Z.land_spec, ?Z.lxor_spec, ?Z.lnot_spec by exact Hi; btauto.
Qed.

(** One expansion of the macro is one step of the RFC, seen from the next
    rotation. *)
Lemma md5_P_step t r X A :
  (r < 4)%nat -> length A = 4%nat -> words32 A -> 0 < rfc_s t < 32 ->
  view 4 (Datatypes.S r)
    (P (code_F t) X A (Call (rot 4 r 0) (rot 4 r 1) (rot 4 r 2) (rot 4 r 3) (rfc_k t) (rfc_s t) (rfc_T t)))
  = rfc_step X t (view 4 r A).
Proof.
  intros Hr Hl HA Hs. unfold P, rfc_step.
  do 4 (destruct A as [|? A]; [discriminate Hl|]). destruct A; [|discriminate Hl].
  unfold words32 in HA. rewrite !Forall_cons in HA. destruct HA as (? & ? & ? & ? & _).
  do 4 (destruct r as [|r];
    [cbn -[u32 Z.add code_F rfc_F rfc_k rfc_s rfc_T nth S rotl]; cbn [nth];
     rewrite code_F_rfc, !md5_S_rotl by (auto with words);
     repeat match goal with |- _ :: _ = _ :: _ => f_equal end; try reflexivity; f_equal;
     rewrite Z.add_comm; do 2 f_equal; f_equal; lia|]). lia.
Qed.

Lemma rfc_s_range t : 0 < rfc_s t < 32.
Proof.
  unfold rfc_s. pose proof (Nat.mod_upper_bound t 4 ltac:(lia)) as Hr. revert Hr.
  generalize (t mod 4)%nat as r. intros r Hr.
  do 3 (destruct (_ <? _)%nat; [do 4 (destruct r as [|r]; [cbn; lia|]); lia|]).
  do 4 (destruct r as [|r]; [cbn; lia|]); lia.
Qed.

Lemma md5_P_words F X A c : words32 A -> words32 (P F X A c).
Proof. intros H. destruct c. unfold P. repeat apply Forall_insert; [exact H|apply u32_range..]. Qed.

Lemma md5_P_length F X A c : length (P F X A c) = length A.
Proof. destruct c. unfold P. rewrite !length_insert. reflexivity. Qed.

Section process.
Context (H0 X : list Z) (HH : words32 H0) (HHl : length H0 = 4%nat).

(** After [t] steps. *)
Record loop_inv (t : nat) (A : list Z) : Prop := {
  loop_length : length A = 4%nat;
  loop_words : words32 A;
  loop_view : view 4 t A = rfc_steps X t H0 }.

Lemma nth_call_inv t A : loop_inv t A -> loop_inv (Datatypes.S t) (P (code_F t) X A (nth_call t)).
Proof.
  intros [Hl Hw Hv]. split; [rewrite md5_P_length; exact Hl|apply md5_P_words, Hw|].
  unfold rfc_steps. rewrite seq_S, fold_left_app. cbn [fold_left Nat.add]. fold (rfc_steps X t H0).
  rewrite <- Hv, <- (view_mod 4 t), view_mod_S by lia. unfold nth_call.
  rewrite <- !(rot_mod 4 t) by lia.
  apply md5_P_step; [apply Nat.mod_upper_bound; lia|exact Hl|exact Hw|apply rfc_s_range].
Qed.

(** Sixteen calls under one [F]. *)
Lemma sixteen_calls_inv F g A :
  (forall t, (g <= t < g + 16)%nat -> code_F t = F) -> loop_inv g A ->
  loop_inv (g + 16) (fold_left (P F X) (map nth_call (seq g 16)) A).
Proof.
  intros HF HA. rewrite <- (fold_left_map_seq (fun A c => P F X A c)).
  assert (H : loop_inv (g + 16) (fold_left (fun A i => P F X A (nth_call (g + i))) (seq 0 16) A)).
  { apply (fold_seq_inv (fun A i => P F X A (nth_call (g + i))) (fun i A => loop_inv (g + i) A)).
    - intros i y Hi Hy. rewrite Nat.add_succ_r, <- (HF (g + i)%nat) by lia. apply nth_call_inv, Hy.
    - rewrite Nat.add_0_r. exact HA. }
  exact H.
Qed.

Lemma md5_steps_rfc :
  fold_left (P F_4 X) calls_4 (fold_left (P F_3 X) calls_3
    (fold_left (P F_2 X) calls_2 (fold_left (P F_1 X) calls_1 H0))) = rfc_steps X 64 H0.
Proof.
  destruct md5_calls_spec as (-> & -> & -> & ->).
  assert (H : loop_inv 0 H0) by (split; [exact HHl|exact HH|apply view_0, HHl]).
  assert (HF : forall n t, (n <= t)%nat -> (t <? n)%nat = false) by (intros; apply Nat.ltb_ge; assumption).
  assert (HT : forall n t, (t < n)%nat -> (t <? n)%nat = true) by (intros; apply Nat.ltb_lt; assumption).
  apply (sixteen_calls_inv F_1 0) in H; [|intros t Ht; unfold code_F; rewrite HT by lia; reflexivity].
  apply (sixteen_calls_inv F_2 16) in H;
    [|intros t Ht; unfold code_F; rewrite HF, HT by lia; reflexivity].
  apply (sixteen_calls_inv F_3 32) in H;
    [|intros t Ht; unfold code_F; rewrite !HF, HT by lia; reflexivity].
  apply (sixteen_calls_inv F_4 48) in H; [|intros t Ht; unfold code_F; rewrite !HF by lia; reflexivity].
  change (48 + 16)%nat with 64%nat in H. rewrite <- (loop_view _ _ H), <- (view_mod 4 64) by lia. symmetry.
  apply view_0, (loop_length _ _ H).
Qed.

End process.

(** ** The digest *)

Lemma md5_load_block_words data : length data = 64%nat -> load_block data (zeros 16) = block_words_le data.
Proof. apply (load_words MBEDTLS_GET_UINT32_LE le_value). apply GET_LE_block. Qed.

Lemma rfc_steps_length X n r : length r = 4%nat -> length (rfc_steps X n r) = 4%nat.
Proof.
  intros Hr. apply (fold_seq_inv _ (fun _ r => length r = 4%nat)); [|exact Hr].
  intros i y _ Hy. do 4 (destruct y as [|? y]; [discriminate Hy|]). destruct y; [reflexivity|discriminate Hy].
Qed.

(** The compression function is the RFC's. *)
Lemma md5_process_rfc st block :
  hash_value 4 st -> length block = 64%nat -> byte_list block ->
  md5_process st block = rfc_compress st block /\ hash_value 4 (rfc_compress st block).
Proof.
  intros [Hl Hw] Hbl Hb. split.
  - unfold md5_process, rfc_compress. cbn zeta.
    rewrite md5_steps_rfc by assumption. rewrite md5_load_block_words by exact Hbl. reflexivity.
  - apply hash_value_add; [split; assumption|]. apply rfc_steps_length, Hl.
Qed.

(** The length field of a message below 2^61 bytes. *)
Lemma md5_bit_count_spec n :
  0 <= n < 2 ^ 61 ->
  bit_count (n mod 2 ^ 32) ((n / 2 ^ 32) mod 2 ^ 32) = le_bytes 8 (8 * n) /\
  length (le_bytes 8 (8 * n)) = 8%nat /\ byte_list (le_bytes 8 (8 * n)).
Proof.
  intros Hn. split; [|split; [apply le_bytes_length|apply le_bytes_bytes]].
  unfold bit_count, u32. destruct (bit_count_words 32 n) as [Hh Hl]; [lia|exact Hn|].
  change (32 - 3) with 29 in Hh. rewrite Hh, Hl, !PUT_LE_le_bytes. apply (words_le_bytes 4).
Qed.

(** A context fed with a message in pieces of any size ends with the digest that
    RFC 1321 gives the message, whatever was in the context before it was
    started. *)
Theorem md5_stream_is_rfc ctx chunks :
  length (buffer ctx) = 64%nat ->
  Forall byte_list chunks -> Forall (fun c => Z.of_nat (length c) < 2 ^ 32) chunks ->
  Z.of_nat (length (concat chunks)) < 2 ^ 61 ->
  let ctx := snd (mbedtls_md5_starts_ret ctx) in
  let ctx := fold_left (fun ctx c => snd (mbedtls_md5_update_ret ctx c)) chunks ctx in
  snd (mbedtls_md5_finish_ret ctx) = rfc_md5 (concat chunks).
Proof.
  intros Hbuf Hb Hc Hl. cbn zeta. unfold mbedtls_md5_finish_ret, rfc_md5. cbn [snd].
  assert (Hiv : hash_value 4 md5_iv)
    by (split; [reflexivity|]; repeat (constructor; [unfold is_u32; lia|]); constructor).
  destruct (digest_stream 64 32 md5_process rfc_compress 6 eq_refl ltac:(lia) (hash_value 4) md5_process_rfc
              8 bit_count (fun n => le_bytes 8 (8 * n)) (2 ^ 61) ltac:(lia) md5_bit_count_spec
              md5_iv (buffer ctx) chunks Hiv Hbuf Hb Hc Hl) as [Hst _].
  rewrite (map_ext _ _ PUT_LE_le_bytes). f_equal. f_equal. exact Hst.
Qed.

End md5.
