(* ===== verification/Ripemd160.v ===== *)
(** RIPEMD-160 as mbedTLS computes it (lib/mbedtls/library/ripemd160.c), and its
    equality with the definition of Dobbertin, Bosselaers and Preneel: two lines
    of eighty steps, here interleaved and unrolled. *)

From S2P Require Import Prelude MbedCommon HashStream.
From Stdlib Require Import Btauto.
Import mbed stream rounds.

Module ripemd160.

Definition mbedtls_ripemd160_context : Type := hash_context.

Definition mbedtls_ripemd160_init : mbedtls_ripemd160_context :=
  {| total0 := 0; total1 := 0; state := zeros 5; buffer := zeros 64 |}.

(** Freeing zeroes the context. *)
Definition mbedtls_ripemd160_free (ctx : mbedtls_ripemd160_context) : mbedtls_ripemd160_context :=
  mbedtls_ripemd160_init.

Definition mbedtls_ripemd160_clone (dst src : mbedtls_ripemd160_context) : mbedtls_ripemd160_context := src.

Definition ripemd160_iv : list Z := [0x67452301; 0xEFCDAB89; 0x98BADCFE; 0x10325476; 0xC3D2E1F0].

Definition mbedtls_ripemd160_starts_ret (ctx : mbedtls_ripemd160_context) : Z * mbedtls_ripemd160_context :=
  (0, {| total0 := 0; total1 := 0; state := ripemd160_iv; buffer := buffer ctx |}).

(** The complement of a [uint32_t]. *)
Definition not32 (x : Z) : Z := u32 (Z.lnot x).

Definition F1 (x y z : Z) : Z := Z.lxor (Z.lxor x y) z.
Definition F2 (x y z : Z) : Z := Z.lor (Z.land x y) (Z.land (not32 x) z).
Definition F3 (x y z : Z) : Z := Z.lxor (Z.lor x (not32 y)) z.
Definition F4 (x y z : Z) : Z := Z.lor (Z.land x z) (Z.land y (not32 z)).
Definition F5 (x y z : Z) : Z := Z.lxor x (Z.lor y (not32 z)).

Definition S (x n : Z) : Z := Z.lor (u32 (Z.shiftl x n)) (Z.shiftr x (32 - n)).

(** [A] to [E] of one line are the slots of a list. *)
Definition P (X : list Z) (a b c d e r : nat) (s : Z) (f : Z -> Z -> Z -> Z) (k : Z) (A : list Z) : list Z :=
  let A := <[a := u32 (A.[a] + (f A.[b] A.[c] A.[d] + X.[r] + k))]> A in
  let A := <[a := u32 (S A.[a] s + A.[e])]> A in
  <[c := S A.[c] 10]> A.

(** The arguments of [P2]: the registers of both lines, the word and the shift of
    each. *)
Inductive call2 := Call2 (a b c d e r : nat) (s : Z) (rp : nat) (sp : Z).

Definition P2 (F : Z -> Z -> Z -> Z) (K : Z) (Fp : Z -> Z -> Z -> Z) (Kp : Z) (X : list Z)
  (AA : list Z * list Z) (call : call2) : list Z * list Z :=
  let 'Call2 a b c d e r s rp sp := call in
  let '(A, Ap) := AA in
  (P X a b c d e r s F K A, P X a b c d e rp sp Fp Kp Ap).

(** The calls made under each definition of [F], [K], [Fp] and [Kp]. *)
Definition calls_1 : list call2 :=
  [Call2 0 1 2 3 4 0 11 5 8; Call2 4 0 1 2 3 1 14 14 9; Call2 3 4 0 1 2 2 15 7 9;
   Call2 2 3 4 0 1 3 12 0 11; Call2 1 2 3 4 0 4 5 9 13; Call2 0 1 2 3 4 5 8 2 15;
   Call2 4 0 1 2 3 6 7 11 15; Call2 3 4 0 1 2 7 9 4 5; Call2 2 3 4 0 1 8 11 13 7;
   Call2 1 2 3 4 0 9 13 6 7; Call2 0 1 2 3 4 10 14 15 8; Call2 4 0 1 2 3 11 15 8 11;
   Call2 3 4 0 1 2 12 6 1 14; Call2 2 3 4 0 1 13 7 10 14; Call2 1 2 3 4 0 14 9 3 12;
   Call2 0 1 2 3 4 15 8 12 6].

Definition calls_2 : list call2 :=
  [Call2 4 0 1 2 3 7 7 6 9; Call2 3 4 0 1 2 4 6 11 13; Call2 2 3 4 0 1 13 8 3 15;
   Call2 1 2 3 4 0 1 13 7 7; Call2 0 1 2 3 4 10 11 0 12; Call2 4 0 1 2 3 6 9 13 8;
   Call2 3 4 0 1 2 15 7 5 9; Call2 2 3 4 0 1 3 15 10 11; Call2 1 2 3 4 0 12 7 14 7;
   Call2 0 1 2 3 4 0 12 15 7; Call2 4 0 1 2 3 9 15 8 12; Call2 3 4 0 1 2 5 9 12 7;
   Call2 2 3 4 0 1 2 11 4 6; Call2 1 2 3 4 0 14 7 9 15; Call2 0 1 2 3 4 11 13 1 13;
   Call2 4 0 1 2 3 8 12 2 11].

Definition calls_3 : list call2 :=
  [Call2 3 4 0 1 2 3 11 15 9; Call2 2 3 4 0 1 10 13 5 7; Call2 1 2 3 4 0 14 6 1 15;
   Call2 0 1 2 3 4 4 7 3 11; Call2 4 0 1 2 3 9 14 7 8; Call2 3 4 0 1 2 15 9 14 6;
   Call2 2 3 4 0 1 8 13 6 6; Call2 1 2 3 4 0 1 15 9 14; Call2 0 1 2 3 4 2 14 11 12;
   Call2 4 0 1 2 3 7 8 8 13; Call2 3 4 0 1 2 0 13 12 5; Call2 2 3 4 0 1 6 6 2 14;
   Call2 1 2 3 4 0 13 5 10 13; Call2 0 1 2 3 4 11 12 0 13; Call2 4 0 1 2 3 5 7 4 7;
   Call2 3 4 0 1 2 12 5 13 5].

Definition calls_4 : list call2 :=
  [Call2 2 3 4 0 1 1 11 8 15; Call2 1 2 3 4 0 9 12 6 5; Call2 0 1 2 3 4 11 14 4 8;
   Call2 4 0 1 2 3 10 15 1 11; Call2 3 4 0 1 2 0 14 3 14; Call2 2 3 4 0 1 8 15 11 14;
   Call2 1 2 3 4 0 12 9 15 6; Call2 0 1 2 3 4 4 8 0 14; Call2 4 0 1 2 3 13 9 5 6;
   Call2 3 4 0 1 2 3 14 12 9; Call2 2 3 4 0 1 7 5 2 12; Call2 1 2 3 4 0 15 6 13 9;
   Call2 0 1 2 3 4 14 8 9 12; Call2 4 0 1 2 3 5 6 7 5; Call2 3 4 0 1 2 6 5 10 15;
   Call2 2 3 4 0 1 2 12 14 8].

Definition calls_5 : list call2 :=
  [Call2 1 2 3 4 0 4 9 12 8; Call2 0 1 2 3 4 0 15 15 5; Call2 4 0 1 2 3 5 5 10 12;
   Call2 3 4 0 1 2 9 11 4 9; Call2 2 3 4 0 1 7 6 1 12; Call2 1 2 3 4 0 12 8 5 5;
   Call2 0 1 2 3 4 2 13 8 14; Call2 4 0 1 2 3 10 12 7 6; Call2 3 4 0 1 2 14 5 6 8;
   Call2 2 3 4 0 1 1 12 2 13; Call2 1 2 3 4 0 3 13 13 6; Call2 0 1 2 3 4 8 14 14 5;
   Call2 4 0 1 2 3 11 11 0 15; Call2 3 4 0 1 2 6 8 3 13; Call2 2 3 4 0 1 15 5 9 11;
   Call2 1 2 3 4 0 13 6 11 11].

Definition load_block (data : list Z) (X : list Z) : list Z :=
  fold_left (fun X i => <[i := MBEDTLS_GET_UINT32_LE data (4 * i)]> X) (seq 0 16) X.

(** [mbedtls_internal_ripemd160_process], on the five state words. *)
Definition ripemd160_process (state data : list Z) : list Z :=
  let X := load_block data (zeros 16) in
  let AA := (state, state) in
  let AA := fold_left (P2 F1 0x00000000 F5 0x50A28BE6 X) calls_1 AA in
  let AA := fold_left (P2 F2 0x5A827999 F4 0x5C4DD124 X) calls_2 AA in
  let AA := fold_left (P2 F3 0x6ED9EBA1 F3 0x6D703EF3 X) calls_3 AA in
  let AA := fold_left (P2 F4 0x8F1BBCDC F2 0x7A6D76E9 X) calls_4 AA in
  let '(A, Ap) := fold_left (P2 F5 0xA953FD4E F1 0x00000000 X) calls_5 AA in
  let C := u32 (state.[1] + A.[2] + Ap.[3]) in
  let state1 := u32 (state.[2] + A.[3] + Ap.[4]) in
  let state2 := u32 (state.[3] + A.[4] + Ap.[0]) in
  let state3 := u32 (state.[4] + A.[0] + Ap.[1]) in
  let state4 := u32 (state.[0] + A.[1] + Ap.[2]) in
  [C; state1; state2; state3; state4].

Definition mbedtls_internal_ripemd160_process (ctx : mbedtls_ripemd160_context) (data : list Z)
  : Z * mbedtls_ripemd160_context :=
  (0, ctx <| state := ripemd160_process (state ctx) data |>).

Definition mbedtls_ripemd160_update_ret (ctx : mbedtls_ripemd160_context) (input : list Z)
  : Z * mbedtls_ripemd160_context :=
  (0, hash_update 64 32 ripemd160_process ctx input).

Definition ripemd160_padding : list Z :=
  [0x80; 0; 0; 0; 0; 0; 0; 0; 0; 0; 0; 0; 0; 0; 0; 0;
   0; 0; 0; 0; 0; 0; 0; 0; 0; 0; 0; 0; 0; 0; 0; 0;
   0; 0; 0; 0; 0; 0; 0; 0; 0; 0; 0; 0; 0; 0; 0; 0;
   0; 0; 0; 0; 0; 0; 0; 0; 0; 0; 0; 0; 0; 0; 0; 0].

(** The padding and the length go through update; the third component is what is
    written to [output]. *)
Definition mbedtls_ripemd160_finish_ret (ctx : mbedtls_ripemd160_context)
  : Z * mbedtls_ripemd160_context * list Z :=
  let high := Z.lor (Z.shiftr (total0 ctx) 29) (u32 (Z.shiftl (total1 ctx) 3)) in
  let low := u32 (Z.shiftl (total0 ctx) 3) in
  let msglen := MBEDTLS_PUT_UINT32_LE low ++ MBEDTLS_PUT_UINT32_LE high in
  let last := Z.land (total0 ctx) 0x3F in
  let padn := if last <? 56 then 56 - last else 120 - last in
  let '(_, ctx) := mbedtls_ripemd160_update_ret ctx (take (Z.to_nat padn) ripemd160_padding) in
  let '(ret, ctx) := mbedtls_ripemd160_update_ret ctx msglen in
  (0, ctx, concat (map MBEDTLS_PUT_UINT32_LE (state ctx))).

(** The older names, which drop the code. *)
Definition mbedtls_ripemd160_starts (ctx : mbedtls_ripemd160_context) : mbedtls_ripemd160_context :=
  snd (mbedtls_ripemd160_starts_ret ctx).
Definition mbedtls_ripemd160_process (ctx : mbedtls_ripemd160_context) (data : list Z)
  : mbedtls_ripemd160_context :=
  snd (mbedtls_internal_ripemd160_process ctx data).
Definition mbedtls_ripemd160_update (ctx : mbedtls_ripemd160_context) (input : list Z)
  : mbedtls_ripemd160_context :=
  snd (mbedtls_ripemd160_update_ret ctx input).
Definition mbedtls_ripemd160_finish (ctx : mbedtls_ripemd160_context)
  : mbedtls_ripemd160_context * list Z :=
  let '(_, ctx, output) := mbedtls_ripemd160_finish_ret ctx in (ctx, output).

Definition mbedtls_ripemd160_ret (input : list Z) : Z * list Z :=
  let ctx := mbedtls_ripemd160_init in
  let '(_, ctx) := mbedtls_ripemd160_starts_ret ctx in
  let '(_, ctx) := mbedtls_ripemd160_update_ret ctx input in
  let '(ret, _, output) := mbedtls_ripemd160_finish_ret ctx in
  (ret, output).

Definition mbedtls_ripemd160 (input : list Z) : list Z := snd (mbedtls_ripemd160_ret input).

(** Two vectors of the file's self test. *)
Example ripemd160_empty :
  mbedtls_ripemd160_ret [] =
  (0, [0x9c; 0x11; 0x85; 0xa5; 0xc5; 0xe9; 0xfc; 0x54; 0x61; 0x28;
       0x08; 0x97; 0x7e; 0xe8; 0xf5; 0x48; 0xb2; 0x25; 0x8d; 0x31]).
Proof. vm_compute. reflexivity. Qed.

Example ripemd160_two_blocks :
  mbedtls_ripemd160_ret (cstr "abcdbcdecdefdefgefghfghighijhijkijkljklmklmnlmnomnopnopq") =
  (0, [0x12; 0xa0; 0x53; 0x38; 0x4a; 0x9c; 0x0c; 0x88; 0xe4; 0x05;
       0xa0; 0x6c; 0x27; 0xdc; 0xf4; 0x9a; 0xda; 0x62; 0xeb; 0x2b]).
Proof. vm_compute. reflexivity. Qed.

(** ** The definition of RIPEMD-160 *)

(** The functions of the five rounds; the second line takes them backwards. *)
Definition rmd_f (round : nat) (x y z : Z) : Z :=
  match round with
  | 0%nat => Z.lxor (Z.lxor x y) z
  | 1%nat => Z.lor (Z.land x y) (Z.land (Z.lnot x) z)
  | 2%nat => Z.lxor (Z.lor x (2 ^ 32 - 1 - y)) z
  | 3%nat => Z.lor (Z.land x z) (Z.land y (Z.lnot z))
  | _ => Z.lxor x (Z.lor y (2 ^ 32 - 1 - z))
  end.

(** The integer cube root by bisection: [n] bits. *)
Fixpoint cube_root (n : nat) (x acc : Z) : Z :=
  match n with
  | O => acc
  | Datatypes.S n =>
      let next := acc + 2 ^ Z.of_nat n in
      cube_root n x (if next ^ 3 <=? x then next else acc)
  end.

(** The integer parts of [2 ^ 30] times the square roots, and the cube roots, of
    2, 3, 5 and 7. *)
Definition rmd_K (right_ : bool) (round : nat) : Z :=
  if right_
  then match round with
       | 0%nat => cube_root 32 (2 * 2 ^ 90) 0 | 1%nat => cube_root 32 (3 * 2 ^ 90) 0
       | 2%nat => cube_root 32 (5 * 2 ^ 90) 0 | 3%nat => cube_root 32 (7 * 2 ^ 90) 0
       | _ => 0
       end
  else match round with
       | 0%nat => 0
       | 1%nat => Z.sqrt (2 * 2 ^ 60) | 2%nat => Z.sqrt (3 * 2 ^ 60)
       | 3%nat => Z.sqrt (5 * 2 ^ 60) | _ => Z.sqrt (7 * 2 ^ 60)
       end.

(** The message words: the permutation [rho] once more in each round, from the
    identity in the left line and from [9 i + 5] in the right. *)
Definition rho (i : nat) : nat :=
  nth i [7; 4; 13; 1; 10; 6; 15; 3; 12; 0; 9; 5; 2; 14; 11; 8]%nat 0%nat.

Definition rmd_r (right_ : bool) (t : nat) : nat :=
  let i := (t mod 16)%nat in
  Nat.iter (t / 16) rho (if right_ then ((9 * i + 5) mod 16)%nat else i).

(** The shifts: by round and message word, the same for both lines. *)
Definition rmd_shifts : list (list Z) :=
  [[11; 14; 15; 12;  5;  8;  7;  9; 11; 13; 14; 15;  6;  7;  9;  8];
   [12; 13; 11; 15;  6;  9;  9;  7; 12; 15; 11; 13;  7;  8;  7;  7];
   [13; 15; 14; 11;  7;  7;  6;  8; 13; 14; 13; 12;  5;  5;  6;  9];
   [14; 11; 12; 14;  8;  6;  5;  5; 15; 12; 15; 14;  9;  9;  8;  6];
   [15; 12; 13; 13;  9;  5;  8;  6; 14; 11; 12; 11;  8;  6;  5;  5]].

Definition rmd_s (right_ : bool) (t : nat) : Z := (nth (t / 16)%nat rmd_shifts []).[rmd_r right_ t].

(** [T := rol(A + f(B, C, D) + X + K) + E], then the names move on by one. *)
Definition rmd_step (right_ : bool) (X : list Z) (t : nat) (r : list Z) : list Z :=
  match r with
  | [a; b; c; d; e] =>
      let f := rmd_f (if right_ then 4 - t / 16 else t / 16) in
      let T := u32 (rotl 32 (rmd_s right_ t)
                      (u32 (a + f b c d + X.[rmd_r right_ t] + rmd_K right_ (t / 16))) + e) in
      [e; T; b; rotl 32 10 c; d]
  | _ => r
  end.

Definition rmd_line (right_ : bool) (X : list Z) (n : nat) (r : list Z) : list Z :=
  fold_left (fun r t => rmd_step right_ X t r) (seq 0 n) r.

(** Both lines start from the hash value and are added to it, each word one
    further on. *)
Definition rmd_combine (H r r' : list Z) : list Z :=
  [u32 (H.[1] + r.[2] + r'.[3]); u32 (H.[2] + r.[3] + r'.[4]); u32 (H.[3] + r.[4] + r'.[0]);
   u32 (H.[4] + r.[0] + r'.[1]); u32 (H.[0] + r.[1] + r'.[2])].

Definition rmd_compress (H block : list Z) : list Z :=
  let X := block_words_le block in
  rmd_combine H (rmd_line false X 80 H) (rmd_line true X 80 H).

Definition rmd160 (msg : list Z) : list Z :=
  concat (map (le_bytes 4)
    (iterated_hash 64 rmd_compress ripemd160_iv 8 (le_bytes 8 (8 * Z.of_nat (length msg))) msg)).

(** ** The steps *)

Definition nth_call (t : nat) : call2 :=
  Call2 (rot 5 t 0) (rot 5 t 1) (rot 5 t 2) (rot 5 t 3) (rot 5 t 4)
    (rmd_r false t) (rmd_s false t) (rmd_r true t) (rmd_s true t).

(** The code's calls are the definition's: registers, words, shifts. *)
Lemma rmd_calls_spec :
  calls_1 = map nth_call (seq 0 16) /\ calls_2 = map nth_call (seq 16 16) /\
  calls_3 = map nth_call (seq 32 16) /\ calls_4 = map nth_call (seq 48 16) /\
  calls_5 = map nth_call (seq 64 16).
Proof. vm_compute. repeat split. Qed.

Lemma not32_sub x : is_u32 x -> not32 x = 2 ^ 32 - 1 - x.
Proof.
  intros Hx. unfold not32, u32, Z.lnot. unfold is_u32 in Hx.
  replace (Z.pred (- x)) with (2 ^ 32 - 1 - x + (-1) * 2 ^ 32) by lia.
  rewrite Z.mod_add, Z.mod_small by lia. reflexivity.
Qed.

Lemma land_not32 x y : is_u32 y -> Z.land (not32 x) y = Z.land (Z.lnot x) y.
Proof.
  intros Hy. unfold not32, u32. rewrite <- Z.land_ones, <- Z.land_assoc, (Z.land_comm (Z.ones 32)) by lia.
  rewrite Z.land_ones, Z.mod_small by (assumption || lia). reflexivity.
Qed.

(** The code's function of a round. *)
Definition code_F (round : nat) : Z -> Z -> Z -> Z :=
  match round with 0%nat => F1 | 1%nat => F2 | 2%nat => F3 | 3%nat => F4 | _ => F5 end.

Lemma code_F_rmd round x y z : is_u32 x -> is_u32 y -> is_u32 z -> code_F round x y z = rmd_f round x y z.
Proof.
  intros Hx Hy Hz. destruct round as [|[|[|[|round]]]]; cbn [code_F rmd_f];
    unfold F1, F2, F3, F4, F5; rewrite ?(Z.land_comm y), ?land_not32, ?not32_sub by assumption; reflexivity.
Qed.

Lemma rmd_S_rotl x n : is_u32 x -> 0 < n < 32 -> S x n = rotl 32 n x.
Proof. exact (fun H => shifts_rotl 32 n x H). Qed.

(** One expansion of the macro is one step of the line, seen from the next
    rotation. *)
Lemma rmd_P_step right_ t r X A :
  (r < 5)%nat -> length A = 5%nat -> words32 A -> 0 < rmd_s right_ t < 32 ->
  view 5 (Datatypes.S r)
    (P X (rot 5 r 0) (rot 5 r 1) (rot 5 r 2) (rot 5 r 3) (rot 5 r 4) (rmd_r right_ t) (rmd_s right_ t)
       (code_F (if right_ then 4 - t / 16 else t / 16)) (rmd_K right_ (t / 16)) A)
  = rmd_step right_ X t (view 5 r A).
Proof.
  intros Hr Hl HA Hs. unfold P, rmd_step. set (g := if right_ then _ else _).
  generalize dependent (rmd_s right_ t). intros sh Hs. generalize (rmd_K right_ (t / 16)) as k. intros k.
  generalize (X.[rmd_r right_ t]) as x. intros x.
  do 5 (destruct A as [|? A]; [discriminate Hl|]). destruct A; [|discriminate Hl].
  unfold words32 in HA. rewrite !Forall_cons in HA. destruct HA as (? & ? & ? & ? & ? & _).
  do 5 (destruct r as [|r];
    [cbn -[u32 Z.add code_F rmd_f S rotl]; rewrite code_F_rmd, !rmd_S_rotl by (auto with words || lia);
     repeat match goal with |- _ :: _ = _ :: _ => f_equal end; try reflexivity;
     rewrite !Z.add_assoc; reflexivity|]). lia.
Qed.

Lemma rmd_s_range right_ t : (t < 80)%nat -> 0 < rmd_s right_ t < 32.
Proof.
  intros Ht. destruct right_; do 80 (destruct t as [|t]; [vm_compute; auto|]); lia.
Qed.

Lemma rmd_P_words X a b c d e r s f k A : words32 A -> words32 (P X a b c d e r s f k A).
Proof.
  intros H. unfold P. cbn zeta.
  match goal with |- words32 (<[c := S ?B.[c] 10]> ?B) => assert (H1 : words32 B) end.
  { repeat apply Forall_insert; [exact H|apply u32_range..]. }
  apply Forall_insert; [exact H1|]. rewrite rmd_S_rotl by (auto with words || lia).
  apply rotl_word; [apply nth_word, H1|lia].
Qed.

Lemma rmd_P_length X a b c d e r s f k A : length (P X a b c d e r s f k A) = length A.
Proof. unfold P. rewrite !length_insert. reflexivity. Qed.

Section process.
Context (H0 X : list Z) (HH : words32 H0) (HHl : length H0 = 5%nat).

(** A line after [t] steps. *)
Record line_inv (right_ : bool) (t : nat) (A : list Z) : Prop := {
  line_length : length A = 5%nat;
  line_words : words32 A;
  line_view : view 5 t A = rmd_line right_ X t H0 }.

Lemma line_step right_ t A :
  (t < 80)%nat -> line_inv right_ t A ->
  line_inv right_ (Datatypes.S t)
    (P X (rot 5 t 0) (rot 5 t 1) (rot 5 t 2) (rot 5 t 3) (rot 5 t 4) (rmd_r right_ t) (rmd_s right_ t)
       (code_F (if right_ then 4 - t / 16 else t / 16)) (rmd_K right_ (t / 16)) A).
Proof.
  intros Ht [Hl Hw Hv]. split; [rewrite rmd_P_length; exact Hl|apply rmd_P_words, Hw|].
  unfold rmd_line. rewrite seq_S, fold_left_app. cbn [fold_left Nat.add]. fold (rmd_line right_ X t H0).
  rewrite <- Hv, <- (view_mod 5 t), view_mod_S by lia. rewrite <- !(rot_mod 5 t) by lia.
  apply rmd_P_step; [apply Nat.mod_upper_bound; lia|exact Hl|exact Hw|apply rmd_s_range, Ht].
Qed.

Definition lines_inv (t : nat) (AA : list Z * list Z) : Prop :=
  line_inv false t (fst AA) /\ line_inv true t (snd AA).

(** Sixteen calls, the ones of round [g]. *)
Lemma rmd_round_inv F K Fp Kp g AA :
  (g < 5)%nat -> code_F g = F -> rmd_K false g = K -> code_F (4 - g) = Fp -> rmd_K true g = Kp ->
  lines_inv (16 * g) AA ->
  lines_inv (16 * g + 16) (fold_left (P2 F K Fp Kp X) (map nth_call (seq (16 * g) 16)) AA).
Proof.
  intros Hg HF HK HFp HKp HA. rewrite <- (fold_left_map_seq (fun AA c => P2 F K Fp Kp X AA c)).
  apply (fold_seq_inv (fun AA i => P2 F K Fp Kp X AA (nth_call (16 * g + i)))
           (fun i AA => lines_inv (16 * g + i) AA)).
  - intros i [A Ap] Hi [H1 H2]. rewrite Nat.add_succ_r.
    assert (Hdiv : ((16 * g + i) / 16 = g)%nat)
      by (rewrite Nat.mul_comm, Nat.div_add_l, Nat.div_small by lia; lia).
    apply line_step in H1; [|lia]. apply line_step in H2; [|lia].
    cbn [fst snd] in H1, H2. rewrite Hdiv, HF, HK in H1. rewrite Hdiv, HFp, HKp in H2.
    unfold P2, nth_call. split; [exact H1|exact H2].
  - rewrite Nat.add_0_r. exact HA.
Qed.

Lemma view_80 A : length A = 5%nat -> view 5 80 A = A.
Proof. intros H. rewrite <- (view_mod 5 80) by lia. apply view_0, H. Qed.

Lemma ripemd160_lines :
  fold_left (P2 F5 0xA953FD4E F1 0x00000000 X) calls_5
   (fold_left (P2 F4 0x8F1BBCDC F2 0x7A6D76E9 X) calls_4
    (fold_left (P2 F3 0x6ED9EBA1 F3 0x6D703EF3 X) calls_3
     (fold_left (P2 F2 0x5A827999 F4 0x5C4DD124 X) calls_2
      (fold_left (P2 F1 0x00000000 F5 0x50A28BE6 X) calls_1 (H0, H0))))) =
  (rmd_line false X 80 H0, rmd_line true X 80 H0).
Proof.
  destruct rmd_calls_spec as (-> & -> & -> & -> & ->).
  assert (H : lines_inv (16 * 0) (H0, H0)) by (split; split; cbn [fst snd]; auto; apply view_0, HHl).
  apply (rmd_round_inv F1 0x00000000 F5 0x50A28BE6 0) in H; [|lia|reflexivity|reflexivity|reflexivity|reflexivity].
  apply (rmd_round_inv F2 0x5A827999 F4 0x5C4DD124 1) in H; [|lia|reflexivity|reflexivity|reflexivity|reflexivity].
  apply (rmd_round_inv F3 0x6ED9EBA1 F3 0x6D703EF3 2) in H; [|lia|reflexivity|reflexivity|reflexivity|reflexivity].
  apply (rmd_round_inv F4 0x8F1BBCDC F2 0x7A6D76E9 3) in H; [|lia|reflexivity|reflexivity|reflexivity|reflexivity].
  apply (rmd_round_inv F5 0xA953FD4E F1 0x00000000 4) in H; [|lia|reflexivity|reflexivity|reflexivity|reflexivity].
  change (16 * 4 + 16)%nat with 80%nat in H. destruct H as [[Hl _ Hv] [Hl' _ Hv']].
  rewrite view_80 in Hv by exact Hl. rewrite view_80 in Hv' by exact Hl'.
  rewrite <- Hv, <- Hv'. apply surjective_pairing.
Qed.

End process.

(** ** The digest *)

Lemma rmd_load_block_words data : length data = 64%nat -> load_block data (zeros 16) = block_words_le data.
Proof. apply (load_words MBEDTLS_GET_UINT32_LE le_value). apply GET_LE_block. Qed.

(** The compression function is the definition's. *)
Lemma ripemd160_process_rmd st block :
  hash_value 5 st -> length block = 64%nat -> byte_list block ->
  ripemd160_process st block = rmd_compress st block /\ hash_value 5 (rmd_compress st block).
Proof.
  intros [Hl Hw] Hbl Hb. split.
  - unfold ripemd160_process, rmd_compress. cbn zeta.
    rewrite ripemd160_lines by assumption. rewrite rmd_load_block_words by exact Hbl. reflexivity.
  - split; [reflexivity|]. repeat (constructor; [apply u32_range|]). constructor.
Qed.

(** The length field of a message below 2^61 bytes. *)
Lemma msglen_spec ctx n :
  0 <= n < 2 ^ 61 -> total0 ctx = n mod 2 ^ 32 -> total1 ctx = (n / 2 ^ 32) mod 2 ^ 32 ->
  MBEDTLS_PUT_UINT32_LE (u32 (Z.shiftl (total0 ctx) 3)) ++
  MBEDTLS_PUT_UINT32_LE (Z.lor (Z.shiftr (total0 ctx) 29) (u32 (Z.shiftl (total1 ctx) 3))) =
  le_bytes 8 (8 * n).
Proof.
  intros Hn -> ->. unfold u32. destruct (bit_count_words 32 n) as [Hh Hl]; [lia|exact Hn|].
  change (32 - 3) with 29 in Hh. rewrite Hh, Hl, !PUT_LE_le_bytes. apply (words_le_bytes 4).
Qed.

(** What finish feeds to update before the length. *)
Lemma padding_take ctx n len :
  total0 ctx = Z.of_nat n mod 2 ^ 32 ->
  let last := Z.land (total0 ctx) 0x3F in
  take (Z.to_nat (if last <? 56 then 56 - last else 120 - last)) ripemd160_padding ++ len =
  padding 64 8 n len.
Proof.
  intros Ht last. assert (Hl : last = Z.of_nat (n mod 64)).
  { unfold last. change 0x3F with (Z.ones 6). rewrite Z.land_ones, Ht by lia. change (2 ^ 6) with 64.
    rewrite Z.mod_mod_divide by (exists (2 ^ 26); reflexivity). rewrite Nat2Z.inj_mod. reflexivity. }
  rewrite Hl. unfold padding. pose proof (Nat.mod_upper_bound n 64 ltac:(lia)) as Hr. revert Hr.
  generalize (n mod 64)%nat as m. intros m Hm.
  assert (Hp : forall j, (j < 64)%nat -> take (Datatypes.S j) ripemd160_padding = 128 :: zeros j).
  { intros j Hj. change ripemd160_padding with (128 :: zeros 63). cbn [take]. f_equal.
    unfold zeros. rewrite take_replicate. f_equal. lia. }
  destruct (Z.ltb_spec (Z.of_nat m) 56).
  - replace (Z.to_nat (56 - Z.of_nat m)) with (Datatypes.S (55 - m)) by lia.
    rewrite Hp by lia. cbn [app]. do 2 f_equal.
    replace (2 * 64 - 1 - 8 - m)%nat with ((55 - m) + 1 * 64)%nat by lia.
    rewrite Nat.Div0.mod_add, Nat.mod_small by lia. reflexivity.
  - replace (Z.to_nat (120 - Z.of_nat m)) with (Datatypes.S (119 - m)) by lia.
    rewrite Hp by lia. cbn [app]. do 2 f_equal.
    replace (2 * 64 - 1 - 8 - m)%nat with (119 - m)%nat by lia. rewrite Nat.mod_small by lia. reflexivity.
Qed.

(** Finishing absorbs the padding and the length as the last updates. *)
Lemma finish_state iv ctx msg :
  Z.of_nat (length msg) < 2 ^ 61 -> hash_inv 64 32 ripemd160_process iv ctx msg ->
  state (snd (fst (mbedtls_ripemd160_finish_ret ctx))) =
  iterated_hash 64 ripemd160_process iv 8 (le_bytes 8 (8 * Z.of_nat (length msg))) msg.
Proof.
  intros Hl H. unfold mbedtls_ripemd160_finish_ret, mbedtls_ripemd160_update_ret. cbn [snd fst].
  rewrite (msglen_spec ctx (Z.of_nat (length msg))) by (apply H || lia).
  set (field := le_bytes 8 (8 * Z.of_nat (length msg))).
  pose proof (padding_take ctx (length msg) field (inv_total0 _ _ _ _ _ _ H)) as Hpad. cbn zeta in Hpad.
  set (pad := take _ ripemd160_padding) in *.
  assert (Hpl : (length pad <= 64)%nat) by (unfold pad; rewrite length_take; cbn; lia).
  assert (Hfl : length field = 8%nat) by apply le_bytes_length.
  pose proof (hash_updates_inv 64 32 ripemd160_process 6 eq_refl ltac:(lia) iv ctx msg [pad; field]) as Hf.
  cbn [concat fold_left] in Hf. rewrite app_nil_r, Hpad in Hf. apply Hf; [|exact H].
  repeat (constructor; [lia|]). constructor.
Qed.

(** A context fed with a message in pieces of any size ends with the RIPEMD-160
    digest of the message, whatever was in the context before it was started. *)
Theorem ripemd160_stream_is_rmd ctx chunks :
  length (buffer ctx) = 64%nat ->
  Forall byte_list chunks -> Forall (fun c => Z.of_nat (length c) < 2 ^ 32) chunks ->
  Z.of_nat (length (concat chunks)) < 2 ^ 61 ->
  let ctx := snd (mbedtls_ripemd160_starts_ret ctx) in
  let ctx := fold_left (fun ctx c => snd (mbedtls_ripemd160_update_ret ctx c)) chunks ctx in
  snd (mbedtls_ripemd160_finish_ret ctx) = rmd160 (concat chunks).
Proof.
  intros Hbuf Hb Hc Hl started ctx'.
  assert (Hiv : hash_value 5 ripemd160_iv)
    by (split; [reflexivity|]; repeat (constructor; [unfold is_u32; lia|]); constructor).
  pose proof (hash_inv_start 64 32 ripemd160_process 6 eq_refl ltac:(lia) ripemd160_iv _ Hbuf) as H.
  apply (hash_updates_inv 64 32 ripemd160_process 6 eq_refl ltac:(lia) _ _ [] chunks Hc) in H.
  change (fold_left _ chunks _) with ctx' in H. apply (finish_state _ _ _ Hl) in H.
  destruct (iterated_hash_ext 64 ripemd160_process rmd_compress (hash_value 5) ripemd160_process_rmd
              ripemd160_iv 8 (le_bytes 8 (8 * Z.of_nat (length (concat chunks)))) (concat chunks)) as [Heq _];
    [lia|exact Hiv|apply Forall_concat, Hb|apply le_bytes_bytes|].
  rewrite Heq in H. unfold rmd160. rewrite <- (map_ext _ _ PUT_LE_le_bytes), <- H. reflexivity.
Qed.

End ripemd160.
