(* ===== verification/Sha512.v ===== *)
(** SHA-512 as mbedTLS computes it (lib/mbedtls/library/sha512.c), and its equality
    with FIPS 180-4.  The file has two compression functions, chosen when it is
    compiled: one with eight rounds unrolled, and a smaller one that moves the
    registers; they compute the same. *)

From S2P Require Import Prelude MbedCommon HashStream.
Import mbed stream rounds.

Module sha512.

Record mbedtls_sha512_context := {
  core : hash_context;      (* total[2], state[8], buffer[128] *)
  is384 : Z }.

#[export] Instance eta_sha512_context : Eta mbedtls_sha512_context :=
  fun r => Build_mbedtls_sha512_context (core r) (is384 r).

Definition mbedtls_sha512_init : mbedtls_sha512_context :=
  {| core := {| total0 := 0; total1 := 0; state := zeros 8; buffer := zeros 128 |}; is384 := 0 |}.

(** Freeing zeroes the context. *)
Definition mbedtls_sha512_free (ctx : mbedtls_sha512_context) : mbedtls_sha512_context :=
  mbedtls_sha512_init.

Definition mbedtls_sha512_clone (dst src : mbedtls_sha512_context) : mbedtls_sha512_context := src.

Definition iv_512 : list Z :=
  [0x6A09E667F3BCC908; 0xBB67AE8584CAA73B; 0x3C6EF372FE94F82B; 0xA54FF53A5F1D36F1;
   0x510E527FADE682D1; 0x9B05688C2B3E6C1F; 0x1F83D9ABFB41BD6B; 0x5BE0CD19137E2179].

Definition iv_384 : list Z :=
  [0xCBBB9D5DC1059ED8; 0x629A292A367CD507; 0x9159015A3070DD17; 0x152FECD8F70E5939;
   0x67332667FFC00B31; 0x8EB44A8768581511; 0xDB0C2E0D64F98FA7; 0x47B5481DBEFA4FA4].

(** [is384] is 0 or 1. *)
Definition mbedtls_sha512_starts_ret (ctx : mbedtls_sha512_context) (is384_ : Z)
  : Z * mbedtls_sha512_context :=
  (0, {| core := {| total0 := 0; total1 := 0;
                    state := if is384_ =? 0 then iv_512 else iv_384;
                    buffer := buffer (core ctx) |};
         is384 := is384_ |}).

Definition K : list Z :=
  [0x428A2F98D728AE22; 0x7137449123EF65CD; 0xB5C0FBCFEC4D3B2F; 0xE9B5DBA58189DBBC;
   0x3956C25BF348B538; 0x59F111F1B605D019; 0x923F82A4AF194F9B; 0xAB1C5ED5DA6D8118;
   0xD807AA98A3030242; 0x12835B0145706FBE; 0x243185BE4EE4B28C; 0x550C7DC3D5FFB4E2;
   0x72BE5D74F27B896F; 0x80DEB1FE3B1696B1; 0x9BDC06A725C71235; 0xC19BF174CF692694;
   0xE49B69C19EF14AD2; 0xEFBE4786384F25E3; 0x0FC19DC68B8CD5B5; 0x240CA1CC77AC9C65;
   0x2DE92C6F592B0275; 0x4A7484AA6EA6E483; 0x5CB0A9DCBD41FBD4; 0x76F988DA831153B5;
   0x983E5152EE66DFAB; 0xA831C66D2DB43210; 0xB00327C898FB213F; 0xBF597FC7BEEF0EE4;
   0xC6E00BF33DA88FC2; 0xD5A79147930AA725; 0x06CA6351E003826F; 0x142929670A0E6E70;
   0x27B70A8546D22FFC; 0x2E1B21385C26C926; 0x4D2C6DFC5AC42AED; 0x53380D139D95B3DF;
   0x650A73548BAF63DE; 0x766A0ABB3C77B2A8; 0x81C2C92E47EDAEE6; 0x92722C851482353B;
   0xA2BFE8A14CF10364; 0xA81A664BBC423001; 0xC24B8B70D0F89791; 0xC76C51A30654BE30;
   0xD192E819D6EF5218; 0xD69906245565A910; 0xF40E35855771202A; 0x106AA07032BBD1B8;
   0x19A4C116B8D2D0C8; 0x1E376C085141AB53; 0x2748774CDF8EEB99; 0x34B0BCB5E19B48A8;
   0x391C0CB3C5C95A63; 0x4ED8AA4AE3418ACB; 0x5B9CCA4F7763E373; 0x682E6FF3D6B2B8A3;
   0x748F82EE5DEFB2FC; 0x78A5636F43172F60; 0x84C87814A1F0AB72; 0x8CC702081A6439EC;
   0x90BEFFFA23631E28; 0xA4506CEBDE82BDE9; 0xBEF9A3F7B2C67915; 0xC67178F2E372532B;
   0xCA273ECEEA26619C; 0xD186B8C721C0C207; 0xEADA7DD6CDE0EB1E; 0xF57D4F7FEE6ED178;
   0x06F067AA72176FBA; 0x0A637DC5A2C898A6; 0x113F9804BEF90DAE; 0x1B710B35131C471B;
   0x28DB77F523047D84; 0x32CAAB7B40C72493; 0x3C9EBE0A15C9BEBC; 0x431D67C49C100D4C;
   0x4CC5D4BECB3E42B6; 0x597F299CFC657E2A; 0x5FCB6FAB3AD6FAEC; 0x6C44198C4A475817].

Definition SHR (x n : Z) : Z := Z.shiftr x n.
Definition ROTR (x n : Z) : Z := Z.lor (SHR x n) (u64 (Z.shiftl x (64 - n))).

Definition S0 (x : Z) : Z := Z.lxor (Z.lxor (ROTR x 1) (ROTR x 8)) (SHR x 7).
Definition S1 (x : Z) : Z := Z.lxor (Z.lxor (ROTR x 19) (ROTR x 61)) (SHR x 6).
Definition S2 (x : Z) : Z := Z.lxor (Z.lxor (ROTR x 28) (ROTR x 34)) (ROTR x 39).
Definition S3 (x : Z) : Z := Z.lxor (Z.lxor (ROTR x 14) (ROTR x 18)) (ROTR x 41).

Definition F0 (x y z : Z) : Z := Z.lor (Z.land x y) (Z.land z (Z.lor x y)).
Definition F1 (x y z : Z) : Z := Z.lxor z (Z.land x (Z.lxor y z)).

(** One round; the arguments [a] to [h] are the indices into [local.A] the
    macro is expanded with. *)
Definition P (a b c d e f g h : nat) (x k : Z) (A : list Z) : list Z :=
  let temp1 := u64 (A.[h] + S3 A.[e] + F1 A.[e] A.[f] A.[g] + k + x) in
  let temp2 := u64 (S2 A.[a] + F0 A.[a] A.[b] A.[c]) in
  let A := <[d := u64 (A.[d] + temp1)]> A in
  <[h := u64 (temp1 + temp2)]> A.

Definition load_block (data W : list Z) : list Z :=
  fold_left (fun W i => <[i := MBEDTLS_GET_UINT64_BE data (8 * i)]> W) (seq 0 16) W.

(** [local.W[i] = S1(...) + ...] *)
Definition expand (W : list Z) (i : nat) : list Z :=
  <[i := u64 (S1 W.[i - 2] + W.[i - 7] + S0 W.[i - 15] + W.[i - 16])]> W.

(** The body of the [do] loop: eight rounds, the registers rotated by one from
    each to the next. *)
Definition eight_rounds (W A : list Z) (i : nat) : list Z :=
  let A := P 0 1 2 3 4 5 6 7 W.[i + 0] K.[i + 0] A in
  let A := P 7 0 1 2 3 4 5 6 W.[i + 1] K.[i + 1] A in
  let A := P 6 7 0 1 2 3 4 5 W.[i + 2] K.[i + 2] A in
  let A := P 5 6 7 0 1 2 3 4 W.[i + 3] K.[i + 3] A in
  let A := P 4 5 6 7 0 1 2 3 W.[i + 4] K.[i + 4] A in
  let A := P 3 4 5 6 7 0 1 2 W.[i + 5] K.[i + 5] A in
  let A := P 2 3 4 5 6 7 0 1 W.[i + 6] K.[i + 6] A in
  P 1 2 3 4 5 6 7 0 W.[i + 7] K.[i + 7] A.

(** [mbedtls_internal_sha512_process], on the eight state words. *)
Definition sha512_process (state data : list Z) : list Z :=
  let W := load_block data (zeros 80) in
  let W := fold_left expand (seq 16 64) W in
  let A := fold_left (eight_rounds W) [0; 8; 16; 24; 32; 40; 48; 56; 64; 72]%nat state in
  zip_with (fun s a => u64 (s + a)) state A.

(** The body of the loop under [MBEDTLS_SHA512_SMALLER]. *)
Definition smaller_round (data : list Z) (AW : list Z * list Z) (i : nat) : list Z * list Z :=
  let '(A, W) := AW in
  let W := if (i <? 16)%nat then <[i := MBEDTLS_GET_UINT64_BE data (8 * i)]> W else expand W i in
  let A := P 0 1 2 3 4 5 6 7 W.[i] K.[i] A in
  let temp1 := A.[7] in
  let A := <[7%nat := A.[6]]> A in
  let A := <[6%nat := A.[5]]> A in
  let A := <[5%nat := A.[4]]> A in
  let A := <[4%nat := A.[3]]> A in
  let A := <[3%nat := A.[2]]> A in
  let A := <[2%nat := A.[1]]> A in
  let A := <[1%nat := A.[0]]> A in
  let A := <[0%nat := temp1]> A in
  (A, W).

(** [mbedtls_internal_sha512_process] when [MBEDTLS_SHA512_SMALLER] is defined. *)
Definition sha512_process_smaller (state data : list Z) : list Z :=
  let '(A, W) := fold_left (smaller_round data) (seq 0 80) (state, zeros 80) in
  zip_with (fun s a => u64 (s + a)) state A.

Definition mbedtls_internal_sha512_process (ctx : mbedtls_sha512_context) (data : list Z)
  : Z * mbedtls_sha512_context :=
  (0, ctx <| core := (core ctx) <| state := sha512_process (state (core ctx)) data |> |>).

Definition mbedtls_sha512_update_ret (ctx : mbedtls_sha512_context) (input : list Z)
  : Z * mbedtls_sha512_context :=
  (0, ctx <| core := hash_update 128 64 sha512_process (core ctx) input |>).

Definition sha512_put_uint64_be (n : Z) : list Z := MBEDTLS_PUT_UINT64_BE n.

(** The 128-bit count of bits, high word first. *)
Definition bit_count (total0 total1 : Z) : list Z :=
  let high := Z.lor (Z.shiftr total0 61) (u64 (Z.shiftl total1 3)) in
  let low := u64 (Z.shiftl total0 3) in
  sha512_put_uint64_be high ++ sha512_put_uint64_be low.

(** The third component is what is written to [output]. *)
Definition mbedtls_sha512_finish_ret (ctx : mbedtls_sha512_context)
  : Z * mbedtls_sha512_context * list Z :=
  let ctx := ctx <| core := hash_finish 128 sha512_process 16 bit_count (core ctx) |> in
  let st := state (core ctx) in
  let truncated := is384 ctx in
  let output := concat (map sha512_put_uint64_be (take 6 st)) in
  let output := if truncated =? 0
                then output ++ sha512_put_uint64_be st.[6] ++ sha512_put_uint64_be st.[7]
                else output in
  (0, ctx, output).

(** The older names, which drop the code. *)
Definition mbedtls_sha512_starts (ctx : mbedtls_sha512_context) (is384_ : Z) : mbedtls_sha512_context :=
  snd (mbedtls_sha512_starts_ret ctx is384_).
Definition mbedtls_sha512_process (ctx : mbedtls_sha512_context) (data : list Z) : mbedtls_sha512_context :=
  snd (mbedtls_internal_sha512_process ctx data).
Definition mbedtls_sha512_update (ctx : mbedtls_sha512_context) (input : list Z) : mbedtls_sha512_context :=
  snd (mbedtls_sha512_update_ret ctx input).
Definition mbedtls_sha512_finish (ctx : mbedtls_sha512_context) : mbedtls_sha512_context * list Z :=
  let '(_, ctx, output) := mbedtls_sha512_finish_ret ctx in (ctx, output).

Definition mbedtls_sha512_ret (input : list Z) (is384_ : Z) : Z * list Z :=
  let ctx := mbedtls_sha512_init in
  let '(_, ctx) := mbedtls_sha512_starts_ret ctx is384_ in
  let '(_, ctx) := mbedtls_sha512_update_ret ctx input in
  let '(ret, _, output) := mbedtls_sha512_finish_ret ctx in
  (ret, output).

Definition mbedtls_sha512 (input : list Z) (is384_ : Z) : list Z := snd (mbedtls_sha512_ret input is384_).

(** Vectors of the file's self test. *)
Example sha384_abc :
  mbedtls_sha512_ret (cstr "abc") 1 =
  (0, [0xCB; 0x00; 0x75; 0x3F; 0x45; 0xA3; 0x5E; 0x8B; 0xB5; 0xA0; 0x3D; 0x69;
       0x9A; 0xC6; 0x50; 0x07; 0x27; 0x2C; 0x32; 0xAB; 0x0E; 0xDE; 0xD1; 0x63;
       0x1A; 0x8B; 0x60; 0x5A; 0x43; 0xFF; 0x5B; 0xED; 0x80; 0x86; 0x07; 0x2B;
       0xA1; 0xE7; 0xCC; 0x23; 0x58; 0xBA; 0xEC; 0xA1; 0x34; 0xC8; 0x25; 0xA7]).
Proof. vm_compute. reflexivity. Qed.

Example sha512_abc :
  mbedtls_sha512_ret (cstr "abc") 0 =
  (0, [0xDD; 0xAF; 0x35; 0xA1; 0x93; 0x61; 0x7A; 0xBA; 0xCC; 0x41; 0x73; 0x49;
       0xAE; 0x20; 0x41; 0x31; 0x12; 0xE6; 0xFA; 0x4E; 0x89; 0xA9; 0x7E; 0xA2;
       0x0A; 0x9E; 0xEE; 0xE6; 0x4B; 0x55; 0xD3; 0x9A; 0x21; 0x92; 0x99; 0x2A;
       0x27; 0x4F; 0xC1; 0xA8; 0x36; 0xBA; 0x3C; 0x23; 0xA3; 0xFE; 0xEB; 0xBD;
       0x45; 0x4D; 0x44; 0x23; 0x64; 0x3C; 0xE8; 0x0E; 0x2A; 0x9A; 0xC9; 0x4F;
       0xA5; 0x4C; 0xA4; 0x9F]).
Proof. vm_compute. reflexivity. Qed.

(** ** FIPS 180-4 *)

Definition Sigma0 (x : Z) : Z := Z.lxor (Z.lxor (rotr 64 28 x) (rotr 64 34 x)) (rotr 64 39 x).
Definition Sigma1 (x : Z) : Z := Z.lxor (Z.lxor (rotr 64 14 x) (rotr 64 18 x)) (rotr 64 41 x).
Definition sigma0 (x : Z) : Z := Z.lxor (Z.lxor (rotr 64 1 x) (rotr 64 8 x)) (x / 2 ^ 7).
Definition sigma1 (x : Z) : Z := Z.lxor (Z.lxor (rotr 64 19 x) (rotr 64 61 x)) (x / 2 ^ 6).

(** The next word of the message schedule, from the words so far. *)
Definition next_word (W : list Z) : Z :=
  let t := length W in
  u64 (sigma1 W.[t - 2] + W.[t - 7] + sigma0 W.[t - 15] + W.[t - 16]).

Definition block_words64 (block : list Z) : list Z :=
  map (fun i => be_value (take 8 (drop (8 * i) block))) (seq 0 16).

(** The working variables [a] to [h]. *)
Definition fips_round (k w : Z) (r : list Z) : list Z :=
  match r with
  | [a; b; c; d; e; f; g; h] =>
      let T1 := h + Sigma1 e + Ch e f g + k + w in
      let T2 := Sigma0 a + Maj a b c in
      [u64 (T1 + T2); a; b; c; u64 (d + T1); e; f; g]
  | _ => r
  end.

Definition fips_rounds (W : list Z) (n : nat) (r : list Z) : list Z :=
  fold_left (fun r t => fips_round K.[t] W.[t] r) (seq 0 n) r.

Definition fips_compress (H block : list Z) : list Z :=
  zip_with (fun h r => u64 (h + r)) H (fips_rounds (schedule next_word (block_words64 block) 64) 80 H).

(** The digest is the first [n] words of the last hash value. *)
Definition fips_digest (iv : list Z) (n : nat) (msg : list Z) : list Z :=
  let H := iterated_hash 128 fips_compress iv 16 (be_bytes 16 (8 * Z.of_nat (length msg))) msg in
  concat (map (be_bytes 8) (take n H)).

Definition fips_sha512 (msg : list Z) : list Z := fips_digest iv_512 8 msg.
Definition fips_sha384 (msg : list Z) : list Z := fips_digest iv_384 6 msg.

(** ** The macros *)

Lemma ROTR_rotr x n : is_u64 x -> 0 < n < 64 -> ROTR x n = rotr 64 n x.
Proof. intros Hx Hn. apply (shifts_rotr 64 n x); [exact Hx|exact Hn]. Qed.

Lemma SHR_div x n : 0 <= n -> SHR x n = x / 2 ^ n.
Proof. apply Z.shiftr_div_pow2. Qed.

Lemma sha512_S0_sigma0 x : is_u64 x -> S0 x = sigma0 x.
Proof. intros H. unfold S0, sigma0. rewrite !ROTR_rotr, SHR_div by (assumption || lia). reflexivity. Qed.
Lemma sha512_S1_sigma1 x : is_u64 x -> S1 x = sigma1 x.
Proof. intros H. unfold S1, sigma1. rewrite !ROTR_rotr, SHR_div by (assumption || lia). reflexivity. Qed.
Lemma sha512_S2_Sigma0 x : is_u64 x -> S2 x = Sigma0 x.
Proof. intros H. unfold S2, Sigma0. rewrite !ROTR_rotr by (assumption || lia). reflexivity. Qed.
Lemma sha512_S3_Sigma1 x : is_u64 x -> S3 x = Sigma1 x.
Proof. intros H. unfold S3, Sigma1. rewrite !ROTR_rotr by (assumption || lia). reflexivity. Qed.

Lemma sha512_F0_Maj x y z : F0 x y z = Maj x y z.
Proof. exact (short_Maj x y z). Qed.

Lemma sha512_F1_Ch x y z : F1 x y z = Ch x y z.
Proof. exact (short_Ch x y z). Qed.

Definition words64 : list Z -> Prop := Forall is_u64.

Lemma nth_word64 l i : words64 l -> is_u64 l.[i].
Proof. intros H. apply (nth_words 64 l i); [lia|exact H]. Qed.
#[local] Hint Resolve nth_word64 : words.

Lemma sha512_P_words a b c d e f g h x k A : words64 A -> words64 (P a b c d e f g h x k A).
Proof. intros H. unfold P. repeat apply Forall_insert; [exact H|apply u64_range..]. Qed.

Lemma sha512_P_length a b c d e f g h x k A : length (P a b c d e f g h x k A) = length A.
Proof. unfold P. rewrite !length_insert. reflexivity. Qed.

(** One expansion of the macro is one round of the standard, seen from the next
    rotation. *)
Lemma sha512_P_round r x k A :
  (r < 8)%nat -> length A = 8%nat -> words64 A ->
  view 8 (S r) (P (rot 8 r 0) (rot 8 r 1) (rot 8 r 2) (rot 8 r 3) (rot 8 r 4) (rot 8 r 5) (rot 8 r 6)
                  (rot 8 r 7) x k A)
  = fips_round k x (view 8 r A).
Proof.
  intros Hr Hl HA. unfold P. rewrite sha512_F0_Maj, sha512_F1_Ch, sha512_S2_Sigma0, sha512_S3_Sigma1 by auto with words.
  do 8 (destruct A as [|? A]; [discriminate Hl|]). destruct A; [|discriminate Hl].
  do 8 (destruct r as [|r]; [cbn -[u64 Z.add Ch Maj Sigma0 Sigma1];
    repeat match goal with |- _ :: _ = _ :: _ => f_equal end; try reflexivity; words|]).
  lia.
Qed.

(** ** The message schedule *)

(** What is stored at [t] is the next word of the schedule. *)
Lemma expand_next_word t W :
  (16 <= t < length W)%nat -> words64 (take t W) -> expand W t = <[t := next_word (take t W)]> W.
Proof.
  intros Ht HW. unfold expand, next_word. rewrite length_take, Nat.min_l by lia.
  assert (Hn : forall i, (i < t)%nat -> W.[i] = (take t W).[i])
    by (intros i Hi; rewrite nth_take_lt by exact Hi; reflexivity).
  rewrite !Hn, sha512_S1_sigma1, sha512_S0_sigma0 by (lia || auto with words). reflexivity.
Qed.

Lemma sha512_next_word_range l : is_u64 (next_word l).
Proof. apply u64_range. Qed.

(** The array after [n] words were appended to the first sixteen. *)
Lemma expand_schedule M V n :
  length M = 16%nat -> words64 M -> length V = 80%nat -> take 16 V = M -> (n <= 64)%nat ->
  let V' := fold_left expand (seq 16 n) V in
  length V' = 80%nat /\ take (16 + n) V' = schedule next_word M n.
Proof.
  intros HMl HM HV HVM. induction n as [|n IH]; intros Hn; [auto|].
  destruct IH as [Hl Ht]; [lia|]. cbn zeta in *. rewrite seq_S, fold_left_app. cbn [fold_left].
  revert Hl Ht. generalize (fold_left expand (seq 16 n) V). intros U Hl Ht.
  rewrite expand_next_word, length_insert; [|lia|].
  - split; [exact Hl|]. rewrite Nat.add_succ_r, take_S_insert, Ht by lia. reflexivity.
  - rewrite Ht. apply (schedule_words next_word 64); [intros; apply sha512_next_word_range|exact HM].
Qed.

Lemma GET_BE64_block data i :
  (8 * i + 8 <= length data)%nat ->
  MBEDTLS_GET_UINT64_BE data (8 * i) = be_value (take 8 (drop (8 * i) data)).
Proof.
  intros H. rewrite GET_BE64_halves.
  replace (8 * i)%nat with (4 * (2 * i))%nat by lia.
  replace (4 * (2 * i) + 4)%nat with (4 * (2 * i + 1))%nat by lia.
  rewrite !GET_BE_block by lia.
  replace (take 8 (drop (4 * (2 * i)) data))
    with (take 4 (drop (4 * (2 * i)) data) ++ take 4 (drop (4 * (2 * i + 1)) data)).
  - rewrite be_value_app. rewrite length_take, length_drop. do 2 f_equal. lia.
  - change 8%nat with (4 + 4)%nat. rewrite <- take_take_drop, drop_drop. do 3 f_equal. lia.
Qed.

Lemma sha512_load_block_words data :
  length data = 128%nat ->
  length (load_block data (zeros 80)) = 80%nat /\ take 16 (load_block data (zeros 80)) = block_words64 data.
Proof.
  intros H. unfold load_block, block_words64.
  destruct (fill_seq (fun i => MBEDTLS_GET_UINT64_BE data (8 * i)) 16 (zeros 80)) as [Hl Ht];
    [rewrite zeros_length; lia|]. rewrite Hl, Ht. split; [apply zeros_length|].
  apply map_ext_in. intros i Hi%in_seq. apply GET_BE64_block. lia.
Qed.

Lemma block_words64_words data : length data = 128%nat -> byte_list data -> words64 (block_words64 data).
Proof.
  intros Hl Hb. apply Forall_map, Forall_forall. intros i Hi%elem_of_seq.
  pose proof (be_value_range (take 8 (drop (8 * i) data))) as Hr.
  rewrite length_take, length_drop, Hl in Hr. replace (8 `min` (128 - 8 * i))%nat with 8%nat in Hr by lia.
  apply Hr, Forall_take, Forall_drop, Hb.
Qed.

(** ** The rounds *)

Section process.
Context (H0 W : list Z) (HH : words64 H0) (HHl : length H0 = 8%nat).

(** After [t] rounds. *)
Record loop_inv (t : nat) (A : list Z) : Prop := {
  loop_length : length A = 8%nat;
  loop_words : words64 A;
  loop_view : view 8 t A = fips_rounds W t H0 }.

Lemma sha512_nth_round_inv t A :
  loop_inv t A ->
  loop_inv (S t) (P (rot 8 t 0) (rot 8 t 1) (rot 8 t 2) (rot 8 t 3) (rot 8 t 4) (rot 8 t 5) (rot 8 t 6)
                    (rot 8 t 7) W.[t] K.[t] A).
Proof.
  intros [Hl Hw Hv]. split; [rewrite sha512_P_length; exact Hl|apply sha512_P_words, Hw|].
  unfold fips_rounds. rewrite seq_S, fold_left_app. cbn [fold_left Nat.add]. fold (fips_rounds W t H0).
  rewrite <- Hv, <- (view_mod 8 t), view_mod_S by lia. rewrite <- !(rot_mod 8 t) by lia.
  apply sha512_P_round; [apply Nat.mod_upper_bound; lia|exact Hl|exact Hw].
Qed.

Lemma eight_rounds_inv m A : loop_inv (8 * m) A -> loop_inv (8 * m + 8) (eight_rounds W A (8 * m)).
Proof.
  intros HA.
  assert (Hn : forall j A, (j < 8)%nat -> loop_inv (8 * m + j) A ->
    loop_inv (8 * m + S j)
      (P (rot 8 j 0) (rot 8 j 1) (rot 8 j 2) (rot 8 j 3) (rot 8 j 4) (rot 8 j 5) (rot 8 j 6) (rot 8 j 7)
         W.[8 * m + j] K.[8 * m + j] A)).
  { intros j B Hj HB. apply sha512_nth_round_inv in HB. rewrite Nat.add_succ_r.
    rewrite <- !(rot_mod 8 (8 * m + j)) in HB by lia.
    replace ((8 * m + j) mod 8)%nat with j in HB; [exact HB|].
    rewrite Nat.add_comm, Nat.mul_comm, Nat.Div0.mod_add. symmetry. apply Nat.mod_small, Hj. }
  unfold eight_rounds. rewrite <- (Nat.add_0_r (8 * m)) in HA.
  apply (Hn 7%nat), (Hn 6%nat), (Hn 5%nat), (Hn 4%nat), (Hn 3%nat), (Hn 2%nat), (Hn 1%nat), (Hn 0%nat);
    lia || exact HA.
Qed.

(** The loop runs the eighty rounds of the standard. *)
Lemma loop_spec :
  fold_left (eight_rounds W) [0; 8; 16; 24; 32; 40; 48; 56; 64; 72]%nat H0 = fips_rounds W 80 H0.
Proof.
  change [0; 8; 16; 24; 32; 40; 48; 56; 64; 72]%nat with (map (Nat.mul 8) (seq 0 10)).
  rewrite <- (fold_left_map_seq (eight_rounds W) (Nat.mul 8)).
  assert (H : loop_inv (8 * 10) (fold_left (fun A m => eight_rounds W A (8 * (0 + m))) (seq 0 10) H0)).
  { apply (fold_seq_inv _ (fun m A => loop_inv (8 * m) A)).
    - intros m A _ HA. replace (8 * S m)%nat with (8 * m + 8)%nat by lia. apply eight_rounds_inv, HA.
    - split; [exact HHl|exact HH|apply view_0, HHl]. }
  change (8 * 10)%nat with 80%nat in H.
  rewrite <- (loop_view _ _ H), <- (view_mod 8 80) by lia. symmetry. apply view_0, (loop_length _ _ H).
Qed.

End process.

(** ** The compression functions *)

Definition hash_value64 (st : list Z) : Prop := length st = 8%nat /\ words64 st.

Lemma fips_round_value k w r : hash_value64 r -> hash_value64 (fips_round k w r).
Proof.
  intros [Hl Hw]. do 8 (destruct r as [|? r]; [discriminate Hl|]). destruct r; [|discriminate Hl].
  unfold words64 in Hw. rewrite !Forall_cons in Hw. destruct Hw as (? & ? & ? & ? & ? & ? & ? & ? & _).
  split; [reflexivity|]. cbn [fips_round]. repeat (constructor; [first [assumption|apply u64_range]|]).
  constructor.
Qed.

Lemma fips_rounds_value W n r : hash_value64 r -> hash_value64 (fips_rounds W n r).
Proof.
  intros Hr. apply (fold_seq_inv _ (fun _ r => hash_value64 r)); [|exact Hr].
  intros i y _ Hy. apply fips_round_value, Hy.
Qed.

Lemma sha512_fips_compress_value st block : hash_value64 st -> hash_value64 (fips_compress st block).
Proof.
  intros H. split.
  - unfold fips_compress. destruct (fips_rounds_value (schedule next_word (block_words64 block) 64) 80 st H) as [Hr _].
    destruct H as [Hl _]. rewrite length_zip_with. lia.
  - apply Forall_zip_with_fst with (P := fun _ => True); [apply Forall_true; auto|].
    apply Forall_true. intros x. auto using u64_range.
Qed.

(** The compression function is the standard's. *)
Lemma sha512_process_fips st block :
  hash_value64 st -> length block = 128%nat -> byte_list block ->
  sha512_process st block = fips_compress st block /\ hash_value64 (fips_compress st block).
Proof.
  intros Hst Hbl Hb. split; [|apply sha512_fips_compress_value, Hst].
  unfold sha512_process, fips_compress. cbn zeta.
  destruct (sha512_load_block_words block Hbl) as [HV HM].
  destruct (expand_schedule (block_words64 block) (load_block block (zeros 80)) 64) as [Hl Ht];
    [reflexivity|apply block_words64_words; assumption|exact HV|exact HM|lia|].
  rewrite take_ge in Ht by lia. rewrite Ht. destruct Hst as [Hsl Hsw].
  rewrite loop_spec by assumption. reflexivity.
Qed.

(** The smaller code moves the registers instead of renaming them. *)
Section smaller.
Context (data H0 : list Z) (Hdata : length data = 128%nat) (Hbytes : byte_list data).
Context (HH : hash_value64 H0).

Let W := schedule next_word (block_words64 data) 64.

Lemma smaller_W_length : length W = 80%nat.
Proof. unfold W. rewrite schedule_length. reflexivity. Qed.

Lemma smaller_W_words : words64 W.
Proof.
  apply (schedule_words next_word 64); [intros; apply sha512_next_word_range|].
  apply block_words64_words; assumption.
Qed.

Definition smaller_inv (t : nat) (AW : list Z * list Z) : Prop :=
  fst AW = fips_rounds W t H0 /\ length (snd AW) = 80%nat /\ take t (snd AW) = take t W.

Lemma smaller_word t V :
  (t < 80)%nat -> length V = 80%nat -> take t V = take t W ->
  (if (t <? 16)%nat then <[t := MBEDTLS_GET_UINT64_BE data (8 * t)]> V else expand V t) =
  <[t := W.[t]]> V.
Proof.
  intros Ht HV HVW. destruct (Nat.ltb_spec t 16) as [Hlt|Hge].
  - f_equal. rewrite GET_BE64_block by lia.
    assert (HW16 : take 16 W = block_words64 data)
      by exact (schedule_take next_word (block_words64 data) 0 64 ltac:(lia)).
    rewrite <- (nth_take_lt W t 16), HW16 by lia. unfold block_words64.
    rewrite (nth_indep _ 0 (be_value (take 8 (drop (8 * 0) data)))) by (rewrite length_map, length_seq; exact Hlt).
    rewrite (map_nth (fun i => be_value (take 8 (drop (8 * i) data)))), seq_nth by exact Hlt. reflexivity.
  - rewrite expand_next_word; [|lia|rewrite HVW; apply Forall_take, smaller_W_words].
    f_equal. rewrite HVW. unfold W. symmetry. apply schedule_nth. cbn. lia.
Qed.

Lemma smaller_registers x k A :
  length A = 8%nat -> words64 A ->
  (let A := P 0 1 2 3 4 5 6 7 x k A in
   let temp1 := A.[7] in
   let A := <[7%nat := A.[6]]> A in let A := <[6%nat := A.[5]]> A in
   let A := <[5%nat := A.[4]]> A in let A := <[4%nat := A.[3]]> A in
   let A := <[3%nat := A.[2]]> A in let A := <[2%nat := A.[1]]> A in
   let A := <[1%nat := A.[0]]> A in <[0%nat := temp1]> A) = fips_round k x A.
Proof.
  intros Hl HA. transitivity (fips_round k x (view 8 0 A)); [|rewrite view_0 by exact Hl; reflexivity].
  rewrite <- (sha512_P_round 0 x k A) by (assumption || lia).
  change (rot 8 0 0) with 0%nat; change (rot 8 0 1) with 1%nat; change (rot 8 0 2) with 2%nat;
    change (rot 8 0 3) with 3%nat; change (rot 8 0 4) with 4%nat; change (rot 8 0 5) with 5%nat;
    change (rot 8 0 6) with 6%nat; change (rot 8 0 7) with 7%nat.
  pose proof (sha512_P_length 0 1 2 3 4 5 6 7 x k A) as HP. rewrite Hl in HP. revert HP.
  generalize (P 0 1 2 3 4 5 6 7 x k A). intros B HB.
  do 8 (destruct B as [|? B]; [discriminate HB|]). destruct B; [reflexivity|discriminate HB].
Qed.

Lemma smaller_round_inv t AW : (t < 80)%nat -> smaller_inv t AW -> smaller_inv (S t) (smaller_round data AW t).
Proof.
  intros Ht. destruct AW as [A V]. intros (HA & HV & HVW). cbn [fst snd] in *.
  unfold smaller_round. rewrite smaller_word by assumption. cbn zeta.
  rewrite nth_insert_eq by lia. rewrite smaller_registers;
    [|rewrite HA; apply fips_rounds_value, HH..].
  split; [|split]; cbn [fst snd].
  - unfold fips_rounds. rewrite seq_S, fold_left_app. cbn [fold_left Nat.add].
    fold (fips_rounds W t H0). rewrite HA. reflexivity.
  - rewrite length_insert. exact HV.
  - rewrite take_S_insert, HVW by lia. symmetry. apply take_S_r.
    pose proof smaller_W_length. rewrite nth_lookup.
    destruct (lookup_lt_is_Some_2 W t ltac:(lia)) as [x Hx]. rewrite Hx. reflexivity.
Qed.

(** Both compression functions of the file compute the same. *)
Theorem smaller_is_unrolled : sha512_process_smaller H0 data = sha512_process H0 data.
Proof.
  destruct (sha512_process_fips H0 data HH Hdata Hbytes) as [-> _].
  unfold sha512_process_smaller, fips_compress. fold W.
  assert (H : smaller_inv 80 (fold_left (smaller_round data) (seq 0 80) (H0, zeros 80)))
    by (apply fold_seq_inv; [intros; apply smaller_round_inv; assumption|split; [reflexivity|split; reflexivity]]).
  destruct (fold_left _ _ _) as [A V]. destruct H as [HA _]. cbn [fst] in HA. rewrite HA. reflexivity.
Qed.

End smaller.

(** ** The digest *)

(** The length field of a message below 2^125 bytes. *)
Lemma sha512_bit_count_spec n :
  0 <= n < 2 ^ 125 ->
  bit_count (n mod 2 ^ 64) ((n / 2 ^ 64) mod 2 ^ 64) = be_bytes 16 (8 * n) /\
  length (be_bytes 16 (8 * n)) = 16%nat /\ byte_list (be_bytes 16 (8 * n)).
Proof.
  intros Hn. split; [|split; [apply be_bytes_length|apply be_bytes_bytes]].
  unfold bit_count, u64, sha512_put_uint64_be. destruct (bit_count_words 64 n) as [Hh Hl]; [lia|exact Hn|].
  change (64 - 3) with 61 in Hh. rewrite Hh, Hl, !PUT_BE64_be_bytes. apply (words_be_bytes 8).
Qed.

Definition digest (is384_ : Z) (msg : list Z) : list Z :=
  if is384_ =? 0 then fips_sha512 msg else fips_sha384 msg.

Lemma sha512_iv_value n : hash_value64 (if n =? 0 then iv_512 else iv_384).
Proof.
  destruct (n =? 0); (split; [reflexivity|]); repeat (constructor; [unfold is_u64; lia|]); constructor.
Qed.

(** What finish writes of the hash value. *)
Lemma output_spec (st : list Z) n :
  length st = 8%nat ->
  (let output := concat (map sha512_put_uint64_be (take 6 st)) in
   if n =? 0 then output ++ sha512_put_uint64_be st.[6] ++ sha512_put_uint64_be st.[7] else output) =
  concat (map (be_bytes 8) (take (if n =? 0 then 8 else 6) st)).
Proof.
  intros Hl. do 8 (destruct st as [|? st]; [discriminate Hl|]). destruct st; [|discriminate Hl].
  unfold sha512_put_uint64_be. destruct (n =? 0); cbn [take map concat nth];
    rewrite !PUT_BE64_be_bytes, ?app_nil_r, <- ?app_assoc; reflexivity.
Qed.

Lemma updates_core chunks ctx :
  let ctx' := fold_left (fun ctx c => snd (mbedtls_sha512_update_ret ctx c)) chunks ctx in
  core ctx' = fold_left (hash_update 128 64 sha512_process) chunks (core ctx) /\ is384 ctx' = is384 ctx.
Proof.
  revert ctx. induction chunks as [|x cs IH]; intros c; [split; reflexivity|]. cbn [fold_left].
  destruct (IH (snd (mbedtls_sha512_update_ret c x))) as [H1 H2]. cbn zeta in *. rewrite H1, H2.
  split; reflexivity.
Qed.

(** A context fed with a message in pieces of any size ends with the FIPS 180-4
    digest of the message (SHA-512, or SHA-384 when [is384] is set), whatever
    was in the context before it was started. *)
Theorem sha512_stream_is_fips ctx n chunks :
  length (buffer (core ctx)) = 128%nat ->
  Forall byte_list chunks -> Forall (fun c => Z.of_nat (length c) < 2 ^ 64) chunks ->
  Z.of_nat (length (concat chunks)) < 2 ^ 125 ->
  let ctx := snd (mbedtls_sha512_starts_ret ctx n) in
  let ctx := fold_left (fun ctx c => snd (mbedtls_sha512_update_ret ctx c)) chunks ctx in
  snd (mbedtls_sha512_finish_ret ctx) = digest n (concat chunks).
Proof.
  intros Hbuf Hb Hc Hl started ctx'.
  destruct (digest_stream 128 64 sha512_process fips_compress 7 eq_refl ltac:(lia) hash_value64
              sha512_process_fips 16 bit_count (fun n => be_bytes 16 (8 * n)) (2 ^ 125) ltac:(lia)
              sha512_bit_count_spec (if n =? 0 then iv_512 else iv_384) (buffer (core ctx)) chunks (sha512_iv_value n)
              Hbuf Hb Hc Hl) as [Hst [Hlen _]].
  destruct (updates_core chunks started) as [Hcore His]. fold ctx' in Hcore, His.
  unfold mbedtls_sha512_finish_ret. cbn [snd core is384 set_field]. rewrite Hcore, His.
  change (core started) with
    {| total0 := 0; total1 := 0; state := if n =? 0 then iv_512 else iv_384; buffer := buffer (core ctx) |}.
  change (is384 started) with n. rewrite output_spec by exact Hlen. rewrite Hst.
  unfold digest, fips_sha512, fips_sha384, fips_digest. destruct (n =? 0); reflexivity.
Qed.

End sha512.
