(* ===== verification/Aes.v ===== *)
(** AES as mbedTLS computes it (lib/mbedtls/library/aes.c, as the Makefile
    configures it: tables generated at run time, no hardware support, the ECB and
    CTR modes): the table generator, the key schedules, the block functions and
    CTR. *)

From S2P Require Import Prelude MbedCommon.
Import mbed.

Module aes.

(** The statics of the file. *)
Record aes_statics := {
  aes_init_done : Z;
  FSb : list Z;
  FT0 : list Z; FT1 : list Z; FT2 : list Z; FT3 : list Z;
  RSb : list Z;
  RT0 : list Z; RT1 : list Z; RT2 : list Z; RT3 : list Z;
  round_constants : list Z }.

#[export] Instance eta_aes_statics : Eta aes_statics :=
  fun r => Build_aes_statics (aes_init_done r) (FSb r) (FT0 r) (FT1 r) (FT2 r) (FT3 r)
             (RSb r) (RT0 r) (RT1 r) (RT2 r) (RT3 r) (round_constants r).

Definition aes_statics_init : aes_statics :=
  {| aes_init_done := 0; FSb := zeros 256;
     FT0 := zeros 256; FT1 := zeros 256; FT2 := zeros 256; FT3 := zeros 256;
     RSb := zeros 256;
     RT0 := zeros 256; RT1 := zeros 256; RT2 := zeros 256; RT3 := zeros 256;
     round_constants := zeros 10 |}.

(** [table[idx]], [table[idx] = v] *)
Definition at_ (table : list Z) (idx : Z) : Z := nth (Z.to_nat idx) table 0.
Definition set_at (table : list Z) (idx v : Z) : list Z := <[Z.to_nat idx := v]> table.

Definition ROTL8 (x : Z) : Z := Z.lor (Z.land (Z.shiftl x 8) 0xFFFFFFFF) (Z.shiftr x 24).
Definition XTIME (x : Z) : Z := Z.lxor (Z.shiftl x 1) (if Z.land x 0x80 =? 0 then 0x00 else 0x1B).

Definition MUL (pow log : list Z) (x y : Z) : Z :=
  if negb (x =? 0) && negb (y =? 0) then at_ pow ((at_ log x + at_ log y) mod 255) else 0.

(** The loops of [aes_gen_tables], one definition each. *)
Definition gen_pow_log : list Z * list Z :=
  let '(_, pow, log) :=
    fold_left (fun '(x, pow, log) i =>
        (MBEDTLS_BYTE_0 (Z.lxor x (XTIME x)), <[i := x]> pow, set_at log x (Z.of_nat i)))
      (seq 0 256) (1, zeros 256, zeros 256) in
  (pow, log).

Definition gen_round_constants (rc : list Z) : list Z :=
  snd (fold_left (fun '(x, rc) i => (MBEDTLS_BYTE_0 (XTIME x), <[i := x]> rc)) (seq 0 10) (1, rc)).

Definition rotate_byte (y : Z) : Z := MBEDTLS_BYTE_0 (Z.lor (Z.shiftl y 1) (Z.shiftr y 7)).

Definition gen_sboxes (pow log FSb RSb : list Z) : list Z * list Z :=
  fold_left (fun '(FSb, RSb) i =>
      let x := at_ pow (255 - log.[i]) in
      let y := rotate_byte x in let x := Z.lxor x y in
      let y := rotate_byte y in let x := Z.lxor x y in
      let y := rotate_byte y in let x := Z.lxor x y in
      let y := rotate_byte y in let x := Z.lxor x (Z.lxor y 0x63) in
      (<[i := x]> FSb, set_at RSb x (Z.of_nat i)))
    (seq 1 255) (<[0%nat := 0x63]> FSb, set_at RSb 0x63 0x00).

Definition gen_tables_step (pow log : list Z) (st : aes_statics) (i : nat) : aes_statics :=
  let x := (FSb st).[i] in
  let y := MBEDTLS_BYTE_0 (XTIME x) in
  let z := MBEDTLS_BYTE_0 (Z.lxor y x) in
  let f := Z.lxor (Z.lxor (Z.lxor y (Z.shiftl x 8)) (Z.shiftl x 16)) (Z.shiftl z 24) in
  let st := st <| FT0 := <[i := f]> (FT0 st) |> in
  let st := st <| FT1 := <[i := ROTL8 (FT0 st).[i]]> (FT1 st) |> in
  let st := st <| FT2 := <[i := ROTL8 (FT1 st).[i]]> (FT2 st) |> in
  let st := st <| FT3 := <[i := ROTL8 (FT2 st).[i]]> (FT3 st) |> in
  let x := (RSb st).[i] in
  let r := Z.lxor (Z.lxor (Z.lxor (MUL pow log 0x0E x) (Z.shiftl (MUL pow log 0x09 x) 8))
                          (Z.shiftl (MUL pow log 0x0D x) 16))
                  (Z.shiftl (MUL pow log 0x0B x) 24) in
  let st := st <| RT0 := <[i := r]> (RT0 st) |> in
  let st := st <| RT1 := <[i := ROTL8 (RT0 st).[i]]> (RT1 st) |> in
  let st := st <| RT2 := <[i := ROTL8 (RT1 st).[i]]> (RT2 st) |> in
  st <| RT3 := <[i := ROTL8 (RT2 st).[i]]> (RT3 st) |>.

Definition aes_gen_tables (st : aes_statics) : aes_statics :=
  let '(pow, log) := gen_pow_log in
  let st := st <| round_constants := gen_round_constants (round_constants st) |> in
  let '(fsb, rsb) := gen_sboxes pow log (FSb st) (RSb st) in
  let st := st <| FSb := fsb |> <| RSb := rsb |> in
  fold_left (gen_tables_step pow log) (seq 0 256) st.

(** [nr] and [buf]; [rk] points at the start of [buf], since the offset is 0
    without hardware support. *)
Record mbedtls_aes_context := {
  nr : Z;
  rk : nat;
  buf : list Z }.

#[export] Instance eta_aes_context : Eta mbedtls_aes_context :=
  fun r => Build_mbedtls_aes_context (nr r) (rk r) (buf r).

Definition MBEDTLS_ERR_AES_INVALID_KEY_LENGTH : Z := -0x20.
Definition MBEDTLS_ERR_AES_BAD_INPUT_DATA : Z := -0x21.
Definition MBEDTLS_AES_ENCRYPT : Z := 1.
Definition MBEDTLS_AES_DECRYPT : Z := 0.

Definition mbedtls_aes_init : mbedtls_aes_context := {| nr := 0; rk := 0; buf := zeros 68 |}.
Definition mbedtls_aes_free (ctx : mbedtls_aes_context) : mbedtls_aes_context := mbedtls_aes_init.
Definition mbedtls_aes_rk_offset (buf : list Z) : nat := 0.

(** ** Key schedules *)

(** [RK[n]] of the loop's moving pointer [RK = rk + base]. *)
Definition SubWord_shifted (st : aes_statics) (b0 b1 b2 b3 : Z) (v : Z) : Z :=
  Z.lxor (Z.lxor (Z.lxor (Z.lxor v (at_ (FSb st) b0)) (Z.shiftl (at_ (FSb st) b1) 8))
                 (Z.shiftl (at_ (FSb st) b2) 16))
         (Z.shiftl (at_ (FSb st) b3) 24).

(** [RK[base + n] = RK[base] ^ round_constants[i] ^ SubWord(RotWord(RK[base + n - 1]))] *)
Definition expand_first (st : aes_statics) (n base i : nat) (RK : list Z) : list Z :=
  let w := RK.[base + (n - 1)] in
  <[(base + n)%nat := SubWord_shifted st (MBEDTLS_BYTE_1 w) (MBEDTLS_BYTE_2 w) (MBEDTLS_BYTE_3 w)
                        (MBEDTLS_BYTE_0 w) (Z.lxor RK.[base] (round_constants st).[i])]> RK.

(** [RK[base + d] = RK[base + s] ^ RK[base + d - 1]] *)
Definition expand_next (base s d : nat) (RK : list Z) : list Z :=
  <[(base + d)%nat := Z.lxor RK.[base + s] RK.[base + (d - 1)]]> RK.

Definition expand_10 (st : aes_statics) (RK : list Z) (i : nat) : list Z :=
  let base := (4 * i)%nat in
  let RK := expand_first st 4 base i RK in
  let RK := expand_next base 1 5 RK in
  let RK := expand_next base 2 6 RK in
  expand_next base 3 7 RK.

Definition expand_12 (st : aes_statics) (RK : list Z) (i : nat) : list Z :=
  let base := (6 * i)%nat in
  let RK := expand_first st 6 base i RK in
  let RK := expand_next base 1 7 RK in
  let RK := expand_next base 2 8 RK in
  let RK := expand_next base 3 9 RK in
  let RK := expand_next base 4 10 RK in
  expand_next base 5 11 RK.

Definition expand_14 (st : aes_statics) (RK : list Z) (i : nat) : list Z :=
  let base := (8 * i)%nat in
  let RK := expand_first st 8 base i RK in
  let RK := expand_next base 1 9 RK in
  let RK := expand_next base 2 10 RK in
  let RK := expand_next base 3 11 RK in
  let w := RK.[base + 11] in
  let RK := <[(base + 12)%nat := SubWord_shifted st (MBEDTLS_BYTE_0 w) (MBEDTLS_BYTE_1 w)
                                   (MBEDTLS_BYTE_2 w) (MBEDTLS_BYTE_3 w) RK.[base + 4]]> RK in
  let RK := expand_next base 5 13 RK in
  let RK := expand_next base 6 14 RK in
  expand_next base 7 15 RK.

Definition load_key (key : list Z) (n : nat) (RK : list Z) : list Z :=
  fold_left (fun RK i => <[i := MBEDTLS_GET_UINT32_LE key (4 * i)]> RK) (seq 0 n) RK.

Definition mbedtls_aes_setkey_enc (st : aes_statics) (ctx : mbedtls_aes_context) (key : list Z)
  (keybits : Z) : Z * aes_statics * mbedtls_aes_context :=
  let rounds := if keybits =? 128 then Some 10 else if keybits =? 192 then Some 12
                else if keybits =? 256 then Some 14 else None in
  match rounds with
  | None => (MBEDTLS_ERR_AES_INVALID_KEY_LENGTH, st, ctx)
  | Some n =>
      let ctx := ctx <| nr := n |> in
      let st := if aes_init_done st =? 0 then (aes_gen_tables st) <| aes_init_done := 1 |> else st in
      let ctx := ctx <| rk := mbedtls_aes_rk_offset (buf ctx) |> in
      let RK := load_key key (Z.to_nat (Z.shiftr keybits 5)) (buf ctx) in
      let RK := if nr ctx =? 10 then fold_left (expand_10 st) (seq 0 10) RK
                else if nr ctx =? 12 then fold_left (expand_12 st) (seq 0 8) RK
                else fold_left (expand_14 st) (seq 0 7) RK in
      (0, st, ctx <| buf := RK |>)
  end.

(** [*RK++ = f( *SK++ )], on the two pointers and the array written. *)
Definition copy_word (f : Z -> Z) (SK : list Z) (p : nat * nat * list Z) : nat * nat * list Z :=
  let '(r, s, RK) := p in (S r, S s, <[r := f SK.[s]]> RK).

Definition copy_4 (f : Z -> Z) (SK : list Z) (p : nat * nat * list Z) : nat * nat * list Z :=
  copy_word f SK (copy_word f SK (copy_word f SK (copy_word f SK p))).

(** The inverse of MixColumns on a word, by the tables. *)
Definition inv_mix_word (st : aes_statics) (w : Z) : Z :=
  Z.lxor (Z.lxor (Z.lxor (at_ (RT0 st) (at_ (FSb st) (MBEDTLS_BYTE_0 w)))
                         (at_ (RT1 st) (at_ (FSb st) (MBEDTLS_BYTE_1 w))))
                 (at_ (RT2 st) (at_ (FSb st) (MBEDTLS_BYTE_2 w))))
         (at_ (RT3 st) (at_ (FSb st) (MBEDTLS_BYTE_3 w))).

Definition back_8 (p : nat * nat * list Z) : nat * nat * list Z :=
  let '(r, s, RK) := p in (r, (s - 8)%nat, RK).

Definition mbedtls_aes_setkey_dec (st : aes_statics) (ctx : mbedtls_aes_context) (key : list Z)
  (keybits : Z) : Z * aes_statics * mbedtls_aes_context :=
  let ctx := ctx <| rk := mbedtls_aes_rk_offset (buf ctx) |> in
  let '(ret, st, cty) := mbedtls_aes_setkey_enc st mbedtls_aes_init key keybits in
  if negb (ret =? 0) then (ret, st, ctx)
  else
    let ctx := ctx <| nr := nr cty |> in
    let SK := buf cty in
    let p := (rk ctx, (rk cty + Z.to_nat (nr cty) * 4)%nat, buf ctx) in
    let p := copy_4 id SK p in
    let p := back_8 p in
    let p := fold_left (fun p _ => back_8 (copy_4 (inv_mix_word st) SK p))
               (seq 1 (Z.to_nat (nr ctx) - 1)) p in
    let '(_, _, RK) := copy_4 id SK p in
    (ret, st, ctx <| buf := RK |>).

(** ** Block functions *)

Definition words4 : Type := Z * Z * Z * Z.

(** The round macros; [p] is where [RK] points. *)
Definition AES_FROUND (st : aes_statics) (RK : list Z) (p : nat) (Y : words4) : words4 :=
  let '(Y0, Y1, Y2, Y3) := Y in
  let word k A B C D :=
    Z.lxor (Z.lxor (Z.lxor (Z.lxor k (at_ (FT0 st) (MBEDTLS_BYTE_0 A))) (at_ (FT1 st) (MBEDTLS_BYTE_1 B)))
                   (at_ (FT2 st) (MBEDTLS_BYTE_2 C)))
           (at_ (FT3 st) (MBEDTLS_BYTE_3 D)) in
  (word RK.[p] Y0 Y1 Y2 Y3, word RK.[p + 1] Y1 Y2 Y3 Y0,
   word RK.[p + 2] Y2 Y3 Y0 Y1, word RK.[p + 3] Y3 Y0 Y1 Y2).

Definition AES_RROUND (st : aes_statics) (RK : list Z) (p : nat) (Y : words4) : words4 :=
  let '(Y0, Y1, Y2, Y3) := Y in
  let word k A B C D :=
    Z.lxor (Z.lxor (Z.lxor (Z.lxor k (at_ (RT0 st) (MBEDTLS_BYTE_0 A))) (at_ (RT1 st) (MBEDTLS_BYTE_1 B)))
                   (at_ (RT2 st) (MBEDTLS_BYTE_2 C)))
           (at_ (RT3 st) (MBEDTLS_BYTE_3 D)) in
  (word RK.[p] Y0 Y3 Y2 Y1, word RK.[p + 1] Y1 Y0 Y3 Y2,
   word RK.[p + 2] Y2 Y1 Y0 Y3, word RK.[p + 3] Y3 Y2 Y1 Y0).

(** The last round of both functions, with the S-box instead of the tables. *)
Definition last_word (box : list Z) (k A B C D : Z) : Z :=
  Z.lxor (Z.lxor (Z.lxor (Z.lxor k (at_ box (MBEDTLS_BYTE_0 A))) (Z.shiftl (at_ box (MBEDTLS_BYTE_1 B)) 8))
                 (Z.shiftl (at_ box (MBEDTLS_BYTE_2 C)) 16))
         (Z.shiftl (at_ box (MBEDTLS_BYTE_3 D)) 24).

Definition load_state (RK : list Z) (p : nat) (input : list Z) : words4 :=
  (Z.lxor (MBEDTLS_GET_UINT32_LE input 0) RK.[p], Z.lxor (MBEDTLS_GET_UINT32_LE input 4) RK.[p + 1],
   Z.lxor (MBEDTLS_GET_UINT32_LE input 8) RK.[p + 2], Z.lxor (MBEDTLS_GET_UINT32_LE input 12) RK.[p + 3]).

Definition store_state (X : words4) : list Z :=
  let '(X0, X1, X2, X3) := X in
  MBEDTLS_PUT_UINT32_LE X0 ++ MBEDTLS_PUT_UINT32_LE X1 ++
  MBEDTLS_PUT_UINT32_LE X2 ++ MBEDTLS_PUT_UINT32_LE X3.

(** [for (i = (nr >> 1) - 1; i > 0; i--) { round(Y, X); round(X, Y); }], then one
    more round: the state and where [RK] points. *)
Definition run_rounds (round : nat -> words4 -> words4) (nr : Z) (p : nat) (X : words4) : nat * words4 :=
  let '(p, X) :=
    fold_left (fun '(p, X) _ => ((p + 8)%nat, round (p + 4)%nat (round p X)))
      (seq 1 (Z.to_nat (Z.shiftr nr 1 - 1))) (p, X) in
  ((p + 4)%nat, round p X).

Definition mbedtls_internal_aes_encrypt (st : aes_statics) (ctx : mbedtls_aes_context) (input : list Z)
  : Z * list Z :=
  let RK := buf ctx in
  let X := load_state RK (rk ctx) input in
  let '(p, (Y0, Y1, Y2, Y3)) := run_rounds (AES_FROUND st RK) (nr ctx) (rk ctx + 4) X in
  (0, store_state (last_word (FSb st) RK.[p] Y0 Y1 Y2 Y3, last_word (FSb st) RK.[p + 1] Y1 Y2 Y3 Y0,
                   last_word (FSb st) RK.[p + 2] Y2 Y3 Y0 Y1, last_word (FSb st) RK.[p + 3] Y3 Y0 Y1 Y2)).

Definition mbedtls_internal_aes_decrypt (st : aes_statics) (ctx : mbedtls_aes_context) (input : list Z)
  : Z * list Z :=
  let RK := buf ctx in
  let X := load_state RK (rk ctx) input in
  let '(p, (Y0, Y1, Y2, Y3)) := run_rounds (AES_RROUND st RK) (nr ctx) (rk ctx + 4) X in
  (0, store_state (last_word (RSb st) RK.[p] Y0 Y3 Y2 Y1, last_word (RSb st) RK.[p + 1] Y1 Y0 Y3 Y2,
                   last_word (RSb st) RK.[p + 2] Y2 Y1 Y0 Y3, last_word (RSb st) RK.[p + 3] Y3 Y2 Y1 Y0)).

Definition mbedtls_aes_encrypt (st : aes_statics) (ctx : mbedtls_aes_context) (input : list Z) : list Z :=
  snd (mbedtls_internal_aes_encrypt st ctx input).
Definition mbedtls_aes_decrypt (st : aes_statics) (ctx : mbedtls_aes_context) (input : list Z) : list Z :=
  snd (mbedtls_internal_aes_decrypt st ctx input).

Definition mbedtls_aes_crypt_ecb (st : aes_statics) (ctx : mbedtls_aes_context) (mode : Z) (input : list Z)
  : Z * list Z :=
  if mode =? MBEDTLS_AES_ENCRYPT then mbedtls_internal_aes_encrypt st ctx input
  else mbedtls_internal_aes_decrypt st ctx input.

(** ** CTR *)

(** [for (i = 16; i > 0; i--) if (++nonce_counter[i - 1] != 0) break;] *)
Fixpoint increment_from (i : nat) (counter : list Z) : list Z :=
  match i with
  | O => counter
  | S j =>
      let v := u8 (counter.[j] + 1) in
      let counter := <[j := v]> counter in
      if v =? 0 then increment_from j counter else counter
  end.

(** The part of the call's state that survives it: [nc_off], [nonce_counter]
    and [stream_block]. *)
Record ctr_state := {
  nc_off : Z;
  nonce_counter : list Z;
  stream_block : list Z }.

#[export] Instance eta_ctr_state : Eta ctr_state :=
  fun r => Build_ctr_state (nc_off r) (nonce_counter r) (stream_block r).

(** One turn of the loop: a new block of key stream when the last one is used
    up, then a byte. *)
Definition ctr_byte (st : aes_statics) (ctx : mbedtls_aes_context) (s : ctr_state) (c : Z) : ctr_state * Z :=
  let s :=
    if nc_off s =? 0
    then
      let '(_, block) := mbedtls_aes_crypt_ecb st ctx MBEDTLS_AES_ENCRYPT (nonce_counter s) in
      s <| stream_block := block |> <| nonce_counter := increment_from 16 (nonce_counter s) |>
    else s in
  (s <| nc_off := Z.land (nc_off s + 1) 0x0F |>, Z.lxor c (at_ (stream_block s) (nc_off s))).

Fixpoint ctr_bytes (st : aes_statics) (ctx : mbedtls_aes_context) (s : ctr_state) (input : list Z)
  : ctr_state * list Z :=
  match input with
  | [] => (s, [])
  | c :: input =>
      let '(s, o) := ctr_byte st ctx s c in
      let '(s, os) := ctr_bytes st ctx s input in
      (s, o :: os)
  end.

Definition mbedtls_aes_crypt_ctr (st : aes_statics) (ctx : mbedtls_aes_context) (s : ctr_state)
  (input : list Z) : Z * ctr_state * list Z :=
  if 0x0F <? nc_off s then (MBEDTLS_ERR_AES_BAD_INPUT_DATA, s, [])
  else let '(s, output) := ctr_bytes st ctx s input in (0, s, output).

(** FIPS 197, appendix C.1. *)
Example aes_128_vector :
  let key := map Z.of_nat (seq 0 16) in
  let '(_, st, ctx) := mbedtls_aes_setkey_enc aes_statics_init mbedtls_aes_init key 128 in
  mbedtls_aes_crypt_ecb st ctx MBEDTLS_AES_ENCRYPT (map (fun i => 17 * Z.of_nat i) (seq 0 16)) =
  (0, [0x69; 0xC4; 0xE0; 0xD8; 0x6A; 0x7B; 0x04; 0x30; 0xD8; 0xCD; 0xB7; 0x80; 0x70; 0xB4; 0xC5; 0x5A]).
Proof. vm_compute. reflexivity. Qed.

(** FIPS 197, appendix C.2 and C.3, decrypted. *)
Example aes_192_vector :
  let key := map Z.of_nat (seq 0 24) in
  let '(_, st, ctx) := mbedtls_aes_setkey_dec aes_statics_init mbedtls_aes_init key 192 in
  mbedtls_aes_crypt_ecb st ctx MBEDTLS_AES_DECRYPT
    [0xDD; 0xA9; 0x7C; 0xA4; 0x86; 0x4C; 0xDF; 0xE0; 0x6E; 0xAF; 0x70; 0xA0; 0xEC; 0x0D; 0x71; 0x91] =
  (0, map (fun i => 17 * Z.of_nat i) (seq 0 16)).
Proof. vm_compute. reflexivity. Qed.

Example aes_256_vector :
  let key := map Z.of_nat (seq 0 32) in
  let '(_, st, ctx) := mbedtls_aes_setkey_dec aes_statics_init mbedtls_aes_init key 256 in
  mbedtls_aes_crypt_ecb st ctx MBEDTLS_AES_DECRYPT
    [0x8E; 0xA2; 0xB7; 0xCA; 0x51; 0x67; 0x45; 0xBF; 0xEA; 0xFC; 0x49; 0x90; 0x4B; 0x49; 0x60; 0x89] =
  (0, map (fun i => 17 * Z.of_nat i) (seq 0 16)).
Proof. vm_compute. reflexivity. Qed.

End aes.
