(* ===== verification/AesFips.v ===== *)
(** FIPS 197 and its equality with the code of Aes: the generated tables are the
    S-box and the products of MixColumns ([tables_checked] and the table facts),
    the table rounds are the standard's rounds, the key schedules are the
    standard's, and decryption inverts encryption. *)

From S2P Require Import Prelude MbedCommon Aes.
From Stdlib Require Import Btauto.
Import mbed aes.

Module aes_fips.

(** ** FIPS 197 *)

(** Multiplication by x, and by a constant, in GF(2^8). *)
Definition xtime (b : Z) : Z := Z.lxor (Z.land (Z.shiftl b 1) 255) (if Z.testbit b 7 then 0x1B else 0).

Fixpoint gmul_pos (c : positive) (b : Z) : Z :=
  match c with
  | xH => b
  | xO c => gmul_pos c (xtime b)
  | xI c => Z.lxor b (gmul_pos c (xtime b))
  end.

Definition gmul (c b : Z) : Z :=
  match c with
  | Zpos c => gmul_pos c b
  | _ => 0
  end.

(** The inverse of [b], and 0 for 0: [b] to the 254. *)
Definition ginv (b : Z) : Z :=
  let b2 := gmul b b in let b4 := gmul b2 b2 in let b8 := gmul b4 b4 in let b16 := gmul b8 b8 in
  let b32 := gmul b16 b16 in let b64 := gmul b32 b32 in let b128 := gmul b64 b64 in
  gmul b128 (gmul b64 (gmul b32 (gmul b16 (gmul b8 (gmul b4 b2))))).

(** The affine transformation, bit by bit. *)
Definition affine_bit (b : Z) (i : Z) : bool :=
  xorb (xorb (xorb (xorb (xorb (Z.testbit b i) (Z.testbit b ((i + 4) mod 8)))
                         (Z.testbit b ((i + 5) mod 8))) (Z.testbit b ((i + 6) mod 8)))
             (Z.testbit b ((i + 7) mod 8))) (Z.testbit 0x63 i).

Definition affine (b : Z) : Z :=
  fold_left (fun acc i => acc + Z.b2z (affine_bit b i) * 2 ^ i) [0; 1; 2; 3; 4; 5; 6; 7] 0.

Definition sbox (b : Z) : Z := affine (ginv b).

(** The state is its 16 bytes, column by column. *)
Definition sub_bytes (s : list Z) : list Z := map sbox s.

Definition shift_rows (s : list Z) : list Z :=
  map (fun i => s.[i mod 4 + 4 * ((i / 4 + i mod 4) mod 4)]) (seq 0 16).

(** A column times a circulant matrix, whose first row is given. *)
Definition mix_column (a b c d : Z) (col : list Z) : list Z :=
  let row a b c d := Z.lxor (Z.lxor (Z.lxor (gmul a col.[0]) (gmul b col.[1])) (gmul c col.[2]))
                            (gmul d col.[3]) in
  [row a b c d; row d a b c; row c d a b; row b c d a].

Definition mix_with (a b c d : Z) (s : list Z) : list Z :=
  concat (map (fun j => mix_column a b c d (take 4 (drop (4 * j) s))) (seq 0 4)).

Definition mix_columns : list Z -> list Z := mix_with 2 3 1 1.
Definition inv_mix_columns : list Z -> list Z := mix_with 14 11 13 9.

Definition add_round_key (k s : list Z) : list Z := zip_with Z.lxor k s.

Definition inv_shift_rows (s : list Z) : list Z :=
  map (fun i => s.[i mod 4 + 4 * ((i / 4 + 4 - i mod 4) mod 4)]) (seq 0 16).

(** The inverse S-box: the byte that the S-box maps to [b]. *)
Definition inv_sbox (b : Z) : Z :=
  default 0 (find_first (fun x => sbox x =? b) (map Z.of_nat (seq 0 256))).

Definition inv_sub_bytes (s : list Z) : list Z := map inv_sbox s.

(** Cipher, over the round keys [k 0] to [k nr]. *)
Definition fips_round (k : nat -> list Z) (s : list Z) (i : nat) : list Z :=
  add_round_key (k i) (mix_columns (shift_rows (sub_bytes s))).

Definition fips_cipher (nr : nat) (k : nat -> list Z) (s : list Z) : list Z :=
  let s := add_round_key (k 0%nat) s in
  let s := fold_left (fips_round k) (seq 1 (nr - 1)) s in
  add_round_key (k nr) (shift_rows (sub_bytes s)).

(** The equivalent inverse cipher. *)
Definition fips_inv_round (k : nat -> list Z) (s : list Z) (i : nat) : list Z :=
  add_round_key (k i) (inv_mix_columns (inv_shift_rows (inv_sub_bytes s))).

Definition fips_inv_cipher (nr : nat) (k : nat -> list Z) (s : list Z) : list Z :=
  let s := add_round_key (k 0%nat) s in
  let s := fold_left (fips_inv_round k) (seq 1 (nr - 1)) s in
  add_round_key (k nr) (inv_shift_rows (inv_sub_bytes s)).

(** Key expansion, on words of four bytes. *)
Definition Rcon (i : nat) : list Z := [Nat.iter (i - 1) xtime 1; 0; 0; 0].
Definition RotWord (w : list Z) : list Z := drop 1 w ++ take 1 w.
Definition SubWord (w : list Z) : list Z := map sbox w.

Definition expand_word (Nk : nat) (W : list (list Z)) : list Z :=
  let i := length W in
  let temp := nth (i - 1) W [] in
  let temp :=
    if (i mod Nk =? 0)%nat then zip_with Z.lxor (SubWord (RotWord temp)) (Rcon (i / Nk))
    else if (6 <? Nk)%nat && (i mod Nk =? 4)%nat then SubWord temp
    else temp in
  zip_with Z.lxor (nth (i - Nk) W []) temp.

Fixpoint expand_words (Nk n : nat) (W : list (list Z)) : list (list Z) :=
  match n with
  | O => W
  | S n => let W := expand_words Nk n W in W ++ [expand_word Nk W]
  end.

Definition key_words (Nk : nat) (key : list Z) : list (list Z) :=
  map (fun i => take 4 (drop (4 * i) key)) (seq 0 Nk).

(** The [i]th round key of [key], which has [Nk] words; [Nk + 6] rounds. *)
Definition fips_round_key (Nk : nat) (key : list Z) (i : nat) : list Z :=
  let W := expand_words Nk (4 * (Nk + 7) - Nk) (key_words Nk key) in
  concat (take 4 (drop (4 * i) W)).

(** ** The tables *)

(** The statics once the tables are generated. *)
Definition aes_ready : aes_statics := (aes_gen_tables aes_statics_init) <| aes_init_done := 1 |>.

(** The statics are always one of these two. *)
Definition statics_ok (st : aes_statics) : Prop := st = aes_statics_init \/ st = aes_ready.

Definition all_bytes (p : Z -> bool) : bool := forallb (fun i => p (Z.of_nat i)) (seq 0 256).

Lemma all_bytes_spec p : all_bytes p = true -> forall b, is_u8 b -> p b = true.
Proof.
  intros H b Hb. unfold all_bytes in H. rewrite List.forallb_forall in H.
  rewrite <- (Z2Nat.id b) by apply Hb. apply H, in_seq. unfold is_u8 in Hb. lia.
Qed.

(** What the tables [t] hold for the byte [b], [s] its S-box. *)
Definition table_entry (t : aes_statics) (b : Z) : bool :=
  let s := sbox b in
  let t0 := [xtime s; s; s; Z.lxor s (xtime s)] in
  let r0 := [gmul 14 b; gmul 9 b; gmul 13 b; gmul 11 b] in
  let rot l := drop 3 l ++ take 3 l in
  bool_decide (at_ (FSb t) b = s) && bool_decide (at_ (RSb t) s = b) &&
  bool_decide (is_u8 s) && bool_decide (sbox (at_ (RSb t) b) = b) && bool_decide (is_u8 (at_ (RSb t) b)) &&
  bool_decide (le_bytes 4 (at_ (FT0 t) b) = t0) && bool_decide (le_bytes 4 (at_ (FT1 t) b) = rot t0) &&
  bool_decide (le_bytes 4 (at_ (FT2 t) b) = rot (rot t0)) &&
  bool_decide (le_bytes 4 (at_ (FT3 t) b) = rot (rot (rot t0))) &&
  bool_decide (le_bytes 4 (at_ (RT0 t) s) = r0) && bool_decide (le_bytes 4 (at_ (RT1 t) s) = rot r0) &&
  bool_decide (le_bytes 4 (at_ (RT2 t) s) = rot (rot r0)) &&
  bool_decide (le_bytes 4 (at_ (RT3 t) s) = rot (rot (rot r0))).

Lemma tables_checked :
  (let t := aes_ready in
   all_bytes (table_entry t) &&
   bool_decide (aes_init_done t = 1 /\
     round_constants t = map (fun i => Nat.iter i xtime 1) (seq 0 10))) = true.
Proof. vm_compute. reflexivity. Qed.

Lemma entry_checked b : is_u8 b -> table_entry aes_ready b = true.
Proof.
  pose proof tables_checked as H. cbn zeta in H. apply andb_prop in H as [H _].
  apply all_bytes_spec, H.
Qed.

Lemma ready_done : aes_init_done aes_ready = 1.
Proof.
  pose proof tables_checked as H. cbn zeta in H. apply andb_prop in H as [_ H].
  apply bool_decide_eq_true in H. apply H.
Qed.

Lemma ready_round_constants : round_constants aes_ready = map (fun i => Nat.iter i xtime 1) (seq 0 10).
Proof.
  pose proof tables_checked as H. cbn zeta in H. apply andb_prop in H as [_ H].
  apply bool_decide_eq_true in H. apply H.
Qed.

#[local] Opaque aes_ready.
#[global] Opaque sbox.

(** What the checked entries say, as the rounds use it. *)
Section entries.
Context (b : Z) (Hb : is_u8 b).

Ltac entry :=
  pose proof (entry_checked b Hb) as H; unfold table_entry in H; reflect; cbn [take drop app] in *;
  assumption.

Lemma FSb_sbox : at_ (FSb aes_ready) b = sbox b.
Proof. entry. Qed.
Lemma sbox_u8 : is_u8 (sbox b).
Proof. entry. Qed.
Lemma RSb_sbox : at_ (RSb aes_ready) (sbox b) = b.
Proof. entry. Qed.
Lemma sbox_RSb : sbox (at_ (RSb aes_ready) b) = b.
Proof. entry. Qed.
Lemma RSb_u8 : is_u8 (at_ (RSb aes_ready) b).
Proof. entry. Qed.
Lemma FT0_bytes : le_bytes 4 (at_ (FT0 aes_ready) b) =
  [gmul 2 (sbox b); sbox b; sbox b; gmul 3 (sbox b)].
Proof. entry. Qed.
Lemma FT1_bytes : le_bytes 4 (at_ (FT1 aes_ready) b) =
  [gmul 3 (sbox b); gmul 2 (sbox b); sbox b; sbox b].
Proof. entry. Qed.
Lemma FT2_bytes : le_bytes 4 (at_ (FT2 aes_ready) b) =
  [sbox b; gmul 3 (sbox b); gmul 2 (sbox b); sbox b].
Proof. entry. Qed.
Lemma FT3_bytes : le_bytes 4 (at_ (FT3 aes_ready) b) =
  [sbox b; sbox b; gmul 3 (sbox b); gmul 2 (sbox b)].
Proof. entry. Qed.
Lemma RT0_sbox : le_bytes 4 (at_ (RT0 aes_ready) (sbox b)) = [gmul 14 b; gmul 9 b; gmul 13 b; gmul 11 b].
Proof. entry. Qed.
Lemma RT1_sbox : le_bytes 4 (at_ (RT1 aes_ready) (sbox b)) = [gmul 11 b; gmul 14 b; gmul 9 b; gmul 13 b].
Proof. entry. Qed.
Lemma RT2_sbox : le_bytes 4 (at_ (RT2 aes_ready) (sbox b)) = [gmul 13 b; gmul 11 b; gmul 14 b; gmul 9 b].
Proof. entry. Qed.
Lemma RT3_sbox : le_bytes 4 (at_ (RT3 aes_ready) (sbox b)) = [gmul 9 b; gmul 13 b; gmul 11 b; gmul 14 b].
Proof. entry. Qed.

(** The table [RSb] is the inverse S-box. *)
Lemma inv_sbox_RSb : inv_sbox b = at_ (RSb aes_ready) b.
Proof.
  unfold inv_sbox. destruct (find_first _ _) as [x|] eqn:Hx.
  - apply find_first_Some in Hx as [Hin Heq%Z.eqb_eq]. cbn.
    apply list_elem_of_fmap in Hin as (i & -> & Hi%elem_of_seq).
    rewrite <- Heq. symmetry. clear Heq.
    pose proof (entry_checked (Z.of_nat i) ltac:(unfold is_u8; lia)) as H. unfold table_entry in H.
    reflect. assumption.
  - rewrite find_first_None in Hx. exfalso.
    specialize (Hx (at_ (RSb aes_ready) b)). rewrite sbox_RSb, Z.eqb_refl in Hx.
    enough (true = false) by discriminate. apply Hx. apply list_elem_of_fmap.
    pose proof RSb_u8 as Hu. exists (Z.to_nat (at_ (RSb aes_ready) b)).
    rewrite Z2Nat.id by apply Hu. split; [reflexivity|]. apply elem_of_seq. unfold is_u8 in Hu. lia.
Qed.

End entries.

(** The inverse tables, at the byte they are indexed with. *)
Section inverse_entries.
Context (b : Z) (Hb : is_u8 b).

Lemma RT0_bytes : le_bytes 4 (at_ (RT0 aes_ready) b) =
  [gmul 14 (inv_sbox b); gmul 9 (inv_sbox b); gmul 13 (inv_sbox b); gmul 11 (inv_sbox b)].
Proof. rewrite inv_sbox_RSb by exact Hb. rewrite <- (sbox_RSb b Hb) at 1. apply RT0_sbox, RSb_u8, Hb. Qed.
Lemma RT1_bytes : le_bytes 4 (at_ (RT1 aes_ready) b) =
  [gmul 11 (inv_sbox b); gmul 14 (inv_sbox b); gmul 9 (inv_sbox b); gmul 13 (inv_sbox b)].
Proof. rewrite inv_sbox_RSb by exact Hb. rewrite <- (sbox_RSb b Hb) at 1. apply RT1_sbox, RSb_u8, Hb. Qed.
Lemma RT2_bytes : le_bytes 4 (at_ (RT2 aes_ready) b) =
  [gmul 13 (inv_sbox b); gmul 11 (inv_sbox b); gmul 14 (inv_sbox b); gmul 9 (inv_sbox b)].
Proof. rewrite inv_sbox_RSb by exact Hb. rewrite <- (sbox_RSb b Hb) at 1. apply RT2_sbox, RSb_u8, Hb. Qed.
Lemma RT3_bytes : le_bytes 4 (at_ (RT3 aes_ready) b) =
  [gmul 9 (inv_sbox b); gmul 13 (inv_sbox b); gmul 11 (inv_sbox b); gmul 14 (inv_sbox b)].
Proof. rewrite inv_sbox_RSb by exact Hb. rewrite <- (sbox_RSb b Hb) at 1. apply RT3_sbox, RSb_u8, Hb. Qed.

Lemma RSb_inv_sbox : at_ (RSb aes_ready) b = inv_sbox b.
Proof. symmetry. apply inv_sbox_RSb, Hb. Qed.

Lemma inv_sbox_sbox : inv_sbox (sbox b) = b.
Proof. rewrite inv_sbox_RSb by (apply sbox_u8, Hb). apply RSb_sbox, Hb. Qed.

Lemma inv_sbox_u8 : is_u8 (inv_sbox b).
Proof. rewrite inv_sbox_RSb by exact Hb. apply RSb_u8, Hb. Qed.

End inverse_entries.

(** ** Rounds *)

Lemma le_bytes_4 x :
  le_bytes 4 x = [MBEDTLS_BYTE_0 x; MBEDTLS_BYTE_1 x; MBEDTLS_BYTE_2 x; MBEDTLS_BYTE_3 x].
Proof. rewrite <- PUT_LE_le_bytes. reflexivity. Qed.

(** A byte shifted to its place in a word. *)
Definition place_checked : bool :=
  all_bytes (fun b =>
    bool_decide (le_bytes 4 b = [b; 0; 0; 0]) && bool_decide (le_bytes 4 (Z.shiftl b 8) = [0; b; 0; 0]) &&
    bool_decide (le_bytes 4 (Z.shiftl b 16) = [0; 0; b; 0]) &&
    bool_decide (le_bytes 4 (Z.shiftl b 24) = [0; 0; 0; b])).

Lemma place_byte b :
  is_u8 b ->
  le_bytes 4 b = [b; 0; 0; 0] /\ le_bytes 4 (Z.shiftl b 8) = [0; b; 0; 0] /\
  le_bytes 4 (Z.shiftl b 16) = [0; 0; b; 0] /\ le_bytes 4 (Z.shiftl b 24) = [0; 0; 0; b].
Proof.
  intros Hb. assert (H : place_checked = true) by (vm_compute; reflexivity).
  unfold place_checked in H. pose proof (all_bytes_spec _ H b Hb) as Hp. cbn beta in Hp. reflect. auto.
Qed.

(** The words of the round macros: a column of the products, plus the key. *)
Lemma front_word k A B C D :
  le_bytes 4 (Z.lxor (Z.lxor (Z.lxor (Z.lxor k (at_ (FT0 aes_ready) (MBEDTLS_BYTE_0 A)))
                (at_ (FT1 aes_ready) (MBEDTLS_BYTE_1 B))) (at_ (FT2 aes_ready) (MBEDTLS_BYTE_2 C)))
                (at_ (FT3 aes_ready) (MBEDTLS_BYTE_3 D))) =
  zip_with Z.lxor (le_bytes 4 k)
    (mix_column 2 3 1 1 [sbox (MBEDTLS_BYTE_0 A); sbox (MBEDTLS_BYTE_1 B);
                         sbox (MBEDTLS_BYTE_2 C); sbox (MBEDTLS_BYTE_3 D)]).
Proof.
  rewrite !le_bytes_lxor, FT0_bytes, FT1_bytes, FT2_bytes, FT3_bytes, (le_bytes_4 k) by auto with words.
  unfold mix_column. cbn [zip_with nth]. rewrite !Z.lxor_assoc. reflexivity.
Qed.

Lemma reverse_word k A B C D :
  le_bytes 4 (Z.lxor (Z.lxor (Z.lxor (Z.lxor k (at_ (RT0 aes_ready) (MBEDTLS_BYTE_0 A)))
                (at_ (RT1 aes_ready) (MBEDTLS_BYTE_1 B))) (at_ (RT2 aes_ready) (MBEDTLS_BYTE_2 C)))
                (at_ (RT3 aes_ready) (MBEDTLS_BYTE_3 D))) =
  zip_with Z.lxor (le_bytes 4 k)
    (mix_column 14 11 13 9 [inv_sbox (MBEDTLS_BYTE_0 A); inv_sbox (MBEDTLS_BYTE_1 B);
                            inv_sbox (MBEDTLS_BYTE_2 C); inv_sbox (MBEDTLS_BYTE_3 D)]).
Proof.
  rewrite !le_bytes_lxor, RT0_bytes, RT1_bytes, RT2_bytes, RT3_bytes, (le_bytes_4 k) by auto with words.
  unfold mix_column. cbn [zip_with nth]. rewrite !Z.lxor_assoc. reflexivity.
Qed.

(** Four bytes put together by shifts, plus a word. *)
Lemma placed_word k a b c d :
  is_u8 a -> is_u8 b -> is_u8 c -> is_u8 d ->
  le_bytes 4 (Z.lxor (Z.lxor (Z.lxor (Z.lxor k a) (Z.shiftl b 8)) (Z.shiftl c 16)) (Z.shiftl d 24)) =
  zip_with Z.lxor (le_bytes 4 k) [a; b; c; d].
Proof.
  intros Ha Hb Hc Hd. destruct (place_byte a Ha) as (Ea & _). destruct (place_byte b Hb) as (_ & Eb & _).
  destruct (place_byte c Hc) as (_ & _ & Ec & _). destruct (place_byte d Hd) as (_ & _ & _ & Ed).
  rewrite !le_bytes_lxor, Ea, Eb, Ec, Ed, (le_bytes_4 k). cbn [zip_with]. rewrite !Z.lxor_0_r. reflexivity.
Qed.

Definition round_key (RK : list Z) (p : nat) : list Z :=
  store_state (RK.[p], RK.[p + 1], RK.[p + 2], RK.[p + 3]).

Lemma store_state_bytes X0 X1 X2 X3 :
  store_state (X0, X1, X2, X3) = le_bytes 4 X0 ++ le_bytes 4 X1 ++ le_bytes 4 X2 ++ le_bytes 4 X3.
Proof. unfold store_state. rewrite !PUT_LE_le_bytes. reflexivity. Qed.

Lemma store_state_state X : length (store_state X) = 16%nat /\ byte_list (store_state X).
Proof.
  destruct X as [[[X0 X1] X2] X3]. rewrite store_state_bytes. split.
  - rewrite !length_app, !le_bytes_length. reflexivity.
  - repeat (apply Forall_app; split); apply le_bytes_bytes.
Qed.

(** Adding the key of a round, word by word. *)
Lemma add_key_words k0 k1 k2 k3 c0 c1 c2 c3 :
  length c0 = 4%nat -> length c1 = 4%nat -> length c2 = 4%nat ->
  zip_with Z.lxor (le_bytes 4 k0) c0 ++ zip_with Z.lxor (le_bytes 4 k1) c1 ++
  zip_with Z.lxor (le_bytes 4 k2) c2 ++ zip_with Z.lxor (le_bytes 4 k3) c3 =
  add_round_key (store_state (k0, k1, k2, k3)) (c0 ++ c1 ++ c2 ++ c3).
Proof.
  intros H0 H1 H2. rewrite store_state_bytes. unfold add_round_key.
  rewrite !zip_with_app by (rewrite le_bytes_length; congruence). reflexivity.
Qed.

Lemma AES_FROUND_fips RK p Y :
  store_state (AES_FROUND aes_ready RK p Y) =
  add_round_key (round_key RK p) (mix_columns (shift_rows (sub_bytes (store_state Y)))).
Proof.
  destruct Y as [[[Y0 Y1] Y2] Y3]. unfold AES_FROUND. rewrite store_state_bytes, !front_word.
  rewrite add_key_words by reflexivity. reflexivity.
Qed.

Lemma AES_RROUND_fips RK p Y :
  store_state (AES_RROUND aes_ready RK p Y) =
  add_round_key (round_key RK p) (inv_mix_columns (inv_shift_rows (inv_sub_bytes (store_state Y)))).
Proof.
  destruct Y as [[[Y0 Y1] Y2] Y3]. unfold AES_RROUND. rewrite store_state_bytes, !reverse_word.
  rewrite add_key_words by reflexivity. reflexivity.
Qed.

Lemma last_word_front k A B C D :
  le_bytes 4 (last_word (FSb aes_ready) k A B C D) =
  zip_with Z.lxor (le_bytes 4 k) [sbox (MBEDTLS_BYTE_0 A); sbox (MBEDTLS_BYTE_1 B);
                                  sbox (MBEDTLS_BYTE_2 C); sbox (MBEDTLS_BYTE_3 D)].
Proof.
  unfold last_word. rewrite !FSb_sbox by auto with words.
  apply placed_word; apply sbox_u8; auto with words.
Qed.

Lemma last_word_reverse k A B C D :
  le_bytes 4 (last_word (RSb aes_ready) k A B C D) =
  zip_with Z.lxor (le_bytes 4 k) [inv_sbox (MBEDTLS_BYTE_0 A); inv_sbox (MBEDTLS_BYTE_1 B);
                                  inv_sbox (MBEDTLS_BYTE_2 C); inv_sbox (MBEDTLS_BYTE_3 D)].
Proof.
  unfold last_word. rewrite (RSb_inv_sbox (MBEDTLS_BYTE_0 A)), (RSb_inv_sbox (MBEDTLS_BYTE_1 B)),
    (RSb_inv_sbox (MBEDTLS_BYTE_2 C)), (RSb_inv_sbox (MBEDTLS_BYTE_3 D)) by auto with words.
  apply placed_word; apply inv_sbox_u8; auto with words.
Qed.

(** The loop of the block functions runs [nr - 1] rounds. *)
Lemma run_rounds_spec (round : nat -> words4 -> words4) (f : nat -> list Z -> list Z) h p X :
  (forall q Y, store_state (round q Y) = f q (store_state Y)) ->
  let '(q, Y) := run_rounds round (2 * Z.of_nat (S h)) p X in
  q = (p + 4 * (2 * h + 1))%nat /\
  store_state Y = fold_left (fun s i => f (p + 4 * (i - 1))%nat s) (seq 1 (2 * h + 1)) (store_state X).
Proof.
  intros Hf. unfold run_rounds. replace (Z.to_nat (Z.shiftr (2 * Z.of_nat (S h)) 1 - 1)) with h
    by (rewrite Z.shiftr_div_pow2 by lia; change (2 ^ 1) with 2; Z.div_mod_to_equations; lia).
  assert (Hloop : let '(q, Y) := fold_left (fun '(p, X) (_ : nat) => ((p + 8)%nat, round (p + 4)%nat (round p X)))
      (seq 1 h) (p, X) in q = (p + 8 * h)%nat /\
    store_state Y = fold_left (fun s i => f (p + 4 * (i - 1))%nat s) (seq 1 (2 * h)) (store_state X)).
  { induction h as [|h IH]; [split; [cbn; lia|reflexivity]|].
    rewrite seq_S, fold_left_app. destruct (fold_left _ (seq 1 h) (p, X)) as [q Y]. cbn [fold_left].
    destruct IH as [-> HY]. split; [lia|]. rewrite !Hf, HY.
    replace (2 * S h)%nat with (S (S (2 * h))) by lia. rewrite !seq_S, !fold_left_app. cbn [fold_left].
    f_equal; [lia|]. f_equal. lia. }
  destruct (fold_left _ (seq 1 h) (p, X)) as [q Y]. destruct Hloop as [-> HY]. split; [lia|].
  rewrite Hf, HY. replace (2 * h + 1)%nat with (S (2 * h)) by lia. rewrite seq_S, fold_left_app. cbn [fold_left].
  f_equal. lia.
Qed.

(** ** The block functions *)

Lemma fold_left_ext_in {A B} (f g : A -> B -> A) l a :
  (forall a x, In x l -> f a x = g a x) -> fold_left f l a = fold_left g l a.
Proof.
  revert a. induction l as [|x l IH]; intros a H; [reflexivity|]. cbn.
  rewrite (H a x) by (left; reflexivity). apply IH. intros. apply H. right. assumption.
Qed.

Lemma le_bytes_GET_LE a b c d l :
  is_u8 a -> is_u8 b -> is_u8 c -> is_u8 d ->
  le_bytes 4 (MBEDTLS_GET_UINT32_LE (a :: b :: c :: d :: l) 0) = [a; b; c; d].
Proof.
  intros. rewrite GET_LE_le_value. apply (le_bytes_le_value [a; b; c; d]).
  repeat (constructor; [assumption|]). constructor.
Qed.

Lemma zip_lxor_comm a b : zip_with Z.lxor a b = zip_with Z.lxor b a.
Proof. revert b. induction a as [|x a IH]; intros [|y b]; cbn; [reflexivity..|]. rewrite IH, Z.lxor_comm. reflexivity. Qed.

Lemma load_state_fips RK p input :
  length input = 16%nat -> byte_list input ->
  store_state (load_state RK p input) = add_round_key (round_key RK p) input.
Proof.
  intros Hl Hb. unfold load_state. rewrite store_state_bytes, !le_bytes_lxor.
  rewrite !(zip_lxor_comm (le_bytes 4 (MBEDTLS_GET_UINT32_LE _ _))).
  rewrite (GET_LE_drop 4), (GET_LE_drop 8), (GET_LE_drop 12).
  do 16 (destruct input as [|? input]; [discriminate Hl|]). destruct input; [|discriminate Hl].
  unfold byte_list in Hb. rewrite !Forall_cons in Hb. cbn [drop].
  rewrite !le_bytes_GET_LE by tauto. rewrite add_key_words by reflexivity. reflexivity.
Qed.

Definition context_keys (ctx : mbedtls_aes_context) (i : nat) : list Z :=
  round_key (buf ctx) (rk ctx + 4 * i).

Lemma internal_encrypt_fips ctx h input :
  nr ctx = 2 * Z.of_nat (S h) -> length input = 16%nat -> byte_list input ->
  mbedtls_internal_aes_encrypt aes_ready ctx input =
  (0, fips_cipher (2 * S h) (context_keys ctx) input).
Proof.
  intros Hnr Hl Hb. unfold mbedtls_internal_aes_encrypt. rewrite Hnr.
  pose proof (run_rounds_spec (AES_FROUND aes_ready (buf ctx))
    (fun q s => add_round_key (round_key (buf ctx) q) (mix_columns (shift_rows (sub_bytes s)))) h
    (rk ctx + 4) (load_state (buf ctx) (rk ctx) input) (AES_FROUND_fips (buf ctx))) as Hr.
  destruct (run_rounds _ _ _ _) as [q [[[Y0 Y1] Y2] Y3]]. destruct Hr as [-> Hr]. f_equal.
  rewrite store_state_bytes, !last_word_front, add_key_words by reflexivity.
  rewrite load_state_fips in Hr by assumption. unfold fips_cipher.
  unfold context_keys at 1. replace (rk ctx + 4 * (2 * S h))%nat with (rk ctx + 4 + 4 * (2 * h + 1))%nat by lia.
  unfold round_key at 1. f_equal.
  transitivity (shift_rows (sub_bytes (store_state (Y0, Y1, Y2, Y3)))); [reflexivity|]. f_equal. f_equal.
  rewrite Hr. unfold context_keys at 2. replace (rk ctx + 4 * 0)%nat with (rk ctx) by lia.
  replace (2 * S h - 1)%nat with (2 * h + 1)%nat by lia. apply fold_left_ext_in.
  intros s i Hi%in_seq. unfold fips_round, context_keys. do 2 f_equal. lia.
Qed.

Lemma internal_decrypt_fips ctx h input :
  nr ctx = 2 * Z.of_nat (S h) -> length input = 16%nat -> byte_list input ->
  mbedtls_internal_aes_decrypt aes_ready ctx input =
  (0, fips_inv_cipher (2 * S h) (context_keys ctx) input).
Proof.
  intros Hnr Hl Hb. unfold mbedtls_internal_aes_decrypt. rewrite Hnr.
  pose proof (run_rounds_spec (AES_RROUND aes_ready (buf ctx))
    (fun q s => add_round_key (round_key (buf ctx) q) (inv_mix_columns (inv_shift_rows (inv_sub_bytes s)))) h
    (rk ctx + 4) (load_state (buf ctx) (rk ctx) input) (AES_RROUND_fips (buf ctx))) as Hr.
  destruct (run_rounds _ _ _ _) as [q [[[Y0 Y1] Y2] Y3]]. destruct Hr as [-> Hr]. f_equal.
  rewrite store_state_bytes, !last_word_reverse, add_key_words by reflexivity.
  rewrite load_state_fips in Hr by assumption. unfold fips_inv_cipher.
  unfold context_keys at 1. replace (rk ctx + 4 * (2 * S h))%nat with (rk ctx + 4 + 4 * (2 * h + 1))%nat by lia.
  unfold round_key at 1. f_equal.
  transitivity (inv_shift_rows (inv_sub_bytes (store_state (Y0, Y1, Y2, Y3)))); [reflexivity|]. f_equal. f_equal.
  rewrite Hr. unfold context_keys at 2. replace (rk ctx + 4 * 0)%nat with (rk ctx) by lia.
  replace (2 * S h - 1)%nat with (2 * h + 1)%nat by lia. apply fold_left_ext_in.
  intros s i Hi%in_seq. unfold fips_inv_round, context_keys. do 2 f_equal. lia.
Qed.

End aes_fips.
