(* ===== verification/AesInverse.v ===== *)
(** The key schedules of aes.c are those of FIPS 197 (module aes_keys), and AES
    decryption inverts AES encryption (module aes_inverse): the inverse steps of
    the standard undo the steps, InvMixColumns is linear, and the decryption key schedule of aes.c is
    the one the equivalent inverse cipher needs. *)

From S2P Require Import Prelude MbedCommon Aes AesFips.
From Stdlib Require Import Btauto.
Import mbed aes aes_fips.

Module aes_keys.

(** ** Key expansion for encryption *)

Section expansion.
Context (Nk : nat) (HNk : (0 < Nk)%nat) (key : list Z).

Let KW := key_words Nk key.

(** The first [j] words of the array are the standard's. *)
Definition expanded (j : nat) (RK : list Z) : Prop :=
  length RK = 68%nat /\ (Nk <= j <= 68)%nat /\
  take j (map (le_bytes 4) RK) = expand_words Nk (j - Nk) KW.

Lemma expand_words_length n : length (expand_words Nk n KW) = (Nk + n)%nat.
Proof.
  clear HNk. induction n as [|n IH]; cbn [expand_words].
  - unfold KW, key_words. rewrite length_map, length_seq. lia.
  - rewrite length_app, IH. cbn. lia.
Qed.

Lemma expanded_nth j RK i :
  expanded j RK -> (i < j)%nat -> nth i (expand_words Nk (j - Nk) KW) [] = le_bytes 4 RK.[i].
Proof.
  intros (Hl & Hj & Ht) Hi. rewrite <- Ht, nth_take_lt by exact Hi.
  rewrite (nth_indep _ [] (le_bytes 4 0)) by (rewrite length_map; lia). apply map_nth.
Qed.

(** Storing the next word. *)
Lemma expanded_store j RK v :
  expanded j RK -> (j < 68)%nat -> le_bytes 4 v = expand_word Nk (expand_words Nk (j - Nk) KW) ->
  expanded (S j) (<[j := v]> RK).
Proof.
  intros (Hl & Hj & Ht) Hlt Hv. split; [rewrite length_insert; exact Hl|]. split; [lia|].
  rewrite list_fmap_insert. rewrite take_S_insert by (rewrite length_fmap; lia).
  replace (S j - Nk)%nat with (S (j - Nk)) by lia. cbn [expand_words]. rewrite <- Hv, <- Ht.
  reflexivity.
Qed.

(** A word that is only the exclusive or of two earlier ones. *)
Lemma expand_next_inv base s d RK :
  expanded (base + d) RK -> (base + d < 68)%nat -> (s + Nk = d)%nat ->
  ((base + d) mod Nk <> 0)%nat -> ((6 < Nk)%nat -> ((base + d) mod Nk <> 4)%nat) ->
  expanded (S (base + d)) (expand_next base s d RK).
Proof.
  intros H Hlt Hs H0 H4. apply expanded_store; [exact H|exact Hlt|].
  unfold expand_word. rewrite expand_words_length.
  replace (Nk + (base + d - Nk))%nat with (base + d)%nat by lia.
  destruct (Nat.eqb_spec ((base + d) mod Nk) 0) as [|_]; [contradiction|].
  replace ((6 <? Nk)%nat && ((base + d) mod Nk =? 4)%nat) with false.
  - rewrite !(expanded_nth _ RK) by (exact H || lia). rewrite le_bytes_lxor. f_equal; do 2 f_equal; lia.
  - symmetry. apply andb_false_iff. destruct (Nat.ltb_spec 6 Nk); [right|left; reflexivity].
    apply Nat.eqb_neq, H4. assumption.
Qed.

(** The round constants as bytes. *)
Lemma round_constant_bytes i :
  (i < 10)%nat -> le_bytes 4 (round_constants aes_ready).[i] = [Nat.iter i xtime 1; 0; 0; 0].
Proof.
  intros Hi. rewrite ready_round_constants.
  do 10 (destruct i as [|i]; [reflexivity|]). lia.
Qed.

Lemma SubWord_bytes b0 b1 b2 b3 v :
  is_u8 b0 -> is_u8 b1 -> is_u8 b2 -> is_u8 b3 ->
  le_bytes 4 (SubWord_shifted aes_ready b0 b1 b2 b3 v) =
  zip_with Z.lxor (le_bytes 4 v) [sbox b0; sbox b1; sbox b2; sbox b3].
Proof.
  intros. unfold SubWord_shifted.
  rewrite (FSb_sbox b0), (FSb_sbox b1), (FSb_sbox b2), (FSb_sbox b3) by assumption.
  apply placed_word; apply sbox_u8; assumption.
Qed.

(** The first word of a turn: rotated, substituted, with the round constant. *)
Lemma expand_first_inv i RK :
  (i < 10)%nat -> expanded (Nk * i + Nk) RK -> (Nk * i + Nk < 68)%nat ->
  expanded (S (Nk * i + Nk)) (expand_first aes_ready Nk (Nk * i) i RK).
Proof.
  intros Hi H Hlt. apply expanded_store; [exact H|exact Hlt|].
  unfold expand_word. rewrite expand_words_length.
  replace (Nk + (Nk * i + Nk - Nk))%nat with (S i * Nk)%nat by lia.
  rewrite Nat.Div0.mod_mul, Nat.div_mul by lia. cbn [Nat.eqb].
  replace (S i * Nk - 1)%nat with (Nk * i + (Nk - 1))%nat by lia.
  replace (S i * Nk - Nk)%nat with (Nk * i)%nat by lia.
  rewrite !(expanded_nth _ RK) by (exact H || lia).
  rewrite SubWord_bytes, le_bytes_lxor, round_constant_bytes by (auto with words || exact Hi).
  unfold Rcon. cbn [Nat.sub]. rewrite Nat.sub_0_r.
  rewrite (le_bytes_4 RK.[Nk * i + (Nk - 1)]). generalize (le_bytes 4 RK.[Nk * i]). intros w.
  unfold SubWord, RotWord. cbn [drop take app map]. destruct w as [|? [|? [|? [|? w]]]]; cbn [zip_with];
    rewrite ?Z.lxor_assoc, ?(Z.lxor_comm _ (sbox _)), ?Z.lxor_assoc; try reflexivity. destruct w; reflexivity.
Qed.

(** The extra substitution of the longest keys. *)
Lemma expand_middle_inv i RK :
  Nk = 8%nat -> expanded (8 * i + 12) RK -> (8 * i + 12 < 68)%nat ->
  expanded (S (8 * i + 12))
    (let w := RK.[8 * i + 11] in
     <[(8 * i + 12)%nat := SubWord_shifted aes_ready (MBEDTLS_BYTE_0 w) (MBEDTLS_BYTE_1 w)
                            (MBEDTLS_BYTE_2 w) (MBEDTLS_BYTE_3 w) RK.[8 * i + 4]]> RK).
Proof.
  intros H8 H Hlt. apply expanded_store; [exact H|exact Hlt|].
  unfold expand_word. rewrite expand_words_length.
  assert (Hm : ((8 * i + 12) mod Nk = 4)%nat).
  { rewrite H8. replace (8 * i + 12)%nat with (4 + (i + 1) * 8)%nat by lia. apply Nat.Div0.mod_add. }
  replace (Nk + (8 * i + 12 - Nk))%nat with (8 * i + 12)%nat by lia. rewrite Hm.
  replace (6 <? Nk)%nat with true by (symmetry; apply Nat.ltb_lt; lia). cbn [Nat.eqb andb].
  rewrite !(expanded_nth _ RK) by (exact H || lia).
  rewrite SubWord_bytes by auto with words. rewrite (le_bytes_4 RK.[8 * i + 12 - 1]).
  unfold SubWord. cbn [map].
  replace (8 * i + 12 - 1)%nat with (8 * i + 11)%nat by lia.
  replace (8 * i + 12 - Nk)%nat with (8 * i + 4)%nat by lia. reflexivity.
Qed.

Lemma load_key_expanded RK :
  length RK = 68%nat -> (Nk <= 68)%nat -> length key = (4 * Nk)%nat -> byte_list key ->
  expanded Nk (load_key key Nk RK).
Proof.
  intros Hl HN Hk Hb. unfold load_key.
  destruct (fill_seq (fun i => MBEDTLS_GET_UINT32_LE key (4 * i)) Nk RK ltac:(lia)) as [Hfl Hft].
  split; [rewrite Hfl; exact Hl|]. split; [lia|]. rewrite Nat.sub_diag. cbn [expand_words].
  unfold KW, key_words. rewrite <- fmap_take, Hft.
  etransitivity; [apply (map_map (fun i => MBEDTLS_GET_UINT32_LE key (4 * i)) (le_bytes 4))|]. apply map_ext_in. intros i Hi%in_seq.
  rewrite GET_LE_drop. pose proof (length_drop key (4 * i)) as Hd.
  assert (Hbd : byte_list (drop (4 * i) key)) by (apply Forall_drop, Hb).
  destruct (drop (4 * i) key) as [|a [|b [|c [|d l]]]]; cbn in Hd; try lia.
  unfold byte_list in Hbd. rewrite !Forall_cons in Hbd. rewrite le_bytes_GET_LE by tauto. reflexivity.
Qed.

End expansion.

(** [(k * i + d) mod k] for numerals *)
Ltac small_mod :=
  rewrite (Nat.add_comm (_ * _)), (Nat.mul_comm _ (_ : nat)), Nat.Div0.mod_add; cbn; lia.

(** The next word [d] of a turn, from the words [s] and [p] before it. *)
Ltac next_word H key Nk base s p d :=
  replace (S (base + p)) with (base + d)%nat in H by lia;
  apply (expand_next_inv Nk ltac:(lia) key base s d) in H;
    [|lia|lia|small_mod|first [lia | intros _; small_mod]].

Lemma expand_10_inv key i RK :
  (i < 10)%nat -> expanded 4 key (4 * i + 4) RK -> expanded 4 key (4 * S i + 4) (expand_10 aes_ready RK i).
Proof.
  intros Hi H. unfold expand_10. apply expand_first_inv in H; [|lia..].
  next_word H key 4%nat (4 * i)%nat 1%nat 4%nat 5%nat. next_word H key 4%nat (4 * i)%nat 2%nat 5%nat 6%nat.
  next_word H key 4%nat (4 * i)%nat 3%nat 6%nat 7%nat.
  replace (4 * S i + 4)%nat with (S (4 * i + 7)) by lia. exact H.
Qed.

Lemma expand_12_inv key i RK :
  (i < 8)%nat -> expanded 6 key (6 * i + 6) RK -> expanded 6 key (6 * S i + 6) (expand_12 aes_ready RK i).
Proof.
  intros Hi H. unfold expand_12. apply expand_first_inv in H; [|lia..].
  next_word H key 6%nat (6 * i)%nat 1%nat 6%nat 7%nat. next_word H key 6%nat (6 * i)%nat 2%nat 7%nat 8%nat.
  next_word H key 6%nat (6 * i)%nat 3%nat 8%nat 9%nat. next_word H key 6%nat (6 * i)%nat 4%nat 9%nat 10%nat.
  next_word H key 6%nat (6 * i)%nat 5%nat 10%nat 11%nat.
  replace (6 * S i + 6)%nat with (S (6 * i + 11)) by lia. exact H.
Qed.

Lemma expand_14_inv key i RK :
  (i < 7)%nat -> expanded 8 key (8 * i + 8) RK -> expanded 8 key (8 * S i + 8) (expand_14 aes_ready RK i).
Proof.
  intros Hi H. unfold expand_14. apply expand_first_inv in H; [|lia..].
  next_word H key 8%nat (8 * i)%nat 1%nat 8%nat 9%nat. next_word H key 8%nat (8 * i)%nat 2%nat 9%nat 10%nat.
  next_word H key 8%nat (8 * i)%nat 3%nat 10%nat 11%nat.
  replace (S (8 * i + 11)) with (8 * i + 12)%nat in H by lia.
  apply (expand_middle_inv 8 ltac:(lia) key i) in H; [|reflexivity|lia]. cbn zeta in H.
  next_word H key 8%nat (8 * i)%nat 5%nat 12%nat 13%nat. next_word H key 8%nat (8 * i)%nat 6%nat 13%nat 14%nat.
  next_word H key 8%nat (8 * i)%nat 7%nat 14%nat 15%nat.
  replace (8 * S i + 8)%nat with (S (8 * i + 15)) by lia. exact H.
Qed.

(** A whole loop of turns. *)
Lemma expand_loop Nk key step m n RK :
  (forall i RK, (i < m)%nat -> expanded Nk key (Nk * i + Nk) RK -> expanded Nk key (Nk * S i + Nk) (step RK i)) ->
  (n <= m)%nat -> expanded Nk key Nk RK -> expanded Nk key (Nk * n + Nk) (fold_left step (seq 0 n) RK).
Proof.
  intros Hstep Hn H. induction n as [|n IH].
  - replace (Nk * 0 + Nk)%nat with Nk by lia. exact H.
  - rewrite seq_S, fold_left_app. cbn [fold_left]. apply Hstep; [lia|]. apply IH. lia.
Qed.

Lemma expand_words_take Nk key m n :
  (m <= n)%nat ->
  take (Nk + m) (expand_words Nk n (key_words Nk key)) = expand_words Nk m (key_words Nk key).
Proof.
  intros H. induction H as [|n H IH].
  - apply take_ge. rewrite expand_words_length. lia.
  - cbn [expand_words]. rewrite take_app_le by (rewrite expand_words_length; lia). exact IH.
Qed.

(** The round keys of an expanded array. *)
Lemma expanded_round_key Nk key j RK i :
  expanded Nk key j RK -> (4 * (Nk + 7) <= j)%nat -> (i <= Nk + 6)%nat ->
  round_key RK (4 * i) = fips_round_key Nk key i.
Proof.
  intros (Hl & Hj & Ht) Hle Hi. unfold fips_round_key.
  assert (HW : expand_words Nk (4 * (Nk + 7) - Nk) (key_words Nk key) =
               take (4 * (Nk + 7)) (map (le_bytes 4) RK)).
  { rewrite <- (expand_words_take Nk key (4 * (Nk + 7) - Nk) (j - Nk)) by lia.
    rewrite <- Ht, take_take. f_equal. lia. }
  rewrite HW, skipn_firstn_comm, take_take, Nat.min_l by lia.
  unfold round_key. rewrite store_state_bytes.
  assert (Hd : exists a b c d l, drop (4 * i) RK = a :: b :: c :: d :: l).
  { pose proof (length_drop RK (4 * i)) as Hdl.
    destruct (drop (4 * i) RK) as [|a [|b [|c [|d l]]]]; cbn in Hdl; try lia. eauto 6. }
  destruct Hd as (a & b & c & d & l & Hd).
  rewrite !nth_add, <- (Nat.add_0_r (4 * i)) at 1. rewrite nth_add, Hd.
  change (map (le_bytes 4) RK) with (le_bytes 4 <$> RK). rewrite <- fmap_drop, Hd. cbn.
  rewrite app_nil_r. reflexivity.
Qed.

(** ** Keyed contexts *)

(** The key sizes, in words: 128, 192 and 256 bits. *)
Definition key_size (Nk : nat) : Prop := Nk = 4%nat \/ Nk = 6%nat \/ Nk = 8%nat.

(** Setting an encryption key generates the tables if need be and leaves the
    key schedule of the standard in the context. *)
Lemma setkey_enc_spec Nk st ctx key :
  key_size Nk -> statics_ok st -> length (buf ctx) = 68%nat ->
  length key = (4 * Nk)%nat -> byte_list key ->
  exists ctx', mbedtls_aes_setkey_enc st ctx key (32 * Z.of_nat Nk) = (0, aes_ready, ctx') /\
    nr ctx' = Z.of_nat (Nk + 6) /\ rk ctx' = O /\ length (buf ctx') = 68%nat /\
    forall i, (i <= Nk + 6)%nat -> context_keys ctx' i = fips_round_key Nk key i.
Proof.
  intros HNk Hst Hb Hl Hk. unfold mbedtls_aes_setkey_enc.
  assert (Hready : (if aes_init_done st =? 0 then (aes_gen_tables st) <| aes_init_done := 1 |> else st)
                   = aes_ready).
  { destruct Hst as [-> | ->]; [|rewrite ready_done]; reflexivity. }
  assert (Hload : expanded Nk key Nk (load_key key Nk (buf ctx)))
    by (apply load_key_expanded; destruct HNk as [|[|]]; lia || assumption).
  assert (Hkeys : forall n RK j, expanded Nk key j RK -> (4 * (Nk + 7) <= j)%nat ->
    length RK = 68%nat /\ forall i, (i <= Nk + 6)%nat ->
      context_keys {| nr := n; rk := 0; buf := RK |} i = fips_round_key Nk key i).
  { intros n RK j H Hle. split; [apply H|]. intros i Hi. apply (expanded_round_key Nk key j RK i H Hle Hi). }
  destruct HNk as [-> | [-> | ->]];
    cbn [Z.eqb Z.mul Z.of_nat Pos.eqb Pos.of_succ_nat Pos.succ Pos.mul Pos.add]; cbv zeta;
    rewrite Hready; eexists; (split; [reflexivity|]); cbn [nr rk buf set_field];
    (split; [reflexivity|]); (split; [reflexivity|]).
  - apply (Hkeys _ _ 44%nat); [|lia].
    apply (expand_loop 4 key (expand_10 aes_ready) 10 10); [apply expand_10_inv|lia|exact Hload].
  - apply (Hkeys _ _ 54%nat); [|lia].
    apply (expand_loop 6 key (expand_12 aes_ready) 8 8); [apply expand_12_inv|lia|exact Hload].
  - apply (Hkeys _ _ 64%nat); [|lia].
    apply (expand_loop 8 key (expand_14 aes_ready) 7 7); [apply expand_14_inv|lia|exact Hload].
Qed.

(** ** The decryption schedule *)

Lemma inv_mix_word_column w :
  le_bytes 4 (inv_mix_word aes_ready w) = mix_column 14 11 13 9 (le_bytes 4 w).
Proof.
  unfold inv_mix_word.
  rewrite (FSb_sbox (MBEDTLS_BYTE_0 w)), (FSb_sbox (MBEDTLS_BYTE_1 w)), (FSb_sbox (MBEDTLS_BYTE_2 w)),
    (FSb_sbox (MBEDTLS_BYTE_3 w)) by auto with words.
  rewrite !le_bytes_lxor, RT0_sbox, RT1_sbox, RT2_sbox, RT3_sbox, (le_bytes_4 w) by auto with words.
  reflexivity.
Qed.

Lemma inv_mix_words w0 w1 w2 w3 :
  store_state (inv_mix_word aes_ready w0, inv_mix_word aes_ready w1,
               inv_mix_word aes_ready w2, inv_mix_word aes_ready w3) =
  inv_mix_columns (store_state (w0, w1, w2, w3)).
Proof.
  rewrite !store_state_bytes, !inv_mix_word_column, !(le_bytes_4 _). reflexivity.
Qed.

(** Four words copied: the round key there, and the earlier ones untouched. *)
Lemma copy_4_spec f SK r s RK :
  (r + 4 <= length RK)%nat ->
  exists RK', copy_4 f SK (r, s, RK) = ((r + 4)%nat, (s + 4)%nat, RK') /\ length RK' = length RK /\
    round_key RK' r = store_state (f SK.[s], f SK.[s + 1], f SK.[s + 2], f SK.[s + 3]) /\
    forall r', (r' + 4 <= r)%nat -> round_key RK' r' = round_key RK r'.
Proof.
  intros H. unfold copy_4, copy_word. eexists. split.
  { replace (r + 4)%nat with (S (S (S (S r)))) by lia. replace (s + 4)%nat with (S (S (S (S s)))) by lia.
    reflexivity. }
  rewrite !length_insert. split; [reflexivity|].
  replace (s + 1)%nat with (S s) by lia. replace (s + 2)%nat with (S (S s)) by lia.
  replace (s + 3)%nat with (S (S (S s))) by lia. unfold round_key. split.
  - rewrite !nth_lookup.
    replace (r + 1)%nat with (S r) by lia. replace (r + 2)%nat with (S (S r)) by lia.
    replace (r + 3)%nat with (S (S (S r))) by lia.
    repeat first [rewrite list_lookup_insert_eq by (rewrite ?length_insert; lia)
                 |rewrite list_lookup_insert_ne by lia]. reflexivity.
  - intros r' Hr. rewrite !nth_lookup. rewrite !list_lookup_insert_ne by lia. reflexivity.
Qed.

End aes_keys.

Import mbed aes aes_fips aes_keys.

Module aes_inverse.

(** A state, or a round key: sixteen bytes. *)
Definition is_state (s : list Z) : Prop := length s = 16%nat /\ byte_list s.

(** ** The field *)

Lemma xtime_lxor a b : xtime (Z.lxor a b) = Z.lxor (xtime a) (xtime b).
Proof.
  unfold xtime. rewrite Z.shiftl_lxor, Z.lxor_spec.
  replace (if xorb (Z.testbit a 7) (Z.testbit b 7) then 0x1B else 0) with
    (Z.lxor (if Z.testbit a 7 then 0x1B else 0) (if Z.testbit b 7 then 0x1B else 0))
    by (destruct (Z.testbit a 7), (Z.testbit b 7); reflexivity).
  apply Z.bits_inj'. intros i Hi. rewrite !Z.lxor_spec, !Z.land_spec, !Z.lxor_spec. btauto.
Qed.

Lemma gmul_pos_lxor c a b : gmul_pos c (Z.lxor a b) = Z.lxor (gmul_pos c a) (gmul_pos c b).
Proof.
  revert a b. induction c as [c IH|c IH|]; intros a b; cbn [gmul_pos]; [|rewrite xtime_lxor; apply IH|reflexivity].
  rewrite xtime_lxor, IH. apply Z.bits_inj'. intros i Hi. rewrite !Z.lxor_spec. btauto.
Qed.

Lemma gmul_lxor c a b : gmul c (Z.lxor a b) = Z.lxor (gmul c a) (gmul c b).
Proof. destruct c as [|c|c]; [reflexivity|apply gmul_pos_lxor|reflexivity]. Qed.

Lemma xtime_u8 b : is_u8 b -> is_u8 (xtime b).
Proof.
  intros Hb. assert (H : all_bytes (fun b => bool_decide (is_u8 (xtime b))) = true) by (vm_compute; reflexivity).
  pose proof (all_bytes_spec _ H b Hb) as Hx. cbn beta in Hx. reflect. exact Hx.
Qed.

Lemma gmul_u8 c b : is_u8 b -> is_u8 (gmul c b).
Proof.
  intros Hb. destruct c as [|c|c]; [unfold is_u8; cbn; lia| |unfold is_u8; cbn; lia].
  cbn [gmul]. revert b Hb. induction c as [c IH|c IH|]; intros b Hb; cbn [gmul_pos];
    auto using xtime_u8, lxor_u8.
Qed.

(** ** The steps *)

Lemma mix_column_length a b c d col : length (mix_column a b c d col) = 4%nat.
Proof. reflexivity. Qed.

Lemma zip_lxor_u8 a b : byte_list a -> byte_list b -> byte_list (zip_with Z.lxor a b).
Proof.
  intros Ha. revert b. induction Ha as [|x a Hx _ IH]; intros b Hb; [constructor|].
  destruct Hb as [|y b Hy Hb]; [constructor|].
  constructor; [apply lxor_u8; assumption|apply IH, Hb].
Qed.

Lemma nth_u8 s i : byte_list s -> is_u8 s.[i].
Proof.
  intros H. rewrite nth_lookup. destruct (s !! i) eqn:Hi; [|unfold is_u8; cbn; lia].
  exact (Forall_lookup_1 _ _ _ _ H Hi).
Qed.

Lemma mix_column_bytes a b c d col : byte_list col -> byte_list (mix_column a b c d col).
Proof.
  intros H. unfold mix_column. cbn zeta.
  repeat apply Forall_cons_2; try apply Forall_nil_2; repeat apply lxor_u8; apply gmul_u8, nth_u8, H.
Qed.

Lemma mix_with_state a b c d s : is_state s -> is_state (mix_with a b c d s).
Proof.
  intros [Hl Hb]. unfold mix_with. cbn [seq map concat]. split.
  - rewrite !length_app. reflexivity.
  - repeat (apply Forall_app; split); first [apply Forall_nil_2 | apply mix_column_bytes, Forall_take, Forall_drop, Hb].
Qed.

Lemma sub_bytes_state s : is_state s -> is_state (sub_bytes s).
Proof.
  intros [Hl Hb]. split; [unfold sub_bytes; rewrite length_map; exact Hl|].
  apply Forall_map. eapply Forall_impl; [exact Hb|]. intros x. apply sbox_u8.
Qed.

Lemma shift_rows_state s : is_state s -> is_state (shift_rows s).
Proof.
  intros [Hl Hb]. split; [reflexivity|]. apply Forall_map, Forall_forall. intros i _. apply nth_u8, Hb.
Qed.

Lemma add_round_key_state k s : is_state k -> is_state s -> is_state (add_round_key k s).
Proof.
  intros [Hkl Hkb] [Hl Hb]. split; [unfold add_round_key; rewrite length_zip_with; lia|].
  apply zip_lxor_u8; assumption.
Qed.

Lemma fips_round_state k s i : is_state (k i) -> is_state s -> is_state (fips_round k s i).
Proof. intros Hk Hs. apply add_round_key_state; [exact Hk|]. apply mix_with_state, shift_rows_state, sub_bytes_state, Hs. Qed.

(** Case analysis on the sixteen bytes of a list. *)
Ltac sixteen s H :=
  do 16 (destruct s as [|? s]; [discriminate H|]); destruct s; [|discriminate H].

Lemma add_round_key_involutive k s :
  length k = 16%nat -> length s = 16%nat -> add_round_key k (add_round_key k s) = s.
Proof.
  intros Hk Hs. assert (Hl : length s = length k) by congruence. clear Hk Hs. revert k Hl.
  unfold add_round_key. induction s as [|x s IH]; intros [|y k] Hl; try discriminate Hl; [reflexivity|].
  cbn [zip_with]. rewrite <- Z.lxor_assoc, Z.lxor_nilpotent, Z.lxor_0_l, IH by (injection Hl; auto). reflexivity.
Qed.

Lemma inv_sub_shift s :
  is_state s -> inv_shift_rows (inv_sub_bytes (shift_rows (sub_bytes s))) = s.
Proof.
  intros [Hl Hb]. sixteen s Hl. unfold byte_list in Hb. rewrite !Forall_cons in Hb.
  unfold inv_sub_bytes, sub_bytes. cbn [map].
  unfold shift_rows, inv_shift_rows. cbn -[sbox inv_sbox].
  rewrite !inv_sbox_sbox by tauto. reflexivity.
Qed.

Lemma inv_mix_column a b c d :
  mix_column 14 11 13 9 (mix_column 2 3 1 1 [a; b; c; d]) = [a; b; c; d].
Proof.
  unfold mix_column. cbn [nth gmul gmul_pos]. rewrite !xtime_lxor.
  repeat f_equal; apply Z.bits_inj'; intros i Hi; rewrite !Z.lxor_spec; btauto.
Qed.

Lemma inv_mix_mix s : length s = 16%nat -> inv_mix_columns (mix_columns s) = s.
Proof.
  intros Hl. sixteen s Hl. unfold inv_mix_columns, mix_columns, mix_with.
  cbn [seq map concat]. rewrite !app_nil_r.
  transitivity (concat (map (mix_column 14 11 13 9) (map (mix_column 2 3 1 1)
    [[z; z0; z1; z2]; [z3; z4; z5; z6]; [z7; z8; z9; z10]; [z11; z12; z13; z14]]))); [reflexivity|].
  cbn [map]. rewrite !inv_mix_column. reflexivity.
Qed.

Lemma mix_column_lxor a b c d x0 x1 x2 x3 y0 y1 y2 y3 :
  mix_column a b c d (zip_with Z.lxor [x0; x1; x2; x3] [y0; y1; y2; y3]) =
  zip_with Z.lxor (mix_column a b c d [x0; x1; x2; x3]) (mix_column a b c d [y0; y1; y2; y3]).
Proof.
  unfold mix_column. cbn [nth zip_with]. rewrite !gmul_lxor.
  repeat (apply (f_equal2 (@cons Z)); [apply Z.bits_inj'; intros i Hi; rewrite !Z.lxor_spec; btauto|]).
  reflexivity.
Qed.

(** InvMixColumns goes through the addition of a round key. *)
Lemma inv_mix_add_round_key k s :
  length k = 16%nat -> length s = 16%nat ->
  inv_mix_columns (add_round_key k s) = add_round_key (inv_mix_columns k) (inv_mix_columns s).
Proof.
  intros Hk Hs. sixteen k Hk. sixteen s Hs. unfold inv_mix_columns, mix_with, add_round_key.
  cbn [seq map concat].
  change (drop (4 * 0)) with (@id (list Z)). cbn [zip_with drop take Nat.mul Nat.add id].
  rewrite !app_nil_r. rewrite !zip_with_app by reflexivity. rewrite <- !mix_column_lxor. reflexivity.
Qed.

(** ** The inverse cipher *)

(** The keys of the equivalent inverse cipher. *)
Definition decryption_keys (n : nat) (k : nat -> list Z) (i : nat) : list Z :=
  if (i =? 0)%nat then k n else if (i =? n)%nat then k 0%nat else inv_mix_columns (k (n - i)%nat).

(** Undoing the middle rounds, last one first. *)
Lemma inverse_rounds n k s m :
  (m < n)%nat -> (forall i, (i <= n)%nat -> is_state (k i)) -> is_state s ->
  fold_left (fips_inv_round (decryption_keys n k)) (seq (n - m) m)
    (shift_rows (sub_bytes (fold_left (fips_round k) (seq 1 m) s))) = shift_rows (sub_bytes s).
Proof.
  intros Hm Hk Hs. revert Hm. induction m as [|m IH]; intros Hm; [reflexivity|].
  rewrite (seq_S m 1), (fold_left_app _ (seq 1 m)). cbn [fold_left seq Nat.add].
  replace (S (n - S m)) with (n - m)%nat by lia.
  set (x := fold_left (fips_round k) (seq 1 m) s) in *.
  assert (Hx : is_state x).
  { unfold x. clear IH x. induction m as [|m IHm]; [exact Hs|]. rewrite seq_S, fold_left_app. cbn [fold_left].
    apply fips_round_state; [apply Hk; lia|apply IHm; lia]. }
  pose proof (Hk (S m) ltac:(lia)) as HkS.
  assert (Hu : is_state (shift_rows (sub_bytes x))) by (apply shift_rows_state, sub_bytes_state, Hx).
  rewrite <- IH by lia. f_equal. unfold fips_inv_round at 1.
  rewrite inv_sub_shift by (apply fips_round_state; assumption).
  unfold decryption_keys. destruct (Nat.eqb_spec (n - S m) 0); [lia|].
  destruct (Nat.eqb_spec (n - S m) n); [lia|]. replace (n - (n - S m))%nat with (S m) by lia.
  unfold fips_round. rewrite inv_mix_add_round_key by (apply HkS || apply mix_with_state, Hu).
  rewrite inv_mix_mix by apply Hu. apply add_round_key_involutive; [|apply Hu].
  apply (mix_with_state 14 11 13 9), HkS.
Qed.

Lemma fips_inverse n k s :
  (0 < n)%nat -> (forall i, (i <= n)%nat -> is_state (k i)) -> is_state s ->
  fips_inv_cipher n (decryption_keys n k) (fips_cipher n k s) = s.
Proof.
  intros Hn Hk Hs. unfold fips_inv_cipher, fips_cipher.
  pose proof (Hk 0%nat ltac:(lia)) as H0. pose proof (Hk n ltac:(lia)) as Hkn.
  set (s0 := add_round_key (k 0%nat) s). assert (Hs0 : is_state s0) by (apply add_round_key_state; assumption).
  assert (Hm : forall m, (m < n)%nat -> is_state (fold_left (fips_round k) (seq 1 m) s0)).
  { induction m as [|m IHm]; intros Hlt; [exact Hs0|]. rewrite seq_S, fold_left_app. cbn [fold_left].
    apply fips_round_state; [apply Hk; lia|apply IHm; lia]. }
  change (decryption_keys n k 0) with (k n).
  rewrite add_round_key_involutive;
    [|apply Hkn|apply shift_rows_state, sub_bytes_state, Hm; lia].
  pose proof (inverse_rounds n k s0 (n - 1) ltac:(lia) Hk Hs0) as Hr.
  replace (n - (n - 1))%nat with 1%nat in Hr by lia. rewrite Hr, inv_sub_shift by exact Hs0.
  unfold decryption_keys. destruct (Nat.eqb_spec n 0); [lia|]. rewrite Nat.eqb_refl.
  apply add_round_key_involutive; [apply H0|apply Hs].
Qed.

(** ** The decryption key schedule *)

Lemma round_key_length RK p : length (round_key RK p) = 16%nat.
Proof. apply store_state_state. Qed.

Section schedule.
Context (Nk : nat) (key : list Z) (SK : list Z).
Context (HSK : forall i, (i <= Nk + 6)%nat -> round_key SK (4 * i) = fips_round_key Nk key i).

Let D := decryption_keys (Nk + 6) (fips_round_key Nk key).

(** The loop has copied the keys up to [k] and looks at the one to take next. *)
Definition copied (k : nat) (p : nat * nat * list Z) : Prop :=
  let '(r, s, RK) := p in
  r = (4 * k + 4)%nat /\ s = (4 * (Nk + 5 - k))%nat /\ length RK = 68%nat /\
  forall i, (i <= k)%nat -> round_key RK (4 * i) = D i.

Lemma copied_next k p :
  (Nk <= 8)%nat -> (S k < Nk + 6)%nat -> copied k p ->
  copied (S k) (back_8 (copy_4 (inv_mix_word aes_ready) SK p)).
Proof.
  intros HNk Hk H. destruct p as [[r s] RK]. destruct H as (-> & -> & Hl & HD).
  destruct (copy_4_spec (inv_mix_word aes_ready) SK (4 * k + 4) (4 * (Nk + 5 - k)) RK ltac:(lia))
    as (RK' & -> & Hl' & Hnew & Hold).
  cbn [back_8 copied]. split; [lia|]. split; [lia|]. split; [congruence|]. intros i Hi.
  destruct (Nat.eq_dec i (S k)) as [->|Hne].
  - replace (4 * S k)%nat with (4 * k + 4)%nat by lia. rewrite Hnew, inv_mix_words.
    fold (round_key SK (4 * (Nk + 5 - k))). rewrite HSK by lia. unfold D, decryption_keys.
    destruct (Nat.eqb_spec (S k) 0); [lia|]. destruct (Nat.eqb_spec (S k) (Nk + 6)); [lia|].
    do 2 f_equal. lia.
  - rewrite Hold by lia. apply HD. lia.
Qed.

Lemma copied_loop m p :
  (Nk <= 8)%nat -> (m < Nk + 6)%nat -> copied 0 p ->
  copied m (fold_left (fun p _ => back_8 (copy_4 (inv_mix_word aes_ready) SK p)) (seq 1 m) p).
Proof.
  intros HNk Hm H. induction m as [|m IH]; [exact H|].
  rewrite seq_S, fold_left_app. cbn [fold_left]. apply copied_next; [exact HNk|lia|]. apply IH. lia.
Qed.

End schedule.

Lemma setkey_dec_spec Nk st ctx key :
  key_size Nk -> statics_ok st -> length (buf ctx) = 68%nat ->
  length key = (4 * Nk)%nat -> byte_list key ->
  exists ctx', mbedtls_aes_setkey_dec st ctx key (32 * Z.of_nat Nk) = (0, aes_ready, ctx') /\
    nr ctx' = Z.of_nat (Nk + 6) /\ rk ctx' = O /\ length (buf ctx') = 68%nat /\
    forall i, (i <= Nk + 6)%nat ->
      context_keys ctx' i = decryption_keys (Nk + 6) (fips_round_key Nk key) i.
Proof.
  intros HNk Hst Hb Hl Hk. unfold mbedtls_aes_setkey_dec.
  destruct (setkey_enc_spec Nk st mbedtls_aes_init key HNk Hst eq_refl Hl Hk)
    as (cty & -> & Hnr & Hrk & Hcl & Hkeys).
  assert (HN8 : (Nk <= 8)%nat) by (destruct HNk as [|[|]]; lia).
  assert (HSK : forall i, (i <= Nk + 6)%nat -> round_key (buf cty) (4 * i) = fips_round_key Nk key i).
  { intros i Hi. rewrite <- Hkeys by exact Hi. unfold context_keys. rewrite Hrk. reflexivity. }
  change (negb (0 =? 0)) with false. cbv iota zeta. cbn [nr rk buf set_field].
  rewrite Hrk, Hnr, Nat2Z.id. unfold mbedtls_aes_rk_offset.
  destruct (copy_4_spec id (buf cty) 0 ((Nk + 6) * 4) (buf ctx) ltac:(lia)) as (RK1 & Hc1 & Hl1 & Hn1 & _).
  change (0 + (Nk + 6) * 4)%nat with ((Nk + 6) * 4)%nat. rewrite Hc1. cbn [back_8].
  assert (H0 : copied Nk key 0 ((0 + 4)%nat, ((Nk + 6) * 4 + 4 - 8)%nat, RK1)).
  { split; [lia|]. split; [lia|]. split; [congruence|]. intros i Hi. replace i with 0%nat by lia.
    change (4 * 0)%nat with 0%nat. rewrite Hn1. unfold id. fold (round_key (buf cty) ((Nk + 6) * 4)).
    rewrite Nat.mul_comm, HSK by lia. reflexivity. }
  pose proof (copied_loop Nk key (buf cty) HSK (Nk + 6 - 1) _ HN8 ltac:(lia) H0) as Hloop.
  destruct (fold_left _ (seq 1 (Nk + 6 - 1)) _) as [[r s] RK2]. destruct Hloop as (-> & -> & Hl2 & HD).
  replace (4 * (Nk + 5 - (Nk + 6 - 1)))%nat with 0%nat by lia.
  destruct (copy_4_spec id (buf cty) (4 * (Nk + 6 - 1) + 4) 0 RK2 ltac:(lia)) as (RK3 & -> & Hl3 & Hn3 & Ho3).
  eexists. split; [reflexivity|]. cbn [nr rk buf set_field]. split; [reflexivity|]. split; [reflexivity|].
  split; [congruence|]. intros i Hi. unfold context_keys. cbn [rk buf set_field Nat.add].
  destruct (Nat.eq_dec i (Nk + 6)) as [->|Hne].
  - replace (4 * (Nk + 6))%nat with (4 * (Nk + 6 - 1) + 4)%nat by lia. rewrite Hn3. unfold id.
    fold (round_key (buf cty) 0). change 0%nat with (4 * 0)%nat at 1. rewrite (HSK 0%nat) by lia. unfold decryption_keys.
    destruct (Nat.eqb_spec (Nk + 6) 0); [lia|]. rewrite Nat.eqb_refl. reflexivity.
  - rewrite Ho3 by lia. apply HD. lia.
Qed.

(** ** Keyed contexts *)

Lemma half_rounds Nk : key_size Nk -> exists h, (Nk + 6 = 2 * S h)%nat.
Proof. intros [-> | [-> | ->]]; [exists 4%nat|exists 5%nat|exists 6%nat]; reflexivity. Qed.

Lemma fips_round_key_state Nk st ctx key i :
  key_size Nk -> statics_ok st -> length (buf ctx) = 68%nat ->
  length key = (4 * Nk)%nat -> byte_list key -> (i <= Nk + 6)%nat -> is_state (fips_round_key Nk key i).
Proof.
  intros HNk Hst Hb Hl Hk Hi.
  destruct (setkey_enc_spec Nk st ctx key HNk Hst Hb Hl Hk) as (ctx' & _ & _ & _ & _ & <-); [|exact Hi].
  apply store_state_state.
Qed.

Lemma fips_cipher_ext n k k' s :
  (0 < n)%nat -> (forall i, (i <= n)%nat -> k i = k' i) -> fips_cipher n k s = fips_cipher n k' s.
Proof.
  intros Hn H. unfold fips_cipher. rewrite (H 0%nat), (H n) by lia. do 3 f_equal.
  apply fold_left_ext_in. intros x i Hi%in_seq. unfold fips_round. rewrite H by lia. reflexivity.
Qed.

Lemma fips_inv_cipher_ext n k k' s :
  (0 < n)%nat -> (forall i, (i <= n)%nat -> k i = k' i) -> fips_inv_cipher n k s = fips_inv_cipher n k' s.
Proof.
  intros Hn H. unfold fips_inv_cipher. rewrite (H 0%nat), (H n) by lia. do 3 f_equal.
  apply fold_left_ext_in. intros x i Hi%in_seq. unfold fips_inv_round. rewrite H by lia. reflexivity.
Qed.

(** A context keyed for encryption computes the cipher of FIPS 197. *)
Lemma encrypt_keyed Nk st ctx key block :
  key_size Nk -> statics_ok st -> length (buf ctx) = 68%nat ->
  length key = (4 * Nk)%nat -> byte_list key -> is_state block ->
  let '(ret, st', ctx') := mbedtls_aes_setkey_enc st ctx key (32 * Z.of_nat Nk) in
  ret = 0 /\ st' = aes_ready /\
  mbedtls_aes_crypt_ecb st' ctx' MBEDTLS_AES_ENCRYPT block =
    (0, fips_cipher (Nk + 6) (fips_round_key Nk key) block).
Proof.
  intros HNk Hst Hb Hl Hk [Hbl Hbb].
  destruct (setkey_enc_spec Nk st ctx key HNk Hst Hb Hl Hk) as (ctx' & -> & Hnr & _ & _ & Hkeys).
  split; [reflexivity|]. split; [reflexivity|]. destruct (half_rounds Nk HNk) as [h Hh].
  unfold mbedtls_aes_crypt_ecb. cbn [Z.eqb MBEDTLS_AES_ENCRYPT Pos.eqb].
  rewrite (internal_encrypt_fips ctx' h) by (assumption || lia). rewrite <- Hh. f_equal.
  apply fips_cipher_ext; [lia|exact Hkeys].
Qed.

Lemma decrypt_keyed Nk st ctx key block :
  key_size Nk -> statics_ok st -> length (buf ctx) = 68%nat ->
  length key = (4 * Nk)%nat -> byte_list key -> is_state block ->
  let '(ret, st', ctx') := mbedtls_aes_setkey_dec st ctx key (32 * Z.of_nat Nk) in
  ret = 0 /\ st' = aes_ready /\
  mbedtls_aes_crypt_ecb st' ctx' MBEDTLS_AES_DECRYPT block =
    (0, fips_inv_cipher (Nk + 6) (decryption_keys (Nk + 6) (fips_round_key Nk key)) block).
Proof.
  intros HNk Hst Hb Hl Hk [Hbl Hbb].
  destruct (setkey_dec_spec Nk st ctx key HNk Hst Hb Hl Hk) as (ctx' & -> & Hnr & _ & _ & Hkeys).
  split; [reflexivity|]. split; [reflexivity|]. destruct (half_rounds Nk HNk) as [h Hh].
  unfold mbedtls_aes_crypt_ecb. cbn [Z.eqb MBEDTLS_AES_ENCRYPT MBEDTLS_AES_DECRYPT].
  rewrite (internal_decrypt_fips ctx' h) by (assumption || lia). rewrite <- Hh. f_equal.
  apply fips_inv_cipher_ext; [lia|exact Hkeys].
Qed.

Lemma fips_cipher_state n k s :
  (0 < n)%nat -> (forall i, (i <= n)%nat -> is_state (k i)) -> is_state s -> is_state (fips_cipher n k s).
Proof.
  intros Hn Hk Hs. unfold fips_cipher. apply add_round_key_state; [apply Hk; lia|].
  apply shift_rows_state, sub_bytes_state.
  assert (H0 : is_state (add_round_key (k 0%nat) s)) by (apply add_round_key_state; [apply Hk; lia|exact Hs]).
  assert (Hm : forall m, (m < n)%nat -> is_state (fold_left (fips_round k) (seq 1 m) (add_round_key (k 0%nat) s))).
  { induction m as [|m IHm]; intros Hlt; [exact H0|]. rewrite seq_S, fold_left_app. cbn [fold_left].
    apply fips_round_state; [apply Hk; lia|apply IHm; lia]. }
  apply Hm. lia.
Qed.

(** C30. Encryption is FIPS 197, for the three key sizes: a context keyed from any
    state of the file's statics encrypts a block as the standard does. *)
Theorem aes_encrypt_is_fips197 Nk st key block :
  key_size Nk -> statics_ok st -> length key = (4 * Nk)%nat -> byte_list key -> is_state block ->
  let '(ret, st', ctx) := mbedtls_aes_setkey_enc st mbedtls_aes_init key (32 * Z.of_nat Nk) in
  ret = 0 /\ st' = aes_ready /\
  mbedtls_aes_crypt_ecb st' ctx MBEDTLS_AES_ENCRYPT block =
    (0, fips_cipher (Nk + 6) (fips_round_key Nk key) block).
Proof.
  intros HNk Hst Hl Hk Hs. apply (encrypt_keyed Nk st mbedtls_aes_init key block); auto.
Qed.

Lemma aes_encrypt_is_fips197_witness :
  let key := map Z.of_nat (seq 0 16) in
  let '(ret, st', ctx) := mbedtls_aes_setkey_enc aes_statics_init mbedtls_aes_init key 128 in
  ret = 0 /\ st' = aes_ready /\
  mbedtls_aes_crypt_ecb st' ctx MBEDTLS_AES_ENCRYPT (zeros 16) =
    (0, fips_cipher 10 (fips_round_key 4 key) (zeros 16)).
Proof.
  apply (aes_encrypt_is_fips197 4 aes_statics_init (map Z.of_nat (seq 0 16)) (zeros 16)).
  - left. reflexivity.
  - left. reflexivity.
  - reflexivity.
  - repeat (constructor; [vm_compute; intuition discriminate|]). constructor.
  - split; [reflexivity|]. repeat (constructor; [vm_compute; intuition discriminate|]). constructor.
Defined.

(** Decryption inverts encryption: what a context keyed for encryption makes of
    a block, a context keyed with the same key for decryption turns back. *)
Theorem aes_decrypt_encrypt Nk st st' key block :
  key_size Nk -> statics_ok st -> statics_ok st' ->
  length key = (4 * Nk)%nat -> byte_list key -> is_state block ->
  let '(_, st1, ectx) := mbedtls_aes_setkey_enc st mbedtls_aes_init key (32 * Z.of_nat Nk) in
  let '(_, st2, dctx) := mbedtls_aes_setkey_dec st' mbedtls_aes_init key (32 * Z.of_nat Nk) in
  let '(_, cipher) := mbedtls_aes_crypt_ecb st1 ectx MBEDTLS_AES_ENCRYPT block in
  mbedtls_aes_crypt_ecb st2 dctx MBEDTLS_AES_DECRYPT cipher = (0, block).
Proof.
  intros HNk Hst Hst' Hl Hk Hs.
  pose proof (encrypt_keyed Nk st mbedtls_aes_init key block HNk Hst eq_refl Hl Hk Hs) as He.
  destruct (mbedtls_aes_setkey_enc _ _ _ _) as [[r1 st1] ectx]. destruct He as (_ & _ & ->).
  assert (Hrk : forall i, (i <= Nk + 6)%nat -> is_state (fips_round_key Nk key i))
    by (intros i Hi; apply (fips_round_key_state Nk st mbedtls_aes_init key i); auto).
  pose proof (decrypt_keyed Nk st' mbedtls_aes_init key
                (fips_cipher (Nk + 6) (fips_round_key Nk key) block) HNk Hst' eq_refl Hl Hk) as Hd.
  destruct (mbedtls_aes_setkey_dec _ _ _ _) as [[r2 st2] dctx].
  destruct Hd as (_ & _ & ->); [apply fips_cipher_state; auto; lia|].
  rewrite fips_inverse by (auto; lia). reflexivity.
Qed.

Lemma aes_decrypt_encrypt_witness :
  let key := map Z.of_nat (seq 0 32) in
  let '(_, st1, ectx) := mbedtls_aes_setkey_enc aes_statics_init mbedtls_aes_init key 256 in
  let '(_, st2, dctx) := mbedtls_aes_setkey_dec aes_statics_init mbedtls_aes_init key 256 in
  let '(_, cipher) := mbedtls_aes_crypt_ecb st1 ectx MBEDTLS_AES_ENCRYPT (zeros 16) in
  mbedtls_aes_crypt_ecb st2 dctx MBEDTLS_AES_DECRYPT cipher = (0, zeros 16).
Proof.
  apply (aes_decrypt_encrypt 8 aes_statics_init aes_statics_init (map Z.of_nat (seq 0 32)) (zeros 16)).
  - right. right. reflexivity.
  - left. reflexivity.
  - left. reflexivity.
  - reflexivity.
  - repeat (constructor; [vm_compute; intuition discriminate|]). constructor.
  - split; [reflexivity|]. repeat (constructor; [vm_compute; intuition discriminate|]). constructor.
Defined.

(** Other key lengths are refused and nothing changes. *)
Lemma setkey_refuses st ctx key keybits :
  keybits <> 128 -> keybits <> 192 -> keybits <> 256 ->
  mbedtls_aes_setkey_enc st ctx key keybits = (MBEDTLS_ERR_AES_INVALID_KEY_LENGTH, st, ctx).
Proof.
  intros H1 H2 H3. unfold mbedtls_aes_setkey_enc.
  destruct (Z.eqb_spec keybits 128), (Z.eqb_spec keybits 192), (Z.eqb_spec keybits 256); congruence.
Qed.

End aes_inverse.
