(* ===== verification/AesCtr.v ===== *)
(** The CTR mode of aes.c: the big-endian counter, and the theorem that a call
    continues one key stream wherever the last one stopped. *)

From S2P Require Import Prelude MbedCommon Aes.
Import mbed aes.

Module aes_ctr.

(** ** The counter *)

Lemma be_value_snoc l b : be_value (l ++ [b]) = Z.lor b (Z.shiftl (be_value l) 8).
Proof. unfold be_value. rewrite rev_app_distr. reflexivity. Qed.

Lemma be_bytes_snoc n x : be_bytes (S n) x = be_bytes n (Z.shiftr x 8) ++ [Z.land x 255].
Proof. unfold be_bytes. change (le_bytes (S n) x) with (Z.land x 255 :: le_bytes n (Z.shiftr x 8)). reflexivity. Qed.

Lemma be_bytes_be_value l : byte_list l -> be_bytes (length l) (be_value l) = l.
Proof.
  intros H. unfold be_bytes, be_value. rewrite <- length_rev, le_bytes_le_value, rev_involutive; [reflexivity|].
  apply Forall_rev, H.
Qed.

(** Incrementing the first [i] bytes adds one to the number they are. *)
Lemma increment_from_spec i c :
  (i <= length c)%nat -> byte_list c ->
  increment_from i c = be_bytes i (be_value (take i c) + 1) ++ drop i c.
Proof.
  revert c. induction i as [|i IH]; intros c Hi Hc; [reflexivity|]. cbn [increment_from].
  destruct (lookup_lt_is_Some_2 c i ltac:(lia)) as [b Hb].
  assert (Hn : c.[i] = b) by (rewrite nth_lookup, Hb; reflexivity).
  assert (Hbr : is_u8 b) by exact (Forall_lookup_1 _ _ _ _ Hc Hb).
  rewrite Hn, (take_S_r c i b Hb), be_value_snoc, lor_shift_add, be_bytes_snoc by exact Hbr.
  rewrite land_255, shiftr_8, <- app_assoc. set (v := be_value (take i c)).
  assert (Hins : forall x, <[i := x]> c = take i c ++ x :: drop (S i) c).
  { intros x. rewrite insert_take_drop by lia. reflexivity. }
  destruct (Z.eqb_spec (u8 (b + 1)) 0) as [H0|H0].
  - assert (b = 255) as -> by (unfold is_u8 in *; words).
    replace (255 + 256 * v + 1) with ((v + 1) * 256) by lia. rewrite Z.mod_mul, Z.div_mul by lia.
    change (u8 (255 + 1)) with 0. rewrite IH; rewrite Hins.
    + rewrite take_app_length', drop_app_length' by (rewrite length_take; lia). reflexivity.
    + rewrite length_app, length_take. cbn. lia.
    + apply Forall_app. split; [apply Forall_take, Hc|].
      constructor; [unfold is_u8; lia|apply Forall_drop, Hc].
  - assert (Hlt : b < 255) by (unfold is_u8 in *; words).
    replace ((b + 256 * v + 1) mod 256) with (b + 1) by (unfold is_u8 in *; Z.div_mod_to_equations; lia).
    replace ((b + 256 * v + 1) / 256) with v by (unfold is_u8 in *; Z.div_mod_to_equations; lia).
    rewrite (u8_small (b + 1)) by (unfold is_u8 in *; lia). rewrite Hins. unfold v.
    replace i with (length (take i c)) at 3 by (rewrite length_take; lia).
    rewrite be_bytes_be_value by apply Forall_take, Hc. reflexivity.
Qed.

Lemma increment_counter n C :
  increment_from n (be_bytes n C) = be_bytes n (C + 1).
Proof.
  rewrite increment_from_spec; [|rewrite be_bytes_length; lia|apply be_bytes_bytes].
  rewrite take_ge, drop_ge, app_nil_r by (rewrite be_bytes_length; lia).
  assert (Hv : be_value (be_bytes n C) = C mod 256 ^ Z.of_nat n).
  { unfold be_value, be_bytes. rewrite rev_involutive. apply le_value_le_bytes. }
  rewrite Hv, <- be_bytes_mod, Zplus_mod_idemp_l, be_bytes_mod. reflexivity.
Qed.

(** ** The key stream *)

Section stream.
Context (st : aes_statics) (ctx : mbedtls_aes_context) (C : Z).

Definition encrypt_block (block : list Z) : list Z :=
  snd (mbedtls_aes_crypt_ecb st ctx MBEDTLS_AES_ENCRYPT block).

(** Byte [p] of the stream whose first counter block is [C]. *)
Definition key_stream (p : nat) : Z :=
  (encrypt_block (be_bytes 16 (C + Z.of_nat (p / 16)))).[p mod 16].

(** A state that has produced [p] bytes of the stream. *)
Definition stream_at (p : nat) (s : ctr_state) : Prop :=
  nc_off s = Z.of_nat (p mod 16) /\
  nonce_counter s = be_bytes 16 (C + Z.of_nat ((p + 15) / 16)) /\
  ((p mod 16 <> 0)%nat -> stream_block s = encrypt_block (be_bytes 16 (C + Z.of_nat (p / 16)))).

Lemma next_off p : Z.land (Z.of_nat (p mod 16) + 1) 0x0F = Z.of_nat (S p mod 16).
Proof.
  change 0x0F with (Z.ones 4). rewrite Z.land_ones by lia. change (2 ^ 4) with 16.
  rewrite !Nat2Z.inj_mod, (Nat2Z.inj_succ p). apply Zplus_mod_idemp_l.
Qed.

Lemma stream_step p s c :
  stream_at p s ->
  let '(s', o) := ctr_byte st ctx s c in stream_at (S p) s' /\ o = Z.lxor c (key_stream p).
Proof.
  intros (Hoff & Hc & Hb). unfold ctr_byte. rewrite Hoff.
  assert (Hp : (p = 16 * (p / 16) + p mod 16)%nat) by apply Nat.div_mod_eq.
  assert (Hm : (p mod 16 < 16)%nat) by (apply Nat.mod_upper_bound; lia).
  assert (Hkb : forall q, (q < 16)%nat -> ((16 * (p / 16) + q) / 16 = p / 16)%nat).
  { intros q Hq. rewrite Nat.mul_comm, Nat.div_add_l, (Nat.div_small q) by lia. lia. }
  assert (Hlast : forall s', stream_block s' = encrypt_block (be_bytes 16 (C + Z.of_nat (p / 16))) ->
    nc_off s' = Z.of_nat (p mod 16) ->
    nonce_counter s' = be_bytes 16 (C + Z.of_nat (p / 16) + 1) ->
    stream_at (S p) (s' <| nc_off := Z.land (nc_off s' + 1) 0x0F |>) /\
    Z.lxor c (at_ (stream_block s') (nc_off s')) = Z.lxor c (key_stream p)).
  { intros s' Hsb Ho Hn. rewrite Hsb, Ho. unfold at_. rewrite Nat2Z.id. split; [|reflexivity].
    unfold stream_at. cbn [nc_off nonce_counter stream_block set_field]. split; [apply next_off|]. split.
    - rewrite Hn. f_equal. rewrite <- Z.add_assoc. f_equal.
      replace (S p + 15)%nat with (16 * (p / 16) + p mod 16 + 1 * 16)%nat by lia.
      rewrite Nat.div_add by lia. rewrite Hkb by exact Hm. lia.
    - intros Hne. rewrite Hsb. do 4 f_equal. rewrite Hp at 2.
      destruct (Nat.eq_dec (p mod 16) 15) as [H15|].
      + exfalso. apply Hne. replace (S p) with (0 + (p / 16 + 1) * 16)%nat by lia. apply Nat.Div0.mod_add.
      + replace (S (16 * (p / 16) + p mod 16)) with (16 * (p / 16) + S (p mod 16))%nat by lia.
        rewrite Hkb by lia. reflexivity. }
  destruct (Z.eqb_spec (Z.of_nat (p mod 16)) 0) as [H0|H0].
  - destruct (mbedtls_aes_crypt_ecb st ctx MBEDTLS_AES_ENCRYPT (nonce_counter s)) as [r block] eqn:He.
    assert (Hc' : nonce_counter s = be_bytes 16 (C + Z.of_nat (p / 16))).
    { rewrite Hc. do 3 f_equal. replace (p + 15)%nat with (16 * (p / 16) + 15)%nat by lia. apply Hkb. lia. }
    apply Hlast; cbn [nc_off nonce_counter stream_block set_field].
    + unfold encrypt_block. rewrite <- Hc', He. reflexivity.
    + exact Hoff.
    + rewrite Hc'. apply increment_counter.
  - apply Hlast; [apply Hb; lia|exact Hoff|]. rewrite Hc. f_equal. rewrite <- Z.add_assoc. f_equal.
    replace (p + 15)%nat with (16 * (p / 16) + (p mod 16 - 1) + 1 * 16)%nat by lia.
    rewrite Nat.div_add by lia. rewrite Hkb by lia. lia.
Qed.

Lemma stream_bytes p s input :
  stream_at p s ->
  let '(s', output) := ctr_bytes st ctx s input in
  stream_at (p + length input) s' /\
  output = zip_with Z.lxor input (map key_stream (seq p (length input))).
Proof.
  revert p s. induction input as [|c input IH]; intros p s H.
  - cbn [ctr_bytes length seq map zip_with]. rewrite Nat.add_0_r. auto.
  - cbn [ctr_bytes]. pose proof (stream_step p s c H) as Hs. destruct (ctr_byte st ctx s c) as [s' o].
    destruct Hs as [Hs ->]. specialize (IH (S p) s' Hs). destruct (ctr_bytes st ctx s' input) as [s'' os].
    destruct IH as [IH ->]. cbn [length seq map zip_with]. rewrite Nat.add_succ_r. auto.
Qed.

(** A call goes on with the key stream where the last one stopped. *)
Lemma crypt_ctr_spec p s input :
  stream_at p s ->
  exists s', mbedtls_aes_crypt_ctr st ctx s input =
    (0, s', zip_with Z.lxor input (map key_stream (seq p (length input)))) /\
    stream_at (p + length input) s'.
Proof.
  intros H. unfold mbedtls_aes_crypt_ctr. pose proof H as [Hoff _]. rewrite Hoff.
  assert ((p mod 16 < 16)%nat) by (apply Nat.mod_upper_bound; lia).
  destruct (Z.ltb_spec 0x0F (Z.of_nat (p mod 16))); [lia|].
  pose proof (stream_bytes p s input H) as Hb. destruct (ctr_bytes st ctx s input) as [s' out].
  destruct Hb as [Hs ->]. eauto.
Qed.

Lemma stream_start block :
  stream_at 0 {| nc_off := 0; nonce_counter := be_bytes 16 C; stream_block := block |}.
Proof. split; [reflexivity|]. split; [cbn; rewrite Z.add_0_r; reflexivity|]. intros H. contradiction H. reflexivity. Qed.

End stream.

Lemma zip_lxor_involutive (a k : list Z) :
  length a = length k -> zip_with Z.lxor (zip_with Z.lxor a k) k = a.
Proof.
  revert k. induction a as [|x a IH]; intros [|y k] H; try discriminate H; [reflexivity|].
  cbn. rewrite Z.lxor_assoc, Z.lxor_nilpotent, Z.lxor_0_r, IH by (injection H; auto). reflexivity.
Qed.

End aes_ctr.
