(* ===== verification/AesModes.v ===== *)
(** The block modes of aes.c that the configuration of the firmware leaves out
    (MBEDTLS_CIPHER_MODE_CBC, _CFB, _OFB and _XTS): their definitions (module
    aes_modes), and what CBC, CFB and OFB compute (module aes_modes_laws; XTS is in
    AesXts). *)

From S2P Require Import Prelude MbedCommon Aes AesFips AesInverse AesCtr.
Import mbed aes.

Module aes_modes.

Definition MBEDTLS_ERR_AES_INVALID_INPUT_LENGTH : Z := -0x22.

(** ** CBC *)

(** The loops; [blocks] is [length / 16].  The result: the code, the new [iv] and
    the bytes written. *)
Fixpoint cbc_decrypt (st : aes_statics) (ctx : mbedtls_aes_context) (blocks : nat) (iv input : list Z)
  : Z * list Z * list Z :=
  match blocks with
  | O => (0, iv, [])
  | S blocks =>
      let temp := take 16 input in
      let '(ret, output) := mbedtls_aes_crypt_ecb st ctx MBEDTLS_AES_DECRYPT temp in
      if negb (ret =? 0) then (ret, iv, output) else
      let output := zip_with Z.lxor output iv in
      let '(ret, iv, rest) := cbc_decrypt st ctx blocks temp (drop 16 input) in
      (ret, iv, output ++ rest)
  end.

Fixpoint cbc_encrypt (st : aes_statics) (ctx : mbedtls_aes_context) (blocks : nat) (iv input : list Z)
  : Z * list Z * list Z :=
  match blocks with
  | O => (0, iv, [])
  | S blocks =>
      let output := zip_with Z.lxor (take 16 input) iv in
      let '(ret, output) := mbedtls_aes_crypt_ecb st ctx MBEDTLS_AES_ENCRYPT output in
      if negb (ret =? 0) then (ret, iv, output) else
      let '(ret, iv, rest) := cbc_encrypt st ctx blocks output (drop 16 input) in
      (ret, iv, output ++ rest)
  end.

Definition mbedtls_aes_crypt_cbc (st : aes_statics) (ctx : mbedtls_aes_context) (mode : Z)
  (iv input : list Z) : Z * list Z * list Z :=
  if negb (length input mod 16 =? 0)%nat then (MBEDTLS_ERR_AES_INVALID_INPUT_LENGTH, iv, [])
  else if mode =? MBEDTLS_AES_DECRYPT then cbc_decrypt st ctx (length input / 16) iv input
  else cbc_encrypt st ctx (length input / 16) iv input.

(** ** The modes that go byte by byte *)

(** [while (length--)] around [step], which consumes one byte and makes one; the
    first error ends the loop. *)
Fixpoint byte_loop {A} (step : A -> Z -> Z * A * Z) (s : A) (input : list Z) : Z * A * list Z :=
  match input with
  | [] => (0, s, [])
  | c :: input =>
      let '(ret, s, o) := step s c in
      if negb (ret =? 0) then (ret, s, []) else
      let '(ret, s, os) := byte_loop step s input in
      (ret, s, o :: os)
  end.

(** [*iv_off] (the local [n] of the loops) and [iv]. *)
Record feedback_state := {
  iv_off : Z;
  iv : list Z }.

#[export] Instance eta_feedback_state : Eta feedback_state := fun r => Build_feedback_state (iv_off r) (iv r).

(** [if (n == 0) ret = mbedtls_aes_crypt_ecb(ctx, MBEDTLS_AES_ENCRYPT, iv, iv);] *)
Definition refill (st : aes_statics) (ctx : mbedtls_aes_context) (s : feedback_state) : Z * feedback_state :=
  if iv_off s =? 0
  then let '(ret, block) := mbedtls_aes_crypt_ecb st ctx MBEDTLS_AES_ENCRYPT (iv s) in
       (ret, s <| iv := block |>)
  else (0, s).

Definition cfb128_byte (st : aes_statics) (ctx : mbedtls_aes_context) (mode : Z) (s : feedback_state) (c : Z)
  : Z * feedback_state * Z :=
  let '(ret, s) := refill st ctx s in
  if negb (ret =? 0) then (ret, s, 0) else
  let o := Z.lxor c (at_ (iv s) (iv_off s)) in
  let kept := if mode =? MBEDTLS_AES_DECRYPT then c else o in
  (0, {| iv_off := Z.land (iv_off s + 1) 0x0F; iv := set_at (iv s) (iv_off s) kept |}, o).

(** An error leaves [*iv_off] as it was. *)
Definition mbedtls_aes_crypt_cfb128 (st : aes_statics) (ctx : mbedtls_aes_context) (mode : Z)
  (s : feedback_state) (input : list Z) : Z * feedback_state * list Z :=
  if 15 <? iv_off s then (MBEDTLS_ERR_AES_BAD_INPUT_DATA, s, []) else
  let '(ret, s', output) := byte_loop (cfb128_byte st ctx mode) s input in
  if negb (ret =? 0) then (ret, s' <| iv_off := iv_off s |>, output) else (0, s', output).

Definition cfb8_byte (st : aes_statics) (ctx : mbedtls_aes_context) (mode : Z) (iv : list Z) (c : Z)
  : Z * list Z * Z :=
  let ov := iv in
  let '(ret, iv) := mbedtls_aes_crypt_ecb st ctx MBEDTLS_AES_ENCRYPT iv in
  if negb (ret =? 0) then (ret, iv, 0) else
  let o := Z.lxor iv.[0] c in
  let ov16 := if mode =? MBEDTLS_AES_DECRYPT then c else o in
  (0, drop 1 (ov ++ [ov16]), o).

Definition mbedtls_aes_crypt_cfb8 (st : aes_statics) (ctx : mbedtls_aes_context) (mode : Z)
  (iv input : list Z) : Z * list Z * list Z :=
  byte_loop (cfb8_byte st ctx mode) iv input.

Definition ofb_byte (st : aes_statics) (ctx : mbedtls_aes_context) (s : feedback_state) (c : Z)
  : Z * feedback_state * Z :=
  let '(ret, s) := refill st ctx s in
  if negb (ret =? 0) then (ret, s, 0) else
  (0, s <| iv_off := Z.land (iv_off s + 1) 0x0F |>, Z.lxor c (at_ (iv s) (iv_off s))).

Definition mbedtls_aes_crypt_ofb (st : aes_statics) (ctx : mbedtls_aes_context) (s : feedback_state)
  (input : list Z) : Z * feedback_state * list Z :=
  if 15 <? iv_off s then (MBEDTLS_ERR_AES_BAD_INPUT_DATA, s, []) else
  let '(ret, s', output) := byte_loop (ofb_byte st ctx) s input in
  if negb (ret =? 0) then (ret, s' <| iv_off := iv_off s |>, output) else (0, s', output).

(** ** XTS *)

Definition MBEDTLS_GET_UINT64_LE (data : list Z) (offset : nat) : Z :=
  Z.lor (Z.lor (Z.lor (Z.lor (Z.lor (Z.lor (Z.lor
    (Z.shiftl data.[offset + 7] 56) (Z.shiftl data.[offset + 6] 48))
    (Z.shiftl data.[offset + 5] 40)) (Z.shiftl data.[offset + 4] 32))
    (Z.shiftl data.[offset + 3] 24)) (Z.shiftl data.[offset + 2] 16))
    (Z.shiftl data.[offset + 1] 8)) data.[offset].

Definition MBEDTLS_PUT_UINT64_LE (n : Z) : list Z :=
  [MBEDTLS_BYTE_0 n; MBEDTLS_BYTE_1 n; MBEDTLS_BYTE_2 n; MBEDTLS_BYTE_3 n;
   MBEDTLS_BYTE_4 n; MBEDTLS_BYTE_5 n; MBEDTLS_BYTE_6 n; MBEDTLS_BYTE_7 n].

Record mbedtls_aes_xts_context := {
  crypt : mbedtls_aes_context;
  tweak : mbedtls_aes_context }.

Definition mbedtls_aes_xts_init : mbedtls_aes_xts_context :=
  {| crypt := mbedtls_aes_init; tweak := mbedtls_aes_init |}.

Definition mbedtls_aes_xts_free (ctx : mbedtls_aes_xts_context) : mbedtls_aes_xts_context :=
  {| crypt := mbedtls_aes_free (crypt ctx); tweak := mbedtls_aes_free (tweak ctx) |}.

(** The two keys, each the bytes its length covers, and their common length in
    bits, or the error. *)
Definition mbedtls_aes_xts_decode_keys (key : list Z) (keybits : Z) : Z + list Z * list Z * Z :=
  let half_keybits := keybits / 2 in
  let half_keybytes := half_keybits / 8 in
  if (keybits =? 256) || (keybits =? 512)
  then inr (take (Z.to_nat half_keybytes) key, drop (Z.to_nat half_keybytes) key, half_keybits)
  else inl MBEDTLS_ERR_AES_INVALID_KEY_LENGTH.

(** The shape both key functions share; [setkey] keys the data context. *)
Definition xts_setkey
  (setkey : aes_statics -> mbedtls_aes_context -> list Z -> Z -> Z * aes_statics * mbedtls_aes_context)
  (st : aes_statics) (ctx : mbedtls_aes_xts_context) (key : list Z) (keybits : Z)
  : Z * aes_statics * mbedtls_aes_xts_context :=
  match mbedtls_aes_xts_decode_keys key keybits with
  | inl ret => (ret, st, ctx)
  | inr (key1, key2, bits) =>
      let '(ret, st, t) := mbedtls_aes_setkey_enc st (tweak ctx) key2 bits in
      if negb (ret =? 0) then (ret, st, {| crypt := crypt ctx; tweak := t |}) else
      let '(ret, st, c) := setkey st (crypt ctx) key1 bits in
      (ret, st, {| crypt := c; tweak := t |})
  end.

Definition mbedtls_aes_xts_setkey_enc := xts_setkey mbedtls_aes_setkey_enc.
Definition mbedtls_aes_xts_setkey_dec := xts_setkey mbedtls_aes_setkey_dec.

Definition mbedtls_gf128mul_x_ble (x : list Z) : list Z :=
  let a := MBEDTLS_GET_UINT64_LE x 0 in
  let b := MBEDTLS_GET_UINT64_LE x 8 in
  let ra := Z.lxor (u64 (Z.shiftl a 1)) (Z.shiftr 0x0087 (8 - Z.shiftl (Z.shiftr b 63) 3)) in
  let rb := Z.lor (Z.shiftr a 63) (u64 (Z.shiftl b 1)) in
  MBEDTLS_PUT_UINT64_LE ra ++ MBEDTLS_PUT_UINT64_LE rb.

(** The loop over the full blocks: the code, [tweak], [prev_tweak] and the bytes
    written. *)
Fixpoint xts_blocks (st : aes_statics) (ctx : mbedtls_aes_xts_context) (mode : Z) (leftover blocks : nat)
  (tweak prev_tweak input : list Z) : Z * list Z * list Z * list Z :=
  match blocks with
  | O => (0, tweak, prev_tweak, [])
  | S blocks =>
      let '(tweak, prev_tweak) :=
        if negb (leftover =? 0)%nat && (mode =? MBEDTLS_AES_DECRYPT) && (blocks =? 0)%nat
        then (mbedtls_gf128mul_x_ble tweak, tweak) else (tweak, prev_tweak) in
      let tmp := zip_with Z.lxor (take 16 input) tweak in
      let '(ret, tmp) := mbedtls_aes_crypt_ecb st (crypt ctx) mode tmp in
      if negb (ret =? 0) then (ret, tweak, prev_tweak, []) else
      let output := zip_with Z.lxor tmp tweak in
      let '(ret, tweak, prev_tweak, rest) :=
        xts_blocks st ctx mode leftover blocks (mbedtls_gf128mul_x_ble tweak) prev_tweak (drop 16 input) in
      (ret, tweak, prev_tweak, output ++ rest)
  end.

(** Ciphertext stealing.  [prev_output] is the last block written, [input] the
    bytes left over; in place, [output[i] = prev_output[i]] has overwritten
    [input[i]] when it is read. *)
Definition xts_steal (st : aes_statics) (ctx : mbedtls_aes_xts_context) (mode : Z) (in_place : bool)
  (t prev_output input : list Z) : Z * list Z :=
  let leftover := length input in
  let output := take leftover prev_output in
  let read := if in_place then output else input in
  let tmp := zip_with Z.lxor (read ++ drop leftover prev_output) t in
  let '(ret, tmp) := mbedtls_aes_crypt_ecb st (crypt ctx) mode tmp in
  if negb (ret =? 0) then (ret, prev_output ++ output) else (0, zip_with Z.lxor tmp t ++ output).

(** [in_place] is [input == output]; [prev_tweak] is not initialised. *)
Definition mbedtls_aes_crypt_xts (st : aes_statics) (ctx : mbedtls_aes_xts_context) (mode : Z)
  (in_place : bool) (data_unit input prev_tweak : list Z) : Z * list Z :=
  let blocks := (length input / 16)%nat in
  let leftover := (length input mod 16)%nat in
  if (length input <? 16)%nat then (MBEDTLS_ERR_AES_INVALID_INPUT_LENGTH, []) else
  if Z.shiftl 1 20 * 16 <? Z.of_nat (length input) then (MBEDTLS_ERR_AES_INVALID_INPUT_LENGTH, []) else
  let '(ret, tweak) := mbedtls_aes_crypt_ecb st (tweak ctx) MBEDTLS_AES_ENCRYPT data_unit in
  if negb (ret =? 0) then (ret, []) else
  let '(ret, tweak, prev_tweak, output) :=
    xts_blocks st ctx mode leftover blocks tweak prev_tweak input in
  if negb (ret =? 0) then (ret, output) else
  if (leftover =? 0)%nat then (0, output) else
  let t := if mode =? MBEDTLS_AES_DECRYPT then prev_tweak else tweak in
  let before := (16 * (blocks - 1))%nat in
  let '(ret, last) := xts_steal st ctx mode in_place t (drop before output) (drop (16 * blocks) input) in
  (ret, take before output ++ last).

(** ** Vectors of the self test *)

(** [aes_test_cfb128_ct] and [aes_test_ofb_ct], the keys of 128 bits, first 20
    bytes; [aes_test_xts_ct32], the first vector. *)
Definition sp800_key : list Z :=
  [0x2B; 0x7E; 0x15; 0x16; 0x28; 0xAE; 0xD2; 0xA6; 0xAB; 0xF7; 0x15; 0x88; 0x09; 0xCF; 0x4F; 0x3C].
Definition sp800_pt : list Z :=
  [0x6B; 0xC1; 0xBE; 0xE2; 0x2E; 0x40; 0x9F; 0x96; 0xE9; 0x3D; 0x7E; 0x11; 0x73; 0x93; 0x17; 0x2A;
   0xAE; 0x2D; 0x8A; 0x57].

Example cfb128_vector :
  let '(_, st, ctx) := mbedtls_aes_setkey_enc aes_statics_init mbedtls_aes_init sp800_key 128 in
  let s := {| iv_off := 0; iv := map Z.of_nat (seq 0 16) |} in
  snd (mbedtls_aes_crypt_cfb128 st ctx MBEDTLS_AES_ENCRYPT s sp800_pt) =
  [0x3B; 0x3F; 0xD9; 0x2E; 0xB7; 0x2D; 0xAD; 0x20; 0x33; 0x34; 0x49; 0xF8; 0xE8; 0x3C; 0xFB; 0x4A;
   0xC8; 0xA6; 0x45; 0x37].
Proof. vm_compute. reflexivity. Qed.

Example ofb_vector :
  let '(_, st, ctx) := mbedtls_aes_setkey_enc aes_statics_init mbedtls_aes_init sp800_key 128 in
  let s := {| iv_off := 0; iv := map Z.of_nat (seq 0 16) |} in
  snd (mbedtls_aes_crypt_ofb st ctx s sp800_pt) =
  [0x3B; 0x3F; 0xD9; 0x2E; 0xB7; 0x2D; 0xAD; 0x20; 0x33; 0x34; 0x49; 0xF8; 0xE8; 0x3C; 0xFB; 0x4A;
   0x77; 0x89; 0x50; 0x8D].
Proof. vm_compute. reflexivity. Qed.

Example xts_vector :
  let '(_, st, ctx) := mbedtls_aes_xts_setkey_enc aes_statics_init mbedtls_aes_xts_init (zeros 32) 256 in
  mbedtls_aes_crypt_xts st ctx MBEDTLS_AES_ENCRYPT false (zeros 16) (zeros 32) [] =
  (0, [0x91; 0x7C; 0xF6; 0x9E; 0xBD; 0x68; 0xB2; 0xEC; 0x9B; 0x9F; 0xE9; 0xA3; 0xEA; 0xDD; 0xA6; 0x92;
       0xCD; 0x43; 0xD2; 0xF5; 0x95; 0x98; 0xED; 0x85; 0x8C; 0x02; 0xC2; 0x65; 0x2F; 0xBF; 0x92; 0x2E]).
Proof. vm_compute. reflexivity. Qed.

End aes_modes.

(** CBC, CFB and OFB are the modes of SP 800-38A, decryption undoes encryption, and
    a stream may be cut into calls anywhere. *)

Import mbed aes aes_fips aes_keys aes_inverse aes_ctr aes_modes.

Module aes_modes_laws.

(** ** Keyed contexts *)

(** The context computes [F] on blocks, without an error. *)
Definition computes (st : aes_statics) (ctx : mbedtls_aes_context) (mode : Z) (F : list Z -> list Z) : Prop :=
  forall b, is_state b -> mbedtls_aes_crypt_ecb st ctx mode b = (0, F b) /\ is_state (F b).

Definition fips_encrypt (Nk : nat) (key : list Z) : list Z -> list Z :=
  fips_cipher (Nk + 6) (fips_round_key Nk key).
Definition fips_decrypt (Nk : nat) (key : list Z) : list Z -> list Z :=
  fips_inv_cipher (Nk + 6) (decryption_keys (Nk + 6) (fips_round_key Nk key)).

(** A key of [4 * Nk] bytes. *)
Definition aes_key (Nk : nat) (key : list Z) : Prop :=
  key_size Nk /\ length key = (4 * Nk)%nat /\ byte_list key.

Lemma store_state_is_state X : is_state (store_state X).
Proof. destruct X as [[[X0 X1] X2] X3]. split; [reflexivity|]. repeat (constructor; auto with words). Qed.

Lemma ecb_state st ctx mode b : is_state (snd (mbedtls_aes_crypt_ecb st ctx mode b)).
Proof.
  unfold mbedtls_aes_crypt_ecb, mbedtls_internal_aes_encrypt, mbedtls_internal_aes_decrypt.
  destruct (mode =? MBEDTLS_AES_ENCRYPT); destruct (run_rounds _ _ _ _) as [p [[[Y0 Y1] Y2] Y3]];
    apply store_state_is_state.
Qed.

Lemma enc_computes Nk st ctx key :
  aes_key Nk key -> statics_ok st -> length (buf ctx) = 68%nat ->
  exists ctx', mbedtls_aes_setkey_enc st ctx key (32 * Z.of_nat Nk) = (0, aes_ready, ctx') /\
    computes aes_ready ctx' MBEDTLS_AES_ENCRYPT (fips_encrypt Nk key).
Proof.
  intros (HNk & Hl & Hk) Hst Hb. pose proof (fun b => encrypt_keyed Nk st ctx key b HNk Hst Hb Hl Hk) as H.
  destruct (mbedtls_aes_setkey_enc _ _ _ _) as [[ret st'] ctx'].
  destruct (H (zeros 16)) as (-> & -> & _); [split; [reflexivity|apply zeros_bytes]|].
  exists ctx'. split; [reflexivity|]. intros b Hs. destruct (H b Hs) as (_ & _ & He).
  pose proof (ecb_state aes_ready ctx' MBEDTLS_AES_ENCRYPT b) as Hstate. rewrite He in Hstate. auto.
Qed.

Lemma dec_computes Nk st ctx key :
  aes_key Nk key -> statics_ok st -> length (buf ctx) = 68%nat ->
  exists ctx', mbedtls_aes_setkey_dec st ctx key (32 * Z.of_nat Nk) = (0, aes_ready, ctx') /\
    computes aes_ready ctx' MBEDTLS_AES_DECRYPT (fips_decrypt Nk key).
Proof.
  intros (HNk & Hl & Hk) Hst Hb. pose proof (fun b => decrypt_keyed Nk st ctx key b HNk Hst Hb Hl Hk) as H.
  destruct (mbedtls_aes_setkey_dec _ _ _ _) as [[ret st'] ctx'].
  destruct (H (zeros 16)) as (-> & -> & _); [split; [reflexivity|apply zeros_bytes]|].
  exists ctx'. split; [reflexivity|]. intros b Hs. destruct (H b Hs) as (_ & _ & He).
  pose proof (ecb_state aes_ready ctx' MBEDTLS_AES_DECRYPT b) as Hstate. rewrite He in Hstate. auto.
Qed.

Lemma fips_decrypt_encrypt Nk key b :
  aes_key Nk key -> is_state b -> fips_decrypt Nk key (fips_encrypt Nk key b) = b.
Proof.
  intros (HNk & Hl & Hk) Hs. apply fips_inverse; [lia| |exact Hs]. intros i Hi.
  apply (fips_round_key_state Nk aes_statics_init mbedtls_aes_init key i); auto. left. reflexivity.
Qed.

(** ** Blocks *)

Lemma state_bytes b : is_state b -> byte_list b.
Proof. intros [_ H]. exact H. Qed.

Lemma first_state n l : (16 * S n)%nat = length l -> byte_list l -> is_state (take 16 l).
Proof. intros Hl Hb. split; [rewrite length_take; lia|apply Forall_take, Hb]. Qed.

Lemma zip_state a b : is_state a -> is_state b -> is_state (zip_with Z.lxor a b).
Proof. intros [Ha Hab] [Hb Hbb]. split; [rewrite length_zip_with; lia|apply zip_lxor_u8; assumption]. Qed.

(** ** CBC *)

(** SP 800-38A, 6.2, over [n] blocks. *)
Fixpoint sp800_38a_cbc (E : list Z -> list Z) (n : nat) (iv p : list Z) : list Z :=
  match n with
  | O => []
  | S n => let c := E (zip_with Z.lxor (take 16 p) iv) in c ++ sp800_38a_cbc E n c (drop 16 p)
  end.

Fixpoint sp800_38a_cbc_decrypt (D : list Z -> list Z) (n : nat) (iv c : list Z) : list Z :=
  match n with
  | O => []
  | S n => zip_with Z.lxor (D (take 16 c)) iv ++ sp800_38a_cbc_decrypt D n (take 16 c) (drop 16 c)
  end.

(** The last ciphertext block, the [iv] of the next call. *)
Definition chained (iv c : list Z) : list Z := drop (length c) (iv ++ c).

Lemma chained_nil iv : chained iv [] = iv.
Proof. apply app_nil_r. Qed.

Lemma chained_cons iv b c : length b = length iv -> chained iv (b ++ c) = chained b c.
Proof.
  intros H. unfold chained. rewrite length_app, <- drop_drop, drop_app_length' by auto. reflexivity.
Qed.

Lemma chained_app iv a c : chained iv (a ++ c) = chained (chained iv a) c.
Proof.
  unfold chained. rewrite length_app, <- drop_drop, (app_assoc iv), drop_app_le by (rewrite length_app; lia).
  reflexivity.
Qed.

Section cbc.
Context (st : aes_statics) (ctx : mbedtls_aes_context) (E D : list Z -> list Z).

Lemma cbc_encrypt_spec n iv p :
  computes st ctx MBEDTLS_AES_ENCRYPT E -> is_state iv -> (16 * n)%nat = length p -> byte_list p ->
  let c := sp800_38a_cbc E n iv p in
  cbc_encrypt st ctx n iv p = (0, chained iv c, c) /\ length c = length p /\ byte_list c.
Proof.
  intros HE. revert iv p. induction n as [|n IH]; intros iv p Hiv Hl Hp; cbn [cbc_encrypt sp800_38a_cbc].
  - rewrite chained_nil. repeat split; [cbn; lia|constructor].
  - destruct (HE (zip_with Z.lxor (take 16 p) iv)) as [-> Hs]; [eauto using zip_state, first_state|].
    set (c := E _) in *. cbn [Z.eqb negb].
    destruct (IH c (drop 16 p) Hs) as (-> & Hlen & Hb); [rewrite length_drop; lia|apply Forall_drop, Hp|].
    rewrite chained_cons by (destruct Hs, Hiv; congruence). split; [reflexivity|]. destruct Hs as [Hsl Hsb].
    split; [rewrite length_app, Hlen, length_drop; lia|apply Forall_app; auto].
Qed.

Lemma cbc_decrypt_spec n iv c :
  computes st ctx MBEDTLS_AES_DECRYPT D -> is_state iv -> (16 * n)%nat = length c -> byte_list c ->
  let p := sp800_38a_cbc_decrypt D n iv c in
  cbc_decrypt st ctx n iv c = (0, chained iv c, p) /\ length p = length c /\ byte_list p.
Proof.
  intros HD. revert iv c. induction n as [|n IH]; intros iv c Hiv Hl Hc; cbn [cbc_decrypt sp800_38a_cbc_decrypt].
  - destruct c; [|cbn in Hl; lia]. rewrite chained_nil. repeat split. constructor.
  - pose proof (first_state n c Hl Hc) as Hf. destruct (HD _ Hf) as [-> Hs]. cbn [Z.eqb negb].
    destruct (IH (take 16 c) (drop 16 c) Hf) as (-> & Hlen & Hb);
      [rewrite length_drop; lia|apply Forall_drop, Hc|].
    rewrite <- (chained_cons iv) by (destruct Hf, Hiv; congruence). rewrite take_drop. split; [reflexivity|].
    destruct (zip_state _ _ Hs Hiv) as [Hzl Hzb].
    split; [rewrite length_app, Hlen, Hzl, length_drop; lia|apply Forall_app; auto].
Qed.

(** The blocks of the two halves of a message. *)
Lemma cbc_app n m iv a b :
  is_state iv -> (16 * n)%nat = length a -> (forall s, is_state s -> is_state (E s)) -> byte_list a ->
  sp800_38a_cbc E (n + m) iv (a ++ b) =
  sp800_38a_cbc E n iv a ++ sp800_38a_cbc E m (chained iv (sp800_38a_cbc E n iv a)) b.
Proof.
  intros Hiv Hl HE. revert iv a Hiv Hl. induction n as [|n IH]; intros iv a Hiv Hl Ha.
  - destruct a; [|cbn in Hl; lia]. cbn [sp800_38a_cbc app Nat.add]. rewrite chained_nil. reflexivity.
  - cbn [Nat.add sp800_38a_cbc]. rewrite take_app_le, drop_app_le by lia.
    pose proof (HE _ (zip_state _ _ (first_state n a Hl Ha) Hiv)) as Hs. set (c := E _) in *.
    rewrite IH, chained_cons, <- app_assoc
      by (try (rewrite length_drop; lia); try apply Forall_drop; auto; destruct Hs, Hiv; congruence).
    reflexivity.
Qed.

Lemma cbc_decrypt_app n m iv a b :
  (16 * n)%nat = length a -> length iv = 16%nat ->
  sp800_38a_cbc_decrypt D (n + m) iv (a ++ b) =
  sp800_38a_cbc_decrypt D n iv a ++ sp800_38a_cbc_decrypt D m (chained iv a) b.
Proof.
  revert iv a. induction n as [|n IH]; intros iv a Hl Hiv.
  - destruct a; [|cbn in Hl; lia]. cbn [sp800_38a_cbc_decrypt app Nat.add]. rewrite chained_nil. reflexivity.
  - cbn [Nat.add sp800_38a_cbc_decrypt]. rewrite take_app_le, drop_app_le by lia.
    rewrite IH by (rewrite ?length_drop, ?length_take; lia). rewrite <- app_assoc.
    rewrite <- (chained_cons iv), take_drop by (rewrite length_take; lia). reflexivity.
Qed.

(** The modes are inverse where the ciphers are. *)
Lemma cbc_inverse n iv p :
  (forall b, is_state b -> is_state (E b) /\ D (E b) = b) ->
  is_state iv -> (16 * n)%nat = length p -> byte_list p ->
  sp800_38a_cbc_decrypt D n iv (sp800_38a_cbc E n iv p) = p.
Proof.
  intros H. revert iv p. induction n as [|n IH]; intros iv p Hiv Hl Hp.
  - destruct p; [reflexivity|cbn in Hl; lia].
  - pose proof (first_state n p Hl Hp) as Hf. destruct (H _ (zip_state _ _ Hf Hiv)) as [[Hcl Hcb] HD].
    cbn [sp800_38a_cbc sp800_38a_cbc_decrypt].
    rewrite take_app_length', drop_app_length' by auto.
    rewrite HD, zip_lxor_involutive, IH
      by (try (rewrite length_drop; lia); try apply Forall_drop; auto; first [split; assumption|destruct Hf, Hiv; congruence]).
    apply take_drop.
Qed.

End cbc.

(** ** The byte loops *)

(** A stream may be cut into calls anywhere. *)
Lemma byte_loop_app {A} (step : A -> Z -> Z * A * Z) s a b :
  byte_loop step s (a ++ b) =
  let '(ret, s', o) := byte_loop step s a in
  if negb (ret =? 0) then (ret, s', o) else
  let '(ret', s'', o') := byte_loop step s' b in (ret', s'', o ++ o').
Proof.
  revert s. induction a as [|c a IH]; intros s; cbn [app byte_loop].
  - destruct (byte_loop step s b) as [[ret s''] o']. reflexivity.
  - destruct (step s c) as [[ret s'] o]. destruct (negb (ret =? 0)) eqn:Hr; [rewrite Hr; reflexivity|].
    rewrite IH. destruct (byte_loop step s' a) as [[r1 s1] o1].
    destruct (negb (r1 =? 0)) eqn:Hr1; cbn; rewrite ?Hr1; [reflexivity|].
    destruct (byte_loop step s1 b) as [[r2 s2] o2]. reflexivity.
Qed.

(** A relation between what was read, what was written and the state, kept by
    every turn, holds of the whole. *)
Lemma byte_loop_inv {A} (step : A -> Z -> Z * A * Z) (I : list Z -> list Z -> A -> Prop) :
  (forall i o s c, is_u8 c -> I i o s -> exists s' b, step s c = (0, s', b) /\ I (i ++ [c]) (o ++ [b]) s') ->
  forall input i o s, byte_list input -> I i o s ->
  exists s' output, byte_loop step s input = (0, s', output) /\ I (i ++ input) (o ++ output) s'.
Proof.
  intros Hstep. induction input as [|c input IH]; intros i o s Hb HI.
  - exists s, []. rewrite !app_nil_r. auto.
  - inversion Hb as [|? ? Hc Hr]; subst. destruct (Hstep i o s c Hc HI) as (s1 & b & Hs & HI1).
    destruct (IH _ _ _ Hr HI1) as (s2 & output & He & HI2). exists s2, (b :: output).
    cbn [byte_loop]. rewrite Hs. cbn [Z.eqb negb]. rewrite He. split; [reflexivity|].
    rewrite <- !app_assoc in HI2. exact HI2.
Qed.

(** [output] is [input] under the key bytes [key]. *)
Definition enciphers (key : nat -> Z) (input output : list Z) : Prop :=
  length output = length input /\
  forall p, (p < length input)%nat -> output.[p] = Z.lxor input.[p] (key p).

Lemma enciphers_snoc key i o c :
  enciphers key i o -> enciphers key (i ++ [c]) (o ++ [Z.lxor c (key (length i))]).
Proof.
  intros [Hl H]. split; [rewrite !length_app, Hl; reflexivity|]. intros p Hp. rewrite length_app in Hp. cbn in Hp.
  destruct (decide (p = length i)) as [->|].
  - rewrite !app_nth2, Hl, !Nat.sub_diag by lia. reflexivity.
  - rewrite !app_nth1 by lia. apply H. lia.
Qed.

Lemma enciphers_ext key key' i o :
  (forall p, (p < length i)%nat -> key p = key' p) -> enciphers key i o -> enciphers key' i o.
Proof. intros Hk [Hl H]. split; [exact Hl|]. intros p Hp. rewrite <- Hk by exact Hp. apply H, Hp. Qed.

(** The same key bytes undo it, and only one message does it. *)
Lemma enciphers_inverse key i o i' : enciphers key i o -> enciphers key o i' -> i' = i.
Proof.
  intros [Hl H] [Hl' H']. apply (list_eq_nth i' i (length i)); [congruence|reflexivity|].
  intros p Hp. rewrite H', H, Z.lxor_assoc, Z.lxor_nilpotent, Z.lxor_0_r by congruence. reflexivity.
Qed.

(** Bytes under key bytes are bytes. *)
Lemma enciphers_bytes key i o : enciphers key i o -> byte_list i -> (forall p, is_u8 (key p)) -> byte_list o.
Proof.
  intros [Hl H] Hi Hk. apply Forall_forall. intros x Hx%list_elem_of_In. apply (In_nth _ _ 0) in Hx as (p & Hp & <-).
  rewrite Hl in Hp. rewrite (H p Hp). apply lxor_u8; [apply nth_u8, Hi|apply Hk].
Qed.

(** The block and the place in it that follow. *)
Lemma next_place p :
  (p mod 16 = 15 /\ S p mod 16 = 0 /\ S p / 16 = S (p / 16) \/
   p mod 16 < 15 /\ S p mod 16 = S (p mod 16) /\ S p / 16 = p / 16)%nat.
Proof.
  pose proof (Nat.div_mod_eq p 16). pose proof (Nat.mod_upper_bound p 16 ltac:(lia)).
  pose proof (Nat.div_mod_eq (S p) 16). pose proof (Nat.mod_upper_bound (S p) 16 ltac:(lia)). lia.
Qed.

Section feedback.
Context (st : aes_statics) (ctx : mbedtls_aes_context) (E : list Z -> list Z) (iv0 : list Z).
Context (HE : computes st ctx MBEDTLS_AES_ENCRYPT E) (Hiv0 : is_state iv0).

Lemma refill_spec s p :
  iv_off s = Z.of_nat (p mod 16) -> is_state (iv s) ->
  refill st ctx s = (0, s <| iv := if (p mod 16 =? 0)%nat then E (iv s) else iv s |>).
Proof.
  intros Ho Hs. unfold refill. rewrite Ho. destruct (HE _ Hs) as [-> _].
  destruct (Z.eqb_spec (Z.of_nat (p mod 16)) 0), (Nat.eqb_spec (p mod 16) 0); try lia; destruct s; reflexivity.
Qed.

(** ** OFB *)

(** SP 800-38A, 6.4: the blocks of the key stream are the iterates of the cipher. *)
Definition ofb_key (p : nat) : Z := (Nat.iter (S (p / 16)) E iv0).[p mod 16].

Lemma iter_state n : is_state (Nat.iter n E iv0).
Proof. induction n as [|n IH]; [exact Hiv0|]. cbn. apply HE, IH. Qed.

Definition ofb_at (i o : list Z) (s : feedback_state) : Prop :=
  enciphers ofb_key i o /\
  s = {| iv_off := Z.of_nat (length i mod 16);
         iv := Nat.iter (if (length i mod 16 =? 0)%nat then length i / 16 else S (length i / 16)) E iv0 |}.

Lemma ofb_step i o s c :
  is_u8 c -> ofb_at i o s -> exists s' b, ofb_byte st ctx s c = (0, s', b) /\ ofb_at (i ++ [c]) (o ++ [b]) s'.
Proof.
  intros _ [Henc ->]. unfold ofb_byte. rewrite (refill_spec _ (length i)) by (reflexivity || apply iter_state).
  cbn [Z.eqb negb iv_off iv set_field]. do 2 eexists. split; [reflexivity|].
  assert (Hblock : (if (length i mod 16 =? 0)%nat
    then E (Nat.iter (if (length i mod 16 =? 0)%nat then length i / 16 else S (length i / 16)) E iv0)
    else Nat.iter (if (length i mod 16 =? 0)%nat then length i / 16 else S (length i / 16)) E iv0) =
    Nat.iter (S (length i / 16)) E iv0) by (destruct (length i mod 16 =? 0)%nat; reflexivity).
  rewrite Hblock. split.
  - unfold at_. rewrite Nat2Z.id. apply (enciphers_snoc ofb_key). exact Henc.
  - rewrite next_off, length_app, Nat.add_1_r. f_equal.
    destruct (next_place (length i)) as [(_ & -> & ->)|(_ & -> & ->)]; reflexivity.
Qed.

Lemma ofb_spec input :
  byte_list input ->
  exists s output, mbedtls_aes_crypt_ofb st ctx {| iv_off := 0; iv := iv0 |} input = (0, s, output) /\
    enciphers ofb_key input output.
Proof.
  intros Hb. destruct (byte_loop_inv _ ofb_at ofb_step input [] [] {| iv_off := 0; iv := iv0 |} Hb)
    as (s & output & He & Henc & _).
  { split; [|reflexivity]. split; [reflexivity|]. intros p Hp. inversion Hp. }
  exists s, output. unfold mbedtls_aes_crypt_ofb. rewrite He. auto.
Qed.

(** ** CFB *)

(** SP 800-38A, 6.3: the key byte at [p] is made of ciphertext before it, whole
    blocks in CFB128 and the last sixteen bytes in CFB8. *)
Definition cfb128_key (c : list Z) (p : nat) : Z := (E (take 16 (drop (16 * (p / 16)) (iv0 ++ c)))).[p mod 16].
Definition cfb8_key (c : list Z) (p : nat) : Z := (E (take 16 (drop p (iv0 ++ c)))).[0].

(** What is fed back. *)
Definition fed (mode : Z) (i o : list Z) : list Z := if mode =? MBEDTLS_AES_DECRYPT then i else o.

Lemma fed_snoc mode i o c b :
  fed mode (i ++ [c]) (o ++ [b]) = fed mode i o ++ [if mode =? MBEDTLS_AES_DECRYPT then c else b].
Proof. unfold fed. destruct (mode =? MBEDTLS_AES_DECRYPT); reflexivity. Qed.

(** Sixteen bytes that are there already. *)
Lemma window_stable c x q :
  (q <= length c)%nat -> take 16 (drop q (iv0 ++ c ++ [x])) = take 16 (drop q (iv0 ++ c)).
Proof.
  intros Hq. destruct Hiv0 as [Hl _].
  rewrite (app_assoc iv0), (drop_app_le (iv0 ++ c)), take_app_le
    by (rewrite ?length_drop, ?length_app; lia). reflexivity.
Qed.

Lemma window_state c q : byte_list c -> (q <= length c)%nat -> is_state (take 16 (drop q (iv0 ++ c))).
Proof.
  intros Hc Hq. destruct Hiv0 as [Hl Hb]. split.
  - rewrite length_take, length_drop, length_app. lia.
  - apply Forall_take, Forall_drop, Forall_app. auto.
Qed.

Lemma cfb8_key_stable c x p : (p <= length c)%nat -> cfb8_key (c ++ [x]) p = cfb8_key c p.
Proof. intros Hp. unfold cfb8_key. rewrite window_stable by exact Hp. reflexivity. Qed.

Lemma cfb128_key_stable c x p : (p <= length c)%nat -> cfb128_key (c ++ [x]) p = cfb128_key c p.
Proof.
  intros Hp. unfold cfb128_key. rewrite window_stable; [reflexivity|]. pose proof (Nat.div_mod_eq p 16). lia.
Qed.

(** Read and written bytes, one for one. *)
Definition in_step (key : list Z -> nat -> Z) (mode : Z) (i o : list Z) : Prop :=
  byte_list i /\ byte_list o /\ enciphers (key (fed mode i o)) i o.

Lemma fed_length key mode i o : in_step key mode i o -> length (fed mode i o) = length i.
Proof. intros (_ & _ & Hl & _). unfold fed. destruct (mode =? MBEDTLS_AES_DECRYPT); auto. Qed.

Lemma fed_bytes key mode i o : in_step key mode i o -> byte_list (fed mode i o).
Proof. intros (Hi & Ho & _). unfold fed. destruct (mode =? MBEDTLS_AES_DECRYPT); auto. Qed.

Lemma in_step_snoc key mode i o c :
  (forall f x p, (p <= length f)%nat -> key (f ++ [x]) p = key f p) ->
  is_u8 c -> is_u8 (key (fed mode i o) (length i)) -> in_step key mode i o ->
  in_step key mode (i ++ [c]) (o ++ [Z.lxor c (key (fed mode i o) (length i))]).
Proof.
  intros Hk Hc Hu H. pose proof (fed_length _ _ _ _ H) as Hf. destruct H as (Hi & Ho & Henc).
  assert (Hb : forall l x, byte_list l -> is_u8 x -> byte_list (l ++ [x])).
  { intros l x Hl Hx. apply Forall_app. auto. }
  split; [auto|]. split; [apply Hb, lxor_u8; assumption|]. rewrite fed_snoc.
  apply (enciphers_ext (key (fed mode i o))); [|apply enciphers_snoc, Henc].
  intros p Hp. symmetry. apply Hk. rewrite length_app in Hp. cbn in Hp. lia.
Qed.

Definition cfb8_at (mode : Z) (i o s : list Z) : Prop :=
  in_step cfb8_key mode i o /\ s = drop (length i) (iv0 ++ fed mode i o).

Lemma cfb8_step mode i o s c :
  is_u8 c -> cfb8_at mode i o s ->
  exists s' b, cfb8_byte st ctx mode s c = (0, s', b) /\ cfb8_at mode (i ++ [c]) (o ++ [b]) s'.
Proof.
  intros Hc [H ->]. pose proof (fed_length _ _ _ _ H) as Hf. pose proof (fed_bytes _ _ _ _ H) as Hfb.
  set (f := fed mode i o) in *. pose proof Hiv0 as [Hl _].
  assert (Hw : take 16 (drop (length i) (iv0 ++ f)) = drop (length i) (iv0 ++ f))
    by (apply take_ge; rewrite length_drop, length_app; lia).
  destruct (HE _ (window_state f (length i) Hfb ltac:(lia))) as [He Hs]. rewrite Hw in He.
  assert (Hk : (E (drop (length i) (iv0 ++ f))).[0] = cfb8_key f (length i))
    by (unfold cfb8_key; rewrite Hw; reflexivity).
  unfold cfb8_byte. rewrite He. cbn [Z.eqb negb]. rewrite Hk, Z.lxor_comm.
  do 2 eexists. split; [reflexivity|]. split.
  - apply (in_step_snoc cfb8_key); [exact cfb8_key_stable|exact Hc| |exact H]. apply nth_u8, Hs.
  - rewrite fed_snoc, (app_assoc iv0). fold f. rewrite length_app, <- drop_drop. f_equal.
    rewrite (drop_app_le (iv0 ++ f)) by (rewrite length_app; lia). reflexivity.
Qed.

Definition cfb128_at (mode : Z) (i o : list Z) (s : feedback_state) : Prop :=
  in_step cfb128_key mode i o /\ iv_off s = Z.of_nat (length i mod 16) /\
  let register := iv0 ++ fed mode i o in
  iv s = if (length i mod 16 =? 0)%nat then drop (length i) register
         else drop (16 * S (length i / 16)) register ++
              drop (length i mod 16) (E (take 16 (drop (16 * (length i / 16)) register))).

(** The register once it is filled, [r] bytes into block [q]: the ciphertext of
    the block so far, and the rest of the enciphered last block. *)
Definition filled (V : list Z) (q r : nat) : list Z :=
  drop (16 * S q) V ++ drop r (E (take 16 (drop (16 * q) V))).

Lemma filled_state f q r :
  byte_list f -> length f = (16 * q + r)%nat -> (r <= 16)%nat ->
  is_state (E (take 16 (drop (16 * q) (iv0 ++ f)))) /\ is_state (filled (iv0 ++ f) q r).
Proof.
  intros Hb Hl Hr. destruct (HE _ (window_state f (16 * q) Hb ltac:(lia))) as [_ [Hsl Hsb]].
  pose proof Hiv0 as [Hil Hib]. split; [split; assumption|]. split.
  - unfold filled. rewrite length_app, !length_drop, length_app, Hsl. lia.
  - apply Forall_app. split; [apply Forall_drop, Forall_app; auto|apply Forall_drop, Hsb].
Qed.

Lemma cfb128_refill mode i o s :
  cfb128_at mode i o s ->
  refill st ctx s = (0, {| iv_off := Z.of_nat (length i mod 16);
    iv := filled (iv0 ++ fed mode i o) (length i / 16) (length i mod 16) |}).
Proof.
  intros (H & Hoff & Hiv). cbv zeta in Hiv. pose proof (fed_length _ _ _ _ H) as Hf.
  pose proof (fed_bytes _ _ _ _ H) as Hb. set (f := fed mode i o) in *.
  pose proof (Nat.div_mod_eq (length i) 16) as Hp. pose proof (Nat.mod_upper_bound (length i) 16 ltac:(lia)) as Hr.
  destruct (filled_state f (length i / 16) (length i mod 16) Hb ltac:(lia) ltac:(lia)) as [_ Hs].
  destruct s as [off v]. cbn [iv_off iv] in *. subst off. pose proof Hiv0 as [Hil _].
  destruct (Nat.eqb_spec (length i mod 16) 0) as [H0|H0].
  - assert (Hv : v = take 16 (drop (16 * (length i / 16)) (iv0 ++ f))).
    { rewrite take_ge by (rewrite length_drop, length_app; lia). rewrite Hiv. f_equal. lia. }
    rewrite (refill_spec _ (length i)) by (try reflexivity; cbn; rewrite Hv; apply window_state; auto; lia).
    rewrite H0. cbn [Nat.eqb iv set_field]. unfold filled. rewrite drop_ge by (rewrite length_app; lia).
    rewrite <- Hv. reflexivity.
  - rewrite (refill_spec _ (length i)) by (try reflexivity; cbn; rewrite Hiv; exact Hs).
    destruct (Nat.eqb_spec (length i mod 16) 0); [lia|]. cbn [iv set_field]. rewrite Hiv. reflexivity.
Qed.

(** A byte of ciphertext enters the register. *)
Lemma filled_store f q r x :
  byte_list f -> length f = (16 * q + r)%nat -> (r < 16)%nat ->
  <[r := x]> (filled (iv0 ++ f) q r) = drop (16 * S q) (iv0 ++ f ++ [x]) ++ drop (S r) (E (take 16 (drop (16 * q) (iv0 ++ f)))).
Proof.
  intros Hb Hl Hr. destruct (filled_state f q r Hb Hl ltac:(lia)) as [[Hsl _] _]. pose proof Hiv0 as [Hil _].
  unfold filled. rewrite insert_app_r_alt by (rewrite length_drop, length_app; lia).
  rewrite length_drop, length_app. replace (r - (length iv0 + length f - 16 * S q))%nat with 0%nat by lia.
  destruct (lookup_lt_is_Some_2 (E (take 16 (drop (16 * q) (iv0 ++ f)))) r ltac:(lia)) as [y Hy].
  rewrite (drop_S _ y r Hy). cbn [insert list_insert].
  rewrite (app_assoc iv0), (drop_app_le (iv0 ++ f)) by (rewrite length_app; lia).
  rewrite <- app_assoc. reflexivity.
Qed.

Lemma cfb128_step mode i o s c :
  is_u8 c -> cfb128_at mode i o s ->
  exists s' b, cfb128_byte st ctx mode s c = (0, s', b) /\ cfb128_at mode (i ++ [c]) (o ++ [b]) s'.
Proof.
  intros Hc Hat. unfold cfb128_byte. rewrite (cfb128_refill mode i o s Hat). cbn [Z.eqb negb iv_off iv].
  destruct Hat as (H & _). pose proof (fed_length _ _ _ _ H) as Hf. pose proof (fed_bytes _ _ _ _ H) as Hb.
  set (f := fed mode i o) in *. set (q := (length i / 16)%nat). set (r := (length i mod 16)%nat).
  assert (Hp : length f = (16 * q + r)%nat) by (rewrite Hf; apply Nat.div_mod_eq).
  assert (Hr : (r < 16)%nat) by (apply Nat.mod_upper_bound; lia). pose proof Hiv0 as [Hil _].
  destruct (filled_state f q r Hb Hp ltac:(lia)) as [[Hsl Hsb] _].
  assert (Hk : at_ (filled (iv0 ++ f) q r) (Z.of_nat r) = cfb128_key f (length i)).
  { unfold at_, filled. rewrite Nat2Z.id, app_nth2; rewrite length_drop, length_app; [|lia].
    rewrite <- nth_add. unfold cfb128_key. fold q r. f_equal. lia. }
  rewrite Hk. unfold set_at. rewrite Nat2Z.id, filled_store by assumption.
  do 2 eexists. split; [reflexivity|]. split; [|split].
  - apply (in_step_snoc cfb128_key); [exact cfb128_key_stable|exact Hc| |exact H]. apply nth_u8, Hsb.
  - rewrite length_app, Nat.add_1_r. apply next_off.
  - cbv zeta. rewrite fed_snoc. fold f. cbn [iv]. rewrite length_app, Nat.add_1_r.
    destruct (next_place (length i)) as [(Hm & -> & Hd)|(Hm & -> & ->)]; fold q r in Hm |- *.
    + cbn [Nat.eqb]. rewrite Hm, (drop_ge (E _)), app_nil_r by lia. f_equal. lia.
    + cbn [Nat.eqb]. rewrite window_stable by lia. reflexivity.
Qed.

Lemma cfb128_start mode : cfb128_at mode [] [] {| iv_off := 0; iv := iv0 |}.
Proof.
  split; [split; [constructor|split; [constructor|split; [reflexivity|intros p Hp; inversion Hp]]]|].
  split; [reflexivity|]. cbn. unfold fed. destruct (mode =? MBEDTLS_AES_DECRYPT); rewrite app_nil_r; reflexivity.
Qed.

(** The equations of the standard, from the start of a stream. *)
Lemma cfb128_spec mode input :
  byte_list input ->
  exists s output, mbedtls_aes_crypt_cfb128 st ctx mode {| iv_off := 0; iv := iv0 |} input = (0, s, output) /\
    in_step cfb128_key mode input output.
Proof.
  intros Hb. destruct (byte_loop_inv _ (cfb128_at mode) (cfb128_step mode) input [] []
    {| iv_off := 0; iv := iv0 |} Hb (cfb128_start mode)) as (s & output & He & Hin & _).
  exists s, output. unfold mbedtls_aes_crypt_cfb128. rewrite He. auto.
Qed.

Lemma cfb8_spec mode input :
  byte_list input ->
  exists s output, mbedtls_aes_crypt_cfb8 st ctx mode iv0 input = (0, s, output) /\
    in_step cfb8_key mode input output.
Proof.
  intros Hb. destruct (byte_loop_inv _ (cfb8_at mode) (cfb8_step mode) input [] [] iv0 Hb)
    as (s & output & He & Hin & _).
  - split; [split; [constructor|split; [constructor|split; [reflexivity|intros p Hp; inversion Hp]]]|].
    unfold fed. destruct (mode =? MBEDTLS_AES_DECRYPT); rewrite app_nil_r; reflexivity.
  - exists s, output. auto.
Qed.

(** Decryption feeds back what it reads, encryption what it writes. *)
Lemma in_step_inverse key p c p' :
  in_step key MBEDTLS_AES_ENCRYPT p c -> in_step key MBEDTLS_AES_DECRYPT c p' -> p' = p.
Proof. intros (_ & _ & He) (_ & _ & Hd). exact (enciphers_inverse _ _ _ _ He Hd). Qed.

End feedback.

(** ** Keyed contexts *)

Lemma cbc_blocks (l : list Z) : (length l mod 16 = 0)%nat -> (16 * (length l / 16))%nat = length l.
Proof. intros H. pose proof (Nat.div_mod_eq (length l) 16). lia. Qed.

(** CBC is SP 800-38A over FIPS 197; a context keyed for decryption gives the
    message back. *)
Theorem cbc_is_sp800_38a Nk st st' key iv0 p :
  aes_key Nk key -> statics_ok st -> statics_ok st' -> is_state iv0 -> byte_list p -> (length p mod 16 = 0)%nat ->
  let '(_, st1, ectx) := mbedtls_aes_setkey_enc st mbedtls_aes_init key (32 * Z.of_nat Nk) in
  let '(_, st2, dctx) := mbedtls_aes_setkey_dec st' mbedtls_aes_init key (32 * Z.of_nat Nk) in
  let c := sp800_38a_cbc (fips_encrypt Nk key) (length p / 16) iv0 p in
  mbedtls_aes_crypt_cbc st1 ectx MBEDTLS_AES_ENCRYPT iv0 p = (0, chained iv0 c, c) /\
  mbedtls_aes_crypt_cbc st2 dctx MBEDTLS_AES_DECRYPT iv0 c = (0, chained iv0 c, p).
Proof.
  intros Hk Hst Hst' Hiv Hp H0. destruct (enc_computes Nk st mbedtls_aes_init key Hk Hst eq_refl) as (ectx & -> & HE).
  destruct (dec_computes Nk st' mbedtls_aes_init key Hk Hst' eq_refl) as (dctx & -> & HD). cbv zeta.
  pose proof (cbc_blocks p H0) as Hn.
  destruct (cbc_encrypt_spec _ _ _ (length p / 16) iv0 p HE Hiv Hn Hp) as (He & Hcl & Hcb).
  unfold mbedtls_aes_crypt_cbc. rewrite Hcl, H0. split; [exact He|].
  destruct (cbc_decrypt_spec _ _ _ (length p / 16) iv0 _ HD Hiv (eq_trans Hn (eq_sym Hcl)) Hcb) as (Hd & _).
  cbn [Nat.eqb negb]. change (MBEDTLS_AES_DECRYPT =? MBEDTLS_AES_DECRYPT) with true. cbv iota.
  rewrite Hd, cbc_inverse; auto.
  intros b Hb. split; [apply HE, Hb|apply fips_decrypt_encrypt; assumption].
Qed.

(** CFB with blocks of 128 and of 8 bits: the equations of SP 800-38A hold of what
    is written, and decrypting it gives the message back. *)
Theorem cfb_is_sp800_38a Nk st key iv0 p :
  aes_key Nk key -> statics_ok st -> is_state iv0 -> byte_list p ->
  let '(_, st', ctx) := mbedtls_aes_setkey_enc st mbedtls_aes_init key (32 * Z.of_nat Nk) in
  let start := {| iv_off := 0; iv := iv0 |} in
  let '(ret, _, c) := mbedtls_aes_crypt_cfb128 st' ctx MBEDTLS_AES_ENCRYPT start p in
  let '(ret8, _, c8) := mbedtls_aes_crypt_cfb8 st' ctx MBEDTLS_AES_ENCRYPT iv0 p in
  ret = 0 /\ enciphers (cfb128_key (fips_encrypt Nk key) iv0 c) p c /\
  ret8 = 0 /\ enciphers (cfb8_key (fips_encrypt Nk key) iv0 c8) p c8 /\
  snd (mbedtls_aes_crypt_cfb128 st' ctx MBEDTLS_AES_DECRYPT start c) = p /\
  snd (mbedtls_aes_crypt_cfb8 st' ctx MBEDTLS_AES_DECRYPT iv0 c8) = p.
Proof.
  intros Hk Hst Hiv Hp. destruct (enc_computes Nk st mbedtls_aes_init key Hk Hst eq_refl) as (ctx & -> & HE).
  cbv zeta. set (E := fips_encrypt Nk key) in *.
  destruct (cfb128_spec _ _ E iv0 HE Hiv MBEDTLS_AES_ENCRYPT p Hp) as (s & c & -> & Hc).
  destruct (cfb8_spec _ _ E iv0 HE Hiv MBEDTLS_AES_ENCRYPT p Hp) as (s8 & c8 & -> & Hc8).
  destruct (cfb128_spec _ _ E iv0 HE Hiv MBEDTLS_AES_DECRYPT c (proj1 (proj2 Hc))) as (t & p' & -> & Hd).
  destruct (cfb8_spec _ _ E iv0 HE Hiv MBEDTLS_AES_DECRYPT c8 (proj1 (proj2 Hc8))) as (t8 & p8 & -> & Hd8).
  cbn [snd]. rewrite (in_step_inverse _ _ _ _ Hc Hd), (in_step_inverse _ _ _ _ Hc8 Hd8).
  destruct Hc as (_ & _ & Hc), Hc8 as (_ & _ & Hc8). auto 10.
Qed.

(** OFB is a key stream, the iterates of the cipher on the initial vector; it is its
    own inverse. *)
Theorem ofb_is_sp800_38a Nk st key iv0 p :
  aes_key Nk key -> statics_ok st -> is_state iv0 -> byte_list p ->
  let '(_, st', ctx) := mbedtls_aes_setkey_enc st mbedtls_aes_init key (32 * Z.of_nat Nk) in
  let start := {| iv_off := 0; iv := iv0 |} in
  let '(ret, _, c) := mbedtls_aes_crypt_ofb st' ctx start p in
  ret = 0 /\ enciphers (ofb_key (fips_encrypt Nk key) iv0) p c /\ snd (mbedtls_aes_crypt_ofb st' ctx start c) = p.
Proof.
  intros Hk Hst Hiv Hp. destruct (enc_computes Nk st mbedtls_aes_init key Hk Hst eq_refl) as (ctx & -> & HE).
  cbv zeta. set (E := fips_encrypt Nk key) in *.
  destruct (ofb_spec _ _ E iv0 HE Hiv p Hp) as (s & c & -> & Hc).
  assert (Hcb : byte_list c)
    by (apply (enciphers_bytes _ _ _ Hc Hp); intros q; apply nth_u8, (iter_state _ _ E iv0 HE Hiv)).
  destruct (ofb_spec _ _ E iv0 HE Hiv c Hcb) as (t & p' & -> & Hd).
  cbn [snd]. rewrite (enciphers_inverse _ _ _ _ Hc Hd). auto.
Qed.

(** What is refused, the state untouched. *)
Lemma cbc_refuses st ctx mode iv0 p :
  (length p mod 16 <> 0)%nat ->
  mbedtls_aes_crypt_cbc st ctx mode iv0 p = (MBEDTLS_ERR_AES_INVALID_INPUT_LENGTH, iv0, []).
Proof. intros H. unfold mbedtls_aes_crypt_cbc. destruct (Nat.eqb_spec (length p mod 16) 0); [contradiction|reflexivity]. Qed.

Lemma offset_refused st ctx mode s p :
  15 < iv_off s ->
  mbedtls_aes_crypt_cfb128 st ctx mode s p = (MBEDTLS_ERR_AES_BAD_INPUT_DATA, s, []) /\
  mbedtls_aes_crypt_ofb st ctx s p = (MBEDTLS_ERR_AES_BAD_INPUT_DATA, s, []).
Proof.
  intros H. unfold mbedtls_aes_crypt_cfb128, mbedtls_aes_crypt_ofb. destruct (Z.ltb_spec 15 (iv_off s)); [auto|lia].
Qed.

End aes_modes_laws.
