(* ===== verification/AesXts.v ===== *)
(** The XTS mode of aes.c: the tweaks are the multiples by powers of x in
    GF(2^128), the mode is IEEE 1619 with ciphertext stealing, decryption undoes
    encryption, and in place the bytes of a last partial block are lost. *)

From S2P Require Import Prelude MbedCommon Aes AesFips AesInverse AesCtr AesModes.
Import mbed aes aes_fips aes_keys aes_inverse aes_ctr aes_modes aes_modes_laws.

Module aes_xts.

(** ** IEEE 1619 *)

(** Multiplication by x, the elements as numbers. *)
Definition gf_double (v : Z) : Z := Z.lxor ((2 * v) mod 2 ^ 128) (if Z.testbit v 127 then 0x87 else 0).

(** The tweak of block [j]. *)
Definition tweak_at (T0 : list Z) (j : nat) : list Z := le_bytes 16 (Nat.iter j gf_double (le_value T0)).

Definition xex (F : list Z -> list Z) (T s : list Z) : list Z := zip_with Z.lxor (F (zip_with Z.lxor s T)) T.

Definition block (j : nat) (l : list Z) : list Z := take 16 (drop (16 * j) l).

(** The first [n] blocks. *)
Definition xex_blocks (F : list Z -> list Z) (T : nat -> list Z) (n : nat) (input : list Z) : list Z :=
  concat (map (fun j => xex F (T j) (block j input)) (seq 0 n)).

Definition ieee1619_encrypt (E : list Z -> list Z) (T : nat -> list Z) (input : list Z) : list Z :=
  let m := (length input / 16)%nat in
  let r := (length input mod 16)%nat in
  if (r =? 0)%nat then xex_blocks E T m input else
  let CC := xex E (T (m - 1)%nat) (block (m - 1) input) in
  xex_blocks E T (m - 1) input ++ xex E (T m) (drop (16 * m) input ++ drop r CC) ++ take r CC.

Definition ieee1619_decrypt (D : list Z -> list Z) (T : nat -> list Z) (input : list Z) : list Z :=
  let m := (length input / 16)%nat in
  let r := (length input mod 16)%nat in
  if (r =? 0)%nat then xex_blocks D T m input else
  let PP := xex D (T m) (block (m - 1) input) in
  xex_blocks D T (m - 1) input ++ xex D (T (m - 1)%nat) (drop (16 * m) input ++ drop r PP) ++ take r PP.

(** ** The multiplication *)

Lemma le_bytes_ext n x y :
  (forall i, 0 <= i < 8 * Z.of_nat n -> Z.testbit x i = Z.testbit y i) -> le_bytes n x = le_bytes n y.
Proof.
  intros H. rewrite <- (le_bytes_mod n x), <- (le_bytes_mod n y). f_equal.
  change 256 with (2 ^ 8). rewrite <- Z.pow_mul_r by lia.
  apply Z.bits_inj'. intros i Hi. destruct (Z.lt_ge_cases i (8 * Z.of_nat n)).
  - rewrite !Z.mod_pow2_bits_low by lia. apply H. lia.
  - rewrite !Z.mod_pow2_bits_high by lia. reflexivity.
Qed.

Lemma le_value_app a b :
  le_value (a ++ b) = Z.lor (le_value a) (Z.shiftl (le_value b) (8 * Z.of_nat (length a))).
Proof.
  pose proof (be_value_app (rev b) (rev a)) as H. unfold be_value in H.
  rewrite <- rev_app_distr, !rev_involutive, length_rev in H. rewrite H. apply Z.lor_comm.
Qed.

Lemma GET_UINT64_LE_value x off :
  (off + 8 <= length x)%nat -> MBEDTLS_GET_UINT64_LE x off = le_value (take 8 (drop off x)).
Proof.
  intros H. unfold MBEDTLS_GET_UINT64_LE. rewrite !nth_add.
  replace (x.[off]) with ((drop off x).[0]) by (rewrite <- nth_add; f_equal; lia).
  assert (Hl : (8 <= length (drop off x))%nat) by (rewrite length_drop; lia).
  generalize dependent (drop off x). clear. intros l Hl.
  destruct l as [|b0 [|b1 [|b2 [|b3 [|b4 [|b5 [|b6 [|b7 l]]]]]]]]; cbn [length] in Hl; try lia.
  cbn [take nth le_value]. rewrite !Z.shiftl_0_l, !Z.lor_0_r, !Z.shiftl_lor, !Z.shiftl_shiftl by lia.
  change (8 + (8 + (8 + (8 + (8 + (8 + 8)))))) with 56. change (8 + (8 + (8 + (8 + (8 + 8))))) with 48.
  change (8 + (8 + (8 + (8 + 8)))) with 40. change (8 + (8 + (8 + 8))) with 32.
  change (8 + (8 + 8)) with 24. change (8 + 8) with 16. apply Z.bits_inj'. intros i Hi. rewrite !Z.lor_spec.
  repeat match goal with |- context [Z.testbit ?a i] => destruct (Z.testbit a i) end; reflexivity.
Qed.

Lemma PUT_UINT64_LE_bytes n : MBEDTLS_PUT_UINT64_LE n = le_bytes 8 n.
Proof.
  unfold MBEDTLS_PUT_UINT64_LE, MBEDTLS_BYTE_0, MBEDTLS_BYTE_1, MBEDTLS_BYTE_2, MBEDTLS_BYTE_3,
    MBEDTLS_BYTE_4, MBEDTLS_BYTE_5, MBEDTLS_BYTE_6, MBEDTLS_BYTE_7, le_bytes.
  rewrite !Z.shiftr_shiftr by lia. reflexivity.
Qed.

Lemma gf_double_bit v i :
  0 <= i < 128 ->
  Z.testbit (gf_double v) i =
  xorb ((0 <? i) && Z.testbit v (i - 1)) (Z.testbit v 127 && Z.testbit 0x87 i).
Proof.
  intros Hi. unfold gf_double. rewrite Z.lxor_spec, Z.mod_pow2_bits_low by lia.
  rewrite (Z.mul_comm 2). change (v * 2) with (v * 2 ^ 1).
  rewrite <- (Z.shiftl_mul_pow2 v 1), Z.shiftl_spec by lia. f_equal.
  - destruct (Z.ltb_spec 0 i); [reflexivity|]. apply Z.testbit_neg_r. lia.
  - destruct (Z.testbit v 127); [reflexivity|apply Z.bits_0].
Qed.

Lemma gf128mul_x_ble_spec x :
  is_state x -> mbedtls_gf128mul_x_ble x = le_bytes 16 (gf_double (le_value x)).
Proof.
  intros [Hl Hx]. unfold mbedtls_gf128mul_x_ble. rewrite !GET_UINT64_LE_value by lia. change (drop 0 x) with x.
  rewrite (take_ge (drop 8 x)) by (rewrite length_drop; lia).
  assert (Hv : le_value x = Z.lor (le_value (take 8 x)) (Z.shiftl (le_value (drop 8 x)) 64)).
  { rewrite <- (take_drop 8 x) at 1. rewrite le_value_app, length_take, Hl. reflexivity. }
  pose proof (le_value_range (take 8 x) (Forall_take _ 8 x Hx)) as Ha.
  pose proof (le_value_range (drop 8 x) (Forall_drop _ 8 x Hx)) as Hb.
  rewrite length_take, Hl in Ha. rewrite length_drop, Hl in Hb.
  change (256 ^ Z.of_nat (8 `min` 16)) with (2 ^ 64) in Ha. change (256 ^ Z.of_nat (16 - 8)) with (2 ^ 64) in Hb.
  generalize dependent (le_value (drop 8 x)). generalize dependent (le_value (take 8 x)). intros a Ha b Hv Hb.
  assert (Hbit : forall i, Z.testbit (le_value x) i = if i <? 64 then Z.testbit a i else Z.testbit b (i - 64)).
  { intros i. destruct (Z_lt_ge_dec i 0) as [|Hi].
    { rewrite !Z.testbit_neg_r by lia. destruct (i <? 64); reflexivity. }
    rewrite Hv, Z.lor_spec, Z.shiftl_spec by lia. destruct (Z.ltb_spec i 64).
    - rewrite (Z.testbit_neg_r b) by lia. apply orb_false_r.
    - rewrite (testbit_high a 64 i) by (assumption || lia). reflexivity. }
  rewrite (PUT_UINT64_LE_bytes (Z.lxor _ _)), (PUT_UINT64_LE_bytes (Z.lor _ _)), (le_bytes_app 8 8). f_equal; apply le_bytes_ext; intros i Hi.
  - rewrite gf_double_bit, Z.lxor_spec, !Hbit by lia. unfold u64.
    rewrite Z.mod_pow2_bits_low, Z.shiftl_spec by lia. f_equal.
    + destruct (Z.ltb_spec 0 i); [|apply Z.testbit_neg_r; lia]. destruct (Z.ltb_spec (i - 1) 64); [reflexivity|lia].
    + rewrite top_bit by exact Hb. destruct (Z.testbit b 63) eqn:H63; cbn.
      * change (127 - 64) with 63. rewrite H63. reflexivity.
      * change (127 - 64) with 63. rewrite H63. apply Z.bits_0.
  - rewrite Z.shiftr_spec by lia. change (8 * Z.of_nat 8) with 64. rewrite gf_double_bit, Z.lor_spec, !Hbit by lia.
    unfold u64. rewrite Z.mod_pow2_bits_low, Z.shiftl_spec, Z.shiftr_spec by lia.
    rewrite (testbit_high 0x87 8 (i + 64)) by (lia || (split; [lia|reflexivity])). rewrite andb_false_r, xorb_false_r.
    destruct (Z.ltb_spec 0 (i + 64)); [|lia]. cbn [andb].
    destruct (Z.ltb_spec (i + 64 - 1) 64).
    + replace i with 0 by lia. rewrite (Z.testbit_neg_r b) by lia. apply orb_false_r.
    + rewrite (testbit_high a 64 (i + 63)) by (assumption || lia). cbn [orb]. f_equal. lia.
Qed.

(** ** The tweaks *)

Lemma tweak_at_state T0 j : is_state (tweak_at T0 j).
Proof. split; [apply le_bytes_length|apply le_bytes_bytes]. Qed.

Lemma tweak_at_0 T0 : is_state T0 -> tweak_at T0 0 = T0.
Proof. intros [Hl Hb]. unfold tweak_at. rewrite <- Hl. apply le_bytes_le_value, Hb. Qed.

Lemma gf_double_range v : 0 <= gf_double v < 2 ^ 128.
Proof.
  unfold gf_double. assert (H : 0 <= (2 * v) mod 2 ^ 128 < 2 ^ 128) by (apply Z.mod_pos_bound; lia).
  set (w := (2 * v) mod 2 ^ 128) in *.
  set (k := if Z.testbit v 127 then 0x87 else 0). assert (Hk : 0 <= k < 2 ^ 128).
  { subst k. destruct (Z.testbit v 127); lia. }
  assert (H0 : 0 <= Z.lxor w k) by (apply Z.lxor_nonneg; lia). split; [exact H0|].
  rewrite <- (Z.mod_small (Z.lxor w k) (2 ^ 128)) at 1; [apply Z.mod_pos_bound; lia|]. split; [exact H0|].
  apply Z.log2_lt_cancel. rewrite Z.log2_pow2 by lia.
  pose proof (Z.log2_lxor w k ltac:(lia) ltac:(lia)) as Hx.
  assert (Hlog : forall z, 0 <= z < 2 ^ 128 -> Z.log2 z < 128).
  { intros z Hz. destruct (decide (z <= 0)); [rewrite Z.log2_nonpos; lia|]. apply Z.log2_lt_pow2; lia. }
  pose proof (Hlog w H). pose proof (Hlog k Hk). lia.
Qed.

Lemma tweak_at_S T0 j :
  is_state T0 -> mbedtls_gf128mul_x_ble (tweak_at T0 j) = tweak_at T0 (S j).
Proof.
  intros [Hl Hb]. rewrite gf128mul_x_ble_spec by apply tweak_at_state. unfold tweak_at.
  change (Nat.iter (S j) gf_double (le_value T0)) with (gf_double (Nat.iter j gf_double (le_value T0))). do 2 f_equal. rewrite le_value_le_bytes. apply Z.mod_small. change (256 ^ Z.of_nat 16) with (2 ^ 128).
  destruct j as [|j]; [|apply gf_double_range].
  pose proof (le_value_range T0 Hb) as H. rewrite Hl in H. exact H.
Qed.

(** ** The loop *)

Lemma xex_state F T s :
  (forall b, is_state b -> is_state (F b)) -> is_state T -> is_state s -> is_state (xex F T s).
Proof. intros HF HT Hs. apply zip_state; [apply HF, zip_state; assumption|exact HT]. Qed.

Lemma block_state j n input :
  (16 * n <= length input)%nat -> (j < n)%nat -> byte_list input -> is_state (block j input).
Proof.
  intros Hl Hj Hb. split; [unfold block; rewrite length_take, length_drop; lia|].
  apply Forall_take, Forall_drop, Hb.
Qed.

Lemma xex_blocks_S F T n input :
  xex_blocks F T (S n) input = xex_blocks F T n input ++ xex F (T n) (block n input).
Proof. unfold xex_blocks. rewrite seq_S, map_app, concat_app. cbn. rewrite app_nil_r. reflexivity. Qed.

Lemma xex_blocks_bytes F T n input :
  (forall b, is_state b -> is_state (F b)) -> (forall j, is_state (T j)) ->
  (16 * n <= length input)%nat -> byte_list input ->
  length (xex_blocks F T n input) = (16 * n)%nat /\ byte_list (xex_blocks F T n input).
Proof.
  intros HF HT Hl Hb. induction n as [|n IH]; [split; [reflexivity|constructor]|].
  destruct IH as [IHl IHb]; [lia|]. rewrite xex_blocks_S.
  destruct (xex_state F (T n) (block n input) HF (HT n)) as [Hxl Hxb]; [apply (block_state n (S n)); auto; lia|].
  rewrite length_app, IHl, Hxl. split; [lia|apply Forall_app; auto].
Qed.

(** Only the blocks themselves count. *)
Lemma block_app j n a b : length a = (16 * n)%nat -> (j < n)%nat -> block j (a ++ b) = block j a.
Proof. intros Hl Hj. unfold block. rewrite drop_app_le, take_app_le by (rewrite ?length_drop; lia). reflexivity. Qed.

Lemma xex_blocks_app F T n a b : length a = (16 * n)%nat -> xex_blocks F T n (a ++ b) = xex_blocks F T n a.
Proof.
  intros Hl. unfold xex_blocks. f_equal. apply map_ext_in. intros j Hj%in_seq.
  rewrite (block_app j n) by (auto; lia). reflexivity.
Qed.

Section keyed.
Context (st : aes_statics) (ctx : mbedtls_aes_xts_context) (mode : Z) (F : list Z -> list Z) (T0 : list Z).
Context (HF : computes st (crypt ctx) mode F) (HT0 : is_state T0).

Lemma F_state b : is_state b -> is_state (F b).
Proof. intros H. apply HF, H. Qed.

Lemma xts_block_spec j input :
  is_state (block j input) ->
  let '(ret, tmp) := mbedtls_aes_crypt_ecb st (crypt ctx) mode (zip_with Z.lxor (take 16 (drop (16 * j) input)) (tweak_at T0 j)) in
  ret = 0 /\ zip_with Z.lxor tmp (tweak_at T0 j) = xex F (tweak_at T0 j) (block j input).
Proof.
  intros Hs. destruct (HF _ (zip_state _ _ Hs (tweak_at_state T0 j))) as [He _].
  unfold block in He. rewrite He. auto.
Qed.

(** The loop from block [k] on, without a tweak set aside. *)
Lemma xts_blocks_spec leftover n k prev input :
  (leftover = 0%nat \/ mode <> MBEDTLS_AES_DECRYPT) -> (16 * (k + n) <= length input)%nat -> byte_list input ->
  xts_blocks st ctx mode leftover n (tweak_at T0 k) prev (drop (16 * k) input) =
  (0, tweak_at T0 (k + n), prev, concat (map (fun j => xex F (tweak_at T0 j) (block j input)) (seq k n))).
Proof.
  intros Hmode. revert k. induction n as [|n IH]; intros k Hl Hb; cbn [xts_blocks seq map concat].
  - rewrite Nat.add_0_r. reflexivity.
  - assert (Hc : negb (leftover =? 0)%nat && (mode =? MBEDTLS_AES_DECRYPT) && (n =? 0)%nat = false).
    { destruct Hmode as [-> | Hne]; [reflexivity|]. rewrite (proj2 (Z.eqb_neq _ _) Hne), andb_false_r. reflexivity. }
    rewrite Hc. pose proof (xts_block_spec k input ltac:(apply (block_state k (k + S n)); auto; lia)) as Hx.
    destruct (mbedtls_aes_crypt_ecb _ _ _ _) as [ret tmp]. destruct Hx as [-> ->]. cbn [Z.eqb negb].
    rewrite tweak_at_S, drop_drop by exact HT0. replace (16 * k + 16)%nat with (16 * S k)%nat by lia.
    rewrite IH by (auto; lia). replace (S k + n)%nat with (k + S n)%nat by lia. reflexivity.
Qed.

(** Decrypting with bytes left over: the last block takes the next tweak, its own
    is set aside. *)
Lemma xts_blocks_swapped leftover n k prev input :
  leftover <> 0%nat -> mode = MBEDTLS_AES_DECRYPT -> (16 * (k + S n) <= length input)%nat -> byte_list input ->
  xts_blocks st ctx mode leftover (S n) (tweak_at T0 k) prev (drop (16 * k) input) =
  (0, tweak_at T0 (k + n + 2), tweak_at T0 (k + n),
   concat (map (fun j => xex F (tweak_at T0 j) (block j input)) (seq k n)) ++
   xex F (tweak_at T0 (k + n + 1)) (block (k + n) input)).
Proof.
  intros Hleft Hmode. revert k. induction n as [|n IH]; intros k Hl Hb; cbn [xts_blocks].
  - destruct (Nat.eqb_spec leftover 0); [contradiction|]. rewrite (proj2 (Z.eqb_eq _ _) Hmode). cbn [negb andb Nat.eqb].
    rewrite tweak_at_S by exact HT0. pose proof (block_state k (k + 1) input Hl ltac:(lia) Hb) as Hs.
    destruct (HF _ (zip_state _ _ Hs (tweak_at_state T0 (S k)))) as [He _]. unfold block in He. rewrite He.
    cbn [Z.eqb negb seq map concat app]. rewrite tweak_at_S, app_nil_r, Nat.add_0_r by exact HT0.
    replace (k + 2)%nat with (S (S k)) by lia. replace (k + 1)%nat with (S k) by lia. reflexivity.
  - rewrite (proj2 (Nat.eqb_neq (S n) 0)) by lia. rewrite andb_false_r.
    pose proof (xts_block_spec k input ltac:(apply (block_state k (k + S (S n))); auto; lia)) as Hx.
    destruct (mbedtls_aes_crypt_ecb _ _ _ _) as [ret tmp]. destruct Hx as [-> ->]. cbn [Z.eqb negb].
    rewrite tweak_at_S, drop_drop by exact HT0. replace (16 * k + 16)%nat with (16 * S k)%nat by lia.
    cbn [xts_blocks] in IH. rewrite IH by (auto; lia). cbn [seq map concat]. rewrite <- app_assoc.
    replace (S k + n)%nat with (k + S n)%nat by lia. reflexivity.
Qed.

Lemma xts_steal_spec t pv tail :
  is_state t -> is_state pv -> byte_list tail -> (length tail <= 16)%nat ->
  xts_steal st ctx mode false t pv tail =
  (0, xex F t (tail ++ drop (length tail) pv) ++ take (length tail) pv).
Proof.
  intros Ht [Hl Hb] Htail Hr. unfold xts_steal. cbv zeta.
  assert (Hs : is_state (tail ++ drop (length tail) pv)).
  { split; [rewrite length_app, length_drop; lia|apply Forall_app; split; [exact Htail|apply Forall_drop, Hb]]. }
  destruct (HF _ (zip_state _ _ Hs Ht)) as [-> _]. reflexivity.
Qed.

End keyed.

(** ** The mode *)

(** The lengths the function accepts: a block up to 2^20 blocks. *)
Definition data_unit_length (input : list Z) : Prop := (16 <= length input)%nat /\ Z.of_nat (length input) <= 2 ^ 24.

Lemma split_length (input : list Z) :
  (16 <= length input)%nat -> exists n, (length input / 16 = S n)%nat /\
  (length input = 16 * S n + length input mod 16)%nat /\ (length input mod 16 < 16)%nat.
Proof.
  intros H. pose proof (Nat.div_mod_eq (length input) 16). pose proof (Nat.mod_upper_bound (length input) 16 ltac:(lia)).
  destruct (length input / 16)%nat as [|n]; [lia|]. eauto.
Qed.

Section mode.
Context (st : aes_statics) (ctx : mbedtls_aes_xts_context) (F T : list Z -> list Z).
Context (HT : computes st (tweak ctx) MBEDTLS_AES_ENCRYPT T).

(** The length checks and the first tweak. *)
Lemma crypt_xts_starts mode in_place data_unit input prev :
  is_state data_unit -> data_unit_length input ->
  mbedtls_aes_crypt_xts st ctx mode in_place data_unit input prev =
  let blocks := (length input / 16)%nat in
  let leftover := (length input mod 16)%nat in
  let '(ret, tweak, prev_tweak, output) :=
    xts_blocks st ctx mode leftover blocks (tweak_at (T data_unit) 0) prev (drop (16 * 0) input) in
  if negb (ret =? 0) then (ret, output) else
  if (leftover =? 0)%nat then (0, output) else
  let t := if mode =? MBEDTLS_AES_DECRYPT then prev_tweak else tweak in
  let before := (16 * (blocks - 1))%nat in
  let '(ret, last) := xts_steal st ctx mode in_place t (drop before output) (drop (16 * blocks) input) in
  (ret, take before output ++ last).
Proof.
  intros Hd [H1 H2]. unfold mbedtls_aes_crypt_xts. destruct (HT _ Hd) as [-> Hs].
  destruct (Nat.ltb_spec (length input) 16); [lia|].
  destruct (Z.ltb_spec (Z.shiftl 1 20 * 16) (Z.of_nat (length input))) as [H3|_].
  { change (Z.shiftl 1 20 * 16) with (2 ^ 24) in H3. lia. }
  rewrite tweak_at_0 by exact Hs. reflexivity.
Qed.

Lemma crypt_xts_encrypts data_unit input prev :
  computes st (crypt ctx) MBEDTLS_AES_ENCRYPT F -> is_state data_unit -> byte_list input -> data_unit_length input ->
  mbedtls_aes_crypt_xts st ctx MBEDTLS_AES_ENCRYPT false data_unit input prev =
  (0, ieee1619_encrypt F (tweak_at (T data_unit)) input).
Proof.
  intros HF Hd Hb Hlen. pose proof (proj2 (HT _ Hd)) as HT0. rewrite crypt_xts_starts by assumption.
  destruct (split_length input (proj1 Hlen)) as (n & Hn & Hl & Hr). cbv zeta. unfold ieee1619_encrypt. rewrite Hn.
  rewrite (xts_blocks_spec st ctx _ F _ HF HT0) by (auto; try lia; right; discriminate). cbn [Z.eqb negb].
  fold (xex_blocks F (tweak_at (T data_unit)) (S n) input).
  destruct (Nat.eqb_spec (length input mod 16) 0) as [|Hne]; [reflexivity|].
  change (MBEDTLS_AES_ENCRYPT =? MBEDTLS_AES_DECRYPT) with false. cbv iota. cbn [Nat.sub Nat.add]. rewrite Nat.sub_0_r.
  destruct (xex_blocks_bytes F (tweak_at (T data_unit)) n input (F_state _ _ _ _ HF) (tweak_at_state _) ltac:(lia) Hb)
    as [Hxl _].
  rewrite xex_blocks_S, drop_app_length', take_app_length' by auto.
  assert (Htail : length (drop (16 * S n) input) = (length input mod 16)%nat) by (rewrite length_drop; lia).
  rewrite (xts_steal_spec st ctx _ F HF); [rewrite Htail; reflexivity|apply tweak_at_state| |apply Forall_drop, Hb|lia].
  apply xex_state; [apply (F_state _ _ _ _ HF)|apply tweak_at_state|apply (block_state n (S n)); auto; lia].
Qed.

Lemma crypt_xts_decrypts data_unit input prev :
  computes st (crypt ctx) MBEDTLS_AES_DECRYPT F -> is_state data_unit -> byte_list input -> data_unit_length input ->
  mbedtls_aes_crypt_xts st ctx MBEDTLS_AES_DECRYPT false data_unit input prev =
  (0, ieee1619_decrypt F (tweak_at (T data_unit)) input).
Proof.
  intros HF Hd Hb Hlen. pose proof (proj2 (HT _ Hd)) as HT0. rewrite crypt_xts_starts by assumption.
  destruct (split_length input (proj1 Hlen)) as (n & Hn & Hl & Hr). cbv zeta. unfold ieee1619_decrypt. rewrite Hn.
  destruct (Nat.eqb_spec (length input mod 16) 0) as [H0|Hne].
  { rewrite (xts_blocks_spec st ctx _ F _ HF HT0) by (auto; lia). reflexivity. }
  rewrite (xts_blocks_swapped st ctx _ F _ HF HT0) by (auto; lia). cbn [Z.eqb negb].
  fold (xex_blocks F (tweak_at (T data_unit)) n input).
  change (MBEDTLS_AES_DECRYPT =? MBEDTLS_AES_DECRYPT) with true. cbv iota. cbn [Nat.sub Nat.add]. rewrite Nat.sub_0_r.
  destruct (xex_blocks_bytes F (tweak_at (T data_unit)) n input (F_state _ _ _ _ HF) (tweak_at_state _) ltac:(lia) Hb)
    as [Hxl _].
  rewrite drop_app_length', take_app_length', Nat.add_1_r by auto.
  assert (Htail : length (drop (16 * S n) input) = (length input mod 16)%nat) by (rewrite length_drop; lia).
  rewrite (xts_steal_spec st ctx _ F HF); [rewrite Htail; reflexivity|apply tweak_at_state| |apply Forall_drop, Hb|lia].
  apply xex_state; [apply (F_state _ _ _ _ HF)|apply tweak_at_state|apply (block_state n (S n)); auto; lia].
Qed.

End mode.

(** ** Decryption undoes encryption *)

Section inverse.
Context (E D : list Z -> list Z) (T : nat -> list Z).
Context (HE : forall b, is_state b -> is_state (E b)) (HD : forall b, is_state b -> D (E b) = b).
Context (HT : forall j, is_state (T j)).

Lemma xex_inverse t s : is_state t -> is_state s -> xex D t (xex E t s) = s.
Proof.
  intros Ht Hs. unfold xex. pose proof (zip_state _ _ Hs Ht) as Hz. destruct (HE _ Hz) as [Hel _], Ht as [Htl _].
  rewrite zip_lxor_involutive by congruence. rewrite HD by exact Hz.
  apply zip_lxor_involutive. destruct Hs. congruence.
Qed.

Lemma xex_blocks_inverse n input :
  (16 * n <= length input)%nat -> byte_list input ->
  xex_blocks D T n (xex_blocks E T n input) = take (16 * n) input.
Proof.
  intros Hl Hb. induction n as [|n IH]; [rewrite take_0; reflexivity|].
  destruct (xex_blocks_bytes E T n input HE HT ltac:(lia) Hb) as [Hxl _].
  pose proof (block_state n (S n) input Hl ltac:(lia) Hb) as Hs.
  rewrite (xex_blocks_S D), xex_blocks_S, xex_blocks_app, IH by (auto; lia).
  unfold block at 1. rewrite drop_app_length' by auto.
  rewrite (take_ge (xex E _ _)) by (destruct (xex_state E (T n) _ HE (HT n) Hs); lia).
  rewrite xex_inverse by auto. replace (16 * S n)%nat with (16 * n + 16)%nat by lia.
  apply take_take_drop.
Qed.

Lemma ieee1619_inverse input :
  (16 <= length input)%nat -> byte_list input ->
  ieee1619_decrypt D T (ieee1619_encrypt E T input) = input /\
  length (ieee1619_encrypt E T input) = length input /\ byte_list (ieee1619_encrypt E T input).
Proof.
  intros Hlen Hb. destruct (split_length input Hlen) as (n & Hn & Hl & Hr).
  unfold ieee1619_encrypt. rewrite Hn. destruct (Nat.eqb_spec (length input mod 16) 0) as [H0|Hne].
  - destruct (xex_blocks_bytes E T (S n) input HE HT ltac:(lia) Hb) as [Hxl Hxb].
    split; [|split; [lia|exact Hxb]]. unfold ieee1619_decrypt. rewrite Hxl.
    replace (16 * S n)%nat with (length input) by lia. rewrite Hn, H0. cbn [Nat.eqb].
    rewrite xex_blocks_inverse by (auto; lia). apply take_ge. lia.
  - cbn [Nat.sub]. rewrite Nat.sub_0_r. set (r := (length input mod 16)%nat) in *.
    destruct (xex_blocks_bytes E T n input HE HT ltac:(lia) Hb) as [Hxl Hxb].
    pose proof (block_state n (S n) input ltac:(lia) ltac:(lia) Hb) as Hs.
    pose proof (xex_state E (T n) _ HE (HT n) Hs) as HCC. set (CC := xex E (T n) (block n input)) in *.
    destruct HCC as [HCl HCb]. set (P := drop (16 * S n) input).
    assert (HPl : length P = r) by (unfold P; rewrite length_drop; lia).
    assert (HPb : byte_list P) by apply Forall_drop, Hb.
    assert (Hm : is_state (P ++ drop r CC)).
    { split; [rewrite length_app, length_drop; lia|apply Forall_app; split; [exact HPb|apply Forall_drop, HCb]]. }
    pose proof (xex_state E (T (S n)) _ HE (HT (S n)) Hm) as [HBl HBb]. set (B := xex E (T (S n)) (P ++ drop r CC)) in *.
    set (A := xex_blocks E T n input) in *. assert (Hout : length (A ++ B ++ take r CC) = length input).
    { rewrite !length_app, length_take. lia. }
    split; [|split; [exact Hout|repeat (apply Forall_app; split); try assumption; apply Forall_take, HCb]].
    unfold ieee1619_decrypt. rewrite Hout, Hn. fold r. destruct (Nat.eqb_spec r 0); [contradiction|].
    cbn [Nat.sub]. rewrite Nat.sub_0_r.
    assert (HB : block n (A ++ B ++ take r CC) = B)
      by (unfold block; rewrite drop_app_length', take_app_length' by auto; reflexivity).
    assert (HC : drop (16 * S n) (A ++ B ++ take r CC) = take r CC)
      by (rewrite app_assoc; apply drop_app_length'; rewrite length_app; lia).
    assert (HPP : xex D (T (S n)) B = P ++ drop r CC) by (apply xex_inverse; auto).
    rewrite HB, HC, HPP, drop_app_length', take_app_length', take_drop, xex_blocks_app by auto.
    unfold CC. rewrite xex_inverse by auto. unfold A. rewrite xex_blocks_inverse by (auto; lia).
    unfold block. rewrite (app_assoc (take _ _)), take_take_drop. replace (16 * n + 16)%nat with (16 * S n)%nat by lia.
    apply take_drop.
Qed.

End inverse.

(** ** Keyed contexts *)

(** Two keys of [4 * Nk] bytes one after the other; XTS has no keys of 192 bits. *)
Definition xts_key (Nk : nat) (key : list Z) : Prop :=
  (Nk = 4%nat \/ Nk = 8%nat) /\ length key = (8 * Nk)%nat /\ byte_list key.

Lemma decode_keys_spec Nk key :
  xts_key Nk key ->
  mbedtls_aes_xts_decode_keys key (64 * Z.of_nat Nk) = inr (take (4 * Nk) key, drop (4 * Nk) key, 32 * Z.of_nat Nk) /\
  aes_key Nk (take (4 * Nk) key) /\ aes_key Nk (drop (4 * Nk) key).
Proof.
  intros (HNk & Hl & Hb).
  split; [destruct HNk as [-> | ->]; reflexivity|]. unfold aes_key, key_size.
  rewrite length_take, length_drop. split; (split; [tauto|split; [lia|]]); [apply Forall_take, Hb|apply Forall_drop, Hb].
Qed.

(** A context keyed either way computes the tweaks and the blocks of its keys. *)
Lemma xts_setkey_spec setkey mode F Nk st ctx key :
  (forall st c k, aes_key Nk k -> statics_ok st -> length (buf c) = 68%nat ->
     exists c', setkey st c k (32 * Z.of_nat Nk) = (0, aes_ready, c') /\ computes aes_ready c' mode (F k)) ->
  xts_key Nk key -> statics_ok st -> length (buf (crypt ctx)) = 68%nat -> length (buf (tweak ctx)) = 68%nat ->
  exists ctx', xts_setkey setkey st ctx key (64 * Z.of_nat Nk) = (0, aes_ready, ctx') /\
    computes aes_ready (tweak ctx') MBEDTLS_AES_ENCRYPT (fips_encrypt Nk (drop (4 * Nk) key)) /\
    computes aes_ready (crypt ctx') mode (F (take (4 * Nk) key)).
Proof.
  intros Hset Hk Hst Hc Ht. destruct (decode_keys_spec Nk key Hk) as (Hd & Hk1 & Hk2).
  unfold xts_setkey. rewrite Hd. destruct (enc_computes Nk st (tweak ctx) _ Hk2 Hst Ht) as (t & -> & Htc).
  cbn [Z.eqb negb]. destruct (Hset aes_ready (crypt ctx) _ Hk1 ltac:(right; reflexivity) Hc) as (c & -> & Hcc).
  eexists. split; [reflexivity|]. auto.
Qed.

(** What the standard makes of a message under a pair of keys. *)
Definition xts_cipher (Nk : nat) (key data_unit input : list Z) : list Z :=
  ieee1619_encrypt (fips_encrypt Nk (take (4 * Nk) key))
    (tweak_at (fips_encrypt Nk (drop (4 * Nk) key) data_unit)) input.

Lemma xts_keyed_enc Nk st key :
  xts_key Nk key -> statics_ok st ->
  exists ctx, mbedtls_aes_xts_setkey_enc st mbedtls_aes_xts_init key (64 * Z.of_nat Nk) = (0, aes_ready, ctx) /\
    forall data_unit input prev, is_state data_unit -> byte_list input -> data_unit_length input ->
    mbedtls_aes_crypt_xts aes_ready ctx MBEDTLS_AES_ENCRYPT false data_unit input prev = (0, xts_cipher Nk key data_unit input).
Proof.
  intros Hk Hst. destruct (xts_setkey_spec _ _ (fips_encrypt Nk) Nk st mbedtls_aes_xts_init key
    (fun s c k => enc_computes Nk s c k) Hk Hst eq_refl eq_refl) as (ctx & Heq & Ht & Hc).
  exists ctx. split; [exact Heq|]. intros data_unit input prev Hd Hb Hl.
  apply (crypt_xts_encrypts aes_ready ctx _ (fips_encrypt Nk (drop (4 * Nk) key))); assumption.
Qed.

Lemma xts_keyed_dec Nk st key :
  xts_key Nk key -> statics_ok st ->
  exists ctx, mbedtls_aes_xts_setkey_dec st mbedtls_aes_xts_init key (64 * Z.of_nat Nk) = (0, aes_ready, ctx) /\
    forall data_unit input prev, is_state data_unit -> byte_list input -> data_unit_length input ->
    mbedtls_aes_crypt_xts aes_ready ctx MBEDTLS_AES_DECRYPT false data_unit (xts_cipher Nk key data_unit input) prev = (0, input) /\
    length (xts_cipher Nk key data_unit input) = length input.
Proof.
  intros Hk Hst. destruct (xts_setkey_spec _ _ (fips_decrypt Nk) Nk st mbedtls_aes_xts_init key
    (fun s c k => dec_computes Nk s c k) Hk Hst eq_refl eq_refl) as (ctx & Heq & Ht & Hc).
  exists ctx. split; [exact Heq|]. intros data_unit input prev Hd Hb Hlen.
  pose proof (proj1 (proj2 (decode_keys_spec Nk key Hk))) as Hk1.
  destruct (enc_computes Nk aes_statics_init mbedtls_aes_init _ Hk1 (or_introl eq_refl) eq_refl) as (o & _ & He).
  destruct (ieee1619_inverse (fips_encrypt Nk (take (4 * Nk) key)) (fips_decrypt Nk (take (4 * Nk) key))
    (tweak_at (fips_encrypt Nk (drop (4 * Nk) key) data_unit)) (fun b Hs => proj2 (He b Hs))
    (fun b => fips_decrypt_encrypt Nk _ b Hk1) (tweak_at_state _) input (proj1 Hlen) Hb) as (Hinv & Hcl & Hcb).
  fold (xts_cipher Nk key data_unit input) in Hinv, Hcl, Hcb. split; [|exact Hcl].
  rewrite (crypt_xts_decrypts aes_ready ctx (fips_decrypt Nk (take (4 * Nk) key)) (fips_encrypt Nk (drop (4 * Nk) key))); auto.
  - rewrite Hinv. reflexivity.
  - unfold data_unit_length. rewrite Hcl. exact Hlen.
Qed.

(** C27. XTS is IEEE 1619 over FIPS 197, for both key sizes and every length it accepts,
    and a context keyed for decryption gives the message back. *)
Theorem xts_is_ieee1619 Nk st st' key data_unit input prev prev' :
  xts_key Nk key -> statics_ok st -> statics_ok st' -> is_state data_unit -> byte_list input -> data_unit_length input ->
  let '(ret1, st1, ectx) := mbedtls_aes_xts_setkey_enc st mbedtls_aes_xts_init key (64 * Z.of_nat Nk) in
  let '(ret2, st2, dctx) := mbedtls_aes_xts_setkey_dec st' mbedtls_aes_xts_init key (64 * Z.of_nat Nk) in
  let cipher := xts_cipher Nk key data_unit input in
  ret1 = 0 /\ ret2 = 0 /\
  mbedtls_aes_crypt_xts st1 ectx MBEDTLS_AES_ENCRYPT false data_unit input prev = (0, cipher) /\
  mbedtls_aes_crypt_xts st2 dctx MBEDTLS_AES_DECRYPT false data_unit cipher prev' = (0, input).
Proof.
  intros Hk Hst Hst' Hd Hb Hlen. destruct (xts_keyed_enc Nk st key Hk Hst) as (ectx & -> & He).
  destruct (xts_keyed_dec Nk st' key Hk Hst') as (dctx & -> & Hde). cbv zeta.
  split; [reflexivity|]. split; [reflexivity|]. split; [apply He; assumption|apply Hde; assumption].
Qed.

Lemma xts_is_ieee1619_witness :
  let '(ret1, st1, ectx) := mbedtls_aes_xts_setkey_enc aes_statics_init mbedtls_aes_xts_init (zeros 32) 256 in
  let '(ret2, st2, dctx) := mbedtls_aes_xts_setkey_dec aes_statics_init mbedtls_aes_xts_init (zeros 32) 256 in
  let cipher := xts_cipher 4 (zeros 32) (zeros 16) (zeros 20) in
  ret1 = 0 /\ ret2 = 0 /\
  mbedtls_aes_crypt_xts st1 ectx MBEDTLS_AES_ENCRYPT false (zeros 16) (zeros 20) [] = (0, cipher) /\
  mbedtls_aes_crypt_xts st2 dctx MBEDTLS_AES_DECRYPT false (zeros 16) cipher [] = (0, zeros 20).
Proof.
  apply (xts_is_ieee1619 4 aes_statics_init aes_statics_init (zeros 32) (zeros 16) (zeros 20) [] []).
  - split; [left; reflexivity|]. split; [reflexivity|apply zeros_bytes].
  - left. reflexivity.
  - left. reflexivity.
  - split; [reflexivity|apply zeros_bytes].
  - apply zeros_bytes.
  - split; [apply Nat.leb_le; reflexivity|discriminate].
Defined.

(** Data units of the wrong length are refused, whatever the keys. *)
Lemma xts_refuses st ctx mode in_place data_unit input prev :
  ~ data_unit_length input ->
  mbedtls_aes_crypt_xts st ctx mode in_place data_unit input prev = (MBEDTLS_ERR_AES_INVALID_INPUT_LENGTH, []).
Proof.
  intros H. unfold mbedtls_aes_crypt_xts. destruct (Nat.ltb_spec (length input) 16); [reflexivity|].
  destruct (Z.ltb_spec (Z.shiftl 1 20 * 16) (Z.of_nat (length input))) as [|H3]; [reflexivity|].
  change (Z.shiftl 1 20 * 16) with (2 ^ 24) in H3. contradiction H. split; assumption.
Qed.

(** ** In place *)

(** The loop reads the full blocks only. *)
Lemma xts_blocks_prefix st ctx mode leftover n t prev a b :
  length a = (16 * n)%nat ->
  xts_blocks st ctx mode leftover n t prev (a ++ b) = xts_blocks st ctx mode leftover n t prev a.
Proof.
  revert t prev a. induction n as [|n IH]; intros t prev a Hl; [reflexivity|]. cbn [xts_blocks].
  rewrite take_app_le, drop_app_le by lia.
  destruct (negb (leftover =? 0)%nat && (mode =? MBEDTLS_AES_DECRYPT) && (n =? 0)%nat);
    destruct (mbedtls_aes_crypt_ecb _ _ _ _) as [ret tmp]; rewrite IH by (rewrite length_drop; lia); reflexivity.
Qed.

(** With [input == output] a last partial block is overwritten before it is read:
    two messages that differ there only have the same ciphertext, and none of
    them can be recovered.  (mbedtls_cipher_update refuses such a call.) *)
Theorem xts_in_place_loses_tail st ctx mode data_unit blocks tail tail' prev :
  (length blocks mod 16 = 0)%nat -> length tail = length tail' -> (length tail < 16)%nat ->
  mbedtls_aes_crypt_xts st ctx mode true data_unit (blocks ++ tail) prev =
  mbedtls_aes_crypt_xts st ctx mode true data_unit (blocks ++ tail') prev.
Proof.
  intros H0 Heq Hlt. unfold mbedtls_aes_crypt_xts, xts_steal. rewrite !length_app, Heq, !length_drop, !length_app, Heq.
  pose proof (Nat.div_mod_eq (length blocks) 16) as Hdiv.
  assert (Hq : ((length blocks + length tail') / 16 = length blocks / 16)%nat).
  { rewrite Hdiv at 1. rewrite H0, Nat.add_0_r, (Nat.mul_comm 16), Nat.div_add_l by lia.
    rewrite (Nat.div_small (length tail')) by lia. lia. }
  rewrite Hq. destruct (mbedtls_aes_crypt_ecb st (tweak ctx) _ _) as [r t].
  rewrite !xts_blocks_prefix by lia. reflexivity.
Qed.

Lemma xts_in_place_loses_tail_witness :
  let '(_, st, ctx) := mbedtls_aes_xts_setkey_enc aes_statics_init mbedtls_aes_xts_init (zeros 32) 256 in
  mbedtls_aes_crypt_xts st ctx MBEDTLS_AES_ENCRYPT true (zeros 16) (zeros 16 ++ [1; 2]) [] =
  mbedtls_aes_crypt_xts st ctx MBEDTLS_AES_ENCRYPT true (zeros 16) (zeros 16 ++ [3; 4]) [].
Proof.
  destruct (mbedtls_aes_xts_setkey_enc aes_statics_init mbedtls_aes_xts_init (zeros 32) 256) as [[r st] ctx].
  apply (xts_in_place_loses_tail st ctx MBEDTLS_AES_ENCRYPT (zeros 16) (zeros 16) [1; 2] [3; 4] []);
    [reflexivity|reflexivity|apply Nat.ltb_lt; reflexivity].
Defined.

End aes_xts.
