(* ===== verification/Cipher.v ===== *)
(** The cipher layer of mbedTLS (lib/mbedtls/library/cipher.c, and the AES part
    of cipher_wrap.c) as the Makefile configures it: AES in the modes ECB, CTR and
    CCM.  A cipher context holds a cipher-specific object and reaches it through
    the functions of the cipher's base; the object is abstract here, the
    functions are the class [CipherObject], and an AES context is the first
    instance (CipherAead has CCM contexts). *)

From S2P Require Import Prelude MbedCommon Aes AesFips AesInverse AesCtr.
Import mbed aes aes_fips aes_keys aes_inverse aes_ctr.

Module cipher.

Inductive mbedtls_cipher_id_t :=
| MBEDTLS_CIPHER_ID_NONE | MBEDTLS_CIPHER_ID_NULL | MBEDTLS_CIPHER_ID_AES | MBEDTLS_CIPHER_ID_DES
| MBEDTLS_CIPHER_ID_3DES | MBEDTLS_CIPHER_ID_CAMELLIA | MBEDTLS_CIPHER_ID_BLOWFISH
| MBEDTLS_CIPHER_ID_ARC4 | MBEDTLS_CIPHER_ID_ARIA | MBEDTLS_CIPHER_ID_CHACHA20.

Inductive mbedtls_cipher_type_t :=
| MBEDTLS_CIPHER_NONE | MBEDTLS_CIPHER_NULL | MBEDTLS_CIPHER_AES_128_ECB
| MBEDTLS_CIPHER_AES_192_ECB | MBEDTLS_CIPHER_AES_256_ECB | MBEDTLS_CIPHER_AES_128_CBC
| MBEDTLS_CIPHER_AES_192_CBC | MBEDTLS_CIPHER_AES_256_CBC | MBEDTLS_CIPHER_AES_128_CFB128
| MBEDTLS_CIPHER_AES_192_CFB128 | MBEDTLS_CIPHER_AES_256_CFB128 | MBEDTLS_CIPHER_AES_128_CTR
| MBEDTLS_CIPHER_AES_192_CTR | MBEDTLS_CIPHER_AES_256_CTR | MBEDTLS_CIPHER_AES_128_GCM
| MBEDTLS_CIPHER_AES_192_GCM | MBEDTLS_CIPHER_AES_256_GCM | MBEDTLS_CIPHER_CAMELLIA_128_ECB
| MBEDTLS_CIPHER_CAMELLIA_192_ECB | MBEDTLS_CIPHER_CAMELLIA_256_ECB
| MBEDTLS_CIPHER_CAMELLIA_128_CBC | MBEDTLS_CIPHER_CAMELLIA_192_CBC
| MBEDTLS_CIPHER_CAMELLIA_256_CBC | MBEDTLS_CIPHER_CAMELLIA_128_CFB128
| MBEDTLS_CIPHER_CAMELLIA_192_CFB128 | MBEDTLS_CIPHER_CAMELLIA_256_CFB128
| MBEDTLS_CIPHER_CAMELLIA_128_CTR | MBEDTLS_CIPHER_CAMELLIA_192_CTR
| MBEDTLS_CIPHER_CAMELLIA_256_CTR | MBEDTLS_CIPHER_CAMELLIA_128_GCM
| MBEDTLS_CIPHER_CAMELLIA_192_GCM | MBEDTLS_CIPHER_CAMELLIA_256_GCM | MBEDTLS_CIPHER_DES_ECB
| MBEDTLS_CIPHER_DES_CBC | MBEDTLS_CIPHER_DES_EDE_ECB | MBEDTLS_CIPHER_DES_EDE_CBC
| MBEDTLS_CIPHER_DES_EDE3_ECB | MBEDTLS_CIPHER_DES_EDE3_CBC | MBEDTLS_CIPHER_BLOWFISH_ECB
| MBEDTLS_CIPHER_BLOWFISH_CBC | MBEDTLS_CIPHER_BLOWFISH_CFB64 | MBEDTLS_CIPHER_BLOWFISH_CTR
| MBEDTLS_CIPHER_ARC4_128 | MBEDTLS_CIPHER_AES_128_CCM | MBEDTLS_CIPHER_AES_192_CCM
| MBEDTLS_CIPHER_AES_256_CCM | MBEDTLS_CIPHER_CAMELLIA_128_CCM | MBEDTLS_CIPHER_CAMELLIA_192_CCM
| MBEDTLS_CIPHER_CAMELLIA_256_CCM | MBEDTLS_CIPHER_ARIA_128_ECB | MBEDTLS_CIPHER_ARIA_192_ECB
| MBEDTLS_CIPHER_ARIA_256_ECB | MBEDTLS_CIPHER_ARIA_128_CBC | MBEDTLS_CIPHER_ARIA_192_CBC
| MBEDTLS_CIPHER_ARIA_256_CBC | MBEDTLS_CIPHER_ARIA_128_CFB128 | MBEDTLS_CIPHER_ARIA_192_CFB128
| MBEDTLS_CIPHER_ARIA_256_CFB128 | MBEDTLS_CIPHER_ARIA_128_CTR | MBEDTLS_CIPHER_ARIA_192_CTR
| MBEDTLS_CIPHER_ARIA_256_CTR | MBEDTLS_CIPHER_ARIA_128_GCM | MBEDTLS_CIPHER_ARIA_192_GCM
| MBEDTLS_CIPHER_ARIA_256_GCM | MBEDTLS_CIPHER_ARIA_128_CCM | MBEDTLS_CIPHER_ARIA_192_CCM
| MBEDTLS_CIPHER_ARIA_256_CCM | MBEDTLS_CIPHER_AES_128_OFB | MBEDTLS_CIPHER_AES_192_OFB
| MBEDTLS_CIPHER_AES_256_OFB | MBEDTLS_CIPHER_AES_128_XTS | MBEDTLS_CIPHER_AES_256_XTS
| MBEDTLS_CIPHER_CHACHA20 | MBEDTLS_CIPHER_CHACHA20_POLY1305 | MBEDTLS_CIPHER_AES_128_KW
| MBEDTLS_CIPHER_AES_192_KW | MBEDTLS_CIPHER_AES_256_KW | MBEDTLS_CIPHER_AES_128_KWP
| MBEDTLS_CIPHER_AES_192_KWP | MBEDTLS_CIPHER_AES_256_KWP.

Inductive mbedtls_cipher_mode_t :=
| MBEDTLS_MODE_NONE | MBEDTLS_MODE_ECB | MBEDTLS_MODE_CBC | MBEDTLS_MODE_CFB | MBEDTLS_MODE_OFB
| MBEDTLS_MODE_CTR | MBEDTLS_MODE_GCM | MBEDTLS_MODE_STREAM | MBEDTLS_MODE_CCM | MBEDTLS_MODE_XTS
| MBEDTLS_MODE_CHACHAPOLY | MBEDTLS_MODE_KW | MBEDTLS_MODE_KWP.

Inductive mbedtls_operation_t := MBEDTLS_OPERATION_NONE | MBEDTLS_DECRYPT | MBEDTLS_ENCRYPT.

Definition operation_value (op : mbedtls_operation_t) : Z :=
  match op with MBEDTLS_OPERATION_NONE => -1 | MBEDTLS_DECRYPT => 0 | MBEDTLS_ENCRYPT => 1 end.

#[export] Instance operation_eq_dec : EqDecision mbedtls_operation_t.
Proof. solve_decision. Defined.

#[export] Instance cipher_id_eq_dec : EqDecision mbedtls_cipher_id_t.
Proof. solve_decision. Defined.
#[export] Instance cipher_mode_eq_dec : EqDecision mbedtls_cipher_mode_t.
Proof. solve_decision. Defined.

(** The enumerators' values, by which C compares them. *)
Definition cipher_type_value (t : mbedtls_cipher_type_t) : Z :=
  match t with
  | MBEDTLS_CIPHER_NONE => 0 | MBEDTLS_CIPHER_NULL => 1 | MBEDTLS_CIPHER_AES_128_ECB => 2
  | MBEDTLS_CIPHER_AES_192_ECB => 3 | MBEDTLS_CIPHER_AES_256_ECB => 4
  | MBEDTLS_CIPHER_AES_128_CBC => 5 | MBEDTLS_CIPHER_AES_192_CBC => 6
  | MBEDTLS_CIPHER_AES_256_CBC => 7 | MBEDTLS_CIPHER_AES_128_CFB128 => 8
  | MBEDTLS_CIPHER_AES_192_CFB128 => 9 | MBEDTLS_CIPHER_AES_256_CFB128 => 10
  | MBEDTLS_CIPHER_AES_128_CTR => 11 | MBEDTLS_CIPHER_AES_192_CTR => 12
  | MBEDTLS_CIPHER_AES_256_CTR => 13 | MBEDTLS_CIPHER_AES_128_GCM => 14
  | MBEDTLS_CIPHER_AES_192_GCM => 15 | MBEDTLS_CIPHER_AES_256_GCM => 16
  | MBEDTLS_CIPHER_CAMELLIA_128_ECB => 17 | MBEDTLS_CIPHER_CAMELLIA_192_ECB => 18
  | MBEDTLS_CIPHER_CAMELLIA_256_ECB => 19 | MBEDTLS_CIPHER_CAMELLIA_128_CBC => 20
  | MBEDTLS_CIPHER_CAMELLIA_192_CBC => 21 | MBEDTLS_CIPHER_CAMELLIA_256_CBC => 22
  | MBEDTLS_CIPHER_CAMELLIA_128_CFB128 => 23 | MBEDTLS_CIPHER_CAMELLIA_192_CFB128 => 24
  | MBEDTLS_CIPHER_CAMELLIA_256_CFB128 => 25 | MBEDTLS_CIPHER_CAMELLIA_128_CTR => 26
  | MBEDTLS_CIPHER_CAMELLIA_192_CTR => 27 | MBEDTLS_CIPHER_CAMELLIA_256_CTR => 28
  | MBEDTLS_CIPHER_CAMELLIA_128_GCM => 29 | MBEDTLS_CIPHER_CAMELLIA_192_GCM => 30
  | MBEDTLS_CIPHER_CAMELLIA_256_GCM => 31 | MBEDTLS_CIPHER_DES_ECB => 32
  | MBEDTLS_CIPHER_DES_CBC => 33 | MBEDTLS_CIPHER_DES_EDE_ECB => 34
  | MBEDTLS_CIPHER_DES_EDE_CBC => 35 | MBEDTLS_CIPHER_DES_EDE3_ECB => 36
  | MBEDTLS_CIPHER_DES_EDE3_CBC => 37 | MBEDTLS_CIPHER_BLOWFISH_ECB => 38
  | MBEDTLS_CIPHER_BLOWFISH_CBC => 39 | MBEDTLS_CIPHER_BLOWFISH_CFB64 => 40
  | MBEDTLS_CIPHER_BLOWFISH_CTR => 41 | MBEDTLS_CIPHER_ARC4_128 => 42
  | MBEDTLS_CIPHER_AES_128_CCM => 43 | MBEDTLS_CIPHER_AES_192_CCM => 44
  | MBEDTLS_CIPHER_AES_256_CCM => 45 | MBEDTLS_CIPHER_CAMELLIA_128_CCM => 46
  | MBEDTLS_CIPHER_CAMELLIA_192_CCM => 47 | MBEDTLS_CIPHER_CAMELLIA_256_CCM => 48
  | MBEDTLS_CIPHER_ARIA_128_ECB => 49 | MBEDTLS_CIPHER_ARIA_192_ECB => 50
  | MBEDTLS_CIPHER_ARIA_256_ECB => 51 | MBEDTLS_CIPHER_ARIA_128_CBC => 52
  | MBEDTLS_CIPHER_ARIA_192_CBC => 53 | MBEDTLS_CIPHER_ARIA_256_CBC => 54
  | MBEDTLS_CIPHER_ARIA_128_CFB128 => 55 | MBEDTLS_CIPHER_ARIA_192_CFB128 => 56
  | MBEDTLS_CIPHER_ARIA_256_CFB128 => 57 | MBEDTLS_CIPHER_ARIA_128_CTR => 58
  | MBEDTLS_CIPHER_ARIA_192_CTR => 59 | MBEDTLS_CIPHER_ARIA_256_CTR => 60
  | MBEDTLS_CIPHER_ARIA_128_GCM => 61 | MBEDTLS_CIPHER_ARIA_192_GCM => 62
  | MBEDTLS_CIPHER_ARIA_256_GCM => 63 | MBEDTLS_CIPHER_ARIA_128_CCM => 64
  | MBEDTLS_CIPHER_ARIA_192_CCM => 65 | MBEDTLS_CIPHER_ARIA_256_CCM => 66
  | MBEDTLS_CIPHER_AES_128_OFB => 67 | MBEDTLS_CIPHER_AES_192_OFB => 68
  | MBEDTLS_CIPHER_AES_256_OFB => 69 | MBEDTLS_CIPHER_AES_128_XTS => 70
  | MBEDTLS_CIPHER_AES_256_XTS => 71 | MBEDTLS_CIPHER_CHACHA20 => 72
  | MBEDTLS_CIPHER_CHACHA20_POLY1305 => 73 | MBEDTLS_CIPHER_AES_128_KW => 74
  | MBEDTLS_CIPHER_AES_192_KW => 75 | MBEDTLS_CIPHER_AES_256_KW => 76
  | MBEDTLS_CIPHER_AES_128_KWP => 77 | MBEDTLS_CIPHER_AES_192_KWP => 78
  | MBEDTLS_CIPHER_AES_256_KWP => 79
  end.

(** [mbedtls_cipher_base_t], the functions aside: which cipher it is.  The build has
    no [xts_aes_info]. *)
Inductive mbedtls_cipher_base_t := aes_info | xts_aes_info | ccm_aes_info.

#[export] Instance cipher_base_eq_dec : EqDecision mbedtls_cipher_base_t.
Proof. solve_decision. Defined.

(** [base->cipher] *)
Definition base_cipher (b : mbedtls_cipher_base_t) : mbedtls_cipher_id_t :=
  match b with aes_info | xts_aes_info | ccm_aes_info => MBEDTLS_CIPHER_ID_AES end.

Record mbedtls_cipher_info_t := {
  type : mbedtls_cipher_type_t;
  mode : mbedtls_cipher_mode_t;
  info_key_bitlen : Z;
  name : string;
  info_iv_size : nat;
  flags : Z;
  block_size : nat;
  base : mbedtls_cipher_base_t }.

Definition MBEDTLS_CIPHER_VARIABLE_IV_LEN : Z := 1.
Definition MBEDTLS_CIPHER_VARIABLE_KEY_LEN : Z := 2.
Definition MBEDTLS_MAX_IV_LENGTH : nat := 16.

Definition MBEDTLS_ERR_CIPHER_FEATURE_UNAVAILABLE : Z := -0x6080.
Definition MBEDTLS_ERR_CIPHER_BAD_INPUT_DATA : Z := -0x6100.
Definition MBEDTLS_ERR_CIPHER_ALLOC_FAILED : Z := -0x6180.
Definition MBEDTLS_ERR_CIPHER_FULL_BLOCK_EXPECTED : Z := -0x6280.
Definition MBEDTLS_ERR_CIPHER_AUTH_FAILED : Z := -0x6300.
Definition MBEDTLS_ERR_CIPHER_INVALID_CONTEXT : Z := -0x6380.

(** ** The supported ciphers (cipher_wrap.c) *)

Definition aes_128_ecb_info := Build_mbedtls_cipher_info_t
  MBEDTLS_CIPHER_AES_128_ECB MBEDTLS_MODE_ECB 128 "AES-128-ECB" 0 0 16 aes_info.
Definition aes_192_ecb_info := Build_mbedtls_cipher_info_t
  MBEDTLS_CIPHER_AES_192_ECB MBEDTLS_MODE_ECB 192 "AES-192-ECB" 0 0 16 aes_info.
Definition aes_256_ecb_info := Build_mbedtls_cipher_info_t
  MBEDTLS_CIPHER_AES_256_ECB MBEDTLS_MODE_ECB 256 "AES-256-ECB" 0 0 16 aes_info.
Definition aes_128_ctr_info := Build_mbedtls_cipher_info_t
  MBEDTLS_CIPHER_AES_128_CTR MBEDTLS_MODE_CTR 128 "AES-128-CTR" 16 0 16 aes_info.
Definition aes_192_ctr_info := Build_mbedtls_cipher_info_t
  MBEDTLS_CIPHER_AES_192_CTR MBEDTLS_MODE_CTR 192 "AES-192-CTR" 16 0 16 aes_info.
Definition aes_256_ctr_info := Build_mbedtls_cipher_info_t
  MBEDTLS_CIPHER_AES_256_CTR MBEDTLS_MODE_CTR 256 "AES-256-CTR" 16 0 16 aes_info.
Definition aes_128_ccm_info := Build_mbedtls_cipher_info_t
  MBEDTLS_CIPHER_AES_128_CCM MBEDTLS_MODE_CCM 128 "AES-128-CCM" 12 MBEDTLS_CIPHER_VARIABLE_IV_LEN 16 ccm_aes_info.
Definition aes_192_ccm_info := Build_mbedtls_cipher_info_t
  MBEDTLS_CIPHER_AES_192_CCM MBEDTLS_MODE_CCM 192 "AES-192-CCM" 12 MBEDTLS_CIPHER_VARIABLE_IV_LEN 16 ccm_aes_info.
Definition aes_256_ccm_info := Build_mbedtls_cipher_info_t
  MBEDTLS_CIPHER_AES_256_CCM MBEDTLS_MODE_CCM 256 "AES-256-CCM" 12 MBEDTLS_CIPHER_VARIABLE_IV_LEN 16 ccm_aes_info.

(** The table, up to its end mark. *)
Definition mbedtls_cipher_definitions : list (mbedtls_cipher_type_t * mbedtls_cipher_info_t) :=
  [(MBEDTLS_CIPHER_AES_128_ECB, aes_128_ecb_info); (MBEDTLS_CIPHER_AES_192_ECB, aes_192_ecb_info);
   (MBEDTLS_CIPHER_AES_256_ECB, aes_256_ecb_info);
   (MBEDTLS_CIPHER_AES_128_CTR, aes_128_ctr_info); (MBEDTLS_CIPHER_AES_192_CTR, aes_192_ctr_info);
   (MBEDTLS_CIPHER_AES_256_CTR, aes_256_ctr_info);
   (MBEDTLS_CIPHER_AES_128_CCM, aes_128_ccm_info); (MBEDTLS_CIPHER_AES_192_CCM, aes_192_ccm_info);
   (MBEDTLS_CIPHER_AES_256_CCM, aes_256_ccm_info)].

(** [supported_init] and [mbedtls_cipher_supported]: the list is filled on the
    first call. *)
Record cipher_statics := {
  supported_init : Z;
  mbedtls_cipher_supported : list Z }.

Definition cipher_statics_init : cipher_statics :=
  {| supported_init := 0; mbedtls_cipher_supported := zeros 10 |}.

Definition mbedtls_cipher_list (s : cipher_statics) : list Z * cipher_statics :=
  let s :=
    if supported_init s =? 0
    then {| supported_init := 1;
            mbedtls_cipher_supported :=
              blit (map (fun def => cipher_type_value (fst def)) mbedtls_cipher_definitions ++ [0])
                (mbedtls_cipher_supported s) |}
    else s in
  (mbedtls_cipher_supported s, s).

Definition mbedtls_cipher_info_from_type (cipher_type : mbedtls_cipher_type_t) : option mbedtls_cipher_info_t :=
  snd <$> find_first (fun def => cipher_type_value (fst def) =? cipher_type_value cipher_type)
            mbedtls_cipher_definitions.

Definition mbedtls_cipher_info_from_string (cipher_name : option string) : option mbedtls_cipher_info_t :=
  match cipher_name with
  | None => None
  | Some cipher_name =>
      snd <$> find_first (fun def => String.eqb (name (snd def)) cipher_name) mbedtls_cipher_definitions
  end.

Definition mbedtls_cipher_info_from_values (cipher_id : mbedtls_cipher_id_t) (key_bitlen : Z)
  (mode_ : mbedtls_cipher_mode_t) : option mbedtls_cipher_info_t :=
  snd <$> find_first (fun def =>
      bool_decide (base_cipher (base (snd def)) = cipher_id) &&
      (info_key_bitlen (snd def) =? u32 key_bitlen) && bool_decide (mode (snd def) = mode_))
    mbedtls_cipher_definitions.

(** ** Objects and contexts *)

(** The functions of a base, on the objects it allocates; the statics of aes.c
    pass through them.  A missing [ctr_func] or [ecb_func] is a NULL entry, which
    the modes of the table never call. *)
Class CipherObject (Obj : Type) := {
  ecb_func : mbedtls_cipher_base_t -> aes_statics -> Obj -> mbedtls_operation_t -> list Z -> Z * list Z;
  ctr_func : mbedtls_cipher_base_t -> aes_statics -> Obj -> ctr_state -> list Z -> Z * ctr_state * list Z;
  setkey_enc_func : mbedtls_cipher_base_t -> aes_statics -> Obj -> list Z -> Z -> Z * aes_statics * Obj;
  setkey_dec_func : mbedtls_cipher_base_t -> aes_statics -> Obj -> list Z -> Z -> Z * aes_statics * Obj;
  ctx_alloc_func : mbedtls_cipher_base_t -> option Obj }.

Record mbedtls_cipher_context_t (Obj : Type) := {
  cipher_info : option mbedtls_cipher_info_t;
  key_bitlen : Z;
  operation : mbedtls_operation_t;
  unprocessed_data : list Z;
  unprocessed_len : nat;
  iv : list Z;
  iv_size : nat;
  cipher_ctx : option Obj }.

#[global] Arguments cipher_info {Obj}.
#[global] Arguments key_bitlen {Obj}.
#[global] Arguments operation {Obj}.
#[global] Arguments unprocessed_data {Obj}.
#[global] Arguments unprocessed_len {Obj}.
#[global] Arguments iv {Obj}.
#[global] Arguments iv_size {Obj}.
#[global] Arguments cipher_ctx {Obj}.

#[export] Instance eta_cipher_context Obj : Eta (mbedtls_cipher_context_t Obj) :=
  fun r => Build_mbedtls_cipher_context_t Obj (cipher_info r) (key_bitlen r) (operation r)
             (unprocessed_data r) (unprocessed_len r) (iv r) (iv_size r) (cipher_ctx r).

Section operations.
Context {Obj : Type} `{CipherObject Obj}.
Implicit Types (ctx : mbedtls_cipher_context_t Obj) (st : aes_statics).

(** [memset(ctx, 0, sizeof( *ctx ))]; 0 is [MBEDTLS_DECRYPT]. *)
Definition mbedtls_cipher_init : mbedtls_cipher_context_t Obj :=
  {| cipher_info := None; key_bitlen := 0; operation := MBEDTLS_DECRYPT;
     unprocessed_data := zeros 16; unprocessed_len := 0; iv := zeros 16; iv_size := 0;
     cipher_ctx := None |}.

(** The object is freed and the context zeroed. *)
Definition mbedtls_cipher_free (ctx : mbedtls_cipher_context_t Obj) : mbedtls_cipher_context_t Obj :=
  mbedtls_cipher_init.

(** [alloc] is the outcome of the allocation. *)
Definition mbedtls_cipher_setup (alloc : bool) (ctx : mbedtls_cipher_context_t Obj)
  (info : option mbedtls_cipher_info_t) : Z * mbedtls_cipher_context_t Obj :=
  match info with
  | None => (MBEDTLS_ERR_CIPHER_BAD_INPUT_DATA, ctx)
  | Some info =>
      let ctx := mbedtls_cipher_init in
      match (if alloc then ctx_alloc_func (base info) else None) with
      | None => (MBEDTLS_ERR_CIPHER_ALLOC_FAILED, ctx)
      | Some o => (0, ctx <| cipher_ctx := Some o |> <| cipher_info := Some info |>)
      end
  end.

(** A context that is set up: its information block and its object.  (C tests the
    first only; [mbedtls_cipher_setup] sets both or neither.) *)
Definition with_cipher {A} (ctx : mbedtls_cipher_context_t Obj) (bad : A)
  (f : mbedtls_cipher_info_t -> Obj -> A) : A :=
  match cipher_info ctx, cipher_ctx ctx with
  | Some info, Some o => f info o
  | _, _ => bad
  end.

Definition mbedtls_cipher_setkey (st : aes_statics) (ctx : mbedtls_cipher_context_t Obj) (key : list Z)
  (key_bitlen_ : Z) (op : mbedtls_operation_t) : Z * aes_statics * mbedtls_cipher_context_t Obj :=
  with_cipher ctx (MBEDTLS_ERR_CIPHER_BAD_INPUT_DATA, st, ctx) (fun info o =>
    if (Z.land (flags info) MBEDTLS_CIPHER_VARIABLE_KEY_LEN =? 0) && negb (info_key_bitlen info =? key_bitlen_)
    then (MBEDTLS_ERR_CIPHER_BAD_INPUT_DATA, st, ctx)
    else
      let ctx := ctx <| key_bitlen := key_bitlen_ |> <| operation := op |> in
      if bool_decide (op = MBEDTLS_ENCRYPT) || bool_decide (mode info = MBEDTLS_MODE_CFB) ||
         bool_decide (mode info = MBEDTLS_MODE_OFB) || bool_decide (mode info = MBEDTLS_MODE_CTR)
      then
        let '(ret, st, o) := setkey_enc_func (base info) st o key key_bitlen_ in
        (ret, st, ctx <| cipher_ctx := Some o |>)
      else if bool_decide (op = MBEDTLS_DECRYPT)
      then
        let '(ret, st, o) := setkey_dec_func (base info) st o key key_bitlen_ in
        (ret, st, ctx <| cipher_ctx := Some o |>)
      else (MBEDTLS_ERR_CIPHER_BAD_INPUT_DATA, st, ctx)).

Definition mbedtls_cipher_set_iv (ctx : mbedtls_cipher_context_t Obj) (iv_ : list Z)
  : Z * mbedtls_cipher_context_t Obj :=
  match cipher_info ctx with
  | None => (MBEDTLS_ERR_CIPHER_BAD_INPUT_DATA, ctx)
  | Some info =>
      if (MBEDTLS_MAX_IV_LENGTH <? length iv_)%nat then (MBEDTLS_ERR_CIPHER_FEATURE_UNAVAILABLE, ctx)
      else
        let variable := negb (Z.land (flags info) MBEDTLS_CIPHER_VARIABLE_IV_LEN =? 0) in
        let actual_iv_size := if variable then length iv_ else info_iv_size info in
        if negb variable && (length iv_ <? actual_iv_size)%nat
        then (MBEDTLS_ERR_CIPHER_BAD_INPUT_DATA, ctx)
        else if (actual_iv_size =? 0)%nat then (0, ctx)
        else (0, ctx <| iv := memcpy_at 0 (take actual_iv_size iv_) (iv ctx) |>
                     <| iv_size := actual_iv_size |>)
  end.

Definition mbedtls_cipher_reset (ctx : mbedtls_cipher_context_t Obj) : Z * mbedtls_cipher_context_t Obj :=
  match cipher_info ctx with
  | None => (MBEDTLS_ERR_CIPHER_BAD_INPUT_DATA, ctx)
  | Some _ => (0, ctx <| unprocessed_len := 0%nat |>)
  end.

Definition mbedtls_cipher_get_block_size (ctx : mbedtls_cipher_context_t Obj) : nat :=
  match cipher_info ctx with None => 0 | Some info => block_size info end.
Definition mbedtls_cipher_get_cipher_mode (ctx : mbedtls_cipher_context_t Obj) : mbedtls_cipher_mode_t :=
  match cipher_info ctx with None => MBEDTLS_MODE_NONE | Some info => mode info end.
Definition mbedtls_cipher_get_iv_size (ctx : mbedtls_cipher_context_t Obj) : nat :=
  match cipher_info ctx with
  | None => 0
  | Some info => if (iv_size ctx =? 0)%nat then info_iv_size info else iv_size ctx
  end.
Definition mbedtls_cipher_get_type (ctx : mbedtls_cipher_context_t Obj) : mbedtls_cipher_type_t :=
  match cipher_info ctx with None => MBEDTLS_CIPHER_NONE | Some info => type info end.
Definition mbedtls_cipher_get_name (ctx : mbedtls_cipher_context_t Obj) : option string :=
  name <$> cipher_info ctx.
Definition mbedtls_cipher_get_key_bitlen (ctx : mbedtls_cipher_context_t Obj) : Z :=
  match cipher_info ctx with None => 0 | Some info => info_key_bitlen info end.
Definition mbedtls_cipher_get_operation (ctx : mbedtls_cipher_context_t Obj) : mbedtls_operation_t :=
  match cipher_info ctx with None => MBEDTLS_OPERATION_NONE | Some _ => operation ctx end.

(** [in_place] is [input == output].  The result: the code, the context, the
    bytes written and [*olen]. *)
Definition mbedtls_cipher_update (st : aes_statics) (ctx : mbedtls_cipher_context_t Obj) (in_place : bool)
  (input : list Z) : Z * mbedtls_cipher_context_t Obj * list Z * nat :=
  with_cipher ctx (MBEDTLS_ERR_CIPHER_BAD_INPUT_DATA, ctx, [], O) (fun info o =>
    let ilen := length input in
    let block_size := mbedtls_cipher_get_block_size ctx in
    if (block_size =? 0)%nat then (MBEDTLS_ERR_CIPHER_INVALID_CONTEXT, ctx, [], O)
    else if bool_decide (mode info = MBEDTLS_MODE_ECB)
    then
      if negb (ilen =? block_size)%nat then (MBEDTLS_ERR_CIPHER_FULL_BLOCK_EXPECTED, ctx, [], O)
      else let '(ret, output) := ecb_func (base info) st o (operation ctx) input in (ret, ctx, output, ilen)
    else if in_place && (negb (unprocessed_len ctx =? 0)%nat || negb (ilen mod block_size =? 0)%nat)
    then (MBEDTLS_ERR_CIPHER_BAD_INPUT_DATA, ctx, [], O)
    else if bool_decide (mode info = MBEDTLS_MODE_CTR)
    then
      let '(ret, s, output) :=
        ctr_func (base info) st o
          {| nc_off := Z.of_nat (unprocessed_len ctx); nonce_counter := iv ctx;
             stream_block := unprocessed_data ctx |} input in
      let ctx := ctx <| unprocessed_len := Z.to_nat (nc_off s) |> <| iv := nonce_counter s |>
                     <| unprocessed_data := stream_block s |> in
      if negb (ret =? 0) then (ret, ctx, output, O) else (0, ctx, output, ilen)
    else (MBEDTLS_ERR_CIPHER_FEATURE_UNAVAILABLE, ctx, [], O)).

(** The code and [*olen]. *)
Definition mbedtls_cipher_finish (ctx : mbedtls_cipher_context_t Obj) : Z * nat :=
  match cipher_info ctx with
  | None => (MBEDTLS_ERR_CIPHER_BAD_INPUT_DATA, O)
  | Some info =>
      match mode info with
      | MBEDTLS_MODE_CFB | MBEDTLS_MODE_OFB | MBEDTLS_MODE_CTR | MBEDTLS_MODE_GCM | MBEDTLS_MODE_XTS
      | MBEDTLS_MODE_STREAM => (0, O)
      | m =>
          match type info with
          | MBEDTLS_CIPHER_CHACHA20 | MBEDTLS_CIPHER_CHACHA20_POLY1305 => (0, O)
          | _ =>
              if bool_decide (m = MBEDTLS_MODE_ECB)
              then if (unprocessed_len ctx =? 0)%nat then (0, O)
                   else (MBEDTLS_ERR_CIPHER_FULL_BLOCK_EXPECTED, O)
              else (MBEDTLS_ERR_CIPHER_FEATURE_UNAVAILABLE, O)
          end
      end
  end.

Definition mbedtls_cipher_crypt (st : aes_statics) (ctx : mbedtls_cipher_context_t Obj) (iv_ : list Z)
  (in_place : bool) (input : list Z) : Z * mbedtls_cipher_context_t Obj * list Z * nat :=
  let '(ret, ctx) := mbedtls_cipher_set_iv ctx iv_ in
  if negb (ret =? 0) then (ret, ctx, [], O) else
  let '(ret, ctx) := mbedtls_cipher_reset ctx in
  if negb (ret =? 0) then (ret, ctx, [], O) else
  let '(ret, ctx, output, olen) := mbedtls_cipher_update st ctx in_place input in
  if negb (ret =? 0) then (ret, ctx, output, olen) else
  let '(ret, finish_olen) := mbedtls_cipher_finish ctx in
  if negb (ret =? 0) then (ret, ctx, output, olen) else
  (0, ctx, output, (olen + finish_olen)%nat).

End operations.

(** ** AES contexts as objects (the wrappers of cipher_wrap.c) *)

Definition aes_crypt_ecb_wrap (st : aes_statics) (ctx : mbedtls_aes_context) (op : mbedtls_operation_t)
  (input : list Z) : Z * list Z :=
  mbedtls_aes_crypt_ecb st ctx (operation_value op) input.

Definition aes_ctx_alloc : mbedtls_aes_context := mbedtls_aes_init.

(** The other bases do not allocate AES contexts. *)
#[export] Instance aes_object : CipherObject mbedtls_aes_context := {|
  ecb_func _ st ctx op input := aes_crypt_ecb_wrap st ctx op input;
  ctr_func _ st ctx s input := mbedtls_aes_crypt_ctr st ctx s input;
  setkey_enc_func _ st ctx key bits := mbedtls_aes_setkey_enc st ctx key bits;
  setkey_dec_func _ st ctx key bits := mbedtls_aes_setkey_dec st ctx key bits;
  ctx_alloc_func b := match b with aes_info => Some aes_ctx_alloc | xts_aes_info | ccm_aes_info => None end |}.

(** ** The tables *)

(** The supported ciphers, once listed and every time after. *)
Lemma cipher_list_spec :
  let '(l, s) := mbedtls_cipher_list cipher_statics_init in
  l = [2; 3; 4; 11; 12; 13; 43; 44; 45; 0] /\ mbedtls_cipher_list s = (l, s).
Proof. split; reflexivity. Qed.

(** Each entry is found by its type, by its name and by its values, and only
    these are. *)
Lemma cipher_info_found t info :
  In (t, info) mbedtls_cipher_definitions ->
  mbedtls_cipher_info_from_type t = Some info /\ type info = t /\
  mbedtls_cipher_info_from_string (Some (name info)) = Some info /\
  mbedtls_cipher_info_from_values MBEDTLS_CIPHER_ID_AES (info_key_bitlen info) (mode info) = Some info.
Proof. intros H. repeat (destruct H as [[= <- <-]|H]; [repeat split|]). destruct H. Qed.

(** The block cipher CCM asks for: there is one for the three AES key sizes. *)
Definition ecb_info_of (keybits : Z) : option mbedtls_cipher_info_t :=
  if keybits =? 128 then Some aes_128_ecb_info
  else if keybits =? 192 then Some aes_192_ecb_info
  else if keybits =? 256 then Some aes_256_ecb_info
  else None.

Lemma info_from_values_ecb keybits :
  is_u32 keybits ->
  mbedtls_cipher_info_from_values MBEDTLS_CIPHER_ID_AES keybits MBEDTLS_MODE_ECB = ecb_info_of keybits.
Proof.
  intros H. unfold mbedtls_cipher_info_from_values, ecb_info_of. rewrite u32_small by exact H.
  cbn -[Z.eqb]. rewrite (Z.eqb_sym 128), (Z.eqb_sym 192), (Z.eqb_sym 256).
  destruct (keybits =? 128), (keybits =? 192), (keybits =? 256); reflexivity.
Qed.

Lemma info_from_values_other id keybits m :
  id <> MBEDTLS_CIPHER_ID_AES -> mbedtls_cipher_info_from_values id keybits m = None.
Proof. intros H. unfold mbedtls_cipher_info_from_values. cbn. rewrite bool_decide_eq_false_2 by congruence. reflexivity. Qed.

(** ** ECB *)

(** A context over an AES object, in mode [m]. *)
Definition aes_context_of (m : mbedtls_cipher_mode_t) (ivs : nat)
  (ctx : mbedtls_cipher_context_t mbedtls_aes_context) (o : mbedtls_aes_context) : Prop :=
  cipher_ctx ctx = Some o /\ exists info, cipher_info ctx = Some info /\ mode info = m /\
  flags info = 0 /\ info_iv_size info = ivs /\ block_size info = 16%nat.

Lemma crypt_ecb_block st o block :
  mbedtls_aes_crypt_ecb st o MBEDTLS_AES_ENCRYPT block = (0, encrypt_block st o block).
Proof.
  unfold encrypt_block, mbedtls_aes_crypt_ecb. cbn. unfold mbedtls_internal_aes_encrypt.
  destruct (run_rounds _ _ _ _) as [p [[[Y0 Y1] Y2] Y3]]. reflexivity.
Qed.

(** What a context keyed for encryption does to a block depends on the statics
    and the object only. *)
Lemma update_ecb st ctx o in_place block :
  aes_context_of MBEDTLS_MODE_ECB 0 ctx o -> operation ctx = MBEDTLS_ENCRYPT -> length block = 16%nat ->
  mbedtls_cipher_update st ctx in_place block = (0, ctx, encrypt_block st o block, 16%nat).
Proof.
  intros (Ho & info & Hi & Hm & _ & _ & Hb) Hop Hl.
  unfold mbedtls_cipher_update, with_cipher, mbedtls_cipher_get_block_size. rewrite Hi, Ho, Hm, Hb, Hl, Hop.
  cbn -[mbedtls_aes_crypt_ecb]. unfold aes_crypt_ecb_wrap. cbn [operation_value].
  fold MBEDTLS_AES_ENCRYPT. rewrite crypt_ecb_block. reflexivity.
Qed.

Lemma encrypt_block_state st o block : is_state (encrypt_block st o block).
Proof.
  unfold encrypt_block, mbedtls_aes_crypt_ecb. cbn. unfold mbedtls_internal_aes_encrypt.
  destruct (run_rounds _ _ _ _) as [p [[[Y0 Y1] Y2] Y3]]. apply store_state_state.
Qed.

(** An entry of the table for AES with [Nk]-word keys. *)
Definition aes_entry (Nk : nat) (info : mbedtls_cipher_info_t) : Prop :=
  flags info = 0 /\ info_key_bitlen info = 32 * Z.of_nat Nk /\ base info = aes_info /\
  block_size info = 16%nat.

(** A key of one of the three sizes is accepted, whatever its bytes. *)
Lemma setkey_enc_accepts Nk st ctx key :
  key_size Nk -> exists st' o, mbedtls_aes_setkey_enc st ctx key (32 * Z.of_nat Nk) = (0, st', o).
Proof. intros [-> | [-> | ->]]; eexists _, _; reflexivity. Qed.

(** Setting a context up and keying it: for encryption, whatever the operation
    where the mode is CTR. *)
Lemma setup_setkey_object Nk st st' o info ctx key op :
  mbedtls_aes_setkey_enc st mbedtls_aes_init key (32 * Z.of_nat Nk) = (0, st', o) -> aes_entry Nk info ->
  op = MBEDTLS_ENCRYPT \/ mode info = MBEDTLS_MODE_CTR ->
  exists c1 c2, mbedtls_cipher_setup true ctx (Some info) = (0, c1) /\
    mbedtls_cipher_setkey st c1 key (32 * Z.of_nat Nk) op = (0, st', c2) /\
    aes_context_of (mode info) (info_iv_size info) c2 o /\ operation c2 = op /\ length (iv c2) = 16%nat.
Proof.
  intros He (Hf & Hkb & Hb & Hbs) Hop.
  assert (Hor : bool_decide (op = MBEDTLS_ENCRYPT) || bool_decide (mode info = MBEDTLS_MODE_CFB) ||
                bool_decide (mode info = MBEDTLS_MODE_OFB) || bool_decide (mode info = MBEDTLS_MODE_CTR) = true).
  { destruct Hop as [-> | ->]; [reflexivity|]. destruct op; reflexivity. }
  unfold mbedtls_cipher_setup. rewrite Hb. cbn. eexists _, _. split; [reflexivity|].
  unfold mbedtls_cipher_setkey, with_cipher. cbn.
  rewrite Hf, Hkb, Z.eqb_refl, Hor. cbn -[Z.mul]. unfold aes_ctx_alloc. rewrite He, Z.eqb_refl.
  split; [reflexivity|]. split; [|split; reflexivity]. split; [reflexivity|]. exists info. auto.
Qed.

Lemma setup_setkey Nk st info ctx key op :
  key_size Nk -> statics_ok st -> length key = (4 * Nk)%nat -> byte_list key -> aes_entry Nk info ->
  op = MBEDTLS_ENCRYPT \/ mode info = MBEDTLS_MODE_CTR ->
  exists o c1 c2, mbedtls_cipher_setup true ctx (Some info) = (0, c1) /\
    mbedtls_cipher_setkey st c1 key (32 * Z.of_nat Nk) op = (0, aes_ready, c2) /\
    aes_context_of (mode info) (info_iv_size info) c2 o /\ length (iv c2) = 16%nat /\
    forall block, is_state block ->
      encrypt_block aes_ready o block = fips_cipher (Nk + 6) (fips_round_key Nk key) block.
Proof.
  intros HNk Hst Hl Hk He Hop.
  pose proof (fun block => encrypt_keyed Nk st mbedtls_aes_init key block HNk Hst eq_refl Hl Hk) as Hfips.
  destruct (setkey_enc_spec Nk st mbedtls_aes_init key HNk Hst eq_refl Hl Hk) as (o & Ho & _).
  destruct (setup_setkey_object Nk st aes_ready o info ctx key op Ho He Hop) as (c1 & c2 & H1 & H2 & Hc & _ & Hiv).
  exists o, c1, c2. repeat (split; [assumption|]). intros block Hs. specialize (Hfips block Hs).
  rewrite Ho in Hfips. unfold encrypt_block. destruct Hfips as (_ & _ & ->). reflexivity.
Qed.

Lemma ecb_entry Nk :
  key_size Nk -> exists info, ecb_info_of (32 * Z.of_nat Nk) = Some info /\ aes_entry Nk info /\
    mode info = MBEDTLS_MODE_ECB /\ info_iv_size info = 0%nat.
Proof. intros [-> | [-> | ->]]; eexists; (split; [reflexivity|]); repeat split. Qed.

(** ** CTR *)

Lemma block_size_of m ivs ctx o :
  aes_context_of m ivs ctx o -> mbedtls_cipher_get_block_size ctx = 16%nat.
Proof. intros (_ & info & Hi & _ & _ & _ & Hb). unfold mbedtls_cipher_get_block_size. rewrite Hi. exact Hb. Qed.

(** The part of the context that is the key stream's state. *)
Definition stream_of (ctx : mbedtls_cipher_context_t mbedtls_aes_context) : ctr_state :=
  {| nc_off := Z.of_nat (unprocessed_len ctx); nonce_counter := iv ctx; stream_block := unprocessed_data ctx |}.

Lemma update_ctr st ctx o C p in_place input :
  aes_context_of MBEDTLS_MODE_CTR 16 ctx o -> stream_at st o C p (stream_of ctx) ->
  in_place = false \/ (p mod 16 = 0 /\ length input mod 16 = 0)%nat ->
  exists ctx', mbedtls_cipher_update st ctx in_place input =
    (0, ctx', zip_with Z.lxor input (map (key_stream st o C) (seq p (length input))), length input) /\
    aes_context_of MBEDTLS_MODE_CTR 16 ctx' o /\ stream_at st o C (p + length input) (stream_of ctx').
Proof.
  intros Hc Hs Hin. pose proof Hc as (Ho & info & Hi & Hm & Hf & Hiv & Hb).
  destruct (crypt_ctr_spec st o C p (stream_of ctx) input Hs) as (s' & He & Hs').
  unfold mbedtls_cipher_update, with_cipher. rewrite (block_size_of _ _ _ _ Hc), Hi, Ho, Hm. cbn -[Nat.modulo].
  assert (Hg : in_place && (negb (unprocessed_len ctx =? 0)%nat || negb (length input mod 16 =? 0)%nat) = false).
  { destruct Hin as [-> | [Hp Hl]]; [reflexivity|]. destruct Hs as [Hoff _]. cbn -[Nat.modulo] in Hoff.
    replace (unprocessed_len ctx) with 0%nat by lia. rewrite Hl. apply andb_false_r. }
  rewrite Hg. fold (stream_of ctx). rewrite He. cbn -[Nat.modulo]. eexists. split; [reflexivity|]. split.
  - split; [exact Ho|]. exists info. auto.
  - unfold stream_of. cbn -[Nat.modulo]. destruct Hs' as [Hoff Hr].
    rewrite Z2Nat.id by (rewrite Hoff; lia). split; assumption.
Qed.

(** Setting the IV and resetting starts the stream of that IV over. *)
Lemma set_iv_reset ctx o st iv_ :
  aes_context_of MBEDTLS_MODE_CTR 16 ctx o -> length (iv ctx) = 16%nat ->
  length iv_ = 16%nat -> byte_list iv_ ->
  exists ctx1 ctx2, mbedtls_cipher_set_iv ctx iv_ = (0, ctx1) /\ mbedtls_cipher_reset ctx1 = (0, ctx2) /\
    aes_context_of MBEDTLS_MODE_CTR 16 ctx2 o /\ stream_at st o (be_value iv_) 0 (stream_of ctx2).
Proof.
  intros (Ho & info & Hi & Hm & Hf & Hiv & Hb) Hc Hl Hbytes. unfold mbedtls_cipher_set_iv.
  rewrite Hi, Hl, Hf, Hiv. cbn -[take]. eexists _, _. split; [reflexivity|].
  unfold mbedtls_cipher_reset. cbn -[take]. rewrite Hi. split; [reflexivity|]. split.
  - split; [exact Ho|]. exists info. auto.
  - unfold stream_of. cbn -[take]. rewrite take_ge by (rewrite Hl; apply Nat.le_refl).
    replace (memcpy_at 0 iv_ (iv ctx)) with (be_bytes 16 (be_value iv_)).
    + apply stream_start.
    + rewrite memcpy_at_end by (cbn -[take]; lia). rewrite <- Hl, be_bytes_be_value by exact Hbytes. reflexivity.
Qed.

(** A call that encrypts or decrypts a whole message, whatever the context's
    stream was at: the message and the key stream of the IV, byte by byte. *)
Lemma cipher_crypt_ctr st ctx o iv_ in_place input :
  aes_context_of MBEDTLS_MODE_CTR 16 ctx o -> length (iv ctx) = 16%nat ->
  length iv_ = 16%nat -> byte_list iv_ -> in_place = false \/ (length input mod 16 = 0)%nat ->
  exists ctx', mbedtls_cipher_crypt st ctx iv_ in_place input =
    (0, ctx', zip_with Z.lxor input (map (key_stream st o (be_value iv_)) (seq 0 (length input))),
     length input) /\
    aes_context_of MBEDTLS_MODE_CTR 16 ctx' o /\ length (iv ctx') = 16%nat.
Proof.
  intros Hc Hiv Hl Hb Hin. destruct (set_iv_reset ctx o st iv_ Hc Hiv Hl Hb) as (c1 & c2 & H1 & H2 & Hc2 & Hs).
  destruct (update_ctr st c2 o (be_value iv_) 0 in_place input Hc2 Hs) as (c3 & H3 & Hc3 & Hs3).
  { destruct Hin; [left|right]; auto. }
  unfold mbedtls_cipher_crypt. rewrite H1. cbn [Z.eqb negb]. rewrite H2. cbn [Z.eqb negb].
  rewrite H3. cbn [Z.eqb negb]. pose proof Hc3 as (_ & info & Hi & Hm & _).
  unfold mbedtls_cipher_finish. rewrite Hi, Hm. cbn [Z.eqb negb]. rewrite Nat.add_0_r.
  exists c3. split; [reflexivity|]. split; [exact Hc3|]. destruct Hs3 as (_ & Hn & _).
  change (iv c3) with (nonce_counter (stream_of c3)). rewrite Hn. apply be_bytes_length.
Qed.

(** Feeding a message in pieces is feeding it at once. *)
Fixpoint updates (st : aes_statics) (ctx : mbedtls_cipher_context_t mbedtls_aes_context)
  (pieces : list (list Z)) : list Z :=
  match pieces with
  | [] => []
  | input :: pieces =>
      let '(_, ctx, output, _) := mbedtls_cipher_update st ctx false input in
      output ++ updates st ctx pieces
  end.

Lemma updates_ctr st ctx o C p pieces :
  aes_context_of MBEDTLS_MODE_CTR 16 ctx o -> stream_at st o C p (stream_of ctx) ->
  updates st ctx pieces =
  zip_with Z.lxor (concat pieces) (map (key_stream st o C) (seq p (length (concat pieces)))).
Proof.
  revert ctx p. induction pieces as [|input pieces IH]; intros ctx p Hc Hs; [reflexivity|].
  cbn [updates concat]. destruct (update_ctr st ctx o C p false input Hc Hs) as (c & -> & Hc' & Hs'); [auto|].
  rewrite (IH c (p + length input)%nat) by assumption.
  rewrite length_app, seq_app, map_app, zip_with_app by (rewrite length_map, length_seq; reflexivity).
  reflexivity.
Qed.

(** CTR mode as SP 800-38A has it, over the cipher of FIPS 197. *)
Definition sp800_38a_ctr (Nk : nat) (key iv_ input : list Z) : list Z :=
  zip_with Z.lxor input
    (map (fun p => (fips_cipher (Nk + 6) (fips_round_key Nk key)
                      (be_bytes 16 (be_value iv_ + Z.of_nat (p / 16)))).[p mod 16])
       (seq 0 (length input))).

Lemma key_stream_fips st o Nk key iv_ n :
  (forall block, is_state block -> encrypt_block st o block = fips_cipher (Nk + 6) (fips_round_key Nk key) block) ->
  map (key_stream st o (be_value iv_)) (seq 0 n) =
  map (fun p => (fips_cipher (Nk + 6) (fips_round_key Nk key)
                   (be_bytes 16 (be_value iv_ + Z.of_nat (p / 16)))).[p mod 16]) (seq 0 n).
Proof.
  intros H. apply map_ext. intros p. unfold key_stream. rewrite H; [reflexivity|].
  split; [apply be_bytes_length|apply be_bytes_bytes].
Qed.

Lemma ctr_entry Nk :
  key_size Nk -> exists info,
    mbedtls_cipher_info_from_values MBEDTLS_CIPHER_ID_AES (32 * Z.of_nat Nk) MBEDTLS_MODE_CTR = Some info /\
    aes_entry Nk info /\ mode info = MBEDTLS_MODE_CTR /\ info_iv_size info = 16%nat.
Proof. intros [-> | [-> | ->]]; eexists; (split; [reflexivity|]); repeat split. Qed.

(** AES-CTR through the cipher layer is SP 800-38A, for the three key sizes and
    whichever operation the context was keyed for; the same call on the result
    gives the message back. *)
Theorem cipher_ctr_is_sp800_38a Nk st key op iv_ input :
  key_size Nk -> statics_ok st -> length key = (4 * Nk)%nat -> byte_list key ->
  length iv_ = 16%nat -> byte_list iv_ ->
  let info := mbedtls_cipher_info_from_values MBEDTLS_CIPHER_ID_AES (32 * Z.of_nat Nk) MBEDTLS_MODE_CTR in
  let '(r1, ctx) := mbedtls_cipher_setup true mbedtls_cipher_init info in
  let '(r2, st, ctx) := mbedtls_cipher_setkey st ctx key (32 * Z.of_nat Nk) op in
  let '(r3, ctx, output, olen) := mbedtls_cipher_crypt st ctx iv_ false input in
  let '(r4, ctx, again, _) := mbedtls_cipher_crypt st ctx iv_ false output in
  (r1, r2, r3, r4) = (0, 0, 0, 0) /\ output = sp800_38a_ctr Nk key iv_ input /\
  olen = length input /\ again = input.
Proof.
  intros HNk Hst Hl Hk Hiv Hivb. destruct (ctr_entry Nk HNk) as (info & -> & He & Hm & Hs). cbv zeta.
  destruct (setup_setkey Nk st info mbedtls_cipher_init key op HNk Hst Hl Hk He (or_intror Hm))
    as (o & c1 & c2 & -> & -> & Hc & Hlen & Hfips). rewrite Hm, Hs in Hc.
  destruct (cipher_crypt_ctr aes_ready c2 o iv_ false input Hc Hlen Hiv Hivb (or_introl eq_refl))
    as (c3 & -> & Hc3 & Hlen3).
  set (ks := map (key_stream aes_ready o (be_value iv_)) (seq 0 (length input))).
  assert (Hks : length ks = length input) by (unfold ks; rewrite length_map, length_seq; reflexivity).
  destruct (cipher_crypt_ctr aes_ready c3 o iv_ false (zip_with Z.lxor input ks) Hc3 Hlen3 Hiv Hivb (or_introl eq_refl))
    as (c4 & -> & _ & _).
  rewrite length_zip_with_l_eq by congruence. fold ks. rewrite zip_lxor_involutive by congruence.
  repeat split. unfold sp800_38a_ctr, ks. rewrite (key_stream_fips aes_ready o Nk key) by exact Hfips. reflexivity.
Qed.

Lemma cipher_ctr_is_sp800_38a_witness :
  let key := map Z.of_nat (seq 0 24) in
  let iv_ := map Z.of_nat (seq 100 16) in
  let info := mbedtls_cipher_info_from_values MBEDTLS_CIPHER_ID_AES 192 MBEDTLS_MODE_CTR in
  let '(r1, ctx) := mbedtls_cipher_setup true mbedtls_cipher_init info in
  let '(r2, st, ctx) := mbedtls_cipher_setkey aes_statics_init ctx key 192 MBEDTLS_DECRYPT in
  let '(r3, ctx, output, olen) := mbedtls_cipher_crypt st ctx iv_ false [1; 2; 3] in
  let '(r4, ctx, again, _) := mbedtls_cipher_crypt st ctx iv_ false output in
  (r1, r2, r3, r4) = (0, 0, 0, 0) /\ output = sp800_38a_ctr 6 key iv_ [1; 2; 3] /\
  olen = 3%nat /\ again = [1; 2; 3].
Proof.
  apply (cipher_ctr_is_sp800_38a 6 aes_statics_init (map Z.of_nat (seq 0 24)) MBEDTLS_DECRYPT
           (map Z.of_nat (seq 100 16)) [1; 2; 3]).
  - right. left. reflexivity.
  - left. reflexivity.
  - reflexivity.
  - repeat (constructor; [vm_compute; intuition discriminate|]). constructor.
  - reflexivity.
  - repeat (constructor; [vm_compute; intuition discriminate|]). constructor.
Defined.

(** An IV set in the middle of a block does not restart the stream: without
    [mbedtls_cipher_reset] the rest of the old block comes first. *)
Example set_iv_keeps_offset :
  let info := Some aes_128_ctr_info in
  let '(_, ctx) := mbedtls_cipher_setup true mbedtls_cipher_init info in
  let '(_, st, ctx) := mbedtls_cipher_setkey aes_statics_init ctx (zeros 16) 128 MBEDTLS_ENCRYPT in
  let '(_, ctx) := mbedtls_cipher_set_iv ctx (zeros 16) in
  let '(_, ctx, first, _) := mbedtls_cipher_update st ctx false [0] in
  let '(_, _, going_on, _) := mbedtls_cipher_update st ctx false [0] in
  let '(_, ctx) := mbedtls_cipher_set_iv ctx (zeros 16) in
  let '(_, _, after_set_iv, _) := mbedtls_cipher_update st ctx false [0] in
  (first, going_on, after_set_iv) = ([0x66], [0xE9], [0xE9]).
Proof. vm_compute. reflexivity. Qed.

End cipher.
