(* ===== verification/CipherModes.v ===== *)
(** The modes of the cipher layer of mbedTLS that the configuration of the firmware
    leaves out: adding and removing the paddings of a last block (module padding),
    CBC, CFB128 and OFB, with their branches of update and finish (module
    cipher_modes), and XTS (module cipher_xts). *)

From S2P Require Import Prelude MbedCommon ConstantTime Aes AesFips AesInverse AesCtr AesModes AesXts Cipher.
Import mbed constant_time aes aes_fips aes_keys aes_inverse aes_ctr aes_modes aes_modes_laws cipher.

Module padding.

Definition MBEDTLS_ERR_CIPHER_INVALID_PADDING : Z := -0x6200.

(** ** Adding *)

(** The values of an [unsigned char] that counts from [first] up to [n]: none of
    [n] above 255 is reached, and the loop does not end. *)
Definition uchar_loop (first : nat) (n : Z) : option (list nat) :=
  if n <=? 255 then Some (seq first (Z.to_nat n - first)) else None.

(** [output] is the buffer; the result is its new content. *)
Definition add_pkcs_padding (output : list Z) (output_len data_len : nat) : option (list Z) :=
  let padding_len := u64 (Z.of_nat output_len - Z.of_nat data_len) in
  idxs ← uchar_loop 0 padding_len;
  Some (fold_left (fun output i => <[(data_len + i)%nat := u8 padding_len]> output) idxs output).

Definition add_one_and_zeros_padding (output : list Z) (output_len data_len : nat) : option (list Z) :=
  let padding_len := u64 (Z.of_nat output_len - Z.of_nat data_len) in
  let output := <[data_len := 0x80]> output in
  idxs ← uchar_loop 1 padding_len;
  Some (fold_left (fun output i => <[(data_len + i)%nat := 0x00]> output) idxs output).

Definition add_zeros_and_len_padding (output : list Z) (output_len data_len : nat) : option (list Z) :=
  let padding_len := u64 (Z.of_nat output_len - Z.of_nat data_len) in
  idxs ← uchar_loop 1 padding_len;
  let output := fold_left (fun output i => <[(data_len + i - 1)%nat := 0x00]> output) idxs output in
  Some (<[(output_len - 1)%nat := u8 padding_len]> output).

Definition add_zeros_padding (output : list Z) (output_len data_len : nat) : option (list Z) :=
  Some (fold_left (fun output i => <[i := 0x00]> output) (seq data_len (output_len - data_len)) output).

(** ** Removing *)

(** The code, and [*data_len]; [input] is not empty. *)
Definition padding_result (bad : Z) : Z := - mbedtls_ct_uint_if bad (- MBEDTLS_ERR_CIPHER_INVALID_PADDING) 0.

Definition get_pkcs_padding (input : list Z) : Z * Z :=
  let input_len := Z.of_nat (length input) in
  let padding_len := input.[length input - 1] in
  let data_len := u64 (input_len - padding_len) in
  let bad := u8 (u64 (Z.lnot (mbedtls_ct_size_mask_ge input_len padding_len))) in
  let bad := Z.lor bad (mbedtls_ct_size_bool_eq padding_len 0) in
  let pad_idx := u64 (input_len - padding_len) in
  let bad := fold_left (fun bad i =>
      let mask := mbedtls_ct_size_mask_ge (Z.of_nat i) pad_idx in
      u8 (Z.lor bad (Z.land (Z.lxor input.[i] padding_len) mask))) (seq 0 (length input)) bad in
  (padding_result bad, data_len).

(** A turn on [*data_len], [in_padding] and [bad]; [!x] of 0 or 1 is [1 - x]. *)
Definition one_and_zeros_turn (input : list Z) (st : Z * Z * Z) (i : nat) : Z * Z * Z :=
  let '(data_len, in_padding, bad) := st in
  let is_nonzero := mbedtls_ct_uint_mask input.[i] in
  let hit_first_nonzero := Z.land is_nonzero in_padding in
  let data_len := Z.lor (Z.land data_len (u64 (Z.lnot hit_first_nonzero))) (Z.land (Z.of_nat i) hit_first_nonzero) in
  let bad := mbedtls_ct_uint_if (u32 hit_first_nonzero) (1 - mbedtls_ct_size_bool_eq input.[i] 0x80) bad in
  (data_len, Z.land in_padding (u64 (Z.lnot is_nonzero)), bad).

Definition get_one_and_zeros_padding (input : list Z) : Z * Z :=
  let '(data_len, _, bad) :=
    fold_left (one_and_zeros_turn input) (rev (seq 0 (length input))) (0, u64 (-1), 1) in
  (padding_result bad, data_len).

Definition get_zeros_and_len_padding (input : list Z) : Z * Z :=
  let input_len := Z.of_nat (length input) in
  let padding_len := input.[length input - 1] in
  let data_len := u64 (input_len - padding_len) in
  let bad := u8 (mbedtls_ct_size_mask_ge padding_len (input_len + 1)) in
  let bad := Z.lor bad (mbedtls_ct_size_bool_eq padding_len 0) in
  let pad_idx := u64 (input_len - padding_len) in
  let bad := fold_left (fun bad i =>
      let mask := mbedtls_ct_size_mask_ge (Z.of_nat i) pad_idx in
      u8 (Z.lor bad (Z.land input.[i] mask))) (seq 0 (length input - 1)) bad in
  (padding_result bad, data_len).

(** [i] counts from [input_len] down to 1; [k] is [i - 1]. *)
Definition zeros_turn (input : list Z) (st : Z * Z) (k : nat) : Z * Z :=
  let '(data_len, done) := st in
  let prev_done := done in
  let done := Z.lor done (1 - mbedtls_ct_size_bool_eq input.[k] 0) in
  let mask := mbedtls_ct_size_mask (Z.lxor done prev_done) in
  (Z.lor data_len (Z.land (Z.of_nat (S k)) mask), done).

Definition get_zeros_padding (input : list Z) : Z * Z :=
  let '(data_len, _) := fold_left (zeros_turn input) (rev (seq 0 (length input))) (0, 0) in
  (0, data_len).

Definition get_no_padding (input : list Z) : Z * Z := (0, Z.of_nat (length input)).

(** ** Choosing *)

(** [mbedtls_cipher_padding_t]; [OTHER] is any value that it does not name. *)
Inductive mbedtls_cipher_padding_t :=
| MBEDTLS_PADDING_PKCS7
| MBEDTLS_PADDING_ONE_AND_ZEROS
| MBEDTLS_PADDING_ZEROS_AND_LEN
| MBEDTLS_PADDING_ZEROS
| MBEDTLS_PADDING_NONE
| MBEDTLS_PADDING_OTHER.

(** [ctx->add_padding] and [ctx->get_padding]. *)
Record padding_functions := {
  add_padding : option (list Z -> nat -> nat -> option (list Z));
  get_padding : list Z -> Z * Z }.

(** The switch of [mbedtls_cipher_set_padding_mode]. *)
Definition padding_of (mode : mbedtls_cipher_padding_t) : option padding_functions :=
  match mode with
  | MBEDTLS_PADDING_PKCS7 => Some {| add_padding := Some add_pkcs_padding; get_padding := get_pkcs_padding |}
  | MBEDTLS_PADDING_ONE_AND_ZEROS =>
      Some {| add_padding := Some add_one_and_zeros_padding; get_padding := get_one_and_zeros_padding |}
  | MBEDTLS_PADDING_ZEROS_AND_LEN =>
      Some {| add_padding := Some add_zeros_and_len_padding; get_padding := get_zeros_and_len_padding |}
  | MBEDTLS_PADDING_ZEROS => Some {| add_padding := Some add_zeros_padding; get_padding := get_zeros_padding |}
  | MBEDTLS_PADDING_NONE => Some {| add_padding := None; get_padding := get_no_padding |}
  | MBEDTLS_PADDING_OTHER => None
  end.

Example paddings_of_three_bytes :
  map (fun m => f ← padding_of m; a ← add_padding f; a [1; 2; 3; 9; 9; 9; 9; 9] 8%nat 3%nat)
    [MBEDTLS_PADDING_PKCS7; MBEDTLS_PADDING_ONE_AND_ZEROS; MBEDTLS_PADDING_ZEROS_AND_LEN; MBEDTLS_PADDING_ZEROS] =
  [Some [1; 2; 3; 5; 5; 5; 5; 5]; Some [1; 2; 3; 128; 0; 0; 0; 0]; Some [1; 2; 3; 0; 0; 0; 0; 5];
   Some [1; 2; 3; 0; 0; 0; 0; 0]].
Proof. vm_compute. reflexivity. Qed.

Example padding_removed :
  get_pkcs_padding [1; 2; 3; 5; 5; 5; 5; 5] = (0, 3) /\
  get_one_and_zeros_padding [1; 2; 3; 128; 0; 0; 0; 0] = (0, 3) /\
  get_zeros_and_len_padding [1; 2; 3; 0; 0; 0; 0; 5] = (0, 3) /\
  get_zeros_padding [1; 2; 3; 0; 0; 0; 0; 0] = (0, 3) /\
  get_pkcs_padding [1; 2; 3; 4; 5; 5; 5; 5] = (MBEDTLS_ERR_CIPHER_INVALID_PADDING, 3).
Proof. vm_compute. auto. Qed.

(** ** The paddings as byte strings *)

(** [k] bytes of padding: RFC 5652, ISO/IEC 7816-4 and ANSI X9.23. *)
Definition pkcs_tail (k : nat) : list Z := replicate k (Z.of_nat k).
Definition one_and_zeros_tail (k : nat) : list Z := 0x80 :: zeros (k - 1).
Definition zeros_and_len_tail (k : nat) : list Z := zeros (k - 1) ++ [Z.of_nat k].

(** What the cipher layer relies on: [add] writes the tail behind the data, [get]
    finds it again, and refuses a block that has none. *)
Class PaddingOk (add : list Z -> nat -> nat -> option (list Z)) (get : list Z -> Z * Z) (tail : nat -> list Z) : Prop := {
  tail_length : forall k, (0 < k)%nat -> length (tail k) = k;
  tail_bytes : forall k, (k <= 255)%nat -> byte_list (tail k);
  add_tail : forall output n d, (d < n)%nat -> (n <= length output)%nat -> (n - d <= 255)%nat ->
    add output n d = Some (take d output ++ tail (n - d)%nat ++ drop n output);
  get_tail : forall data k, byte_list data -> (0 < k)%nat -> (length data + k <= 255)%nat ->
    get (data ++ tail k) = (0, Z.of_nat (length data));
  get_refuses : forall input, byte_list input -> (0 < length input <= 255)%nat ->
    (forall data k, (0 < k)%nat -> input <> data ++ tail k) -> fst (get input) = MBEDTLS_ERR_CIPHER_INVALID_PADDING }.

(** ** Filling *)

Definition fill (d k : nat) (v : Z) (l : list Z) : list Z := take d l ++ replicate k v ++ drop (d + k) l.

Lemma fold_fill d v s k l :
  (d + s + k <= length l)%nat ->
  fold_left (fun l i => <[(d + i)%nat := v]> l) (seq s k) l = fill (d + s) k v l.
Proof.
  intros H. induction k as [|k IH].
  - unfold fill. rewrite Nat.add_0_r. cbn. symmetry. apply take_drop.
  - rewrite seq_S, fold_left_app, IH by lia. cbn [fold_left]. unfold fill.
    rewrite insert_app_r_alt by (rewrite length_take; lia). f_equal. rewrite length_take.
    replace (d + (s + k) - (d + s) `min` length l)%nat with k by lia.
    rewrite insert_app_r_alt by (rewrite length_replicate; lia). rewrite length_replicate, Nat.sub_diag.
    destruct (lookup_lt_is_Some_2 l (d + s + k) ltac:(lia)) as [x Hx]. rewrite (drop_S _ x _ Hx).
    cbn [insert list_insert]. replace (d + s + S k)%nat with (S (d + s + k)) by lia.
    rewrite replicate_S_end, <- app_assoc. reflexivity.
Qed.

Lemma padding_length output_len data_len :
  (data_len <= output_len)%nat -> (output_len - data_len <= 255)%nat ->
  u64 (Z.of_nat output_len - Z.of_nat data_len) = Z.of_nat (output_len - data_len).
Proof. intros H1 H2. rewrite u64_small by (unfold is_u64; lia). lia. Qed.

Lemma uchar_loop_ends first n : (n <= 255)%nat -> uchar_loop first (Z.of_nat n) = Some (seq first (n - first)).
Proof. intros H. unfold uchar_loop. destruct (Z.leb_spec (Z.of_nat n) 255); [rewrite Nat2Z.id; reflexivity|lia]. Qed.

(** A longer padding is never finished. *)
Lemma padding_never_ends output output_len data_len :
  (output_len - data_len > 255)%nat -> Z.of_nat output_len < 2 ^ 63 -> add_pkcs_padding output output_len data_len = None.
Proof.
  intros H1 H2. change (2 ^ 63) with 9223372036854775808 in H2. unfold add_pkcs_padding, uchar_loop.
  rewrite u64_small by (unfold is_u64; lia). destruct (Z.leb_spec (Z.of_nat output_len - Z.of_nat data_len) 255); [lia|reflexivity].
Qed.

Lemma add_pkcs_spec output n d :
  (d < n)%nat -> (n <= length output)%nat -> (n - d <= 255)%nat ->
  add_pkcs_padding output n d = Some (take d output ++ pkcs_tail (n - d) ++ drop n output).
Proof.
  intros H1 H2 H3. unfold add_pkcs_padding. rewrite padding_length, uchar_loop_ends, Nat.sub_0_r by lia. cbn [mbind option_bind].
  rewrite fold_fill, Nat.add_0_r by lia. rewrite u8_small by (unfold is_u8; lia). unfold fill, pkcs_tail.
  replace (d + (n - d))%nat with n by lia. reflexivity.
Qed.

Lemma add_one_and_zeros_spec output n d :
  (d < n)%nat -> (n <= length output)%nat -> (n - d <= 255)%nat ->
  add_one_and_zeros_padding output n d = Some (take d output ++ one_and_zeros_tail (n - d) ++ drop n output).
Proof.
  intros H1 H2 H3. unfold add_one_and_zeros_padding. rewrite padding_length, uchar_loop_ends by lia. cbn [mbind option_bind].
  rewrite fold_fill by (rewrite length_insert; lia). unfold fill, one_and_zeros_tail. f_equal.
  replace (d + 1)%nat with (S d) by lia. rewrite take_S_insert by lia. rewrite <- app_assoc. f_equal. cbn [app]. f_equal.
  f_equal. rewrite drop_insert_lt by lia. f_equal. lia.
Qed.

Lemma add_zeros_and_len_spec output n d :
  (d < n)%nat -> (n <= length output)%nat -> (n - d <= 255)%nat ->
  add_zeros_and_len_padding output n d = Some (take d output ++ zeros_and_len_tail (n - d) ++ drop n output).
Proof.
  intros H1 H2 H3. unfold add_zeros_and_len_padding. rewrite padding_length, uchar_loop_ends by lia. cbn [mbind option_bind].
  assert (Hs : forall k (l : list Z), fold_left (fun l i => <[(d + i - 1)%nat := 0]> l) (seq 1 k) l =
                          fold_left (fun l i => <[(d + i)%nat := 0]> l) (seq 0 k) l).
  { intros k l. rewrite <- seq_shift. revert l. induction (seq 0 k) as [|i idxs IH]; intros l; [reflexivity|].
    cbn [map fold_left]. replace (d + S i - 1)%nat with (d + i)%nat by lia. apply IH. }
  rewrite Hs, fold_fill by lia. rewrite Nat.add_0_r, u8_small by (unfold is_u8; lia). unfold fill, zeros_and_len_tail. f_equal.
  rewrite insert_app_r_alt, insert_app_r_alt by (rewrite ?length_take, ?length_replicate; lia).
  rewrite length_take, length_replicate. replace (n - 1 - d `min` length output - (n - d - 1))%nat with 0%nat by lia.
  destruct (lookup_lt_is_Some_2 output (d + (n - d - 1)) ltac:(lia)) as [x Hx]. rewrite (drop_S _ x _ Hx).
  cbn [insert list_insert]. rewrite <- app_assoc. do 3 f_equal. cbn [app]. do 2 f_equal. lia.
Qed.

(** ** Finding the padding *)

Lemma padding_result_spec bad :
  is_u32 bad -> padding_result bad = if bad =? 0 then 0 else MBEDTLS_ERR_CIPHER_INVALID_PADDING.
Proof.
  intros H. unfold padding_result, MBEDTLS_ERR_CIPHER_INVALID_PADDING.
  rewrite ct_uint_if_spec by (unfold is_u32 in *; lia). destruct (bad =? 0); reflexivity.
Qed.

Lemma u8_lor a b : is_u8 a -> u8 (Z.lor a b) = Z.lor a (u8 b).
Proof.
  intros Ha. unfold u8. change (2 ^ 8) with 256. rewrite <- !land_255, Z.land_lor_distr_l, (land_ones8 a) by exact Ha.
  reflexivity.
Qed.

(** [bad] stays 0 while nothing is wrong. *)
Lemma bad_fold (f : nat -> Z) n bad :
  is_u8 bad ->
  let r := fold_left (fun bad i => u8 (Z.lor bad (f i))) (seq 0 n) bad in
  is_u8 r /\ (r = 0 <-> bad = 0 /\ forall i, (i < n)%nat -> u8 (f i) = 0).
Proof.
  intros Hb. cbv zeta. induction n as [|n [IHr IH]]; [cbn; split; [exact Hb|]; split; [split; [assumption|lia]|tauto]|].
  rewrite seq_S, fold_left_app. cbn [fold_left Nat.add]. split; [apply u8_range|].
  rewrite u8_lor, Z.lor_eq_0_iff, IH by exact IHr. split.
  - intros [[H1 H2] H3]. split; [exact H1|]. intros i Hi. destruct (decide (i = n)) as [->|]; [exact H3|]. apply H2. lia.
  - intros [H1 H2]. split; [split; [exact H1|]|]; [intros; apply H2; lia|apply H2; lia].
Qed.

Lemma small_size n : (n <= 256)%nat -> is_size (Z.of_nat n).
Proof. intros H. unfold is_size. change (2 ^ 63) with 9223372036854775808. lia. Qed.

Lemma byte_size b : is_u8 b -> is_size b.
Proof. unfold is_u8, is_size. change (2 ^ 63) with 9223372036854775808. lia. Qed.

(** A byte under the mask of the positions from [k] on. *)
Lemma masked_byte b i k :
  is_u8 b -> (i <= 256)%nat -> (k <= 256)%nat ->
  u8 (Z.land b (mbedtls_ct_size_mask_ge (Z.of_nat i) (Z.of_nat k))) = if (i <? k)%nat then 0 else b.
Proof.
  intros Hb Hi Hk. rewrite size_mask_ge_spec by (apply small_size; lia).
  destruct (Z.ltb_spec (Z.of_nat i) (Z.of_nat k)), (Nat.ltb_spec i k); try lia; [rewrite Z.land_0_r; reflexivity|].
  change (2 ^ 64 - 1) with (Z.ones 64). rewrite Z.land_ones by lia.
  rewrite Z.mod_small by (unfold is_u8 in Hb; lia). apply u8_small, Hb.
Qed.

(** The padding length the last byte gives, when it can be one. *)
Definition last_byte (input : list Z) : Z := input.[length input - 1].

Lemma last_u8 input : byte_list input -> is_u8 (last_byte input).
Proof. intros H. apply nth_u8, H. Qed.

(** A list is its first bytes and its last [k] ones. *)
Lemma split_last (input : list Z) k :
  (k <= length input)%nat -> input = take (length input - k) input ++ drop (length input - k) input.
Proof. intros _. symmetry. apply take_drop. Qed.

Lemma drop_all_equal (input : list Z) k v :
  (k <= length input)%nat -> (forall i, (i < length input)%nat -> (length input - k <= i)%nat -> input.[i] = v) ->
  drop (length input - k) input = replicate k v.
Proof.
  intros Hk H. apply (list_eq_nth _ _ k); [rewrite length_drop; lia|apply length_replicate|].
  intros j Hj. rewrite <- nth_add, H by lia. rewrite nth_lookup, lookup_replicate_2 by exact Hj. reflexivity.
Qed.

(** Compute a closed flag. *)
Ltac closed_lor :=
  repeat match goal with |- context [Z.lor ?a ?b] => let v := eval vm_compute in (Z.lor a b) in change (Z.lor a b) with v end.

(** PKCS#7: what is checked. *)
Lemma get_pkcs_result input :
  byte_list input -> (0 < length input <= 255)%nat ->
  let n := length input in let p := last_byte input in
  (fst (get_pkcs_padding input) = 0 \/ fst (get_pkcs_padding input) = MBEDTLS_ERR_CIPHER_INVALID_PADDING) /\
  (fst (get_pkcs_padding input) = 0 <->
     0 < p <= Z.of_nat n /\ forall i, (i < n)%nat -> (n - Z.to_nat p <= i)%nat -> input.[i] = p) /\
  (p <= Z.of_nat n -> snd (get_pkcs_padding input) = Z.of_nat (n - Z.to_nat p)).
Proof.
  intros Hb Hl. cbv zeta. unfold get_pkcs_padding. fold (last_byte input). pose proof (last_u8 input Hb) as Hp.
  set (n := length input) in *. set (p := last_byte input) in *. cbv zeta. cbn [fst snd].
  rewrite size_mask_ge_spec, ct_size_bool_eq_spec
    by (try apply small_size; try apply byte_size; try apply size_u64, byte_size; auto; try lia; unfold is_u64, is_u8; lia).
  set (bad0 := Z.lor _ (if p =? 0 then 1 else 0)).
  assert (Hbad0 : is_u8 bad0 /\ (bad0 = 0 <-> 0 < p <= Z.of_nat n)).
  { unfold bad0, is_u8 in *. destruct (Z.ltb_spec (Z.of_nat n) p), (Z.eqb_spec p 0); closed_lor; lia. }
  destruct Hbad0 as [Hbad0 Hiff0].
  destruct (bad_fold (fun i => Z.land (Z.lxor input.[i] p) (mbedtls_ct_size_mask_ge (Z.of_nat i) (u64 (Z.of_nat n - p)))) n bad0 Hbad0)
    as [Hr Hiff]. set (r := fold_left _ _ _) in *.
  rewrite padding_result_spec by (unfold is_u8, is_u32 in *; lia).
  split; [destruct (r =? 0); auto|]. split.
  - transitivity (r = 0); [destruct (Z.eqb_spec r 0); [tauto|]; split; [discriminate|contradiction]|].
    rewrite Hiff, Hiff0. split.
    + intros [H1 H2]. split; [exact H1|]. intros i Hi Hge. specialize (H2 i Hi).
      assert (Hk : u64 (Z.of_nat n - p) = Z.of_nat (n - Z.to_nat p)) by (rewrite u64_small; unfold is_u64; lia).
      rewrite Hk, masked_byte in H2 by first [lia | apply lxor_u8; [apply nth_u8, Hb|exact Hp]].
      destruct (Nat.ltb_spec i (n - Z.to_nat p)); [lia|]. apply Z.lxor_eq_0_iff, H2.
    + intros [H1 H2]. split; [exact H1|]. intros i Hi.
      assert (Hk : u64 (Z.of_nat n - p) = Z.of_nat (n - Z.to_nat p)) by (rewrite u64_small; unfold is_u64; lia).
      rewrite Hk, masked_byte by first [lia | apply lxor_u8; [apply nth_u8, Hb|exact Hp]].
      destruct (Nat.ltb_spec i (n - Z.to_nat p)); [reflexivity|]. rewrite (H2 i Hi) by lia. apply Z.lxor_nilpotent.
  - intros H. rewrite u64_small by (unfold is_u64, is_u8 in *; lia). unfold is_u8 in Hp. lia.
Qed.

#[export] Instance pkcs_ok : PaddingOk add_pkcs_padding get_pkcs_padding pkcs_tail.
Proof.
  split.
  - intros k _. apply length_replicate.
  - intros k H. apply Forall_replicate. unfold is_u8. lia.
  - exact add_pkcs_spec.
  - intros data k Hd Hk Hl. assert (Hlen : length (data ++ pkcs_tail k) = (length data + k)%nat)
      by (unfold pkcs_tail; rewrite length_app, length_replicate; reflexivity).
    assert (Hin : forall i, (length data <= i < length data + k)%nat -> (data ++ pkcs_tail k).[i] = Z.of_nat k).
    { intros i Hi. rewrite app_nth2 by lia. unfold pkcs_tail. rewrite nth_lookup, lookup_replicate_2 by lia. reflexivity. }
    assert (Hp : last_byte (data ++ pkcs_tail k) = Z.of_nat k) by (unfold last_byte; rewrite Hlen; apply Hin; lia).
    destruct (get_pkcs_result (data ++ pkcs_tail k)) as (_ & Hok & Hsnd).
    + apply Forall_app. split; [exact Hd|apply Forall_replicate; unfold is_u8; lia].
    + rewrite Hlen. lia.
    + rewrite Hp, Hlen in *. destruct (get_pkcs_padding _) as [ret dl]. cbn [fst snd] in *.
      rewrite (proj2 Hok), Hsnd; [f_equal; lia|lia|]. split; [lia|]. intros i H1 H2. apply Hin. lia.
  - intros input Hb Hl Hno. destruct (get_pkcs_result input Hb Hl) as ([H0|H0] & Hok & _); [|exact H0]. exfalso.
    apply Hok in H0 as [Hp Heq]. pose proof (last_u8 input Hb) as Hu. set (p := last_byte input) in *.
    apply (Hno (take (length input - Z.to_nat p) input) (Z.to_nat p)); [lia|]. unfold pkcs_tail. rewrite Z2Nat.id by lia.
    rewrite <- (drop_all_equal input) by (auto; lia). symmetry. apply take_drop.
Qed.

(** ANSI X9.23: what is checked. *)
Lemma get_zeros_and_len_result input :
  byte_list input -> (0 < length input <= 255)%nat ->
  let n := length input in let p := last_byte input in
  (fst (get_zeros_and_len_padding input) = 0 \/
   fst (get_zeros_and_len_padding input) = MBEDTLS_ERR_CIPHER_INVALID_PADDING) /\
  (fst (get_zeros_and_len_padding input) = 0 <->
     0 < p <= Z.of_nat n /\ forall i, (i < n - 1)%nat -> (n - Z.to_nat p <= i)%nat -> input.[i] = 0) /\
  (p <= Z.of_nat n -> snd (get_zeros_and_len_padding input) = Z.of_nat (n - Z.to_nat p)).
Proof.
  intros Hb Hl. cbv zeta. unfold get_zeros_and_len_padding. fold (last_byte input). pose proof (last_u8 input Hb) as Hp.
  set (n := length input) in *. set (p := last_byte input) in *. cbv zeta. cbn [fst snd].
  replace (Z.of_nat n + 1) with (Z.of_nat (S n)) by lia.
  rewrite size_mask_ge_spec, ct_size_bool_eq_spec
    by (try apply small_size; try apply byte_size; try apply size_u64, byte_size; auto; try lia; unfold is_u64, is_u8; lia).
  set (bad0 := Z.lor _ (if p =? 0 then 1 else 0)).
  assert (Hbad0 : is_u8 bad0 /\ (bad0 = 0 <-> 0 < p <= Z.of_nat n)).
  { unfold bad0, is_u8 in *. destruct (Z.ltb_spec p (Z.of_nat (S n))), (Z.eqb_spec p 0); closed_lor; lia. }
  destruct Hbad0 as [Hbad0 Hiff0].
  destruct (bad_fold (fun i => Z.land input.[i] (mbedtls_ct_size_mask_ge (Z.of_nat i) (u64 (Z.of_nat n - p)))) (n - 1) bad0 Hbad0)
    as [Hr Hiff]. set (r := fold_left _ _ _) in *.
  rewrite padding_result_spec by (unfold is_u8, is_u32 in *; lia).
  split; [destruct (r =? 0); auto|]. split.
  - transitivity (r = 0); [destruct (Z.eqb_spec r 0); [tauto|]; split; [discriminate|contradiction]|].
    rewrite Hiff, Hiff0. split.
    + intros [H1 H2]. split; [exact H1|]. intros i Hi Hge. specialize (H2 i Hi).
      assert (Hk : u64 (Z.of_nat n - p) = Z.of_nat (n - Z.to_nat p)) by (rewrite u64_small; unfold is_u64; lia).
      rewrite Hk, masked_byte in H2 by first [lia | apply nth_u8, Hb].
      destruct (Nat.ltb_spec i (n - Z.to_nat p)); [lia|exact H2].
    + intros [H1 H2]. split; [exact H1|]. intros i Hi.
      assert (Hk : u64 (Z.of_nat n - p) = Z.of_nat (n - Z.to_nat p)) by (rewrite u64_small; unfold is_u64; lia).
      rewrite Hk, masked_byte by first [lia | apply nth_u8, Hb].
      destruct (Nat.ltb_spec i (n - Z.to_nat p)); [reflexivity|]. apply H2; lia.
  - intros H. rewrite u64_small by (unfold is_u64, is_u8 in *; lia). unfold is_u8 in Hp. lia.
Qed.

Lemma zeros_and_len_length k : (0 < k)%nat -> length (zeros_and_len_tail k) = k.
Proof. intros H. unfold zeros_and_len_tail. rewrite length_app, zeros_length. cbn. lia. Qed.

#[export] Instance zeros_and_len_ok : PaddingOk add_zeros_and_len_padding get_zeros_and_len_padding zeros_and_len_tail.
Proof.
  split.
  - exact zeros_and_len_length.
  - intros k H. apply Forall_app. split; [apply zeros_bytes|]. constructor; [unfold is_u8; lia|constructor].
  - exact add_zeros_and_len_spec.
  - intros data k Hd Hk Hl. assert (Hlen : length (data ++ zeros_and_len_tail k) = (length data + k)%nat)
      by (rewrite length_app, zeros_and_len_length by exact Hk; reflexivity).
    assert (Hp : last_byte (data ++ zeros_and_len_tail k) = Z.of_nat k).
    { unfold last_byte. rewrite Hlen, app_nth2 by lia. unfold zeros_and_len_tail. rewrite app_nth2; rewrite zeros_length; [|lia].
      replace (length data + k - 1 - length data - (k - 1))%nat with 0%nat by lia. reflexivity. }
    destruct (get_zeros_and_len_result (data ++ zeros_and_len_tail k)) as (_ & Hok & Hsnd).
    + apply Forall_app. split; [exact Hd|]. apply Forall_app. split; [apply zeros_bytes|].
      constructor; [unfold is_u8; lia|constructor].
    + rewrite Hlen. lia.
    + rewrite Hp, Hlen in *. destruct (get_zeros_and_len_padding _) as [ret dl]. cbn [fst snd] in *.
      rewrite (proj2 Hok), Hsnd; [f_equal; lia|lia|]. split; [lia|]. intros i H1 H2.
      rewrite app_nth2 by lia. unfold zeros_and_len_tail. rewrite app_nth1 by (rewrite zeros_length; lia).
      unfold zeros. rewrite nth_lookup, lookup_replicate_2 by lia. reflexivity.
  - intros input Hb Hl Hno. destruct (get_zeros_and_len_result input Hb Hl) as ([H0|H0] & Hok & _); [|exact H0]. exfalso.
    apply Hok in H0 as [Hp Heq]. pose proof (last_u8 input Hb) as Hu. set (p := last_byte input) in *.
    apply (Hno (take (length input - Z.to_nat p) input) (Z.to_nat p)); [lia|].
    rewrite <- (take_drop (length input - Z.to_nat p) input) at 1. f_equal.
    apply (list_eq_nth _ _ (Z.to_nat p)); [rewrite length_drop; lia|apply zeros_and_len_length; lia|].
    intros j Hj. rewrite <- nth_add. unfold zeros_and_len_tail. destruct (decide (j = Z.to_nat p - 1)%nat) as [->|].
    + rewrite (app_nth2 (zeros _)); rewrite zeros_length; [|lia]. rewrite Nat.sub_diag. cbn [nth]. rewrite Z2Nat.id by lia.
      transitivity (input.[length input - 1]); [f_equal; lia|reflexivity].
    + rewrite (app_nth1 (zeros _)) by (rewrite zeros_length; lia). rewrite Heq by lia.
      unfold zeros. rewrite nth_lookup, lookup_replicate_2 by lia. reflexivity.
Qed.

(** ** Scanning from the end *)

(** A list is zeros, or ends in a nonzero byte and zeros. *)
Lemma last_nonzero (l : list Z) : l = zeros (length l) \/ exists data b m, l = data ++ b :: zeros m /\ b <> 0.
Proof.
  induction l as [|x l IH] using rev_ind; [left; reflexivity|]. destruct (decide (x = 0)) as [->|Hne].
  - destruct IH as [H|(data & b & m & -> & Hb)].
    + left. rewrite length_app, H, zeros_length. cbn. rewrite Nat.add_1_r. unfold zeros. rewrite replicate_S_end. reflexivity.
    + right. exists data, b, (S m). split; [|exact Hb]. rewrite <- app_assoc. cbn [app]. unfold zeros.
      rewrite replicate_S_end. reflexivity.
  - right. exists l, x, 0%nat. auto.
Qed.

Lemma nth_zeros m j : (zeros m).[j] = 0.
Proof.
  unfold zeros. destruct (Nat.lt_ge_cases j m).
  - rewrite nth_lookup, lookup_replicate_2 by assumption. reflexivity.
  - apply nth_overflow. rewrite length_replicate. assumption.
Qed.

(** The indices of such a list from the end: zeros, the byte, the rest. *)
Lemma fold_from_end {A} (turn : A -> nat -> A) data b m a :
  fold_left turn (rev (seq 0 (length (data ++ b :: zeros m)))) a =
  fold_left turn (rev (seq 0 (length data))) (turn (fold_left turn (rev (seq (S (length data)) m)) a) (length data)).
Proof.
  rewrite length_app. cbn [length]. rewrite zeros_length.
  replace (length data + S m)%nat with (length data + (1 + m))%nat by lia. rewrite !seq_app, !rev_app_distr, !fold_left_app.
  cbn [seq rev app fold_left Nat.add]. rewrite Nat.add_1_r. reflexivity.
Qed.

(** A state that a zero byte does not change. *)
Lemma fold_fixed {A} (turn : A -> nat -> A) a l : (forall i, In i l -> turn a i = a) -> fold_left turn l a = a.
Proof. induction l as [|i l IH]; intros H; [reflexivity|]. cbn. rewrite (H i) by (left; reflexivity). apply IH. intros; apply H; right; assumption. Qed.

(** The high half, which a mask of 32 bits leaves alone. *)
Definition high_half : Z := 2 ^ 64 - 2 ^ 32.

Lemma turn_zero_byte input i :
  input.[i] = 0 -> one_and_zeros_turn input (0, u64 (-1), 1) i = (0, u64 (-1), 1).
Proof.
  intros H. unfold one_and_zeros_turn. rewrite H. change (mbedtls_ct_uint_mask 0) with 0. rewrite Z.land_0_l, Z.land_0_r.
  change (u32 0) with 0. rewrite Z.land_0_l. rewrite ct_uint_if_spec by (try (unfold is_u32; lia); vm_compute; intuition discriminate).
  reflexivity.
Qed.

Lemma turn_found input i :
  is_u8 input.[i] -> input.[i] <> 0 -> Z.of_nat i < 2 ^ 32 ->
  one_and_zeros_turn input (0, u64 (-1), 1) i = (Z.of_nat i, high_half, if input.[i] =? 0x80 then 0 else 1).
Proof.
  intros Hb Hne Hi. unfold one_and_zeros_turn. rewrite ct_uint_mask_spec by (unfold is_u8, is_u32 in *; lia).
  destruct (Z.eqb_spec input.[i] 0); [contradiction|].
  change (Z.land 4294967295 (u64 (-1))) with 4294967295. rewrite Z.land_0_l, Z.lor_0_l.
  change (u32 4294967295) with 4294967295. change (Z.land (u64 (-1)) (u64 (Z.lnot 4294967295))) with high_half.
  change 4294967295 with (Z.ones 32) at 1. rewrite Z.land_ones, Z.mod_small by lia.
  rewrite ct_size_bool_eq_spec by (unfold is_u8, is_u64 in *; lia).
  rewrite ct_uint_if_spec by (destruct (input.[i] =? 128); unfold is_u32; lia). destruct (input.[i] =? 128); reflexivity.
Qed.

Lemma turn_after input i data_len bad :
  is_u8 input.[i] -> 0 <= data_len < 2 ^ 32 -> is_u32 bad ->
  one_and_zeros_turn input (data_len, high_half, bad) i = (data_len, high_half, bad).
Proof.
  intros Hb Hd Hbad. unfold one_and_zeros_turn. rewrite ct_uint_mask_spec by (unfold is_u8, is_u32 in *; lia).
  assert (Hh : forall c : bool, Z.land (if c then 0 else 4294967295) high_half = 0 /\
    Z.land high_half (u64 (Z.lnot (if c then 0 else 4294967295))) = high_half) by (intros []; split; reflexivity).
  destruct (Hh (input.[i] =? 0)) as [-> ->]. rewrite Z.land_0_r, Z.lor_0_r.
  change (u64 (Z.lnot 0)) with (Z.ones 64). rewrite Z.land_ones by lia.
  rewrite Z.mod_small by (split; [lia|]; eapply Z.lt_trans; [apply Hd|reflexivity]).
  change (u32 0) with 0. rewrite ct_size_bool_eq_spec by (unfold is_u8, is_u64 in *; lia).
  rewrite ct_uint_if_spec by (destruct (input.[i] =? 128); unfold is_u32 in *; lia). reflexivity.
Qed.

Lemma get_one_and_zeros_result data b m :
  byte_list (data ++ b :: zeros m) -> b <> 0 -> Z.of_nat (length data) < 2 ^ 32 ->
  get_one_and_zeros_padding (data ++ b :: zeros m) =
  (if b =? 0x80 then 0 else MBEDTLS_ERR_CIPHER_INVALID_PADDING, Z.of_nat (length data)).
Proof.
  intros Hbytes Hne Hl. set (input := data ++ b :: zeros m) in *.
  assert (Hat : input.[length data] = b) by (unfold input; rewrite app_nth2, Nat.sub_diag by lia; reflexivity).
  unfold get_one_and_zeros_padding. unfold input at 2. rewrite fold_from_end.
  rewrite (fold_fixed _ (0, u64 (-1), 1)).
  2:{ intros i Hi%in_rev%in_seq. apply turn_zero_byte. unfold input. rewrite app_nth2 by lia.
      replace (i - length data)%nat with (S (i - S (length data))) by lia. cbn [nth]. apply nth_zeros. }
  rewrite turn_found by (rewrite ?Hat; auto; rewrite <- Hat; apply nth_u8, Hbytes).
  rewrite Hat, fold_fixed.
  - rewrite padding_result_spec by (destruct (b =? 128); unfold is_u32; lia). destruct (b =? 128); reflexivity.
  - intros i Hi%in_rev%in_seq. apply turn_after; [apply nth_u8, Hbytes|lia|]. destruct (b =? 128); unfold is_u32; lia.
Qed.

Lemma one_and_zeros_length k : (0 < k)%nat -> length (one_and_zeros_tail k) = k.
Proof. intros H. unfold one_and_zeros_tail. cbn [length]. rewrite zeros_length. lia. Qed.

#[export] Instance one_and_zeros_ok : PaddingOk add_one_and_zeros_padding get_one_and_zeros_padding one_and_zeros_tail.
Proof.
  split.
  - exact one_and_zeros_length.
  - intros k _. constructor; [unfold is_u8; lia|apply zeros_bytes].
  - exact add_one_and_zeros_spec.
  - intros data k Hd Hk Hl. unfold one_and_zeros_tail. rewrite get_one_and_zeros_result; [reflexivity| |discriminate|].
    + apply Forall_app. split; [exact Hd|]. constructor; [unfold is_u8; lia|apply zeros_bytes].
    + change (2 ^ 32) with 4294967296. lia.
  - intros input Hb Hl Hno. destruct (last_nonzero input) as [Hz|(data & b & m & -> & Hne)].
    + unfold get_one_and_zeros_padding. rewrite (fold_fixed _ (0, u64 (-1), 1)); [reflexivity|].
      intros i _. apply turn_zero_byte. rewrite Hz. apply nth_zeros.
    + rewrite length_app in Hl. rewrite get_one_and_zeros_result; [|exact Hb|exact Hne|change (2 ^ 32) with 4294967296; lia].
      cbn [fst]. destruct (Z.eqb_spec b 128) as [->|]; [|reflexivity]. exfalso. apply (Hno data (S m)); [lia|].
      unfold one_and_zeros_tail. replace (S m - 1)%nat with m by lia. reflexivity.
Qed.

(** Zero padding cannot be told from data: all zeros at the end are taken off. *)
Lemma get_zeros_result data b m :
  byte_list (data ++ b :: zeros m) -> b <> 0 -> Z.of_nat (length data) < 2 ^ 63 - 1 ->
  get_zeros_padding (data ++ b :: zeros m) = (0, Z.of_nat (S (length data))).
Proof.
  intros Hbytes Hne Hl. change (2 ^ 63) with 9223372036854775808 in Hl. set (input := data ++ b :: zeros m) in *.
  assert (Hat : input.[length data] = b) by (unfold input; rewrite app_nth2, Nat.sub_diag by lia; reflexivity).
  unfold get_zeros_padding. unfold input at 2. rewrite fold_from_end. rewrite (fold_fixed _ (0, 0)).
  2:{ intros i Hi%in_rev%in_seq. unfold zeros_turn. replace (input.[i]) with 0.
      - change (mbedtls_ct_size_mask (Z.lxor (Z.lor 0 (1 - mbedtls_ct_size_bool_eq 0 0)) 0)) with 0. rewrite Z.land_0_r. reflexivity.
      - unfold input. rewrite app_nth2 by lia.
        replace (i - length data)%nat with (S (i - S (length data))) by lia. cbn [nth]. symmetry. apply nth_zeros. }
  assert (Hfound : zeros_turn input (0, 0) (length data) = (Z.of_nat (S (length data)), 1)).
  { unfold zeros_turn. rewrite Hat, ct_size_bool_eq_spec.
    - destruct (Z.eqb_spec b 0); [contradiction|]. change (mbedtls_ct_size_mask (Z.lxor (Z.lor 0 (1 - 0)) 0)) with (Z.ones 64).
      rewrite Z.land_ones, Z.mod_small by lia. reflexivity.
    - pose proof (nth_u8 _ (length data) Hbytes) as H. rewrite Hat in H. unfold is_u8, is_u64 in *. lia.
    - unfold is_u64. lia. }
  rewrite Hfound, fold_fixed; [reflexivity|]. intros i _. unfold zeros_turn.
  rewrite ct_size_bool_eq_spec; [|pose proof (nth_u8 _ i Hbytes) as H; unfold is_u8, is_u64 in *; lia|unfold is_u64; lia].
  assert (Hone : Z.lor 1 (1 - (if input.[i] =? 0 then 1 else 0)) = 1) by (destruct (input.[i] =? 0); reflexivity).
  rewrite Hone. change (mbedtls_ct_size_mask (Z.lxor 1 1)) with 0. rewrite Z.land_0_r, Z.lor_0_r. reflexivity.
Qed.

End padding.

Module cipher_modes.
Import padding.

(** ** Contexts with a padding *)

Definition aes_128_cbc_info := Build_mbedtls_cipher_info_t
  MBEDTLS_CIPHER_AES_128_CBC MBEDTLS_MODE_CBC 128 "AES-128-CBC" 16 0 16 aes_info.
Definition aes_192_cbc_info := Build_mbedtls_cipher_info_t
  MBEDTLS_CIPHER_AES_192_CBC MBEDTLS_MODE_CBC 192 "AES-192-CBC" 16 0 16 aes_info.
Definition aes_256_cbc_info := Build_mbedtls_cipher_info_t
  MBEDTLS_CIPHER_AES_256_CBC MBEDTLS_MODE_CBC 256 "AES-256-CBC" 16 0 16 aes_info.

Definition aes_128_cfb128_info := Build_mbedtls_cipher_info_t
  MBEDTLS_CIPHER_AES_128_CFB128 MBEDTLS_MODE_CFB 128 "AES-128-CFB128" 16 0 16 aes_info.
Definition aes_192_cfb128_info := Build_mbedtls_cipher_info_t
  MBEDTLS_CIPHER_AES_192_CFB128 MBEDTLS_MODE_CFB 192 "AES-192-CFB128" 16 0 16 aes_info.
Definition aes_256_cfb128_info := Build_mbedtls_cipher_info_t
  MBEDTLS_CIPHER_AES_256_CFB128 MBEDTLS_MODE_CFB 256 "AES-256-CFB128" 16 0 16 aes_info.

Definition aes_128_ofb_info := Build_mbedtls_cipher_info_t
  MBEDTLS_CIPHER_AES_128_OFB MBEDTLS_MODE_OFB 128 "AES-128-OFB" 16 0 16 aes_info.
Definition aes_192_ofb_info := Build_mbedtls_cipher_info_t
  MBEDTLS_CIPHER_AES_192_OFB MBEDTLS_MODE_OFB 192 "AES-192-OFB" 16 0 16 aes_info.
Definition aes_256_ofb_info := Build_mbedtls_cipher_info_t
  MBEDTLS_CIPHER_AES_256_OFB MBEDTLS_MODE_OFB 256 "AES-256-OFB" 16 0 16 aes_info.

(** The context of Cipher and its two function pointers, which the options of CBC
    add to it; [None] while they are not set. *)
Record mode_context := {
  layer : mbedtls_cipher_context_t mbedtls_aes_context;
  functions : option padding_functions }.

#[export] Instance eta_mode_context : Eta mode_context := fun r => Build_mode_context (layer r) (functions r).

Definition has_add (ctx : mode_context) : bool :=
  match functions ctx with Some {| add_padding := Some _ |} => true | _ => false end.

Definition mbedtls_cipher_set_padding_mode (ctx : mode_context) (padding : mbedtls_cipher_padding_t) : Z * mode_context :=
  match cipher_info (layer ctx) with
  | None => (MBEDTLS_ERR_CIPHER_BAD_INPUT_DATA, ctx)
  | Some info =>
      if negb (bool_decide (mode info = MBEDTLS_MODE_CBC)) then (MBEDTLS_ERR_CIPHER_BAD_INPUT_DATA, ctx) else
      match padding_of padding with
      | None => (MBEDTLS_ERR_CIPHER_FEATURE_UNAVAILABLE, ctx)
      | Some f => (0, ctx <| functions := Some f |>)
      end
  end.

(** [mbedtls_cipher_setup] ends by choosing PKCS#7; its outcome is ignored. *)
Definition modes_setup (alloc : bool) (ctx : mode_context) (info : option mbedtls_cipher_info_t) : Z * mode_context :=
  let '(ret, l) := mbedtls_cipher_setup alloc (layer ctx) info in
  if negb (ret =? 0) then (ret, {| layer := l; functions := None |}) else
  (0, snd (mbedtls_cipher_set_padding_mode {| layer := l; functions := None |} MBEDTLS_PADDING_PKCS7)).

Definition aes_crypt_cbc_wrap (st : aes_statics) (ctx : mbedtls_aes_context) (op : mbedtls_operation_t)
  (iv input : list Z) : Z * list Z * list Z :=
  mbedtls_aes_crypt_cbc st ctx (operation_value op) iv input.

Definition aes_crypt_cfb128_wrap (st : aes_statics) (ctx : mbedtls_aes_context) (op : mbedtls_operation_t)
  (s : feedback_state) (input : list Z) : Z * feedback_state * list Z :=
  mbedtls_aes_crypt_cfb128 st ctx (operation_value op) s input.

Definition aes_crypt_ofb_wrap (st : aes_statics) (ctx : mbedtls_aes_context) (s : feedback_state) (input : list Z)
  : Z * feedback_state * list Z := mbedtls_aes_crypt_ofb st ctx s input.

(** ** Update *)

(** "If there is not enough data for a full block, cache it." *)
Definition not_enough (ctx : mode_context) (block_size ilen : nat) : bool :=
  let left := (block_size - unprocessed_len (layer ctx))%nat in
  (bool_decide (operation (layer ctx) = MBEDTLS_DECRYPT) && has_add ctx && (ilen <=? left)%nat) ||
  (bool_decide (operation (layer ctx) = MBEDTLS_DECRYPT) && negb (has_add ctx) && (ilen <? left)%nat) ||
  (bool_decide (operation (layer ctx) = MBEDTLS_ENCRYPT) && (ilen <? left)%nat).

(** "Process cached data first": the code, the context, the output and the input
    that is left. *)
Definition process_cached (st : aes_statics) (ctx : mode_context) (o : mbedtls_aes_context) (block_size : nat)
  (input : list Z) : Z * mode_context * list Z * list Z :=
  let l := layer ctx in
  if (unprocessed_len l =? 0)%nat then (0, ctx, [], input) else
  let copy_len := (block_size - unprocessed_len l)%nat in
  let data := memcpy_at (unprocessed_len l) (take copy_len input) (unprocessed_data l) in
  let '(ret, iv', output) := aes_crypt_cbc_wrap st o (operation l) (iv l) (take block_size data) in
  let l := l <| unprocessed_data := data |> <| iv := iv' |> in
  if negb (ret =? 0) then (ret, ctx <| layer := l |>, output, input)
  else (0, ctx <| layer := l <| unprocessed_len := 0%nat |> |>, output, drop copy_len input).

(** "Cache final, incomplete block": the context and the length to process. *)
Definition cache_final (ctx : mode_context) (block_size : nat) (input : list Z) : mode_context * nat :=
  let l := layer ctx in
  let ilen := length input in
  if (ilen =? 0)%nat then (ctx, ilen) else
  let copy_len := (ilen mod block_size)%nat in
  let copy_len :=
    if (copy_len =? 0)%nat && bool_decide (operation l = MBEDTLS_DECRYPT) && has_add ctx
    then block_size else copy_len in
  let data := memcpy_at 0 (drop (ilen - copy_len) input) (unprocessed_data l) in
  (ctx <| layer := l <| unprocessed_data := data |> <| unprocessed_len := (unprocessed_len l + copy_len)%nat |> |>,
   (ilen - copy_len)%nat).

(** The branch of MBEDTLS_MODE_CBC: the code, the context, the bytes written and
    [*olen]. *)
Definition update_cbc (st : aes_statics) (ctx : mode_context) (o : mbedtls_aes_context) (block_size : nat)
  (input : list Z) : Z * mode_context * list Z * nat :=
  if not_enough ctx block_size (length input) then
    let l := layer ctx in
    (0, ctx <| layer := l <| unprocessed_data := memcpy_at (unprocessed_len l) input (unprocessed_data l) |>
                          <| unprocessed_len := (unprocessed_len l + length input)%nat |> |>, [], O)
  else
    let '(ret, ctx, output, input) := process_cached st ctx o block_size input in
    if negb (ret =? 0) then (ret, ctx, output, O) else
    let olen := length output in
    let '(ctx, ilen) := cache_final ctx block_size input in
    if (ilen =? 0)%nat then (0, ctx, output, olen) else
    let l := layer ctx in
    let '(ret, iv', rest) := aes_crypt_cbc_wrap st o (operation l) (iv l) (take ilen input) in
    let ctx := ctx <| layer := l <| iv := iv' |> |> in
    if negb (ret =? 0) then (ret, ctx, output ++ rest, olen) else (0, ctx, output ++ rest, (olen + ilen)%nat).

(** The branches of MBEDTLS_MODE_CFB and MBEDTLS_MODE_OFB, which differ in the
    function they call. *)
Definition update_feedback
  (crypt : mbedtls_aes_context -> feedback_state -> list Z -> Z * feedback_state * list Z)
  (ctx : mode_context) (o : mbedtls_aes_context) (input : list Z) : Z * mode_context * list Z * nat :=
  let l := layer ctx in
  let '(ret, s, output) := crypt o {| iv_off := Z.of_nat (unprocessed_len l); aes_modes.iv := iv l |} input in
  let ctx := ctx <| layer := l <| unprocessed_len := Z.to_nat (iv_off s) |> <| iv := aes_modes.iv s |> |> in
  if negb (ret =? 0) then (ret, ctx, output, O) else (0, ctx, output, length input).

(** The whole function: the other modes are those of Cipher. *)
Definition modes_update (st : aes_statics) (ctx : mode_context) (in_place : bool) (input : list Z)
  : Z * mode_context * list Z * nat :=
  with_cipher (layer ctx) (MBEDTLS_ERR_CIPHER_BAD_INPUT_DATA, ctx, [], O) (fun info o =>
    let block_size := mbedtls_cipher_get_block_size (layer ctx) in
    let in_mode m := bool_decide (mode info = m) in
    if (block_size =? 0)%nat then (MBEDTLS_ERR_CIPHER_INVALID_CONTEXT, ctx, [], O)
    else if negb (in_mode MBEDTLS_MODE_CBC || in_mode MBEDTLS_MODE_CFB || in_mode MBEDTLS_MODE_OFB) then
      let '(ret, l, output, olen) := mbedtls_cipher_update st (layer ctx) in_place input in
      (ret, ctx <| layer := l |>, output, olen)
    else if in_place && (negb (unprocessed_len (layer ctx) =? 0)%nat || negb (length input mod block_size =? 0)%nat)
    then (MBEDTLS_ERR_CIPHER_BAD_INPUT_DATA, ctx, [], O)
    else if in_mode MBEDTLS_MODE_CBC then update_cbc st ctx o block_size input
    else if in_mode MBEDTLS_MODE_CFB
    then update_feedback (fun o => aes_crypt_cfb128_wrap st o (operation (layer ctx))) ctx o input
    else update_feedback (aes_crypt_ofb_wrap st) ctx o input).

(** ** Finish *)

(** The last block: the code, the context, the bytes written and [*olen]; [None] if
    the padding loop does not end. *)
Definition finish_block (st : aes_statics) (ctx : mode_context) (o : mbedtls_aes_context) (data : list Z)
  : Z * mode_context * list Z * Z :=
  let l := layer ctx in
  let block_size := mbedtls_cipher_get_block_size l in
  let '(ret, iv', output) := aes_crypt_cbc_wrap st o (operation l) (iv l) (take block_size data) in
  let ctx := ctx <| layer := l <| unprocessed_data := data |> <| iv := iv' |> |> in
  if negb (ret =? 0) then (ret, ctx, output, 0)
  else if bool_decide (operation l = MBEDTLS_DECRYPT)
  then match functions ctx with
       | Some f => let '(ret, olen) := get_padding f output in (ret, ctx, output, olen)
       | None => (MBEDTLS_ERR_CIPHER_BAD_INPUT_DATA, ctx, output, 0)
       end
  else (0, ctx, output, Z.of_nat block_size).

Definition modes_finish (st : aes_statics) (ctx : mode_context) : option (Z * mode_context * list Z * Z) :=
  let l := layer ctx in
  with_cipher l (Some (MBEDTLS_ERR_CIPHER_BAD_INPUT_DATA, ctx, [], 0)) (fun info o =>
    if negb (bool_decide (mode info = MBEDTLS_MODE_CBC)) then
      let '(ret, olen) := mbedtls_cipher_finish l in Some (ret, ctx, [], Z.of_nat olen)
    else if bool_decide (operation l = MBEDTLS_ENCRYPT) then
      match functions ctx with
      | Some {| add_padding := Some add |} =>
          data ← add (unprocessed_data l) (mbedtls_cipher_get_iv_size l) (unprocessed_len l);
          Some (finish_block st ctx o data)
      | _ =>
          if negb (unprocessed_len l =? 0)%nat then Some (MBEDTLS_ERR_CIPHER_FULL_BLOCK_EXPECTED, ctx, [], 0)
          else Some (0, ctx, [], 0)
      end
    else if negb (mbedtls_cipher_get_block_size l =? unprocessed_len l)%nat then
      if negb (has_add ctx) && (unprocessed_len l =? 0)%nat then Some (0, ctx, [], 0)
      else Some (MBEDTLS_ERR_CIPHER_FULL_BLOCK_EXPECTED, ctx, [], 0)
    else Some (finish_block st ctx o (unprocessed_data l))).

(** [mbedtls_cipher_crypt] with these update and finish functions. *)
Definition modes_crypt (st : aes_statics) (ctx : mode_context) (iv_ : list Z) (in_place : bool) (input : list Z)
  : option (Z * mode_context * list Z * Z) :=
  let '(ret, l) := mbedtls_cipher_set_iv (layer ctx) iv_ in
  if negb (ret =? 0) then Some (ret, ctx <| layer := l |>, [], 0) else
  let '(ret, l) := mbedtls_cipher_reset l in
  if negb (ret =? 0) then Some (ret, ctx <| layer := l |>, [], 0) else
  let '(ret, ctx, output, olen) := modes_update st (ctx <| layer := l |>) in_place input in
  if negb (ret =? 0) then Some (ret, ctx, output, Z.of_nat olen) else
  '(ret, ctx, last, finish_olen) ← modes_finish st ctx;
  Some (ret, ctx, output ++ last, if ret =? 0 then Z.of_nat olen + finish_olen else Z.of_nat olen).

(** ** A client *)

Fixpoint modes_updates (st : aes_statics) (ctx : mode_context) (pieces : list (list Z)) : Z * mode_context * list Z :=
  match pieces with
  | [] => (0, ctx, [])
  | piece :: pieces =>
      let '(ret, ctx, output, olen) := modes_update st ctx false piece in
      if negb (ret =? 0) then (ret, ctx, output) else
      let '(ret, ctx, rest) := modes_updates st ctx pieces in
      (ret, ctx, take olen output ++ rest)
  end.

(** A context that is keyed, given an initial vector and a message in pieces: the
    code and the bytes it makes of them. *)
Definition send_message (st : aes_statics) (ctx : mode_context) (iv_ : list Z) (pieces : list (list Z))
  : option (Z * list Z) :=
  let '(ret, l) := mbedtls_cipher_set_iv (layer ctx) iv_ in
  if negb (ret =? 0) then Some (ret, []) else
  let '(ret, l) := mbedtls_cipher_reset l in
  if negb (ret =? 0) then Some (ret, []) else
  let '(ret, ctx, output) := modes_updates st (ctx <| layer := l |>) pieces in
  if negb (ret =? 0) then Some (ret, output) else
  '(ret, ctx, last, olen) ← modes_finish st ctx;
  Some (ret, output ++ take (Z.to_nat olen) last).

(** With the choice of a padding, for CBC. *)
Definition cbc_message (st : aes_statics) (ctx : mode_context) (padding : mbedtls_cipher_padding_t) (iv_ : list Z)
  (pieces : list (list Z)) : option (Z * list Z) :=
  let '(ret, ctx) := mbedtls_cipher_set_padding_mode ctx padding in
  if negb (ret =? 0) then Some (ret, []) else send_message st ctx iv_ pieces.

Definition modes_init : mode_context := {| layer := mbedtls_cipher_init; functions := None |}.

(** Set up and keyed. *)
Definition modes_keyed (st : aes_statics) (info : mbedtls_cipher_info_t) (key : list Z) (op : mbedtls_operation_t)
  : Z * aes_statics * mode_context :=
  let '(ret, ctx) := modes_setup true modes_init (Some info) in
  if negb (ret =? 0) then (ret, st, ctx) else
  let '(ret, st, l) := mbedtls_cipher_setkey st (layer ctx) key (info_key_bitlen info) op in
  (ret, st, ctx <| layer := l |>).

(** The same message through both directions, cut differently. *)
Example cbc_both_ways :
  let key := map Z.of_nat (seq 0 16) in
  let message := map Z.of_nat (seq 40 21) in
  let '(_, st, e) := modes_keyed aes_statics_init aes_128_cbc_info key MBEDTLS_ENCRYPT in
  let '(_, st, d) := modes_keyed st aes_128_cbc_info key MBEDTLS_DECRYPT in
  match cbc_message st e MBEDTLS_PADDING_PKCS7 (zeros 16) [take 5 message; drop 5 message] with
  | Some (0, c) =>
      length c = 32%nat /\
      cbc_message st d MBEDTLS_PADDING_PKCS7 (zeros 16) [take 16 c; take 7 (drop 16 c); drop 23 c] = Some (0, message)
  | _ => False
  end.
Proof. vm_compute. auto. Qed.

(** ** A stream of updates *)

(** What CBC in one direction does to [n] blocks from an initial vector, and the
    vector that follows: the code computes it, and it composes. *)
Class BlockMode (st : aes_statics) (o : mbedtls_aes_context) (op : mbedtls_operation_t)
  (G N : nat -> list Z -> list Z -> list Z) : Prop := {
  mode_code : forall n iv x, is_state iv -> (16 * n)%nat = length x -> byte_list x ->
    aes_crypt_cbc_wrap st o op iv x = (0, N n iv x, G n iv x) /\ is_state (N n iv x) /\ length (G n iv x) = length x;
  mode_app : forall n m iv a b, is_state iv -> (16 * n)%nat = length a -> byte_list a ->
    G (n + m)%nat iv (a ++ b) = G n iv a ++ G m (N n iv a) b /\ N (n + m)%nat iv (a ++ b) = N m (N n iv a) b;
  mode_nil : forall iv, G 0%nat iv [] = [] /\ N 0%nat iv [] = iv }.

Section stream.
Context {st : aes_statics} {o : mbedtls_aes_context} {op : mbedtls_operation_t} {G N : nat -> list Z -> list Z -> list Z}.
Context {HM : BlockMode st o op G N} (iv0 : list Z) (Hiv0 : is_state iv0) (f : padding_functions).

(** Decryption with a padding keeps a whole block back. *)
Definition keep : bool :=
  bool_decide (op = MBEDTLS_DECRYPT) && match add_padding f with Some _ => true | None => false end.

(** The blocks that [len] bytes let through. *)
Definition through (len : nat) : nat := if keep then ((len - 1) / 16)%nat else (len / 16)%nat.

(** A context that has consumed [X] and processed its first [q] blocks. *)
Definition at_blocks (X : list Z) (q : nat) (ctx : mode_context) : Prop :=
  functions ctx = Some f /\
  let l := layer ctx in
  (cipher_ctx l = Some o /\ operation l = op /\
   exists info, cipher_info l = Some info /\ mode info = MBEDTLS_MODE_CBC /\ block_size info = 16%nat /\
     mbedtls_cipher_get_iv_size l = 16%nat) /\
  unprocessed_len l = (length X - 16 * q)%nat /\ length (unprocessed_data l) = 16%nat /\
  take (unprocessed_len l) (unprocessed_data l) = drop (16 * q) X /\
  iv l = N q iv0 (take (16 * q) X).

Definition consumed (X : list Z) : mode_context -> Prop := at_blocks X (through (length X)).

(** The output for the blocks processed. *)
Definition produced (X : list Z) (q : nat) : list Z := G q iv0 (take (16 * q) X).

Lemma through_bounds len :
  (16 * through len <= len)%nat /\ (len - 16 * through len <= 16)%nat /\ (keep = false -> (len - 16 * through len < 16)%nat).
Proof.
  unfold through. destruct keep.
  - pose proof (Nat.div_mod_eq (len - 1) 16). pose proof (Nat.mod_upper_bound (len - 1) 16 ltac:(lia)).
    split; [lia|]. split; [lia|discriminate].
  - pose proof (Nat.div_mod_eq len 16). pose proof (Nat.mod_upper_bound len 16 ltac:(lia)). lia.
Qed.

(** Where the count of blocks lies. *)
Lemma through_unique len q :
  (16 * q <= len)%nat -> (if keep then (q = 0 \/ 16 * q < len) /\ len <= 16 * q + 16 else len < 16 * q + 16)%nat ->
  through len = q.
Proof.
  intros H1 H2. unfold through. destruct keep.
  - destruct H2 as [[-> | H2] H3]; [apply Nat.div_small; lia|].
    symmetry. apply (Nat.div_unique _ _ _ (len - 1 - 16 * q)); lia.
  - symmetry. apply (Nat.div_unique _ _ _ (len - 16 * q)); lia.
Qed.

Lemma has_add_spec ctx : functions ctx = Some f -> operation (layer ctx) = op ->
  bool_decide (operation (layer ctx) = MBEDTLS_DECRYPT) && has_add ctx = keep.
Proof. intros Hf Ho. unfold has_add, keep. rewrite Hf, Ho. destruct f as [[a|] g]; reflexivity. Qed.

Lemma not_enough_spec ctx ilen :
  functions ctx = Some f -> operation (layer ctx) = op -> op <> MBEDTLS_OPERATION_NONE ->
  not_enough ctx 16 ilen =
  if keep then (ilen <=? 16 - unprocessed_len (layer ctx))%nat else (ilen <? 16 - unprocessed_len (layer ctx))%nat.
Proof.
  intros Hf Ho Hop. unfold not_enough, keep, has_add. rewrite Hf, Ho. destruct f as [[a|] g], op; try congruence;
    cbn -[Nat.ltb Nat.leb]; rewrite ?andb_false_r, ?orb_false_r, ?andb_true_r; reflexivity.
Qed.

Lemma initial_vector q X : (16 * q <= length X)%nat -> byte_list X -> is_state (N q iv0 (take (16 * q) X)).
Proof. intros H Hb. apply mode_code; [exact Hiv0|rewrite length_take; lia|apply Forall_take, Hb]. Qed.

(** A buffer with the bytes after [16 * q] of [X] in front, when [Y] is written
    behind them. *)
Lemma cached_bytes (buf X Y : list Z) u q :
  length buf = 16%nat -> u = (length X - 16 * q)%nat -> (16 * q <= length X)%nat -> (u + length Y <= 16)%nat ->
  take u buf = drop (16 * q) X ->
  length (memcpy_at u Y buf) = 16%nat /\ take (u + length Y) (memcpy_at u Y buf) = drop (16 * q) (X ++ Y).
Proof.
  intros Hb Hu Hq Hl Ht. split; [rewrite memcpy_at_length; lia|].
  rewrite take_memcpy_at by lia. rewrite Ht, drop_app_le by lia. reflexivity.
Qed.

(** More blocks of the same message. *)
Lemma produced_more X Y q n :
  length X = (16 * q)%nat -> byte_list X -> (16 * n <= length Y)%nat ->
  produced (X ++ Y) (q + n) = produced X q ++ G n (N q iv0 X) (take (16 * n) Y) /\
  N (q + n)%nat iv0 (take (16 * (q + n)) (X ++ Y)) = N n (N q iv0 X) (take (16 * n) Y).
Proof.
  intros Hl Hb Hn. unfold produced. rewrite (take_ge X) by lia.
  assert (Ht : take (16 * (q + n)) (X ++ Y) = X ++ take (16 * n) Y).
  { rewrite take_app_ge by lia. do 2 f_equal. lia. }
  rewrite Ht. apply mode_app; auto.
Qed.

Lemma process_cached_spec X q ctx Y :
  at_blocks X q ctx -> (16 * q <= length X <= 16 * q + 16)%nat -> byte_list X -> byte_list Y ->
  (length X = 16 * q \/ 16 * q + 16 <= length X + length Y)%nat ->
  let k := if (length X =? 16 * q)%nat then 0%nat else (16 * q + 16 - length X)%nat in
  exists ctx1 out1 q1, process_cached st ctx o 16 Y = (0, ctx1, out1, drop k Y) /\
    at_blocks (X ++ take k Y) q1 ctx1 /\ length (X ++ take k Y) = (16 * q1)%nat /\ (k <= length Y)%nat /\
    (q <= q1)%nat /\ produced (X ++ take k Y) q1 = produced X q ++ out1.
Proof.
  intros (Hf & (Ho & Hop & Hinfo) & Hu & Hd & Ht & Hiv) Hq HX HY Hen. cbv zeta. unfold process_cached. rewrite Hu.
  destruct (Nat.eqb_spec (length X) (16 * q)) as [H0|H0].
  - rewrite H0, Nat.sub_diag. cbn [Nat.eqb]. exists ctx, [], q. change (take 0 Y) with (@nil Z). rewrite !app_nil_r.
    change (drop 0 Y) with Y. repeat split; auto; lia.
  - destruct (Nat.eqb_spec (length X - 16 * q) 0); [lia|].
    replace (16 - (length X - 16 * q))%nat with (16 * q + 16 - length X)%nat by lia.
    set (k := (16 * q + 16 - length X)%nat). set (u := (length X - 16 * q)%nat) in *.
    assert (Hk : length (take k Y) = k) by (rewrite length_take; lia).
    destruct (cached_bytes (unprocessed_data (layer ctx)) X (take k Y) u q Hd eq_refl ltac:(lia) ltac:(lia)
      ltac:(rewrite <- Hu; exact Ht)) as [Hdl Hdt].
    set (data := memcpy_at u (take k Y) (unprocessed_data (layer ctx))) in *.
    rewrite Hk in Hdt. replace (u + k)%nat with 16%nat in Hdt by lia. rewrite Hdt.
    assert (Hbytes : byte_list (X ++ take k Y)) by (apply Forall_app; split; [exact HX|apply Forall_take, HY]).
    assert (Hlen : length (X ++ take k Y) = (16 * (q + 1))%nat) by (rewrite length_app, Hk; lia).
    destruct (mode_code 1 (iv (layer ctx)) (drop (16 * q) (X ++ take k Y))) as (Hcode & Hs & Hgl).
    { rewrite Hiv. apply initial_vector; [lia|exact HX]. } { rewrite length_drop. lia. } { apply Forall_drop, Hbytes. }
    rewrite Hop, Hcode. cbn [Z.eqb negb]. do 2 eexists. exists (q + 1)%nat. split; [reflexivity|].
    destruct (produced_more (take (16 * q) X) (drop (16 * q) (X ++ take k Y)) q 1) as [Hp Hn];
      [rewrite length_take; lia|apply Forall_take, HX|rewrite length_drop; lia|].
    assert (Hjoin : take (16 * q) X ++ drop (16 * q) (X ++ take k Y) = X ++ take k Y).
    { rewrite drop_app_le, app_assoc, take_drop by lia. reflexivity. }
    rewrite Hjoin in Hp, Hn. rewrite (take_ge (drop _ _)) in Hp, Hn by (rewrite length_drop; lia).
    split; [|repeat split; try lia].
    + split; [exact Hf|]. cbn -[Nat.mul Nat.sub Nat.add length app]. split; [split; [exact Ho|split; [exact Hop|]]|].
      * destruct Hinfo as (info & Hi & Hm & Hbs & His). exists info. repeat split; auto.
      * split; [lia|]. split; [exact Hdl|]. split; [symmetry; apply nil_length_inv; rewrite length_drop; lia|].
        rewrite Hiv. symmetry. exact Hn.
    + rewrite Hp, Hiv. f_equal. unfold produced. rewrite take_take, Nat.min_id. reflexivity.
Qed.

(** What is cached of [Y], [c] bytes, and the blocks before it. *)
Lemma cache_final_spec X q ctx Y :
  at_blocks X q ctx -> length X = (16 * q)%nat -> op <> MBEDTLS_OPERATION_NONE ->
  exists n ctx1, cache_final ctx 16 Y = (ctx1, (16 * n)%nat) /\
    functions ctx1 = Some f /\ cipher_ctx (layer ctx1) = Some o /\ operation (layer ctx1) = op /\
    cipher_info (layer ctx1) = cipher_info (layer ctx) /\ iv_size (layer ctx1) = iv_size (layer ctx) /\
    iv (layer ctx1) = iv (layer ctx) /\
    (16 * n <= length Y)%nat /\ unprocessed_len (layer ctx1) = (length Y - 16 * n)%nat /\
    length (unprocessed_data (layer ctx1)) = 16%nat /\
    take (length Y - 16 * n) (unprocessed_data (layer ctx1)) = drop (16 * n) Y /\
    (if keep then (length Y = 0 \/ 16 * n < length Y) /\ length Y <= 16 * n + 16 else length Y < 16 * n + 16)%nat.
Proof.
  intros (Hf & (Ho & Hop & _) & Hu & Hd & _ & _) H0 Hne. unfold cache_final.
  assert (Hul : unprocessed_len (layer ctx) = 0%nat) by lia.
  destruct (Nat.eqb_spec (length Y) 0) as [Hy|Hy].
  { exists 0%nat, ctx. rewrite Hy. split; [reflexivity|]. repeat split; auto; try lia; [|destruct keep; lia].
    destruct Y; [reflexivity|discriminate]. }
  pose proof (has_add_spec ctx Hf Hop) as Hkeep.
  rewrite <- andb_assoc, Hkeep. set (c := if _ && keep then 16%nat else _).
  pose proof (Nat.div_mod_eq (length Y) 16) as Hdiv. pose proof (Nat.mod_upper_bound (length Y) 16 ltac:(lia)) as Hmod.
  assert (Hc : exists n, (length Y = 16 * n + c /\ c <= 16)%nat /\
    (if keep then 0 < c else c < 16)%nat).
  { unfold c. destruct (Nat.eqb_spec (length Y mod 16) 0), keep; cbn [andb].
    - exists (length Y / 16 - 1)%nat. lia.
    - exists (length Y / 16)%nat. lia.
    - exists (length Y / 16)%nat. lia.
    - exists (length Y / 16)%nat. lia. }
  destruct Hc as (n & [Hn Hc] & Hrange). exists n. eexists. split; [do 2 f_equal; lia|]. cbn -[Nat.mul Nat.sub Nat.add length app Nat.modulo].
  assert (Hdrop : length (drop (length Y - c) Y) = c) by (rewrite length_drop; lia).
  repeat split; auto; try lia.
  - rewrite memcpy_at_length by lia. exact Hd.
  - replace (length Y - 16 * n)%nat with (0 + length (drop (length Y - c) Y))%nat by lia.
    rewrite take_memcpy_at by lia. rewrite take_0. cbn [app]. f_equal. lia.
  - destruct keep; lia.
Qed.

(** What an update of [Y] after [X] should give: its input is consumed, and its
    output is that of the blocks that came through. *)
Definition consumes (X Y : list Z) (result : Z * mode_context * list Z * nat) : Prop :=
  exists ctx' output, result = (0, ctx', output, length output) /\ consumed (X ++ Y) ctx' /\
    produced (X ++ Y) (through (length (X ++ Y))) = produced X (through (length X)) ++ output.

(** An input that is kept whole. *)
Lemma update_kept X Y ctx :
  consumed X ctx -> not_enough ctx 16 (length Y) = true -> op <> MBEDTLS_OPERATION_NONE ->
  consumes X Y (update_cbc st ctx o 16 Y).
Proof.
  intros Hat Hen Hne. unfold consumed, update_cbc in *. rewrite Hen. destruct (through_bounds (length X)) as (Hb1 & Hb2 & Hb3).
  set (q := through (length X)) in *. pose proof Hat as (Hf & (Ho & Hop & Hinfo) & Hu & Hd & Ht & Hiv).
  rewrite not_enough_spec, Hu in Hen by assumption.
  destruct (cached_bytes (unprocessed_data (layer ctx)) X Y (length X - 16 * q) q Hd eq_refl Hb1) as [Hdl Hdt];
    [destruct keep; [apply Nat.leb_le in Hen|apply Nat.ltb_lt in Hen]; lia|rewrite <- Hu; exact Ht|].
  assert (Hq : through (length (X ++ Y)) = q).
  { apply through_unique; rewrite length_app; [lia|]. subst q. unfold through in *. destruct keep.
    - apply Nat.leb_le in Hen. pose proof (Nat.div_mod_eq (length X - 1) 16). lia.
    - apply Nat.ltb_lt in Hen. lia. }
  unfold consumes. rewrite Hq, Hu. eexists _, []. split; [reflexivity|]. unfold consumed. rewrite Hq. split.
  - split; [exact Hf|]. cbn -[Nat.mul Nat.sub Nat.add length app]. split; [split; [exact Ho|split; [exact Hop|exact Hinfo]]|].
    split; [rewrite length_app; lia|]. split; [exact Hdl|]. split; [exact Hdt|].
    rewrite Hiv, take_app_le by lia. reflexivity.
  - unfold produced. rewrite app_nil_r, take_app_le by lia. reflexivity.
Qed.

(** The blocks of the input itself, after those that the cached bytes completed;
    then the bytes that are cached. *)
Lemma update_rest X Y ctx q :
  at_blocks X q ctx -> length X = (16 * q)%nat -> byte_list X -> byte_list Y -> op <> MBEDTLS_OPERATION_NONE ->
  exists n ctx1 output, cache_final ctx 16 Y = (ctx1, (16 * n)%nat) /\ length output = (16 * n)%nat /\
    produced (X ++ Y) (q + n) = produced X q ++ output /\
    (if keep then (length Y = 0 \/ 16 * n < length Y) /\ length Y <= 16 * n + 16 else length Y < 16 * n + 16)%nat /\
    (16 * n <= length Y)%nat /\
    if (16 * n =? 0)%nat then at_blocks (X ++ Y) (q + n) ctx1 else exists iv',
      aes_crypt_cbc_wrap st o (operation (layer ctx1)) (iv (layer ctx1)) (take (16 * n) Y) = (0, iv', output) /\
      at_blocks (X ++ Y) (q + n) (ctx1 <| layer := (layer ctx1) <| iv := iv' |> |>).
Proof.
  intros Hat Hl HX HY Hne. destruct (cache_final_spec X q ctx Y Hat Hl Hne)
    as (n & ctx2 & Hcf & Hf2 & Ho2 & Hop2 & Hi2 & Hs2 & Hiv2 & Hn & Hu2 & Hd2 & Ht2 & Hrange).
  destruct (produced_more X Y q n Hl HX Hn) as [Hp Hnext].
  assert (Hiv : iv (layer ctx) = N q iv0 X).
  { destruct Hat as (_ & _ & _ & _ & _ & H). rewrite H, take_ge by lia. reflexivity. }
  destruct (mode_code n (N q iv0 X) (take (16 * n) Y)) as (Hcode & _ & Hgl).
  { rewrite <- (take_ge X (16 * q)) by lia. apply initial_vector; [lia|exact HX]. }
  { rewrite length_take. lia. } { apply Forall_take, HY. } rewrite length_take in Hgl.
  assert (Hafter : at_blocks (X ++ Y) (q + n) (ctx2 <| layer := (layer ctx2) <| iv := N n (N q iv0 X) (take (16 * n) Y) |> |>)).
  { split; [exact Hf2|]. cbn -[Nat.mul Nat.sub Nat.add length app]. split; [split; [exact Ho2|split; [exact Hop2|]]|].
    - destruct Hat as (_ & (_ & _ & info1 & Hi1 & Hm1 & Hbs1 & His1) & _). exists info1.
      rewrite Hi2. repeat split; auto. unfold mbedtls_cipher_get_iv_size in *. cbn. rewrite Hi2, Hs2. exact His1.
    - rewrite Hu2, length_app, Hl. repeat split; auto; [lia|].
      rewrite Ht2, drop_app_ge, Hl by lia. f_equal. lia. }
  exists n, ctx2, (G n (N q iv0 X) (take (16 * n) Y)). split; [exact Hcf|]. split; [lia|]. split; [exact Hp|].
  split; [exact Hrange|]. split; [exact Hn|]. rewrite Hop2, Hiv2, Hiv. destruct (Nat.eqb_spec (16 * n) 0) as [Hz|Hz].
  - assert (n = 0%nat) as -> by lia. change (take (16 * 0) Y) with (@nil Z) in Hafter.
    rewrite (proj2 (mode_nil _)), <- Hiv, <- Hiv2 in Hafter. destruct ctx2 as [l2 f2], l2. exact Hafter.
  - eexists. split; [exact Hcode|exact Hafter].
Qed.

(** Every update does. *)
Lemma update_consumed X Y ctx :
  op <> MBEDTLS_OPERATION_NONE -> consumed X ctx -> byte_list X -> byte_list Y -> consumes X Y (modes_update st ctx false Y).
Proof.
  intros Hne Hat HX HY. pose proof Hat as (Hf & (Ho & Hop & info & Hi & Hm & Hbs & His) & Hu & _).
  unfold modes_update, with_cipher, mbedtls_cipher_get_block_size. rewrite Hi, Ho, Hbs, Hm. cbn [Nat.eqb negb andb].
  rewrite bool_decide_true by reflexivity. cbn [negb orb].
  destruct (not_enough ctx 16 (length Y)) eqn:Hen; [apply update_kept; assumption|].
  unfold update_cbc. rewrite Hen. rewrite not_enough_spec, Hu in Hen by assumption.
  unfold consumed in Hat. destruct (through_bounds (length X)) as (Hb1 & Hb2 & _). set (q := through (length X)) in *.
  destruct (process_cached_spec X q ctx Y Hat ltac:(lia) HX HY) as (ctx1 & out1 & q1 & -> & Hat1 & Hl1 & Hk & Hq1 & Hp1).
  { destruct keep; [apply Nat.leb_gt in Hen|apply Nat.ltb_ge in Hen]; lia. }
  set (k := if (length X =? 16 * q)%nat then 0%nat else _) in *. cbn [Z.eqb negb].
  assert (HX1 : byte_list (X ++ take k Y)) by (apply Forall_app; split; [exact HX|apply Forall_take, HY]).
  destruct (update_rest _ (drop k Y) ctx1 q1 Hat1 Hl1 HX1 (Forall_drop _ _ _ HY) Hne)
    as (n & ctx2 & rest & -> & Hrl & Hp & Hrange & Hn & Hrest).
  assert (Hsplit : X ++ Y = (X ++ take k Y) ++ drop k Y) by (rewrite <- app_assoc, take_drop; reflexivity).
  rewrite <- Hsplit, Hp1, <- app_assoc in Hp. rewrite <- Hsplit in Hrest.
  assert (Hq : through (length (X ++ Y)) = (q1 + n)%nat).
  { rewrite Hsplit. apply through_unique; rewrite length_app, Hl1; [lia|].
    assert (Hlong : keep = true -> (length X - 16 * q + length Y > 16)%nat).
    { intros E. rewrite E in Hen. apply Nat.leb_gt in Hen. lia. }
    destruct keep; [|lia]. specialize (Hlong eq_refl). rewrite length_app, length_take in Hl1. rewrite length_drop in *.
    unfold k in *. destruct (Nat.eqb_spec (length X) (16 * q)); lia. }
  unfold consumes, consumed. rewrite Hq. fold q. destruct (Nat.eqb_spec (16 * n) 0) as [Hz|Hz].
  - assert (rest = []) as -> by (apply nil_length_inv; lia). rewrite app_nil_r in Hp. exists ctx2, out1. auto.
  - destruct Hrest as (iv' & -> & Hafter). cbn [Z.eqb negb]. eexists _, (out1 ++ rest).
    split; [f_equal; rewrite length_app; lia|]. auto.
Qed.

Lemma updates_consumed X ctx pieces :
  op <> MBEDTLS_OPERATION_NONE -> consumed X ctx -> byte_list X -> byte_list (concat pieces) ->
  exists ctx' output, modes_updates st ctx pieces = (0, ctx', output) /\ consumed (X ++ concat pieces) ctx' /\
    produced (X ++ concat pieces) (through (length (X ++ concat pieces))) = produced X (through (length X)) ++ output.
Proof.
  intros Hne. revert X ctx. induction pieces as [|Y pieces IH]; intros X ctx Hat HX Hp; cbn [modes_updates concat].
  - exists ctx, []. rewrite !app_nil_r. auto.
  - cbn [concat] in Hp. apply Forall_app in Hp as [HY Hp].
    destruct (update_consumed X Y ctx Hne Hat HX HY) as (ctx1 & out1 & -> & Hat1 & Hout1). cbn [Z.eqb negb].
    destruct (IH (X ++ Y) ctx1 Hat1) as (ctx2 & out2 & -> & Hat2 & Hout2); [apply Forall_app; auto|exact Hp|].
    exists ctx2, (out1 ++ out2). rewrite take_ge by lia. rewrite (app_assoc X). split; [reflexivity|].
    split; [exact Hat2|]. rewrite Hout2, Hout1, app_assoc. reflexivity.
Qed.

(** ** The last block *)

(** A block that is complete, behind [q] processed ones. *)
Lemma complete_block X q ctx data :
  at_blocks X q ctx -> (16 * q <= length X)%nat -> byte_list X -> length data = 16%nat -> byte_list data ->
  exists iv' last, aes_crypt_cbc_wrap st o op (iv (layer ctx)) (take 16 data) = (0, iv', last) /\ length last = 16%nat /\
    produced X q ++ last = G (q + 1)%nat iv0 (take (16 * q) X ++ data).
Proof.
  intros (_ & _ & _ & _ & _ & Hiv) Hq HX Hl Hd. rewrite Hiv, (take_ge data) by lia.
  destruct (mode_code 1 (N q iv0 (take (16 * q) X)) data) as (Hc & _ & Hg); [apply initial_vector; auto|lia|exact Hd|].
  do 2 eexists. split; [exact Hc|]. split; [lia|].
  destruct (mode_app q 1 iv0 (take (16 * q) X) data) as [Hp _];
    [exact Hiv0|rewrite length_take; lia|apply Forall_take, HX|]. rewrite Hp. reflexivity.
Qed.

Lemma finish_encrypt X ctx add get tail :
  PaddingOk add get tail -> f = {| add_padding := Some add; get_padding := get |} -> op = MBEDTLS_ENCRYPT ->
  consumed X ctx -> byte_list X ->
  exists ctx' last, modes_finish st ctx = Some (0, ctx', last, 16) /\ length last = 16%nat /\
    produced X (through (length X)) ++ last =
    G (through (length X) + 1)%nat iv0 (X ++ tail (16 - length X mod 16)%nat).
Proof.
  intros HP Hfg Hop Hat HX. unfold consumed in Hat. destruct (through_bounds (length X)) as (Hb1 & _ & Hb3).
  assert (Hk : keep = false) by (unfold keep; rewrite Hop; reflexivity). specialize (Hb3 Hk).
  assert (Hmod : (length X mod 16 = length X - 16 * through (length X))%nat).
  { symmetry. apply (Nat.mod_unique _ _ (through (length X))); lia. }
  set (q := through (length X)) in *. pose proof Hat as (Hf & (Ho & Hopc & info & Hi & Hm & Hbs & His) & Hu & Hd & Ht & _).
  set (data := drop (16 * q) X ++ tail (16 - length X mod 16)%nat).
  assert (Htl : length (tail (16 - length X mod 16)%nat) = (16 - length X mod 16)%nat) by (apply HP; lia).
  assert (Hdata : byte_list data).
  { apply Forall_app. split; [apply Forall_drop, HX|]. apply HP. lia. }
  assert (Hdl : length data = 16%nat) by (unfold data; rewrite length_app, length_drop, Htl; lia).
  destruct (complete_block X q ctx data Hat Hb1 HX Hdl Hdata) as (iv' & last & Hc & Hl & Hp).
  unfold modes_finish, with_cipher. rewrite Hi, Ho, Hm, Hopc, Hop, Hf, Hfg, His. cbn -[Nat.mul Nat.sub].
  rewrite (@add_tail _ _ _ HP), Ht, (drop_ge (unprocessed_data _)) by lia. rewrite Hu, <- Hmod, app_nil_r. fold data. cbn [mbind option_bind].
  unfold finish_block, mbedtls_cipher_get_block_size. rewrite Hi, Hbs, Hopc, Hc, Hop. cbn.
  do 2 eexists. split; [reflexivity|]. split; [exact Hl|]. rewrite Hp. unfold data. rewrite app_assoc, take_drop. reflexivity.
Qed.

Lemma finish_decrypt X ctx n :
  add_padding f <> None -> op = MBEDTLS_DECRYPT -> consumed X ctx -> length X = (16 * (n + 1))%nat -> byte_list X ->
  exists ctx' last, modes_finish st ctx = Some (fst (get_padding f last), ctx', last, snd (get_padding f last)) /\
    length last = 16%nat /\ produced X (through (length X)) ++ last = G (n + 1)%nat iv0 X /\ through (length X) = n.
Proof.
  intros Hadd Hop Hat Hl HX. unfold consumed in Hat.
  assert (Hk : keep = true) by (unfold keep; rewrite Hop; destruct (add_padding f); [reflexivity|congruence]).
  assert (Hq : through (length X) = n) by (apply through_unique; [|rewrite Hk]; lia). rewrite Hq in *.
  pose proof Hat as (Hf & (Ho & Hopc & info & Hi & Hm & Hbs & His) & Hu & Hd & Ht & _).
  assert (Hu16 : unprocessed_len (layer ctx) = 16%nat) by lia. rewrite Hu16, take_ge in Ht by lia.
  destruct (complete_block X n ctx (drop (16 * n) X) Hat) as (iv' & last & Hc & Hll & Hp);
    [lia|exact HX|rewrite length_drop; lia|apply Forall_drop, HX|]. rewrite take_drop in Hp.
  unfold modes_finish, with_cipher, mbedtls_cipher_get_block_size. rewrite Hi, Ho, Hm, Hopc, Hop, Hbs, Hu16.
  change (bool_decide (MBEDTLS_MODE_CBC = MBEDTLS_MODE_CBC)) with true. change (bool_decide (MBEDTLS_DECRYPT = MBEDTLS_ENCRYPT)) with false.
  cbn [negb Nat.eqb].
  unfold finish_block, mbedtls_cipher_get_block_size. rewrite Hi, Hbs, Hopc, Ht, Hop.
  rewrite Hop in Hc. rewrite Hc. cbv beta iota zeta. match goal with |- context [functions ?x] => replace (functions x) with (Some f) by (symmetry; exact Hf) end. change (bool_decide (MBEDTLS_DECRYPT = MBEDTLS_DECRYPT)) with true. cbn [negb Z.eqb].
  eexists _, last. split; [destruct (get_padding f last); reflexivity|]. auto.
Qed.

(** ** The whole message *)

(** A context that is set up with mode CBC and keyed. *)
Definition keyed (ctx : mode_context) : Prop :=
  cipher_ctx (layer ctx) = Some o /\ operation (layer ctx) = op /\ length (iv (layer ctx)) = 16%nat /\
  length (unprocessed_data (layer ctx)) = 16%nat /\
  exists info, cipher_info (layer ctx) = Some info /\ mode info = MBEDTLS_MODE_CBC /\ block_size info = 16%nat /\
    flags info = 0 /\ info_iv_size info = 16%nat.

(** The start of a message, then its pieces. *)
Lemma message_updates ctx padding pieces :
  padding_of padding = Some f -> keyed ctx -> op <> MBEDTLS_OPERATION_NONE -> byte_list (concat pieces) ->
  exists ctx', consumed (concat pieces) ctx' /\
    cbc_message st ctx padding iv0 pieces =
    match modes_finish st ctx' with
    | Some (ret, _, last, olen) =>
        Some (ret, produced (concat pieces) (through (length (concat pieces))) ++ take (Z.to_nat olen) last)
    | None => None
    end.
Proof.
  intros Hp (Ho & Hop & Hiv & Hd & info & Hi & Hm & Hbs & Hf & His) Hne Hb. destruct Hiv0 as [Hl0 Hb0].
  unfold cbc_message, send_message, mbedtls_cipher_set_padding_mode. rewrite Hi, Hm, Hp. change (bool_decide (MBEDTLS_MODE_CBC = MBEDTLS_MODE_CBC)) with true.
  cbn -[mbedtls_cipher_set_iv mbedtls_cipher_reset].
  unfold mbedtls_cipher_set_iv. cbn -[mbedtls_cipher_reset take]. rewrite Hi, Hl0, Hf, His. change (Z.land 0 MBEDTLS_CIPHER_VARIABLE_IV_LEN) with 0. cbn -[mbedtls_cipher_reset take].
  unfold mbedtls_cipher_reset. cbn -[take]. rewrite Hi. cbn -[take].
  rewrite take_ge by lia. set (start := _ <| layer := _ |>).
  assert (Hat : consumed [] start).
  { assert (H0 : through 0 = 0%nat) by (unfold through; destruct keep; reflexivity).
    unfold consumed. cbn [length]. rewrite H0. split; [reflexivity|]. split.
    - split; [exact Ho|]. split; [exact Hop|]. exists info. unfold mbedtls_cipher_get_iv_size. cbn. rewrite Hi. auto.
    - cbn -[take]. rewrite (proj2 (mode_nil iv0)). repeat split; auto.
      rewrite memcpy_at_end by (cbn -[take]; lia). reflexivity. }
  destruct (updates_consumed [] start pieces Hne Hat) as (ctx' & output & Hu & Hc & Hout); [constructor|exact Hb|].
  cbn [app] in Hc, Hout. rewrite Hu. cbn [Z.eqb negb]. exists ctx'. split; [exact Hc|].
  rewrite Hout. unfold produced at 1. rewrite take_nil. cbn [length].
  replace (through 0) with 0%nat by (unfold through; destruct keep; reflexivity). rewrite (proj1 (mode_nil iv0)). reflexivity.
Qed.

Lemma message_encrypt ctx padding pieces add get tail :
  PaddingOk add get tail -> f = {| add_padding := Some add; get_padding := get |} -> padding_of padding = Some f ->
  op = MBEDTLS_ENCRYPT -> keyed ctx -> byte_list (concat pieces) ->
  let X := concat pieces in
  cbc_message st ctx padding iv0 pieces =
  Some (0, G (length X / 16 + 1)%nat iv0 (X ++ tail (16 - length X mod 16)%nat)).
Proof.
  intros HP Hfg Hp Hop Hk Hb X.
  destruct (message_updates ctx padding pieces Hp Hk ltac:(congruence) Hb) as (ctx1 & Hc & ->). fold X in Hc, Hb |- *.
  destruct (finish_encrypt X ctx1 add get tail HP Hfg Hop Hc Hb) as (ctx2 & last & -> & Hl & Hg). cbn [mbind option_bind].
  change (Z.to_nat 16) with 16%nat. rewrite take_ge by lia. rewrite Hg. unfold through, keep. rewrite Hop. reflexivity.
Qed.

Lemma message_decrypt ctx padding pieces add get tail data n :
  PaddingOk add get tail -> f = {| add_padding := Some add; get_padding := get |} -> padding_of padding = Some f ->
  op = MBEDTLS_DECRYPT -> keyed ctx -> byte_list (concat pieces) -> byte_list data ->
  n = (length data / 16)%nat -> length (concat pieces) = (16 * (n + 1))%nat ->
  G (n + 1)%nat iv0 (concat pieces) = data ++ tail (16 - length data mod 16)%nat ->
  cbc_message st ctx padding iv0 pieces = Some (0, data).
Proof.
  intros HP Hfg Hp Hop Hk Hb Hd Hn Hl HG.
  destruct (message_updates ctx padding pieces Hp Hk ltac:(congruence) Hb) as (ctx1 & Hc & ->).
  destruct (finish_decrypt (concat pieces) ctx1 n) as (ctx2 & last & -> & Hll & Hg & Hq); auto; [rewrite Hfg; discriminate|].
  rewrite HG in Hg. pose proof (Nat.div_mod_eq (length data) 16) as Hdiv.
  pose proof (Nat.mod_upper_bound (length data) 16 ltac:(lia)) as Hmod. rewrite <- Hn in Hdiv.
  assert (Htl : length (tail (16 - length data mod 16)%nat) = (16 - length data mod 16)%nat) by (apply HP; lia).
  set (k := (16 - length data mod 16)%nat) in *. rewrite <- (take_drop (16 * n) data), <- app_assoc in Hg.
  apply app_inj_2 in Hg as [Hg ->]; [|rewrite length_app, length_drop, Htl; lia].
  rewrite Hg, Hfg. cbn [get_padding mbind option_bind].
  rewrite (@get_tail _ _ _ HP) by (try apply Forall_drop; rewrite ?length_drop; auto; lia). cbn [fst snd].
  rewrite Nat2Z.id, take_app_length. f_equal. f_equal. apply take_drop.
Qed.

End stream.

(** ** The two directions *)

Lemma chained_state n iv c : is_state iv -> length c = (16 * n)%nat -> byte_list c -> is_state (chained iv c).
Proof.
  intros [Hl Hb] Hc Hcb. split; [unfold chained; rewrite length_drop, length_app; lia|].
  apply Forall_drop, Forall_app. auto.
Qed.

Lemma cbc_length_tests n (x : list Z) : (16 * n)%nat = length x -> (length x mod 16 = 0)%nat /\ (length x / 16 = n)%nat.
Proof.
  intros H. rewrite <- H, (Nat.mul_comm 16). split; [apply Nat.Div0.mod_mul|apply Nat.div_mul; lia].
Qed.

Lemma encrypting st o E :
  computes st o MBEDTLS_AES_ENCRYPT E ->
  BlockMode st o MBEDTLS_ENCRYPT (sp800_38a_cbc E) (fun n iv x => chained iv (sp800_38a_cbc E n iv x)).
Proof.
  intros HE. split.
  - intros n iv x Hiv Hl Hx. destruct (cbc_encrypt_spec st o E n iv x HE Hiv Hl Hx) as (Hc & Hcl & Hcb).
    destruct (cbc_length_tests n x Hl) as [Hm Hd]. unfold aes_crypt_cbc_wrap, mbedtls_aes_crypt_cbc. rewrite Hm, Hd.
    split; [exact Hc|]. split; [apply (chained_state n); auto; lia|exact Hcl].
  - intros n m iv a b Hiv Hl Ha. assert (HEs : forall s, is_state s -> is_state (E s)) by (intros s Hs; apply HE, Hs).
    rewrite cbc_app by assumption. split; [reflexivity|]. apply chained_app.
  - intros iv. split; [reflexivity|apply chained_nil].
Qed.

Lemma decrypting st o D :
  computes st o MBEDTLS_AES_DECRYPT D ->
  BlockMode st o MBEDTLS_DECRYPT (sp800_38a_cbc_decrypt D) (fun _ iv x => chained iv x).
Proof.
  intros HD. split.
  - intros n iv x Hiv Hl Hx. destruct (cbc_decrypt_spec st o D n iv x HD Hiv Hl Hx) as (Hc & Hcl & Hcb).
    destruct (cbc_length_tests n x Hl) as [Hm Hd]. unfold aes_crypt_cbc_wrap, mbedtls_aes_crypt_cbc. rewrite Hm, Hd.
    split; [exact Hc|]. split; [apply (chained_state n); auto|exact Hcl].
  - intros n m iv a b [Hiv _] Hl Ha. rewrite cbc_decrypt_app by assumption. split; [reflexivity|]. apply chained_app.
  - intros iv. split; [reflexivity|apply chained_nil].
Qed.

(** ** Both directions of a message *)

(** The entries of the table for CBC. *)
Definition cbc_info_of (keybits : Z) : option mbedtls_cipher_info_t :=
  if keybits =? 128 then Some aes_128_cbc_info
  else if keybits =? 192 then Some aes_192_cbc_info
  else if keybits =? 256 then Some aes_256_cbc_info
  else None.

(** The paddings that mark where they begin. *)
Definition padding_tail (mode : mbedtls_cipher_padding_t) : option (nat -> list Z) :=
  match mode with
  | MBEDTLS_PADDING_PKCS7 => Some pkcs_tail
  | MBEDTLS_PADDING_ONE_AND_ZEROS => Some one_and_zeros_tail
  | MBEDTLS_PADDING_ZEROS_AND_LEN => Some zeros_and_len_tail
  | MBEDTLS_PADDING_ZEROS | MBEDTLS_PADDING_NONE | MBEDTLS_PADDING_OTHER => None
  end.

Lemma padding_tail_ok mode tail :
  padding_tail mode = Some tail ->
  exists add get, padding_of mode = Some {| add_padding := Some add; get_padding := get |} /\ PaddingOk add get tail.
Proof. destruct mode; intros [= <-]; do 2 eexists; (split; [reflexivity|]); typeclasses eauto. Qed.

(** What a context holds once it is keyed with the AES context [o]. *)
Definition keyed_context (f : option padding_functions) (info : mbedtls_cipher_info_t) (op : mbedtls_operation_t)
  (o : mbedtls_aes_context) : mode_context :=
  {| layer := mbedtls_cipher_init <| cipher_ctx := Some o |> <| cipher_info := Some info |>
                <| key_bitlen := info_key_bitlen info |> <| operation := op |>;
     functions := f |}.

Lemma cbc_info_cases keybits info :
  cbc_info_of keybits = Some info ->
  keybits = 128 /\ info = aes_128_cbc_info \/ keybits = 192 /\ info = aes_192_cbc_info \/
  keybits = 256 /\ info = aes_256_cbc_info.
Proof.
  unfold cbc_info_of.
  destruct (Z.eqb_spec keybits 128), (Z.eqb_spec keybits 192), (Z.eqb_spec keybits 256); intros [= <-]; auto.
Qed.

Lemma modes_keyed_enc st info key keybits st' o :
  cbc_info_of keybits = Some info -> mbedtls_aes_setkey_enc st mbedtls_aes_init key keybits = (0, st', o) ->
  modes_keyed st info key MBEDTLS_ENCRYPT = (0, st', keyed_context (padding_of MBEDTLS_PADDING_PKCS7) info MBEDTLS_ENCRYPT o).
Proof.
  intros [[-> ->]|[[-> ->]|[-> ->]]]%cbc_info_cases H; revert H; lazy -[mbedtls_aes_setkey_enc mbedtls_aes_init add_pkcs_padding get_pkcs_padding];
    intros ->; reflexivity.
Qed.

Lemma modes_keyed_dec st info key keybits st' o :
  cbc_info_of keybits = Some info -> mbedtls_aes_setkey_dec st mbedtls_aes_init key keybits = (0, st', o) ->
  modes_keyed st info key MBEDTLS_DECRYPT = (0, st', keyed_context (padding_of MBEDTLS_PADDING_PKCS7) info MBEDTLS_DECRYPT o).
Proof.
  intros [[-> ->]|[[-> ->]|[-> ->]]]%cbc_info_cases H; revert H; lazy -[mbedtls_aes_setkey_dec mbedtls_aes_init add_pkcs_padding get_pkcs_padding];
    intros ->; reflexivity.
Qed.

Lemma keyed_context_ok f info keybits op o :
  cbc_info_of keybits = Some info -> keyed (o := o) (op := op) (keyed_context f info op o).
Proof.
  intros [[-> ->]|[[-> ->]|[-> ->]]]%cbc_info_cases; repeat (split; [reflexivity|]); eexists; repeat split.
Qed.

(** One direction undoes the other on the padded message. *)
Lemma padded_message Nk key iv0 X tail :
  aes_key Nk key -> is_state iv0 -> byte_list X -> (forall k, (0 < k)%nat -> length (tail k) = k) ->
  (forall k, (k <= 255)%nat -> byte_list (tail k)) ->
  let padded := X ++ tail (16 - length X mod 16)%nat in
  let n := (length X / 16 + 1)%nat in
  let c := sp800_38a_cbc (fips_encrypt Nk key) n iv0 padded in
  length c = (16 * n)%nat /\ byte_list c /\ sp800_38a_cbc_decrypt (fips_decrypt Nk key) n iv0 c = padded.
Proof.
  intros Hkey Hiv HX Htl Htb padded n c. pose proof (Nat.mod_upper_bound (length X) 16 ltac:(lia)) as Hmod.
  pose proof (Nat.div_mod_eq (length X) 16) as Hdiv.
  assert (Hl : (16 * n)%nat = length padded) by (unfold padded, n; rewrite length_app, Htl; lia).
  assert (Hb : byte_list padded) by (apply Forall_app; split; [exact HX|apply Htb; lia]).
  destruct (enc_computes Nk aes_statics_init mbedtls_aes_init key Hkey (or_introl eq_refl) eq_refl) as (o & _ & HE).
  destruct (cbc_encrypt_spec _ _ _ n iv0 padded HE Hiv Hl Hb) as (_ & Hcl & Hcb). fold c in Hcl, Hcb.
  split; [lia|]. split; [exact Hcb|]. apply cbc_inverse; auto.
  intros b Hs. split; [apply HE, Hs|apply fips_decrypt_encrypt; assumption].
Qed.

(** C26. A message goes through both directions of CBC, however it and the ciphertext are
    cut into calls of update. *)
Theorem cbc_stream_roundtrip Nk st key info padding tail iv0 pieces :
  aes_key Nk key -> statics_ok st -> cbc_info_of (32 * Z.of_nat Nk) = Some info ->
  padding_tail padding = Some tail -> is_state iv0 -> byte_list (concat pieces) ->
  let '(r1, st, e) := modes_keyed st info key MBEDTLS_ENCRYPT in
  let '(r2, st, d) := modes_keyed st info key MBEDTLS_DECRYPT in
  let message := concat pieces in
  let c := sp800_38a_cbc (fips_encrypt Nk key) (length message / 16 + 1) iv0
             (message ++ tail (16 - length message mod 16)%nat) in
  (r1, r2) = (0, 0) /\ cbc_message st e padding iv0 pieces = Some (0, c) /\
  forall cut, concat cut = c -> cbc_message st d padding iv0 cut = Some (0, message).
Proof.
  intros Hkey Hst Hinfo Htail Hiv Hb. destruct (padding_tail_ok padding tail Htail) as (add & get & Hpad & HP).
  destruct (enc_computes Nk st mbedtls_aes_init key Hkey Hst eq_refl) as (oe & Hse & HE).
  destruct (dec_computes Nk aes_ready mbedtls_aes_init key Hkey (or_intror eq_refl) eq_refl) as (od & Hsd & HD).
  rewrite (modes_keyed_enc _ _ _ _ _ _ Hinfo Hse), (modes_keyed_dec _ _ _ _ _ _ Hinfo Hsd).
  destruct (padded_message Nk key iv0 (concat pieces) tail Hkey Hiv Hb (@tail_length _ _ _ HP) (@tail_bytes _ _ _ HP))
    as (Hcl & Hcb & Hdec).
  cbv zeta. split; [reflexivity|]. split.
  - apply (message_encrypt (HM := encrypting _ _ _ HE) iv0 Hiv {| add_padding := Some add; get_padding := get |} _
      padding pieces add get tail); auto.
    exact (keyed_context_ok _ info _ _ oe Hinfo).
  - intros cut Hcut.
    apply (message_decrypt (HM := decrypting _ _ _ HD) iv0 Hiv {| add_padding := Some add; get_padding := get |} _
      padding cut add get tail _ (length (concat pieces) / 16));
      rewrite ?Hcut; auto. exact (keyed_context_ok _ info _ _ od Hinfo).
Qed.

Lemma cbc_stream_roundtrip_witness :
  let key := map Z.of_nat (seq 0 32) in
  let pieces := [[1; 2; 3]; []; map Z.of_nat (seq 4 30)] in
  let '(r1, st, e) := modes_keyed aes_statics_init aes_256_cbc_info key MBEDTLS_ENCRYPT in
  let '(r2, st, d) := modes_keyed st aes_256_cbc_info key MBEDTLS_DECRYPT in
  let message := concat pieces in
  let c := sp800_38a_cbc (fips_encrypt 8 key) (length message / 16 + 1) (zeros 16)
             (message ++ one_and_zeros_tail (16 - length message mod 16)%nat) in
  (r1, r2) = (0, 0) /\ cbc_message st e MBEDTLS_PADDING_ONE_AND_ZEROS (zeros 16) pieces = Some (0, c) /\
  forall cut, concat cut = c -> cbc_message st d MBEDTLS_PADDING_ONE_AND_ZEROS (zeros 16) cut = Some (0, message).
Proof.
  apply (cbc_stream_roundtrip 8 aes_statics_init (map Z.of_nat (seq 0 32)) aes_256_cbc_info MBEDTLS_PADDING_ONE_AND_ZEROS
           one_and_zeros_tail (zeros 16) [[1; 2; 3]; []; map Z.of_nat (seq 4 30)]).
  - split; [right; right; reflexivity|]. split; [reflexivity|].
    repeat (constructor; [vm_compute; intuition discriminate|]). constructor.
  - left. reflexivity.
  - reflexivity.
  - reflexivity.
  - split; [reflexivity|apply zeros_bytes].
  - repeat (constructor; [vm_compute; intuition discriminate|]). constructor.
Defined.

(** ** CFB and OFB *)

(** A mode that keeps [I] between what it read, what it wrote and its state. *)
Class Feedback (run : feedback_state -> list Z -> Z * feedback_state * list Z)
  (I : list Z -> list Z -> feedback_state -> Prop) : Prop := {
  run_keeps : forall i w s input, byte_list input -> I i w s ->
    exists s' output, run s input = (0, s', output) /\ I (i ++ input) (w ++ output) s';
  run_offset : forall i w s, I i w s -> 0 <= iv_off s;
  run_length : forall i w s, I i w s -> length w = length i }.

Section feedback.
Context {st : aes_statics} {o : mbedtls_aes_context} {op : mbedtls_operation_t} {ofb : bool}.

(** The function that update calls. *)
Definition feedback_call : feedback_state -> list Z -> Z * feedback_state * list Z :=
  if ofb then aes_crypt_ofb_wrap st o else aes_crypt_cfb128_wrap st o op.

Definition feedback_mode : mbedtls_cipher_mode_t := if ofb then MBEDTLS_MODE_OFB else MBEDTLS_MODE_CFB.

Context {I : list Z -> list Z -> feedback_state -> Prop} {HF : Feedback feedback_call I}.

(** A context that has read [i] and written [w]. *)
Definition fed_back (i w : list Z) (ctx : mode_context) : Prop :=
  let l := layer ctx in
  cipher_ctx l = Some o /\ operation l = op /\
  (exists info, cipher_info l = Some info /\ mode info = feedback_mode /\ block_size info = 16%nat) /\
  I i w {| iv_off := Z.of_nat (unprocessed_len l); aes_modes.iv := iv l |}.

Lemma feedback_update_spec i w ctx input :
  fed_back i w ctx -> byte_list input ->
  exists ctx' output, modes_update st ctx false input = (0, ctx', output, length input) /\
    length output = length input /\ fed_back (i ++ input) (w ++ output) ctx'.
Proof.
  intros (Ho & Hop & (info & Hi & Hm & Hbs) & HI) Hb.
  destruct (run_keeps _ _ _ _ Hb HI) as (s & output & Hrun & HI'). pose proof (run_offset _ _ _ HI') as Hoff.
  pose proof (run_length _ _ _ HI) as Hl. pose proof (run_length _ _ _ HI') as Hl'. rewrite !length_app in Hl'.
  unfold modes_update, with_cipher, mbedtls_cipher_get_block_size. rewrite Hi, Ho, Hbs, Hm. unfold feedback_mode, feedback_call in *.
  eexists _, output. split; [|split; [lia|]].
  - destruct ofb; unfold update_feedback.
    + change (bool_decide (MBEDTLS_MODE_OFB = MBEDTLS_MODE_CBC)) with false.
      change (bool_decide (MBEDTLS_MODE_OFB = MBEDTLS_MODE_CFB)) with false.
      change (bool_decide (MBEDTLS_MODE_OFB = MBEDTLS_MODE_OFB)) with true. cbn [Nat.eqb orb negb andb].
      rewrite Hrun. reflexivity.
    + change (bool_decide (MBEDTLS_MODE_CFB = MBEDTLS_MODE_CBC)) with false.
      change (bool_decide (MBEDTLS_MODE_CFB = MBEDTLS_MODE_CFB)) with true. cbn [Nat.eqb orb negb andb].
      rewrite Hop, Hrun. reflexivity.
  - split; [exact Ho|]. split; [exact Hop|]. split; [exists info; auto|]. cbn. rewrite Z2Nat.id by exact Hoff.
    destruct s. exact HI'.
Qed.

Lemma feedback_updates_spec pieces i w ctx :
  fed_back i w ctx -> byte_list (concat pieces) ->
  exists ctx' output, modes_updates st ctx pieces = (0, ctx', output) /\ fed_back (i ++ concat pieces) (w ++ output) ctx'.
Proof.
  revert i w ctx. induction pieces as [|piece pieces IH]; intros i w ctx H Hb; cbn [modes_updates concat] in *.
  - exists ctx, []. rewrite !app_nil_r. auto.
  - apply Forall_app in Hb as [Hp Hb]. destruct (feedback_update_spec i w ctx piece H Hp) as (ctx1 & out1 & -> & Hl & H1).
    cbn [Z.eqb negb]. destruct (IH _ _ ctx1 H1 Hb) as (ctx2 & out2 & -> & H2). exists ctx2, (out1 ++ out2).
    rewrite <- Hl, firstn_all, !app_assoc. auto.
Qed.

End feedback.

Lemma mod16_range (n : nat) : 0 <= Z.of_nat (n mod 16) <= 15.
Proof. pose proof (Nat.mod_upper_bound n 16 ltac:(lia)). lia. Qed.

Lemma ofb_feedback st o op E iv0 :
  computes st o MBEDTLS_AES_ENCRYPT E -> is_state iv0 ->
  Feedback (feedback_call (st := st) (o := o) (op := op) (ofb := true)) (ofb_at E iv0).
Proof.
  intros HE Hiv. split.
  - intros i w s input Hb H. pose proof H as [_ Hs]. pose proof (mod16_range (length i)) as Hr.
    destruct (byte_loop_inv _ _ (ofb_step st o E iv0 HE Hiv) input i w s Hb H) as (s' & output & He & H').
    exists s', output. split; [|exact H']. cbn [feedback_call]. unfold aes_crypt_ofb_wrap, mbedtls_aes_crypt_ofb.
    rewrite He. destruct (Z.ltb_spec 15 (iv_off s)) as [Hlt|]; [rewrite Hs in Hlt; cbn [iv_off] in Hlt; lia|reflexivity].
  - intros i w s [_ ->]. apply mod16_range.
  - intros i w s [[H _] _]. exact H.
Qed.

Lemma cfb_feedback st o op E iv0 :
  computes st o MBEDTLS_AES_ENCRYPT E -> is_state iv0 ->
  Feedback (feedback_call (st := st) (o := o) (op := op) (ofb := false)) (cfb128_at E iv0 (operation_value op)).
Proof.
  intros HE Hiv. split.
  - intros i w s input Hb H. pose proof H as (_ & Hs & _). pose proof (mod16_range (length i)) as Hr.
    destruct (byte_loop_inv _ _ (cfb128_step st o E iv0 HE Hiv (operation_value op)) input i w s Hb H) as (s' & output & He & H').
    exists s', output. split; [|exact H']. cbn [feedback_call]. unfold aes_crypt_cfb128_wrap, mbedtls_aes_crypt_cfb128.
    rewrite He. destruct (Z.ltb_spec 15 (iv_off s)) as [Hlt|]; [rewrite Hs in Hlt; lia|reflexivity].
  - intros i w s (_ & -> & _). apply mod16_range.
  - intros i w s ((_ & _ & H & _) & _). exact H.
Qed.

(** The entries of the table. *)
Definition feedback_info_of (ofb : bool) (keybits : Z) : option mbedtls_cipher_info_t :=
  if keybits =? 128 then Some (if ofb then aes_128_ofb_info else aes_128_cfb128_info)
  else if keybits =? 192 then Some (if ofb then aes_192_ofb_info else aes_192_cfb128_info)
  else if keybits =? 256 then Some (if ofb then aes_256_ofb_info else aes_256_cfb128_info)
  else None.

Lemma feedback_info_cases ofb keybits info :
  feedback_info_of ofb keybits = Some info ->
  keybits = 128 /\ info = (if ofb then aes_128_ofb_info else aes_128_cfb128_info) \/
  keybits = 192 /\ info = (if ofb then aes_192_ofb_info else aes_192_cfb128_info) \/
  keybits = 256 /\ info = (if ofb then aes_256_ofb_info else aes_256_cfb128_info).
Proof.
  unfold feedback_info_of.
  destruct (Z.eqb_spec keybits 128), (Z.eqb_spec keybits 192), (Z.eqb_spec keybits 256); intros [= <-]; auto.
Qed.

(** Both directions take the key of encryption. *)
Lemma feedback_keyed ofb st info key keybits op st' o :
  feedback_info_of ofb keybits = Some info -> mbedtls_aes_setkey_enc st mbedtls_aes_init key keybits = (0, st', o) ->
  modes_keyed st info key op = (0, st', keyed_context None info op o).
Proof.
  intros [[-> ->]|[[-> ->]|[-> ->]]]%feedback_info_cases H; revert H; destruct ofb, op;
    lazy -[mbedtls_aes_setkey_enc mbedtls_aes_init add_pkcs_padding get_pkcs_padding]; intros ->; reflexivity.
Qed.

Section message.
Context {st : aes_statics} {o : mbedtls_aes_context} {op : mbedtls_operation_t} {ofb : bool}.
Context {I : list Z -> list Z -> feedback_state -> Prop} {HF : Feedback (feedback_call (st := st) (o := o) (op := op) (ofb := ofb)) I}.

(** The context once the initial vector is set. *)
Definition vector_set (info : mbedtls_cipher_info_t) (iv0 : list Z) : mode_context :=
  {| layer := (layer (keyed_context None info op o)) <| iv := iv0 |> <| iv_size := 16%nat |>; functions := None |}.

(** A message from its start: what was read and written is in [I]. *)
Lemma feedback_message info iv0 pieces keybits :
  feedback_info_of ofb keybits = Some info -> is_state iv0 -> byte_list (concat pieces) ->
  I [] [] {| iv_off := 0; aes_modes.iv := iv0 |} ->
  exists c s, send_message st (keyed_context None info op o) iv0 pieces = Some (0, c) /\ I (concat pieces) c s.
Proof.
  intros Hinfo [Hl0 Hb0] Hb H0.
  assert (Hfields : mode info = feedback_mode (ofb := ofb) /\ block_size info = 16%nat /\ flags info = 0 /\ info_iv_size info = 16%nat).
  { apply feedback_info_cases in Hinfo as [[_ ->]|[[_ ->]|[_ ->]]]; destruct ofb; repeat split. }
  destruct Hfields as (Hm & Hbs & Hfl & His).
  assert (Hset : mbedtls_cipher_set_iv (layer (keyed_context None info op o)) iv0 = (0, layer (vector_set info iv0))).
  { unfold mbedtls_cipher_set_iv. change (cipher_info (layer (keyed_context None info op o))) with (Some info).
    cbv beta iota zeta. rewrite Hl0, Hfl, His. change (Z.land 0 MBEDTLS_CIPHER_VARIABLE_IV_LEN) with 0.
    cbn [Z.eqb negb andb Nat.eqb]. change (MBEDTLS_MAX_IV_LENGTH <? 16)%nat with false. cbv iota.
    rewrite take_ge by lia. rewrite memcpy_at_end by (rewrite Hl0; reflexivity). reflexivity. }
  assert (Hat : fed_back (o := o) (op := op) (ofb := ofb) (I := I) [] [] (vector_set info iv0)).
  { split; [reflexivity|]. split; [reflexivity|]. split; [exists info; auto|exact H0]. }
  destruct (feedback_updates_spec (st := st) pieces [] [] _ Hat Hb) as (ctx & c & Hu & Hc). cbn [app] in Hc.
  destruct Hc as (Hco & _ & (info' & Hi & Hm' & _) & HI). exists c. eexists. split; [|exact HI].
  unfold send_message. rewrite Hset. cbn [Z.eqb negb].
  change (mbedtls_cipher_reset (layer (vector_set info iv0))) with (0, layer (vector_set info iv0)). cbn [Z.eqb negb].
  change ((keyed_context None info op o) <| layer := layer (vector_set info iv0) |>) with (vector_set info iv0).
  rewrite Hu. cbn [Z.eqb negb]. unfold modes_finish, with_cipher, mbedtls_cipher_finish. rewrite Hi, Hco, Hm'.
  replace (bool_decide (feedback_mode (ofb := ofb) = MBEDTLS_MODE_CBC)) with false by (destruct ofb; reflexivity).
  unfold feedback_mode. cbn [negb]. transitivity (Some (0, c ++ @nil Z)); [destruct ofb; reflexivity|rewrite app_nil_r; reflexivity].
Qed.

End message.

(** A message goes through both directions of CFB128 and of OFB, however it and the
    ciphertext are cut into calls of update; the ciphertext is that of SP 800-38A. *)
Theorem feedback_stream_roundtrip ofb Nk st key info iv0 pieces :
  aes_key Nk key -> statics_ok st -> feedback_info_of ofb (32 * Z.of_nat Nk) = Some info ->
  is_state iv0 -> byte_list (concat pieces) ->
  let '(r1, st, e) := modes_keyed st info key MBEDTLS_ENCRYPT in
  let '(r2, st, d) := modes_keyed st info key MBEDTLS_DECRYPT in
  (r1, r2) = (0, 0) /\ exists c, send_message st e iv0 pieces = Some (0, c) /\
    enciphers (if ofb then ofb_key (fips_encrypt Nk key) iv0 else cfb128_key (fips_encrypt Nk key) iv0 c) (concat pieces) c /\
    forall cut, concat cut = c -> send_message st d iv0 cut = Some (0, concat pieces).
Proof.
  intros Hkey Hst Hinfo Hiv Hb.
  destruct (enc_computes Nk st mbedtls_aes_init key Hkey Hst eq_refl) as (oe & Hse & HE).
  destruct (enc_computes Nk aes_ready mbedtls_aes_init key Hkey (or_intror eq_refl) eq_refl) as (od & Hsd & HD).
  rewrite (feedback_keyed ofb _ _ _ _ _ _ _ Hinfo Hse), (feedback_keyed ofb _ _ _ _ _ _ _ Hinfo Hsd).
  split; [reflexivity|]. set (E := fips_encrypt Nk key) in *. destruct ofb.
  - assert (H0 : ofb_at E iv0 [] [] {| iv_off := 0; aes_modes.iv := iv0 |})
      by (split; [split; [reflexivity|intros p Hp; inversion Hp]|reflexivity]).
    destruct (feedback_message (HF := ofb_feedback _ _ MBEDTLS_ENCRYPT _ _ HE Hiv) info iv0 pieces _ Hinfo Hiv Hb H0)
      as (c & s & Hs & Hc & _).
    exists c. split; [exact Hs|]. split; [exact Hc|]. intros cut <-.
    assert (Hcb : byte_list (concat cut)) by (apply (enciphers_bytes _ _ _ Hc Hb); intros p; apply nth_u8, (iter_state _ _ E iv0 HE Hiv)).
    destruct (feedback_message (HF := ofb_feedback _ _ MBEDTLS_DECRYPT _ _ HD Hiv) info iv0 cut _ Hinfo Hiv Hcb H0)
      as (m & s' & Hs' & Hm & _). rewrite Hs'. do 2 f_equal. exact (enciphers_inverse _ _ _ _ Hc Hm).
  - assert (H0 : forall mode, cfb128_at E iv0 mode [] [] {| iv_off := 0; aes_modes.iv := iv0 |}) by (intros mode; apply cfb128_start).
    destruct (feedback_message (HF := cfb_feedback _ _ MBEDTLS_ENCRYPT _ _ HE Hiv) info iv0 pieces _ Hinfo Hiv Hb (H0 _))
      as (c & s & Hs & Hc & _).
    exists c. split; [exact Hs|]. split; [exact (proj2 (proj2 Hc))|]. intros cut <-.
    destruct (feedback_message (HF := cfb_feedback _ _ MBEDTLS_DECRYPT _ _ HD Hiv) info iv0 cut _ Hinfo Hiv (proj1 (proj2 Hc)) (H0 _))
      as (m & s' & Hs' & Hm & _). rewrite Hs'. do 2 f_equal. exact (in_step_inverse _ _ _ _ Hc Hm).
Qed.

Lemma feedback_stream_roundtrip_witness :
  let key := map Z.of_nat (seq 0 16) in
  let pieces := [[1; 2; 3]; []; map Z.of_nat (seq 4 30)] in
  let '(r1, st, e) := modes_keyed aes_statics_init aes_128_cfb128_info key MBEDTLS_ENCRYPT in
  let '(r2, st, d) := modes_keyed st aes_128_cfb128_info key MBEDTLS_DECRYPT in
  (r1, r2) = (0, 0) /\ exists c, send_message st e (zeros 16) pieces = Some (0, c) /\
    enciphers (cfb128_key (fips_encrypt 4 key) (zeros 16) c) (concat pieces) c /\
    forall cut, concat cut = c -> send_message st d (zeros 16) cut = Some (0, concat pieces).
Proof.
  apply (feedback_stream_roundtrip false 4 aes_statics_init (map Z.of_nat (seq 0 16)) aes_128_cfb128_info (zeros 16)
           [[1; 2; 3]; []; map Z.of_nat (seq 4 30)]).
  - split; [left; reflexivity|]. split; [reflexivity|].
    repeat (constructor; [vm_compute; intuition discriminate|]). constructor.
  - left. reflexivity.
  - reflexivity.
  - split; [reflexivity|apply zeros_bytes].
  - repeat (constructor; [vm_compute; intuition discriminate|]). constructor.
Defined.

End cipher_modes.

Import aes_xts.

Module cipher_xts.

Definition aes_128_xts_info := Build_mbedtls_cipher_info_t
  MBEDTLS_CIPHER_AES_128_XTS MBEDTLS_MODE_XTS 256 "AES-128-XTS" 16 0 16 xts_aes_info.
Definition aes_256_xts_info := Build_mbedtls_cipher_info_t
  MBEDTLS_CIPHER_AES_256_XTS MBEDTLS_MODE_XTS 512 "AES-256-XTS" 16 0 16 xts_aes_info.

(** [prev_tweak] is not initialised by the function that is called. *)
Definition aes_crypt_xts_wrap (st : aes_statics) (ctx : mbedtls_aes_xts_context) (op : mbedtls_operation_t)
  (in_place : bool) (data_unit input prev_tweak : list Z) : Z * list Z :=
  match op with
  | MBEDTLS_ENCRYPT => mbedtls_aes_crypt_xts st ctx MBEDTLS_AES_ENCRYPT in_place data_unit input prev_tweak
  | MBEDTLS_DECRYPT => mbedtls_aes_crypt_xts st ctx MBEDTLS_AES_DECRYPT in_place data_unit input prev_tweak
  | MBEDTLS_OPERATION_NONE => (MBEDTLS_ERR_CIPHER_BAD_INPUT_DATA, [])
  end.

Definition xts_aes_setkey_enc_wrap := mbedtls_aes_xts_setkey_enc.
Definition xts_aes_setkey_dec_wrap := mbedtls_aes_xts_setkey_dec.
Definition xts_aes_ctx_alloc : mbedtls_aes_xts_context := mbedtls_aes_xts_init.

(** [xts_aes_info]; its block and stream functions are NULL, and no context of its
    mode calls them. *)
#[export] Instance xts_object : CipherObject mbedtls_aes_xts_context := {|
  ecb_func _ st ctx op input := (MBEDTLS_ERR_CIPHER_FEATURE_UNAVAILABLE, []);
  ctr_func _ st ctx s input := (MBEDTLS_ERR_CIPHER_FEATURE_UNAVAILABLE, s, []);
  setkey_enc_func _ st ctx key bits := xts_aes_setkey_enc_wrap st ctx key bits;
  setkey_dec_func _ st ctx key bits := xts_aes_setkey_dec_wrap st ctx key bits;
  ctx_alloc_func b := match b with xts_aes_info => Some xts_aes_ctx_alloc | aes_info | ccm_aes_info => None end |}.

(** The branch of MBEDTLS_MODE_XTS and what comes before it. *)
Definition xts_update (st : aes_statics) (ctx : mbedtls_cipher_context_t mbedtls_aes_xts_context) (in_place : bool)
  (input prev_tweak : list Z) : Z * mbedtls_cipher_context_t mbedtls_aes_xts_context * list Z * nat :=
  with_cipher ctx (MBEDTLS_ERR_CIPHER_BAD_INPUT_DATA, ctx, [], O) (fun info o =>
    let block_size := mbedtls_cipher_get_block_size ctx in
    if (block_size =? 0)%nat then (MBEDTLS_ERR_CIPHER_INVALID_CONTEXT, ctx, [], O)
    else if negb (bool_decide (mode info = MBEDTLS_MODE_XTS)) then mbedtls_cipher_update st ctx in_place input
    else if in_place && (negb (unprocessed_len ctx =? 0)%nat || negb (length input mod block_size =? 0)%nat)
    then (MBEDTLS_ERR_CIPHER_BAD_INPUT_DATA, ctx, [], O)
    else if (0 <? unprocessed_len ctx)%nat then (MBEDTLS_ERR_CIPHER_FEATURE_UNAVAILABLE, ctx, [], O)
    else
      let '(ret, output) := aes_crypt_xts_wrap st o (operation ctx) in_place (iv ctx) input prev_tweak in
      if negb (ret =? 0) then (ret, ctx, output, O) else (0, ctx, output, length input)).

(** [mbedtls_cipher_crypt] with this update. *)
Definition xts_crypt (st : aes_statics) (ctx : mbedtls_cipher_context_t mbedtls_aes_xts_context) (iv_ : list Z)
  (in_place : bool) (input prev_tweak : list Z)
  : Z * mbedtls_cipher_context_t mbedtls_aes_xts_context * list Z * nat :=
  let '(ret, ctx) := mbedtls_cipher_set_iv ctx iv_ in
  if negb (ret =? 0) then (ret, ctx, [], O) else
  let '(ret, ctx) := mbedtls_cipher_reset ctx in
  if negb (ret =? 0) then (ret, ctx, [], O) else
  let '(ret, ctx, output, olen) := xts_update st ctx in_place input prev_tweak in
  if negb (ret =? 0) then (ret, ctx, output, olen) else
  let '(ret, finish_olen) := mbedtls_cipher_finish ctx in
  (ret, ctx, output, if ret =? 0 then (olen + finish_olen)%nat else olen).

(** The entry of the table for two keys of [4 * Nk] bytes. *)
Definition xts_info (Nk : nat) : mbedtls_cipher_info_t :=
  if (Nk =? 4)%nat then aes_128_xts_info else aes_256_xts_info.

(** What such a context is once it is keyed. *)
Definition xts_context (Nk : nat) (op : mbedtls_operation_t) (o : mbedtls_aes_xts_context)
  : mbedtls_cipher_context_t mbedtls_aes_xts_context :=
  mbedtls_cipher_init <| cipher_ctx := Some o |> <| cipher_info := Some (xts_info Nk) |>
    <| key_bitlen := 64 * Z.of_nat Nk |> <| operation := op |>.

Definition xts_fresh (Nk : nat) : mbedtls_cipher_context_t mbedtls_aes_xts_context :=
  mbedtls_cipher_init <| cipher_ctx := Some xts_aes_ctx_alloc |> <| cipher_info := Some (xts_info Nk) |>.

Lemma xts_setup Nk :
  Nk = 4%nat \/ Nk = 8%nat -> mbedtls_cipher_setup true mbedtls_cipher_init (Some (xts_info Nk)) = (0, xts_fresh Nk).
Proof. intros [-> | ->]; reflexivity. Qed.

Lemma xts_setkey_fresh Nk st key st' o op :
  Nk = 4%nat \/ Nk = 8%nat ->
  match op with
  | MBEDTLS_ENCRYPT => mbedtls_aes_xts_setkey_enc st mbedtls_aes_xts_init key (64 * Z.of_nat Nk) = (0, st', o)
  | MBEDTLS_DECRYPT => mbedtls_aes_xts_setkey_dec st mbedtls_aes_xts_init key (64 * Z.of_nat Nk) = (0, st', o)
  | MBEDTLS_OPERATION_NONE => False
  end ->
  mbedtls_cipher_setkey st (xts_fresh Nk) key (64 * Z.of_nat Nk) op = (0, st', xts_context Nk op o).
Proof.
  intros HNk H. destruct HNk as [-> | ->], op; try contradiction; revert H;
    lazy -[mbedtls_aes_xts_setkey_enc mbedtls_aes_xts_setkey_dec mbedtls_aes_xts_init]; intros ->; reflexivity.
Qed.

(** One call on a keyed context is the function of aes.c on the whole input. *)
Lemma xts_crypt_call Nk st op o iv0 input prev output :
  Nk = 4%nat \/ Nk = 8%nat -> is_state iv0 ->
  aes_crypt_xts_wrap st o op false iv0 input prev = (0, output) ->
  exists c, xts_crypt st (xts_context Nk op o) iv0 false input prev = (0, c, output, length input).
Proof.
  intros HNk [Hl0 Hb0] Hcrypt.
  assert (Hset : mbedtls_cipher_set_iv (xts_context Nk op o) iv0 =
                 (0, (xts_context Nk op o) <| iv := iv0 |> <| iv_size := 16%nat |>)).
  { unfold mbedtls_cipher_set_iv. rewrite Hl0. change (cipher_info (xts_context Nk op o)) with (Some (xts_info Nk)).
    assert (Hfl : flags (xts_info Nk) = 0 /\ info_iv_size (xts_info Nk) = 16%nat) by (destruct HNk as [-> | ->]; split; reflexivity).
    destruct Hfl as [-> ->]. cbv beta iota zeta. change (Z.land 0 MBEDTLS_CIPHER_VARIABLE_IV_LEN) with 0.
    cbn [Z.eqb negb andb Nat.eqb]. change (MBEDTLS_MAX_IV_LENGTH <? 16)%nat with false. cbv iota.
    rewrite take_ge by lia. rewrite memcpy_at_end by (rewrite Hl0; reflexivity). reflexivity. }
  unfold xts_crypt. rewrite Hset. cbn [Z.eqb negb].
  set (c := (xts_context Nk op o) <| iv := iv0 |> <| iv_size := 16%nat |>).
  change (mbedtls_cipher_reset c) with (0, c). cbn [Z.eqb negb].
  assert (Hup : xts_update st c false input prev = (0, c, output, length input)).
  { unfold xts_update, with_cipher, mbedtls_cipher_get_block_size. change (cipher_info c) with (Some (xts_info Nk)).
    change (cipher_ctx c) with (Some o). change (operation c) with op. change (iv c) with iv0. change (unprocessed_len c) with 0%nat.
    assert (Hi : block_size (xts_info Nk) = 16%nat /\ mode (xts_info Nk) = MBEDTLS_MODE_XTS)
      by (destruct HNk as [-> | ->]; split; reflexivity).
    cbv iota beta. destruct Hi as [-> ->]. rewrite bool_decide_true by reflexivity. cbn [Nat.eqb negb andb]. cbv zeta.
    change (0 <? 0)%nat with false. cbv iota. rewrite Hcrypt. reflexivity. }
  rewrite Hup. cbn [Z.eqb negb]. exists c. destruct HNk as [-> | ->]; cbn; rewrite Nat.add_0_r; reflexivity.
Qed.

(** XTS through the cipher layer is IEEE 1619, with both kinds of key, and the other
    direction gives the message back. *)
Theorem xts_through_cipher_layer Nk st st' key iv0 input prev prev' :
  xts_key Nk key -> statics_ok st -> statics_ok st' -> is_state iv0 -> byte_list input -> data_unit_length input ->
  let '(r1, e) := mbedtls_cipher_setup true mbedtls_cipher_init (Some (xts_info Nk)) in
  let '(r2, st1, e) := mbedtls_cipher_setkey st e key (64 * Z.of_nat Nk) MBEDTLS_ENCRYPT in
  let '(r3, d) := mbedtls_cipher_setup true mbedtls_cipher_init (Some (xts_info Nk)) in
  let '(r4, st2, d) := mbedtls_cipher_setkey st' d key (64 * Z.of_nat Nk) MBEDTLS_DECRYPT in
  let c := xts_cipher Nk key iv0 input in
  (r1, r2, r3, r4) = (0, 0, 0, 0) /\
  (exists e', xts_crypt st1 e iv0 false input prev = (0, e', c, length input)) /\
  (exists d', xts_crypt st2 d iv0 false c prev' = (0, d', input, length input)).
Proof.
  intros Hk Hst Hst' Hiv Hb Hlen. pose proof (proj1 Hk) as HNk.
  destruct (xts_keyed_enc Nk st key Hk Hst) as (oe & Hse & He). destruct (xts_keyed_dec Nk st' key Hk Hst') as (od & Hsd & Hd).
  rewrite xts_setup by exact HNk.
  rewrite (xts_setkey_fresh Nk st key _ oe MBEDTLS_ENCRYPT HNk Hse), (xts_setkey_fresh Nk st' key _ od MBEDTLS_DECRYPT HNk Hsd).
  cbv zeta.
  split; [reflexivity|]. split.
  - apply xts_crypt_call; [exact HNk|exact Hiv|]. apply He; assumption.
  - destruct (Hd iv0 input prev' Hiv Hb Hlen) as [Hd' Hcl]. rewrite <- Hcl.
    apply xts_crypt_call; [exact HNk|exact Hiv|exact Hd'].
Qed.

(** The calls in which aes.c loses a partial block are refused before they reach it. *)
Lemma xts_partial_in_place_refused st ctx info o input prev :
  cipher_info ctx = Some info -> cipher_ctx ctx = Some o -> block_size info = 16%nat -> mode info = MBEDTLS_MODE_XTS ->
  (length input mod 16 <> 0)%nat ->
  xts_update st ctx true input prev = (MBEDTLS_ERR_CIPHER_BAD_INPUT_DATA, ctx, [], 0%nat).
Proof.
  intros Hi Ho Hbs Hm H. unfold xts_update, with_cipher, mbedtls_cipher_get_block_size. rewrite Hi, Ho, Hbs, Hm.
  rewrite bool_decide_true by reflexivity. cbn [Nat.eqb negb andb].
  destruct (Nat.eqb_spec (length input mod 16) 0); [contradiction|]. cbn [negb]. rewrite orb_true_r. reflexivity.
Qed.

End cipher_xts.
