(* ===== verification/CcmAes.v ===== *)
(** CCM of mbedTLS (lib/mbedtls/library/ccm.c) over the cipher layer: the
    context, [ccm_auth_crypt] with its two macros, the four entry points. *)

From S2P Require Import Prelude MbedCommon Aes AesCtr Cipher.
Import mbed aes aes_ctr cipher.

Module ccm_aes.

(** [mbedtls_ccm_context]: the context of the block cipher. *)
Record mbedtls_ccm_context := { block_ctx : mbedtls_cipher_context_t mbedtls_aes_context }.

Definition MBEDTLS_ERR_CCM_BAD_INPUT : Z := -0x0D.
Definition MBEDTLS_ERR_CCM_AUTH_FAILED : Z := -0x0F.

Inductive ccm_mode := CCM_ENCRYPT | CCM_DECRYPT.

Definition mbedtls_ccm_init : mbedtls_ccm_context := {| block_ctx := mbedtls_cipher_init |}.

(** The cipher context is freed and the whole zeroed. *)
Definition mbedtls_ccm_free (ctx : mbedtls_ccm_context) : mbedtls_ccm_context :=
  {| block_ctx := mbedtls_cipher_free (block_ctx ctx) |}.

(** [alloc] is the outcome of the allocation in [mbedtls_cipher_setup]. *)
Definition mbedtls_ccm_setkey (alloc : bool) (st : aes_statics) (ctx : mbedtls_ccm_context)
  (cipher : mbedtls_cipher_id_t) (key : list Z) (keybits : Z) : Z * aes_statics * mbedtls_ccm_context :=
  match mbedtls_cipher_info_from_values cipher keybits MBEDTLS_MODE_ECB with
  | None => (MBEDTLS_ERR_CCM_BAD_INPUT, st, ctx)
  | Some info =>
      if negb (block_size info =? 16)%nat then (MBEDTLS_ERR_CCM_BAD_INPUT, st, ctx)
      else
        let c := mbedtls_cipher_free (block_ctx ctx) in
        let '(ret, c) := mbedtls_cipher_setup alloc c (Some info) in
        if negb (ret =? 0) then (ret, st, {| block_ctx := c |})
        else
          let '(ret, st, c) := mbedtls_cipher_setkey st c key keybits MBEDTLS_ENCRYPT in
          if negb (ret =? 0) then (ret, st, {| block_ctx := c |})
          else (0, st, {| block_ctx := c |})
  end.

(** A step that returns an error code at once, or goes on. *)
Definition or_return {A B} (step : Z + A) (k : A -> Z + B) : Z + B :=
  match step with inl ret => inl ret | inr a => k a end.
Notation "'let!' p := e 'in' k" := (or_return e (fun p => k)) (at level 10, p pattern, e at level 200, k at level 200).

Section crypt.
Context (st : aes_statics) (ctx : mbedtls_ccm_context).

(** The call of the block cipher in both macros.  It leaves the context as it was
    (lemma [update_block_context]), which is not threaded for that reason. *)
Definition cipher_block (in_place : bool) (block : list Z) : Z + list Z :=
  let '(ret, _, output, _) := mbedtls_cipher_update st (block_ctx ctx) in_place block in
  if negb (ret =? 0) then inl ret else inr output.

Definition UPDATE_CBC_MAC (b y : list Z) : Z + list Z :=
  let y := zip_with Z.lxor y b in
  cipher_block true y.

(** [dst], from the bytes of [src]. *)
Definition CTR_CRYPT (ctr src : list Z) : Z + list Z :=
  let! b := cipher_block false ctr in
  inr (zip_with Z.lxor src b).

(** [b[0]]; [tag_len - 2] wraps for the empty tag of CCM*. *)
Definition first_flags (add_len tag_len q : Z) : Z :=
  let b0 := 0 in
  let b0 := u8 (Z.lor b0 (Z.shiftl (if 0 <? add_len then 1 else 0) 6)) in
  let b0 := u8 (Z.lor b0 (u64 (Z.shiftl (u64 (tag_len - 2) / 2) 3))) in
  u8 (Z.lor b0 (q - 1)).

(** [for (i = 0, len_left = length; i < q; i++, len_left >>= 8)] *)
Definition put_length (q : nat) (length : Z) (b : list Z) : list Z * Z :=
  fold_left (fun '(b, len_left) i => (<[15 - i := MBEDTLS_BYTE_0 len_left]> b, Z.shiftr len_left 8))%nat
    (seq 0 q) (b, length).

(** The loop over the rest of the additional data; its length is enough fuel. *)
Fixpoint mac_rest (fuel : nat) (src y : list Z) : Z + list Z :=
  match fuel with
  | O => inr y
  | S fuel =>
      if (0 <? length src)%nat
      then
        let use_len := if (16 <? length src)%nat then 16%nat else length src in
        let b := memcpy_at 0 (take use_len src) (zeros 16) in
        let! y := UPDATE_CBC_MAC b y in
        mac_rest fuel (drop use_len src) y
      else inr y
  end.

(** [for (i = 0; i < q; i++) if (++ctr[15-i] != 0) break;] from [i] on. *)
Fixpoint increment_ctr (n i : nat) (ctr : list Z) : list Z :=
  match n with
  | O => ctr
  | S n =>
      let v := u8 (ctr.[15 - i] + 1) in
      let ctr := <[(15 - i)%nat := v]> ctr in
      if negb (v =? 0) then ctr else increment_ctr n (S i) ctr
  end.

(** The loop over the message: [y], [ctr] and the bytes of [output]. *)
Fixpoint crypt_loop (fuel : nat) (mode : ccm_mode) (q : nat) (src y ctr : list Z)
  : Z + (list Z * list Z * list Z) :=
  match fuel with
  | O => inr (y, ctr, [])
  | S fuel =>
      if (0 <? length src)%nat
      then
        let use_len := if (16 <? length src)%nat then 16%nat else length src in
        let! y :=
          match mode with
          | CCM_ENCRYPT => UPDATE_CBC_MAC (memcpy_at 0 (take use_len src) (zeros 16)) y
          | CCM_DECRYPT => inr y
          end in
        let! dst := CTR_CRYPT ctr (take use_len src) in
        let! y :=
          match mode with
          | CCM_ENCRYPT => inr y
          | CCM_DECRYPT => UPDATE_CBC_MAC (memcpy_at 0 (take use_len dst) (zeros 16)) y
          end in
        let ctr := increment_ctr q 0 ctr in
        let! (y, ctr, output) := crypt_loop fuel mode q (drop use_len src) y ctr in
        inr (y, ctr, dst ++ output)
      else inr (y, ctr, [])
  end.

(** The output and the tag, or the error code.  [add], [iv] and [input] are the
    bytes their lengths cover; the output may be the input's buffer, since each
    block is read before it is written.  [b] and [ctr] are written whole before
    they are read, so what the C arrays hold at first does not matter. *)
Definition ccm_auth_crypt (mode : ccm_mode) (iv add input : list Z) (tag_len : nat)
  : Z + (list Z * list Z) :=
  let add_len := length add in
  let iv_len := length iv in
  if (tag_len =? 2)%nat || (16 <? tag_len)%nat || negb (tag_len mod 2 =? 0)%nat then inl MBEDTLS_ERR_CCM_BAD_INPUT
  else if (iv_len <? 7)%nat || (13 <? iv_len)%nat then inl MBEDTLS_ERR_CCM_BAD_INPUT
  else if 0xFF00 <=? Z.of_nat add_len then inl MBEDTLS_ERR_CCM_BAD_INPUT
  else
    let q := (16 - 1 - iv_len)%nat in
    let b := <[0%nat := first_flags (Z.of_nat add_len) (Z.of_nat tag_len) (Z.of_nat q)]> (zeros 16) in
    let b := memcpy_at 1 iv b in
    let '(b, len_left) := put_length q (Z.of_nat (length input)) b in
    if 0 <? len_left then inl MBEDTLS_ERR_CCM_BAD_INPUT
    else
      let y := zeros 16 in
      let! y := UPDATE_CBC_MAC b y in
      let! y :=
        if (0 <? add_len)%nat
        then
          let b := zeros 16 in
          let b := memcpy_at 0 (MBEDTLS_PUT_UINT16_BE (Z.of_nat add_len)) b in
          let use_len := if (add_len <? 16 - 2)%nat then add_len else (16 - 2)%nat in
          let b := memcpy_at 2 (take use_len add) b in
          let! y := UPDATE_CBC_MAC b y in
          mac_rest (length add) (drop use_len add) y
        else inr y in
      let ctr := <[0%nat := u8 (Z.of_nat q - 1)]> (zeros 16) in
      let ctr := memcpy_at 1 iv ctr in
      let ctr := memset_at (1 + iv_len) 0 q ctr in
      let ctr := <[15%nat := 1]> ctr in
      let! (y, ctr, output) := crypt_loop (length input) mode q input y ctr in
      let ctr := fold_left (fun ctr i => <[(15 - i)%nat := 0]> ctr) (seq 0 q) ctr in
      let! y := CTR_CRYPT ctr y in
      inr (output, take tag_len y).

End crypt.

(** The code, the ciphertext and the tag (nothing is returned with an error). *)
Definition mbedtls_ccm_star_encrypt_and_tag (st : aes_statics) (ctx : mbedtls_ccm_context)
  (iv add input : list Z) (tag_len : nat) : Z + (list Z * list Z) :=
  ccm_auth_crypt st ctx CCM_ENCRYPT iv add input tag_len.

Definition mbedtls_ccm_encrypt_and_tag (st : aes_statics) (ctx : mbedtls_ccm_context)
  (iv add input : list Z) (tag_len : nat) : Z + (list Z * list Z) :=
  if (tag_len =? 0)%nat then inl MBEDTLS_ERR_CCM_BAD_INPUT
  else mbedtls_ccm_star_encrypt_and_tag st ctx iv add input tag_len.

(** The code and what [output] holds: on a wrong tag, zeros. *)
Definition mbedtls_ccm_star_auth_decrypt (st : aes_statics) (ctx : mbedtls_ccm_context)
  (iv add input tag : list Z) : Z * list Z :=
  let tag_len := length tag in
  match ccm_auth_crypt st ctx CCM_DECRYPT iv add input tag_len with
  | inl ret => (ret, [])
  | inr (output, check_tag) =>
      let diff := mbedtls_ct_memcmp tag check_tag tag_len in
      if negb (diff =? 0)
      then (MBEDTLS_ERR_CCM_AUTH_FAILED, mbedtls_platform_zeroize output (length input))
      else (0, output)
  end.

Definition mbedtls_ccm_auth_decrypt (st : aes_statics) (ctx : mbedtls_ccm_context)
  (iv add input tag : list Z) : Z * list Z :=
  let tag_len := length tag in
  if (tag_len =? 0)%nat then (MBEDTLS_ERR_CCM_BAD_INPUT, [])
  else mbedtls_ccm_star_auth_decrypt st ctx iv add input tag.

(** The vectors of the file's self test (SP 800-38C, appendix C). *)
Definition test_run (iv_len add_len msg_len tag_len : nat) : Z + (list Z * list Z) :=
  let bytes (from n : nat) := map Z.of_nat (seq from n) in
  let '(_, st, ctx) :=
    mbedtls_ccm_setkey true aes_statics_init mbedtls_ccm_init MBEDTLS_CIPHER_ID_AES (bytes 64%nat 16%nat) 128 in
  mbedtls_ccm_encrypt_and_tag st ctx (bytes 16%nat iv_len) (bytes 0%nat add_len) (bytes 32%nat msg_len) tag_len.

Example self_test_0 : test_run 7 8 4 4 = inr ([0x71; 0x62; 0x01; 0x5B], [0x4D; 0xAC; 0x25; 0x5D]).
Proof. vm_compute. reflexivity. Qed.

Example self_test_1 : test_run 8 16 16 6 =
  inr ([0xD2; 0xA1; 0xF0; 0xE0; 0x51; 0xEA; 0x5F; 0x62; 0x08; 0x1A; 0x77; 0x92; 0x07; 0x3D; 0x59; 0x3D],
       [0x1F; 0xC6; 0x4F; 0xBF; 0xAC; 0xCD]).
Proof. vm_compute. reflexivity. Qed.

End ccm_aes.
