(* ===== verification/CcmSpec.v ===== *)
(** CCM as SP 800-38C specifies it, and the proof that [ccm_auth_crypt] is it:
    the formatting of the blocks, the CBC-MAC over them, the counter blocks and
    the key stream, for any block cipher first. *)

From S2P Require Import Prelude MbedCommon HashStream Aes AesInverse AesCtr Cipher CcmAes.
Import mbed stream aes aes_inverse aes_ctr cipher ccm_aes.

Module ccm_spec.

(** ** The standard *)

Section standard.
Context (E : list Z -> list Z).

(** One step of the CBC-MAC. *)
Definition cbc (y b : list Z) : list Z := E (zip_with Z.lxor y b).

Definition cbc_mac (y l : list Z) : list Z := absorbed 16 cbc y l.

(** Zeros up to the next block. *)
Definition pad16 (l : list Z) : list Z := l ++ zeros ((16 - length l mod 16) mod 16).

(** Appendix A.2: the first block, the additional data, the payload. *)
Definition flags_byte (add : list Z) (tag_len q : nat) : Z :=
  (if bool_decide (add = []) then 0 else 64) + 8 * ((Z.of_nat tag_len - 2) / 2) + (Z.of_nat q - 1).

Definition format_add (add : list Z) : list Z :=
  match add with [] => [] | _ :: _ => pad16 (be_bytes 2 (Z.of_nat (length add)) ++ add) end.

Definition format_blocks (flags : Z) (q : nat) (nonce add payload : list Z) : list Z :=
  (flags :: nonce ++ be_bytes q (Z.of_nat (length payload))) ++ format_add add ++ pad16 payload.

(** Appendix A.3: the counter blocks. *)
Definition ctr_block (q : nat) (nonce : list Z) (i : nat) : list Z :=
  Z.of_nat (q - 1) :: nonce ++ be_bytes q (Z.of_nat i).

(** [S_i || ... || S_(i+m-1)] *)
Definition key_blocks (q : nat) (nonce : list Z) (i m : nat) : list Z :=
  concat (map (fun j => E (ctr_block q nonce j)) (seq i m)).

Definition ctr_crypt (q : nat) (nonce input : list Z) : list Z :=
  zip_with Z.lxor input (key_blocks q nonce 1 ((length input + 15) / 16)).

Definition mac_tag (flags : Z) (q : nat) (nonce add payload : list Z) (tag_len : nat) : list Z :=
  take tag_len (zip_with Z.lxor (cbc_mac (zeros 16) (format_blocks flags q nonce add payload))
                                (E (ctr_block q nonce 0))).

(** Section 6.1: the ciphertext and the encrypted tag. *)
Definition sp800_38c_seal (nonce add payload : list Z) (tag_len : nat) : list Z * list Z :=
  let q := (15 - length nonce)%nat in
  (ctr_crypt q nonce payload, mac_tag (flags_byte add tag_len q) q nonce add payload tag_len).

(** Section 6.2: the payload, if the tag is that of the payload. *)
Definition sp800_38c_open (nonce add ciphertext tag : list Z) : option (list Z) :=
  let q := (15 - length nonce)%nat in
  let payload := ctr_crypt q nonce ciphertext in
  if bool_decide (mac_tag (flags_byte add (length tag) q) q nonce add payload (length tag) = tag)
  then Some payload else None.

(** The lengths appendix A.1 allows (two bytes for the length of the additional
    data; the tag of CCM* may be empty). *)
Definition ccm_lengths (nonce add : list Z) (len tag_len : nat) : Prop :=
  (7 <= length nonce <= 13)%nat /\ Z.of_nat (length add) < 0xFF00 /\
  In tag_len [0; 4; 6; 8; 10; 12; 14; 16]%nat /\
  Z.of_nat len < 256 ^ Z.of_nat (15 - length nonce).

(** ** Blocks *)

Lemma cbc_mac_block y b l :
  length b = 16%nat -> cbc_mac y (b ++ l) = cbc_mac (E (zip_with Z.lxor y b)) l.
Proof.
  intros H. unfold cbc_mac. rewrite (absorbed_block_app 16 32 cbc 4) by (reflexivity || lia). reflexivity.
Qed.

Lemma cbc_mac_nil y : cbc_mac y [] = y.
Proof. reflexivity. Qed.

Lemma pad16_nil : pad16 [] = [].
Proof. reflexivity. Qed.

(** Padding, a block at a time as the loops of the code do. *)
Lemma pad16_step l :
  l <> [] -> pad16 l = memcpy_at 0 (take 16 l) (zeros 16) ++ pad16 (drop 16 l).
Proof.
  intros Hne. assert (0 < length l)%nat by (destruct l; [congruence|cbn; lia]).
  unfold memcpy_at, pad16, zeros. rewrite take_0. cbn [app Nat.add]. rewrite drop_replicate, length_take, length_drop.
  destruct (Nat.le_gt_cases 16 (length l)).
  - replace (16 - 16 `min` length l)%nat with 0%nat by lia. cbn [replicate].
    rewrite app_nil_r, (app_assoc (take 16 l)), take_drop. do 3 f_equal.
    replace (length l) with (length l - 16 + 1 * 16)%nat at 1 by lia. rewrite Nat.Div0.mod_add. reflexivity.
  - rewrite take_ge, drop_ge by lia. replace (length l - 16)%nat with 0%nat by lia. cbn [app].
    rewrite app_nil_r. rewrite (Nat.mod_small (length l)), (Nat.mod_small (16 - length l)) by lia.
    replace (16 `min` length l)%nat with (length l) by lia. reflexivity.
Qed.

Lemma first_block_length l : length (memcpy_at 0 (take 16 l) (zeros 16)) = 16%nat.
Proof. rewrite memcpy_at_length; [reflexivity|]. rewrite length_take, zeros_length. lia. Qed.

End standard.

(** ** Bytes written from the end *)

(** A loop that writes bytes [15], [14] and so on down. *)
Lemma fill_down (f : nat -> Z) n pre l :
  (length pre + n = 16)%nat -> length l = n ->
  forall m, (m <= n)%nat ->
  fold_left (fun b i => <[(15 - i)%nat := f i]> b) (seq 0 m) (pre ++ l) =
  pre ++ take (n - m) l ++ rev (map f (seq 0 m)).
Proof.
  intros Hp Hl. induction m as [|m IH]; intros Hm.
  - rewrite Nat.sub_0_r, take_ge, app_nil_r by lia. reflexivity.
  - rewrite seq_S, fold_left_app, map_app, rev_app_distr, IH by lia. cbn [fold_left map rev app Nat.add].
    destruct (lookup_lt_is_Some_2 l (n - S m) ltac:(lia)) as [x Hx].
    replace (n - m)%nat with (S (n - S m)) by lia. rewrite (take_S_r l (n - S m) x Hx).
    rewrite insert_app_r_alt by lia. f_equal. rewrite <- app_assoc.
    rewrite insert_app_r_alt by (rewrite length_take; lia). f_equal. rewrite length_take.
    replace (15 - m - length pre - (n - S m) `min` length l)%nat with 0%nat by lia. reflexivity.
Qed.

Lemma be_bytes_map n x :
  be_bytes n x = rev (map (fun i => MBEDTLS_BYTE_0 (Z.shiftr x (8 * Z.of_nat i))) (seq 0 n)).
Proof.
  unfold be_bytes. f_equal. induction n as [|n IH]; [reflexivity|].
  rewrite <- Nat.add_1_r at 1. rewrite le_bytes_app, IH, seq_S, map_app. reflexivity.
Qed.

Lemma put_length_spec q len pre l :
  (length pre + q = 16)%nat -> length l = q ->
  put_length q len (pre ++ l) = (pre ++ be_bytes q len, Z.shiftr len (8 * Z.of_nat q)).
Proof.
  intros Hp Hl. unfold put_length.
  assert (Hfold : forall m (b : list Z), fold_left (fun '(b, len_left) i =>
              (<[(15 - i)%nat := MBEDTLS_BYTE_0 len_left]> b, Z.shiftr len_left 8)) (seq 0 m) (b, len) =
            (fold_left (fun b i => <[(15 - i)%nat := MBEDTLS_BYTE_0 (Z.shiftr len (8 * Z.of_nat i))]> b)
               (seq 0 m) b, Z.shiftr len (8 * Z.of_nat m))).
  { induction m as [|m IH]; intros b; [rewrite Z.shiftr_0_r; reflexivity|].
    rewrite seq_S, !fold_left_app, IH. cbn [fold_left Nat.add]. rewrite Z.shiftr_shiftr by lia.
    do 2 f_equal. lia. }
  rewrite Hfold. f_equal. rewrite (fill_down _ q pre l Hp Hl q) by lia.
  rewrite Nat.sub_diag, be_bytes_map. reflexivity.
Qed.

(** The counter is the last [q] bytes, and counts. *)
Lemma increment_ctr_from n i pre l :
  (length pre + n + i = 16)%nat -> (n <= length l)%nat ->
  increment_ctr n i (pre ++ l) = pre ++ increment_from n l.
Proof.
  revert i l. induction n as [|n IH]; intros i l Hp Hl; [reflexivity|]. cbn [increment_ctr increment_from].
  replace (15 - i)%nat with (length pre + n)%nat by lia. rewrite nth_add, drop_app_length, insert_app_r.
  destruct (u8 (l.[n] + 1) =? 0); [|reflexivity]. cbn [negb].
  apply IH; [lia|]. rewrite length_insert. lia.
Qed.

Lemma increment_ctr_block q nonce i :
  (length nonce + q = 15)%nat -> increment_ctr q 0 (ctr_block q nonce i) = ctr_block q nonce (S i).
Proof.
  intros Hq. unfold ctr_block. rewrite !app_comm_cons, increment_ctr_from by (rewrite ?be_bytes_length; cbn; lia).
  rewrite increment_counter, Nat2Z.inj_succ. reflexivity.
Qed.

(** The first counter block, as the code builds it, and the one for the tag. *)
Lemma first_ctr_block q nonce :
  (length nonce + q = 15)%nat -> (2 <= q <= 8)%nat ->
  <[15%nat := 1]> (memset_at (1 + length nonce) 0 q
                     (memcpy_at 1 nonce (<[0%nat := u8 (Z.of_nat q - 1)]> (zeros 16)))) =
  ctr_block q nonce 1.
Proof.
  intros Hq Hr. change (<[0%nat := u8 (Z.of_nat q - 1)]> (zeros 16)) with (u8 (Z.of_nat q - 1) :: zeros 15).
  unfold memset_at. rewrite (memcpy_at_end (1 + length nonce)).
  - rewrite take_memcpy_at by (cbn; lia).
    unfold ctr_block. rewrite u8_small by (unfold is_u8; lia). replace (Z.of_nat q - 1) with (Z.of_nat (q - 1)) by lia.
    destruct q as [|q]; [lia|]. change (take 1 ?l) with [hd 0 l]. cbn [hd app].
    rewrite app_comm_cons, insert_app_r_alt by (cbn; lia). cbn [length app]. f_equal. f_equal.
    replace (15 - S (length nonce))%nat with q by lia.
    rewrite be_bytes_snoc. change (Z.land (Z.of_nat 1) 255) with 1. change (Z.shiftr (Z.of_nat 1) 8) with 0.
    rewrite be_bytes_map, replicate_S_end. rewrite insert_app_r_alt; [|rewrite length_replicate; lia].
    rewrite length_replicate, Nat.sub_diag. f_equal. clear. induction q as [|q IH]; [reflexivity|].
    rewrite seq_S, map_app, rev_app_distr. cbn [map rev app replicate]. f_equal; [|exact IH].
    rewrite Z.shiftr_0_l. reflexivity.
  - rewrite length_replicate, memcpy_at_length by (cbn [length]; rewrite zeros_length; lia).
    cbn [length]. rewrite zeros_length. lia.
Qed.

Lemma zero_ctr_block q nonce i :
  (length nonce + q = 15)%nat ->
  fold_left (fun ctr j => <[(15 - j)%nat := 0]> ctr) (seq 0 q) (ctr_block q nonce i) = ctr_block q nonce 0.
Proof.
  intros Hq. unfold ctr_block. rewrite !app_comm_cons.
  rewrite (fill_down (fun _ => 0) q) by (rewrite ?be_bytes_length; cbn; lia || reflexivity).
  rewrite Nat.sub_diag, take_0, be_bytes_map. cbn [app]. do 3 f_equal.
  apply map_ext. intros j. rewrite Z.shiftr_0_l. reflexivity.
Qed.

(** ** The code, for a block cipher that answers *)

Section code.
Context (st : aes_statics) (ctx : mbedtls_ccm_context) (E : list Z -> list Z).
Context (Hcipher : forall in_place block, length block = 16%nat ->
  cipher_block st ctx in_place block = inr (E block)).
Context (HE : forall block, length (E block) = 16%nat).

Lemma UPDATE_CBC_MAC_spec b y :
  length b = 16%nat -> length y = 16%nat -> UPDATE_CBC_MAC st ctx b y = inr (cbc E y b).
Proof. intros Hb Hy. apply Hcipher. rewrite length_zip_with, Hb, Hy. reflexivity. Qed.

Lemma CTR_CRYPT_spec ctr src :
  length ctr = 16%nat -> CTR_CRYPT st ctx ctr src = inr (zip_with Z.lxor src (E ctr)).
Proof. intros H. unfold CTR_CRYPT. rewrite Hcipher by exact H. reflexivity. Qed.

Lemma take_use_len (l : list Z) :
  take (if (16 <? length l)%nat then 16%nat else length l) l = take 16 l /\
  drop (if (16 <? length l)%nat then 16%nat else length l) l = drop 16 l.
Proof.
  destruct (Nat.ltb_spec 16 (length l)); [auto|].
  rewrite !take_ge, !drop_ge by lia. auto.
Qed.

Lemma cbc_mac_step y l :
  l <> [] -> cbc_mac E y (pad16 l) =
  cbc_mac E (cbc E y (memcpy_at 0 (take 16 l) (zeros 16))) (pad16 (drop 16 l)).
Proof. intros H. rewrite (pad16_step l H), cbc_mac_block by apply first_block_length. reflexivity. Qed.

Lemma mac_rest_spec fuel src y :
  (length src <= fuel)%nat -> length y = 16%nat ->
  mac_rest st ctx fuel src y = inr (cbc_mac E y (pad16 src)) /\ length (cbc_mac E y (pad16 src)) = 16%nat.
Proof.
  revert src y. induction fuel as [|fuel IH]; intros src y Hf Hy.
  - destruct src; [auto|cbn in Hf; lia].
  - cbn [mac_rest]. destruct (Nat.ltb_spec 0 (length src)) as [Hlt|Hz].
    + destruct (take_use_len src) as [-> ->].
      rewrite UPDATE_CBC_MAC_spec by (apply first_block_length || exact Hy). cbn [or_return].
      rewrite cbc_mac_step by (intros ->; cbn in Hlt; lia). apply IH; [rewrite length_drop; lia|apply HE].
    + destruct src; [auto|cbn in Hz; lia].
Qed.

Lemma ctr_block_length q nonce i : (length nonce + q = 15)%nat -> length (ctr_block q nonce i) = 16%nat.
Proof. intros H. unfold ctr_block. cbn [length]. rewrite length_app, be_bytes_length. lia. Qed.

(** One turn of the message loop writes [dst], the later turns the rest. *)
Lemma loop_output q nonce src i m :
  let dst := zip_with Z.lxor (take 16 src) (E (ctr_block q nonce i)) in
  let rest := zip_with Z.lxor (drop 16 src) (key_blocks E q nonce (S i) m) in
  zip_with Z.lxor src (key_blocks E q nonce i (S m)) = dst ++ rest /\
  length dst = length (take 16 src) /\ take 16 (dst ++ rest) = dst /\ drop 16 (dst ++ rest) = rest.
Proof.
  intros dst rest.
  assert (Hdst : length dst = length (take 16 src)) by (unfold dst; rewrite length_zip_with, HE, length_take; lia).
  split; [|split; [exact Hdst|]].
  - unfold key_blocks. cbn [seq map concat]. rewrite zip_with_app_r, HE. reflexivity.
  - rewrite length_take in Hdst. destruct (Nat.le_gt_cases 16 (length src)).
    + rewrite take_app_length', drop_app_length' by lia. auto.
    + unfold rest. rewrite (drop_ge src) by lia. rewrite app_nil_r, take_ge, drop_ge by lia. auto.
Qed.

(** The text that is authenticated. *)
Definition plaintext (mode : ccm_mode) (input output : list Z) : list Z :=
  match mode with CCM_ENCRYPT => input | CCM_DECRYPT => output end.

(** One turn of the message loop. *)
Lemma crypt_turn fuel mode q nonce src y i rest :
  (length nonce + q = 15)%nat -> src <> [] -> length y = 16%nat ->
  let dst := zip_with Z.lxor (take 16 src) (E (ctr_block q nonce i)) in
  length dst = length (take 16 src) ->
  take 16 (dst ++ rest) = dst ->
  crypt_loop st ctx (S fuel) mode q src y (ctr_block q nonce i) =
  (let! (y, ctr, output) :=
     crypt_loop st ctx fuel mode q (drop 16 src)
       (cbc E y (memcpy_at 0 (take 16 (plaintext mode src (dst ++ rest))) (zeros 16))) (ctr_block q nonce (S i)) in
   inr (y, ctr, dst ++ output)).
Proof.
  intros Hq Hne Hy dst Hdst Htd. cbn [crypt_loop].
  destruct (Nat.ltb_spec 0 (length src)) as [_|Hz]; [|destruct src; [congruence|cbn in Hz; lia]].
  destruct (take_use_len src) as [-> ->]. rewrite CTR_CRYPT_spec by (apply ctr_block_length, Hq). fold dst.
  destruct mode; cbn [plaintext or_return].
  - rewrite UPDATE_CBC_MAC_spec by (apply first_block_length || exact Hy). cbn [or_return].
    rewrite increment_ctr_block by exact Hq. reflexivity.
  - rewrite Htd. replace (take _ dst) with dst.
    + rewrite UPDATE_CBC_MAC_spec; [|rewrite <- Htd; apply first_block_length|exact Hy].
      cbn [or_return]. rewrite increment_ctr_block by exact Hq. reflexivity.
    + rewrite take_ge; [reflexivity|]. rewrite Hdst, length_take.
      destruct (Nat.ltb_spec 16 (length src)); lia.
Qed.

(** The message loop: the key stream from counter [i] on, and the MAC of the
    plaintext. *)
Lemma crypt_loop_spec fuel mode q nonce src y i m :
  (length nonce + q = 15)%nat -> (length src <= fuel)%nat -> (length src <= 16 * m)%nat ->
  length y = 16%nat ->
  let out := zip_with Z.lxor src (key_blocks E q nonce i m) in
  exists i', let y' := cbc_mac E y (pad16 (plaintext mode src out)) in
    crypt_loop st ctx fuel mode q src y (ctr_block q nonce i) = inr (y', ctr_block q nonce i', out) /\
    length y' = 16%nat.
Proof.
  intros Hq. revert src y i m. induction fuel as [|fuel IH]; intros src y i m Hf Hm Hy.
  - destruct src; [|cbn in Hf; lia]. exists i. destruct mode; auto.
  - destruct src as [|c src']; [exists i; destruct mode; auto|]. set (src := c :: src') in *.
    assert (Hne : src <> []) by discriminate. destruct m as [|m]; [cbn in Hm; lia|].
    destruct (loop_output q nonce src i m) as (-> & Hdst & Htd & Hdd).
    set (dst := zip_with Z.lxor (take 16 src) (E (ctr_block q nonce i))) in *.
    set (rest := zip_with Z.lxor (drop 16 src) (key_blocks E q nonce (S i) m)) in *.
    assert (HP : plaintext mode src (dst ++ rest) <> []).
    { destruct mode; [exact Hne|]. cbn [plaintext]. intros Heq%(f_equal length). rewrite length_app, Hdst in Heq. discriminate Heq. }
    cbv zeta. rewrite (cbc_mac_step y _ HP), (crypt_turn fuel mode q nonce src y i rest) by assumption.
    fold dst. set (y1 := cbc E y _).
    destruct (IH (drop 16 src) y1 (S i) m) as (i' & -> & Hl);
      [rewrite length_drop; lia|rewrite length_drop; lia|apply HE|].
    exists i'. fold rest. replace (drop 16 (plaintext mode src (dst ++ rest)))
      with (plaintext mode (drop 16 src) rest) by (destruct mode; cbn [plaintext]; congruence).
    split; [reflexivity|exact Hl].
Qed.

Lemma pad16_pending l : pending 16 (pad16 l) = [].
Proof.
  apply length_zero_iff_nil. rewrite (pending_length 16 32 4) by (reflexivity || lia).
  unfold pad16. rewrite length_app, zeros_length.
  rewrite <- Nat.Div0.add_mod_idemp_l, Nat.Div0.add_mod_idemp_r.
  pose proof (Nat.mod_upper_bound (length l) 16).
  replace (length l mod 16 + (16 - length l mod 16))%nat with 16%nat by lia. reflexivity.
Qed.

Lemma cbc_mac_app y a b : pending 16 a = [] -> cbc_mac E y (a ++ b) = cbc_mac E (cbc_mac E y a) b.
Proof. intros H. unfold cbc_mac. rewrite (absorbed_app 16 32 (cbc E) 4), H by (reflexivity || lia). reflexivity. Qed.

Lemma format_add_pending add : pending 16 (format_add add) = [].
Proof. destruct add; [reflexivity|apply pad16_pending]. Qed.

(** The additional data. *)
Lemma mac_add_spec add y :
  length y = 16%nat -> length (cbc_mac E y (format_add add)) = 16%nat /\
  (if (0 <? length add)%nat
   then
     let b := memcpy_at 0 (MBEDTLS_PUT_UINT16_BE (Z.of_nat (length add))) (zeros 16) in
     let use_len := if (length add <? 16 - 2)%nat then length add else (16 - 2)%nat in
     let b := memcpy_at 2 (take use_len add) b in
     let! y := UPDATE_CBC_MAC st ctx b y in
     mac_rest st ctx (length add) (drop use_len add) y
   else inr y) = inr (cbc_mac E y (format_add add)).
Proof.
  intros Hy. destruct add as [|a add']; [auto|]. set (add := a :: add').
  change (0 <? length add)%nat with true. cbv iota zeta.
  change (format_add add) with (pad16 (be_bytes 2 (Z.of_nat (length add)) ++ add)).
  change (be_bytes 2 (Z.of_nat (length add))) with (MBEDTLS_PUT_UINT16_BE (Z.of_nat (length add))).
  unfold MBEDTLS_PUT_UINT16_BE. cbn [app]. set (x := MBEDTLS_BYTE_1 _). set (z := MBEDTLS_BYTE_0 _).
  assert (Huse : take (if (length add <? 16 - 2)%nat then length add else (16 - 2)%nat) add = take 14 add /\
                 drop (if (length add <? 16 - 2)%nat then length add else (16 - 2)%nat) add = drop 14 add).
  { change (16 - 2)%nat with 14%nat. destruct (Nat.ltb_spec (length add) 14); [|auto].
    rewrite !take_ge, !drop_ge by lia. auto. }
  destruct Huse as [-> ->].
  change (memcpy_at 2 (take 14 add) (memcpy_at 0 [x; z] (zeros 16)))
    with (memcpy_at 0 (take 16 (x :: z :: add)) (zeros 16)).
  rewrite UPDATE_CBC_MAC_spec by (apply first_block_length || exact Hy). cbn [or_return].
  rewrite cbc_mac_step by discriminate. change (drop 16 (x :: z :: add)) with (drop 14 add).
  destruct (mac_rest_spec (length add) (drop 14 add) (cbc E y (memcpy_at 0 (take 16 (x :: z :: add)) (zeros 16))))
    as [-> Hl]; [rewrite length_drop; lia|apply HE|]. auto.
Qed.

Lemma key_blocks_length q nonce i m : length (key_blocks E q nonce i m) = (16 * m)%nat.
Proof.
  unfold key_blocks. revert i. induction m as [|m IH]; intros i; [reflexivity|].
  cbn [seq map concat]. rewrite length_app, HE, IH. lia.
Qed.

Lemma blocks_enough (l : list Z) : (length l <= 16 * ((length l + 15) / 16))%nat.
Proof. pose proof (Nat.div_mod_eq (length l + 15) 16). pose proof (Nat.mod_upper_bound (length l + 15) 16). lia. Qed.

Lemma ctr_crypt_length q nonce input : length (ctr_crypt E q nonce input) = length input.
Proof. unfold ctr_crypt. rewrite length_zip_with, key_blocks_length. pose proof (blocks_enough input). lia. Qed.

Lemma plaintext_length mode q nonce input :
  length (plaintext mode input (ctr_crypt E q nonce input)) = length input.
Proof. destruct mode; [reflexivity|apply ctr_crypt_length]. Qed.

(** [B_0] as the code builds it. *)
Lemma first_block q flags nonce len :
  (length nonce + q = 15)%nat ->
  put_length q len (memcpy_at 1 nonce (<[0%nat := flags]> (zeros 16))) =
  (flags :: nonce ++ be_bytes q len, Z.shiftr len (8 * Z.of_nat q)).
Proof.
  intros Hq. change (<[0%nat := flags]> (zeros 16)) with (flags :: zeros 15). unfold memcpy_at.
  change (take 1 (flags :: zeros 15)) with [flags]. rewrite app_assoc.
  rewrite put_length_spec; [reflexivity|cbn; lia|].
  rewrite length_drop. cbn [length]. rewrite zeros_length. lia.
Qed.

(** The whole function, on lengths that are allowed. *)
Lemma ccm_auth_crypt_spec mode nonce add input tag_len :
  ccm_lengths nonce add (length input) tag_len ->
  let q := (15 - length nonce)%nat in
  let out := ctr_crypt E q nonce input in
  ccm_auth_crypt st ctx mode nonce add input tag_len =
  inr (out, mac_tag E (first_flags (Z.of_nat (length add)) (Z.of_nat tag_len) (Z.of_nat q))
              q nonce add (plaintext mode input out) tag_len).
Proof.
  intros (Hn & Ha & Ht & Hl) q out. assert (Hq : (length nonce + q = 15)%nat) by (unfold q; lia).
  unfold ccm_auth_crypt.
  replace ((tag_len =? 2)%nat || (16 <? tag_len)%nat || negb (tag_len mod 2 =? 0)%nat) with false
    by (repeat (destruct Ht as [<-|Ht]; [reflexivity|]); destruct Ht).
  replace ((length nonce <? 7)%nat || (13 <? length nonce)%nat) with false
    by (symmetry; apply orb_false_iff; split; apply Nat.ltb_ge; lia).
  destruct (Z.leb_spec 0xFF00 (Z.of_nat (length add))); [lia|].
  change (16 - 1 - length nonce)%nat with q. cbv zeta. rewrite first_block by exact Hq.
  replace (0 <? Z.shiftr (Z.of_nat (length input)) (8 * Z.of_nat q)) with false.
  2:{ symmetry. apply Z.ltb_ge. rewrite Z.shiftr_div_pow2, Z.pow_mul_r by lia. change (2 ^ 8) with 256.
      rewrite Z.div_small by (fold q in Hl; lia). lia. }
  rewrite UPDATE_CBC_MAC_spec; [|cbn [length]; rewrite length_app, be_bytes_length; lia|reflexivity].
  cbn [or_return]. destruct (mac_add_spec add (cbc E (zeros 16) (first_flags (Z.of_nat (length add))
    (Z.of_nat tag_len) (Z.of_nat q) :: nonce ++ be_bytes q (Z.of_nat (length input))))) as [Hy Hadd]; [apply HE|].
  cbv zeta in Hadd. rewrite Hadd. cbn [or_return].
  rewrite first_ctr_block by (unfold q in *; lia).
  destruct (crypt_loop_spec (length input) mode q nonce input _ 1 ((length input + 15) / 16)
              Hq (Nat.le_refl _) (blocks_enough input) Hy) as (i' & -> & Hl').
  cbn [or_return]. rewrite zero_ctr_block by exact Hq.
  rewrite CTR_CRYPT_spec by (apply ctr_block_length, Hq). cbn [or_return]. do 3 f_equal.
  unfold mac_tag, format_blocks. fold (ctr_crypt E q nonce input). fold out. f_equal. f_equal.
  rewrite cbc_mac_block, cbc_mac_app by (apply format_add_pending ||
    (cbn [length]; rewrite length_app, be_bytes_length; lia)).
  unfold out. rewrite plaintext_length. reflexivity.
Qed.

End code.

End ccm_spec.
