(* ===== verification/CcmLaws.v ===== *)
(** What the callers of mbedTLS CCM rely on: over AES it is SP 800-38C with the
    cipher of FIPS 197, it refuses the lengths the standard excludes, decryption
    and encryption are inverse to each other, and it is an instance of the
    interface [Ccm] the firmware's theorems are proved against. *)

From S2P Require Import Prelude MbedCommon HashStream Aes AesFips AesInverse AesCtr Cipher CcmAes CcmSpec Ccm.
Import mbed stream aes aes_fips aes_keys aes_inverse aes_ctr cipher ccm_aes ccm_spec.

Module ccm_laws.

(** ** A keyed context *)

(** A context whose block cipher is keyed for encryption. *)
Definition ccm_keyed (ctx : mbedtls_ccm_context) (o : mbedtls_aes_context) : Prop :=
  aes_context_of MBEDTLS_MODE_ECB 0 (block_ctx ctx) o /\ operation (block_ctx ctx) = MBEDTLS_ENCRYPT.

(** The block cipher answers, and leaves its context as it was. *)
Lemma cipher_block_spec st ctx o in_place block :
  ccm_keyed ctx o -> length block = 16%nat ->
  cipher_block st ctx in_place block = inr (encrypt_block st o block).
Proof. intros [Hc Hop] Hl. unfold cipher_block. rewrite (update_ecb st _ o) by assumption. reflexivity. Qed.

Lemma update_block_context st ctx o in_place block :
  ccm_keyed ctx o -> length block = 16%nat ->
  mbedtls_cipher_update st (block_ctx ctx) in_place block = (0, block_ctx ctx, encrypt_block st o block, 16%nat).
Proof. intros [Hc Hop] Hl. apply update_ecb; assumption. Qed.

Lemma ccm_setkey_spec Nk st st' o ctx key :
  key_size Nk -> mbedtls_aes_setkey_enc st mbedtls_aes_init key (32 * Z.of_nat Nk) = (0, st', o) ->
  exists ctx', mbedtls_ccm_setkey true st ctx MBEDTLS_CIPHER_ID_AES key (32 * Z.of_nat Nk) = (0, st', ctx') /\
    ccm_keyed ctx' o.
Proof.
  intros HNk Ho. destruct (ecb_entry Nk HNk) as (info & Hinfo & He & Hm & Hiv).
  destruct (setup_setkey_object Nk st st' o info (mbedtls_cipher_free (block_ctx ctx)) key MBEDTLS_ENCRYPT Ho He
              (or_introl eq_refl)) as (c1 & c2 & H1 & H2 & Hc & Hop & _).
  unfold mbedtls_ccm_setkey. rewrite info_from_values_ecb, Hinfo by (destruct HNk as [-> | [-> | ->]]; words).
  destruct He as (_ & _ & _ & ->). cbn [Nat.eqb negb]. rewrite H1. cbn [Z.eqb negb]. rewrite H2. cbn [Z.eqb negb].
  eexists. split; [reflexivity|]. rewrite Hm, Hiv in Hc. split; assumption.
Qed.

(** Another cipher or key size is refused, the context untouched. *)
Lemma ccm_setkey_refuses alloc st ctx cipher key keybits :
  is_u32 keybits -> cipher <> MBEDTLS_CIPHER_ID_AES \/ ecb_info_of keybits = None ->
  mbedtls_ccm_setkey alloc st ctx cipher key keybits = (MBEDTLS_ERR_CCM_BAD_INPUT, st, ctx).
Proof.
  intros Hb Hc. unfold mbedtls_ccm_setkey.
  replace (mbedtls_cipher_info_from_values cipher keybits MBEDTLS_MODE_ECB) with (@None mbedtls_cipher_info_t);
    [reflexivity|]. destruct (decide (cipher = MBEDTLS_CIPHER_ID_AES)) as [->|Hne].
  - destruct Hc as [[]|Hn]; [reflexivity|]. rewrite info_from_values_ecb by exact Hb. auto.
  - rewrite info_from_values_other by exact Hne. reflexivity.
Qed.

(** ** Lengths *)

(** The lengths the standard excludes are refused before any cipher call, with
    any context. *)
Lemma ccm_lengths_dec nonce add len tag_len :
  {ccm_lengths nonce add len tag_len} + {~ ccm_lengths nonce add len tag_len}.
Proof.
  unfold ccm_lengths. destruct (decide (7 <= length nonce <= 13)%nat) as [|H]; [|right; tauto].
  destruct (decide (Z.of_nat (length add) < 0xFF00)) as [|H]; [|right; tauto].
  destruct (in_dec Nat.eq_dec tag_len [0; 4; 6; 8; 10; 12; 14; 16]%nat) as [|H]; [|right; tauto].
  destruct (decide (Z.of_nat len < 256 ^ Z.of_nat (15 - length nonce))) as [|H]; [left|right]; tauto.
Qed.

Lemma tag_len_allowed tag_len :
  (tag_len =? 2)%nat || (16 <? tag_len)%nat || negb (tag_len mod 2 =? 0)%nat = false ->
  In tag_len [0; 4; 6; 8; 10; 12; 14; 16]%nat.
Proof.
  intros [[H2%Nat.eqb_neq H16%Nat.ltb_ge]%orb_false_iff Hm]%orb_false_iff.
  assert (Hr : In tag_len (seq 0 17)) by (apply in_seq; lia).
  repeat (destruct Hr as [<-|Hr]; [first [discriminate Hm|congruence|cbn; tauto]|]). destruct Hr.
Qed.

Lemma ccm_auth_crypt_refuses st ctx mode nonce add input tag_len :
  ~ ccm_lengths nonce add (length input) tag_len ->
  ccm_auth_crypt st ctx mode nonce add input tag_len = inl MBEDTLS_ERR_CCM_BAD_INPUT.
Proof.
  intros H. unfold ccm_auth_crypt. destruct (_ || _ || _) eqn:Ht; [reflexivity|]. apply tag_len_allowed in Ht.
  destruct (_ || _) eqn:Hn; [reflexivity|]. apply orb_false_iff in Hn as [H7%Nat.ltb_ge H13%Nat.ltb_ge].
  destruct (Z.leb_spec 0xFF00 (Z.of_nat (length add))) as [_|Ha]; [reflexivity|].
  cbv zeta. rewrite first_block by lia. destruct (Z.ltb_spec 0
    (Z.shiftr (Z.of_nat (length input)) (8 * Z.of_nat (16 - 1 - length nonce)))) as [_|Hl]; [reflexivity|].
  exfalso. apply H. split; [lia|]. split; [exact Ha|]. split; [exact Ht|].
  change (16 - 1)%nat with 15%nat in Hl. rewrite Z.shiftr_div_pow2, Z.pow_mul_r in Hl by lia.
  change (2 ^ 8) with 256 in Hl.
  set (p := 256 ^ Z.of_nat (15 - length nonce)) in *. assert (0 < p) by (apply Z.pow_pos_nonneg; lia).
  pose proof (Z.div_le_lower_bound (Z.of_nat (length input)) p 1). lia.
Qed.

(** ** The two calls of the firmware *)

Section keyed.
Context (st : aes_statics) (ctx : mbedtls_ccm_context) (o : mbedtls_aes_context) (Hkeyed : ccm_keyed ctx o).

#[local] Notation "'E'" := (encrypt_block st o).

(** The tag, with the flags as the code computes them. *)
Definition tag_of (add : list Z) (t : nat) (nonce p : list Z) : list Z :=
  mac_tag E (first_flags (Z.of_nat (length add)) (Z.of_nat t) (Z.of_nat (15 - length nonce)))
    (15 - length nonce) nonce add p t.

Lemma auth_crypt_spec mode nonce add input tag_len :
  ccm_lengths nonce add (length input) tag_len ->
  let out := ctr_crypt E (15 - length nonce) nonce input in
  ccm_auth_crypt st ctx mode nonce add input tag_len =
  inr (out, tag_of add tag_len nonce (plaintext mode input out)).
Proof.
  intros H. apply ccm_auth_crypt_spec; [|intros; apply encrypt_block_state|exact H].
  intros ip block Hl. apply (cipher_block_spec st ctx o ip block Hkeyed Hl).
Qed.

Lemma mac_tag_length flags q nonce add p t :
  (t <= 16)%nat -> length (mac_tag E flags q nonce add p t) = t.
Proof.
  intros Ht. unfold mac_tag. rewrite length_take, length_zip_with.
  destruct (encrypt_block_state st o (ctr_block q nonce 0)) as [-> _].
  assert (H : length (cbc_mac E (zeros 16) (format_blocks flags q nonce add p)) = 16%nat); [|lia].
  unfold cbc_mac, absorbed. generalize (nblocks 16 (format_blocks flags q nonce add p)). intros n.
  generalize (format_blocks flags q nonce add p). assert (Hz : length (zeros 16) = 16%nat) by reflexivity.
  revert Hz. generalize (zeros 16). induction n as [|n IH]; intros y Hy l; [exact Hy|]. apply IH.
  apply encrypt_block_state.
Qed.

Lemma tag_len_le nonce add len t : ccm_lengths nonce add len t -> (t <= 16)%nat.
Proof. intros (_ & _ & H & _). repeat (destruct H as [<-|H]; [lia|]). destruct H. Qed.

(** Decryption: the payload if the tag is right, zeros and an error if not. *)
Lemma star_auth_decrypt_spec nonce add input tag :
  ccm_lengths nonce add (length input) (length tag) ->
  let p := ctr_crypt E (15 - length nonce) nonce input in
  mbedtls_ccm_star_auth_decrypt st ctx nonce add input tag =
  if bool_decide (tag_of add (length tag) nonce p = tag) then (0, p)
  else (MBEDTLS_ERR_CCM_AUTH_FAILED, zeros (length input)).
Proof.
  intros H p. unfold mbedtls_ccm_star_auth_decrypt. rewrite auth_crypt_spec by exact H. fold p. cbn [plaintext].
  assert (Hl : length (tag_of add (length tag) nonce p) = length tag)
    by exact (mac_tag_length _ _ _ _ _ _ (tag_len_le _ _ _ _ H)).
  pose proof (ct_memcmp_zero tag (tag_of add (length tag) nonce p) (length tag) eq_refl Hl) as Hz.
  destruct (Z.eqb_spec (mbedtls_ct_memcmp tag (tag_of add (length tag) nonce p) (length tag)) 0) as [H0|H0];
    cbn [negb].
  - rewrite bool_decide_eq_true_2; [reflexivity|]. symmetry. apply Hz, H0.
  - rewrite bool_decide_eq_false_2; [|intros Heq; apply H0, Hz; congruence].
    rewrite platform_zeroize_all; [reflexivity|].
    apply (ctr_crypt_length (encrypt_block st o)). intros. apply encrypt_block_state.
Qed.

Lemma ctr_crypt_involutive q nonce input :
  ctr_crypt E q nonce (ctr_crypt E q nonce input) = input.
Proof.
  assert (HE : forall b, length (E b) = 16%nat) by (intros; apply encrypt_block_state).
  unfold ctr_crypt at 1. rewrite ctr_crypt_length by exact HE. unfold ctr_crypt.
  set (ks := key_blocks E q nonce 1 ((length input + 15) / 16)).
  assert (Hle : (length input <= length ks)%nat).
  { unfold ks. rewrite key_blocks_length by exact HE. apply blocks_enough. }
  assert (Hz : forall a, length a = length input ->
                 zip_with Z.lxor a ks = zip_with Z.lxor a (take (length input) ks)).
  { intros a Ha. rewrite <- (take_drop (length input) ks) at 1.
    assert (length (take (length input) ks) = length input) by (rewrite length_take; lia).
    rewrite zip_with_app_r, take_ge, drop_ge by lia. apply app_nil_r. }
  rewrite (Hz (zip_with Z.lxor input ks)) by (rewrite length_zip_with; lia).
  rewrite (Hz input) by reflexivity. apply zip_lxor_involutive. rewrite length_take. lia.
Qed.

End keyed.

(** ** Over FIPS 197 *)

(** Block ciphers that agree on blocks of bytes compute the same. *)
Section agree.
Context (E F : list Z -> list Z).
Context (Hagree : forall block, is_state block -> E block = F block /\ is_state (F block)).

Lemma ctr_block_state q nonce i :
  (length nonce + q = 15)%nat -> byte_list nonce -> is_state (ctr_block q nonce i).
Proof.
  intros Hq Hn. split; [apply ctr_block_length, Hq|]. constructor; [unfold is_u8; lia|].
  apply Forall_app. split; [exact Hn|apply be_bytes_bytes].
Qed.

Lemma ctr_crypt_agree q nonce input :
  (length nonce + q = 15)%nat -> byte_list nonce -> ctr_crypt E q nonce input = ctr_crypt F q nonce input.
Proof.
  intros Hq Hn. unfold ctr_crypt, key_blocks. do 2 f_equal. apply map_ext. intros i.
  apply Hagree, ctr_block_state; assumption.
Qed.

Lemma cbc_agree y b :
  is_state y -> length b = 16%nat -> byte_list b -> cbc E y b = cbc F y b /\ is_state (cbc F y b).
Proof.
  intros [Hy Hyb] Hb Hbb. apply Hagree. split; [rewrite length_zip_with, Hy, Hb; reflexivity|].
  apply zip_lxor_u8; assumption.
Qed.

Lemma pad16_bytes l : byte_list l -> byte_list (pad16 l).
Proof. intros H. apply Forall_app. split; [exact H|apply zeros_bytes]. Qed.

Lemma format_blocks_bytes flags q nonce add p :
  is_u8 flags -> byte_list nonce -> byte_list add -> byte_list p -> byte_list (format_blocks flags q nonce add p).
Proof.
  intros Hf Hn Ha Hp. unfold format_blocks. cbn [app]. constructor; [exact Hf|].
  rewrite !Forall_app. repeat split; [exact Hn|apply be_bytes_bytes| |apply pad16_bytes, Hp].
  destruct add as [|a add]; [apply Forall_nil_2|]. apply pad16_bytes, Forall_app. split; [apply be_bytes_bytes|exact Ha].
Qed.

Lemma mac_tag_agree flags q nonce add p t :
  (length nonce + q = 15)%nat -> is_u8 flags -> byte_list nonce -> byte_list add -> byte_list p ->
  mac_tag E flags q nonce add p t = mac_tag F flags q nonce add p t.
Proof.
  intros Hq Hf Hn Ha Hp. unfold mac_tag, cbc_mac.
  rewrite (proj1 (Hagree (ctr_block q nonce 0) (ctr_block_state q nonce 0 Hq Hn))).
  rewrite (proj1 (absorbed_ext 16 (cbc E) (cbc F) is_state cbc_agree (zeros 16) (format_blocks flags q nonce add p)
    ltac:(lia) (conj eq_refl (zeros_bytes 16)) (format_blocks_bytes flags q nonce add p Hf Hn Ha Hp))). reflexivity.
Qed.

Lemma ctr_crypt_bytes q nonce input :
  (length nonce + q = 15)%nat -> byte_list nonce -> byte_list input -> byte_list (ctr_crypt F q nonce input).
Proof.
  intros Hq Hn Hi. unfold ctr_crypt. apply zip_lxor_u8; [exact Hi|]. apply Forall_concat, Forall_map, Forall_forall.
  intros i _. apply Hagree, ctr_block_state; assumption.
Qed.

End agree.

(** The flags byte is that of the standard (but for CCM*'s empty tag). *)
Lemma first_flags_spec add t q :
  In t [4; 6; 8; 10; 12; 14; 16]%nat -> (2 <= q <= 8)%nat ->
  first_flags (Z.of_nat (length add)) (Z.of_nat t) (Z.of_nat q) = flags_byte add t q /\
  is_u8 (flags_byte add t q).
Proof.
  intros Ht Hq. assert (H : In q [2; 3; 4; 5; 6; 7; 8]%nat) by (cbn; lia).
  assert (Ha : (0 <? Z.of_nat (length add)) = negb (bool_decide (add = []))) by (destruct add; reflexivity).
  unfold first_flags, flags_byte. rewrite Ha. clear Ha Hq.
  assert (Hall : Forall (fun t => Forall (fun q => forall c : bool,
    let b := flags_byte (if c then [] else [0]) t q in
    first_flags (if c then 0 else 1) (Z.of_nat t) (Z.of_nat q) = b /\ (0 <=? b) && (b <? 256) = true)
    [2; 3; 4; 5; 6; 7; 8]%nat) [4; 6; 8; 10; 12; 14; 16]%nat).
  { repeat (constructor; [repeat (constructor; [intros []; split; reflexivity|]); constructor|]). constructor. }
  rewrite Forall_forall in Hall. specialize (Hall t (proj2 (list_elem_of_In _ _) Ht)).
  rewrite Forall_forall in Hall. specialize (Hall q (proj2 (list_elem_of_In _ _) H) (bool_decide (add = []))).
  cbv zeta in Hall. unfold first_flags, flags_byte in Hall. unfold is_u8.
  destruct (bool_decide (add = [])); cbn -[Z.lor Z.shiftl Z.div u64 u8 Z.mul Z.of_nat] in Hall |- *; lia.
Qed.

(** A context keyed with bytes computes with the cipher of FIPS 197. *)
Lemma ccm_setkey_fips Nk st ctx key :
  key_size Nk -> statics_ok st -> length key = (4 * Nk)%nat -> byte_list key ->
  exists ctx' o, mbedtls_ccm_setkey true st ctx MBEDTLS_CIPHER_ID_AES key (32 * Z.of_nat Nk) =
    (0, aes_ready, ctx') /\ ccm_keyed ctx' o /\
  forall block, is_state block ->
    encrypt_block aes_ready o block = fips_cipher (Nk + 6) (fips_round_key Nk key) block /\
    is_state (fips_cipher (Nk + 6) (fips_round_key Nk key) block).
Proof.
  intros HNk Hst Hl Hk.
  pose proof (fun block => encrypt_keyed Nk st mbedtls_aes_init key block HNk Hst eq_refl Hl Hk) as Hfips.
  destruct (setkey_enc_spec Nk st mbedtls_aes_init key HNk Hst eq_refl Hl Hk) as (o & Ho & _).
  destruct (ccm_setkey_spec Nk st aes_ready o ctx key HNk Ho) as (ctx' & H1 & H2).
  exists ctx', o. split; [exact H1|]. split; [exact H2|]. intros block Hs. specialize (Hfips block Hs).
  rewrite Ho in Hfips. assert (Heq : encrypt_block aes_ready o block = fips_cipher (Nk + 6) (fips_round_key Nk key) block).
  { unfold encrypt_block. destruct Hfips as (_ & _ & ->). reflexivity. }
  split; [exact Heq|]. rewrite <- Heq. apply encrypt_block_state.
Qed.

Lemma tag_nonzero nonce add len t :
  ccm_lengths nonce add len t -> t <> 0%nat -> In t [4; 6; 8; 10; 12; 14; 16]%nat.
Proof. intros (_ & _ & [H|H] & _) Ht; [congruence|exact H]. Qed.

(** Sealing under a key of bytes, from the setting of the key on. *)
Lemma seal_fips Nk st key nonce add input tag_len :
  key_size Nk -> statics_ok st -> length key = (4 * Nk)%nat ->
  byte_list key -> byte_list nonce -> byte_list add -> byte_list input ->
  ccm_lengths nonce add (length input) tag_len -> tag_len <> 0%nat ->
  exists ctx, mbedtls_ccm_setkey true st mbedtls_ccm_init MBEDTLS_CIPHER_ID_AES key (32 * Z.of_nat Nk) =
    (0, aes_ready, ctx) /\
  mbedtls_ccm_encrypt_and_tag aes_ready ctx nonce add input tag_len =
    inr (sp800_38c_seal (fips_cipher (Nk + 6) (fips_round_key Nk key)) nonce add input tag_len).
Proof.
  intros HNk Hst Hl Hk Hn Ha Hi Hlen Ht.
  destruct (ccm_setkey_fips Nk st mbedtls_ccm_init key HNk Hst Hl Hk) as (ctx & o & -> & Hkeyed & Hfips).
  exists ctx. split; [reflexivity|]. unfold mbedtls_ccm_encrypt_and_tag, mbedtls_ccm_star_encrypt_and_tag.
  destruct (Nat.eqb_spec tag_len 0); [congruence|]. rewrite (auth_crypt_spec _ _ o Hkeyed) by exact Hlen.
  pose proof Hlen as [Hnl _]. assert (Hq : (length nonce + (15 - length nonce) = 15)%nat) by lia.
  destruct (first_flags_spec add tag_len (15 - length nonce) (tag_nonzero _ _ _ _ Hlen Ht) ltac:(lia)) as [Hf Hu].
  unfold sp800_38c_seal, tag_of. rewrite Hf. cbn [plaintext].
  rewrite (ctr_crypt_agree _ _ Hfips), (mac_tag_agree _ _ Hfips) by assumption. reflexivity.
Qed.

(** C23. Encryption is SP 800-38C over FIPS 197, for the three key sizes and all the
    lengths the standard allows. *)
Theorem ccm_seal_is_sp800_38c Nk st key nonce add input tag_len :
  key_size Nk -> statics_ok st -> length key = (4 * Nk)%nat ->
  byte_list key -> byte_list nonce -> byte_list add -> byte_list input ->
  ccm_lengths nonce add (length input) tag_len -> tag_len <> 0%nat ->
  let '(ret, st', ctx) :=
    mbedtls_ccm_setkey true st mbedtls_ccm_init MBEDTLS_CIPHER_ID_AES key (32 * Z.of_nat Nk) in
  ret = 0 /\
  mbedtls_ccm_encrypt_and_tag st' ctx nonce add input tag_len =
    inr (sp800_38c_seal (fips_cipher (Nk + 6) (fips_round_key Nk key)) nonce add input tag_len).
Proof.
  intros HNk Hst Hl Hk Hn Ha Hi Hlen Ht.
  destruct (seal_fips Nk st key nonce add input tag_len) as (ctx & -> & ->); auto.
Qed.

(** The code and the output of a decryption. *)
Definition opened (len : nat) (payload : option (list Z)) : Z * list Z :=
  match payload with
  | Some payload => (0, payload)
  | None => (MBEDTLS_ERR_CCM_AUTH_FAILED, zeros len)
  end.

(** Decryption too: the payload when the tag is right, else zeros and
    [MBEDTLS_ERR_CCM_AUTH_FAILED]. *)
Theorem ccm_open_is_sp800_38c Nk st key nonce add input tag :
  key_size Nk -> statics_ok st -> length key = (4 * Nk)%nat ->
  byte_list key -> byte_list nonce -> byte_list add -> byte_list input ->
  ccm_lengths nonce add (length input) (length tag) -> tag <> [] ->
  let '(ret, st', ctx) :=
    mbedtls_ccm_setkey true st mbedtls_ccm_init MBEDTLS_CIPHER_ID_AES key (32 * Z.of_nat Nk) in
  ret = 0 /\
  mbedtls_ccm_auth_decrypt st' ctx nonce add input tag =
    opened (length input) (sp800_38c_open (fips_cipher (Nk + 6) (fips_round_key Nk key)) nonce add input tag).
Proof.
  intros HNk Hst Hl Hk Hn Ha Hi Hlen Ht.
  destruct (ccm_setkey_fips Nk st mbedtls_ccm_init key HNk Hst Hl Hk) as (ctx & o & -> & Hkeyed & Hfips).
  split; [reflexivity|]. unfold mbedtls_ccm_auth_decrypt. cbv zeta.
  assert (Ht0 : length tag <> 0%nat) by (destruct tag; [congruence|discriminate]).
  destruct (Nat.eqb_spec (length tag) 0); [congruence|]. rewrite (star_auth_decrypt_spec _ _ o Hkeyed) by exact Hlen.
  pose proof Hlen as [Hnl _]. assert (Hq : (length nonce + (15 - length nonce) = 15)%nat) by lia.
  destruct (first_flags_spec add (length tag) (15 - length nonce) (tag_nonzero _ _ _ _ Hlen Ht0) ltac:(lia)) as [Hf Hu].
  unfold sp800_38c_open, tag_of. cbv zeta. rewrite Hf, (ctr_crypt_agree _ _ Hfips) by assumption.
  rewrite (mac_tag_agree _ _ Hfips) by (assumption || (apply (ctr_crypt_bytes _ _ Hfips); assumption)).
  destruct (bool_decide _); reflexivity.
Qed.

Lemma ccm_seal_is_sp800_38c_witness :
  let key := map Z.of_nat (seq 64 16) in
  let '(ret, st', ctx) := mbedtls_ccm_setkey true aes_statics_init mbedtls_ccm_init MBEDTLS_CIPHER_ID_AES key 128 in
  ret = 0 /\
  mbedtls_ccm_encrypt_and_tag st' ctx (zeros 13) [1; 2] [3; 4; 5] 8 =
    inr (sp800_38c_seal (fips_cipher 10 (fips_round_key 4 key)) (zeros 13) [1; 2] [3; 4; 5] 8).
Proof.
  apply (ccm_seal_is_sp800_38c 4 aes_statics_init (map Z.of_nat (seq 64 16)) (zeros 13) [1; 2] [3; 4; 5] 8).
  - left. reflexivity.
  - left. reflexivity.
  - reflexivity.
  - repeat (constructor; [vm_compute; intuition discriminate|]). constructor.
  - apply zeros_bytes.
  - repeat (constructor; [vm_compute; intuition discriminate|]). constructor.
  - repeat (constructor; [vm_compute; intuition discriminate|]). constructor.
  - split; [vm_compute; lia|]. split; [reflexivity|]. split; [cbn; tauto|reflexivity].
  - discriminate.
Defined.

Lemma ccm_open_is_sp800_38c_witness :
  let key := map Z.of_nat (seq 64 32) in
  let '(ret, st', ctx) := mbedtls_ccm_setkey true aes_statics_init mbedtls_ccm_init MBEDTLS_CIPHER_ID_AES key 256 in
  ret = 0 /\
  mbedtls_ccm_auth_decrypt st' ctx (zeros 7) [] [3; 4; 5] (zeros 4) =
    opened 3 (sp800_38c_open (fips_cipher 14 (fips_round_key 8 key)) (zeros 7) [] [3; 4; 5] (zeros 4)).
Proof.
  apply (ccm_open_is_sp800_38c 8 aes_statics_init (map Z.of_nat (seq 64 32)) (zeros 7) [] [3; 4; 5] (zeros 4)).
  - right. right. reflexivity.
  - left. reflexivity.
  - reflexivity.
  - repeat (constructor; [vm_compute; intuition discriminate|]). constructor.
  - apply zeros_bytes.
  - constructor.
  - repeat (constructor; [vm_compute; intuition discriminate|]). constructor.
  - split; [vm_compute; lia|]. split; [reflexivity|]. split; [cbn; tauto|reflexivity].
  - discriminate.
Defined.

(** ** Errors *)

(** C25. Every length the standard excludes is refused, by both calls and with any
    context; so is the empty tag. *)
Theorem ccm_refuses st ctx nonce add input tag :
  ~ ccm_lengths nonce add (length input) (length tag) \/ tag = [] ->
  mbedtls_ccm_encrypt_and_tag st ctx nonce add input (length tag) = inl MBEDTLS_ERR_CCM_BAD_INPUT /\
  mbedtls_ccm_auth_decrypt st ctx nonce add input tag = (MBEDTLS_ERR_CCM_BAD_INPUT, []).
Proof.
  intros H. unfold mbedtls_ccm_encrypt_and_tag, mbedtls_ccm_auth_decrypt. cbv zeta.
  destruct (Nat.eqb_spec (length tag) 0) as [|H0]; [auto|].
  destruct H as [H|H]; [|subst tag; contradiction H0; reflexivity].
  unfold mbedtls_ccm_star_encrypt_and_tag, mbedtls_ccm_star_auth_decrypt.
  rewrite !ccm_auth_crypt_refuses by exact H. auto.
Qed.

Lemma ccm_refuses_witness :
  mbedtls_ccm_encrypt_and_tag aes_statics_init mbedtls_ccm_init (zeros 6) [] [1] 4 =
    inl MBEDTLS_ERR_CCM_BAD_INPUT /\
  mbedtls_ccm_auth_decrypt aes_statics_init mbedtls_ccm_init (zeros 6) [] [1] (zeros 4) =
    (MBEDTLS_ERR_CCM_BAD_INPUT, []).
Proof.
  apply (ccm_refuses aes_statics_init mbedtls_ccm_init (zeros 6) [] [1] (zeros 4)).
  left. intros [[H _] _]. vm_compute in H. lia.
Defined.

(** ** Inverses *)

Section inverse.
Context (st : aes_statics) (ctx : mbedtls_ccm_context) (o : mbedtls_aes_context) (Hkeyed : ccm_keyed ctx o).

Lemma seal_inv nonce add p t c tag :
  mbedtls_ccm_encrypt_and_tag st ctx nonce add p t = inr (c, tag) <->
  ccm_lengths nonce add (length p) t /\ t <> 0%nat /\
  c = ctr_crypt (encrypt_block st o) (15 - length nonce) nonce p /\ tag = tag_of st o add t nonce p.
Proof.
  unfold mbedtls_ccm_encrypt_and_tag, mbedtls_ccm_star_encrypt_and_tag.
  destruct (Nat.eqb_spec t 0) as [->|Ht]; [split; [discriminate|intros (_ & H & _); congruence]|].
  destruct (ccm_lengths_dec nonce add (length p) t) as [Hl|Hl].
  - rewrite (auth_crypt_spec st ctx o Hkeyed) by exact Hl. cbn [plaintext]. split.
    + intros H. injection H as <- <-. auto.
    + intros (_ & _ & -> & ->). reflexivity.
  - rewrite ccm_auth_crypt_refuses by exact Hl. split; [discriminate|intros [H _]; contradiction].
Qed.

Lemma open_inv nonce add c tag p :
  mbedtls_ccm_auth_decrypt st ctx nonce add c tag = (0, p) <->
  ccm_lengths nonce add (length c) (length tag) /\ tag <> [] /\
  p = ctr_crypt (encrypt_block st o) (15 - length nonce) nonce c /\ tag = tag_of st o add (length tag) nonce p.
Proof.
  unfold mbedtls_ccm_auth_decrypt. cbv zeta.
  destruct (Nat.eqb_spec (length tag) 0) as [H0|H0].
  { split; [discriminate|]. intros (_ & H & _). destruct tag; [congruence|discriminate H0]. }
  destruct (ccm_lengths_dec nonce add (length c) (length tag)) as [Hl|Hl].
  - rewrite (star_auth_decrypt_spec st ctx o Hkeyed) by exact Hl. split.
    + destruct (bool_decide _) eqn:Hb; [|discriminate]. apply bool_decide_eq_true in Hb.
      intros H. injection H as <-. split; [exact Hl|]. split; [intros ->; apply H0; reflexivity|auto].
    + intros (_ & _ & -> & Htag). rewrite <- Htag, bool_decide_eq_true_2; reflexivity.
  - unfold mbedtls_ccm_star_auth_decrypt. rewrite ccm_auth_crypt_refuses by exact Hl.
    split; [discriminate|intros [H _]; contradiction].
Qed.

Lemma ctr_length nonce p :
  length (ctr_crypt (encrypt_block st o) (15 - length nonce) nonce p) = length p.
Proof. apply ctr_crypt_length. intros. apply encrypt_block_state. Qed.

Lemma seal_iff_open nonce add p c tag :
  mbedtls_ccm_encrypt_and_tag st ctx nonce add p (length tag) = inr (c, tag) <->
  mbedtls_ccm_auth_decrypt st ctx nonce add c tag = (0, p).
Proof.
  rewrite seal_inv, open_inv. split.
  - intros (Hl & Ht & -> & Htag). rewrite ctr_length, ctr_crypt_involutive.
    split; [exact Hl|]. split; [intros ->; apply Ht; reflexivity|auto].
  - intros (Hl & Ht & -> & Htag). rewrite ctr_length, ctr_crypt_involutive.
    split; [exact Hl|]. split; [destruct tag; [congruence|discriminate]|auto].
Qed.

End inverse.

(** C24. Decryption accepts exactly what encryption under the same key makes, and
    gives its plaintext back. *)
Theorem ccm_open_iff_seal Nk st key nonce add p c tag :
  key_size Nk ->
  let '(_, st', ctx) :=
    mbedtls_ccm_setkey true st mbedtls_ccm_init MBEDTLS_CIPHER_ID_AES key (32 * Z.of_nat Nk) in
  mbedtls_ccm_auth_decrypt st' ctx nonce add c tag = (0, p) <->
  mbedtls_ccm_encrypt_and_tag st' ctx nonce add p (length tag) = inr (c, tag).
Proof.
  intros HNk. destruct (setkey_enc_accepts Nk st mbedtls_aes_init key HNk) as (st' & o & Ho).
  destruct (ccm_setkey_spec Nk st st' o mbedtls_ccm_init key HNk Ho) as (ctx & -> & Hkeyed).
  symmetry. apply (seal_iff_open st' ctx o Hkeyed).
Qed.

Lemma ccm_open_iff_seal_witness :
  let '(_, st', ctx) := mbedtls_ccm_setkey true aes_statics_init mbedtls_ccm_init MBEDTLS_CIPHER_ID_AES (zeros 16) 128 in
  mbedtls_ccm_auth_decrypt st' ctx (zeros 13) [] [1] (zeros 8) = (0, [2]) <->
  mbedtls_ccm_encrypt_and_tag st' ctx (zeros 13) [] [2] 8 = inr ([1], zeros 8).
Proof.
  apply (ccm_open_iff_seal 4 aes_statics_init (zeros 16) (zeros 13) [] [2] [1] (zeros 8)). left. reflexivity.
Defined.

(** ** The interface of the firmware *)

(** The calls of transport_encryption.c and historian.c: a fresh context keyed
    with 128 bits, given the memory it allocates; no additional data. *)
Definition keyed_128 (key : list Z) : Z * aes_statics * mbedtls_ccm_context :=
  mbedtls_ccm_setkey true aes_statics_init mbedtls_ccm_init MBEDTLS_CIPHER_ID_AES key 128.

Definition mbed_ccm : ccm.Ccm := {|
  ccm.mbedtls_ccm_setkey key := let '(ret, _, _) := keyed_128 key in ret =? 0;
  ccm.mbedtls_ccm_encrypt_and_tag key nonce input tag_len :=
    let '(_, st, ctx) := keyed_128 key in
    match mbedtls_ccm_encrypt_and_tag st ctx nonce [] input tag_len with
    | inl _ => None
    | inr out => Some out
    end;
  ccm.mbedtls_ccm_auth_decrypt key nonce input tag :=
    let '(_, st, ctx) := keyed_128 key in
    let '(ret, output) := mbedtls_ccm_auth_decrypt st ctx nonce [] input tag in
    if ret =? 0 then Some output else None |}.

Lemma keyed_128_spec key :
  exists st ctx o, keyed_128 key = (0, st, ctx) /\ ccm_keyed ctx o.
Proof.
  assert (HNk : key_size 4) by (left; reflexivity).
  destruct (setkey_enc_accepts 4 aes_statics_init mbedtls_aes_init key HNk) as (st & o & Ho).
  destruct (ccm_setkey_spec 4 aes_statics_init st o mbedtls_ccm_init key HNk Ho) as (ctx & Hc & Hkeyed).
  exists st, ctx, o. split; [exact Hc|exact Hkeyed].
Qed.

#[export] Instance mbed_ccm_ok : ccm.CcmOk mbed_ccm.
Proof.
  split; unfold mbed_ccm; cbn [ccm.mbedtls_ccm_setkey ccm.mbedtls_ccm_encrypt_and_tag ccm.mbedtls_ccm_auth_decrypt];
    intros key; destruct (keyed_128_spec key) as (st & ctx & o & -> & Hk).
  - intros nonce p n c t H. destruct (mbedtls_ccm_encrypt_and_tag st ctx nonce [] p n) as [|out] eqn:He; [discriminate|].
    injection H as ->. apply (seal_inv st ctx o Hk) in He as (Hl & _ & -> & ->).
    split; [apply ctr_length|apply mac_tag_length, (tag_len_le _ _ _ _ Hl)].
  - intros nonce p n c t H. destruct (mbedtls_ccm_encrypt_and_tag st ctx nonce [] p n) as [|out] eqn:He; [discriminate|].
    injection H as ->. assert (Hn : n = length t).
    { apply (seal_inv st ctx o Hk) in He as (Hl & _ & -> & ->).
      symmetry. apply mac_tag_length, (tag_len_le _ _ _ _ Hl). }
    subst n. apply (seal_iff_open st ctx o Hk) in He. rewrite He. reflexivity.
  - intros nonce c t p H. destruct (mbedtls_ccm_auth_decrypt st ctx nonce [] c t) as [ret out] eqn:Ho.
    destruct (Z.eqb_spec ret 0) as [->|]; [|discriminate]. injection H as <-.
    apply (seal_iff_open st ctx o Hk) in Ho. rewrite Ho. reflexivity.
  - reflexivity.
  - intros nonce p n _ Hn Ht Hl. destruct (mbedtls_ccm_encrypt_and_tag st ctx nonce [] p n) as [|out] eqn:He;
      [|eauto]. exfalso. assert (Hs := seal_inv st ctx o Hk nonce [] p n). rewrite He in Hs.
    enough (Heq : inl z = inr (ctr_crypt (encrypt_block st o) (15 - length nonce) nonce p, tag_of st o [] n nonce p))
      by discriminate Heq.
    apply Hs. split; [|split; [intros ->; cbn in Ht; intuition discriminate|auto]].
    split; [lia|]. split; [reflexivity|]. split; [right; exact Ht|]. rewrite Hn. exact Hl.
Qed.

End ccm_laws.
