(* ===== verification/Cmac.v ===== *)
(** CMAC of mbedTLS (lib/mbedtls/library/cmac.c) over AES contexts of the cipher
    layer, and its equality with SP 800-38B over the cipher of FIPS 197: subkeys
    by multiplication in GF(2^128), and a context that always keeps the last
    block back. *)

From S2P Require Import Prelude MbedCommon HashStream Aes AesFips AesInverse AesCtr Cipher CcmAes CcmSpec CcmLaws.
From Stdlib Require Import Btauto.
Import mbed stream rounds aes aes_fips aes_keys aes_inverse aes_ctr cipher ccm_spec ccm_laws.

Module cmac.

Record mbedtls_cmac_context_t := {
  cmac_state : list Z;
  unprocessed_block : list Z;
  cmac_unprocessed_len : nat }.

#[export] Instance eta_cmac : Eta mbedtls_cmac_context_t :=
  fun r => Build_mbedtls_cmac_context_t (cmac_state r) (unprocessed_block r) (cmac_unprocessed_len r).

(** A cipher context with the field it has when CMAC is built, [cmac_ctx]. *)
Record cipher_with_cmac := {
  cipher : mbedtls_cipher_context_t mbedtls_aes_context;
  cmac_ctx : option mbedtls_cmac_context_t }.

#[export] Instance eta_cipher_with_cmac : Eta cipher_with_cmac :=
  fun r => Build_cipher_with_cmac (cipher r) (cmac_ctx r).

Definition MBEDTLS_AES_BLOCK_SIZE : nat := 16.
Definition MBEDTLS_DES3_BLOCK_SIZE : nat := 8.
Definition MBEDTLS_CIPHER_BLKSIZE_MAX : nat := 16.

(** The loop runs from the last byte to the first. *)
Definition cmac_multiply_by_u (output input : list Z) (blocksize : nat) : Z * list Z :=
  let R_128 := 0x87 in
  let R_64 := 0x1B in
  let R_n := if (blocksize =? MBEDTLS_AES_BLOCK_SIZE)%nat then Some R_128
             else if (blocksize =? MBEDTLS_DES3_BLOCK_SIZE)%nat then Some R_64 else None in
  match R_n with
  | None => (MBEDTLS_ERR_CIPHER_BAD_INPUT_DATA, output)
  | Some R_n =>
      let '(output, overflow) :=
        fold_left (fun '(output, overflow) i =>
            (<[i := u8 (Z.lor (Z.shiftl input.[i] 1) overflow)]> output, Z.shiftr input.[i] 7))
          (rev (seq 0 blocksize)) (output, 0) in
      let mask := u8 (- Z.shiftr input.[0] 7) in
      (0, <[(blocksize - 1)%nat := Z.lxor output.[blocksize - 1] (Z.land R_n mask)]> output)
  end.

(** [mbedtls_cipher_update(ctx, block, block_size, block, &olen)]: a block
    encrypted in place. *)
Definition encrypt_in_place (st : aes_statics) (c : mbedtls_cipher_context_t mbedtls_aes_context)
  (block : list Z) : Z * mbedtls_cipher_context_t mbedtls_aes_context * list Z :=
  let '(ret, c, output, _) := mbedtls_cipher_update st c true block in
  (ret, c, if ret =? 0 then output else block).

(** The code and the two subkeys, from what their buffers hold. *)
Definition cmac_generate_subkeys (st : aes_statics) (c : mbedtls_cipher_context_t mbedtls_aes_context)
  (K1 K2 : list Z) : Z * mbedtls_cipher_context_t mbedtls_aes_context * list Z * list Z :=
  let L := zeros MBEDTLS_CIPHER_BLKSIZE_MAX in
  let block_size := mbedtls_cipher_get_block_size c in
  let '(ret, c, L) := encrypt_in_place st c (take block_size L) in
  if negb (ret =? 0) then (ret, c, K1, K2) else
  let '(ret, K1) := cmac_multiply_by_u K1 L block_size in
  if negb (ret =? 0) then (ret, c, K1, K2) else
  let '(ret, K2) := cmac_multiply_by_u K2 K1 block_size in
  (ret, c, K1, K2).

(** The bytes written to [output]. *)
Definition cmac_xor_block (input1 input2 : list Z) (block_size : nat) : list Z :=
  map (fun idx => Z.lxor input1.[idx] input2.[idx]) (seq 0 block_size).

Definition cmac_pad (padded_block_len : nat) (last_block : list Z) (last_block_len : nat) : list Z :=
  map (fun j => if (j <? last_block_len)%nat then last_block.[j]
                else if (j =? last_block_len)%nat then 0x80 else 0x00)
    (seq 0 padded_block_len).

(** [alloc] is the outcome of the allocation; a [None] key is NULL. *)
Definition mbedtls_cipher_cmac_starts (alloc : bool) (st : aes_statics) (ctx : cipher_with_cmac)
  (key : option (list Z)) (keybits : Z) : Z * aes_statics * cipher_with_cmac :=
  match cipher_info (cipher ctx), key with
  | Some info, Some key =>
      let '(retval, st, c) := mbedtls_cipher_setkey st (cipher ctx) key keybits MBEDTLS_ENCRYPT in
      let ctx := ctx <| cipher := c |> in
      if negb (retval =? 0) then (retval, st, ctx) else
      match type info with
      | MBEDTLS_CIPHER_AES_128_ECB | MBEDTLS_CIPHER_AES_192_ECB | MBEDTLS_CIPHER_AES_256_ECB
      | MBEDTLS_CIPHER_DES_EDE3_ECB =>
          if negb alloc then (MBEDTLS_ERR_CIPHER_ALLOC_FAILED, st, ctx)
          else
            let cmac := {| cmac_state := zeros MBEDTLS_CIPHER_BLKSIZE_MAX;
                           unprocessed_block := zeros MBEDTLS_CIPHER_BLKSIZE_MAX;
                           cmac_unprocessed_len := 0 |} in
            let cmac := cmac <| cmac_state :=
              mbedtls_platform_zeroize (cmac_state cmac) MBEDTLS_CIPHER_BLKSIZE_MAX |> in
            (0, st, ctx <| cmac_ctx := Some cmac |>)
      | _ => (MBEDTLS_ERR_CIPHER_BAD_INPUT_DATA, st, ctx)
      end
  | _, _ => (MBEDTLS_ERR_CIPHER_BAD_INPUT_DATA, st, ctx)
  end.

(** [for (j = 1; j < n; j++)]: the code, the state and the rest of the input. *)
Fixpoint cmac_blocks (n : nat) (st : aes_statics) (c : mbedtls_cipher_context_t mbedtls_aes_context)
  (block_size : nat) (state input : list Z)
  : Z * mbedtls_cipher_context_t mbedtls_aes_context * list Z * list Z :=
  match n with
  | O => (0, c, state, input)
  | S n =>
      let state := cmac_xor_block input state block_size in
      let '(ret, c, state) := encrypt_in_place st c state in
      if negb (ret =? 0) then (ret, c, state, input)
      else cmac_blocks n st c block_size state (drop block_size input)
  end.

(** The second half of update: the blocks but the last, which is kept. *)
Definition cmac_absorb (st : aes_statics) (c : mbedtls_cipher_context_t mbedtls_aes_context)
  (cmac : mbedtls_cmac_context_t) (block_size : nat) (input : list Z) : Z * cipher_with_cmac :=
  let n := ((length input + block_size - 1) / block_size)%nat in
  let '(ret, c, state, input) := cmac_blocks (n - 1) st c block_size (cmac_state cmac) input in
  let cmac := cmac <| cmac_state := state |> in
  if negb (ret =? 0) then (ret, {| cipher := c; cmac_ctx := Some cmac |}) else
  let cmac :=
    if (0 <? length input)%nat
    then cmac <| unprocessed_block := memcpy_at (cmac_unprocessed_len cmac) input (unprocessed_block cmac) |>
              <| cmac_unprocessed_len := (cmac_unprocessed_len cmac + length input)%nat |>
    else cmac in
  (0, {| cipher := c; cmac_ctx := Some cmac |}).

(** A [None] input is NULL. *)
Definition mbedtls_cipher_cmac_update (st : aes_statics) (ctx : cipher_with_cmac) (input : option (list Z))
  : Z * cipher_with_cmac :=
  match cipher_info (cipher ctx), input, cmac_ctx ctx with
  | Some info, Some input, Some cmac =>
      let block_size := block_size info in
      let ilen := length input in
      let fill := (block_size - cmac_unprocessed_len cmac)%nat in
      if ((0 <? cmac_unprocessed_len cmac) && (fill <? ilen))%nat
      then
        let cmac := cmac <| unprocessed_block :=
          memcpy_at (cmac_unprocessed_len cmac) (take fill input) (unprocessed_block cmac) |> in
        let cmac := cmac <| cmac_state :=
          cmac_xor_block (unprocessed_block cmac) (cmac_state cmac) block_size |> in
        let '(ret, c, state) := encrypt_in_place st (cipher ctx) (cmac_state cmac) in
        let cmac := cmac <| cmac_state := state |> in
        if negb (ret =? 0) then (ret, {| cipher := c; cmac_ctx := Some cmac |})
        else cmac_absorb st c (cmac <| cmac_unprocessed_len := 0%nat |>) block_size (drop fill input)
      else cmac_absorb st (cipher ctx) cmac block_size input
  | _, _, _ => (MBEDTLS_ERR_CIPHER_BAD_INPUT_DATA, ctx)
  end.

(** The third component is what is written to [output]. *)
Definition mbedtls_cipher_cmac_finish (st : aes_statics) (ctx : cipher_with_cmac)
  : Z * cipher_with_cmac * list Z :=
  match cipher_info (cipher ctx), cmac_ctx ctx with
  | Some info, Some cmac =>
      let block_size := block_size info in
      let K1 := zeros MBEDTLS_CIPHER_BLKSIZE_MAX in
      let K2 := zeros MBEDTLS_CIPHER_BLKSIZE_MAX in
      let '(_, c, K1, K2) := cmac_generate_subkeys st (cipher ctx) K1 K2 in
      let last_block := unprocessed_block cmac in
      let M_last :=
        if (cmac_unprocessed_len cmac <? block_size)%nat
        then cmac_xor_block (cmac_pad block_size last_block (cmac_unprocessed_len cmac)) K2 block_size
        else cmac_xor_block last_block K1 block_size in
      let state := cmac_xor_block M_last (cmac_state cmac) block_size in
      let '(ret, c, state) := encrypt_in_place st c state in
      let output := if negb (ret =? 0) then [] else take block_size state in
      let cmac := cmac <| cmac_unprocessed_len := 0%nat |>
                       <| unprocessed_block :=
                            mbedtls_platform_zeroize (unprocessed_block cmac) MBEDTLS_CIPHER_BLKSIZE_MAX |>
                       <| cmac_state := mbedtls_platform_zeroize state MBEDTLS_CIPHER_BLKSIZE_MAX |> in
      (ret, {| cipher := c; cmac_ctx := Some cmac |}, output)
  | _, _ => (MBEDTLS_ERR_CIPHER_BAD_INPUT_DATA, ctx, [])
  end.

Definition mbedtls_cipher_cmac_reset (ctx : cipher_with_cmac) : Z * cipher_with_cmac :=
  match cipher_info (cipher ctx), cmac_ctx ctx with
  | Some _, Some cmac =>
      let cmac := cmac <| cmac_unprocessed_len := 0%nat |>
                       <| unprocessed_block :=
                            mbedtls_platform_zeroize (unprocessed_block cmac) MBEDTLS_CIPHER_BLKSIZE_MAX |>
                       <| cmac_state := mbedtls_platform_zeroize (cmac_state cmac) MBEDTLS_CIPHER_BLKSIZE_MAX |> in
      (0, ctx <| cmac_ctx := Some cmac |>)
  | _, _ => (MBEDTLS_ERR_CIPHER_BAD_INPUT_DATA, ctx)
  end.

(** [a1] and [a2] are the outcomes of the two allocations.  The context is local
    and freed at the end. *)
Definition mbedtls_cipher_cmac (a1 a2 : bool) (st : aes_statics) (info : option mbedtls_cipher_info_t)
  (key : option (list Z)) (keylen : Z) (input : option (list Z)) : Z * aes_statics * list Z :=
  match info, key, input with
  | Some _, Some _, Some _ =>
      let '(ret, c) := mbedtls_cipher_setup a1 mbedtls_cipher_init info in
      let ctx := {| cipher := c; cmac_ctx := None |} in
      if negb (ret =? 0) then (ret, st, []) else
      let '(ret, st, ctx) := mbedtls_cipher_cmac_starts a2 st ctx key keylen in
      if negb (ret =? 0) then (ret, st, []) else
      let '(ret, ctx) := mbedtls_cipher_cmac_update st ctx input in
      if negb (ret =? 0) then (ret, st, []) else
      let '(ret, _, output) := mbedtls_cipher_cmac_finish st ctx in
      (ret, st, output)
  | _, _, _ => (MBEDTLS_ERR_CIPHER_BAD_INPUT_DATA, st, [])
  end.

(** AES-CMAC-PRF-128: a key that is not a block long is hashed to one first. *)
Definition mbedtls_aes_cmac_prf_128 (a1 a2 a3 a4 : bool) (st : aes_statics) (key : option (list Z))
  (input : option (list Z)) : Z * aes_statics * list Z :=
  match key, input with
  | Some k, Some _ =>
      match mbedtls_cipher_info_from_type MBEDTLS_CIPHER_AES_128_ECB with
      | None => (MBEDTLS_ERR_CIPHER_FEATURE_UNAVAILABLE, st, [])
      | Some info =>
          let '(ret, st, int_key) :=
            if (length k =? MBEDTLS_AES_BLOCK_SIZE)%nat then (0, st, k)
            else
              let zero_key := zeros MBEDTLS_AES_BLOCK_SIZE in
              mbedtls_cipher_cmac a1 a2 st (Some info) (Some zero_key) 128 key in
          if negb (ret =? 0) then (ret, st, []) else
          mbedtls_cipher_cmac a3 a4 st (Some info) (Some int_key) 128 input
      end
  | _, _ => (MBEDTLS_ERR_CIPHER_BAD_INPUT_DATA, st, [])
  end.

(** Examples of the file's self test: a 20-byte message under AES-128, and the
    PRF with an 18-byte key. *)
Definition test_message : list Z :=
  [0x6b; 0xc1; 0xbe; 0xe2; 0x2e; 0x40; 0x9f; 0x96; 0xe9; 0x3d; 0x7e; 0x11; 0x73; 0x93; 0x17; 0x2a;
   0xae; 0x2d; 0x8a; 0x57].
Definition aes_128_key : list Z :=
  [0x2b; 0x7e; 0x15; 0x16; 0x28; 0xae; 0xd2; 0xa6; 0xab; 0xf7; 0x15; 0x88; 0x09; 0xcf; 0x4f; 0x3c].

Example cmac_aes_128_empty :
  snd (mbedtls_cipher_cmac true true aes_statics_init (Some aes_128_ecb_info) (Some aes_128_key) 128 (Some [])) =
  [0xbb; 0x1d; 0x69; 0x29; 0xe9; 0x59; 0x37; 0x28; 0x7f; 0xa3; 0x7d; 0x12; 0x9b; 0x75; 0x67; 0x46].
Proof. vm_compute. reflexivity. Qed.

Example cmac_aes_128_20_bytes :
  snd (mbedtls_cipher_cmac true true aes_statics_init (Some aes_128_ecb_info) (Some aes_128_key) 128
         (Some test_message)) =
  [0x7d; 0x85; 0x44; 0x9e; 0xa6; 0xea; 0x19; 0xc8; 0x23; 0xa7; 0xbf; 0x78; 0x83; 0x7d; 0xfa; 0xde].
Proof. vm_compute. reflexivity. Qed.

Example cmac_prf_18_byte_key :
  snd (mbedtls_aes_cmac_prf_128 true true true true aes_statics_init
         (Some (map Z.of_nat (seq 0 16) ++ [0xed; 0xcb])) (Some (map Z.of_nat (seq 0 20)))) =
  [0x84; 0xa3; 0x48; 0xa4; 0xa4; 0x5d; 0x23; 0x5b; 0xab; 0xff; 0xfc; 0x0d; 0x2b; 0x4d; 0xa0; 0x9a].
Proof. vm_compute. reflexivity. Qed.

(** ** SP 800-38B *)

(** Multiplication by u in GF(2^128). *)
Definition double (v : Z) : Z :=
  Z.lxor ((2 * v) mod 2 ^ 128) (if 2 ^ 127 <=? v then 0x87 else 0).

Section standard.
Context (E : list Z -> list Z).

Definition subkey_1 : list Z := be_bytes 16 (double (be_value (E (zeros 16)))).
Definition subkey_2 : list Z := be_bytes 16 (double (be_value subkey_1)).

(** The last block, complete or padded with a one bit and zeros. *)
Definition masked_last (m : list Z) : list Z :=
  if (length m =? 16)%nat then zip_with Z.lxor m subkey_1
  else zip_with Z.lxor (m ++ 128 :: zeros (15 - length m)) subkey_2.

(** The blocks before the last one. *)
Definition before_last (msg : list Z) : nat := (length msg - 1) / 16.

Definition sp800_38b (msg : list Z) : list Z :=
  let n := (16 * before_last msg)%nat in
  cbc E (cbc_mac E (zeros 16) (take n msg)) (masked_last (drop n msg)).

End standard.

(** ** Multiplication by u *)

(** The shift on a little-endian list, carry first. *)
Fixpoint shl_le (carry : Z) (l : list Z) : list Z :=
  match l with
  | [] => []
  | b :: l => u8 (Z.lor (Z.shiftl b 1) carry) :: shl_le (Z.shiftr b 7) l
  end.

Lemma le_value_cons b l : is_u8 b -> le_value (b :: l) = b + 256 * le_value l.
Proof. intros Hb. cbn [le_value]. apply lor_shift_add, Hb. Qed.

Lemma shl_le_value carry l :
  byte_list l -> 0 <= carry < 2 ->
  le_value (shl_le carry l) = (2 * le_value l + carry) mod 256 ^ Z.of_nat (length l).
Proof.
  intros Hl. revert carry. induction Hl as [|b l Hb Hl IH]; intros carry Hc.
  - symmetry. apply Z.mod_1_r.
  - cbn [shl_le length]. rewrite !le_value_cons by (exact Hb || apply u8_range).
    unfold is_u8 in Hb. rewrite Z.shiftr_div_pow2 by lia. change (2 ^ 7) with 128.
    rewrite IH by (split; [apply Z.div_pos; lia|apply Z.div_lt_upper_bound; lia]).
    rewrite Z.lor_comm, lor_disjoint_add by lia. unfold u8. change (2 ^ 1) with 2. change (2 ^ 8) with 256.
    rewrite Nat2Z.inj_succ, Z.pow_succ_r by lia. rewrite Z.rem_mul_r by (try apply Z.pow_pos_nonneg; lia).
    replace (2 * (b + 256 * le_value l) + carry) with (carry + b * 2 + (2 * le_value l) * 256) by lia.
    rewrite Z.mod_add, Z.div_add by lia. do 3 f_equal. rewrite Z.add_comm. f_equal.
    Z.div_mod_to_equations. lia.
Qed.

Lemma shl_le_bytes carry l : byte_list (shl_le carry l).
Proof. revert carry. induction l as [|b l IH]; intros c; constructor; [apply u8_range|apply IH]. Qed.

Lemma shl_le_length carry l : length (shl_le carry l) = length l.
Proof. revert carry. induction l as [|b l IH]; intros c; [reflexivity|]. cbn. rewrite IH. reflexivity. Qed.

(** The loop of the code, on a block. *)
Lemma multiply_loop input output :
  length input = 16%nat -> length output = 16%nat ->
  fst (fold_left (fun '(output, overflow) i =>
         (<[i := u8 (Z.lor (Z.shiftl input.[i] 1) overflow)]> output, Z.shiftr input.[i] 7))
       (rev (seq 0 16)) (output, 0)) = rev (shl_le 0 (rev input)).
Proof.
  intros Hi Ho.
  do 16 (destruct input as [|? input]; [discriminate Hi|]). destruct input; [|discriminate Hi].
  do 16 (destruct output as [|? output]; [discriminate Ho|]). destruct output; [|discriminate Ho].
  reflexivity.
Qed.

(** Exclusive or into the last byte. *)
Lemma be_value_last_xor l r :
  length l = 16%nat -> byte_list l -> is_u8 r ->
  be_value (<[15%nat := Z.lxor l.[15] r]> l) = Z.lxor (be_value l) r.
Proof.
  intros Hl Hb Hr. destruct (lookup_lt_is_Some_2 l 15 ltac:(lia)) as [x Hx].
  assert (Hlast : l.[15] = x) by (rewrite nth_lookup, Hx; reflexivity).
  assert (Hxb : is_u8 x) by exact (Forall_lookup_1 _ _ _ _ Hb Hx).
  assert (Hs : l = take 15 l ++ [x]) by (rewrite <- (take_S_r l 15 x Hx); symmetry; apply take_ge; lia).
  assert (Hi : forall y, <[15%nat := y]> l = take 15 l ++ [y]).
  { intros y. rewrite Hs at 1. rewrite insert_app_r_alt by (rewrite length_take; lia).
    rewrite length_take, Hl. reflexivity. }
  rewrite Hlast, Hi, be_value_snoc. rewrite Hs at 2. rewrite be_value_snoc.
  apply Z.bits_inj'. intros i Hni.
  rewrite Z.lxor_spec, !Z.lor_spec, Z.lxor_spec.
  destruct (Z_lt_ge_dec i 8) as [Hlt|Hge].
  - rewrite Z.shiftl_spec_low by lia. rewrite !orb_false_r. reflexivity.
  - rewrite (word_high 8 r i) by (exact Hr || lia).
    rewrite !xorb_false_r. reflexivity.
Qed.

Lemma be_value_head l :
  length l = 16%nat -> byte_list l ->
  (2 ^ 127 <=? be_value l) = (0 <? Z.shiftr l.[0] 7) /\ 0 <= Z.shiftr l.[0] 7 < 2.
Proof.
  intros Hl Hb. destruct l as [|x l]; [discriminate Hl|]. cbn [nth].
  inversion_clear Hb as [|? ? Hx Hb']. unfold is_u8 in Hx.
  pose proof (be_value_range l Hb') as Hr. injection Hl as Hl. rewrite Hl in Hr.
  change (x :: l) with ([x] ++ l). rewrite be_value_app, Hl.
  change (be_value [x]) with (Z.lor x 0). rewrite Z.lor_0_r.
  rewrite Z.lor_comm, lor_disjoint_add by (change (8 * Z.of_nat 15) with 120; (exact Hr || lia)).
  change (8 * Z.of_nat 15) with 120. change (256 ^ Z.of_nat 15) with (2 ^ 120) in Hr.
  rewrite Z.shiftr_div_pow2 by lia. change (2 ^ 127) with (2 ^ 120 * 128). change (2 ^ 7) with 128.
  assert (0 < 2 ^ 120) by reflexivity. split.
  - destruct (Z.leb_spec (2 ^ 120 * 128) (be_value l + x * 2 ^ 120)), (Z.ltb_spec 0 (x / 128)); try reflexivity;
      exfalso; Z.div_mod_to_equations; nia.
  - Z.div_mod_to_equations. lia.
Qed.

Lemma multiply_by_u_spec output input :
  is_state input -> length output = 16%nat ->
  cmac_multiply_by_u output input 16 = (0, be_bytes 16 (double (be_value input))).
Proof.
  intros [Hl Hb] Ho. unfold cmac_multiply_by_u. cbn [Nat.eqb MBEDTLS_AES_BLOCK_SIZE].
  pose proof (multiply_loop input output Hl Ho) as Hloop.
  destruct (fold_left _ (rev (seq 0 16)) (output, 0)) as [out ov]. cbn [fst] in Hloop. subst out.
  set (out := rev (shl_le 0 (rev input))). f_equal. change (16 - 1)%nat with 15%nat.
  assert (Hol : length out = 16%nat) by (unfold out; rewrite length_rev, shl_le_length, length_rev; exact Hl).
  assert (Hob : byte_list out) by (apply Forall_rev, shl_le_bytes).
  destruct (be_value_head input Hl Hb) as [Hhead Hbit]. set (r := Z.land 0x87 _).
  assert (Hr : r = if 2 ^ 127 <=? be_value input then 0x87 else 0).
  { unfold r. rewrite Hhead. assert (Hc : Z.shiftr input.[0] 7 = 0 \/ Z.shiftr input.[0] 7 = 1) by lia.
    destruct Hc as [-> | ->]; reflexivity. }
  assert (Hru : is_u8 r) by (rewrite Hr; destruct (_ <=? _); unfold is_u8; lia).
  rewrite <- (be_bytes_be_value (<[15%nat := Z.lxor out.[15] r]> out)).
  - rewrite length_insert, Hol, be_value_last_xor by assumption. f_equal. unfold double. rewrite <- Hr. f_equal.
    unfold be_value, out. rewrite rev_involutive, shl_le_value by (try apply Forall_rev; (assumption || lia)).
    rewrite Z.add_0_r, length_rev, Hl. reflexivity.
  - apply Forall_insert; [exact Hob|]. apply lxor_u8; [|exact Hru].
    rewrite nth_lookup. destruct (lookup_lt_is_Some_2 out 15 ltac:(lia)) as [y Hy]. rewrite Hy.
    exact (Forall_lookup_1 _ _ _ _ Hob Hy).
Qed.

(** ** Blocks *)

Lemma xor_block_zip a b :
  (16 <= length a)%nat -> length b = 16%nat -> cmac_xor_block a b 16 = zip_with Z.lxor (take 16 a) b.
Proof.
  intros Ha Hb. pose proof (firstn_length_le a Ha) as Ht.
  transitivity (cmac_xor_block (take 16 a) b 16).
  - apply map_ext_in. intros i Hi%in_seq. rewrite nth_take_lt by lia. reflexivity.
  - revert Ht. generalize (take 16 a). clear a Ha. intros a Ha.
    do 16 (destruct a as [|? a]; [discriminate Ha|]). destruct a; [|discriminate Ha].
    do 16 (destruct b as [|? b]; [discriminate Hb|]). destruct b; [|discriminate Hb]. reflexivity.
Qed.

Lemma pad_spec block n :
  length block = 16%nat -> (n < 16)%nat -> cmac_pad 16 block n = take n block ++ 128 :: zeros (15 - n).
Proof.
  intros Hb Hn. do 16 (destruct block as [|? block]; [discriminate Hb|]). destruct block; [|discriminate Hb].
  do 16 (destruct n as [|n]; [reflexivity|]). lia.
Qed.

Lemma be_bytes_state v : is_state (be_bytes 16 v).
Proof. split; [apply be_bytes_length|apply be_bytes_bytes]. Qed.

Lemma zeros_state : is_state (zeros 16).
Proof. split; [reflexivity|apply zeros_bytes]. Qed.

(** Where the last block starts. *)
Lemma before_last_split k (done u : list Z) :
  length done = (16 * k)%nat -> (length u <= 16)%nat -> (u = [] -> k = 0%nat) -> before_last (done ++ u) = k.
Proof.
  intros Hd Hu Hk. unfold before_last. rewrite length_app, Hd. destruct u as [|x u].
  - rewrite Hk by reflexivity. reflexivity.
  - cbn [length] in *. replace (16 * k + S (length u) - 1)%nat with (length u + k * 16)%nat by lia.
    rewrite Nat.div_add, Nat.div_small by lia. reflexivity.
Qed.

(** ** A keyed context *)

Section keyed.
Context (st : aes_statics) (c : mbedtls_cipher_context_t mbedtls_aes_context) (o : mbedtls_aes_context).
Context (Hc : aes_context_of MBEDTLS_MODE_ECB 0 c o) (Hop : operation c = MBEDTLS_ENCRYPT).

Let E := encrypt_block st o.

Lemma E_length block : length (E block) = 16%nat.
Proof. apply encrypt_block_state. Qed.

Lemma encrypt_in_place_spec block : length block = 16%nat -> encrypt_in_place st c block = (0, c, E block).
Proof. intros H. unfold encrypt_in_place. rewrite (update_ecb st c o) by assumption. reflexivity. Qed.

Lemma subkeys_spec :
  cmac_generate_subkeys st c (zeros 16) (zeros 16) = (0, c, subkey_1 E, subkey_2 E).
Proof.
  unfold cmac_generate_subkeys. rewrite (block_size_of _ _ _ _ Hc).
  change (take 16 (zeros MBEDTLS_CIPHER_BLKSIZE_MAX)) with (zeros 16).
  rewrite encrypt_in_place_spec by reflexivity. cbn [Z.eqb negb].
  rewrite multiply_by_u_spec by (apply encrypt_block_state || reflexivity). cbn [Z.eqb negb].
  rewrite multiply_by_u_spec by (apply be_bytes_state || reflexivity). reflexivity.
Qed.

Lemma cbc_mac_length y l : length y = 16%nat -> length (cbc_mac E y l) = 16%nat.
Proof.
  intros Hy. unfold cbc_mac, absorbed. generalize (nblocks 16 l) as n. intros n. revert y l Hy.
  induction n as [|n IH]; intros y l Hy; [exact Hy|]. apply IH, E_length.
Qed.

(** One block more. *)
Lemma cbc_mac_snoc y done b :
  (exists k, length done = (16 * k)%nat) -> length b = 16%nat ->
  cbc_mac E y (done ++ b) = E (zip_with Z.lxor (cbc_mac E y done) b).
Proof.
  intros [k Hk] Hb. rewrite cbc_mac_app.
  - rewrite <- (app_nil_r b) at 1. rewrite cbc_mac_block by exact Hb. reflexivity.
  - apply length_zero_iff_nil. rewrite (pending_length 16 32 4), Hk by (reflexivity || lia).
    rewrite Nat.mul_comm. apply Nat.Div0.mod_mul.
Qed.

Lemma cmac_blocks_spec n done input :
  (exists k, length done = (16 * k)%nat) -> (16 * n <= length input)%nat ->
  cmac_blocks n st c 16 (cbc_mac E (zeros 16) done) input =
  (0, c, cbc_mac E (zeros 16) (done ++ take (16 * n) input), drop (16 * n) input).
Proof.
  revert done input. induction n as [|n IH]; intros done input Hd Hl.
  - rewrite Nat.mul_0_r, take_0, app_nil_r. reflexivity.
  - cbn [cmac_blocks]. pose proof (cbc_mac_length (zeros 16) done eq_refl) as Hy.
    assert (Ht : length (take 16 input) = 16%nat) by (rewrite length_take; lia).
    rewrite xor_block_zip, zip_lxor_comm by (assumption || lia).
    rewrite encrypt_in_place_spec by (rewrite length_zip_with; lia). cbn [Z.eqb negb].
    rewrite <- cbc_mac_snoc by assumption. rewrite IH.
    + rewrite <- app_assoc. replace (16 * S n)%nat with (16 + 16 * n)%nat by lia.
      rewrite drop_drop, <- take_take_drop. reflexivity.
    + destruct Hd as [k Hd]. exists (S k). rewrite length_app, Ht, Hd. lia.
    + rewrite length_drop. lia.
Qed.

(** ** The context and the message absorbed so far *)

(** The blocks before the last are in the state; the last one, complete or not,
    is kept. *)
Record cmac_holds (cm : mbedtls_cmac_context_t) (done u : list Z) : Prop := {
  holds_done : exists k, length done = (16 * k)%nat;
  holds_state : cmac_state cm = cbc_mac E (zeros 16) done;
  holds_block : length (unprocessed_block cm) = 16%nat;
  holds_len : cmac_unprocessed_len cm = length u;
  holds_fits : (length u <= 16)%nat;
  holds_take : take (length u) (unprocessed_block cm) = u }.

Definition cmac_inv (cm : mbedtls_cmac_context_t) (msg : list Z) : Prop :=
  exists done u, cmac_holds cm done u /\ (u = [] -> done = []) /\ msg = done ++ u.

(** Absorbing what follows a block boundary. *)
Lemma absorb_fresh cm done input :
  cmac_holds cm done [] -> input <> [] ->
  exists cm', cmac_absorb st c cm 16 input = (0, {| cipher := c; cmac_ctx := Some cm' |}) /\
    cmac_inv cm' (done ++ input).
Proof.
  intros [Hd Hs Hb Hl _ _] Hne. cbn in Hl. unfold cmac_absorb.
  assert (Hpos : (0 < length input)%nat) by (destruct input; [congruence|cbn; lia]).
  set (n := ((length input + 16 - 1) / 16 - 1)%nat).
  assert (Hn : (16 * n < length input <= 16 * n + 16)%nat).
  { unfold n. pose proof (Nat.div_mod_eq (length input + 16 - 1) 16).
    pose proof (Nat.mod_upper_bound (length input + 16 - 1) 16). lia. }
  rewrite Hs, cmac_blocks_spec by (assumption || lia). cbn [Z.eqb negb].
  assert (Hu : (0 < length (drop (16 * n) input) <= 16)%nat) by (rewrite length_drop; lia).
  assert (Hw : length (take (16 * n) input) = (16 * n)%nat) by (rewrite length_take; lia).
  replace (done ++ input) with (done ++ take (16 * n) input ++ drop (16 * n) input)
    by (rewrite take_drop; reflexivity).
  revert Hu Hw.
  generalize (take (16 * n) input) as w, (drop (16 * n) input) as u. intros w u Hu Hw.
  destruct (Nat.ltb_spec 0 (length u)) as [_|]; [|lia].
  eexists. split; [reflexivity|]. exists (done ++ w), u. split; [|split].
  - split; cbn -[Nat.mul memcpy_at]; rewrite ?Hl; [|reflexivity| |reflexivity|lia|].
    + destruct Hd as [k Hd]. exists (k + n)%nat. rewrite length_app, Hd, Hw. lia.
    + rewrite memcpy_at_length by lia. exact Hb.
    + apply (take_memcpy_at 0). lia.
  - intros ->. cbn in Hu. lia.
  - rewrite <- app_assoc. reflexivity.
Qed.

(** Absorbing what fits the block that is kept. *)
Lemma absorb_short cm done u input :
  cmac_holds cm done u -> (length u + length input <= 16)%nat ->
  exists cm', cmac_absorb st c cm 16 input = (0, {| cipher := c; cmac_ctx := Some cm' |}) /\
    cmac_holds cm' done (u ++ input).
Proof.
  intros [Hd Hs Hb Hl Hf Ht] Hle. unfold cmac_absorb.
  assert (Hn : ((length input + 16 - 1) / 16 - 1 = 0)%nat).
  { enough ((length input + 16 - 1) / 16 < 2)%nat by lia.
    apply Nat.Div0.div_lt_upper_bound. lia. }
  rewrite Hn. cbn [cmac_blocks Z.eqb negb]. eexists. split; [reflexivity|].
  destruct (Nat.ltb_spec 0 (length input)) as [Hpos|Hz].
  - split; cbn -[memcpy_at]; rewrite ?length_app, ?Hl; [exact Hd|exact Hs| |lia|lia|].
    + rewrite memcpy_at_length by lia. exact Hb.
    + rewrite take_memcpy_at, Ht by lia. reflexivity.
  - replace input with (@nil Z) by (destruct input; [reflexivity|cbn in Hz; lia]).
    rewrite app_nil_r. split; assumption.
Qed.

Lemma update_info : exists info, cipher_info c = Some info /\ block_size info = 16%nat.
Proof. destruct Hc as (_ & info & Hi & _ & _ & _ & Hb). exists info. auto. Qed.

(** An update absorbs its input. *)
Lemma cmac_update_inv cm msg input :
  cmac_inv cm msg ->
  exists cm', mbedtls_cipher_cmac_update st {| cipher := c; cmac_ctx := Some cm |} (Some input) =
    (0, {| cipher := c; cmac_ctx := Some cm' |}) /\ cmac_inv cm' (msg ++ input).
Proof.
  intros (done & u & H & Hne & ->). destruct update_info as (info & Hi & Hbs).
  unfold mbedtls_cipher_cmac_update. cbn [cipher cmac_ctx]. rewrite Hi, Hbs, (holds_len _ _ _ H).
  pose proof (holds_fits _ _ _ H) as Hf.
  destruct ((0 <? length u) && (16 - length u <? length input))%nat eqn:Hg.
  - apply andb_prop in Hg as [Hu%Nat.ltb_lt Hin%Nat.ltb_lt]. set (fill := (16 - length u)%nat) in *.
    cbn -[cmac_xor_block memcpy_at encrypt_in_place cmac_absorb Nat.sub]. set (blk := memcpy_at (length u) (take fill input) (unprocessed_block cm)).
    assert (Hblk : blk = u ++ take fill input).
    { unfold blk. rewrite <- (holds_take _ _ _ H) at 2. apply memcpy_at_end.
      rewrite length_take, (holds_block _ _ _ H). lia. }
    assert (Hbl : length blk = 16%nat) by (rewrite Hblk, length_app, length_take; lia).
    pose proof (cbc_mac_length (zeros 16) done eq_refl) as Hy.
    rewrite (holds_state _ _ _ H), xor_block_zip, take_ge, zip_lxor_comm by (assumption || lia).
    rewrite encrypt_in_place_spec by (rewrite length_zip_with; lia). cbn [Z.eqb negb].
    rewrite <- cbc_mac_snoc by (exact Hbl || apply H).
    replace ((done ++ u) ++ input) with ((done ++ blk) ++ drop fill input)
      by (rewrite Hblk, <- !app_assoc, take_drop; reflexivity).
    apply absorb_fresh.
    + split; cbn; try reflexivity; [|exact Hbl|lia].
      destruct (holds_done _ _ _ H) as [k Hk]. exists (S k). rewrite length_app, Hk, Hbl. lia.
    + intros Hnil. apply (f_equal length) in Hnil. rewrite length_drop in Hnil. cbn in Hnil. lia.
  - destruct (decide (u = [] /\ input <> [])) as [[-> Hin]|Hcase].
    + rewrite app_nil_r. apply absorb_fresh; assumption.
    + destruct (absorb_short cm done u input H) as (cm' & -> & H').
      { apply andb_false_iff in Hg as [Hg%Nat.ltb_ge|Hg%Nat.ltb_ge]; [|lia].
        destruct u; [|cbn in Hg; lia]. destruct input; [cbn; lia|]. exfalso. apply Hcase. split; congruence. }
      exists cm'. split; [reflexivity|]. exists done, (u ++ input). split; [exact H'|].
      split; [|rewrite app_assoc; reflexivity]. intros [Hu _]%app_eq_nil. auto.
Qed.

Lemma cmac_started : cmac_inv {| cmac_state := zeros 16; unprocessed_block := zeros 16; cmac_unprocessed_len := 0 |} [].
Proof. exists [], []. repeat split; cbn; try lia. exists 0%nat. reflexivity. Qed.

(** Finishing gives the code of the message, and a context that starts over. *)
Lemma cmac_finish_spec cm msg :
  cmac_inv cm msg ->
  mbedtls_cipher_cmac_finish st {| cipher := c; cmac_ctx := Some cm |} =
  (0, {| cipher := c;
         cmac_ctx := Some {| cmac_state := zeros 16; unprocessed_block := zeros 16; cmac_unprocessed_len := 0 |} |},
   sp800_38b E msg).
Proof.
  intros (done & u & [[k Hk] Hs Hb Hl Hf Ht] & Hne & ->). destruct update_info as (info & Hi & Hbs).
  unfold mbedtls_cipher_cmac_finish. cbn [cipher cmac_ctx]. rewrite Hi, Hbs.
  change (zeros MBEDTLS_CIPHER_BLKSIZE_MAX) with (zeros 16). rewrite subkeys_spec, Hs, Hl.
  assert (Hm : (if (length u <? 16)%nat
                then cmac_xor_block (cmac_pad 16 (unprocessed_block cm) (length u)) (subkey_2 E) 16
                else cmac_xor_block (unprocessed_block cm) (subkey_1 E) 16) = masked_last E u).
  { unfold masked_last. destruct (Nat.ltb_spec (length u) 16) as [Hlt|Hge].
    - rewrite pad_spec, Ht by assumption.
      rewrite xor_block_zip, take_ge by (rewrite ?length_app; cbn [length];
        rewrite ?zeros_length; (apply be_bytes_length || lia)).
      destruct (Nat.eqb_spec (length u) 16); [lia|]. reflexivity.
    - replace (length u) with 16%nat in * by lia. rewrite xor_block_zip, Ht by (apply be_bytes_length || lia).
      reflexivity. }
  rewrite Hm. pose proof (cbc_mac_length (zeros 16) done eq_refl) as Hy.
  assert (Hml : length (masked_last E u) = 16%nat).
  { unfold masked_last. destruct (Nat.eqb_spec (length u) 16);
      rewrite length_zip_with, ?length_app; unfold subkey_1, subkey_2; rewrite be_bytes_length; cbn [length];
      rewrite ?zeros_length; lia. }
  rewrite xor_block_zip, take_ge, zip_lxor_comm by lia.
  rewrite encrypt_in_place_spec by (rewrite length_zip_with; lia). cbn [Z.eqb negb].
  rewrite take_ge by (rewrite E_length; lia).
  cbn -[mbedtls_platform_zeroize cbc_mac sp800_38b masked_last zeros MBEDTLS_CIPHER_BLKSIZE_MAX].
  rewrite !platform_zeroize_all by (apply E_length || exact Hb). f_equal.
  unfold sp800_38b. rewrite (before_last_split k) by (try assumption; intros Hu; rewrite (Hne Hu) in Hk; cbn in Hk; lia).
  rewrite <- Hk, take_app_length, drop_app_length. reflexivity.
Qed.

End keyed.

(** ** Over FIPS 197 *)

Section agree.
Context (E F : list Z -> list Z).
Context (Hagree : forall block, is_state block -> E block = F block /\ is_state (F block)).

Lemma masked_last_agree m :
  byte_list m -> (length m <= 16)%nat ->
  masked_last E m = masked_last F m /\ length (masked_last F m) = 16%nat /\ byte_list (masked_last F m).
Proof.
  intros Hm Hl. assert (H1 : subkey_1 E = subkey_1 F)
    by (unfold subkey_1; rewrite (proj1 (Hagree _ zeros_state)); reflexivity).
  assert (H2 : subkey_2 E = subkey_2 F) by (unfold subkey_2; rewrite H1; reflexivity).
  unfold masked_last. rewrite H1, H2. split; [reflexivity|]. unfold subkey_1, subkey_2.
  destruct (Nat.eqb_spec (length m) 16).
  - split; [rewrite length_zip_with, be_bytes_length; lia|apply zip_lxor_u8; [exact Hm|apply be_bytes_bytes]].
  - split.
    + rewrite length_zip_with, be_bytes_length, length_app. cbn [length]. rewrite zeros_length. lia.
    + apply zip_lxor_u8; [|apply be_bytes_bytes]. apply Forall_app. split; [exact Hm|].
      constructor; [unfold is_u8; lia|apply zeros_bytes].
Qed.

Lemma sp800_38b_agree msg :
  byte_list msg -> sp800_38b E msg = sp800_38b F msg /\ is_state (sp800_38b F msg).
Proof.
  intros Hm. unfold sp800_38b, cbc_mac. cbn zeta. set (n := (16 * before_last msg)%nat).
  assert (Hd : (length (drop n msg) <= 16)%nat).
  { rewrite length_drop. unfold n, before_last.
    pose proof (Nat.div_mod_eq (length msg - 1) 16). pose proof (Nat.mod_upper_bound (length msg - 1) 16). lia. }
  destruct (masked_last_agree (drop n msg)) as (-> & Hl & Hb); [apply Forall_drop, Hm|exact Hd|].
  destruct (absorbed_ext 16 (cbc E) (cbc F) is_state (cbc_agree E F Hagree) (zeros 16) (take n msg)) as [-> Hs];
    [lia|apply zeros_state|apply Forall_take, Hm|].
  apply cbc_agree; assumption.
Qed.

End agree.

(** The function that AES with an [Nk]-word key computes. *)
Definition aes_cmac (Nk : nat) (key msg : list Z) : list Z :=
  sp800_38b (fips_cipher (Nk + 6) (fips_round_key Nk key)) msg.

(** A context ready for messages under [key]. *)
Definition cmac_ready (Nk : nat) (st : aes_statics) (key : list Z) (ctx : cipher_with_cmac) (msg : list Z) : Prop :=
  exists c o cm, ctx = {| cipher := c; cmac_ctx := Some cm |} /\
    aes_context_of MBEDTLS_MODE_ECB 0 c o /\ operation c = MBEDTLS_ENCRYPT /\ cmac_inv st o cm msg /\
    forall block, is_state block ->
      encrypt_block st o block = fips_cipher (Nk + 6) (fips_round_key Nk key) block /\
      is_state (fips_cipher (Nk + 6) (fips_round_key Nk key) block).

Lemma ecb_types Nk info :
  ecb_info_of (32 * Z.of_nat Nk) = Some info ->
  type info = MBEDTLS_CIPHER_AES_128_ECB \/ type info = MBEDTLS_CIPHER_AES_192_ECB \/
  type info = MBEDTLS_CIPHER_AES_256_ECB.
Proof.
  unfold ecb_info_of. do 3 (destruct (_ =? _); [intros [= <-]; auto|]). discriminate.
Qed.

(** Setting up and starting. *)
Lemma cmac_starts_ready Nk st info key :
  key_size Nk -> statics_ok st -> length key = (4 * Nk)%nat -> byte_list key ->
  ecb_info_of (32 * Z.of_nat Nk) = Some info ->
  exists c ctx, mbedtls_cipher_setup true mbedtls_cipher_init (Some info) = (0, c) /\
    mbedtls_cipher_cmac_starts true st {| cipher := c; cmac_ctx := None |} (Some key) (32 * Z.of_nat Nk) =
    (0, aes_ready, ctx) /\ cmac_ready Nk aes_ready key ctx [].
Proof.
  intros HNk Hst Hl Hk Hinfo. destruct (ecb_entry Nk HNk) as (info' & Hi & He & Hm & Hiv).
  rewrite Hinfo in Hi. injection Hi as <-.
  destruct (setkey_enc_spec Nk st mbedtls_aes_init key HNk Hst eq_refl Hl Hk) as (o & Ho & _).
  destruct (setup_setkey_object Nk st aes_ready o info mbedtls_cipher_init key MBEDTLS_ENCRYPT Ho He
              (or_introl eq_refl)) as (c1 & c2 & H1 & H2 & Hc & Hop & _). rewrite Hm, Hiv in Hc.
  pose proof (fun block => encrypt_keyed Nk st mbedtls_aes_init key block HNk Hst eq_refl Hl Hk) as Hfips.
  exists c1, {| cipher := c2; cmac_ctx := Some {| cmac_state := zeros 16; unprocessed_block := zeros 16;
                                                    cmac_unprocessed_len := 0 |} |}.
  split; [exact H1|]. split.
  - unfold mbedtls_cipher_cmac_starts. cbn [cipher cmac_ctx].
    assert (Hci : cipher_info c1 = Some info).
    { unfold mbedtls_cipher_setup in H1. destruct (ctx_alloc_func (base info)); [|discriminate H1].
      injection H1 as <-. reflexivity. }
    rewrite Hci, H2. cbn [Z.eqb negb]. destruct (ecb_types Nk info Hinfo) as [-> | [-> | ->]]; reflexivity.
  - exists c2, o. eexists. split; [reflexivity|]. split; [exact Hc|]. split; [exact Hop|].
    split; [apply cmac_started|]. intros block Hs. specialize (Hfips block Hs). rewrite Ho in Hfips.
    assert (Heq : encrypt_block aes_ready o block = fips_cipher (Nk + 6) (fips_round_key Nk key) block)
      by (unfold encrypt_block; destruct Hfips as (_ & _ & ->); reflexivity).
    split; [exact Heq|]. rewrite <- Heq. apply encrypt_block_state.
Qed.

Lemma cmac_update_ready Nk st key ctx msg input :
  cmac_ready Nk st key ctx msg ->
  exists ctx', mbedtls_cipher_cmac_update st ctx (Some input) = (0, ctx') /\
    cmac_ready Nk st key ctx' (msg ++ input).
Proof.
  intros (c & o & cm & -> & Hc & Hop & Hinv & HE).
  destruct (cmac_update_inv st c o Hc Hop cm msg input Hinv) as (cm' & -> & Hinv').
  eexists. split; [reflexivity|]. exists c, o, cm'. auto.
Qed.

Lemma cmac_updates_ready Nk st key ctx msg chunks :
  cmac_ready Nk st key ctx msg ->
  cmac_ready Nk st key
    (fold_left (fun ctx x => snd (mbedtls_cipher_cmac_update st ctx (Some x))) chunks ctx) (msg ++ concat chunks).
Proof.
  revert ctx msg. induction chunks as [|x chunks IH]; intros ctx msg H.
  - cbn. rewrite app_nil_r. exact H.
  - cbn [fold_left concat]. destruct (cmac_update_ready Nk st key ctx msg x H) as (ctx' & -> & H').
    rewrite app_assoc. apply IH, H'.
Qed.

Lemma cmac_finish_ready Nk st key ctx msg :
  byte_list msg -> cmac_ready Nk st key ctx msg ->
  exists ctx', mbedtls_cipher_cmac_finish st ctx = (0, ctx', aes_cmac Nk key msg) /\
    cmac_ready Nk st key ctx' [].
Proof.
  intros Hm (c & o & cm & -> & Hc & Hop & Hinv & HE).
  rewrite (cmac_finish_spec st c o Hc Hop cm msg Hinv). eexists. split.
  - f_equal. apply (sp800_38b_agree (encrypt_block st o) _ HE msg Hm).
  - exists c, o. eexists. split; [reflexivity|]. split; [exact Hc|]. split; [exact Hop|].
    split; [apply cmac_started|exact HE].
Qed.

(** Whatever the context holds, a reset drops the message. *)
Lemma cmac_reset_ready Nk st key ctx msg :
  cmac_ready Nk st key ctx msg ->
  exists ctx', mbedtls_cipher_cmac_reset ctx = (0, ctx') /\ cmac_ready Nk st key ctx' [].
Proof.
  intros (c & o & cm & -> & Hc & Hop & Hinv & HE).
  unfold mbedtls_cipher_cmac_reset. cbn [cipher cmac_ctx].
  pose proof Hc as (_ & info & Hi & _). rewrite Hi. eexists. split; [reflexivity|].
  exists c, o. eexists. split; [reflexivity|]. split; [exact Hc|]. split; [exact Hop|]. split; [|exact HE].
  destruct Hinv as (done & u & [[k Hk] Hs Hb Hl Hf Ht] & _).
  cbn -[mbedtls_platform_zeroize MBEDTLS_CIPHER_BLKSIZE_MAX].
  rewrite !platform_zeroize_all; [apply cmac_started|exact Hb|].
  rewrite Hs. apply cbc_mac_length. reflexivity.
Qed.

(** A CMAC context that is set up, started, fed a message in any pieces and
    finished gives the code of SP 800-38B over the AES of FIPS 197, for the three
    key sizes; it is then ready for the next message under the same key. *)
Theorem cmac_stream_is_sp800_38b Nk st key chunks again :
  key_size Nk -> statics_ok st -> length key = (4 * Nk)%nat -> byte_list key ->
  Forall byte_list chunks -> byte_list again ->
  let '(r1, c) := mbedtls_cipher_setup true mbedtls_cipher_init (ecb_info_of (32 * Z.of_nat Nk)) in
  let '(r2, st, ctx) := mbedtls_cipher_cmac_starts true st {| cipher := c; cmac_ctx := None |} (Some key)
                          (32 * Z.of_nat Nk) in
  let ctx := fold_left (fun ctx x => snd (mbedtls_cipher_cmac_update st ctx (Some x))) chunks ctx in
  let '(r3, ctx, output) := mbedtls_cipher_cmac_finish st ctx in
  let '(r4, ctx) := mbedtls_cipher_cmac_update st ctx (Some again) in
  let '(r5, ctx, output') := mbedtls_cipher_cmac_finish st ctx in
  [r1; r2; r3; r4; r5] = [0; 0; 0; 0; 0] /\
  output = aes_cmac Nk key (concat chunks) /\ output' = aes_cmac Nk key again.
Proof.
  intros HNk Hst Hl Hk Hb Ha. destruct (ecb_entry Nk HNk) as (info & Hi & _). rewrite Hi.
  destruct (cmac_starts_ready Nk st info key HNk Hst Hl Hk Hi) as (c & ctx & -> & -> & H).
  cbv zeta. apply (cmac_updates_ready _ _ _ _ _ chunks) in H. cbn [app] in H.
  apply cmac_finish_ready in H as (ctx' & -> & H); [|apply Forall_concat, Hb].
  apply (cmac_update_ready _ _ _ _ _ again) in H as (ctx'' & -> & H). cbn [app] in H.
  apply cmac_finish_ready in H as (ctx3 & -> & _); [|exact Ha]. auto.
Qed.

Lemma cmac_stream_is_sp800_38b_witness :
  let chunks := [[1; 2; 3]; []; map Z.of_nat (seq 0 30)] in
  let '(r1, c) := mbedtls_cipher_setup true mbedtls_cipher_init (ecb_info_of 128) in
  let '(r2, st, ctx) := mbedtls_cipher_cmac_starts true aes_statics_init {| cipher := c; cmac_ctx := None |}
                          (Some aes_128_key) 128 in
  let ctx := fold_left (fun ctx x => snd (mbedtls_cipher_cmac_update st ctx (Some x))) chunks ctx in
  let '(r3, ctx, output) := mbedtls_cipher_cmac_finish st ctx in
  let '(r4, ctx) := mbedtls_cipher_cmac_update st ctx (Some test_message) in
  let '(r5, ctx, output') := mbedtls_cipher_cmac_finish st ctx in
  [r1; r2; r3; r4; r5] = [0; 0; 0; 0; 0] /\
  output = aes_cmac 4 aes_128_key (concat chunks) /\ output' = aes_cmac 4 aes_128_key test_message.
Proof.
  apply (cmac_stream_is_sp800_38b 4 aes_statics_init aes_128_key
           [[1; 2; 3]; []; map Z.of_nat (seq 0 30)] test_message).
  - left. reflexivity.
  - left. reflexivity.
  - reflexivity.
  - repeat (constructor; [vm_compute; intuition discriminate|]). constructor.
  - repeat (constructor; [repeat (constructor; [vm_compute; intuition discriminate|]); constructor|]). constructor.
  - repeat (constructor; [vm_compute; intuition discriminate|]). constructor.
Defined.

(** The one-call functions. *)
Lemma cipher_cmac_spec Nk st info key msg :
  key_size Nk -> statics_ok st -> length key = (4 * Nk)%nat -> byte_list key -> byte_list msg ->
  ecb_info_of (32 * Z.of_nat Nk) = Some info ->
  mbedtls_cipher_cmac true true st (Some info) (Some key) (32 * Z.of_nat Nk) (Some msg) =
  (0, aes_ready, aes_cmac Nk key msg).
Proof.
  intros HNk Hst Hl Hk Hm Hi. unfold mbedtls_cipher_cmac.
  destruct (cmac_starts_ready Nk st info key HNk Hst Hl Hk Hi) as (c & ctx & -> & H2 & H).
  cbn [Z.eqb negb]. rewrite H2. cbn [Z.eqb negb].
  apply (cmac_update_ready _ _ _ _ _ msg) in H as (ctx' & -> & H). cbn [Z.eqb negb app] in *.
  apply cmac_finish_ready in H as (ctx'' & -> & _); [reflexivity|exact Hm].
Qed.

(** RFC 4615. *)
Definition rfc4615_prf (key msg : list Z) : list Z :=
  aes_cmac 4 (if (length key =? 16)%nat then key else aes_cmac 4 (zeros 16) key) msg.

Lemma aes_cmac_state key msg : length key = 16%nat -> byte_list key -> byte_list msg -> is_state (aes_cmac 4 key msg).
Proof.
  intros Hl Hk Hm.
  destruct (cmac_starts_ready 4 aes_statics_init aes_128_ecb_info key) as (c & ctx & _ & _ & H);
    [left; reflexivity|left; reflexivity|exact Hl|exact Hk|reflexivity|].
  destruct H as (c' & o & cm & _ & _ & _ & _ & HE). apply (sp800_38b_agree _ _ HE msg Hm).
Qed.

Theorem prf_128_is_rfc4615 st key msg :
  statics_ok st -> byte_list key -> byte_list msg ->
  exists st', mbedtls_aes_cmac_prf_128 true true true true st (Some key) (Some msg) =
              (0, st', rfc4615_prf key msg).
Proof.
  intros Hst Hk Hm. unfold mbedtls_aes_cmac_prf_128, rfc4615_prf.
  change (mbedtls_cipher_info_from_type MBEDTLS_CIPHER_AES_128_ECB) with (Some aes_128_ecb_info).
  cbn iota. change MBEDTLS_AES_BLOCK_SIZE with 16%nat. change 128 with (32 * Z.of_nat 4).
  destruct (Nat.eqb_spec (length key) 16) as [Hl|_]; cbn [Z.eqb negb].
  - exists aes_ready. apply cipher_cmac_spec; try assumption; [left; reflexivity|reflexivity].
  - assert (Hz : is_state (aes_cmac 4 (zeros 16) key)) by (apply aes_cmac_state; [reflexivity|apply zeros_bytes|exact Hk]).
    rewrite cipher_cmac_spec; try assumption; [|left; reflexivity|reflexivity|apply zeros_bytes|reflexivity].
    cbn [Z.eqb negb]. exists aes_ready. destruct Hz. apply cipher_cmac_spec; try assumption;
      [left; reflexivity|right; reflexivity|reflexivity].
Qed.

End cmac.
