(* ===== verification/CipherAead.v ===== *)
(** The authenticated half of the cipher layer: the contexts a cipher context
    can hold (an AES context or a CCM context, cipher_wrap.c), and the AEAD
    functions of cipher.c, which reach ccm.c through them. *)

From S2P Require Import Prelude MbedCommon Aes AesFips AesInverse AesCtr Cipher CcmAes CcmSpec CcmLaws.
Import mbed aes aes_fips aes_keys aes_inverse aes_ctr cipher ccm_aes ccm_spec ccm_laws.

Module cipher_aead.

(** ** The objects (cipher_wrap.c) *)

(** What [void *cipher_ctx] points to; the base of the cipher decides. *)
Inductive cipher_object :=
| aes_ctx (o : mbedtls_aes_context)
| ccm_ctx (o : mbedtls_ccm_context).

Definition ccm_ctx_alloc : mbedtls_ccm_context := mbedtls_ccm_init.

(** [alloc]: does the allocation inside [mbedtls_ccm_setkey] succeed. *)
Definition ccm_aes_setkey_wrap (alloc : bool) (st : aes_statics) (ctx : mbedtls_ccm_context) (key : list Z)
  (key_bitlen : Z) : Z * aes_statics * mbedtls_ccm_context :=
  mbedtls_ccm_setkey alloc st ctx MBEDTLS_CIPHER_ID_AES key key_bitlen.

(** The tables of function pointers [aes_info] and [ccm_aes_info].  The block and
    stream functions of the latter are NULL: no mode of the table calls them, and
    neither does a context's object differ from its base, so those cases are
    never reached. *)
Definition with_aes {A} (o : cipher_object) (bad : A) (f : mbedtls_aes_context -> A) : A :=
  match o with aes_ctx o => f o | ccm_ctx _ => bad end.

Definition setkey_object (alloc : bool)
  (aes_setkey : aes_statics -> mbedtls_aes_context -> list Z -> Z -> Z * aes_statics * mbedtls_aes_context)
  (st : aes_statics) (o : cipher_object) (key : list Z) (bits : Z) : Z * aes_statics * cipher_object :=
  match o with
  | aes_ctx o => let '(ret, st, o) := aes_setkey st o key bits in (ret, st, aes_ctx o)
  | ccm_ctx o => let '(ret, st, o) := ccm_aes_setkey_wrap alloc st o key bits in (ret, st, ccm_ctx o)
  end.

Definition objects (alloc : bool) : CipherObject cipher_object := {|
  ecb_func _ st o op input := with_aes o (0, []) (fun o => aes_crypt_ecb_wrap st o op input);
  ctr_func _ st o s input := with_aes o (0, s, []) (fun o => mbedtls_aes_crypt_ctr st o s input);
  setkey_enc_func _ := setkey_object alloc mbedtls_aes_setkey_enc;
  setkey_dec_func _ := setkey_object alloc mbedtls_aes_setkey_dec;
  ctx_alloc_func b :=
    match b with
    | aes_info => Some (aes_ctx aes_ctx_alloc)
    | ccm_aes_info => Some (ccm_ctx ccm_ctx_alloc)
    | xts_aes_info => None
    end |}.

(** ** The AEAD functions (cipher.c) *)

Section aead.
Context (st : aes_statics) (ctx : mbedtls_cipher_context_t cipher_object).

(** The context, if its mode is CCM. *)
Definition ccm_of : option mbedtls_ccm_context :=
  match cipher_info ctx, cipher_ctx ctx with
  | Some info, Some (ccm_ctx c) => if bool_decide (mode info = MBEDTLS_MODE_CCM) then Some c else None
  | _, _ => None
  end.

(** The code, [output], [tag] and what becomes of [*olen]. *)
Definition mbedtls_cipher_aead_encrypt (iv_ ad input : list Z) (olen tag_len : nat)
  : Z * list Z * list Z * nat :=
  match ccm_of with
  | Some c =>
      let olen := length input in
      match mbedtls_ccm_encrypt_and_tag st c iv_ ad input tag_len with
      | inl ret => (ret, [], [], olen)
      | inr (output, tag) => (0, output, tag, olen)
      end
  | None => (MBEDTLS_ERR_CIPHER_FEATURE_UNAVAILABLE, [], [], olen)
  end.

Definition mbedtls_cipher_aead_decrypt (iv_ ad input : list Z) (olen : nat) (tag : list Z)
  : Z * list Z * nat :=
  match ccm_of with
  | Some c =>
      let olen := length input in
      let '(ret, output) := mbedtls_ccm_auth_decrypt st c iv_ ad input tag in
      let ret := if ret =? MBEDTLS_ERR_CCM_AUTH_FAILED then MBEDTLS_ERR_CIPHER_AUTH_FAILED else ret in
      (ret, output, olen)
  | None => (MBEDTLS_ERR_CIPHER_FEATURE_UNAVAILABLE, [], olen)
  end.

Definition mbedtls_cipher_auth_encrypt (iv_ ad input : list Z) (olen tag_len : nat)
  : Z * list Z * list Z * nat :=
  mbedtls_cipher_aead_encrypt iv_ ad input olen tag_len.

Definition mbedtls_cipher_auth_decrypt (iv_ ad input : list Z) (olen : nat) (tag : list Z)
  : Z * list Z * nat :=
  mbedtls_cipher_aead_decrypt iv_ ad input olen tag.

(** The tag follows the ciphertext in [output]; sizes are [size_t], so the sum
    wraps. *)
Definition mbedtls_cipher_auth_encrypt_ext (iv_ ad input : list Z) (output_len olen tag_len : nat)
  : Z * list Z * nat :=
  if Z.of_nat output_len <? u64 (Z.of_nat (length input) + Z.of_nat tag_len)
  then (MBEDTLS_ERR_CIPHER_BAD_INPUT_DATA, [], olen)
  else
    let '(ret, output, tag, olen) := mbedtls_cipher_aead_encrypt iv_ ad input olen tag_len in
    (ret, output ++ tag, (olen + tag_len)%nat).

Definition mbedtls_cipher_auth_decrypt_ext (iv_ ad input : list Z) (output_len olen tag_len : nat)
  : Z * list Z * nat :=
  let ilen := length input in
  if (ilen <? tag_len)%nat || (output_len <? ilen - tag_len)%nat
  then (MBEDTLS_ERR_CIPHER_BAD_INPUT_DATA, [], olen)
  else mbedtls_cipher_aead_decrypt iv_ ad (take (ilen - tag_len) input) olen (drop (ilen - tag_len) input).

End aead.

(** A context set up for AES-CCM and keyed. *)
Definition setup_ccm (alloc1 alloc2 : bool) (st : aes_statics) (key : list Z) (bits : Z)
  (op : mbedtls_operation_t) : Z * Z * aes_statics * mbedtls_cipher_context_t cipher_object :=
  let info := mbedtls_cipher_info_from_values MBEDTLS_CIPHER_ID_AES bits MBEDTLS_MODE_CCM in
  let '(r1, ctx) := @mbedtls_cipher_setup _ (objects alloc2) alloc1 mbedtls_cipher_init info in
  let '(r2, st, ctx) := @mbedtls_cipher_setkey _ (objects alloc2) st ctx key bits op in
  (r1, r2, st, ctx).

(** ** Round trip *)

Lemma ccm_entry Nk :
  key_size Nk -> exists info,
    mbedtls_cipher_info_from_values MBEDTLS_CIPHER_ID_AES (32 * Z.of_nat Nk) MBEDTLS_MODE_CCM = Some info /\
    Z.land (flags info) MBEDTLS_CIPHER_VARIABLE_KEY_LEN = 0 /\ info_key_bitlen info = 32 * Z.of_nat Nk /\
    base info = ccm_aes_info /\ mode info = MBEDTLS_MODE_CCM.
Proof. intros [-> | [-> | ->]]; eexists; (split; [reflexivity|]); repeat split. Qed.

Lemma setup_ccm_spec Nk st key op :
  key_size Nk -> op <> MBEDTLS_OPERATION_NONE ->
  exists st' ctx c o, setup_ccm true true st key (32 * Z.of_nat Nk) op = (0, 0, st', ctx) /\
    ccm_of ctx = Some c /\ ccm_keyed c o /\
    mbedtls_ccm_setkey true st mbedtls_ccm_init MBEDTLS_CIPHER_ID_AES key (32 * Z.of_nat Nk) = (0, st', c).
Proof.
  intros HNk Hop. destruct (ccm_entry Nk HNk) as (info & Hinfo & Hf & Hkb & Hb & Hm).
  destruct (setkey_enc_accepts Nk st mbedtls_aes_init key HNk) as (st' & o & Ho).
  destruct (ccm_setkey_spec Nk st st' o mbedtls_ccm_init key HNk Ho) as (c & Hc & Hkeyed).
  unfold setup_ccm. rewrite Hinfo. unfold mbedtls_cipher_setup. rewrite Hb. cbn -[Z.mul].
  unfold mbedtls_cipher_setkey, with_cipher. cbn -[Z.mul]. rewrite Hf, Hkb, Z.eqb_refl. cbn -[Z.mul].
  assert (Hset : setkey_object true mbedtls_aes_setkey_enc st (ccm_ctx mbedtls_ccm_init) key (32 * Z.of_nat Nk) =
                 (0, st', ccm_ctx c)) by (cbn -[Z.mul]; unfold ccm_aes_setkey_wrap; rewrite Hc; reflexivity).
  assert (Hset' : setkey_object true mbedtls_aes_setkey_dec st (ccm_ctx mbedtls_ccm_init) key (32 * Z.of_nat Nk) =
                  (0, st', ccm_ctx c)) by exact Hset.
  unfold ccm_ctx_alloc. cbn -[Z.mul] in Hset, Hset'. rewrite Hset, Hm, Z.eqb_refl.
  exists st'. destruct op; [congruence| |]; cbn -[Z.mul]; eexists _, c, o; (split; [reflexivity|]);
    unfold ccm_of; cbn -[Z.mul]; rewrite Hm; auto.
Qed.

(** Through the extended functions a message comes back: the output is the
    ciphertext with the tag behind it, for the three key sizes, keyed either way. *)
Theorem aead_ext_roundtrip Nk st key op iv_ ad input output_len output_len' olen olen' tag_len :
  key_size Nk -> op <> MBEDTLS_OPERATION_NONE ->
  ccm_lengths iv_ ad (length input) tag_len -> tag_len <> 0%nat ->
  (length input + tag_len <= output_len)%nat -> (length input <= output_len')%nat ->
  let '(r1, r2, st', ctx) := setup_ccm true true st key (32 * Z.of_nat Nk) op in
  let '(r3, output, n) := mbedtls_cipher_auth_encrypt_ext st' ctx iv_ ad input output_len olen tag_len in
  let '(r4, plain, m) := mbedtls_cipher_auth_decrypt_ext st' ctx iv_ ad output output_len' olen' tag_len in
  (r1, r2, r3, r4) = (0, 0, 0, 0) /\ n = (length input + tag_len)%nat /\ length output = n /\
  plain = input /\ m = length input.
Proof.
  intros HNk Hop Hl Ht Hout Hout'.
  destruct (setup_ccm_spec Nk st key op HNk Hop) as (st' & ctx & c & o & -> & Hc & Hk & _).
  unfold mbedtls_cipher_auth_encrypt_ext. destruct (Z.ltb_spec (Z.of_nat output_len)
    (u64 (Z.of_nat (length input) + Z.of_nat tag_len))) as [H|_].
  { unfold u64 in H. pose proof (Z.mod_le (Z.of_nat (length input) + Z.of_nat tag_len) (2 ^ 64)). lia. }
  unfold mbedtls_cipher_aead_encrypt. rewrite Hc.
  set (out := ctr_crypt (encrypt_block st' o) (15 - length iv_) iv_ input).
  set (tag := tag_of st' o ad tag_len iv_ input).
  assert (Hs : mbedtls_ccm_encrypt_and_tag st' c iv_ ad input tag_len = inr (out, tag))
    by (apply (seal_inv st' c o Hk); auto).
  assert (Hlo : length out = length input) by apply ctr_length.
  assert (Hlt : length tag = tag_len) by exact (mac_tag_length _ _ _ _ _ _ _ _ (tag_len_le _ _ _ _ Hl)).
  rewrite Hs. unfold mbedtls_cipher_auth_decrypt_ext. cbv zeta. rewrite length_app, Hlo, Hlt.
  replace (length input + tag_len - tag_len)%nat with (length input) by lia.
  destruct (Nat.ltb_spec (length input + tag_len) tag_len); [lia|].
  destruct (Nat.ltb_spec output_len' (length input)); [lia|]. cbn [orb].
  rewrite take_app_length', drop_app_length' by congruence.
  unfold mbedtls_cipher_aead_decrypt. rewrite Hc. rewrite <- Hlt in Hs.
  apply (seal_iff_open st' c o Hk) in Hs. rewrite Hs. cbn. auto.
Qed.

Lemma aead_ext_roundtrip_witness :
  let '(r1, r2, st', ctx) := setup_ccm true true aes_statics_init (zeros 16) 128 MBEDTLS_DECRYPT in
  let '(r3, output, n) := mbedtls_cipher_auth_encrypt_ext st' ctx (zeros 12) [7] [1; 2; 3] 7 0 4 in
  let '(r4, plain, m) := mbedtls_cipher_auth_decrypt_ext st' ctx (zeros 12) [7] output 3 0 4 in
  (r1, r2, r3, r4) = (0, 0, 0, 0) /\ n = 7%nat /\ length output = n /\ plain = [1; 2; 3] /\ m = 3%nat.
Proof.
  apply (aead_ext_roundtrip 4 aes_statics_init (zeros 16) MBEDTLS_DECRYPT (zeros 12) [7] [1; 2; 3] 7 3 0 0 4).
  - left. reflexivity.
  - discriminate.
  - split; [vm_compute; lia|]. split; [reflexivity|]. split; [cbn; tauto|reflexivity].
  - discriminate.
  - cbn. lia.
  - cbn. lia.
Defined.

(** A tag that is not the message's is reported as the cipher layer's own error,
    and no plaintext is left. *)
Lemma aead_decrypt_tampered Nk st key op iv_ ad input olen tag :
  key_size Nk -> op <> MBEDTLS_OPERATION_NONE ->
  ccm_lengths iv_ ad (length input) (length tag) -> tag <> [] ->
  let '(_, _, st', ctx) := setup_ccm true true st key (32 * Z.of_nat Nk) op in
  let '(ret, output, _) := mbedtls_cipher_auth_decrypt st' ctx iv_ ad input olen tag in
  ret = 0 \/ (ret = MBEDTLS_ERR_CIPHER_AUTH_FAILED /\ output = zeros (length input)).
Proof.
  intros HNk Hop Hl Ht.
  destruct (setup_ccm_spec Nk st key op HNk Hop) as (st' & ctx & c & o & -> & Hc & Hk & _).
  unfold mbedtls_cipher_auth_decrypt, mbedtls_cipher_aead_decrypt. rewrite Hc.
  unfold mbedtls_ccm_auth_decrypt. cbv zeta. destruct (Nat.eqb_spec (length tag) 0) as [H0|_].
  { destruct tag; [congruence|discriminate H0]. }
  rewrite (star_auth_decrypt_spec st' c o Hk) by exact Hl. destruct (bool_decide _); cbn; auto.
Qed.

(** A context of another mode, or none, has no AEAD. *)
Lemma aead_unavailable st ctx iv_ ad input olen tag_len :
  ccm_of ctx = None ->
  mbedtls_cipher_auth_encrypt st ctx iv_ ad input olen tag_len =
    (MBEDTLS_ERR_CIPHER_FEATURE_UNAVAILABLE, [], [], olen) /\
  forall tag, mbedtls_cipher_auth_decrypt st ctx iv_ ad input olen tag =
    (MBEDTLS_ERR_CIPHER_FEATURE_UNAVAILABLE, [], olen).
Proof.
  intros H. unfold mbedtls_cipher_auth_encrypt, mbedtls_cipher_aead_encrypt, mbedtls_cipher_auth_decrypt,
    mbedtls_cipher_aead_decrypt. rewrite H. auto.
Qed.

End cipher_aead.
