(* ===== verification/TransportWire.v ===== *)
(** Transport encryption over the vendored mbedTLS, with nothing assumed of it:
    the frames firmware/shared/transport_encryption.c puts on the wire are the
    AES-128-CCM of SP 800-38C and FIPS 197, under a key that is the HMAC of
    RFC 2104 with the SHA-256 of FIPS 180-4. *)

From S2P Require Import Prelude Hmac Ccm TransportEncryption Sha256 Md Aes AesFips AesInverse CcmAes CcmSpec CcmLaws.
Import hmac ccm transport_encryption md aes aes_fips aes_keys ccm_spec ccm_laws.

Module transport_wire.

(** The digest and the cipher of the firmware, given the memory they allocate. *)
#[local] Instance wire_hmac : MdHmac := mbed_hmac true true.
#[local] Instance wire_hmac_ok : MdHmacOk wire_hmac := mbed_hmac_ok true true.
#[local] Instance wire_ccm : Ccm := mbed_ccm.
#[local] Instance wire_ccm_ok : CcmOk wire_ccm := mbed_ccm_ok.

(** The key from [a] to [b] under a shared key: the first half of an HMAC. *)
Definition direction_key (shared_key : list Z) (a b : Z) : list Z :=
  let direction := cstr (if a <=? b then "a_to_b" else "b_to_a") in
  let salt := if a <=? b then [a; b] else [b; a] in
  take 16 (rfc2104_hmac 0 (take 16 shared_key) (direction ++ salt)).

(** A frame: the session, the counter, the tag, the length, and the ciphertext in
    a buffer of 256 bytes. *)
Definition standard_frame (key : list Z) (id counter : Z) (m : list Z) : TransportFrame_t :=
  let '(c, tag) :=
    sp800_38c_seal (fips_cipher 10 (fips_round_key 4 key)) (build_ccm_nonce id counter) [] m 4 in
  mk_frame id counter tag (Z.of_nat (length m)) (blit c (zeros 256)).

Lemma nonce_bytes id counter : is_u8 id -> byte_list (build_ccm_nonce id counter).
Proof.
  intros H. constructor; [exact H|]. apply Forall_app. split; [apply be_bytes_bytes|apply zeros_bytes].
Qed.

Lemma encrypt_standard s m :
  active s = true -> length (tx_key s) = 16%nat -> byte_list (tx_key s) -> is_u8 (session_id s) ->
  byte_list m -> Z.of_nat (length m) <= TRANSPORT_MAX_PAYLOAD ->
  transport_encrypt (Some s) (Some m) (Some zero_frame) =
  (true, Some (s <| tx_nonce_counter := u32 (tx_nonce_counter s + 1) |>),
   Some (standard_frame (tx_key s) (session_id s) (tx_nonce_counter s) m)).
Proof.
  intros Ha Hl Hk Hid Hm Hlen. unfold transport_encrypt. rewrite Ha, ccm_setkey_16 by exact Hl. cbn [negb].
  destruct (Z.ltb_spec TRANSPORT_MAX_PAYLOAD (Z.of_nat (length m))); [lia|].
  assert (Hlens : ccm_lengths (build_ccm_nonce (session_id s) (tx_nonce_counter s)) [] (length m) 4).
  { unfold ccm_lengths. rewrite nonce_length. unfold TRANSPORT_NONCE_SIZE, TRANSPORT_MAX_PAYLOAD in *.
    split; [lia|]. split; [cbn; lia|]. split; [cbn; tauto|]. change (256 ^ Z.of_nat (15 - 13)) with 65536. lia. }
  destruct (seal_fips 4 aes_statics_init (tx_key s) (build_ccm_nonce (session_id s) (tx_nonce_counter s)) [] m 4)
    as (ctx & Hset & Hseal); auto using nonce_bytes; [left; reflexivity|left; reflexivity|constructor|].
  cbn [mbedtls_ccm_encrypt_and_tag wire_ccm mbed_ccm]. unfold keyed_128. change 128 with (32 * Z.of_nat 4).
  rewrite Hset. unfold TRANSPORT_MIC_SIZE. rewrite Hseal. unfold standard_frame.
  destruct (sp800_38c_seal _ _ _ _ _) as [c tag]. unfold TRANSPORT_MAX_PAYLOAD in *.
  rewrite u16_small by (unfold is_u16; lia). reflexivity.
Qed.

Lemma cstr_bytes t : byte_list (cstr t).
Proof.
  unfold cstr. apply Forall_map, Forall_forall. intros c _. unfold is_u8, compose.
  pose proof (Ascii.N_ascii_bounded c). lia.
Qed.

(** The key a session encrypts under. *)
Lemma created_key st s0 a b k st' s :
  is_u8 a -> is_u8 b -> byte_list k ->
  transport_create_session st (Some s0) a b (Some k) = (true, st', Some s) ->
  tx_key s = direction_key k a b.
Proof.
  intros Ha Hb Hk (_ & -> & _)%create_session_inv. unfold direction_key, derived_key, TRANSPORT_AES_KEY_SIZE.
  assert (Hd : forall direction salt, byte_list direction -> byte_list salt ->
    (length direction <= 30)%nat -> (length salt <= 30)%nat ->
    take 16 (iot_hmac_sha256 (take 16 k) (direction ++ take 30 salt)) =
    take 16 (rfc2104_hmac 0 (take 16 k) (direction ++ salt))).
  { intros direction salt Hdb Hsb Hdl Hsl. rewrite (take_ge salt) by exact Hsl. f_equal.
    unfold iot_hmac_sha256. cbv [hmac.mbedtls_md_hmac wire_hmac mbed_hmac].
    change (mbedtls_md_info_from_type MBEDTLS_MD_SHA256) with (Some (info_of 0)).
    rewrite md_hmac_spec; [reflexivity|left; reflexivity|apply Forall_take, Hk|rewrite length_take; lia| |].
    - apply Forall_app. split; assumption.
    - rewrite length_app. lia. }
  assert (Hab : byte_list [a; b] /\ byte_list [b; a]) by (split; repeat (constructor; [assumption|]); constructor).
  destruct (a <=? b); apply Hd; try (vm_compute; lia); try apply Hab; apply cstr_bytes.
Qed.

(** The frames of a session, from the counter it stands at. *)
Lemma send_all_standard ms s :
  active s = true -> length (tx_key s) = 16%nat -> byte_list (tx_key s) -> is_u8 (session_id s) ->
  Forall byte_list ms -> Forall (fun m => Z.of_nat (length m) <= TRANSPORT_MAX_PAYLOAD) ms ->
  0 <= tx_nonce_counter s -> tx_nonce_counter s + Z.of_nat (length ms) < 4294967296 ->
  send_all (Some s) ms =
  imap (fun i m => standard_frame (tx_key s) (session_id s) (tx_nonce_counter s + Z.of_nat i) m) ms.
Proof.
  revert s. induction ms as [|m ms IH]; intros s Ha Hl Hk Hid Hms Hlens Hlo Hhi; [reflexivity|].
  inversion_clear Hms as [|? ? Hm Hms']. inversion_clear Hlens as [|? ? Hlen Hlens']. cbn [length] in Hhi.
  cbn [send_all]. rewrite encrypt_standard by assumption.
  set (s' := s <| tx_nonce_counter := u32 (tx_nonce_counter s + 1) |>).
  assert (Hc : tx_nonce_counter s' = tx_nonce_counter s + 1)
    by (cbn; apply u32_small; unfold is_u32; lia).
  rewrite (IH s' Ha Hl Hk Hid Hms' Hlens' ltac:(lia) ltac:(lia)). cbn [imap]. rewrite Z.add_0_r. f_equal.
  apply imap_ext. intros i m' _. unfold compose.
  replace (tx_nonce_counter s + Z.of_nat (S i)) with (tx_nonce_counter s' + Z.of_nat i) by lia. reflexivity.
Qed.

(** C6. On the wire there is nothing but the standards: with mbedTLS as it is built,
    the frames of a new session are, message for message, the CCM encryption of
    SP 800-38C over the AES of FIPS 197 under the key of the direction, with the
    counter in the nonce; and the other end delivers the messages. *)
Theorem frames_are_standard st1 st2 s1 s2 a b k st1' st2' s r ms :
  is_u8 a -> is_u8 b -> byte_list k -> is_u8 (g_next_session_id st1) -> a <> b ->
  transport_create_session st1 (Some s1) a b (Some k) = (true, st1', Some s) ->
  transport_create_session st2 (Some s2) b a (Some k) = (true, st2', Some r) ->
  Forall byte_list ms -> Forall (fun m => Z.of_nat (length m) <= TRANSPORT_MAX_PAYLOAD) ms ->
  Z.of_nat (length ms) < 4294967296 ->
  let frames := imap (fun i m => standard_frame (direction_key k a b) (session_id s) (Z.of_nat i) m) ms in
  send_all (Some s) ms = frames /\ snd <$> receive_all (Some r) frames = ms.
Proof.
  intros Ha Hb Hk Hid Hne H1 H2 Hms Hlens Hlen. cbv zeta.
  pose proof (created_key _ _ _ _ _ _ _ Ha Hb Hk H1) as Hkey.
  pose proof (create_paired _ _ _ _ _ _ _ _ _ _ _ H1 H2 Hne) as Hp.
  apply create_session_inv in H1 as (Hs & Htx & _ & Hn & _ & _ & Hact).
  apply create_session_inv in H2 as (_ & _ & _ & _ & Hrx & _).
  assert (Hkb : byte_list (tx_key s)).
  { rewrite Htx. destruct (a <=? b); apply Forall_take, iot_hmac_bytes. }
  assert (Hsend : send_all (Some s) ms =
    imap (fun i m => standard_frame (direction_key k a b) (session_id s) (Z.of_nat i) m) ms).
  { rewrite send_all_standard by (try assumption; try (rewrite Hs; assumption); try apply Hp; lia).
    rewrite Hkey, Hn. reflexivity. }
  split; [exact Hsend|]. rewrite <- Hsend.
  destruct (delivery ms s r Hp ltac:(lia) ltac:(lia) Hlens) as [Hl Hd].
  specialize (Hd _ (reflexivity _)). rewrite !fst_zip, !snd_zip in Hd by lia. exact Hd.
Qed.

Definition wire_session (st : state) (a b : Z) : TransportSession_t :=
  match transport_create_session st (Some empty_session) a b (Some demo_key) with
  | (_, _, Some s) => s
  | _ => empty_session
  end.

Lemma frames_are_standard_witness :
  let ms := [[1]; []; [2; 3]] in
  let frames :=
    imap (fun i m => standard_frame (direction_key demo_key 7 3)
                       (session_id (wire_session (mk_state true 9) 7 3)) (Z.of_nat i) m) ms in
  send_all (Some (wire_session (mk_state true 9) 7 3)) ms = frames /\
  snd <$> receive_all (Some (wire_session (mk_state true 1) 3 7)) frames = ms.
Proof.
  apply (frames_are_standard (mk_state true 9) (mk_state true 1) empty_session empty_session 7 3 demo_key
    (snd (fst (transport_create_session (mk_state true 9) (Some empty_session) 7 3 (Some demo_key))))
    (snd (fst (transport_create_session (mk_state true 1) (Some empty_session) 3 7 (Some demo_key))))
    (wire_session (mk_state true 9) 7 3) (wire_session (mk_state true 1) 3 7) [[1]; []; [2; 3]]).
  - unfold is_u8. lia.
  - unfold is_u8. lia.
  - apply le_bytes_bytes.
  - cbn. unfold is_u8. lia.
  - lia.
  - vm_compute. reflexivity.
  - vm_compute. reflexivity.
  - repeat constructor; unfold is_u8; lia.
  - repeat constructor; cbn; unfold TRANSPORT_MAX_PAYLOAD; lia.
  - cbn. lia.
Defined.

End transport_wire.
