(* ===== verification/Oid.v ===== *)
(** Object identifiers (lib/mbedtls/library/oid.c as the Makefile configures it):
    the constants of oid.h its tables use (module oid_names), the descriptor tables
    with their lookups both ways, and the dotted decimal text of an identifier. *)

From S2P Require Import Prelude Text MbedCommon Md Cipher.

Module oid_names.

Definition MBEDTLS_OID_AT_CN : list Z := [0x55; 0x04; 0x03].
Definition MBEDTLS_OID_AT_COUNTRY : list Z := [0x55; 0x04; 0x06].
Definition MBEDTLS_OID_AT_LOCALITY : list Z := [0x55; 0x04; 0x07].
Definition MBEDTLS_OID_AT_STATE : list Z := [0x55; 0x04; 0x08].
Definition MBEDTLS_OID_AT_ORGANIZATION : list Z := [0x55; 0x04; 0x0A].
Definition MBEDTLS_OID_AT_ORG_UNIT : list Z := [0x55; 0x04; 0x0B].
Definition MBEDTLS_OID_PKCS9_EMAIL : list Z := [0x2A; 0x86; 0x48; 0x86; 0xF7; 0x0D; 0x01; 0x09; 0x01].
Definition MBEDTLS_OID_AT_SERIAL_NUMBER : list Z := [0x55; 0x04; 0x05].
Definition MBEDTLS_OID_AT_POSTAL_ADDRESS : list Z := [0x55; 0x04; 0x10].
Definition MBEDTLS_OID_AT_POSTAL_CODE : list Z := [0x55; 0x04; 0x11].
Definition MBEDTLS_OID_AT_SUR_NAME : list Z := [0x55; 0x04; 0x04].
Definition MBEDTLS_OID_AT_GIVEN_NAME : list Z := [0x55; 0x04; 0x2A].
Definition MBEDTLS_OID_AT_INITIALS : list Z := [0x55; 0x04; 0x2B].
Definition MBEDTLS_OID_AT_GENERATION_QUALIFIER : list Z := [0x55; 0x04; 0x2C].
Definition MBEDTLS_OID_AT_TITLE : list Z := [0x55; 0x04; 0x0C].
Definition MBEDTLS_OID_AT_DN_QUALIFIER : list Z := [0x55; 0x04; 0x2E].
Definition MBEDTLS_OID_AT_PSEUDONYM : list Z := [0x55; 0x04; 0x41].
Definition MBEDTLS_OID_DOMAIN_COMPONENT : list Z := [0x09; 0x92; 0x26; 0x89; 0x93; 0xF2; 0x2C; 0x64; 0x01; 0x19].
Definition MBEDTLS_OID_AT_UNIQUE_IDENTIFIER : list Z := [0x55; 0x04; 0x2D].
Definition MBEDTLS_OID_BASIC_CONSTRAINTS : list Z := [0x55; 0x1D; 0x13].
Definition MBEDTLS_OID_KEY_USAGE : list Z := [0x55; 0x1D; 0x0F].
Definition MBEDTLS_OID_EXTENDED_KEY_USAGE : list Z := [0x55; 0x1D; 0x25].
Definition MBEDTLS_OID_SUBJECT_ALT_NAME : list Z := [0x55; 0x1D; 0x11].
Definition MBEDTLS_OID_NS_CERT_TYPE : list Z := [0x60; 0x86; 0x48; 0x01; 0x86; 0xF8; 0x42; 0x01; 0x01].
Definition MBEDTLS_OID_CERTIFICATE_POLICIES : list Z := [0x55; 0x1D; 0x20].
Definition MBEDTLS_OID_SERVER_AUTH : list Z := [0x2B; 0x06; 0x01; 0x05; 0x05; 0x07; 0x03; 0x01].
Definition MBEDTLS_OID_CLIENT_AUTH : list Z := [0x2B; 0x06; 0x01; 0x05; 0x05; 0x07; 0x03; 0x02].
Definition MBEDTLS_OID_CODE_SIGNING : list Z := [0x2B; 0x06; 0x01; 0x05; 0x05; 0x07; 0x03; 0x03].
Definition MBEDTLS_OID_EMAIL_PROTECTION : list Z := [0x2B; 0x06; 0x01; 0x05; 0x05; 0x07; 0x03; 0x04].
Definition MBEDTLS_OID_TIME_STAMPING : list Z := [0x2B; 0x06; 0x01; 0x05; 0x05; 0x07; 0x03; 0x08].
Definition MBEDTLS_OID_OCSP_SIGNING : list Z := [0x2B; 0x06; 0x01; 0x05; 0x05; 0x07; 0x03; 0x09].
Definition MBEDTLS_OID_WISUN_FAN : list Z := [0x2B; 0x06; 0x01; 0x04; 0x01; 0x82; 0xE4; 0x25; 0x01].
Definition MBEDTLS_OID_ANY_POLICY : list Z := [0x55; 0x1D; 0x20; 0x00].
Definition MBEDTLS_OID_PKCS1_RSA : list Z := [0x2A; 0x86; 0x48; 0x86; 0xF7; 0x0D; 0x01; 0x01; 0x01].
Definition MBEDTLS_OID_EC_ALG_UNRESTRICTED : list Z := [0x2A; 0x86; 0x48; 0xCE; 0x3D; 0x02; 0x01].
Definition MBEDTLS_OID_EC_ALG_ECDH : list Z := [0x2B; 0x81; 0x04; 0x01; 0x0C].
Definition MBEDTLS_OID_DES_CBC : list Z := [0x2B; 0x0E; 0x03; 0x02; 0x07].
Definition MBEDTLS_OID_DES_EDE3_CBC : list Z := [0x2A; 0x86; 0x48; 0x86; 0xF7; 0x0D; 0x03; 0x07].
Definition MBEDTLS_OID_DIGEST_ALG_SHA224 : list Z := [0x60; 0x86; 0x48; 0x01; 0x65; 0x03; 0x04; 0x02; 0x04].
Definition MBEDTLS_OID_DIGEST_ALG_SHA256 : list Z := [0x60; 0x86; 0x48; 0x01; 0x65; 0x03; 0x04; 0x02; 0x01].
Definition MBEDTLS_OID_HMAC_SHA224 : list Z := [0x2A; 0x86; 0x48; 0x86; 0xF7; 0x0D; 0x02; 0x08].
Definition MBEDTLS_OID_HMAC_SHA256 : list Z := [0x2A; 0x86; 0x48; 0x86; 0xF7; 0x0D; 0x02; 0x09].

End oid_names.

Import mbed text md cipher oid_names.

Module oid.

Definition MBEDTLS_ERR_OID_BUF_TOO_SMALL : Z := -0x0B.
Definition MBEDTLS_ERR_OID_NOT_FOUND : Z := -0x2E.
Definition MBEDTLS_ERR_ASN1_OUT_OF_DATA : Z := -0x60.
Definition MBEDTLS_ERR_ASN1_INVALID_LENGTH : Z := -0x64.
Definition MBEDTLS_ERR_ASN1_INVALID_DATA : Z := -0x68.

(** [asn1] with its length, [name], [description] *)
Record mbedtls_oid_descriptor_t := {
  asn1 : list Z;
  oid_name : string;
  description : string }.

Inductive mbedtls_pk_type_t :=
| MBEDTLS_PK_NONE | MBEDTLS_PK_RSA | MBEDTLS_PK_ECKEY | MBEDTLS_PK_ECKEY_DH | MBEDTLS_PK_ECDSA
| MBEDTLS_PK_RSA_ALT | MBEDTLS_PK_RSASSA_PSS | MBEDTLS_PK_OPAQUE.

#[export] Instance pk_type_eq_dec : EqDecision mbedtls_pk_type_t.
Proof. solve_decision. Defined.

(** The extension bits the table names. *)
Definition MBEDTLS_OID_X509_EXT_KEY_USAGE : Z := Z.shiftl 1 2.
Definition MBEDTLS_OID_X509_EXT_CERTIFICATE_POLICIES : Z := Z.shiftl 1 3.
Definition MBEDTLS_OID_X509_EXT_SUBJECT_ALT_NAME : Z := Z.shiftl 1 5.
Definition MBEDTLS_OID_X509_EXT_BASIC_CONSTRAINTS : Z := Z.shiftl 1 8.
Definition MBEDTLS_OID_X509_EXT_EXTENDED_KEY_USAGE : Z := Z.shiftl 1 11.
Definition MBEDTLS_OID_X509_EXT_NS_CERT_TYPE : Z := Z.shiftl 1 16.

(** ** The tables, up to their end marks *)

Definition oid_x520_attr_type : list (mbedtls_oid_descriptor_t * string) :=
  [(Build_mbedtls_oid_descriptor_t MBEDTLS_OID_AT_CN "id-at-commonName" "Common Name", "CN");
   (Build_mbedtls_oid_descriptor_t MBEDTLS_OID_AT_COUNTRY "id-at-countryName" "Country", "C");
   (Build_mbedtls_oid_descriptor_t MBEDTLS_OID_AT_LOCALITY "id-at-locality" "Locality", "L");
   (Build_mbedtls_oid_descriptor_t MBEDTLS_OID_AT_STATE "id-at-state" "State", "ST");
   (Build_mbedtls_oid_descriptor_t MBEDTLS_OID_AT_ORGANIZATION "id-at-organizationName" "Organization", "O");
   (Build_mbedtls_oid_descriptor_t MBEDTLS_OID_AT_ORG_UNIT "id-at-organizationalUnitName" "Org Unit", "OU");
   (Build_mbedtls_oid_descriptor_t MBEDTLS_OID_PKCS9_EMAIL "emailAddress" "E-mail address", "emailAddress");
   (Build_mbedtls_oid_descriptor_t MBEDTLS_OID_AT_SERIAL_NUMBER "id-at-serialNumber" "Serial number", "serialNumber");
   (Build_mbedtls_oid_descriptor_t MBEDTLS_OID_AT_POSTAL_ADDRESS "id-at-postalAddress" "Postal address", "postalAddress");
   (Build_mbedtls_oid_descriptor_t MBEDTLS_OID_AT_POSTAL_CODE "id-at-postalCode" "Postal code", "postalCode");
   (Build_mbedtls_oid_descriptor_t MBEDTLS_OID_AT_SUR_NAME "id-at-surName" "Surname", "SN");
   (Build_mbedtls_oid_descriptor_t MBEDTLS_OID_AT_GIVEN_NAME "id-at-givenName" "Given name", "GN");
   (Build_mbedtls_oid_descriptor_t MBEDTLS_OID_AT_INITIALS "id-at-initials" "Initials", "initials");
   (Build_mbedtls_oid_descriptor_t MBEDTLS_OID_AT_GENERATION_QUALIFIER "id-at-generationQualifier" "Generation qualifier", "generationQualifier");
   (Build_mbedtls_oid_descriptor_t MBEDTLS_OID_AT_TITLE "id-at-title" "Title", "title");
   (Build_mbedtls_oid_descriptor_t MBEDTLS_OID_AT_DN_QUALIFIER "id-at-dnQualifier" "Distinguished Name qualifier", "dnQualifier");
   (Build_mbedtls_oid_descriptor_t MBEDTLS_OID_AT_PSEUDONYM "id-at-pseudonym" "Pseudonym", "pseudonym");
   (Build_mbedtls_oid_descriptor_t MBEDTLS_OID_DOMAIN_COMPONENT "id-domainComponent" "Domain component", "DC");
   (Build_mbedtls_oid_descriptor_t MBEDTLS_OID_AT_UNIQUE_IDENTIFIER "id-at-uniqueIdentifier" "Unique Identifier", "uniqueIdentifier")].

Definition oid_x509_ext : list (mbedtls_oid_descriptor_t * Z) :=
  [(Build_mbedtls_oid_descriptor_t MBEDTLS_OID_BASIC_CONSTRAINTS "id-ce-basicConstraints" "Basic Constraints", MBEDTLS_OID_X509_EXT_BASIC_CONSTRAINTS);
   (Build_mbedtls_oid_descriptor_t MBEDTLS_OID_KEY_USAGE "id-ce-keyUsage" "Key Usage", MBEDTLS_OID_X509_EXT_KEY_USAGE);
   (Build_mbedtls_oid_descriptor_t MBEDTLS_OID_EXTENDED_KEY_USAGE "id-ce-extKeyUsage" "Extended Key Usage", MBEDTLS_OID_X509_EXT_EXTENDED_KEY_USAGE);
   (Build_mbedtls_oid_descriptor_t MBEDTLS_OID_SUBJECT_ALT_NAME "id-ce-subjectAltName" "Subject Alt Name", MBEDTLS_OID_X509_EXT_SUBJECT_ALT_NAME);
   (Build_mbedtls_oid_descriptor_t MBEDTLS_OID_NS_CERT_TYPE "id-netscape-certtype" "Netscape Certificate Type", MBEDTLS_OID_X509_EXT_NS_CERT_TYPE);
   (Build_mbedtls_oid_descriptor_t MBEDTLS_OID_CERTIFICATE_POLICIES "id-ce-certificatePolicies" "Certificate Policies", MBEDTLS_OID_X509_EXT_CERTIFICATE_POLICIES)].

Definition oid_ext_key_usage : list (mbedtls_oid_descriptor_t * unit) :=
  [(Build_mbedtls_oid_descriptor_t MBEDTLS_OID_SERVER_AUTH "id-kp-serverAuth" "TLS Web Server Authentication", tt);
   (Build_mbedtls_oid_descriptor_t MBEDTLS_OID_CLIENT_AUTH "id-kp-clientAuth" "TLS Web Client Authentication", tt);
   (Build_mbedtls_oid_descriptor_t MBEDTLS_OID_CODE_SIGNING "id-kp-codeSigning" "Code Signing", tt);
   (Build_mbedtls_oid_descriptor_t MBEDTLS_OID_EMAIL_PROTECTION "id-kp-emailProtection" "E-mail Protection", tt);
   (Build_mbedtls_oid_descriptor_t MBEDTLS_OID_TIME_STAMPING "id-kp-timeStamping" "Time Stamping", tt);
   (Build_mbedtls_oid_descriptor_t MBEDTLS_OID_OCSP_SIGNING "id-kp-OCSPSigning" "OCSP Signing", tt);
   (Build_mbedtls_oid_descriptor_t MBEDTLS_OID_WISUN_FAN "id-kp-wisun-fan-device" "Wi-SUN Alliance Field Area Network (FAN)", tt)].

Definition oid_certificate_policies : list (mbedtls_oid_descriptor_t * unit) :=
  [(Build_mbedtls_oid_descriptor_t MBEDTLS_OID_ANY_POLICY "anyPolicy" "Any Policy", tt)].

(** Without RSA and ECDSA no signature algorithm is left. *)
Definition oid_sig_alg : list (mbedtls_oid_descriptor_t * (mbedtls_md_type_t * mbedtls_pk_type_t)) := [].

Definition oid_pk_alg : list (mbedtls_oid_descriptor_t * mbedtls_pk_type_t) :=
  [(Build_mbedtls_oid_descriptor_t MBEDTLS_OID_PKCS1_RSA "rsaEncryption" "RSA", MBEDTLS_PK_RSA);
   (Build_mbedtls_oid_descriptor_t MBEDTLS_OID_EC_ALG_UNRESTRICTED "id-ecPublicKey" "Generic EC key", MBEDTLS_PK_ECKEY);
   (Build_mbedtls_oid_descriptor_t MBEDTLS_OID_EC_ALG_ECDH "id-ecDH" "EC key for ECDH", MBEDTLS_PK_ECKEY_DH)].

Definition oid_cipher_alg : list (mbedtls_oid_descriptor_t * mbedtls_cipher_type_t) :=
  [(Build_mbedtls_oid_descriptor_t MBEDTLS_OID_DES_CBC "desCBC" "DES-CBC", MBEDTLS_CIPHER_DES_CBC);
   (Build_mbedtls_oid_descriptor_t MBEDTLS_OID_DES_EDE3_CBC "des-ede3-cbc" "DES-EDE3-CBC", MBEDTLS_CIPHER_DES_EDE3_CBC)].

Definition oid_md_alg : list (mbedtls_oid_descriptor_t * mbedtls_md_type_t) :=
  [(Build_mbedtls_oid_descriptor_t MBEDTLS_OID_DIGEST_ALG_SHA224 "id-sha224" "SHA-224", MBEDTLS_MD_SHA224);
   (Build_mbedtls_oid_descriptor_t MBEDTLS_OID_DIGEST_ALG_SHA256 "id-sha256" "SHA-256", MBEDTLS_MD_SHA256)].

Definition oid_md_hmac : list (mbedtls_oid_descriptor_t * mbedtls_md_type_t) :=
  [(Build_mbedtls_oid_descriptor_t MBEDTLS_OID_HMAC_SHA224 "hmacSHA224" "HMAC-SHA-224", MBEDTLS_MD_SHA224);
   (Build_mbedtls_oid_descriptor_t MBEDTLS_OID_HMAC_SHA256 "hmacSHA256" "HMAC-SHA-256", MBEDTLS_MD_SHA256)].

(** ** Lookups *)

(** FN_OID_TYPED_FROM_ASN1: the first entry of the table with these bytes; [None]
    for a NULL [oid]. *)
Definition typed_from_asn1 {A} (table : list (mbedtls_oid_descriptor_t * A)) (oid : option (list Z))
  : option (mbedtls_oid_descriptor_t * A) :=
  match oid with
  | None => None
  | Some oid => find_first (fun cur => bool_decide (asn1 (fst cur) = oid)) table
  end.

(** FN_OID_GET_ATTR1, FN_OID_GET_ATTR2 and FN_OID_GET_DESCRIPTOR_ATTR1, by the
    attribute they read. *)
Definition get_attr {A B} (table : list (mbedtls_oid_descriptor_t * A))
  (attr : mbedtls_oid_descriptor_t * A -> B) (oid : option (list Z)) : Z + B :=
  match typed_from_asn1 table oid with
  | None => inl MBEDTLS_ERR_OID_NOT_FOUND
  | Some data => inr (attr data)
  end.

(** FN_OID_GET_OID_BY_ATTR1 and FN_OID_GET_OID_BY_ATTR2 *)
Definition get_oid_by {A} (table : list (mbedtls_oid_descriptor_t * A)) (p : A -> bool) : Z + list Z :=
  match find_first (fun cur => p (snd cur)) table with
  | None => inl MBEDTLS_ERR_OID_NOT_FOUND
  | Some cur => inr (asn1 (fst cur))
  end.

Definition mbedtls_oid_get_attr_short_name := get_attr oid_x520_attr_type snd.
Definition mbedtls_oid_get_x509_ext_type := get_attr oid_x509_ext snd.
Definition mbedtls_oid_get_extended_key_usage := get_attr oid_ext_key_usage (fun data => description (fst data)).
Definition mbedtls_oid_get_certificate_policies :=
  get_attr oid_certificate_policies (fun data => description (fst data)).
Definition mbedtls_oid_get_sig_alg_desc := get_attr oid_sig_alg (fun data => description (fst data)).
Definition mbedtls_oid_get_sig_alg := get_attr oid_sig_alg snd.
Definition mbedtls_oid_get_oid_by_sig_alg (pk_alg : mbedtls_pk_type_t) (md_alg : mbedtls_md_type_t) :=
  get_oid_by oid_sig_alg (fun '(md, pk) => bool_decide (pk = pk_alg) && bool_decide (md = md_alg)).
Definition mbedtls_oid_get_pk_alg := get_attr oid_pk_alg snd.
Definition mbedtls_oid_get_oid_by_pk_alg (pk_alg : mbedtls_pk_type_t) :=
  get_oid_by oid_pk_alg (fun pk => bool_decide (pk = pk_alg)).
Definition mbedtls_oid_get_cipher_alg := get_attr oid_cipher_alg snd.
Definition mbedtls_oid_get_md_alg := get_attr oid_md_alg snd.
Definition mbedtls_oid_get_oid_by_md (md_alg : mbedtls_md_type_t) :=
  get_oid_by oid_md_alg (fun md => bool_decide (md = md_alg)).
Definition mbedtls_oid_get_md_hmac := get_attr oid_md_hmac snd.

(** ** Dotted decimal *)

Definition UINT_MAX : Z := 4294967295.
Definition INT_MAX : Z := 2147483647.

(** The first component text holds two arcs. *)
Definition first_component (value : Z) : list Z :=
  let '(component1, component2) :=
    if 80 <=? value then (50, value - 80) else if 40 <=? value then (49, value - 40) else (48, value) in
  component1 :: 46 :: print_u component2.

(** The loop over the bytes: [n] is the room left, [out] what is written.  The
    result is the return value and the text. *)
Fixpoint numeric_loop (size n value : Z) (out bytes : list Z) : Z * list Z :=
  match bytes with
  | [] => if negb (value =? 0) then (MBEDTLS_ERR_ASN1_OUT_OF_DATA, out) else (size - n, out)
  | b :: bytes =>
      if Z.shiftr UINT_MAX 7 <? value then (MBEDTLS_ERR_ASN1_INVALID_DATA, out)
      else if (value =? 0) && (b =? 0x80) then (MBEDTLS_ERR_ASN1_INVALID_DATA, out)
      else
        let value := u32 (Z.shiftl value 7) in
        let value := Z.lor value (Z.land b 0x7F) in
        if Z.land b 0x80 =? 0
        then
          let text := if n =? size then first_component value else 46 :: print_u value in
          let ret := Z.of_nat (length text) in
          if (ret <? 2) || (n <=? ret) then (MBEDTLS_ERR_OID_BUF_TOO_SMALL, out)
          else numeric_loop size (n - ret) 0 (out ++ text) bytes
        else numeric_loop size n value out bytes
  end.

Definition mbedtls_oid_get_numeric_string (size : Z) (oid : list Z) : Z * list Z :=
  if INT_MAX <? size then (MBEDTLS_ERR_ASN1_INVALID_LENGTH, [])
  else if (length oid <=? 0)%nat then (MBEDTLS_ERR_ASN1_OUT_OF_DATA, [])
  else numeric_loop size size 0 [] oid.

Example rsadsi : mbedtls_oid_get_numeric_string 32 MBEDTLS_OID_PKCS1_RSA =
  (20, cstr "1.2.840.113549.1.1.1").
Proof. reflexivity. Qed.

(** ** The tables *)

(** Every identifier of a table finds its own entry: no bytes occur twice. *)
Lemma typed_from_asn1_own {A} (table : list (mbedtls_oid_descriptor_t * A)) entry :
  NoDup (map (fun e => asn1 (fst e)) table) -> In entry table ->
  typed_from_asn1 table (Some (asn1 (fst entry))) = Some entry.
Proof.
  induction table as [|e table IH]; intros Hnd Hin; [destruct Hin|].
  apply NoDup_cons in Hnd as [Hne Hnd]. cbn [typed_from_asn1]. unfold find_first. cbn [find_index].
  destruct (bool_decide (asn1 (fst e) = asn1 (fst entry))) eqn:Hb.
  - apply bool_decide_eq_true in Hb. destruct Hin as [->|Hin]; [reflexivity|]. exfalso. apply Hne.
    rewrite Hb. apply list_elem_of_In, in_map_iff. eauto.
  - apply bool_decide_eq_false in Hb. destruct Hin as [->|Hin]; [congruence|].
    specialize (IH Hnd Hin). unfold typed_from_asn1, find_first in IH. cbn in IH |- *.
    destruct (find_index _ table) as [i|]; exact IH.
Qed.

(** So the attribute lookups answer for each entry with that entry's attribute. *)
Theorem oid_lookups_own :
  (forall e, In e oid_x520_attr_type -> mbedtls_oid_get_attr_short_name (Some (asn1 (fst e))) = inr (snd e)) /\
  (forall e, In e oid_x509_ext -> mbedtls_oid_get_x509_ext_type (Some (asn1 (fst e))) = inr (snd e)) /\
  (forall e, In e oid_ext_key_usage ->
     mbedtls_oid_get_extended_key_usage (Some (asn1 (fst e))) = inr (description (fst e))) /\
  (forall e, In e oid_pk_alg -> mbedtls_oid_get_pk_alg (Some (asn1 (fst e))) = inr (snd e) /\
     mbedtls_oid_get_oid_by_pk_alg (snd e) = inr (asn1 (fst e))) /\
  (forall e, In e oid_cipher_alg -> mbedtls_oid_get_cipher_alg (Some (asn1 (fst e))) = inr (snd e)) /\
  (forall e, In e oid_md_alg -> mbedtls_oid_get_md_alg (Some (asn1 (fst e))) = inr (snd e) /\
     mbedtls_oid_get_oid_by_md (snd e) = inr (asn1 (fst e))) /\
  (forall e, In e oid_md_hmac -> mbedtls_oid_get_md_hmac (Some (asn1 (fst e))) = inr (snd e)).
Proof.
  assert (Hown : forall A B (table : list (mbedtls_oid_descriptor_t * A)) (attr : _ -> B) e,
    bool_decide (NoDup (map (fun e => asn1 (fst e)) table)) = true -> In e table ->
    get_attr table attr (Some (asn1 (fst e))) = inr (attr e)).
  { intros A B table attr e Hnd Hin. unfold get_attr.
    rewrite (typed_from_asn1_own table e) by (exact (proj1 (bool_decide_eq_true _) Hnd) || exact Hin). reflexivity. }
  repeat split; try (intros e He; apply Hown; [reflexivity|exact He]); try (apply Hown; [reflexivity|assumption]).
  - repeat (destruct H as [<-|H]; [reflexivity|]). destruct H.
  - repeat (destruct H as [<-|H]; [reflexivity|]). destruct H.
Qed.

(** ** Encoding an identifier *)

(** A subidentifier: seven bits a byte, the high bit on all but the last. *)
Fixpoint high_groups (fuel : nat) (v : Z) (acc : list Z) : list Z :=
  match fuel with
  | O => acc
  | S fuel => if v =? 0 then acc else high_groups fuel (Z.shiftr v 7) (Z.lor 0x80 (Z.land v 0x7F) :: acc)
  end.

(** 32 bits have at most four groups above the last. *)
Definition subidentifier (v : Z) : list Z := high_groups 4 (Z.shiftr v 7) [Z.land v 0x7F].

Definition encode_oid (a0 a1 : Z) (arcs : list Z) : list Z :=
  subidentifier (40 * a0 + a1) ++ concat (map subidentifier arcs).

Definition dotted (a0 a1 : Z) (arcs : list Z) : list Z :=
  (48 + a0) :: 46 :: print_u a1 ++ concat (map (fun a => 46 :: print_u a) arcs).

Lemma land_7F v : Z.land v 0x7F = v mod 128.
Proof. change 0x7F with (Z.ones 7). rewrite Z.land_ones by lia. reflexivity. Qed.

Lemma shiftr_7 v : Z.shiftr v 7 = v / 128.
Proof. rewrite Z.shiftr_div_pow2 by lia. reflexivity. Qed.

Lemma join_7 v : Z.lor (Z.shiftl v 7) (Z.land (v mod 128) 0x7F) = Z.lor (v mod 128) (Z.shiftl v 7).
Proof. rewrite land_7F, Z.mod_mod by lia. apply Z.lor_comm. Qed.

(** Reading the bytes of one group on. *)
Lemma group_value high low :
  0 <= high < 2 ^ 25 -> 0 <= low < 128 ->
  Z.lor (u32 (Z.shiftl high 7)) (Z.land low 0x7F) = 128 * high + low.
Proof.
  intros Hh Hl. rewrite u32_small.
  - rewrite land_7F, Z.mod_small, Z.lor_comm, (lor_disjoint_add low high 7) by lia. lia.
  - rewrite Z.shiftl_mul_pow2 by lia. unfold is_u32. lia.
Qed.

Lemma marked_group low : 0 <= low < 128 ->
  Z.land (Z.lor 0x80 low) 0x7F = Z.land low 0x7F /\ Z.land (Z.lor 0x80 low) 0x80 = 0x80 /\
  ((Z.lor 0x80 low =? 0x80) = (low =? 0)).
Proof.
  intros H. assert (Hall : forallb (fun i => let low := Z.of_nat i in
    (Z.land (Z.lor 0x80 low) 0x7F =? Z.land low 0x7F) && (Z.land (Z.lor 0x80 low) 0x80 =? 0x80) &&
    eqb (Z.lor 0x80 low =? 0x80) (low =? 0)) (seq 0 128) = true) by (vm_compute; reflexivity).
  rewrite forallb_forall in Hall. specialize (Hall (Z.to_nat low) ltac:(apply in_seq; lia)).
  rewrite Z2Nat.id in Hall by lia. cbv zeta in Hall.
  apply andb_true_iff in Hall as [[H1%Z.eqb_eq H2%Z.eqb_eq]%andb_true_iff H3%eqb_prop]. auto.
Qed.

Lemma high_groups_value fuel v size n out acc :
  0 <= v < 2 ^ 25 -> v < 128 ^ Z.of_nat fuel ->
  numeric_loop size n 0 out (high_groups fuel v acc) = numeric_loop size n v out acc.
Proof.
  revert v acc. induction fuel as [|fuel IH]; intros v acc Hv Hf.
  - cbn in Hf. replace v with 0 by lia. reflexivity.
  - cbn [high_groups]. destruct (Z.eqb_spec v 0) as [->|Hne]; [reflexivity|].
    rewrite Nat2Z.inj_succ, Z.pow_succ_r in Hf by lia. rewrite land_7F, shiftr_7.
    assert (Hdm : v = 128 * (v / 128) + v mod 128) by (apply Z.div_mod; lia).
    assert (Hm : 0 <= v mod 128 < 128) by (apply Z.mod_pos_bound; lia).
    assert (Hd : 0 <= v / 128 < 2 ^ 25) by (split; [apply Z.div_pos; lia|]; lia).
    rewrite IH by (exact Hd || (apply Z.div_lt_upper_bound; lia)). cbn [numeric_loop].
    destruct (marked_group (v mod 128) Hm) as (Hlow & Hbit & Hz). rewrite Hlow, Hbit, Hz, group_value by assumption.
    rewrite <- Hdm. change (Z.shiftr UINT_MAX 7) with 33554431.
    destruct (Z.ltb_spec 33554431 (v / 128)); [lia|].
    destruct (Z.eqb_spec (v / 128) 0), (Z.eqb_spec (v mod 128) 0); cbn [andb Z.eqb]; lia || reflexivity.
Qed.

(** A whole subidentifier, when there is room for its text. *)
Lemma subidentifier_step size n v out rest :
  is_u32 v -> let text := if n =? size then first_component v else 46 :: print_u v in
  2 <= Z.of_nat (length text) < n ->
  numeric_loop size n 0 out (subidentifier v ++ rest) =
  numeric_loop size (n - Z.of_nat (length text)) 0 (out ++ text) rest.
Proof.
  intros Hv text Ht. unfold is_u32 in Hv.
  assert (Happ : forall fuel v acc, high_groups fuel v acc ++ rest = high_groups fuel v (acc ++ rest)).
  { induction fuel as [|fuel IH]; intros w acc; [reflexivity|]. cbn [high_groups].
    destruct (w =? 0); [reflexivity|apply IH]. }
  unfold subidentifier. rewrite Happ, shiftr_7, land_7F. cbn [app].
  assert (Hdm : v = 128 * (v / 128) + v mod 128) by (apply Z.div_mod; lia).
  assert (Hm : 0 <= v mod 128 < 128) by (apply Z.mod_pos_bound; lia).
  assert (Hd : 0 <= v / 128 < 2 ^ 25) by (split; [apply Z.div_pos; lia|]; lia).
  rewrite high_groups_value by (cbn; lia). cbn [numeric_loop].
  rewrite group_value, <- Hdm by assumption. change (Z.shiftr UINT_MAX 7) with 33554431.
  destruct (Z.ltb_spec 33554431 (v / 128)); [lia|].
  destruct (Z.eqb_spec (v mod 128) 0x80); [lia|]. rewrite andb_false_r.
  assert (Hbit : Z.land (v mod 128) 0x80 = 0).
  { apply Z.bits_inj'. intros i Hi. rewrite Z.land_spec, Z.bits_0. change 128 with (2 ^ 7).
    destruct (Z_lt_ge_dec i 7).
    - rewrite (Z.pow2_bits_false 7 i) by lia. apply andb_false_r.
    - rewrite Z.mod_pow2_bits_high by lia. reflexivity. }
  rewrite Hbit. cbn [Z.eqb]. fold text.
  destruct (Z.ltb_spec (Z.of_nat (length text)) 2); [lia|].
  destruct (Z.leb_spec n (Z.of_nat (length text))); [lia|]. reflexivity.
Qed.

Lemma arcs_text size n out arcs :
  n < size -> Forall is_u32 arcs ->
  let text := concat (map (fun a => 46 :: print_u a) arcs) in
  Z.of_nat (length text) < n ->
  numeric_loop size n 0 out (concat (map subidentifier arcs)) =
  (size - n + Z.of_nat (length text), out ++ text).
Proof.
  intros Hn Ha. revert n out Hn. induction Ha as [|a arcs Ha Harcs IH]; intros n out Hn; cbn zeta; intros Ht.
  - cbn. rewrite app_nil_r. f_equal. lia.
  - cbn [map concat] in *. rewrite length_app in *. cbn [length] in *. pose proof (print_u_nonempty a).
    rewrite subidentifier_step; destruct (Z.eqb_spec n size); try lia; [|exact Ha|cbn [length]; lia].
    rewrite IH by (cbn [length]; lia). cbn [length]. rewrite <- app_assoc. f_equal. lia.
Qed.

(** Round trip: the text of an encoded identifier is its arcs in dotted decimal,
    and its length what the call returns, whenever it fits the buffer with its
    terminator. *)
Theorem oid_numeric_string_dotted size a0 a1 arcs :
  0 <= a0 <= 2 -> 0 <= a1 -> (a0 < 2 -> a1 < 40) -> 40 * a0 + a1 < 2 ^ 32 -> Forall is_u32 arcs ->
  Z.of_nat (length (dotted a0 a1 arcs)) < size <= INT_MAX ->
  mbedtls_oid_get_numeric_string size (encode_oid a0 a1 arcs) =
  (Z.of_nat (length (dotted a0 a1 arcs)), dotted a0 a1 arcs).
Proof.
  intros H0 H1 H2 Hv Ha [Hs Hmax]. unfold mbedtls_oid_get_numeric_string.
  destruct (Z.ltb_spec INT_MAX size); [lia|]. unfold encode_oid.
  assert (Hne : forall fuel v acc, (length acc <= length (high_groups fuel v acc))%nat).
  { induction fuel as [|fuel IH]; intros v acc; cbn [high_groups]; [lia|].
    destruct (v =? 0); [lia|]. etransitivity; [|apply IH]. cbn. lia. }
  rewrite length_app. pose proof (Hne 4%nat (Z.shiftr (40 * a0 + a1) 7) [Z.land (40 * a0 + a1) 0x7F]) as Hl.
  fold (subidentifier (40 * a0 + a1)) in Hl. cbn [length] in Hl.
  destruct (Nat.leb_spec (length (subidentifier (40 * a0 + a1)) + length (concat (map subidentifier arcs))) 0); [lia|].
  assert (Hf : first_component (40 * a0 + a1) = (48 + a0) :: 46 :: print_u a1).
  { unfold first_component. assert (a0 = 0 \/ a0 = 1 \/ a0 = 2) as [-> | [-> | ->]] by lia.
    - destruct (Z.leb_spec 80 (40 * 0 + a1)), (Z.leb_spec 40 (40 * 0 + a1)); try lia. do 3 f_equal.
    - destruct (Z.leb_spec 80 (40 * 1 + a1)), (Z.leb_spec 40 (40 * 1 + a1)); try lia. do 3 f_equal. lia.
    - destruct (Z.leb_spec 80 (40 * 2 + a1)); [|lia]. do 3 f_equal. lia. }
  unfold dotted in *. cbn [length] in *. rewrite length_app in *. pose proof (print_u_nonempty a1).
  rewrite subidentifier_step by ((unfold is_u32; lia) || (rewrite Z.eqb_refl, Hf; cbn [length]; lia)).
  rewrite Z.eqb_refl, Hf. cbn [length].
  rewrite arcs_text by (exact Ha || lia). cbn [app]. f_equal. lia.
Qed.

Lemma oid_numeric_string_dotted_witness :
  mbedtls_oid_get_numeric_string 32 (encode_oid 1 2 [840; 113549; 1; 1; 1]) =
  (20, dotted 1 2 [840; 113549; 1; 1; 1]).
Proof.
  apply (oid_numeric_string_dotted 32 1 2 [840; 113549; 1; 1; 1]); try lia.
  - repeat (constructor; [unfold is_u32; lia|]). constructor.
  - split; [reflexivity|discriminate].
Defined.

(** What is refused: a size above [INT_MAX], no bytes at all, a subidentifier
    with leading zeros, one cut off, one of more than 32 bits, a full buffer. *)
Example refused :
  map (fun oid => fst (mbedtls_oid_get_numeric_string 8 oid))
    [[]; [0x80; 1]; [0x2A; 0x86]; [0x90; 0x80; 0x80; 0x80; 0x00]; encode_oid 1 2 [840; 113549]] =
  [MBEDTLS_ERR_ASN1_OUT_OF_DATA; MBEDTLS_ERR_ASN1_INVALID_DATA; MBEDTLS_ERR_ASN1_OUT_OF_DATA;
   MBEDTLS_ERR_ASN1_INVALID_DATA; MBEDTLS_ERR_OID_BUF_TOO_SMALL] /\
  fst (mbedtls_oid_get_numeric_string (INT_MAX + 1) [0x2A]) = MBEDTLS_ERR_ASN1_INVALID_LENGTH.
Proof. split; reflexivity. Qed.

End oid.
